(* ===== verification/_CoqProject ===== *)
-Q . S2P
Prelude.v
CString.v
Argv.v
PointerArray.v
Bitmap.v
BitmapClaims.v
NameFns.v
HashTable.v
ProcTable.v
Regex.v
RegexRoundtrip.v
LogicalGroup.v
LogicalGroupProps.v
LogicalGroupClaims.v
Dss.v
DssFormat.v
DssRoundtrip.v
DssValue.v
DssClaims.v
DssText.v
DssMessage.v
DssProgress.v
ScdTypes.v
Attributes.v
Scheduler.v
SchedulerProps.v
SchedulerRun.v
SchedulerLife.v
SchedulerInv.v
SchedulerEnd.v
SchedulerClaims.v
SchedulerNodes.v
SchedulerFaults.v
ScdPack.v
ScdPower.v
PowerClaims.v
Float64.v
OrcmUtil.v
FindItems.v
AnalyticsBase.v
EventSuppression.v
Dispatch.v
ScdLaunch.v
LaunchClaims.v
DispatchClaims.v
PointerMap.v
Database.v
TimeStamp.v
DbUtil.v
DbUtilClaims.v
DatabaseClaims.v
DispatchDb.v
Sensor.v
SensorSelect.v
SensorSelectClaims.v
SensorPack.v
SensorPackClaims.v
AnalyticsWindow.v
WindowProps.v
WindowClaims.v
AnalyticsAggregate.v
AnalyticsThreshold.v
AnalyticsFilter.v
WorkflowControl.v
WorkflowProps.v
WorkflowClaims.v
AnalyticsPipeline.v
PipelineProps.v
PipelineClaims.v
Config.v
ConfigProps.v
DssCompare.v
ConfigPack.v
ConfigRoundtrip.v
SensorTool.v
SensorClaims.v
SensorLife.v
AnalyticsSpatial.v
SpatialClaims.v
