(* ===== verification/Prelude.v ===== *)
(** * Verification of the core of Sensys (ORCM)

    Sensys is a cluster monitoring and management system in C on top of the
    OPAL and ORTE layers of Open MPI.  Its daemons name sets of nodes by
    expressions, keep named groups of nodes in hash tables and in an XML file,
    and exchange messages serialized by OPAL's data storage service.  On top of
    these a scheduler grants nodes to sessions, and analytics workflows pass
    sensor samples through chains of plugins that filter, condense and watch
    them; the sensors on the nodes are selected, sampled and tuned by a
    framework of their own, and what is to be kept goes to a database.  This
    library models these parts and proves them correct, or shows
    precisely where they are not.

    ** Parts of the program and where they are modelled

    - [Prelude.v] (this file): outcomes of C calls, return codes, machine
      integers, the shared tactics, hints and list lemmas.
    - [CString.v]: the C string functions the code uses ([isdigit], [strtol],
      [printf] of numbers, [strchr], ...) on lists of characters.
    - [Argv.v]: NULL-terminated arrays of strings, all of [opal/util/argv.c].
    - [PointerArray.v]: [opal/class/opal_pointer_array.c], growing arrays of
      pointers that hand out their lowest free index.
    - [Bitmap.v]: [opal/class/opal_bitmap.c], growing maps of bits on 64-bit
      words; [FindItems.v]: the search for named values of
      [orcm/util/utils.c], which marks what it found in such a map.
    - [HashTable.v]: [opal/class/opal_hash_table.c], open addressing with
      linear probing.  The table is a list of optional slots; one generic
      implementation over a class of key families stands for the three copies
      (uint32, uint64, byte keys) in the source, which are its instances.
      Growth and the backward-shift deletion are modelled as loops over the
      slots.
    - [ProcTable.v]: the two-level tables of the same file, from (jobid, vpid)
      to values, with a heap of inner tables so that a freed table that is
      still referred to is visible.
    - [Regex.v]: [orte/util/regex.c], compression of node names into
      expressions (a prefix, a digit count and ranges of numbers in brackets),
      their expansion, processes per
      node and character ranges.  [errno] is part of the state.
    - [LogicalGroup.v]: [orcm/util/logical_group.c], the groups: a hash table
      of pointers to member lists in a heap, adding, removing, listing, saving
      to and loading from a file, and the expansion of [$group] items.  The
      parser plugin (C++ over an XML library) and the creation of files are
      the class [Parser], with the laws the callers rely on in [ParserLaws].
    - [Dss.v]: [opal/dss], growing buffers, packing and unpacking of typed
      arrays, described and undescribed buffers, peek, load, unload and
      payload copies.
    - [DssValue.v]: the functions registered for key-value pairs
      ([opal_value_t]) and their theorems.

    - [DssCompare.v]: comparison and copies of values of the registered types,
      and what they get wrong.
    - [DssText.v], [DssMessage.v]: C strings and signed integers inside
      messages, and messages as sequences of items.
    - [Attributes.v]: the attributes of [orte/util/attr.c] and the names of
      their keys ([orcm/util/attr.c]).
    - [ScdTypes.v], [Scheduler.v]: the scheduler, [orcm/mca/scd]: its queues,
      the [pmf] module, the resource manager and the handlers of node and
      session messages.  The state is one record with the event queues of the
      two threads; a turn of a thread runs the handler of its next event.
    - [ScdPack.v]: packing of allocations and their attributes
      ([scd_dt_fns.c], [orte_dt_packing_fns.c], [orte_dt_unpacking_fns.c]).
    - [ScdPower.v]: the power settings of sessions, on the side of the
      operator's tool ([orcm/tools/octl/session.c]) and of the scheduler
      ([scd_base_recv.c]).
    - [Float64.v]: the [double]s of the analytics, IEEE binary64 of the
      Standard Library, and the order on them.
    - [OrcmUtil.v]: the values and lists of values of [orcm/util/utils.c].
    - [AnalyticsBase.v], [EventSuppression.v]: the common part of the
      analytics plugins ([orcm/mca/analytics/base]): samples, events, and the
      suppression of repeated events.
    - [AnalyticsWindow.v], [AnalyticsAggregate.v], [AnalyticsThreshold.v],
      [AnalyticsFilter.v]: the plugins of the same names.  A plugin is a
      function from its state and a caddy to a status, its new state, the
      events it raises and the sample it passes on.
    - [WorkflowControl.v]: adding, removing and listing workflows over
      messages, on the side of the operator's tool and of the aggregator.
    - [NameFns.v]: process names, their strings and their comparison
      ([orte/util/name_fns.c]).
    - [Config.v], [ConfigPack.v]: the configuration of a system as a tree of
      clusters, rows, racks and nodes ([orcm/mca/cfgi/base]): its objects, the
      choice of the plugin that reads it, lookups, comparison, printing and
      packing.
    - [AnalyticsPipeline.v]: samples sent to the workflows and the threads
      that pass them from step to step.
    - [AnalyticsSpatial.v]: the plugin that computes over all nodes of a list
      ([orcm/mca/analytics/spatial]).

    - [Dispatch.v]: the dispatcher of events and its module [dfg]
      ([orcm/mca/dispatch]), which stores events, notifies, or asks the
      scheduler for an executable.
    - [ScdLaunch.v]: the scheduler's side of such a request
      ([scd_base_recv.c]).
    - [PointerMap.v]: pointer arrays as finite maps, and the loops over their
      entries that the frameworks below share.
    - [Database.v]: the database framework ([orcm/mca/db/base]), the table of
      open databases and the requests its thread serves.  The modules of the
      clients are records of functions on a world [W].
    - [DbUtil.v], [TimeStamp.v]: the values, queries and time stamps of
      [db_base_utils.c], over the calendar of [gmtime] and [strftime].
    - [DispatchDb.v]: the dispatcher and the database framework together, two
      threads with a queue between them.
    - [Sensor.v], [SensorSelect.v]: the sensor framework
      ([orcm/mca/sensor/base]): selection and initialization of the plugins,
      start and stop, samples, inventory, and the commands of the operator for
      rates, policies and sampling.  A plugin is a record of functions; of the
      plugin coretemp the two functions for the rate are modelled.
    - [SensorPack.v]: how plugins pack samples, and how they are read back
      ([sensor_base_fns.c]).
    - [SensorTool.v]: the operator's commands for sample rates and sampling
      ([orcm/tools/octl/sensor.c]).  The daemons the tool speaks to are the
      class [Network]; a cluster of modelled daemons is its instance.

    Components call each other as in the source: expansion uses [Argv] and
    [CString]; the groups use [HashTable], [Argv] and [Regex]; the process
    tables use [HashTable]; the scheduler uses [Regex] and [Dss]; the event
    suppression keeps its time stamps in a [HashTable]; the filter expands
    node expressions through the class [Expander], which the logical groups
    implement; the control of workflows, the power settings, the sensor commands
    and the requests of the dispatcher speak through [Dss]; the database and
    sensor frameworks keep their handles and modules in a [PointerArray]; the
    sensor commands find their nodes through [Config].

    ** How state and errors are represented

    A C function is a Rocq function with the state it changes as argument and
    result; error codes are returned as in the source.  [outcome] adds
    undefined behaviour ([Ub]: out of bounds, NULL or freed pointers) and an
    exhausted loop budget ([Diverge]).  Integers are [Z] with wrap-around
    written out where the width matters.  Allocation failure is modelled where
    the source reacts to it in a way that matters (hash tables, serialization
    buffers); elsewhere allocations succeed.

    ** What the theorems show

    - Hash tables ([HashTable.v]): every sequence of operations refines a
      finite map ([hash_table_refines_map]), traversal visits every entry once,
      and what happens when growing fails.  [ProcTable.v]: the two-level table
      refines a map with pairs as keys.  [PointerArray.v]: a growing array
      refines a finite map from indices, an addition takes the lowest free
      index, and what sizes an operation can be refused.  [BitmapClaims.v]: a map of bits refines a finite set, the bitwise
      operations are those of sets, and where sizes in bits and in words are
      confused.  [FindItems.v]: exactly the named values are found and marked.
    - String arrays ([Argv.v]): split and join are inverse, insertion and
      deletion at a position, unique append.
    - Node expressions ([RegexRoundtrip.v]): expansion after compression gives
      a permutation of names with one number at most, expansion never leaves its buffers when digit
      counts are not negative, processes per node; and the inputs on which
      these fail.
    - Logical groups ([LogicalGroupProps.v], [LogicalGroupClaims.v]): the
      representation predicate [groups_rep] and the effect of each operation on
      the represented groups, save and load as a round trip, expansion of
      nested groups to the reachable nodes; and the cases the code gets wrong.
    - Serialization ([DssFormat.v], [DssRoundtrip.v], [DssClaims.v]): packing
      produces the format, unpacking inverts it, messages of up to [2^31 - 1]
      bytes (the length is an [int32_t]) survive unloading and loading,
      truncated and mistyped messages are refused, short arrays receive a prefix; key-value pairs of
      the scalar types survive the trip, arrays and pointers do not.

    - Scheduler: every reachable state is well formed, and the three ways in
      which a callback of its thread can go wrong ([SchedulerInv.v],
      [SchedulerClaims.v]); a session submitted to an idle scheduler runs and
      gives its nodes back, however the two threads are interleaved
      ([SchedulerRun.v], [SchedulerLife.v], [SchedulerEnd.v]); scheduling is
      first come, first served; nodes that fail or are drained leave the free
      list ([SchedulerNodes.v]); and the states in which two sessions get the
      same nodes or a queue is corrupted ([SchedulerFaults.v]).
    - Power settings ([PowerClaims.v]): what an operator sets is what the
      operator reads back, through messages, attributes and answers, provided
      the four bytes behind the variable for the session number are free: the
      handlers unpack eight bytes into four ([power_session_overflow]).
    - Analytics: the window plugin refines windows over the list of samples
      ([WindowProps.v], [WindowClaims.v]); minima and maxima are those of the
      values seen; a threshold reports exactly the values beyond its marks; a
      filter
      passes exactly the samples and items its attributes name; repeat
      suppression is a rate limiter per kind of event; the spatial plugin
      answers each round when its last node has reported or its time is over
      ([SpatialClaims.v]).
    - Workflows ([WorkflowProps.v], [WorkflowClaims.v]): the tool, the
      serializer and the aggregator together implement the commands, and no
      message at all can make two workflows share an identifier.
    - Process names and configurations ([NameFns.v], [ConfigProps.v],
      [ConfigRoundtrip.v]): names and configurations survive conversion and
      packing, comparison is a total order on the fields it looks at, lookups
      by daemon and by host name are inverse; and that schedulers packed
      together are lost.
    - Alarms and samples ([DispatchClaims.v], [LaunchClaims.v]): an alarm of
      the analytics reaches the notifier, or makes the scheduler launch the
      executable it names, exactly once; no message can make the scheduler
      launch anything outside its directory of executables; samples are stored
      in order and committed in groups.
    - Running workflows ([PipelineProps.v], [PipelineClaims.v]): however
      arrivals and threads are interleaved, a workflow that begins with a filter
      and goes on with filters, windows, aggregates and thresholds computes
      what its steps compute one after the other on all the samples, and its
      queue runs empty.
    - Database ([DatabaseClaims.v], [DispatchDb.v], [DbUtilClaims.v]): the
      framework is a finite map from handles to open databases, stated as a
      relation between requests and answers; every sample that is dispatched
      once the database is open reaches the module, in order and with its
      commits, however the threads of the dispatcher and the framework
      interleave, and those before are lost; different requests give
      different queries as long as values hold no quote; times survive the
      trip through their text; and that a late rollback or a quote in a value
      does harm.
    - Sensors ([SensorSelectClaims.v], [SensorPackClaims.v],
      [SensorClaims.v], [SensorLife.v]): the best offer for each quantity is
      chosen and they are started in the order of priority; samples arrive as
      packed up to the bound of their counter; a rate set on a list of nodes
      is what their plugins make of it and is read back from them (the plugin
      coretemp ignores it unless it has a thread of its own); no message makes two policies share a
      key; and that a restarted aggregator has lost its database.
    - Progress of reading ([DssProgress.v]): unpacking stays inside the
      message and never moves backwards, whatever bytes it holds.

    ** Bounds and fuel

    Loops that are not structural take fuel.  Probing and compaction of a table
    of [n] slots get one step per slot: the theorems prove that a table with a
    vacant slot never exhausts them, and that a full table exhausts any amount.
    Expansion of nested groups takes a fuel argument: the theorem gives a
    sufficient amount when no group is reached twice, and divergence is proved
    for every amount when two groups hold each other.  Doubling a buffer size
    gets 65 steps, enough for any positive [size_t].  Round-trip theorems bound
    what the code bounds implicitly: up to nine digits in a node name (an [int]
    in the source), messages of at most [2^31 - 1] bytes where they are sent,
    and buffers below [2^62] bytes where they are only filled.  Sorting the sensor modules by
    priority gets twice the size of the table; reading values or inventory gets
    one step per byte of the message, and the theorems prove that both suffice
    for every message.  Tables of handles and modules are bounded by [2^29]
    entries, far below where an [int] would overflow.

    ** Assumptions of the models

    A handler of the scheduler runs to its end before the other thread's next
    handler, and [errno] is kept per thread.  Node and session messages arrive
    decoded; the result of sending, the comparison of topologies and the user
    of a session are parameters.  An object that would be linked into two
    lists ends the run, as the assertion of the debug build does: its links
    would lead from one list into the other; [scd_invariant] says where it
    happens.  In the analytics the
    time of day, [pow], [strtod], the printing of a [double] and the default
    interval are parameters, allocations succeed, and a read of the wrong
    member of a union is undefined behaviour unless the bytes decide it.

    ** Not modelled

    Floats, statistics and nested buffers of the serialization layer enter
    [Dss.v] as the parameters [registered], [other_pack] and [other_unpack];
    its print functions are left out.  Of the scheduler the
    node information and database commands are left out, of the analytics the
    start-up of the framework and the plugins genex (POSIX regular
    expressions) and cott.  The sensor plugins read devices and files of the
    system, the database clients call ODBC, PostgreSQL or zlib, and the
    diagnostics run hardware tests: each is a parameter where a framework calls
    it.  The run-time metrics of the sensors and the parser plugin are C++.
    The parsing of configuration files works on the XML tree of that plugin.
    The rest of the tools and daemons and the ORTE messaging layer are input,
    output and start-up code; what a component sends or posts is a value of its
    model instead. *)

From stdpp Require Import base list gmap strings numbers.
From Stdlib Require Import ZArith Lia.

Open Scope Z_scope.

(** ** Outcomes of a C call

    [Ret a] is a normal return.  [Ub] is undefined behaviour: an access out
    of bounds, a NULL pointer dereference, a division by zero.  [Diverge] is
    an exhausted loop budget; theorems about loops exclude it explicitly. *)
Inductive outcome (A : Type) : Type :=
| Ret (a : A)
| Ub
| Diverge.
Arguments Ret {A} a.
Arguments Ub {A}.
Arguments Diverge {A}.

#[export] Instance outcome_ret : MRet outcome := fun A a => Ret a.
#[export] Instance outcome_bind : MBind outcome := fun A B f m =>
  match m with Ret a => f a | Ub => Ub | Diverge => Diverge end.
#[export] Instance outcome_fmap : FMap outcome := fun A B f m =>
  match m with Ret a => Ret (f a) | Ub => Ub | Diverge => Diverge end.

(** A pointer that is dereferenced. *)
Definition deref {A} (p : option A) : outcome A := match p with Some a => Ret a | None => Ub end.

Definition returns {A} (m : outcome A) : Prop := exists a, m = Ret a.

Lemma bind_Ret {A B} (a : A) (f : A -> outcome B) : (Ret a ≫= f) = f a.
Proof. reflexivity. Qed.

Lemma bind_Ret_inv {A B} (m : outcome A) (f : A -> outcome B) b :
  (m ≫= f) = Ret b -> exists a, m = Ret a /\ f a = Ret b.
Proof. destruct m; simpl; intros; [eauto | discriminate | discriminate]. Qed.

(** ** Return codes

    The codes of [opal/include/opal/constants.h],
    [orte/include/orte/constants.h] and [orcm/include/orcm/constants.h]: the
    three layers share their values below -100, ORTE's own codes start there
    and ORCM's own codes below -200. *)
Definition OPAL_SUCCESS : Z := 0.
Definition OPAL_ERROR : Z := -1.
Definition OPAL_ERR_OUT_OF_RESOURCE : Z := -2.
Definition OPAL_ERR_BAD_PARAM : Z := -5.
Definition OPAL_ERR_NOT_SUPPORTED : Z := -8.
Definition OPAL_ERR_NOT_FOUND : Z := -13.
Definition OPAL_ERR_FILE_WRITE_FAILURE : Z := -20.
Definition OPAL_ERR_FILE_OPEN_FAILURE : Z := -21.
Definition OPAL_ERR_PACK_MISMATCH : Z := -22.
Definition OPAL_ERR_PACK_FAILURE : Z := -23.
Definition OPAL_ERR_UNPACK_FAILURE : Z := -24.
Definition OPAL_ERR_UNPACK_INADEQUATE_SPACE : Z := -25.
Definition OPAL_ERR_UNPACK_READ_PAST_END_OF_BUFFER : Z := -26.
Definition OPAL_ERR_UNKNOWN_DATA_TYPE : Z := -29.
Definition OPAL_ERR_MAX : Z := -100.
Definition ORTE_ERR_MAX : Z := OPAL_ERR_MAX - 100.
Definition ORCM_ERR_BASE : Z := ORTE_ERR_MAX.
Definition ORCM_ERR_NO_ANY_GROUP : Z := ORCM_ERR_BASE - 3.
Definition ORCM_ERR_GROUP_NOT_EXIST : Z := ORCM_ERR_BASE - 4.
Definition ORCM_ERR_NODE_NOT_EXIST : Z := ORCM_ERR_BASE - 5.

(** ** Machine integers *)
Definition wrap (w : Z) (z : Z) : Z := z mod 2 ^ w.
Definition u64 (z : Z) : Z := wrap 64 z.
Definition u32 (z : Z) : Z := wrap 32 z.

(** Conversion to a signed [w]-bit integer (gcc's modulo behaviour). *)
Definition sgn (w : Z) (z : Z) : Z :=
  let m := wrap w z in if m <? 2 ^ (w - 1) then m else m - 2 ^ w.
Definition i32 (z : Z) : Z := sgn 32 z.
Definition i64 (z : Z) : Z := sgn 64 z.

Definition INT_MAX : Z := 2 ^ 31 - 1.
Definition INT_MIN : Z := - 2 ^ 31.
Definition LONG_MAX : Z := 2 ^ 63 - 1.
Definition LONG_MIN : Z := - 2 ^ 63.

Lemma wrap_small w z : 0 <= z < 2 ^ w -> wrap w z = z.
Proof. intros; unfold wrap; apply Z.mod_small; lia. Qed.

Lemma u64_small z : 0 <= z < 2 ^ 64 -> u64 z = z.
Proof. apply wrap_small. Qed.

Lemma wrap_range w z : 0 < w -> 0 <= wrap w z < 2 ^ w.
Proof. intros; unfold wrap; apply Z.mod_pos_bound; lia. Qed.

Lemma sgn_small w z : 0 < w -> - 2 ^ (w - 1) <= z < 2 ^ (w - 1) -> sgn w z = z.
Proof.
  intros Hw Hz. unfold sgn, wrap.
  assert (Hp : 2 ^ w = 2 * 2 ^ (w - 1)).
  { rewrite <- Z.pow_succ_r by lia. f_equal; lia. }
  destruct (Z.leb_spec 0 z).
  - rewrite Z.mod_small by lia. destruct (Z.ltb_spec z (2 ^ (w - 1))); lia.
  - rewrite <- (Z.mod_add z 1) by lia. rewrite Z.mod_small by lia.
    destruct (Z.ltb_spec (z + 1 * 2 ^ w) (2 ^ (w - 1))); lia.
Qed.

Lemma i32_small z : INT_MIN <= z <= INT_MAX -> i32 z = z.
Proof. unfold INT_MIN, INT_MAX; intros; apply sgn_small; lia. Qed.

Lemma sgn_range w z : 0 < w -> - 2 ^ (w - 1) <= sgn w z < 2 ^ (w - 1).
Proof.
  intros Hw. unfold sgn. pose proof (wrap_range w z Hw).
  assert (Hp : 2 ^ w = 2 * 2 ^ (w - 1)).
  { rewrite <- Z.pow_succ_r by lia. f_equal; lia. }
  destruct (Z.ltb_spec (wrap w z) (2 ^ (w - 1))); lia.
Qed.

(** ** Automation *)
Create HintDb sensys.
Create Rewrite HintDb sensys.
#[export] Hint Rewrite @bind_Ret : sensys.
#[export] Hint Rewrite u64_small i32_small using lia : sensys.
#[export] Hint Resolve wrap_range sgn_range : sensys.

(** Split every boolean comparison of the goal or the context into its
    arithmetic meaning. *)
Ltac zcase :=
  repeat match goal with
  | |- context [Z.eqb ?a ?b] => destruct (Z.eqb_spec a b)
  | |- context [Z.leb ?a ?b] => destruct (Z.leb_spec a b)
  | |- context [Z.ltb ?a ?b] => destruct (Z.ltb_spec a b)
  | |- context [Nat.eqb ?a ?b] => destruct (Nat.eqb_spec a b)
  | |- context [Nat.leb ?a ?b] => destruct (Nat.leb_spec a b)
  | |- context [Nat.ltb ?a ?b] => destruct (Nat.ltb_spec a b)
  end.

(** ** Lists shared by the components *)
Section Lists.
Context {A : Type}.
Implicit Types (l : list A).

(** Position of the first element satisfying [P], as the [for] loops of the
    parsers search. *)
Fixpoint find_index (P : A -> bool) (l : list A) : option nat :=
  match l with
  | [] => None
  | x :: l => if P x then Some O else S <$> find_index P l
  end.

Lemma find_index_Some (P : A -> bool) l i :
  find_index P l = Some i ->
  exists x, l !! i = Some x /\ P x = true /\
            Forall (fun y => P y = false) (take i l).
Proof.
  revert i; induction l as [|a l IH]; intros i; simpl; [discriminate|].
  destruct (P a) eqn:Ea; intros H.
  - inv H. exists a; simpl; auto.
  - apply fmap_Some in H as (j & Hj & ->).
    destruct (IH _ Hj) as (x & ? & ? & ?). exists x; simpl; auto.
Qed.

Lemma find_index_lt (P : A -> bool) l i :
  find_index P l = Some i -> (i < length l)%nat.
Proof.
  intros (x & Hx & _)%find_index_Some. by apply lookup_lt_Some in Hx.
Qed.

Lemma find_index_None (P : A -> bool) l :
  find_index P l = None <-> Forall (fun y => P y = false) l.
Proof.
  induction l as [|a l IH]; simpl; [by split; auto|].
  destruct (P a) eqn:Ea; [split; [done | intros H; inv H; congruence]|].
  rewrite Forall_cons_iff, <- IH.
  destruct (find_index P l); simpl; naive_solver.
Qed.

Lemma find_index_app (P : A -> bool) l x l' :
  Forall (fun y => P y = false) l -> P x = true ->
  find_index P (l ++ x :: l') = Some (length l).
Proof.
  intros Hl Hx; induction Hl as [|a l Ha Hl IH]; simpl.
  - by rewrite Hx.
  - by rewrite Ha, IH.
Qed.

Lemma Forall_imp (P Q : A -> Prop) l :
  (forall x, P x -> Q x) -> Forall P l -> Forall Q l.
Proof. intros H HP; induction HP; auto. Qed.

End Lists.
