(* ===== verification/CString.v ===== *)
(** * C strings and the parts of the C library the parsers use

    A C string is the list of its characters before the terminating NUL; a
    [char *] that may be NULL is an [option cstr].  The library functions are
    those the modelled sources call: [isdigit], [isalpha] and [isspace] in the
    C locale, [strtol] in base 10 with its clamping and its [ERANGE] report,
    [printf]'s decimal conversions, [strchr] and [strcmp]. *)

From S2P Require Import Prelude.
From stdpp Require Import base strings numbers list.
From Stdlib Require Import ZArith Lia Ascii.

Open Scope Z_scope.

Abbreviation cstr := (list ascii).

(** String literals of the source. *)
Definition cs (s : string) : cstr := String.list_ascii_of_string s.

Definition char_Z (c : ascii) : Z := Z.of_N (N_of_ascii c).

Definition isdigit (c : ascii) : bool := (48 <=? char_Z c) && (char_Z c <=? 57).
Definition isalpha (c : ascii) : bool :=
  ((65 <=? char_Z c) && (char_Z c <=? 90)) || ((97 <=? char_Z c) && (char_Z c <=? 122)).
Definition isspace (c : ascii) : bool :=
  (char_Z c =? 32) || ((9 <=? char_Z c) && (char_Z c <=? 13)).

Definition eqc (c d : ascii) : bool := bool_decide (c = d).
Definition strcmp0 (s t : cstr) : bool := bool_decide (s = t).

(** [strchr s c]: the offset of the first [c]. *)
Definition strchr (s : cstr) (c : ascii) : option nat := find_index (eqc c) s.

(** ** Decimal input: [strtol(s, &end, 10)] on an LP64 platform *)
Definition dec_value (acc : Z) (ds : cstr) : Z :=
  foldl (fun a c => 10 * a + (char_Z c - 48)) acc ds.

(** Longest prefix of digits and what follows it. *)
Fixpoint span_digits (s : cstr) : cstr * cstr :=
  match s with
  | c :: s' => if isdigit c then let '(ds, r) := span_digits s' in (c :: ds, r) else ([], s)
  | [] => ([], [])
  end.

Fixpoint skip_space (s : cstr) : cstr :=
  match s with
  | c :: s' => if isspace c then skip_space s' else s
  | [] => []
  end.

Definition strtol_sign (s : cstr) : bool * cstr :=
  match s with
  | c :: s' => if eqc c "-" then (true, s') else if eqc c "+" then (false, s') else (false, s)
  | [] => (false, [])
  end.

(** Value, the tail [end] points to, and whether [errno] was set to
    [ERANGE].  Without any digit the value is 0 and [end] is [s]. *)
Definition strtol10 (s : cstr) : Z * cstr * bool :=
  let '(neg, s2) := strtol_sign (skip_space s) in
  let '(ds, rest) := span_digits s2 in
  match ds with
  | [] => (0, s, false)
  | _ :: _ =>
    let v := if neg then - dec_value 0 ds else dec_value 0 ds in
    if LONG_MAX <? v then (LONG_MAX, rest, true)
    else if v <? LONG_MIN then (LONG_MIN, rest, true)
    else (v, rest, false)
  end.

(** ** Decimal output *)
Definition digit_char (d : Z) : ascii := ascii_of_N (Z.to_N (48 + d)).

(** The [w] low decimal digits of [n], most significant first. *)
Fixpoint dec_pad (w : nat) (n : Z) : cstr :=
  match w with
  | O => []
  | S w' => dec_pad w' (n / 10) ++ [digit_char (n mod 10)]
  end.

Fixpoint ndigits_fuel (fuel : nat) (n : Z) : nat :=
  match fuel with
  | O => 1
  | S f => if n <? 10 then 1 else S (ndigits_fuel f (n / 10))
  end.

(** Number of decimal digits of [n >= 0] (1 for 0). *)
Definition ndigits (n : Z) : nat := ndigits_fuel (Z.to_nat (Z.log2 n)) n.

(** [%lu]/[%d] of a non-negative number, and [%d] of any. *)
Definition dec (n : Z) : cstr := dec_pad (ndigits n) n.
Definition fmt_d (n : Z) : cstr := if n <? 0 then "-"%char :: dec (- n) else dec n.

(** ** Facts about characters and decimal strings *)
Lemma eqc_refl c : eqc c c = true.
Proof. by apply bool_decide_eq_true_2. Qed.

Lemma eqc_ne c d : c <> d -> eqc c d = false.
Proof. intros. by apply bool_decide_eq_false_2. Qed.

Lemma eqc_true c d : eqc c d = true -> c = d.
Proof. apply bool_decide_eq_true_1. Qed.

Lemma eqc_false c d : eqc c d = false -> c <> d.
Proof. apply bool_decide_eq_false_1. Qed.

Lemma strcmp0_true s t : strcmp0 s t = true <-> s = t.
Proof. apply bool_decide_eq_true. Qed.

Lemma strcmp0_false s t : strcmp0 s t = false <-> s <> t.
Proof. apply bool_decide_eq_false. Qed.

#[export] Hint Rewrite eqc_refl : sensys.

Lemma digit_char_Z d : 0 <= d <= 9 -> char_Z (digit_char d) = 48 + d.
Proof.
  intros Hd. unfold char_Z, digit_char. rewrite N_ascii_embedding by lia. lia.
Qed.

Lemma isdigit_digit_char d : 0 <= d <= 9 -> isdigit (digit_char d) = true.
Proof. intros Hd. unfold isdigit. rewrite digit_char_Z by lia. lia. Qed.

Lemma char_Z_inj c d : char_Z c = char_Z d -> c = d.
Proof.
  unfold char_Z; intros H%N2Z.inj.
  rewrite <- (ascii_N_embedding c), <- (ascii_N_embedding d). by rewrite H.
Qed.

Lemma isdigit_range c : isdigit c = true -> 48 <= char_Z c <= 57.
Proof. unfold isdigit. lia. Qed.

Lemma digit_char_of c : isdigit c = true -> digit_char (char_Z c - 48) = c.
Proof.
  intros H%isdigit_range. apply char_Z_inj. rewrite digit_char_Z by lia. lia.
Qed.

Lemma dec_pad_length w n : length (dec_pad w n) = w.
Proof.
  revert n; induction w as [|w IH]; intros n; simpl; [done|].
  rewrite length_app, IH. simpl. lia.
Qed.

Lemma dec_pad_digits w n : Forall (fun c => isdigit c = true) (dec_pad w n).
Proof.
  revert n; induction w as [|w IH]; intros n; simpl; [constructor|].
  apply Forall_app; split; [apply IH|]. constructor; [|constructor].
  apply isdigit_digit_char. pose proof (Z.mod_pos_bound n 10). lia.
Qed.

Lemma dec_value_app acc s t : dec_value acc (s ++ t) = dec_value (dec_value acc s) t.
Proof. unfold dec_value. by rewrite foldl_app. Qed.

Lemma dec_value_pad w n acc :
  0 <= n -> dec_value acc (dec_pad w n) = acc * 10 ^ Z.of_nat w + n mod 10 ^ Z.of_nat w.
Proof.
  revert n acc; induction w as [|w IH]; intros n acc Hn.
  - simpl. rewrite Z.mod_1_r. lia.
  - cbn [dec_pad]. rewrite dec_value_app, IH by (apply Z.div_pos; lia).
    unfold dec_value at 1; cbn [foldl].
    rewrite digit_char_Z by (pose proof (Z.mod_pos_bound n 10); lia).
    rewrite Nat2Z.inj_succ, Z.pow_succ_r by lia.
    assert (Hp : 0 < 10 ^ Z.of_nat w) by (apply Z.pow_pos_nonneg; lia).
    rewrite (Z.rem_mul_r n 10 (10 ^ Z.of_nat w)) by lia. lia.
Qed.

Lemma dec_value_pad_small w n :
  0 <= n < 10 ^ Z.of_nat w -> dec_value 0 (dec_pad w n) = n.
Proof. intros. rewrite dec_value_pad, Z.mod_small by lia. lia. Qed.

Lemma dec_value_bound ds acc :
  0 <= acc -> Forall (fun c => isdigit c = true) ds ->
  acc * 10 ^ Z.of_nat (length ds) <= dec_value acc ds
  < (acc + 1) * 10 ^ Z.of_nat (length ds).
Proof.
  intros Ha Hds; revert acc Ha; induction Hds as [|c ds Hc Hds IH]; intros acc Ha.
  - simpl. unfold dec_value; simpl. lia.
  - apply isdigit_range in Hc.
    change (dec_value acc (c :: ds)) with (dec_value (10 * acc + (char_Z c - 48)) ds).
    specialize (IH (10 * acc + (char_Z c - 48)) ltac:(lia)).
    cbn [length]. rewrite Nat2Z.inj_succ, Z.pow_succ_r by lia.
    assert (0 < 10 ^ Z.of_nat (length ds)) by (apply Z.pow_pos_nonneg; lia). nia.
Qed.

Lemma dec_value_range ds :
  Forall (fun c => isdigit c = true) ds -> 0 <= dec_value 0 ds < 10 ^ Z.of_nat (length ds).
Proof. intros H. pose proof (dec_value_bound ds 0 ltac:(lia) H). lia. Qed.

(** Printing the value of a digit string at its own width gives it back. *)
Lemma dec_pad_value ds :
  Forall (fun c => isdigit c = true) ds -> dec_pad (length ds) (dec_value 0 ds) = ds.
Proof.
  induction ds as [|c ds IH] using rev_ind; intros H; [done|].
  apply Forall_app in H as [Hds [Hc _]%Forall_cons_iff].
  rewrite length_app; simpl. rewrite Nat.add_1_r. cbn [dec_pad].
  rewrite dec_value_app. unfold dec_value at 1 3; cbn [foldl].
  pose proof (isdigit_range _ Hc).
  replace ((10 * dec_value 0 ds + (char_Z c - 48)) / 10) with (dec_value 0 ds)
    by (rewrite Z.mul_comm, Z.div_add_l by lia; rewrite Z.div_small by lia; lia).
  replace ((10 * dec_value 0 ds + (char_Z c - 48)) mod 10) with (char_Z c - 48)
    by (rewrite Z.add_comm, Z.mul_comm, Z.mod_add by lia; rewrite Z.mod_small by lia; lia).
  rewrite IH, digit_char_of by done. done.
Qed.

Lemma dec_pad_app a b n :
  dec_pad (a + b) n = dec_pad a (n / 10 ^ Z.of_nat b) ++ dec_pad b n.
Proof.
  revert n; induction b as [|b IH]; intros n.
  - rewrite Nat.add_0_r. simpl. by rewrite Z.div_1_r, app_nil_r.
  - rewrite Nat.add_succ_r. cbn [dec_pad]. rewrite IH, <- app_assoc.
    rewrite Nat2Z.inj_succ, Z.pow_succ_r, Z.div_div by lia. done.
Qed.

Lemma dec_pad_0 w : dec_pad w 0 = replicate w "0"%char.
Proof.
  induction w as [|w IH]; [done|]. cbn [dec_pad]. rewrite Z.div_0_l, IH by lia.
  rewrite <- replicate_cons_app. done.
Qed.

Lemma ndigits_fuel_spec fuel n :
  0 <= n < 10 ^ Z.of_nat (S fuel) ->
  n < 10 ^ Z.of_nat (ndigits_fuel fuel n) /\
  (1 <= ndigits_fuel fuel n)%nat /\
  (1 <= n -> 10 ^ (Z.of_nat (ndigits_fuel fuel n) - 1) <= n).
Proof.
  revert n; induction fuel as [|f IH]; intros n Hn.
  - simpl in *. split_and!; simpl; lia.
  - cbn [ndigits_fuel]. destruct (Z.ltb_spec n 10) as [Hlt|Hge].
    + split_and!; simpl; lia.
    + rewrite Nat2Z.inj_succ, Z.pow_succ_r in Hn by lia.
      destruct (IH (n / 10)) as (H1 & H2 & H3).
      { split; [apply Z.div_pos; lia|]. apply Z.div_lt_upper_bound; lia. }
      assert (Hq : 1 <= n / 10) by (apply Z.div_le_lower_bound; lia).
      specialize (H3 Hq).
      pose proof (Z.div_mod n 10). pose proof (Z.mod_pos_bound n 10).
      split_and!; [| lia |].
      * rewrite Nat2Z.inj_succ, Z.pow_succ_r by lia. lia.
      * intros _. rewrite Nat2Z.inj_succ.
        replace (Z.succ (Z.of_nat (ndigits_fuel f (n / 10))) - 1)
          with (Z.succ (Z.of_nat (ndigits_fuel f (n / 10)) - 1)) by lia.
        rewrite Z.pow_succ_r by lia. lia.
Qed.

Lemma ndigits_spec n :
  0 <= n ->
  n < 10 ^ Z.of_nat (ndigits n) /\ (1 <= ndigits n)%nat /\
  (1 <= n -> 10 ^ (Z.of_nat (ndigits n) - 1) <= n).
Proof.
  intros Hn. apply ndigits_fuel_spec. split; [done|].
  rewrite Nat2Z.inj_succ, Z2Nat.id by apply Z.log2_nonneg.
  destruct (Z.eq_dec n 0) as [->|Hnz]; [simpl; lia|].
  pose proof (Z.log2_spec n ltac:(lia)) as [_ H].
  eapply Z.lt_le_trans; [exact H|]. apply Z.pow_le_mono_l. lia.
Qed.

Lemma dec_value_dec n : 0 <= n -> dec_value 0 (dec n) = n.
Proof.
  intros Hn. unfold dec. apply dec_value_pad_small.
  destruct (ndigits_spec n Hn) as (? & _). lia.
Qed.

Lemma ndigits_le w n : 0 <= n < 10 ^ Z.of_nat w -> (1 <= w)%nat -> (ndigits n <= w)%nat.
Proof.
  intros Hn Hw. destruct (ndigits_spec n) as (_ & H1 & H2); [lia|].
  destruct (Z.eq_dec n 0) as [->|Hnz]; [done|].
  assert (10 ^ (Z.of_nat (ndigits n) - 1) < 10 ^ Z.of_nat w) by lia.
  apply Z.pow_lt_mono_r_iff in H; lia.
Qed.

(** Zero padding [dec n] on the left to width [w] prints [w] digits. *)
Lemma zero_pad_dec w n :
  0 <= n -> (ndigits n <= w)%nat ->
  replicate (w - ndigits n) "0"%char ++ dec n = dec_pad w n.
Proof.
  intros Hn Hw. destruct (ndigits_spec n Hn) as (H1 & _ & _).
  replace w with ((w - ndigits n) + ndigits n)%nat at 2 by lia.
  rewrite dec_pad_app, Z.div_small, dec_pad_0 by lia. done.
Qed.

Lemma span_digits_app ds rest :
  Forall (fun c => isdigit c = true) ds ->
  match rest with c :: _ => isdigit c = false | [] => True end ->
  span_digits (ds ++ rest) = (ds, rest).
Proof.
  intros Hds Hr; induction Hds as [|c ds Hc Hds IH]; simpl.
  - destruct rest as [|c r]; simpl; [done|]. by rewrite Hr.
  - by rewrite Hc, IH.
Qed.

(** [strtol] reads a digit string back, up to the first non-digit. *)
Lemma strtol10_digits ds rest :
  Forall (fun c => isdigit c = true) ds -> ds <> [] ->
  match rest with c :: _ => isdigit c = false | [] => True end ->
  dec_value 0 ds <= LONG_MAX ->
  strtol10 (ds ++ rest) = (dec_value 0 ds, rest, false).
Proof.
  intros Hds Hne Hr Hmax. unfold strtol10.
  pose proof (dec_value_range _ Hds) as Hrange.
  destruct ds as [|c ds]; [done|]. simpl app.
  assert (Hc := Hds). apply Forall_cons_iff in Hc as [Hc _].
  apply isdigit_range in Hc.
  assert (skip_space (c :: (ds ++ rest)) = c :: (ds ++ rest)) as ->.
  { simpl. replace (isspace c) with false; [done|]. unfold isspace. lia. }
  assert (strtol_sign (c :: (ds ++ rest)) = (false, c :: (ds ++ rest))) as ->.
  { simpl. unfold eqc. rewrite !bool_decide_eq_false_2; [done| |];
      intros ->; unfold char_Z in Hc; simpl in Hc; lia. }
  rewrite app_comm_cons, (span_digits_app (c :: ds) rest Hds Hr).
  unfold LONG_MIN in *. zcase; try lia. done.
Qed.

Lemma dec_nonempty n : 0 <= n -> dec n <> [].
Proof.
  intros Hn E. apply (f_equal length) in E. unfold dec in E. rewrite dec_pad_length in E.
  destruct (ndigits_spec n Hn) as (_ & ? & _). simpl in E. lia.
Qed.

Lemma dec_digits n : Forall (fun c => isdigit c = true) (dec n).
Proof. apply dec_pad_digits. Qed.

Lemma strtol10_dec n rest :
  0 <= n <= LONG_MAX ->
  match rest with c :: _ => isdigit c = false | [] => True end ->
  strtol10 (dec n ++ rest) = (n, rest, false).
Proof.
  intros Hn Hr. rewrite strtol10_digits; rewrite ?dec_value_dec by lia; try done.
  - apply dec_digits.
  - apply dec_nonempty; lia.
  - lia.
Qed.
