(* ===== verification/Argv.v ===== *)
(** * NULL-terminated string arrays ([opal/util/argv.c])

    A [char **] is [None] when NULL and otherwise [Some l], [l] the strings
    before the terminating NULL.  [strdup]/[malloc]/[realloc] succeed, so the
    [OPAL_ERR_OUT_OF_RESOURCE] returns do not appear.  The loops that shift
    elements are translated as loops of single assignments on the array; the
    theorems then relate them to [take]/[drop] and to joining with a
    separator. *)

From S2P Require Import Prelude CString.
From stdpp Require Import base strings numbers list sets.
From Stdlib Require Import ZArith Lia Ascii.

Open Scope Z_scope.

Abbreviation argv_t := (option (list cstr)).

(** The strings an argv array holds; NULL holds none. *)
Definition argv_list (argv : argv_t) : list cstr :=
  match argv with Some l => l | None => [] end.

Definition opal_argv_count (argv : argv_t) : Z := Z.of_nat (length (argv_list argv)).

Definition opal_argv_append_nosize (argv : argv_t) (arg : cstr) : Z * argv_t :=
  match argv with
  | None => (OPAL_SUCCESS, Some [arg])
  | Some l => (OPAL_SUCCESS, Some (l ++ [arg]))
  end.

Definition opal_argv_append (argc : Z) (argv : argv_t) (arg : cstr) : Z * Z * argv_t :=
  let '(rc, argv') := opal_argv_append_nosize argv arg in
  if negb (rc =? OPAL_SUCCESS) then (rc, argc, argv')
  else (OPAL_SUCCESS, opal_argv_count argv', argv').

(** [argv[i] = argv[j]]; both indices are in range at every use. *)
Definition argv_assign (l : list cstr) (i j : nat) : list cstr :=
  match l !! j with Some x => <[i := x]> l | None => l end.

(** [for (i = hi; 0 < i; i--) argv[base + off + i - 1] = argv[base + i - 1]]:
    shift [hi] elements starting at [base] up by [off]. *)
Fixpoint shift_up (l : list cstr) (base off : nat) (hi : nat) : list cstr :=
  match hi with
  | O => l
  | S i => shift_up (argv_assign l (base + off + i) (base + i)) base off i
  end.

(** [for (i = start; i < start + cnt; ++i) argv[i] = argv[i + num]]. *)
Fixpoint shift_down (l : list cstr) (start num cnt : nat) : list cstr :=
  match cnt with
  | O => l
  | S c => shift_down (argv_assign l start (start + num)) (S start) num c
  end.

(** [for (i = 0; i < |src|; ++i) argv[start + i] = strdup(src[i])]. *)
Fixpoint store_at (l : list cstr) (start : nat) (src : list cstr) : list cstr :=
  match src with
  | [] => l
  | s :: src' => store_at (<[start := s]> l) (S start) src'
  end.

Definition opal_argv_prepend_nosize (argv : argv_t) (arg : cstr) : Z * argv_t :=
  match argv with
  | None => (OPAL_SUCCESS, Some [arg])
  | Some l =>
    let l1 := l ++ [[]] in                   (* realloc to argc + 2, NULL last *)
    let l2 := shift_up l1 0 1 (length l) in
    (OPAL_SUCCESS, Some (<[0%nat := arg]> l2))
  end.

(** Overwriting replaces an equal string by a fresh copy. *)
Definition opal_argv_append_unique_nosize (argv : argv_t) (arg : cstr) (overwrite : bool)
    : Z * argv_t :=
  match argv with
  | None => opal_argv_append_nosize argv arg
  | Some l =>
    match find_index (strcmp0 arg) l with
    | Some i => (OPAL_SUCCESS, Some (if overwrite then <[i := arg]> l else l))
    | None => opal_argv_append_nosize argv arg
    end
  end.

(** One iteration of the scanning loop per call; [fuel] counts iterations. *)
Fixpoint opal_argv_split_inter (fuel : nat) (src_string : cstr) (delimiter : ascii)
    (include_empty : bool) (argv : argv_t) : outcome argv_t :=
  match src_string with
  | [] => Ret argv
  | _ :: _ =>
    match fuel with
    | O => Diverge
    | S fuel' =>
      match find_index (eqc delimiter) src_string with
      | Some O =>
        (* zero length argument *)
        let argv' := if include_empty then (opal_argv_append_nosize argv []).2 else argv in
        opal_argv_split_inter fuel' (drop 1 src_string) delimiter include_empty argv'
      | None =>
        (* tail argument: src_string = p, which ends the loop *)
        Ret (opal_argv_append_nosize argv src_string).2
      | Some arglen =>
        let arg := take arglen src_string in
        opal_argv_split_inter fuel' (drop (S arglen) src_string) delimiter include_empty
          (opal_argv_append_nosize argv arg).2
      end
    end
  end.

Definition opal_argv_split (src_string : option cstr) (delimiter : ascii) : outcome argv_t :=
  match src_string with
  | None => Ret None
  | Some s => opal_argv_split_inter (length s) s delimiter false None
  end.

Definition opal_argv_split_with_empty (src_string : option cstr) (delimiter : ascii)
    : outcome argv_t :=
  match src_string with
  | None => Ret None
  | Some s => opal_argv_split_inter (length s) s delimiter true None
  end.

(** The filling loop of the two joins: [n] characters remain to be written,
    [pp] is the rest of the current string, [ps] the strings after it.  Moving
    past the last string leaves [pp] NULL, which the next iteration reads. *)
Fixpoint join_fill (n : nat) (pp : cstr) (ps : list cstr) (delimiter : ascii) : outcome cstr :=
  match n with
  | O => Ret []
  | S n' =>
    match pp with
    | c :: pp' => (fun s => c :: s) <$> join_fill n' pp' ps delimiter
    | [] =>
      match ps with
      | q :: ps' => (fun s => delimiter :: s) <$> join_fill n' q ps' delimiter
      | [] => match n' with O => Ret [delimiter] | S _ => Ub end
      end
    end
  end.

Definition sum_len1 (l : list cstr) : nat := sum_list ((fun s => S (length s)) <$> l).

Definition opal_argv_join (argv : argv_t) (delimiter : ascii) : outcome cstr :=
  match argv with
  | None | Some [] => Ret []
  | Some (p :: ps) => join_fill (sum_len1 (p :: ps) - 1) p ps delimiter
  end.

(** [start] and [end_] are [size_t].  With nothing in the range [str_len] is
    0, and [str[--str_len]] writes far outside the zero-sized allocation. *)
Definition opal_argv_join_range (argv : argv_t) (start end_ : nat) (delimiter : ascii)
    : outcome cstr :=
  match argv with
  | None | Some [] => Ret []
  | Some l =>
    if (length l <? start)%nat then Ret []
    else
      let str_len := sum_len1 (take (end_ - start) (drop start l)) in
      match str_len, drop start l with
      | S n, p :: ps => join_fill n p ps delimiter
      | _, _ => Ub
      end
  end.

(** Bytes used by the array, with 8-byte pointers. *)
Definition opal_argv_len (argv : argv_t) : Z :=
  match argv with
  | None => 0
  | Some l => foldl (fun len s => len + Z.of_nat (length s) + 1 + 8) 8 l
  end.

Definition opal_argv_copy (argv : argv_t) : argv_t :=
  match argv with
  | None => None
  | Some l => foldl (fun dupv s => (opal_argv_append_nosize dupv s).2) (Some []) l
  end.

Definition opal_argv_delete (argc : Z) (argv : argv_t) (start num_to_delete : Z)
    : Z * Z * argv_t :=
  match argv with
  | None => (OPAL_SUCCESS, argc, argv)
  | Some l =>
    if num_to_delete =? 0 then (OPAL_SUCCESS, argc, argv)
    else
      let count := Z.of_nat (length l) in
      if count <? start then (OPAL_SUCCESS, argc, argv)
      else if (start <? 0) || (num_to_delete <? 0) then (OPAL_ERR_BAD_PARAM, argc, argv)
      else
        let suffix_count := Z.max 0 (count - (start + num_to_delete)) in
        let l' := shift_down l (Z.to_nat start) (Z.to_nat num_to_delete)
                    (Z.to_nat suffix_count) in
        (OPAL_SUCCESS, argc - num_to_delete,
         Some (take (Z.to_nat (start + suffix_count)) l'))
  end.

Definition opal_argv_insert (target : argv_t) (start : Z) (source : argv_t) : Z * argv_t :=
  match target with
  | None => (OPAL_ERR_BAD_PARAM, target)
  | Some t =>
    if start <? 0 then (OPAL_ERR_BAD_PARAM, target)
    else
      match source with
      | None => (OPAL_SUCCESS, target)
      | Some s =>
        let target_count := Z.of_nat (length t) in
        if target_count <? start then
          (OPAL_SUCCESS, foldl (fun v x => (opal_argv_append_nosize v x).2) target s)
        else
          let st := Z.to_nat start in
          let t1 := t ++ replicate (length s) [] in      (* realloc *)
          let t2 := shift_up t1 st (length s) (length t - st) in
          (OPAL_SUCCESS, Some (store_at t2 st s))
      end
  end.

Definition opal_argv_insert_element (target : argv_t) (location : Z) (source : option cstr)
    : Z * argv_t :=
  match target with
  | None => (OPAL_ERR_BAD_PARAM, target)
  | Some t =>
    if location <? 0 then (OPAL_ERR_BAD_PARAM, target)
    else
      match source with
      | None => (OPAL_SUCCESS, target)
      | Some s =>
        if Z.of_nat (length t) <? location then
          (OPAL_SUCCESS, (opal_argv_append_nosize target s).2)
        else
          let loc := Z.to_nat location in
          let t2 := shift_up (t ++ [[]]) loc 1 (length t - loc) in
          (OPAL_SUCCESS, Some (<[loc := s]> t2))
      end
  end.

(** ** The reference operations *)

(** Strings separated by [d]. *)
Fixpoint join_spec (d : ascii) (l : list cstr) : cstr :=
  match l with
  | [] => []
  | [x] => x
  | x :: l' => x ++ d :: join_spec d l'
  end.

Lemma join_spec_cons d x y l : join_spec d (x :: y :: l) = x ++ d :: join_spec d (y :: l).
Proof. reflexivity. Qed.

Definition no_char (d : ascii) (s : cstr) : Prop := Forall (fun c => eqc d c = false) s.

#[export] Instance no_char_dec d s : Decision (no_char d s).
Proof. unfold no_char. apply _. Defined.

(** ** Array loops *)
Lemma argv_assign_length l i j : length (argv_assign l i j) = length l.
Proof. unfold argv_assign. case_match; [apply length_insert | done]. Qed.

Lemma argv_assign_lookup l i j k :
  (j < length l)%nat -> (i < length l)%nat ->
  argv_assign l i j !! k = if decide (k = i) then l !! j else l !! k.
Proof.
  intros Hj Hi. unfold argv_assign.
  destruct (lookup_lt_is_Some_2 l j Hj) as [x Hx]. rewrite Hx.
  destruct (decide (k = i)) as [->|Hne].
  - by rewrite list_lookup_insert_eq.
  - by rewrite list_lookup_insert_ne.
Qed.

Lemma shift_up_length l base off hi : length (shift_up l base off hi) = length l.
Proof.
  revert l; induction hi as [|i IH]; intros l; simpl; [done|].
  by rewrite IH, argv_assign_length.
Qed.

Lemma shift_up_lookup l base off hi k :
  (base + off + hi <= length l)%nat ->
  shift_up l base off hi !! k =
  if decide (base + off <= k < base + off + hi)%nat then l !! (k - off)%nat else l !! k.
Proof.
  revert l; induction hi as [|i IH]; intros l Hl; simpl.
  - rewrite decide_False by lia. done.
  - rewrite IH by (rewrite argv_assign_length; lia).
    rewrite !argv_assign_lookup by lia.
    repeat case_decide; try lia; try done; f_equal; lia.
Qed.

Lemma shift_down_length l start num cnt : length (shift_down l start num cnt) = length l.
Proof.
  revert l start; induction cnt as [|c IH]; intros l start; simpl; [done|].
  by rewrite IH, argv_assign_length.
Qed.

Lemma shift_down_lookup l start num cnt k :
  (1 <= num)%nat -> (start + num + cnt <= length l)%nat ->
  shift_down l start num cnt !! k =
  if decide (start <= k < start + cnt)%nat then l !! (k + num)%nat else l !! k.
Proof.
  intros Hn. revert l start; induction cnt as [|c IH]; intros l start Hl; simpl.
  - rewrite decide_False by lia. done.
  - rewrite IH by (rewrite argv_assign_length; lia).
    rewrite !argv_assign_lookup by lia.
    repeat case_decide; try lia; try done; f_equal; lia.
Qed.

Lemma store_at_lookup l start src k :
  (start + length src <= length l)%nat ->
  store_at l start src !! k =
  if decide (start <= k < start + length src)%nat then src !! (k - start)%nat else l !! k.
Proof.
  revert l start; induction src as [|s src IH]; intros l start Hl; simpl in *.
  - rewrite decide_False by lia. done.
  - rewrite IH by (rewrite length_insert; lia).
    destruct (decide (k = start)) as [->|Hne].
    + rewrite decide_False, decide_True by lia.
      rewrite list_lookup_insert_eq by lia. by rewrite Nat.sub_diag.
    + rewrite list_lookup_insert_ne by done.
      repeat case_decide; try lia; try done.
      replace (k - start)%nat with (S (k - S start))%nat by lia. done.
Qed.

(** Pointwise comparison of lists built from [take], [drop] and [++]. *)
Ltac list_lookup_solve :=
  repeat first
    [ rewrite lookup_app | rewrite lookup_take | rewrite lookup_drop
    | rewrite length_take | rewrite length_drop | rewrite length_replicate
    | rewrite length_app | progress simpl ].

Lemma shift_up_insert t n st :
  (st <= length t)%nat ->
  take st (shift_up (t ++ replicate n []) st n (length t - st)) = take st t /\
  drop (st + n) (shift_up (t ++ replicate n []) st n (length t - st)) = drop st t.
Proof.
  intros Hst.
  assert (Hlen : (st + n + (length t - st) <= length (t ++ replicate n ([] : cstr)))%nat)
    by (rewrite length_app, length_replicate; lia).
  split; apply list_eq; intros k.
  - rewrite !lookup_take. case_decide; [|done].
    rewrite shift_up_lookup, decide_False by lia.
    by rewrite lookup_app_l by lia.
  - rewrite !lookup_drop, shift_up_lookup by lia. case_decide.
    + rewrite lookup_app_l by lia. f_equal; lia.
    + rewrite lookup_ge_None_2 by (rewrite length_app, length_replicate; lia).
      rewrite lookup_ge_None_2 by lia. done.
Qed.

Lemma store_at_spec t start src :
  (start + length src <= length t)%nat ->
  store_at t start src = take start t ++ src ++ drop (start + length src) t.
Proof.
  intros H. apply list_eq; intros k. rewrite store_at_lookup by done.
  case_decide.
  - rewrite lookup_app_r by (rewrite length_take; lia).
    rewrite length_take, Nat.min_l by lia. rewrite lookup_app_l by lia. done.
  - destruct (decide (k < start)%nat).
    + rewrite lookup_app_l by (rewrite length_take; lia).
      by rewrite lookup_take_lt by lia.
    + rewrite !lookup_app_r by (rewrite ?length_take; lia).
      rewrite length_take, Nat.min_l by lia. rewrite lookup_drop. f_equal; lia.
Qed.

(** ** Join *)
Lemma join_fill_spec pp ps d :
  join_fill (length (join_spec d (pp :: ps))) pp ps d = Ret (join_spec d (pp :: ps)).
Proof.
  revert pp; induction ps as [|q ps IH]; intros pp.
  - simpl. induction pp as [|c pp IHp]; simpl; [done|]. by rewrite IHp.
  - rewrite join_spec_cons. induction pp as [|c pp IHp].
    + cbn [app length join_fill]. by rewrite IH.
    + cbn [app length join_fill]. by rewrite IHp.
Qed.

Lemma join_spec_length d p ps :
  length (join_spec d (p :: ps)) = (sum_len1 (p :: ps) - 1)%nat.
Proof.
  revert p; induction ps as [|q ps IH]; intros p.
  - unfold sum_len1; simpl. lia.
  - rewrite join_spec_cons, length_app. cbn [length].
    rewrite IH. unfold sum_len1; simpl. lia.
Qed.

Lemma find_index_char_app d x t :
  no_char d x -> find_index (eqc d) (x ++ d :: t) = Some (length x).
Proof. intros H. apply find_index_app; [done|]. apply eqc_refl. Qed.

Lemma no_char_find d x : no_char d x -> find_index (eqc d) x = None.
Proof. intros H. by apply find_index_None. Qed.

Lemma split_inter_join_aux l d b acc fuel :
  Forall (fun x => no_char d x) l ->
  (b = false -> Forall (fun x => x <> []) l) ->
  (forall x, last l = Some x -> x <> []) ->
  (length (join_spec d l) <= fuel)%nat -> l <> [] ->
  opal_argv_split_inter fuel (join_spec d l) d b acc = Ret (Some (argv_list acc ++ l)).
Proof.
  revert acc fuel; induction l as [|x l IH]; intros acc fuel Hd Hb Hlast Hf Hne; [done|].
  apply Forall_cons_iff in Hd as [Hx Hl].
  assert (Happ : forall a, (opal_argv_append_nosize acc a).2 = Some (argv_list acc ++ [a]))
    by (intros; destruct acc; done).
  destruct l as [|y l].
  - assert (x <> []) by (apply Hlast; done). cbn [join_spec] in *.
    destruct x as [|c x]; [done|]. destruct fuel as [|fuel]; [simpl in Hf; lia|].
    cbn [opal_argv_split_inter]. rewrite (no_char_find _ _ Hx), Happ. done.
  - rewrite join_spec_cons in *.
    rewrite length_app in Hf; cbn [length] in Hf.
    destruct fuel as [|fuel]; [lia|].
    assert (Hrec : forall acc', opal_argv_split_inter fuel (join_spec d (y :: l)) d b acc' =
                                Ret (Some (argv_list acc' ++ y :: l))).
    { intros acc'. apply IH; [done| | |lia|done].
      - intros Hbf. specialize (Hb Hbf). by apply Forall_cons_iff in Hb as [_ ?].
      - intros z Hz. apply Hlast. done. }
    destruct x as [|c x].
    + destruct b; [|specialize (Hb eq_refl); apply Forall_cons_iff in Hb as [? _]; done].
      change ([] ++ d :: join_spec d (y :: l)) with (d :: join_spec d (y :: l)).
      cbn [opal_argv_split_inter find_index]. rewrite eqc_refl.
      change (drop 1 (d :: join_spec d (y :: l))) with (join_spec d (y :: l)).
      rewrite Hrec, Happ. simpl. by rewrite <- app_assoc.
    + change ((c :: x) ++ d :: join_spec d (y :: l))
        with (c :: (x ++ d :: join_spec d (y :: l))).
      cbn [opal_argv_split_inter].
      rewrite app_comm_cons, (find_index_char_app d (c :: x)) by done.
      cbn [length]. rewrite (take_app_length' (c :: x)) by done.
      replace (drop (S (S (length x))) ((c :: x) ++ d :: join_spec d (y :: l)))
        with (join_spec d (y :: l)).
      2: { rewrite (cons_middle d), app_assoc, drop_app_length'; [done|].
           rewrite length_app; simpl; lia. }
      rewrite Hrec, Happ. simpl. by rewrite <- app_assoc.
Qed.

(** Each iteration consumes at least one character, so [length src] iterations
    are enough: splitting never runs out of budget. *)
Lemma split_inter_total fuel src d b acc :
  (length src <= fuel)%nat -> returns (opal_argv_split_inter fuel src d b acc).
Proof.
  revert src acc; induction fuel as [|fuel IH]; intros src acc Hl.
  - destruct src; simpl in *; [eexists; done | lia].
  - destruct src as [|c src]; [eexists; done|]. cbn [opal_argv_split_inter].
    destruct (find_index (eqc d) (c :: src)) as [[|n]|] eqn:E; [| |eexists; done].
    + apply IH. rewrite length_drop. simpl in *. lia.
    + apply IH. apply find_index_lt in E. rewrite length_drop. simpl in *. lia.
Qed.

(** ** Properties *)

(** [opal_argv_join] never reads past the array and returns exactly the
    strings of the array separated by the delimiter. *)
Lemma argv_join_correct argv d :
  opal_argv_join argv d = Ret (join_spec d (argv_list argv)).
Proof.
  destruct argv as [[|p ps]|]; try done. cbn [opal_argv_join argv_list].
  rewrite <- join_spec_length with (d := d). apply join_fill_spec.
Qed.

(** Splitting what [opal_argv_join] produced gives back the array, when no
    string is empty or contains the delimiter. *)
Theorem argv_split_join l d s :
  l <> [] -> Forall (fun x => x <> [] /\ no_char d x) l ->
  opal_argv_join (Some l) d = Ret s ->
  opal_argv_split (Some s) d = Ret (Some l).
Proof.
  intros Hne Hl. destruct l as [|p ps]; [done|]. cbn [opal_argv_join].
  rewrite <- join_spec_length with (d := d), join_fill_spec. intros [= <-].
  apply (split_inter_join_aux (p :: ps) d false None); [| | |done|done].
  - eapply Forall_imp; [|done]. by intros ? [].
  - intros _. eapply Forall_imp; [|done]. by intros ? [].
  - intros x Hx%last_Some. destruct Hx as [l' Hl']. rewrite Hl' in Hl.
    apply Forall_app in Hl as [_ [[] _]%Forall_cons_iff]. done.
Qed.

Lemma argv_split_join_witness :
  opal_argv_split (Some (cs "node1,node2,c7")) "," =
  Ret (Some [cs "node1"; cs "node2"; cs "c7"]).
Proof.
  apply (argv_split_join [cs "node1"; cs "node2"; cs "c7"] "," (cs "node1,node2,c7")).
  - discriminate.
  - repeat constructor; try discriminate.
  - reflexivity.
Defined.

(** The entries before and after the deleted ones. *)
Lemma argv_delete_spec argc l start num :
  0 <= start -> 0 < num ->
  opal_argv_delete argc (Some l) start num =
  if Z.of_nat (length l) <? start then (OPAL_SUCCESS, argc, Some l)
  else (OPAL_SUCCESS, argc - num,
        Some (take (Z.to_nat start) l ++ drop (Z.to_nat (start + num)) l)).
Proof.
  intros Hs Hn. unfold opal_argv_delete.
  destruct (Z.eqb_spec num 0) as [|_]; [lia|].
  destruct (Z.ltb_spec (Z.of_nat (length l)) start) as [|Hle]; [done|].
  destruct (Z.ltb_spec start 0), (Z.ltb_spec num 0); try lia. simpl orb. cbv iota.
  f_equal; f_equal. set (suf := Z.max 0 _). apply list_eq; intros k.
  rewrite lookup_take. case_decide as Hk.
  - destruct (decide (suf = 0)) as [Hz|Hz].
    + rewrite Hz in *. simpl. rewrite lookup_app_l by (rewrite length_take; lia).
      by rewrite lookup_take_lt by lia.
    + rewrite shift_down_lookup by lia. case_decide.
      * rewrite lookup_app_r by (rewrite length_take; lia).
        rewrite length_take, Nat.min_l, lookup_drop by lia. f_equal; lia.
      * rewrite lookup_app_l by (rewrite length_take; lia).
        by rewrite lookup_take_lt by lia.
  - symmetry. apply lookup_ge_None_2. rewrite length_app, length_take, length_drop. lia.
Qed.

(** Deleting [num] entries from [start] leaves the entries before and
    after them, in order, and lowers [argc] by [num] (not by the number of
    entries removed); a negative start within the array or a negative count
    is refused; past the end nothing happens. *)
Theorem argv_delete_correct argc l start num :
  num <> 0 ->
  opal_argv_delete argc (Some l) start num =
  if Z.of_nat (length l) <? start then (OPAL_SUCCESS, argc, Some l)
  else if (start <? 0) || (num <? 0) then (OPAL_ERR_BAD_PARAM, argc, Some l)
  else (OPAL_SUCCESS, argc - num,
        Some (take (Z.to_nat start) l ++ drop (Z.to_nat (start + num)) l)).
Proof.
  intros Hn. destruct ((start <? 0) || (num <? 0)) eqn:E.
  - unfold opal_argv_delete. destruct (Z.eqb_spec num 0); [done|]. by rewrite E.
  - apply orb_false_iff in E as [? ?]. apply argv_delete_spec; lia.
Qed.

Lemma argv_delete_correct_witness :
  opal_argv_delete 3 (Some [cs "a"; cs "b"; cs "c"]) 1 1 =
  (OPAL_SUCCESS, 2, Some [cs "a"; cs "c"]).
Proof. apply (argv_delete_correct 3 [cs "a"; cs "b"; cs "c"] 1 1); lia. Defined.

(** Inserting an array at [start] puts its strings there and keeps the
    target's order; a position past the end appends. *)
Theorem argv_insert_correct t start s :
  0 <= start ->
  opal_argv_insert (Some t) start (Some s) =
  (OPAL_SUCCESS, Some (take (Z.to_nat start) t ++ s ++ drop (Z.to_nat start) t)).
Proof.
  intros Hs. unfold opal_argv_insert. destruct (Z.ltb_spec start 0); [lia|].
  destruct (Z.ltb_spec (Z.of_nat (length t)) start) as [Hlt|Hge]; f_equal.
  - rewrite take_ge, drop_ge, app_nil_r by lia. clear.
    revert t; induction s as [|x s IH]; intros t; simpl; [by rewrite app_nil_r|].
    rewrite IH, <- app_assoc. done.
  - destruct (shift_up_insert t (length s) (Z.to_nat start)) as [H1 H2]; [lia|].
    rewrite store_at_spec by (rewrite shift_up_length, length_app, length_replicate; lia).
    by rewrite H1, H2.
Qed.

Lemma argv_insert_correct_witness :
  opal_argv_insert (Some [cs "a"; cs "d"]) 1 (Some [cs "b"; cs "c"]) =
  (OPAL_SUCCESS, Some [cs "a"; cs "b"; cs "c"; cs "d"]).
Proof. apply (argv_insert_correct [cs "a"; cs "d"] 1 [cs "b"; cs "c"]); lia. Defined.

(** The array a unique append leaves, whatever [overwrite] says. *)
Lemma append_unique_cases argv arg ow :
  opal_argv_append_unique_nosize argv arg ow =
  (OPAL_SUCCESS, Some (if decide (arg ∈ argv_list argv) then argv_list argv
                       else argv_list argv ++ [arg])).
Proof.
  destruct argv as [l|]; [simpl|done].
  destruct (find_index (strcmp0 arg) l) as [i|] eqn:E.
  - apply find_index_Some in E as (x & Hx & ->%strcmp0_true & _).
    rewrite decide_True by (by apply list_elem_of_lookup_2 in Hx).
    by destruct ow; [rewrite list_insert_id|].
  - apply find_index_None in E. rewrite decide_False; [done|].
    intros Hin. rewrite Forall_forall in E. specialize (E _ Hin).
    by apply strcmp0_false in E.
Qed.

(** A unique append succeeds, keeps the array duplicate-free, and adds
    exactly its argument to the set of strings held. *)
Theorem argv_append_unique_set argv arg ow :
  NoDup (argv_list argv) ->
  exists l, opal_argv_append_unique_nosize argv arg ow = (OPAL_SUCCESS, Some l) /\
            NoDup l /\ (forall x, x ∈ l <-> x ∈ argv_list argv \/ x = arg) /\
            argv_list argv `prefix_of` l.
Proof.
  intros Hnd. rewrite append_unique_cases. eexists; split; [done|].
  destruct (decide (arg ∈ argv_list argv)) as [Hin|Hin].
  - split_and!; [done | set_solver | done].
  - split_and!; [| set_solver | by apply prefix_app_r].
    apply NoDup_app; split_and!; [done | set_solver | apply NoDup_singleton].
Qed.

Lemma argv_append_unique_set_witness :
  exists l, opal_argv_append_unique_nosize (Some [cs "a"]) (cs "b") false = (OPAL_SUCCESS, Some l)
            /\ NoDup l /\ (forall x, x ∈ l <-> x ∈ [cs "a"] \/ x = cs "b") /\ [cs "a"] `prefix_of` l.
Proof. apply (argv_append_unique_set (Some [cs "a"])). apply NoDup_singleton. Defined.

(** Joining the empty range that starts right after the last entry writes
    outside the allocated string: the guard compares with [>] where the loop
    needs [>=]. *)
Theorem argv_join_range_at_end_ub l end_ d :
  l <> [] -> opal_argv_join_range (Some l) (length l) end_ d = Ub.
Proof.
  intros Hne. destruct l as [|p ps]; [done|]. unfold opal_argv_join_range.
  rewrite Nat.ltb_irrefl, drop_all, take_nil. done.
Qed.

Lemma argv_join_range_at_end_ub_witness :
  opal_argv_join_range (Some [cs "a"; cs "b"]) 2 5 "," = Ub.
Proof. apply (argv_join_range_at_end_ub [cs "a"; cs "b"]). discriminate. Defined.

Lemma argv_prepend_correct l arg :
  opal_argv_prepend_nosize (Some l) arg = (OPAL_SUCCESS, Some (arg :: l)).
Proof.
  unfold opal_argv_prepend_nosize. f_equal; f_equal.
  destruct (shift_up_insert l 1 0) as [_ H2]; [lia|].
  rewrite Nat.sub_0_r in H2. cbn [replicate] in H2.
  pose proof (shift_up_length (l ++ [[]]) 0 1 (length l)) as Hlen.
  destruct (shift_up (l ++ [[]]) 0 1 (length l)) as [|x r].
  - rewrite length_app in Hlen. simpl in Hlen. lia.
  - change (drop (0 + 1) (x :: r)) with (drop 0 r) in H2.
    rewrite !drop_0 in H2. by subst.
Qed.

Lemma argv_copy_correct argv : opal_argv_copy argv = argv.
Proof.
  destruct argv as [l|]; [|done]. unfold opal_argv_copy.
  enough (H : forall acc, foldl (fun dupv s => (opal_argv_append_nosize dupv s).2)
              (Some acc) l = Some (acc ++ l)) by apply (H []).
  induction l as [|x l IH]; intros acc; simpl; [by rewrite app_nil_r|].
  rewrite IH, <- app_assoc. done.
Qed.

Lemma argv_insert_element_correct t loc s :
  0 <= loc <= Z.of_nat (length t) ->
  opal_argv_insert_element (Some t) loc (Some s) =
  (OPAL_SUCCESS, Some (take (Z.to_nat loc) t ++ s :: drop (Z.to_nat loc) t)).
Proof.
  intros Hl. unfold opal_argv_insert_element. zcase; try lia. f_equal; f_equal.
  destruct (shift_up_insert t 1 (Z.to_nat loc)) as [H1 H2]; [lia|].
  cbn [replicate] in *. rewrite insert_take_drop.
  - rewrite H1. rewrite <- Nat.add_1_r, H2. done.
  - rewrite shift_up_length, length_app. simpl. lia.
Qed.
