(* ===== verification/PointerArray.v ===== *)
(** * Growing arrays of pointers ([opal/class/opal_pointer_array.c])

    A table of pointers in which NULL marks a free place.  The table remembers
    how many places are free and which is the lowest, so that adding is fast,
    and grows by reallocation.  The nodes and the streams of the scheduler are
    kept in such tables.

    Every sequence of operations refines a finite map from positions to
    pointers; adding takes the lowest free position.  The one position where
    this fails is the last of a table with an odd maximum.

    [alloc_ok n] says whether an allocation of [n] bytes succeeds.  A table has
    one owner at a time (the lock is not modelled) and assertions are compiled
    out. *)

From S2P Require Import Prelude CString.
From stdpp Require Import base numbers list gmap fin_maps.
From Stdlib Require Import ZArith Lia.

Open Scope Z_scope.

Definition TABLE_INIT : Z := 1.
Definition TABLE_GROW : Z := 2.
Definition sizeof_pointer : Z := 8.

Section Model.
Context {A : Type}.

Record opal_pointer_array_t : Type := MkPtrArray {
  pa_lowest_free : Z;
  pa_number_free : Z;
  pa_size : Z;
  pa_max_size : Z;
  pa_block_size : Z;
  pa_addr : option (list (option A))
}.

Definition opal_pointer_array_construct : opal_pointer_array_t := MkPtrArray 0 0 0 INT_MAX 0 None.

Definition opal_pointer_array_destruct (t : opal_pointer_array_t) : opal_pointer_array_t :=
  MkPtrArray (pa_lowest_free t) (pa_number_free t) 0 (pa_max_size t) (pa_block_size t) None.

Variable alloc_ok : Z -> bool.

Definition opal_pointer_array_init (array : option opal_pointer_array_t) (initial_allocation max_size block_size : Z)
    : Z * option opal_pointer_array_t :=
  match array with
  | None => (OPAL_ERR_BAD_PARAM, None)
  | Some a =>
    if max_size <? block_size then (OPAL_ERR_BAD_PARAM, Some a)
    else
      let num := u64 (if 0 <? initial_allocation then initial_allocation else block_size) in
      let num_bytes := u64 (num * sizeof_pointer) in
      if alloc_ok num_bytes then
        (OPAL_SUCCESS, Some (MkPtrArray (pa_lowest_free a) (i32 num) (i32 num) max_size block_size
                               (Some (replicate (Z.to_nat (num_bytes / sizeof_pointer)) None))))
      else
        (OPAL_ERR_OUT_OF_RESOURCE, Some (MkPtrArray (pa_lowest_free a) (i32 num) (i32 num) max_size block_size None))
  end.

(** Shrinking to nothing may free the table. *)
Definition grow_table (t : opal_pointer_array_t) (soft hard : Z) : outcome (bool * opal_pointer_array_t) :=
  if (pa_max_size t <? soft) && (pa_max_size t <? hard) then Ret (false, t)
  else
    let new_size := if pa_max_size t <? soft then hard else soft in
    if pa_max_size t <=? new_size then Ret (false, t)
    else if new_size =? 0 then Ub
    else if negb (alloc_ok (u64 (new_size * sizeof_pointer))) then Ret (false, t)
    else
      old ← (match pa_addr t with Some l => Ret l | None => if pa_size t =? 0 then Ret [] else Ub end);
      Ret (true, MkPtrArray (pa_lowest_free t) (pa_number_free t + (new_size - pa_size t)) new_size (pa_max_size t)
                   (pa_block_size t) (Some (old ++ replicate (Z.to_nat (new_size - pa_size t)) None))).

(** The first free place from [from] on. *)
Definition next_free (addr : list (option A)) (from size : Z) : option Z :=
  (fun k => from + Z.of_nat k) <$>
  find_index (fun x => match x with None => true | Some _ => false end) (drop (Z.to_nat from) (take (Z.to_nat size) addr)).

(** A write to the table. *)
Definition store (addr : list (option A)) (index : Z) (v : option A) : outcome (list (option A)) :=
  if (0 <=? index) && (index <? Z.of_nat (length addr)) then Ret (<[Z.to_nat index := v]> addr) else Ub.

(** A read of the table. *)
Definition fetch (addr : list (option A)) (index : Z) : outcome (option A) :=
  if 0 <=? index then deref (addr !! Z.to_nat index) else Ub.

Definition opal_pointer_array_add (t : opal_pointer_array_t) (ptr : option A) : outcome (Z * opal_pointer_array_t) :=
  '(ok, t) ← (if pa_number_free t =? 0 then
                soft ← (match pa_addr t with
                        | None => Ret TABLE_INIT
                        | Some _ => if INT_MAX <? pa_size t * TABLE_GROW then Ub else Ret (pa_size t * TABLE_GROW)
                        end);
                grow_table t soft INT_MAX
              else Ret (true, t));
  if negb ok then Ret (OPAL_ERR_OUT_OF_RESOURCE, t)
  else
    addr ← deref (pa_addr t);
    let index := pa_lowest_free t in
    addr ← store addr index ptr;
    let number_free := pa_number_free t - 1 in
    let lowest_free := if 0 <? number_free then default index (next_free addr (index + 1) (pa_size t)) else pa_size t in
    Ret (index, MkPtrArray lowest_free number_free (pa_size t) (pa_max_size t) (pa_block_size t) (Some addr)).

(** The table is made to reach [index]. *)
Definition reach (t : opal_pointer_array_t) (index : Z) : outcome (bool * opal_pointer_array_t) :=
  if pa_size t <=? index then
    let soft := (index / TABLE_GROW + 1) * TABLE_GROW in
    if INT_MAX <? soft then Ub else grow_table t soft index
  else Ret (true, t).

Definition opal_pointer_array_set_item (t : opal_pointer_array_t) (index : Z) (value : option A)
    : outcome (Z * opal_pointer_array_t) :=
  if index <? 0 then Ret (OPAL_ERROR, t)
  else
    '(ok, t) ← reach t index;
    if negb ok then Ret (OPAL_ERROR, t)
    else
      addr ← deref (pa_addr t);
      old ← fetch addr index;
      addr' ← store addr index value;
      let '(lowest_free, number_free) :=
        match value with
        | None => (if index <? pa_lowest_free t then index else pa_lowest_free t,
                   match old with Some _ => pa_number_free t + 1 | None => pa_number_free t end)
        | Some _ => (if index =? pa_lowest_free t
                     then default (pa_size t) (next_free addr (index + 1) (pa_size t)) else pa_lowest_free t,
                     match old with Some _ => pa_number_free t | None => pa_number_free t - 1 end)
        end in
      Ret (OPAL_SUCCESS, MkPtrArray lowest_free number_free (pa_size t) (pa_max_size t) (pa_block_size t) (Some addr')).

Definition opal_pointer_array_get_item (t : opal_pointer_array_t) (element_index : Z) : outcome (option A) :=
  if (element_index <? 0) || (pa_size t <=? element_index) then Ret None
  else addr ← deref (pa_addr t); fetch addr element_index.

Definition opal_pointer_array_get_size (t : opal_pointer_array_t) : Z := pa_size t.

Definition opal_pointer_array_test_and_set_item (t : opal_pointer_array_t) (index : Z) (value : option A)
    : outcome (bool * opal_pointer_array_t) :=
  used ← (if index <? pa_size t then addr ← deref (pa_addr t); fetch addr index else Ret None);
  match used with
  | Some _ => Ret (false, t)
  | None =>
    '(ok, t) ← reach t index;
    if negb ok then Ret (false, t)
    else
      addr ← deref (pa_addr t);
      addr ← store addr index value;
      let lowest_free := if index =? pa_lowest_free t
                         then default (pa_size t) (next_free addr index (pa_size t)) else pa_lowest_free t in
      Ret (true, MkPtrArray lowest_free (pa_number_free t - 1) (pa_size t) (pa_max_size t) (pa_block_size t) (Some addr))
  end.

Definition opal_pointer_array_set_size (t : opal_pointer_array_t) (new_size : Z) : outcome (Z * opal_pointer_array_t) :=
  if pa_size t <? new_size then
    '(ok, t) ← grow_table t new_size new_size; Ret (if ok : bool then OPAL_SUCCESS else OPAL_ERROR, t)
  else Ret (OPAL_SUCCESS, t).

Definition opal_pointer_array_remove_all (t : opal_pointer_array_t) : outcome opal_pointer_array_t :=
  if pa_number_free t =? pa_size t then Ret t
  else
    addr ← deref (pa_addr t);
    Ret (MkPtrArray 0 (pa_size t) (pa_size t) (pa_max_size t) (pa_block_size t)
           (Some (replicate (Z.to_nat (pa_size t)) None ++ drop (Z.to_nat (pa_size t)) addr))).
End Model.
Arguments opal_pointer_array_t : clear implicits.

(** ** Free places of a list *)
Section Free.
Context {A : Type}.
Implicit Types (l : list (option A)) (v : option A).

Definition is_free (x : option A) : bool := match x with None => true | Some _ => false end.
Definition weight_free (x : option A) : Z := if is_free x then 1 else 0.

Fixpoint free_count l : Z := match l with [] => 0 | x :: l' => weight_free x + free_count l' end.

(** The lowest free place, or the end of the list. *)
Definition first_free l : nat := default (length l) (find_index is_free l).

Lemma free_count_app l k : free_count (l ++ k) = free_count l + free_count k.
Proof. induction l as [|x l IH]; cbn; lia. Qed.

Lemma free_count_replicate n : free_count (replicate n None) = Z.of_nat n.
Proof. induction n as [|n IH]; [done|]. cbn [replicate free_count]. rewrite IH. cbn. lia. Qed.

Lemma free_count_range l : 0 <= free_count l <= Z.of_nat (length l).
Proof. induction l as [|[x|] l IH]; cbn in *; lia. Qed.

Lemma free_count_insert l i old v : l !! i = Some old -> free_count (<[i := v]> l) = free_count l - weight_free old + weight_free v.
Proof.
  revert i. induction l as [|x l IH]; intros [|i] Hi; [done|done| |].
  - injection Hi as ->. cbn. lia.
  - change (<[S i := v]> (x :: l)) with (x :: <[i := v]> l). cbn [free_count]. rewrite (IH i Hi). lia.
Qed.

Lemma first_free_le l : (first_free l <= length l)%nat.
Proof.
  unfold first_free. destruct (find_index is_free l) as [k|] eqn:E; [|done]. apply find_index_lt in E. cbn. lia.
Qed.

Lemma first_free_below l j : (j < first_free l)%nat -> exists x, l !! j = Some (Some x).
Proof.
  unfold first_free. intros Hj. destruct (find_index is_free l) as [k|] eqn:E; cbn in Hj.
  - pose proof (find_index_lt _ _ _ E). apply find_index_Some in E as (x & _ & _ & Hall).
    destruct (lookup_lt_is_Some_2 l j) as [y Hy]; [lia|].
    rewrite Forall_lookup in Hall. specialize (Hall j y). rewrite lookup_take_lt in Hall by lia.
    destruct y as [y|]; [by eexists|]. by specialize (Hall Hy).
  - apply find_index_None in E. destruct (lookup_lt_is_Some_2 l j) as [y Hy]; [lia|].
    rewrite Forall_lookup in E. specialize (E j y Hy). destruct y as [y|]; [by eexists|done].
Qed.

Lemma first_free_at l : (first_free l < length l)%nat -> l !! first_free l = Some None.
Proof.
  unfold first_free. destruct (find_index is_free l) as [k|] eqn:E; cbn; [|lia]. intros _.
  apply find_index_Some in E as (x & Hx & Hf & _). by destruct x.
Qed.

Lemma first_free_unique l k :
  (k <= length l)%nat -> (forall j, (j < k)%nat -> exists x, l !! j = Some (Some x)) ->
  ((k < length l)%nat -> l !! k = Some None) -> first_free l = k.
Proof.
  intros Hk Hbelow Hat. pose proof (first_free_le l). destruct (Nat.lt_trichotomy (first_free l) k) as [Hlt|[Heq|Hgt]]; [|done|].
  - destruct (Hbelow _ Hlt) as [x Hx]. rewrite first_free_at in Hx by lia. done.
  - destruct (first_free_below l k Hgt) as [x Hx]. rewrite Hat in Hx by lia. done.
Qed.

Lemma full_first_free l : free_count l = 0 -> first_free l = length l.
Proof.
  intros H. apply first_free_unique; [done| |lia]. intros j Hj. destruct (lookup_lt_is_Some_2 l j Hj) as [[x|] Hx]; [by eexists|].
  pose proof (free_count_insert l j None None Hx). rewrite <- (take_drop_middle l j None Hx) in H.
  rewrite free_count_app in H. cbn in H. pose proof (free_count_range (take j l)). pose proof (free_count_range (drop (S j) l)). lia.
Qed.

Lemma some_free l : 0 < free_count l -> (first_free l < length l)%nat.
Proof.
  intros H. destruct (decide (first_free l = length l)) as [E|]; [|pose proof (first_free_le l); lia].
  assert (free_count l = 0); [|lia]. clear H. revert E. induction l as [|[x|] l IH]; [done| |].
  - unfold first_free. cbn. destruct (find_index is_free l) eqn:E; cbn; intros HE.
    + apply find_index_lt in E. lia.
    + apply IH. unfold first_free. by rewrite E.
  - unfold first_free. cbn. lia.
Qed.

(** Searching from a place below which nothing is free. *)
Lemma next_free_first l (from : nat) :
  (from <= length l)%nat -> (forall j, (j < from)%nat -> exists x, l !! j = Some (Some x)) ->
  next_free l (Z.of_nat from) (Z.of_nat (length l)) =
    if decide (first_free l < length l)%nat then Some (Z.of_nat (first_free l)) else None.
Proof.
  intros Hfrom Hbelow. unfold next_free. rewrite !Nat2Z.id, take_ge by done.
  change (fun x : option A => match x with Some _ => false | None => true end) with is_free.
  destruct (find_index is_free (drop from l)) as [k|] eqn:E; cbn [fmap option_fmap option_map].
  - pose proof (find_index_lt _ _ _ E) as Hk. rewrite length_drop in Hk. apply find_index_Some in E as (x & Hx & Hf & Hall).
    rewrite lookup_drop in Hx. destruct x as [|]; [done|].
    assert (first_free l = from + k)%nat as ->.
    { apply first_free_unique; [lia| |done]. intros j Hj. destruct (decide (j < from)%nat) as [|Hge]; [by apply Hbelow|].
      destruct (lookup_lt_is_Some_2 l j) as [y Hy]; [lia|]. rewrite Forall_lookup in Hall. specialize (Hall (j - from)%nat y).
      rewrite lookup_take_lt, lookup_drop in Hall by lia. replace (from + (j - from))%nat with j in Hall by lia.
      destruct y as [y|]; [by eexists|]. by specialize (Hall Hy). }
    rewrite decide_True by lia. f_equal. lia.
  - rewrite decide_False; [done|]. intros Hlt. apply find_index_None in E. pose proof (first_free_at l Hlt) as Hat.
    destruct (decide (first_free l < from)%nat) as [Hl|Hge].
    + destruct (Hbelow _ Hl) as [x Hx]. by rewrite Hat in Hx.
    + rewrite Forall_lookup in E. specialize (E (first_free l - from)%nat None). rewrite lookup_drop in E.
      replace (from + (first_free l - from))%nat with (first_free l) in E by lia. by specialize (E Hat).
Qed.

Lemma next_free_default l (from : nat) (d : Z) :
  (from <= length l)%nat -> (forall j, (j < from)%nat -> exists x, l !! j = Some (Some x)) ->
  (first_free l < length l)%nat \/ d = Z.of_nat (length l) ->
  default d (next_free l (Z.of_nat from) (Z.of_nat (length l))) = Z.of_nat (first_free l).
Proof.
  intros Hfrom Hbelow Hd. rewrite next_free_first by done. destruct (decide _) as [|Hn]; [done|]. cbn.
  pose proof (first_free_le l). destruct Hd; lia.
Qed.

(** Padding with free places. *)
Lemma lookup_pad l k i : mjoin ((l ++ replicate k None) !! i) = mjoin (l !! i).
Proof.
  destruct (decide (i < length l)%nat); [by rewrite lookup_app_l|].
  rewrite lookup_app_r, (lookup_ge_None_2 l) by lia.
  destruct (decide (i - length l < k)%nat); [by rewrite lookup_replicate_2|].
  by rewrite lookup_ge_None_2 by (rewrite length_replicate; lia).
Qed.

Lemma first_free_pad l k : first_free (l ++ replicate k None) = first_free l.
Proof.
  pose proof (first_free_le l). apply first_free_unique; [rewrite length_app; lia| |].
  - intros j Hj. destruct (first_free_below l j Hj) as [x Hx]. exists x. by apply lookup_app_l_Some.
  - intros Hlt. rewrite length_app, length_replicate in Hlt. destruct (decide (first_free l < length l)%nat) as [Hl|Hn].
    + rewrite lookup_app_l by done. by apply first_free_at.
    + rewrite lookup_app_r by lia. apply lookup_replicate_2. lia.
Qed.

(** Writing to one place. *)
Lemma filled_below l i x : (i <= first_free l)%nat -> (i < length l)%nat ->
  forall j, (j < S i)%nat -> exists y, <[i := Some x]> l !! j = Some (Some y).
Proof.
  intros Hi Hl j Hj. destruct (decide (i = j)) as [<-|Hne]; [exists x; by apply list_lookup_insert_eq|].
  rewrite list_lookup_insert_ne by done. apply first_free_below. lia.
Qed.

Lemma first_free_fill_other l i x : i <> first_free l -> first_free (<[i := Some x]> l) = first_free l.
Proof.
  intros Hne. apply first_free_unique; rewrite ?length_insert.
  - apply first_free_le.
  - intros j Hj. destruct (decide (i = j)) as [<-|]; [|rewrite list_lookup_insert_ne by done; by apply first_free_below].
    exists x. apply list_lookup_insert_eq. pose proof (first_free_le l). lia.
  - intros Hlt. rewrite list_lookup_insert_ne by done. by apply first_free_at.
Qed.

Lemma first_free_clear l i : (i < length l)%nat -> first_free (<[i := None]> l) = Nat.min i (first_free l).
Proof.
  intros Hi. pose proof (first_free_le l). apply first_free_unique; rewrite ?length_insert.
  - lia.
  - intros j Hj. rewrite list_lookup_insert_ne by lia. apply first_free_below. lia.
  - intros _. destruct (decide (i = Nat.min i (first_free l))) as [<-|Hne]; [by apply list_lookup_insert_eq|].
    rewrite list_lookup_insert_ne by done. rewrite Nat.min_r by lia. apply first_free_at. lia.
Qed.

Lemma lookup_write (m : gmap nat A) l i v j : (i < length l)%nat -> (forall j, m !! j = mjoin (l !! j)) ->
  partial_alter (fun _ => v) i m !! j = mjoin (<[i := v]> l !! j).
Proof.
  intros Hi Hm. destruct (decide (i = j)) as [<-|Hne].
  - rewrite lookup_partial_alter_eq, list_lookup_insert_eq by done. done.
  - by rewrite lookup_partial_alter_ne, list_lookup_insert_ne.
Qed.
End Free.

(** ** The table as a finite map *)
Inductive pa_op (A : Type) : Type :=
| PAdd (v : A) | PSet (i : Z) (v : option A) | PTestSet (i : Z) (v : A) | PGet (i : Z) | PSetSize (n : Z) | PRemoveAll.
Inductive pa_answer (A : Type) : Type :=
| PCode (rc : Z) | PBool (b : bool) | PItem (v : option A) | PDone.
Arguments PAdd {A} v. Arguments PSet {A} i v. Arguments PTestSet {A} i v. Arguments PGet {A} i.
Arguments PSetSize {A} n. Arguments PRemoveAll {A}.
Arguments PCode {A} rc. Arguments PBool {A} b. Arguments PItem {A} v. Arguments PDone {A}.

Section Refinement.
Context {A : Type}.
Implicit Types (l : list (option A)) (m : gmap nat A) (t : opal_pointer_array_t A).

Variable alloc_ok : Z -> bool.

(** The table is refused [size] places: its maximum is not above, or there is
    no memory for them. *)
Definition refuses (max size : Z) : Prop := max <= size \/ alloc_ok (u64 (size * sizeof_pointer)) = false.

(** The lowest position that is free. *)
Definition lowest_gap m (i : nat) : Prop := m !! i = None /\ forall j, (j < i)%nat -> is_Some (m !! j).

(** Positions are answered with the lowest that is free.  An operation that
    needs a larger table fails only if that size is refused, and then nothing
    changes: a full table is doubled, and a position [i] asks for the next even
    number of places. *)
Inductive pa_spec (max : Z) (m : gmap nat A) : pa_op A -> gmap nat A -> pa_answer A -> Prop :=
| spec_add v i : lowest_gap m i -> pa_spec max m (PAdd v) (<[i := v]> m) (PCode (Z.of_nat i))
| spec_add_fails v i : lowest_gap m i -> refuses max (Z.max 1 (2 * Z.of_nat i)) -> pa_spec max m (PAdd v) m (PCode OPAL_ERR_OUT_OF_RESOURCE)
| spec_set i v : pa_spec max m (PSet (Z.of_nat i) v) (partial_alter (fun _ => v) i m) (PCode OPAL_SUCCESS)
| spec_set_negative i v : i < 0 -> pa_spec max m (PSet i v) m (PCode OPAL_ERROR)
| spec_set_fails i v : m !! i = None -> refuses max ((Z.of_nat i / 2 + 1) * 2) -> pa_spec max m (PSet (Z.of_nat i) v) m (PCode OPAL_ERROR)
| spec_test_set i v : m !! i = None -> pa_spec max m (PTestSet (Z.of_nat i) v) (<[i := v]> m) (PBool true)
| spec_test_used i v : is_Some (m !! i) -> pa_spec max m (PTestSet (Z.of_nat i) v) m (PBool false)
| spec_test_fails i v : m !! i = None -> refuses max ((Z.of_nat i / 2 + 1) * 2) -> pa_spec max m (PTestSet (Z.of_nat i) v) m (PBool false)
| spec_get i : pa_spec max m (PGet (Z.of_nat i)) m (PItem (m !! i))
| spec_get_negative i : i < 0 -> pa_spec max m (PGet i) m (PItem None)
| spec_size n : pa_spec max m (PSetSize n) m (PCode OPAL_SUCCESS)
| spec_size_fails n : refuses max n -> pa_spec max m (PSetSize n) m (PCode OPAL_ERROR)
| spec_remove : pa_spec max m PRemoveAll ∅ PDone.

Definition pa_run (t : opal_pointer_array_t A) (op : pa_op A) : outcome (pa_answer A * opal_pointer_array_t A) :=
  match op with
  | PAdd v => '(rc, t) ← opal_pointer_array_add alloc_ok t (Some v); Ret (PCode rc, t)
  | PSet i v => '(rc, t) ← opal_pointer_array_set_item alloc_ok t i v; Ret (PCode rc, t)
  | PTestSet i v => '(b, t) ← opal_pointer_array_test_and_set_item alloc_ok t i (Some v); Ret (PBool b, t)
  | PGet i => x ← opal_pointer_array_get_item t i; Ret (PItem x, t)
  | PSetSize n => '(rc, t) ← opal_pointer_array_set_size alloc_ok t n; Ret (PCode rc, t)
  | PRemoveAll => t ← opal_pointer_array_remove_all t; Ret (PDone, t)
  end.

(** The table holds [m], and at most [n] pointers. *)
Record pa_rep t l m (n : Z) : Prop := {
  rep_addr : (pa_addr t = Some l /\ l <> []) \/ (pa_addr t = None /\ l = []);
  rep_max : pa_max_size t <= INT_MAX;
  rep_size : pa_size t = Z.of_nat (length l);
  rep_free : pa_number_free t = free_count l;
  rep_lowest : pa_lowest_free t = Z.of_nat (first_free l);
  rep_map : forall i, m !! i = mjoin (l !! i);
  rep_count : Z.of_nat (length l) - free_count l <= n;
  rep_bound : Z.of_nat (length l) < 2 ^ 31
}.

(** Growing keeps the contents. *)
Lemma ptr_grow_spec t l m n soft hard :
  pa_rep t l m n -> Z.of_nat (length l) < soft < 2 ^ 31 -> (pa_max_size t < soft -> pa_max_size t <= hard) ->
  exists b t' l', grow_table alloc_ok t soft hard = Ret (b, t') /\ pa_rep t' l' m n /\ pa_max_size t' = pa_max_size t /\
    if b : bool then Z.of_nat (length l') = soft /\ pa_addr t' = Some l' else refuses (pa_max_size t) soft.
Proof.
  intros Hrep Hsoft Hhard.
  assert (Hfail : refuses (pa_max_size t) soft -> exists b t' l', Ret (false, t) = Ret (b, t') /\ pa_rep t' l' m n /\ pa_max_size t' = pa_max_size t /\
    if b : bool then Z.of_nat (length l') = soft /\ pa_addr t' = Some l' else refuses (pa_max_size t) soft) by (intros; by exists false, t, l).
  unfold grow_table. destruct (Z.ltb_spec (pa_max_size t) soft) as [Hlt|Hge]; cbn [andb].
  - destruct (Z.ltb_spec (pa_max_size t) hard) as [|Hh]; [apply Hfail; left; lia|].
    rewrite (proj2 (Z.leb_le _ _)) by auto. apply Hfail. left. lia.
  - destruct (Z.leb_spec (pa_max_size t) soft); [apply Hfail; by left|]. rewrite (proj2 (Z.eqb_neq _ _)) by lia.
    destruct (alloc_ok _) eqn:E; cbn [negb]; [|apply Hfail; by right].
    assert (Hold : (match pa_addr t with Some l => Ret l | None => if pa_size t =? 0 then Ret [] else Ub end) = Ret l).
    { destruct (rep_addr _ _ _ _ Hrep) as [[-> _]|[-> ->]]; [done|]. by rewrite (rep_size _ _ _ _ Hrep). }
    rewrite Hold, bind_Ret. destruct Hrep as [_ Hmax Hs Hf Hl Hm Hc Hb].
    set (k := Z.to_nat (soft - pa_size t)).
    eexists true, _, (l ++ replicate k None). split; [reflexivity|].
    assert (Hlen : Z.of_nat (length (l ++ replicate k None)) = soft) by (rewrite length_app, length_replicate; lia).
    split; [|by split_and!]. split; cbn [pa_addr pa_max_size pa_size pa_number_free pa_lowest_free].
    + left. split; [done|]. intros E0. rewrite E0 in Hlen. cbn in Hlen. lia.
    + done.
    + done.
    + rewrite free_count_app, free_count_replicate, Hf. lia.
    + by rewrite Hl, first_free_pad.
    + intros i. by rewrite Hm, lookup_pad.
    + rewrite free_count_app, free_count_replicate, length_app, length_replicate. lia.
    + lia.
Qed.

(** Writing keeps the table in order. *)
Lemma write_rep t l m n (i : nat) old v low num :
  pa_rep t l m n -> pa_addr t = Some l -> l !! i = Some old -> low = Z.of_nat (first_free (<[i := v]> l)) ->
  num = pa_number_free t - weight_free old + weight_free v ->
  pa_rep (MkPtrArray low num (pa_size t) (pa_max_size t) (pa_block_size t) (Some (<[i := v]> l)))
    (<[i := v]> l) (partial_alter (fun _ => v) i m) (n + 1).
Proof.
  intros [Ha Hmax Hs Hf Hl Hm Hc Hb] El Hi -> ->. pose proof (lookup_lt_Some _ _ _ Hi) as Hlt.
  assert (Hw : forall x : option A, 0 <= weight_free x <= 1) by (intros [x|]; cbn; lia).
  pose proof (Hw old). pose proof (Hw v).
  split; cbn [pa_addr pa_max_size pa_size pa_number_free pa_lowest_free];
    rewrite ?length_insert, ?(free_count_insert l i old v Hi); try done; try lia.
  - left. split; [done|]. intros E0. apply (f_equal length) in E0. rewrite length_insert in E0. cbn in E0. lia.
  - intros j. by apply lookup_write.
Qed.

Lemma store_spec l (i : nat) v : (i < length l)%nat -> store l (Z.of_nat i) v = Ret (<[i := v]> l).
Proof. intros Hi. unfold store. rewrite (proj2 (Z.leb_le _ _)), (proj2 (Z.ltb_lt _ _)) by lia. by rewrite Nat2Z.id. Qed.

Lemma fetch_spec l (i : nat) x : l !! i = Some x -> fetch l (Z.of_nat i) = Ret x.
Proof. intros Hi. unfold fetch. rewrite (proj2 (Z.leb_le _ _)) by lia. by rewrite Nat2Z.id, Hi. Qed.

Lemma rep_weaken t l m n n' : pa_rep t l m n -> n <= n' -> pa_rep t l m n'.
Proof. intros [] ?. split; try done. lia. Qed.

(** The place an index asks for exists afterwards, or growing is refused. *)
Lemma reach_spec t l m n (i : nat) :
  pa_rep t l m n -> Z.of_nat i + 2 < 2 ^ 31 -> (Z.of_nat i + 1 = pa_max_size t -> Z.odd (Z.of_nat i) = true) ->
  exists b t' l', reach alloc_ok t (Z.of_nat i) = Ret (b, t') /\ pa_rep t' l' m n /\ pa_max_size t' = pa_max_size t /\
    if b : bool then (i < length l')%nat /\ pa_addr t' = Some l' else m !! i = None /\ refuses (pa_max_size t) ((Z.of_nat i / 2 + 1) * 2).
Proof.
  intros Hrep Hi Hodd. unfold reach. rewrite (rep_size _ _ _ _ Hrep).
  destruct (Z.leb_spec (Z.of_nat (length l)) (Z.of_nat i)) as [Hle|Hlt].
  - unfold TABLE_GROW. pose proof (Z.div_mod (Z.of_nat i) 2 ltac:(lia)) as Hd. pose proof (Z.mod_pos_bound (Z.of_nat i) 2 ltac:(lia)).
    rewrite (proj2 (Z.ltb_ge _ _)) by (unfold INT_MAX; lia).
    destruct (ptr_grow_spec t l m n ((Z.of_nat i / 2 + 1) * 2) (Z.of_nat i) Hrep) as (b & t' & l' & E & Hrep' & Hmax & Hb).
    + lia.
    + intros Hm. destruct (decide (Z.of_nat i + 1 = pa_max_size t)) as [Em|]; [|lia].
      apply Hodd in Em as Ho. rewrite Zodd_mod in Ho. apply Z.eqb_eq in Ho. lia.
    + exists b, t', l'. split_and!; [done..|]. destruct b; [destruct Hb; split; [lia|done]|]. split; [|done].
      by rewrite (rep_map _ _ _ _ Hrep), lookup_ge_None_2 by lia.
  - exists true, t, l. split_and!; [done|done|done|lia|].
    destruct (rep_addr _ _ _ _ Hrep) as [[-> _]|[_ ->]]; [done|]. cbn in Hlt. lia.
Qed.

(** What a step is allowed to do. *)
Definition steps t m n op : Prop :=
  exists a t' l' m', pa_run t op = Ret (a, t') /\ pa_spec (pa_max_size t) m op m' a /\ pa_rep t' l' m' (n + 1) /\ pa_max_size t' = pa_max_size t.

Lemma steps_same t l m n op a :
  pa_rep t l m n -> pa_run t op = Ret (a, t) -> pa_spec (pa_max_size t) m op m a -> steps t m n op.
Proof. intros Hrep E Hs. exists a, t, l, m. split_and!; [done|done| |done]. apply (rep_weaken _ _ _ n); [done|lia]. Qed.

Definition add_soft t : outcome Z :=
  match pa_addr t with
  | None => Ret TABLE_INIT
  | Some _ => if INT_MAX <? pa_size t * TABLE_GROW then Ub else Ret (pa_size t * TABLE_GROW)
  end.

Lemma add_soft_spec t l m n :
  pa_rep t l m n -> free_count l = 0 -> 0 <= n < 2 ^ 30 -> Z.of_nat (length l) <= n /\ add_soft t = Ret (Z.max 1 (2 * Z.of_nat (length l))).
Proof.
  intros [Ha _ Hs _ _ _ Hc _] Hz Hn. unfold add_soft, TABLE_INIT, TABLE_GROW, INT_MAX. split; [lia|].
  destruct Ha as [[-> Hne]|[-> ->]]; [|done]. assert (0 < Z.of_nat (length l)) by (destruct l; [done|cbn; lia]).
  rewrite (proj2 (Z.ltb_ge _ _)) by lia. f_equal. lia.
Qed.

(** Positions that are used are not free. *)
Lemma used_prefix l (i : nat) : (forall j, (j < i)%nat -> exists x, l !! j = Some (Some x)) -> free_count l + Z.of_nat i <= Z.of_nat (length l).
Proof.
  revert l. induction i as [|i IH]; intros l Hl; [pose proof (free_count_range l); lia|].
  destruct (Hl 0%nat) as [x Hx]; [lia|]. destruct l as [|y l]; [done|]. injection Hx as ->. cbn [free_count length].
  assert (free_count l + Z.of_nat i <= Z.of_nat (length l)); [|cbn; lia]. apply IH. intros j Hj. apply (Hl (S j)). lia.
Qed.

Lemma rep_prefix t l m n (i : nat) : pa_rep t l m n -> (forall j, (j < i)%nat -> is_Some (m !! j)) -> Z.of_nat i <= n.
Proof.
  intros Hrep Hb. pose proof (rep_count _ _ _ _ Hrep). assert (free_count l + Z.of_nat i <= Z.of_nat (length l)); [|lia].
  apply used_prefix. intros j Hj. destruct (Hb j Hj) as [x Hx]. rewrite (rep_map _ _ _ _ Hrep) in Hx.
  destruct (l !! j) as [[y|]|]; [by exists y|done|done].
Qed.

Lemma rep_gap t l m n : pa_rep t l m n -> lowest_gap m (first_free l).
Proof.
  intros Hrep. split.
  - rewrite (rep_map _ _ _ _ Hrep). pose proof (first_free_le l). destruct (decide (first_free l < length l)%nat) as [Hlt|]; [by rewrite (first_free_at l Hlt)|].
    by rewrite lookup_ge_None_2 by lia.
  - intros j Hj. rewrite (rep_map _ _ _ _ Hrep). destruct (first_free_below l j Hj) as [x ->]. by exists x.
Qed.

(** Before adding there is a free place. *)
Lemma add_room t l m n :
  pa_rep t l m n -> 0 <= n < 2 ^ 30 ->
  exists b t' l', (if pa_number_free t =? 0 then soft ← add_soft t; grow_table alloc_ok t soft INT_MAX else Ret (true, t)) = Ret (b, t') /\
    pa_rep t' l' m n /\ pa_max_size t' = pa_max_size t /\
    if b : bool then 0 < free_count l' /\ pa_addr t' = Some l'
    else exists i, lowest_gap m i /\ refuses (pa_max_size t) (Z.max 1 (2 * Z.of_nat i)).
Proof.
  intros Hrep Hn. pose proof (free_count_range l). destruct (Z.eqb_spec (pa_number_free t) 0) as [E0|E0]; rewrite (rep_free _ _ _ _ Hrep) in E0.
  - destruct (add_soft_spec t l m n Hrep E0 Hn) as [Hln ->]. rewrite bind_Ret.
    destruct (ptr_grow_spec t l m n (Z.max 1 (2 * Z.of_nat (length l))) INT_MAX Hrep) as (b & t' & l' & E & Hrep' & Hmax' & Hb').
    + lia.
    + intros _. apply (rep_max _ _ _ _ Hrep).
    + exists b, t', l'. split_and!; [done..|]. destruct b; [|exists (first_free l); split; [by eapply rep_gap|]; by rewrite full_first_free]. destruct Hb' as [Hlen Ha']. split; [|done].
      destruct (Z.ltb_spec 0 (free_count l')) as [|Hz]; [done|]. pose proof (free_count_range l').
      destruct (first_free_below l' (length l)) as [y Hy]; [rewrite full_first_free; lia|].
      pose proof (rep_map _ _ _ _ Hrep (length l)) as Hm. rewrite (rep_map _ _ _ _ Hrep'), Hy, lookup_ge_None_2 in Hm by done. done.
  - exists true, t, l. split_and!; [done|done|done|lia|].
    destruct (rep_addr _ _ _ _ Hrep) as [[-> _]|[_ ->]]; [done|]. cbn in E0. lia.
Qed.

Lemma add_step t l m n v :
  pa_rep t l m n -> 0 <= n < 2 ^ 30 -> steps t m n (PAdd v).
Proof.
  intros Hrep Hn. destruct (add_room t l m n Hrep Hn) as (b & t1 & l1 & E & Hrep1 & Hmax1 & Hb).
  unfold steps, pa_run, opal_pointer_array_add. fold (add_soft t). rewrite E, bind_Ret. destruct b; cbn [negb].
  2: { destruct Hb as (i & Hgap & Hno). rewrite bind_Ret. eexists _, t1, l1, m. split; [reflexivity|]. split; [by eapply spec_add_fails|].
       split; [apply (rep_weaken _ _ _ n); [done|lia]|done]. }
  destruct Hb as [Hfree Ha]. pose proof (some_free _ Hfree) as Hlt. pose proof (first_free_at _ Hlt) as Hat.
  rewrite Ha. cbn [deref]. rewrite bind_Ret, (rep_lowest _ _ _ _ Hrep1), store_spec, bind_Ret by done.
  eexists _, _, (<[first_free l1 := Some v]> l1), (<[first_free l1 := v]> m). split; [reflexivity|]. split; [|split; [|done]].
  - apply spec_add. by eapply rep_gap.
  - change (<[first_free l1 := v]> m) with (partial_alter (fun _ => Some v) (first_free l1) m).
    apply write_rep with (old := None); [done|done|done| |cbn; lia].
    pose proof (free_count_insert l1 _ None (Some v) Hat) as Hfc. cbn in Hfc. rewrite (rep_free _ _ _ _ Hrep1), (rep_size _ _ _ _ Hrep1).
    rewrite <- (length_insert l1 (first_free l1) (Some v)). destruct (Z.ltb_spec 0 (free_count l1 - 1)).
    + rewrite Z.add_1_r, <- Nat2Z.inj_succ. apply next_free_default; [rewrite length_insert; lia|by apply filled_below|].
      left. apply some_free. lia.
    + pose proof (free_count_range l1). symmetry. f_equal. apply full_first_free. lia.
Qed.

Lemma set_step t l m n (i : nat) v :
  pa_rep t l m n -> Z.of_nat i + 2 < 2 ^ 31 -> (Z.of_nat i + 1 = pa_max_size t -> Z.odd (Z.of_nat i) = true) -> steps t m n (PSet (Z.of_nat i) v).
Proof.
  intros Hrep Hi Hodd. destruct (reach_spec t l m n i Hrep Hi Hodd) as (b & t1 & l1 & E & Hrep1 & Hmax1 & Hb).
  unfold steps, pa_run, opal_pointer_array_set_item. rewrite (proj2 (Z.ltb_ge _ _)) by lia. rewrite E, bind_Ret. destruct b; cbn [negb].
  2: { destruct Hb as [Hgap Hno]. rewrite bind_Ret. eexists _, t1, l1, m. split; [reflexivity|].
       split; [by constructor|]. split; [apply (rep_weaken _ _ _ n); [done|lia]|done]. }
  destruct Hb as [Hlt Ha]. destruct (lookup_lt_is_Some_2 _ _ Hlt) as [old Hold].
  rewrite Ha. cbn [deref]. rewrite bind_Ret, (fetch_spec _ _ _ Hold), bind_Ret, store_spec, bind_Ret by done.
  assert (Hw : forall low num, low = Z.of_nat (first_free (<[i := v]> l1)) -> num = pa_number_free t1 - weight_free old + weight_free v ->
    exists a t' l' m', Ret (PCode OPAL_SUCCESS, MkPtrArray low num (pa_size t1) (pa_max_size t1) (pa_block_size t1) (Some (<[i := v]> l1))) =
      Ret (a, t') /\ pa_spec (pa_max_size t) m (PSet (Z.of_nat i) v) m' a /\ pa_rep t' l' m' (n + 1) /\ pa_max_size t' = pa_max_size t).
  { intros low num Hl Hnum. eexists _, _, (<[i := v]> l1), _. split; [reflexivity|]. split; [constructor|].
    split; [|done]. by apply write_rep with (old := old). }
  rewrite (rep_lowest _ _ _ _ Hrep1), (rep_size _ _ _ _ Hrep1) in *. destruct v as [x|]; rewrite bind_Ret; apply Hw.
  - destruct (Z.eqb_spec (Z.of_nat i) (Z.of_nat (first_free l1))) as [E1|E1]; [|rewrite first_free_fill_other; [done|lia]].
    rewrite <- (next_free_default (<[i := Some x]> l1) (S i) (Z.of_nat (length l1)));
      [|rewrite length_insert; lia|apply filled_below; lia|right; by rewrite length_insert].
    unfold next_free. rewrite length_insert, Z.add_1_r, <- Nat2Z.inj_succ, !Nat2Z.id, !take_ge, drop_insert_lt by (rewrite ?length_insert; lia). done.
  - destruct old; cbn; lia.
  - rewrite first_free_clear by done. zcase; lia.
  - destruct old; cbn; lia.
Qed.

Lemma test_set_step t l m n (i : nat) v :
  pa_rep t l m n -> Z.of_nat i + 2 < 2 ^ 31 -> (Z.of_nat i + 1 = pa_max_size t -> Z.odd (Z.of_nat i) = true) -> steps t m n (PTestSet (Z.of_nat i) v).
Proof.
  intros Hrep Hi Hodd.
  assert (Hused : (if Z.of_nat i <? pa_size t then addr ← deref (pa_addr t); fetch addr (Z.of_nat i) else Ret None) = Ret (m !! i)).
  { rewrite (rep_size _ _ _ _ Hrep), (rep_map _ _ _ _ Hrep). destruct (Z.ltb_spec (Z.of_nat i) (Z.of_nat (length l))).
    - destruct (lookup_lt_is_Some_2 l i) as [x Hx]; [lia|]. rewrite Hx.
      destruct (rep_addr _ _ _ _ Hrep) as [[-> _]|[_ ->]]; [|done]. cbn [deref]. by rewrite bind_Ret, (fetch_spec _ _ _ Hx).
    - by rewrite lookup_ge_None_2 by lia. }
  destruct (m !! i) as [x|] eqn:Hm.
  { apply (steps_same t l m n _ (PBool false)); [done| |by constructor; rewrite Hm].
    cbn [pa_run]. unfold opal_pointer_array_test_and_set_item. by rewrite Hused. }
  destruct (reach_spec t l m n i Hrep Hi Hodd) as (b & t1 & l1 & E & Hrep1 & Hmax1 & Hb).
  unfold steps, pa_run, opal_pointer_array_test_and_set_item. rewrite Hused, bind_Ret, E, bind_Ret. destruct b; cbn [negb].
  2: { destruct Hb as [Hgap Hno]. rewrite bind_Ret. eexists _, t1, l1, m. split; [reflexivity|].
       split; [by constructor|]. split; [apply (rep_weaken _ _ _ n); [done|lia]|done]. }
  destruct Hb as [Hlt Ha]. destruct (lookup_lt_is_Some_2 _ _ Hlt) as [old Hold].
  assert (old = None) as -> by (rewrite (rep_map _ _ _ _ Hrep1), Hold in Hm; by destruct old).
  rewrite Ha. cbn [deref]. rewrite bind_Ret, store_spec, bind_Ret by done.
  eexists _, _, (<[i := Some v]> l1), (<[i := v]> m). split; [reflexivity|]. split; [by constructor|]. split; [|done].
  change (<[i := v]> m) with (partial_alter (fun _ => Some v) i m).
  apply write_rep with (old := None); [done..| |cbn; lia]. rewrite (rep_lowest _ _ _ _ Hrep1), (rep_size _ _ _ _ Hrep1).
  destruct (Z.eqb_spec (Z.of_nat i) (Z.of_nat (first_free l1))); [|rewrite first_free_fill_other; [done|lia]].
  rewrite <- (length_insert l1 i (Some v)). apply next_free_default; [rewrite length_insert; lia| |by right].
  intros j Hj. apply filled_below; lia.
Qed.

Lemma get_step t l m n i : pa_rep t l m n -> steps t m n (PGet i).
Proof.
  intros Hrep. destruct (Z.ltb_spec i 0) as [Hneg|Hpos].
  - apply (steps_same t l m n _ (PItem None)); [done| |by constructor]. cbn [pa_run]. unfold opal_pointer_array_get_item.
    by rewrite (proj2 (Z.ltb_lt _ _) Hneg).
  - rewrite <- (Z2Nat.id i) by done. set (j := Z.to_nat i).
    apply (steps_same t l m n _ (PItem (m !! j))); [done| |constructor]. cbn [pa_run]. unfold opal_pointer_array_get_item.
    rewrite (proj2 (Z.ltb_ge (Z.of_nat j) 0)) by lia. rewrite (rep_size _ _ _ _ Hrep), (rep_map _ _ _ _ Hrep). cbn [orb].
    destruct (Z.leb_spec (Z.of_nat (length l)) (Z.of_nat j)); [by rewrite lookup_ge_None_2 by lia|].
    destruct (lookup_lt_is_Some_2 l j) as [x Hx]; [lia|]. rewrite Hx.
    destruct (rep_addr _ _ _ _ Hrep) as [[-> _]|[_ ->]]; [|done]. cbn [deref]. by rewrite bind_Ret, (fetch_spec _ _ _ Hx).
Qed.

Lemma set_size_step t l m n k : pa_rep t l m n -> k < 2 ^ 31 -> steps t m n (PSetSize k).
Proof.
  intros Hrep Hk. unfold steps, pa_run, opal_pointer_array_set_size. rewrite (rep_size _ _ _ _ Hrep).
  destruct (Z.ltb_spec (Z.of_nat (length l)) k).
  - destruct (ptr_grow_spec t l m n k k Hrep) as (b & t' & l' & E & Hrep' & Hmax & Hb); [lia|lia|].
    rewrite E, bind_Ret. exists (PCode (if b then OPAL_SUCCESS else OPAL_ERROR)), t', l', m. split; [done|].
    split; [destruct b; by constructor|]. split; [apply (rep_weaken _ _ _ n); [done|lia]|done].
  - exists (PCode OPAL_SUCCESS), t, l, m. split_and!; [done|constructor| |done]. apply (rep_weaken _ _ _ n); [done|lia].
Qed.

Lemma remove_all_step t l m n : pa_rep t l m n -> 0 <= n -> steps t m n PRemoveAll.
Proof.
  intros Hrep Hn. pose proof (rep_size _ _ _ _ Hrep) as Hs. pose proof (rep_free _ _ _ _ Hrep) as Hf.
  unfold steps, pa_run, opal_pointer_array_remove_all. rewrite Hs, Hf. destruct (Z.eqb_spec (free_count l) (Z.of_nat (length l))) as [E|E].
  - rewrite bind_Ret. exists PDone, t, l, ∅. split_and!; [done|constructor| |done]. apply (rep_weaken _ _ _ n); [|lia].
    destruct Hrep as [? ? ? ? ? Hm ? ?]. split; try done. intros i. rewrite lookup_empty. destruct (l !! i) as [[x|]|] eqn:Hi; [|done|done].
    pose proof (free_count_insert l i (Some x) None Hi) as Hc. pose proof (free_count_range (<[i := None]> l)) as Hr.
    rewrite length_insert in Hr. cbn in Hc. lia.
  - assert (Ha : pa_addr t = Some l).
    { destruct (rep_addr _ _ _ _ Hrep) as [[-> _]|[_ ->]]; [done|]. by cbn in E. }
    rewrite Ha. cbn [deref]. rewrite !bind_Ret, Nat2Z.id, drop_all, app_nil_r.
    exists PDone, (MkPtrArray 0 (Z.of_nat (length l)) (Z.of_nat (length l)) (pa_max_size t) (pa_block_size t) (Some (replicate (length l) None))),
      (replicate (length l) None), ∅. split; [done|]. split; [constructor|]. split; [|done].
    destruct Hrep as [Ha' Hmax _ _ Hl Hm Hc Hb].
    split; cbn [pa_addr pa_max_size pa_size pa_number_free pa_lowest_free]; rewrite ?length_replicate, ?free_count_replicate; try done; try lia.
    + left. split; [done|]. destruct l; [by cbn in E|done].
    + rewrite <- (app_nil_l (replicate _ _)), first_free_pad. done.
    + intros i. rewrite <- (app_nil_l (replicate _ _)), lookup_pad, lookup_empty. done.
Qed.

(** A step that asks for a position the table can have: the last position of
    a table with an odd maximum is left out. *)
Definition admissible (max : Z) (op : pa_op A) : Prop :=
  match op with
  | PSet i _ => i + 2 < 2 ^ 31 /\ (i + 1 = max -> Z.odd i = true)
  | PTestSet i _ => 0 <= i /\ i + 2 < 2 ^ 31 /\ (i + 1 = max -> Z.odd i = true)
  | PSetSize n => n < 2 ^ 31
  | _ => True
  end.

Fixpoint pa_runs t (ops : list (pa_op A)) : outcome (list (pa_answer A) * opal_pointer_array_t A) :=
  match ops with
  | [] => Ret ([], t)
  | op :: ops' => '(a, t) ← pa_run t op; '(l, t) ← pa_runs t ops'; Ret (a :: l, t)
  end.

Inductive pa_specs (max : Z) : gmap nat A -> list (pa_op A) -> list (pa_answer A) -> gmap nat A -> Prop :=
| specs_nil m : pa_specs max m [] [] m
| specs_cons m op m' a ops answers m'' :
    pa_spec max m op m' a -> pa_specs max m' ops answers m'' -> pa_specs max m (op :: ops) (a :: answers) m''.

Lemma run_step t l m n op :
  pa_rep t l m n -> 0 <= n < 2 ^ 30 -> admissible (pa_max_size t) op -> steps t m n op.
Proof.
  intros Hrep Hn Hop. destruct op as [v|i v|i v|i|k|]; cbn [admissible] in *.
  - by apply (add_step t l).
  - destruct Hop as [Hi Ho]. destruct (Z.ltb_spec i 0) as [Hneg|Hpos].
    + apply (steps_same t l m n _ (PCode OPAL_ERROR)); [done| |by constructor]. cbn [pa_run]. unfold opal_pointer_array_set_item.
      by rewrite (proj2 (Z.ltb_lt _ _) Hneg).
    + destruct (Z_of_nat_complete i Hpos) as [j ->]. by apply (set_step t l).
  - destruct Hop as (Hpos & Hi & Ho). destruct (Z_of_nat_complete i Hpos) as [j ->]. by apply (test_set_step t l).
  - by apply (get_step t l).
  - by apply (set_size_step t l).
  - apply (remove_all_step t l); [done|lia].
Qed.

Lemma runs_spec ops : forall t l m n,
  pa_rep t l m n -> 0 <= n -> n + Z.of_nat (length ops) <= 2 ^ 30 -> Forall (admissible (pa_max_size t)) ops ->
  exists answers t' l' m', pa_runs t ops = Ret (answers, t') /\ pa_specs (pa_max_size t) m ops answers m' /\
    pa_rep t' l' m' (n + Z.of_nat (length ops)).
Proof.
  induction ops as [|op ops IH]; intros t l m n Hrep Hn Hlen Hadm.
  { exists [], t, l, m. rewrite Z.add_0_r. split_and!; [done|constructor|done]. }
  cbn [length] in *. inversion Hadm as [|? ? Hop Hops]; subst.
  destruct (run_step t l m n op Hrep) as (a & t1 & l1 & m1 & E & Hs & Hrep1 & Hmax); [lia|done|].
  destruct (IH t1 l1 m1 (n + 1) Hrep1) as (answers & t' & l' & m' & E' & Hss & Hrep'); [lia|lia|by rewrite Hmax|].
  exists (a :: answers), t', l', m'. cbn [pa_runs]. rewrite E, bind_Ret, E', bind_Ret. rewrite Hmax in Hss.
  split_and!; [done|by econstructor|]. replace (n + Z.of_nat (S (length ops))) with (n + 1 + Z.of_nat (length ops)) by lia. done.
Qed.

(** A table after [opal_pointer_array_init]. *)
Lemma init_rep initial max block t :
  0 < initial < 2 ^ 31 \/ (initial <= 0 /\ 0 < block < 2 ^ 31) -> max <= INT_MAX ->
  opal_pointer_array_init alloc_ok (Some opal_pointer_array_construct) initial max block = (OPAL_SUCCESS, Some t) ->
  pa_max_size t = max /\ exists l, pa_rep t l ∅ 0.
Proof.
  intros Hi Hmax E. unfold opal_pointer_array_init in E. destruct (max <? block); [done|].
  set (num := if 0 <? initial then initial else block) in *.
  assert (Hnum : 0 < num < 2 ^ 31) by (unfold num; zcase; lia).
  unfold sizeof_pointer in E. rewrite (u64_small num), u64_small, i32_small in E by (unfold INT_MIN, INT_MAX; lia).
  destruct (alloc_ok (num * 8)); [|done]. injection E as <-. split; [done|].
  rewrite Z.div_mul by done. exists (replicate (Z.to_nat num) None).
  split; cbn [pa_addr pa_max_size pa_size pa_number_free pa_lowest_free opal_pointer_array_construct];
    rewrite ?length_replicate, ?free_count_replicate; try done; try lia.
  - left. split; [done|]. intros E0. apply (f_equal length) in E0. rewrite length_replicate in E0. cbn in E0. lia.
  - by rewrite <- (app_nil_l (replicate _ _)), first_free_pad.
  - intros i. by rewrite <- (app_nil_l (replicate _ _)), lookup_pad, lookup_empty.
Qed.
End Refinement.

(** C28: a sequence of operations on a fresh table answers as the finite map from positions to pointers does, adding at
    the lowest free position, and the table keeps the count and the lowest position of its free places.  An operation
    that needs a larger table (an addition to a full one, which is doubled, a position beyond it, which asks for the
    next even size, or a larger size) fails only if that size reaches the maximum or the memory for it is refused, and
    then changes nothing.  Left out is the last position of a table with an odd maximum: there the code writes behind
    the table ([pointer_array_last_ub]); positions are below 2^31 - 2, and a test before setting has one that is not
    negative. *)
Theorem pointer_array_refines_map {A} (alloc_ok : Z -> bool) initial max block t (ops : list (pa_op A)) :
  0 < initial < 2 ^ 31 \/ (initial <= 0 /\ 0 < block < 2 ^ 31) -> max <= INT_MAX ->
  opal_pointer_array_init alloc_ok (Some opal_pointer_array_construct) initial max block = (OPAL_SUCCESS, Some t) ->
  Z.of_nat (length ops) <= 2 ^ 30 -> Forall (admissible max) ops ->
  exists answers t' m, pa_runs alloc_ok t ops = Ret (answers, t') /\ pa_specs alloc_ok max ∅ ops answers m /\
    exists l, default [] (pa_addr t') = l /\ pa_size t' = Z.of_nat (length l) /\ (forall i, m !! i = mjoin (l !! i)) /\
      pa_number_free t' = free_count l /\ pa_lowest_free t' = Z.of_nat (first_free l).
Proof.
  intros Hi Hmax Hinit Hlen Hadm. destruct (init_rep alloc_ok initial max block t Hi Hmax Hinit) as (Em & l & Hrep).
  subst max. destruct (runs_spec alloc_ok ops t l ∅ 0 Hrep) as (answers & t' & l' & m' & E & Hs & Hrep'); [lia|lia|done|].
  exists answers, t', m'. split; [done|]. split; [done|]. exists l'. destruct Hrep' as [Ha _ Hs' Hf Hl Hm _ _].
  split; [by destruct Ha as [[-> _]|[-> ->]]|]. by split_and!.
Qed.

(** The last position of a table whose maximum is odd: the table grows to one
    place too few, and the pointer is written behind its end. *)
Theorem pointer_array_last_ub {A} (alloc_ok : Z -> bool) t (l : list (option A)) m n v :
  pa_rep t l m n -> (forall b, alloc_ok b = true) -> Z.odd (pa_max_size t) = true -> 3 <= pa_max_size t < INT_MAX ->
  Z.of_nat (length l) < pa_max_size t -> opal_pointer_array_set_item alloc_ok t (pa_max_size t - 1) v = Ub.
Proof.
  intros Hrep Halloc Hodd Hmax Hlen. unfold opal_pointer_array_set_item, reach, TABLE_GROW.
  rewrite (proj2 (Z.ltb_ge _ _)) by lia. rewrite (rep_size _ _ _ _ Hrep), (proj2 (Z.leb_le _ _)) by lia.
  rewrite Zodd_mod in Hodd. apply Z.eqb_eq in Hodd.
  assert (Ed : ((pa_max_size t - 1) / 2 + 1) * 2 = pa_max_size t + 1).
  { pose proof (Z.div_mod (pa_max_size t - 1) 2 ltac:(lia)). assert ((pa_max_size t - 1) mod 2 = 0); [|lia].
    rewrite Zminus_mod, Hodd. done. }
  rewrite Ed, (proj2 (Z.ltb_ge _ _)) by lia. unfold grow_table.
  rewrite (proj2 (Z.ltb_lt (pa_max_size t) (pa_max_size t + 1))) by lia.
  rewrite (proj2 (Z.ltb_ge (pa_max_size t) (pa_max_size t - 1))) by lia. cbn [andb].
  rewrite (proj2 (Z.leb_gt _ _)) by lia. rewrite (proj2 (Z.eqb_neq _ _)) by lia. rewrite Halloc. cbn [negb].
  assert (Hold : (match pa_addr t with Some l => Ret l | None => if pa_size t =? 0 then Ret [] else Ub end) = Ret l).
  { destruct (rep_addr _ _ _ _ Hrep) as [[-> _]|[-> ->]]; [done|]. by rewrite (rep_size _ _ _ _ Hrep). }
  rewrite Hold, (rep_size _ _ _ _ Hrep), !bind_Ret. cbn [negb pa_addr deref]. rewrite bind_Ret. unfold fetch.
  rewrite (proj2 (Z.leb_le _ _)) by lia. rewrite lookup_ge_None_2; [done|]. rewrite length_app, length_replicate. lia.
Qed.

(** ** Examples *)
Definition small_table : opal_pointer_array_t nat := MkPtrArray 0 2 2 9 2 (Some [None; None]).

(** Three pointers, the middle one removed and its place used again; the
    memory for six places is there, that for eight is not. *)
Definition small_memory (bytes : Z) : bool := bytes <? 64.
Definition small_ops : list (pa_op nat) :=
  [PAdd 10%nat; PAdd 11%nat; PAdd 12%nat; PSet 1 None; PTestSet 2 7%nat; PAdd 13%nat; PSet 5 (Some 20%nat); PGet 5; PGet 4;
   PSet 6 (Some 30%nat); PSetSize 9].

Lemma pointer_array_refines_map_witness :
  exists answers t' m, pa_runs small_memory small_table small_ops = Ret (answers, t') /\
    pa_specs small_memory 9 ∅ small_ops answers m /\
    answers = [PCode 0; PCode 1; PCode 2; PCode OPAL_SUCCESS; PBool false; PCode 1; PCode OPAL_SUCCESS; PItem (Some 20%nat); PItem None;
               PCode OPAL_ERROR; PCode OPAL_ERROR] /\
    pa_lowest_free t' = 3.
Proof.
  destruct (pointer_array_refines_map small_memory 0 9 2 small_table small_ops) as (answers & t' & m & E & Hs & _).
  - right. lia.
  - unfold INT_MAX. lia.
  - vm_compute. reflexivity.
  - cbn. lia.
  - repeat constructor; cbn; lia.
  - exists answers, t', m. split; [exact E|]. split; [exact Hs|]. vm_compute in E. injection E as <- <-. done.
Defined.
