(* ===== verification/Bitmap.v ===== *)
(** * Bit maps ([opal/class/opal_bitmap.c])

    A growing array of 64-bit words that stands for a set of bit numbers.  The
    database clients mark in one which values of a list they have dealt with.

    The words are a list of [Z] below [2^64]; [array_size] is kept beside the
    list as in the source, since a failed reallocation loses the list and not
    the size.  [malloc_ok n] says whether [n] bytes can be allocated, [debug]
    is the build flag.  Arithmetic on [int] that overflows is undefined. *)

From S2P Require Import Prelude CString.
From stdpp Require Import base numbers list gmap fin_maps fin_sets.
From Stdlib Require Import ZArith Lia Ascii.

Open Scope Z_scope.

Definition SIZE_OF_BASE_TYPE : Z := 64.
Definition all_ones : Z := 2 ^ 64 - 1.

Record opal_bitmap_t : Type := MkBitmap {
  bm_bitmap : option (list Z);
  bm_array_size : Z;
  bm_max_size : Z
}.

Definition opal_bitmap_construct : opal_bitmap_t := MkBitmap None 0 INT_MAX.
Definition opal_bitmap_destruct (bm : opal_bitmap_t) : opal_bitmap_t := MkBitmap None (bm_array_size bm) (bm_max_size bm).

(** The value of an expression of type [int]. *)
Definition int_value (z : Z) : outcome Z := if (INT_MIN <=? z) && (z <=? INT_MAX) then Ret z else Ub.

(** [opal_bitmap_size] of a map that is there. *)
Definition bit_count (bm : opal_bitmap_t) : outcome Z := int_value (bm_array_size bm * SIZE_OF_BASE_TYPE).
Definition opal_bitmap_size (bm : option opal_bitmap_t) : outcome Z :=
  match bm with None => Ret 0 | Some bm => bit_count bm end.

(** The first [n] words, as a loop over them reads them. *)
Definition first_words (n : Z) (bm : opal_bitmap_t) : outcome (list Z) :=
  if n <=? 0 then Ret []
  else l ← deref (bm_bitmap bm); if Z.of_nat (length l) <? n then Ub else Ret (take (Z.to_nat n) l).

(** One word is replaced by its image under [f]. *)
Definition update_word (index : Z) (f : Z -> Z) (bm : opal_bitmap_t) : outcome opal_bitmap_t :=
  l ← deref (bm_bitmap bm);
  word ← deref (l !! Z.to_nat index);
  Ret (MkBitmap (Some (<[Z.to_nat index := f word]> l)) (bm_array_size bm) (bm_max_size bm)).

(** The first [array_size] words are replaced. *)
Definition store_words (new : list Z) (bm : opal_bitmap_t) : opal_bitmap_t :=
  MkBitmap ((fun l => new ++ drop (length new) l) <$> bm_bitmap bm) (bm_array_size bm) (bm_max_size bm).

(** [memset] of the words. *)
Definition memset_words (v : Z) (bm : opal_bitmap_t) : outcome opal_bitmap_t :=
  _ ← deref (bm_bitmap bm);
  old ← first_words (bm_array_size bm) bm;
  Ret (store_words ((fun _ => v) <$> old) bm).

Definition words_for (bits : Z) : Z := i32 (u64 (u64 bits + SIZE_OF_BASE_TYPE - 1) / SIZE_OF_BASE_TYPE).

Definition opal_bitmap_set_max_size (bm : option opal_bitmap_t) (max_size : Z) : Z * option opal_bitmap_t :=
  match bm with
  | None => (OPAL_ERR_BAD_PARAM, None)
  | Some bm => (OPAL_SUCCESS, Some (MkBitmap (bm_bitmap bm) (bm_array_size bm) (words_for max_size)))
  end.

Definition opal_bitmap_clear_all_bits (bm : option opal_bitmap_t) : outcome (Z * option opal_bitmap_t) :=
  match bm with
  | None => Ret (OPAL_ERR_BAD_PARAM, None)
  | Some bm => bm ← memset_words 0 bm; Ret (OPAL_SUCCESS, Some bm)
  end.

Definition opal_bitmap_set_all_bits (bm : option opal_bitmap_t) : outcome (Z * option opal_bitmap_t) :=
  match bm with
  | None => Ret (OPAL_ERR_BAD_PARAM, None)
  | Some bm => bm ← memset_words all_ones bm; Ret (OPAL_SUCCESS, Some bm)
  end.

Section Model.
Variable malloc_ok : Z -> bool.
Variable debug : bool.

(** What fresh memory holds does not matter: it is cleared. *)
Definition opal_bitmap_init (bm : option opal_bitmap_t) (size : Z) : outcome (Z * option opal_bitmap_t) :=
  match bm with
  | None => Ret (OPAL_ERR_BAD_PARAM, None)
  | Some b =>
    if (size <=? 0) || (bm_max_size b <? size) then Ret (OPAL_ERR_BAD_PARAM, bm)
    else
      let array_size := words_for size in
      let max_size := match bm_bitmap b with
                      | Some _ => if bm_max_size b <? array_size then array_size else bm_max_size b
                      | None => bm_max_size b
                      end in
      if negb (malloc_ok (u64 (array_size * 8))) then Ret (OPAL_ERR_OUT_OF_RESOURCE, Some (MkBitmap None array_size max_size))
      else
        '(_, bm) ← opal_bitmap_clear_all_bits (Some (MkBitmap (Some (replicate (Z.to_nat array_size) 0)) array_size max_size));
        Ret (OPAL_SUCCESS, bm)
  end.

(** The map is extended to hold word [index].  A size of zero is divided by;
    without words there is nothing defined to keep. *)
Definition extend (index : Z) (bm : opal_bitmap_t) : outcome (bool * opal_bitmap_t) :=
  if bm_array_size bm <=? index then
    if bm_array_size bm =? 0 then Ub
    else
      let new_size := i32 (u64 ((u64 index / u64 (bm_array_size bm) + 1) * u64 (bm_array_size bm))) in
      let new_size := if bm_max_size bm <? new_size then bm_max_size bm else new_size in
      if negb (malloc_ok (u64 (new_size * 8))) then Ret (false, MkBitmap None (bm_array_size bm) (bm_max_size bm))
      else if new_size <? bm_array_size bm then Ub
      else l ← deref (bm_bitmap bm); Ret (true, MkBitmap (Some (l ++ replicate (Z.to_nat (new_size - bm_array_size bm)) 0)) new_size (bm_max_size bm))
  else Ret (true, bm).

Definition opal_bitmap_set_bit (bm : option opal_bitmap_t) (bit : Z) : outcome (Z * option opal_bitmap_t) :=
  match bm with
  | None => Ret (OPAL_ERR_BAD_PARAM, None)
  | Some b =>
    if (bit <? 0) || (bm_max_size b <? bit) then Ret (OPAL_ERR_BAD_PARAM, bm)
    else
      let index := bit / SIZE_OF_BASE_TYPE in
      let offset := bit mod SIZE_OF_BASE_TYPE in
      '(ok, b) ← extend index b;
      if negb ok then Ret (OPAL_ERR_OUT_OF_RESOURCE, Some b)
      else b ← update_word index (fun word => Z.lor word (Z.shiftl 1 offset)) b; Ret (OPAL_SUCCESS, Some b)
  end.

(** Whether [bit] is outside the map. *)
Definition out_of_map (bit : Z) (bm : opal_bitmap_t) : outcome bool :=
  if bit <? 0 then Ret true else n ← bit_count bm; Ret (n <=? bit).

Definition opal_bitmap_clear_bit (bm : option opal_bitmap_t) (bit : Z) : outcome (Z * option opal_bitmap_t) :=
  match bm with
  | None => Ret (OPAL_ERR_BAD_PARAM, None)
  | Some b =>
    out ← out_of_map bit b;
    if out : bool then Ret (OPAL_ERR_BAD_PARAM, bm)
    else
      b ← update_word (bit / SIZE_OF_BASE_TYPE) (fun word => Z.land word (Z.lnot (Z.shiftl 1 (bit mod SIZE_OF_BASE_TYPE)))) b;
      Ret (OPAL_SUCCESS, Some b)
  end.

Definition opal_bitmap_is_set_bit (bm : option opal_bitmap_t) (bit : Z) : outcome bool :=
  match bm with
  | None => Ret false
  | Some b =>
    out ← out_of_map bit b;
    if out : bool then Ret false
    else
      l ← deref (bm_bitmap b);
      word ← deref (l !! Z.to_nat (bit / SIZE_OF_BASE_TYPE));
      Ret (negb (Z.land word (Z.shiftl 1 (bit mod SIZE_OF_BASE_TYPE)) =? 0))
  end.

(** The loop that shifts out zeros; [temp] has a bit set. *)
Fixpoint shift_out (fuel : nat) (temp position : Z) : outcome Z :=
  if negb (Z.land temp 1 =? 0) then Ret position
  else match fuel with O => Diverge | S fuel' => shift_out fuel' (Z.shiftr temp 1) (position + 1) end.

Definition opal_bitmap_find_and_set_first_unset_bit (bm : option opal_bitmap_t) : outcome (Z * Z * option opal_bitmap_t) :=
  match bm with
  | None => Ret (OPAL_ERR_BAD_PARAM, 0, None)
  | Some b =>
    l ← first_words (bm_array_size b) b;
    match find_index (fun word => negb (word =? all_ones)) l with
    | None =>
      position ← bit_count b;
      '(rc, bm) ← opal_bitmap_set_bit bm position;
      Ret (rc, position, bm)
    | Some i =>
      temp ← deref (l !! i);
      let new := Z.lor temp (u64 (temp + 1)) in
      b ← update_word (Z.of_nat i) (fun _ => new) b;
      position ← shift_out 63 (Z.lxor temp new) 0;
      position ← int_value (position + Z.of_nat i * SIZE_OF_BASE_TYPE);
      Ret (OPAL_SUCCESS, position, Some b)
    end
  end.

(** The loop of the three bitwise operations. *)
Definition bitwise_inplace (f : Z -> Z -> Z) (dest right : option opal_bitmap_t) : outcome (Z * option opal_bitmap_t) :=
  match dest, right with
  | Some d, Some r =>
    if negb (bm_array_size d =? bm_array_size r) then Ret (OPAL_ERR_BAD_PARAM, dest)
    else
      l ← first_words (bm_array_size d) d;
      l' ← first_words (bm_array_size d) r;
      Ret (OPAL_SUCCESS, Some (store_words (zip_with f l l') d))
  | _, _ => Ret (OPAL_ERR_BAD_PARAM, dest)
  end.
Definition opal_bitmap_bitwise_and_inplace := bitwise_inplace Z.land.
Definition opal_bitmap_bitwise_or_inplace := bitwise_inplace Z.lor.
Definition opal_bitmap_bitwise_xor_inplace := bitwise_inplace Z.lxor.

(** The error code of a NULL argument is converted to [true]. *)
Definition opal_bitmap_are_different (left right : option opal_bitmap_t) : outcome bool :=
  match left, right with
  | Some a, Some b =>
    n ← bit_count a; n' ← bit_count b;
    if negb (n =? n') then Ret true
    else
      l ← first_words (bm_array_size a) a;
      l' ← first_words (bm_array_size a) b;
      Ret (negb (bool_decide (l = l')))
  | _, _ => Ret true
  end.

Fixpoint bits_string (bm : option opal_bitmap_t) (i : Z) (n : nat) : outcome cstr :=
  match n with
  | O => Ret []
  | S n' => set ← opal_bitmap_is_set_bit bm i; s ← bits_string bm (i + 1) n'; Ret ((if set : bool then "X"%char else "_"%char) :: s)
  end.

Definition opal_bitmap_get_string (bm : option opal_bitmap_t) : outcome (option cstr) :=
  match bm with
  | None => Ret None
  | Some b =>
    n ← bit_count b;
    n1 ← int_value (n + 1);
    if negb (malloc_ok (u64 n1)) then Ret None else Some <$> bits_string bm 0 (Z.to_nat n)
  end.

(** Wegner's loop: every turn clears the lowest bit. *)
Fixpoint count_bits (fuel : nat) (val cnt : Z) : outcome Z :=
  if val =? 0 then Ret cnt
  else match fuel with O => Diverge | S fuel' => count_bits fuel' (Z.land val (u64 (val - 1))) (cnt + 1) end.

Fixpoint count_words (l : list Z) (cnt : Z) : outcome Z :=
  match l with [] => Ret cnt | val :: l' => cnt ← count_bits 64 val cnt; count_words l' cnt end.

Definition opal_bitmap_num_set_bits (bm : option opal_bitmap_t) (len : Z) : outcome Z :=
  bad ← (if debug then match bm with
                       | None => Ret true
                       | Some b => if len <? 0 then Ret true else n ← bit_count b; Ret (n <=? len)
                       end
         else Ret false);
  if bad : bool then Ret 0
  else if len <=? 0 then Ret 0
  else b ← deref bm; l ← first_words len b; count_words l 0.

Definition opal_bitmap_num_unset_bits (bm : option opal_bitmap_t) (len : Z) : outcome Z :=
  cnt ← opal_bitmap_num_set_bits bm len; Ret (len - cnt).

Definition opal_bitmap_is_clear (bm : option opal_bitmap_t) : outcome bool :=
  b ← deref bm; l ← first_words (bm_array_size b) b; Ret (forallb (fun word => word =? 0) l).

(** The new words of [dest] are not tested for NULL. *)
Definition opal_bitmap_copy (dest src : opal_bitmap_t) : outcome opal_bitmap_t :=
  let dest := if bm_array_size dest <? bm_array_size src
              then MkBitmap (if malloc_ok (u64 (bm_array_size src * 8)) then Some (replicate (Z.to_nat (bm_array_size src)) 0) else None)
                     (bm_array_size dest) (bm_max_size src)
              else dest in
  _ ← deref (bm_bitmap dest);
  _ ← deref (bm_bitmap src);
  l ← first_words (bm_array_size src) src;
  Ret (MkBitmap (bm_bitmap (store_words l dest)) (bm_array_size src) (bm_max_size dest)).
End Model.
