(* ===== verification/BitmapClaims.v ===== *)
(** * Bit maps are sets of numbers

    Every sequence of operations on a bit map refines a finite set of numbers
    together with the number of words ([bitmap_refines_set]).  The tricks on
    words behind it: [x | (x + 1)] sets the lowest clear bit, [x & (x - 1)]
    clears the lowest set one. *)

From S2P Require Import Prelude CString Bitmap.
From stdpp Require Import base numbers list gmap fin_maps fin_sets.
From Stdlib Require Import ZArith Lia Ascii.

Open Scope Z_scope.

(** ** Bits of a word *)
Definition word_ok (w : Z) : Prop := 0 <= w < 2 ^ 64.

Lemma high_bit w b : word_ok w -> 64 <= b -> Z.testbit w b = false.
Proof. intros Hw Hb. rewrite <- (Z.mod_small w (2 ^ 64)) by done. by apply Z.mod_pow2_bits_high. Qed.

Lemma word_bits w : 0 <= w -> (forall b, 64 <= b -> Z.testbit w b = false) -> word_ok w.
Proof.
  intros Hw H. split; [done|]. destruct (Z.eq_dec w 0) as [->|]; [done|].
  apply Z.log2_lt_pow2; [lia|]. destruct (Z.ltb_spec (Z.log2 w) 64); [done|].
  pose proof (Z.bit_log2 w ltac:(lia)) as Hb. by rewrite H in Hb.
Qed.

Lemma bit_of_shift b k : 0 <= b -> 0 <= k -> Z.testbit (Z.shiftl 1 k) b = (b =? k).
Proof. intros Hb Hk. rewrite Z.shiftl_1_l, Z.pow2_bits_eqb by done. apply Z.eqb_sym. Qed.

(** Two words with the same bits. *)
Lemma words_eq w w' : word_ok w -> word_ok w' -> (forall b, 0 <= b < 64 -> Z.testbit w b = Z.testbit w' b) -> w = w'.
Proof.
  intros Hw Hw' H. apply Z.bits_inj'. intros b Hb. destruct (Z.ltb_spec b 64); [apply H; lia|]. by rewrite !high_bit by done.
Qed.

Ltac split_bit b := destruct (Z.eq_dec b 0) as [->|]; [|replace b with (Z.succ (b - 1)) by lia].

Lemma clear_lowest k : 0 <= k -> forall z, Z.testbit z k = true -> (forall j, 0 <= j < k -> Z.testbit z j = false) ->
  forall b, 0 <= b -> Z.testbit (Z.land z (z - 1)) b = Z.testbit z b && negb (b =? k).
Proof.
  revert k. apply (natlike_ind (fun k => forall z, _ -> _ -> forall b, _ -> _ = _ && negb (b =? k))).
  - intros z Hz _ b Hb. destruct (Z.odd_spec z) as [H _]. rewrite Z.bit0_odd in Hz. destruct (H Hz) as [m ->].
    rewrite Z.land_spec. replace (2 * m + 1 - 1) with (2 * m) by lia. split_bit b.
    + by rewrite Z.testbit_even_0, andb_false_r, andb_false_r.
    + rewrite Z.testbit_odd_succ, Z.testbit_even_succ, andb_diag by lia. rewrite (proj2 (Z.eqb_neq _ _)) by lia. by rewrite andb_true_r.
  - intros k Hk IH z Hz Hlow b Hb. pose proof (Hlow 0 ltac:(lia)) as H0. rewrite Z.bit0_odd in H0.
    assert (Hev : Z.even z = true) by (by rewrite <- Z.negb_odd, H0). apply Z.even_spec in Hev as [y ->].
    rewrite Z.land_spec. replace (2 * y - 1) with (2 * (y - 1) + 1) by lia. split_bit b.
    + by rewrite Z.testbit_even_0.
    + rewrite Z.testbit_odd_succ, Z.testbit_even_succ, <- Z.land_spec by lia. rewrite Z.testbit_even_succ in Hz by lia. rewrite IH; [|done| |lia].
      * f_equal. f_equal. destruct (Z.eqb_spec (b - 1) k), (Z.eqb_spec (Z.succ (b - 1)) (Z.succ k)); (done || lia).
      * intros j Hj. rewrite <- (Hlow (Z.succ j)) by lia. by rewrite Z.testbit_even_succ by lia.
Qed.

(** [z + 1] is the negation of the bits of [~z - 1]. *)
Lemma set_lowest k z : 0 <= k -> Z.testbit z k = false -> (forall j, 0 <= j < k -> Z.testbit z j = true) ->
  forall b, 0 <= b -> Z.testbit (Z.lor z (z + 1)) b = Z.testbit z b || (b =? k).
Proof.
  intros Hk Hz Hlow b Hb. replace (Z.lor z (z + 1)) with (Z.lnot (Z.land (Z.lnot z) (Z.lnot z - 1))).
  - rewrite Z.lnot_spec by done. rewrite (clear_lowest k); [|done|by rewrite Z.lnot_spec, Hz by done| |done].
    + rewrite Z.lnot_spec by done. by destruct (Z.testbit z b), (b =? k).
    + intros j Hj. rewrite Z.lnot_spec, Hlow by lia. done.
  - rewrite Z.lnot_land, Z.lnot_involutive. f_equal. unfold Z.lnot. lia.
Qed.

(** The lowest bit with a property, if one below [n] has it. *)
Lemma lowest_bit (f : Z -> bool) n : 0 <= n ->
  (exists k, 0 <= k < n /\ f k = true /\ forall j, 0 <= j < k -> f j = false) \/ (forall j, 0 <= j < n -> f j = false).
Proof.
  revert n. apply (natlike_ind (fun n => (exists k, 0 <= k < n /\ _ /\ _) \/ (forall j, 0 <= j < n -> _))); [right; intros; lia|].
  intros n Hn [(k & Hk & Hf)|H]; [left; exists k; split; [lia|done]|]. destruct (f n) eqn:E.
  - left. exists n. split_and!; [lia|lia|done|done].
  - right. intros j Hj. destruct (Z.eq_dec j n) as [->|]; [done|apply H; lia].
Qed.

(** ** The words as a set *)
Definition word_at (l : list Z) (i : Z) : Z := default 0 (l !! Z.to_nat i).
Definition bit_set (l : list Z) (b : Z) : bool := Z.testbit (word_at l (b / 64)) (b mod 64).

(** [n] words hold the set [s]. *)
Record bm_rep (bm : opal_bitmap_t) (l : list Z) (s : gset Z) : Prop := {
  br_words : bm_bitmap bm = Some l;
  br_size : bm_array_size bm = Z.of_nat (length l);
  br_ok : Forall word_ok l;
  br_some : 0 < Z.of_nat (length l) < 2 ^ 25;
  br_set : forall b, b ∈ s <-> 0 <= b /\ bit_set l b = true
}.

Lemma word_at_ok l i : Forall word_ok l -> word_ok (word_at l i).
Proof.
  intros H. unfold word_at. destruct (l !! Z.to_nat i) eqn:E; [|done]. cbn. by eapply Forall_lookup_1.
Qed.

Lemma word_at_lookup l i : 0 <= i < Z.of_nat (length l) -> l !! Z.to_nat i = Some (word_at l i).
Proof. intros Hi. unfold word_at. destruct (lookup_lt_is_Some_2 l (Z.to_nat i)) as [w ->]; [lia|done]. Qed.

Lemma word_at_insert l i w j : 0 <= i < Z.of_nat (length l) -> 0 <= j -> word_at (<[Z.to_nat i := w]> l) j = if j =? i then w else word_at l j.
Proof.
  intros Hi Hj. unfold word_at. destruct (Z.eqb_spec j i) as [->|].
  - by rewrite list_lookup_insert_eq by lia.
  - by rewrite list_lookup_insert_ne by lia.
Qed.

(** The number of a bit from the word it is in and its place there. *)
Lemma bit_place i k : 0 <= k < 64 -> (i * 64 + k) / 64 = i /\ (i * 64 + k) mod 64 = k.
Proof. intros Hk. rewrite Z.add_comm, Z.div_add, Z.mod_add, Z.div_small, Z.mod_small by lia. lia. Qed.

Lemma bit_set_place l i k : 0 <= k < 64 -> bit_set l (i * 64 + k) = Z.testbit (word_at l i) k.
Proof. intros Hk. unfold bit_set. by destruct (bit_place i k Hk) as [-> ->]. Qed.

Lemma bit_split b : 0 <= b -> exists i k, b = i * 64 + k /\ 0 <= i /\ 0 <= k < 64.
Proof.
  intros Hb. exists (b / 64), (b mod 64). pose proof (Z.div_mod b 64 ltac:(lia)). pose proof (Z.mod_pos_bound b 64 ltac:(lia)).
  pose proof (Z.div_pos b 64 Hb ltac:(lia)). lia.
Qed.

Lemma bit_beyond l b : Z.of_nat (length l) * 64 <= b -> bit_set l b = false.
Proof.
  intros Hb. assert (Z.of_nat (length l) <= b / 64) by (apply Z.div_le_lower_bound; lia).
  unfold bit_set, word_at. rewrite lookup_ge_None_2 by lia. apply Z.bits_0.
Qed.

Lemma rep_below bm l s b : bm_rep bm l s -> b ∈ s -> 0 <= b < Z.of_nat (length l) * 64.
Proof.
  intros H [Hb Hs]%(br_set _ _ _ H). split; [done|]. destruct (Z.ltb_spec b (Z.of_nat (length l) * 64)) as [|Hge]; [done|].
  by rewrite bit_beyond in Hs.
Qed.

Lemma rep_bit bm l s b : bm_rep bm l s -> 0 <= b -> bit_set l b = bool_decide (b ∈ s).
Proof.
  intros H Hb. case_bool_decide as Hin; rewrite (br_set _ _ _ H) in Hin; destruct (bit_set l b); intuition congruence.
Qed.

(** ** The parts of the operations *)
Lemma bit_count_spec bm l s : bm_rep bm l s -> bit_count bm = Ret (Z.of_nat (length l) * 64).
Proof.
  intros H. unfold bit_count, int_value, SIZE_OF_BASE_TYPE. rewrite (br_size _ _ _ H). pose proof (br_some _ _ _ H).
  unfold INT_MIN, INT_MAX. rewrite (proj2 (Z.leb_le _ _)), (proj2 (Z.leb_le _ _)) by lia. done.
Qed.

Lemma first_words_spec bm l s : bm_rep bm l s -> first_words (bm_array_size bm) bm = Ret l.
Proof.
  intros H. unfold first_words. rewrite (br_words _ _ _ H), (br_size _ _ _ H). pose proof (br_some _ _ _ H).
  rewrite (proj2 (Z.leb_gt _ _)) by lia. cbn [deref]. rewrite bind_Ret, Z.ltb_irrefl, Nat2Z.id. by rewrite firstn_all.
Qed.

Lemma update_word_spec bm l s i f : bm_rep bm l s -> 0 <= i < Z.of_nat (length l) ->
  update_word i f bm = Ret (MkBitmap (Some (<[Z.to_nat i := f (word_at l i)]> l)) (bm_array_size bm) (bm_max_size bm)).
Proof.
  intros H Hi. unfold update_word. rewrite (br_words _ _ _ H). cbn [deref]. rewrite bind_Ret, word_at_lookup by done. done.
Qed.

(** A word is replaced by one with other bits. *)
Lemma replace_rep bm l s i w s' : bm_rep bm l s -> 0 <= i < Z.of_nat (length l) -> word_ok w ->
  (forall b, b ∈ s' <-> if b / 64 =? i then 0 <= b /\ Z.testbit w (b mod 64) = true else b ∈ s) ->
  bm_rep (MkBitmap (Some (<[Z.to_nat i := w]> l)) (bm_array_size bm) (bm_max_size bm)) (<[Z.to_nat i := w]> l) s'.
Proof.
  intros H Hi Hw Hs. split; cbn [bm_bitmap bm_array_size]; rewrite ?length_insert; [done|apply H|by apply Forall_insert; [apply H|]|apply H|].
  intros b. rewrite Hs. unfold bit_set. destruct (Z.ltb_spec b 0) as [Hneg|Hpos].
  - assert (b / 64 < 0) by (apply Z.div_lt_upper_bound; lia). rewrite (proj2 (Z.eqb_neq _ _)) by lia. rewrite (br_set _ _ _ H). split; intros; lia.
  - rewrite word_at_insert by (done || by apply Z.div_pos). destruct (b / 64 =? i); [done|]. by rewrite (br_set _ _ _ H).
Qed.

(** The map as another operation leaves it: new words with these bits. *)
Lemma new_rep bm l s l' s' max : bm_rep bm l s -> length l' = length l -> Forall word_ok l' ->
  (forall i k, 0 <= i < Z.of_nat (length l) -> 0 <= k < 64 -> i * 64 + k ∈ s' <-> Z.testbit (word_at l' i) k = true) ->
  (forall b, b ∈ s' -> 0 <= b < Z.of_nat (length l) * 64) -> bm_rep (MkBitmap (Some l') (bm_array_size bm) max) l' s'.
Proof.
  intros H Hlen Hok Hs Hin. split; cbn [bm_bitmap bm_array_size]; rewrite ?Hlen; [done|apply H|done|apply H|].
  intros b. split.
  - intros Hb. destruct (Hin b Hb) as [Hpos Hlt]. split; [done|]. destruct (bit_split b Hpos) as (i & k & -> & Hi & Hk).
    rewrite bit_set_place by done. apply Hs; [lia|done|done].
  - intros [Hpos Hb]. destruct (Z.ltb_spec b (Z.of_nat (length l) * 64)) as [Hlt|Hge]; [|rewrite bit_beyond in Hb by (rewrite Hlen; lia); done].
    destruct (bit_split b Hpos) as (i & k & -> & Hi & Hk). rewrite bit_set_place in Hb by done. apply Hs; [lia|done|done].
Qed.

Lemma rep_place bm l s i k : bm_rep bm l s -> 0 <= i -> 0 <= k < 64 -> i * 64 + k ∈ s <-> Z.testbit (word_at l i) k = true.
Proof. intros H Hi Hk. rewrite (br_set _ _ _ H), bit_set_place by done. split; [by intros []|intros; split; [lia|done]]. Qed.

(** ** Growing *)
Definition grown (max n index : Z) : Z := if n <=? index then Z.min ((index / n + 1) * n) max else n.

Lemma grown_range max n index : 0 < n -> 0 <= index -> index * 64 <= max -> n < 2 ^ 25 -> index < 2 ^ 24 -> n <= grown max n index < 2 ^ 25 /\ index < grown max n index.
Proof.
  intros Hn Hi Hmax Hn' Hi'. unfold grown. destruct (Z.leb_spec n index); [|lia].
  pose proof (Z.div_mod index n ltac:(lia)). pose proof (Z.mod_pos_bound index n Hn). nia.
Qed.

Section Ops.
Variable malloc_ok : Z -> bool.
Variable debug : bool.
Hypothesis Hmalloc : forall n, malloc_ok n = true.

Lemma bm_extend_spec bm l s index : bm_rep bm l s -> 0 <= index < 2 ^ 24 -> index * 64 <= bm_max_size bm <= INT_MAX ->
  exists bm' l', extend malloc_ok index bm = Ret (true, bm') /\ bm_rep bm' l' s /\ bm_max_size bm' = bm_max_size bm /\
    Z.of_nat (length l') = grown (bm_max_size bm) (Z.of_nat (length l)) index.
Proof.
  intros H Hi Hmax. pose proof (br_some _ _ _ H) as Hn. unfold extend. rewrite (br_size _ _ _ H).
  destruct (grown_range (bm_max_size bm) (Z.of_nat (length l)) index) as [Hg1 Hg2]; [lia..|]. unfold grown in *.
  destruct (Z.leb_spec (Z.of_nat (length l)) index) as [Hle|]; [|by exists bm, l].
  rewrite (proj2 (Z.eqb_neq _ 0)) by lia. rewrite (u64_small index), (u64_small (Z.of_nat (length l))) by lia.
  pose proof (Z.div_mod index (Z.of_nat (length l)) ltac:(lia)). pose proof (Z.mod_pos_bound index (Z.of_nat (length l)) ltac:(lia)).
  set (new := (index / Z.of_nat (length l) + 1) * Z.of_nat (length l)) in *.
  assert (Hnew : 0 <= new < 2 ^ 25) by (unfold new; nia). rewrite (u64_small new), (i32_small new) by (unfold INT_MIN, INT_MAX; lia).
  replace (if bm_max_size bm <? new then bm_max_size bm else new) with (Z.min new (bm_max_size bm)) by (destruct (Z.ltb_spec (bm_max_size bm) new); lia).
  rewrite (br_words _ _ _ H), Hmalloc. cbn [deref negb]. rewrite (proj2 (Z.ltb_ge _ _)), bind_Ret by lia.
  eexists _, (l ++ replicate (Z.to_nat (Z.min new (bm_max_size bm) - Z.of_nat (length l))) 0). split; [done|]. split; [|split; [done|rewrite length_app, length_replicate; lia]].
  split; cbn [bm_bitmap bm_array_size]; rewrite ?length_app, ?length_replicate; [done|lia| |lia|].
  - apply Forall_app. split; [apply H|]. by apply Forall_replicate.
  - intros b. rewrite (br_set _ _ _ H). unfold bit_set, word_at. destruct (l !! Z.to_nat (b / 64)) eqn:E.
    + by rewrite (lookup_app_l_Some _ _ _ _ E).
    + apply lookup_ge_None in E. rewrite lookup_app_r by done.
      destruct (replicate _ 0 !! _) eqn:E'; [|done]. by apply lookup_replicate in E' as [-> _].
Qed.

Lemma div64 b : 0 <= b -> 0 <= b / 64 <= b /\ b / 64 * 64 <= b /\ b < (b / 64 + 1) * 64.
Proof. intros Hb. pose proof (Z.div_mod b 64 ltac:(lia)). pose proof (Z.mod_pos_bound b 64 ltac:(lia)). lia. Qed.

Lemma set_bit_spec bm l s b : bm_rep bm l s -> 0 <= b < 2 ^ 30 -> b <= bm_max_size bm <= INT_MAX ->
  exists bm' l', opal_bitmap_set_bit malloc_ok (Some bm) b = Ret (OPAL_SUCCESS, Some bm') /\ bm_rep bm' l' ({[b]} ∪ s) /\ bm_max_size bm' = bm_max_size bm /\
    Z.of_nat (length l') = grown (bm_max_size bm) (Z.of_nat (length l)) (b / 64).
Proof.
  intros H Hb Hmax. destruct (div64 b) as (Hd1 & Hd2 & Hd3); [lia|]. unfold opal_bitmap_set_bit, SIZE_OF_BASE_TYPE.
  rewrite (proj2 (Z.ltb_ge _ _)), (proj2 (Z.ltb_ge _ _)) by lia. cbn [orb].
  destruct (bm_extend_spec bm l s (b / 64) H) as (bm' & l' & E & H' & Hm & Hlen); [lia|lia|]. rewrite E, bind_Ret. cbn [negb].
  destruct (grown_range (bm_max_size bm) (Z.of_nat (length l)) (b / 64)) as [_ Hg]; [pose proof (br_some _ _ _ H); lia..|].
  rewrite (update_word_spec bm' l' s) by (done || lia). rewrite bind_Ret. eexists _, _. split; [done|].
  pose proof (Z.mod_pos_bound b 64 ltac:(lia)) as Hk. split; [|by rewrite length_insert].
  apply replace_rep with s; [done|lia| |].
  - apply word_bits; [apply Z.lor_nonneg; split; [apply word_at_ok, H'|apply Z.shiftl_nonneg; lia]|].
    intros c Hc. rewrite Z.lor_spec, bit_of_shift, (high_bit _ _ (word_at_ok l' _ (br_ok _ _ _ H'))) by lia. apply Z.eqb_neq. lia.
  - intros c. rewrite elem_of_union, elem_of_singleton. destruct (Z.eqb_spec (c / 64) (b / 64)) as [Ec|Ec].
    + rewrite (br_set _ _ _ H'). unfold bit_set. pose proof (Z.mod_pos_bound c 64 ltac:(lia)) as Hc. rewrite Ec, Z.lor_spec, bit_of_shift, orb_true_iff, Z.eqb_eq by lia.
      pose proof (Z.div_mod b 64 ltac:(lia)). pose proof (Z.div_mod c 64 ltac:(lia)).
      split; [intros [->|[? ?]]; [split; [lia|by right]|tauto]|intros [Hc0 [?|Hm']]; [tauto|left; congruence || lia]].
    + split; [intros [->|]; done|by right].
Qed.

Lemma out_of_map_spec bm l s b : bm_rep bm l s -> out_of_map b bm = Ret (negb ((0 <=? b) && (b <? Z.of_nat (length l) * 64))).
Proof.
  intros H. unfold out_of_map. destruct (Z.ltb_spec b 0); [by rewrite (proj2 (Z.leb_gt _ _)) by lia|].
  rewrite (bit_count_spec _ _ _ H), bind_Ret, (proj2 (Z.leb_le 0 b)) by lia. cbn [andb]. by rewrite Z.leb_antisym.
Qed.

(** A bit inside the map is in one of its words. *)
Lemma inside_word n b : (0 <=? b) && (b <? n * 64) = true -> 0 <= b < n * 64 /\ 0 <= b / 64 < n /\ 0 <= b mod 64 < 64.
Proof.
  intros [?%Z.leb_le ?%Z.ltb_lt]%andb_true_iff. destruct (div64 b) as (? & ? & ?); [done|]. pose proof (Z.mod_pos_bound b 64). lia.
Qed.

Lemma clear_bit_spec bm l s b : bm_rep bm l s ->
  if (0 <=? b) && (b <? Z.of_nat (length l) * 64)
  then exists bm' l', opal_bitmap_clear_bit (Some bm) b = Ret (OPAL_SUCCESS, Some bm') /\ bm_rep bm' l' (s ∖ {[b]}) /\
         bm_max_size bm' = bm_max_size bm /\ length l' = length l
  else opal_bitmap_clear_bit (Some bm) b = Ret (OPAL_ERR_BAD_PARAM, Some bm).
Proof.
  intros H. unfold opal_bitmap_clear_bit, SIZE_OF_BASE_TYPE. rewrite (out_of_map_spec _ _ _ b H), bind_Ret.
  destruct (_ && _) eqn:E; cbn [negb]; [|done]. apply inside_word in E as (Hb & Hi & Hk).
  rewrite (update_word_spec bm l s) by done. rewrite bind_Ret. eexists _, _. split; [done|]. split; [|by rewrite length_insert].
  apply replace_rep with s; [done|done| |].
  - apply word_bits; [apply Z.land_nonneg; left; apply word_at_ok, H|].
    intros c Hc. by rewrite Z.land_spec, (high_bit _ _ (word_at_ok l _ (br_ok _ _ _ H))) by lia.
  - intros c. rewrite elem_of_difference, elem_of_singleton. destruct (Z.eqb_spec (c / 64) (b / 64)) as [Ec|Ec].
    + rewrite (br_set _ _ _ H). unfold bit_set. pose proof (Z.mod_pos_bound c 64 ltac:(lia)) as Hc.
      rewrite Ec, Z.land_spec, Z.lnot_spec, bit_of_shift, andb_true_iff, negb_true_iff, Z.eqb_neq by lia.
      pose proof (Z.div_mod b 64 ltac:(lia)). pose proof (Z.div_mod c 64 ltac:(lia)).
      split; [intros [[? ?] Hne]; split_and!; [done|done|intros ?; apply Hne; lia]|intros (? & ? & Hne); split; [done|intros ->; done]].
    + split; [by intros []|intros; split; [done|by intros ->]].
Qed.

Lemma is_set_bit_spec bm l s b : bm_rep bm l s -> opal_bitmap_is_set_bit (Some bm) b = Ret (bool_decide (b ∈ s)).
Proof.
  intros H. unfold opal_bitmap_is_set_bit, SIZE_OF_BASE_TYPE. rewrite (out_of_map_spec _ _ _ b H), bind_Ret.
  destruct (_ && _) eqn:E; cbn [negb].
  - apply inside_word in E as (Hb & Hi & Hk). rewrite (br_words _ _ _ H). cbn [deref]. rewrite bind_Ret, word_at_lookup by done. cbn [deref].
    rewrite bind_Ret, <- (rep_bit _ _ _ _ H) by lia. f_equal. unfold bit_set. destruct (Z.testbit _ _) eqn:Et.
    + apply negb_true_iff, Z.eqb_neq. intros E0. apply (f_equal (fun z => Z.testbit z (b mod 64))) in E0.
      rewrite Z.land_spec, Et, bit_of_shift, Z.eqb_refl, Z.bits_0 in E0 by lia. done.
    + apply negb_false_iff, Z.eqb_eq. apply Z.bits_inj'. intros c Hc. rewrite Z.land_spec, bit_of_shift, Z.bits_0 by lia.
      destruct (Z.eqb_spec c (b mod 64)) as [->|]; [by rewrite Et|by rewrite andb_false_r].
  - rewrite bool_decide_eq_false_2; [done|]. intros Hin%(rep_below _ _ _ _ H).
    rewrite (proj2 (Z.leb_le _ _)), (proj2 (Z.ltb_lt _ _)) in E by lia. done.
Qed.

Definition full_set (n : Z) : gset Z := list_to_set (seqZ 0 (n * 64)).

Lemma elem_of_full_set n b : b ∈ full_set n <-> 0 <= b < n * 64.
Proof. unfold full_set. rewrite elem_of_list_to_set, elem_of_seqZ. lia. Qed.

Lemma memset_spec bm l s v : bm_rep bm l s -> v = 0 \/ v = all_ones ->
  exists bm' l', memset_words v bm = Ret bm' /\ bm_rep bm' l' (if v =? 0 then ∅ else full_set (Z.of_nat (length l))) /\
    bm_max_size bm' = bm_max_size bm /\ length l' = length l.
Proof.
  intros H Hv. unfold memset_words. rewrite (first_words_spec _ _ _ H). destruct bm as [w n max]. pose proof (br_words _ _ _ H) as Hw. cbn in Hw. subst w.
  cbn [bm_bitmap deref]. rewrite !bind_Ret. unfold store_words. cbn [bm_bitmap bm_array_size bm_max_size fmap option_fmap option_map].
  rewrite (length_fmap (fun _ => v) l), drop_all, app_nil_r. eexists _, ((fun _ => v) <$> l). split; [done|]. split; [|split; [done|by rewrite length_fmap]].
  change n with (bm_array_size (MkBitmap (Some l) n max)). apply new_rep with l s; [done|by rewrite length_fmap| | |].
  - apply Forall_fmap, Forall_forall. intros w _. by destruct Hv as [->| ->].
  - intros i k Hi Hk. unfold word_at. rewrite list_lookup_fmap. destruct (lookup_lt_is_Some_2 l (Z.to_nat i)) as [w ->]; [lia|]. cbn.
    destruct Hv as [->| ->]; [rewrite Z.bits_0; split; [by intros ?%not_elem_of_empty|done]|]. change (all_ones =? 0) with false. cbn match.
    rewrite elem_of_full_set. replace all_ones with (Z.ones 64) by done. rewrite Z.ones_spec_low by lia. split; [done|lia].
  - intros b. destruct (v =? 0); [by intros ?%not_elem_of_empty|]. by rewrite elem_of_full_set.
Qed.

(** ** The lowest clear bit *)
Lemma shift_out_spec k : 0 <= k -> forall fuel pos, (Z.to_nat k <= fuel)%nat -> shift_out fuel (2 ^ k) pos = Ret (pos + k).
Proof.
  revert k. apply (natlike_ind (fun k => forall fuel pos, _ -> shift_out fuel (2 ^ k) pos = _)).
  - intros [|fuel] pos _; cbn; f_equal; lia.
  - intros k Hk IH [|fuel] pos Hf; [lia|]. cbn [shift_out]. replace (Z.land (2 ^ Z.succ k) 1 =? 0) with true.
    + cbn [negb]. rewrite <- Z.div2_spec, Z.pow_succ_r, Z.div2_div, Z.mul_comm, Z.div_mul by lia. rewrite IH by lia. f_equal. lia.
    + symmetry. apply Z.eqb_eq. rewrite Z.pow_succ_r by done. change 1 with (Z.ones 1). rewrite Z.land_ones by lia.
      change (2 ^ 1) with 2. by rewrite Z.mul_comm, Z.mod_mul.
Qed.

(** A word that is not full. *)
Lemma open_word w : word_ok w -> w <> all_ones ->
  exists k, 0 <= k < 64 /\ Z.testbit w k = false /\ (forall j, 0 <= j < k -> Z.testbit w j = true) /\
    u64 (w + 1) = w + 1 /\ Z.lxor w (Z.lor w (w + 1)) = 2 ^ k /\ word_ok (Z.lor w (w + 1)).
Proof.
  intros Hw Hne. destruct (lowest_bit (fun b => negb (Z.testbit w b)) 64) as [(k & Hk & Hf%negb_true_iff & Hlow)|Hall]; [done| |].
  - assert (Hlow' : forall j, 0 <= j < k -> Z.testbit w j = true) by (intros j Hj; by apply negb_false_iff, Hlow).
    pose proof (fun b => set_lowest k w (proj1 Hk) Hf Hlow' b) as Hset. exists k. split_and!; [lia|lia|done|done| | |].
    + apply u64_small. unfold word_ok, all_ones in *. lia.
    + apply Z.bits_inj'. intros b Hb. rewrite Z.lxor_spec, Hset, Z.pow2_bits_eqb by lia. rewrite (Z.eqb_sym k b).
      destruct (Z.eqb_spec b k) as [->|]; [by rewrite Hf|by destruct (Z.testbit w b)].
    + apply word_bits; [apply Z.lor_nonneg; unfold word_ok in Hw; lia|]. intros b Hb. rewrite Hset, high_bit by (done || lia). apply Z.eqb_neq. lia.
  - exfalso. apply Hne. apply words_eq; [done|done|]. intros b Hb. replace all_ones with (Z.ones 64) by done.
    rewrite Z.ones_spec_low by lia. by apply negb_false_iff, Hall.
Qed.

(** The lowest number that is not in the set; the size of the map when it is
    full. *)
Definition lowest_free (s : gset Z) (n : Z) : Z :=
  match list_find (fun b => b ∉ s) (seqZ 0 (n * 64)) with Some (_, b) => b | None => n * 64 end.

Lemma lowest_free_is s n k : 0 <= k < n * 64 -> k ∉ s -> (forall j, 0 <= j < k -> j ∈ s) -> lowest_free s n = k.
Proof.
  intros Hk Hs Hlow. unfold lowest_free. rewrite (proj2 (list_find_Some (fun b => b ∉ s) (seqZ 0 (n * 64)) (Z.to_nat k) k)); [done|].
  split_and!; [apply lookup_seqZ; lia|done|]. intros j y [-> Hj]%lookup_seqZ Hlt Hn. apply Hn, Hlow. lia.
Qed.

Lemma lowest_free_full s n : (forall j, 0 <= j < n * 64 -> j ∈ s) -> lowest_free s n = n * 64.
Proof.
  intros H. unfold lowest_free. rewrite (proj2 (list_find_None (fun b => b ∉ s) (seqZ 0 (n * 64)))); [done|].
  apply Forall_forall. intros b Hb%elem_of_seqZ Hn. apply Hn, H. lia.
Qed.

Lemma full_word l s bm i : bm_rep bm l s -> l !! i = Some all_ones -> forall k, 0 <= k < 64 -> Z.of_nat i * 64 + k ∈ s.
Proof.
  intros H Hi k Hk. rewrite (rep_place _ _ _ _ _ H) by lia. unfold word_at. rewrite Nat2Z.id, Hi. cbn [default from_option id].
  replace all_ones with (Z.ones 64) by done. by rewrite Z.ones_spec_low by lia.
Qed.

(** The words before the first that is not full. *)
Lemma find_open l i : find_index (fun word => negb (word =? all_ones)) l = Some i ->
  exists w, l !! i = Some w /\ w <> all_ones /\ forall j, (j < i)%nat -> l !! j = Some all_ones.
Proof.
  intros (w & Hw & Hp & Hlow)%find_index_Some. exists w. split_and!; [done|by apply Z.eqb_neq, negb_true_iff|].
  intros j Hj. destruct (lookup_lt_is_Some_2 l j) as [v Hv]; [apply lookup_lt_Some in Hw; lia|]. rewrite Hv. f_equal.
  apply Z.eqb_eq, negb_false_iff, (Forall_lookup_1 _ _ j v Hlow). by rewrite lookup_take_lt.
Qed.

Lemma first_unset_spec bm l s : bm_rep bm l s -> let n := Z.of_nat (length l) in let k := lowest_free s n in
  if k <? n * 64
  then exists bm' l', opal_bitmap_find_and_set_first_unset_bit malloc_ok (Some bm) = Ret (OPAL_SUCCESS, k, Some bm') /\ bm_rep bm' l' ({[k]} ∪ s) /\
         bm_max_size bm' = bm_max_size bm /\ length l' = length l
  else k = n * 64 /\ opal_bitmap_find_and_set_first_unset_bit malloc_ok (Some bm) = ('(rc, bm) ← opal_bitmap_set_bit malloc_ok (Some bm) k; Ret (rc, k, bm)).
Proof.
  intros H n k. unfold opal_bitmap_find_and_set_first_unset_bit. rewrite (first_words_spec _ _ _ H), bind_Ret.
  destruct (find_index _ l) as [i|] eqn:E.
  - destruct (find_open l i E) as (w & Hw & Hne & Hlow). pose proof (Forall_lookup_1 _ _ _ _ (br_ok _ _ _ H) Hw) as Hok.
    pose proof (lookup_lt_Some _ _ _ Hw) as Hi. destruct (open_word w Hok Hne) as (p & Hp & Hbit & Hbelow & Hu & Hx & Hnew).
    assert (Hwi : word_at l (Z.of_nat i) = w) by (unfold word_at; by rewrite Nat2Z.id, Hw).
    assert (Hk : k = Z.of_nat i * 64 + p).
    { apply lowest_free_is; [lia| |].
      - rewrite (rep_place _ _ _ _ _ H), Hwi by lia. congruence.
      - intros j Hj. destruct (bit_split j) as (a & c & -> & Ha & Hc); [lia|]. destruct (Z.eq_dec a (Z.of_nat i)) as [->|].
        + rewrite (rep_place _ _ _ _ _ H), Hwi by lia. apply Hbelow. lia.
        + rewrite <- (Z2Nat.id a) by done. apply (full_word _ _ _ _ H); [apply Hlow; lia|done]. }
    rewrite (proj2 (Z.ltb_lt _ _)) by lia. rewrite Hw. cbn [deref]. rewrite bind_Ret, Hu, (update_word_spec bm l s), bind_Ret, Hx by (done || lia).
    rewrite (shift_out_spec p) by lia. rewrite bind_Ret. unfold int_value, SIZE_OF_BASE_TYPE, INT_MIN, INT_MAX.
    pose proof (br_some _ _ _ H). rewrite (proj2 (Z.leb_le _ _)), (proj2 (Z.leb_le _ _)) by lia. cbn [andb]. rewrite bind_Ret.
    replace (0 + p + Z.of_nat i * 64) with k by lia. eexists _, _. split; [done|]. split; [|by rewrite length_insert].
    apply replace_rep with s; [done|lia|done|]. intros c. rewrite elem_of_union, elem_of_singleton.
    destruct (Z.eqb_spec (c / 64) (Z.of_nat i)) as [Ec|Ec].
    + pose proof (Z.mod_pos_bound c 64 ltac:(lia)) as Hc. pose proof (Z.div_mod c 64 ltac:(lia)) as Hdm. rewrite Ec in Hdm.
      rewrite (set_lowest p w) by (done || lia). rewrite orb_true_iff, Z.eqb_eq, (br_set _ _ _ H). unfold bit_set. rewrite Ec, Hwi.
      split; [intros [->|[? ?]]; [split; [lia|right; lia]|tauto]|intros [? [?|?]]; [tauto|left; lia]].
    + split; [intros [->|]; [|done]|by right]. rewrite Hk in Ec. by destruct (bit_place (Z.of_nat i) p Hp) as [? _].
  - apply find_index_None in E. assert (Hk : k = n * 64).
    { apply lowest_free_full. intros j Hj. destruct (bit_split j) as (a & c & -> & Ha & Hc); [lia|]. rewrite <- (Z2Nat.id a) by done.
      apply (full_word _ _ _ _ H); [|done]. destruct (lookup_lt_is_Some_2 l (Z.to_nat a)) as [w Hw]; [lia|]. rewrite Hw. f_equal.
      by apply Z.eqb_eq, negb_false_iff, (Forall_lookup_1 _ _ _ _ E Hw). }
    rewrite (proj2 (Z.ltb_ge _ _)) by lia. split; [done|]. rewrite (bit_count_spec _ _ _ H), bind_Ret. fold n. by rewrite Hk.
Qed.
(** ** Counting *)
Fixpoint count_if (f : Z -> bool) (l : list Z) : Z :=
  match l with [] => 0 | b :: l' => Z.b2z (f b) + count_if f l' end.

Lemma count_if_app f l l' : count_if f (l ++ l') = count_if f l + count_if f l'.
Proof. induction l as [|b l IH]; cbn; [done|]. rewrite IH. lia. Qed.

Lemma count_if_ext f g l : Forall (fun b => f b = g b) l -> count_if f l = count_if g l.
Proof. induction 1 as [|b l E _ IH]; cbn; [done|]. by rewrite E, IH. Qed.

Lemma count_if_map f h l : count_if f (h <$> l) = count_if (fun b => f (h b)) l.
Proof. induction l as [|b l IH]; cbn; [done|]. by rewrite IH. Qed.

Lemma count_if_none f l : Forall (fun b => f b = false) l -> count_if f l = 0.
Proof. induction 1 as [|b l E _ IH]; cbn; [done|]. by rewrite E, IH. Qed.

Lemma count_if_range f l : 0 <= count_if f l <= Z.of_nat (length l).
Proof. induction l as [|b l IH]; cbn [count_if length]; [lia|]. destruct (f b); cbn; lia. Qed.

(** One bit less. *)
Lemma count_if_remove f k l : NoDup l -> k ∈ l -> f k = true -> count_if f l = 1 + count_if (fun b => f b && negb (b =? k)) l.
Proof.
  induction 1 as [|b l Hb Hl IH]; [by intros ?%elem_of_nil|]. intros Hin Hf. cbn [count_if].
  destruct (Z.eqb_spec b k) as [->|Hne].
  - rewrite Hf. cbn. f_equal. apply count_if_ext, Forall_forall. intros c Hc. destruct (Z.eqb_spec c k) as [->|]; [done|by rewrite andb_true_r].
  - rewrite andb_true_r. apply elem_of_cons in Hin as [->|Hin]; [done|]. rewrite (IH Hin Hf). lia.
Qed.

Definition ones (w : Z) : Z := count_if (Z.testbit w) (seqZ 0 64).

Lemma word_zero w : word_ok w -> (forall b, 0 <= b < 64 -> Z.testbit w b = false) -> w = 0.
Proof. intros Hw H. apply words_eq; [done|done|]. intros b Hb. by rewrite H, Z.bits_0. Qed.

(** Wegner's loop takes one turn per bit. *)
Lemma count_bits_spec fuel : forall w cnt, word_ok w -> ones w <= Z.of_nat fuel -> count_bits fuel w cnt = Ret (cnt + ones w).
Proof.
  induction fuel as [|fuel IH]; intros w cnt Hw Hf; cbn [count_bits]; destruct (Z.eqb_spec w 0) as [->|Hne]; [by rewrite Z.add_0_r| |by rewrite Z.add_0_r|].
  all: destruct (lowest_bit (Z.testbit w) 64) as [(k & Hk & Hbit & Hlow)|Hall]; [done| |by apply word_zero in Hall].
  all: assert (Hrm : ones w = 1 + ones (Z.land w (w - 1))) by
    (unfold ones; rewrite (count_if_remove _ k) by (done || apply NoDup_seqZ || apply elem_of_seqZ; lia);
     f_equal; apply count_if_ext, Forall_forall; intros b Hb%elem_of_seqZ; symmetry; apply clear_lowest; (done || lia)).
  - pose proof (count_if_range (Z.testbit (Z.land w (w - 1))) (seqZ 0 64)). unfold ones in *. lia.
  - unfold word_ok in Hw. rewrite u64_small by lia. rewrite IH; [f_equal; lia| |lia].
    apply word_bits; [apply Z.land_nonneg; lia|]. intros b Hb. by rewrite Z.land_spec, high_bit by done.
Qed.

Lemma count_words_spec l : forall cnt, Forall word_ok l -> count_words l cnt = Ret (cnt + count_if (bit_set l) (seqZ 0 (Z.of_nat (length l) * 64))).
Proof.
  induction l as [|w l IH]; intros cnt Hok; cbn [count_words]; [by rewrite Z.add_0_r|]. apply Forall_cons in Hok as [Hw Hok].
  rewrite count_bits_spec, bind_Ret, IH; [|done|done|unfold ones; pose proof (count_if_range (Z.testbit w) (seqZ 0 64)); rewrite length_seqZ in *; lia].
  f_equal. cbn [length]. replace (Z.of_nat (S (length l)) * 64) with (64 + Z.of_nat (length l) * 64) by lia.
  rewrite seqZ_app, count_if_app by lia.
  assert (E1 : count_if (bit_set (w :: l)) (seqZ 0 64) = ones w).
  { apply count_if_ext, Forall_forall. intros b Hb%elem_of_seqZ. unfold bit_set. by rewrite Z.div_small, Z.mod_small by lia. }
  assert (E2 : count_if (bit_set (w :: l)) (seqZ (64 + 0) (Z.of_nat (length l) * 64)) = count_if (bit_set l) (seqZ 0 (Z.of_nat (length l) * 64))).
  { rewrite <- fmap_add_seqZ, count_if_map. apply count_if_ext, Forall_forall. intros b Hb%elem_of_seqZ. unfold bit_set.
    replace (64 + b) with (b + 1 * 64) by lia. rewrite Z.div_add, Z.mod_add by done. unfold word_at.
    replace (Z.to_nat (b / 64 + 1)) with (S (Z.to_nat (b / 64))) by (pose proof (Z.div_pos b 64); lia). done. }
  rewrite E1, (Z.add_comm 0 64), E2. lia.
Qed.

(** The elements of a set below a bound. *)
Lemma size_count (s : gset Z) n : (forall b, b ∈ s -> 0 <= b < n) -> Z.of_nat (size s) = count_if (fun b => bool_decide (b ∈ s)) (seqZ 0 n).
Proof.
  intros H. assert (Hs : s = list_to_set (filter (fun b => b ∈ s) (seqZ 0 n))).
  { apply set_eq. intros b. rewrite elem_of_list_to_set, list_elem_of_filter, elem_of_seqZ. split; [intros Hb; split; [done|]; specialize (H b Hb); lia|by intros []]. }
  assert (Hl : forall l, Z.of_nat (length (filter (fun b => b ∈ s) l)) = count_if (fun b => bool_decide (b ∈ s)) l).
  { induction l as [|b l IH]; [done|]. rewrite filter_cons. cbn [count_if]. rewrite <- IH.
    destruct (decide (b ∈ s)); [rewrite bool_decide_true by done|rewrite bool_decide_false by done]; cbn [length Z.b2z]; lia. }
  rewrite Hs at 1. rewrite size_list_to_set; [apply Hl|]. apply NoDup_filter, NoDup_seqZ.
Qed.

Lemma num_set_bits_spec bm l s : bm_rep bm l s -> opal_bitmap_num_set_bits debug (Some bm) (bm_array_size bm) = Ret (Z.of_nat (size s)).
Proof.
  intros H. pose proof (br_some _ _ _ H). unfold opal_bitmap_num_set_bits. rewrite (bit_count_spec _ _ _ H), (br_size _ _ _ H).
  rewrite (proj2 (Z.ltb_ge _ _)), (proj2 (Z.leb_gt _ 0)) by lia. rewrite !bind_Ret, (proj2 (Z.leb_gt (_ * 64) _)) by lia.
  replace (if debug then Ret false else Ret false) with (Ret false) by (by destruct debug). rewrite bind_Ret. cbn [deref].
  rewrite bind_Ret, <- (br_size _ _ _ H), (first_words_spec _ _ _ H), bind_Ret, count_words_spec by apply H. f_equal.
  rewrite (size_count s (Z.of_nat (length l) * 64)) by (intros b Hb; by apply (rep_below _ _ _ _ H)).
  apply count_if_ext, Forall_forall. intros b Hb%elem_of_seqZ. apply (rep_bit _ _ _ _ H). lia.
Qed.

Lemma is_clear_spec bm l s : bm_rep bm l s -> opal_bitmap_is_clear (Some bm) = Ret (bool_decide (s = ∅)).
Proof.
  intros H. unfold opal_bitmap_is_clear. cbn [deref]. rewrite bind_Ret, (first_words_spec _ _ _ H), bind_Ret. f_equal.
  apply eq_bool_prop_intro. rewrite !Is_true_true, forallb_forall, bool_decide_eq_true. split.
  - intros Hz. apply elem_of_equiv_empty_L. intros b [Hb Hs]%(br_set _ _ _ H). unfold bit_set, word_at in Hs.
    destruct (l !! _) as [w|] eqn:E; [|by rewrite Z.bits_0 in Hs]. cbn in Hs.
    rewrite (proj1 (Z.eqb_eq w 0)) in Hs; [by rewrite Z.bits_0 in Hs|]. apply Hz, list_elem_of_In. by apply list_elem_of_lookup_2 in E.
  - intros -> w Hw%list_elem_of_In. apply list_elem_of_lookup in Hw as [i Hi]. apply Z.eqb_eq, word_zero; [by apply (Forall_lookup_1 _ _ _ _ (br_ok _ _ _ H) Hi)|].
    intros b Hb. destruct (Z.testbit w b) eqn:E; [|done]. exfalso. apply (not_elem_of_empty (C := gset Z) (Z.of_nat i * 64 + b)).
    apply (rep_place _ _ _ _ _ H); [lia|done|]. unfold word_at. by rewrite Nat2Z.id, Hi.
Qed.
Lemma bm_init_spec size max : 0 < size <= max -> size <= 2 ^ 30 ->
  exists bm l, opal_bitmap_init malloc_ok (Some (MkBitmap None 0 max)) size = Ret (OPAL_SUCCESS, Some bm) /\ bm_rep bm l ∅ /\
    bm_max_size bm = max /\ Z.of_nat (length l) = (size + 63) / 64.
Proof.
  intros Hsize Hs. unfold opal_bitmap_init. cbn [bm_max_size bm_bitmap]. rewrite (proj2 (Z.leb_gt _ _)), (proj2 (Z.ltb_ge _ _)), Hmalloc by lia.
  pose proof (Z.div_mod (size + 63) 64 ltac:(lia)). pose proof (Z.mod_pos_bound (size + 63) 64 ltac:(lia)).
  assert (Hw : words_for size = (size + 63) / 64).
  { unfold words_for, SIZE_OF_BASE_TYPE. rewrite (u64_small size) by lia. replace (size + 64 - 1) with (size + 63) by lia.
    rewrite u64_small, i32_small by (unfold INT_MIN, INT_MAX; lia). done. }
  rewrite Hw. cbn [orb negb]. set (n := (size + 63) / 64) in *. set (bm := MkBitmap _ n max).
  assert (Hrep : bm_rep bm (replicate (Z.to_nat n) 0) ∅).
  { split; cbn [bm bm_bitmap bm_array_size]; rewrite ?length_replicate; [done|lia|by apply Forall_replicate|lia|].
    intros b. unfold bit_set, word_at. split; [set_solver|]. destruct (_ !! _) eqn:E; [apply lookup_replicate in E as [-> _]|]; rewrite Z.bits_0; by intros []. }
  destruct (memset_spec bm _ _ 0 Hrep) as (bm' & l' & E & H' & Hm & Hl); [by left|]. unfold opal_bitmap_clear_all_bits. rewrite E, !bind_Ret.
  exists bm', l'. split_and!; [done|done|done|]. rewrite Hl, length_replicate. lia.
Qed.
End Ops.

(** ** Sequences of operations *)
Inductive bm_op : Type :=
| BSet (bit : Z) | BClear (bit : Z) | BTest (bit : Z) | BFirst | BClearAll | BSetAll | BIsClear | BCount.

Inductive bm_answer : Type :=
| BCode (rc : Z) | BBool (b : bool) | BPosition (rc position : Z) | BNumber (n : Z).

(** A set and the number of words.  Bits from [2^30] on are left out: the
    number of bits would not fit an [int] any more. *)
Definition bm_spec (max : Z) (st : gset Z * Z) (op : bm_op) : option (bm_answer * (gset Z * Z)) :=
  let '(s, n) := st in
  let set_at b answer :=
    if (b <? 0) || (max <? b) then Some (answer OPAL_ERR_BAD_PARAM, st)
    else if 2 ^ 30 <=? b then None
    else Some (answer OPAL_SUCCESS, ({[b]} ∪ s, grown max n (b / 64))) in
  match op with
  | BSet b => set_at b BCode
  | BClear b => Some (if (0 <=? b) && (b <? n * 64) then (BCode OPAL_SUCCESS, (s ∖ {[b]}, n)) else (BCode OPAL_ERR_BAD_PARAM, st))
  | BTest b => Some (BBool (bool_decide (b ∈ s)), st)
  | BFirst =>
    let k := lowest_free s n in
    if k <? n * 64 then Some (BPosition OPAL_SUCCESS k, ({[k]} ∪ s, n)) else set_at k (fun rc => BPosition rc k)
  | BClearAll => Some (BCode OPAL_SUCCESS, (∅, n))
  | BSetAll => Some (BCode OPAL_SUCCESS, (full_set n, n))
  | BIsClear => Some (BBool (bool_decide (s = ∅)), st)
  | BCount => Some (BNumber (Z.of_nat (size s)), st)
  end.

Fixpoint bm_specs (max : Z) (st : gset Z * Z) (ops : list bm_op) : option (list bm_answer * (gset Z * Z)) :=
  match ops with
  | [] => Some ([], st)
  | op :: ops' => '(a, st) ← bm_spec max st op; '(l, st) ← bm_specs max st ops'; Some (a :: l, st)
  end.

Section Runs.
Variable malloc_ok : Z -> bool.
Variable debug : bool.
Hypothesis Hmalloc : forall n, malloc_ok n = true.

(** The operations are called with the map, and the count with its number of
    words. *)
Definition bm_run (op : bm_op) (bm : opal_bitmap_t) : outcome (bm_answer * option opal_bitmap_t) :=
  match op with
  | BSet b => '(rc, bm) ← opal_bitmap_set_bit malloc_ok (Some bm) b; Ret (BCode rc, bm)
  | BClear b => '(rc, bm) ← opal_bitmap_clear_bit (Some bm) b; Ret (BCode rc, bm)
  | BTest b => set ← opal_bitmap_is_set_bit (Some bm) b; Ret (BBool set, Some bm)
  | BFirst => '(rc, position, bm) ← opal_bitmap_find_and_set_first_unset_bit malloc_ok (Some bm); Ret (BPosition rc position, bm)
  | BClearAll => '(rc, bm) ← opal_bitmap_clear_all_bits (Some bm); Ret (BCode rc, bm)
  | BSetAll => '(rc, bm) ← opal_bitmap_set_all_bits (Some bm); Ret (BCode rc, bm)
  | BIsClear => clear ← opal_bitmap_is_clear (Some bm); Ret (BBool clear, Some bm)
  | BCount => cnt ← opal_bitmap_num_set_bits debug (Some bm) (bm_array_size bm); Ret (BNumber cnt, Some bm)
  end.

Fixpoint bm_runs (ops : list bm_op) (bm : opal_bitmap_t) : outcome (list bm_answer * opal_bitmap_t) :=
  match ops with
  | [] => Ret ([], bm)
  | op :: ops' => '(a, bm) ← bm_run op bm; bm ← deref bm; '(l, bm) ← bm_runs ops' bm; Ret (a :: l, bm)
  end.

Definition follows (max : Z) (bm : opal_bitmap_t) (st : gset Z * Z) : Prop :=
  bm_max_size bm = max /\ exists l, bm_rep bm l st.1 /\ st.2 = Z.of_nat (length l).

Lemma set_at_spec max bm s n b answer a st : follows max bm (s, n) -> max <= INT_MAX ->
  (if (b <? 0) || (max <? b) then Some (answer OPAL_ERR_BAD_PARAM, (s, n)) else if 2 ^ 30 <=? b then None
   else Some (answer OPAL_SUCCESS, ({[b]} ∪ s, grown max n (b / 64)))) = Some (a, st) ->
  exists rc bm', opal_bitmap_set_bit malloc_ok (Some bm) b = Ret (rc, Some bm') /\ a = (answer rc : bm_answer) /\ follows max bm' st.
Proof.
  intros (<- & l & H & Hn) Hmax E. cbn [fst snd] in H, Hn. subst n. destruct ((b <? 0) || (bm_max_size bm <? b)) eqn:Eb.
  - injection E as <- <-. exists OPAL_ERR_BAD_PARAM, bm. unfold opal_bitmap_set_bit. rewrite Eb. split_and!; [done|done|split; [done|by exists l]].
  - apply orb_false_iff in Eb as [?%Z.ltb_ge ?%Z.ltb_ge]. destruct (Z.leb_spec (2 ^ 30) b); [done|]. injection E as <- <-.
    destruct (set_bit_spec malloc_ok Hmalloc bm l s b H) as (bm' & l' & Er & H' & Hm & Hl); [lia|lia|].
    exists OPAL_SUCCESS, bm'. split_and!; [done|done|split; [done|by exists l']].
Qed.

Lemma bm_step max bm st op a st' : follows max bm st -> max <= INT_MAX -> bm_spec max st op = Some (a, st') ->
  exists bm', bm_run op bm = Ret (a, Some bm') /\ follows max bm' st'.
Proof.
  intros Hf Hmax E. destruct st as [s n]. pose proof Hf as (Hm & l & H & Hn). cbn [fst snd] in H, Hn. destruct op as [b|b|b| | | | |]; cbn [bm_run bm_spec] in *.
  - destruct (set_at_spec max bm s n b BCode a st' Hf Hmax E) as (rc & bm' & -> & -> & Hf'). by exists bm'.
  - pose proof (clear_bit_spec bm l s b H) as Hc. rewrite <- Hn in Hc. destruct (_ && _); injection E as <- <-.
    + destruct Hc as (bm' & l' & -> & H' & Hm' & Hl'). exists bm'. split; [done|]. split; [congruence|]. exists l'. by rewrite Hl'.
    + rewrite Hc. by exists bm.
  - injection E as <- <-. rewrite (is_set_bit_spec bm l s b H). by exists bm.
  - pose proof (first_unset_spec malloc_ok bm l s H) as Hfi. cbn zeta in Hfi. rewrite <- Hn in Hfi. destruct (_ <? _).
    + destruct Hfi as (bm' & l' & -> & H' & Hm' & Hl'). injection E as <- <-. exists bm'. split; [done|]. split; [congruence|]. exists l'. by rewrite Hl'.
    + destruct Hfi as [_ ->]. destruct (set_at_spec max bm s n _ (fun rc => BPosition rc (lowest_free s n)) a st' Hf Hmax E) as (rc & bm' & -> & -> & Hf'). by exists bm'.
  - injection E as <- <-. destruct (memset_spec bm l s 0 H) as (bm' & l' & Er & H' & Hm' & Hl'); [by left|]. unfold opal_bitmap_clear_all_bits. rewrite Er.
    exists bm'. split; [done|]. split; [congruence|]. exists l'. by rewrite Hl'.
  - injection E as <- <-. destruct (memset_spec bm l s all_ones H) as (bm' & l' & Er & H' & Hm' & Hl'); [by right|]. unfold opal_bitmap_set_all_bits. rewrite Er.
    exists bm'. split; [done|]. split; [congruence|]. exists l'. rewrite Hl', Hn. done.
  - injection E as <- <-. rewrite (is_clear_spec bm l s H). by exists bm.
  - injection E as <- <-. rewrite (num_set_bits_spec debug bm l s H). by exists bm.
Qed.

Lemma bm_steps max ops : forall bm st answers st', follows max bm st -> max <= INT_MAX -> bm_specs max st ops = Some (answers, st') ->
  exists bm', bm_runs ops bm = Ret (answers, bm') /\ follows max bm' st'.
Proof.
  induction ops as [|op ops IH]; intros bm st answers st' Hf Hmax E; cbn [bm_specs bm_runs] in *; [injection E as <- <-; by exists bm|].
  apply bind_Some in E as ([a st1] & E1 & E). apply bind_Some in E as ([l st2] & E2 & [= <- <-]).
  destruct (bm_step max bm st op a st1 Hf Hmax E1) as (bm1 & -> & Hf1). rewrite bind_Ret. cbn [deref]. rewrite bind_Ret.
  destruct (IH bm1 st1 l st2 Hf1 Hmax E2) as (bm' & -> & Hf'). by exists bm'.
Qed.

(** C29: a bit map is a set of numbers. Whatever operations follow the initialization of a map, as long as the
    numbers stay below 2^30: setting, clearing and testing a bit add, remove and look up a number, the search
    gives the lowest number that is not in the set and adds it, growing the map if it is full, and the words
    hold as many bits as the set has numbers. Setting a negative number or one above the configured maximum is
    refused, by the search too when the map is full. A bit outside the map is refused when it is cleared, and
    reads as not set. *)
Theorem bitmap_refines_set size max ops answers s n :
  0 < size <= max -> size <= 2 ^ 30 -> max <= INT_MAX -> bm_specs max (∅, (size + 63) / 64) ops = Some (answers, (s, n)) ->
  exists bm bm', opal_bitmap_init malloc_ok (Some (MkBitmap None 0 max)) size = Ret (OPAL_SUCCESS, Some bm) /\
    bm_runs ops bm = Ret (answers, bm') /\ opal_bitmap_size (Some bm') = Ret (n * 64) /\
    forall b, opal_bitmap_is_set_bit (Some bm') b = Ret (bool_decide (b ∈ s)).
Proof.
  intros Hsize Hs Hmax E. destruct (bm_init_spec malloc_ok Hmalloc size max Hsize Hs) as (bm & l & Ei & H & Hm & Hl).
  destruct (bm_steps max ops bm (∅, (size + 63) / 64) answers (s, n)) as (bm' & Er & _ & l' & H' & Hn'); [|done|done|].
  - split; [done|]. by exists l.
  - cbn [fst snd] in *. exists bm, bm'. split_and!; [done|done| |].
    + cbn [opal_bitmap_size]. by rewrite (bit_count_spec _ _ _ H'), Hn'.
    + intros b. apply (is_set_bit_spec _ _ _ _ H').
Qed.
End Runs.

(** A map of one word is filled, grows, and is counted. *)
Definition bm_example : list bm_op := [BSet 3; BFirst; BSetAll; BFirst; BClear 5; BFirst; BTest 64; BClear 200; BSet 300; BCount; BTest 200].

Lemma bitmap_refines_set_witness : exists answers bm bm', opal_bitmap_init (fun _ => true) (Some (MkBitmap None 0 INT_MAX)) 10 = Ret (OPAL_SUCCESS, Some bm) /\
  bm_runs (fun _ => true) true bm_example bm = Ret (answers, bm') /\ length answers = 11%nat /\ opal_bitmap_size (Some bm') = Ret (6 * 64).
Proof.
  destruct (bm_specs INT_MAX (∅, (10 + 63) / 64) bm_example) as [[answers [s n]]|] eqn:E; [|by vm_compute in E].
  assert (Hn : length answers = 11%nat /\ n = 6) by (vm_compute in E; injection E as <- _ <-; done).
  destruct (bitmap_refines_set (fun _ => true) true (fun _ => eq_refl) 10 INT_MAX bm_example answers s n) as (bm & bm' & Ei & Er & Es & _); [unfold INT_MAX; lia|lia|lia|exact E|].
  destruct Hn as [Hl ->]. exists answers, bm, bm'. exact (conj Ei (conj Er (conj Hl Es))).
Defined.

(** ** Two maps *)
Section Two.
Variables (a b : opal_bitmap_t) (l l' : list Z) (s t : gset Z).
Hypothesis Ha : bm_rep a l s.
Hypothesis Hb : bm_rep b l' t.
Hypothesis Hlen : length l = length l'.

Lemma first_words_both : first_words (bm_array_size a) a = Ret l /\ first_words (bm_array_size a) b = Ret l'.
Proof.
  split; [by apply (first_words_spec _ _ _ Ha)|]. rewrite (br_size _ _ _ Ha), Hlen, <- (br_size _ _ _ Hb). by apply (first_words_spec _ _ _ Hb).
Qed.

(** [f] works on each bit as [g]. *)
Lemma inplace_spec (f : Z -> Z -> Z) (g : bool -> bool -> bool) s' :
  (forall v w, word_ok v -> word_ok w -> 0 <= f v w) -> (forall v w c, Z.testbit (f v w) c = g (Z.testbit v c) (Z.testbit w c)) -> g false false = false ->
  (forall c, c ∈ s' <-> g (bool_decide (c ∈ s)) (bool_decide (c ∈ t)) = true) ->
  exists a' m, bitwise_inplace f (Some a) (Some b) = Ret (OPAL_SUCCESS, Some a') /\ bm_rep a' m s' /\ length m = length l.
Proof.
  intros Hpos Hbits Hg Hs. unfold bitwise_inplace. destruct first_words_both as [-> ->].
  rewrite (br_size _ _ _ Ha), (br_size _ _ _ Hb), (f_equal Z.of_nat Hlen), Z.eqb_refl. cbn [negb]. rewrite !bind_Ret. eexists _, (zip_with f l l'). split; [done|].
  assert (Hz : length (zip_with f l l') = length l) by (rewrite length_zip_with; lia). split; [|done]. unfold store_words.
  rewrite (br_words _ _ _ Ha), Hz. cbn [fmap option_fmap option_map]. rewrite drop_all, app_nil_r.
  assert (Hw : forall i, 0 <= i < Z.of_nat (length l) -> word_at (zip_with f l l') i = f (word_at l i) (word_at l' i)).
  { intros i Hi. unfold word_at. rewrite lookup_zip_with, !word_at_lookup by lia. done. }
  apply new_rep with l s; [done|done| | |].
  - apply Forall_lookup_2. intros i w Hi. pose proof (lookup_lt_Some _ _ _ Hi) as Hi'. rewrite Hz in Hi'.
    assert (w = f (word_at l (Z.of_nat i)) (word_at l' (Z.of_nat i))) as -> by (rewrite <- Hw by lia; unfold word_at; by rewrite Nat2Z.id, Hi).
    apply word_bits; [apply Hpos; apply word_at_ok; [apply Ha|apply Hb]|]. intros c Hc. by rewrite Hbits, !high_bit by (done || (apply word_at_ok; apply Ha || apply Hb)).
  - intros i k Hi Hk. rewrite Hw, Hbits, Hs by done. rewrite <- (bit_set_place l i k), <- (bit_set_place l' i k) by done.
    by rewrite (rep_bit _ _ _ _ Ha), (rep_bit _ _ _ _ Hb) by lia.
  - intros c. rewrite Hs. intros Hc. destruct (decide (c ∈ s)) as [Hin|Hs']; [by apply (rep_below _ _ _ _ Ha)|].
    destruct (decide (c ∈ t)) as [Hin|Ht']; [rewrite Hlen; by apply (rep_below _ _ _ _ Hb)|].
    by rewrite !bool_decide_false, Hg in Hc by done.
Qed.

Lemma same_words : l = l' <-> s = t.
Proof.
  split.
  - intros ->. apply set_eq. intros c. by rewrite (br_set _ _ _ Ha), (br_set _ _ _ Hb).
  - intros <-. apply list_eq. intros i. destruct (Nat.lt_ge_cases i (length l)) as [Hi|Hi]; [|by rewrite !lookup_ge_None_2 by lia].
    destruct (lookup_lt_is_Some_2 l i Hi) as [v Hv], (lookup_lt_is_Some_2 l' i) as [w Hw]; [lia|]. rewrite Hv, Hw. f_equal.
    apply words_eq; [by apply (Forall_lookup_1 _ _ _ _ (br_ok _ _ _ Ha) Hv)|by apply (Forall_lookup_1 _ _ _ _ (br_ok _ _ _ Hb) Hw)|].
    intros k Hk. pose proof (bit_set_place l (Z.of_nat i) k Hk) as E. pose proof (bit_set_place l' (Z.of_nat i) k Hk) as E'.
    unfold word_at in E, E'. rewrite Nat2Z.id, Hv in E. rewrite Nat2Z.id, Hw in E'. cbn in E, E'. rewrite <- E, <- E', (rep_bit _ _ _ _ Ha), (rep_bit _ _ _ _ Hb) by lia. done.
Qed.

(** On two maps of the same size the bitwise operations are intersection,
    union and symmetric difference, and the comparison is that of the sets. *)
Theorem bitmap_set_algebra :
  (exists a' m, opal_bitmap_bitwise_and_inplace (Some a) (Some b) = Ret (OPAL_SUCCESS, Some a') /\ bm_rep a' m (s ∩ t)) /\
  (exists a' m, opal_bitmap_bitwise_or_inplace (Some a) (Some b) = Ret (OPAL_SUCCESS, Some a') /\ bm_rep a' m (s ∪ t)) /\
  (exists a' m, opal_bitmap_bitwise_xor_inplace (Some a) (Some b) = Ret (OPAL_SUCCESS, Some a') /\ bm_rep a' m ((s ∖ t) ∪ (t ∖ s))) /\
  opal_bitmap_are_different (Some a) (Some b) = Ret (negb (bool_decide (s = t))).
Proof.
  split_and!.
  - destruct (inplace_spec Z.land andb (s ∩ t)) as (a' & m & E & H & _); [intros v w [] []; apply Z.land_nonneg; by left|apply Z.land_spec|done| |by exists a', m].
    intros c. rewrite andb_true_iff, !bool_decide_eq_true. set_solver.
  - destruct (inplace_spec Z.lor orb (s ∪ t)) as (a' & m & E & H & _); [intros v w [] []; by apply Z.lor_nonneg|apply Z.lor_spec|done| |by exists a', m].
    intros c. rewrite orb_true_iff, !bool_decide_eq_true. set_solver.
  - destruct (inplace_spec Z.lxor xorb ((s ∖ t) ∪ (t ∖ s))) as (a' & m & E & H & _); [intros v w [] []; by apply Z.lxor_nonneg|apply Z.lxor_spec|done| |by exists a', m].
    intros c. rewrite elem_of_union, !elem_of_difference. repeat case_bool_decide; cbn; intuition congruence.
  - unfold opal_bitmap_are_different. rewrite (bit_count_spec _ _ _ Ha), (bit_count_spec _ _ _ Hb), !bind_Ret, Hlen, Z.eqb_refl. cbn [negb].
    destruct first_words_both as [-> ->]. rewrite !bind_Ret. f_equal. f_equal. apply bool_decide_ext. apply same_words.
Qed.
End Two.

(** The text of a map shows its bits in order. *)
Theorem bitmap_string malloc_ok bm l s : (forall n, malloc_ok n = true) -> bm_rep bm l s ->
  opal_bitmap_get_string malloc_ok (Some bm) = Ret (Some ((fun b => if bool_decide (b ∈ s) then "X"%char else "_"%char) <$> seqZ 0 (Z.of_nat (length l) * 64))).
Proof.
  intros Hmalloc H. assert (Hs : forall n i, bits_string (Some bm) i n = Ret ((fun b => if bool_decide (b ∈ s) then "X"%char else "_"%char) <$> seqZ i (Z.of_nat n))).
  { induction n as [|n IH]; intros i; cbn [bits_string]; [done|]. rewrite (is_set_bit_spec _ _ _ _ H), bind_Ret, IH, bind_Ret.
    rewrite (seqZ_cons i) by lia. by replace (Z.pred (Z.of_nat (S n))) with (Z.of_nat n) by lia. }
  pose proof (br_some _ _ _ H). unfold opal_bitmap_get_string. rewrite (bit_count_spec _ _ _ H), bind_Ret. unfold int_value, INT_MIN, INT_MAX.
  rewrite (proj2 (Z.leb_le _ _)), (proj2 (Z.leb_le _ _)) by lia. cbn [andb]. rewrite bind_Ret, Hmalloc, Hs, Z2Nat.id by lia. done.
Qed.

(** ** Where the code differs from its documentation *)

(** The maximum is given in bits, kept in words and compared with bits: a map
    limited to [m] bits refuses all sizes above [m / 64]. *)
Theorem bitmap_max_size_unit malloc_ok m size : 0 < m <= 2 ^ 30 -> (m + 63) / 64 < size ->
  exists bm, opal_bitmap_set_max_size (Some opal_bitmap_construct) m = (OPAL_SUCCESS, Some bm) /\
    opal_bitmap_init malloc_ok (Some bm) size = Ret (OPAL_ERR_BAD_PARAM, Some bm).
Proof.
  intros Hm Hsize. eexists. split; [done|]. unfold opal_bitmap_init. cbn [bm_max_size]. unfold words_for, SIZE_OF_BASE_TYPE.
  rewrite (u64_small m) by lia. replace (m + 64 - 1) with (m + 63) by lia. pose proof (Z.div_mod (m + 63) 64 ltac:(lia)).
  pose proof (Z.mod_pos_bound (m + 63) 64 ltac:(lia)). rewrite u64_small, i32_small by (unfold INT_MIN, INT_MAX; lia).
  by rewrite (proj2 (Z.ltb_lt _ _) Hsize), orb_true_r.
Qed.

(** The length given to the count is documented as a number of bits and used
    as a number of words: for any length between the two the count leaves the
    map. *)
Theorem bitmap_count_unit debug bm l s len : bm_rep bm l s -> Z.of_nat (length l) < len < Z.of_nat (length l) * 64 ->
  opal_bitmap_num_set_bits debug (Some bm) len = Ub.
Proof.
  intros H Hlen. unfold opal_bitmap_num_set_bits. rewrite (bit_count_spec _ _ _ H), (proj2 (Z.ltb_ge len 0)), bind_Ret, (proj2 (Z.leb_gt (_ * 64) _)) by lia.
  replace (if debug then Ret false else Ret false) with (Ret false) by (by destruct debug). rewrite bind_Ret, (proj2 (Z.leb_gt len 0)) by lia.
  cbn [deref]. rewrite bind_Ret. unfold first_words. rewrite (proj2 (Z.leb_gt len 0)), (br_words _ _ _ H) by lia. cbn [deref]. rewrite bind_Ret.
  by rewrite (proj2 (Z.ltb_lt _ _)) by lia.
Qed.

(** A map that cannot grow has lost its words and not its size: the next look
    at a bit goes through NULL. *)
Theorem bitmap_growth_failure bm l s bit : bm_rep bm l s -> Z.of_nat (length l) * 64 <= bit -> bit <= bm_max_size bm ->
  exists bm', opal_bitmap_set_bit (fun _ => false) (Some bm) bit = Ret (OPAL_ERR_OUT_OF_RESOURCE, Some bm') /\ opal_bitmap_is_set_bit (Some bm') 0 = Ub.
Proof.
  intros H Hbit Hmax. pose proof (br_some _ _ _ H). unfold opal_bitmap_set_bit. rewrite (proj2 (Z.ltb_ge _ _)), (proj2 (Z.ltb_ge _ _)) by lia. cbn [orb].
  assert (Z.of_nat (length l) <= bit / SIZE_OF_BASE_TYPE) by (apply Z.div_le_lower_bound; unfold SIZE_OF_BASE_TYPE; lia).
  unfold extend. rewrite (br_size _ _ _ H), (br_words _ _ _ H), (proj2 (Z.leb_le _ _)), (proj2 (Z.eqb_neq _ _)) by lia. cbn [deref negb].
  rewrite !bind_Ret. cbn [negb]. eexists. split; [done|]. unfold opal_bitmap_is_set_bit, out_of_map, bit_count, int_value, SIZE_OF_BASE_TYPE, INT_MIN, INT_MAX.
  cbn [bm_array_size bm_bitmap]. rewrite (proj2 (Z.ltb_ge 0 0)), (proj2 (Z.leb_le (- 2 ^ 31) _)), (proj2 (Z.leb_le (_ * 64) _)) by lia. cbn [andb].
  rewrite !bind_Ret, (proj2 (Z.leb_gt _ _)) by lia. done.
Qed.
