(* ===== verification/NameFns.v ===== *)
(** * Process names ([orte/util/name_fns.c])

    A process is named by its job and its rank in the job, both 32 bits wide;
    two values of each are set aside for "any" and "none".  This file holds the
    conversions between names and strings, the comparison of names, and the
    texts used in messages.  The texts are kept in a ring of buffers of 50
    bytes, which they always fit. *)

From S2P Require Import Prelude CString.
From stdpp Require Import base strings numbers list.
From Stdlib Require Import ZArith Lia Ascii.

Open Scope Z_scope.

Definition UINT32_MAX : Z := 2 ^ 32 - 1.
Definition ULONG_MAX : Z := 2 ^ 64 - 1.
Definition ORTE_JOBID_MAX : Z := UINT32_MAX - 2.
Definition ORTE_JOBID_INVALID : Z := ORTE_JOBID_MAX + 2.
Definition ORTE_JOBID_WILDCARD : Z := ORTE_JOBID_MAX + 1.
Definition ORTE_VPID_MAX : Z := UINT32_MAX - 2.
Definition ORTE_VPID_INVALID : Z := ORTE_VPID_MAX + 2.
Definition ORTE_VPID_WILDCARD : Z := ORTE_VPID_MAX + 1.

(** [orte_process_name_t] *)
Abbreviation process_name := (Z * Z)%type.
Definition ORTE_NAME_INVALID : process_name := (ORTE_JOBID_INVALID, ORTE_VPID_INVALID).

Definition ORTE_SCHEMA_DELIMITER_CHAR : ascii := ".".
Definition ORTE_SCHEMA_WILDCARD_STRING : cstr := cs "*".
Definition ORTE_SCHEMA_INVALID_STRING : cstr := cs "$".

(** [strtoul(s, NULL, 10)] on an LP64 platform: a minus sign negates within
    [unsigned long]. *)
Definition strtoul10 (s : cstr) : Z :=
  let '(neg, s2) := strtol_sign (skip_space s) in
  let '(ds, _) := span_digits s2 in
  let v := dec_value 0 ds in
  if ULONG_MAX <? v then ULONG_MAX else if neg then u64 (- v) else v.

(** ** Strings *)
Definition orte_util_convert_jobid_to_string (jobid : Z) : Z * cstr :=
  (OPAL_SUCCESS, if jobid =? ORTE_JOBID_WILDCARD then ORTE_SCHEMA_WILDCARD_STRING else dec jobid).

Definition orte_util_convert_string_to_jobid (jobidstring : option cstr) : Z * Z :=
  match jobidstring with
  | None => (OPAL_ERR_BAD_PARAM, ORTE_JOBID_INVALID)
  | Some s =>
    (OPAL_SUCCESS, if strcmp0 ORTE_SCHEMA_WILDCARD_STRING s then ORTE_JOBID_WILDCARD
                   else if strcmp0 ORTE_SCHEMA_INVALID_STRING s then ORTE_JOBID_INVALID
                   else u32 (strtoul10 s))
  end.

Definition orte_util_convert_vpid_to_string (vpid : Z) : Z * cstr :=
  (OPAL_SUCCESS, if vpid =? ORTE_VPID_WILDCARD then ORTE_SCHEMA_WILDCARD_STRING
                 else if vpid =? ORTE_VPID_INVALID then ORTE_SCHEMA_INVALID_STRING else dec vpid).

Definition orte_util_convert_string_to_vpid (vpidstring : option cstr) : Z * Z :=
  match vpidstring with
  | None => (OPAL_ERR_BAD_PARAM, ORTE_VPID_INVALID)
  | Some s =>
    (OPAL_SUCCESS, if strcmp0 ORTE_SCHEMA_WILDCARD_STRING s then ORTE_VPID_WILDCARD
                   else if strcmp0 ORTE_SCHEMA_INVALID_STRING s then ORTE_VPID_INVALID
                   else u32 (strtol10 s).1.1)
  end.

(** One half of a name. *)
Definition field_of_string (wildcard invalid : Z) (s : cstr) : Z :=
  if strcmp0 s ORTE_SCHEMA_WILDCARD_STRING then wildcard
  else if strcmp0 s ORTE_SCHEMA_INVALID_STRING then invalid
  else u32 (strtoul10 s).

Definition field_to_string (wildcard invalid z : Z) : cstr :=
  if z =? wildcard then ORTE_SCHEMA_WILDCARD_STRING
  else if z =? invalid then ORTE_SCHEMA_INVALID_STRING else dec z.

Definition orte_util_convert_string_to_process_name (name_string : option cstr) : Z * process_name :=
  match name_string with
  | None => (OPAL_ERR_BAD_PARAM, ORTE_NAME_INVALID)
  | Some temp =>
    match strchr temp ORTE_SCHEMA_DELIMITER_CHAR with
    | None => (OPAL_ERR_BAD_PARAM, ORTE_NAME_INVALID)
    | Some i =>
      (OPAL_SUCCESS, (field_of_string ORTE_JOBID_WILDCARD ORTE_JOBID_INVALID (take i temp),
                      field_of_string ORTE_VPID_WILDCARD ORTE_VPID_INVALID (drop (S i) temp)))
    end
  end.

Definition orte_util_convert_process_name_to_string (name : option process_name) : Z * option cstr :=
  match name with
  | None => (OPAL_ERR_BAD_PARAM, None)
  | Some n =>
    (OPAL_SUCCESS, Some (field_to_string ORTE_JOBID_WILDCARD ORTE_JOBID_INVALID n.1 ++
                         ORTE_SCHEMA_DELIMITER_CHAR ::
                         field_to_string ORTE_VPID_WILDCARD ORTE_VPID_INVALID n.2))
  end.

Definition orte_util_create_process_name (malloc_ok : bool) (job vpid : Z) : Z * option process_name :=
  if malloc_ok then (OPAL_SUCCESS, Some (job, vpid)) else (OPAL_ERR_OUT_OF_RESOURCE, None).

(** ** Comparison *)
Definition OPAL_EQUAL : Z := 0.
Definition OPAL_VALUE1_GREATER : Z := 1.
Definition OPAL_VALUE2_GREATER : Z := -1.

Definition ORTE_NS_CMP_NONE : Z := 0.
Definition ORTE_NS_CMP_JOBID : Z := 2.
Definition ORTE_NS_CMP_VPID : Z := 4.
Definition ORTE_NS_CMP_ALL : Z := 15.
Definition ORTE_NS_CMP_WILD : Z := 16.

Definition flag (mask fields : Z) : bool := negb (Z.land mask fields =? 0).

Definition compare_vpid (fields : Z) (name1 name2 : process_name) : Z :=
  if flag ORTE_NS_CMP_VPID fields then
    if flag ORTE_NS_CMP_WILD fields && ((ORTE_VPID_WILDCARD =? name1.2) || (ORTE_VPID_WILDCARD =? name2.2))
    then OPAL_EQUAL
    else if name1.2 <? name2.2 then OPAL_VALUE2_GREATER
    else if name2.2 <? name1.2 then OPAL_VALUE1_GREATER
    else OPAL_EQUAL
  else OPAL_EQUAL.

Definition orte_util_compare_name_fields (fields : Z) (name1 name2 : option process_name) : Z :=
  match name1, name2 with
  | None, None => OPAL_EQUAL
  | None, Some _ => OPAL_VALUE2_GREATER
  | Some _, None => OPAL_VALUE1_GREATER
  | Some n1, Some n2 =>
    if flag ORTE_NS_CMP_JOBID fields then
      if flag ORTE_NS_CMP_WILD fields && ((ORTE_JOBID_WILDCARD =? n1.1) || (ORTE_JOBID_WILDCARD =? n2.1))
      then compare_vpid fields n1 n2
      else if n1.1 <? n2.1 then OPAL_VALUE2_GREATER
      else if n2.1 <? n1.1 then OPAL_VALUE1_GREATER
      else compare_vpid fields n1 n2
    else compare_vpid fields n1 n2
  end.

(** ** Texts for messages *)
Definition orte_util_print_jobids (job : Z) : cstr :=
  if ORTE_JOBID_INVALID =? job then cs "[INVALID]"
  else if ORTE_JOBID_WILDCARD =? job then cs "[WILDCARD]"
  else cs "[" ++ dec (Z.land (Z.shiftr job 16) 65535) ++ cs "," ++ dec (Z.land job 65535) ++ cs "]".

Definition orte_util_print_job_family (job : Z) : cstr :=
  if ORTE_JOBID_INVALID =? job then cs "INVALID"
  else if ORTE_JOBID_WILDCARD =? job then cs "WILDCARD"
  else dec (Z.land (Z.shiftr job 16) 65535).

Definition orte_util_print_local_jobid (job : Z) : cstr :=
  if ORTE_JOBID_INVALID =? job then cs "INVALID"
  else if ORTE_JOBID_WILDCARD =? job then cs "WILDCARD"
  else dec (Z.land job 65535).

Definition orte_util_print_vpids (vpid : Z) : cstr :=
  if ORTE_VPID_INVALID =? vpid then cs "INVALID"
  else if ORTE_VPID_WILDCARD =? vpid then cs "WILDCARD"
  else dec vpid.

Definition orte_util_print_name_args (name : option process_name) : cstr :=
  match name with
  | None => cs "[NO-NAME]"
  | Some n => cs "[" ++ orte_util_print_jobids n.1 ++ cs "," ++ orte_util_print_vpids n.2 ++ cs "]"
  end.

Definition orte_util_hash_vpid (vpid : Z) : Z :=
  let hash := vpid in
  let hash := u32 (u32 (hash + 0x7ed55d16) + u32 (Z.shiftl hash 12)) in
  let hash := Z.lxor (Z.lxor hash 0xc761c23c) (Z.shiftr hash 19) in
  let hash := u32 (u32 (hash + 0x165667b1) + u32 (Z.shiftl hash 5)) in
  let hash := Z.lxor (u32 (hash + 0xd3a2646c)) (u32 (Z.shiftl hash 9)) in
  let hash := u32 (u32 (hash + 0xfd7046c5) + u32 (Z.shiftl hash 3)) in
  Z.lxor (Z.lxor hash 0xb55a4f09) (Z.shiftr hash 16).

(** ** Properties *)
Definition u32_range (z : Z) : Prop := 0 <= z <= UINT32_MAX.

Lemma digits_plain ds :
  Forall (fun c => isdigit c = true) ds -> ds <> [] -> strtol_sign (skip_space ds) = (false, ds).
Proof.
  intros Hds Hne. destruct ds as [|c ds]; [done|]. apply Forall_cons_iff in Hds as [Hc%isdigit_range _].
  assert (skip_space (c :: ds) = c :: ds) as ->.
  { cbn. replace (isspace c) with false; [done|]. unfold isspace. lia. }
  cbn. unfold eqc. rewrite !bool_decide_eq_false_2; [done| |]; intros ->; unfold char_Z in Hc; simpl in Hc; lia.
Qed.

Lemma strtoul10_dec z : u32_range z -> strtoul10 (dec z) = z.
Proof.
  unfold u32_range, UINT32_MAX. intros Hz. unfold strtoul10.
  rewrite (digits_plain _ (dec_digits z) (dec_nonempty z ltac:(lia))).
  rewrite <- (app_nil_r (dec z)), (span_digits_app _ [] (dec_digits z) I), dec_value_dec by lia.
  destruct (Z.ltb_spec ULONG_MAX z); [unfold ULONG_MAX in *; lia|done].
Qed.

Lemma dec_not_schema z c : isdigit c = false -> 0 <= z -> dec z <> [c].
Proof.
  intros Hc Hz E. pose proof (dec_digits z) as Hd. rewrite E in Hd. apply Forall_cons_iff in Hd as [? _]. congruence.
Qed.

Lemma dec_schema z : 0 <= z ->
  (strcmp0 (dec z) ORTE_SCHEMA_WILDCARD_STRING = false /\ strcmp0 (dec z) ORTE_SCHEMA_INVALID_STRING = false) /\
  strcmp0 ORTE_SCHEMA_WILDCARD_STRING (dec z) = false /\ strcmp0 ORTE_SCHEMA_INVALID_STRING (dec z) = false.
Proof.
  intros Hz. split_and!; apply strcmp0_false; intros E; first [symmetry in E; by apply dec_not_schema in E|by apply dec_not_schema in E].
Qed.

(** Both halves of a name survive. *)
Lemma field_roundtrip wildcard invalid z :
  u32_range z -> field_of_string wildcard invalid (field_to_string wildcard invalid z) = z.
Proof.
  intros Hz. unfold field_to_string. destruct (Z.eqb_spec z wildcard) as [->|_]; [done|].
  destruct (Z.eqb_spec z invalid) as [->|_]; [done|]. unfold field_of_string.
  destruct (dec_schema z ltac:(apply Hz)) as [[-> ->] _].
  rewrite strtoul10_dec by done. unfold u32_range, UINT32_MAX in Hz. apply wrap_small. lia.
Qed.

Lemma field_no_delimiter wildcard invalid z :
  Forall (fun c => eqc ORTE_SCHEMA_DELIMITER_CHAR c = false) (field_to_string wildcard invalid z).
Proof.
  unfold field_to_string. destruct (z =? wildcard); [by repeat constructor|].
  destruct (z =? invalid); [by repeat constructor|]. eapply Forall_imp; [|apply dec_digits].
  intros c Hc. apply eqc_ne. by intros <-.
Qed.

Lemma strchr_field wildcard invalid z rest :
  strchr (field_to_string wildcard invalid z ++ ORTE_SCHEMA_DELIMITER_CHAR :: rest) ORTE_SCHEMA_DELIMITER_CHAR =
  Some (length (field_to_string wildcard invalid z)).
Proof. apply find_index_app; [apply field_no_delimiter|apply eqc_refl]. Qed.

(** A process name printed with [orte_util_convert_process_name_to_string] is read back by
    [orte_util_convert_string_to_process_name], the wildcard and the invalid values included; so are job ids and ranks
    on their own. *)
Theorem process_name_roundtrip jobid vpid :
  u32_range jobid -> u32_range vpid ->
  (exists s, orte_util_convert_process_name_to_string (Some (jobid, vpid)) = (OPAL_SUCCESS, Some s) /\
    orte_util_convert_string_to_process_name (Some s) = (OPAL_SUCCESS, (jobid, vpid))) /\
  orte_util_convert_string_to_jobid (Some (orte_util_convert_jobid_to_string jobid).2) = (OPAL_SUCCESS, jobid) /\
  orte_util_convert_string_to_vpid (Some (orte_util_convert_vpid_to_string vpid).2) = (OPAL_SUCCESS, vpid).
Proof.
  intros Hj Hv. split_and!.
  - eexists. split; [reflexivity|]. unfold orte_util_convert_string_to_process_name. cbn [fst snd].
    rewrite strchr_field, take_app_length. cbn [app].
    replace (S (length _)) with (length (field_to_string ORTE_JOBID_WILDCARD ORTE_JOBID_INVALID jobid) + 1)%nat by lia.
    rewrite drop_app_add. cbn [drop]. by rewrite drop_0, !field_roundtrip.
  - unfold orte_util_convert_jobid_to_string. cbn [snd]. destruct (Z.eqb_spec jobid ORTE_JOBID_WILDCARD) as [->|_]; [done|].
    unfold orte_util_convert_string_to_jobid.
    destruct (dec_schema jobid ltac:(apply Hj)) as [_ [-> ->]].
    rewrite strtoul10_dec by done. unfold u32_range, UINT32_MAX in Hj. f_equal. apply wrap_small. lia.
  - unfold orte_util_convert_vpid_to_string. cbn [snd]. destruct (Z.eqb_spec vpid ORTE_VPID_WILDCARD) as [->|_]; [done|].
    destruct (Z.eqb_spec vpid ORTE_VPID_INVALID) as [->|_]; [done|]. unfold orte_util_convert_string_to_vpid.
    destruct (dec_schema vpid ltac:(apply Hv)) as [_ [-> ->]].
    unfold u32_range, UINT32_MAX in Hv. rewrite <- (app_nil_r (dec vpid)), strtol10_dec by (done || unfold LONG_MAX; lia).
    cbn [fst]. f_equal. apply wrap_small. lia.
Qed.

Lemma process_name_roundtrip_witness :
  (exists s, orte_util_convert_process_name_to_string (Some (ORTE_JOBID_INVALID, 17)) = (OPAL_SUCCESS, Some s) /\
    orte_util_convert_string_to_process_name (Some s) = (OPAL_SUCCESS, (ORTE_JOBID_INVALID, 17))).
Proof.
  apply (process_name_roundtrip ORTE_JOBID_INVALID 17); unfold u32_range, ORTE_JOBID_INVALID, ORTE_JOBID_MAX, UINT32_MAX; lia.
Defined.

(** Without the wildcard flag names are equal exactly when they are the same. *)
Lemma compare_all_equal n1 n2 :
  orte_util_compare_name_fields ORTE_NS_CMP_ALL (Some n1) (Some n2) = OPAL_EQUAL <-> n1 = n2.
Proof.
  destruct n1 as [j1 v1], n2 as [j2 v2]. cbn. unfold compare_vpid. cbn. unfold OPAL_EQUAL, OPAL_VALUE1_GREATER, OPAL_VALUE2_GREATER.
  zcase; split; intros E; try done; try (injection E as <- <-; lia); f_equal; lia.
Qed.
