(* ===== verification/HashTable.v ===== *)
(** * Open-addressing hash tables ([opal/class/opal_hash_table.c])

    One model serves the three key families of the source (32-bit, 64-bit and
    byte-string keys): they differ only in the hash and in the comparison of
    keys, which the class [HashKey] states.  A slot is [Some (key, value)] when
    its [valid] flag is set and [None] otherwise; the stale key and value of an
    invalid slot are never read by the source.

    [calloc] may fail: [calloc_ok capacity] says whether the allocation of a
    table of that many slots succeeds.  The probing loops carry a budget of
    one iteration per slot and report [Diverge] past it.

    The abstract state of a table is the finite map [ht_map ht]; [ht_wf] is the
    linear-probing invariant.  The theorems show that every operation keeps
    [ht_wf] and acts on [ht_map] as lookup, insertion, deletion and clearing. *)

From S2P Require Import Prelude CString.
From stdpp Require Import base strings numbers list gmap fin_maps.
From Stdlib Require Import ZArith Lia Ascii.

Open Scope Z_scope.

(** ** Keys *)
Class HashKey (K : Type) `{EqDecision K} := {
  hash_elt : K -> Z;
  hash_elt_range : forall k, 0 <= hash_elt k < 2 ^ 64
}.

Inductive key_uint32 : Type := KU32 (k : Z).
Inductive key_uint64 : Type := KU64 (k : Z).

#[export] Instance key_uint32_eq_dec : EqDecision key_uint32.
Proof. solve_decision. Defined.
#[export] Instance key_uint64_eq_dec : EqDecision key_uint64.
Proof. solve_decision. Defined.
#[export] Instance key_uint32_countable : Countable key_uint32.
Proof. refine (inj_countable' (fun '(KU32 k) => k) KU32 _). by intros []. Defined.
#[export] Instance key_uint64_countable : Countable key_uint64.
Proof. refine (inj_countable' (fun '(KU64 k) => k) KU64 _). by intros []. Defined.

Definition opal_hash_hash_elt_uint32 (e : key_uint32) : Z := let 'KU32 k := e in u32 k.
Definition opal_hash_hash_elt_uint64 (e : key_uint64) : Z := let 'KU64 k := e in u64 k.

Definition HASH_MULTIPLIER : Z := 31.

(** [hash = HASH_MULTIPLIER*hash + *scanner++] over the key's bytes, in
    [uint64_t]. *)
Definition opal_hash_hash_key_ptr (key : list ascii) : Z :=
  foldl (fun hash c => u64 (HASH_MULTIPLIER * hash + char_Z c)) 0 key.

#[export] Instance uint32_HashKey : HashKey key_uint32.
Proof.
  refine {| hash_elt := opal_hash_hash_elt_uint32 |}.
  intros [k]. pose proof (wrap_range 32 k). unfold opal_hash_hash_elt_uint32, u32. lia.
Defined.

#[export] Instance uint64_HashKey : HashKey key_uint64.
Proof.
  refine {| hash_elt := opal_hash_hash_elt_uint64 |}.
  intros [k]. apply wrap_range. lia.
Defined.

Lemma opal_hash_hash_key_ptr_range key : 0 <= opal_hash_hash_key_ptr key < 2 ^ 64.
Proof.
  unfold opal_hash_hash_key_ptr.
  assert (H : forall h, 0 <= h < 2 ^ 64 ->
     0 <= foldl (fun hash c => u64 (HASH_MULTIPLIER * hash + char_Z c)) h key < 2 ^ 64).
  { induction key as [|c key IH]; intros h Hh; simpl; [done|].
    apply IH. apply wrap_range. lia. }
  apply H. lia.
Qed.

#[export] Instance ptr_HashKey : HashKey (list ascii).
Proof.
  refine {| hash_elt := opal_hash_hash_key_ptr |}. apply opal_hash_hash_key_ptr_range.
Defined.

(** ** Tables *)
Record opal_hash_table_t (K V : Type) : Type := MkHt {
  ht_table : list (option (K * V));
  ht_capacity : Z;
  ht_size : Z;
  ht_growth_trigger : Z;
  ht_density_numer : Z;
  ht_density_denom : Z;
  ht_growth_numer : Z;
  ht_growth_denom : Z;
  ht_type_methods : bool        (* whether the methods pointer is non-NULL *)
}.
Arguments MkHt {K V}.
Arguments ht_table {K V}.
Arguments ht_capacity {K V}.
Arguments ht_size {K V}.
Arguments ht_growth_trigger {K V}.
Arguments ht_density_numer {K V}.
Arguments ht_density_denom {K V}.
Arguments ht_growth_numer {K V}.
Arguments ht_growth_denom {K V}.
Arguments ht_type_methods {K V}.

Section Ops.
Context {K V : Type} `{HashKey K}.
Variable calloc_ok : Z -> bool.

Abbreviation slots := (list (option (K * V))).
Abbreviation table := (opal_hash_table_t K V).

Definition opal_hash_table_construct : table :=
  {| ht_table := []; ht_capacity := 0; ht_size := 0; ht_growth_trigger := 0;
     ht_density_numer := 0; ht_density_denom := 0;
     ht_growth_numer := 0; ht_growth_denom := 0; ht_type_methods := false |}.

Definition with_slots (ht : table) (t : slots) (size : Z) (typed : bool) : table :=
  {| ht_table := t; ht_capacity := ht_capacity ht; ht_size := size;
     ht_growth_trigger := ht_growth_trigger ht;
     ht_density_numer := ht_density_numer ht; ht_density_denom := ht_density_denom ht;
     ht_growth_numer := ht_growth_numer ht; ht_growth_denom := ht_growth_denom ht;
     ht_type_methods := typed |}.

(** Round up to 1 mod 30, in [size_t]. *)
Definition opal_hash_round_capacity_up (capacity : Z) : Z :=
  u64 (u64 (capacity + 29) / 30 * 30 + 1).

(** The [int] ratios are converted to [size_t] by the multiplications. *)
Definition opal_hash_table_init2 (ht : table) (estimated_max_size : Z)
    (density_numer density_denom growth_numer growth_denom : Z) : outcome (Z * table) :=
  if u64 density_numer =? 0 then Ub
  else
    let est_capacity := u64 (estimated_max_size * u64 density_denom) / u64 density_numer in
    let capacity := opal_hash_round_capacity_up est_capacity in
    if negb (calloc_ok capacity) then
      Ret (OPAL_ERR_OUT_OF_RESOURCE, with_slots ht [] (ht_size ht) (ht_type_methods ht))
    else if u64 density_denom =? 0 then Ub
    else
      Ret (OPAL_SUCCESS,
        {| ht_table := replicate (Z.to_nat capacity) None;
           ht_capacity := capacity;
           ht_size := ht_size ht;
           ht_growth_trigger := u64 (capacity * u64 density_numer) / u64 density_denom;
           ht_density_numer := density_numer; ht_density_denom := density_denom;
           ht_growth_numer := growth_numer; ht_growth_denom := growth_denom;
           ht_type_methods := false |}).

Definition opal_hash_table_init (ht : table) (table_size : Z) : outcome (Z * table) :=
  opal_hash_table_init2 ht table_size 1 2 2 1.

Definition opal_hash_table_remove_all (ht : table) : Z * table :=
  (OPAL_SUCCESS, with_slots ht ((fun _ => None) <$> ht_table ht) 0 false).

(** Home position of a key. *)
Definition home (cap : nat) (k : K) : nat := Z.to_nat (hash_elt k mod Z.of_nat cap).

(** [if (ii == capacity) ii = 0] at the head of every probing loop. *)
Definition norm (cap ii : nat) : nat := if (ii =? cap)%nat then O else ii.

Inductive probe_result : Type :=
| Found (i : nat) (v : V)
| Vacant (i : nat).

(** The search loop shared by get, set and remove. *)
Fixpoint probe (fuel : nat) (t : slots) (cap : nat) (k : K) (ii : nat) : outcome probe_result :=
  match fuel with
  | O => Diverge
  | S fuel' =>
    let ii := norm cap ii in
    match t !! ii with
    | None => Ub
    | Some None => Ret (Vacant ii)
    | Some (Some (k', v)) =>
      if decide (k' = k) then Ret (Found ii v) else probe fuel' t cap k (S ii)
    end
  end.

Definition lookup_slot (ht : table) (k : K) : outcome probe_result :=
  if ht_capacity ht =? 0 then Ub                     (* key % capacity *)
  else
    let cap := Z.to_nat (ht_capacity ht) in
    probe cap (ht_table ht) cap k (home cap k).

(** Insertion of an element into the new table of [opal_hash_grow]. *)
Fixpoint place (fuel : nat) (t : slots) (cap : nat) (e : K * V) (ii : nat) : outcome slots :=
  match fuel with
  | O => Diverge
  | S fuel' =>
    let ii := norm cap ii in
    match t !! ii with
    | None => Ub
    | Some None => Ret (<[ii := Some e]> t)
    | Some (Some _) => place fuel' t cap e (S ii)
    end
  end.

Fixpoint rehash_into (old : slots) (t : slots) (cap : nat) : outcome slots :=
  match old with
  | [] => Ret t
  | None :: old' => rehash_into old' t cap
  | Some e :: old' =>
    t' ← place cap t cap e (home cap e.1);
    rehash_into old' t' cap
  end.

Definition opal_hash_grow (ht : table) : outcome (Z * table) :=
  if u64 (ht_growth_denom ht) =? 0 then Ub
  else
    let scaled := u64 (ht_capacity ht * u64 (ht_growth_numer ht)) / u64 (ht_growth_denom ht) in
    let new_capacity := opal_hash_round_capacity_up scaled in
    if negb (calloc_ok new_capacity) then Ret (OPAL_ERR_OUT_OF_RESOURCE, ht)
    else
      t ← rehash_into (ht_table ht) (replicate (Z.to_nat new_capacity) None)
            (Z.to_nat new_capacity);
      if u64 (ht_density_denom ht) =? 0 then Ub
      else Ret (OPAL_SUCCESS,
        {| ht_table := t; ht_capacity := new_capacity; ht_size := ht_size ht;
           ht_growth_trigger :=
             u64 (new_capacity * u64 (ht_density_numer ht)) / u64 (ht_density_denom ht);
           ht_density_numer := ht_density_numer ht; ht_density_denom := ht_density_denom ht;
           ht_growth_numer := ht_growth_numer ht; ht_growth_denom := ht_growth_denom ht;
           ht_type_methods := ht_type_methods ht |}).

(** Where the element of slot [ii] wants to be after a removal: [Some jj] is
    the vacant slot it moves to, [None] means it stays. *)
Fixpoint reconsider (fuel : nat) (t : slots) (cap ii jj : nat) : outcome (option nat) :=
  match fuel with
  | O => Diverge
  | S fuel' =>
    let jj := norm cap jj in
    if (jj =? ii)%nat then Ret None
    else
      match t !! jj with
      | None => Ub
      | Some None => Ret (Some jj)
      | Some (Some _) => reconsider fuel' t cap ii (S jj)
      end
  end.

(** Scan of the slots following a removed element. *)
Fixpoint compact (fuel : nat) (t : slots) (cap ii : nat) : outcome slots :=
  match fuel with
  | O => Diverge
  | S fuel' =>
    let ii := norm cap ii in
    match t !! ii with
    | None => Ub
    | Some None => Ret t
    | Some (Some e) =>
      o ← reconsider cap t cap ii (home cap e.1);
      match o with
      | None => compact fuel' t cap (S ii)
      | Some jj => compact fuel' (<[ii := None]> (<[jj := Some e]> t)) cap (S ii)
      end
    end
  end.

Definition opal_hash_table_remove_elt_at (ht : table) (ii : nat) : outcome (Z * table) :=
  let cap := Z.to_nat (ht_capacity ht) in
  match ht_table ht !! ii with
  | None => Ub
  | Some None => Ret (OPAL_ERROR, ht)
  | Some (Some _) =>
    t ← compact cap (<[ii := None]> (ht_table ht)) cap (S ii);
    Ret (OPAL_SUCCESS, with_slots ht t (u64 (ht_size ht - 1)) (ht_type_methods ht))
  end.

(** The operations; each first records the key type in the table. *)
Definition get_value (ht : table) (key : K) : outcome (Z * option V * table) :=
  let ht := with_slots ht (ht_table ht) (ht_size ht) true in
  p ← lookup_slot ht key;
  match p with
  | Vacant _ => Ret (OPAL_ERR_NOT_FOUND, None, ht)
  | Found _ v => Ret (OPAL_SUCCESS, Some v, ht)
  end.

Definition set_value (ht : table) (key : K) (value : V) : outcome (Z * table) :=
  let ht := with_slots ht (ht_table ht) (ht_size ht) true in
  p ← lookup_slot ht key;
  match p with
  | Vacant ii =>
    let ht' := with_slots ht (<[ii := Some (key, value)]> (ht_table ht))
                 (u64 (ht_size ht + 1)) true in
    if ht_growth_trigger ht' <=? ht_size ht' then opal_hash_grow ht'
    else Ret (OPAL_SUCCESS, ht')
  | Found ii _ =>
    Ret (OPAL_SUCCESS, with_slots ht (<[ii := Some (key, value)]> (ht_table ht)) (ht_size ht) true)
  end.

Definition remove_value (ht : table) (key : K) : outcome (Z * table) :=
  let ht := with_slots ht (ht_table ht) (ht_size ht) true in
  p ← lookup_slot ht key;
  match p with
  | Vacant _ => Ret (OPAL_ERR_NOT_FOUND, ht)
  | Found ii _ => opal_hash_table_remove_elt_at ht ii
  end.

Definition opal_hash_table_get_size (ht : table) : Z := ht_size ht.

(** Index of the first valid slot at or after [ii]. *)
Definition opal_hash_table_get_next_elt (ht : table) (prev_elt : option nat) : option nat :=
  let from := match prev_elt with None => O | Some p => S p end in
  (fun i => (from + i)%nat) <$> find_index (fun s => bool_decide (is_Some s)) (drop from (ht_table ht)).

(** Key, value and the new position; [None] is the [OPAL_ERROR] return. *)
Definition get_next_key (ht : table) (in_node : option nat) : option (K * V * nat) :=
  ii ← opal_hash_table_get_next_elt ht in_node;
  match ht_table ht !! ii with
  | Some (Some (k, v)) => Some (k, v, ii)
  | _ => None
  end.

(** A whole traversal: what repeated calls of [get_next_key] visit. *)
Fixpoint traverse (fuel : nat) (ht : table) (in_node : option nat) : list (K * V) :=
  match fuel with
  | O => []
  | S fuel' =>
    match get_next_key ht in_node with
    | None => []
    | Some (k, v, node) => (k, v) :: traverse fuel' ht (Some node)
    end
  end.

End Ops.

Arguments Found {V} i v.
Arguments Vacant {V} i.

(** ** The three key families *)
Definition opal_hash_table_get_value_uint32 {V} (ht : opal_hash_table_t key_uint32 V) (key : Z) :=
  get_value ht (KU32 key).
Definition opal_hash_table_set_value_uint32 {V} calloc_ok (ht : opal_hash_table_t key_uint32 V)
    (key : Z) (value : V) := set_value calloc_ok ht (KU32 key) value.
Definition opal_hash_table_remove_value_uint32 {V} (ht : opal_hash_table_t key_uint32 V) (key : Z) :=
  remove_value ht (KU32 key).
Definition opal_hash_table_get_value_uint64 {V} (ht : opal_hash_table_t key_uint64 V) (key : Z) :=
  get_value ht (KU64 key).
Definition opal_hash_table_set_value_uint64 {V} calloc_ok (ht : opal_hash_table_t key_uint64 V)
    (key : Z) (value : V) := set_value calloc_ok ht (KU64 key) value.
Definition opal_hash_table_remove_value_uint64 {V} (ht : opal_hash_table_t key_uint64 V) (key : Z) :=
  remove_value ht (KU64 key).
Definition opal_hash_table_get_value_ptr {V} (ht : opal_hash_table_t (list ascii) V)
    (key : list ascii) := get_value ht key.
Definition opal_hash_table_set_value_ptr {V} calloc_ok (ht : opal_hash_table_t (list ascii) V)
    (key : list ascii) (value : V) := set_value calloc_ok ht key value.
Definition opal_hash_table_remove_value_ptr {V} (ht : opal_hash_table_t (list ascii) V)
    (key : list ascii) := remove_value ht key.
Definition opal_hash_table_get_next_key_uint32 {V} (ht : opal_hash_table_t key_uint32 V)
    (in_node : option nat) := get_next_key ht in_node.
Definition opal_hash_table_get_next_key_uint64 {V} (ht : opal_hash_table_t key_uint64 V)
    (in_node : option nat) := get_next_key ht in_node.
Definition opal_hash_table_get_next_key_ptr {V} (ht : opal_hash_table_t (list ascii) V)
    (in_node : option nat) := get_next_key ht in_node.

(** ** The linear-probing invariant *)
Section Invariant.
Context {K V : Type} `{HashKey K} `{!Countable K}.
Implicit Types (t : list (option (K * V))) (k : K) (v : V) (e : K * V).

(** Number of probes from [h] to reach [x] in a table of [cap] slots. *)
Definition off (cap h x : nat) : nat := if (h <=? x)%nat then (x - h)%nat else (x + cap - h)%nat.

Definition entries t : list (K * V) := omap id t.
Definition valid_at t (q : nat) : Prop := exists e, t !! q = Some (Some e).
Definition vacant_at t (q : nat) : Prop := t !! q = Some None.

(** Every slot probed before the one a key sits in is valid. *)
Definition path_inv t (cap : nat) : Prop :=
  forall p k v q, t !! p = Some (Some (k, v)) -> (q < cap)%nat ->
    (off cap (home cap k) q < off cap (home cap k) p)%nat -> valid_at t q.

Definition slots_wf t (cap : nat) : Prop :=
  length t = cap /\ path_inv t cap /\ NoDup (entries t).*1.

(** Tables made by [opal_hash_table_init]: density 1/2, growth 2/1, at least
    one vacant slot. *)
Definition ht_wf (ht : opal_hash_table_t K V) : Prop :=
  slots_wf (ht_table ht) (Z.to_nat (ht_capacity ht)) /\
  ht_size ht = Z.of_nat (length (entries (ht_table ht))) /\
  0 <= ht_size ht < ht_capacity ht /\
  ht_capacity ht < 2 ^ 64 /\
  ht_density_numer ht = 1 /\ ht_density_denom ht = 2 /\
  ht_growth_numer ht = 2 /\ ht_growth_denom ht = 1 /\
  ht_growth_trigger ht = ht_capacity ht / 2.

(** The finite map a table stands for. *)
Definition ht_map (ht : opal_hash_table_t K V) : gmap K V := list_to_map (entries (ht_table ht)).

(** *** Cyclic positions *)
Ltac cyc :=
  unfold off, norm in *;
  repeat match goal with
  | |- context [Nat.leb ?a ?b] => destruct (Nat.leb_spec a b)
  | H : context [Nat.leb ?a ?b] |- _ => destruct (Nat.leb_spec a b)
  | |- context [Nat.eqb ?a ?b] => destruct (Nat.eqb_spec a b)
  | H : context [Nat.eqb ?a ?b] |- _ => destruct (Nat.eqb_spec a b)
  end; try lia.

Lemma home_lt cap k : (0 < cap)%nat -> (home cap k < cap)%nat.
Proof.
  intros Hc. unfold home. pose proof (Z.mod_pos_bound (hash_elt k) (Z.of_nat cap)). lia.
Qed.

Lemma norm_lt cap ii : (0 < cap)%nat -> (ii <= cap)%nat -> (norm cap ii < cap)%nat.
Proof. intros; cyc. Qed.

Lemma norm_id cap ii : (ii < cap)%nat -> norm cap ii = ii.
Proof. intros; cyc. Qed.

Lemma off_lt cap h x : (h < cap)%nat -> (x < cap)%nat -> (off cap h x < cap)%nat.
Proof. intros; cyc. Qed.

Lemma off_self cap h : off cap h h = O.
Proof. cyc. Qed.

Lemma off_inj cap h x y :
  (h < cap)%nat -> (x < cap)%nat -> (y < cap)%nat -> off cap h x = off cap h y -> x = y.
Proof. intros; cyc. Qed.

Lemma off_next cap h x :
  (h < cap)%nat -> (x < cap)%nat -> (off cap h x + 1 < cap)%nat ->
  off cap h (norm cap (S x)) = S (off cap h x).
Proof. intros; cyc. Qed.

(** Walking on from [a], the distance to [e] drops by one. *)
Lemma off_step cap a q :
  (a < cap)%nat -> (q < cap)%nat -> a <> q ->
  off cap a q = S (off cap (norm cap (S a)) q).
Proof. intros; cyc. Qed.

(** *** Entries *)
Lemma elem_of_entries t k v : (k, v) ∈ entries t <-> exists p, t !! p = Some (Some (k, v)).
Proof.
  unfold entries. rewrite list_elem_of_omap. split.
  - intros (x & Hx & Hid). simpl in Hid. subst. by apply list_elem_of_lookup.
  - intros Hp. exists (Some (k, v)). split; [by apply list_elem_of_lookup | done].
Qed.

(** Replacing slot [i] exchanges its content in the entries. *)
Lemma entries_slot t i s :
  t !! i = Some s ->
  exists r, entries t ≡ₚ option_list s ++ r /\
            forall s', entries (<[i := s']> t) ≡ₚ option_list s' ++ r.
Proof.
  intros Hi. exists (entries (take i t) ++ entries (drop (S i) t)).
  assert (Hgen : forall s', entries (take i t ++ s' :: drop (S i) t)
                            ≡ₚ option_list s' ++ entries (take i t) ++ entries (drop (S i) t)).
  { intros s'. unfold entries. rewrite omap_app. cbn [omap list_omap].
    destruct s' as [e|]; simpl; [|done]. by rewrite Permutation_middle. }
  split.
  - rewrite <- (take_drop_middle t i s Hi) at 1. apply Hgen.
  - intros s'. rewrite insert_take_drop by (by eapply lookup_lt_Some). apply Hgen.
Qed.

Lemma entries_length_lt t :
  (length (entries t) < length t)%nat -> exists q, (q < length t)%nat /\ vacant_at t q.
Proof.
  unfold vacant_at. induction t as [|s t IH]; [simpl; lia|].
  destruct s as [e|]; [|by exists O; split; [simpl; lia|]].
  cbn [entries omap list_omap id length]. intros Hlt.
  destruct IH as (q & Hq & Hv); [unfold entries; simpl in *; lia|].
  exists (S q). simpl. split; [lia | done].
Qed.

Lemma NoDup_keys_perm (l1 l2 : list (K * V)) : l1 ≡ₚ l2 -> NoDup l1.*1 -> NoDup l2.*1.
Proof. intros Hp. by rewrite Hp. Qed.

Lemma slots_entry_unique t cap p q k v v' :
  slots_wf t cap -> t !! p = Some (Some (k, v)) -> t !! q = Some (Some (k, v')) -> p = q.
Proof.
  intros (_ & _ & Hnd) Hp Hq. destruct (decide (p = q)) as [|Hne]; [done|exfalso].
  destruct (entries_slot t p _ Hp) as (r & Hr & Hins).
  apply NoDup_keys_perm with (l2 := (k, v) :: r) in Hnd; [|done].
  cbn in Hnd. apply NoDup_cons in Hnd as [Hnin _]. apply Hnin.
  assert (Hin : (k, v') ∈ entries (<[p := None]> t)).
  { apply elem_of_entries. exists q. by rewrite list_lookup_insert_ne. }
  rewrite Hins in Hin. simpl in Hin. apply list_elem_of_fmap. by exists (k, v').
Qed.

(** *** Probing *)

(** What a probe that has already passed [d] slots from [h] can answer. *)
Definition probe_post t (cap h d : nat) k (r : outcome probe_result) : Prop :=
  match r with
  | Ret (Found i v) => t !! i = Some (Some (k, v))
  | Ret (Vacant i) =>
      (i < cap)%nat /\ vacant_at t i /\
      forall q, (q < cap)%nat -> (d <= off cap h q < off cap h i)%nat ->
        exists e, t !! q = Some (Some e) /\ e.1 <> k
  | Diverge => forall q, (q < cap)%nat -> (d <= off cap h q)%nat ->
        exists e, t !! q = Some (Some e) /\ e.1 <> k
  | Ub => False
  end.

Lemma probe_spec fuel t cap k h d ii :
  length t = cap -> (h < cap)%nat -> (d + fuel = cap)%nat -> (ii <= cap)%nat ->
  (fuel <> O -> off cap h (norm cap ii) = d) ->
  probe_post t cap h d k (probe fuel t cap k ii).
Proof.
  intros Hlen Hh. revert d ii; induction fuel as [|fuel IH]; intros d ii Hd Hii Hoff.
  - simpl. intros q Hq Hge. pose proof (off_lt cap h q Hh Hq). lia.
  - specialize (Hoff ltac:(lia)). cbn [probe]. set (jj := norm cap ii) in *.
    assert (Hjj : (jj < cap)%nat) by (apply norm_lt; lia).
    destruct (lookup_lt_is_Some_2 t jj) as [s Hs]; [lia|]. rewrite Hs.
    destruct s as [[k' v]|].
    + destruct (decide (k' = k)) as [->|Hne]; [done|].
      assert (Hhere : forall q, (q < cap)%nat -> off cap h q = d ->
                exists e, t !! q = Some (Some e) /\ e.1 <> k).
      { intros q Hq Heq. assert (q = jj) as -> by (apply (off_inj cap h); lia).
        exists (k', v). done. }
      specialize (IH (S d) (S jj) ltac:(lia) ltac:(lia)).
      assert (Hpost : probe_post t cap h (S d) k (probe fuel t cap k (S jj))).
      { apply IH. intros Hf. rewrite off_next by lia. by rewrite Hoff. }
      destruct (probe fuel t cap k (S jj)) as [[i v'|i]| |]; simpl in *; [done| |done|].
      * destruct Hpost as (Hi & Hv & Hq). split_and!; [done..|].
        intros q Hql Hr. destruct (decide (off cap h q = d)); [by apply Hhere|].
        apply Hq; lia.
      * intros q Hql Hr. destruct (decide (off cap h q = d)); [by apply Hhere|].
        apply Hpost; lia.
    + simpl. split_and!; [done..|]. intros q Hq Hr. lia.
Qed.

Lemma probe_home t cap k :
  length t = cap -> (0 < cap)%nat ->
  probe_post t cap (home cap k) 0 k (probe cap t cap k (home cap k)).
Proof.
  intros Hl Hc. pose proof (home_lt cap k Hc). apply probe_spec; [done|done|lia|lia|].
  intros _. rewrite norm_id by lia. apply off_self.
Qed.

(** The answer of a probe on a well-formed table with a vacant slot. *)
Lemma probe_wf t cap k :
  slots_wf t cap -> (length (entries t) < cap)%nat ->
  (exists i v, probe cap t cap k (home cap k) = Ret (Found i v) /\
               t !! i = Some (Some (k, v))) \/
  (exists i, probe cap t cap k (home cap k) = Ret (Vacant i) /\ vacant_at t i /\
             (i < cap)%nat /\ (k ∉ (entries t).*1) /\
             forall q, (q < cap)%nat ->
               (off cap (home cap k) q < off cap (home cap k) i)%nat -> valid_at t q).
Proof.
  intros (Hlen & Hpath & Hnd) Hroom.
  pose proof (probe_home t cap k Hlen ltac:(lia)) as Hpost.
  destruct (probe cap t cap k (home cap k)) as [[i v|i]| |] eqn:E; simpl in Hpost; [| |done|].
  - left. eauto.
  - right. destruct Hpost as (Hi & Hv & Hq). exists i. split_and!; try done.
    + intros Hin. apply list_elem_of_fmap in Hin as ([k' v] & -> & Hin).
      apply elem_of_entries in Hin as [p Hp]. simpl in *.
      assert (Hpl : (p < cap)%nat) by (apply lookup_lt_Some in Hp; lia).
      destruct (decide (off cap (home cap k') p < off cap (home cap k') i)%nat).
      * destruct (Hq p Hpl) as (e & He & Hne); [lia|]. rewrite Hp in He.
        injection He as <-. done.
      * assert (p <> i) by (intros ->; unfold vacant_at in Hv; congruence).
        assert (off cap (home cap k') p <> off cap (home cap k') i).
        { intros Heq. apply off_inj in Heq; [done | apply home_lt; lia | done | done]. }
        destruct (Hpath _ _ _ i Hp Hi) as [e He]; [lia|].
        unfold vacant_at in Hv. congruence.
    + intros q Hql Hlt. destruct (Hq q Hql) as (e & He & _); [lia|]. by exists e.
  - exfalso. destruct (entries_length_lt t) as (q & Hq & Hv); [lia|].
    destruct (Hpost q) as (e & He & _); [lia|lia|]. unfold vacant_at in Hv. congruence.
Qed.

(** *** Insertion into a vacant slot of the key's probe path *)
Lemma insert_vacant_wf t cap k v i :
  slots_wf t cap -> vacant_at t i -> (i < cap)%nat -> k ∉ (entries t).*1 ->
  (forall q, (q < cap)%nat ->
     (off cap (home cap k) q < off cap (home cap k) i)%nat -> valid_at t q) ->
  slots_wf (<[i := Some (k, v)]> t) cap /\
  entries (<[i := Some (k, v)]> t) ≡ₚ (k, v) :: entries t.
Proof.
  intros (Hlen & Hpath & Hnd) Hv Hi Hnin Hq.
  destruct (entries_slot t i _ Hv) as (r & Hr & Hins).
  assert (Hperm : entries (<[i := Some (k, v)]> t) ≡ₚ (k, v) :: entries t).
  { rewrite Hins, Hr. done. }
  assert (Hkeep : forall q, valid_at t q -> valid_at (<[i := Some (k, v)]> t) q).
  { intros q [e He]. destruct (decide (q = i)) as [->|].
    - exists (k, v). apply list_lookup_insert_eq. lia.
    - exists e. by rewrite list_lookup_insert_ne. }
  split; [|done]. split_and!.
  - by rewrite length_insert.
  - intros p k' v' q Hp Hql Hlt.
    apply list_lookup_insert_Some in Hp as [(<- & [= -> ->] & _)|(Hne & Hp)].
    + apply Hkeep, Hq; done.
    + apply Hkeep. by eapply Hpath.
  - eapply NoDup_keys_perm; [symmetry; exact Hperm|]. cbn. by apply NoDup_cons.
Qed.

Lemma replace_wf t cap k v0 v i :
  slots_wf t cap -> t !! i = Some (Some (k, v0)) ->
  slots_wf (<[i := Some (k, v)]> t) cap /\
  exists r, entries t ≡ₚ (k, v0) :: r /\ entries (<[i := Some (k, v)]> t) ≡ₚ (k, v) :: r.
Proof.
  intros (Hlen & Hpath & Hnd) Hi. pose proof (lookup_lt_Some _ _ _ Hi) as Hil.
  destruct (entries_slot t i _ Hi) as (r & Hr & Hins).
  split; [split_and!|].
  - by rewrite length_insert.
  - intros p k' v' q Hp Hql Hlt.
    assert (Hval : valid_at t q).
    { apply list_lookup_insert_Some in Hp as [(<- & [= -> ->] & _)|(Hne & Hp)];
        by eapply Hpath. }
    destruct Hval as [e He]. destruct (decide (q = i)) as [->|].
    + exists (k, v). by apply list_lookup_insert_eq.
    + exists e. by rewrite list_lookup_insert_ne.
  - apply NoDup_keys_perm with (l1 := (k, v) :: r).
    { symmetry. apply (Hins (Some (k, v))). }
    apply (NoDup_keys_perm _ ((k, v0) :: r)) in Hnd; [|done]. done.
  - exists r. split; [done | apply (Hins (Some (k, v)))].
Qed.

(** *** Removal *)

(** [reconsider] finds the only vacant slot on the element's path, if any. *)
Lemma reconsider_spec fuel t cap ii h d jj target :
  length t = cap -> (h < cap)%nat -> (ii < cap)%nat -> (jj <= cap)%nat ->
  off cap h (norm cap jj) = d -> (d <= off cap h target)%nat ->
  (off cap h target < d + fuel)%nat -> (target < cap)%nat ->
  (forall q, (q < cap)%nat -> (d <= off cap h q < off cap h target)%nat ->
     valid_at t q /\ q <> ii) ->
  target = ii \/ (vacant_at t target /\ target <> ii) ->
  reconsider fuel t cap ii jj = Ret (if (target =? ii)%nat then None else Some target).
Proof.
  intros Hlen Hh Hii. revert d jj; induction fuel as [|fuel IH];
    intros d jj Hjj Hoff Hd Hfuel Ht Hpath Htgt; [lia|].
  cbn [reconsider]. set (x := norm cap jj) in *.
  assert (Hx : (x < cap)%nat) by (apply norm_lt; lia).
  destruct (decide (x = target)) as [->|Hne].
  - destruct Htgt as [->|[Hv Hn]]; [by rewrite Nat.eqb_refl|].
    destruct (Nat.eqb_spec target ii); [done|]. unfold vacant_at in Hv. by rewrite Hv.
  - assert (off cap h x <> off cap h target) by (intros E; apply off_inj in E; done).
    destruct (Hpath x Hx) as [[e He] Hxi]; [lia|].
    destruct (Nat.eqb_spec x ii); [done|]. rewrite He.
    apply (IH (S d)); [lia | | lia | lia | done | | done].
    + rewrite off_next; [by rewrite Hoff | done | done |].
      pose proof (off_lt cap h target Hh Ht). lia.
    + intros q Hq Hr. apply Hpath; [done | lia].
Qed.

(** State of the scan: [g] is the gap left behind, [ii] the next slot to
    reconsider, [stop] the vacant slot that ends the scan.  Only elements not
    yet reconsidered may have the gap on their path. *)
Definition scan_inv t (cap g ii stop : nat) : Prop :=
  length t = cap /\ (g < cap)%nat /\ (ii < cap)%nat /\ (stop < cap)%nat /\ g <> stop /\
  vacant_at t g /\ vacant_at t stop /\
  (forall q, (q < cap)%nat -> (off cap ii q < off cap ii stop)%nat -> valid_at t q) /\
  (forall p k v q, t !! p = Some (Some (k, v)) -> (q < cap)%nat ->
     (off cap (home cap k) q < off cap (home cap k) p)%nat -> vacant_at t q ->
     q = g /\ (off cap ii p < off cap ii stop)%nat).

Lemma valid_not_vacant t q : valid_at t q -> vacant_at t q -> False.
Proof. intros [e He] Hv. unfold vacant_at in Hv. congruence. Qed.

Lemma valid_or_vacant t q : (q < length t)%nat -> valid_at t q \/ vacant_at t q.
Proof.
  intros Hq. destruct (lookup_lt_is_Some_2 t q Hq) as [[e|] Hs]; [left; by exists e | by right].
Qed.

(** An element that stays: the scan moves on with the same gap. *)
Lemma scan_stay t cap g ii stop k v :
  scan_inv t cap g ii stop -> t !! ii = Some (Some (k, v)) ->
  (off cap (home cap k) ii <= off cap (home cap k) g)%nat ->
  scan_inv t cap g (norm cap (S ii)) stop.
Proof.
  intros (Hlen & Hg & Hii & Hst & Hgs & Hvg & Hvs & Hrun & Hpath) Hk Hge.
  assert (Hne : ii <> stop) by (intros ->; unfold vacant_at in Hvs; congruence).
  pose proof (off_step cap ii stop Hii Hst Hne) as Hstep.
  assert (Hii' : (norm cap (S ii) < cap)%nat) by (apply norm_lt; lia).
  split_and!; try done.
  - intros q Hq Hlt. apply Hrun; [done|].
    destruct (decide (ii = q)) as [->|Hq']; [rewrite off_self; lia|].
    rewrite (off_step cap ii q) by done. lia.
  - intros p k' v' q Hp Hq Hlt Hv.
    destruct (Hpath p k' v' q Hp Hq Hlt Hv) as [-> Hin]. split; [done|].
    destruct (decide (ii = p)) as [<-|Hp'].
    + rewrite Hk in Hp. injection Hp as -> ->. lia.
    + assert (p < cap)%nat by (apply lookup_lt_Some in Hp; lia).
      rewrite (off_step cap ii p) in Hin by done. lia.
Qed.

(** The table after the element at [ii] moved into the gap at [g]. *)
Lemma move_lookup t g ii k v :
  (g < length t)%nat -> (ii < length t)%nat -> g <> ii ->
  let t' := <[ii := None]> (<[g := Some (k, v)]> t) in
  (forall q, q <> ii -> q <> g -> t' !! q = t !! q) /\
  t' !! g = Some (Some (k, v)) /\ t' !! ii = Some None /\
  (forall q, vacant_at t' q -> q = ii \/ (vacant_at t q /\ q <> g /\ q <> ii)).
Proof.
  intros Hg Hi Hne t'.
  assert (Hlk : forall q, q <> ii -> q <> g -> t' !! q = t !! q).
  { intros q H1 H2. unfold t'. by rewrite !list_lookup_insert_ne by done. }
  assert (Hlg : t' !! g = Some (Some (k, v))).
  { unfold t'. rewrite list_lookup_insert_ne by done. by apply list_lookup_insert_eq. }
  split_and!; try done.
  - apply list_lookup_insert_eq. by rewrite length_insert.
  - intros q Hv. unfold vacant_at in *. destruct (decide (q = ii)); [by left|right].
    destruct (decide (q = g)) as [->|]; [congruence|]. by rewrite Hlk in Hv.
Qed.

(** An element that moves into the gap: its old slot is the new gap. *)
Lemma scan_move t cap g ii stop k v :
  (0 < cap)%nat ->
  scan_inv t cap g ii stop -> t !! ii = Some (Some (k, v)) ->
  (off cap (home cap k) g < off cap (home cap k) ii)%nat ->
  scan_inv (<[ii := None]> (<[g := Some (k, v)]> t)) cap ii (norm cap (S ii)) stop.
Proof.
  intros Hc (Hlen & Hg & Hii & Hst & Hgs & Hvg & Hvs & Hrun & Hpath) Hk Hlt.
  assert (Hne : ii <> stop) by (intros ->; unfold vacant_at in Hvs; congruence).
  assert (Hgi : g <> ii) by (intros ->; lia).
  pose proof (off_step cap ii stop Hii Hst Hne) as Hstep.
  destruct (move_lookup t g ii k v) as (Hlk & Hlg & Hli & Hvac); [lia|lia|done|].
  split_and!; try done.
  - by rewrite !length_insert.
  - apply norm_lt; lia.
  - unfold vacant_at. by rewrite Hlk by done.
  - intros q Hq Hoff. destruct (decide (ii = q)) as [->|Hq'].
    { exfalso. revert Hoff. cyc. }
    destruct (decide (q = g)) as [->|Hq'']; [by exists (k, v)|].
    destruct (Hrun q Hq) as [e He].
    { rewrite (off_step cap ii q) by done. lia. }
    exists e. by rewrite Hlk.
  - intros p k' v' q Hp Hq Hoff Hv.
    assert (Hpl : (p < cap)%nat).
    { apply lookup_lt_Some in Hp. rewrite !length_insert in Hp. lia. }
    assert (Hpi : p <> ii) by congruence.
    destruct (Hvac q Hv) as [->|(Hv' & Hqg & Hqi)].
    + split; [done|]. destruct (decide (p = g)) as [->|Hpg].
      * rewrite Hlg in Hp. injection Hp as <- <-. lia.
      * rewrite Hlk in Hp by done.
        assert (Hns : ~ (off cap (home cap k') stop < off cap (home cap k') p)%nat).
        { intros Hs. destruct (Hpath p k' v' stop Hp Hst Hs Hvs) as [? _]. congruence. }
        assert (Hps : p <> stop) by (intros ->; unfold vacant_at in Hvs; congruence).
        pose proof (home_lt cap k' Hc). clear - Hii Hst Hne Hoff Hpl Hpi Hns Hps H0. cyc.
    + exfalso. destruct (decide (p = g)) as [->|Hpg].
      * rewrite Hlg in Hp. injection Hp as <- <-.
        destruct (Hpath ii k v q Hk Hq) as [? _]; [lia | done | congruence].
      * rewrite Hlk in Hp by done.
        destruct (Hpath p k' v' q Hp Hq Hoff Hv') as [? _]. congruence.
Qed.

(** The choice [reconsider] makes for the slot under the scan. *)
Lemma scan_reconsider t cap g ii stop k v :
  (0 < cap)%nat -> scan_inv t cap g ii stop -> t !! ii = Some (Some (k, v)) ->
  reconsider cap t cap ii (home cap k) =
  Ret (if decide (off cap (home cap k) g < off cap (home cap k) ii)%nat then Some g else None).
Proof.
  intros Hc (Hlen & Hg & Hii & Hst & Hgs & Hvg & Hvs & Hrun & Hpath) Hk.
  pose proof (home_lt cap k Hc) as Hh.
  assert (Hgi : g <> ii) by (intros ->; unfold vacant_at in Hvg; congruence).
  assert (Hok : forall q, (q < cap)%nat ->
     (off cap (home cap k) q < off cap (home cap k) ii)%nat -> q <> g -> valid_at t q).
  { intros q Hq Hlt Hqg. destruct (valid_or_vacant t q) as [|Hv]; [lia|done|].
    destruct (Hpath ii k v q Hk Hq Hlt Hv). congruence. }
  pose proof (off_lt cap (home cap k) ii Hh Hii).
  case_decide as Hcase.
  - rewrite (reconsider_spec cap t cap ii (home cap k) 0 (home cap k) g);
      try done; try lia.
    + by destruct (Nat.eqb_spec g ii).
    + rewrite norm_id, off_self by lia. done.
    + intros q Hq Hr. split; [|intros ->; lia]. apply Hok; [done|lia|intros ->; lia].
    + by right.
  - rewrite (reconsider_spec cap t cap ii (home cap k) 0 (home cap k) ii);
      try done; try lia.
    + by rewrite Nat.eqb_refl.
    + rewrite norm_id, off_self by lia. done.
    + intros q Hq Hr. split; [|intros ->; lia]. apply Hok; [done|lia|intros ->; lia].
Qed.

Lemma entries_move t g ii e :
  vacant_at t g -> t !! ii = Some (Some e) ->
  entries (<[ii := None]> (<[g := Some e]> t)) ≡ₚ entries t.
Proof.
  intros Hg Hi. assert (g <> ii) by (intros ->; unfold vacant_at in Hg; congruence).
  destruct (entries_slot t g _ Hg) as (r & Hr & Hins).
  destruct (entries_slot (<[g := Some e]> t) ii (Some e)) as (r' & Hr' & Hins').
  { by rewrite list_lookup_insert_ne. }
  rewrite (Hins' None), Hr. simpl. rewrite (Hins (Some e)) in Hr'. simpl in Hr'.
  apply Permutation_cons_inv in Hr'. by rewrite Hr'.
Qed.

Lemma compact_spec fuel t cap g ii stop :
  (0 < cap)%nat -> scan_inv t cap g ii stop -> (off cap ii stop < fuel)%nat ->
  exists t', compact fuel t cap ii = Ret t' /\ length t' = cap /\ path_inv t' cap /\
             entries t' ≡ₚ entries t.
Proof.
  intros Hc. revert t g ii; induction fuel as [|fuel IH]; intros t g ii Hinv Hf; [lia|].
  assert (Hinv' := Hinv).
  destruct Hinv' as (Hlen & Hg & Hii & Hst & Hgs & Hvg & Hvs & Hrun & Hpath).
  cbn [compact]. rewrite norm_id by done.
  destruct (decide (ii = stop)) as [->|Hne].
  - unfold vacant_at in Hvs. rewrite Hvs. exists t. split_and!; [done|done| |done].
    intros p k v q Hp Hq Hlt. destruct (valid_or_vacant t q) as [|Hv]; [lia|done|].
    destruct (Hpath p k v q Hp Hq Hlt Hv) as [_ Hx]. rewrite off_self in Hx. lia.
  - pose proof (off_step cap ii stop Hii Hst Hne) as Hstep.
    assert (off cap ii stop <> O).
    { intros E. rewrite <- (off_self cap ii) in E. apply off_inj in E; done. }
    destruct (Hrun ii Hii) as [[k v] Hk]; [rewrite off_self; lia|]. rewrite Hk. cbn [fst].
    rewrite (scan_reconsider _ _ _ _ _ _ _ Hc Hinv Hk), bind_Ret.
    assert (Hnorm : forall tt : list (option (K * V)), compact fuel tt cap (S ii) = compact fuel tt cap (norm cap (S ii))).
    { intros tt. destruct fuel; [done|]. cbn [compact].
      by rewrite (norm_id cap (norm cap (S ii))) by (apply norm_lt; lia). }
    case_decide as Hcase; rewrite Hnorm.
    + destruct (IH (<[ii:=None]> (<[g:=Some (k, v)]> t)) ii (norm cap (S ii)))
        as (t' & Ht & Hl & Hp & He); [by apply scan_move | lia |].
      exists t'. split_and!; [done..|]. rewrite He. by apply entries_move.
    + apply (IH t g); [eapply scan_stay; [done|done|lia] | lia].
Qed.

(** *** Growth *)
Lemma place_probe fuel t cap k v ii :
  k ∉ (entries t).*1 ->
  place fuel t cap (k, v) ii =
  match probe fuel t cap k ii with
  | Ret (Vacant i) => Ret (<[i := Some (k, v)]> t)
  | Ret (Found _ _) => Ub
  | Ub => Ub
  | Diverge => Diverge
  end.
Proof.
  intros Hnin. revert ii; induction fuel as [|fuel IH]; intros ii; [done|].
  cbn [place probe]. destruct (t !! norm cap ii) as [[[k' v']|]|] eqn:E; [|done|done].
  destruct (decide (k' = k)) as [->|]; [|apply IH]. exfalso. apply Hnin.
  apply list_elem_of_fmap. exists (k, v'). split; [done|]. apply elem_of_entries. eauto.
Qed.

Lemma place_spec t cap k v :
  slots_wf t cap -> (length (entries t) < cap)%nat -> k ∉ (entries t).*1 ->
  exists t', place cap t cap (k, v) (home cap k) = Ret t' /\ slots_wf t' cap /\
             entries t' ≡ₚ (k, v) :: entries t.
Proof.
  intros Hwf Hroom Hnin. rewrite place_probe by done.
  destruct (probe_wf t cap k Hwf Hroom) as [(i & v' & -> & Hi)|(i & -> & Hv & Hi & _ & Hq)].
  - exfalso. apply Hnin, list_elem_of_fmap. exists (k, v').
    split; [done|]. apply elem_of_entries. eauto.
  - eexists; split; [done|]. by apply insert_vacant_wf.
Qed.

Lemma rehash_spec old t cap :
  slots_wf t cap -> (length (entries old) + length (entries t) <= cap)%nat ->
  NoDup (entries old ++ entries t).*1 ->
  exists t', rehash_into old t cap = Ret t' /\ slots_wf t' cap /\
             entries t' ≡ₚ entries old ++ entries t.
Proof.
  revert t; induction old as [|[[k v]|] old IH]; intros t Hwf Hroom Hnd.
  - exists t. done.
  - change (entries (Some (k, v) :: old)) with ((k, v) :: entries old) in *.
    cbn in Hnd. apply NoDup_cons in Hnd as [Hnin Hnd].
    rewrite fmap_app, elem_of_app in Hnin. apply Decidable.not_or in Hnin as [Hn1 Hn2].
    destruct (place_spec t cap k v) as (t1 & Ht1 & Hwf1 & He1); [done|simpl in *; lia|done|].
    assert (Hp1 : entries old ++ entries t1 ≡ₚ (k, v) :: entries old ++ entries t).
    { rewrite He1. symmetry. apply Permutation_middle. }
    destruct (IH t1 Hwf1) as (t' & Ht' & Hwf' & He').
    + apply Permutation_length in He1. simpl in *. lia.
    + eapply NoDup_keys_perm; [symmetry; exact Hp1|]. cbn. apply NoDup_cons. split; [|done].
      rewrite fmap_app, elem_of_app. tauto.
    + exists t'. cbn [rehash_into fst]. rewrite Ht1, bind_Ret. split_and!; [done..|].
      by rewrite He', Hp1.
  - apply IH; done.
Qed.

Lemma empty_slots_wf (n : nat) :
  slots_wf (replicate n (None : option (K * V))) n /\
  entries (replicate n (None : option (K * V))) = [].
Proof.
  assert (He : entries (replicate n (None : option (K * V))) = []).
  { induction n as [|n IH]; [done|]. exact IH. }
  split; [|done]. split_and!; [apply length_replicate| |rewrite He; apply NoDup_nil_2].
  intros p k v q Hp. apply lookup_replicate in Hp as [? _]. done.
Qed.

Lemma round_capacity_up_spec c :
  0 <= c -> c + 30 < 2 ^ 64 ->
  c < opal_hash_round_capacity_up c <= c + 30 /\ opal_hash_round_capacity_up c mod 30 = 1.
Proof.
  intros H0 H1. unfold opal_hash_round_capacity_up. rewrite (u64_small (c + 29)) by lia.
  pose proof (Z.div_mod (c + 29) 30). pose proof (Z.mod_pos_bound (c + 29) 30).
  rewrite u64_small by lia. split; [lia|].
  rewrite Z.add_comm, Z.mod_add by lia. done.
Qed.

Lemma grow_spec (calloc_ok : Z -> bool) (ht : opal_hash_table_t K V) :
  slots_wf (ht_table ht) (Z.to_nat (ht_capacity ht)) ->
  0 < ht_capacity ht -> 2 * ht_capacity ht + 30 < 2 ^ 64 ->
  ht_size ht = Z.of_nat (length (entries (ht_table ht))) -> ht_size ht <= ht_capacity ht ->
  ht_density_numer ht = 1 -> ht_density_denom ht = 2 ->
  ht_growth_numer ht = 2 -> ht_growth_denom ht = 1 ->
  let cap' := opal_hash_round_capacity_up (2 * ht_capacity ht) in
  if calloc_ok cap' then
    exists ht', opal_hash_grow calloc_ok ht = Ret (OPAL_SUCCESS, ht') /\ ht_wf ht' /\
                entries (ht_table ht') ≡ₚ entries (ht_table ht) /\
                ht_capacity ht' = cap' /\ ht_type_methods ht' = ht_type_methods ht
  else opal_hash_grow calloc_ok ht = Ret (OPAL_ERR_OUT_OF_RESOURCE, ht).
Proof.
  intros Hwf Hpos Hbig Hsize Hle E1 E2 E3 E4 cap'. unfold opal_hash_grow.
  rewrite E1, E2, E3, E4. change (u64 1) with 1. change (u64 2) with 2.
  change (1 =? 0) with false. change (2 =? 0) with false. cbv iota.
  rewrite (u64_small (ht_capacity ht * 2)), Z.div_1_r by lia.
  rewrite (Z.mul_comm (ht_capacity ht) 2). fold cap'.
  destruct (round_capacity_up_spec (2 * ht_capacity ht)) as [Hc' _]; [lia..|].
  fold cap' in Hc'. destruct (calloc_ok cap'); [|done]. cbn [negb].
  destruct (empty_slots_wf (Z.to_nat cap')) as [Hewf He].
  destruct (rehash_spec (ht_table ht) _ _ Hewf) as (t & Ht & Hwf' & Hent).
  { rewrite He. simpl. lia. }
  { rewrite He, app_nil_r. by destruct Hwf as (_ & _ & ?). }
  rewrite Ht, bind_Ret. rewrite He, app_nil_r in Hent.
  eexists; split; [done|]. unfold ht_wf; cbn.
  rewrite Z.mul_1_r, u64_small by lia.
  split_and!; try done; try lia. by rewrite Hent.
Qed.

(** *** The operations refine finite maps *)
Lemma ht_map_perm (ht : opal_hash_table_t K V) (l : list (K * V)) :
  NoDup (entries (ht_table ht)).*1 -> entries (ht_table ht) ≡ₚ l -> ht_map ht = list_to_map l.
Proof. intros Hnd Hp. by apply list_to_map_proper. Qed.

Lemma ht_map_lookup (ht : opal_hash_table_t K V) k v :
  ht_wf ht -> ht_map ht !! k = Some v <-> exists p, ht_table ht !! p = Some (Some (k, v)).
Proof.
  intros ((_ & _ & Hnd) & _). rewrite <- elem_of_entries. symmetry.
  by apply elem_of_list_to_map.
Qed.

Lemma ht_map_None (ht : opal_hash_table_t K V) k :
  k ∉ (entries (ht_table ht)).*1 -> ht_map ht !! k = None.
Proof. apply not_elem_of_list_to_map_1. Qed.

Lemma ht_size_map (ht : opal_hash_table_t K V) :
  ht_wf ht -> ht_size ht = Z.of_nat (size (ht_map ht)).
Proof.
  intros ((_ & _ & Hnd) & Hs & _). rewrite Hs. f_equal. unfold ht_map.
  rewrite <- (map_size_list_to_map _ Hnd). done.
Qed.

Lemma lookup_slot_wf (ht : opal_hash_table_t K V) k :
  ht_wf ht ->
  (exists i v, lookup_slot ht k = Ret (Found i v) /\ ht_table ht !! i = Some (Some (k, v))) \/
  (exists i, lookup_slot ht k = Ret (Vacant i) /\ vacant_at (ht_table ht) i /\
             (i < Z.to_nat (ht_capacity ht))%nat /\ (k ∉ (entries (ht_table ht)).*1) /\
             forall q, (q < Z.to_nat (ht_capacity ht))%nat ->
               (off (Z.to_nat (ht_capacity ht)) (home (Z.to_nat (ht_capacity ht)) k) q <
                off (Z.to_nat (ht_capacity ht)) (home (Z.to_nat (ht_capacity ht)) k) i)%nat ->
               valid_at (ht_table ht) q).
Proof.
  intros (Hwf & Hs & Hlt & _). unfold lookup_slot.
  destruct (Z.eqb_spec (ht_capacity ht) 0); [lia|]. apply probe_wf; [done|]. lia.
Qed.

(** The table after an operation recorded the key type in it. *)
Definition touch (ht : opal_hash_table_t K V) : opal_hash_table_t K V :=
  with_slots ht (ht_table ht) (ht_size ht) true.

Lemma touch_wf ht : ht_wf ht -> ht_wf (touch ht).
Proof. done. Qed.

Lemma get_value_spec ht k :
  ht_wf ht ->
  get_value ht k =
  Ret (match ht_map ht !! k with Some _ => OPAL_SUCCESS | None => OPAL_ERR_NOT_FOUND end,
       ht_map ht !! k, touch ht).
Proof.
  intros Hwf. unfold get_value. fold (touch ht).
  destruct (lookup_slot_wf (touch ht) k (touch_wf _ Hwf))
    as [(i & v & -> & Hi)|(i & -> & Hv & Hi & Hnin & _)]; rewrite bind_Ret.
  - assert (ht_map ht !! k = Some v) as -> by (apply ht_map_lookup; eauto). done.
  - by rewrite (ht_map_None ht k).
Qed.

Lemma with_slots_wf ht t n ty :
  ht_wf ht -> slots_wf t (Z.to_nat (ht_capacity ht)) ->
  n = Z.of_nat (length (entries t)) -> n < ht_capacity ht -> ht_wf (with_slots ht t n ty).
Proof.
  intros (_ & _ & _ & Hc & E1 & E2 & E3 & E4 & E5) Hs Hn Hlt. unfold ht_wf; cbn.
  split_and!; try done; lia.
Qed.

Lemma half_bounds c : 2 * (c / 2) <= c <= 2 * (c / 2) + 1.
Proof. pose proof (Z.div_mod c 2). pose proof (Z.mod_pos_bound c 2). lia. Qed.

(** What [set_value] promises of its result table. *)
Definition set_post (calloc_ok : Z -> bool) ht k v (rc : Z) (ht' : opal_hash_table_t K V) : Prop :=
  ht_wf ht' /\ ht_map ht' = <[k := v]> (ht_map ht) /\
  (rc = OPAL_SUCCESS \/ (rc = OPAL_ERR_OUT_OF_RESOURCE /\ exists c, calloc_ok c = false)) /\
  ht_capacity ht' <= Z.max (ht_capacity ht) (4 * ht_size ht' + 32) /\
  ht_size ht' <= ht_size ht + 1.

Lemma set_value_replace calloc_ok ht k v v0 i :
  ht_wf ht -> ht_table ht !! i = Some (Some (k, v0)) ->
  set_post calloc_ok ht k v OPAL_SUCCESS
    (with_slots ht (<[i := Some (k, v)]> (ht_table ht)) (ht_size ht) true).
Proof.
  intros Hwf Hi. assert (Hwf' := Hwf). destruct Hwf' as (Hs & Hsz & Hlt & _).
  destruct (replace_wf (ht_table ht) _ k v0 v i Hs Hi) as (Hw & r & Hr & Hr').
  split; [|split; [|split; [by left|cbn; lia]]].
  - apply with_slots_wf; [done|done| |lia]. rewrite Hsz. by rewrite Hr, Hr'.
  - rewrite (ht_map_perm _ ((k, v) :: r)); [|by destruct Hw as (_ & _ & ?)|done].
    rewrite (ht_map_perm ht ((k, v0) :: r)); [|by destruct Hs as (_ & _ & ?)|done].
    simpl. by rewrite insert_insert_eq.
Qed.

(** Storing the value a key already has changes nothing. *)
Lemma set_value_same calloc_ok ht k v :
  ht_wf ht -> ht_map ht !! k = Some v ->
  set_value calloc_ok ht k v = Ret (OPAL_SUCCESS, touch ht).
Proof.
  intros Hwf Hk. unfold set_value. fold (touch ht).
  destruct (lookup_slot_wf (touch ht) k (touch_wf _ Hwf))
    as [(i & v0 & -> & Hi)|(i & -> & Hv & Hi & Hnin & Hq)]; rewrite bind_Ret.
  - assert (Hv0 : ht_map ht !! k = Some v0) by (apply ht_map_lookup; eauto).
    rewrite Hk in Hv0. injection Hv0 as <-. unfold touch. cbn. do 2 f_equal.
    unfold with_slots. cbn. f_equal. apply list_insert_id. exact Hi.
  - pose proof (ht_map_None ht k Hnin) as Hnone. congruence.
Qed.

(** A table holding the entries of [ht] and a new one. *)
Lemma set_value_new_map ht ht' k v :
  ht_wf ht' -> entries (ht_table ht') ≡ₚ (k, v) :: entries (ht_table ht) ->
  ht_map ht' = <[k := v]> (ht_map ht).
Proof. intros ((_ & _ & Hnd) & _) Hp. by rewrite (ht_map_perm _ _ Hnd Hp). Qed.

Lemma set_value_spec (calloc_ok : Z -> bool) ht k v :
  ht_wf ht -> 2 * ht_capacity ht + 30 < 2 ^ 64 ->
  ht_size ht + 1 < ht_capacity ht \/ (forall c, calloc_ok c = true) ->
  exists rc ht', set_value calloc_ok ht k v = Ret (rc, ht') /\ set_post calloc_ok ht k v rc ht'.
Proof.
  intros Hwf Hbig Hroom. unfold set_value. fold (touch ht).
  assert (Hwf' := Hwf). destruct Hwf' as (Hs & Hsz & Hlt & Hcap & E1 & E2 & E3 & E4 & Htr).
  destruct (lookup_slot_wf (touch ht) k (touch_wf _ Hwf))
    as [(i & v0 & -> & Hi)|(i & -> & Hv & Hi & Hnin & Hq)]; rewrite bind_Ret.
  { eexists _, _; split; [done|]. by apply (set_value_replace calloc_ok ht k v v0 i). }
  destruct (insert_vacant_wf (ht_table ht) _ k v i Hs Hv Hi Hnin Hq) as [Hw He].
  cbn. rewrite (u64_small (ht_size ht + 1)) by lia.
  set (ht1 := with_slots _ _ _ _). pose proof (half_bounds (ht_capacity ht)).
  assert (Hlen : ht_size ht + 1 = Z.of_nat (length (entries (ht_table ht1)))).
  { cbn. rewrite He. cbn [length]. lia. }
  assert (Hwf1 : ht_size ht + 1 < ht_capacity ht -> ht_wf ht1).
  { intros. by apply (with_slots_wf (touch ht)). }
  destruct (Z.leb_spec (ht_growth_trigger ht) (ht_size ht + 1)) as [Hg|Hg].
  - pose proof (grow_spec calloc_ok ht1 Hw) as Hgrow. cbn in Hgrow.
    specialize (Hgrow ltac:(lia) ltac:(lia) Hlen ltac:(lia) E1 E2 E3 E4).
    destruct (round_capacity_up_spec (2 * ht_capacity ht)) as [Hc' _]; [lia..|].
    destruct (calloc_ok _) eqn:Ec.
    + destruct Hgrow as (ht' & -> & Hwf'' & Hent & Hcap' & Hty).
      assert (Hsz' : ht_size ht' = ht_size ht + 1).
      { destruct Hwf'' as (_ & -> & _). rewrite Hent. by rewrite Hlen. }
      eexists _, _; split; [done|].
      split; [done|split; [|split; [by left|]]]; [|rewrite Hcap', Hsz'; lia].
      apply set_value_new_map; [done|]. by rewrite Hent.
    + rewrite Hgrow. destruct Hroom as [Hroom|Hroom]; [|by rewrite Hroom in Ec].
      eexists _, _; split; [done|].
      split; [by apply Hwf1|split; [by apply set_value_new_map; [apply Hwf1|]|]].
      split; [right; split; [done|by eexists] | cbn; lia].
  - eexists _, _; split; [done|].
    split; [apply Hwf1; lia|split; [by apply set_value_new_map; [apply Hwf1; lia|]|]].
    split; [by left | cbn; lia].
Qed.

(** The first vacant slot met when walking on from [i]. *)
Lemma first_vacant_upto t cap i m :
  length t = cap -> (i < cap)%nat -> (m < cap)%nat ->
  (exists e : nat, (e < cap)%nat /\ vacant_at t e /\ i <> e /\
     forall q, (q < cap)%nat -> q <> i -> (off cap i q < off cap i e)%nat -> valid_at t q) \/
  (forall q, (q < cap)%nat -> q <> i -> (off cap i q <= m)%nat -> valid_at t q).
Proof.
  intros Hlen Hi. induction m as [|m IH]; intros Hm.
  - right. intros q Hq Hqi Hle. exfalso. apply Hqi, (off_inj cap i); try done.
    rewrite off_self. lia.
  - destruct IH as [He|Hall]; [lia|by left|].
    set (x := if (i + S m <? cap)%nat then (i + S m)%nat else (i + S m - cap)%nat).
    assert (Hx : (x < cap)%nat /\ off cap i x = S m).
    { unfold x. destruct (Nat.ltb_spec (i + S m) cap); cyc. }
    destruct Hx as [Hx Hox].
    destruct (valid_or_vacant t x) as [Hv|Hv]; [lia| |].
    + right. intros q Hq Hqi Hle. destruct (decide (off cap i q = S m)) as [Hq'|Hq'].
      * assert (q = x) as -> by (apply (off_inj cap i); try done; lia). done.
      * apply Hall; [done|done|lia].
    + left. exists x. split_and!; [done|done| |].
      * intros <-. rewrite off_self in Hox. done.
      * intros q Hq Hqi Hlt. apply Hall; [done|done|lia].
Qed.

Lemma first_vacant t cap i stop :
  length t = cap -> (i < cap)%nat -> (stop < cap)%nat -> vacant_at t stop -> i <> stop ->
  exists e : nat, (e < cap)%nat /\ vacant_at t e /\ i <> e /\
    forall q, (q < cap)%nat -> q <> i -> (off cap i q < off cap i e)%nat -> valid_at t q.
Proof.
  intros Hlen Hi Hst Hv Hne. pose proof (off_lt cap i stop Hi Hst).
  destruct (first_vacant_upto t cap i (off cap i stop) Hlen Hi) as [He|Hall]; [done|done|].
  exfalso. apply (valid_not_vacant t stop); [|done]. apply Hall; [done|congruence|lia].
Qed.

(** Emptying a slot starts the scan at the next one. *)
Lemma scan_start t cap i stop :
  length t = cap -> path_inv t cap -> (i < cap)%nat -> (stop < cap)%nat ->
  vacant_at t stop -> i <> stop ->
  (forall q, (q < cap)%nat -> q <> i -> (off cap i q < off cap i stop)%nat -> valid_at t q) ->
  scan_inv (<[i := None]> t) cap i (norm cap (S i)) stop.
Proof.
  intros Hlen Hpath Hil He Hve Hie Hrun.
  assert (Hkeep : forall q, q <> i -> (<[i := None]> t) !! q = t !! q).
  { intros q Hq. by rewrite list_lookup_insert_ne. }
  split_and!; try done; try lia.
  - by rewrite length_insert.
  - apply norm_lt; lia.
  - apply list_lookup_insert_eq; lia.
  - unfold vacant_at. by rewrite Hkeep.
  - intros q Hq Hoff. assert (q <> i).
    { intros ->. revert Hoff. clear -Hq He Hie Hil Hlen. cyc. }
    destruct (Hrun q Hq) as [x Hx]; [done| |].
    + rewrite (off_step cap i q), (off_step cap i stop) by lia. lia.
    + exists x. by rewrite Hkeep.
  - intros p k' v' q Hp Hq Hoff Hv.
    assert (Hpi : p <> i).
    { intros ->. rewrite list_lookup_insert_eq in Hp by lia. done. }
    rewrite Hkeep in Hp by done.
    assert (Hpl : (p < cap)%nat) by (apply lookup_lt_Some in Hp; lia).
    destruct (Hpath p k' v' q Hp Hq Hoff) as [x Hx].
    destruct (decide (q = i)) as [->|Hqi].
    2: { unfold vacant_at in Hv. rewrite Hkeep in Hv by done. congruence. }
    split; [done|].
    assert (Hns : ~ (off cap (home cap k') stop < off cap (home cap k') p)%nat).
    { intros Hs. destruct (Hpath p k' v' stop Hp He Hs) as [y Hy].
      unfold vacant_at in Hve. congruence. }
    assert (Hpe : p <> stop) by (intros ->; unfold vacant_at in Hve; congruence).
    assert (Hh : (home cap k' < cap)%nat) by (apply home_lt; lia).
    clear -Hil Hlen He Hie Hoff Hpl Hpi Hns Hpe Hh. cyc.
Qed.

(** Clearing a slot and closing the gap keeps all other entries. *)
Lemma remove_entry_spec ht i k v :
  ht_wf ht -> ht_table ht !! i = Some (Some (k, v)) ->
  exists t, compact (Z.to_nat (ht_capacity ht)) (<[i := None]> (ht_table ht))
              (Z.to_nat (ht_capacity ht)) (S i) = Ret t /\
            slots_wf t (Z.to_nat (ht_capacity ht)) /\
            exists r, entries (ht_table ht) ≡ₚ (k, v) :: r /\ entries t ≡ₚ r.
Proof.
  intros ((Hlen & Hpath & Hnd) & Hsz & Hlt & _) Hi.
  set (cap := Z.to_nat (ht_capacity ht)) in *. pose proof (lookup_lt_Some _ _ _ Hi) as Hil.
  destruct (entries_slot _ _ _ Hi) as (r & Hr & Hins). specialize (Hins None).
  destruct (entries_length_lt (ht_table ht)) as (stop & Hst & Hvs); [lia|].
  assert (Hne : i <> stop) by (intros ->; unfold vacant_at in Hvs; congruence).
  destruct (first_vacant (ht_table ht) cap i stop) as (e & He & Hve & Hie & Hrun);
    [done|lia|lia|done|done|].
  destruct (compact_spec cap (<[i := None]> (ht_table ht)) cap i (norm cap (S i)) e)
    as (t & Ht & Htl & Htp & Hte); [lia|apply scan_start; auto; lia| |].
  - pose proof (off_lt cap (norm cap (S i)) e). pose proof (norm_lt cap (S i)). lia.
  - exists t. split.
    { rewrite <- Ht. destruct cap as [|n]; [done|]. cbn [compact].
      by rewrite (norm_id (S n) (norm (S n) (S i))) by (apply norm_lt; lia). }
    split; [|exists r; split; [done|by rewrite Hte, Hins]].
    split_and!; [done..|]. eapply NoDup_keys_perm; [symmetry; rewrite Hte; exact Hins|].
    apply (NoDup_keys_perm _ _ Hr) in Hnd. cbn in Hnd. by apply NoDup_cons in Hnd as [_ ?].
Qed.

Lemma remove_value_spec ht k :
  ht_wf ht ->
  exists ht', remove_value ht k =
    Ret (match ht_map ht !! k with Some _ => OPAL_SUCCESS | None => OPAL_ERR_NOT_FOUND end, ht') /\
    ht_wf ht' /\ ht_map ht' = delete k (ht_map ht) /\
    ht_capacity ht' = ht_capacity ht /\ ht_size ht' <= ht_size ht.
Proof.
  intros Hwf. unfold remove_value. fold (touch ht).
  assert (Hwf' := Hwf). destruct Hwf' as (Hs & Hsz & Hlt & Hcap & _).
  destruct (lookup_slot_wf (touch ht) k (touch_wf _ Hwf))
    as [(i & v & -> & Hi)|(i & -> & Hv & Hi & Hnin & _)]; rewrite bind_Ret.
  2: { rewrite (ht_map_None ht k Hnin). exists (touch ht). split_and!; try done.
       symmetry. apply delete_id. by apply ht_map_None. }
  assert (ht_map ht !! k = Some v) as -> by (apply ht_map_lookup; eauto).
  destruct (remove_entry_spec ht i k v Hwf Hi) as (t & Ht & Hwt & r & Hr & Hr').
  unfold opal_hash_table_remove_elt_at. cbn in *. rewrite Hi, Ht, bind_Ret.
  assert (Hn : length (entries (ht_table ht)) = S (length (entries t))) by (by rewrite Hr, Hr').
  rewrite u64_small by lia.
  eexists; split; [done|]. split; [|split; [|cbn; lia]].
  - apply (with_slots_wf (touch ht)); [done|done|lia|cbn; lia].
  - destruct Hs as (_ & _ & Hnd). rewrite (ht_map_perm ht _ Hnd Hr). simpl.
    rewrite delete_insert_id.
    + apply ht_map_perm; [by destruct Hwt as (_ & _ & ?) | done].
    + apply not_elem_of_list_to_map_1.
      apply (NoDup_keys_perm _ _ Hr) in Hnd. cbn in Hnd. by apply NoDup_cons in Hnd as [? _].
Qed.

Lemma remove_all_spec ht :
  ht_wf ht ->
  ht_wf (opal_hash_table_remove_all ht).2 /\ ht_map (opal_hash_table_remove_all ht).2 = ∅ /\
  (opal_hash_table_remove_all ht).1 = OPAL_SUCCESS.
Proof.
  intros Hwf. assert (Hwf' := Hwf). destruct Hwf' as ((Hlen & _) & Hsz & Hlt & _).
  assert (Hrep : (fun _ : option (K * V) => (None : option (K * V))) <$> ht_table ht =
                 replicate (length (ht_table ht)) None).
  { generalize (ht_table ht). induction l as [|x l IH]; [done|]. simpl. by f_equal. }
  destruct (empty_slots_wf (length (ht_table ht))) as [Hew He].
  unfold opal_hash_table_remove_all, ht_map. cbn [fst snd ht_table with_slots].
  rewrite Hrep, He. split; [|done].
  apply with_slots_wf; [done| |by rewrite He|lia]. by rewrite <- Hlen.
Qed.

Lemma init_spec (calloc_ok : Z -> bool) (n : Z) :
  0 <= n < 2 ^ 62 -> calloc_ok (opal_hash_round_capacity_up (2 * n)) = true ->
  exists ht, opal_hash_table_init calloc_ok (opal_hash_table_construct : opal_hash_table_t K V) n
             = Ret (OPAL_SUCCESS, ht) /\ ht_wf ht /\ ht_map ht = ∅ /\
             ht_capacity ht = opal_hash_round_capacity_up (2 * n) /\ ht_size ht = 0.
Proof.
  intros Hn Hok. unfold opal_hash_table_init, opal_hash_table_init2.
  change (u64 1) with 1. change (u64 2) with 2. change (1 =? 0) with false.
  change (2 =? 0) with false. cbv iota.
  rewrite (u64_small (n * 2)), Z.div_1_r, (Z.mul_comm n 2), Hok by lia.
  destruct (round_capacity_up_spec (2 * n)) as [Hc _]; [lia..|].
  set (c := opal_hash_round_capacity_up (2 * n)) in *.
  destruct (empty_slots_wf (Z.to_nat c)) as [Hew He].
  cbn [negb]. eexists; split; [done|]. unfold ht_wf, ht_map.
  cbn [ht_table ht_capacity ht_size ht_growth_trigger ht_density_numer ht_density_denom
       ht_growth_numer ht_growth_denom opal_hash_table_construct].
  rewrite He, Z.mul_1_r, u64_small by lia. split_and!; try done; cbn; lia.
Qed.

(** *** Traversal *)
(** Where a cursor stands: the first slot it has not visited. *)
Definition cursor (from : nat) : option nat := match from with O => None | S p => Some p end.

(** One call of the iterator from slot [from]. *)
Lemma get_next_key_spec ht from :
  match get_next_key ht (cursor from) with
  | None => entries (drop from (ht_table ht)) = []
  | Some (k, v, ii) =>
    ht_table ht !! ii = Some (Some (k, v)) /\ (from <= ii < length (ht_table ht))%nat /\
    entries (drop from (ht_table ht)) = (k, v) :: entries (drop (S ii) (ht_table ht))
  end.
Proof.
  unfold get_next_key, opal_hash_table_get_next_elt.
  assert (match cursor from with None => O | Some p => S p end = from) as -> by (by destruct from).
  set (l := drop from (ht_table ht)). destruct (find_index _ l) as [i|] eqn:E; cbn.
  - pose proof (find_index_lt _ _ _ E) as Hlt. unfold l in Hlt. rewrite length_drop in Hlt.
    apply find_index_Some in E as (s & Hs & Hval & Hpre).
    apply bool_decide_eq_true in Hval as [[k v] ->].
    assert (Hlk : ht_table ht !! (from + i)%nat = Some (Some (k, v))).
    { unfold l in Hs. by rewrite lookup_drop in Hs. }
    rewrite Hlk. split; [done|]. split; [lia|].
    rewrite <- (take_drop_middle l i _ Hs). unfold entries. rewrite omap_app. cbn.
    replace (omap id (take i l)) with (@nil (K * V)).
    + simpl. f_equal. unfold l. rewrite drop_drop. do 2 f_equal. lia.
    + clear -Hpre. induction Hpre as [|x xs Hx Hxs IHp]; [done|]. cbn.
      destruct x; [by rewrite bool_decide_eq_true_2 in Hx|]. done.
  - apply find_index_None in E. clear -E. unfold entries.
    induction E as [|x xs Hx Hxs IHp]; [done|]. cbn.
    destruct x; [by rewrite bool_decide_eq_true_2 in Hx|]. done.
Qed.

Lemma traverse_spec fuel ht from :
  (length (drop from (ht_table ht)) <= fuel)%nat ->
  traverse fuel ht (cursor from) = entries (drop from (ht_table ht)).
Proof.
  revert from; induction fuel as [|fuel IH]; intros from Hf.
  - destruct (drop from (ht_table ht)); [done | simpl in Hf; lia].
  - cbn [traverse]. pose proof (get_next_key_spec ht from) as Hn.
    destruct (get_next_key ht (cursor from)) as [[[k v] ii]|]; [|done].
    destruct Hn as (_ & Hii & ->). rewrite length_drop in Hf.
    change (Some ii) with (cursor (S ii)). rewrite IH; [done|]. rewrite length_drop. lia.
Qed.

Lemma in_entries_map ht k v : ht_wf ht -> (k, v) ∈ entries (ht_table ht) <-> ht_map ht !! k = Some v.
Proof. intros ((_ & _ & Hnd) & _). by apply elem_of_list_to_map. Qed.

(** Room for [n] insertions. *)
Definition ht_room (n : Z) (ht : opal_hash_table_t K V) : Prop :=
  ht_size ht <= n /\ ht_capacity ht <= 4 * n + 4096 /\ n < 2 ^ 60.

Lemma set_value_ok calloc_ok ht k v n :
  (forall c, calloc_ok c = true) -> ht_wf ht -> ht_room n ht -> n + 1 < 2 ^ 60 ->
  exists ht', set_value calloc_ok ht k v = Ret (OPAL_SUCCESS, ht') /\
    ht_wf ht' /\ ht_map ht' = <[k := v]> (ht_map ht) /\ ht_room (n + 1) ht'.
Proof.
  intros Hok Hwf (Hs & Hc & Hn) Hn1.
  destruct (set_value_spec calloc_ok ht k v Hwf) as (rc & ht' & E & Hw & Hm & Hrc & Hcap & Hsz);
    [lia|by right|].
  exists ht'. split; [|unfold ht_room; split_and!; [done|done|lia|lia|lia]].
  destruct Hrc as [->|(_ & c & Hc')]; [done|]. by rewrite Hok in Hc'.
Qed.
End Invariant.

(** ** Sequences of operations against the abstract map *)
Section Simulation.
Context {K V : Type} `{HashKey K} `{!Countable K}.

Inductive ht_op : Type :=
| OpGet (k : K) | OpSet (k : K) (v : V) | OpRemove (k : K) | OpRemoveAll | OpSize.

Inductive ht_result : Type :=
| RValue (rc : Z) (v : option V) | RCode (rc : Z) | RSize (n : Z).

Definition run_op (calloc_ok : Z -> bool) (ht : opal_hash_table_t K V) (o : ht_op)
    : outcome (ht_result * opal_hash_table_t K V) :=
  match o with
  | OpGet k => '(rc, v, ht') ← get_value ht k; Ret (RValue rc v, ht')
  | OpSet k v => '(rc, ht') ← set_value calloc_ok ht k v; Ret (RCode rc, ht')
  | OpRemove k => '(rc, ht') ← remove_value ht k; Ret (RCode rc, ht')
  | OpRemoveAll => let '(rc, ht') := opal_hash_table_remove_all ht in Ret (RCode rc, ht')
  | OpSize => Ret (RSize (opal_hash_table_get_size ht), ht)
  end.

(** The same operation on a finite map. *)
Definition spec_op (m : gmap K V) (o : ht_op) : ht_result * gmap K V :=
  match o with
  | OpGet k =>
    (RValue (match m !! k with Some _ => OPAL_SUCCESS | None => OPAL_ERR_NOT_FOUND end) (m !! k), m)
  | OpSet k v => (RCode OPAL_SUCCESS, <[k := v]> m)
  | OpRemove k => (RCode (match m !! k with Some _ => OPAL_SUCCESS | None => OPAL_ERR_NOT_FOUND end), delete k m)
  | OpRemoveAll => (RCode OPAL_SUCCESS, ∅)
  | OpSize => (RSize (Z.of_nat (size m)), m)
  end.

Fixpoint run_ops calloc_ok (ht : opal_hash_table_t K V) (os : list ht_op)
    : outcome (list ht_result * opal_hash_table_t K V) :=
  match os with
  | [] => Ret ([], ht)
  | o :: os' =>
    '(r, ht1) ← run_op calloc_ok ht o;
    '(rs, ht2) ← run_ops calloc_ok ht1 os';
    Ret (r :: rs, ht2)
  end.

Fixpoint spec_ops (m : gmap K V) (os : list ht_op) : list ht_result * gmap K V :=
  match os with
  | [] => ([], m)
  | o :: os' => let '(r, m1) := spec_op m o in let '(rs, m2) := spec_ops m1 os' in (r :: rs, m2)
  end.

(** Simulation of one operation; the capacity stays within four times the
    largest size reached. *)
Lemma run_op_spec calloc_ok ht o c0 n :
  (forall c, calloc_ok c = true) -> ht_wf ht ->
  ht_capacity ht <= Z.max c0 (4 * n + 32) -> ht_size ht <= n ->
  c0 < 2 ^ 62 -> n < 2 ^ 50 ->
  exists ht', run_op calloc_ok ht o = Ret ((spec_op (ht_map ht) o).1, ht') /\ ht_wf ht' /\
    ht_map ht' = (spec_op (ht_map ht) o).2 /\
    ht_capacity ht' <= Z.max c0 (4 * (n + 1) + 32) /\ ht_size ht' <= n + 1.
Proof.
  intros Hok Hwf Hc Hs Hc0 Hn. destruct o as [k|k v|k| |]; cbn [run_op spec_op fst snd].
  - rewrite get_value_spec by done. exists (touch ht).
    split_and!; try done; cbn; lia.
  - destruct (set_value_spec calloc_ok ht k v) as (rc & ht' & -> & Hw & Hm & Hrc & Hcap & Hsz);
      [done | lia | by right |].
    destruct Hrc as [->|(_ & c & Hf)]; [|by rewrite Hok in Hf].
    exists ht'. split_and!; try done; lia.
  - destruct (remove_value_spec ht k Hwf) as (ht' & -> & Hw & Hm & Hcap & Hsz).
    exists ht'. split_and!; try done; lia.
  - destruct (remove_all_spec ht Hwf) as (Hw & Hm & Hrc).
    eexists. split; [by rewrite <- Hrc|]. split_and!; try done; cbn in *; try lia.
    destruct Hwf as (_ & ? & ? & _). lia.
  - exists ht. split_and!; try done; try lia. cbn.
    by rewrite <- ht_size_map.
Qed.

Lemma run_ops_spec calloc_ok os ht c0 n :
  (forall c, calloc_ok c = true) -> ht_wf ht ->
  ht_capacity ht <= Z.max c0 (4 * n + 32) -> ht_size ht <= n ->
  c0 < 2 ^ 62 -> n + Z.of_nat (length os) < 2 ^ 50 ->
  exists ht', run_ops calloc_ok ht os = Ret ((spec_ops (ht_map ht) os).1, ht') /\
    ht_wf ht' /\ ht_map ht' = (spec_ops (ht_map ht) os).2.
Proof.
  intros Hok. revert ht n; induction os as [|o os IH]; intros ht n Hwf Hc Hs Hc0 Hn.
  - exists ht. done.
  - cbn [length] in Hn.
    destruct (run_op_spec calloc_ok ht o c0 n Hok Hwf Hc Hs Hc0 ltac:(lia))
      as (ht1 & Hr & Hw1 & Hm1 & Hc1 & Hs1).
    destruct (IH ht1 (n + 1) Hw1 Hc1 Hs1 Hc0 ltac:(lia)) as (ht2 & Hr2 & Hw2 & Hm2).
    cbn [run_ops spec_ops]. rewrite Hr, bind_Ret. cbn beta iota. rewrite Hr2, bind_Ret.
    rewrite Hm1 in Hm2 |- *. destruct (spec_op (ht_map ht) o) as [r m1]. cbn in *.
    destruct (spec_ops m1 os) as [rs m2]. cbn in *. eauto.
Qed.

(** ** Properties *)

(** C2: starting from [opal_hash_table_init], every sequence of get, set,
    remove, remove_all and size calls returns the codes and values a finite
    map would, whatever collisions occur and however often the table grows. *)
Theorem hash_table_refines_map calloc_ok (n : Z) (os : list ht_op) :
  (forall c, calloc_ok c = true) -> 0 <= n < 2 ^ 60 -> Z.of_nat (length os) < 2 ^ 49 ->
  exists ht0 ht',
    opal_hash_table_init calloc_ok opal_hash_table_construct n = Ret (OPAL_SUCCESS, ht0) /\
    run_ops calloc_ok ht0 os = Ret ((spec_ops ∅ os).1, ht') /\
    ht_wf ht' /\ ht_map ht' = (spec_ops ∅ os).2.
Proof.
  intros Hok Hn Hos.
  destruct (init_spec (K := K) (V := V) calloc_ok n) as (ht0 & Hi & Hwf & Hm & Hc & Hs);
    [lia | apply Hok |].
  destruct (round_capacity_up_spec (2 * n)) as [Hc' _]; [lia..|].
  destruct (run_ops_spec calloc_ok os ht0 (ht_capacity ht0) 0 Hok Hwf)
    as (ht' & Hr & Hw & Hm'); try lia.
  rewrite Hm in Hr, Hm'. eauto 10.
Qed.

(** A traversal with [get_next_key] from NULL visits every entry of the
    map exactly once. *)
Theorem hash_table_traversal (ht : opal_hash_table_t K V) :
  ht_wf ht ->
  traverse (S (length (ht_table ht))) ht None ≡ₚ map_to_list (ht_map ht).
Proof.
  intros Hwf. pose proof (traverse_spec (S (length (ht_table ht))) ht 0) as Ht.
  rewrite drop_0 in Ht. cbn [cursor] in Ht. rewrite Ht by lia. destruct Hwf as ((_ & _ & Hnd) & _).
  unfold ht_map. by rewrite map_to_list_to_map.
Qed.

(** When growing fails the entry is stored all the same, only the return
    code reports it, as long as one more slot stays vacant. *)
Theorem hash_table_set_oom (calloc_ok : Z -> bool) (ht : opal_hash_table_t K V) k v :
  (forall c, calloc_ok c = false) -> ht_wf ht -> 2 * ht_capacity ht + 30 < 2 ^ 64 ->
  ht_size ht + 1 < ht_capacity ht ->
  exists rc ht', set_value calloc_ok ht k v = Ret (rc, ht') /\
    (rc = OPAL_SUCCESS \/ rc = OPAL_ERR_OUT_OF_RESOURCE) /\
    ht_wf ht' /\ ht_map ht' = <[k := v]> (ht_map ht).
Proof.
  intros Hno Hwf Hb Hroom.
  destruct (set_value_spec calloc_ok ht k v) as (rc & ht' & He & Hw & Hm & Hrc & _);
    [done|done|by left|].
  exists rc, ht'. split_and!; try done. destruct Hrc as [|[? _]]; auto.
Qed.

(** Once every slot is taken, which repeated allocation failures allow, a
    search for an absent key never ends, however many probes are made. *)
Theorem hash_table_full_search_diverges (t : list (option (K * V))) cap k fuel :
  length t = cap -> (0 < cap)%nat ->
  (forall q, (q < cap)%nat -> exists e, t !! q = Some (Some e) /\ e.1 <> k) ->
  probe fuel t cap k (home cap k) = Diverge.
Proof.
  intros Hlen Hc Hfull. pose proof (home_lt cap k Hc) as Hh.
  assert (Hle : (home cap k <= cap)%nat) by lia. revert Hle. generalize (home cap k) at 1 2.
  induction fuel as [|fuel IH]; intros ii Hle; [done|]. cbn [probe].
  assert (Hn : (norm cap ii < cap)%nat) by (apply norm_lt; lia).
  destruct (Hfull _ Hn) as ([k' v] & -> & Hne). cbn in Hne.
  rewrite decide_False by done. apply IH. lia.
Qed.
End Simulation.

Lemma hash_table_refines_map_witness :
  exists ht0 ht',
    opal_hash_table_init (fun _ => true) (opal_hash_table_construct : opal_hash_table_t key_uint32 Z) 0
      = Ret (OPAL_SUCCESS, ht0) /\
    run_ops (fun _ => true) ht0 [OpSet (KU32 1) 10; OpSet (KU32 32) 20; OpGet (KU32 32); OpRemove (KU32 1)]
      = Ret ([RCode 0; RCode 0; RValue 0 (Some 20); RCode 0], ht') /\
    ht_wf ht' /\ ht_map ht' = delete (KU32 1) (<[KU32 32 := 20]> (<[KU32 1 := 10]> ∅)).
Proof.
  destruct (hash_table_refines_map (K := key_uint32) (fun _ => true) 0
    [OpSet (KU32 1) 10; OpSet (KU32 32) 20; OpGet (KU32 32); OpRemove (KU32 1)])
    as (ht0 & ht' & Hi & Hr & Hw & Hm); [done | lia | cbn; lia |].
  exists ht0, ht'. split; [exact Hi|]. split; [|split; [exact Hw|exact Hm]].
  rewrite Hr. reflexivity.
Defined.

(** A concrete well-formed table: three slots, two of them taken by keys
    that collide. *)
Definition sample_table : opal_hash_table_t key_uint32 Z :=
  MkHt [Some (KU32 3, 30); Some (KU32 6, 60); None] 3 2 1 1 2 2 1 true.

Lemma sample_table_wf : ht_wf sample_table.
Proof.
  split_and!; try reflexivity; try (cbn; lia). split_and!; [reflexivity| |].
  - intros p k v q Hp Hq Hlt. change (q < 3)%nat in Hq.
    destruct p as [|[|[|p]]]; cbn in Hp; simplify_eq; try done;
      destruct q as [|[|[|q]]]; vm_compute in Hlt; try lia; by eexists.
  - cbn. by apply (bool_decide_unpack (NoDup [KU32 3; KU32 6])).
Qed.

Lemma hash_table_traversal_witness :
  [(KU32 3, 30); (KU32 6, 60)] ≡ₚ map_to_list (ht_map sample_table).
Proof. apply (hash_table_traversal sample_table). apply sample_table_wf. Defined.

Definition sample_roomy : opal_hash_table_t key_uint32 Z :=
  MkHt [Some (KU32 3, 30); None; None] 3 1 1 1 2 2 1 true.

Lemma sample_roomy_wf : ht_wf sample_roomy.
Proof.
  split_and!; try reflexivity; try (cbn; lia). split_and!; [reflexivity| |].
  - intros p k v q Hp Hq Hlt. change (q < 3)%nat in Hq.
    destruct p as [|[|[|p]]]; cbn in Hp; simplify_eq; try done;
      destruct q as [|[|[|q]]]; vm_compute in Hlt; lia.
  - cbn. by apply (bool_decide_unpack (NoDup [KU32 3])).
Qed.

Lemma hash_table_set_oom_witness :
  exists rc ht', set_value (fun _ => false) sample_roomy (KU32 6) 60 = Ret (rc, ht') /\
    (rc = OPAL_SUCCESS \/ rc = OPAL_ERR_OUT_OF_RESOURCE) /\
    ht_wf ht' /\ ht_map ht' = <[KU32 6 := 60]> (ht_map sample_roomy).
Proof.
  apply (hash_table_set_oom (fun _ => false) sample_roomy);
    [done | apply sample_roomy_wf | cbn; lia | cbn; lia].
Defined.

Lemma hash_table_full_search_diverges_witness :
  probe 20 [Some (KU32 3, 30); Some (KU32 6, 60)] 2 (KU32 1) (home 2 (KU32 1)) = Diverge.
Proof.
  apply (hash_table_full_search_diverges [Some (KU32 3, 30); Some (KU32 6, 60)] 2 (KU32 1) 20);
    [reflexivity | lia |].
  intros [|[|q]] Hq; [by eexists | by eexists | lia].
Defined.
