(* ===== verification/ProcTable.v ===== *)
(** * Tables of processes ([opal/class/opal_hash_table.c], second half)

    A process table maps a job to the address of a table from process ranks
    to values.  The inner tables live in a heap: the outer table keeps their
    addresses, and reading an address that was released is [Ub].  The abstract
    state is one map from (job, rank) to values. *)

From S2P Require Import Prelude CString HashTable.
From stdpp Require Import base strings numbers list gmap fin_maps sets.
From Stdlib Require Import ZArith Lia.

Open Scope Z_scope.

Record opal_process_name_t : Type := MkName { jobid : Z; vpid : Z }.

#[export] Instance process_name_eq_dec : EqDecision opal_process_name_t.
Proof. solve_decision. Defined.
#[export] Instance process_name_countable : Countable opal_process_name_t.
Proof.
  refine (inj_countable' (fun n => (jobid n, vpid n)) (fun '(j, v) => MkName j v) _). by intros [].
Defined.

Section Ops.
Context {V : Type}.
Abbreviation vpids_t := (opal_hash_table_t key_uint32 V).

Record opal_proc_table_t : Type := MkPt {
  pt_super : opal_hash_table_t key_uint32 nat;
  pt_tables : gmap nat vpids_t;          (* the live inner tables *)
  pt_next : nat;                         (* next address *)
  pt_vpids_size : Z
}.

Variable calloc_ok : Z -> bool.

Definition opal_proc_table_construct : opal_proc_table_t :=
  MkPt opal_hash_table_construct ∅ 0 0.

Definition with_super (pt : opal_proc_table_t) (t : opal_hash_table_t key_uint32 nat) :=
  MkPt t (pt_tables pt) (pt_next pt) (pt_vpids_size pt).
Definition with_tables (pt : opal_proc_table_t) (h : gmap nat vpids_t) :=
  MkPt (pt_super pt) h (pt_next pt) (pt_vpids_size pt).

Definition deref (pt : opal_proc_table_t) (p : nat) : outcome vpids_t :=
  match pt_tables pt !! p with Some t => Ret t | None => Ub end.

Definition opal_proc_table_init (pt : opal_proc_table_t) (jobids vpids : Z)
    : outcome (Z * opal_proc_table_t) :=
  '(rc, t) ← opal_hash_table_init calloc_ok (pt_super pt) jobids;
  if negb (rc =? OPAL_SUCCESS) then Ret (rc, with_super pt t)
  else Ret (OPAL_SUCCESS, MkPt t (pt_tables pt) (pt_next pt) vpids).

Definition opal_proc_table_get_value (pt : opal_proc_table_t) (key : opal_process_name_t)
    : outcome (Z * option V * opal_proc_table_t) :=
  '(rc, o, t) ← opal_hash_table_get_value_uint32 (pt_super pt) (jobid key);
  let pt := with_super pt t in
  match o with
  | None => Ret (rc, None, pt)
  | Some p =>
    vpids ← deref pt p;
    '(rc, ptr, vpids) ← opal_hash_table_get_value_uint32 vpids (vpid key);
    Ret (rc, ptr, with_tables pt (<[p := vpids]> (pt_tables pt)))
  end.

(** [opal_hash_table_set_value_uint32(vpids, key.vpid, value)] *)
Definition set_inner (pt : opal_proc_table_t) (p : nat) (key : opal_process_name_t) (value : V)
    : outcome (Z * opal_proc_table_t) :=
  vpids ← deref pt p;
  '(rc, vpids) ← opal_hash_table_set_value_uint32 calloc_ok vpids (vpid key) value;
  Ret (rc, with_tables pt (<[p := vpids]> (pt_tables pt))).

Definition opal_proc_table_set_value (pt : opal_proc_table_t) (key : opal_process_name_t)
    (value : V) : outcome (Z * opal_proc_table_t) :=
  '(rc, o, t) ← opal_hash_table_get_value_uint32 (pt_super pt) (jobid key);
  let pt := with_super pt t in
  match o with
  | Some p => set_inner pt p key value
  | None =>
    '(rc, vpids) ← opal_hash_table_init calloc_ok opal_hash_table_construct (pt_vpids_size pt);
    if negb (rc =? OPAL_SUCCESS) then Ret (rc, pt)              (* OBJ_RELEASE(vpids) *)
    else
      let p := pt_next pt in
      '(rc, t) ← opal_hash_table_set_value_uint32 calloc_ok (pt_super pt) (jobid key) p;
      let pt := MkPt t (pt_tables pt) (S p) (pt_vpids_size pt) in
      if negb (rc =? OPAL_SUCCESS) then Ret (rc, pt)            (* OBJ_RELEASE(vpids) *)
      else set_inner (with_tables pt (<[p := vpids]> (pt_tables pt))) p key value
  end.

Definition opal_proc_table_remove_value (pt : opal_proc_table_t) (key : opal_process_name_t)
    : outcome (Z * opal_proc_table_t) :=
  '(rc, o, t) ← opal_hash_table_get_value_uint32 (pt_super pt) (jobid key);
  let pt := with_super pt t in
  match o with
  | None => Ret (rc, pt)
  | Some p =>
    vpids ← deref pt p;
    '(rc, vpids) ← opal_hash_table_remove_value_uint32 vpids (vpid key);
    let pt := with_tables pt (<[p := vpids]> (pt_tables pt)) in
    if rc =? OPAL_SUCCESS then
      if ht_size vpids =? 0 then
        '(_, t) ← opal_hash_table_remove_value_uint32 (pt_super pt) (jobid key);
        Ret (rc, MkPt t (delete p (pt_tables pt)) (pt_next pt) (pt_vpids_size pt))
      else Ret (rc, pt)
    else Ret (rc, pt)
  end.

(** The [do ... while]; its last status, always the error that ended the
    traversal, is what the function returns. *)
Fixpoint remove_all_loop (fuel : nat) (pt : opal_proc_table_t) (node : option nat)
    : outcome (Z * opal_proc_table_t) :=
  match fuel with
  | O => Diverge
  | S fuel' =>
    match opal_hash_table_get_next_key_uint32 (pt_super pt) node with
    | None => Ret (OPAL_ERROR, pt)
    | Some (_, p, node) =>
      vpids ← deref pt p;
      remove_all_loop fuel' (with_tables pt (delete p (pt_tables pt))) (Some node)
    end
  end.

Definition opal_proc_table_remove_all (pt : opal_proc_table_t) : outcome (Z * opal_proc_table_t) :=
  remove_all_loop (S (length (ht_table (pt_super pt)))) pt None.

Definition opal_proc_table_get_first_key (pt : opal_proc_table_t)
    : outcome (option (opal_process_name_t * V * nat * nat)) :=
  match opal_hash_table_get_next_key_uint32 (pt_super pt) None with
  | None => Ret None
  | Some (KU32 j, p, node1) =>
    vpids ← deref pt p;
    match opal_hash_table_get_next_key_uint32 vpids None with
    | None => Ret None
    | Some (KU32 v, value, node2) => Ret (Some (MkName j v, value, node1, node2))
    end
  end.

Definition opal_proc_table_get_next_key (pt : opal_proc_table_t) (in_node1 in_node2 : nat)
    : outcome (option (opal_process_name_t * V * nat * nat)) :=
  match ht_table (pt_super pt) !! in_node1 with
  | Some (Some (KU32 j, p)) =>
    vpids ← deref pt p;
    match opal_hash_table_get_next_key_uint32 vpids (Some in_node2) with
    | Some (KU32 v, value, node2) => Ret (Some (MkName j v, value, in_node1, node2))
    | None =>
      match opal_hash_table_get_next_key_uint32 (pt_super pt) (Some in_node1) with
      | None => Ret None
      | Some (KU32 j, p, node1) =>
        vpids ← deref pt p;
        match opal_hash_table_get_next_key_uint32 vpids None with
        | None => Ret None
        | Some (KU32 v, value, node2) => Ret (Some (MkName j v, value, node1, node2))
        end
      end
    end
  | _ => Ub
  end.

End Ops.
Arguments opal_proc_table_t : clear implicits.

(** ** The abstraction *)
Section Refinement.
Context {V : Type}.
Implicit Types (pt : opal_proc_table_t V) (m : gmap opal_process_name_t V).

(** [n] bounds the entries of every table, for the growth arithmetic. *)
Record pt_rep (n : Z) pt m : Prop := {
  pr_wf : ht_wf (pt_super pt);
  pr_room : ht_room n (pt_super pt);
  pr_size : 0 <= pt_vpids_size pt <= 2000;
  pr_inner : forall k p, ht_map (pt_super pt) !! k = Some p ->
    exists t, pt_tables pt !! p = Some t /\ ht_wf t /\ ht_room n t /\ ht_map t <> ∅;
  pr_inj : forall k k' p, ht_map (pt_super pt) !! k = Some p ->
    ht_map (pt_super pt) !! k' = Some p -> k = k';
  pr_fresh : forall p, is_Some (pt_tables pt !! p) -> (p < pt_next pt)%nat;
  pr_lookup : forall key, m !! key =
    p ← ht_map (pt_super pt) !! KU32 (jobid key);
    t ← pt_tables pt !! p; ht_map t !! KU32 (vpid key)
}.

Lemma ht_room_mono {K W} (n n' : Z) (t : opal_hash_table_t K W) :
  ht_room n t -> n <= n' -> n' < 2 ^ 60 -> ht_room n' t.
Proof. unfold ht_room. lia. Qed.

Lemma name_eta (key : opal_process_name_t) j v : jobid key = j -> vpid key = v -> key = MkName j v.
Proof. destruct key; cbn; congruence. Qed.

(** Replacing the inner table of a job. *)
Lemma rep_set_inner n n' pt m pt' m' j p t :
  pt_rep n pt m -> n <= n' -> n' < 2 ^ 60 ->
  ht_map (pt_super pt) !! KU32 j = Some p ->
  ht_wf t -> ht_room n' t -> ht_map t <> ∅ ->
  ht_wf (pt_super pt') -> ht_room n' (pt_super pt') -> ht_map (pt_super pt') = ht_map (pt_super pt) ->
  pt_tables pt' = <[p := t]> (pt_tables pt) -> pt_next pt' = pt_next pt ->
  pt_vpids_size pt' = pt_vpids_size pt ->
  (forall key, m' !! key = if decide (jobid key = j) then ht_map t !! KU32 (vpid key) else m !! key) ->
  pt_rep n' pt' m'.
Proof.
  intros [H1 H2 H3 H4 H5 H6 H7] Hn Hn' Hp Hwt Hrt Hne Hws Hrs Hms Ht Hnx Hvs Hm'.
  split; rewrite ?Hms, ?Ht, ?Hnx, ?Hvs; try done.
  - intros k q Hk. destruct (decide (p = q)) as [<-|Hpq].
    + exists t. by rewrite lookup_insert_eq.
    + rewrite lookup_insert_ne by done. destruct (H4 k q Hk) as (t' & ? & ? & ? & ?).
      exists t'. split_and!; [done|done| |done]. unfold ht_room in *. lia.
  - intros q Hq. apply H6. destruct (decide (p = q)) as [<-|].
    + destruct (H4 _ _ Hp) as (t' & -> & _). by eexists.
    + by rewrite lookup_insert_ne in Hq.
  - intros key. rewrite Hm'. destruct (decide (jobid key = j)) as [->|Hne'].
    + rewrite Hp. cbn. by rewrite lookup_insert_eq.
    + rewrite H7. destruct (ht_map (pt_super pt) !! KU32 (jobid key)) as [q|] eqn:E; [|done]. cbn.
      rewrite lookup_insert_ne; [done|]. intros <-. by specialize (H5 _ _ _ E Hp) as [= ?].
Qed.

(** The value and inner table of a job that is present. *)
Lemma rep_job n pt m key p :
  pt_rep n pt m -> ht_map (pt_super pt) !! KU32 (jobid key) = Some p ->
  exists t, pt_tables pt !! p = Some t /\ ht_wf t /\ ht_room n t /\ ht_map t <> ∅ /\
    m !! key = ht_map t !! KU32 (vpid key) /\
    forall key', jobid key' = jobid key -> m !! key' = ht_map t !! KU32 (vpid key').
Proof.
  intros Hr Hp. destruct (pr_inner _ _ _ Hr _ _ Hp) as (t & Ht & ? & ? & ?). exists t.
  split_and!; try done.
  - rewrite (pr_lookup _ _ _ Hr), Hp. cbn. by rewrite Ht.
  - intros key' Hj. rewrite (pr_lookup _ _ _ Hr), Hj, Hp. cbn. by rewrite Ht.
Qed.

Definition found_rc (o : option V) : Z :=
  match o with Some _ => OPAL_SUCCESS | None => OPAL_ERR_NOT_FOUND end.

Lemma proc_get_spec n pt m key :
  pt_rep n pt m ->
  exists pt', opal_proc_table_get_value pt key = Ret (found_rc (m !! key), m !! key, pt') /\
    pt_rep n pt' m.
Proof.
  intros Hr. unfold opal_proc_table_get_value, opal_hash_table_get_value_uint32.
  rewrite get_value_spec by apply Hr. rewrite bind_Ret.
  destruct (ht_map (pt_super pt) !! KU32 (jobid key)) as [p|] eqn:Ep.
  - destruct (rep_job n pt m key p Hr Ep) as (t & Ht & Hw & Hroom & Hne & Hm & Hall).
    unfold deref. cbn [with_super pt_tables]. rewrite Ht, bind_Ret, get_value_spec by done.
    rewrite bind_Ret, <- Hm. eexists. split; [done|].
    assert (n < 2 ^ 60) by (unfold ht_room in Hroom; lia).
    apply (rep_set_inner n n pt m _ m (jobid key) p (touch t)); try done; try apply Hr.
    intros key'. case_decide; [by apply Hall|done].
  - assert (Hm : m !! key = None) by (rewrite (pr_lookup _ _ _ Hr), Ep; done). rewrite Hm.
    eexists. split; [done|]. destruct Hr as [H1 H2 H3 H4 H5 H6 H7]. by split.
Qed.

Section Alloc.
Context (calloc_ok : Z -> bool).
Hypothesis Halloc : forall c, calloc_ok c = true.

(** Storing into the table of a job that is present. *)
Lemma set_inner_spec n pt m key p v :
  pt_rep n pt m -> n + 1 < 2 ^ 60 -> ht_map (pt_super pt) !! KU32 (jobid key) = Some p ->
  exists pt', set_inner calloc_ok pt p key v = Ret (OPAL_SUCCESS, pt') /\
    pt_rep (n + 1) pt' (<[key := v]> m).
Proof.
  intros Hr Hn Hp. destruct (rep_job n pt m key p Hr Hp) as (t & Ht & Hw & Hroom & Hne & Hm & Hall).
  unfold set_inner, deref. rewrite Ht, bind_Ret. unfold opal_hash_table_set_value_uint32.
  destruct (set_value_ok calloc_ok t (KU32 (vpid key)) v n Halloc Hw Hroom Hn)
    as (t' & -> & Hw' & Hm' & Hroom').
  rewrite bind_Ret. eexists. split; [done|].
  apply (rep_set_inner n (n + 1) pt m _ (<[key := v]> m) (jobid key) p t'); try done; try apply Hr;
    [lia|rewrite Hm'; apply insert_non_empty| |].
  - eapply ht_room_mono; [apply Hr|lia|lia].
  - intros key'. case_decide as Hj.
    + rewrite Hm'. destruct (decide (key = key')) as [<-|Hne']; [by rewrite !lookup_insert_eq|].
      rewrite !lookup_insert_ne; [by apply Hall|intros [= Hv]|done].
      apply Hne'. destruct key, key'. cbn in *. congruence.
    + rewrite lookup_insert_ne; [done|]. by intros <-.
Qed.

(** A first process of a job: a new inner table with one entry. *)
Lemma rep_new_job n pt m pt' key v t :
  pt_rep n pt m -> n + 1 < 2 ^ 60 -> ht_map (pt_super pt) !! KU32 (jobid key) = None ->
  ht_wf t -> ht_room (n + 1) t -> ht_map t = {[KU32 (vpid key) := v]} ->
  ht_wf (pt_super pt') -> ht_room (n + 1) (pt_super pt') ->
  ht_map (pt_super pt') = <[KU32 (jobid key) := pt_next pt]> (ht_map (pt_super pt)) ->
  pt_tables pt' = <[pt_next pt := t]> (pt_tables pt) -> pt_next pt' = S (pt_next pt) ->
  pt_vpids_size pt' = pt_vpids_size pt ->
  pt_rep (n + 1) pt' (<[key := v]> m).
Proof.
  intros [H1 H2 H3 H4 H5 H6 H7] Hn Hno Hwt Hrt Hmt Hws Hrs Hms Ht Hnx Hvs.
  assert (Hfr : forall k q, ht_map (pt_super pt) !! k = Some q -> pt_next pt <> q).
  { intros k q Hk <-. destruct (H4 _ _ Hk) as (t' & Hs & _).
    assert (pt_next pt < pt_next pt)%nat by (apply H6; by eexists). lia. }
  split; rewrite ?Hms, ?Ht, ?Hnx, ?Hvs; try done.
  - intros k q [[<- <-]|[_ Hk]]%lookup_insert_Some.
    + exists t. rewrite lookup_insert_eq, Hmt. split_and!; done.
    + rewrite lookup_insert_ne by (by eapply Hfr). destruct (H4 _ _ Hk) as (t' & ? & ? & ? & ?).
      exists t'. split_and!; [done|done| |done]. eapply ht_room_mono; [done|lia|lia].
  - intros k k' q [[<- <-]|[_ Hk]]%lookup_insert_Some [[<- Hq]|[_ Hk']]%lookup_insert_Some;
      [done|by apply Hfr in Hk'|subst q; by apply Hfr in Hk|eauto].
  - intros q Hq. destruct (decide (pt_next pt = q)) as [<-|]; [lia|].
    rewrite lookup_insert_ne in Hq by done. apply H6 in Hq. lia.
  - intros key'. destruct (decide (jobid key' = jobid key)) as [Hj|Hj].
    + rewrite Hj, lookup_insert_eq. cbn. rewrite lookup_insert_eq. cbn. rewrite Hmt.
      destruct (decide (key = key')) as [<-|Hne]; [by rewrite lookup_insert_eq, lookup_singleton_eq|].
      rewrite lookup_insert_ne, lookup_singleton_ne, H7, Hj, Hno; [done| |done].
      intros [= Hv]. apply Hne. destruct key, key'. cbn in *. congruence.
    + rewrite !lookup_insert_ne by (congruence || (intros <-; done)). rewrite H7.
      destruct (ht_map (pt_super pt) !! KU32 (jobid key')) as [q|] eqn:E; [|done]. cbn.
      by rewrite lookup_insert_ne by (by eapply Hfr).
Qed.

Lemma new_vpids_spec (size n : Z) : 0 <= size <= 2000 -> 0 <= n -> n < 2 ^ 60 ->
  exists t, opal_hash_table_init calloc_ok (opal_hash_table_construct : opal_hash_table_t key_uint32 V) size
      = Ret (OPAL_SUCCESS, t) /\ ht_wf t /\ ht_map t = ∅ /\ ht_room n t.
Proof.
  intros Hs Hn Hn'. destruct (init_spec (K := key_uint32) (V := V) calloc_ok size)
    as (t & E & Hw & Hm & Hc & Hsz); [lia|apply Halloc|].
  exists t. split_and!; [done|done|done|]. destruct (round_capacity_up_spec (2 * size)) as [Hr _]; [lia..|].
  unfold ht_room. rewrite Hc, Hsz. lia.
Qed.

Lemma proc_set_spec n pt m key v :
  pt_rep n pt m -> n + 1 < 2 ^ 60 ->
  exists pt', opal_proc_table_set_value calloc_ok pt key v = Ret (OPAL_SUCCESS, pt') /\
    pt_rep (n + 1) pt' (<[key := v]> m).
Proof.
  intros Hr Hn. unfold opal_proc_table_set_value, opal_hash_table_get_value_uint32.
  rewrite get_value_spec by apply Hr. rewrite bind_Ret.
  assert (Hr' : pt_rep n (with_super pt (touch (pt_super pt))) m).
  { destruct Hr as [H1 H2 H3 H4 H5 H6 H7]. by split. }
  destruct (ht_map (pt_super pt) !! KU32 (jobid key)) as [p|] eqn:Ep.
  { by apply (set_inner_spec n). }
  assert (H0 : 0 <= n).
  { destruct (pr_room _ _ _ Hr) as (? & _). destruct (pr_wf _ _ _ Hr) as (_ & _ & ? & _). lia. }
  destruct (new_vpids_spec (pt_vpids_size pt) n) as (t & E & Hwt & Hmt & Hrt); [apply Hr|lia|lia|].
  cbn [with_super pt_vpids_size pt_super pt_next pt_tables]. rewrite E, bind_Ret.
  cbn [Z.eqb OPAL_SUCCESS negb]. unfold opal_hash_table_set_value_uint32 at 1.
  destruct (set_value_ok calloc_ok (touch (pt_super pt)) (KU32 (jobid key)) (pt_next pt) n Halloc)
    as (t1 & -> & Hw1 & Hm1 & Hr1); [apply Hr'|apply Hr'|done|].
  rewrite bind_Ret. cbn [Z.eqb OPAL_SUCCESS negb]. unfold set_inner, deref. cbn [with_tables pt_tables].
  rewrite lookup_insert_eq, bind_Ret. unfold opal_hash_table_set_value_uint32.
  destruct (set_value_ok calloc_ok t (KU32 (vpid key)) v n Halloc Hwt Hrt Hn) as (t2 & -> & Hw2 & Hm2 & Hr2).
  rewrite bind_Ret. eexists. split; [done|].
  eapply (rep_new_job n pt m _ key v t2); try done.
  - by rewrite Hm2, Hmt, insert_empty.
  - cbn. by rewrite insert_insert_eq.
Qed.

End Alloc.

(** Dropping a job whose last process left. *)
Lemma rep_drop_job n pt m pt' key p :
  pt_rep n pt m -> ht_map (pt_super pt) !! KU32 (jobid key) = Some p ->
  (forall key', jobid key' = jobid key -> key' <> key -> m !! key' = None) ->
  ht_wf (pt_super pt') -> ht_room n (pt_super pt') ->
  ht_map (pt_super pt') = delete (KU32 (jobid key)) (ht_map (pt_super pt)) ->
  pt_tables pt' = delete p (pt_tables pt) -> pt_next pt' = pt_next pt ->
  pt_vpids_size pt' = pt_vpids_size pt ->
  pt_rep n pt' (delete key m).
Proof.
  intros [H1 H2 H3 H4 H5 H6 H7] Hp Hlast Hws Hrs Hms Ht Hnx Hvs.
  assert (Hfr : forall k q, KU32 (jobid key) <> k -> ht_map (pt_super pt) !! k = Some q -> p <> q).
  { intros k q Hk Hq <-. by apply Hk, (H5 _ _ p). }
  split; rewrite ?Hms, ?Ht, ?Hnx, ?Hvs; try done.
  - intros k q [Hk Hq]%lookup_delete_Some. rewrite lookup_delete_ne by (by eapply Hfr). eauto.
  - intros k k' q [_ Hk]%lookup_delete_Some [_ Hk']%lookup_delete_Some. eauto.
  - intros q [t Hq]. apply lookup_delete_Some in Hq as [_ Hq]. eauto.
  - intros key'. destruct (decide (jobid key' = jobid key)) as [Hj|Hj].
    + rewrite Hj, lookup_delete_eq. cbn. destruct (decide (key = key')) as [<-|Hne].
      * by rewrite lookup_delete_eq.
      * rewrite lookup_delete_ne by done. apply Hlast; congruence.
    + rewrite !lookup_delete_ne by (congruence || (intros <-; done)). rewrite H7.
      destruct (ht_map (pt_super pt) !! KU32 (jobid key')) as [q|] eqn:E; [|done]. cbn.
      rewrite lookup_delete_ne; [done|]. eapply Hfr; [|exact E]. congruence.
Qed.

Lemma proc_remove_spec n pt m key :
  pt_rep n pt m ->
  exists pt', opal_proc_table_remove_value pt key = Ret (found_rc (m !! key), pt') /\
    pt_rep n pt' (delete key m).
Proof.
  intros Hr. unfold opal_proc_table_remove_value, opal_hash_table_get_value_uint32.
  rewrite get_value_spec by apply Hr. rewrite bind_Ret.
  assert (Hr' : pt_rep n (with_super pt (touch (pt_super pt))) m).
  { destruct Hr as [H1 H2 H3 H4 H5 H6 H7]. by split. }
  destruct (ht_map (pt_super pt) !! KU32 (jobid key)) as [p|] eqn:Ep; cycle 1.
  { assert (Hm : m !! key = None) by (rewrite (pr_lookup _ _ _ Hr), Ep; done). rewrite Hm.
    eexists. split; [done|]. by rewrite delete_id. }
  destruct (rep_job n pt m key p Hr Ep) as (t & Ht & Hw & Hroom & Hne & Hm & Hall).
  assert (Hn : n < 2 ^ 60) by (unfold ht_room in Hroom; lia).
  unfold deref. cbn [with_super pt_tables]. rewrite Ht, bind_Ret.
  unfold opal_hash_table_remove_value_uint32.
  destruct (remove_value_spec t (KU32 (vpid key)) Hw) as (t1 & -> & Hw1 & Hm1 & Hc1 & Hs1).
  rewrite bind_Ret, <- Hm. fold (found_rc (m !! key)).
  assert (Hroom1 : ht_room n t1) by (unfold ht_room in *; lia).
  assert (Hdel : forall key', jobid key' = jobid key -> delete key m !! key' = ht_map t1 !! KU32 (vpid key')).
  { intros key' Hj. rewrite Hm1. destruct (decide (key = key')) as [<-|Hne']; [by rewrite !lookup_delete_eq|].
    rewrite !lookup_delete_ne; [by apply Hall| |done]. intros [= Hv]. apply Hne'. destruct key, key'. cbn in *. congruence. }
  destruct (m !! key) as [v|] eqn:Em; cbn [found_rc Z.eqb OPAL_SUCCESS OPAL_ERR_NOT_FOUND].
  - rewrite (ht_size_map t1 Hw1). destruct (Z.eqb_spec (Z.of_nat (size (ht_map t1))) 0) as [Hz|Hz].
    + assert (He : ht_map t1 = ∅) by (apply map_size_empty_inv; lia).
      cbn [with_tables with_super pt_super].
      destruct (remove_value_spec (touch (pt_super pt)) (KU32 (jobid key))) as (t2 & -> & Hw2 & Hm2 & Hc2 & Hs2);
        [apply Hr'|].
      rewrite bind_Ret. eexists. split; [done|]. destruct (pr_room _ _ _ Hr) as (? & ? & ?).
      apply (rep_drop_job n pt m _ key p); cbn; try done.
      * intros key' Hj Hne'. specialize (Hdel key' Hj). by rewrite lookup_delete_ne, He in Hdel.
      * cbn in *. unfold ht_room. lia.
      * by rewrite delete_insert_eq.
    + eexists. split; [done|].
      apply (rep_set_inner n n pt m _ (delete key m) (jobid key) p t1); try done; try apply Hr.
      * intros He. apply Hz. rewrite He. done.
      * intros key'. case_decide; [by apply Hdel|]. rewrite lookup_delete_ne; [done|]. by intros <-.
  - eexists. split; [done|]. rewrite delete_id by done. rewrite Hm1 in *.
    assert (Hsame : ht_map t1 = ht_map t) by (rewrite Hm1; apply delete_id; congruence).
    apply (rep_set_inner n n pt m _ m (jobid key) p t1); try done; try apply Hr.
    + by rewrite Hsame.
    + intros key'. case_decide; [|done]. rewrite Hsame. by apply Hall.
Qed.
End Refinement.

(** ** Properties *)
Section Claims.
Context {V : Type}.
Implicit Types (pt : opal_proc_table_t V) (m : gmap opal_process_name_t V).

Inductive pt_op : Type :=
| PtGet (key : opal_process_name_t)
| PtSet (key : opal_process_name_t) (v : V)
| PtRemove (key : opal_process_name_t).

Definition pt_run (calloc_ok : Z -> bool) pt (o : pt_op) : outcome (Z * option V * opal_proc_table_t V) :=
  match o with
  | PtGet key => opal_proc_table_get_value pt key
  | PtSet key v => '(rc, pt) ← opal_proc_table_set_value calloc_ok pt key v; Ret (rc, None, pt)
  | PtRemove key => '(rc, pt) ← opal_proc_table_remove_value pt key; Ret (rc, None, pt)
  end.

Definition pt_spec m (o : pt_op) : Z * option V * gmap opal_process_name_t V :=
  match o with
  | PtGet key => (found_rc (m !! key), m !! key, m)
  | PtSet key v => (OPAL_SUCCESS, None, <[key := v]> m)
  | PtRemove key => (found_rc (m !! key), None, delete key m)
  end.

Fixpoint pt_run_all (calloc_ok : Z -> bool) pt (os : list pt_op) : outcome (list (Z * option V)) :=
  match os with
  | [] => Ret []
  | o :: os =>
    '(rc, v, pt) ← pt_run calloc_ok pt o;
    l ← pt_run_all calloc_ok pt os; Ret ((rc, v) :: l)
  end.

Fixpoint pt_spec_all m (os : list pt_op) : list (Z * option V) :=
  match os with
  | [] => []
  | o :: os => (pt_spec m o).1 :: pt_spec_all (pt_spec m o).2 os
  end.

Lemma pt_rep_mono n n' pt m : pt_rep n pt m -> n <= n' -> n' < 2 ^ 60 -> pt_rep n' pt m.
Proof.
  intros [H1 H2 H3 H4 H5 H6 H7] Hn Hn'. split; try done.
  - by eapply ht_room_mono.
  - intros k p Hk. destruct (H4 k p Hk) as (t & ? & ? & ? & ?). exists t.
    split_and!; [done|done|by eapply ht_room_mono|done].
Qed.

Lemma pt_run_all_spec calloc_ok os n pt m :
  (forall c, calloc_ok c = true) -> pt_rep n pt m -> n + Z.of_nat (length os) < 2 ^ 60 ->
  pt_run_all calloc_ok pt os = Ret (pt_spec_all m os).
Proof.
  intros Ha. revert n pt m; induction os as [|o os IH]; intros n pt m Hr Hn; [done|].
  cbn [pt_run_all pt_spec_all length] in *. destruct o as [key|key v|key]; cbn [pt_run pt_spec fst snd].
  - destruct (proc_get_spec n pt m key Hr) as (pt' & -> & Hr'). rewrite bind_Ret.
    by rewrite (IH n pt' m Hr') by lia.
  - destruct (proc_set_spec calloc_ok Ha n pt m key v Hr) as (pt' & -> & Hr'); [lia|].
    rewrite !bind_Ret. by rewrite (IH (n + 1) pt' _ Hr') by lia.
  - destruct (proc_remove_spec n pt m key Hr) as (pt' & -> & Hr'). rewrite !bind_Ret.
    by rewrite (IH n pt' _ Hr') by lia.
Qed.

Lemma pt_init_spec calloc_ok jobs vpids :
  (forall c, calloc_ok c = true) -> 0 <= jobs <= 2000 -> 0 <= vpids <= 2000 ->
  exists pt, opal_proc_table_init calloc_ok (opal_proc_table_construct (V := V)) jobs vpids
      = Ret (OPAL_SUCCESS, pt) /\ pt_rep 0 pt ∅.
Proof.
  intros Ha Hj Hv. unfold opal_proc_table_init. cbn [pt_super opal_proc_table_construct].
  destruct (init_spec (K := key_uint32) (V := nat) calloc_ok jobs) as (t & -> & Hw & Hm & Hc & Hs);
    [lia|apply Ha|].
  rewrite bind_Ret. eexists. split; [done|].
  split; cbn; rewrite ?Hm; try done; [|by intros p [? ?]].
  destruct (round_capacity_up_spec (2 * jobs)) as [Hr _]; [lia..|]. unfold ht_room. rewrite Hc, Hs. lia.
Qed.

(** C37: starting from a table initialised for at most 2000 jobs of at most 2000 ranks, any sequence of gets,
    sets and removals returns what one map from (job, rank) to values would, whatever inner tables are created
    and dropped on the way. *)
Theorem proc_table_refines_map (calloc_ok : Z -> bool) (jobs vpids : Z) (os : list pt_op) :
  (forall c, calloc_ok c = true) -> 0 <= jobs <= 2000 -> 0 <= vpids <= 2000 ->
  Z.of_nat (length os) < 2 ^ 60 ->
  exists pt, opal_proc_table_init calloc_ok opal_proc_table_construct jobs vpids = Ret (OPAL_SUCCESS, pt) /\
    pt_run_all calloc_ok pt os = Ret (pt_spec_all ∅ os).
Proof.
  intros Ha Hj Hv Ho. destruct (pt_init_spec calloc_ok jobs vpids Ha Hj Hv) as (pt & E & Hr).
  exists pt. split; [done|]. by apply (pt_run_all_spec calloc_ok os 0 pt ∅).
Qed.

(** The traversal of [remove_all] frees the tables it passes. *)
Lemma proc_remove_all_loop_spec fuel : forall pt from,
  (length (ht_table (pt_super pt)) - from < fuel)%nat ->
  (forall k p, (k, p) ∈ entries (drop from (ht_table (pt_super pt))) -> is_Some (pt_tables pt !! p)) ->
  NoDup (entries (drop from (ht_table (pt_super pt)))).*2 ->
  exists h, remove_all_loop fuel pt (cursor from) = Ret (OPAL_ERROR, with_tables pt h) /\
    (forall p, pt_tables pt !! p = None -> h !! p = None) /\
    forall k p, (k, p) ∈ entries (drop from (ht_table (pt_super pt))) -> h !! p = None.
Proof.
  induction fuel as [|fuel IH]; intros pt from Hf Hlive Hnd; [lia|].
  cbn [remove_all_loop]. unfold opal_hash_table_get_next_key_uint32.
  pose proof (get_next_key_spec (pt_super pt) from) as Hk.
  destruct (get_next_key (pt_super pt) (cursor from)) as [[[k p] ii]|].
  - destruct Hk as (_ & Hlt & He). rewrite He in *. cbn in Hnd. apply NoDup_cons in Hnd as [Hnin Hnd].
    destruct (Hlive k p) as [t Ht]; [by left|]. unfold deref. rewrite Ht, bind_Ret.
    change (Some ii) with (cursor (S ii)).
    destruct (IH (with_tables pt (delete p (pt_tables pt))) (S ii)) as (h & -> & Hold & Hh).
    + cbn. lia.
    + cbn. intros k' p' Hin. rewrite lookup_delete_ne; [apply (Hlive k'); by right|].
      intros <-. apply Hnin, list_elem_of_fmap. by exists (k', p).
    + done.
    + exists h. split; [done|]. split.
      * intros q Hq. apply Hold. cbn. by apply lookup_delete_None; right.
      * intros k' p' [[= -> ->]|Hin]%elem_of_cons; [|by eapply Hh].
        apply Hold. cbn. by rewrite lookup_delete_eq.
  - exists (pt_tables pt). rewrite Hk. split; [by destruct pt|]. split; [done|].
    intros k p Hin. by apply elem_of_nil in Hin.
Qed.

Lemma rep_pointers n pt m : pt_rep n pt m -> NoDup (entries (ht_table (pt_super pt))).*2.
Proof.
  intros Hr. destruct (pr_wf _ _ _ Hr) as ((_ & _ & Hnd) & _).
  assert (Hin : forall k p, (k, p) ∈ entries (ht_table (pt_super pt)) ->
                            ht_map (pt_super pt) !! k = Some p).
  { intros k p. apply in_entries_map, Hr. }
  pose proof (pr_inj _ _ _ Hr) as Hinj. revert Hnd Hin. generalize (entries (ht_table (pt_super pt))).
  intros es. induction es as [|[k p] es IH]; intros Hnd Hin; [by constructor|]. cbn in *.
  apply NoDup_cons in Hnd as [Hk Hnd]. apply NoDup_cons. split.
  - intros ([k' p'] & -> & Hin')%list_elem_of_fmap. cbn in *. apply Hk.
    rewrite (Hinj k k' p'); [|apply Hin; by left|apply Hin; by right].
    apply list_elem_of_fmap. by exists (k', p').
  - apply IH; [done|]. intros k' p' ?. apply Hin. by right.
Qed.

(** Clearing a process table reports an error although it went
    through, and frees the inner tables while the outer one still points to
    them: reading any process that was present touches freed memory. *)
Theorem proc_table_remove_all_dangles (n : Z) pt m key v :
  pt_rep n pt m -> m !! key = Some v ->
  exists pt', opal_proc_table_remove_all pt = Ret (OPAL_ERROR, pt') /\
    opal_proc_table_get_value pt' key = Ub.
Proof.
  intros Hr Hm. unfold opal_proc_table_remove_all.
  assert (Hin : forall k p, (k, p) ∈ entries (ht_table (pt_super pt)) <->
                            ht_map (pt_super pt) !! k = Some p).
  { intros k p. apply in_entries_map, Hr. }
  destruct (proc_remove_all_loop_spec (S (length (ht_table (pt_super pt)))) pt 0) as (h & E & _ & Hh).
  - lia.
  - intros k p. rewrite drop_0, Hin. intros Hk. destruct (pr_inner _ _ _ Hr _ _ Hk) as (t & -> & _).
    by eexists.
  - rewrite drop_0. by eapply rep_pointers.
  - cbn [cursor] in E. rewrite E. eexists. split; [done|].
    rewrite (pr_lookup _ _ _ Hr) in Hm.
    destruct (ht_map (pt_super pt) !! KU32 (jobid key)) as [p|] eqn:Ep; [|done].
    unfold opal_proc_table_get_value, opal_hash_table_get_value_uint32. cbn [with_tables pt_super].
    rewrite get_value_spec by apply Hr. rewrite bind_Ret, Ep. unfold deref. cbn [with_super with_tables pt_tables].
    rewrite (Hh (KU32 (jobid key)) p); [done|]. by rewrite drop_0, Hin.
Qed.

End Claims.

Lemma proc_table_refines_map_witness :
  exists pt, opal_proc_table_init (fun _ => true) opal_proc_table_construct 16 16 = Ret (OPAL_SUCCESS, pt) /\
    pt_run_all (fun _ => true) pt
      [PtSet (MkName 1 0) 10; PtSet (MkName 1 1) 11; PtGet (MkName 1 1); PtRemove (MkName 1 0);
       PtGet (MkName 1 0); PtRemove (MkName 2 0)] =
    Ret [(OPAL_SUCCESS, None); (OPAL_SUCCESS, None); (OPAL_SUCCESS, Some 11); (OPAL_SUCCESS, None);
         (OPAL_ERR_NOT_FOUND, None); (OPAL_ERR_NOT_FOUND, None)].
Proof.
  apply (proc_table_refines_map (fun _ => true) 16 16
    [PtSet (MkName 1 0) 10; PtSet (MkName 1 1) 11; PtGet (MkName 1 1); PtRemove (MkName 1 0);
     PtGet (MkName 1 0); PtRemove (MkName 2 0)]); [done|lia|lia|cbn; lia].
Defined.

Lemma proc_table_remove_all_dangles_witness :
  exists pt pt', pt_rep 1 pt {[MkName 1 0 := 10]} /\
    opal_proc_table_remove_all pt = Ret (OPAL_ERROR, pt') /\
    opal_proc_table_get_value pt' (MkName 1 0) = Ub.
Proof.
  destruct (pt_init_spec (V := Z) (fun _ => true) 16 16) as (pt0 & _ & Hr0); [done|lia|lia|].
  destruct (proc_set_spec (fun _ => true) ltac:(done) 0 pt0 ∅ (MkName 1 0) 10 Hr0) as (pt & _ & Hr); [lia|].
  destruct (proc_table_remove_all_dangles 1 pt {[MkName 1 0 := 10]} (MkName 1 0) 10 Hr) as (pt' & E & Hub).
  - apply lookup_singleton_eq.
  - by exists pt, pt'.
Defined.

(** The jobs [1 .. n], each with one process. *)
Fixpoint fill_jobs (calloc_ok : Z -> bool) (n : nat) (pt : opal_proc_table_t Z)
    : outcome (Z * opal_proc_table_t Z) :=
  match n with
  | O => Ret (OPAL_SUCCESS, pt)
  | S n' =>
    '(_, pt) ← fill_jobs calloc_ok n' pt;
    opal_proc_table_set_value calloc_ok pt (MkName (Z.of_nat n) 0) 7
  end.

(** When the outer table cannot grow, the new inner table is freed but
    its entry stays in the outer table: the failed insertion is reported, and
    the next access to that job touches freed memory. *)
Theorem proc_table_set_oom_dangles :
  (let calloc_ok c := c <=? 31 in
   '(_, pt) ← opal_proc_table_init calloc_ok opal_proc_table_construct 1 1;
   '(rc14, pt) ← fill_jobs calloc_ok 14 pt;
   '(rc15, pt) ← opal_proc_table_set_value calloc_ok pt (MkName 15 0) 7;
   '(rc, _, _) ← opal_proc_table_get_value pt (MkName 14 0);
   Ret (rc14, rc15, rc, opal_proc_table_get_value pt (MkName 15 0)))
  = Ret (OPAL_SUCCESS, OPAL_ERR_OUT_OF_RESOURCE, OPAL_SUCCESS, Ub).
Proof. vm_compute. reflexivity. Qed.
