(* ===== verification/Regex.v ===== *)
(** * Node-set expressions ([orte/util/regex.c])

    [orte_regex_create] compresses a comma-separated list of node names into
    an expression such as [node[3:1-4,9]rack,login]; [orte_regex_extract_node_names]
    expands an expression into the array of names.

    [errno] is part of the model: the source tests [errno == ERANGE] after
    [strtol] without ever clearing it, so a stale [ERANGE] is visible.  It is
    the boolean [erange], threaded through every call.

    [int_log10 n] stands for [(int)(log10((double)n))]; for [n = 0] the library
    reports a pole error, which sets [errno] to [ERANGE], and the conversion of
    minus infinity yields a negative integer.  The theorems state what they
    need of it for the values that occur. *)

From S2P Require Import Prelude CString Argv.
From stdpp Require Import base strings numbers list sets.
From Stdlib Require Import ZArith Lia Ascii.

Open Scope Z_scope.

(** Characters [a .. b-1] of [s]. *)
Definition sub (s : cstr) (a b : nat) : cstr := take (b - a) (drop a s).

(** Offset of the first [c] at or after [from]. *)
Definition find_from (c : ascii) (s : cstr) (from : nat) : option nat :=
  (fun i => (from + i)%nat) <$> find_index (eqc c) (drop from s).

(** The pieces of a string between commas; an empty last piece is dropped. *)
Fixpoint comma_pieces (cur rest : cstr) : list cstr :=
  match rest with
  | [] => match cur with [] => [] | _ => [cur] end
  | c :: rest' =>
    if eqc c "," then cur :: comma_pieces [] rest' else comma_pieces (cur ++ [c]) rest'
  end.

Section Extract.
Variable int_log10 : Z -> Z.

(** One name of a range: [base], then the number right-aligned in
    [num_digits] zeros, then the suffix.  The digits are stored from the right,
    at [str[base_len + num_digits - k - 1]]. *)
Definition node_name (base : cstr) (num_digits : nat) (suffix : option cstr) (i : Z)
    : outcome cstr :=
  let str := base ++ replicate num_digits "0"%char in
  let tmp := dec i in
  if (length str <? length tmp)%nat then Ub
  else Ret (take (length str - length tmp) str ++ tmp ++
            match suffix with Some s => s | None => [] end).

(** [for (i = start; i <= end; ++i)]: [n] iterations from [i]. *)
Fixpoint emit_names (n : nat) (base : cstr) (num_digits : nat) (suffix : option cstr)
    (i : Z) (names : argv_t) : outcome argv_t :=
  match n with
  | O => Ret names
  | S n' =>
    str ← node_name base num_digits suffix i;
    emit_names n' base num_digits suffix (i + 1) (opal_argv_append_nosize names str).2
  end.

(** Bounds of a range, or the error code. *)
Definition range_bounds (range : cstr) (erange : bool) : (Z * Z + Z) * bool :=
  match find_index isdigit range with
  | None => (inr OPAL_ERR_NOT_FOUND, erange)
  | Some i =>
    let '(start, _, e1) := strtol10 (drop i range) in
    let erange := erange || e1 in
    if erange then (inr OPAL_ERR_BAD_PARAM, erange)
    else
      match find_index (fun c => negb (isdigit c)) (drop i range) with
      | None => (inl (start, start), erange)
      | Some j =>
        match find_index isdigit (drop (i + j) range) with
        | None => (inr OPAL_ERR_NOT_FOUND, erange)
        | Some k =>
          let '(end_, _, e2) := strtol10 (drop (i + j + k) range) in
          let erange := erange || e2 in
          if erange then (inr OPAL_ERR_BAD_PARAM, erange) else (inl (start, end_), erange)
        end
      end
  end.

Definition regex_parse_node_range (base range : cstr) (num_digits : Z) (suffix : option cstr)
    (names : argv_t) (erange : bool) : outcome (Z * argv_t * bool) :=
  match range_bounds range erange with
  | (inr rc, erange) => Ret (rc, names, erange)
  | (inl (start, end_), erange) =>
    if end_ <? start then Ret (OPAL_ERR_BAD_PARAM, names, erange)
    else
      let num_max_digit := int_log10 end_ + 1 in
      let erange := erange || (end_ =? 0) in
      if num_digits <? num_max_digit then Ret (OPAL_ERR_BAD_PARAM, names, erange)
      else if num_digits <? 0 then Ub      (* k < (size_t)num_digits *)
      else
        names' ← emit_names (Z.to_nat (end_ - start + 1)) base (Z.to_nat num_digits) suffix
                   start names;
        Ret (OPAL_SUCCESS, names', erange)
  end.

Fixpoint parse_pieces (base : cstr) (pieces : list cstr) (num_digits : Z)
    (suffix : option cstr) (names : argv_t) (erange : bool) : outcome (Z * argv_t * bool) :=
  match pieces with
  | [] => Ret (OPAL_SUCCESS, names, erange)
  | p :: pieces' =>
    '(ret, names, erange) ← regex_parse_node_range base p num_digits suffix names erange;
    if negb (ret =? OPAL_SUCCESS) then Ret (ret, names, erange)
    else parse_pieces base pieces' num_digits suffix names erange
  end.

Definition regex_parse_node_ranges (base ranges : cstr) (num_digits : Z)
    (suffix : option cstr) (names : argv_t) (erange : bool) : outcome (Z * argv_t * bool) :=
  parse_pieces base (comma_pieces [] ranges) num_digits suffix names erange.

Definition is_special (c : ascii) : bool := eqc c "[" || eqc c "," || eqc c "]".

(** What the bracketed part of an item holds, found with the offsets of the
    source: number of digits, ranges, suffix, and the offset after the item.
    [i] is the offset after the opening bracket. *)
Definition split_range (base : cstr) (i : nat) : option (cstr * cstr * option cstr * nat) :=
  let len := length base in
  j ← find_from ":" base i;
  let i2 := S j in
  j2 ← find_from "]" base i2;
  if bool_decide (base !! S j2 = Some "["%char) then None
  else
    let pj := S j2 in
    if (pj <? len)%nat && negb (bool_decide (base !! pj = Some ","%char)) then
      let k := match find_from "," base pj with Some k => k | None => len end in
      Some (sub base i j, sub base i2 j2, Some (sub base pj k), k)
    else Some (sub base i j, sub base i2 j2, None, pj).

(** One iteration of the [do ... while] per call. *)
Fixpoint extract_loop (fuel : nat) (base : cstr) (names : argv_t) (erange : bool)
    : outcome (Z * argv_t * bool) :=
  match fuel with
  | O => Diverge
  | S fuel' =>
    let i := match find_index is_special base with Some i => i | None => length base end in
    let c := base !! i in
    if (i =? 0)%nat then Ret (OPAL_ERR_BAD_PARAM, names, erange)
    else if bool_decide (c = Some "]"%char) then Ret (OPAL_ERR_BAD_PARAM, names, erange)
    else if bool_decide (c = Some "["%char) then
      let stem := take i base in
      match find_from ":" base (S i) with
      | None => Ret (OPAL_ERR_BAD_PARAM, names, erange)
      | Some j =>
        let '(v, _, e) := strtol10 (sub base (S i) j) in
        let num_digits := i32 v in
        let erange := erange || e in
        if erange then Ret (OPAL_ERR_BAD_PARAM, names, erange)
        else
          match split_range base (S i) with
          | None => Ret (OPAL_ERR_BAD_PARAM, names, erange)
          | Some (_, ranges, suffix, k) =>
            '(ret, names, erange) ←
              regex_parse_node_ranges stem ranges num_digits suffix names erange;
            if negb (ret =? OPAL_SUCCESS) then Ret (ret, names, erange)
            else if bool_decide (base !! k = Some ","%char) then
              extract_loop fuel' (drop (S k) base) names erange
            else Ret (ret, names, erange)
          end
      end
    else
      let '(ret, names) := opal_argv_append_nosize names (take i base) in
      if bool_decide (c = Some ","%char) then extract_loop fuel' (drop (S i) base) names erange
      else Ret (ret, names, erange)
  end.

Definition orte_regex_extract_node_names (regexp : option cstr) (names : argv_t) (erange : bool)
    : outcome (Z * argv_t * bool) :=
  match regexp with
  | None => Ret (OPAL_SUCCESS, None, erange)
  | Some s => extract_loop (S (length s)) s names erange
  end.

End Extract.

(** ** Compression *)
Record orte_regex_range_t : Type := MkRange { r_start : Z; r_cnt : Z }.

Record orte_regex_node_t : Type := MkNode {
  n_prefix : option cstr;
  n_suffix : option cstr;
  n_num_digits : Z;
  n_ranges : list orte_regex_range_t
}.

Definition ORTE_MAX_NODE_PREFIX : nat := 50.

(** The scan of a name: whether the whole name is kept, the offset of the
    first digit, the number of digits anywhere in it, and the letters before
    the first digit.  Storing a letter past [prefix[49]] is out of bounds. *)
Fixpoint scan_name (s : cstr) (i : nat) (startnum : option nat) (numdigits : Z) (prefix : cstr)
    : outcome (bool * option nat * Z * cstr) :=
  match s with
  | [] => Ret (false, startnum, numdigits, prefix)
  | c :: s' =>
    if negb (isalpha c) then
      if negb (isdigit c) then Ret (true, startnum, numdigits, prefix)
      else
        let startnum := match startnum with None => Some i | Some _ => startnum end in
        scan_name s' (S i) startnum (numdigits + 1) prefix
    else
      match startnum with
      | None =>
        if (length prefix <? ORTE_MAX_NODE_PREFIX)%nat then
          scan_name s' (S i) startnum numdigits (prefix ++ [c])
        else Ub
      | Some _ => scan_name s' (S i) startnum numdigits prefix
      end
  end.

(** Whether a name with this prefix, suffix and digit count joins [nd]. *)
Definition same_class (prefix suffix : cstr) (numdigits : Z) (nd : orte_regex_node_t) : bool :=
  match prefix, n_prefix nd with
  | _ :: _, None => false
  | [], Some _ => false
  | _ :: _, Some p => strcmp0 prefix p
  | [], None => true
  end &&
  match n_suffix nd with
  | None => false
  | Some sfx => strcmp0 suffix sfx
  end &&
  (numdigits =? n_num_digits nd).

(** Extend the last range or start a new one. *)
Definition add_number (rs : list orte_regex_range_t) (nodenum : Z) : list orte_regex_range_t :=
  match last rs with
  | None => rs ++ [MkRange nodenum 1]
  | Some r =>
    if negb (nodenum =? i32 (r_start r + r_cnt r)) then rs ++ [MkRange nodenum 1]
    else <[pred (length rs) := MkRange (r_start r) (r_cnt r + 1)]> rs
  end.

Definition add_to_node (nd : orte_regex_node_t) (nodenum : Z) : orte_regex_node_t :=
  {| n_prefix := n_prefix nd; n_suffix := n_suffix nd; n_num_digits := n_num_digits nd;
     n_ranges := add_number (n_ranges nd) nodenum |}.

(** One iteration of the loop over the names. *)
Definition add_name (nodeids : list orte_regex_node_t) (node : cstr) (erange : bool)
    : outcome (list orte_regex_node_t * bool) :=
  '(fullname, startnum, numdigits, prefix) ← scan_name node 0 None 0 [];
  match fullname, startnum with
  | false, Some st =>
    if (length prefix <? ORTE_MAX_NODE_PREFIX)%nat then
      let '(v, suffix, e) := strtol10 (drop st node) in
      let nodenum := i32 v in
      match find_index (same_class prefix suffix numdigits) nodeids with
      | Some i =>
        Ret (alter (fun nd => add_to_node nd nodenum) i nodeids, erange || e)
      | None =>
        let nd := {| n_prefix := match prefix with [] => None | _ => Some prefix end;
                     n_suffix := Some suffix; n_num_digits := numdigits;
                     n_ranges := [MkRange nodenum 1] |} in
        Ret (nodeids ++ [nd], erange || e)
      end
    else Ub                                     (* strlen(prefix): no terminator *)
  | _, _ =>
    Ret (nodeids ++ [{| n_prefix := Some node; n_suffix := None; n_num_digits := 0;
                        n_ranges := [] |}], erange)
  end.

Fixpoint add_names (nodeids : list orte_regex_node_t) (nodes : list cstr) (erange : bool)
    : outcome (list orte_regex_node_t * bool) :=
  match nodes with
  | [] => Ret (nodeids, erange)
  | n :: nodes' =>
    '(nodeids, erange) ← add_name nodeids n erange;
    add_names nodeids nodes' erange
  end.

Definition print_range (r : orte_regex_range_t) : cstr :=
  if r_cnt r =? 1 then fmt_d (r_start r)
  else fmt_d (r_start r) ++ "-"%char :: fmt_d (r_start r + r_cnt r - 1).

(** Each range is printed with a trailing comma; the last comma becomes the
    closing bracket. *)
Definition print_node (nd : orte_regex_node_t) : option cstr :=
  match n_ranges nd with
  | [] => n_prefix nd
  | _ :: _ =>
    let tmp := match n_prefix nd with Some p => p | None => [] end ++
               "["%char :: fmt_d (n_num_digits nd) ++ [":"%char] in
    let tmp := foldl (fun t r => t ++ print_range r ++ [","%char]) tmp (n_ranges nd) in
    let tmp := <[pred (length tmp) := "]"%char]> tmp in
    Some (tmp ++ match n_suffix nd with Some s => s | None => [] end)
  end.

Definition orte_regex_create (nodelist : cstr) (erange : bool) : outcome (Z * cstr * bool) :=
  match strchr nodelist "," with
  | None => Ret (OPAL_SUCCESS, nodelist, erange)
  | Some _ =>
    '(nodeids, erange) ← add_names [] (comma_pieces [] nodelist) erange;
    let regexargs := omap print_node nodeids in
    s ← opal_argv_join (match regexargs with [] => None | _ => Some regexargs end) ",";
    Ret (OPAL_SUCCESS, s, erange)
  end.

(** ** Processes per node: [count(xreps),...] *)
Fixpoint ppn_loop (fuel : nat) (num_nodes : nat) (begptr : cstr) (tmp : list Z)
    : outcome (option (list Z)) :=
  match fuel with
  | O => Diverge
  | S fuel' =>
    let '(v, endptr, _) := strtol10 begptr in
    let count := i32 v in
    let '(reps, endptr) :=
      match endptr with
      | "("%char :: "x"%char :: rest =>
        let '(r, e2, _) := strtol10 rest in
        (i32 r, match e2 with ")"%char :: e3 => e3 | _ => e2 end)
      | _ => (1, endptr)
      end in
    let tmp := take num_nodes (tmp ++ replicate (Z.to_nat reps) count) in
    match endptr with
    | ","%char :: rest => ppn_loop fuel' num_nodes rest tmp
    | [] => Ret (Some tmp)
    | _ => if (num_nodes <=? length tmp)%nat then Ret (Some tmp) else Ret None
    end
  end.

(** [tmp] holds the entries stored so far; the rest of the array is zero. *)
Definition orte_regex_extract_ppn (num_nodes : Z) (regexp : cstr) : outcome (Z * option (list Z)) :=
  if num_nodes <? 0 then Ret (OPAL_ERR_OUT_OF_RESOURCE, None)
  else
    let n := Z.to_nat num_nodes in
    r ← ppn_loop (S (length regexp)) n regexp [];
    match r with
    | Some tmp => Ret (OPAL_SUCCESS, Some (tmp ++ replicate (n - length tmp) 0))
    | None => Ret (OPAL_ERR_BAD_PARAM, None)
    end.

(** ** Ranges of one-character names: [pre[a,c-f]post] *)
Definition schar (c : ascii) : Z := sgn 8 (char_Z c).
Definition of_schar (z : Z) : ascii := ascii_of_nat (Z.to_nat (wrap 8 z)).

(** Byte [i] of the string, its terminator included. *)
Definition byte_at (s : cstr) (i : nat) : outcome ascii :=
  match s !! i with
  | Some c => Ret c
  | None => if (i =? length s)%nat then Ret zero else Ub
  end.

Definition affix (pre post : option cstr) (s : cstr) : cstr :=
  match pre with Some p => p | None => [] end ++ s ++ match post with Some p => p | None => [] end.

(** [for (c = r[0]; c <= r[2]; c++)] on a [char], which wraps at 127. *)
Definition char_range (pre post : option cstr) (r : cstr) (names : argv_t) : outcome argv_t :=
  c0 ← byte_at r 0;
  c2 ← byte_at r 2;
  let a := schar c0 in
  let b := schar c2 in
  if b <? a then Ret names
  else if b =? 127 then Diverge
  else Ret (foldl (fun names c => (opal_argv_append_nosize names (affix pre post [of_schar c])).2)
              names ((fun i => a + Z.of_nat i) <$> seq 0 (Z.to_nat (b - a + 1)))).

Fixpoint name_ranges (pre post : option cstr) (rngs : list cstr) (names : argv_t) : outcome argv_t :=
  match rngs with
  | [] => Ret names
  | r :: rngs' =>
    names ← match strchr r "-" with
            | None => Ret (opal_argv_append_nosize names (affix pre post r)).2
            | Some _ => char_range pre post r names
            end;
    name_ranges pre post rngs' names
  end.

Definition nonempty (s : cstr) : option cstr := match s with [] => None | _ => Some s end.

(** [strrchr]: offset of the last [c]. *)
Definition strrchr (s : cstr) (c : ascii) : option nat :=
  (fun i => (length s - 1 - i)%nat) <$> find_index (eqc c) (reverse s).

(** The opening bracket is overwritten by a terminator before the closing one
    is searched from the start of the string, unless it is the first byte. *)
Definition orte_regex_extract_name_range (regexp : cstr) (names : argv_t)
    : outcome (Z * argv_t) :=
  match strchr regexp "[" with
  | None => Ret (OPAL_SUCCESS, (opal_argv_append_nosize names regexp).2)
  | Some i =>
    let visible := if (i =? 0)%nat then regexp else take i regexp in
    match strrchr visible "]" with
    | None => Ret (OPAL_ERR_BAD_PARAM, names)
    | Some k =>
      let pre := if (i =? 0)%nat then None else Some (take k visible) in
      let post := nonempty (drop (S k) visible) in
      let b := if (i =? 0)%nat then sub regexp 1 k else drop (S i) regexp in
      rngs ← opal_argv_split (Some b) ",";
      match rngs with
      | None => Ub                                       (* rngs[0] of NULL *)
      | Some rngs =>
        names ← name_ranges pre post rngs names;
        Ret (OPAL_SUCCESS, names)
      end
    end
  end.
