(* ===== verification/RegexRoundtrip.v ===== *)
(** * What expansion and compression of node sets guarantee

    Expansion is total and memory-safe under the conditions stated, every
    printed expression parses back, and compressing a list of node names then
    expanding it gives the same names up to order.  Three theorems record
    where the code falls short: a stale or pole-error [ERANGE], a negative
    digit count, and names with two numeric fields. *)

From S2P Require Import Prelude CString Argv Regex.
From stdpp Require Import base strings numbers list sets.
From Stdlib Require Import ZArith Lia Ascii.

Open Scope Z_scope.

(** The documented behaviour of [log10] on the node numbers in use: the
    integer part is exact for 1 .. 10^9, and negative for 0. *)
Definition log10_exact (int_log10 : Z -> Z) : Prop :=
  (forall n, 1 <= n < 10 ^ 9 -> int_log10 n = Z.of_nat (ndigits n) - 1) /\ int_log10 0 < 0.

(** A function that behaves so. *)
Definition ideal_log10 (n : Z) : Z := if n =? 0 then INT_MIN else Z.of_nat (ndigits n) - 1.

Lemma ideal_log10_exact : log10_exact ideal_log10.
Proof.
  split; [|done]. intros n Hn. unfold ideal_log10. zcase; [lia|done].
Qed.

(** ** Searching in concatenations *)
Lemma class_no_char (P : ascii -> bool) d s :
  P d = false -> Forall (fun c => P c = true) s -> no_char d s.
Proof.
  intros Hd Hs. unfold no_char. eapply Forall_imp; [|exact Hs].
  intros c Hc. apply eqc_ne. congruence.
Qed.

Lemma find_from_app d pre mid post :
  no_char d mid -> find_from d (pre ++ mid ++ d :: post) (length pre) =
                   Some (length pre + length mid)%nat.
Proof.
  intros Hm. unfold find_from. rewrite drop_app_length, find_index_char_app by done. done.
Qed.

Lemma find_from_None d pre mid :
  no_char d mid -> find_from d (pre ++ mid) (length pre) = None.
Proof.
  intros Hm. unfold find_from. rewrite drop_app_length, no_char_find by done. done.
Qed.

Lemma sub_app pre mid post n m :
  n = length pre -> m = (length pre + length mid)%nat -> sub (pre ++ mid ++ post) n m = mid.
Proof.
  intros -> ->. unfold sub. rewrite drop_app_length.
  replace (length pre + length mid - length pre)%nat with (length mid) by lia.
  apply take_app_length.
Qed.

Lemma lookup_mid (pre post : cstr) c n : n = length pre -> (pre ++ c :: post) !! n = Some c.
Proof. intros ->. by apply list_lookup_middle. Qed.

Lemma drop_mid (pre post : cstr) c n : n = S (length pre) -> drop n (pre ++ c :: post) = post.
Proof.
  intros ->. rewrite (cons_middle c), app_assoc, drop_app_length'; [done|].
  rewrite length_app. simpl. lia.
Qed.

(** ** Pieces between commas *)
Lemma comma_pieces_no_comma cur s :
  no_char "," s -> comma_pieces cur s = match cur ++ s with [] => [] | _ => [cur ++ s] end.
Proof.
  intros Hs; revert cur; induction Hs as [|c s Hc Hs IH]; intros cur; simpl.
  - by rewrite app_nil_r.
  - rewrite eqc_ne by (intros ->; by rewrite eqc_refl in Hc).
    rewrite IH, <- app_assoc. done.
Qed.

Lemma comma_pieces_app cur s t :
  no_char "," s -> comma_pieces cur (s ++ ","%char :: t) = (cur ++ s) :: comma_pieces [] t.
Proof.
  intros Hs; revert cur; induction Hs as [|c s Hc Hs IH]; intros cur; simpl.
  - by rewrite app_nil_r.
  - rewrite eqc_ne by (intros ->; by rewrite eqc_refl in Hc).
    rewrite IH, <- app_assoc. done.
Qed.

Lemma comma_pieces_join l :
  Forall (fun s => no_char "," s /\ s <> []) l ->
  comma_pieces [] (join_spec "," l) = l.
Proof.
  induction l as [|x l IH]; intros Hl; [done|].
  apply Forall_cons_iff in Hl as [[Hx Hne] Hl]. destruct l as [|y l].
  - simpl. rewrite comma_pieces_no_comma by done. by destruct x.
  - rewrite join_spec_cons, comma_pieces_app, IH by done. done.
Qed.

(** ** Names of a numeric range *)
Definition range_names (base : cstr) (nd : nat) (sfx : cstr) (start : Z) (n : nat) : list cstr :=
  (fun i => base ++ dec_pad nd (start + Z.of_nat i) ++ sfx) <$> seq 0 n.

Lemma range_names_S base nd sfx start n :
  range_names base nd sfx start (S n) =
  (base ++ dec_pad nd start ++ sfx) :: range_names base nd sfx (start + 1) n.
Proof.
  unfold range_names. cbn [seq fmap list_fmap]. f_equal.
  - by rewrite Z.add_0_r.
  - rewrite <- seq_shift. rewrite <- list_fmap_compose. apply list_fmap_ext.
    intros i x _. simpl. do 3 f_equal. lia.
Qed.

Definition opt_str (s : option cstr) : cstr := match s with Some s => s | None => [] end.

Lemma node_name_pad base nd sfx i :
  0 <= i < 10 ^ Z.of_nat nd -> (1 <= nd)%nat ->
  node_name base nd sfx i = Ret (base ++ dec_pad nd i ++ opt_str sfx).
Proof.
  intros Hi Hnd. pose proof (ndigits_le nd i Hi Hnd) as Hle. unfold node_name.
  assert (Hdl : length (dec i) = ndigits i) by apply dec_pad_length.
  rewrite length_app, length_replicate, Hdl. zcase; [lia|].
  replace (length base + nd - ndigits i)%nat
    with (length base + (nd - ndigits i))%nat by lia.
  rewrite take_app_add, take_replicate, Nat.min_l by lia.
  rewrite <- (zero_pad_dec nd i) by lia. rewrite <- !app_assoc. done.
Qed.

Lemma emit_names_spec n base nd sfx start names :
  0 <= start -> start + Z.of_nat n <= 10 ^ Z.of_nat nd -> (1 <= nd)%nat ->
  (n <> O \/ is_Some names) ->
  emit_names n base nd sfx start names =
  Ret (Some (argv_list names ++ range_names base nd (opt_str sfx) start n)).
Proof.
  revert start names; induction n as [|n IH]; intros start names H0 H1 Hnd Hor.
  - destruct Hor as [|[l ->]]; [done|]. simpl. by rewrite app_nil_r.
  - cbn [emit_names]. rewrite node_name_pad, bind_Ret by lia.
    rewrite IH; [|lia|lia|done|right; by destruct names].
    rewrite range_names_S. f_equal. f_equal.
    destruct names; simpl; by rewrite <- ?app_assoc.
Qed.

(** ** Reading back a printed range *)
Definition good_range (nd : nat) (r : orte_regex_range_t) : Prop :=
  1 <= r_start r /\ 1 <= r_cnt r /\ r_start r + r_cnt r <= 10 ^ Z.of_nat nd.

Lemma find_index_digit_dec n rest : 0 <= n -> find_index isdigit (dec n ++ rest) = Some O.
Proof.
  intros Hn. pose proof (dec_digits n) as Hd. pose proof (dec_nonempty n Hn).
  destruct (dec n) as [|c s]; [done|]. apply Forall_cons_iff in Hd as [Hc _].
  simpl. by rewrite Hc.
Qed.

Lemma find_nondigit_dec n :
  find_index (fun c => negb (isdigit c)) (dec n) = None.
Proof.
  apply find_index_None. eapply Forall_imp; [|apply dec_digits].
  intros c Hc. simpl. by rewrite Hc.
Qed.

Lemma find_nondigit_dec_app n c rest :
  isdigit c = false ->
  find_index (fun c => negb (isdigit c)) (dec n ++ c :: rest) = Some (length (dec n)).
Proof.
  intros Hc. apply find_index_app; [|by rewrite Hc].
  eapply Forall_imp; [|apply dec_digits]. intros x Hx. simpl. by rewrite Hx.
Qed.

Lemma fmt_d_dec n : 0 <= n -> fmt_d n = dec n.
Proof. intros. unfold fmt_d. zcase; [lia|done]. Qed.

Lemma range_bounds_one a :
  0 <= a <= LONG_MAX -> range_bounds (dec a) false = (inl (a, a), false).
Proof.
  intros Ha. unfold range_bounds.
  pose proof (find_index_digit_dec a [] ltac:(lia)) as Hf. rewrite app_nil_r in Hf. rewrite Hf.
  pose proof (strtol10_dec a [] Ha I) as Hs. rewrite app_nil_r in Hs. rewrite drop_0, Hs.
  cbn [orb]. by rewrite find_nondigit_dec.
Qed.

Lemma range_bounds_two a b :
  0 <= a <= LONG_MAX -> 0 <= b <= LONG_MAX ->
  range_bounds (dec a ++ "-"%char :: dec b) false = (inl (a, b), false).
Proof.
  intros Ha Hb. unfold range_bounds.
  rewrite find_index_digit_dec, drop_0 by lia.
  rewrite (strtol10_dec a ("-"%char :: dec b)) by done. cbn [orb].
  rewrite find_nondigit_dec_app by done.
  replace (drop (0 + length (dec a)) (dec a ++ "-"%char :: dec b)) with ("-"%char :: dec b)
    by (simpl; by rewrite drop_app_length).
  cbn [find_index]. change (isdigit "-") with false. cbv iota.
  pose proof (find_index_digit_dec b [] ltac:(lia)) as Hf. rewrite app_nil_r in Hf. rewrite Hf.
  cbn [fmap option_fmap option_map].
  rewrite (drop_mid (dec a)) by lia.
  pose proof (strtol10_dec b [] Hb I) as Hs. rewrite app_nil_r in Hs. by rewrite Hs.
Qed.

Section Roundtrip.
Variable int_log10 : Z -> Z.
Hypothesis Hlog : log10_exact int_log10.

Definition range_list (base : cstr) (nd : nat) (sfx : cstr) (r : orte_regex_range_t) : list cstr :=
  range_names base nd sfx (r_start r) (Z.to_nat (r_cnt r)).

Lemma pow10_9 nd : (nd <= 9)%nat -> 10 ^ Z.of_nat nd <= 10 ^ 9.
Proof. intros. apply Z.pow_le_mono_r; lia. Qed.

(** The last number of a range fits the declared number of digits. *)
Lemma range_end_digits nd n :
  (1 <= nd <= 9)%nat -> 1 <= n < 10 ^ Z.of_nat nd -> int_log10 n + 1 <= Z.of_nat nd.
Proof.
  intros Hnd Hn. pose proof (pow10_9 nd ltac:(lia)). destruct Hlog as [Hl _].
  rewrite Hl by lia. pose proof (ndigits_le nd n ltac:(lia) ltac:(lia)). lia.
Qed.

Lemma parse_range_ok base nd sfx r names :
  (1 <= nd <= 9)%nat -> good_range nd r ->
  regex_parse_node_range int_log10 base (print_range r) (Z.of_nat nd) sfx names false =
  Ret (OPAL_SUCCESS, Some (argv_list names ++ range_list base nd (opt_str sfx) r), false).
Proof.
  intros Hnd (H1 & H2 & H3). pose proof (pow10_9 nd ltac:(lia)) as Hp.
  set (last := r_start r + r_cnt r - 1).
  assert (Hb : range_bounds (print_range r) false = (inl (r_start r, last), false)).
  { unfold print_range, last, LONG_MAX in *. zcase.
    - rewrite fmt_d_dec, range_bounds_one by (unfold LONG_MAX; lia). do 3 f_equal. lia.
    - rewrite !fmt_d_dec, range_bounds_two by (unfold LONG_MAX; lia). done. }
  unfold regex_parse_node_range. rewrite Hb. cbn [orb].
  pose proof (range_end_digits nd last Hnd ltac:(lia)).
  zcase; try lia. cbn [orb].
  rewrite Nat2Z.id, emit_names_spec, bind_Ret by lia.
  unfold range_list. do 5 f_equal. f_equal. lia.
Qed.

Lemma parse_pieces_ok base nd sfx rs names :
  (1 <= nd <= 9)%nat -> Forall (good_range nd) rs ->
  exists names', parse_pieces int_log10 base (print_range <$> rs) (Z.of_nat nd) sfx names false =
    Ret (OPAL_SUCCESS, names', false) /\
    argv_list names' = argv_list names ++ (rs ≫= range_list base nd (opt_str sfx)) /\
    (rs <> [] -> is_Some names').
Proof.
  intros Hnd Hrs; revert names; induction Hrs as [|r rs Hr Hrs IH]; intros names.
  - exists names. split_and!; [done|by rewrite app_nil_r|done].
  - cbn [fmap list_fmap parse_pieces]. rewrite parse_range_ok, bind_Ret by done.
    cbn beta iota. change (OPAL_SUCCESS =? OPAL_SUCCESS) with true. cbn [negb].
    destruct (IH (Some (argv_list names ++ range_list base nd (opt_str sfx) r)))
      as (names' & -> & Hl & _).
    exists names'. split_and!; [done| |].
    + rewrite Hl. simpl. by rewrite <- app_assoc.
    + intros _. destruct names' as [l|]; [by eexists|].
      (* a successful append leaves a non-NULL array *)
      simpl in Hl. symmetry in Hl. apply app_nil in Hl as [Hl _]. apply app_nil in Hl as [_ Hl].
      exfalso. revert Hl. unfold range_list. destruct Hr as (_ & Hc & _).
      replace (Z.to_nat (r_cnt r)) with (S (pred (Z.to_nat (r_cnt r)))) by lia.
      by rewrite range_names_S.
Qed.

(** ** The nodes of a compressed expression *)
Definition plain (s : cstr) : Prop :=
  s <> [] /\ Forall (fun c => is_special c = false) s.

Definition all_alpha (s : cstr) : Prop := Forall (fun c => isalpha c = true) s.

Definition good_node (nd : orte_regex_node_t) : Prop :=
  (exists p, nd = MkNode (Some p) None 0 [] /\ plain p) \/
  (exists p s n rs, nd = MkNode (Some p) (Some s) (Z.of_nat n) rs /\
     p <> [] /\ all_alpha p /\ all_alpha s /\ (1 <= n <= 9)%nat /\
     rs <> [] /\ Forall (good_range n) rs).

(** The names a node stands for. *)
Definition node_names (nd : orte_regex_node_t) : list cstr :=
  match n_ranges nd with
  | [] => [opt_str (n_prefix nd)]
  | rs => rs ≫= range_list (opt_str (n_prefix nd)) (Z.to_nat (n_num_digits nd))
                  (opt_str (n_suffix nd))
  end.

Definition bracketed (p s : cstr) (n : nat) (rs : list orte_regex_range_t) : cstr :=
  p ++ "["%char :: dec (Z.of_nat n) ++ ":"%char ::
  join_spec "," (print_range <$> rs) ++ "]"%char :: s.

Lemma foldl_join (f : orte_regex_range_t -> cstr) (acc : cstr) rs :
  foldl (fun t r => t ++ f r ++ [","%char]) acc rs =
  match rs with [] => acc | _ => acc ++ join_spec "," (f <$> rs) ++ [","%char] end.
Proof.
  revert acc; induction rs as [|r rs IH]; intros acc; [done|]. cbn [foldl]. rewrite IH.
  destruct rs as [|r' rs]; [done|]. cbn [fmap list_fmap]. rewrite join_spec_cons.
  rewrite <- !app_assoc. done.
Qed.

Lemma print_bracketed p s n rs :
  rs <> [] -> print_node (MkNode (Some p) (Some s) (Z.of_nat n) rs) = Some (bracketed p s n rs).
Proof.
  intros Hrs. unfold print_node, bracketed; cbn [n_ranges n_prefix n_suffix n_num_digits].
  destruct rs as [|r rs]; [done|]. f_equal. rewrite foldl_join, fmt_d_dec by lia.
  rewrite !app_assoc. set (x := ((p ++ _) ++ _)).
  replace (pred (length (x ++ [","%char]))) with (length x)
    by (rewrite length_app; simpl; lia).
  rewrite insert_app_r_alt, Nat.sub_diag by lia. cbn [list_insert insert].
  unfold x. rewrite <- !app_assoc. cbn [app]. rewrite <- !app_assoc. done.
Qed.

(** Characters of a printed range list. *)
Definition range_char (c : ascii) : bool := isdigit c || eqc c "-" || eqc c ",".

Lemma dec_range_char n : Forall (fun c => range_char c = true) (dec n).
Proof.
  eapply Forall_imp; [|apply dec_digits]. intros c Hc. unfold range_char. by rewrite Hc.
Qed.

Lemma print_range_chars nd r :
  good_range nd r -> Forall (fun c => range_char c = true) (print_range r) /\
                     no_char "," (print_range r) /\ print_range r <> [].
Proof.
  intros (H1 & H2 & H3). unfold print_range.
  assert (Hd : forall n, no_char "," (dec n)).
  { intros n. apply (class_no_char isdigit); [done|apply dec_digits]. }
  destruct (Z.eqb_spec (r_cnt r) 1); rewrite !fmt_d_dec by lia.
  - split_and!; [apply dec_range_char | apply Hd | apply dec_nonempty; lia].
  - split_and!.
    + apply Forall_app; split; [apply dec_range_char|]. constructor; [done|apply dec_range_char].
    + apply Forall_app; split; [apply Hd|]. constructor; [done|apply Hd].
    + intros E. apply app_nil in E as [E _]. revert E. apply dec_nonempty. lia.
Qed.

Lemma join_range_chars nd rs :
  Forall (good_range nd) rs ->
  Forall (fun c => range_char c = true) (join_spec "," (print_range <$> rs)).
Proof.
  induction 1 as [|r rs Hr Hrs IH]; [constructor|]. cbn [fmap list_fmap].
  destruct rs as [|r' rs]; [by apply (print_range_chars nd)|].
  cbn [fmap list_fmap] in *. rewrite join_spec_cons. apply Forall_app; split.
  - by apply (print_range_chars nd).
  - by constructor.
Qed.

Lemma range_chars_no d s : range_char d = false -> Forall (fun c => range_char c = true) s ->
  no_char d s.
Proof. apply class_no_char. Qed.

Lemma alpha_plain s : all_alpha s -> Forall (fun c => is_special c = false) s.
Proof.
  apply Forall_imp. intros c Hc. unfold is_special.
  rewrite !eqc_ne; [done| | |]; intros ->; done.
Qed.

Lemma find_special_stop p tail :
  Forall (fun c => is_special c = false) p ->
  match tail with c :: _ => is_special c = true | [] => True end ->
  match find_index is_special (p ++ tail) with Some i => i | None => length (p ++ tail) end =
  length p.
Proof.
  intros Hp Ht. destruct tail as [|c tail].
  - rewrite app_nil_r. by rewrite (proj2 (find_index_None _ _) Hp).
  - by rewrite find_index_app.
Qed.

(** What follows an item: the end of the expression or a comma and the rest. *)
Definition item_tail (rest : option cstr) : cstr :=
  match rest with None => [] | Some r => ","%char :: r end.

Definition continue (fuel : nat) (rest : option cstr) (names : argv_t) (e : bool)
    : outcome (Z * argv_t * bool) :=
  match rest with
  | None => Ret (OPAL_SUCCESS, names, e)
  | Some r => extract_loop int_log10 fuel r names e
  end.

Lemma extract_plain fuel p rest names e :
  plain p ->
  extract_loop int_log10 (S fuel) (p ++ item_tail rest) names e =
  continue fuel rest (Some (argv_list names ++ [p])) e.
Proof.
  intros [Hne Hp]. cbn [extract_loop].
  rewrite (find_special_stop p (item_tail rest)) by (try done; by destruct rest).
  destruct (Nat.eqb_spec (length p) 0) as [Hz|_]; [by destruct p|].
  assert (Happ : opal_argv_append_nosize names (take (length p) (p ++ item_tail rest)) =
                 (OPAL_SUCCESS, Some (argv_list names ++ [p]))).
  { rewrite take_app_length. by destruct names. }
  rewrite Happ. destruct rest as [r|]; cbn [item_tail].
  - rewrite lookup_mid by done. rewrite drop_mid by done. done.
  - rewrite app_nil_r, lookup_ge_None_2 by done. done.
Qed.

(** The part after the closing bracket, at offset [pj] of the expression: the
    suffix runs to the next comma or to the end. *)
Lemma split_range_suffix pre s rest :
  all_alpha s ->
  let base := pre ++ s ++ item_tail rest in
  let pj := length pre in
  base !! pj <> Some "["%char /\
  (if (pj <? length base)%nat && negb (bool_decide (base !! pj = Some ","%char)) then
     let k := match find_from "," base pj with Some k => k | None => length base end in
     (Some (sub base pj k), k)
   else (None, pj)) = (match s with [] => None | _ => Some s end, (pj + length s)%nat).
Proof.
  intros Hs base pj.
  assert (Hat : base !! pj = (s ++ item_tail rest) !! 0%nat).
  { unfold base, pj. rewrite lookup_app_r, Nat.sub_diag by lia. done. }
  assert (Hlen : length base = (pj + length s + length (item_tail rest))%nat).
  { unfold base, pj. rewrite !length_app. lia. }
  rewrite Hat. destruct s as [|c s]; cbn [app].
  - rewrite Nat.add_0_r. destruct rest as [r|]; cbn [item_tail lookup list_lookup]; (split; [done|]).
    + by rewrite andb_false_r.
    + replace (pj <? length base)%nat with false; [done|].
      symmetry. apply Nat.ltb_ge. rewrite Hlen. simpl. lia.
  - pose proof Hs as Hsa. apply Forall_cons_iff in Hsa as [Hc _]. cbn [lookup list_lookup].
    split; [by intros [= ->]|].
    rewrite bool_decide_eq_false_2 by (by intros [= ->]).
    replace (pj <? length base)%nat with true by (symmetry; apply Nat.ltb_lt; simpl in *; lia).
    cbn [andb negb]. assert (Hcomma : no_char "," (c :: s)) by (by apply (class_no_char isalpha)).
    assert (match find_from "," base pj with Some k => k | None => length base end
            = (pj + length (c :: s))%nat) as ->.
    { unfold base, pj. destruct rest as [r|]; cbn [item_tail].
      - by rewrite find_from_app.
      - rewrite app_nil_r, find_from_None by done. by rewrite length_app. }
    cbv zeta. do 2 f_equal. by apply sub_app.
Qed.

Lemma split_range_bracketed p s n rs rest :
  all_alpha p -> all_alpha s -> Forall (good_range n) rs ->
  let base := bracketed p s n rs ++ item_tail rest in
  find_from ":" base (S (length p)) = Some (S (length p) + length (dec (Z.of_nat n)))%nat /\
  sub base (S (length p)) (S (length p) + length (dec (Z.of_nat n))) = dec (Z.of_nat n) /\
  split_range base (S (length p)) =
    Some (dec (Z.of_nat n), join_spec "," (print_range <$> rs),
          match s with [] => None | _ => Some s end, length (bracketed p s n rs)).
Proof.
  intros Hp Hs Hrs base. set (d := dec (Z.of_nat n)). set (js := join_spec "," (print_range <$> rs)).
  assert (Hdc : no_char ":" d) by (apply (class_no_char isdigit); [done|apply dec_digits]).
  assert (Hjs : no_char "]" js) by (apply range_chars_no; [done|by apply (join_range_chars n)]).
  set (p1 := p ++ ["["%char]). set (p2 := p1 ++ d ++ [":"%char]). set (p3 := p2 ++ js ++ ["]"%char]).
  assert (H3 : base = p3 ++ s ++ item_tail rest).
  { unfold base, bracketed, p3, p2, p1. fold d js. by repeat (rewrite <- app_assoc; cbn [app]). }
  assert (H2 : base = p2 ++ js ++ "]"%char :: s ++ item_tail rest).
  { rewrite H3. unfold p3. by rewrite <- !app_assoc. }
  assert (H1 : base = p1 ++ d ++ ":"%char :: js ++ "]"%char :: s ++ item_tail rest).
  { rewrite H2. unfold p2. by rewrite <- !app_assoc. }
  assert (Hl1 : S (length p) = length p1) by (unfold p1; rewrite length_app; simpl; lia).
  assert (Hl2 : S (length p1 + length d) = length p2).
  { unfold p2. rewrite !length_app. simpl. lia. }
  assert (Hl3 : S (length p2 + length js) = length p3).
  { unfold p3. rewrite !length_app. simpl. lia. }
  rewrite Hl1.
  assert (Hf1 : find_from ":" base (length p1) = Some (length p1 + length d)%nat).
  { rewrite H1. by apply find_from_app. }
  assert (Hs1 : sub base (length p1) (length p1 + length d) = d) by (rewrite H1; by apply sub_app).
  split; [done|]. split; [done|].
  unfold split_range. rewrite Hf1. cbn [mbind option_bind]. rewrite Hl2.
  assert (find_from "]" base (length p2) = Some (length p2 + length js)%nat) as ->.
  { rewrite H2. by apply find_from_app. }
  cbn [mbind option_bind]. rewrite Hl3, Hs1.
  assert (sub base (length p2) (length p2 + length js) = js) as -> by (rewrite H2; by apply sub_app).
  destruct (split_range_suffix p3 s rest Hs) as [Hnb Hsuf]. rewrite <- H3 in Hnb, Hsuf.
  rewrite bool_decide_eq_false_2 by done.
  replace (length (bracketed p s n rs)) with (length p3 + length s)%nat.
  - destruct (_ && _); injection Hsuf as <- <-; done.
  - rewrite <- length_app. unfold bracketed, p3, p2, p1. fold d js. f_equal.
    by repeat (rewrite <- app_assoc; cbn [app]).
Qed.

Lemma opt_suffix (s : cstr) : opt_str (match s with [] => None | _ => Some s end) = s.
Proof. by destruct s. Qed.

Lemma extract_bracketed fuel p s n rs rest names :
  p <> [] -> all_alpha p -> all_alpha s -> (1 <= n <= 9)%nat ->
  rs <> [] -> Forall (good_range n) rs ->
  exists names', extract_loop int_log10 (S fuel) (bracketed p s n rs ++ item_tail rest) names false =
    continue fuel rest names' false /\ is_Some names' /\
    argv_list names' = argv_list names ++ (rs ≫= range_list p n s).
Proof.
  intros Hne Hp Hs Hn Hrs Hgood.
  destruct (split_range_bracketed p s n rs rest Hp Hs Hgood) as (Hf & Hsub & Hsplit).
  cbv zeta in Hf, Hsub, Hsplit. set (base := bracketed p s n rs ++ item_tail rest) in *.
  assert (Hb : exists t, base = p ++ "["%char :: t).
  { unfold base, bracketed. rewrite <- app_assoc. by eexists. }
  destruct Hb as [t Hb].
  cbn [extract_loop].
  assert (Hi : match find_index is_special base with Some i => i | None => length base end = length p).
  { rewrite Hb. apply find_special_stop; [by apply alpha_plain|done]. }
  rewrite Hi. destruct (Nat.eqb_spec (length p) 0) as [Hz|_]; [by destruct p|].
  assert (Hat : base !! length p = Some "["%char) by (rewrite Hb; by apply lookup_mid).
  rewrite Hat, bool_decide_eq_false_2, bool_decide_eq_true_2 by done.
  rewrite Hf, Hsub, Hsplit.
  pose proof (strtol10_dec (Z.of_nat n) [] ltac:(unfold LONG_MAX; lia) I) as Ht.
  rewrite app_nil_r in Ht. rewrite Ht. cbn [orb].
  rewrite i32_small by (unfold INT_MIN, INT_MAX; lia).
  replace (take (length p) base) with p by (by rewrite Hb, take_app_length).
  unfold regex_parse_node_ranges. rewrite comma_pieces_join.
  2: { apply Forall_fmap. eapply Forall_imp; [|exact Hgood].
       intros r Hr. destruct (print_range_chars n r Hr) as (_ & ? & ?). done. }
  destruct (parse_pieces_ok p n (match s with [] => None | _ => Some s end) rs names Hn Hgood)
    as (names' & -> & Hl & Hsome).
  rewrite opt_suffix in Hl. exists names'. split; [|by auto].
  rewrite bind_Ret. cbn beta iota. change (OPAL_SUCCESS =? OPAL_SUCCESS) with true. cbn [negb].
  unfold base. destruct rest as [r|]; cbn [item_tail].
  - rewrite lookup_mid, drop_mid by done. by rewrite bool_decide_eq_true_2.
  - rewrite app_nil_r, lookup_ge_None_2 by done. by rewrite bool_decide_eq_false_2.
Qed.

(** Names without special characters come back as they are, whatever [errno]. *)
Lemma extract_plain_list l fuel names e :
  l <> [] -> Forall plain l -> (length l <= fuel)%nat ->
  extract_loop int_log10 fuel (join_spec "," l) names e =
  Ret (OPAL_SUCCESS, Some (argv_list names ++ l), e).
Proof.
  revert fuel names; induction l as [|x l IH]; intros fuel names Hne Hp Hf; [done|].
  apply Forall_cons_iff in Hp as [Hx Hl]. destruct fuel as [|fuel]; [simpl in Hf; lia|].
  destruct l as [|y l].
  - cbn [join_spec]. rewrite <- (app_nil_r x) at 1. by apply (extract_plain fuel x None names e).
  - rewrite join_spec_cons. rewrite (extract_plain fuel x (Some (join_spec "," (y :: l)))) by done.
    cbn [continue]. rewrite IH; [|done|done|simpl in *; lia].
    cbn [argv_list]. by rewrite <- app_assoc.
Qed.

(** Expanding the printed form of a list of nodes gives their names in order. *)
Lemma extract_nodes nodes fuel names :
  nodes <> [] -> Forall good_node nodes -> (length nodes <= fuel)%nat ->
  exists names', extract_loop int_log10 fuel (join_spec "," (omap print_node nodes)) names false =
    Ret (OPAL_SUCCESS, Some names', false) /\
    names' = argv_list names ++ (nodes ≫= node_names).
Proof.
  intros Hne Hgood; revert names fuel; induction Hgood as [|nd nodes Hnd Hgood IH];
    intros names fuel Hf; [done|].
  destruct fuel as [|fuel]; [simpl in Hf; lia|]. simpl in Hf.
  assert (Hprint : exists t rest, print_node nd = Some t /\
            join_spec "," (omap print_node (nd :: nodes)) = t ++ item_tail rest /\
            rest = match nodes with [] => None | _ => Some (join_spec "," (omap print_node nodes)) end).
  { assert (Hall : forall x, good_node x -> exists t, print_node x = Some t).
    { intros x [(p & -> & _)|(p & s & n & rs & -> & _ & _ & _ & _ & Hrs & _)].
      - by eexists. - rewrite print_bracketed by done. by eexists. }
    destruct (Hall nd Hnd) as [t Ht]. exists t. cbn [omap list_omap]. rewrite Ht.
    destruct nodes as [|x nodes]; [exists None; simpl; by rewrite app_nil_r|].
    apply Forall_cons_iff in Hgood as [Hx _]. destruct (Hall x Hx) as [t' Ht'].
    eexists; split_and!; [done| |done]. cbn [omap list_omap]. by rewrite Ht'. }
  destruct Hprint as (t & rest & Ht & Hjoin & Hrest). rewrite Hjoin.
  assert (Hcont : forall l, exists names', continue fuel rest (Some l) false =
            Ret (OPAL_SUCCESS, Some names', false) /\ names' = l ++ (nodes ≫= node_names)).
  { intros l. subst rest. destruct nodes as [|x nodes].
    - exists l. split; [done|]. by rewrite app_nil_r.
    - apply (IH ltac:(done) (Some l)). simpl in *. lia. }
  cbn [mbind list_bind].
  destruct Hnd as [(p & -> & Hp)|(p & s & n & rs & -> & Hpn & Hpa & Hsa & Hn & Hrs & Hr)].
  - injection Ht as <-. rewrite extract_plain by done.
    destruct (Hcont (argv_list names ++ [p])) as (names' & -> & ->).
    eexists; split; [done|]. by rewrite <- app_assoc.
  - rewrite print_bracketed in Ht by done. injection Ht as <-.
    destruct (extract_bracketed fuel p s n rs rest names Hpn Hpa Hsa Hn Hrs Hr)
      as (n1 & -> & [l ->] & Hl). simpl in Hl. subst l.
    destruct (Hcont (argv_list names ++ (rs ≫= range_list p n s))) as (names' & -> & ->).
    eexists; split; [done|]. rewrite <- app_assoc. f_equal. f_equal.
    unfold node_names. cbn [n_ranges n_prefix n_suffix n_num_digits opt_str].
    rewrite Nat2Z.id. by destruct rs.
Qed.

(** ** Compression *)

(** Names the compressor handles: letters, then digits for a number between 1
    and 999999999, then letters. *)
Definition numbered_name (s p ds sfx : cstr) : Prop :=
  s = p ++ ds ++ sfx /\ p <> [] /\ (length p < ORTE_MAX_NODE_PREFIX)%nat /\ all_alpha p /\
  ds <> [] /\ (length ds <= 9)%nat /\ Forall (fun c => isdigit c = true) ds /\
  1 <= dec_value 0 ds /\ all_alpha sfx.

(** Names kept whole: no digit, or a character that is neither letter nor
    digit after at most 50 letters. *)
Definition kept_name (s : cstr) : Prop :=
  plain s /\ exists st nd p, scan_name s 0 None 0 [] = Ret (true, st, nd, p) \/
                             scan_name s 0 None 0 [] = Ret (false, None, nd, p).

Definition node_name_ok (s : cstr) : Prop :=
  kept_name s \/ exists p ds sfx, numbered_name s p ds sfx.

Lemma isdigit_not_alpha c : isdigit c = true -> isalpha c = false.
Proof. intros H%isdigit_range. unfold isalpha. lia. Qed.

Lemma scan_letters p s i nd acc :
  all_alpha p -> (length acc + length p <= ORTE_MAX_NODE_PREFIX)%nat ->
  scan_name (p ++ s) i None nd acc = scan_name s (i + length p) None nd (acc ++ p).
Proof.
  intros Hp; revert i acc; induction Hp as [|c p Hc Hp IH]; intros i acc Hl.
  - simpl. by rewrite Nat.add_0_r, app_nil_r.
  - cbn [app scan_name]. rewrite Hc. cbn [negb].
    cbn [length] in Hl. destruct (Nat.ltb_spec (length acc) ORTE_MAX_NODE_PREFIX); [|lia].
    rewrite IH by (rewrite length_app; simpl; lia).
    rewrite <- app_assoc. f_equal. simpl. lia.
Qed.

Lemma scan_digits ds s i st nd acc :
  Forall (fun c => isdigit c = true) ds ->
  scan_name (ds ++ s) i (Some st) nd acc =
  scan_name s (i + length ds) (Some st) (nd + Z.of_nat (length ds)) acc.
Proof.
  intros Hd; revert i nd; induction Hd as [|c ds Hc Hd IH]; intros i nd.
  - simpl. by rewrite Nat.add_0_r, Z.add_0_r.
  - cbn [app scan_name]. rewrite (isdigit_not_alpha c Hc), Hc. cbn [negb].
    rewrite IH. f_equal; cbn [length]; lia.
Qed.

Lemma scan_suffix s i st nd acc :
  all_alpha s -> scan_name s i (Some st) nd acc = Ret (false, Some st, nd, acc).
Proof.
  intros Hs; revert i; induction Hs as [|c s Hc Hs IH]; intros i; [done|].
  cbn [scan_name]. rewrite Hc. apply IH.
Qed.

Lemma scan_numbered s p ds sfx :
  numbered_name s p ds sfx ->
  scan_name s 0 None 0 [] = Ret (false, Some (length p), Z.of_nat (length ds), p).
Proof.
  intros (-> & Hpn & Hpl & Hp & Hdn & Hdl & Hd & _ & Hs).
  rewrite scan_letters by (try done; simpl; lia). cbn [app].
  destruct ds as [|c ds]; [done|]. apply Forall_cons_iff in Hd as [Hc Hd].
  cbn [app scan_name]. rewrite (isdigit_not_alpha c Hc), Hc. cbn [negb].
  rewrite scan_digits, scan_suffix by done. cbn [length]. do 3 f_equal. lia.
Qed.

Lemma strtol_numbered s p ds sfx :
  numbered_name s p ds sfx ->
  strtol10 (drop (length p) s) = (dec_value 0 ds, sfx, false) /\
  1 <= dec_value 0 ds < 10 ^ Z.of_nat (length ds) /\ 10 ^ Z.of_nat (length ds) <= 10 ^ 9.
Proof.
  intros (-> & Hpn & Hpl & Hp & Hdn & Hdl & Hd & Hv & Hs).
  pose proof (dec_value_range ds Hd). pose proof (pow10_9 (length ds) Hdl).
  split; [|lia]. rewrite drop_app_length. apply strtol10_digits; try done.
  - destruct Hs as [|c sfx Hc]; [done|]. destruct (isdigit c) eqn:E; [|done].
    by rewrite (isdigit_not_alpha c E) in Hc.
  - unfold LONG_MAX. lia.
Qed.

(** The node a new numbered name starts. *)
Lemma first_number_names p ds sfx :
  Forall (fun c => isdigit c = true) ds -> 
  range_list p (length ds) sfx (MkRange (dec_value 0 ds) 1) = [p ++ ds ++ sfx].
Proof.
  intros Hd. unfold range_list. cbn [r_start r_cnt]. change (Z.to_nat 1) with 1%nat.
  rewrite range_names_S. unfold range_names. simpl. by rewrite dec_pad_value.
Qed.

Lemma range_names_snoc base nd sfx start n :
  range_names base nd sfx start (S n) =
  range_names base nd sfx start n ++ [base ++ dec_pad nd (start + Z.of_nat n) ++ sfx].
Proof. unfold range_names. rewrite seq_S, fmap_app. done. Qed.

(** Adding a number to the ranges of its class adds exactly its name. *)
Lemma add_number_names nd p sfx rs ds :
  (length ds <= 9)%nat -> nd = length ds -> Forall (good_range nd) rs ->
  Forall (fun c => isdigit c = true) ds -> 1 <= dec_value 0 ds ->
  Forall (good_range nd) (add_number rs (dec_value 0 ds)) /\
  (add_number rs (dec_value 0 ds) ≫= range_list p nd sfx) =
  (rs ≫= range_list p nd sfx) ++ [p ++ ds ++ sfx].
Proof.
  intros Hl -> Hrs Hd Hv. pose proof (dec_value_range ds Hd) as Hr.
  pose proof (pow10_9 (length ds) Hl) as Hp9.
  assert (Hnew : good_range (length ds) (MkRange (dec_value 0 ds) 1)).
  { unfold good_range; cbn. lia. }
  assert (Happ : Forall (good_range (length ds)) (rs ++ [MkRange (dec_value 0 ds) 1]) /\
    ((rs ++ [MkRange (dec_value 0 ds) 1]) ≫= range_list p (length ds) sfx) =
    (rs ≫= range_list p (length ds) sfx) ++ [p ++ ds ++ sfx]).
  { split; [apply Forall_app; split; [done|by constructor]|]. rewrite bind_app. f_equal. cbn [mbind list_bind].
    by rewrite first_number_names, app_nil_r. }
  unfold add_number. destruct (last rs) as [r|] eqn:El; [|done].
  apply last_Some in El as [rs' ->]. apply Forall_app in Hrs as [Hrs' [Hr1 _]%Forall_cons_iff].
  destruct Hr1 as (G1 & G2 & G3).
  rewrite i32_small by (unfold INT_MIN, INT_MAX; lia).
  destruct (Z.eqb_spec (dec_value 0 ds) (r_start r + r_cnt r)) as [Heq|]; [|done].
  cbn [negb]. replace (pred (length (rs' ++ [r]))) with (length rs' + 0)%nat
    by (rewrite length_app; simpl; lia).
  rewrite insert_app_r. cbn [insert list_insert]. split.
  - apply Forall_app; split; [done|]. constructor; [|constructor].
    unfold good_range; cbn [r_start r_cnt]. lia.
  - rewrite !bind_app, <- app_assoc. f_equal. cbn [mbind list_bind].
    rewrite !app_nil_r. unfold range_list; cbn [r_start r_cnt].
    replace (Z.to_nat (r_cnt r + 1)) with (S (Z.to_nat (r_cnt r))) by lia.
    rewrite range_names_snoc. do 4 f_equal. rewrite Z2Nat.id, <- Heq by lia.
    by apply dec_pad_value.
Qed.

Lemma alter_split {A} (f : A -> A) i (l : list A) x :
  l !! i = Some x -> alter f i l = take i l ++ f x :: drop (S i) l.
Proof.
  intros Hi. rewrite <- (take_drop_middle l i x Hi) at 1.
  rewrite alter_app_r_alt by (rewrite length_take; lia).
  rewrite length_take, Nat.min_l, Nat.sub_diag by (apply lookup_lt_Some in Hi; lia). done.
Qed.

Lemma same_class_inv (p ds sfx : cstr) nd :
  p <> [] -> ds <> [] -> good_node nd ->
  same_class p sfx (Z.of_nat (length ds)) nd = true ->
  exists rs, nd = MkNode (Some p) (Some sfx) (Z.of_nat (length ds)) rs /\
             rs <> [] /\ Forall (good_range (length ds)) rs.
Proof.
  intros Hp Hds Hg. unfold same_class.
  destruct Hg as [(q & -> & _)|(q & s & n & rs & -> & _ & _ & _ & _ & Hrs & Hr)];
    cbn [n_prefix n_suffix n_num_digits].
  - rewrite andb_false_r. done.
  - destruct p as [|c p]; [done|]. intros H.
    apply andb_true_iff in H as [[H1 H2]%andb_true_iff H3].
    apply strcmp0_true in H1 as <-, H2 as <-. apply Z.eqb_eq, Nat2Z.inj in H3 as <-. eauto.
Qed.

(** A number added to the node of its class. *)
Lemma extend_node nodes i nd s p ds sfx :
  numbered_name s p ds sfx -> Forall good_node nodes -> nodes !! i = Some nd ->
  same_class p sfx (Z.of_nat (length ds)) nd = true ->
  let nodes' := alter (fun nd => add_to_node nd (dec_value 0 ds)) i nodes in
  Forall good_node nodes' /\ (nodes' ≫= node_names) ≡ₚ (nodes ≫= node_names) ++ [s].
Proof.
  intros (Hs & Hpn & Hpl & Hp & Hdn & Hdl & Hd & Hv & Hsx) Hgood Hi Hsame nodes'.
  assert (Hdl1 : (1 <= length ds)%nat) by (destruct ds; [done|simpl; lia]).
  assert (Hgi : good_node nd).
  { rewrite Forall_forall in Hgood. apply Hgood. by eapply list_elem_of_lookup_2. }
  destruct (same_class_inv p ds sfx nd Hpn Hdn Hgi Hsame) as (rs & -> & Hrs & Hgr).
  destruct (add_number_names (length ds) p sfx rs ds Hdl eq_refl Hgr Hd Hv) as [Hgr' Hn'].
  unfold nodes'. rewrite (alter_split _ _ _ _ Hi).
  assert (Hne : add_number rs (dec_value 0 ds) <> []).
  { intros E0. rewrite E0 in Hn'. symmetry in Hn'. apply app_nil in Hn' as [_ ?]. done. }
  split.
  - rewrite <- (take_drop_middle nodes i _ Hi) in Hgood.
    apply Forall_app in Hgood as [H1 [_ H2]%Forall_cons_iff].
    apply Forall_app; split; [done|]. constructor; [|done].
    right. eexists p, sfx, (length ds), _. split; [done|]. by split_and!.
  - replace (nodes ≫= node_names) with
      ((take i nodes ++ MkNode (Some p) (Some sfx) (Z.of_nat (length ds)) rs :: drop (S i) nodes)
         ≫= node_names) by (by rewrite take_drop_middle).
    rewrite !bind_app, <- app_assoc.
    f_equiv. cbn [mbind list_bind]. fold (mbind (M := list) node_names).
    replace (node_names (add_to_node _ _)) with
      (node_names (MkNode (Some p) (Some sfx) (Z.of_nat (length ds)) rs) ++ [s]).
    + rewrite <- !app_assoc. f_equiv. apply Permutation_app_comm.
    + unfold node_names, add_to_node.
      cbn [n_ranges n_prefix n_suffix n_num_digits opt_str]. rewrite Nat2Z.id.
      destruct (add_number rs _) as [|r0 l0] eqn:E0; [done|]. rewrite Hn', Hs.
      by destruct rs.
Qed.

Lemma add_name_numbered nodes s p ds sfx :
  numbered_name s p ds sfx -> Forall good_node nodes ->
  exists nodes', add_name nodes s false = Ret (nodes', false) /\ Forall good_node nodes' /\
    (nodes' ≫= node_names) ≡ₚ (nodes ≫= node_names) ++ [s].
Proof.
  intros Hnum Hgood. destruct (strtol_numbered _ _ _ _ Hnum) as (Hst & Hr & Hp9).
  assert (Hnum' := Hnum). destruct Hnum' as (Hs & Hpn & Hpl & Hp & Hdn & Hdl & Hd & Hv & Hsx).
  unfold add_name. rewrite (scan_numbered _ _ _ _ Hnum), bind_Ret. cbn beta iota.
  destruct (Nat.ltb_spec (length p) ORTE_MAX_NODE_PREFIX); [|lia].
  rewrite Hst. cbn beta iota zeta. rewrite i32_small by (unfold INT_MIN, INT_MAX; lia).
  destruct (find_index _ nodes) as [i|] eqn:E.
  - apply find_index_Some in E as (nd & Hi & Hsame & _).
    eexists; split; [done|]. by eapply extend_node.
  - assert (Hdl1 : (1 <= length ds)%nat) by (destruct ds; [done|simpl; lia]).
    eexists; split; [done|]. split.
    + apply Forall_app; split; [done|]. constructor; [|constructor].
      right. exists p, sfx, (length ds), [MkRange (dec_value 0 ds) 1].
      split; [by destruct p|]. split_and!; try done; try lia.
      constructor; [|constructor]. unfold good_range; cbn. lia.
    + rewrite bind_app. f_equiv. cbn [mbind list_bind]. rewrite app_nil_r.
      unfold node_names. cbn [n_ranges n_prefix n_suffix n_num_digits].
      rewrite Nat2Z.id. destruct p as [|c p]; [done|].
      cbn [opt_str mbind list_bind]. by rewrite first_number_names, app_nil_r, <- Hs.
Qed.

Lemma add_name_kept nodes s :
  kept_name s -> Forall good_node nodes ->
  exists nodes', add_name nodes s false = Ret (nodes', false) /\ Forall good_node nodes' /\
    (nodes' ≫= node_names) ≡ₚ (nodes ≫= node_names) ++ [s].
Proof.
  intros [Hpl (st & nd & p & Hscan)] Hgood.
  exists (nodes ++ [MkNode (Some s) None 0 []]). split_and!.
  - unfold add_name. by destruct Hscan as [-> | ->]; rewrite bind_Ret.
  - apply Forall_app; split; [done|]. constructor; [|constructor]. left. eauto.
  - by rewrite bind_app.
Qed.

Lemma add_names_spec names nodes :
  Forall node_name_ok names -> Forall good_node nodes ->
  exists nodes', add_names nodes names false = Ret (nodes', false) /\ Forall good_node nodes' /\
    (nodes' ≫= node_names) ≡ₚ (nodes ≫= node_names) ++ names.
Proof.
  intros Hn; revert nodes; induction Hn as [|s names Hs Hn IH]; intros nodes Hg.
  - exists nodes. split_and!; [done|done|by rewrite app_nil_r].
  - assert (Hstep : exists n1, add_name nodes s false = Ret (n1, false) /\ Forall good_node n1 /\
              (n1 ≫= node_names) ≡ₚ (nodes ≫= node_names) ++ [s]).
    { destruct Hs as [Hk|(p & ds & sfx & Hnum)];
        [by apply add_name_kept | by eapply add_name_numbered]. }
    destruct Hstep as (n1 & H1 & Hg1 & Hp1).
    destruct (IH n1 Hg1) as (n2 & H2 & Hg2 & Hp2).
    exists n2. cbn [add_names]. rewrite H1, bind_Ret. split_and!; [done|done|].
    rewrite Hp2, Hp1, <- app_assoc. done.
Qed.

Lemma digit_not_special c : isdigit c = true -> is_special c = false.
Proof. intros H. unfold is_special. rewrite !eqc_ne; [done| | |]; intros ->; done. Qed.

Lemma node_name_ok_plain s : node_name_ok s -> plain s.
Proof.
  intros [[H _]|(p & ds & sfx & -> & Hpn & _ & Hp & _ & _ & Hd & _ & Hs)]; [done|].
  split; [by destruct p|]. apply Forall_app; split; [by apply alpha_plain|].
  apply Forall_app; split; [|by apply alpha_plain].
  eapply Forall_imp; [apply digit_not_special|done].
Qed.

Lemma plain_no_comma s : plain s -> no_char "," s /\ s <> [].
Proof.
  intros [Hne Hs]. split; [|done]. unfold no_char. eapply Forall_imp; [|exact Hs].
  intros c Hc. apply eqc_ne. intros <-. done.
Qed.

Lemma length_join_spec d (l : list cstr) : (length l <= S (length (join_spec d l)))%nat.
Proof.
  induction l as [|x l IH]; [simpl; lia|]. destruct l as [|y l]; [simpl; lia|].
  rewrite join_spec_cons, length_app. cbn [length] in *. lia.
Qed.

Lemma length_omap_print nodes :
  Forall good_node nodes -> length (omap print_node nodes) = length nodes.
Proof.
  induction 1 as [|nd nodes Hnd Hg IH]; [done|]. cbn [omap list_omap].
  destruct Hnd as [(p & -> & _)|(p & s & n & rs & -> & _ & _ & _ & _ & Hrs & _)].
  - simpl. by rewrite IH.
  - rewrite print_bracketed by done. simpl. by rewrite IH.
Qed.

Lemma regex_create_one x :
  no_char "," x -> orte_regex_create x false = Ret (OPAL_SUCCESS, x, false).
Proof. intros Hx. unfold orte_regex_create, strchr. by rewrite no_char_find. Qed.

Lemma regex_create_many x y names :
  Forall node_name_ok (x :: y :: names) ->
  exists nodes, nodes <> [] /\ Forall good_node nodes /\
    (nodes ≫= node_names) ≡ₚ x :: y :: names /\
    orte_regex_create (join_spec "," (x :: y :: names)) false =
      Ret (OPAL_SUCCESS, join_spec "," (omap print_node nodes), false).
Proof.
  intros Hok.
  assert (Hnc : Forall (fun s => no_char "," s /\ s <> []) (x :: y :: names)).
  { eapply Forall_imp; [|exact Hok]. intros s Hs. by apply plain_no_comma, node_name_ok_plain. }
  destruct (add_names_spec _ [] Hok) as (nodes & Ha & Hg & Hp); [constructor|].
  assert (Hne : nodes <> []) by (intros ->; by apply Permutation_nil_cons in Hp).
  exists nodes. split_and!; [done|done|done|].
  unfold orte_regex_create. rewrite comma_pieces_join, Ha, bind_Ret by done.
  assert (Hc : is_Some (strchr (join_spec "," (x :: y :: names)) ",")).
  { apply Forall_cons_iff in Hnc as [[Hx _] _]. unfold strchr.
    rewrite join_spec_cons, find_index_char_app by done. by eexists. }
  destruct Hc as [i ->]. cbn beta iota zeta.
  pose proof (length_omap_print nodes Hg) as Hl.
  destruct (omap print_node nodes) as [|a l] eqn:E; [by destruct nodes|].
  by rewrite argv_join_correct, bind_Ret.
Qed.

(** Names survive compression and expansion, as a multiset. *)
Lemma create_extract_names (names : list cstr) :
  names <> [] -> Forall node_name_ok names ->
  exists s l, orte_regex_create (join_spec "," names) false = Ret (OPAL_SUCCESS, s, false) /\
    orte_regex_extract_node_names int_log10 (Some s) None false =
      Ret (OPAL_SUCCESS, Some l, false) /\
    l ≡ₚ names.
Proof.
  intros Hne Hok. destruct names as [|x [|y names]]; [done| |].
  - apply Forall_cons_iff in Hok as [Hx _]. pose proof (node_name_ok_plain _ Hx) as Hpl.
    destruct (plain_no_comma _ Hpl). exists x, [x].
    split; [by apply regex_create_one|]. split; [|done].
    cbn [orte_regex_extract_node_names].
    pose proof (extract_plain (length x) x None None false Hpl) as He.
    cbn [item_tail] in He. rewrite app_nil_r in He. by rewrite He.
  - destruct (regex_create_many x y names Hok) as (nodes & Hnn & Hg & Hp & Hc).
    rewrite Hc. cbn [orte_regex_extract_node_names].
    pose proof (length_join_spec "," (omap print_node nodes)) as Hl.
    rewrite (length_omap_print nodes Hg) in Hl.
    destruct (extract_nodes nodes _ None Hnn Hg Hl) as (l & He & ->).
    eexists _, _. split; [done|]. split; [exact He|done].
Qed.

(** C10: compressing a list of node names and expanding the result succeeds and gives back the same names with
    the same multiplicities; only their order may change (names are grouped by prefix, suffix and digit count).
    This holds for names of two kinds: at most 49 letters, then one number of up to nine digits that is not 0,
    then letters or nothing; and names the compression keeps whole, which hold no bracket or comma and have
    either no digit or, after at most 50 letters, a character that is neither letter nor digit. Names with two
    numbers are not among them: they are merged ([regex_two_numeric_fields_lost]). The number 0 is not either:
    whether a zero is taken as read depends on errno, which is clean before and after. log10 of a number below
    10^9 is taken to be exact. *)
Theorem regex_create_extract_roundtrip (names : list cstr) :
  names <> [] -> Forall node_name_ok names ->
  exists s l, orte_regex_create (join_spec "," names) false = Ret (OPAL_SUCCESS, s, false) /\
    orte_regex_extract_node_names int_log10 (Some s) None false =
      Ret (OPAL_SUCCESS, Some l, false) /\
    l ≡ₚ names.
Proof. apply create_extract_names. Qed.

End Roundtrip.

(** ** Memory safety *)

(** [log10] never under-estimates the number of digits. *)
Definition log10_safe (f : Z -> Z) : Prop := forall n, 1 <= n -> Z.of_nat (ndigits n) - 1 <= f n.

Lemma ideal_log10_safe : log10_safe ideal_log10.
Proof. intros n Hn. unfold ideal_log10. zcase; lia. Qed.

Lemma span_digits_all s : Forall (fun c => isdigit c = true) (span_digits s).1.
Proof.
  induction s as [|x l IH]; [constructor|]. cbn [span_digits].
  destruct (isdigit x) eqn:Ex; [|constructor].
  destruct (span_digits l) as [ds r]. by constructor.
Qed.

Lemma strtol10_at_digit s i :
  find_index isdigit s = Some i -> 0 <= (strtol10 (drop i s)).1.1.
Proof.
  intros (c & Hc & Hd & _)%find_index_Some.
  rewrite <- (take_drop_middle s i c Hc), drop_app_length'
    by (rewrite length_take; apply lookup_lt_Some in Hc; lia).
  unfold strtol10. apply isdigit_range in Hd as Hr.
  assert (skip_space (c :: drop (S i) s) = c :: drop (S i) s) as ->.
  { simpl. replace (isspace c) with false; [done|]. unfold isspace. lia. }
  assert (strtol_sign (c :: drop (S i) s) = (false, c :: drop (S i) s)) as ->.
  { simpl. rewrite !eqc_ne; [done| |]; intros ->; done. }
  cbn [span_digits]. rewrite Hd. pose proof (span_digits_all (drop (S i) s)) as Hds.
  destruct (span_digits (drop (S i) s)) as [ds r]. cbn [fst] in Hds.
  pose proof (dec_value_range (c :: ds) ltac:(by constructor)).
  unfold LONG_MAX, LONG_MIN in *. zcase; cbn [fst snd]; lia.
Qed.

Lemma range_bounds_nonneg range e a b e' :
  range_bounds range e = (inl (a, b), e') -> 0 <= a /\ 0 <= b.
Proof.
  unfold range_bounds. destruct (find_index isdigit range) as [i|] eqn:Ei; [|done].
  pose proof (strtol10_at_digit _ _ Ei) as H1. destruct (strtol10 (drop i range)) as [[v1 r1] e1].
  destruct (e || e1); [done|].
  destruct (find_index (fun c => negb (isdigit c)) (drop i range)) as [j|].
  - destruct (find_index isdigit (drop (i + j) range)) as [k|] eqn:Ek; [|done].
    pose proof (strtol10_at_digit _ _ Ek) as H2. rewrite drop_drop in H2.
    destruct (strtol10 (drop (i + j + k) range)) as [[v2 r2] e2].
    destruct (false || e2); [done|]. intros [= <- <- _]. simpl in *. lia.
  - intros [= <- <- _]. simpl in *. lia.
Qed.

Lemma emit_names_safe n base nd sfx start names :
  (forall i, start <= i < start + Z.of_nat n -> (ndigits i <= length base + nd)%nat) ->
  returns (emit_names n base nd sfx start names).
Proof.
  revert start names; induction n as [|n IH]; intros start names Hd; [by eexists|].
  cbn [emit_names]. unfold node_name.
  assert (Hl : length (dec start) = ndigits start) by apply dec_pad_length.
  rewrite length_app, length_replicate, Hl. specialize (Hd start) as Hs.
  zcase; [lia|]. rewrite bind_Ret. apply IH. intros i Hi. apply Hd. lia.
Qed.

Lemma ndigits_mono a b : 0 <= a <= b -> (ndigits a <= ndigits b)%nat.
Proof.
  intros H. destruct (ndigits_spec b) as (Hb & Hb1 & _); [lia|]. apply ndigits_le; lia.
Qed.

Lemma parse_node_range_returns f base range nd sfx names e :
  log10_safe f -> base <> [] -> 0 <= nd ->
  returns (regex_parse_node_range f base range nd sfx names e).
Proof.
  intros Hf Hb Hnd. unfold regex_parse_node_range.
  destruct (range_bounds range e) as [[[a b]|rc] e'] eqn:Er; [|by eexists].
  destruct (range_bounds_nonneg _ _ _ _ _ Er) as [Ha Hb0].
  destruct (Z.ltb_spec b a); [by eexists|].
  destruct (Z.ltb_spec nd (f b + 1)) as [|Hd]; [by eexists|].
  destruct (Z.ltb_spec nd 0); [lia|].
  assert (He : forall i, a <= i < a + Z.of_nat (Z.to_nat (b - a + 1)) ->
                 (ndigits i <= length base + Z.to_nat nd)%nat).
  { intros i Hi. assert (length base <> O) by (by destruct base).
    destruct (Z.eq_dec b 0) as [->|Hbz].
    - assert (i = 0) as -> by lia. change (ndigits 0) with 1%nat. lia.
    - pose proof (ndigits_mono i b ltac:(lia)). specialize (Hf b ltac:(lia)). lia. }
  destruct (emit_names_safe _ base (Z.to_nat nd) sfx a names He) as [l ->]. by eexists.
Qed.

Lemma parse_pieces_returns f base ps nd sfx names e :
  log10_safe f -> base <> [] -> 0 <= nd -> returns (parse_pieces f base ps nd sfx names e).
Proof.
  intros Hf Hb Hnd; revert names e; induction ps as [|p ps IH]; intros names e; [by eexists|].
  cbn [parse_pieces].
  destruct (parse_node_range_returns f base p nd sfx names e Hf Hb Hnd) as [[[rc n1] e1] ->].
  rewrite bind_Ret. destruct (negb (rc =? OPAL_SUCCESS)); [by eexists|]. apply IH.
Qed.

Lemma sub_drop n s a b : sub (drop n s) a b = sub s (n + a) (n + b).
Proof. unfold sub. rewrite drop_drop. f_equal. lia. Qed.

Lemma find_from_lt d s n i : find_from d s n = Some i -> (n <= i < length s)%nat.
Proof.
  unfold find_from. intros (j & Hj & ->)%fmap_Some. apply find_index_lt in Hj.
  rewrite length_drop in Hj. lia.
Qed.

Lemma extract_loop_returns f fuel base names e :
  log10_safe f -> (length base < fuel)%nat ->
  (forall a b, 0 <= i32 (strtol10 (sub base a b)).1.1) ->
  returns (extract_loop f fuel base names e).
Proof.
  intros Hf; revert base names e; induction fuel as [|fuel IH]; intros base names e Hl Hnd; [lia|].
  assert (Hrec : forall k n1 e1, (k < length base)%nat ->
            returns (extract_loop f fuel (drop (S k) base) n1 e1)).
  { intros k n1 e1 Hk. apply IH; [rewrite length_drop; lia|].
    intros a b. rewrite sub_drop. apply Hnd. }
  cbn [extract_loop]. set (i := match find_index _ _ with Some i => i | None => _ end).
  destruct (Nat.eqb_spec i 0) as [|Hi]; [by eexists|].
  assert (Hil : (i <= length base)%nat).
  { unfold i. destruct (find_index is_special base) eqn:E; [|done]. apply find_index_lt in E. lia. }
  case_bool_decide; [by eexists|]. case_bool_decide as Hbr.
  - destruct (find_from ":" base (S i)) as [j|] eqn:Ej; [|by eexists].
    specialize (Hnd (S i) j). destruct (strtol10 (sub base (S i) j)) as [[v r] e1].
    destruct (e || e1); [by eexists|].
    destruct (split_range base (S i)) as [[[[d rg] sx] k]|]; [|by eexists].
    destruct (parse_pieces_returns f (take i base) (comma_pieces [] rg) (i32 v) sx names false Hf)
      as [[[rc n1] e2] Hp]; [|done|].
    { intros E. apply (f_equal length) in E. rewrite length_take in E. simpl in E. lia. }
    unfold regex_parse_node_ranges. rewrite Hp, bind_Ret.
    destruct (negb (rc =? OPAL_SUCCESS)); [by eexists|].
    case_bool_decide as Hk; [|by eexists]. apply Hrec. by eapply lookup_lt_Some.
  - destruct (opal_argv_append_nosize names (take i base)) as [rc n1].
    case_bool_decide as Hk; [|by eexists]. apply Hrec. by eapply lookup_lt_Some.
Qed.

(** One bracketed item whose parts are at known offsets. *)
Lemma extract_loop_item f fuel base names i j v r d ranges suffix k :
  find_index is_special base = Some i -> (i =? 0)%nat = false -> base !! i = Some "["%char ->
  find_from ":" base (S i) = Some j -> strtol10 (sub base (S i) j) = (v, r, false) ->
  split_range base (S i) = Some (d, ranges, suffix, k) ->
  extract_loop f (S fuel) base names false =
    ('(ret, names, erange) ←
       parse_pieces f (take i base) (comma_pieces [] ranges) (i32 v) suffix names false;
     if negb (ret =? OPAL_SUCCESS) then Ret (ret, names, erange)
     else if bool_decide (base !! k = Some ","%char) then
       extract_loop f fuel (drop (S k) base) names erange
     else Ret (ret, names, erange)).
Proof.
  intros Hi Hz Hc Hj Hv Hs. cbn [extract_loop]. rewrite Hi, Hz, Hc, Hj, Hv, Hs. done.
Qed.

(** A single number that fits the digit count. *)
Lemma parse_single f base num_digits suffix names c n :
  isdigit c = true -> strtol10 [c] = (n, [], false) -> 0 <= n -> (num_digits <? f n + 1) = false ->
  0 <= num_digits ->
  regex_parse_node_range f base [c] num_digits suffix names false =
    (str ← node_name base (Z.to_nat num_digits) suffix n;
     Ret (OPAL_SUCCESS, (opal_argv_append_nosize names str).2, n =? 0)).
Proof.
  intros Hd Hv Hn Hl Hnd. unfold regex_parse_node_range, range_bounds.
  cbn [find_index]. rewrite Hd. cbn [drop]. rewrite Hv. cbn [orb find_index]. rewrite Hd.
  cbn [negb fmap option_fmap option_map].
  rewrite Z.ltb_irrefl, Hl. replace (num_digits <? 0) with false by lia.
  replace (Z.to_nat (n - n + 1)) with 1%nat by lia. cbn [emit_names].
  by destruct (node_name base (Z.to_nat num_digits) suffix n).
Qed.

Ltac extract_item :=
  erewrite extract_loop_item by (vm_compute; reflexivity).

(** ** Properties *)

Lemma regex_create_extract_roundtrip_witness :
  exists s l, orte_regex_create (cs "n1,login,m07x,n2") false = Ret (OPAL_SUCCESS, s, false) /\
    orte_regex_extract_node_names ideal_log10 (Some s) None false =
      Ret (OPAL_SUCCESS, Some l, false) /\
    l ≡ₚ [cs "n1"; cs "login"; cs "m07x"; cs "n2"].
Proof.
  apply (regex_create_extract_roundtrip ideal_log10 ideal_log10_exact
           [cs "n1"; cs "login"; cs "m07x"; cs "n2"]); [discriminate|].
  constructor; [right; exists (cs "n"), (cs "1"), []; by repeat constructor|].
  constructor; [left; split; [split; [discriminate|by repeat constructor]|];
                by eexists None, _, _; right|].
  constructor; [right; exists (cs "m"), (cs "07"), (cs "x"); by repeat constructor|].
  constructor; [right; exists (cs "n"), (cs "2"), []; by repeat constructor|].
  constructor.
Defined.

(** Expanding any expression returns: the scan never runs forever and
    never touches memory outside its buffers, for every input whose digit
    counts are not negative as an [int]. *)
Theorem regex_extract_safe (int_log10 : Z -> Z) (s : cstr) (names : argv_t) (erange : bool) :
  log10_safe int_log10 -> (forall a b, 0 <= i32 (strtol10 (sub s a b)).1.1) ->
  exists rc names' erange',
    orte_regex_extract_node_names int_log10 (Some s) names erange = Ret (rc, names', erange').
Proof.
  intros Hf Hnd. destruct (extract_loop_returns int_log10 (S (length s)) s names erange Hf)
    as [[[rc n'] e'] He]; [lia|done|]. eauto.
Qed.

(** A string of letters holds no negative digit count. *)
Lemma letters_no_count s a b : all_alpha s -> 0 <= i32 (strtol10 (sub s a b)).1.1.
Proof.
  intros Hs. assert (Hsub : all_alpha (sub s a b)) by (by apply Forall_take, Forall_drop).
  destruct Hsub as [|c t Hc Ht]; [done|].
  assert (Hz : 65 <= char_Z c) by (unfold isalpha in Hc; lia).
  unfold strtol10. cbn [skip_space].
  replace (isspace c) with false by (unfold isspace; lia).
  cbn [strtol_sign]. rewrite !eqc_ne by (intros ->; unfold char_Z in Hz; simpl in Hz; lia).
  cbn [span_digits]. replace (isdigit c) with false by (unfold isdigit; lia). done.
Qed.

Lemma regex_extract_safe_witness :
  exists rc names' erange',
    orte_regex_extract_node_names ideal_log10 (Some (cs "login")) None false =
    Ret (rc, names', erange').
Proof.
  apply (regex_extract_safe ideal_log10 (cs "login") None false); [apply ideal_log10_safe|].
  intros a b. apply letters_no_count. by repeat constructor.
Defined.

(** A digit count of -1 with the single number 0 passes every check (the
    logarithm of 0 is below it) and the padding loop then writes past the end
    of its buffer. *)
Theorem regex_negative_digits_ub (int_log10 : Z -> Z) :
  int_log10 0 + 1 <= -1 ->
  orte_regex_extract_node_names int_log10 (Some (cs "node[-1:0]")) None false = Ub.
Proof.
  intros H0. unfold orte_regex_extract_node_names. extract_item.
  replace (comma_pieces [] _) with [cs "0"] by (vm_compute; reflexivity).
  cbn [parse_pieces]. unfold regex_parse_node_range.
  replace (range_bounds (cs "0") false) with (@inl (Z * Z) Z (0, 0), false)
    by (vm_compute; reflexivity).
  cbv beta iota. rewrite Z.ltb_irrefl. change (i32 (-1)) with (-1).
  by destruct (Z.ltb_spec (-1) (int_log10 0 + 1)); [lia|].
Qed.

Lemma regex_negative_digits_ub_witness :
  orte_regex_extract_node_names ideal_log10 (Some (cs "node[-1:0]")) None false = Ub.
Proof. apply (regex_negative_digits_ub ideal_log10). vm_compute. discriminate. Defined.

(** Expanding the number 0 on its own leaves [errno] at [ERANGE], and from
    then on every expression with brackets is rejected; the same numbers in
    the other order are accepted. *)
Theorem regex_isolated_zero_poisons_errno (int_log10 : Z -> Z) :
  log10_exact int_log10 ->
  orte_regex_extract_node_names int_log10 (Some (cs "node[1:0,1]")) None false =
    Ret (OPAL_ERR_BAD_PARAM, Some [cs "node0"], true) /\
  orte_regex_extract_node_names int_log10 (Some (cs "node[1:1,0]")) None false =
    Ret (OPAL_SUCCESS, Some [cs "node1"; cs "node0"], true) /\
  orte_regex_extract_node_names int_log10 (Some (cs "node[1:1]")) None true =
    Ret (OPAL_ERR_BAD_PARAM, None, true).
Proof.
  intros [Hl H0]. assert (H1 : int_log10 1 = 0) by (rewrite Hl by lia; done).
  assert (Hz : (1 <? int_log10 0 + 1) = false) by lia.
  assert (Ho : (1 <? int_log10 1 + 1) = false) by lia.
  split_and!; [| |vm_compute; reflexivity];
    unfold orte_regex_extract_node_names; extract_item; change (i32 1) with 1.
  - replace (comma_pieces [] _) with [cs "0"; cs "1"] by (vm_compute; reflexivity).
    cbn [parse_pieces]. by rewrite (parse_single _ _ 1 _ _ "0" 0) by done.
  - replace (comma_pieces [] _) with [cs "1"; cs "0"] by (vm_compute; reflexivity).
    cbn [parse_pieces]. rewrite (parse_single _ _ 1 _ _ "1" 1) by done. simpl.
    by rewrite (parse_single _ _ 1 _ _ "0" 0) by done.
Qed.

Lemma regex_isolated_zero_poisons_errno_witness :
  orte_regex_extract_node_names ideal_log10 (Some (cs "node[1:0,1]")) None false =
    Ret (OPAL_ERR_BAD_PARAM, Some [cs "node0"], true) /\
  orte_regex_extract_node_names ideal_log10 (Some (cs "node[1:1,0]")) None false =
    Ret (OPAL_SUCCESS, Some [cs "node1"; cs "node0"], true) /\
  orte_regex_extract_node_names ideal_log10 (Some (cs "node[1:1]")) None true =
    Ret (OPAL_ERR_BAD_PARAM, None, true).
Proof. apply (regex_isolated_zero_poisons_errno ideal_log10). apply ideal_log10_exact. Defined.

(** Names with digits after a letter suffix do not survive compression:
    all digits of the name are counted as the width of its first number. *)
Theorem regex_two_numeric_fields_lost (int_log10 : Z -> Z) :
  log10_exact int_log10 ->
  exists s, orte_regex_create (cs "r1n1,r1n2") false = Ret (OPAL_SUCCESS, s, false) /\
    orte_regex_extract_node_names int_log10 (Some s) None false =
      Ret (OPAL_SUCCESS, Some [cs "r01n1"; cs "r01n2"], false).
Proof.
  intros [Hl _]. assert (H1 : int_log10 1 = 0) by (rewrite Hl by lia; done).
  assert (Ho : (2 <? int_log10 1 + 1) = false) by lia.
  exists (cs "r[2:1]n1,r[2:1]n2"). split; [vm_compute; reflexivity|].
  unfold orte_regex_extract_node_names. extract_item. change (i32 2) with 2.
  replace (comma_pieces [] _) with [cs "1"] by (vm_compute; reflexivity).
  cbn [parse_pieces]. rewrite (parse_single _ _ 2 _ _ "1" 1) by done.
  replace (node_name _ _ _ 1) with (Ret (cs "r01n1")) by (vm_compute; reflexivity).
  rewrite !bind_Ret. cbn [Z.eqb OPAL_SUCCESS negb]. rewrite bool_decide_eq_true_2 by done.
  replace (drop _ _) with (cs "r[2:1]n2") by (vm_compute; reflexivity).
  change (1 =? 0) with false. change (length _) with 17%nat. rewrite bind_Ret.
  cbn [Z.eqb OPAL_SUCCESS negb]. extract_item. change (i32 2) with 2.
  replace (comma_pieces [] _) with [cs "1"] by (vm_compute; reflexivity).
  cbn [parse_pieces]. by rewrite (parse_single _ _ 2 _ _ "1" 1) by done.
Qed.

Lemma regex_two_numeric_fields_lost_witness :
  exists s, orte_regex_create (cs "r1n1,r1n2") false = Ret (OPAL_SUCCESS, s, false) /\
    orte_regex_extract_node_names ideal_log10 (Some s) None false =
      Ret (OPAL_SUCCESS, Some [cs "r01n1"; cs "r01n2"], false).
Proof. apply (regex_two_numeric_fields_lost ideal_log10). apply ideal_log10_exact. Defined.

(** ** Processes per node *)
Definition print_ppn (cr : Z * Z) : cstr :=
  dec cr.1 ++ "("%char :: "x"%char :: dec cr.2 ++ [")"%char].

Definition ppn_entries (l : list (Z * Z)) : list Z :=
  l ≫= fun cr => replicate (Z.to_nat cr.2) cr.1.

Lemma take_app_take {A} n (a b : list A) : take n (take n a ++ b) = take n (a ++ b).
Proof.
  rewrite !take_app, take_take, Nat.min_id, length_take. f_equal. f_equal.
  destruct (Nat.min_spec n (length a)); lia.
Qed.

Lemma ppn_loop_spec l fuel n tmp :
  l <> [] -> Forall (fun cr => 0 <= cr.1 <= INT_MAX /\ 0 <= cr.2 <= INT_MAX) l ->
  (length l <= fuel)%nat ->
  ppn_loop fuel n (join_spec "," (print_ppn <$> l)) (take n tmp) = Ret (Some (take n (tmp ++ ppn_entries l))).
Proof.
  revert fuel tmp; induction l as [|[c r] l IH]; intros fuel tmp Hne Hall Hf; [done|].
  destruct fuel as [|fuel]; [simpl in Hf; lia|]. apply Forall_cons_iff in Hall as [[Hc Hr] Hall].
  cbn [fst snd] in Hc, Hr. unfold INT_MAX in *.
  set (tail := match l with [] => [] | _ => ","%char :: join_spec "," (print_ppn <$> l) end).
  assert (Hj : join_spec "," (print_ppn <$> (c, r) :: l) =
               dec c ++ "("%char :: "x"%char :: dec r ++ ")"%char :: tail).
  { unfold tail. destruct l as [|y l]; cbn [fmap list_fmap]; [cbn [join_spec]|rewrite join_spec_cons];
      unfold print_ppn; cbn [fst snd]; [done|].
    by repeat (rewrite <- app_assoc; cbn [app]). }
  rewrite Hj. cbn [ppn_loop]. rewrite strtol10_dec by (unfold LONG_MAX; done || lia). cbv beta iota.
  rewrite strtol10_dec by (unfold LONG_MAX; done || lia). cbv beta iota.
  rewrite !i32_small by (unfold INT_MIN, INT_MAX; lia).
  rewrite take_app_take. subst tail. destruct l as [|y l].
  - unfold ppn_entries. cbn. by rewrite app_nil_r.
  - cbv iota. rewrite IH; [|done|done|simpl in *; lia]. unfold ppn_entries. cbn [mbind list_bind].
    cbn [fst snd]. by rewrite <- app_assoc.
Qed.

(** An expression [count(xreps),...] gives each run of nodes its count,
    cut at the number of nodes and padded with zeros up to it. *)
Theorem regex_ppn_correct (num_nodes : Z) (l : list (Z * Z)) :
  0 <= num_nodes -> l <> [] ->
  Forall (fun cr => 0 <= cr.1 <= INT_MAX /\ 0 <= cr.2 <= INT_MAX) l ->
  orte_regex_extract_ppn num_nodes (join_spec "," (print_ppn <$> l)) =
  Ret (OPAL_SUCCESS,
       Some (take (Z.to_nat num_nodes) (ppn_entries l ++ replicate (Z.to_nat num_nodes) 0))).
Proof.
  intros Hn Hne Hall. unfold orte_regex_extract_ppn.
  destruct (Z.ltb_spec num_nodes 0); [lia|]. set (n := Z.to_nat num_nodes).
  pose proof (ppn_loop_spec l (S (length (join_spec "," (print_ppn <$> l)))) n [] Hne Hall) as E.
  rewrite take_nil in E. rewrite E.
  2: { pose proof (length_join_spec "," (print_ppn <$> l)) as Hj. rewrite length_fmap in Hj. lia. }
  rewrite bind_Ret. cbn [app]. do 3 f_equal. rewrite take_app. f_equal.
  rewrite length_take, take_replicate. f_equal. lia.
Qed.

Lemma regex_ppn_correct_witness :
  orte_regex_extract_ppn 5 (cs "4(x2),1(x1)") = Ret (OPAL_SUCCESS, Some [4; 4; 1; 0; 0]).
Proof.
  apply (regex_ppn_correct 5 [(4, 2); (1, 1)]); [lia|done|].
  repeat constructor; vm_compute; discriminate.
Defined.

(** A range of one-character names is only found when nothing precedes
    its bracket: the search for the closing bracket stops at the terminator
    written over the opening one, so every expression with a prefix is
    rejected. *)
Theorem regex_name_range_prefix_rejected (pre inner : cstr) (names : argv_t) :
  pre <> [] -> no_char "[" pre -> no_char "]" pre ->
  orte_regex_extract_name_range (pre ++ "["%char :: inner) names = Ret (OPAL_ERR_BAD_PARAM, names).
Proof.
  intros Hne Ho Hc. unfold orte_regex_extract_name_range, strchr.
  rewrite find_index_app; [|exact Ho|apply eqc_refl].
  destruct (Nat.eqb_spec (length pre) 0) as [Hz|_]; [by destruct pre|].
  rewrite take_app_length. unfold strrchr.
  rewrite (proj2 (find_index_None (eqc "]") (reverse pre))); [done|].
  apply Forall_reverse. exact Hc.
Qed.

Lemma regex_name_range_prefix_rejected_witness :
  orte_regex_extract_name_range (cs "rack[a-c]") None = Ret (OPAL_ERR_BAD_PARAM, None).
Proof.
  apply (regex_name_range_prefix_rejected (cs "rack") (cs "a-c]") None);
    [discriminate|by repeat constructor|by repeat constructor].
Defined.

Example name_range_without_prefix :
  orte_regex_extract_name_range (cs "[a-c,x]1") None =
  Ret (OPAL_SUCCESS, Some [cs "a1"; cs "b1"; cs "c1"; cs "x1"]).
Proof. reflexivity. Qed.
