(* ===== verification/LogicalGroup.v ===== *)
(** * Logical groups of nodes ([orcm/util/logical_group.c])

    Groups live in a hash table from tags to member lists.  The table holds
    pointers: the source edits a list in place and shares it between tables,
    so the lists live in a heap ([w_lists]) and the table maps a key to an
    address.  Reading or releasing an address that is not live is [Ub].  Each
    list is created with one reference and is never retained, so
    [OBJ_RELEASE] frees it.

    A key is the bytes of the tag and its final NUL.  [current_tag], the
    [errno] of the expression parser and the heap form the [world] threaded
    through the calls.  The parser framework ([orcm_parser]) and the creation
    of the storage file are the interface [Parser]: the plugin behind it is
    chosen at run time. *)

From S2P Require Import Prelude CString Argv HashTable Regex.
From stdpp Require Import base strings numbers list gmap fin_maps.
From Stdlib Require Import ZArith Lia Ascii.

Open Scope Z_scope.

Definition HASH_SIZE : Z := 1000.
Definition MAX_LINE_LENGTH : nat := 1024.

(** Address of an [opal_list_t] of members. *)
Abbreviation lptr := nat.
Abbreviation groups_t := (opal_hash_table_t (list ascii) lptr).

Record world : Type := MkWorld {
  w_lists : gmap lptr (list cstr);
  w_next : lptr;
  w_erange : bool;
  w_current_tag : option cstr
}.

Definition set_lists (w : world) (m : gmap lptr (list cstr)) : world :=
  MkWorld m (w_next w) (w_erange w) (w_current_tag w).
Definition set_erange (w : world) (e : bool) : world :=
  MkWorld (w_lists w) (w_next w) e (w_current_tag w).
Definition set_current_tag (w : world) (t : option cstr) : world :=
  MkWorld (w_lists w) (w_next w) (w_erange w) t.

(** [OBJ_NEW(opal_list_t)]; allocation succeeds. *)
Definition list_new (w : world) : lptr * world :=
  (w_next w, MkWorld (<[w_next w := []]> (w_lists w)) (S (w_next w)) (w_erange w)
               (w_current_tag w)).

Definition list_read (w : world) (p : lptr) : outcome (list cstr) :=
  match w_lists w !! p with Some l => Ret l | None => Ub end.

Definition list_write (w : world) (p : lptr) (l : list cstr) : outcome world :=
  match w_lists w !! p with
  | Some _ => Ret (set_lists w (<[p := l]> (w_lists w)))
  | None => Ub
  end.

Definition obj_release (w : world) (p : lptr) : outcome world :=
  match w_lists w !! p with
  | Some _ => Ret (set_lists w (delete p (w_lists w)))
  | None => Ub
  end.

(** The [strlen(tag) + 1] bytes used as key, and the C string at a key. *)
Definition NUL : ascii := zero.
Definition tag_key (tag : cstr) : list ascii := tag ++ [NUL].
Definition key_tag (key : list ascii) : cstr :=
  match find_index (eqc NUL) key with Some i => take i key | None => key end.

(** The values a configuration file holds: strings, nested lists, others. *)
#[warnings="-register-all"]
Inductive orcm_value_t : Type :=
| VString (key data : cstr)
| VPtr (key : cstr) (data : list orcm_value_t)
| VOther (key : cstr).

Section Groups.
Variable int_log10 : Z -> Z.
Variable calloc_ok : Z -> bool.

Definition extract_names (regex : option cstr) (w : world) : outcome (Z * argv_t * world) :=
  '(rc, names, e) ← orte_regex_extract_node_names int_log10 regex None (w_erange w);
  Ret (rc, names, set_erange w e).

(** ** Adding members *)
Definition orcm_logical_group_hash_table_get (groups : groups_t) (tag : cstr) (w : world)
    : outcome (Z * lptr * groups_t * world) :=
  '(erri, o_group_members, groups) ← opal_hash_table_get_value_ptr groups (tag_key tag);
  match o_group_members with
  | Some p =>
    if erri =? OPAL_ERR_NOT_FOUND
    then let '(p, w) := list_new w in Ret (OPAL_SUCCESS, p, groups, w)
    else Ret (OPAL_SUCCESS, p, groups, w)
  | None => let '(p, w) := list_new w in Ret (OPAL_SUCCESS, p, groups, w)
  end.

(** [strncmp(a, b, strlen(a) + 1)] compares whole strings. *)
Fixpoint member_exist (group_members : list cstr) (new_member : cstr) : bool :=
  match group_members with
  | [] => false
  | m :: rest => if strcmp0 m new_member then true else member_exist rest new_member
  end.

Definition orcm_logical_group_list_append (member : cstr) (member_list : list cstr)
    : Z * list cstr := (OPAL_SUCCESS, member_list ++ [member]).

(** The loop of [orcm_logical_group_add_internal]. *)
Fixpoint add_members (new_members : list cstr) (group_members : lptr) (w : world)
    : outcome (Z * world) :=
  match new_members with
  | [] => Ret (OPAL_SUCCESS, w)
  | m :: rest =>
    l ← list_read w group_members;
    if member_exist l m then add_members rest group_members w
    else
      let '(erri, l) := orcm_logical_group_list_append m l in
      w ← list_write w group_members l;
      if negb (erri =? OPAL_SUCCESS) then Ret (erri, w) else add_members rest group_members w
  end.

Definition orcm_logical_group_add_internal (tag : cstr) (new_members : argv_t)
    (group_members : lptr) (io_groups : groups_t) (w : world) : outcome (Z * groups_t * world) :=
  '(erri, w) ← add_members (argv_list new_members) group_members w;
  if erri =? OPAL_SUCCESS then
    '(erri, io_groups) ←
      opal_hash_table_set_value_ptr calloc_ok io_groups (tag_key tag) group_members;
    Ret (erri, io_groups, w)
  else Ret (erri, io_groups, w).

Definition orcm_logical_group_add (tag regex : option cstr) (io_groups : option groups_t)
    (w : world) : outcome (Z * option groups_t * world) :=
  match io_groups with
  | None => Ret (OPAL_ERR_BAD_PARAM, None, w)
  | Some groups =>
    match tag with
    | None => Ub                                        (* strlen(NULL) *)
    | Some tag =>
      '(erri, group_members, groups, w) ← orcm_logical_group_hash_table_get groups tag w;
      if negb (erri =? OPAL_SUCCESS) then Ret (erri, Some groups, w)
      else
        '(erri, new_members, w) ← extract_names regex w;
        '(erri, groups, w) ←
          (if negb (erri =? OPAL_SUCCESS) then Ret (erri, groups, w)
           else orcm_logical_group_add_internal tag new_members group_members groups w);
        if negb (erri =? OPAL_SUCCESS) then
          w ← obj_release w group_members;
          Ret (erri, Some groups, w)
        else Ret (erri, Some groups, w)
    end
  end.

Definition is_do_all_wildcard (text : option cstr) : bool :=
  match text with Some t => strcmp0 t (cs "*") | None => false end.

(** ** Removing members *)
Definition orcm_logical_group_all_members_exist_one_tag (value : list cstr) (members : argv_t)
    : Z :=
  if forallb (member_exist value) (argv_list members) then OPAL_SUCCESS
  else ORCM_ERR_NODE_NOT_EXIST.

(** The [while] over [opal_hash_table_get_next_key_ptr]: the cursor strictly
    grows, so the number of slots bounds the iterations. *)
Fixpoint all_exist_loop (fuel : nat) (groups : groups_t) (members : argv_t)
    (in_member : option nat) (w : world) : outcome Z :=
  match fuel with
  | O => Diverge
  | S fuel' =>
    match opal_hash_table_get_next_key_ptr groups in_member with
    | None => Ret OPAL_SUCCESS
    | Some (_, value, out_member) =>
      l ← list_read w value;
      let erri := orcm_logical_group_all_members_exist_one_tag l members in
      if negb (erri =? OPAL_SUCCESS) then Ret erri
      else all_exist_loop fuel' groups members (Some out_member) w
    end
  end.

Definition loop_fuel (groups : groups_t) : nat := S (length (ht_table groups)).

Definition orcm_logical_group_all_members_exist_all_tags (groups : groups_t) (members : argv_t)
    (w : world) : outcome Z := all_exist_loop (loop_fuel groups) groups members None w.

(** The inner [OPAL_LIST_FOREACH_SAFE]: unlink the first equal member. *)
Fixpoint remove_first (m : cstr) (l : list cstr) : list cstr :=
  match l with
  | [] => []
  | x :: l' => if strcmp0 m x then l' else x :: remove_first m l'
  end.

Definition remove_listed (members : list cstr) (l : list cstr) : list cstr :=
  foldl (fun l m => remove_first m l) l members.

Definition orcm_logical_group_hash_table_remove_members (tag : cstr) (value : lptr)
    (members : argv_t) (io_groups : groups_t) (w : world) : outcome (Z * groups_t * world) :=
  l ← list_read w value;
  let l' := remove_listed (argv_list members) l in
  w ← list_write w value l';
  '(rc, io_groups) ←
    match l' with
    | [] => opal_hash_table_remove_value_ptr io_groups (tag_key tag)
    | _ => opal_hash_table_set_value_ptr calloc_ok io_groups (tag_key tag) value
    end;
  Ret (rc, io_groups, w).

Fixpoint remove_all_loop (fuel : nat) (members : argv_t) (io_groups : groups_t)
    (in_member : option nat) (erri : Z) (w : world) : outcome (Z * groups_t * world) :=
  match fuel with
  | O => Diverge
  | S fuel' =>
    match opal_hash_table_get_next_key_ptr io_groups in_member with
    | None => Ret (erri, io_groups, w)
    | Some (key, value, out_member) =>
      '(erri, io_groups, w) ←
        orcm_logical_group_hash_table_remove_members (key_tag key) value members io_groups w;
      if negb (erri =? OPAL_SUCCESS) then Ret (erri, io_groups, w)
      else remove_all_loop fuel' members io_groups (Some out_member) erri w
    end
  end.

Definition orcm_logical_group_remove_all_tags (members : argv_t) (do_all_member : bool)
    (io_groups : groups_t) (w : world) : outcome (Z * groups_t * world) :=
  if do_all_member then
    let '(rc, io_groups) := opal_hash_table_remove_all io_groups in Ret (rc, io_groups, w)
  else
    erri ← orcm_logical_group_all_members_exist_all_tags io_groups members w;
    if negb (erri =? OPAL_SUCCESS) then Ret (erri, io_groups, w)
    else remove_all_loop (loop_fuel io_groups) members io_groups None erri w.

Definition orcm_logical_group_remove_a_tag (tag : cstr) (members : argv_t)
    (do_all_member : bool) (io_groups : groups_t) (w : world)
    : outcome (Z * groups_t * world) :=
  '(erri, value, io_groups) ← opal_hash_table_get_value_ptr io_groups (tag_key tag);
  match value with
  | Some value =>
    if do_all_member then
      '(rc, io_groups) ← opal_hash_table_remove_value_ptr io_groups (tag_key tag);
      Ret (rc, io_groups, w)
    else
      l ← list_read w value;
      let erri := orcm_logical_group_all_members_exist_one_tag l members in
      if negb (erri =? OPAL_SUCCESS) then Ret (erri, io_groups, w)
      else orcm_logical_group_hash_table_remove_members tag value members io_groups w
  | None =>
    if erri =? OPAL_ERR_NOT_FOUND then Ret (ORCM_ERR_GROUP_NOT_EXIST, io_groups, w)
    else Ret (erri, io_groups, w)
  end.

Definition orcm_logical_group_remove_internal (tag : option cstr) (do_all_tag : bool)
    (members : argv_t) (do_all_member : bool) (io_groups : groups_t) (w : world)
    : outcome (Z * groups_t * world) :=
  if do_all_tag then orcm_logical_group_remove_all_tags members do_all_member io_groups w
  else
    match tag with
    | None => Ub                                        (* strlen(NULL) *)
    | Some tag => orcm_logical_group_remove_a_tag tag members do_all_member io_groups w
    end.

Definition orcm_logical_group_remove (tag regex : option cstr) (io_groups : option groups_t)
    (w : world) : outcome (Z * option groups_t * world) :=
  match io_groups with
  | None => Ret (OPAL_ERR_BAD_PARAM, None, w)
  | Some groups =>
    if opal_hash_table_get_size groups =? 0 then Ret (ORCM_ERR_NO_ANY_GROUP, Some groups, w)
    else
      let do_all_tag := is_do_all_wildcard tag in
      let do_all_member := is_do_all_wildcard regex in
      '(erri, members, w) ←
        (if do_all_member then Ret (OPAL_SUCCESS, None, w) else extract_names regex w);
      if negb (erri =? OPAL_SUCCESS) then Ret (erri, Some groups, w)
      else
        '(erri, groups, w) ←
          orcm_logical_group_remove_internal tag do_all_tag members do_all_member groups w;
        Ret (erri, Some groups, w)
  end.

(** ** Listing members *)

(** The members asked for that the list holds, in the order asked. *)
Definition listed (members : list cstr) (value : list cstr) : list cstr :=
  List.filter (member_exist value) members.

Definition orcm_logical_group_list_specific_members (value : lptr) (members : argv_t)
    (w : world) : outcome (option lptr * world) :=
  if opal_argv_count members =? 0 then Ret (None, w)
  else
    let '(new_value, w) := list_new w in
    l ← list_read w value;
    let l' := listed (argv_list members) l in
    w ← list_write w new_value l';
    match l' with
    | [] => w ← obj_release w new_value; Ret (None, w)
    | _ => Ret (Some new_value, w)
    end.

Fixpoint list_all_loop (fuel : nat) (members : argv_t) (groups o_groups : groups_t)
    (in_member : option nat) (w : world) : outcome (groups_t * world) :=
  match fuel with
  | O => Diverge
  | S fuel' =>
    match opal_hash_table_get_next_key_ptr groups in_member with
    | None => Ret (o_groups, w)
    | Some (key, value, o_member) =>
      '(new_value, w) ← orcm_logical_group_list_specific_members value members w;
      match new_value with
      | Some p =>
        '(_, o_groups) ← opal_hash_table_set_value_ptr calloc_ok o_groups key p;
        list_all_loop fuel' members groups o_groups (Some o_member) w
      | None => list_all_loop fuel' members groups o_groups (Some o_member) w
      end
    end
  end.

Definition new_groups : outcome groups_t :=
  '(_, t) ← opal_hash_table_init calloc_ok opal_hash_table_construct HASH_SIZE;
  Ret t.

(** With all members asked for, the table itself is returned. *)
Definition orcm_logical_group_list_all_tags (members : argv_t) (do_all_member : bool)
    (groups : groups_t) (w : world) : outcome (option groups_t * world) :=
  if do_all_member then Ret (Some groups, w)
  else
    o_groups ← new_groups;
    '(o_groups, w) ← list_all_loop (loop_fuel groups) members groups o_groups None w;
    Ret (Some o_groups, w).

Definition orcm_logical_group_list_a_tag (tag : cstr) (members : argv_t) (do_all_member : bool)
    (groups : groups_t) (w : world) : outcome (option groups_t * world) :=
  '(_, value, groups) ← opal_hash_table_get_value_ptr groups (tag_key tag);
  match value with
  | None => Ret (None, w)
  | Some value =>
    o_groups ← new_groups;
    if do_all_member then
      '(_, o_groups) ← opal_hash_table_set_value_ptr calloc_ok o_groups (tag_key tag) value;
      Ret (Some o_groups, w)
    else
      '(new_value, w) ← orcm_logical_group_list_specific_members value members w;
      match new_value with
      | Some p =>
        '(_, o_groups) ← opal_hash_table_set_value_ptr calloc_ok o_groups (tag_key tag) p;
        Ret (Some o_groups, w)
      | None => Ret (Some o_groups, w)
      end
  end.

Definition orcm_logical_group_list_internal (tag : option cstr) (do_all_tag : bool)
    (members : argv_t) (do_all_member : bool) (groups : groups_t) (w : world)
    : outcome (option groups_t * world) :=
  if do_all_tag then orcm_logical_group_list_all_tags members do_all_member groups w
  else
    match tag with
    | None => Ub
    | Some tag => orcm_logical_group_list_a_tag tag members do_all_member groups w
    end.

Definition orcm_logical_group_list (tag regex : option cstr) (groups : option groups_t)
    (w : world) : outcome (option groups_t * world) :=
  match groups with
  | None => Ret (None, w)
  | Some groups =>
    let do_all_tag := is_do_all_wildcard tag in
    let do_all_member := is_do_all_wildcard regex in
    '(erri, members, w) ←
      (if do_all_member then Ret (OPAL_SUCCESS, None, w) else extract_names regex w);
    if negb (erri =? OPAL_SUCCESS) then Ret (None, w)
    else orcm_logical_group_list_internal tag do_all_tag members do_all_member groups w
  end.

(** ** Loading *)
Definition orcm_logical_group_process_tag_line (tag : cstr) (w : world) : Z * world :=
  match w_current_tag w with
  | Some t => if strcmp0 t tag then (OPAL_SUCCESS, w)
              else (OPAL_SUCCESS, set_current_tag w (Some tag))
  | None => (OPAL_SUCCESS, set_current_tag w (Some tag))
  end.

(** One item; [inl rc] is an early return, [inr erri] the status that the
    loop keeps and the next string item overwrites. *)
Fixpoint parsing_item (item : orcm_value_t) (erri : Z) (groups : option groups_t) (w : world)
    : outcome ((Z + Z) * option groups_t * world) :=
  match item with
  | VString key data =>
    if strcmp0 (cs "name") key then
      let '(erri, w) := orcm_logical_group_process_tag_line data w in
      Ret (inr erri, groups, w)
    else if strcmp0 (cs "members") key then
      '(erri, groups, w) ← orcm_logical_group_add (w_current_tag w) (Some data) groups w;
      Ret (inr erri, groups, w)
    else Ret (inr OPAL_ERR_BAD_PARAM, groups, w)
  | VPtr key data =>
    if strcmp0 key (cs "group") then
      '(rc, groups, w) ←
        (fix parsing (l : list orcm_value_t) (erri : Z) (groups : option groups_t) (w : world)
             : outcome (Z * option groups_t * world) :=
           match l with
           | [] => Ret (erri, groups, w)
           | item :: l' =>
             '(r, groups, w) ← parsing_item item erri groups w;
             match r with
             | inl rc => Ret (rc, groups, w)
             | inr erri => parsing l' erri groups w
             end
           end) data OPAL_SUCCESS groups w;
      if negb (rc =? OPAL_SUCCESS) then Ret (inl rc, groups, w)
      else Ret (inr erri, groups, w)
    else Ret (inl OPAL_ERR_BAD_PARAM, groups, w)
  | VOther _ => Ret (inl OPAL_ERR_BAD_PARAM, groups, w)
  end.

Fixpoint parsing_items (l : list orcm_value_t) (erri : Z) (groups : option groups_t) (w : world)
    : outcome (Z * option groups_t * world) :=
  match l with
  | [] => Ret (erri, groups, w)
  | item :: l' =>
    '(r, groups, w) ← parsing_item item erri groups w;
    match r with
    | inl rc => Ret (rc, groups, w)
    | inr erri => parsing_items l' erri groups w
    end
  end.

Definition orcm_logical_group_parsing (result_list : list orcm_value_t)
    (groups : option groups_t) (w : world) : outcome (Z * option groups_t * world) :=
  parsing_items result_list OPAL_SUCCESS groups w.

(** The loop of [orcm_logical_group_parse_from_file]. *)
Fixpoint parse_sections (l : list orcm_value_t) (groups : option groups_t) (w : world)
    : outcome (Z * option groups_t * world) :=
  match l with
  | [] => Ret (OPAL_SUCCESS, groups, w)
  | VPtr key data :: l' =>
    if strcmp0 key (cs "logicalgroup") then
      '(rc, groups, w) ← orcm_logical_group_parsing data groups w;
      if negb (rc =? OPAL_SUCCESS) then Ret (rc, groups, w) else parse_sections l' groups w
    else parse_sections l' groups w
  | _ :: _ => Ret (OPAL_ERROR, groups, w)
  end.

(** ** Saving *)

(** [strncat(buf, t, strlen(t))] on a buffer of [size] bytes. *)
Definition strcat_buf (size : nat) (buf t : cstr) : outcome cstr :=
  if (length buf + length t + 1 <=? size)%nat then Ret (buf ++ t) else Ub.

Fixpoint do_convertion_loop (members_list : list cstr) (memberlist : cstr)
    (reserved_size : nat) (new_members_list : list cstr) : outcome (list cstr) :=
  match members_list with
  | [] => Ret new_members_list
  | m :: rest =>
    let '(memberlist, new_members_list) :=
      if (reserved_size <? length memberlist + length m + 1)%nat
      then ([], (orcm_logical_group_list_append memberlist new_members_list).2)
      else (memberlist, new_members_list) in
    memberlist ← (if (0 <? length memberlist)%nat
                  then strcat_buf reserved_size memberlist (cs ",") else Ret memberlist);
    memberlist ← strcat_buf reserved_size memberlist m;
    let new_members_list :=
      match rest with
      | [] => if (0 <? length memberlist)%nat
              then (orcm_logical_group_list_append memberlist new_members_list).2
              else new_members_list
      | _ => new_members_list
      end in
    do_convertion_loop rest memberlist reserved_size new_members_list
  end.

Definition orcm_logical_group_do_convertion (members_list : list cstr) (memberlist : cstr)
    (reserved_size : nat) : outcome (list cstr) :=
  do_convertion_loop members_list memberlist reserved_size [].

(** The buffer has exactly [max_size] bytes. *)
Definition orcm_logical_group_convert_members_list (members_list : option (list cstr))
    (max_size : nat) : outcome (option (list cstr)) :=
  match members_list with
  | None | Some [] => Ret None
  | Some l =>
    if (max_size =? 0)%nat then Ret None
    else r ← orcm_logical_group_do_convertion l [] max_size; Ret (Some r)
  end.

Definition line_size : nat := MAX_LINE_LENGTH - length (cs "member list=").

Definition orcm_logical_group_save_to_file_concat (parser_input : list orcm_value_t)
    (tag : cstr) (members_list : list cstr) : outcome (Z * list orcm_value_t) :=
  new_members_list ← orcm_logical_group_convert_members_list (Some members_list) line_size;
  match new_members_list with
  | None => Ret (OPAL_SUCCESS, parser_input)
  | Some regexes =>
    let inner_list := VString (cs "name") tag :: (VString (cs "members") <$> regexes) in
    Ret (OPAL_SUCCESS, parser_input ++ [VPtr (cs "group") inner_list])
  end.

Fixpoint save_loop (fuel : nat) (groups : groups_t) (in_member : option nat)
    (parser_input : list orcm_value_t) (w : world) : outcome (Z * list orcm_value_t) :=
  match fuel with
  | O => Diverge
  | S fuel' =>
    match opal_hash_table_get_next_key_ptr groups in_member with
    | None => Ret (OPAL_SUCCESS, parser_input)
    | Some (key, value, out_member) =>
      l ← list_read w value;
      '(erri, parser_input) ←
        orcm_logical_group_save_to_file_concat parser_input (key_tag key) l;
      if negb (erri =? OPAL_SUCCESS) then Ret (erri, parser_input)
      else save_loop fuel' groups (Some out_member) parser_input w
    end
  end.

(** ** Expanding expressions *)

(** Offset-free view of the two pointers of the source: drop blanks in front,
    then cut them at the end. *)
Definition is_blank (c : ascii) : bool := eqc c " " || eqc c "009".

Fixpoint skip_blanks (s : cstr) : cstr :=
  match s with
  | c :: s' => if is_blank c then skip_blanks s' else s
  | [] => []
  end.

Definition orcm_logical_group_trim_string (string : option cstr) : option cstr :=
  match string with
  | None => None
  | Some s => Some (reverse (skip_blanks (reverse (skip_blanks s))))
  end.

(** The members of one tag: nested groups go to the work list, nodes to the
    result.  [count] grows for every nested group, new in the list or not. *)
Fixpoint nested_members (value : list cstr) (groups : groups_t) (count : Z)
    (tag_array o_array_string : argv_t) : outcome (Z * Z * argv_t * argv_t) :=
  match value with
  | [] => Ret (OPAL_SUCCESS, count, tag_array, o_array_string)
  | m :: rest =>
    '(rc, _, groups) ← opal_hash_table_get_value_ptr groups (tag_key m);
    if rc =? OPAL_SUCCESS then
      let '(erri, tag_array) := opal_argv_append_unique_nosize tag_array m false in
      if negb (erri =? OPAL_SUCCESS) then Ret (erri, count, tag_array, o_array_string)
      else nested_members rest groups (count + 1) tag_array o_array_string
    else
      let '(erri, o_array_string) := opal_argv_append_unique_nosize o_array_string m false in
      if negb (erri =? OPAL_SUCCESS) then Ret (erri, count, tag_array, o_array_string)
      else nested_members rest groups count tag_array o_array_string
  end.

Fixpoint nested_loop (fuel : nat) (groups : groups_t) (count : Z)
    (tag_array o_array_string : argv_t) (erri : Z) (w : world) : outcome (Z * argv_t) :=
  match fuel with
  | O => Diverge
  | S fuel' =>
    if 0 <? count then
      match argv_list tag_array !! O with
      | None => Ub                                      (* strlen(NULL) *)
      | Some tag =>
        '(_, value, groups) ← opal_hash_table_get_value_ptr groups (tag_key tag);
        l ← match value with Some p => list_read w p | None => Ret [] end;
        '(erri, count, tag_array, o_array_string) ←
          nested_members l groups count tag_array o_array_string;
        if negb (erri =? OPAL_SUCCESS) then Ret (erri, o_array_string)
        else
          let '(erri, count, tag_array) := opal_argv_delete count tag_array 0 1 in
          if negb (erri =? OPAL_SUCCESS) then Ret (erri, o_array_string)
          else nested_loop fuel' groups count tag_array o_array_string erri w
      end
    else Ret (erri, o_array_string)
  end.

Definition orcm_logical_group_tag_to_members_nested (fuel : nat) (groups : groups_t)
    (tag_array o_array_string : argv_t) (w : world) : outcome (Z * argv_t) :=
  nested_loop fuel groups (opal_argv_count tag_array) tag_array o_array_string OPAL_SUCCESS w.

(** The names of an expression: [$tag] goes to the tags, the rest is output. *)
Fixpoint split_tags (regex_array : list cstr) (tag_array o_array_string : argv_t)
    : Z * argv_t * argv_t :=
  match regex_array with
  | [] => (OPAL_SUCCESS, tag_array, o_array_string)
  | s :: rest =>
    match s with
    | c :: s' =>
      if eqc c "$" then
        let '(erri, tag_array) := opal_argv_append_unique_nosize tag_array s' false in
        if negb (erri =? OPAL_SUCCESS) then (erri, tag_array, o_array_string)
        else split_tags rest tag_array o_array_string
      else
        let '(erri, o_array_string) := opal_argv_append_unique_nosize o_array_string s false in
        if negb (erri =? OPAL_SUCCESS) then (erri, tag_array, o_array_string)
        else split_tags rest tag_array o_array_string
    | [] =>
      let '(erri, o_array_string) := opal_argv_append_unique_nosize o_array_string s false in
      if negb (erri =? OPAL_SUCCESS) then (erri, tag_array, o_array_string)
      else split_tags rest tag_array o_array_string
    end
  end.

(** After an error the array behind [o_array_string] is freed; the model
    returns it only with [OPAL_SUCCESS]. *)
Definition orcm_logical_group_parse_array_string (fuel : nat) (groups : groups_t)
    (regex : option cstr) (o_array_string : argv_t) (w : world)
    : outcome (Z * argv_t * world) :=
  match orcm_logical_group_trim_string regex with
  | None | Some [] => Ret (OPAL_SUCCESS, o_array_string, w)
  | Some o_regex =>
    '(erri, regex_array, w) ← extract_names (Some o_regex) w;
    if negb (erri =? OPAL_SUCCESS) then Ret (erri, None, w)
    else
      let '(erri, tag_array, o_array_string) :=
        split_tags (argv_list regex_array) None o_array_string in
      if negb (erri =? OPAL_SUCCESS) then Ret (erri, None, w)
      else
        '(erri, o_array_string) ←
          orcm_logical_group_tag_to_members_nested fuel groups tag_array o_array_string w;
        if negb (erri =? OPAL_SUCCESS) then Ret (erri, None, w)
        else Ret (erri, o_array_string, w)
  end.

(** [unsigned int] sum of the sizes with their terminators. *)
Definition orcm_logical_group_argv_addup_size (argv : argv_t) : Z * Z :=
  (foldl (fun size s => u32 (size + (Z.of_nat (length s) + 1))) 0 (argv_list argv),
   opal_argv_count argv).

Fixpoint concat_array (size : nat) (l : list cstr) (buf : cstr) : outcome cstr :=
  match l with
  | [] => Ret buf
  | s :: rest =>
    buf ← strcat_buf size buf s;
    buf ← match rest with [] => Ret buf | _ => strcat_buf size buf (cs ",") end;
    concat_array size rest buf
  end.

Definition orcm_logical_group_arraystring_to_string (array_string : argv_t)
    : outcome (Z * option cstr) :=
  let '(size, _) := orcm_logical_group_argv_addup_size array_string in
  if size =? 0 then Ret (OPAL_ERR_BAD_PARAM, None)
  else
    s ← concat_array (Z.to_nat size) (argv_list array_string) [];
    Ret (OPAL_SUCCESS, Some s).

Definition orcm_logical_group_parse_string (fuel : nat) (groups : groups_t)
    (regex : option cstr) (w : world) : outcome (Z * option cstr * world) :=
  '(erri, o_string_array, w) ←
    orcm_logical_group_parse_array_string fuel groups regex None w;
  if negb (erri =? OPAL_SUCCESS) then Ret (erri, None, w)
  else
    '(erri, o_string) ← orcm_logical_group_arraystring_to_string o_string_array;
    Ret (erri, o_string, w).

End Groups.

(** ** Storage *)

(** The parser module and the [fopen]/[fprintf] of a new storage file, over a
    state [P] of files and open descriptors. *)
Class Parser (P : Type) : Type := {
  parser_open : cstr -> P -> Z * P;
  parser_close : Z -> P -> Z * P;
  retrieve_section : Z -> cstr -> cstr -> P -> option (list orcm_value_t);
  write_section : Z -> option (list orcm_value_t) -> cstr -> cstr -> bool -> P -> Z * P;
  fopen_append : cstr -> P -> bool * P;          (* fopen(name, "a") succeeds *)
  fprintf_text : cstr -> cstr -> P -> bool * P   (* whole text written to the file *)
}.

(** [LOGICAL_GROUP], the descriptor in [logical_group_file_lock], and the
    world of the group operations. *)
Record lg_state (P : Type) : Type := MkLg {
  lg_groups : option groups_t;
  lg_storage_filename : option cstr;
  lg_parser_fd : Z;
  lg_world : world;
  lg_files : P
}.
Arguments MkLg {P}.
Arguments lg_groups {P}.
Arguments lg_storage_filename {P}.
Arguments lg_parser_fd {P}.
Arguments lg_world {P}.
Arguments lg_files {P}.

Section Storage.
Context {P : Type} `{Parser P}.
Variable int_log10 : Z -> Z.
Variable calloc_ok : Z -> bool.
Variable install_prefix : cstr.          (* opal_install_dirs.prefix *)

Implicit Types (st : lg_state P).

Definition with_files st (f : P) : lg_state P :=
  MkLg (lg_groups st) (lg_storage_filename st) (lg_parser_fd st) (lg_world st) f.
Definition with_fd st (fd : Z) (f : P) : lg_state P :=
  MkLg (lg_groups st) (lg_storage_filename st) fd (lg_world st) f.
Definition with_groups st (g : option groups_t) (w : world) : lg_state P :=
  MkLg g (lg_storage_filename st) (lg_parser_fd st) w (lg_files st).

Definition SECTION : cstr := cs "logicalgroup".

Definition orcm_logical_group_init (config_file : option cstr) st : outcome (Z * lg_state P) :=
  let name := match config_file with
              | None => install_prefix ++ cs "/etc/orcm-default-config.xml"
              | Some f => f
              end in
  '(erri, t) ← opal_hash_table_init calloc_ok (opal_hash_table_construct : groups_t) HASH_SIZE;
  Ret (erri, MkLg (Some t) (Some name) (lg_parser_fd st) (lg_world st) (lg_files st)).

Definition orcm_logical_group_finalize st : Z * lg_state P :=
  (OPAL_SUCCESS,
   MkLg None None (lg_parser_fd st) (set_current_tag (lg_world st) None) (lg_files st)).

Definition no_name (storage_filename : option cstr) : option cstr :=
  match storage_filename with None | Some [] => None | Some n => Some n end.

Definition orcm_logical_group_open_file (storage_filename : option cstr) st
    : Z * lg_state P :=
  match no_name storage_filename with
  | None => (OPAL_ERR_FILE_OPEN_FAILURE, st)
  | Some n =>
    let '(fd, f) := parser_open n (lg_files st) in
    (if fd <? 0 then fd else OPAL_SUCCESS, with_fd st fd f)
  end.

Definition orcm_logical_group_crate_xml_file (storage_filename : option cstr) st
    : Z * lg_state P :=
  match no_name storage_filename with
  | None => (OPAL_ERR_FILE_OPEN_FAILURE, st)
  | Some n =>
    let '(ok, f) := fopen_append n (lg_files st) in
    if negb ok then (OPAL_ERR_FILE_OPEN_FAILURE, with_files st f)
    else
      let '(ok, f) := fprintf_text n (cs "<logicalgroup />") f in
      (if negb ok then OPAL_ERR_FILE_WRITE_FAILURE else OPAL_SUCCESS, with_files st f)
  end.

Definition orcm_logical_group_open_file_write_mode (storage_filename : option cstr) st
    : Z * lg_state P :=
  let '(ret, st) := orcm_logical_group_crate_xml_file storage_filename st in
  if ret =? OPAL_SUCCESS then orcm_logical_group_open_file storage_filename st else (ret, st).

Definition orcm_logical_group_open_file_with_logicalgroup_tag (storage_filename : option cstr) st
    : Z * lg_state P :=
  let '(ret, st) := orcm_logical_group_open_file storage_filename st in
  let '(ret, st) :=
    if negb (ret =? OPAL_SUCCESS)
    then orcm_logical_group_open_file_write_mode storage_filename st else (ret, st) in
  if negb (ret =? OPAL_SUCCESS) then (ret, st)
  else
    match retrieve_section (lg_parser_fd st) SECTION [] (lg_files st) with
    | Some _ => (ret, st)
    | None =>
      let '(ret, f) := parser_close (lg_parser_fd st) (lg_files st) in
      let st := with_files st f in
      if ret =? OPAL_SUCCESS then orcm_logical_group_open_file_write_mode storage_filename st
      else (ret, st)
    end.

Definition orcm_logical_group_parse_from_file (io_groups : option groups_t) st
    : outcome (Z * option groups_t * lg_state P) :=
  match retrieve_section (lg_parser_fd st) SECTION [] (lg_files st) with
  | None => Ret (OPAL_ERR_NOT_FOUND, io_groups, st)
  | Some result_list =>
    '(rc, groups, w) ← parse_sections int_log10 calloc_ok result_list io_groups (lg_world st);
    Ret (rc, groups, with_groups st (lg_groups st) w)
  end.

Definition orcm_logical_group_load_from_file (storage_filename : option cstr)
    (io_groups : option groups_t) st : outcome (Z * option groups_t * lg_state P) :=
  match io_groups with
  | None => Ret (OPAL_ERR_BAD_PARAM, None, st)
  | Some _ =>
    let '(ret, st) := orcm_logical_group_open_file storage_filename st in
    if negb (ret =? OPAL_SUCCESS) then Ret (OPAL_SUCCESS, io_groups, st)
    else
      '(erri, groups, st) ← orcm_logical_group_parse_from_file io_groups st;
      let '(ret, f) := parser_close (lg_parser_fd st) (lg_files st) in
      let st := with_files st f in
      if erri =? OPAL_SUCCESS then Ret (ret, groups, st)
      else if erri =? OPAL_ERR_NOT_FOUND then Ret (OPAL_SUCCESS, groups, st)
      else Ret (erri, groups, st)
  end.

Definition orcm_logical_group_load_to_memory (config_file : option cstr) st
    : outcome (Z * lg_state P) :=
  '(erri, st) ← orcm_logical_group_init config_file st;
  if negb (erri =? OPAL_SUCCESS) then Ret (erri, st)
  else
    '(erri, groups, st) ←
      orcm_logical_group_load_from_file (lg_storage_filename st) (lg_groups st) st;
    Ret (erri, with_groups st groups (lg_world st)).

Definition orcm_logical_group_save_to_file_internal (groups : groups_t) st
    : outcome (Z * lg_state P) :=
  if opal_hash_table_get_size groups =? 0 then
    let '(erri, f) := write_section (lg_parser_fd st) None SECTION [] true (lg_files st) in
    Ret (erri, with_files st f)
  else
    '(erri, parser_input) ← save_loop (loop_fuel groups) groups None [] (lg_world st);
    if erri =? OPAL_SUCCESS then
      let '(erri, f) :=
        write_section (lg_parser_fd st) (Some parser_input) SECTION [] true (lg_files st) in
      Ret (erri, with_files st f)
    else Ret (erri, st).

Definition orcm_logical_group_save_to_file (storage_filename : option cstr)
    (groups : option groups_t) st : outcome (Z * lg_state P) :=
  match groups with
  | None => Ret (OPAL_ERR_BAD_PARAM, st)
  | Some g =>
    let '(ret, st) := orcm_logical_group_open_file_with_logicalgroup_tag storage_filename st in
    if negb (ret =? OPAL_SUCCESS) then Ret (ret, st)
    else
      '(erri, st) ← orcm_logical_group_save_to_file_internal g st;
      let '(ret, f) := parser_close (lg_parser_fd st) (lg_files st) in
      let st := with_files st f in
      if erri =? OPAL_SUCCESS then Ret (ret, st) else Ret (erri, st)
  end.

End Storage.
