(* ===== verification/LogicalGroupProps.v ===== *)
(** * Properties of logical groups

    The abstract state of the groups is a finite map from tags to member lists
    ([groups_rep]): the table is well formed, every stored address is live and
    belongs to one tag only.  Adding, removing, listing, saving and loading are
    related to that map; the cases where the code leaves it (a released list
    still in the table, an entry skipped by the traversal, an exhausted work
    list) are stated as they are. *)

From S2P Require Import Prelude CString Argv HashTable Regex RegexRoundtrip LogicalGroup.
From stdpp Require Import base strings numbers list gmap fin_maps sets.
From Stdlib Require Import ZArith Lia Ascii.

Open Scope Z_scope.

Definition nul_free (s : cstr) : Prop := no_char NUL s.

Definition group_map := gmap cstr (list cstr).

(** ** The abstraction *)
Record groups_rep (g : groups_t) (w : world) (m : gmap cstr (list cstr)) : Prop := {
  rep_wf : ht_wf g;
  rep_keys : forall k p, ht_map g !! k = Some p ->
    exists tag, k = tag_key tag /\ nul_free tag /\ is_Some (w_lists w !! p);
  rep_lookup : forall tag, m !! tag = ht_map g !! tag_key tag ≫= fun p => w_lists w !! p;
  rep_inj : forall k k' p, ht_map g !! k = Some p -> ht_map g !! k' = Some p -> k = k';
  rep_fresh : forall p, is_Some (w_lists w !! p) -> (p < w_next w)%nat
}.

Lemma tag_key_inj t t' : tag_key t = tag_key t' -> t = t'.
Proof. intros H. by apply app_inj_tail in H as [? _]. Qed.

Lemma key_tag_key t : nul_free t -> key_tag (tag_key t) = t.
Proof.
  intros Ht. unfold key_tag, tag_key. rewrite find_index_app; [|exact Ht|apply eqc_refl].
  by rewrite take_app_length.
Qed.

(** A group of the map and its address. *)
Lemma rep_Some g w m tag l :
  groups_rep g w m -> m !! tag = Some l ->
  exists p, ht_map g !! tag_key tag = Some p /\ w_lists w !! p = Some l.
Proof.
  intros Hr Hm. rewrite (rep_lookup _ _ _ Hr) in Hm.
  destruct (ht_map g !! tag_key tag) as [p|]; [|done]. by exists p.
Qed.

Lemma rep_None g w m tag :
  groups_rep g w m -> m !! tag = None -> ht_map g !! tag_key tag = None.
Proof.
  intros Hr Hm. rewrite (rep_lookup _ _ _ Hr) in Hm.
  destruct (ht_map g !! tag_key tag) as [p|] eqn:E; [|done].
  destruct (rep_keys _ _ _ Hr _ _ E) as (? & _ & _ & l & Hl). simpl in Hm. by rewrite Hl in Hm.
Qed.

Lemma rep_key_in g w m tag l :
  groups_rep g w m -> m !! tag = Some l -> tag_key tag ∈ (entries (ht_table g)).*1.
Proof.
  intros Hr Hm. destruct (rep_Some _ _ _ _ _ Hr Hm) as (p & Hp & _).
  apply list_elem_of_fmap. exists (tag_key tag, p). split; [done|].
  apply (in_entries_map g); [apply Hr|done].
Qed.

Lemma rep_nonempty g w m tag l : groups_rep g w m -> m !! tag = Some l -> ht_size g <> 0.
Proof.
  intros Hr Hm. destruct (rep_wf _ _ _ Hr) as (_ & -> & _).
  pose proof (rep_key_in _ _ _ _ _ Hr Hm) as Hin. intros Hz.
  destruct (entries (ht_table g)); [by apply elem_of_nil in Hin|simpl in Hz; lia].
Qed.

(** Only the heap and the address of the lists matter. *)
Lemma rep_world g w w' m :
  groups_rep g w m -> w_lists w' = w_lists w -> (w_next w <= w_next w')%nat -> groups_rep g w' m.
Proof.
  intros [H1 H2 H3 H4 H5] Hl Hn. split; try done.
  - intros k p Hk. rewrite Hl. eauto.
  - intros tag. by rewrite H3, Hl.
  - intros p Hp. rewrite Hl in Hp. apply H5 in Hp. lia.
Qed.

(** The table only matters through its map. *)
Lemma rep_table g g' w m :
  groups_rep g w m -> ht_wf g' -> ht_map g' = ht_map g -> groups_rep g' w m.
Proof. intros [H1 H2 H3 H4 H5] Hw Hm. split; rewrite ?Hm; done. Qed.

Lemma rep_touch g w m : groups_rep g w m -> groups_rep (touch g) w m.
Proof. intros Hr. by apply (rep_table g); [|apply touch_wf, (rep_wf _ _ _ Hr)|]. Qed.

(** Writing a stored list in place. *)
Lemma rep_write g w m tag p l :
  groups_rep g w m -> ht_map g !! tag_key tag = Some p ->
  groups_rep g (set_lists w (<[p := l]> (w_lists w))) (<[tag := l]> m).
Proof.
  intros [H1 H2 H3 H4 H5] Hp. split; cbn; [done| | |done|].
  - intros k q Hk. destruct (H2 k q Hk) as (t & ? & ? & ?). exists t. split_and!; [done|done|].
    destruct (decide (p = q)) as [->|]; [by rewrite lookup_insert_eq|by rewrite lookup_insert_ne].
  - intros t. destruct (decide (tag = t)) as [->|Hne].
    + rewrite lookup_insert_eq, Hp. cbn. by rewrite lookup_insert_eq.
    + rewrite lookup_insert_ne, H3 by done.
      destruct (ht_map g !! tag_key t) as [q|] eqn:E; [|done]. cbn.
      rewrite lookup_insert_ne; [done|]. intros ->. apply Hne, tag_key_inj. eauto.
  - intros q Hq. apply H5. destruct (decide (p = q)) as [->|].
    + by destruct (H2 _ _ Hp) as (_ & _ & _ & ?).
    + by rewrite lookup_insert_ne in Hq.
Qed.

(** A fresh list stored under a new tag. *)
Lemma rep_insert_new g g' w m tag l :
  groups_rep g w m -> nul_free tag -> m !! tag = None ->
  ht_wf g' -> ht_map g' = <[tag_key tag := w_next w]> (ht_map g) ->
  groups_rep g' (set_lists (list_new w).2 (<[w_next w := l]> (w_lists w))) (<[tag := l]> m).
Proof.
  intros Hr Ht Hm Hw Hg'. pose proof (rep_None _ _ _ _ Hr Hm) as Hno.
  destruct Hr as [H1 H2 H3 H4 H5].
  assert (Hfr : forall k p, ht_map g !! k = Some p -> p <> w_next w).
  { intros k p Hk ->. destruct (H2 _ _ Hk) as (_ & _ & _ & Hs%H5). lia. }
  split; cbn; rewrite ?Hg'; [done| | | |].
  - intros k p. destruct (decide (tag_key tag = k)) as [<-|Hne].
    + rewrite lookup_insert_eq. intros [= <-]. exists tag. by rewrite lookup_insert_eq.
    + rewrite lookup_insert_ne by done. intros Hk. rewrite lookup_insert_ne by (apply not_eq_sym; eauto).
      eauto.
  - intros t. destruct (decide (tag = t)) as [->|Hne].
    + rewrite !lookup_insert_eq. cbn. by rewrite lookup_insert_eq.
    + rewrite !lookup_insert_ne by (done || (intros ?%tag_key_inj; done)). rewrite H3.
      destruct (ht_map g !! tag_key t) as [q|] eqn:E; [|done]. cbn.
      rewrite lookup_insert_ne; [done|]. apply not_eq_sym. eauto.
  - intros k k' p. rewrite !lookup_insert_Some.
    intros [[<- <-]|[? Hk]] [[<- Hp]|[? Hk']]; [done|by apply Hfr in Hk'| |eauto].
    subst p. by apply Hfr in Hk.
  - intros p Hp. destruct (decide (w_next w = p)) as [->|]; [lia|].
    rewrite lookup_insert_ne in Hp by done. apply H5 in Hp. lia.
Qed.

(** Deleting a tag; its list stays allocated. *)
Lemma rep_delete g g' w m tag :
  groups_rep g w m -> ht_wf g' -> ht_map g' = delete (tag_key tag) (ht_map g) ->
  groups_rep g' w (delete tag m).
Proof.
  intros [H1 H2 H3 H4 H5] Hw Hg'. split; rewrite ?Hg'; [done| | | |done].
  - intros k p [_ Hk]%lookup_delete_Some. eauto.
  - intros t. destruct (decide (tag = t)) as [->|Hne].
    + by rewrite !lookup_delete_eq.
    + rewrite !lookup_delete_ne by (done || (intros ?%tag_key_inj; done)). done.
  - intros k k' p [_ Hk]%lookup_delete_Some [_ Hk']%lookup_delete_Some. eauto.
Qed.

(** ** Adding *)

(** Members appended in order, duplicates left out. *)
Definition add_unique (l names : list cstr) : list cstr :=
  foldl (fun l m => if bool_decide (m ∈ l) then l else l ++ [m]) l names.

Lemma member_exist_spec l m : member_exist l m = bool_decide (m ∈ l).
Proof.
  induction l as [|x l IH]; cbn [member_exist]; [done|]. rewrite IH.
  unfold strcmp0. repeat case_bool_decide; set_solver.
Qed.

Lemma add_unique_elem l names x : x ∈ add_unique l names <-> x ∈ l \/ x ∈ names.
Proof.
  revert l; induction names as [|m names IH]; intros l; cbn [add_unique foldl]; [set_solver|].
  fold (add_unique (if bool_decide (m ∈ l) then l else l ++ [m]) names). rewrite IH.
  case_bool_decide; set_solver.
Qed.

Lemma add_unique_NoDup l names : NoDup l -> NoDup (add_unique l names).
Proof.
  revert l; induction names as [|m names IH]; intros l Hl; cbn [add_unique foldl]; [done|].
  apply IH. case_bool_decide; [done|]. apply NoDup_app. split_and!; [done|set_solver|].
  apply NoDup_singleton.
Qed.

Lemma add_unique_prefix l names : l `prefix_of` add_unique l names.
Proof.
  revert l; induction names as [|m names IH]; intros l; cbn [add_unique foldl]; [done|].
  etrans; [|apply IH]. case_bool_decide; [done|]. by apply prefix_app_r.
Qed.

Lemma add_unique_app l a b : add_unique l (a ++ b) = add_unique (add_unique l a) b.
Proof. apply foldl_app. Qed.

Lemma add_unique_disjoint l names :
  NoDup (l ++ names) -> add_unique l names = l ++ names.
Proof.
  revert l; induction names as [|m names IH]; intros l Hnd; cbn [add_unique foldl].
  - by rewrite app_nil_r.
  - rewrite bool_decide_eq_false_2.
    + fold (add_unique (l ++ [m]) names). rewrite IH; rewrite <- app_assoc; done.
    + apply NoDup_app in Hnd as (_ & Hd & _). intros Hin. apply (Hd m Hin). by left.
Qed.

Lemma set_lists_id w p l : w_lists w !! p = Some l -> set_lists w (<[p := l]> (w_lists w)) = w.
Proof. intros Hl. unfold set_lists. rewrite insert_id by done. by destruct w. Qed.

Lemma add_members_spec names p w l :
  w_lists w !! p = Some l ->
  add_members names p w =
    Ret (OPAL_SUCCESS, set_lists w (<[p := add_unique l names]> (w_lists w))).
Proof.
  revert w l; induction names as [|m names IH]; intros w l Hl; cbn [add_members].
  - by rewrite set_lists_id.
  - unfold list_read, list_write. rewrite Hl, bind_Ret, member_exist_spec.
    unfold add_unique; cbn [foldl]. case_bool_decide; [by apply IH|].
    cbn [orcm_logical_group_list_append]. rewrite bind_Ret. cbn [Z.eqb OPAL_SUCCESS negb].
    rewrite (IH _ (l ++ [m])) by (cbn; apply lookup_insert_eq). cbn.
    by rewrite insert_insert_eq.
Qed.

Section AddLaws.
Context (int_log10 : Z -> Z) (calloc_ok : Z -> bool).
Hypothesis Halloc : forall c, calloc_ok c = true.

(** The list of a tag, created when the tag is new. *)
Lemma hash_table_get_spec g w m tag :
  groups_rep g w m ->
  exists p w1, orcm_logical_group_hash_table_get g tag w = Ret (OPAL_SUCCESS, p, touch g, w1) /\
    w_lists w1 !! p = Some (default [] (m !! tag)) /\
    match m !! tag with
    | Some _ => w1 = w /\ ht_map g !! tag_key tag = Some p
    | None => w1 = (list_new w).2 /\ p = w_next w
    end.
Proof.
  intros Hr. unfold orcm_logical_group_hash_table_get, opal_hash_table_get_value_ptr.
  rewrite get_value_spec by apply Hr. rewrite bind_Ret.
  destruct (m !! tag) as [l|] eqn:Em.
  - destruct (rep_Some _ _ _ _ _ Hr Em) as (p & -> & Hl). by exists p, w.
  - rewrite (rep_None _ _ _ _ Hr Em). exists (w_next w), (list_new w).2.
    split; [done|]. split; [apply lookup_insert_eq|done].
Qed.

Lemma add_internal_spec g w m tag names n :
  groups_rep g w m -> ht_room n g -> n + 1 < 2 ^ 60 -> nul_free tag ->
  forall p w1, w_lists w1 !! p = Some (default [] (m !! tag)) ->
    match m !! tag with
    | Some _ => w_lists w1 = w_lists w /\ w_next w1 = w_next w /\ ht_map g !! tag_key tag = Some p
    | None => w_lists w1 = w_lists (list_new w).2 /\ w_next w1 = w_next (list_new w).2 /\ p = w_next w
    end ->
  exists g' w', orcm_logical_group_add_internal calloc_ok tag names p (touch g) w1 =
      Ret (OPAL_SUCCESS, g', w') /\
    groups_rep g' w' (<[tag := add_unique (default [] (m !! tag)) (argv_list names)]> m) /\
    ht_room (n + 1) g' /\ w_erange w' = w_erange w1 /\ w_current_tag w' = w_current_tag w1.
Proof.
  intros Hr Hroom Hn Ht p w1 Hl Hcase. unfold orcm_logical_group_add_internal.
  rewrite (add_members_spec _ _ _ _ Hl), bind_Ret. cbn [Z.eqb OPAL_SUCCESS].
  destruct (set_value_ok calloc_ok (touch g) (tag_key tag) p n Halloc) as (g' & E & Hw & Hm & Hroom');
    [apply touch_wf, (rep_wf _ _ _ Hr)|exact Hroom|done|].
  unfold opal_hash_table_set_value_ptr. rewrite E, bind_Ret.
  exists g', (set_lists w1 (<[p := add_unique (default [] (m !! tag)) (argv_list names)]> (w_lists w1))).
  split; [done|]. split; [|done]. change (ht_map (touch g)) with (ht_map g) in Hm.
  destruct (m !! tag) as [l|] eqn:Em.
  - destruct Hcase as (Hw1 & Hn1 & Hp). apply (rep_table g); [|done|by rewrite Hm, insert_id].
    eapply rep_world; [by apply (rep_write g w m tag p)|cbn; by rewrite Hw1|cbn; lia].
  - destruct Hcase as (Hw1 & Hn1 & ->).
    eapply rep_world; [by apply (rep_insert_new g g' w m tag)| |cbn in *; lia].
    cbn. rewrite Hw1. cbn. by rewrite insert_insert_eq.
Qed.

Lemma add_spec g w m tag regex names e n :
  groups_rep g w m -> ht_room n g -> n + 1 < 2 ^ 60 -> nul_free tag ->
  orte_regex_extract_node_names int_log10 regex None (w_erange w) = Ret (OPAL_SUCCESS, names, e) ->
  exists g' w', orcm_logical_group_add int_log10 calloc_ok (Some tag) regex (Some g) w =
      Ret (OPAL_SUCCESS, Some g', w') /\
    groups_rep g' w' (<[tag := add_unique (default [] (m !! tag)) (argv_list names)]> m) /\
    ht_room (n + 1) g' /\ w_erange w' = e /\ w_current_tag w' = w_current_tag w.
Proof.
  intros Hr Hroom Hn Ht Hx. unfold orcm_logical_group_add.
  destruct (hash_table_get_spec g w m tag Hr) as (p & w1 & -> & Hl & Hcase).
  rewrite bind_Ret. cbn [Z.eqb OPAL_SUCCESS negb]. unfold extract_names.
  assert (w_erange w1 = w_erange w /\ w_current_tag w1 = w_current_tag w) as [He Hc].
  { destruct (m !! tag); destruct Hcase as [-> _]; done. }
  rewrite He, Hx, !bind_Ret. cbn [Z.eqb OPAL_SUCCESS negb].
  destruct (add_internal_spec g w m tag names n Hr Hroom Hn Ht p (set_erange w1 e) Hl)
    as (g' & w' & -> & H1 & H2 & H3 & H4).
  { destruct (m !! tag); destruct Hcase as [-> ?]; done. }
  rewrite bind_Ret. cbn [Z.eqb OPAL_SUCCESS negb]. exists g', w'.
  rewrite H4. done.
Qed.

End AddLaws.

(** ** Removing *)

(** What a tag's group becomes; an emptied group is dropped. *)
Definition put_group (m : gmap cstr (list cstr)) (tag : cstr) (l : list cstr)
    : gmap cstr (list cstr) := match l with [] => delete tag m | _ => <[tag := l]> m end.

Lemma remove_first_elem x l y : NoDup l -> y ∈ remove_first x l <-> y ∈ l /\ y <> x.
Proof.
  induction 1 as [|z l Hz Hl IH]; cbn [remove_first]; [set_solver|].
  unfold strcmp0. case_bool_decide as Hxz.
  - subst z. split; [|set_solver]. intros Hy. split; [set_solver|]. by intros ->.
  - rewrite !elem_of_cons, IH. naive_solver.
Qed.

Lemma remove_first_sublist x l : remove_first x l `sublist_of` l.
Proof.
  induction l as [|z l IH]; cbn [remove_first]; [done|].
  destruct (strcmp0 x z); [by constructor|by constructor].
Qed.

Lemma remove_listed_sublist ms l : remove_listed ms l `sublist_of` l.
Proof.
  revert l; induction ms as [|x ms IH]; intros l; cbn [remove_listed foldl]; [done|].
  etrans; [apply IH|apply remove_first_sublist].
Qed.

Lemma remove_listed_elem ms l y : NoDup l -> y ∈ remove_listed ms l <-> y ∈ l /\ y ∉ ms.
Proof.
  revert l; induction ms as [|x ms IH]; intros l Hl; cbn [remove_listed foldl]; [set_solver|].
  fold (remove_listed ms (remove_first x l)).
  rewrite IH by (eapply sublist_NoDup; [done|apply remove_first_sublist]).
  rewrite remove_first_elem by done. set_solver.
Qed.

Lemma all_members_exist_spec l members :
  orcm_logical_group_all_members_exist_one_tag l members =
    if bool_decide (argv_list members ⊆ l) then OPAL_SUCCESS else ORCM_ERR_NODE_NOT_EXIST.
Proof.
  unfold orcm_logical_group_all_members_exist_one_tag.
  assert (Hb : forallb (member_exist l) (argv_list members) = bool_decide (argv_list members ⊆ l)).
  { apply eq_bool_prop_intro. rewrite bool_decide_spec, forallb_True, Forall_forall.
    setoid_rewrite member_exist_spec. setoid_rewrite bool_decide_spec. done. }
  by rewrite Hb.
Qed.

Section RemoveLaws.
Context (calloc_ok : Z -> bool).
Hypothesis Halloc : forall c, calloc_ok c = true.

(** Removing from a stored list. *)
Lemma remove_members_spec g w m tag p l members n :
  groups_rep g w m -> ht_room n g -> n + 1 < 2 ^ 60 ->
  ht_map g !! tag_key tag = Some p -> w_lists w !! p = Some l ->
  exists g' w', orcm_logical_group_hash_table_remove_members calloc_ok tag p members g w =
      Ret (OPAL_SUCCESS, g', w') /\
    groups_rep g' w' (put_group m tag (remove_listed (argv_list members) l)) /\
    ht_room (n + 1) g' /\ w_erange w' = w_erange w.
Proof.
  intros Hr Hroom Hn Hp Hl. unfold orcm_logical_group_hash_table_remove_members, list_read, list_write.
  rewrite Hl, bind_Ret, bind_Ret. generalize (remove_listed (argv_list members) l); intros l'.
  pose proof (rep_write g w m tag p l' Hr Hp) as Hr'.
  destruct l' as [|x l']; unfold put_group.
  - destruct (remove_value_spec g (tag_key tag) (rep_wf _ _ _ Hr)) as (g' & E & Hw & Hm & Hc & Hs).
    unfold opal_hash_table_remove_value_ptr. rewrite E, Hp, bind_Ret.
    exists g', (set_lists w (<[p := []]> (w_lists w))). split; [done|].
    split; [|unfold ht_room in *; split; [|done]; lia].
    rewrite <- (delete_insert_eq m tag []). by apply (rep_delete g).
  - destruct (set_value_ok calloc_ok g (tag_key tag) p n Halloc) as (g' & E & Hw & Hm & Hroom');
      [apply Hr|done|done|].
    unfold opal_hash_table_set_value_ptr. rewrite E, bind_Ret.
    eexists g', _. split; [done|]. split; [|done].
    apply (rep_table g); [done|done|]. by rewrite Hm, insert_id.
Qed.

(** What removing from one tag does, on every branch. *)
Definition remove_tag_post (m : gmap cstr (list cstr)) (tag : cstr) (all : bool)
    (members : list cstr) : Z * gmap cstr (list cstr) :=
  match m !! tag with
  | None => (ORCM_ERR_GROUP_NOT_EXIST, m)
  | Some l =>
    if all then (OPAL_SUCCESS, delete tag m)
    else if bool_decide (members ⊆ l) then (OPAL_SUCCESS, put_group m tag (remove_listed members l))
    else (ORCM_ERR_NODE_NOT_EXIST, m)
  end.

Lemma remove_a_tag_spec g w m tag members all n :
  groups_rep g w m -> ht_room n g -> n + 1 < 2 ^ 60 ->
  exists g' w', orcm_logical_group_remove_a_tag calloc_ok tag members all g w =
      Ret ((remove_tag_post m tag all (argv_list members)).1, g', w') /\
    groups_rep g' w' (remove_tag_post m tag all (argv_list members)).2 /\
    ht_room (n + 1) g' /\ w_erange w' = w_erange w.
Proof.
  intros Hr Hroom Hn. unfold orcm_logical_group_remove_a_tag, remove_tag_post.
  unfold opal_hash_table_get_value_ptr. rewrite get_value_spec by apply Hr. rewrite bind_Ret.
  assert (Hk : ht_room (n + 1) (touch g)) by (unfold ht_room in *; cbn; lia).
  pose proof (rep_touch _ _ _ Hr) as Ht.
  destruct (m !! tag) as [l|] eqn:Em; cycle 1.
  { rewrite (rep_None _ _ _ _ Hr Em). by exists (touch g), w. }
  destruct (rep_Some _ _ _ _ _ Hr Em) as (p & Hp & Hl). rewrite Hp. destruct all.
  - destruct (remove_value_spec (touch g) (tag_key tag) (rep_wf _ _ _ Ht)) as (g' & E & Hw & Hm & Hc & Hs).
    unfold opal_hash_table_remove_value_ptr. rewrite E, bind_Ret.
    change (ht_map (touch g)) with (ht_map g). rewrite Hp.
    exists g', w. split; [done|]. split; [by apply (rep_delete g)|].
    unfold ht_room in *; split; [|done]. cbn in *; lia.
  - unfold list_read at 1. rewrite Hl, bind_Ret, all_members_exist_spec.
    case_bool_decide; cbn [Z.eqb OPAL_SUCCESS ORCM_ERR_NODE_NOT_EXIST negb].
    + by destruct (remove_members_spec (touch g) w m tag p l members n) as (g' & w' & -> & ?); eauto.
    + by exists (touch g), w.
Qed.

End RemoveLaws.

(** ** Listing *)

(** Allocating a list changes no group. *)
Lemma rep_alloc g w m l :
  groups_rep g w m ->
  groups_rep g (set_lists (list_new w).2 (<[w_next w := l]> (w_lists w))) m.
Proof.
  intros [H1 H2 H3 H4 H5].
  assert (Hfr : forall k p, ht_map g !! k = Some p -> w_next w <> p).
  { intros k p Hk <-. destruct (H2 _ _ Hk) as (_ & _ & _ & Hs%H5). lia. }
  split; cbn; [done| | |done|].
  - intros k p Hk. rewrite lookup_insert_ne by eauto. eauto.
  - intros t. rewrite H3. destruct (ht_map g !! tag_key t) as [q|] eqn:E; [|done]. cbn.
    by rewrite lookup_insert_ne by eauto.
  - intros p Hp. destruct (decide (w_next w = p)) as [->|]; [lia|].
    rewrite lookup_insert_ne in Hp by done. apply H5 in Hp. lia.
Qed.

Lemma listed_elem ms l x : x ∈ listed ms l <-> x ∈ ms /\ x ∈ l.
Proof.
  unfold listed. rewrite !list_elem_of_In, filter_In, member_exist_spec, bool_decide_eq_true.
  by rewrite list_elem_of_In.
Qed.

Lemma list_specific_spec w p l members :
  w_lists w !! p = Some l -> (forall q, is_Some (w_lists w !! q) -> (q < w_next w)%nat) ->
  exists w', orcm_logical_group_list_specific_members p members w =
      Ret (match listed (argv_list members) l with [] => None | _ => Some (w_next w) end, w') /\
    (w_next w <= w_next w')%nat /\ w_erange w' = w_erange w /\
    match listed (argv_list members) l with
    | [] => w_lists w' = w_lists w
    | _ => w' = set_lists (list_new w).2
                  (<[w_next w := listed (argv_list members) l]> (w_lists w))
    end.
Proof.
  intros Hl Hfr. unfold orcm_logical_group_list_specific_members, opal_argv_count.
  assert (Hnone : w_lists w !! w_next w = None).
  { destruct (w_lists w !! w_next w) eqn:E; [|done]. assert (w_next w < w_next w)%nat by eauto. lia. }
  destruct (argv_list members) as [|x ms] eqn:Ems; [by exists w|].
  replace (Z.of_nat (length (x :: ms)) =? 0) with false by (symmetry; apply Z.eqb_neq; simpl; lia).
  cbn [list_new]. unfold list_read. cbn [w_lists].
  rewrite lookup_insert_ne, Hl, bind_Ret by congruence.
  unfold list_write. cbn [w_lists]. rewrite lookup_insert_eq, bind_Ret, insert_insert_eq.
  destruct (listed (x :: ms) l) as [|y l'].
  - unfold obj_release. cbn [w_lists set_lists]. rewrite lookup_insert_eq, bind_Ret.
    eexists. split; [done|]. cbn. split_and!; [lia|done|]. by rewrite delete_insert_id.
  - eexists. split; [done|]. cbn. split_and!; [lia|done|done].
Qed.

Section NewGroups.
Context (calloc_ok : Z -> bool).
Hypothesis Halloc : forall c, calloc_ok c = true.

Lemma new_groups_spec w :
  (forall p, is_Some (w_lists w !! p) -> (p < w_next w)%nat) ->
  exists t, new_groups calloc_ok = Ret t /\ groups_rep t w ∅ /\ ht_room 0 t.
Proof.
  intros Hfr. unfold new_groups.
  destruct (init_spec (K := list ascii) (V := lptr) calloc_ok HASH_SIZE) as (t & E & Hw & Hm & Hc & Hs);
    [done|apply Halloc|].
  rewrite E, bind_Ret. exists t. split; [done|]. split; [split; rewrite ?Hm; done|].
  unfold ht_room. rewrite Hc, Hs. split_and!; [done| |done]. vm_compute. discriminate.
Qed.

End NewGroups.

(** What listing keeps of a group: nothing when no member asked for is in it. *)
Definition listed_group (ms l : list cstr) : option (list cstr) :=
  match listed ms l with [] => None | l' => Some l' end.

Section ListOne.
Context (calloc_ok : Z -> bool).
Hypothesis Halloc : forall c, calloc_ok c = true.

(** One group listed into the output table. *)
Lemma list_specific_into g o w m mo tag p l members n :
  groups_rep g w m -> groups_rep o w mo -> ht_room n o -> n + 1 < 2 ^ 60 ->
  nul_free tag -> w_lists w !! p = Some l -> mo !! tag = None ->
  exists o' w', ('(new_value, w) ← orcm_logical_group_list_specific_members p members w;
      match new_value with
      | Some p => '(_, o) ← opal_hash_table_set_value_ptr calloc_ok o (tag_key tag) p; Ret (o, w)
      | None => Ret (o, w)
      end) = Ret (o', w') /\
    groups_rep g w' m /\ ht_room (n + 1) o' /\ w_erange w' = w_erange w /\
    groups_rep o' w' (match listed_group (argv_list members) l with
                      | Some l' => <[tag := l']> mo | None => mo end).
Proof.
  intros Hg Ho Hroom Hn Ht Hl Hmo.
  destruct (list_specific_spec w p l members Hl (rep_fresh _ _ _ Hg)) as (w' & -> & Hnx & He & Hw').
  rewrite bind_Ret. unfold listed_group. destruct (listed (argv_list members) l) as [|x l'].
  - exists o, w'. split_and!; [done| |unfold ht_room in *; lia|done|]; by eapply rep_world.
  - destruct (set_value_ok calloc_ok o (tag_key tag) (w_next w) n Halloc) as (o' & E & Hw & Hm & Hroom');
      [apply Ho|done|done|].
    unfold opal_hash_table_set_value_ptr. rewrite E, bind_Ret. exists o', w'. subst w'.
    split_and!; [done|by apply rep_alloc|done|done|by apply (rep_insert_new o)].
Qed.

End ListOne.

(** The entry an iteration stands at. *)
Lemma rep_entry g w m from k p ii :
  groups_rep g w m ->
  ht_table g !! ii = Some (Some (k, p)) ->
  entries (drop from (ht_table g)) = (k, p) :: entries (drop (S ii) (ht_table g)) ->
  exists tag l, k = tag_key tag /\ nul_free tag /\ m !! tag = Some l /\ w_lists w !! p = Some l /\
    ht_map g !! tag_key tag = Some p /\
    k ∉ (entries (drop (S ii) (ht_table g))).*1.
Proof.
  intros Hr Hii He.
  assert (Hk : ht_map g !! k = Some p) by (apply (ht_map_lookup g); [apply Hr|eauto]).
  destruct (rep_keys _ _ _ Hr _ _ Hk) as (tag & -> & Ht & l & Hl). exists tag, l.
  split_and!; try done.
  - by rewrite (rep_lookup _ _ _ Hr), Hk.
  - destruct (rep_wf _ _ _ Hr) as ((_ & _ & Hnd) & _).
    assert (Hs : (entries (drop from (ht_table g))).*1 `sublist_of` (entries (ht_table g)).*1).
    { rewrite <- (take_drop from (ht_table g)) at 2. unfold entries. rewrite omap_app, fmap_app.
      apply sublist_inserts_l. done. }
    rewrite He in Hs. apply (sublist_NoDup _ _ Hnd) in Hs. by apply NoDup_cons in Hs as [? _].
Qed.

Lemma entry_count g w m from : groups_rep g w m ->
  Z.of_nat (length (entries (drop from (ht_table g)))) <= ht_size g.
Proof.
  intros Hr. destruct (rep_wf _ _ _ Hr) as (_ & -> & _).
  rewrite <- (take_drop from (ht_table g)) at 2. unfold entries. rewrite omap_app, length_app. lia.
Qed.

Section ListAll.
Context (calloc_ok : Z -> bool).
Hypothesis Halloc : forall c, calloc_ok c = true.

Lemma list_all_loop_spec fuel g w m members : forall from o mo n,
  groups_rep g w m -> groups_rep o w mo -> ht_room n o ->
  n + Z.of_nat (length (entries (drop from (ht_table g)))) < 2 ^ 60 ->
  (length (ht_table g) - from < fuel)%nat ->
  (forall tag, mo !! tag = if bool_decide (tag_key tag ∈ (entries (drop from (ht_table g))).*1) then None
                           else m !! tag ≫= listed_group (argv_list members)) ->
  exists o' w', list_all_loop calloc_ok fuel members g o (cursor from) w = Ret (o', w') /\
    groups_rep g w' m /\ w_erange w' = w_erange w /\
    groups_rep o' w' (omap (listed_group (argv_list members)) m).
Proof.
  revert w; induction fuel as [|fuel IH]; intros w from o mo n Hg Ho Hroom Hn Hf Hmo; [lia|].
  cbn [list_all_loop]. unfold opal_hash_table_get_next_key_ptr.
  pose proof (get_next_key_spec g from) as Hk.
  destruct (get_next_key g (cursor from)) as [[[k p] ii]|].
  - destruct Hk as (Hii & Hlt & He).
    destruct (rep_entry g w m from k p ii Hg Hii He) as (tag & l & -> & Ht & Hm & Hl & Hp & Hnin).
    rewrite He in Hn, Hmo. cbn [length] in Hn.
    destruct (list_specific_into calloc_ok Halloc g o w m mo tag p l members n Hg Ho Hroom) as
      (o' & w' & E & Hg' & Hroom' & Her & Ho'); [lia|done|done| |].
    { rewrite Hmo, bool_decide_eq_true_2; [done|]. rewrite fmap_cons. by left. }
    destruct (IH w' (S ii) o' _ (n + 1) Hg' Ho' Hroom') as (o2 & w2 & E2 & ? & ? & ?); [lia|lia| |].
    { intros t. destruct (decide (tag = t)) as [->|Hne].
      - rewrite bool_decide_eq_false_2, Hm by done. cbn.
        destruct (listed_group (argv_list members) l); [by rewrite lookup_insert_eq|].
        rewrite Hmo, bool_decide_eq_true_2; [done|]. rewrite fmap_cons. by left.
      - assert (Hlk : match listed_group (argv_list members) l with
                      | Some l' => <[tag := l']> mo | None => mo end !! t = mo !! t).
        { destruct (listed_group (argv_list members) l); [by rewrite lookup_insert_ne|done]. }
        rewrite Hlk, Hmo. rewrite fmap_cons. erewrite bool_decide_ext; [done|].
        rewrite elem_of_cons. cbn. split; [|by right]. intros [Hx|]; [|done].
        by apply tag_key_inj in Hx. }
    exists o2, w2. split; [|split_and!; [done|congruence|done]].
    cbn [cursor] in E2. rewrite <- E2.
    destruct (orcm_logical_group_list_specific_members p members w) as [[[q|] w1]| |]; try done;
      cbn in E |- *.
    + destruct (opal_hash_table_set_value_ptr calloc_ok o (tag_key tag) q) as [[rc o1]| |]; try done.
      cbn in E |- *. by inv E.
    + by inv E.
  - exists o, w. split; [done|]. split; [done|]. split; [done|].
    replace (omap _ m) with mo; [done|]. apply map_eq; intros t. rewrite Hmo, Hk, lookup_omap.
    by rewrite bool_decide_eq_false_2 by apply not_elem_of_nil.
Qed.

End ListAll.

(** ** Removing from every group *)
Lemma all_exist_loop_spec fuel g w m members : forall from,
  groups_rep g w m -> (length (ht_table g) - from < fuel)%nat ->
  (all_exist_loop fuel g members (cursor from) w = Ret OPAL_SUCCESS /\
   forall tag l, m !! tag = Some l -> tag_key tag ∈ (entries (drop from (ht_table g))).*1 ->
     argv_list members ⊆ l) \/
  (all_exist_loop fuel g members (cursor from) w = Ret ORCM_ERR_NODE_NOT_EXIST /\
   exists tag l, m !! tag = Some l /\ ~ argv_list members ⊆ l).
Proof.
  induction fuel as [|fuel IH]; intros from Hg Hf; [lia|].
  cbn [all_exist_loop]. unfold opal_hash_table_get_next_key_ptr.
  pose proof (get_next_key_spec g from) as Hk.
  destruct (get_next_key g (cursor from)) as [[[k p] ii]|].
  - destruct Hk as (Hii & Hlt & He).
    destruct (rep_entry g w m from k p ii Hg Hii He) as (tag & l & -> & Ht & Hm & Hl & _ & _).
    unfold list_read. rewrite Hl, bind_Ret, all_members_exist_spec.
    case_bool_decide as Hsub; cbn [Z.eqb OPAL_SUCCESS ORCM_ERR_NODE_NOT_EXIST negb].
    + change (Some ii) with (cursor (S ii)).
      destruct (IH (S ii) Hg) as [[E Hall]|[E Hex]]; [lia| |by right].
      left. split; [done|]. intros t l' Hm' Hin. rewrite He, fmap_cons, elem_of_cons in Hin.
      destruct Hin as [Hin|Hin]; [|by eauto]. apply tag_key_inj in Hin as ->. by simplify_eq.
    + right. split; [done|]. by exists tag, l.
  - left. split; [done|]. intros t l _. rewrite Hk. intros Hin. by apply elem_of_nil in Hin.
Qed.

Section RemoveAll.
Context (calloc_ok : Z -> bool).

(** As long as no group empties, the traversal reaches every group. *)
Lemma remove_all_loop_spec fuel m members : forall g from w mc erri,
  groups_rep g w mc -> (length (ht_table g) - from < fuel)%nat ->
  erri = OPAL_SUCCESS ->
  (forall tag l, m !! tag = Some l -> remove_listed (argv_list members) l <> []) ->
  (forall tag, mc !! tag =
     if bool_decide (tag_key tag ∈ (entries (drop from (ht_table g))).*1) then m !! tag
     else remove_listed (argv_list members) <$> m !! tag) ->
  exists g' w', remove_all_loop calloc_ok fuel members g (cursor from) erri w =
      Ret (OPAL_SUCCESS, g', w') /\
    groups_rep g' w' (remove_listed (argv_list members) <$> m).
Proof.
  induction fuel as [|fuel IH]; intros g from w mc erri Hg Hf -> Hne Hmc; [lia|].
  cbn [remove_all_loop]. unfold opal_hash_table_get_next_key_ptr.
  pose proof (get_next_key_spec g from) as Hk.
  destruct (get_next_key g (cursor from)) as [[[k p] ii]|].
  - destruct Hk as (Hii & Hlt & He).
    destruct (rep_entry g w mc from k p ii Hg Hii He) as (tag & l & -> & Ht & Hm & Hl & Hp & Hnin).
    rewrite key_tag_key by done.
    assert (Hml : m !! tag = Some l).
    { rewrite Hmc, bool_decide_eq_true_2 in Hm; [done|]. rewrite He, fmap_cons. by left. }
    unfold orcm_logical_group_hash_table_remove_members, list_read, list_write.
    rewrite Hl, !bind_Ret. specialize (Hne _ _ Hml) as Hl'.
    set (l' := remove_listed (argv_list members) l) in *.
    assert (match l' with [] => opal_hash_table_remove_value_ptr g (tag_key tag)
            | _ => opal_hash_table_set_value_ptr calloc_ok g (tag_key tag) p end
            = Ret (OPAL_SUCCESS, touch g)) as ->.
    { destruct l'; [done|]. by apply set_value_same; [apply Hg|]. }
    rewrite !bind_Ret. cbn [Z.eqb OPAL_SUCCESS negb]. change (Some ii) with (cursor (S ii)).
    eapply IH; [by apply rep_touch, rep_write|cbn; lia|done|done|].
    intros t. cbn [touch with_slots ht_table]. destruct (decide (tag = t)) as [->|Hnt].
    + by rewrite lookup_insert_eq, bool_decide_eq_false_2, Hml by done.
    + rewrite lookup_insert_ne, Hmc, He, fmap_cons by done.
      erewrite (bool_decide_ext _ (tag_key t ∈ (entries (drop (S ii) (ht_table g))).*1)); [done|].
      rewrite elem_of_cons. cbn. split; [|by right]. intros [Hx%tag_key_inj|]; [by subst|done].
  - exists g, w. split; [done|]. replace (_ <$> m) with mc; [done|].
    apply map_eq; intros t. rewrite Hmc, Hk, lookup_fmap.
    by rewrite bool_decide_eq_false_2 by apply not_elem_of_nil.
Qed.

End RemoveAll.

(** ** Saving and loading *)
Lemma join_comma_snoc (cur : list cstr) m :
  cur <> [] -> join_spec "," (cur ++ [m]) = (join_spec "," cur ++ cs ",") ++ m.
Proof.
  induction cur as [|x cur IH]; intros Hne; [done|]. destruct cur as [|y cur].
  - cbn. by rewrite <- app_assoc.
  - change ((x :: y :: cur) ++ [m]) with (x :: (y :: cur ++ [m])).
    rewrite !join_spec_cons. change (y :: cur ++ [m]) with ((y :: cur) ++ [m]).
    rewrite IH by done. by repeat (rewrite <- app_assoc; cbn [app]).
Qed.

Lemma join_spec_nonempty (cur : list cstr) :
  cur <> [] -> Forall (fun s => s <> []) cur -> join_spec "," cur <> [].
Proof.
  intros Hne Hall. destruct Hall as [|x cur Hx Hall]; [done|]. destruct cur; cbn; by destruct x.
Qed.

(** Joined lines that hold the members in order. *)
Definition packs (lines : list cstr) (members : list cstr) : Prop :=
  exists parts, lines = join_spec "," <$> parts /\ concat parts = members /\
                Forall (fun l => l <> []) parts.

Lemma packs_snoc lines l cur : packs lines l -> cur <> [] -> packs (lines ++ [join_spec "," cur]) (l ++ cur).
Proof.
  intros (parts & -> & <- & Hn) Hc. exists (parts ++ [cur]).
  rewrite fmap_app, concat_app. cbn. rewrite app_nil_r. split_and!; [done|done|].
  apply Forall_app; auto.
Qed.

(** The buffer after one more member. *)
Definition buffer_add (size : nat) (buf m : cstr) : outcome cstr :=
  memberlist ← (if (0 <? length buf)%nat then strcat_buf size buf (cs ",") else Ret buf);
  strcat_buf size memberlist m.

Lemma buffer_add_join size c m x :
  Forall (fun s => s <> []) c -> m <> [] -> buffer_add size (join_spec "," c) m = Ret x ->
  x = join_spec "," (c ++ [m]) /\ (0 <? length x)%nat = true.
Proof.
  intros Hc Hm. unfold buffer_add. destruct c as [|y c].
  - cbn. unfold strcat_buf. case_match; [|done]. intros [= <-]. by destruct m.
  - pose proof (join_spec_nonempty (y :: c) ltac:(done) Hc) as Hj.
    assert ((0 <? length (join_spec "," (y :: c)))%nat = true) as ->.
    { apply Nat.ltb_lt. destruct (join_spec "," (y :: c)); [done|simpl; lia]. }
    intros (x1 & E1 & E2)%bind_Ret_inv. unfold strcat_buf in E1, E2.
    destruct (_ <=? _)%nat in E1; [|done]. inv E1. destruct (_ <=? _)%nat in E2; [|done]. inv E2.
    split; [symmetry; by apply join_comma_snoc|]. apply Nat.ltb_lt.
    rewrite !length_app. destruct m; [done|simpl; lia].
Qed.

Lemma do_convertion_step size m rest buf acc :
  do_convertion_loop (m :: rest) buf size acc =
  (let '(buf, acc) := if (size <? length buf + length m + 1)%nat then ([], acc ++ [buf])
                      else (buf, acc) in
   x ← buffer_add size buf m;
   do_convertion_loop rest x size
     (match rest with [] => if (0 <? length x)%nat then acc ++ [x] else acc | _ => acc end)).
Proof.
  cbn [do_convertion_loop orcm_logical_group_list_append snd]. unfold buffer_add.
  destruct (size <? length buf + length m + 1)%nat; by destruct (if (0 <? _)%nat then _ else _).
Qed.

Lemma do_convertion_packs size members cur acc out accm :
  members <> [] -> Forall (fun s => s <> []) cur -> Forall (fun s => s <> []) members ->
  packs acc accm ->
  do_convertion_loop members (join_spec "," cur) size acc = Ret out ->
  packs out (accm ++ cur ++ members).
Proof.
  revert cur acc accm; induction members as [|m rest IH]; intros cur acc accm Hne Hcur Hms Hacc;
    [done|].
  apply Forall_cons_iff in Hms as [Hm Hrest]. rewrite do_convertion_step.
  assert (Hpk : forall c a am, Forall (fun s => s <> []) c -> packs a am ->
     (x ← buffer_add size (join_spec "," c) m;
      do_convertion_loop rest x size
        (match rest with [] => if (0 <? length x)%nat then a ++ [x] else a | _ => a end)) = Ret out ->
     packs out (am ++ c ++ m :: rest)).
  { intros c a am Hc Ha (x & Hx & E)%bind_Ret_inv.
    destruct (buffer_add_join _ _ _ _ Hc Hm Hx) as [-> Hl]. rewrite Hl in E.
    destruct rest as [|r rest'].
    - cbn [do_convertion_loop] in E. inv E. apply packs_snoc; [done|by destruct c].
    - replace (c ++ m :: r :: rest') with ((c ++ [m]) ++ r :: rest') by (by rewrite <- app_assoc).
      by apply (IH (c ++ [m]) a am); [|apply Forall_app; auto| | |]. }
  destruct (Nat.ltb_spec size (length (join_spec "," cur) + length m + 1)) as [Hlt|_].
  - destruct cur as [|y cur].
    + intros (x & Hx & _)%bind_Ret_inv. unfold buffer_add, strcat_buf in Hx. cbn in Hx, Hlt.
      destruct (Nat.leb_spec (length m + 1) size); [lia|done].
    + rewrite app_assoc. intros E. apply (Hpk [] (acc ++ [join_spec "," (y :: cur)])); [done| |done].
      by apply packs_snoc.
  - by apply (Hpk cur acc accm).
Qed.

Lemma join_prefix_length (c l : list cstr) :
  (length (join_spec "," c) <= length (join_spec "," (c ++ l)))%nat.
Proof.
  induction c as [|x c IH]; [simpl; lia|]. destruct c as [|y c].
  - destruct l as [|z l]; [done|]. cbn [app]. rewrite join_spec_cons, length_app. cbn [join_spec]. lia.
  - change ((x :: y :: c) ++ l) with (x :: y :: (c ++ l)). rewrite !join_spec_cons, !length_app.
    cbn [length app] in *. lia.
Qed.

Lemma buffer_add_fits size cur m :
  Forall (fun s => s <> []) (cur ++ [m]) -> (length (join_spec "," (cur ++ [m])) < size)%nat ->
  buffer_add size (join_spec "," cur) m = Ret (join_spec "," (cur ++ [m])) /\
  (size <? length (join_spec "," cur) + length m + 1)%nat = false.
Proof.
  intros [Hc Hm]%Forall_app Hlen. apply Forall_cons_iff in Hm as [Hm _].
  unfold buffer_add, strcat_buf. destruct cur as [|y cur].
  - cbn in Hlen |- *. replace (length m + 1 <=? size)%nat with true by (symmetry; apply Nat.leb_le; lia).
    split; [done|]. apply Nat.ltb_ge. lia.
  - rewrite join_comma_snoc in Hlen |- * by done. rewrite !length_app in Hlen.
    change (length (cs ",")) with 1%nat in *.
    pose proof (join_spec_nonempty (y :: cur) ltac:(done) Hc) as Hj.
    set (j := join_spec "," (y :: cur)) in *.
    replace (0 <? length j)%nat with true by (symmetry; apply Nat.ltb_lt; destruct j; [done|simpl; lia]).
    replace (length j + 1 + 1 <=? size)%nat with true
      by (symmetry; apply Nat.leb_le; destruct m; [done|simpl in *; lia]).
    rewrite bind_Ret, length_app. change (length (cs ",")) with 1%nat.
    replace (_ <=? size)%nat with true by (symmetry; apply Nat.leb_le; lia).
    split; [done|]. apply Nat.ltb_ge. lia.
Qed.

(** Members whose joined length stays below the buffer make one line. *)
Lemma do_convertion_single l size cur acc :
  (length (join_spec "," (cur ++ l)) < size)%nat -> l <> [] ->
  Forall (fun s => s <> []) (cur ++ l) ->
  do_convertion_loop l (join_spec "," cur) size acc = Ret (acc ++ [join_spec "," (cur ++ l)]).
Proof.
  revert cur acc; induction l as [|m rest IH]; intros cur acc Hlen Hne Hall; [done|].
  replace (cur ++ m :: rest) with ((cur ++ [m]) ++ rest) in * by (by rewrite <- app_assoc).
  rewrite do_convertion_step. pose proof (join_prefix_length (cur ++ [m]) rest) as Hpre.
  pose proof Hall as [Hcm Hrest]%Forall_app.
  destruct (buffer_add_fits size cur m Hcm) as [E1 E2]; [lia|]. rewrite E2, E1, bind_Ret.
  destruct rest as [|r rest]; [|by apply IH]. rewrite app_nil_r in *. cbn [do_convertion_loop].
  destruct (Nat.ltb_spec 0 (length (join_spec "," (cur ++ [m])))); [done|].
  exfalso. apply (join_spec_nonempty (cur ++ [m])); [by destruct cur|done|].
  by destruct (join_spec "," (cur ++ [m])); [|simpl in *; lia].
Qed.

(** The parser value written for a group. *)
Definition saved_group (gl : cstr * list cstr) (v : orcm_value_t) : Prop :=
  exists lines, packs lines gl.2 /\
    v = VPtr (cs "group") (VString (cs "name") gl.1 :: (VString (cs "members") <$> lines)).

(** Groups that can be written: some members, no special characters, and the
    lines fit the buffer. *)
Definition writable (l : list cstr) : Prop :=
  l <> [] /\ Forall plain l /\ returns (orcm_logical_group_do_convertion l [] line_size).

Lemma save_concat_spec acc tag l :
  writable l ->
  exists v, orcm_logical_group_save_to_file_concat acc tag l = Ret (OPAL_SUCCESS, acc ++ [v]) /\
    saved_group (tag, l) v.
Proof.
  intros (Hne & Hp & lines & Hr). unfold orcm_logical_group_save_to_file_concat.
  assert (orcm_logical_group_convert_members_list (Some l) line_size = Ret (Some lines)) as ->.
  { unfold orcm_logical_group_convert_members_list. destruct l; [done|].
    change (line_size =? 0)%nat with false. by rewrite Hr, bind_Ret. }
  rewrite bind_Ret. eexists. split; [done|]. exists lines. split; [|done].
  apply (do_convertion_packs line_size l [] [] lines []); try done.
  - eapply Forall_imp; [|exact Hp]. by intros x [? _].
  - by exists [].
Qed.

Lemma save_loop_spec fuel g w m : forall from acc,
  groups_rep g w m -> (forall tag l, m !! tag = Some l -> writable l) ->
  (length (ht_table g) - from < fuel)%nat ->
  exists gs vs, save_loop fuel g (cursor from) acc w = Ret (OPAL_SUCCESS, acc ++ vs) /\
    Forall2 saved_group gs vs /\ (entries (drop from (ht_table g))).*1 = tag_key <$> gs.*1 /\
    Forall (fun gl => nul_free gl.1 /\ m !! gl.1 = Some gl.2) gs.
Proof.
  induction fuel as [|fuel IH]; intros from acc Hg Hw Hf; [lia|].
  cbn [save_loop]. unfold opal_hash_table_get_next_key_ptr.
  pose proof (get_next_key_spec g from) as Hk.
  destruct (get_next_key g (cursor from)) as [[[k p] ii]|].
  - destruct Hk as (Hii & Hlt & He).
    destruct (rep_entry g w m from k p ii Hg Hii He) as (tag & l & -> & Ht & Hm & Hl & _ & _).
    unfold list_read. rewrite Hl, bind_Ret, key_tag_key by done.
    destruct (save_concat_spec acc tag l (Hw _ _ Hm)) as (v & -> & Hv). rewrite bind_Ret.
    change (Some ii) with (cursor (S ii)).
    destruct (IH (S ii) (acc ++ [v]) Hg Hw) as (gs & vs & E & Hs & Hke & Hall); [lia|].
    exists ((tag, l) :: gs), (v :: vs). cbn [Z.eqb OPAL_SUCCESS negb].
    rewrite E, <- app_assoc. split_and!; [done|by constructor| |by constructor].
    rewrite He. cbn. by rewrite Hke.
  - exists [], []. rewrite app_nil_r, Hk. done.
Qed.

Section LoadLines.
Context (int_log10 : Z -> Z) (calloc_ok : Z -> bool).
Hypothesis Halloc : forall c, calloc_ok c = true.

(** Loading lines into the current tag. *)
Lemma load_lines parts g w m tag n :
  groups_rep g w m -> nul_free tag -> w_current_tag w = Some tag ->
  Forall (fun l => l <> [] /\ Forall plain l) parts ->
  ht_room n g -> n + Z.of_nat (length parts) < 2 ^ 60 ->
  exists g' w', parsing_items int_log10 calloc_ok
        (VString (cs "members") <$> (join_spec "," <$> parts)) OPAL_SUCCESS (Some g) w =
      Ret (OPAL_SUCCESS, Some g', w') /\ w_current_tag w' = Some tag /\
    ht_room (n + Z.of_nat (length parts)) g' /\
    groups_rep g' w' (match parts with [] => m | _ =>
                        <[tag := add_unique (default [] (m !! tag)) (concat parts)]> m end).
Proof.
  revert g w m n; induction parts as [|l parts IH]; intros g w m n Hr Ht Hc Hp Hroom Hn.
  { exists g, w. cbn [length Z.of_nat]. by rewrite Z.add_0_r. }
  apply Forall_cons_iff in Hp as [[Hne Hl] Hp]. cbn [length] in Hn |- *.
  destruct (add_spec int_log10 calloc_ok Halloc g w m tag (Some (join_spec "," l)) (Some l) (w_erange w) n Hr Hroom)
    as (g1 & w1 & E & Hr1 & Hroom1 & _ & Hc1); [lia|done| |].
  { cbn [orte_regex_extract_node_names].
    rewrite extract_plain_list; [done|done|done|apply length_join_spec]. }
  destruct (IH g1 w1 _ (n + 1) Hr1 Ht ltac:(congruence) Hp Hroom1) as (g2 & w2 & E2 & Hc2 & Hroom2 & Hr2);
    [lia|].
  exists g2, w2. rewrite !fmap_cons. cbn [parsing_items parsing_item].
  change (strcmp0 (cs "name") (cs "members")) with false.
  change (strcmp0 (cs "members") (cs "members")) with true. cbv iota.
  rewrite Hc, E, !bind_Ret. split; [exact E2|]. split; [done|].
  split; [by replace (n + Z.of_nat (S (length parts))) with (n + 1 + Z.of_nat (length parts)) by lia|].
  cbn [concat argv_list] in *. destruct parts as [|l' parts]; [by rewrite app_nil_r|].
  rewrite add_unique_app. by rewrite lookup_insert_eq, insert_insert_eq in Hr2.
Qed.

End LoadLines.

(** Adding whole groups to a map. *)
Definition load_groups (m : gmap cstr (list cstr)) (gs : list (cstr * list cstr))
    : gmap cstr (list cstr) :=
  foldl (fun m gl => <[gl.1 := add_unique (default [] (m !! gl.1)) gl.2]> m) m gs.

Definition total_members (gs : list (cstr * list cstr)) : Z :=
  Z.of_nat (sum_list ((fun gl => length gl.2) <$> gs)).

Lemma packs_parts lines l : packs lines l -> l <> [] -> Forall plain l ->
  exists parts, lines = join_spec "," <$> parts /\ concat parts = l /\ parts <> [] /\
    (length parts <= length l)%nat /\ Forall (fun l => l <> [] /\ Forall plain l) parts.
Proof.
  intros (parts & -> & <- & Hn) Hne Hp. exists parts. split_and!; [done|done|by intros ->| |].
  - clear -Hn. induction Hn as [|x parts Hx Hn IH]; [done|]. cbn [concat length].
    rewrite length_app. destruct x; [done|]. simpl. lia.
  - clear -Hn Hp. induction Hn as [|x parts Hx Hn IH]; [done|]. cbn [concat] in Hp.
    apply Forall_app in Hp as [? ?]. constructor; auto.
Qed.

Section LoadGroups.
Context (int_log10 : Z -> Z) (calloc_ok : Z -> bool).
Hypothesis Halloc : forall c, calloc_ok c = true.

Lemma process_tag_line_spec tag w :
  orcm_logical_group_process_tag_line tag w = (OPAL_SUCCESS, set_current_tag w (Some tag)).
Proof.
  unfold orcm_logical_group_process_tag_line. destruct (w_current_tag w) as [t|] eqn:Et; [|done].
  unfold strcmp0. case_bool_decide; [|done]. subst t. destruct w; cbn in *. by subst.
Qed.

(** The nested list of a group is parsed by the same loop. *)
Lemma parsing_item_group data erri g w :
  parsing_item int_log10 calloc_ok (VPtr (cs "group") data) erri g w =
  ('(rc, g, w) ← parsing_items int_log10 calloc_ok data OPAL_SUCCESS g w;
   if negb (rc =? OPAL_SUCCESS) then Ret (inl rc, g, w) else Ret (inr erri, g, w)).
Proof. reflexivity. Qed.

Lemma load_group tag l v g w m n :
  groups_rep g w m -> saved_group (tag, l) v -> nul_free tag -> l <> [] -> Forall plain l ->
  ht_room n g -> n + Z.of_nat (length l) < 2 ^ 60 ->
  exists g' w', parsing_item int_log10 calloc_ok v OPAL_SUCCESS (Some g) w =
      Ret (inr OPAL_SUCCESS, Some g', w') /\ ht_room (n + Z.of_nat (length l)) g' /\
    groups_rep g' w' (<[tag := add_unique (default [] (m !! tag)) l]> m).
Proof.
  intros Hr (lines & Hpk & ->) Ht Hne Hp Hroom Hn. cbn [fst snd] in *.
  destruct (packs_parts _ _ Hpk Hne Hp) as (parts & -> & Hcon & Hpne & Hlen & Hparts).
  assert (Hr1 : groups_rep g (set_current_tag w (Some tag)) m) by (by eapply rep_world).
  destruct (load_lines int_log10 calloc_ok Halloc parts g _ m tag n Hr1 Ht eq_refl Hparts Hroom)
    as (g2 & w2 & E2 & _ & Hroom2 & Hr2); [lia|].
  destruct parts as [|l1 parts]; [done|]. rewrite Hcon in Hr2. exists g2, w2.
  rewrite parsing_item_group. cbn [parsing_items]. cbn [parsing_item].
  change (strcmp0 (cs "name") (cs "name")) with true. cbv iota.
  rewrite process_tag_line_spec, bind_Ret, E2, bind_Ret.
  split; [done|]. split; [|done]. unfold ht_room in *. lia.
Qed.

Lemma load_groups_spec gs vs g w m n :
  groups_rep g w m -> Forall2 saved_group gs vs ->
  Forall (fun gl => nul_free gl.1 /\ gl.2 <> [] /\ Forall plain gl.2) gs ->
  ht_room n g -> n + total_members gs < 2 ^ 60 ->
  exists g' w', parsing_items int_log10 calloc_ok vs OPAL_SUCCESS (Some g) w =
      Ret (OPAL_SUCCESS, Some g', w') /\ groups_rep g' w' (load_groups m gs).
Proof.
  intros Hr Hs; revert g w m n Hr; induction Hs as [|[tag l] v gs vs Hv Hs IH];
    intros g w m n Hr Hall Hroom Hn; [by exists g, w|].
  apply Forall_cons_iff in Hall as [(Ht & Hne & Hp) Hall]. cbn [fst snd] in *.
  assert (Hn' : n + Z.of_nat (length l) + total_members gs < 2 ^ 60).
  { unfold total_members in *. cbn in Hn. lia. }
  assert (H0 : 0 <= total_members gs) by (unfold total_members; lia).
  destruct (load_group tag l v g w m n Hr Hv Ht Hne Hp Hroom) as (g2 & w2 & E2 & Hroom2 & Hr2); [lia|].
  destruct (IH g2 w2 _ _ Hr2 Hall Hroom2) as (g3 & w3 & E3 & Hr3); [lia|].
  exists g3, w3. split; [|exact Hr3]. cbn [parsing_items]. by rewrite E2, bind_Ret.
Qed.

End LoadGroups.

(** Loading the saved groups into an empty map gives them back. *)
Lemma load_groups_empty gs m :
  NoDup gs.*1 -> Forall (fun gl => NoDup gl.2) gs ->
  (forall tag, tag ∈ gs.*1 -> m !! tag = None) ->
  load_groups m gs = list_to_map gs ∪ m.
Proof.
  revert m; induction gs as [|[tag l] gs IH]; intros m Hnd Hl Hm.
  - cbn. by rewrite map_empty_union.
  - apply NoDup_cons in Hnd as [Hnin Hnd]. apply Forall_cons_iff in Hl as [Hl1 Hl].
    cbn [load_groups foldl fst snd]. fold (load_groups (<[tag := add_unique (default [] (m !! tag)) l]> m) gs).
    rewrite Hm by (cbn; by left). cbn [default]. rewrite add_unique_disjoint by done. cbn [app id].
    rewrite IH; [|done|done|].
    + cbn. rewrite <- insert_union_l, insert_union_r; [done|]. by apply not_elem_of_list_to_map.
    + intros t Ht. rewrite lookup_insert_ne by (by intros ->). apply Hm. cbn. by right.
Qed.


(** ** Expanding nested groups *)

(** The members of a list that are groups themselves, and the other ones. *)
Definition nested_of (m : gmap cstr (list cstr)) (l : list cstr) : list cstr :=
  filter (fun x => is_Some (m !! x)) l.
Definition leaves_of (m : gmap cstr (list cstr)) (l : list cstr) : list cstr :=
  filter (fun x => m !! x = None) l.

(** [x] is a node of the group [t], directly or through nested groups. *)
Inductive in_group (m : gmap cstr (list cstr)) : cstr -> cstr -> Prop :=
| in_group_here t l x : m !! t = Some l -> x ∈ l -> m !! x = None -> in_group m t x
| in_group_nested t l s x : m !! t = Some l -> s ∈ l -> is_Some (m !! s) -> in_group m s x ->
    in_group m t x.

Lemma in_group_inv m t x :
  in_group m t x <->
  exists l, m !! t = Some l /\ (x ∈ leaves_of m l \/ exists s, s ∈ nested_of m l /\ in_group m s x).
Proof.
  unfold leaves_of, nested_of. split.
  - destruct 1 as [t l x Hl Hx Hn|t l s x Hl Hs Hsome Hin]; exists l; split; try done.
    + left. by apply list_elem_of_filter.
    + right. exists s. by rewrite list_elem_of_filter.
  - intros (l & Hl & [[? ?]%list_elem_of_filter|(s & [? ?]%list_elem_of_filter & ?)]).
    + by eapply in_group_here.
    + by eapply in_group_nested.
Qed.

Lemma append_unique_add argv arg :
  opal_argv_append_unique_nosize argv arg false = (OPAL_SUCCESS, Some (add_unique (argv_list argv) [arg])).
Proof.
  rewrite append_unique_cases. cbn. by destruct (decide _); [rewrite bool_decide_eq_true_2|rewrite bool_decide_eq_false_2].
Qed.

Lemma rep_get_rc g w m x : groups_rep g w m ->
  get_value g (tag_key x) =
  Ret (if bool_decide (is_Some (m !! x)) then OPAL_SUCCESS else OPAL_ERR_NOT_FOUND,
       ht_map g !! tag_key x, touch g).
Proof.
  intros Hr. rewrite get_value_spec by apply Hr. do 3 f_equal.
  destruct (m !! x) as [l|] eqn:Em.
  - destruct (rep_Some _ _ _ _ _ Hr Em) as (p & -> & _). by rewrite bool_decide_eq_true_2.
  - rewrite (rep_None _ _ _ _ Hr Em). by rewrite bool_decide_eq_false_2 by (intros [? ?]; done).
Qed.

Lemma nested_members_spec m w l : forall g count q out,
  groups_rep g w m -> NoDup (q ++ nested_of m l) ->
  exists out', nested_members l g count (Some q) out =
      Ret (OPAL_SUCCESS, count + Z.of_nat (length (nested_of m l)), Some (q ++ nested_of m l), out') /\
    argv_list out' = add_unique (argv_list out) (leaves_of m l).
Proof.
  unfold nested_of, leaves_of.
  induction l as [|x l IH]; intros g count q out Hr Hnd; cbn [nested_members].
  { exists out. cbn. by rewrite app_nil_r, Z.add_0_r. }
  unfold opal_hash_table_get_value_ptr. rewrite (rep_get_rc g w m x Hr), bind_Ret, !append_unique_add.
  cbn [Z.eqb OPAL_SUCCESS OPAL_ERR_NOT_FOUND negb]. pose proof (rep_touch _ _ _ Hr) as Ht.
  case_bool_decide as Hx.
  - change (0 =? OPAL_SUCCESS) with true. cbv iota.
    rewrite !filter_cons, decide_True in * by done.
    rewrite decide_False by (by destruct Hx as [? ->]). cbn [argv_list].
    assert (Hq : add_unique q [x] = q ++ [x]).
    { apply add_unique_disjoint. change (x :: ?l) with ([x] ++ l) in Hnd.
      rewrite app_assoc in Hnd. by apply NoDup_app in Hnd as [? _]. }
    rewrite Hq. destruct (IH (touch g) (count + 1) (q ++ [x]) out Ht) as (out' & -> & Ho).
    { by rewrite <- app_assoc. }
    exists out'. rewrite <- app_assoc. cbn [length app]. split; [|done]. do 4 f_equal. lia.
  - change (OPAL_ERR_NOT_FOUND =? OPAL_SUCCESS) with false. cbv iota.
    rewrite !filter_cons, decide_False in * by done.
    rewrite decide_True by (by apply eq_None_not_Some).
    destruct (IH (touch g) count q (Some (add_unique (argv_list out) [x])) Ht Hnd) as (out' & -> & Ho).
    exists out'. by rewrite Ho.
Qed.

(** The nested groups the groups of [S] refer to, with repetitions. *)
Definition refs (m S : gmap cstr (list cstr)) : list cstr :=
  map_to_list S ≫= fun tl => nested_of m tl.2.

Lemma refs_delete m S t l :
  S !! t = Some l -> refs m S ≡ₚ nested_of m l ++ refs m (delete t S).
Proof. intros Hl. unfold refs. by rewrite <- (map_to_list_delete S t l Hl). Qed.

Lemma argv_delete_head count t q :
  opal_argv_delete count (Some (t :: q)) 0 1 = (OPAL_SUCCESS, count - 1, Some q).
Proof. rewrite argv_delete_spec by lia. destruct (Z.ltb_spec (Z.of_nat (length (t :: q))) 0); [lia|done]. Qed.

(** The work list: every group is referred to at most once from the list and
    the groups [S] not yet expanded, so it is expanded at most once. *)
Lemma nested_loop_spec m w fuel : forall g S q out count,
  groups_rep g w m ->
  (forall t l, m !! t = Some l -> S !! t = Some l \/ t ∉ q ++ refs m S) ->
  NoDup (q ++ refs m S) -> count = Z.of_nat (length q) ->
  (length q + length (refs m S) < fuel)%nat ->
  exists out', nested_loop fuel g count (Some q) out OPAL_SUCCESS w = Ret (OPAL_SUCCESS, out') /\
    (forall x, x ∈ argv_list out' <-> x ∈ argv_list out \/ exists t, t ∈ q /\ in_group m t x) /\
    (NoDup (argv_list out) -> NoDup (argv_list out')).
Proof.
  induction fuel as [|fuel IH]; intros g S q out count Hr Hinv Hnd -> Hf; [lia|].
  cbn [nested_loop]. destruct q as [|t qt].
  { exists out. cbn. split; [done|]. split; [|done]. intros x. split; [by left|].
    intros [?|(t & Ht & _)]; [done|by apply elem_of_nil in Ht]. }
  destruct (Z.ltb_spec 0 (Z.of_nat (length (t :: qt)))) as [_|Hz]; [|simpl in Hz; lia].
  cbn [argv_list lookup list_lookup]. unfold opal_hash_table_get_value_ptr.
  rewrite (rep_get_rc g w m t Hr), bind_Ret. pose proof (rep_touch _ _ _ Hr) as Ht.
  destruct (m !! t) as [l|] eqn:Em.
  - destruct (rep_Some _ _ _ _ _ Hr Em) as (p & -> & Hl). unfold list_read. rewrite Hl, bind_Ret.
    destruct (Hinv t l Em) as [HS|Hno]; [|by destruct Hno; left].
    rewrite (refs_delete m S t l HS), app_assoc in Hnd.
    assert (Hlen : length (refs m S) = (length (nested_of m l) + length (refs m (delete t S)))%nat).
    { by rewrite (refs_delete m S t l HS), length_app. }
    destruct (nested_members_spec m w l (touch g) (Z.of_nat (length (t :: qt))) (t :: qt) out Ht)
      as (out1 & -> & Ho1); [by apply NoDup_app in Hnd as [? _]|].
    rewrite bind_Ret. cbn [Z.eqb OPAL_SUCCESS negb app]. rewrite argv_delete_head.
    cbn [Z.eqb OPAL_SUCCESS negb].
    destruct (IH (touch g) (delete t S) (qt ++ nested_of m l) out1
                (Z.of_nat (length (t :: qt)) + Z.of_nat (length (nested_of m l)) - 1) Ht)
      as (out' & E & Hel & Hnd').
    + intros t' l' Hm'. destruct (decide (t = t')) as [->|Hne].
      { right. cbn [app] in Hnd. by apply NoDup_cons in Hnd as [? _]. }
      destruct (Hinv t' l' Hm') as [HS'|Hno]; [left; by rewrite lookup_delete_ne|right].
      rewrite (refs_delete m S t l HS) in Hno. set_solver.
    + cbn [app] in Hnd. by apply NoDup_cons in Hnd as [_ ?].
    + rewrite length_app. cbn [length]. lia.
    + rewrite length_app. cbn [length] in Hf. lia.
    + exists out'. split; [exact E|]. split.
      * intros x. rewrite Hel, Ho1, add_unique_elem. setoid_rewrite elem_of_app.
        setoid_rewrite elem_of_cons. pose proof (in_group_inv m t x) as Hin. rewrite Em in Hin.
        naive_solver.
      * intros Hn. apply Hnd'. rewrite Ho1. by apply add_unique_NoDup.
  - rewrite (rep_None _ _ _ _ Hr Em). rewrite bind_Ret. cbn [nested_members]. rewrite bind_Ret.
    cbn [Z.eqb OPAL_SUCCESS negb]. rewrite argv_delete_head. cbn [Z.eqb OPAL_SUCCESS negb].
    cbn [app] in Hnd. apply NoDup_cons in Hnd as [Hnin Hnd]. cbn [length] in Hf.
    destruct (IH (touch g) S qt out (Z.of_nat (length (t :: qt)) - 1) Ht) as (out' & E & Hel & Hnd').
    + intros t' l' Hm'. destruct (Hinv t' l' Hm') as [|Hno]; [by left|right]. set_solver.
    + done.
    + cbn [length]. lia.
    + lia.
    + exists out'. split; [exact E|]. split; [|done]. intros x. rewrite Hel.
      setoid_rewrite elem_of_cons. pose proof (in_group_inv m t x) as Hin. rewrite Em in Hin. naive_solver.
Qed.

(** ** What the storage promises *)
Definition xml_text (s : cstr) : Prop := s <> [] /\ Forall (fun c => 33 <= char_Z c <= 126) s.

(** The shape of the values the groups are written as. *)
Definition storable (v : orcm_value_t) : Prop :=
  exists tag lines, Forall xml_text (tag :: lines) /\
    v = VPtr (cs "group") (VString (cs "name") tag :: (VString (cs "members") <$> lines)).

(** [section_of f n] is the section of file [n] holding the groups, [opened f fd]
    the file behind a descriptor: an existing section can be opened, is
    retrieved as a list holding it, is replaced by an overwriting write, and
    survives closing. *)
Class ParserLaws (P : Type) `{Parser P} : Type := {
  section_of : P -> cstr -> option (list orcm_value_t);
  opened : P -> Z -> option cstr;
  open_section : forall n f l, n <> [] -> section_of f n = Some l ->
    exists fd f', parser_open n f = (fd, f') /\ 0 <= fd /\ opened f' fd = Some n /\
                  section_of f' n = Some l;
  retrieve_opened : forall n f fd l, opened f fd = Some n -> section_of f n = Some l ->
    retrieve_section fd SECTION [] f = Some [VPtr SECTION l];
  write_opened : forall n f fd l0 l, opened f fd = Some n -> section_of f n = Some l0 ->
    Forall storable l ->
    exists f', write_section fd (Some l) SECTION [] true f = (OPAL_SUCCESS, f') /\
               opened f' fd = Some n /\ section_of f' n = Some l;
  close_opened : forall n f fd l, opened f fd = Some n -> section_of f n = Some l ->
    exists f', parser_close fd f = (OPAL_SUCCESS, f') /\ section_of f' n = Some l
}.

Section StorageLaws.
Context {P : Type} `{ParserLaws P}.
Context (int_log10 : Z -> Z) (calloc_ok : Z -> bool) (install_prefix : cstr).
Hypothesis Halloc : forall c, calloc_ok c = true.
Implicit Types (st : lg_state P).

Lemma open_file_spec n st l :
  n <> [] -> section_of (lg_files st) n = Some l ->
  exists fd f, orcm_logical_group_open_file (Some n) st = (OPAL_SUCCESS, with_fd st fd f) /\
    opened f fd = Some n /\ section_of f n = Some l.
Proof.
  intros Hn Hs. destruct (open_section n (lg_files st) l Hn Hs) as (fd & f & E & Hfd & Ho & Hs').
  exists fd, f. unfold orcm_logical_group_open_file. destruct n; [done|].
  cbn [no_name]. rewrite E. by replace (fd <? 0) with false by lia.
Qed.

Lemma save_to_file_spec n st g vs l0 :
  n <> [] -> section_of (lg_files st) n = Some l0 ->
  opal_hash_table_get_size g <> 0 ->
  save_loop (loop_fuel g) g None [] (lg_world st) = Ret (OPAL_SUCCESS, vs) -> Forall storable vs ->
  exists st', orcm_logical_group_save_to_file (Some n) (Some g) st = Ret (OPAL_SUCCESS, st') /\
    section_of (lg_files st') n = Some vs /\ lg_world st' = lg_world st.
Proof.
  intros Hn Hs Hsz Hsave Hst. unfold orcm_logical_group_save_to_file,
    orcm_logical_group_open_file_with_logicalgroup_tag.
  destruct (open_file_spec n st l0 Hn Hs) as (fd & f & -> & Ho & Hs1).
  cbn [Z.eqb OPAL_SUCCESS negb].
  cbn [with_fd lg_parser_fd lg_files]. rewrite (retrieve_opened _ _ _ _ Ho Hs1).
  cbn [Z.eqb OPAL_SUCCESS negb]. unfold orcm_logical_group_save_to_file_internal.
  replace (opal_hash_table_get_size g =? 0) with false by lia.
  cbn [with_fd lg_parser_fd lg_files lg_world]. rewrite Hsave, bind_Ret. cbn [Z.eqb OPAL_SUCCESS].
  destruct (write_opened _ _ _ _ vs Ho Hs1 Hst) as (f2 & -> & Ho2 & Hs2). rewrite bind_Ret.
  cbn [with_files lg_parser_fd lg_files with_fd].
  destruct (close_opened _ _ _ _ Ho2 Hs2) as (f3 & -> & Hs3). cbn [Z.eqb OPAL_SUCCESS].
  eexists. by split.
Qed.

Lemma load_to_memory_spec n st vs g' w' :
  n <> [] -> section_of (lg_files st) n = Some vs ->
  (forall t, new_groups calloc_ok = Ret t ->
     parsing_items int_log10 calloc_ok vs OPAL_SUCCESS (Some t) (lg_world st) =
     Ret (OPAL_SUCCESS, Some g', w')) ->
  exists st', orcm_logical_group_load_to_memory int_log10 calloc_ok install_prefix (Some n) st =
      Ret (OPAL_SUCCESS, st') /\ lg_groups st' = Some g' /\ lg_world st' = w'.
Proof.
  intros Hn Hs Hp. unfold orcm_logical_group_load_to_memory, orcm_logical_group_init.
  destruct (init_spec (K := list ascii) (V := lptr) calloc_ok HASH_SIZE) as (t & E & _);
    [done|apply Halloc|].
  specialize (Hp t). unfold new_groups in Hp. rewrite E, bind_Ret in Hp. specialize (Hp eq_refl).
  rewrite E, !bind_Ret. cbn [Z.eqb OPAL_SUCCESS negb]. unfold orcm_logical_group_load_from_file.
  cbn [lg_groups lg_storage_filename].
  set (st1 := MkLg _ _ _ _ _). destruct (open_file_spec n st1 vs Hn Hs) as (fd & f & -> & Ho & Hs1).
  cbn [Z.eqb OPAL_SUCCESS negb]. unfold orcm_logical_group_parse_from_file.
  cbn [with_fd lg_parser_fd lg_files lg_world]. rewrite (retrieve_opened _ _ _ _ Ho Hs1).
  cbn [parse_sections]. change (strcmp0 SECTION (cs "logicalgroup")) with true. cbv iota.
  unfold orcm_logical_group_parsing, st1. cbn [lg_world lg_groups].
  rewrite Hp, !bind_Ret. cbn [Z.eqb OPAL_SUCCESS negb]. rewrite !bind_Ret.
  cbn [with_groups with_fd lg_parser_fd lg_files lg_groups lg_world].
  destruct (close_opened _ _ _ _ Ho Hs1) as (f3 & -> & _). cbn [Z.eqb OPAL_SUCCESS].
  rewrite bind_Ret. eexists. by split.
Qed.

End StorageLaws.
