(* ===== verification/LogicalGroupClaims.v ===== *)
(** * What the logical-group operations guarantee

    The main theorems about [orcm/util/logical_group.c], each with an example
    that applies it; the supporting lemmas are in [LogicalGroupProps]. *)

From S2P Require Import Prelude CString Argv HashTable Regex RegexRoundtrip LogicalGroup LogicalGroupProps.
From stdpp Require Import base strings numbers list gmap fin_maps sets.
From Stdlib Require Import ZArith Lia Ascii.

Open Scope Z_scope.

(** An empty world and an allocator that never fails, for the examples. *)
Definition world0 : world := MkWorld ∅ 0 false None.
Definition always (c : Z) : bool := true.

Lemma world0_fresh p : is_Some (w_lists world0 !! p) -> (p < w_next world0)%nat.
Proof. intros [? Hx]. done. Qed.

(** ** Adding *)

(** C30: adding an expression to a tag succeeds and leaves every other
    group as it was; the group keeps its members in order, gains exactly the
    names of the expression, and holds no duplicates if it held none. *)
Theorem logical_group_add_correct (int_log10 : Z -> Z) (calloc_ok : Z -> bool)
    (g : groups_t) (w : world) (m : gmap cstr (list cstr)) (tag : cstr) (regex : option cstr)
    (names : argv_t) (e : bool) (n : Z) :
  (forall c, calloc_ok c = true) -> groups_rep g w m -> ht_room n g -> n + 1 < 2 ^ 60 ->
  nul_free tag ->
  orte_regex_extract_node_names int_log10 regex None (w_erange w) = Ret (OPAL_SUCCESS, names, e) ->
  exists g' w' l, orcm_logical_group_add int_log10 calloc_ok (Some tag) regex (Some g) w =
      Ret (OPAL_SUCCESS, Some g', w') /\
    groups_rep g' w' (<[tag := l]> m) /\
    default [] (m !! tag) `prefix_of` l /\
    (forall x, x ∈ l <-> x ∈ default [] (m !! tag) \/ x ∈ argv_list names) /\
    (NoDup (default [] (m !! tag)) -> NoDup l).
Proof.
  intros Ha Hr Hroom Hn Ht Hx.
  destruct (add_spec int_log10 calloc_ok Ha g w m tag regex names e n Hr Hroom Hn Ht Hx)
    as (g' & w' & E & Hr' & _).
  exists g', w', (add_unique (default [] (m !! tag)) (argv_list names)).
  split_and!; [done|done|apply add_unique_prefix|intros; apply add_unique_elem|apply add_unique_NoDup].
Qed.

Lemma logical_group_add_correct_witness :
  exists g g' w' l, new_groups always = Ret g /\
    orcm_logical_group_add ideal_log10 always (Some (cs "rack")) (Some (cs "n1,n2,n1")) (Some g) world0
      = Ret (OPAL_SUCCESS, Some g', w') /\
    groups_rep g' w' {[cs "rack" := l]} /\ (forall x, x ∈ l <-> x ∈ [cs "n1"; cs "n2"; cs "n1"]).
Proof.
  destruct (new_groups_spec always ltac:(done) world0 world0_fresh) as (g & E & Hr & Hroom).
  destruct (logical_group_add_correct ideal_log10 always g world0 ∅ (cs "rack")
              (Some (cs "n1,n2,n1")) (Some [cs "n1"; cs "n2"; cs "n1"]) false 0)
    as (g' & w' & l & E' & Hr' & _ & Hl & _);
    [done|done|done|lia|by repeat constructor|vm_compute; reflexivity|].
  exists g, g', w', l. split_and!; [done|done|done|]. intros x. rewrite Hl.
  rewrite lookup_empty. cbn. split; [intros [H|]; [by apply elem_of_nil in H|done]|by right].
Defined.

(** An expression that does not parse leaves a new tag out of the
    table, but for a tag that has a group the list is released while the
    table still points to it: the next addition of any names to that tag
    touches freed memory. *)
Theorem logical_group_add_failure_dangles (int_log10 : Z -> Z) (calloc_ok : Z -> bool)
    (g : groups_t) (w : world) (m : gmap cstr (list cstr)) (tag : cstr) (regex good : option cstr)
    (rc : Z) (names names' : argv_t) (e e' : bool) :
  groups_rep g w m ->
  orte_regex_extract_node_names int_log10 regex None (w_erange w) = Ret (rc, names, e) ->
  rc <> OPAL_SUCCESS ->
  orte_regex_extract_node_names int_log10 good None e = Ret (OPAL_SUCCESS, names', e') ->
  argv_list names' <> [] ->
  exists g' w', orcm_logical_group_add int_log10 calloc_ok (Some tag) regex (Some g) w =
      Ret (rc, Some g', w') /\
    match m !! tag with
    | None => groups_rep g' w' m
    | Some _ => orcm_logical_group_add int_log10 calloc_ok (Some tag) good (Some g') w' = Ub
    end.
Proof.
  intros Hr Hx Hrc Hgood Hne. apply Z.eqb_neq in Hrc as Hrcb.
  destruct (hash_table_get_spec g w m tag Hr) as (p & w1 & Eg & Hl & Hcase).
  assert (He : w_erange w1 = w_erange w) by (destruct (m !! tag); destruct Hcase as [-> _]; done).
  exists (touch g), (set_lists (set_erange w1 e) (delete p (w_lists w1))). split.
  { unfold orcm_logical_group_add. rewrite Eg, bind_Ret. change (OPAL_SUCCESS =? OPAL_SUCCESS) with true.
    cbn [negb]. unfold extract_names. rewrite He, Hx, !bind_Ret, Hrcb. cbn [negb].
    rewrite bind_Ret, Hrcb. unfold obj_release. cbn [negb set_erange w_lists]. by rewrite Hl. }
  destruct (m !! tag) as [l|] eqn:Em.
  - destruct Hcase as [-> Hp].
    unfold orcm_logical_group_add, orcm_logical_group_hash_table_get, opal_hash_table_get_value_ptr.
    rewrite get_value_spec by apply touch_wf, Hr. change (ht_map (touch g)) with (ht_map g).
    rewrite Hp, !bind_Ret. cbn [Z.eqb OPAL_SUCCESS OPAL_ERR_NOT_FOUND negb].
    rewrite bind_Ret. cbn [Z.eqb OPAL_SUCCESS negb]. unfold extract_names.
    cbn [w_erange set_lists set_erange]. rewrite Hgood, !bind_Ret. cbn [Z.eqb OPAL_SUCCESS negb].
    unfold orcm_logical_group_add_internal. destruct (argv_list names') as [|x xs]; [done|].
    cbn [add_members]. unfold list_read. cbn [w_lists set_lists set_erange].
    by rewrite lookup_delete_eq.
  - destruct Hcase as [-> ->]. apply rep_touch. eapply rep_world; [exact Hr| |cbn; lia].
    cbn. rewrite delete_insert_id; [done|].
    destruct (w_lists w !! w_next w) eqn:E; [|done].
    assert (w_next w < w_next w)%nat by (apply (rep_fresh _ _ _ Hr); by eexists). lia.
Qed.

(** A table with one group, the result of an addition. *)
Lemma one_group_example l :
  l <> [] -> Forall plain l ->
  exists g w, groups_rep g w {[cs "rack" := add_unique [] l]} /\ ht_room 1 g /\ w_erange w = false.
Proof.
  intros Hne Hp.
  destruct (new_groups_spec always ltac:(done) world0 world0_fresh) as (g & E & Hr & Hroom).
  destruct (add_spec ideal_log10 always ltac:(done) g world0 ∅ (cs "rack")
              (Some (join_spec "," l)) (Some l) false 0)
    as (g' & w' & E' & Hr' & Hroom' & He & _); [done|done|lia|by repeat constructor| |].
  { cbn [orte_regex_extract_node_names]. by rewrite extract_plain_list by (done || apply length_join_spec). }
  exists g', w'. by split_and!.
Qed.

Lemma logical_group_add_failure_dangles_witness :
  exists g w g' w', groups_rep g w {[cs "rack" := [cs "n1"]]} /\
    orcm_logical_group_add ideal_log10 always (Some (cs "rack")) (Some (cs "n[1")) (Some g) w =
      Ret (OPAL_ERR_BAD_PARAM, Some g', w') /\
    orcm_logical_group_add ideal_log10 always (Some (cs "rack")) (Some (cs "n2")) (Some g') w' = Ub.
Proof.
  destruct (one_group_example [cs "n1"]) as (g & w & Hr & _ & He); [done|by repeat constructor|].
  destruct (logical_group_add_failure_dangles ideal_log10 always g w _ (cs "rack") (Some (cs "n[1"))
              (Some (cs "n2")) OPAL_ERR_BAD_PARAM None (Some [cs "n2"]) false false Hr)
    as (g' & w' & E & Hub); [rewrite He; vm_compute; reflexivity|done|vm_compute; reflexivity|done|].
  rewrite lookup_singleton_eq in Hub. by exists g, w, g', w'.
Defined.

(** ** Removing *)

(** Removing from one tag: an unknown tag and a member that is not in
    the group are reported and nothing changes; [*] drops the group; otherwise
    exactly the named members leave, the order of the others is kept, and the
    group is dropped when it becomes empty. *)
Theorem logical_group_remove_correct (int_log10 : Z -> Z) (calloc_ok : Z -> bool)
    (g : groups_t) (w : world) (m : gmap cstr (list cstr)) (tag : cstr) (regex : option cstr)
    (names : argv_t) (e : bool) (n : Z) :
  (forall c, calloc_ok c = true) -> groups_rep g w m -> ht_room n g -> n + 1 < 2 ^ 60 ->
  ht_size g <> 0 -> tag <> cs "*" ->
  (regex = Some (cs "*") /\ names = None) \/
  (is_do_all_wildcard regex = false /\
   orte_regex_extract_node_names int_log10 regex None (w_erange w) = Ret (OPAL_SUCCESS, names, e)) ->
  exists rc g' w' m', orcm_logical_group_remove int_log10 calloc_ok (Some tag) regex (Some g) w =
      Ret (rc, Some g', w') /\
    groups_rep g' w' m' /\ (forall t, t <> tag -> m' !! t = m !! t) /\
    match m !! tag with
    | None => rc = ORCM_ERR_GROUP_NOT_EXIST /\ m' = m
    | Some l =>
      if is_do_all_wildcard regex then rc = OPAL_SUCCESS /\ m' !! tag = None
      else if bool_decide (argv_list names ⊆ l) then
        rc = OPAL_SUCCESS /\ default [] (m' !! tag) `sublist_of` l /\ m' !! tag <> Some [] /\
        (NoDup l -> forall x, x ∈ default [] (m' !! tag) <-> x ∈ l /\ x ∉ argv_list names)
      else rc = ORCM_ERR_NODE_NOT_EXIST /\ m' = m
    end.
Proof.
  intros Ha Hr Hroom Hn Hsz Htag Hreg. unfold orcm_logical_group_remove, opal_hash_table_get_size.
  replace (ht_size g =? 0) with false by lia.
  assert (is_do_all_wildcard (Some tag) = false) as -> by (by apply strcmp0_false).
  assert (exists w1, (if is_do_all_wildcard regex then Ret (OPAL_SUCCESS, None, w)
                      else extract_names int_log10 regex w) = Ret (OPAL_SUCCESS, names, w1) /\
                     groups_rep g w1 m) as (w1 & -> & Hr1).
  { destruct Hreg as [[-> ->]|[-> Hx]]; [by exists w|]. unfold extract_names. rewrite Hx, bind_Ret.
    eexists. split; [done|]. by eapply rep_world. }
  rewrite bind_Ret. change (negb (OPAL_SUCCESS =? OPAL_SUCCESS)) with false.
  cbn [orcm_logical_group_remove_internal].
  destruct (remove_a_tag_spec calloc_ok Ha g w1 m tag names (is_do_all_wildcard regex) n Hr1 Hroom Hn)
    as (g' & w' & -> & Hr' & _ & _).
  rewrite bind_Ret. unfold remove_tag_post in *.
  eexists _, g', w', _. split; [done|]. split; [exact Hr'|].
  destruct (m !! tag) as [l|]; [|done]. destruct (is_do_all_wildcard regex).
  { cbn. split; [|by rewrite lookup_delete_eq]. intros t Ht. by rewrite lookup_delete_ne. }
  case_bool_decide; cbn [fst snd]; [|done].
  pose proof (remove_listed_sublist (argv_list names) l) as Hsub.
  pose proof (fun x => remove_listed_elem (argv_list names) l x) as Hel.
  unfold put_group. destruct (remove_listed (argv_list names) l) as [|y l'].
  - rewrite lookup_delete_eq. split_and!; [|done|done|done|].
    + intros t Ht. by rewrite lookup_delete_ne.
    + intros Hnd x. by apply Hel.
  - rewrite lookup_insert_eq. split_and!; [|done|done|done|].
    + intros t Ht. by rewrite lookup_insert_ne.
    + intros Hnd x. by apply Hel.
Qed.

Lemma logical_group_remove_correct_witness :
  exists g w rc g' w' m', 
    orcm_logical_group_remove ideal_log10 always (Some (cs "rack")) (Some (cs "n1")) (Some g) w =
      Ret (rc, Some g', w') /\ groups_rep g' w' m' /\ rc = OPAL_SUCCESS /\ m' !! cs "rack" <> Some [].
Proof.
  destruct (one_group_example [cs "n1"]) as (g & w & Hr & Hroom & He); [done|by repeat constructor|].
  destruct (logical_group_remove_correct ideal_log10 always g w _ (cs "rack") (Some (cs "n1"))
              (Some [cs "n1"]) false 1 ltac:(done) Hr Hroom)
    as (rc & g' & w' & m' & E & Hr' & _ & Hpost).
  - lia.
  - apply (rep_nonempty g w _ (cs "rack") [cs "n1"] Hr), lookup_singleton_eq.
  - discriminate.
  - right. rewrite He. split; vm_compute; reflexivity.
  - rewrite lookup_singleton_eq in Hpost.
    change (is_do_all_wildcard (Some (cs "n1"))) with false in Hpost. cbv iota in Hpost.
    rewrite bool_decide_eq_true_2 in Hpost by done. destruct Hpost as (-> & _ & Hne & _).
    by exists g, w, OPAL_SUCCESS, g', w', m'.
Defined.

(** Removing from all groups ([*] as tag): if some group lacks a
    named member nothing changes and the error says so; if no group would become empty, exactly the named members
    leave every group. *)
Theorem logical_group_remove_all_correct (int_log10 : Z -> Z) (calloc_ok : Z -> bool)
    (g : groups_t) (w : world) (m : gmap cstr (list cstr)) (regex : option cstr)
    (names : argv_t) (e : bool) :
  groups_rep g w m -> ht_size g <> 0 ->
  is_do_all_wildcard regex = false ->
  orte_regex_extract_node_names int_log10 regex None (w_erange w) = Ret (OPAL_SUCCESS, names, e) ->
  (forall tag l, m !! tag = Some l -> remove_listed (argv_list names) l <> []) ->
  exists rc g' w' m', orcm_logical_group_remove int_log10 calloc_ok (Some (cs "*")) regex (Some g) w =
      Ret (rc, Some g', w') /\ groups_rep g' w' m' /\
    ((rc = ORCM_ERR_NODE_NOT_EXIST /\ m' = m /\
      exists tag l, m !! tag = Some l /\ ~ argv_list names ⊆ l) \/
     (rc = OPAL_SUCCESS /\ m' = remove_listed (argv_list names) <$> m /\
      forall tag l, m !! tag = Some l -> argv_list names ⊆ l)).
Proof.
  intros Hr Hsz Hreg Hx Hne. unfold orcm_logical_group_remove, opal_hash_table_get_size.
  replace (ht_size g =? 0) with false by lia. rewrite Hreg. unfold extract_names.
  rewrite Hx, !bind_Ret. change (negb (OPAL_SUCCESS =? OPAL_SUCCESS)) with false.
  set (w1 := set_erange w e). assert (Hr1 : groups_rep g w1 m) by (by eapply rep_world).
  change (is_do_all_wildcard (Some (cs "*"))) with true.
  cbn [orcm_logical_group_remove_internal]. unfold orcm_logical_group_remove_all_tags,
    orcm_logical_group_all_members_exist_all_tags.
  pose proof (all_exist_loop_spec (loop_fuel g) g w1 m names 0 Hr1) as Hex. cbn [cursor] in Hex.
  destruct Hex as [[-> Hall]|[-> Hno]]; [unfold loop_fuel; lia| |]; rewrite bind_Ret.
  - cbn [Z.eqb OPAL_SUCCESS negb].
    destruct (remove_all_loop_spec calloc_ok (loop_fuel g) m names g 0 w1 m OPAL_SUCCESS Hr1)
      as (g' & w' & E & Hr'); [unfold loop_fuel; lia|done|done| |].
    { intros tag. case_bool_decide as Hin; [done|]. destruct (m !! tag) as [l|] eqn:Em; [|done].
      destruct Hin. exact (rep_key_in _ _ _ _ _ Hr Em). }
    cbn [cursor] in E. rewrite E, bind_Ret. eexists _, g', w', _. split; [done|]. split; [done|].
    right. split_and!; [done|done|]. intros tag l Hm. apply (Hall tag l Hm).
    exact (rep_key_in _ _ _ _ _ Hr Hm).
  - eexists _, g, w1, m. split; [done|]. split; [done|]. left. by split_and!.
Qed.

Lemma logical_group_remove_all_correct_witness :
  exists g w rc g' w' m', groups_rep g w {[cs "rack" := [cs "n1"; cs "n2"]]} /\
    orcm_logical_group_remove ideal_log10 always (Some (cs "*")) (Some (cs "n1")) (Some g) w =
      Ret (rc, Some g', w') /\ groups_rep g' w' m'.
Proof.
  destruct (one_group_example [cs "n1"; cs "n2"]) as (g & w & Hr & Hroom & He);
    [done|by repeat constructor|].
  destruct (logical_group_remove_all_correct ideal_log10 always g w _ (Some (cs "n1"))
              (Some [cs "n1"]) false Hr) as (rc & g' & w' & m' & E & Hr' & _).
  - apply (rep_nonempty g w _ (cs "rack") [cs "n1"; cs "n2"] Hr), lookup_singleton_eq.
  - reflexivity.
  - rewrite He. vm_compute. reflexivity.
  - intros tag l [<- <-]%lookup_singleton_Some. vm_compute. discriminate.
  - by exists g, w, rc, g', w', m'.
Defined.

(** The traversal goes on from the slot of the entry it removed, and
    removing an entry moves a later one into that slot: of two colliding
    groups holding only [n1], the second keeps it although the call reports
    success. *)
Theorem logical_group_remove_all_skips :
  (g ← new_groups always;
   '(_, g, w) ← orcm_logical_group_add ideal_log10 always (Some (cs "Aa")) (Some (cs "n1")) (Some g) world0;
   '(_, g, w) ← orcm_logical_group_add ideal_log10 always (Some (cs "BB")) (Some (cs "n1")) g w;
   '(rc, g, w) ← orcm_logical_group_remove ideal_log10 always (Some (cs "*")) (Some (cs "n1")) g w;
   match g with
   | None => Ub
   | Some g =>
     '(_, a, g) ← opal_hash_table_get_value_ptr g (tag_key (cs "Aa"));
     '(_, b, g) ← opal_hash_table_get_value_ptr g (tag_key (cs "BB"));
     l ← match b with Some p => list_read w p | None => Ret [] end;
     Ret (rc, a, l)
   end) = Ret (OPAL_SUCCESS, None, [cs "n1"]).
Proof. vm_compute. reflexivity. Qed.

(** ** Listing *)

(** What a listing of named members shows. *)
Definition listing (m : gmap cstr (list cstr)) (tag : cstr) (names : list cstr)
    : option (gmap cstr (list cstr)) :=
  if strcmp0 tag (cs "*") then Some (omap (listed_group names) m)
  else l ← m !! tag;
       Some (match listed_group names l with Some l' => {[tag := l']} | None => ∅ end).

Lemma rep_tag_nul_free g w m tag l : groups_rep g w m -> m !! tag = Some l -> nul_free tag.
Proof.
  intros Hr Hm. destruct (rep_Some _ _ _ _ _ Hr Hm) as (p & Hp & _).
  by destruct (rep_keys _ _ _ Hr _ _ Hp) as (t & <-%tag_key_inj & ? & _).
Qed.

Lemma list_a_tag_spec calloc_ok g w m tag members :
  (forall c, calloc_ok c = true) -> groups_rep g w m ->
  exists r w', orcm_logical_group_list_a_tag calloc_ok tag members false g w = Ret (r, w') /\
    groups_rep g w' m /\
    match r, m !! tag with
    | Some o, Some l => groups_rep o w' (match listed_group (argv_list members) l with
                                         | Some l' => {[tag := l']} | None => ∅ end)
    | None, None => True
    | _, _ => False
    end.
Proof.
  intros Ha Hr. unfold orcm_logical_group_list_a_tag, opal_hash_table_get_value_ptr.
  rewrite get_value_spec by apply Hr. rewrite bind_Ret.
  destruct (m !! tag) as [l|] eqn:Em; [|rewrite (rep_None _ _ _ _ Hr Em); by exists None, w].
  destruct (rep_Some _ _ _ _ _ Hr Em) as (p & -> & Hl).
  destruct (new_groups_spec calloc_ok Ha w (rep_fresh _ _ _ Hr)) as (o & -> & Ho & Hroom).
  rewrite bind_Ret.
  destruct (list_specific_into calloc_ok Ha g o w m ∅ tag p l members 0 Hr Ho Hroom)
    as (o' & w' & E & Hg' & _ & _ & Ho'); [lia|exact (rep_tag_nul_free _ _ _ _ _ Hr Em)|done|done|].
  exists (Some o'), w'.
  assert (Hsing : match listed_group (argv_list members) l with
                  | Some l' => <[tag := l']> ∅ | None => ∅ end =
                  match listed_group (argv_list members) l with
                  | Some l' => {[tag := l']} | None => (∅ : gmap cstr (list cstr)) end)
    by (destruct (listed_group (argv_list members) l); [apply insert_empty|done]).
  split; [|split; [done|by rewrite <- Hsing]].
  destruct (orcm_logical_group_list_specific_members p members w) as [[[q|] w1]| |]; try done;
    cbn in E |- *; [|by inv E].
  destruct (opal_hash_table_set_value_ptr calloc_ok o (tag_key tag) q) as [[rc o1]| |]; try done.
  cbn in E |- *. by inv E.
Qed.

(** Listing named members of a tag, or of every tag with [*], builds
    a new table that holds exactly the named members of those groups, leaves
    out groups with none, and changes no group; an unknown tag gives NULL. *)
Theorem logical_group_list_correct (int_log10 : Z -> Z) (calloc_ok : Z -> bool)
    (g : groups_t) (w : world) (m : gmap cstr (list cstr)) (tag : cstr) (regex : option cstr)
    (names : argv_t) (e : bool) :
  (forall c, calloc_ok c = true) -> groups_rep g w m -> ht_size g < 2 ^ 59 ->
  is_do_all_wildcard regex = false ->
  orte_regex_extract_node_names int_log10 regex None (w_erange w) = Ret (OPAL_SUCCESS, names, e) ->
  exists r w', orcm_logical_group_list int_log10 calloc_ok (Some tag) regex (Some g) w = Ret (r, w') /\
    groups_rep g w' m /\
    match r, listing m tag (argv_list names) with
    | Some o, Some shown => groups_rep o w' shown
    | None, None => True
    | _, _ => False
    end.
Proof.
  intros Ha Hr Hsz Hreg Hx. unfold orcm_logical_group_list. rewrite Hreg. unfold extract_names.
  rewrite Hx, !bind_Ret. change (negb (OPAL_SUCCESS =? OPAL_SUCCESS)) with false.
  set (w1 := set_erange w e). assert (Hr1 : groups_rep g w1 m) by (by eapply rep_world).
  unfold listing. change (is_do_all_wildcard (Some tag)) with (strcmp0 tag (cs "*")).
  destruct (strcmp0 tag (cs "*")); cbn [orcm_logical_group_list_internal].
  - unfold orcm_logical_group_list_all_tags.
    destruct (new_groups_spec calloc_ok Ha w1 (rep_fresh _ _ _ Hr1)) as (o & -> & Ho & Hroom).
    rewrite bind_Ret. pose proof (entry_count g w1 m 0 Hr1) as Hcnt.
    destruct (list_all_loop_spec calloc_ok Ha (loop_fuel g) g w1 m names 0 o ∅ 0 Hr1 Ho Hroom)
      as (o' & w' & E & Hg' & _ & Ho'); [lia|unfold loop_fuel; lia| |].
    { intros t. rewrite lookup_empty. case_bool_decide as Hin; [done|].
      destruct (m !! t) as [l|] eqn:Em; [|done]. destruct Hin. exact (rep_key_in _ _ _ _ _ Hr Em). }
    cbn [cursor] in E. rewrite E, bind_Ret. by exists (Some o'), w'.
  - destruct (list_a_tag_spec calloc_ok g w1 m tag names Ha Hr1) as (r & w' & -> & Hg' & Hpost).
    exists r, w'. split; [done|]. split; [done|]. by destruct r, (m !! tag).
Qed.

Lemma logical_group_list_correct_witness :
  exists g w o w', groups_rep g w {[cs "rack" := [cs "n1"; cs "n2"]]} /\
    orcm_logical_group_list ideal_log10 always (Some (cs "*")) (Some (cs "n2,n3")) (Some g) w =
      Ret (Some o, w') /\ groups_rep o w' (omap (listed_group [cs "n2"; cs "n3"]) {[cs "rack" := [cs "n1"; cs "n2"]]}).
Proof.
  destruct (one_group_example [cs "n1"; cs "n2"]) as (g & w & Hr & Hroom & He);
    [done|by repeat constructor|].
  destruct (logical_group_list_correct ideal_log10 always g w _ (cs "*") (Some (cs "n2,n3"))
              (Some [cs "n2"; cs "n3"]) false ltac:(done) Hr) as (r & w' & E & _ & Hpost).
  - unfold ht_room in Hroom. lia.
  - reflexivity.
  - rewrite He. vm_compute. reflexivity.
  - unfold listing in Hpost. change (strcmp0 (cs "*") (cs "*")) with true in Hpost. cbv iota in Hpost.
    destruct r as [o|]; [|done]. by exists g, w, o, w'.
Defined.

(** ** Saving *)


(** The lines made of a member list hold the members in order,
    separated by commas, whenever the buffer is never overrun; and it is not
    overrun when the joined list is shorter than the buffer. *)
Theorem logical_group_convert_correct (l : list cstr) (max_size : nat) :
  l <> [] -> Forall plain l ->
  ((length (join_spec "," l) < max_size)%nat ->
   orcm_logical_group_convert_members_list (Some l) max_size = Ret (Some [join_spec "," l])) /\
  forall lines, orcm_logical_group_convert_members_list (Some l) max_size = Ret (Some lines) ->
    exists parts, lines = join_spec "," <$> parts /\ concat parts = l /\
                  Forall (fun part => part <> []) parts.
Proof.
  intros Hne Hp. assert (Hn : Forall (fun s => s <> []) l).
  { eapply Forall_imp; [|exact Hp]. by intros s [? _]. }
  unfold orcm_logical_group_convert_members_list. split.
  - intros Hlen. pose proof (do_convertion_single l max_size [] [] Hlen Hne Hn) as E.
    destruct l; [done|]. destruct (Nat.eqb_spec max_size 0); [lia|].
    unfold orcm_logical_group_do_convertion. cbn [join_spec] in E. by rewrite E.
  - intros lines. destruct l as [|x l]; [done|]. destruct (max_size =? 0)%nat; [done|].
    intros (r & Hr & [= <-])%bind_Ret_inv.
    apply (do_convertion_packs max_size (x :: l) [] [] r []); try done. by exists [].
Qed.

Lemma logical_group_convert_correct_witness :
  orcm_logical_group_convert_members_list (Some [cs "n1"; cs "n2"]) 10 = Ret (Some [cs "n1,n2"]).
Proof.
  apply (logical_group_convert_correct [cs "n1"; cs "n2"] 10); [done|by repeat constructor|].
  cbn. lia.
Defined.

(** The size test leaves no room for the separator and the
    terminator together: two members whose joined length is exactly the
    buffer size are accepted, and the last byte is written past its end. *)
Theorem logical_group_convert_overrun (a b : cstr) :
  a <> [] -> b <> [] ->
  orcm_logical_group_convert_members_list (Some [a; b]) (length a + 1 + length b) = Ub.
Proof.
  intros Ha Hb. unfold orcm_logical_group_convert_members_list, orcm_logical_group_do_convertion.
  assert (1 <= length a)%nat by (destruct a; [done|simpl; lia]).
  assert (1 <= length b)%nat by (destruct b; [done|simpl; lia]).
  destruct (Nat.eqb_spec (length a + 1 + length b) 0); [lia|].
  rewrite do_convertion_step. cbn [length Nat.add].
  destruct (Nat.ltb_spec (length a + 1 + length b) (length a + 1)); [lia|].
  unfold buffer_add at 1, strcat_buf. cbn [length Nat.ltb Nat.leb]. rewrite bind_Ret. cbn [length Nat.add app].
  destruct (Nat.leb_spec (length a + 1) (length a + 1 + length b)); [|lia]. rewrite bind_Ret.
  rewrite do_convertion_step.
  destruct (Nat.ltb_spec (length a + 1 + length b) (length a + length b + 1)); [lia|].
  unfold buffer_add, strcat_buf. destruct (Nat.ltb_spec 0 (length a)); [|lia].
  change (length (cs ",")) with 1%nat.
  destruct (Nat.leb_spec (length a + 1 + 1) (length a + 1 + length b)); [|lia]. rewrite bind_Ret, length_app.
  change (length (cs ",")) with 1%nat.
  by destruct (Nat.leb_spec (length a + 1 + length b + 1) (length a + 1 + length b)); [lia|].
Qed.

Lemma logical_group_convert_overrun_witness :
  orcm_logical_group_convert_members_list (Some [cs "node1"; cs "node2"]) 11 = Ub.
Proof. apply (logical_group_convert_overrun (cs "node1") (cs "node2")); discriminate. Defined.

(** ** Storing *)
Lemma xml_join (parts : list cstr) :
  parts <> [] -> Forall xml_text parts -> xml_text (join_spec "," parts).
Proof.
  intros Hne Hall. split.
  { apply join_spec_nonempty; [done|]. eapply Forall_imp; [|exact Hall]. by intros x [? _]. }
  clear Hne. induction Hall as [|x parts [_ Hx] Hall IH]; [done|]. destruct parts as [|y parts]; [done|].
  rewrite join_spec_cons. apply Forall_app. split; [done|]. constructor; [|done].
  change (char_Z ",") with 44. lia.
Qed.

Lemma saved_storable gl v :
  saved_group gl v -> xml_text gl.1 -> Forall xml_text gl.2 -> storable v.
Proof.
  intros (lines & (parts & -> & <- & Hn) & ->) Ht Hl. exists gl.1, (join_spec "," <$> parts).
  split; [|done]. constructor; [done|]. apply Forall_fmap. clear Ht.
  induction Hn as [|part parts Hp Hn IH]; [done|]. cbn [concat] in Hl. apply Forall_app in Hl as [? ?].
  constructor; [by apply xml_join|auto].
Qed.

Lemma saved_groups_storable gs vs :
  Forall2 saved_group gs vs -> Forall (fun gl => xml_text gl.1 /\ Forall xml_text gl.2) gs ->
  Forall storable vs.
Proof.
  induction 1 as [|gl v gs vs Hv Hf IH]; intros Hall; [done|].
  apply Forall_cons_iff in Hall as [[? ?] ?]. constructor; [by eapply saved_storable|auto].
Qed.

(** The groups written are the groups of the map, each once. *)
Lemma saved_groups_perm g w m gs :
  groups_rep g w m -> (entries (ht_table g)).*1 = tag_key <$> gs.*1 ->
  Forall (fun gl => nul_free gl.1 /\ m !! gl.1 = Some gl.2) gs ->
  NoDup gs.*1 /\ gs ≡ₚ map_to_list m.
Proof.
  intros Hr Hkeys Hall. destruct (rep_wf _ _ _ Hr) as ((_ & _ & Hnd) & _).
  rewrite Hkeys in Hnd. apply NoDup_fmap_1 in Hnd. split; [done|].
  rewrite Forall_forall in Hall.
  apply NoDup_Permutation; [by eapply NoDup_fmap_1|apply NoDup_map_to_list|].
  intros [tag l]. rewrite elem_of_map_to_list. split.
  - intros Hin. by apply Hall in Hin as [_ ?].
  - intros Hm. pose proof (rep_key_in _ _ _ _ _ Hr Hm) as Hin. rewrite Hkeys in Hin.
    apply list_elem_of_fmap in Hin as (t & ->%tag_key_inj & Hin).
    apply list_elem_of_fmap in Hin as ([t' l'] & -> & Hin). cbn in *.
    pose proof (Hall _ Hin) as [_ Hm']. cbn in Hm'. by simplify_eq.
Qed.

(** C8: saving the groups to a file and loading the file gives back the
    same groups, for groups of distinct, printable names without special
    characters whose lines fit the buffer. *)
Theorem logical_group_save_load {P : Type} `{ParserLaws P} (int_log10 : Z -> Z)
    (calloc_ok : Z -> bool) (prefix n : cstr) (st : lg_state P) (g : groups_t)
    (m : gmap cstr (list cstr)) (l0 : list orcm_value_t) :
  (forall c, calloc_ok c = true) -> n <> [] -> section_of (lg_files st) n = Some l0 ->
  groups_rep g (lg_world st) m -> m <> ∅ ->
  (forall tag l, m !! tag = Some l ->
     xml_text tag /\ writable l /\ Forall xml_text l /\ NoDup l) ->
  total_members (map_to_list m) < 2 ^ 60 ->
  exists st1 st2 g', orcm_logical_group_save_to_file (Some n) (Some g) st = Ret (OPAL_SUCCESS, st1) /\
    orcm_logical_group_load_to_memory int_log10 calloc_ok prefix (Some n) st1 = Ret (OPAL_SUCCESS, st2) /\
    lg_groups st2 = Some g' /\ groups_rep g' (lg_world st2) m.
Proof.
  intros Ha Hn Hs Hr Hne Hgood Htot.
  destruct (map_choose m Hne) as (t0 & l1 & Hm0).
  destruct (save_loop_spec (loop_fuel g) g (lg_world st) m 0 [] Hr) as (gs & vs & E & Hf2 & Hkeys & Hall);
    [intros tag l Hm; by apply Hgood in Hm as (_ & ? & _)|unfold loop_fuel; lia|].
  rewrite drop_0 in Hkeys. destruct (saved_groups_perm _ _ _ _ Hr Hkeys Hall) as [Hnd Hgs].
  assert (Hstor : Forall storable vs).
  { eapply saved_groups_storable; [done|]. eapply Forall_impl; [exact Hall|].
    intros gl [_ Hm]. by apply Hgood in Hm as (? & _ & ? & _). }
  destruct (save_to_file_spec n st g vs l0 Hn Hs) as (st1 & E1 & Hsec & Hw1); [|exact E|done|].
  { exact (rep_nonempty _ _ _ _ _ Hr Hm0). }
  destruct (new_groups_spec calloc_ok Ha (lg_world st1)) as (t & Et & Ht & Hroom).
  { rewrite Hw1. apply Hr. }
  destruct (load_groups_spec int_log10 calloc_ok Ha gs vs t (lg_world st1) ∅ 0 Ht Hf2)
    as (g' & w' & El & Hr'); [| |unfold total_members in *; by rewrite Hgs|].
  { eapply Forall_impl; [exact Hall|]. intros [tag l] [? Hm]. cbn in *.
    apply Hgood in Hm as (_ & (? & ? & _) & _). done. }
  { done. }
  destruct (load_to_memory_spec int_log10 calloc_ok prefix Ha n st1 vs g' w' Hn Hsec)
    as (st2 & E2 & Hg2 & Hw2).
  { intros t' Et'. rewrite Et in Et'. injection Et' as <-. exact El. }
  exists st1, st2, g'. split_and!; [done|done|done|]. rewrite Hw2.
  rewrite load_groups_empty in Hr'; [|done| |done].
  - rewrite map_union_empty in Hr'. rewrite (list_to_map_proper gs (map_to_list m)) in Hr' by done.
    by rewrite list_to_map_to_list in Hr'.
  - eapply Forall_impl; [exact Hall|]. intros [tag l] [_ Hm]. by apply Hgood in Hm as (_ & _ & _ & ?).
Qed.

(** A storage with one file, whose section is kept as it was written. *)
Record one_file : Type := MkFile { of_name : cstr; of_section : list orcm_value_t }.

#[export] Instance one_file_parser : Parser one_file := {
  parser_open n f := (if strcmp0 n (of_name f) then 0 else -1, f);
  parser_close _ f := (OPAL_SUCCESS, f);
  retrieve_section fd key _ f :=
    if (fd =? 0) && strcmp0 key SECTION then Some [VPtr SECTION (of_section f)] else None;
  write_section fd input _ _ _ f := (OPAL_SUCCESS, MkFile (of_name f) (default [] input));
  fopen_append _ f := (true, f);
  fprintf_text _ _ f := (true, f)
}.

#[export] Instance one_file_laws : ParserLaws one_file.
Proof.
  refine {| section_of f n := if strcmp0 n (of_name f) then Some (of_section f) else None;
            opened f fd := if fd =? 0 then Some (of_name f) else None |}.
  - intros n f l _. cbn. destruct (strcmp0 n (of_name f)) eqn:E; [|done]. apply strcmp0_true in E as ->.
    intros [= <-]. exists 0, f. split_and!; [done|lia|done|]. by rewrite (proj2 (strcmp0_true _ _) eq_refl).
  - intros n f fd l. destruct (Z.eqb_spec fd 0) as [->|]; [|done]. intros [= <-].
    rewrite (proj2 (strcmp0_true _ _) eq_refl). by intros [= <-].
  - intros n f fd l0 l. cbn. destruct (Z.eqb_spec fd 0) as [->|]; [|done]. intros [= <-] _ _.
    eexists. split; [done|]. cbn. by rewrite (proj2 (strcmp0_true _ _) eq_refl).
  - intros n f fd l Ho Hs. by exists f.
Defined.

Lemma logical_group_save_load_witness :
  exists (st st1 st2 : lg_state one_file) g g',
    groups_rep g (lg_world st) {[cs "rack" := [cs "n1"; cs "n2"]]} /\
    orcm_logical_group_save_to_file (Some (cs "conf.xml")) (Some g) st = Ret (OPAL_SUCCESS, st1) /\
    orcm_logical_group_load_to_memory ideal_log10 always (cs "/opt") (Some (cs "conf.xml")) st1 =
      Ret (OPAL_SUCCESS, st2) /\
    lg_groups st2 = Some g' /\ groups_rep g' (lg_world st2) {[cs "rack" := [cs "n1"; cs "n2"]]}.
Proof.
  destruct (one_group_example [cs "n1"; cs "n2"]) as (g & w & Hr & _); [done|by repeat constructor|].
  set (st := MkLg (Some g) None 0 w (MkFile (cs "conf.xml") [])).
  destruct (logical_group_save_load ideal_log10 always (cs "/opt") (cs "conf.xml") st g
              {[cs "rack" := [cs "n1"; cs "n2"]]} []) as (st1 & st2 & g' & H1 & H2 & H3 & H4).
  - done.
  - discriminate.
  - reflexivity.
  - exact Hr.
  - apply map_non_empty_singleton.
  - intros tag l [<- <-]%lookup_singleton_Some. split_and!.
    + split; [discriminate|]. repeat constructor; vm_compute; discriminate.
    + split; [discriminate|]. split; [by repeat constructor|]. eexists. vm_compute. reflexivity.
    + repeat constructor; vm_compute; discriminate.
    + apply NoDup_cons. split; [|apply NoDup_singleton]. rewrite list_elem_of_singleton. discriminate.
  - unfold total_members. rewrite map_to_list_singleton. cbn. lia.
  - by exists st, st1, st2, g, g'.
Defined.

(** ** Expanding *)

(** The items of an expression that name groups, and the other ones. *)
Definition tag_items (toks : list cstr) : list cstr :=
  omap (fun s => match s with c :: t => if eqc c "$" then Some t else None | [] => None end) toks.
Definition node_items (toks : list cstr) : list cstr :=
  filter (fun s => head s <> Some "$"%char) toks.

Lemma split_tags_spec toks tags out :
  exists tags' out', split_tags toks tags out = (OPAL_SUCCESS, tags', out') /\
    argv_list tags' = add_unique (argv_list tags) (tag_items toks) /\
    argv_list out' = add_unique (argv_list out) (node_items toks).
Proof.
  revert tags out; induction toks as [|s toks IH]; intros tags out; [by exists tags, out|].
  cbn [split_tags]. rewrite !append_unique_add. change (negb (OPAL_SUCCESS =? OPAL_SUCCESS)) with false.
  unfold node_items, tag_items. destruct s as [|c s]; [|destruct (eqc c "$") eqn:Ec].
  - destruct (IH tags (Some (add_unique (argv_list out) [[]]))) as (t' & o' & -> & Ht & Ho).
    exists t', o'. by rewrite filter_cons, decide_True.
  - rewrite append_unique_add. change (negb (OPAL_SUCCESS =? OPAL_SUCCESS)) with false.
    destruct (IH (Some (add_unique (argv_list tags) [s])) out) as (t' & o' & -> & Ht & Ho).
    exists t', o'. cbn [omap list_omap]. rewrite Ec. apply bool_decide_eq_true in Ec as ->.
    rewrite filter_cons, decide_False by (intros Hx; by apply Hx).
    split_and!; [done|exact Ht|done].
  - destruct (IH tags (Some (add_unique (argv_list out) [c :: s]))) as (t' & o' & -> & Ht & Ho).
    exists t', o'. cbn [omap list_omap]. rewrite Ec. apply bool_decide_eq_false in Ec.
    rewrite filter_cons, decide_True by (intros [= ->]; done).
    split_and!; [done|done|exact Ho].
Qed.

(** C17: when no group is referred to twice (by the expression and the
    groups together), expanding an expression ends and gives, without
    duplicates, its nodes and the nodes of its groups at any depth. *)
Theorem logical_group_expand_correct (int_log10 : Z -> Z) (g : groups_t) (w : world)
    (m : gmap cstr (list cstr)) (regex : option cstr) (s : cstr) (toks : argv_t) (e : bool)
    (fuel : nat) :
  groups_rep g w m ->
  orcm_logical_group_trim_string regex = Some s -> s <> [] ->
  orte_regex_extract_node_names int_log10 (Some s) None (w_erange w) = Ret (OPAL_SUCCESS, toks, e) ->
  NoDup (add_unique [] (tag_items (argv_list toks)) ++ refs m m) ->
  (length (add_unique [] (tag_items (argv_list toks))) + length (refs m m) < fuel)%nat ->
  exists out w', orcm_logical_group_parse_array_string int_log10 fuel g regex None w =
      Ret (OPAL_SUCCESS, out, w') /\ NoDup (argv_list out) /\
    forall x, x ∈ argv_list out <->
      x ∈ node_items (argv_list toks) \/ exists t, t ∈ tag_items (argv_list toks) /\ in_group m t x.
Proof.
  intros Hr Htrim Hne Hx Hnd Hf. unfold orcm_logical_group_parse_array_string. rewrite Htrim.
  destruct s as [|c s]; [done|]. unfold extract_names. rewrite Hx, !bind_Ret.
  change (negb (OPAL_SUCCESS =? OPAL_SUCCESS)) with false. cbv iota.
  destruct (split_tags_spec (argv_list toks) None None) as (tags & out & -> & Ht & Ho).
  cbn [argv_list] in Ht, Ho. rewrite <- Ht in Hnd, Hf.
  change (negb (OPAL_SUCCESS =? OPAL_SUCCESS)) with false. cbv iota.
  set (w1 := set_erange w e). assert (Hr1 : groups_rep g w1 m) by (by eapply rep_world).
  assert (Hno : NoDup (argv_list out)) by (rewrite Ho; apply add_unique_NoDup; constructor).
  assert (exists out', orcm_logical_group_tag_to_members_nested fuel g tags out w1 =
            Ret (OPAL_SUCCESS, out') /\
          (forall x, x ∈ argv_list out' <-> x ∈ argv_list out \/ exists t, t ∈ argv_list tags /\ in_group m t x) /\
          (NoDup (argv_list out) -> NoDup (argv_list out'))) as (out' & -> & Hel & Hnd').
  { unfold orcm_logical_group_tag_to_members_nested, opal_argv_count. destruct tags as [q|].
    - apply (nested_loop_spec m w1 fuel g m q out); [done|by left|done|done|done].
    - destruct fuel as [|fuel]; [lia|]. exists out. split; [done|]. split; [|done]. cbn. intros x.
      split; [by left|]. intros [?|(t & Ht0 & _)]; [done|by apply elem_of_nil in Ht0]. }
  rewrite bind_Ret. change (negb (OPAL_SUCCESS =? OPAL_SUCCESS)) with false. cbv iota.
  exists out', w1. split; [done|]. split; [by apply Hnd'|]. intros x. rewrite Hel, Ho, Ht.
  setoid_rewrite add_unique_elem. split.
  - intros [[Hn|?]|(t & [Hn|?] & ?)]; try (by apply elem_of_nil in Hn); [by left|right; eauto].
  - intros [?|(t & ? & ?)]; [by left; right|right; exists t; auto].
Qed.

(** Two groups, one nested in the other. *)
Lemma nested_example :
  exists g w, groups_rep g w {[cs "row" := [cs "rack"; cs "n2"]; cs "rack" := [cs "n1"]]} /\
    w_erange w = false.
Proof.
  destruct (one_group_example [cs "n1"]) as (g & w & Hr & Hroom & He); [done|by repeat constructor|].
  destruct (add_spec ideal_log10 always ltac:(done) g w _ (cs "row")
              (Some (cs "rack,n2")) (Some [cs "rack"; cs "n2"]) false 1 Hr Hroom)
    as (g' & w' & E' & Hr' & Hroom' & He' & _); [lia|by repeat constructor|rewrite He; vm_compute; reflexivity|].
  exists g', w'. split; [|done]. rewrite lookup_singleton_ne in Hr' by done.
  exact Hr'.
Qed.

Lemma logical_group_expand_correct_witness :
  exists g w out w', groups_rep g w {[cs "row" := [cs "rack"; cs "n2"]; cs "rack" := [cs "n1"]]} /\
    orcm_logical_group_parse_array_string ideal_log10 10 g (Some (cs " $row,n9")) None w =
      Ret (OPAL_SUCCESS, out, w') /\ NoDup (argv_list out).
Proof.
  destruct nested_example as (g & w & Hr & He).
  destruct (logical_group_expand_correct ideal_log10 g w _ (Some (cs " $row,n9")) (cs "$row,n9")
              (Some [cs "$row"; cs "n9"]) false 10 Hr) as (out & w' & E & Hnd & _).
  - vm_compute. reflexivity.
  - discriminate.
  - rewrite He. vm_compute. reflexivity.
  - apply (bool_decide_unpack _). vm_compute. exact I.
  - vm_compute. lia.
  - by exists g, w, out, w'.
Defined.

(** A group reached twice while it waits in the work list is queued
    once but counted twice; the loop then reads past the end of the list. *)
Theorem logical_group_shared_group_ub :
  (g ← new_groups always;
   '(_, g, w) ← orcm_logical_group_add ideal_log10 always (Some (cs "all")) (Some (cs "r1,r2")) (Some g) world0;
   '(_, g, w) ← orcm_logical_group_add ideal_log10 always (Some (cs "r1")) (Some (cs "io")) g w;
   '(_, g, w) ← orcm_logical_group_add ideal_log10 always (Some (cs "r2")) (Some (cs "io")) g w;
   '(_, g, w) ← orcm_logical_group_add ideal_log10 always (Some (cs "io")) (Some (cs "n1")) g w;
   match g with
   | None => Ret (OPAL_ERROR, None)
   | Some g =>
     '(rc, out, _) ← orcm_logical_group_parse_array_string ideal_log10 100 g (Some (cs "$all")) None w;
     Ret (rc, out)
   end) = Ub.
Proof. vm_compute. reflexivity. Qed.

Lemma cycle_step g w m a b count q out fuel :
  groups_rep g w m -> m !! a = Some [b] -> is_Some (m !! b) -> a <> b -> count = 1 -> q = [a] ->
  exists out', nested_loop (S fuel) g count (Some q) out OPAL_SUCCESS w =
               nested_loop fuel (touch g) 1 (Some [b]) out' OPAL_SUCCESS w.
Proof.
  intros Hr Ha Hb Hne -> ->. cbn [nested_loop argv_list lookup list_lookup].
  unfold opal_hash_table_get_value_ptr. rewrite (rep_get_rc g w m a Hr), bind_Ret.
  destruct (rep_Some _ _ _ _ _ Hr Ha) as (p & -> & Hl). unfold list_read. rewrite Hl, bind_Ret.
  pose proof (rep_touch _ _ _ Hr) as Ht.
  assert (Hn : nested_of m [b] = [b]) by (unfold nested_of; by rewrite filter_cons, decide_True).
  destruct (nested_members_spec m w [b] (touch g) 1 [a] out Ht) as (out' & -> & _).
  { rewrite Hn. cbn. apply NoDup_cons. split; [|apply NoDup_singleton]. by rewrite list_elem_of_singleton. }
  rewrite bind_Ret, Hn. cbn [Z.eqb OPAL_SUCCESS negb app length]. rewrite argv_delete_head.
  by exists out'.
Qed.

(** Two groups that hold each other make the expansion run for
    ever. *)
Theorem logical_group_cycle_diverges (g : groups_t) (w : world) (m : gmap cstr (list cstr))
    (a b : cstr) (out : argv_t) (fuel : nat) :
  groups_rep g w m -> m !! a = Some [b] -> m !! b = Some [a] -> a <> b ->
  orcm_logical_group_tag_to_members_nested fuel g (Some [a]) out w = Diverge.
Proof.
  unfold orcm_logical_group_tag_to_members_nested. change (opal_argv_count (Some [a])) with 1.
  revert g a b out; induction fuel as [|fuel IH]; intros g a b out Hr Ha Hb Hne; [done|].
  destruct (cycle_step g w m a b 1 [a] out fuel Hr Ha) as (out' & ->); try done.
  apply (IH (touch g) b a out'); [by apply rep_touch|done|done|done].
Qed.

Lemma logical_group_cycle_diverges_witness :
  exists g w, groups_rep g w {[cs "b" := [cs "a"]; cs "a" := [cs "b"]]} /\
    orcm_logical_group_tag_to_members_nested 1000 g (Some [cs "a"]) None w = Diverge.
Proof.
  destruct (new_groups_spec always ltac:(done) world0 world0_fresh) as (g & E & Hr & Hroom).
  destruct (add_spec ideal_log10 always ltac:(done) g world0 ∅ (cs "a") (Some (cs "b")) (Some [cs "b"]) false 0)
    as (g1 & w1 & _ & Hr1 & Hroom1 & He1 & _);
    [done|done|lia|by repeat constructor|vm_compute; reflexivity|].
  destruct (add_spec ideal_log10 always ltac:(done) g1 w1 _ (cs "b") (Some (cs "a")) (Some [cs "a"]) false 1 Hr1 Hroom1)
    as (g2 & w2 & _ & Hr2 & _); [lia|by repeat constructor|rewrite He1; vm_compute; reflexivity|].
  exists g2, w2. split; [exact Hr2|].
  apply (logical_group_cycle_diverges g2 w2 _ (cs "a") (cs "b") None 1000 Hr2); vm_compute; done.
Defined.

Lemma strcat_buf_fits size buf t :
  (length buf + length t + 1 <= size)%nat -> strcat_buf size buf t = Ret (buf ++ t).
Proof. intros Hf. unfold strcat_buf. by destruct (Nat.leb_spec (length buf + length t + 1) size); [|lia]. Qed.

Lemma concat_array_spec size l buf :
  l <> [] -> (length buf + length (join_spec "," l) + 1 <= size)%nat ->
  concat_array size l buf = Ret (buf ++ join_spec "," l).
Proof.
  revert buf; induction l as [|x l IH]; intros buf Hne Hsz; [done|]. cbn [concat_array].
  destruct l as [|y l].
  - cbn [join_spec] in *. by rewrite strcat_buf_fits.
  - rewrite join_spec_cons, length_app in Hsz. cbn [length] in Hsz.
    rewrite (strcat_buf_fits size buf x), bind_Ret by lia.
    rewrite strcat_buf_fits, bind_Ret by (rewrite length_app; simpl; lia).
    rewrite IH; [|done|rewrite !length_app; simpl in *; lia].
    rewrite join_spec_cons. by repeat (rewrite <- app_assoc; cbn [app]).
Qed.

Lemma addup_size_spec l acc :
  0 <= acc -> acc + Z.of_nat (sum_len1 l) < 2 ^ 32 ->
  foldl (fun size s => u32 (size + (Z.of_nat (length s) + 1))) acc l = acc + Z.of_nat (sum_len1 l).
Proof.
  revert acc; induction l as [|x l IH]; intros acc Ha Hb; [cbn; lia|].
  change (sum_len1 (x :: l)) with (S (length x) + sum_len1 l)%nat in *. cbn [foldl].
  unfold u32 at 2. rewrite wrap_small by lia. rewrite IH by lia. lia.
Qed.

(** The expanded array is turned into its comma-separated text
    within the allocated string, as long as the sizes fit 32 bits. *)
Theorem logical_group_array_to_string (l : list cstr) :
  l <> [] -> Z.of_nat (sum_len1 l) < 2 ^ 32 ->
  orcm_logical_group_arraystring_to_string (Some l) = Ret (OPAL_SUCCESS, Some (join_spec "," l)).
Proof.
  intros Hne Hsz. unfold orcm_logical_group_arraystring_to_string, orcm_logical_group_argv_addup_size.
  cbn [argv_list]. rewrite addup_size_spec, Z.add_0_l by lia.
  destruct l as [|x l]; [done|]. pose proof (join_spec_length "," x l) as Hj.
  assert (1 <= sum_len1 (x :: l))%nat by (unfold sum_len1; cbn; lia).
  destruct (Z.eqb_spec (Z.of_nat (sum_len1 (x :: l))) 0); [lia|].
  rewrite Nat2Z.id, concat_array_spec; [done|done|]. rewrite Hj. cbn [length]. lia.
Qed.

Lemma logical_group_array_to_string_witness :
  orcm_logical_group_arraystring_to_string (Some [cs "n1"; cs "n2"]) =
  Ret (OPAL_SUCCESS, Some (cs "n1,n2")).
Proof. apply (logical_group_array_to_string [cs "n1"; cs "n2"]); [done|vm_compute; reflexivity]. Defined.
