(* ===== verification/Dss.v ===== *)
(** * Data serialization: buffers, packing and unpacking ([opal/dss])

    A buffer holds the bytes packed so far and the offset of the next byte to
    unpack.  The source's pointers are offsets from [base_ptr]: [pack_ptr] is
    at [bytes_used], which is the length of [b_data].  Integers are packed in
    network byte order; arrays handed through [void *] are values of
    [dss_data], integers as unsigned patterns of their width.  Strings are the
    character arrays behind the pointers, so a missing terminator is visible.

    A fully described buffer precedes every item with its type code.  The
    native types (int, bool, size_t, pid_t) are described in both modes,
    because their width depends on the sender.

    After a failed allocation the source leaves stale pointers behind; the
    buffer is then only good for the returned error.  Contents of a
    destination array after an error are not modelled, and the scratch array
    of a width conversion is assumed to be allocated.

    [malloc_ok n] says whether an allocation of [n] bytes succeeds;
    [opal_dss_initial_size] and [opal_dss_threshold_size] are run-time
    parameters. *)

From S2P Require Import Prelude CString.
From stdpp Require Import base strings numbers list.
From Stdlib Require Import ZArith Lia.

Open Scope Z_scope.

(** ** Type codes ([dss_types.h]) *)
Definition OPAL_UNDEF : Z := 0.
Definition OPAL_BYTE : Z := 1.
Definition OPAL_BOOL : Z := 2.
Definition OPAL_STRING : Z := 3.
Definition OPAL_SIZE : Z := 4.
Definition OPAL_PID : Z := 5.
Definition OPAL_INT : Z := 6.
Definition OPAL_INT8 : Z := 7.
Definition OPAL_INT16 : Z := 8.
Definition OPAL_INT32 : Z := 9.
Definition OPAL_INT64 : Z := 10.
Definition OPAL_UINT : Z := 11.
Definition OPAL_UINT8 : Z := 12.
Definition OPAL_UINT16 : Z := 13.
Definition OPAL_UINT32 : Z := 14.
Definition OPAL_UINT64 : Z := 15.
Definition OPAL_TIMEVAL : Z := 18.
Definition OPAL_TIME : Z := 19.
Definition OPAL_BYTE_OBJECT : Z := 20.
Definition OPAL_DATA_TYPE : Z := 21.
Definition OPAL_NULL : Z := 22.
Definition OPAL_NAME : Z := 50.
Definition OPAL_JOBID : Z := 51.
Definition OPAL_VPID : Z := 52.
Definition OPAL_DATA_TYPE_T : Z := OPAL_UINT8.
Definition DSS_TYPE_BOOL : Z := OPAL_UINT8.
Definition DSS_TYPE_INT : Z := OPAL_INT32.
Definition DSS_TYPE_SIZE_T : Z := OPAL_UINT64.
Definition DSS_TYPE_PID_T : Z := OPAL_UINT32.

Definition OPAL_ERR_BUFFER : Z := -30.

(** ** Data *)
Inductive dss_data : Type :=
| D8 (l : list Z)
| D16 (l : list Z)
| D32 (l : list Z)
| D64 (l : list Z)
| DStr (l : list (option (list Z)))
| DTv (l : list (Z * Z))
| DBo (l : list (list Z))
| DName (l : list (Z * Z)).

Definition data_length (d : dss_data) : nat :=
  match d with
  | D8 l | D16 l | D32 l | D64 l => length l
  | DStr l => length l
  | DTv l | DName l => length l
  | DBo l => length l
  end.

(** Network byte order: [w] bytes, most significant first. *)
Fixpoint be (w : nat) (v : Z) : list Z :=
  match w with
  | O => []
  | S w' => v / 256 ^ Z.of_nat w' mod 256 :: be w' v
  end.

Definition be_val (bs : list Z) : Z := foldl (fun acc b => acc * 256 + b) 0 bs.

(** ** Buffers *)
Record opal_buffer_t : Type := MkBuffer {
  b_desc : bool;                (* type == OPAL_DSS_BUFFER_FULLY_DESC *)
  b_base : bool;                (* base_ptr != NULL *)
  b_ptr : bool;                 (* pack_ptr != NULL *)
  b_allocated : Z;
  b_data : list Z;
  b_unpack : nat
}.

Definition opal_buffer_construct (default_desc : bool) : opal_buffer_t :=
  MkBuffer default_desc false false 0 [] 0.

Definition bytes_used (b : opal_buffer_t) : Z := Z.of_nat (length (b_data b)).

Definition with_data (b : opal_buffer_t) (d : list Z) : opal_buffer_t :=
  MkBuffer (b_desc b) (b_base b) (b_ptr b) (b_allocated b) d (b_unpack b).
Definition with_unpack (b : opal_buffer_t) (u : nat) : opal_buffer_t :=
  MkBuffer (b_desc b) (b_base b) (b_ptr b) (b_allocated b) (b_data b) u.

(** What unpacking returns: status, value, buffer. *)
Abbreviation unpacked A := (Z * option A * opal_buffer_t)%type.

Section Dss.
Variable malloc_ok : Z -> bool.
Variables opal_dss_initial_size opal_dss_threshold_size : Z.
Variable registered : Z -> bool.
Variable other_pack : Z -> opal_buffer_t -> dss_data -> outcome (Z * opal_buffer_t).
Variable other_unpack : Z -> opal_buffer_t -> Z -> Z * option dss_data * opal_buffer_t.

(** [while (to_alloc < required) to_alloc <<= 1] *)
Fixpoint double_until (fuel : nat) (to_alloc required : Z) : outcome Z :=
  match fuel with
  | O => Diverge
  | S fuel' =>
    if to_alloc <? required then double_until fuel' (u64 (2 * to_alloc)) required
    else Ret to_alloc
  end.

(** The new size; 64 doublings exhaust a non-zero [size_t]. *)
Definition extend_size (b : opal_buffer_t) (required : Z) : outcome Z :=
  let threshold := u64 opal_dss_threshold_size in
  if threshold <=? required then
    if threshold =? 0 then Ub
    else Ret (u64 (u64 (required + threshold - 1) / threshold * threshold))
  else
    let start := if b_allocated b =? 0 then u64 opal_dss_initial_size else b_allocated b in
    double_until 65 start required.

(** The flag says whether a pointer (not NULL) is returned.  With room for
    [bytes_to_add] the answer is [pack_ptr], which is NULL in a buffer that
    has no storage yet and is asked for no bytes. *)
Definition opal_dss_buffer_extend (b : opal_buffer_t) (bytes_to_add : Z)
    : outcome (bool * opal_buffer_t) :=
  if bytes_to_add <=? u64 (b_allocated b - bytes_used b) then Ret (b_ptr b, b)
  else
    let required := u64 (bytes_used b + bytes_to_add) in
    to_alloc ← extend_size b required;
    let b := if b_base b then b
             else MkBuffer (b_desc b) false (b_ptr b) (b_allocated b) [] 0 in
    if negb (malloc_ok to_alloc)
    then Ret (false, MkBuffer (b_desc b) false (b_ptr b) (b_allocated b) (b_data b) (b_unpack b))
    else Ret (true, MkBuffer (b_desc b) true true to_alloc (b_data b) (b_unpack b)).

(** Fewer than [bytes_reqd] bytes left to unpack. *)
Definition opal_dss_too_small (b : opal_buffer_t) (bytes_reqd : Z) : bool :=
  if (length (b_data b) <? b_unpack b)%nat then true
  else Z.of_nat (length (b_data b) - b_unpack b) <? bytes_reqd.

(** ** Packing *)

(** Extend, store the bytes at [pack_ptr], advance. *)
Definition put_bytes (b : opal_buffer_t) (bs : list Z) : outcome (Z * opal_buffer_t) :=
  '(ok, b) ← opal_dss_buffer_extend b (u64 (Z.of_nat (length bs)));
  if negb ok then Ret (OPAL_ERR_OUT_OF_RESOURCE, b)
  else Ret (OPAL_SUCCESS, with_data b (b_data b ++ bs)).

Definition opal_dss_pack_null (b : opal_buffer_t) (num_vals : nat) : outcome (Z * opal_buffer_t) :=
  put_bytes b (replicate num_vals 0).
(** [memcpy] of [num_vals] bytes: the source array must have them. *)
Definition opal_dss_pack_byte (b : opal_buffer_t) (src : list Z) (num_vals : Z)
    : outcome (Z * opal_buffer_t) :=
  '(ok, b) ← opal_dss_buffer_extend b (u64 num_vals);
  if negb ok then Ret (OPAL_ERR_OUT_OF_RESOURCE, b)
  else if (num_vals <? 0) || (Z.of_nat (length src) <? num_vals) then Ub
  else Ret (OPAL_SUCCESS, with_data b (b_data b ++ take (Z.to_nat num_vals) src)).
Definition opal_dss_pack_int16 (b : opal_buffer_t) (src : list Z) : outcome (Z * opal_buffer_t) :=
  put_bytes b (src ≫= be 2).
Definition opal_dss_pack_int32 (b : opal_buffer_t) (src : list Z) : outcome (Z * opal_buffer_t) :=
  put_bytes b (src ≫= be 4).
Definition opal_dss_pack_int64 (b : opal_buffer_t) (src : list Z) : outcome (Z * opal_buffer_t) :=
  put_bytes b (src ≫= be 8).

(** Run the packing of an array element by element, stopping at an error. *)
Fixpoint pack_each {A} (f : opal_buffer_t -> A -> outcome (Z * opal_buffer_t))
    (b : opal_buffer_t) (l : list A) : outcome (Z * opal_buffer_t) :=
  match l with
  | [] => Ret (OPAL_SUCCESS, b)
  | x :: l' =>
    '(rc, b) ← f b x;
    if negb (rc =? OPAL_SUCCESS) then Ret (rc, b) else pack_each f b l'
  end.

(** Two calls in sequence, the second only after a success. *)
Definition pack_then (m : outcome (Z * opal_buffer_t))
    (k : opal_buffer_t -> outcome (Z * opal_buffer_t)) : outcome (Z * opal_buffer_t) :=
  '(rc, b) ← m;
  if negb (rc =? OPAL_SUCCESS) then Ret (rc, b) else k b.

(** [strlen] of a character array. *)
Definition c_strlen (a : list Z) : option nat := find_index (fun c => c =? 0) a.

Definition pack_one_string (b : opal_buffer_t) (s : option (list Z)) : outcome (Z * opal_buffer_t) :=
  match s with
  | None => opal_dss_pack_int32 b [0]
  | Some a =>
    match c_strlen a with
    | None => Ub
    | Some n =>
      let len := i32 (i32 (Z.of_nat n) + 1) in
      pack_then (opal_dss_pack_int32 b [u32 len])
        (fun b => opal_dss_pack_byte b a len)
    end
  end.

Definition opal_dss_pack_string (b : opal_buffer_t) (src : list (option (list Z)))
    : outcome (Z * opal_buffer_t) := pack_each pack_one_string b src.

Definition opal_dss_pack_timeval (b : opal_buffer_t) (src : list (Z * Z))
    : outcome (Z * opal_buffer_t) :=
  pack_each (fun b tv => opal_dss_pack_int64 b [tv.1; tv.2]) b src.

Definition opal_dss_pack_time (b : opal_buffer_t) (src : list Z) : outcome (Z * opal_buffer_t) :=
  pack_each (fun b t => opal_dss_pack_int64 b [t]) b src.

(** The size of a byte object is the number of its bytes. *)
Definition opal_dss_pack_byte_object (b : opal_buffer_t) (src : list (list Z))
    : outcome (Z * opal_buffer_t) :=
  pack_each (fun b bo =>
    let n := i32 (Z.of_nat (length bo)) in
    pack_then (opal_dss_pack_int32 b [u32 n])
      (fun b => if 0 <? n then opal_dss_pack_byte b bo n
                else Ret (OPAL_SUCCESS, b))) b src.

(** What is registered for a type: a function of its own, or one that packs
    another type; [HNative] adds the description of the real type.  [HOther]
    is a type whose functions were added to the table with
    [opal_dss_register] from elsewhere, or one of the types of [dss_open] that
    are left to the parameters [other_pack] and [other_unpack]: floats,
    process and node statistics, nested buffers, and the key-value pairs
    that [DssValue] models. *)
Inductive handler : Type :=
| HNull | HByte | HInt16 | HInt32 | HInt64 | HString | HTimeval | HTime | HByteObject
| HNative (real : Z)
| HAlias (real : Z)
| HName
| HOther (type : Z).

Definition opal_dss_types (type : Z) : option handler :=
  if type =? OPAL_NULL then Some HNull
  else if (type =? OPAL_BYTE) || (type =? OPAL_INT8) || (type =? OPAL_UINT8) then Some HByte
  else if type =? OPAL_BOOL then Some (HNative DSS_TYPE_BOOL)
  else if (type =? OPAL_INT) || (type =? OPAL_UINT) then Some (HNative DSS_TYPE_INT)
  else if (type =? OPAL_INT16) || (type =? OPAL_UINT16) then Some HInt16
  else if (type =? OPAL_INT32) || (type =? OPAL_UINT32) then Some HInt32
  else if (type =? OPAL_INT64) || (type =? OPAL_UINT64) then Some HInt64
  else if type =? OPAL_SIZE then Some (HNative DSS_TYPE_SIZE_T)
  else if type =? OPAL_PID then Some (HNative DSS_TYPE_PID_T)
  else if type =? OPAL_STRING then Some HString
  else if type =? OPAL_DATA_TYPE then Some (HAlias OPAL_DATA_TYPE_T)
  else if type =? OPAL_BYTE_OBJECT then Some HByteObject
  else if type =? OPAL_TIMEVAL then Some HTimeval
  else if type =? OPAL_TIME then Some HTime
  else if type =? OPAL_NAME then Some HName
  else if (type =? OPAL_JOBID) || (type =? OPAL_VPID) then Some (HAlias OPAL_UINT32)
  else if registered type then Some (HOther type)
  else None.

Definition opal_dss_store_data_type (b : opal_buffer_t) (type : Z) : outcome (Z * opal_buffer_t) :=
  match opal_dss_types OPAL_DATA_TYPE_T with
  | None => Ret (OPAL_ERR_PACK_FAILURE, b)
  | Some _ => opal_dss_pack_byte b [type] 1
  end.

(** The functions registered for types that are packed as they are; a source
    array of another type is read through the wrong pointer type. *)
Definition pack_leaf (b : opal_buffer_t) (h : handler) (d : dss_data) : outcome (Z * opal_buffer_t) :=
  match h, d with
  | HNull, D8 l => opal_dss_pack_null b (length l)
  | HByte, D8 l => opal_dss_pack_byte b l (Z.of_nat (length l))
  | HInt16, D16 l => opal_dss_pack_int16 b l
  | HInt32, D32 l => opal_dss_pack_int32 b l
  | HInt64, D64 l => opal_dss_pack_int64 b l
  | HString, DStr l => opal_dss_pack_string b l
  | HTimeval, DTv l => opal_dss_pack_timeval b l
  | HTime, D64 l => opal_dss_pack_time b l
  | HByteObject, DBo l => opal_dss_pack_byte_object b l
  | _, _ => Ub
  end.

(** [if (OPAL_DSS_BUFFER_FULLY_DESC == buffer->type) store the type] *)
Definition describe (b : opal_buffer_t) (type : Z) (k : opal_buffer_t -> outcome (Z * opal_buffer_t))
    : outcome (Z * opal_buffer_t) :=
  if b_desc b then pack_then (opal_dss_store_data_type b type) k else k b.

(** [opal_dss_pack_buffer] on a type packed as it is. *)
Definition pack_real (b : opal_buffer_t) (d : dss_data) (type : Z) : outcome (Z * opal_buffer_t) :=
  describe b type (fun b =>
    match opal_dss_types type with
    | None => Ret (OPAL_ERR_PACK_FAILURE, b)
    | Some h => pack_leaf b h d
    end).

(** [opal_dss_pack_bool], [_int], [_sizet], [_pid] *)
Definition pack_native (b : opal_buffer_t) (d : dss_data) (real : Z) : outcome (Z * opal_buffer_t) :=
  if b_desc b then pack_real b d real
  else pack_then (opal_dss_store_data_type b real) (fun b => pack_real b d real).

(** The arrays of job ids and of vpids are allocated one after the other. *)
Definition opal_dss_pack_name (b : opal_buffer_t) (src : list (Z * Z)) : outcome (Z * opal_buffer_t) :=
  let size := u64 (Z.of_nat (length src) * 4) in
  if negb (malloc_ok size) then Ret (OPAL_ERR_OUT_OF_RESOURCE, b)
  else
    pack_then (pack_real b (D32 src.*1) OPAL_UINT32) (fun b =>
      if negb (malloc_ok size) then Ret (OPAL_ERR_OUT_OF_RESOURCE, b)
      else pack_real b (D32 src.*2) OPAL_UINT32).

Definition opal_dss_pack_buffer (b : opal_buffer_t) (d : dss_data) (type : Z)
    : outcome (Z * opal_buffer_t) :=
  describe b type (fun b =>
    match opal_dss_types type with
    | None => Ret (OPAL_ERR_PACK_FAILURE, b)
    | Some (HNative real) => pack_native b d real
    | Some (HAlias real) => pack_real b d real
    | Some HName => match d with DName l => opal_dss_pack_name b l | _ => Ub end
    | Some (HOther t) => other_pack t b d
    | Some h => pack_leaf b h d
    end).

Definition opal_dss_pack (b : opal_buffer_t) (d : dss_data) (type : Z) : outcome (Z * opal_buffer_t) :=
  describe b OPAL_INT32 (fun b =>
    pack_then (opal_dss_pack_int32 b [u32 (Z.of_nat (data_length d))])
      (fun b => opal_dss_pack_buffer b d type)).

(** ** Unpacking *)

Definition unpack_then {A B} (m : unpacked A) (k : A -> opal_buffer_t -> unpacked B) : unpacked B :=
  match m with
  | (rc, Some a, b) => if rc =? OPAL_SUCCESS then k a b else (rc, None, b)
  | (rc, None, b) => (rc, None, b)
  end.

(** Copy [n] bytes from [unpack_ptr] and advance, after the size check. *)
Definition get_bytes (b : opal_buffer_t) (n : Z) : unpacked (list Z) :=
  if opal_dss_too_small b n then (OPAL_ERR_UNPACK_READ_PAST_END_OF_BUFFER, None, b)
  else (OPAL_SUCCESS, Some (take (Z.to_nat n) (drop (b_unpack b) (b_data b))),
        with_unpack b (b_unpack b + Z.to_nat n)).

(** Consecutive groups of [w] bytes. *)
Fixpoint groups_of (w n : nat) (bs : list Z) : list (list Z) :=
  match n with
  | O => []
  | S n' => take w bs :: groups_of w n' (drop w bs)
  end.

Definition get_ints (w : nat) (b : opal_buffer_t) (num_vals : Z) : unpacked (list Z) :=
  unpack_then (get_bytes b (u64 (num_vals * Z.of_nat w)))
    (fun bs b => (OPAL_SUCCESS, Some (be_val <$> groups_of w (Z.to_nat num_vals) bs), b)).

Definition opal_dss_unpack_null (b : opal_buffer_t) (num_vals : Z) : unpacked (list Z) :=
  get_bytes b (u64 num_vals).
Definition opal_dss_unpack_byte (b : opal_buffer_t) (num_vals : Z) : unpacked (list Z) :=
  get_bytes b (u64 num_vals).
Definition opal_dss_unpack_int16 := get_ints 2.
Definition opal_dss_unpack_int32 := get_ints 4.
Definition opal_dss_unpack_int64 := get_ints 8.

Fixpoint unpack_each {A} (f : opal_buffer_t -> unpacked A) (n : nat) (b : opal_buffer_t)
    : unpacked (list A) :=
  match n with
  | O => (OPAL_SUCCESS, Some [], b)
  | S n' =>
    unpack_then (f b) (fun a b =>
    unpack_then (unpack_each f n' b) (fun l b => (OPAL_SUCCESS, Some (a :: l), b)))
  end.

(** One [int32_t], as a signed number. *)
Definition unpack_len (b : opal_buffer_t) : unpacked Z :=
  unpack_then (opal_dss_unpack_int32 b 1)
    (fun l b => match l with [v] => (OPAL_SUCCESS, Some (i32 v), b) | _ => (OPAL_ERROR, None, b) end).

Definition unpack_one_string (b : opal_buffer_t) : unpacked (option (list Z)) :=
  unpack_then (unpack_len b) (fun len b =>
    if len =? 0 then (OPAL_SUCCESS, Some None, b)
    else if negb (malloc_ok (u64 len)) then (OPAL_ERR_OUT_OF_RESOURCE, None, b)
    else unpack_then (opal_dss_unpack_byte b len) (fun bs b => (OPAL_SUCCESS, Some (Some bs), b))).

Definition opal_dss_unpack_string (b : opal_buffer_t) (num_vals : Z)
    : unpacked (list (option (list Z))) := unpack_each unpack_one_string (Z.to_nat num_vals) b.

Definition opal_dss_unpack_timeval (b : opal_buffer_t) (num_vals : Z) : unpacked (list (Z * Z)) :=
  if opal_dss_too_small b (u64 (num_vals * 16))
  then (OPAL_ERR_UNPACK_READ_PAST_END_OF_BUFFER, None, b)
  else unpack_each (fun b =>
         unpack_then (opal_dss_unpack_int64 b 2) (fun l b =>
           match l with [s; u] => (OPAL_SUCCESS, Some (s, u), b) | _ => (OPAL_ERROR, None, b) end))
         (Z.to_nat num_vals) b.

Definition opal_dss_unpack_time (b : opal_buffer_t) (num_vals : Z) : unpacked (list Z) :=
  if opal_dss_too_small b (u64 (num_vals * 8))
  then (OPAL_ERR_UNPACK_READ_PAST_END_OF_BUFFER, None, b)
  else unpack_each (fun b =>
         unpack_then (opal_dss_unpack_int64 b 1) (fun l b =>
           match l with [t] => (OPAL_SUCCESS, Some t, b) | _ => (OPAL_ERROR, None, b) end))
         (Z.to_nat num_vals) b.

Definition opal_dss_unpack_byte_object (b : opal_buffer_t) (num : Z) : unpacked (list (list Z)) :=
  unpack_each (fun b =>
    if negb (malloc_ok 16) then (OPAL_ERR_OUT_OF_RESOURCE, None, b)
    else unpack_then (unpack_len b) (fun size b =>
      if 0 <? size then
        if negb (malloc_ok size) then (OPAL_ERR_OUT_OF_RESOURCE, None, b)
        else opal_dss_unpack_byte b size
      else (OPAL_SUCCESS, Some [], b))) (Z.to_nat num) b.

Definition umap {A B} (f : A -> B) (m : unpacked A) : unpacked B :=
  unpack_then m (fun a b => (OPAL_SUCCESS, Some (f a), b)).

Definition unpack_leaf (b : opal_buffer_t) (h : handler) (num_vals : Z) : unpacked dss_data :=
  match h with
  | HNull => umap D8 (opal_dss_unpack_null b num_vals)
  | HByte => umap D8 (opal_dss_unpack_byte b num_vals)
  | HInt16 => umap D16 (opal_dss_unpack_int16 b num_vals)
  | HInt32 => umap D32 (opal_dss_unpack_int32 b num_vals)
  | HInt64 => umap D64 (opal_dss_unpack_int64 b num_vals)
  | HString => umap DStr (opal_dss_unpack_string b num_vals)
  | HTimeval => umap DTv (opal_dss_unpack_timeval b num_vals)
  | HTime => umap D64 (opal_dss_unpack_time b num_vals)
  | HByteObject => umap DBo (opal_dss_unpack_byte_object b num_vals)
  | _ => (OPAL_ERR_UNPACK_FAILURE, None, b)
  end.

Definition opal_dss_get_data_type (b : opal_buffer_t) : unpacked Z :=
  match opal_dss_types OPAL_DATA_TYPE_T with
  | None => (OPAL_ERR_PACK_FAILURE, None, b)
  | Some _ =>
    unpack_then (opal_dss_unpack_byte b 1)
      (fun l b => match l with [t] => (OPAL_SUCCESS, Some t, b) | _ => (OPAL_ERROR, None, b) end)
  end.

(** Read and check the declared type of a fully described item. *)
Definition check_type {A} (b : opal_buffer_t) (type err : Z) (k : opal_buffer_t -> unpacked A)
    : unpacked A :=
  if b_desc b then
    unpack_then (opal_dss_get_data_type b)
      (fun t b => if t =? type then k b else (err, None, b))
  else k b.

Definition unpack_real (b : opal_buffer_t) (num_vals type : Z) : unpacked dss_data :=
  check_type b type OPAL_ERR_PACK_MISMATCH (fun b =>
    match opal_dss_types type with
    | None => (OPAL_ERR_UNPACK_FAILURE, None, b)
    | Some h => unpack_leaf b h num_vals
    end).

(** [opal_dss_peek_type]: the type code is read from a copy of the buffer. *)
Definition opal_dss_peek_type (b : opal_buffer_t) : Z * Z :=
  if negb (b_desc b) then (OPAL_ERR_UNKNOWN_DATA_TYPE, OPAL_UNDEF)
  else if (length (b_data b) <=? b_unpack b)%nat
  then (OPAL_ERR_UNPACK_READ_PAST_END_OF_BUFFER, OPAL_UNDEF)
  else
    match opal_dss_get_data_type b with
    | (rc, Some t, _) => (rc, t)
    | (rc, None, _) => (rc, OPAL_UNDEF)
    end.

(** Width in bytes and signedness of a remote integer type. *)
Definition int_type (type : Z) : option (nat * bool) :=
  if type =? OPAL_UINT8 then Some (1%nat, false)
  else if type =? OPAL_INT8 then Some (1%nat, true)
  else if type =? OPAL_UINT16 then Some (2%nat, false)
  else if type =? OPAL_INT16 then Some (2%nat, true)
  else if type =? OPAL_UINT32 then Some (4%nat, false)
  else if type =? OPAL_INT32 then Some (4%nat, true)
  else if type =? OPAL_UINT64 then Some (8%nat, false)
  else if type =? OPAL_INT64 then Some (8%nat, true)
  else None.

Definition int_values (d : dss_data) : list Z :=
  match d with D8 l | D16 l | D32 l | D64 l => l | _ => [] end.

(** The conversion to the local type of the native [real] type. *)
Definition convert_int (is_bool : bool) (w : nat) (signed : bool) (real : Z) (v : Z) : Z :=
  let v := if signed then sgn (8 * Z.of_nat w) v else v in
  if is_bool then (if v =? 0 then 0 else 1)
  else
    match int_type real with
    | Some (w', _) => wrap (8 * Z.of_nat w') v
    | None => v
    end.

Definition int_array (real : Z) (l : list Z) : dss_data :=
  match int_type real with
  | Some (1%nat, _) => D8 l
  | Some (2%nat, _) => D16 l
  | Some (4%nat, _) => D32 l
  | _ => D64 l
  end.

(** [opal_dss_unpack_bool], [_int], [_sizet], [_pid] *)
Definition unpack_native (b : opal_buffer_t) (is_bool : bool) (num_vals real : Z)
    : unpacked dss_data :=
  let with_remote (remote : Z) (b : opal_buffer_t) : unpacked dss_data :=
    if remote =? real then unpack_real b num_vals real
    else
      match int_type remote with
      | None => (OPAL_ERR_NOT_FOUND, None, b)
      | Some (w, signed) =>
        unpack_then (unpack_real b num_vals remote)
          (fun d b => (OPAL_SUCCESS,
             Some (int_array real (convert_int is_bool w signed real <$> int_values d)), b))
      end in
  if b_desc b then
    let '(rc, remote) := opal_dss_peek_type b in
    if negb (rc =? OPAL_SUCCESS) then (rc, None, b) else with_remote remote b
  else unpack_then (opal_dss_get_data_type b) with_remote.

Definition opal_dss_unpack_name (b : opal_buffer_t) (num_vals : Z) : unpacked dss_data :=
  let size := u64 (num_vals * 4) in
  if negb (malloc_ok size) then (OPAL_ERR_OUT_OF_RESOURCE, None, b)
  else
    unpack_then (unpack_real b num_vals OPAL_UINT32) (fun j b =>
    if negb (malloc_ok size) then (OPAL_ERR_OUT_OF_RESOURCE, None, b)
    else
      unpack_then (unpack_real b num_vals OPAL_UINT32) (fun v b =>
        (OPAL_SUCCESS, Some (DName (zip (int_values j) (int_values v))), b))).

Definition opal_dss_unpack_buffer (b : opal_buffer_t) (num_vals type : Z) : unpacked dss_data :=
  check_type b type OPAL_ERR_PACK_MISMATCH (fun b =>
    match opal_dss_types type with
    | None => (OPAL_ERR_UNPACK_FAILURE, None, b)
    | Some (HNative real) => unpack_native b (type =? OPAL_BOOL) num_vals real
    | Some (HAlias real) => unpack_real b num_vals real
    | Some HName => opal_dss_unpack_name b num_vals
    | Some (HOther t) => other_unpack t b num_vals
    | Some h => unpack_leaf b h num_vals
    end).

(** [num_vals] is the room of the destination; the status
    [OPAL_ERR_UNPACK_INADEQUATE_SPACE] comes with the values that fit. *)
Definition opal_dss_unpack (b : opal_buffer_t) (num_vals type : Z)
    : Z * option dss_data * opal_buffer_t :=
  if num_vals =? 0 then (OPAL_ERR_UNPACK_INADEQUATE_SPACE, None, b)
  else
    check_type b OPAL_INT32 OPAL_ERR_UNPACK_FAILURE (fun b =>
      unpack_then (unpack_len b) (fun local_num b =>
        let '(local, ret) :=
          if num_vals <? local_num then (num_vals, OPAL_ERR_UNPACK_INADEQUATE_SPACE)
          else (local_num, OPAL_SUCCESS) in
        match opal_dss_unpack_buffer b local type with
        | (rc, o, b) => if rc =? OPAL_SUCCESS then (ret, o, b) else (rc, None, b)
        end)).

(** ** Whole buffers *)
(** The payload handed over is NULL when there is nothing in the buffer.  Its
    length goes through an [int32_t], so the third component is the number of
    bytes of the buffer modulo 2^32, as a signed number. *)
Definition opal_dss_unload (b : opal_buffer_t) : Z * option (list Z) * Z * opal_buffer_t :=
  if negb (b_base b) || (bytes_used b =? 0) then (OPAL_SUCCESS, None, 0, b)
  else (OPAL_SUCCESS, Some (b_data b), i32 (bytes_used b), MkBuffer (b_desc b) false false 0 [] 0).

(** [payload] is the memory the pointer refers to and [bytes_used] the length
    the caller gives, an [int32_t].  The pack pointer of a negative length, or of
    one beyond the memory, points outside of the memory, which is undefined. *)
Definition opal_dss_load (b : opal_buffer_t) (payload : option (list Z)) (bytes_used : Z)
    : outcome (Z * opal_buffer_t) :=
  match payload with
  | None => Ret (OPAL_SUCCESS, MkBuffer (b_desc b) false false 0 [] 0)
  | Some p =>
    if (bytes_used <? 0) || (Z.of_nat (length p) <? bytes_used) then Ub
    else Ret (OPAL_SUCCESS, MkBuffer (b_desc b) true true bytes_used (take (Z.to_nat bytes_used) p) 0)
  end.

(** Append what [src] has not unpacked yet. *)
Definition opal_dss_copy_payload (dest src : opal_buffer_t) : outcome (Z * opal_buffer_t) :=
  if negb (bytes_used dest =? 0) && negb (Bool.eqb (b_desc dest) (b_desc src))
  then Ret (OPAL_ERR_BUFFER, dest)
  else
    let dest := MkBuffer (b_desc src) (b_base dest) (b_ptr dest) (b_allocated dest)
                  (b_data dest) (b_unpack dest) in
    let left := drop (b_unpack src) (b_data src) in
    let bytes_left := i32 (Z.of_nat (length left)) in
    if bytes_left =? 0 then Ret (OPAL_SUCCESS, dest)
    else
      '(ok, dest) ← opal_dss_buffer_extend dest (u64 bytes_left);
      if negb ok then Ret (OPAL_ERR_OUT_OF_RESOURCE, dest)
      else if bytes_left <? 0 then Ub
      else Ret (OPAL_SUCCESS, with_data dest (b_data dest ++ take (Z.to_nat bytes_left) left)).

Definition opal_dss_peek (b : opal_buffer_t) : Z * Z * Z :=
  if (length (b_data b) <=? b_unpack b)%nat
  then (OPAL_ERR_UNPACK_READ_PAST_END_OF_BUFFER, OPAL_NULL, 0)
  else if negb (b_desc b) then (OPAL_ERR_UNKNOWN_DATA_TYPE, OPAL_UNDEF, 0)
  else
    match opal_dss_get_data_type b with
    | (rc, None, _) => (rc, OPAL_NULL, 0)
    | (_, Some t, b) =>
      if negb (t =? OPAL_INT32) then (OPAL_ERR_UNPACK_FAILURE, OPAL_NULL, 0)
      else
        match unpack_len b with
        | (rc, None, _) => (rc, OPAL_NULL, 0)
        | (_, Some n, b) =>
          match opal_dss_get_data_type b with
          | (rc, None, _) => (rc, OPAL_NULL, 0)
          | (rc, Some t, _) => (rc, t, n)
          end
        end
    end.

End Dss.
