(* ===== verification/DssFormat.v ===== *)
(** * The serialized format, and packing produces it

    The format is given independently of the buffers: [enc_item] maps a typed
    array to its bytes.  [packs] says that a packing function appends given
    bytes to any buffer with storage, [packs0] to any buffer at all, fresh ones
    included.  Both are closed under the ways the code composes its functions,
    and hold for every type of the table. *)

From S2P Require Import Prelude CString Dss.
From stdpp Require Import base strings numbers list sets.
From Stdlib Require Import ZArith Lia.

Open Scope Z_scope.

(** ** Network byte order *)
Lemma be_length w v : length (be w v) = w.
Proof. induction w; simpl; auto. Qed.

Lemma be_fold w v acc :
  foldl (fun acc b => acc * 256 + b) acc (be w v) = acc * 256 ^ Z.of_nat w + v mod 256 ^ Z.of_nat w.
Proof.
  revert acc; induction w as [|w IH]; intros acc; simpl.
  - rewrite Z.mod_1_r. lia.
  - rewrite IH. replace (Z.of_nat (S w)) with (Z.succ (Z.of_nat w)) by lia.
    rewrite Z.pow_succ_r by lia.
    rewrite (Z.mul_comm 256 (256 ^ _)), Z.rem_mul_r by lia. lia.
Qed.

Lemma be_val_be w v : 0 <= v < 256 ^ Z.of_nat w -> be_val (be w v) = v.
Proof. intros. unfold be_val. rewrite be_fold, Z.mod_small by lia. lia. Qed.

#[global] Arguments be : simpl never.

Lemma bind_be_length w (l : list Z) : length (l ≫= be w) = (w * length l)%nat.
Proof. induction l as [|x l IH]; csimpl; [lia|]. rewrite length_app, be_length, IH. lia. Qed.

Lemma groups_of_be w (l : list Z) : groups_of w (length l) (l ≫= be w) = be w <$> l.
Proof.
  induction l as [|v l IH]; csimpl; [done|].
  by rewrite take_app_length', drop_app_length', IH by (symmetry; apply be_length).
Qed.

Lemma be_groups w (l : list Z) :
  Forall (fun v => 0 <= v < 256 ^ Z.of_nat w) l ->
  be_val <$> groups_of w (length l) (l ≫= be w) = l.
Proof.
  intros Hl. rewrite groups_of_be.
  induction Hl; csimpl; [done|]. by rewrite be_val_be, IHHl.
Qed.

Lemma i32_u32 z : INT_MIN <= z <= INT_MAX -> i32 (u32 z) = z.
Proof.
  intros Hz. rewrite <- (i32_small z Hz) at 2.
  unfold i32, sgn, u32, wrap. by rewrite Z.mod_mod by lia.
Qed.

(** ** Buffers that have met no failed allocation *)
Record buf_ok (b : opal_buffer_t) : Prop := {
  bo_fresh : b_ptr b = false ->
    b_base b = false /\ b_allocated b = 0 /\ b_data b = [] /\ b_unpack b = O;
  bo_base : b_ptr b = true -> b_base b = true;
  bo_room : bytes_used b <= b_allocated b < 2 ^ 63;
  bo_unpack : (b_unpack b <= length (b_data b))%nat
}.

Lemma buf_ok_construct desc : buf_ok (opal_buffer_construct desc).
Proof. split; cbn; auto; try discriminate; unfold bytes_used; simpl; lia. Qed.

Record after (b : opal_buffer_t) (bs : list Z) (b' : opal_buffer_t) : Prop := {
  af_ok : buf_ok b';
  af_ptr : b_ptr b' = true;
  af_desc : b_desc b' = b_desc b;
  af_unpack : b_unpack b' = b_unpack b;
  af_data : b_data b' = b_data b ++ bs
}.

Lemma after_refl b : buf_ok b -> b_ptr b = true -> after b [] b.
Proof. intros; split; auto. by rewrite app_nil_r. Qed.

Lemma after_app b bs1 b1 bs2 b2 :
  after b bs1 b1 -> after b1 bs2 b2 -> after b (bs1 ++ bs2) b2.
Proof.
  intros [] []; split; auto; try congruence. by rewrite af_data1, af_data0, app_assoc.
Qed.

Section Format.
Context (malloc_ok : Z -> bool) (initial threshold : Z).
Context (registered : Z -> bool).
Context (other_pack : Z -> opal_buffer_t -> dss_data -> outcome (Z * opal_buffer_t)).
Hypothesis Hmalloc : forall n, malloc_ok n = true.
Hypothesis Hinitial : 0 < initial < 2 ^ 31.
Hypothesis Hthreshold : 0 < threshold < 2 ^ 31.

(** ** Storage *)
Lemma double_until_spec fuel start required :
  0 < start < 2 ^ 63 -> required < 2 ^ 62 ->
  (0 < fuel)%nat -> required <= start * 2 ^ (Z.of_nat fuel - 1) ->
  exists r, double_until fuel start required = Ret r /\ required <= r < 2 ^ 63.
Proof.
  revert start; induction fuel as [|fuel IH]; intros start Hs Hr Hf Hle; [lia|]. simpl.
  destruct (Z.ltb_spec start required); [|exists start; split; [done|lia]].
  destruct fuel as [|fuel'].
  { simpl in Hle. lia. }
  rewrite u64_small by lia. apply IH; [lia|lia|lia|].
  replace (Z.of_nat (S (S fuel')) - 1) with (Z.succ (Z.of_nat (S fuel') - 1)) in Hle by lia.
  rewrite Z.pow_succ_r in Hle by lia. nia.
Qed.

Lemma extend_size_spec b required :
  0 <= b_allocated b < 2 ^ 63 -> 0 <= required < 2 ^ 62 ->
  exists r, extend_size initial threshold b required = Ret r /\ required <= r < 2 ^ 63.
Proof.
  intros Ha Hr. unfold extend_size. rewrite (u64_small threshold) by lia.
  destruct (Z.leb_spec threshold required).
  - destruct (Z.eqb_spec threshold 0); [lia|].
    rewrite (u64_small (required + threshold - 1)) by lia.
    set (q := (required + threshold - 1) / threshold).
    pose proof (Z.div_mod (required + threshold - 1) threshold ltac:(lia)).
    pose proof (Z.mod_pos_bound (required + threshold - 1) threshold ltac:(lia)).
    fold q in H0. eexists; split; [reflexivity|].
    rewrite u64_small; lia.
  - apply double_until_spec; try lia.
    + destruct (Z.eqb_spec (b_allocated b) 0); [|lia]. rewrite u64_small; lia.
    + destruct (Z.eqb_spec (b_allocated b) 0); [rewrite u64_small by lia|]; simpl; lia.
Qed.

Lemma extend_spec b n :
  buf_ok b -> 0 <= n -> bytes_used b + n < 2 ^ 62 -> b_ptr b = true \/ 0 < n ->
  exists b', opal_dss_buffer_extend malloc_ok initial threshold b (u64 n) = Ret (true, b') /\
    after b [] b' /\ bytes_used b + n <= b_allocated b'.
Proof.
  intros Hb Hn Hsz Hp. pose proof Hb as [Hf Hbase Hroom Hunp].
  assert (0 <= bytes_used b) by (unfold bytes_used; lia).
  unfold opal_dss_buffer_extend. rewrite (u64_small n), (u64_small (_ - _)) by lia.
  destruct (Z.leb_spec n (b_allocated b - bytes_used b)).
  - destruct (b_ptr b) eqn:E.
    + exists b. split; [done|]. split; [by apply after_refl|lia].
    + destruct (Hf eq_refl) as (? & ? & ?), Hp; [done|lia].
  - rewrite u64_small by lia.
    destruct (extend_size_spec b (bytes_used b + n)) as (r & -> & ?); [lia..|].
    rewrite bind_Ret, Hmalloc. simpl. eexists; split; [reflexivity|].
    assert (b_data (if b_base b then b
                    else MkBuffer (b_desc b) false (b_ptr b) (b_allocated b) [] 0) = b_data b /\
            b_unpack (if b_base b then b
                    else MkBuffer (b_desc b) false (b_ptr b) (b_allocated b) [] 0) = b_unpack b /\
            b_desc (if b_base b then b
                    else MkBuffer (b_desc b) false (b_ptr b) (b_allocated b) [] 0) = b_desc b)
      as (-> & -> & ->).
    { destruct (b_ptr b); [by rewrite Hbase|].
      destruct (Hf eq_refl) as (-> & _ & -> & ->); auto. }
    split; [|cbn; lia].
    split; cbn; auto using app_nil_r.
    split; cbn; auto; try discriminate. unfold bytes_used in *. cbn. lia.
Qed.

(** ** Packing appends bytes *)
Definition packs0 (b : opal_buffer_t) (bs : list Z) (m : outcome (Z * opal_buffer_t)) : Prop :=
  buf_ok b -> bytes_used b + Z.of_nat (length bs) < 2 ^ 62 ->
  exists b', m = Ret (OPAL_SUCCESS, b') /\ after b bs b'.

Definition packs (b : opal_buffer_t) (bs : list Z) (m : outcome (Z * opal_buffer_t)) : Prop :=
  b_ptr b = true -> packs0 b bs m.

Lemma after_put b b1 bs :
  after b [] b1 -> bytes_used b + Z.of_nat (length bs) <= b_allocated b1 ->
  after b bs (with_data b1 (b_data b1 ++ bs)).
Proof.
  intros [[] ? ? ? Hd] Hroom. rewrite app_nil_r in Hd.
  split; cbn; auto; [|by rewrite Hd].
  split; cbn; auto; [congruence| |rewrite length_app; lia].
  unfold bytes_used in *; cbn in *. rewrite length_app. rewrite Hd in *. lia.
Qed.

Lemma put_bytes_packs b bs : packs b bs (put_bytes malloc_ok initial threshold b bs).
Proof.
  intros Hp Hb Hsz. unfold put_bytes.
  destruct (extend_spec b (Z.of_nat (length bs))) as (b1 & -> & H1 & ?); auto; [lia|].
  rewrite bind_Ret. simpl. eexists; split; [reflexivity|]. by apply after_put.
Qed.

Lemma put_bytes_packs0 b bs : bs <> [] -> packs0 b bs (put_bytes malloc_ok initial threshold b bs).
Proof.
  intros Hne Hb Hsz. unfold put_bytes.
  destruct (extend_spec b (Z.of_nat (length bs))) as (b1 & -> & H1 & ?); auto; [lia|..].
  { right. destruct bs; [done|]. simpl. lia. }
  rewrite bind_Ret. simpl. eexists; split; [reflexivity|]. by apply after_put.
Qed.

Lemma pack_byte_put b bs (n : Z) :
  0 <= n <= Z.of_nat (length bs) -> n < 2 ^ 62 ->
  opal_dss_pack_byte malloc_ok initial threshold b bs n =
  put_bytes malloc_ok initial threshold b (take (Z.to_nat n) bs).
Proof.
  intros Hn Hs. unfold opal_dss_pack_byte, put_bytes.
  rewrite length_take_le, Z2Nat.id by lia.
  destruct (opal_dss_buffer_extend _ _ _ b _) as [[[] b1]| |]; simpl; try done.
  destruct (Z.ltb_spec n 0); [lia|]. by destruct (Z.ltb_spec (Z.of_nat (length bs)) n); [lia|].
Qed.

Lemma pack_byte_packs b bs n :
  0 <= n <= Z.of_nat (length bs) -> n < 2 ^ 62 ->
  packs b (take (Z.to_nat n) bs) (opal_dss_pack_byte malloc_ok initial threshold b bs n).
Proof. intros. rewrite pack_byte_put by done. apply put_bytes_packs. Qed.

Lemma pack_type_packs0 b type :
  packs0 b [type] (opal_dss_store_data_type malloc_ok initial threshold registered b type).
Proof.
  change (packs0 b [type] (opal_dss_pack_byte malloc_ok initial threshold b [type] 1)).
  rewrite pack_byte_put by (simpl; lia). by apply put_bytes_packs0.
Qed.

Lemma packs0_packs b bs m : packs0 b bs m -> packs b bs m.
Proof. by intros ? _. Qed.

Lemma packs_ret b : packs b [] (Ret (OPAL_SUCCESS, b)).
Proof. intros Hp Hb _. exists b. split; [done|]. by apply after_refl. Qed.

Lemma packs0_then b bs1 bs2 m k :
  packs0 b bs1 m ->
  (forall b', b_desc b' = b_desc b -> packs b' bs2 (k b')) ->
  packs0 b (bs1 ++ bs2) (pack_then m k).
Proof.
  intros Hm Hk Hb Hsz. rewrite length_app in Hsz.
  destruct Hm as (b1 & -> & H1); [done|lia|].
  destruct (Hk b1) as (b2 & E2 & H2); [apply H1..| |].
  { unfold bytes_used in *. rewrite (af_data _ _ _ H1), length_app. lia. }
  exists b2. split; [|by eapply after_app]. unfold pack_then. by rewrite bind_Ret.
Qed.

Lemma packs_then b bs1 bs2 m k :
  packs b bs1 m ->
  (forall b', b_desc b' = b_desc b -> packs b' bs2 (k b')) ->
  packs b (bs1 ++ bs2) (pack_then m k).
Proof. intros Hm Hk Hp. apply packs0_then; auto. Qed.

Lemma packs_each {A} (f : opal_buffer_t -> A -> outcome (Z * opal_buffer_t)) enc l b :
  (forall b' x, x ∈ l -> b_desc b' = b_desc b -> packs b' (enc x) (f b' x)) ->
  packs b (l ≫= enc) (pack_each f b l).
Proof.
  revert b; induction l as [|x l IH]; intros b Hf; [apply packs_ret|].
  change (packs b (enc x ++ (l ≫= enc)) (pack_then (f b x) (fun b => pack_each f b l))).
  apply packs_then; [apply Hf; [by left|done]|].
  intros b' Hd. apply IH. intros b2 y Hy Hd2. apply Hf; [by right|congruence].
Qed.

(** ** The format *)
Definition tag (desc : bool) (type : Z) : list Z := if desc then [type] else [].

Lemma packs_describe b type bs k :
  (forall b', b_desc b' = b_desc b -> packs b' bs (k b')) ->
  packs b (tag (b_desc b) type ++ bs)
    (describe malloc_ok initial threshold registered b type k).
Proof.
  intros Hk. unfold describe, tag. destruct (b_desc b) eqn:E; [|by apply Hk].
  apply packs_then; [apply packs0_packs, pack_type_packs0 | intros; apply Hk; congruence].
Qed.

(** A character array up to its terminator. *)
Definition trim (a : list Z) : list Z :=
  match c_strlen a with Some n => take (S n) a | None => a end.

Definition enc_string (s : option (list Z)) : list Z :=
  match s with
  | None => be 4 0
  | Some a => be 4 (Z.of_nat (length (trim a))) ++ trim a
  end.
Definition enc_timeval (tv : Z * Z) : list Z := be 8 tv.1 ++ be 8 tv.2.
Definition enc_bo (bo : list Z) : list Z := be 4 (Z.of_nat (length bo)) ++ bo.

Definition enc_leaf (d : dss_data) : list Z :=
  match d with
  | D8 l => l
  | D16 l => l ≫= be 2
  | D32 l => l ≫= be 4
  | D64 l => l ≫= be 8
  | DStr l => l ≫= enc_string
  | DTv l => l ≫= enc_timeval
  | DBo l => l ≫= enc_bo
  | DName _ => []
  end.

Definition enc_real (desc : bool) (real : Z) (d : dss_data) : list Z :=
  tag desc real ++ enc_leaf d.

Definition enc_buffer (desc : bool) (type : Z) (d : dss_data) : list Z :=
  tag desc type ++
  match opal_dss_types registered type, d with
  | Some (HNative real), _ => tag (negb desc) real ++ enc_real desc real d
  | Some (HAlias real), _ => enc_real desc real d
  | Some HName, DName l =>
    enc_real desc OPAL_UINT32 (D32 l.*1) ++ enc_real desc OPAL_UINT32 (D32 l.*2)
  | _, _ => enc_leaf d
  end.

Definition enc_item (desc : bool) (it : dss_data * Z) : list Z :=
  tag desc OPAL_INT32 ++ be 4 (Z.of_nat (data_length it.1)) ++ enc_buffer desc it.2 it.1.

(** *** Arrays of the type they are packed as *)
Definition fits (w : nat) (v : Z) : Prop := 0 <= v < 256 ^ Z.of_nat w.

Definition string_ok (s : option (list Z)) : Prop :=
  match s with
  | None => True
  | Some a => exists n, c_strlen a = Some n /\ Z.of_nat n < INT_MAX
  end.

Definition leaf_ok (h : handler) (d : dss_data) : Prop :=
  match h, d with
  | HNull, D8 l => l = replicate (length l) 0
  | HByte, D8 l => True
  | HInt16, D16 l => Forall (fits 2) l
  | HInt32, D32 l => Forall (fits 4) l
  | HInt64, D64 l => Forall (fits 8) l
  | HString, DStr l => Forall string_ok l
  | HTimeval, DTv l => Forall (fun tv => fits 8 tv.1 /\ fits 8 tv.2) l
  | HTime, D64 l => Forall (fits 8) l
  | HByteObject, DBo l => Forall (fun bo => Z.of_nat (length bo) <= INT_MAX) l
  | _, _ => False
  end.

Definition real_ok (real : Z) (d : dss_data) : Prop :=
  match opal_dss_types registered real with Some h => leaf_ok h d | None => False end.

Definition type_ok (type : Z) (d : dss_data) : Prop :=
  match opal_dss_types registered type, d with
  | Some (HNative real), _ | Some (HAlias real), _ => real_ok real d
  | Some HName, DName l => Forall (fun n => fits 4 n.1 /\ fits 4 n.2) l
  | Some h, _ => leaf_ok h d
  | None, _ => False
  end.

Definition item_ok (it : dss_data * Z) : Prop :=
  Z.of_nat (data_length it.1) <= INT_MAX /\ type_ok it.2 it.1.

Abbreviation pack_leaf' := (pack_leaf malloc_ok initial threshold).
Abbreviation pack_real' := (pack_real malloc_ok initial threshold registered).
Abbreviation opal_dss_pack' :=
  (opal_dss_pack malloc_ok initial threshold registered other_pack).

(** ** The packing functions produce the format *)
Lemma trim_length a n : c_strlen a = Some n -> length (trim a) = S n.
Proof.
  intros E. unfold trim. rewrite E. apply find_index_lt in E. rewrite length_take_le; lia.
Qed.

Lemma bind_one {A} (f : A -> list Z) x : [x] ≫= f = f x.
Proof. apply app_nil_r. Qed.

Lemma pack_len_packs0 b n :
  0 <= n < 2 ^ 32 ->
  packs0 b (be 4 n) (opal_dss_pack_int32 malloc_ok initial threshold b [u32 n]).
Proof.
  intros. unfold u32. rewrite wrap_small by lia. rewrite <- bind_one.
  apply put_bytes_packs0. by rewrite bind_one.
Qed.

Lemma pack_one_string_packs b s :
  string_ok s -> packs b (enc_string s) (pack_one_string malloc_ok initial threshold b s).
Proof.
  destruct s as [a|]; [|intros _; apply put_bytes_packs].
  intros (n & E & Hn). unfold pack_one_string. rewrite E. unfold INT_MAX in Hn.
  rewrite (i32_small (Z.of_nat n)), i32_small by (unfold INT_MIN, INT_MAX; lia).
  unfold enc_string. rewrite (trim_length a n E).
  replace (Z.of_nat n + 1) with (Z.of_nat (S n)) by lia.
  apply packs_then.
  - apply packs0_packs, pack_len_packs0. lia.
  - intros b' _. unfold trim. rewrite E. rewrite <- (Nat2Z.id (S n)) at 1.
    apply pack_byte_packs; [apply find_index_lt in E|]; lia.
Qed.

Lemma pack_bo_packs b bo :
  Z.of_nat (length bo) <= INT_MAX ->
  packs b (enc_bo bo)
    (let n := i32 (Z.of_nat (length bo)) in
     pack_then (opal_dss_pack_int32 malloc_ok initial threshold b [u32 n])
       (fun b => if 0 <? n then opal_dss_pack_byte malloc_ok initial threshold b bo n
                 else Ret (OPAL_SUCCESS, b))).
Proof.
  intros Hn. rewrite i32_small by (unfold INT_MIN, INT_MAX in *; lia).
  unfold INT_MAX in Hn. apply packs_then; [apply packs0_packs, pack_len_packs0; lia|].
  intros b' _. destruct (Z.ltb_spec 0 (Z.of_nat (length bo))).
  - rewrite <- (take_ge bo (Z.to_nat (Z.of_nat (length bo)))) at 1 by lia.
    apply pack_byte_packs; lia.
  - destruct bo; [apply packs_ret|simpl in *; lia].
Qed.

Lemma pack_leaf_packs h b d : leaf_ok h d -> packs b (enc_leaf d) (pack_leaf' b h d).
Proof.
  destruct h, d; intros Hok; try (by destruct Hok); simpl.
  - rewrite Hok, length_replicate. apply put_bytes_packs.
  - intros Hp Hb Hsz. rewrite pack_byte_put, take_ge by (unfold bytes_used in Hsz; lia).
    by apply put_bytes_packs.
  - apply put_bytes_packs.
  - apply put_bytes_packs.
  - apply put_bytes_packs.
  - apply packs_each. intros b' s Hs _. apply pack_one_string_packs.
    by eapply Forall_forall in Hok.
  - apply packs_each. intros b' tv Hs _. unfold enc_timeval.
    rewrite <- (bind_one (be 8) tv.2). apply put_bytes_packs.
  - apply packs_each. intros b' t Hs _. rewrite <- bind_one. apply put_bytes_packs.
  - apply packs_each. intros b' bo Hs _. apply pack_bo_packs. by eapply Forall_forall in Hok.
Qed.

Lemma pack_real_packs b real d :
  real_ok real d -> packs b (enc_real (b_desc b) real d) (pack_real' b d real).
Proof.
  intros Hok. apply packs_describe. intros b' _. unfold real_ok in Hok.
  destruct (opal_dss_types registered real) as [h|]; [|done]. by apply pack_leaf_packs.
Qed.

Lemma name_arrays_ok (l : list (Z * Z)) :
  Forall (fun n => fits 4 n.1 /\ fits 4 n.2) l ->
  real_ok OPAL_UINT32 (D32 l.*1) /\ real_ok OPAL_UINT32 (D32 l.*2).
Proof. intros H. split; apply Forall_fmap; eapply Forall_imp; try exact H; naive_solver. Qed.

Lemma pack_buffer_packs b d type :
  type_ok type d ->
  packs b (enc_buffer (b_desc b) type d)
    (opal_dss_pack_buffer malloc_ok initial threshold registered other_pack b d type).
Proof.
  intros Hok. apply packs_describe. intros b' Hd. rewrite <- Hd. unfold type_ok in Hok.
  destruct (opal_dss_types registered type) as [[]|] eqn:Et; try done;
    try (by apply pack_leaf_packs).
  - unfold pack_native, tag. destruct (b_desc b') eqn:E; simpl.
    + rewrite <- E. by apply pack_real_packs.
    + apply (packs_then _ [_]); [apply packs0_packs, pack_type_packs0|].
      intros b2 Hd2. rewrite <- E, <- Hd2. by apply pack_real_packs.
  - by apply pack_real_packs.
  - destruct d; try done. apply name_arrays_ok in Hok as [H1 H2].
    unfold opal_dss_pack_name. rewrite !Hmalloc. simpl.
    apply packs_then; [by apply pack_real_packs|].
    intros b2 Hd2. rewrite <- Hd2. by apply pack_real_packs.
Qed.

Lemma opal_dss_pack_packs0 b it :
  item_ok it -> packs0 b (enc_item (b_desc b) it) (opal_dss_pack' b it.1 it.2).
Proof.
  intros [Hlen Hok]. unfold INT_MAX in Hlen.
  assert (Hk : forall b1, b_desc b1 = b_desc b ->
    packs0 b1 (be 4 (Z.of_nat (data_length it.1)) ++ enc_buffer (b_desc b) it.2 it.1)
      (pack_then (opal_dss_pack_int32 malloc_ok initial threshold b1
                    [u32 (Z.of_nat (data_length it.1))])
         (fun b => opal_dss_pack_buffer malloc_ok initial threshold registered other_pack
                     b it.1 it.2))).
  { intros b1 H1. apply packs0_then; [apply pack_len_packs0; lia|].
    intros b2 H2. rewrite <- H1, <- H2. by apply pack_buffer_packs. }
  unfold opal_dss_pack, describe, enc_item, tag. destruct (b_desc b) eqn:E; [|by apply Hk].
  apply packs0_then; [apply pack_type_packs0|]. intros. apply packs0_packs, Hk. congruence.
Qed.

(** A sequence of items. *)
Definition pack_all (b : opal_buffer_t) (items : list (dss_data * Z)) :=
  pack_each (fun b it => opal_dss_pack' b it.1 it.2) b items.

Lemma pack_all_packs0 b it items :
  Forall item_ok (it :: items) ->
  packs0 b ((it :: items) ≫= enc_item (b_desc b)) (pack_all b (it :: items)).
Proof.
  intros [H1 H2]%Forall_cons.
  change (packs0 b (enc_item (b_desc b) it ++ (items ≫= enc_item (b_desc b)))
    (pack_then (opal_dss_pack' b it.1 it.2) (fun b => pack_all b items))).
  apply packs0_then; [by apply opal_dss_pack_packs0|].
  intros b' Hd. apply packs_each. intros b2 x Hx Hd2. rewrite <- Hd, <- Hd2.
  apply packs0_packs, opal_dss_pack_packs0. by eapply Forall_forall in H2.
Qed.
End Format.
