(* ===== verification/DssRoundtrip.v ===== *)
(** * Unpacking inverts packing

    [codec desc f bs v]: on a buffer that starts with the bytes [bs], [f]
    returns [v] and consumes exactly [bs]; on a buffer that ends within [bs]
    it reports the end of the buffer.  The unpacking functions are codecs for
    the format of [DssFormat]. *)

From S2P Require Import Prelude CString Dss DssFormat.
From stdpp Require Import base strings numbers list sets.
From Stdlib Require Import ZArith Lia.

Open Scope Z_scope.

(** The bytes not unpacked yet. *)
Definition unread (b : opal_buffer_t) : list Z := drop (b_unpack b) (b_data b).

Definition advance (b : opal_buffer_t) (n : nat) : opal_buffer_t := with_unpack b (b_unpack b + n).

Definition readable (desc : bool) (b : opal_buffer_t) : Prop :=
  b_desc b = desc /\ (b_unpack b <= length (b_data b))%nat.

Lemma unread_advance b bs rest : unread b = bs ++ rest -> unread (advance b (length bs)) = rest.
Proof.
  unfold unread, advance; cbn. intros E. rewrite <- drop_drop, E. by rewrite drop_app_length.
Qed.

Lemma readable_advance desc b bs rest :
  readable desc b -> unread b = bs ++ rest -> readable desc (advance b (length bs)).
Proof.
  intros [? Hu] E. split; [done|]. cbn. apply (f_equal length) in E.
  unfold unread in E. rewrite length_drop, length_app in E. lia.
Qed.

Lemma advance_advance b n m : advance (advance b n) m = advance b (n + m).
Proof. unfold advance, with_unpack; cbn. f_equal. lia. Qed.

Lemma advance_0 b : advance b 0 = b.
Proof. destruct b; unfold advance, with_unpack; cbn. f_equal. lia. Qed.

Definition past_end {A} (r : unpacked A) : Prop :=
  exists b', r = (OPAL_ERR_UNPACK_READ_PAST_END_OF_BUFFER, None, b').

Record codec {A} (desc : bool) (f : opal_buffer_t -> unpacked A) (bs : list Z) (v : A) : Prop := {
  codec_reads b rest :
    Z.of_nat (length bs) < 2 ^ 62 -> readable desc b -> unread b = bs ++ rest ->
    f b = (OPAL_SUCCESS, Some v, advance b (length bs));
  codec_short b cut :
    Z.of_nat (length bs) < 2 ^ 62 -> readable desc b -> unread b ++ cut = bs -> cut <> [] ->
    past_end (f b)
}.

(** ** Composition *)
Lemma codec_ext {A} desc (f g : opal_buffer_t -> unpacked A) bs v :
  (forall b, readable desc b -> f b = g b) -> codec desc g bs v -> codec desc f bs v.
Proof. intros Hfg [R S]. split; intros b k Hsz Hb; rewrite Hfg by done; eauto. Qed.

Lemma codec_ret {A} desc (v : A) : codec desc (fun b => (OPAL_SUCCESS, Some v, b)) [] v.
Proof.
  split; [by intros; rewrite advance_0|].
  intros b cut _ _ E Hc. by apply app_nil in E as [_ ->].
Qed.

Lemma codec_then {A B} desc f (k : A -> opal_buffer_t -> unpacked B) bs1 bs2 a v :
  codec desc f bs1 a -> codec desc (k a) bs2 v ->
  codec desc (fun b => unpack_then (f b) k) (bs1 ++ bs2) v.
Proof.
  intros [R1 S1] [R2 S2].
  split; intros b rest; rewrite length_app; intros Hsz Hb E.
  - rewrite <- app_assoc in E. rewrite (R1 _ _ ltac:(lia) Hb E). simpl.
    rewrite (R2 _ rest); [by rewrite advance_advance|lia|by eapply readable_advance|].
    by eapply unread_advance.
  - intros Hc.
    assert ((exists k1, unread b = bs1 ++ k1 /\ k1 ++ rest = bs2) \/
            (exists k1, unread b ++ k1 = bs1 /\ k1 <> [])) as [(k1 & E1 & E2)|(k1 & E1 & Hk)].
    { apply app_eq_inv in E as [(k1 & E1 & E2)|(k1 & E1 & E2)]; [eauto|].
      destruct k1 as [|z k1]; [left; exists []; rewrite app_nil_r in *; by subst|].
      right. exists (z :: k1). by split. }
    + rewrite (R1 _ k1 ltac:(lia) Hb E1). simpl.
      apply (S2 _ rest); [lia|by eapply readable_advance| |done].
      by erewrite unread_advance.
    + destruct (S1 b k1) as (b' & ->); auto; [lia|]. by exists b'.
Qed.

Lemma codec_status {A} desc (f : opal_buffer_t -> unpacked A) bs v :
  codec desc f bs v ->
  codec desc (fun b => match f b with
    | (rc, o, b) => if rc =? OPAL_SUCCESS then (OPAL_SUCCESS, o, b) else (rc, None, b) end) bs v.
Proof.
  intros [R S]. split; intros b k Hsz Hb E; [by rewrite (R b k)|].
  intros Hc. destruct (S b k Hsz Hb E Hc) as (b' & ->). by exists b'.
Qed.

Lemma codec_umap {A B} desc f (g : A -> B) bs v :
  codec desc f bs v -> codec desc (fun b => umap g (f b)) bs (g v).
Proof.
  intros H. rewrite <- (app_nil_r bs). eapply codec_then; [done|]. apply codec_ret.
Qed.

Lemma codec_each {A B} desc (f : opal_buffer_t -> unpacked B) (enc : A -> list Z) g l :
  (forall x, x ∈ l -> codec desc f (enc x) (g x)) ->
  codec desc (unpack_each f (length l)) (l ≫= enc) (g <$> l).
Proof.
  induction l as [|x l IH]; intros Hf; [apply codec_ret|].
  change (codec desc (fun b => unpack_then (f b) (fun a b =>
    umap (cons a) (unpack_each f (length l) b))) (enc x ++ (l ≫= enc)) (g x :: (g <$> l))).
  eapply codec_then; [apply Hf; set_solver|]. apply (codec_umap _ _ (cons (g x))), IH. set_solver.
Qed.

Lemma codec_each_id {A} desc (f : opal_buffer_t -> unpacked A) (enc : A -> list Z) l :
  (forall x, x ∈ l -> codec desc f (enc x) x) ->
  codec desc (unpack_each f (length l)) (l ≫= enc) l.
Proof. intros. rewrite <- (list_fmap_id l) at 3. by apply codec_each. Qed.

Lemma too_small_spec desc b n :
  readable desc b -> opal_dss_too_small b n = (Z.of_nat (length (unread b)) <? n).
Proof.
  intros [_ Hu]. unfold opal_dss_too_small, unread. rewrite length_drop.
  by destruct (Nat.ltb_spec (length (b_data b)) (b_unpack b)); [lia|].
Qed.

(** A size check before reading what has that size. *)
Lemma codec_check {A} desc (f : opal_buffer_t -> unpacked A) bs v n :
  n = Z.of_nat (length bs) -> codec desc f bs v ->
  codec desc (fun b => if opal_dss_too_small b (u64 n)
                       then (OPAL_ERR_UNPACK_READ_PAST_END_OF_BUFFER, None, b) else f b) bs v.
Proof.
  intros -> [R S]. split; intros b k Hsz Hb E; rewrite (too_small_spec desc), u64_small by (done || lia).
  - destruct (Z.ltb_spec (Z.of_nat (length (unread b))) (Z.of_nat (length bs))); [|eauto].
    rewrite E, length_app in *. lia.
  - intros Hc. destruct (Z.ltb_spec (Z.of_nat (length (unread b))) (Z.of_nat (length bs)));
      [by eexists|eauto].
Qed.

(** ** Primitive readers *)
Lemma codec_bytes desc bs n :
  n = Z.of_nat (length bs) -> codec desc (fun b => get_bytes b (u64 n)) bs bs.
Proof.
  intros ->.
  split; intros b k Hsz Hb E; unfold get_bytes; rewrite (too_small_spec desc), u64_small by (done || lia).
  - destruct (Z.ltb_spec (Z.of_nat (length (unread b))) (Z.of_nat (length bs)));
      [rewrite E, length_app in *; lia|].
    fold (unread b). rewrite E, Nat2Z.id, take_app_length. done.
  - intros Hc. destruct (Z.ltb_spec (Z.of_nat (length (unread b))) (Z.of_nat (length bs)));
      [by eexists|].
    subst bs. rewrite length_app in *. destruct k; [done|]. simpl in *. lia.
Qed.

Lemma codec_ints desc w l n :
  n = Z.of_nat (length l) -> Forall (fits w) l ->
  codec desc (fun b => get_ints w b n) (l ≫= be w) l.
Proof.
  intros -> Hl. unfold get_ints. rewrite <- (app_nil_r (l ≫= be w)).
  eapply codec_then; [apply codec_bytes; rewrite bind_be_length; lia|]. cbn beta.
  rewrite Nat2Z.id, be_groups by done. apply codec_ret.
Qed.

Lemma codec_len desc n :
  0 <= n <= INT_MAX -> codec desc unpack_len (be 4 n) n.
Proof.
  intros Hn. unfold unpack_len. rewrite <- (app_nil_r (be 4 n)), <- (bind_one (be 4)).
  eapply codec_then; [apply codec_ints; [done|]|].
  - apply Forall_singleton. unfold fits, INT_MAX in *. lia.
  - cbn beta iota. rewrite i32_small by (unfold INT_MIN, INT_MAX in *; lia). apply codec_ret.
Qed.

Section Unpack.
Context (malloc_ok : Z -> bool) (registered : Z -> bool).
Context (other_unpack : Z -> opal_buffer_t -> Z -> Z * option dss_data * opal_buffer_t).
Hypothesis Hmalloc : forall n, malloc_ok n = true.

Abbreviation real_ok := (real_ok registered).
Abbreviation type_ok := (type_ok registered).
Abbreviation item_ok := (item_ok registered).
Abbreviation enc_buffer := (enc_buffer registered).
Abbreviation enc_item := (enc_item registered).
Abbreviation unpack_leaf' := (unpack_leaf malloc_ok).
Abbreviation unpack_real' := (unpack_real malloc_ok registered).
Abbreviation unpack_native' := (unpack_native malloc_ok registered).
Abbreviation opal_dss_unpack_buffer' := (opal_dss_unpack_buffer malloc_ok registered other_unpack).
Abbreviation opal_dss_unpack' := (opal_dss_unpack malloc_ok registered other_unpack).

(** What comes back: strings end at their terminator. *)
Definition canon (d : dss_data) : dss_data :=
  match d with DStr l => DStr ((fun s => option_map trim s) <$> l) | _ => d end.

Lemma codec_string desc s :
  string_ok s -> codec desc (unpack_one_string malloc_ok) (enc_string s) (option_map trim s).
Proof.
  unfold unpack_one_string. destruct s as [a|]; unfold enc_string; cbn [option_map].
  - intros (n & E & Hn). rewrite (trim_length a n E). unfold INT_MAX in *.
    eapply codec_then; [apply codec_len; unfold INT_MAX; lia|]. cbn beta.
    rewrite Hmalloc. destruct (Z.eqb_spec (Z.of_nat (S n)) 0); [lia|]. cbv [negb].
    rewrite <- (app_nil_r (trim a)) at 1. eapply codec_then; [|apply codec_ret].
    apply codec_bytes. by rewrite (trim_length a n E).
  - intros _. rewrite <- (app_nil_r (be 4 0)).
    eapply codec_then; [apply codec_len; unfold INT_MAX; lia|]. apply codec_ret.
Qed.

Lemma codec_bo desc bo :
  Z.of_nat (length bo) <= INT_MAX ->
  codec desc (fun b =>
    if negb (malloc_ok 16) then (OPAL_ERR_OUT_OF_RESOURCE, None, b)
    else unpack_then (unpack_len b) (fun size b =>
      if 0 <? size then
        if negb (malloc_ok size) then (OPAL_ERR_OUT_OF_RESOURCE, None, b)
        else opal_dss_unpack_byte b size
      else (OPAL_SUCCESS, Some [], b))) (enc_bo bo) bo.
Proof.
  intros Hn. rewrite Hmalloc. simpl.
  eapply codec_then; [apply codec_len; lia|]. cbn beta.
  destruct (Z.ltb_spec 0 (Z.of_nat (length bo))); [rewrite Hmalloc; by apply codec_bytes|].
  destruct bo; [apply codec_ret|simpl in *; lia].
Qed.

Lemma codec_timeval desc tv :
  fits 8 tv.1 -> fits 8 tv.2 ->
  codec desc (fun b => unpack_then (opal_dss_unpack_int64 b 2) (fun l b =>
    match l with [s; u] => (OPAL_SUCCESS, Some (s, u), b) | _ => (OPAL_ERROR, None, b) end))
    (enc_timeval tv) tv.
Proof.
  intros. destruct tv as [s u]; cbn [fst snd] in *. unfold enc_timeval; cbn [fst snd].
  assert (be 8 s ++ be 8 u = ([s; u] ≫= be 8) ++ []) as ->.
  { by rewrite app_nil_r, <- (bind_one (be 8) u). }
  eapply codec_then; [apply (codec_ints _ 8 [s; u]); [done|]|apply codec_ret].
  by rewrite ?Forall_cons, Forall_nil.
Qed.

Lemma codec_time desc t :
  fits 8 t ->
  codec desc (fun b => unpack_then (opal_dss_unpack_int64 b 1) (fun l b =>
    match l with [t] => (OPAL_SUCCESS, Some t, b) | _ => (OPAL_ERROR, None, b) end)) (be 8 t) t.
Proof.
  intros. rewrite <- (app_nil_r (be 8 t)), <- (bind_one (be 8) t).
  eapply codec_then; [apply (codec_ints _ 8 [t]); [done|]|apply codec_ret].
  by rewrite ?Forall_cons, Forall_nil.
Qed.

Lemma codec_leaf desc h d n :
  leaf_ok h d -> n = Z.of_nat (data_length d) ->
  codec desc (fun b => unpack_leaf' b h n) (enc_leaf d) (canon d).
Proof.
  destruct h, d; intros Hok ->; try (by destruct Hok); simpl in *; apply codec_umap.
  - by apply codec_bytes.
  - by apply codec_bytes.
  - by apply codec_ints.
  - by apply codec_ints.
  - by apply codec_ints.
  - unfold opal_dss_unpack_string. rewrite Nat2Z.id. apply codec_each.
    intros s Hs. apply codec_string. by eapply Forall_forall in Hok.
  - unfold opal_dss_unpack_timeval. rewrite Nat2Z.id. apply codec_check.
    { clear Hok. induction l as [|x l IH]; [done|]. rewrite bind_cons, length_app.
      unfold enc_timeval at 1. rewrite length_app, !be_length. cbn [length]. lia. }
    apply codec_each_id. intros x Hx. eapply Forall_forall in Hok as []; [|done].
    by apply codec_timeval.
  - unfold opal_dss_unpack_time. rewrite Nat2Z.id. apply codec_check.
    { rewrite bind_be_length. lia. }
    apply codec_each_id. intros x Hx. eapply Forall_forall in Hok; [|done]. by apply codec_time.
  - unfold opal_dss_unpack_byte_object. rewrite Nat2Z.id. apply codec_each_id.
    intros x Hx. eapply Forall_forall in Hok; [|done]. by apply codec_bo.
Qed.

Lemma codec_type desc t : codec desc (opal_dss_get_data_type registered) [t] t.
Proof.
  change (codec desc (fun b => unpack_then (get_bytes b (u64 1)) (fun l b =>
    match l with [t] => (OPAL_SUCCESS, Some t, b) | _ => (OPAL_ERROR, None, b) end)) ([t] ++ []) t).
  eapply codec_then; [by apply codec_bytes|apply codec_ret].
Qed.

Lemma codec_check_type {A} desc type err (k : opal_buffer_t -> unpacked A) bs v :
  codec desc k bs v -> codec desc (fun b => check_type registered b type err k) (tag desc type ++ bs) v.
Proof.
  intros Hk. eapply codec_ext; [intros b [Hd _]; unfold check_type; rewrite Hd; reflexivity|].
  destruct desc; [|done]. eapply (codec_then _ _ _ [type]); [apply codec_type|].
  cbn beta. by rewrite Z.eqb_refl.
Qed.

Lemma codec_real desc real d n :
  real_ok real d -> n = Z.of_nat (data_length d) ->
  codec desc (fun b => unpack_real' b n real) (enc_real desc real d) (canon d).
Proof.
  intros Hok Hn. apply codec_check_type. unfold DssFormat.real_ok in Hok.
  destruct (opal_dss_types registered real); [|done]. by apply codec_leaf.
Qed.

Lemma peek_type_spec b :
  readable true b ->
  opal_dss_peek_type registered b =
  match unread b with
  | [] => (OPAL_ERR_UNPACK_READ_PAST_END_OF_BUFFER, OPAL_UNDEF)
  | t :: _ => (OPAL_SUCCESS, t)
  end.
Proof.
  intros Hb. pose proof Hb as [Hd Hu]. unfold opal_dss_peek_type. rewrite Hd. simpl negb. cbv iota.
  destruct (unread b) as [|t rest] eqn:E.
  - apply (f_equal length) in E. unfold unread in E. rewrite length_drop in E. simpl in E.
    by destruct (Nat.leb_spec (length (b_data b)) (b_unpack b)); [|lia].
  - rewrite (codec_reads _ _ _ _ (codec_type true t) b rest); simpl; try done.
    apply (f_equal length) in E. unfold unread in E. rewrite length_drop in E. simpl in E.
    by destruct (Nat.leb_spec (length (b_data b)) (b_unpack b)); [lia|].
Qed.

Lemma codec_native desc is_bool real d n :
  real_ok real d -> n = Z.of_nat (data_length d) ->
  codec desc (fun b => unpack_native' b is_bool n real)
    (tag (negb desc) real ++ enc_real desc real d) (canon d).
Proof.
  intros Hok Hn. pose proof (codec_real desc real d n Hok Hn) as Hr.
  destruct desc; simpl tag.
  - unfold enc_real in *. simpl in *.
    split; intros b r Hsz Hb E; unfold unpack_native; pose proof Hb as [-> _];
      rewrite peek_type_spec by done.
    + rewrite E. simpl. rewrite Z.eqb_refl. by apply (codec_reads _ _ _ _ Hr b r).
    + intros Hc. destruct (unread b) as [|t rest] eqn:Eu; [by eexists|].
      injection E as -> E. simpl. rewrite Z.eqb_refl.
      apply (codec_short _ _ _ _ Hr b r); try done. rewrite Eu. simpl. by rewrite E.
  - eapply codec_ext; [intros b [Hd _]; unfold unpack_native; rewrite Hd; reflexivity|].
    eapply codec_then; [apply codec_type|]. cbn beta. by rewrite Z.eqb_refl.
Qed.

Lemma zip_fst_snd {A B} (l : list (A * B)) : zip l.*1 l.*2 = l.
Proof. induction l as [|[] l IH]; csimpl; [done|]. by rewrite IH. Qed.

Lemma codec_buffer desc type d n :
  type_ok type d -> n = Z.of_nat (data_length d) ->
  codec desc (fun b => opal_dss_unpack_buffer' b n type) (enc_buffer desc type d) (canon d).
Proof.
  intros Hok Hn. apply codec_check_type. unfold DssFormat.type_ok in Hok.
  destruct (opal_dss_types registered type) as [[]|] eqn:Et; try done;
    try (by apply codec_leaf).
  - by apply codec_native.
  - by apply codec_real.
  - destruct d; try done. apply name_arrays_ok with (registered := registered) in Hok as [H1 H2].
    unfold opal_dss_unpack_name. rewrite !Hmalloc. simpl negb. cbv iota.
    eapply codec_then; [apply codec_real; [done|]; simpl in *; by rewrite length_fmap|].
    cbn beta. rewrite <- (app_nil_r (enc_real _ _ (D32 l.*2))).
    eapply codec_then; [apply codec_real; [done|]; simpl in *; by rewrite length_fmap|].
    simpl. rewrite zip_fst_snd. apply codec_ret.
Qed.

Lemma codec_item desc it room :
  item_ok it -> 0 < room -> Z.of_nat (data_length it.1) <= room ->
  codec desc (fun b => opal_dss_unpack' b room it.2) (enc_item desc it) (canon it.1).
Proof.
  intros [Hlen Hok] H0 Hroom. unfold opal_dss_unpack.
  destruct (Z.eqb_spec room 0); [lia|]. apply codec_check_type.
  eapply codec_then; [apply (codec_len desc (Z.of_nat (data_length it.1))); lia|]. cbn beta.
  destruct (Z.ltb_spec room (Z.of_nat (data_length it.1))); [lia|].
  apply codec_status. by apply codec_buffer.
Qed.
End Unpack.
