(* ===== verification/DssValue.v ===== *)
(** * Packing of key-value pairs ([opal_dss_pack_value], [opal_dss_unpack_value])

    An [opal_value_t] is a key, a type code and a union.  The union is a
    [dss_data]: one element for the scalar types and for byte objects, the
    elements behind the pointer for the array types.  These are the functions
    registered for [OPAL_VALUE].

    The receiver's values come from [opal_value_construct], which zeroes the
    union: the pointer of an array is NULL when [opal_dss_unpack_value] hands
    it to [opal_dss_unpack_buffer] as the destination. *)

From S2P Require Import Prelude CString Dss DssFormat DssRoundtrip.
From stdpp Require Import base strings numbers list sets.
From Stdlib Require Import ZArith Lia.

Open Scope Z_scope.

Definition OPAL_FLOAT : Z := 16.
Definition OPAL_DOUBLE : Z := 17.
Definition OPAL_PTR : Z := 28.

Record opal_value_t : Type := MkValue {
  v_key : option (list Z);
  v_type : Z;
  v_data : dss_data
}.

(** The cases of the switch that pack the field as one value of its type. *)
Definition scalar_type (type : Z) : bool :=
  bool_decide (type ∈ [OPAL_BOOL; OPAL_BYTE; OPAL_STRING; OPAL_SIZE; OPAL_PID; OPAL_INT;
    OPAL_INT8; OPAL_INT16; OPAL_INT32; OPAL_INT64; OPAL_UINT; OPAL_UINT8; OPAL_UINT16;
    OPAL_UINT32; OPAL_UINT64; OPAL_FLOAT; OPAL_DOUBLE; OPAL_TIMEVAL; OPAL_NAME]).

(** The cases for arrays, with the type of their elements. *)
Definition array_elem (type : Z) : option Z :=
  match type with
  | 31 => Some OPAL_FLOAT
  | 32 => Some OPAL_DOUBLE
  | 33 => Some OPAL_STRING
  | 34 => Some OPAL_BOOL
  | 35 => Some OPAL_SIZE
  | 36 => Some OPAL_BYTE
  | 37 => Some OPAL_INT
  | 38 => Some OPAL_INT8
  | 39 => Some OPAL_INT16
  | 40 => Some OPAL_INT32
  | 41 => Some OPAL_INT64
  | 42 => Some OPAL_UINT
  | 43 => Some OPAL_UINT8
  | 44 => Some OPAL_UINT16
  | 45 => Some OPAL_UINT32
  | 46 => Some OPAL_UINT64
  | 48 => Some OPAL_PID
  | 49 => Some OPAL_TIMEVAL
  | _ => None
  end.

(** Sequencing of unpacking steps that may have undefined behaviour. *)
Definition unpack_bind {A B} (m : outcome (unpacked A))
    (k : A -> opal_buffer_t -> outcome (unpacked B)) : outcome (unpacked B) :=
  r ← m;
  match r with
  | (rc, Some a, b) => if rc =? OPAL_SUCCESS then k a b else Ret (rc, None, b)
  | (rc, None, b) => Ret (rc, None, b)
  end.

Section Value.
Variable malloc_ok : Z -> bool.
Variables opal_dss_initial_size opal_dss_threshold_size : Z.
Variable registered : Z -> bool.
Variable other_pack : Z -> opal_buffer_t -> dss_data -> outcome (Z * opal_buffer_t).
Variable other_unpack : Z -> opal_buffer_t -> Z -> Z * option dss_data * opal_buffer_t.
Variable sizeof_opal_value_t : Z.

Abbreviation opal_dss_pack_buffer' :=
  (opal_dss_pack_buffer malloc_ok opal_dss_initial_size opal_dss_threshold_size registered other_pack).
Abbreviation opal_dss_unpack_buffer' := (opal_dss_unpack_buffer malloc_ok registered other_unpack).
Abbreviation pack_int32' := (opal_dss_pack_int32 malloc_ok opal_dss_initial_size opal_dss_threshold_size).
Abbreviation pack_byte' := (opal_dss_pack_byte malloc_ok opal_dss_initial_size opal_dss_threshold_size).

Definition opal_dss_pack_data_type (b : opal_buffer_t) (src : list Z) : outcome (Z * opal_buffer_t) :=
  opal_dss_pack_buffer' b (D8 src) OPAL_DATA_TYPE_T.

Definition opal_dss_unpack_data_type (b : opal_buffer_t) (num_vals : Z) : unpacked dss_data :=
  opal_dss_unpack_buffer' b num_vals OPAL_DATA_TYPE_T.

(** The switch on the type. *)
Definition pack_field (b : opal_buffer_t) (type : Z) (data : dss_data) : outcome (Z * opal_buffer_t) :=
  if scalar_type type then opal_dss_pack_buffer' b data type
  else if type =? OPAL_BYTE_OBJECT then
    match data with
    | DBo [bo] =>
      let n := i32 (Z.of_nat (length bo)) in
      pack_then (pack_int32' b [u32 n])
        (fun b => if 0 <? n then pack_byte' b bo n else Ret (OPAL_SUCCESS, b))
    | _ => Ub
    end
  else if type =? OPAL_PTR then Ret (OPAL_SUCCESS, b)
  else
    match array_elem type with
    | Some elem =>
      pack_then (opal_dss_pack_buffer' b (D32 [u32 (Z.of_nat (data_length data))]) OPAL_INT32)
        (fun b => opal_dss_pack_buffer' b data elem)
    | None => Ret (OPAL_ERROR, b)
    end.

Definition pack_one_value (b : opal_buffer_t) (v : opal_value_t) : outcome (Z * opal_buffer_t) :=
  pack_then (opal_dss_pack_string malloc_ok opal_dss_initial_size opal_dss_threshold_size b [v_key v])
    (fun b => pack_then (opal_dss_pack_data_type b [v_type v])
      (fun b => pack_field b (v_type v) (v_data v))).

Definition opal_dss_pack_value (b : opal_buffer_t) (src : list opal_value_t)
    : outcome (Z * opal_buffer_t) := pack_each pack_one_value b src.

(** [opal_dss_unpack_buffer] with a NULL destination and [n] values: the first
    value stored is a write through NULL.  Fixed-size values are stored only
    after the size check; strings one by one.  Sender and receiver agree on
    the width of native types. *)
Definition unpack_to_null (b : opal_buffer_t) (n elem : Z) : outcome (unpacked dss_data) :=
  let '(rc, o, b') := opal_dss_unpack_buffer' b n elem in
  if n <=? 0 then Ret (rc, o, b')
  else if rc =? OPAL_SUCCESS then Ub
  else if (elem =? OPAL_STRING) && ((opal_dss_unpack_buffer' b 1 elem).1.1 =? OPAL_SUCCESS) then Ub
  else Ret (rc, o, b').

Definition unpack_field (b : opal_buffer_t) (type : Z) : outcome (unpacked dss_data) :=
  if scalar_type type then Ret (opal_dss_unpack_buffer' b 1 type)
  else if type =? OPAL_BYTE_OBJECT then
    Ret (unpack_then (unpack_len b) (fun size b =>
      if 0 <? size then
        if negb (malloc_ok size) then (OPAL_ERR_OUT_OF_RESOURCE, None, b)
        else umap (fun bo => DBo [bo]) (opal_dss_unpack_byte b size)
      else (OPAL_SUCCESS, Some (DBo [[]]), b)))
  else
    match array_elem type with
    | Some elem =>
      unpack_bind (Ret (opal_dss_unpack_buffer' b 1 OPAL_INT32)) (fun d b =>
        match d with
        | D32 [size] => unpack_to_null b (i32 size) elem
        | _ => Ret (OPAL_ERROR, None, b)
        end)
    | None => Ret (OPAL_ERROR, None, b)
    end.

Definition unpack_one_value (b : opal_buffer_t) : outcome (unpacked opal_value_t) :=
  if negb (malloc_ok sizeof_opal_value_t) then Ret (OPAL_ERR_OUT_OF_RESOURCE, None, b)
  else
    unpack_bind (Ret (opal_dss_unpack_string malloc_ok b 1)) (fun keys b =>
    unpack_bind (Ret (opal_dss_unpack_data_type b 1)) (fun types b =>
      match keys, types with
      | [key], D8 [type] =>
        unpack_bind (unpack_field b type) (fun data b =>
          Ret (OPAL_SUCCESS, Some (MkValue key type data), b))
      | _, _ => Ret (OPAL_ERROR, None, b)
      end)).

Fixpoint unpack_values (n : nat) (b : opal_buffer_t) : outcome (unpacked (list opal_value_t)) :=
  match n with
  | O => Ret (OPAL_SUCCESS, Some [], b)
  | S n' =>
    unpack_bind (unpack_one_value b) (fun v b =>
    unpack_bind (unpack_values n' b) (fun l b => Ret (OPAL_SUCCESS, Some (v :: l), b)))
  end.

Definition opal_dss_unpack_value (b : opal_buffer_t) (num_vals : Z)
    : outcome (unpacked (list opal_value_t)) := unpack_values (Z.to_nat num_vals) b.

End Value.

(** ** Unpacking steps that may have undefined behaviour *)
Definition reads {A} (desc : bool) (f : opal_buffer_t -> outcome (unpacked A)) (bs : list Z) (v : A)
    : Prop :=
  forall b rest, Z.of_nat (length bs) < 2 ^ 62 -> readable desc b -> unread b = bs ++ rest ->
  f b = Ret (OPAL_SUCCESS, Some v, advance b (length bs)).

Lemma reads_codec {A} desc (f : opal_buffer_t -> unpacked A) bs v :
  codec desc f bs v -> reads desc (fun b => Ret (f b)) bs v.
Proof. intros H b rest Hsz Hb E. by rewrite (codec_reads _ _ _ _ H b rest). Qed.

Lemma reads_bind {A B} desc f (k : A -> opal_buffer_t -> outcome (unpacked B)) bs1 bs2 a v :
  reads desc f bs1 a -> reads desc (k a) bs2 v ->
  reads desc (fun b => unpack_bind (f b) k) (bs1 ++ bs2) v.
Proof.
  intros H1 H2 b rest Hsz Hb E. rewrite length_app in Hsz. rewrite <- app_assoc in E.
  unfold unpack_bind. rewrite (H1 b (bs2 ++ rest)) by (done || lia). rewrite bind_Ret, Z.eqb_refl.
  rewrite (H2 _ rest); [by rewrite advance_advance, length_app|lia|by eapply readable_advance|].
  by eapply unread_advance.
Qed.

Lemma reads_ret {A} desc (v : A) : reads desc (fun b => Ret (OPAL_SUCCESS, Some v, b)) [] v.
Proof. intros b rest _ _ _. by rewrite advance_0. Qed.

Section ValueProps.
Context (malloc_ok : Z -> bool) (initial threshold : Z) (registered : Z -> bool).
Context (other_pack : Z -> opal_buffer_t -> dss_data -> outcome (Z * opal_buffer_t)).
Context (other_unpack : Z -> opal_buffer_t -> Z -> Z * option dss_data * opal_buffer_t).
Context (sizeof_opal_value_t : Z).
Hypothesis Hmalloc : forall n, malloc_ok n = true.
Hypothesis Hinitial : 0 < initial < 2 ^ 31.
Hypothesis Hthreshold : 0 < threshold < 2 ^ 31.

Abbreviation pack_value' := (opal_dss_pack_value malloc_ok initial threshold registered other_pack).
Abbreviation unpack_value' :=
  (opal_dss_unpack_value malloc_ok registered other_unpack sizeof_opal_value_t).
Abbreviation unpack_one' := (unpack_one_value malloc_ok registered other_unpack sizeof_opal_value_t).
Abbreviation enc_buffer := (enc_buffer registered).

(** Values of the scalar types and byte objects. *)
Definition value_ok (v : opal_value_t) : Prop :=
  string_ok (v_key v) /\
  if scalar_type (v_type v)
  then type_ok registered (v_type v) (v_data v) /\ data_length (v_data v) = 1%nat
  else v_type v = OPAL_BYTE_OBJECT /\
       exists bo, v_data v = DBo [bo] /\ Z.of_nat (length bo) <= INT_MAX.

(** Array values. *)
Definition array_value_ok (v : opal_value_t) (elem : Z) : Prop :=
  string_ok (v_key v) /\ array_elem (v_type v) = Some elem /\
  type_ok registered elem (v_data v) /\ 0 < Z.of_nat (data_length (v_data v)) <= INT_MAX.

Definition canon_value (v : opal_value_t) : opal_value_t :=
  MkValue (option_map trim (v_key v)) (v_type v) (canon (v_data v)).

Definition enc_head (desc : bool) (v : opal_value_t) : list Z :=
  enc_string (v_key v) ++ enc_buffer desc OPAL_DATA_TYPE_T (D8 [v_type v]).

Definition enc_field (desc : bool) (v : opal_value_t) : list Z :=
  if scalar_type (v_type v) then enc_buffer desc (v_type v) (v_data v)
  else match array_elem (v_type v) with
  | Some elem =>
    enc_buffer desc OPAL_INT32 (D32 [Z.of_nat (data_length (v_data v))]) ++
    enc_buffer desc elem (v_data v)
  | None => enc_leaf (v_data v)
  end.

Definition enc_value (desc : bool) (v : opal_value_t) : list Z := enc_head desc v ++ enc_field desc v.

Lemma array_not_scalar type elem :
  array_elem type = Some elem -> scalar_type type = false /\ type <> OPAL_BYTE_OBJECT /\ type <> OPAL_PTR.
Proof.
  intros H. assert (31 <= type <= 49).
  { revert H. unfold array_elem. repeat (case_match; try done); lia. }
  repeat split; try (unfold OPAL_BYTE_OBJECT, OPAL_PTR; lia).
  unfold scalar_type. apply bool_decide_eq_false. intros Hin.
  repeat (apply elem_of_cons in Hin as [->|Hin]; [by vm_compute in H|]).
  by apply elem_of_nil in Hin.
Qed.

Lemma pack_field_packs b v :
  value_ok v \/ (exists elem, array_value_ok v elem) ->
  packs b (enc_field (b_desc b) v)
    (pack_field malloc_ok initial threshold registered other_pack b (v_type v) (v_data v)).
Proof.
  unfold enc_field, pack_field. intros [[_ Hok]|(elem & _ & He & Hok & Hlen)].
  - destruct (scalar_type (v_type v)); [by apply pack_buffer_packs; [..|apply Hok]|].
    destruct Hok as (-> & bo & -> & Hn). simpl. rewrite app_nil_r. by apply pack_bo_packs.
  - destruct (array_not_scalar _ _ He) as (-> & Hb & Hp).
    apply Z.eqb_neq in Hb as ->. apply Z.eqb_neq in Hp as ->. rewrite He.
    unfold u32. rewrite wrap_small by (unfold INT_MAX in Hlen; lia).
    apply packs_then; [apply pack_buffer_packs; auto|].
    + apply Forall_singleton. unfold fits. unfold INT_MAX in Hlen. lia.
    + intros b' <-. by apply pack_buffer_packs.
Qed.

Lemma pack_one_value_packs b v :
  value_ok v \/ (exists elem, array_value_ok v elem) ->
  packs b (enc_value (b_desc b) v)
    (pack_one_value malloc_ok initial threshold registered other_pack b v).
Proof.
  intros Hok. assert (Hkey : string_ok (v_key v)) by (destruct Hok as [[]|(? & [])]; done).
  unfold enc_value, enc_head, pack_one_value. rewrite <- app_assoc.
  apply packs_then; [|intros b1 E1; rewrite <- E1; apply packs_then].
  - rewrite <- bind_one. apply packs_each. intros b' s Hs _.
    apply list_elem_of_singleton in Hs as ->. by apply pack_one_string_packs.
  - by apply pack_buffer_packs.
  - intros b2 <-. by apply pack_field_packs.
Qed.

(** The key and the type come first; what follows depends on the type. *)
Lemma unpack_one_head desc b v rest :
  string_ok (v_key v) -> Z.of_nat (length (enc_head desc v)) < 2 ^ 62 -> readable desc b ->
  unread b = enc_head desc v ++ rest ->
  exists b2, b2 = advance b (length (enc_head desc v)) /\ readable desc b2 /\ unread b2 = rest /\
    unpack_one' b = unpack_bind (unpack_field malloc_ok registered other_unpack b2 (v_type v))
      (fun data b => Ret (OPAL_SUCCESS, Some (MkValue (option_map trim (v_key v)) (v_type v) data), b)).
Proof.
  intros Hkey Hsz Hb E. eexists; split; [done|].
  split; [by eapply readable_advance|]. split; [by eapply unread_advance|].
  unfold enc_head in *. rewrite length_app in Hsz. rewrite <- app_assoc in E.
  unfold unpack_one_value. rewrite Hmalloc. cbv [negb]. unfold unpack_bind at 1.
  assert (Hc : codec desc (fun b => opal_dss_unpack_string malloc_ok b 1) (enc_string (v_key v))
                 [option_map trim (v_key v)]).
  { pose proof (codec_each desc (unpack_one_string malloc_ok) enc_string (option_map trim) [v_key v])
      as H. rewrite bind_one in H. apply H. intros s Hs.
    apply list_elem_of_singleton in Hs as ->. by apply codec_string. }
  rewrite (codec_reads _ _ _ _ Hc b _ ltac:(lia) Hb E), bind_Ret, Z.eqb_refl.
  pose proof (readable_advance _ _ _ _ Hb E) as Hb1. apply unread_advance in E.
  unfold unpack_bind at 1. unfold opal_dss_unpack_data_type.
  rewrite (codec_reads _ _ _ _ (codec_buffer malloc_ok registered other_unpack Hmalloc desc
    OPAL_DATA_TYPE_T (D8 [v_type v]) 1 I eq_refl) _ _ ltac:(lia) Hb1 E), bind_Ret, Z.eqb_refl.
  cbn [canon]. by rewrite advance_advance, <- length_app.
Qed.

Lemma reads_field desc v :
  value_ok v ->
  reads desc (fun b => unpack_field malloc_ok registered other_unpack b (v_type v))
    (enc_field desc v) (canon (v_data v)).
Proof.
  intros [_ Hok]. unfold unpack_field, enc_field.
  destruct (scalar_type (v_type v)).
  - destruct Hok as [Hok H1]. apply reads_codec. apply codec_buffer; auto. by rewrite H1.
  - destruct Hok as (-> & bo & -> & Hn). simpl array_elem. cbv iota. rewrite Z.eqb_refl.
    apply reads_codec. unfold enc_leaf. rewrite bind_one. unfold enc_bo.
    eapply codec_then; [apply codec_len; lia|]. cbn beta.
    destruct (Z.ltb_spec 0 (Z.of_nat (length bo))).
    + rewrite Hmalloc. cbv [negb]. apply (codec_umap _ _ (fun bo => DBo [bo])). by apply codec_bytes.
    + destruct bo; [apply codec_ret|simpl in *; lia].
Qed.

Lemma reads_one desc v :
  value_ok v -> reads desc unpack_one' (enc_value desc v) (canon_value v).
Proof.
  intros Hok b rest Hsz Hb E. unfold enc_value in *. rewrite length_app in Hsz.
  rewrite <- app_assoc in E.
  destruct (unpack_one_head desc b v _ (proj1 Hok) ltac:(lia) Hb E) as (b2 & Eb & Hb2 & E2 & ->).
  unfold unpack_bind. rewrite (reads_field desc v Hok b2 rest ltac:(lia) Hb2 E2), bind_Ret, Z.eqb_refl.
  by rewrite Eb, advance_advance, <- length_app.
Qed.

Lemma reads_values desc l :
  Forall value_ok l ->
  reads desc (fun b => unpack_value' b (Z.of_nat (length l))) (l ≫= enc_value desc)
    (canon_value <$> l).
Proof.
  intros Hok. unfold opal_dss_unpack_value. rewrite Nat2Z.id.
  induction Hok as [|v l Hv Hok IH]; [apply reads_ret|].
  rewrite bind_cons. eapply reads_bind; [by apply reads_one|].
  rewrite <- (app_nil_r (l ≫= enc_value desc)). eapply reads_bind; [exact IH|apply reads_ret].
Qed.

(** Key-value pairs of the scalar types and byte objects survive the
    trip: packing any list of them succeeds, and unpacking as many values gives
    the same keys, types and data (strings up to their terminator) and
    consumes exactly what was packed. *)
Theorem dss_value_roundtrip b l :
  buf_ok b -> b_ptr b = true -> b_unpack b = length (b_data b) -> Forall value_ok l ->
  bytes_used b + Z.of_nat (length (l ≫= enc_value (b_desc b))) < 2 ^ 62 ->
  exists b' b'', pack_value' b l = Ret (OPAL_SUCCESS, b') /\
    unpack_value' b' (Z.of_nat (length l)) = Ret (OPAL_SUCCESS, Some (canon_value <$> l), b'') /\
    unread b'' = [].
Proof.
  intros Hb Hp Hu Hok Hsz.
  destruct (packs_each (pack_one_value malloc_ok initial threshold registered other_pack)
    (enc_value (b_desc b)) l b) as (b' & E & [Hok' _ Hd Hu' Hdata]); try done.
  { intros b1 v Hv <-. apply pack_one_value_packs. left. by eapply Forall_forall in Hok. }
  exists b'. eexists. split; [done|].
  assert (Hun : unread b' = (l ≫= enc_value (b_desc b)) ++ []).
  { unfold unread. by rewrite Hu', Hu, Hdata, drop_app_length, app_nil_r. }
  split; [|by eapply unread_advance].
  apply (reads_values (b_desc b) l Hok b' []); [unfold bytes_used in Hsz; lia| |done].
  split; [done|]. apply Hok'.
Qed.

Lemma unpack_array_ub desc b v elem :
  array_value_ok v elem -> Z.of_nat (length (enc_field desc v)) < 2 ^ 62 ->
  readable desc b -> unread b = enc_field desc v ->
  unpack_field malloc_ok registered other_unpack b (v_type v) = Ub.
Proof.
  intros (_ & He & Hty & Hlen) Hsz Hb E. unfold unpack_field, enc_field in *.
  destruct (array_not_scalar _ _ He) as (Hs & Hbo & _). rewrite Hs, He in *.
  apply Z.eqb_neq in Hbo as ->. rewrite length_app in Hsz. unfold unpack_bind.
  set (n := Z.of_nat (data_length (v_data v))) in *.
  assert (Hn : type_ok registered OPAL_INT32 (D32 [n])).
  { apply Forall_singleton. unfold fits, INT_MAX in *. lia. }
  rewrite (codec_reads _ _ _ _ (codec_buffer malloc_ok registered other_unpack Hmalloc desc
    OPAL_INT32 (D32 [n]) 1 Hn eq_refl) b _ ltac:(lia) Hb E), bind_Ret, Z.eqb_refl.
  pose proof (readable_advance _ _ _ _ Hb E) as Hb1. apply unread_advance in E.
  rewrite <- app_nil_r in E. cbn [canon]. rewrite i32_small by (unfold INT_MIN; lia).
  unfold unpack_to_null. rewrite (codec_reads _ _ _ _ (codec_buffer malloc_ok registered
    other_unpack Hmalloc desc elem (v_data v) n Hty eq_refl) _ _ ltac:(lia) Hb1 E).
  by destruct (Z.leb_spec n 0); [lia|].
Qed.

(** No array value with elements reaches its receiver: packing it
    succeeds, and unpacking what was packed writes through a NULL pointer,
    whatever the array type (floating-point arrays apart, which are not
    covered). *)
Theorem dss_value_array_ub b v elem :
  buf_ok b -> b_ptr b = true -> b_unpack b = length (b_data b) -> array_value_ok v elem ->
  bytes_used b + Z.of_nat (length (enc_value (b_desc b) v)) < 2 ^ 62 ->
  exists b', pack_value' b [v] = Ret (OPAL_SUCCESS, b') /\ unpack_value' b' 1 = Ub.
Proof.
  intros Hb Hp Hu Hok Hsz.
  destruct (packs_each (pack_one_value malloc_ok initial threshold registered other_pack)
    (enc_value (b_desc b)) [v] b) as (b' & E & [Hok' _ Hd Hu' Hdata]); try done.
  { intros b1 x Hx <-. apply list_elem_of_singleton in Hx as ->.
    apply pack_one_value_packs. right. by exists elem. }
  { by rewrite bind_one. }
  exists b'. split; [done|].
  assert (Hun : unread b' = enc_value (b_desc b) v).
  { unfold unread. by rewrite Hu', Hu, Hdata, drop_app_length, bind_one. }
  assert (Hrd : readable (b_desc b) b') by (split; [done|apply Hok']).
  change (unpack_value' b' 1) with (unpack_bind (unpack_one' b') (fun v b => unpack_bind
    (unpack_values malloc_ok registered other_unpack sizeof_opal_value_t 0 b)
    (fun l b => Ret (OPAL_SUCCESS, Some (v :: l), b)))).
  unfold enc_value in *. rewrite length_app in Hsz. unfold bytes_used in Hsz.
  destruct Hok as (Hkey & He & Hty & Hlen).
  destruct (unpack_one_head (b_desc b) b' v _ Hkey ltac:(lia) Hrd Hun) as (b2 & _ & Hb2 & E2 & ->).
  by rewrite (unpack_array_ub (b_desc b) b2 v elem) by (done || lia).
Qed.

(** A pointer value is packed without its data, and no receiver accepts it. *)
Theorem dss_value_ptr_rejected b v :
  buf_ok b -> b_ptr b = true -> b_unpack b = length (b_data b) ->
  string_ok (v_key v) -> v_type v = OPAL_PTR ->
  bytes_used b + Z.of_nat (length (enc_head (b_desc b) v)) < 2 ^ 62 ->
  exists b' b'', pack_value' b [v] = Ret (OPAL_SUCCESS, b') /\
    unpack_value' b' 1 = Ret (OPAL_ERROR, None, b'').
Proof.
  intros Hb Hp Hu Hkey Hty Hsz.
  assert (Hpk : forall b1, packs b1 (enc_head (b_desc b1) v)
            (pack_one_value malloc_ok initial threshold registered other_pack b1 v)).
  { intros b1. unfold pack_one_value, enc_head. rewrite Hty.
    apply packs_then.
    - rewrite <- bind_one. apply packs_each. intros b' s Hs _.
      apply list_elem_of_singleton in Hs as ->. by apply pack_one_string_packs.
    - intros b2 <-. rewrite <- (app_nil_r (enc_buffer _ _ _)).
      apply packs_then; [by apply pack_buffer_packs|]. intros. apply packs_ret. }
  destruct (packs_each (pack_one_value malloc_ok initial threshold registered other_pack)
    (enc_head (b_desc b)) [v] b) as (b' & E & [Hok' _ Hd Hu' Hdata]); try done.
  { intros b1 x Hx <-. apply list_elem_of_singleton in Hx as ->. apply Hpk. }
  { by rewrite bind_one. }
  assert (Hun : unread b' = enc_head (b_desc b) v ++ []).
  { unfold unread. by rewrite Hu', Hu, Hdata, drop_app_length, bind_one, app_nil_r. }
  assert (Hrd : readable (b_desc b) b') by (split; [done|apply Hok']).
  destruct (unpack_one_head (b_desc b) b' v [] Hkey) as (b2 & _ & _ & _ & E2); try done.
  { unfold bytes_used in Hsz. lia. }
  exists b', b2. split; [done|].
  change (unpack_value' b' 1) with (unpack_bind (unpack_one' b') (fun v b => unpack_bind
    (unpack_values malloc_ok registered other_unpack sizeof_opal_value_t 0 b)
    (fun l b => Ret (OPAL_SUCCESS, Some (v :: l), b)))).
  by rewrite E2, Hty.
Qed.
End ValueProps.

(** ** Instances of the theorems *)
Definition ready_buffer : opal_buffer_t := MkBuffer true true true 0 [] 0.
Definition fail_pack (_ : Z) (b : opal_buffer_t) (_ : dss_data) : outcome (Z * opal_buffer_t) :=
  Ret (OPAL_ERROR, b).
Definition fail_unpack (_ : Z) (b : opal_buffer_t) (_ : Z) : Z * option dss_data * opal_buffer_t :=
  (OPAL_ERROR, None, b).

Lemma ready_buffer_ok : buf_ok ready_buffer.
Proof. split; try done; cbn; lia. Qed.

Definition sample_values : list opal_value_t :=
  [ MkValue (Some [107; 0]) OPAL_INT (D32 [5]);
    MkValue None OPAL_STRING (DStr [Some [104; 105; 0; 1]]);
    MkValue (Some [111; 0]) OPAL_BYTE_OBJECT (DBo [[1; 2; 3]]) ].

Lemma dss_value_roundtrip_witness :
  exists b' b'', opal_dss_pack_value (fun _ => true) 128 1024 (fun _ => false) fail_pack
                   ready_buffer sample_values = Ret (OPAL_SUCCESS, b') /\
    opal_dss_unpack_value (fun _ => true) (fun _ => false) fail_unpack 64 b' 3 =
    Ret (OPAL_SUCCESS, Some
      [ MkValue (Some [107; 0]) OPAL_INT (D32 [5]);
        MkValue None OPAL_STRING (DStr [Some [104; 105; 0]]);
        MkValue (Some [111; 0]) OPAL_BYTE_OBJECT (DBo [[1; 2; 3]]) ], b'') /\
    unread b'' = [].
Proof.
  apply (dss_value_roundtrip (fun _ => true) 128 1024 (fun _ => false) fail_pack fail_unpack 64
           ltac:(done) ltac:(lia) ltac:(lia) ready_buffer sample_values ready_buffer_ok).
  - reflexivity.
  - reflexivity.
  - repeat constructor; cbn; try lia;
      first [ exists 1%nat; split; [done|unfold INT_MAX; lia]
            | exists 2%nat; split; [done|unfold INT_MAX; lia]
            | eexists; split; [done|cbn; unfold INT_MAX; lia] ].
  - vm_compute. reflexivity.
Defined.

Lemma dss_value_array_ub_witness :
  exists b', opal_dss_pack_value (fun _ => true) 128 1024 (fun _ => false) fail_pack ready_buffer
               [MkValue (Some [107; 0]) 40 (D32 [5])] = Ret (OPAL_SUCCESS, b') /\
    opal_dss_unpack_value (fun _ => true) (fun _ => false) fail_unpack 64 b' 1 = Ub.
Proof.
  apply (dss_value_array_ub (fun _ => true) 128 1024 (fun _ => false) fail_pack fail_unpack 64
           ltac:(done) ltac:(lia) ltac:(lia) ready_buffer
           (MkValue (Some [107; 0]) 40 (D32 [5])) OPAL_INT32 ready_buffer_ok).
  - reflexivity.
  - reflexivity.
  - split; [exists 1%nat; split; [done|unfold INT_MAX; lia]|].
    repeat constructor; cbn; try lia; unfold INT_MAX; lia.
  - vm_compute. reflexivity.
Defined.
