(* ===== verification/DssClaims.v ===== *)
(** * What the serialization layer guarantees

    End-to-end statements about [opal_dss_pack] and [opal_dss_unpack] over the
    format of [DssFormat]: a message survives the trip through pack, unload,
    load and unpack; a truncated message is reported; a described buffer
    identifies its contents; the behaviour when the receiver's array is too
    short; the copy of a payload.

    Hypotheses: allocations succeed, the two size parameters are positive
    [int]s, and a message that is unloaded and loaded has at most [2^31 - 1]
    bytes, because its length is an [int32_t]. *)

From S2P Require Import Prelude CString Dss DssFormat DssRoundtrip.
From stdpp Require Import base strings numbers list sets.
From Stdlib Require Import ZArith Lia.

Open Scope Z_scope.

(** ** Prefixes of an array *)
Definition data_take (k : nat) (d : dss_data) : dss_data :=
  match d with
  | D8 l => D8 (take k l)
  | D16 l => D16 (take k l)
  | D32 l => D32 (take k l)
  | D64 l => D64 (take k l)
  | DStr l => DStr (take k l)
  | DTv l => DTv (take k l)
  | DBo l => DBo (take k l)
  | DName l => DName (take k l)
  end.

Lemma data_take_length k d : (k <= data_length d)%nat -> data_length (data_take k d) = k.
Proof. destruct d; simpl; apply length_take_le. Qed.

Definition data_drop (k : nat) (d : dss_data) : dss_data :=
  match d with
  | D8 l => D8 (drop k l)
  | D16 l => D16 (drop k l)
  | D32 l => D32 (drop k l)
  | D64 l => D64 (drop k l)
  | DStr l => DStr (drop k l)
  | DTv l => DTv (drop k l)
  | DBo l => DBo (drop k l)
  | DName l => DName (drop k l)
  end.

Lemma enc_leaf_take k d :
  enc_leaf d = enc_leaf (data_take k d) ++ enc_leaf (data_drop k d).
Proof. destruct d; simpl; rewrite <- ?bind_app, ?take_drop; done. Qed.

Lemma leaf_ok_take k h d : leaf_ok h d -> leaf_ok h (data_take k d).
Proof.
  destruct h, d; simpl; try done; auto using Forall_take.
  intros Hl. rewrite Hl at 1. by rewrite take_replicate, length_take.
Qed.

Section Claims.
Context (malloc_ok : Z -> bool) (initial threshold : Z) (registered : Z -> bool).
Context (other_pack : Z -> opal_buffer_t -> dss_data -> outcome (Z * opal_buffer_t)).
Context (other_unpack : Z -> opal_buffer_t -> Z -> Z * option dss_data * opal_buffer_t).
Hypothesis Hmalloc : forall n, malloc_ok n = true.
Hypothesis Hinitial : 0 < initial < 2 ^ 31.
Hypothesis Hthreshold : 0 < threshold < 2 ^ 31.

Abbreviation opal_dss_pack' := (opal_dss_pack malloc_ok initial threshold registered other_pack).
Abbreviation pack_all' := (pack_all malloc_ok initial threshold registered other_pack).
Abbreviation opal_dss_unpack' := (opal_dss_unpack malloc_ok registered other_unpack).
Abbreviation item_ok := (item_ok registered).
Abbreviation type_ok := (type_ok registered).
Abbreviation enc_item := (enc_item registered).
Abbreviation enc_buffer := (enc_buffer registered).

(** Unpack a sequence of items, each with the room of its array and its type. *)
Fixpoint unpack_all (b : opal_buffer_t) (reqs : list (Z * Z)) : unpacked (list dss_data) :=
  match reqs with
  | [] => (OPAL_SUCCESS, Some [], b)
  | (room, type) :: reqs' =>
    unpack_then (opal_dss_unpack' b room type) (fun d b => umap (cons d) (unpack_all b reqs'))
  end.

Definition room_for (it : dss_data * Z) (room : Z) : Prop :=
  0 < room /\ Z.of_nat (data_length it.1) <= room.

Lemma codec_all desc items rooms :
  Forall item_ok items -> Forall2 room_for items rooms ->
  codec desc (fun b => unpack_all b (zip rooms items.*2)) (items ≫= enc_item desc)
    (canon <$> items.*1).
Proof.
  intros Hok Hr. induction Hr as [|it room items rooms [] Hr IH]; [apply codec_ret|].
  apply Forall_cons in Hok as [Hit Hok].
  rewrite bind_cons. eapply codec_then; [by apply codec_item|].
  apply (codec_umap _ _ (cons _)), IH, Hok.
Qed.

Lemma pack_fresh desc it items :
  Forall item_ok (it :: items) ->
  Z.of_nat (length ((it :: items) ≫= enc_item desc)) < 2 ^ 62 ->
  exists b, pack_all' (opal_buffer_construct desc) (it :: items) = Ret (OPAL_SUCCESS, b) /\
    after (opal_buffer_construct desc) ((it :: items) ≫= enc_item desc) b.
Proof.
  intros Hok Hsz.
  apply (pack_all_packs0 malloc_ok initial threshold registered other_pack Hmalloc Hinitial
           Hthreshold (opal_buffer_construct desc) it items Hok (buf_ok_construct desc) Hsz).
Qed.

Lemma pack_one_fresh desc it :
  item_ok it -> Z.of_nat (length (enc_item desc it)) < 2 ^ 62 ->
  exists b, opal_dss_pack' (opal_buffer_construct desc) it.1 it.2 = Ret (OPAL_SUCCESS, b) /\
    after (opal_buffer_construct desc) (enc_item desc it) b.
Proof.
  intros Hok Hsz.
  apply (opal_dss_pack_packs0 malloc_ok initial threshold registered other_pack Hmalloc Hinitial
           Hthreshold (opal_buffer_construct desc) it Hok (buf_ok_construct desc) Hsz).
Qed.

Lemma enc_item_nonempty desc it : enc_item desc it <> [].
Proof. unfold DssFormat.enc_item, tag. by destruct desc. Qed.

(** The buffer of a receiver that got the bytes [bs]: what [opal_dss_load] makes
    of them when their number is an [int32_t]. *)
Definition loaded (desc : bool) (bs : list Z) : opal_buffer_t :=
  MkBuffer desc true true (Z.of_nat (length bs)) bs 0.

Lemma load_loaded desc bs k :
  Z.of_nat (length bs) <= INT_MAX -> k = Z.of_nat (length bs) ->
  opal_dss_load (opal_buffer_construct desc) (Some bs) (i32 k) = Ret (OPAL_SUCCESS, loaded desc bs).
Proof.
  intros Hn ->. rewrite i32_small by (unfold INT_MIN; lia). unfold opal_dss_load, loaded. cbn [b_desc opal_buffer_construct].
  rewrite Z.ltb_irrefl, orb_false_r. destruct (Z.ltb_spec (Z.of_nat (length bs)) 0); [lia|].
  by rewrite take_ge by lia.
Qed.

(** The payload of a buffer with bytes in it, and its length. *)
Lemma unload_some b : b_base b = true -> b_data b <> [] ->
  opal_dss_unload b = (OPAL_SUCCESS, Some (b_data b), i32 (Z.of_nat (length (b_data b))), opal_buffer_construct (b_desc b)).
Proof.
  intros Hb Hd. unfold opal_dss_unload, bytes_used. rewrite Hb. cbn [negb orb].
  destruct (Z.eqb_spec (Z.of_nat (length (b_data b))) 0) as [E|]; [|done]. destruct Hd. apply nil_length_inv. lia.
Qed.

Lemma enc_items_nonempty desc it items : (it :: items) ≫= enc_item desc <> [].
Proof. rewrite bind_cons. intros [E _]%app_nil. by apply enc_item_nonempty in E. Qed.

Lemma loaded_readable desc bs : readable desc (loaded desc bs) /\ unread (loaded desc bs) = bs.
Proof. split; [split; [done|cbn; lia]|done]. Qed.

(** C3: a message survives the trip.  Items of any modelled types are
    packed into a fresh buffer, described or not, the payload is taken out of
    the buffer, loaded into a buffer of the receiver and unpacked with the same
    types into arrays with enough room: every call succeeds, the receiver has
    the sender's data (strings up to their terminator) and the buffer is
    exhausted.  The message has at most 2^31-1 bytes, the most the [int32_t]
    length of [opal_dss_unload] and [opal_dss_load] can count; allocation does
    not fail; floating-point values, which travel as rounded text, are not
    among the modelled types. *)
Theorem dss_message_roundtrip desc items rooms :
  Forall item_ok items -> Z.of_nat (length (items ≫= enc_item desc)) <= INT_MAX ->
  Forall2 room_for items rooms ->
  exists b payload len rb b',
    pack_all' (opal_buffer_construct desc) items = Ret (OPAL_SUCCESS, b) /\
    opal_dss_unload b = (OPAL_SUCCESS, payload, len, opal_buffer_construct desc) /\
    opal_dss_load (opal_buffer_construct desc) payload len = Ret (OPAL_SUCCESS, rb) /\
    unpack_all rb (zip rooms items.*2) = (OPAL_SUCCESS, Some (canon <$> items.*1), b') /\
    unread b' = [].
Proof.
  intros Hok Hsz Hr. pose proof (codec_all desc items rooms Hok Hr) as Hc.
  destruct items as [|it items].
  - inv Hr. by exists (opal_buffer_construct desc), None, 0, (opal_buffer_construct desc),
      (opal_buffer_construct desc).
  - assert (Z.of_nat (length ((it :: items) ≫= enc_item desc)) < 2 ^ 62) as Hsz' by (unfold INT_MAX in Hsz; lia).
    destruct (pack_fresh desc it items Hok Hsz') as (b & Eb & [[] Hp Hd Hu Hdata]).
    pose proof (enc_items_nonempty desc it items) as Hne.
    set (bs := (it :: items) ≫= enc_item desc) in *. simpl in Hd, Hdata.
    destruct (loaded_readable desc bs) as [Hrd Hun].
    exists b, (Some bs), (i32 (Z.of_nat (length bs))), (loaded desc bs), (advance (loaded desc bs) (length bs)).
    split; [done|]. split; [|split; [by apply load_loaded|split]].
    + rewrite unload_some by (rewrite ?Hdata; auto). by rewrite Hdata, Hd.
    + apply (codec_reads _ _ _ _ Hc _ []); auto. by rewrite app_nil_r.
    + apply unread_advance. by rewrite app_nil_r.
Qed.

(** C36: a truncated message is noticed.  A packed item of a modelled type (no
    floating-point values) of at most 2^31-1 bytes, the most [opal_dss_load] can
    be told of: whatever strict prefix of its bytes the receiver loads,
    described or not, loading succeeds and unpacking reports the end of the
    buffer and delivers nothing. *)
Theorem dss_truncation_detected desc it room :
  item_ok it -> Z.of_nat (length (enc_item desc it)) <= INT_MAX -> room_for it room ->
  exists b, opal_dss_pack' (opal_buffer_construct desc) it.1 it.2 = Ret (OPAL_SUCCESS, b) /\
    forall k, (k < length (b_data b))%nat -> exists rb b',
      opal_dss_load (opal_buffer_construct desc) (Some (take k (b_data b))) (i32 (Z.of_nat k)) = Ret (OPAL_SUCCESS, rb) /\
      opal_dss_unpack' rb room it.2 = (OPAL_ERR_UNPACK_READ_PAST_END_OF_BUFFER, None, b').
Proof.
  intros Hok Hsz [H0 Hroom]. destruct (pack_one_fresh desc it Hok) as (b & Eb & Haf); [unfold INT_MAX in Hsz; lia|].
  exists b. split; [done|]. rewrite (af_data _ _ _ Haf). simpl. intros k Hk.
  destruct (loaded_readable desc (take k (enc_item desc it))) as [Hrd Hun].
  enough (exists b', opal_dss_unpack' (loaded desc (take k (enc_item desc it))) room it.2 =
    (OPAL_ERR_UNPACK_READ_PAST_END_OF_BUFFER, None, b')) as [b' E].
  { exists (loaded desc (take k (enc_item desc it))), b'. split; [|exact E]. apply load_loaded; rewrite length_take; lia. }
  apply (codec_short _ _ _ _ (codec_item malloc_ok registered other_unpack Hmalloc desc it room
           Hok H0 Hroom) _ (drop k (enc_item desc it))); auto.
  - unfold INT_MAX in Hsz. lia.
  - by rewrite Hun, take_drop.
  - intros E. apply (f_equal length) in E. rewrite length_drop in E. simpl in E. lia.
Qed.

Lemma after_fresh desc bs b :
  after (opal_buffer_construct desc) bs b -> readable desc b /\ unread b = bs.
Proof.
  intros [[] ? Hd Hu Hdata]. unfold readable, unread. rewrite Hd, Hu, Hdata. cbn.
  split; [split; [done|lia]|done].
Qed.

(** The first bytes of a described item: the type of the count, the count, the
    type of the data. *)
Lemma described_item_head b it :
  item_ok it -> Z.of_nat (length (enc_item true it)) < 2 ^ 62 ->
  readable true b -> unread b = enc_item true it ->
  let n := Z.of_nat (data_length it.1) in
  exists b1, opal_dss_get_data_type registered b = (OPAL_SUCCESS, Some OPAL_INT32, b1) /\
  exists b2, unpack_len b1 = (OPAL_SUCCESS, Some n, b2) /\ b_desc b2 = true /\
  exists b3, opal_dss_get_data_type registered b2 = (OPAL_SUCCESS, Some it.2, b3).
Proof.
  intros [Hlen _] Hsz Hb E n.
  assert (Hshape : exists rest, unread b = [OPAL_INT32] ++ be 4 n ++ [it.2] ++ rest)
    by (rewrite E; by eexists).
  clear E. destruct Hshape as [rest E].
  eexists; split; [apply (codec_reads _ _ _ _ (codec_type registered true OPAL_INT32) b _
    ltac:(simpl; lia) Hb E)|].
  pose proof (readable_advance _ _ _ _ Hb E) as Hb1. apply unread_advance in E.
  eexists; split; [apply (codec_reads _ _ _ _ (codec_len true n ltac:(lia)) _ _
    ltac:(rewrite be_length; lia) Hb1 E)|].
  pose proof (readable_advance _ _ _ _ Hb1 E) as Hb2. apply unread_advance in E.
  split; [apply Hb2|].
  eexists. apply (codec_reads _ _ _ _ (codec_type registered true it.2) _ _
    ltac:(simpl; lia) Hb2 E).
Qed.

(** A fully described buffer identifies its contents.  [opal_dss_peek]
    tells the type and the number of values of the item packed first, and
    unpacking it as any other type, registered or not, is refused with
    [OPAL_ERR_PACK_MISMATCH] and delivers nothing; in a buffer that is not
    described [opal_dss_peek] answers that the type is unknown. *)
Theorem dss_described_contents it :
  item_ok it -> (forall desc, Z.of_nat (length (enc_item desc it)) < 2 ^ 62) ->
  (exists b, opal_dss_pack' (opal_buffer_construct true) it.1 it.2 = Ret (OPAL_SUCCESS, b) /\
    opal_dss_peek registered b = (OPAL_SUCCESS, it.2, Z.of_nat (data_length it.1)) /\
    forall type room, type <> it.2 -> 0 < room -> exists b',
      opal_dss_unpack' b room type = (OPAL_ERR_PACK_MISMATCH, None, b')) /\
  (exists b, opal_dss_pack' (opal_buffer_construct false) it.1 it.2 = Ret (OPAL_SUCCESS, b) /\
    opal_dss_peek registered b = (OPAL_ERR_UNKNOWN_DATA_TYPE, OPAL_UNDEF, 0)).
Proof.
  intros Hok Hsz.
  assert (Hleft : forall desc b, readable desc b -> unread b = enc_item desc it ->
            (length (b_data b) <=? b_unpack b)%nat = false).
  { intros desc b _ E. apply Nat.leb_gt. unfold unread in E.
    destruct (Nat.leb_spec (length (b_data b)) (b_unpack b)); [|done].
    rewrite drop_ge in E by done. by destruct (enc_item_nonempty desc it). }
  split.
  - destruct (pack_one_fresh true it Hok (Hsz true)) as (b & Eb & [Hb E]%after_fresh).
    exists b. split; [done|].
    destruct (described_item_head b it Hok (Hsz true) Hb E) as (b1 & E1 & b2 & E2 & D2 & b3 & E3).
    split.
    + unfold opal_dss_peek. rewrite (Hleft true b) by done. pose proof Hb as [-> _].
      cbv [negb]. rewrite E1, Z.eqb_refl. by rewrite E2, E3.
    + intros type room Hne Hroom. unfold opal_dss_unpack.
      destruct (Z.eqb_spec room 0); [lia|]. unfold check_type. pose proof Hb as [-> _].
      rewrite E1. cbv [unpack_then]. rewrite !Z.eqb_refl, E2, Z.eqb_refl.
      destruct (room <? _); unfold opal_dss_unpack_buffer, check_type; rewrite D2, E3;
        cbv [unpack_then]; rewrite Z.eqb_refl; (destruct (Z.eqb_spec it.2 type); [congruence|]); eauto.
  - destruct (pack_one_fresh false it Hok (Hsz false)) as (b & Eb & [Hb E]%after_fresh).
    exists b. split; [done|]. unfold opal_dss_peek. rewrite (Hleft false b) by done.
    by pose proof Hb as [-> _].
Qed.

(** ** Arrays longer than the receiver's *)

(** Past the count, [opal_dss_unpack] reads as many values as fit. *)
Lemma unpack_head desc b room type n rest :
  0 < room -> 0 <= n <= INT_MAX -> readable desc b ->
  unread b = (tag desc OPAL_INT32 ++ be 4 n) ++ rest ->
  exists b2, readable desc b2 /\ unread b2 = rest /\
    opal_dss_unpack' b room type =
    let '(local, ret) := if room <? n then (room, OPAL_ERR_UNPACK_INADEQUATE_SPACE)
                         else (n, OPAL_SUCCESS) in
    match opal_dss_unpack_buffer malloc_ok registered other_unpack b2 local type with
    | (rc, o, b) => if rc =? OPAL_SUCCESS then (ret, o, b) else (rc, None, b)
    end.
Proof.
  intros H0 Hn Hb E. set (hd := tag desc OPAL_INT32 ++ be 4 n) in *.
  exists (advance b (length hd)). split; [by eapply readable_advance|].
  split; [by eapply unread_advance|]. unfold opal_dss_unpack.
  destruct (Z.eqb_spec room 0); [lia|]. unfold check_type, hd, tag in *. pose proof Hb as [-> _].
  destruct desc; rewrite <- ?app_assoc in E.
  - rewrite (codec_reads _ _ _ _ (codec_type registered true OPAL_INT32) b _ ltac:(simpl; lia) Hb E).
    cbv [unpack_then]. rewrite !Z.eqb_refl. pose proof (readable_advance _ _ _ _ Hb E) as Hb1.
    apply unread_advance in E.
    rewrite (codec_reads _ _ _ _ (codec_len true n Hn) _ _ ltac:(rewrite be_length; lia) Hb1 E).
    by rewrite Z.eqb_refl, advance_advance, <- length_app.
  - rewrite (codec_reads _ _ _ _ (codec_len false n Hn) b rest ltac:(rewrite be_length; lia) Hb E).
    cbv [unpack_then]. by rewrite Z.eqb_refl.
Qed.

Definition plain_type (type : Z) : bool :=
  match opal_dss_types registered type with Some HName => false | _ => true end.

Lemma enc_buffer_take desc type k d :
  plain_type type = true ->
  enc_buffer desc type d = enc_buffer desc type (data_take k d) ++ enc_leaf (data_drop k d).
Proof.
  unfold plain_type, DssFormat.enc_buffer, enc_real. rewrite (enc_leaf_take k d).
  destruct (opal_dss_types registered type) as [[]|]; try done; intros _;
    by rewrite <- !app_assoc.
Qed.

Lemma type_ok_take type k d : plain_type type = true -> type_ok type d -> type_ok type (data_take k d).
Proof.
  unfold plain_type, DssFormat.type_ok, real_ok.
  destruct (opal_dss_types registered type) as [[]|]; try done; intros _; try apply leaf_ok_take;
    destruct (opal_dss_types registered real); try done; apply leaf_ok_take.
Qed.

(** When the receiver's array is too short, unpacking reports
    [OPAL_ERR_UNPACK_INADEQUATE_SPACE] and delivers exactly the first values
    that fit, for every type other than process names. *)
Theorem dss_short_array desc it room :
  item_ok it -> Z.of_nat (length (enc_item desc it)) < 2 ^ 62 -> plain_type it.2 = true ->
  (0 < room < data_length it.1)%nat ->
  exists b b', opal_dss_pack' (opal_buffer_construct desc) it.1 it.2 = Ret (OPAL_SUCCESS, b) /\
    opal_dss_unpack' b (Z.of_nat room) it.2 =
    (OPAL_ERR_UNPACK_INADEQUATE_SPACE, Some (canon (data_take room it.1)), b').
Proof.
  intros Hok Hsz Hpl Hroom. destruct (pack_one_fresh desc it Hok Hsz) as (b & Eb & Haf).
  apply after_fresh in Haf as [Hb E]. destruct Hok as [Hlen Hok].
  unfold DssFormat.enc_item in *. rewrite app_assoc, (enc_buffer_take _ _ room) in E by done.
  destruct (unpack_head desc b (Z.of_nat room) it.2 (Z.of_nat (data_length it.1)) _
              ltac:(lia) ltac:(lia) Hb E)
    as (b2 & Hb2 & E2 & Eu).
  rewrite !length_app in Hsz.
  exists b. eexists; split; [done|]. rewrite Eu.
  destruct (Z.ltb_spec (Z.of_nat room) (Z.of_nat (data_length it.1))); [|lia].
  erewrite (codec_reads _ _ _ _ (codec_buffer malloc_ok registered other_unpack Hmalloc desc it.2
    (data_take room it.1) (Z.of_nat room) (type_ok_take _ room _ Hpl Hok)
    ltac:(by rewrite data_take_length by lia)) b2 _ _ Hb2 E2).
  by rewrite Z.eqb_refl.
  Unshelve. rewrite (enc_buffer_take _ _ room _ Hpl), length_app in Hsz. lia.
Qed.

Definition names_of (l : list (Z * Z)) : list Z := l.*1 ++ l.*2.

Lemma names_of_zip (j v : list Z) : length j = length v -> names_of (zip j v) = j ++ v.
Proof. intros H. unfold names_of. by rewrite fst_zip, snd_zip by lia. Qed.

Lemma enc_names l :
  enc_buffer false OPAL_NAME (DName l) = names_of l ≫= be 4.
Proof. unfold names_of. by rewrite bind_app. Qed.

Definition name_ok (n : Z * Z) : Prop := fits 4 n.1 /\ fits 4 n.2.

(** The first [2 * room] numbers of a packed array of names, read as [room]
    names. *)
Lemma names_of_prefix (l : list (Z * Z)) room :
  (room < length l)%nat -> Forall name_ok l ->
  let l' := zip (take room l.*1) (take room (drop room (l.*1 ++ l.*2))) in
  names_of l = names_of l' ++ drop (room + room) (names_of l) /\
  length l' = room /\ Forall name_ok l'.
Proof.
  intros Hroom Hl l'. pose proof (length_fmap fst l) as H1. pose proof (length_fmap snd l) as H2.
  assert (Hj : length (take room l.*1) = room) by (rewrite length_take_le; lia).
  assert (Hv : length (take room (drop room (l.*1 ++ l.*2))) = room)
    by (rewrite length_take_le; rewrite ?length_drop, ?length_app; lia).
  assert (E : names_of l = names_of l' ++ drop (room + room) (names_of l)).
  { unfold l'. rewrite names_of_zip by lia. rewrite <- app_assoc, <- drop_drop.
    unfold names_of at 2. rewrite take_drop. unfold names_of.
    rewrite <- (take_app_le l.*1 l.*2 room) by lia. by rewrite take_drop. }
  split; [exact E|]. split; [unfold l'; rewrite length_zip; lia|].
  assert (Hfit : Forall (fits 4) (names_of l)).
  { apply Forall_app; split; apply Forall_fmap; (eapply Forall_imp; [|exact Hl]);
      by intros x []. }
  rewrite E in Hfit. apply Forall_app in Hfit as [[F1 F2]%Forall_app _].
  rewrite Forall_fmap in F1, F2.
  apply Forall_forall. intros x Hx.
  split; [exact (proj1 (Forall_forall _ _) F1 x Hx) | exact (proj1 (Forall_forall _ _) F2 x Hx)].
Qed.

(** Process names do not survive a too short array.  In a buffer that is
    not described, the job ids of all names precede all their vpids; a
    receiver with room for fewer names gets
    [OPAL_ERR_UNPACK_INADEQUATE_SPACE] as announced, but the vpids of what it
    gets are read from where the remaining job ids are. *)
Theorem dss_names_short_array (l : list (Z * Z)) room :
  Forall name_ok l -> Z.of_nat (length l) <= INT_MAX ->
  (0 < room < length l)%nat ->
  exists b b', opal_dss_pack' (opal_buffer_construct false) (DName l) OPAL_NAME
               = Ret (OPAL_SUCCESS, b) /\
    opal_dss_unpack' b (Z.of_nat room) OPAL_NAME =
    (OPAL_ERR_UNPACK_INADEQUATE_SPACE,
     Some (DName (zip (take room l.*1) (take room (drop room (l.*1 ++ l.*2))))), b').
Proof.
  intros Hl Hlen Hroom. unfold INT_MAX in Hlen.
  destruct (names_of_prefix l room) as (Esplit & Hlen' & Hl'); [lia|done|].
  set (l' := zip _ _) in *. set (it := (DName l, OPAL_NAME)).
  assert (Hok : item_ok it) by (split; [done|exact Hl]).
  assert (Hsz : Z.of_nat (length (enc_item false it)) < 2 ^ 62).
  { unfold DssFormat.enc_item, it. cbn [fst snd]. rewrite enc_names, length_app, length_app, bind_be_length.
    unfold names_of. rewrite length_app, !length_fmap, be_length. simpl. lia. }
  destruct (pack_one_fresh false it Hok Hsz) as (b & Eb & [Hb E]%after_fresh).
  unfold DssFormat.enc_item, it in E. cbn [fst snd] in E.
  rewrite enc_names, Esplit, bind_app, <- enc_names, app_assoc in E.
  destruct (unpack_head false b (Z.of_nat room) OPAL_NAME (Z.of_nat (length l)) _
              ltac:(lia) ltac:(unfold INT_MAX; lia) Hb E) as (b2 & Hb2 & E2 & Eu).
  exists b. eexists; split; [done|]. rewrite Eu.
  destruct (Z.ltb_spec (Z.of_nat room) (Z.of_nat (length l))); [|lia].
  erewrite (codec_reads _ _ _ _ (codec_buffer malloc_ok registered other_unpack Hmalloc false
    OPAL_NAME (DName l') (Z.of_nat room) Hl' ltac:(simpl; by rewrite Hlen')) b2 _ _ Hb2 E2).
  by rewrite Z.eqb_refl.
  Unshelve. rewrite enc_names, bind_be_length. unfold names_of.
  rewrite length_app, !length_fmap, Hlen'. lia.
Qed.

(** ** Copying a payload *)

(** [opal_dss_copy_payload] appends exactly the bytes the source has not
    unpacked yet and makes the destination's kind that of the source; a
    destination that already holds data of the other kind is refused and left
    as it was. *)
Theorem dss_copy_payload_correct dest src desc :
  buf_ok dest -> readable desc src -> Z.of_nat (length (unread src)) <= INT_MAX ->
  bytes_used dest + Z.of_nat (length (unread src)) < 2 ^ 62 ->
  if negb (bytes_used dest =? 0) && negb (Bool.eqb (b_desc dest) desc)
  then opal_dss_copy_payload malloc_ok initial threshold dest src = Ret (OPAL_ERR_BUFFER, dest)
  else exists dest',
    opal_dss_copy_payload malloc_ok initial threshold dest src = Ret (OPAL_SUCCESS, dest') /\
    buf_ok dest' /\ b_desc dest' = desc /\ b_unpack dest' = b_unpack dest /\
    b_data dest' = b_data dest ++ unread src.
Proof.
  intros Hdest [Hd Hu] Hlen Hsz. unfold opal_dss_copy_payload. rewrite Hd.
  destruct (_ && _); [done|]. fold (unread src).
  set (dest1 := MkBuffer desc _ _ _ _ _).
  assert (Hok1 : buf_ok dest1) by (destruct Hdest; split; auto).
  rewrite i32_small by (unfold INT_MIN, INT_MAX in *; lia).
  destruct (Z.eqb_spec (Z.of_nat (length (unread src))) 0) as [E|E].
  - exists dest1. destruct (unread src); [|simpl in E; lia]. by rewrite app_nil_r.
  - destruct (extend_spec malloc_ok initial threshold Hmalloc Hinitial Hthreshold dest1
      (Z.of_nat (length (unread src)))) as (b1 & -> & H1 & Hroom); auto; [lia|right; lia|].
    rewrite bind_Ret. cbv [negb].
    destruct (Z.ltb_spec (Z.of_nat (length (unread src))) 0); [lia|].
    rewrite take_ge by lia.
    destruct (after_put dest1 b1 (unread src) H1 Hroom) as [? ? Hd1 Hu1 Hdata].
    by eexists.
Qed.
End Claims.

(** ** Instances of the theorems *)
Definition no_pack (_ : Z) (b : opal_buffer_t) (_ : dss_data) : outcome (Z * opal_buffer_t) :=
  Ret (OPAL_ERROR, b).
Definition no_unpack (_ : Z) (b : opal_buffer_t) (_ : Z) : Z * option dss_data * opal_buffer_t :=
  (OPAL_ERROR, None, b).
Definition sample_items : list (dss_data * Z) :=
  [ (D32 [7; 4294967295], OPAL_INT);
    (DStr [Some [104; 105; 0; 99]; None], OPAL_STRING);
    (DName [(1, 2); (3, 4)], OPAL_NAME) ].

Abbreviation w_pack := (opal_dss_pack (fun _ => true) 128 1024 (fun _ => false) no_pack).
Abbreviation w_unpack := (opal_dss_unpack (fun _ => true) (fun _ => false) no_unpack).

Lemma sample_items_ok : Forall (item_ok (fun _ => false)) sample_items.
Proof.
  repeat constructor; cbn; try lia; try (unfold INT_MAX; lia).
  exists 2%nat. split; [done|unfold INT_MAX; lia].
Qed.

Lemma dss_message_roundtrip_witness :
  exists b payload len rb b',
    pack_all (fun _ => true) 128 1024 (fun _ => false) no_pack
      (opal_buffer_construct true) sample_items = Ret (OPAL_SUCCESS, b) /\
    opal_dss_unload b = (OPAL_SUCCESS, payload, len, opal_buffer_construct true) /\
    opal_dss_load (opal_buffer_construct true) payload len = Ret (OPAL_SUCCESS, rb) /\
    unpack_all (fun _ => true) (fun _ => false) no_unpack rb
      [(2, OPAL_INT); (5, OPAL_STRING); (2, OPAL_NAME)] =
    (OPAL_SUCCESS, Some [D32 [7; 4294967295]; DStr [Some [104; 105; 0]; None];
                         DName [(1, 2); (3, 4)]], b') /\
    unread b' = [].
Proof.
  apply (dss_message_roundtrip (fun _ => true) 128 1024 (fun _ => false) no_pack no_unpack
           ltac:(done) ltac:(lia) ltac:(lia) true sample_items [2; 5; 2] sample_items_ok).
  - vm_compute. discriminate.
  - repeat constructor; cbn; lia.
Defined.

Lemma dss_truncation_detected_witness :
  exists b, w_pack (opal_buffer_construct false) (D16 [1; 2]) OPAL_INT16 = Ret (OPAL_SUCCESS, b) /\
    forall k, (k < length (b_data b))%nat -> exists rb b',
      opal_dss_load (opal_buffer_construct false) (Some (take k (b_data b))) (i32 (Z.of_nat k)) = Ret (OPAL_SUCCESS, rb) /\
      w_unpack rb 2 OPAL_INT16 =
      (OPAL_ERR_UNPACK_READ_PAST_END_OF_BUFFER, None, b').
Proof.
  apply (dss_truncation_detected (fun _ => true) 128 1024 (fun _ => false) no_pack no_unpack
           ltac:(done) ltac:(lia) ltac:(lia) false (D16 [1; 2], OPAL_INT16) 2).
  - split; [vm_compute; discriminate|]. repeat constructor; cbn; lia.
  - vm_compute. discriminate.
  - split; cbn; lia.
Defined.

Lemma dss_described_contents_witness :
  (exists b, w_pack (opal_buffer_construct true) (D16 [1; 2]) OPAL_INT16 = Ret (OPAL_SUCCESS, b) /\
    opal_dss_peek (fun _ => false) b = (OPAL_SUCCESS, OPAL_INT16, 2) /\
    forall type room, type <> OPAL_INT16 -> 0 < room -> exists b',
      w_unpack b room type = (OPAL_ERR_PACK_MISMATCH, None, b')) /\
  (exists b, w_pack (opal_buffer_construct false) (D16 [1; 2]) OPAL_INT16 = Ret (OPAL_SUCCESS, b) /\
    opal_dss_peek (fun _ => false) b = (OPAL_ERR_UNKNOWN_DATA_TYPE, OPAL_UNDEF, 0)).
Proof.
  apply (dss_described_contents (fun _ => true) 128 1024 (fun _ => false) no_pack no_unpack
           ltac:(done) ltac:(lia) ltac:(lia) (D16 [1; 2], OPAL_INT16)).
  - split; [vm_compute; discriminate|]. repeat constructor; cbn; lia.
  - intros []; vm_compute; reflexivity.
Defined.

Lemma dss_short_array_witness :
  exists b b', w_pack (opal_buffer_construct true) (DStr [Some [65; 0]; Some [66; 0]; None]) OPAL_STRING
               = Ret (OPAL_SUCCESS, b) /\
    w_unpack b 2 OPAL_STRING =
    (OPAL_ERR_UNPACK_INADEQUATE_SPACE, Some (DStr [Some [65; 0]; Some [66; 0]]), b').
Proof.
  apply (dss_short_array (fun _ => true) 128 1024 (fun _ => false) no_pack no_unpack
           ltac:(done) ltac:(lia) ltac:(lia) true
           (DStr [Some [65; 0]; Some [66; 0]; None], OPAL_STRING) 2).
  - split; [vm_compute; discriminate|].
    repeat constructor; exists 1%nat; (split; [done|unfold INT_MAX; lia]).
  - vm_compute. reflexivity.
  - reflexivity.
  - cbn. lia.
Defined.

Lemma dss_names_short_array_witness :
  exists b b', w_pack (opal_buffer_construct false) (DName [(1, 2); (3, 4)]) OPAL_NAME
               = Ret (OPAL_SUCCESS, b) /\
    w_unpack b 1 OPAL_NAME = (OPAL_ERR_UNPACK_INADEQUATE_SPACE, Some (DName [(1, 3)]), b').
Proof.
  apply (dss_names_short_array (fun _ => true) 128 1024 (fun _ => false) no_pack no_unpack
           ltac:(done) ltac:(lia) ltac:(lia) [(1, 2); (3, 4)] 1).
  - repeat constructor; cbn; lia.
  - vm_compute. discriminate.
  - cbn. lia.
Defined.

Lemma dss_copy_payload_correct_witness :
  exists dest', opal_dss_copy_payload (fun _ => true) 128 1024 (opal_buffer_construct false)
                  (loaded true [1; 2; 3]) = Ret (OPAL_SUCCESS, dest') /\
    buf_ok dest' /\ b_desc dest' = true /\ b_unpack dest' = O /\ b_data dest' = [1; 2; 3].
Proof.
  apply (dss_copy_payload_correct (fun _ => true) 128 1024 ltac:(done) ltac:(lia) ltac:(lia)
           (opal_buffer_construct false) (loaded true [1; 2; 3]) true).
  - apply buf_ok_construct.
  - split; [done|cbn; lia].
  - vm_compute. discriminate.
  - vm_compute. reflexivity.
Defined.
