(* ===== verification/DssText.v ===== *)
(** * C strings and integers inside messages

    The serialization works on byte arrays and unsigned patterns; the
    components above it on C strings and signed integers.  This file holds the
    conversions between the two and that they lose nothing. *)

From S2P Require Import Prelude CString Dss DssFormat DssRoundtrip.
From stdpp Require Import base strings numbers list.
From Stdlib Require Import ZArith Lia Ascii.

Open Scope Z_scope.

(** The character array behind a [char *], and the string in one. *)
Definition c_array (s : option cstr) : option (list Z) := option_map (fun s => (char_Z <$> s) ++ [0]) s.
Definition of_c_array (a : option (list Z)) : option cstr :=
  option_map (fun a => (fun z => ascii_of_N (Z.to_N z)) <$>
    match c_strlen a with Some n => take n a | None => a end) a.

(** A C string that fits a length field. *)
Definition cstr_ok (s : option cstr) : Prop :=
  match s with
  | None => True
  | Some s => Forall (fun c => c <> zero) s /\ Z.of_nat (length s) < INT_MAX
  end.

Definition int32 (z : Z) : Prop := INT_MIN <= z <= INT_MAX.
Definition int64 (z : Z) : Prop := LONG_MIN <= z <= LONG_MAX.
Definition uint32 (z : Z) : Prop := fits 4 z.
(** ** Strings and integers *)
Lemma char_Z_zero c : char_Z c = 0 <-> c = zero.
Proof. split; [|by intros ->]. intros H. apply char_Z_inj. by rewrite H. Qed.

Lemma char_Z_back c : ascii_of_N (Z.to_N (char_Z c)) = c.
Proof. unfold char_Z. rewrite N2Z.id. apply ascii_N_embedding. Qed.

Lemma c_strlen_array s : Forall (fun c => c <> zero) s -> c_strlen ((char_Z <$> s) ++ [0]) = Some (length s).
Proof.
  intros Hs. unfold c_strlen. rewrite (find_index_app _ (char_Z <$> s) 0 []); [by rewrite length_fmap| |done].
  apply Forall_fmap. eapply Forall_imp; [|exact Hs]. intros c Hc. apply Z.eqb_neq. cbn.
  by rewrite char_Z_zero.
Qed.

Lemma c_array_ok s : cstr_ok s -> string_ok (c_array s).
Proof.
  destruct s as [s|]; cbn; [|done]. intros [Hs Hl]. exists (length s). by rewrite c_strlen_array.
Qed.

Lemma c_array_back s : cstr_ok s -> of_c_array (option_map trim (c_array s)) = s.
Proof.
  destruct s as [s|]; cbn [c_array option_map of_c_array]; [|done]. intros [Hs _].
  unfold trim. rewrite c_strlen_array by done.
  rewrite take_ge by (rewrite length_app, length_fmap; cbn; lia). rewrite c_strlen_array by done.
  rewrite take_app_length' by by rewrite length_fmap.
  f_equal. rewrite <- list_fmap_compose. rewrite <- (list_fmap_id s) at 2. apply list_fmap_ext.
  intros i c _. apply char_Z_back.
Qed.

Lemma sgn_wrap w z : 0 < w -> - 2 ^ (w - 1) <= z < 2 ^ (w - 1) -> sgn w (wrap w z) = z.
Proof.
  intros Hw Hz. unfold sgn. replace (wrap w (wrap w z)) with (wrap w z).
  - by apply sgn_small.
  - unfold wrap. symmetry. apply Z.mod_mod. lia.
Qed.

Lemma i64_u64 z : int64 z -> i64 (u64 z) = z.
Proof. unfold int64, LONG_MIN, LONG_MAX. intros. apply sgn_wrap; lia. Qed.

Lemma fits_u64 z : fits 8 (u64 z).
Proof. unfold fits. pose proof (wrap_range 64 z ltac:(lia)). change (256 ^ Z.of_nat 8) with (2 ^ 64). apply H. Qed.

Lemma fits_u32 z : fits 4 (u32 z).
Proof. unfold fits. pose proof (wrap_range 32 z ltac:(lia)). change (256 ^ Z.of_nat 4) with (2 ^ 32). apply H. Qed.

Lemma u32_uint32 z : uint32 z -> u32 z = z.
Proof. unfold uint32, fits. change (256 ^ Z.of_nat 4) with (2 ^ 32). apply wrap_small. Qed.

Lemma cstr_ok_cs s : forallb (fun c => negb (Ascii.eqb c zero)) s = true -> Z.of_nat (length s) < INT_MAX ->
  cstr_ok (Some s).
Proof.
  intros Hs Hl. split; [|done]. apply Forall_forall. intros c Hc ->.
  rewrite forallb_forall in Hs. by apply list_elem_of_In, Hs in Hc.
Qed.
