(* ===== verification/DssMessage.v ===== *)
(** * Messages of several items

    The calls of the serializer as the components make them: packing one item
    after the other into a fresh buffer, delivery of its payload, unpacking one
    item after the other.  A call passes the room for values by reference and
    gets the number of values back, so the count is threaded through the
    calls. *)

From S2P Require Import Prelude CString Dss DssFormat DssRoundtrip DssClaims DssText.
From stdpp Require Import base strings numbers list.
From Stdlib Require Import ZArith Lia Ascii.

Open Scope Z_scope.

Definition int_item (n : Z) : dss_data * Z := (D32 [u32 n], OPAL_INT).
Definition byte_item (n : Z) : dss_data * Z := (D8 [n], OPAL_UINT8).
Definition bool_item (x : bool) : dss_data * Z := (D8 [if x then 1 else 0], OPAL_BOOL).
Definition text_item (s : option cstr) : dss_data * Z := (DStr [c_array s], OPAL_STRING).

Section Calls.
Variable malloc_ok : Z -> bool.
Variables opal_dss_initial_size opal_dss_threshold_size : Z.
Variable registered : Z -> bool.
Variable other_pack : Z -> opal_buffer_t -> dss_data -> outcome (Z * opal_buffer_t).
Variable other_unpack : Z -> opal_buffer_t -> Z -> Z * option dss_data * opal_buffer_t.

(** ** Calls of the serializer *)
Definition pack_item (b : opal_buffer_t) (it : dss_data * Z) : outcome (Z * opal_buffer_t) :=
  opal_dss_pack malloc_ok opal_dss_initial_size opal_dss_threshold_size registered other_pack b it.1 it.2.

(** The number of values at the head of the buffer, which a successful call
    leaves in the caller's count. *)
Definition unpacked_count (b : opal_buffer_t) : Z :=
  match check_type registered b OPAL_INT32 OPAL_ERR_UNPACK_FAILURE unpack_len with
  | (_, Some n, _) => n
  | _ => 0
  end.

Definition dss_unpack (b : opal_buffer_t) (cnt type : Z) : Z * option dss_data * Z * opal_buffer_t :=
  let '(rc, d, b') := opal_dss_unpack malloc_ok registered other_unpack b cnt type in
  (rc, d, unpacked_count b, b').

Definition unpack_int (b : opal_buffer_t) (cnt : Z) : Z * option Z * Z * opal_buffer_t :=
  let '(rc, d, cnt, b) := dss_unpack b cnt OPAL_INT in
  (rc, match d with Some (D32 [z]) => Some (i32 z) | _ => None end, cnt, b).

(** The old value of the variable is [old]. *)
Definition unpack_string (b : opal_buffer_t) (cnt : Z) (old : option cstr)
    : outcome (Z * option cstr * Z * opal_buffer_t) :=
  let '(rc, d, cnt, b) := dss_unpack b cnt OPAL_STRING in
  match d with
  | Some (DStr [Some a]) =>
    match c_strlen a with
    | Some _ => Ret (rc, of_c_array (Some a), cnt, b)
    | None => Ub
    end
  | Some (DStr [None]) => Ret (rc, None, cnt, b)
  | _ => Ret (rc, old, cnt, b)
  end.

Definition unpack_byte (b : opal_buffer_t) (cnt type : Z) : Z * option Z * Z * opal_buffer_t :=
  let '(rc, d, cnt, b) := dss_unpack b cnt type in
  (rc, match d with Some (D8 [z]) => Some z | _ => None end, cnt, b).

(** Items are packed one by one until a call fails. *)
Fixpoint pack_items (b : opal_buffer_t) (items : list (dss_data * Z)) : outcome (Z * opal_buffer_t) :=
  match items with
  | [] => Ret (OPAL_SUCCESS, b)
  | it :: items' =>
    '(rc, b) ← pack_item b it;
    if negb (rc =? OPAL_SUCCESS) then Ret (rc, b) else pack_items b items'
  end.
End Calls.

Section Wire.
Context (malloc_ok : Z -> bool) (initial threshold : Z) (registered : Z -> bool).
Context (other_pack : Z -> opal_buffer_t -> dss_data -> outcome (Z * opal_buffer_t)).
Context (other_unpack : Z -> opal_buffer_t -> Z -> Z * option dss_data * opal_buffer_t).
Hypothesis Hmalloc : forall n, malloc_ok n = true.

Abbreviation pack_item' := (pack_item malloc_ok initial threshold registered other_pack).
Abbreviation pack_all' := (pack_all malloc_ok initial threshold registered other_pack).
Abbreviation item_ok := (item_ok registered).
Abbreviation enc_item := (enc_item registered).

(** ** Packing *)
Definition packed (b : opal_buffer_t) (items : list (dss_data * Z)) (b' : opal_buffer_t) : Prop :=
  pack_all' b items = Ret (OPAL_SUCCESS, b').

Lemma packed_nil b b' : packed b [] b' <-> b' = b.
Proof. split; [by intros [= ->]|by intros ->]. Qed.

Lemma packed_cons b it items b' :
  packed b (it :: items) b' -> exists b1, pack_item' b it = Ret (OPAL_SUCCESS, b1) /\ packed b1 items b'.
Proof.
  intros H. unfold packed, pack_all in H. cbn [pack_each] in H.
  apply bind_Ret_inv in H as ([rc b1] & E & H). cbn beta iota in H.
  destruct (Z.eqb_spec rc OPAL_SUCCESS) as [->|Hrc]; [by exists b1|].
  cbn [negb] in H. by injection H.
Qed.

Lemma packed_app b l1 l2 b' :
  packed b (l1 ++ l2) b' -> exists b1, packed b l1 b1 /\ packed b1 l2 b'.
Proof.
  revert b. induction l1 as [|it l1 IH]; intros b H; [by exists b|].
  apply packed_cons in H as (b1 & E & (b2 & H1 & H2)%IH). exists b2. split; [|done].
  unfold packed, pack_all. cbn [pack_each]. unfold pack_item in E. rewrite E. exact H1.
Qed.

(** ** Unpacking *)
Definition holds (desc : bool) (b : opal_buffer_t) (bs : list Z) : Prop :=
  readable desc b /\ unread b = bs /\ Z.of_nat (length bs) < 2 ^ 62.

Lemma holds_advance desc b bs rest :
  holds desc b (bs ++ rest) -> holds desc (advance b (length bs)) rest.
Proof.
  intros (Hr & Hu & Hn). split_and!; [by eapply readable_advance|by eapply unread_advance|].
  rewrite length_app in Hn. lia.
Qed.

Lemma codec_holds {A} desc (f : opal_buffer_t -> unpacked A) bs v b rest :
  codec desc f bs v -> holds desc b (bs ++ rest) ->
  f b = (OPAL_SUCCESS, Some v, advance b (length bs)).
Proof.
  intros Hc (Hr & Hu & Hn). rewrite length_app in Hn. eapply codec_reads; [exact Hc|lia|exact Hr|exact Hu].
Qed.

Lemma count_holds desc b it rest :
  item_ok it -> holds desc b (enc_item desc it ++ rest) ->
  unpacked_count registered b = Z.of_nat (data_length it.1).
Proof.
  intros [Hn _] Hb. unfold unpacked_count, DssFormat.enc_item in *.
  rewrite <- !app_assoc, app_assoc in Hb.
  rewrite (codec_holds desc (fun b => check_type registered b OPAL_INT32 OPAL_ERR_UNPACK_FAILURE unpack_len)
    (tag desc OPAL_INT32 ++ be 4 (Z.of_nat (data_length it.1))) (Z.of_nat (data_length it.1)) b
    (enc_buffer registered desc it.2 it.1 ++ rest)); [done| |exact Hb].
  apply codec_check_type, codec_len. lia.
Qed.

Lemma unpack_advance desc b it rest :
  item_ok it -> data_length it.1 = 1%nat -> holds desc b (enc_item desc it ++ rest) ->
  dss_unpack malloc_ok registered other_unpack b 1 it.2 = (OPAL_SUCCESS, Some (canon it.1), 1, advance b (length (enc_item desc it))).
Proof.
  intros Hok Hl Hb. unfold dss_unpack. rewrite (count_holds desc b it rest Hok Hb), Hl.
  rewrite (codec_holds desc (fun b => opal_dss_unpack malloc_ok registered other_unpack b 1 it.2)
    (enc_item desc it) (canon it.1) b rest); [done| |exact Hb].
  apply codec_item; [done|done|lia|rewrite Hl; lia].
Qed.

Lemma unpack_holds desc b it rest :
  item_ok it -> data_length it.1 = 1%nat -> holds desc b (enc_item desc it ++ rest) ->
  exists b', dss_unpack malloc_ok registered other_unpack b 1 it.2 = (OPAL_SUCCESS, Some (canon it.1), 1, b') /\
    holds desc b' rest.
Proof.
  intros Hok Hl Hb. exists (advance b (length (enc_item desc it))). split; [|by apply holds_advance]. by apply (unpack_advance desc b it rest).
Qed.

Lemma int_item_ok n : item_ok (int_item n).
Proof. split; [done|]. cbn. apply Forall_singleton, fits_u32. Qed.

Lemma byte_item_ok n : 0 <= n < 256 -> item_ok (byte_item n).
Proof. intros. split; [done|]. cbn. done. Qed.

Lemma text_item_ok s : cstr_ok s -> item_ok (text_item s).
Proof. intros. split; [done|]. cbn. by apply Forall_singleton, c_array_ok. Qed.

Lemma int_holds desc b n rest :
  int32 n -> holds desc b (enc_item desc (int_item n) ++ rest) ->
  exists b', unpack_int malloc_ok registered other_unpack b 1 = (OPAL_SUCCESS, Some n, 1, b') /\ holds desc b' rest.
Proof.
  intros Hn Hb. destruct (unpack_holds _ _ _ _ (int_item_ok n) eq_refl Hb) as (b' & E & Hb').
  exists b'. split; [|done]. unfold unpack_int. cbn [int_item snd] in E. rewrite E. cbn.
  unfold i32, u32. rewrite sgn_wrap; [done|lia|]. unfold int32, INT_MIN, INT_MAX in Hn. lia.
Qed.

Lemma nat_holds desc b k rest :
  Z.of_nat k < INT_MAX -> holds desc b (enc_item desc (int_item (Z.of_nat k)) ++ rest) ->
  exists b', unpack_int malloc_ok registered other_unpack b 1 = (OPAL_SUCCESS, Some (Z.of_nat k), 1, b') /\
    holds desc b' rest.
Proof. intros Hk. apply int_holds. unfold int32, INT_MIN, INT_MAX in *. lia. Qed.

Lemma text_holds desc b s old rest :
  cstr_ok s -> holds desc b (enc_item desc (text_item s) ++ rest) ->
  exists b', unpack_string malloc_ok registered other_unpack b 1 old = Ret (OPAL_SUCCESS, s, 1, b') /\
    holds desc b' rest.
Proof.
  intros Hs Hb. destruct (unpack_holds _ _ _ _ (text_item_ok s Hs) eq_refl Hb) as (b' & E & Hb').
  exists b'. split; [|done]. unfold unpack_string. cbn [text_item snd] in E. rewrite E.
  cbn [text_item fst canon fmap list_fmap]. pose proof (c_array_back s Hs) as Hback.
  destruct s as [s|]; cbn [c_array option_map] in *; [|done]. destruct Hs as [Hs _].
  assert (c_strlen (trim ((char_Z <$> s) ++ [0])) = Some (length s)) as ->; [|by rewrite Hback].
  unfold trim. rewrite c_strlen_array by done.
  rewrite take_ge by (rewrite length_app, length_fmap; cbn; lia). by apply c_strlen_array.
Qed.

(** Reading keeps the room of the buffer. *)
Lemma advance_ok desc b bs rest : buf_ok b -> holds desc b (bs ++ rest) -> buf_ok (advance b (length bs)).
Proof.
  intros [Hf Hbase Hroom Hu] (_ & Hun & _). split; try done.
  - intros Hp. destruct (Hf Hp) as (H1 & H2 & H3 & H4). unfold unread in Hun. rewrite H3, H4 in Hun. symmetry in Hun.
    apply app_eq_nil in Hun as [-> _]. cbn. by rewrite H4.
  - unfold unread in Hun. apply (f_equal length) in Hun. rewrite length_drop, length_app in Hun. cbn. lia.
Qed.

Lemma int_holds_ok desc b n rest :
  int32 n -> buf_ok b -> holds desc b (enc_item desc (int_item n) ++ rest) ->
  exists b', unpack_int malloc_ok registered other_unpack b 1 = (OPAL_SUCCESS, Some n, 1, b') /\ holds desc b' rest /\ buf_ok b' /\ b_data b' = b_data b.
Proof.
  intros Hn Hok Hb. destruct (int_holds desc b n rest Hn Hb) as (b' & E & Hb'). exists b'. split; [done|]. split; [done|].
  unfold unpack_int in E. pose proof (unpack_advance desc b _ rest (int_item_ok n) eq_refl Hb) as Ea. cbn [int_item snd] in Ea. rewrite Ea in E.
  injection E as _ <-. split; [|done]. by apply (advance_ok desc b _ rest).
Qed.

Lemma text_holds_ok desc b s old rest :
  cstr_ok s -> buf_ok b -> holds desc b (enc_item desc (text_item s) ++ rest) ->
  exists b', unpack_string malloc_ok registered other_unpack b 1 old = Ret (OPAL_SUCCESS, s, 1, b') /\ holds desc b' rest /\ buf_ok b' /\ b_data b' = b_data b.
Proof.
  intros Hs Hok Hb. destruct (text_holds desc b s old rest Hs Hb) as (b' & E & Hb'). exists b'. split; [done|]. split; [done|].
  unfold unpack_string in E. pose proof (unpack_advance desc b _ rest (text_item_ok s Hs) eq_refl Hb) as Ea. cbn [text_item snd] in Ea. rewrite Ea in E.
  replace b' with (advance b (length (enc_item desc (text_item s)))); [split; [|done]; by apply (advance_ok desc b _ rest)|].
  repeat case_match; simplify_eq; done.
Qed.

Lemma bool_item_ok x : item_ok (bool_item x).
Proof. split; [done|]. cbn. by destruct x. Qed.

Lemma unpack_byte_holds desc b n type rest :
  item_ok (D8 [n], type) -> holds desc b (enc_item desc (D8 [n], type) ++ rest) ->
  exists b', unpack_byte malloc_ok registered other_unpack b 1 type = (OPAL_SUCCESS, Some n, 1, b') /\ holds desc b' rest.
Proof.
  intros Hok Hb. destruct (unpack_holds desc b _ rest Hok eq_refl Hb) as (b' & E & Hb'). exists b'. split; [|done].
  unfold unpack_byte. cbn [snd] in E. by rewrite E.
Qed.

Lemma pack_items_packed b items b' :
  packed b items b' -> pack_items malloc_ok initial threshold registered other_pack b items = Ret (OPAL_SUCCESS, b').
Proof.
  revert b. induction items as [|it items IH]; intros b Hp; [by apply packed_nil in Hp as ->|].
  apply packed_cons in Hp as (b1 & E & Hp). cbn [pack_items]. rewrite E, bind_Ret. cbn [negb Z.eqb OPAL_SUCCESS]. by apply IH.
Qed.

(** ** Delivery *)
Context (desc : bool).
Hypothesis Hinitial : 0 < initial < 2 ^ 31.
Hypothesis Hthreshold : 0 < threshold < 2 ^ 31.

(** The payload of a buffer in a buffer of the receiver; the length of the
    payload travels as an [int32_t]. *)
Definition deliver (b : opal_buffer_t) : outcome opal_buffer_t :=
  let '(_, payload, len, _) := opal_dss_unload b in
  '(_, rb) ← opal_dss_load (opal_buffer_construct desc) payload len;
  Ret rb.

(** The bytes of the items can be counted by an [int32_t]. *)
Definition fits_message (items : list (dss_data * Z)) : Prop :=
  Z.of_nat (length (items ≫= enc_item desc)) <= INT_MAX.

Abbreviation holds_items b items := (holds desc b (items ≫= enc_item desc)).

(** The receiver of the buffer [b] gets the items. *)
Definition delivers (b : opal_buffer_t) (items : list (dss_data * Z)) : Prop :=
  exists rb, deliver b = Ret rb /\ holds_items rb items.

Lemma fresh_delivered it items :
  Forall item_ok (it :: items) -> fits_message (it :: items) ->
  exists b, packed (opal_buffer_construct desc) (it :: items) b /\ delivers b (it :: items).
Proof.
  intros Hok Hsz. pose proof (enc_items_nonempty registered desc it items) as Hne. unfold fits_message in Hsz.
  destruct (pack_fresh malloc_ok initial threshold registered other_pack Hmalloc Hinitial Hthreshold
              desc it items Hok) as (b & Eb & [[] Hp Hd Hu Hdata]); [unfold INT_MAX in Hsz; lia|].
  cbn [b_data opal_buffer_construct app] in Hdata. exists b. split; [exact Eb|].
  exists (loaded desc ((it :: items) ≫= enc_item desc)). split.
  - unfold deliver. rewrite unload_some, Hdata by (rewrite ?Hdata; auto). by rewrite load_loaded.
  - destruct (loaded_readable desc ((it :: items) ≫= enc_item desc)) as [Hrd Hun].
    split_and!; [done|done|unfold INT_MAX in Hsz; lia].
Qed.

(** Sizes of items *)
Lemma length_text_item s : (length (enc_item desc (text_item (Some s))) <= length s + 11)%nat.
Proof.
  unfold text_item, DssFormat.enc_item, enc_buffer. cbn [fst snd c_array option_map data_length].
  change (opal_dss_types registered OPAL_STRING) with (Some HString).
  cbn [enc_leaf]. rewrite bind_singleton. unfold enc_string. rewrite !length_app.
  assert (length (trim ((char_Z <$> s) ++ [0%Z])) <= length s + 1)%nat.
  { unfold trim. destruct (c_strlen _); rewrite ?length_take, length_app, length_fmap; cbn [length]; lia. }
  rewrite !be_length. unfold tag. destruct desc; cbn [length]; lia.
Qed.

Lemma length_int_item n : (length (enc_item desc (int_item n)) <= 20)%nat.
Proof. destruct desc; by apply Nat.leb_le. Qed.

Lemma length_byte_item n : (length (enc_item desc (byte_item n)) <= 20)%nat.
Proof. destruct desc; by apply Nat.leb_le. Qed.

Lemma fits_int n : fits_message [int_item n].
Proof. unfold fits_message. rewrite bind_singleton. unfold int_item, DssFormat.enc_item. cbn. by destruct desc. Qed.

Lemma fits_two n m : fits_message [int_item n; int_item m].
Proof.
  unfold fits_message. rewrite bind_cons, bind_singleton. unfold int_item, DssFormat.enc_item. cbn. by destruct desc.
Qed.
End Wire.
