(* ===== verification/DssProgress.v ===== *)
(** * Unpacking stays inside the buffer

    Whatever bytes a buffer holds, a call of the unpacking functions leaves
    them as they are, does not move the read position backwards, and not
    behind the end.  The functions of types registered from elsewhere are
    assumed to behave so ([Hother]). *)

From S2P Require Import Prelude CString Dss DssFormat DssRoundtrip DssMessage.
From stdpp Require Import base strings numbers list.
From Stdlib Require Import ZArith Lia.

Open Scope Z_scope.

Definition inside (b : opal_buffer_t) : Prop := (b_unpack b <= length (b_data b))%nat.

(** [b'] is [b], read further. *)
Record read_on (b b' : opal_buffer_t) : Prop := {
  ro_data : b_data b' = b_data b;
  ro_desc : b_desc b' = b_desc b;
  ro_forward : (b_unpack b <= b_unpack b')%nat;
  ro_inside : inside b'
}.

#[export] Instance read_on_transitive : Transitive read_on.
Proof. intros b1 b2 b3 [] []. split; [congruence|congruence|lia|done]. Qed.

Lemma read_on_refl b : inside b -> read_on b b.
Proof. by split. Qed.

Record forward {A} (f : opal_buffer_t -> unpacked A) : Prop := {
  fw_read : forall b, inside b -> read_on b (f b).2;
  fw_value : forall b, (f b).1.1 = OPAL_SUCCESS -> is_Some (f b).1.2
}.
Arguments fw_read {A f}.
Arguments fw_value {A f}.

Lemma forward_ret {A} rc (o : option A) : (rc = OPAL_SUCCESS -> is_Some o) -> forward (fun b => (rc, o, b)).
Proof. intros Ho. split; [|done]. intros b Hb. by apply read_on_refl. Qed.

Ltac fret := apply forward_ret; (done || by eexists).

Lemma forward_then {A B} (f : opal_buffer_t -> unpacked A) (k : A -> opal_buffer_t -> unpacked B) :
  forward f -> (forall a, forward (k a)) -> forward (fun b => unpack_then (f b) k).
Proof.
  intros Hf Hk. split; intros b.
  - intros Hb. pose proof (fw_read Hf b Hb) as Hr. destruct (f b) as [[rc [a|]] b']; cbn in *; [|done].
    destruct (rc =? OPAL_SUCCESS); [|done]. etrans; [exact Hr|]. apply (fw_read (Hk a)), Hr.
  - pose proof (fw_value Hf b) as Hv. destruct (f b) as [[rc [a|]] b']; cbn in *; [|intros ->; by destruct Hv].
    destruct (Z.eqb_spec rc OPAL_SUCCESS); [apply (fw_value (Hk a))|done].
Qed.

Lemma forward_if {A} (c : bool) (f g : opal_buffer_t -> unpacked A) : forward f -> forward g -> forward (fun b => if c then f b else g b).
Proof. by destruct c. Qed.

Lemma forward_test {A} (c : opal_buffer_t -> bool) (f g : opal_buffer_t -> unpacked A) :
  forward f -> forward g -> forward (fun b => if c b then f b else g b).
Proof. intros [] []. split; intros b; destruct (c b); auto. Qed.

Lemma forward_umap {A B} (g : A -> B) f : forward f -> forward (fun b => umap g (f b)).
Proof. intros Hf. apply forward_then; [done|]. intros a. fret. Qed.

Lemma forward_bytes n : 0 <= n -> forward (fun b => get_bytes b n).
Proof.
  intros Hn. split; [|intros b; unfold get_bytes; destruct (opal_dss_too_small b n); [done|by eexists]].
  intros b Hb. unfold get_bytes, opal_dss_too_small, inside in *.
  destruct (Nat.ltb_spec (length (b_data b)) (b_unpack b)); [by apply read_on_refl|].
  destruct (Z.ltb_spec (Z.of_nat (length (b_data b) - b_unpack b)) n); [by apply read_on_refl|].
  split; unfold inside; cbn; done || lia.
Qed.

Lemma u64_pos n : 0 <= u64 n.
Proof. by apply wrap_range. Qed.

Lemma forward_ints w n : forward (fun b => get_ints w b n).
Proof. apply forward_then; [apply forward_bytes, u64_pos|]. intros. fret. Qed.

Lemma forward_each {A} (f : opal_buffer_t -> unpacked A) n : forward f -> forward (unpack_each f n).
Proof.
  intros Hf. induction n as [|n IH]; [fret|]. cbn [unpack_each].
  apply forward_then; [done|]. intros a. apply forward_then; [done|]. intros l. fret.
Qed.

Lemma forward_len : forward unpack_len.
Proof. apply forward_then; [apply (forward_ints 4)|]. intros [|v []]; fret. Qed.

Section Progress.
Context (malloc_ok : Z -> bool) (registered : Z -> bool).
Context (other_unpack : Z -> opal_buffer_t -> Z -> Z * option dss_data * opal_buffer_t).
Hypothesis Hother : forall t n, forward (fun b => other_unpack t b n).

Lemma forward_string : forward (unpack_one_string malloc_ok).
Proof.
  apply forward_then; [apply forward_len|]. intros len. apply forward_if; [fret|]. apply forward_if; [fret|].
  apply forward_then; [apply forward_bytes, u64_pos|]. intros. fret.
Qed.

Lemma forward_leaf h n : forward (fun b => unpack_leaf malloc_ok b h n).
Proof.
  destruct h; try fret; apply forward_umap; try (apply forward_bytes, u64_pos); try apply forward_ints.
  - apply forward_each, forward_string.
  - apply forward_test; [fret|]. apply forward_each, forward_then; [apply (forward_ints 8)|]. intros [|s [|u []]]; fret.
  - apply forward_test; [fret|]. apply forward_each, forward_then; [apply (forward_ints 8)|]. intros [|s []]; fret.
  - apply forward_each. apply forward_if; [fret|]. apply forward_then; [apply forward_len|]. intros size.
    apply forward_if; [|fret]. apply forward_if; [fret|]. apply forward_bytes, u64_pos.
Qed.

Lemma forward_type : forward (opal_dss_get_data_type registered).
Proof. apply forward_then; [apply forward_bytes, u64_pos|]. intros [|t []]; fret. Qed.

Lemma forward_check {A} type err (k : opal_buffer_t -> unpacked A) : err <> OPAL_SUCCESS -> forward k -> forward (fun b => check_type registered b type err k).
Proof.
  intros Herr Hk. apply forward_test; [|done]. apply forward_then; [apply forward_type|]. intros t. apply forward_if; [done|fret].
Qed.

Lemma forward_real n type : forward (fun b => unpack_real malloc_ok registered b n type).
Proof. apply forward_check; [done|]. destruct (opal_dss_types registered type); [apply forward_leaf|fret]. Qed.

Lemma forward_native is_bool n real : forward (fun b => unpack_native malloc_ok registered b is_bool n real).
Proof.
  unfold unpack_native.
  assert (Hr : forall remote, forward (fun b => if remote =? real then unpack_real malloc_ok registered b n real
    else match int_type remote with
         | None => (OPAL_ERR_NOT_FOUND, None, b)
         | Some (w, signed) => unpack_then (unpack_real malloc_ok registered b n remote)
             (fun d b => (OPAL_SUCCESS, Some (int_array real (convert_int is_bool w signed real <$> int_values d)), b))
         end)).
  { intros remote. apply forward_if; [apply forward_real|]. destruct (int_type remote) as [[w sg]|]; [|fret].
    apply forward_then; [apply forward_real|]. intros d. fret. }
  apply forward_test; [|apply forward_then; [apply forward_type|done]].
  split; intros b; destruct (opal_dss_peek_type registered b) as [rc remote]; destruct (Z.eqb_spec rc OPAL_SUCCESS); cbn [negb].
  - apply (fw_read (Hr remote)).
  - apply read_on_refl.
  - apply (fw_value (Hr remote)).
  - done.
Qed.

Lemma forward_buffer n type : forward (fun b => opal_dss_unpack_buffer malloc_ok registered other_unpack b n type).
Proof.
  apply forward_check; [done|]. destruct (opal_dss_types registered type) as [[]|];
    try apply (forward_leaf _ n); try apply forward_native; try apply forward_real; try apply Hother; try fret.
  unfold opal_dss_unpack_name. apply forward_if; [fret|]. apply forward_then; [apply forward_real|]. intros j.
  apply forward_if; [fret|]. apply forward_then; [apply forward_real|]. intros v. fret.
Qed.

(** A call of [opal_dss_unpack]. *)
Definition unpack_counted (n type : Z) (b : opal_buffer_t) : unpacked dss_data :=
  unpack_then (unpack_len b) (fun local_num b =>
    let '(local, ret) := if n <? local_num then (n, OPAL_ERR_UNPACK_INADEQUATE_SPACE) else (local_num, OPAL_SUCCESS) in
    match opal_dss_unpack_buffer malloc_ok registered other_unpack b local type with
    | (rc, o, b) => if rc =? OPAL_SUCCESS then (ret, o, b) else (rc, None, b)
    end).

Lemma forward_values local ret type : forward (fun b =>
  match opal_dss_unpack_buffer malloc_ok registered other_unpack b local type with
  | (rc, o, b) => if rc =? OPAL_SUCCESS then (ret, o, b) else (rc, None, b)
  end).
Proof.
  pose proof (forward_buffer local type) as [Hr Hv]. split; intros b; specialize (Hr b); specialize (Hv b);
    destruct (opal_dss_unpack_buffer _ _ _ b local type) as [[rc o] b']; cbn in *; destruct (Z.eqb_spec rc OPAL_SUCCESS); cbn; auto.
  by intros.
Qed.

Lemma forward_counted n type : forward (unpack_counted n type).
Proof. apply forward_then; [apply forward_len|]. intros k. destruct (n <? k); apply forward_values. Qed.

Lemma forward_unpack n type : forward (fun b => opal_dss_unpack malloc_ok registered other_unpack b n type).
Proof. apply forward_if; [fret|]. apply forward_check; [done|]. apply forward_counted. Qed.

Lemma counted_advances n type b : inside b -> (unpack_counted n type b).1.1 = OPAL_SUCCESS -> (b_unpack b < b_unpack (unpack_counted n type b).2)%nat.
Proof.
  intros Hb. unfold unpack_counted, unpack_len, opal_dss_unpack_int32, get_ints, get_bytes.
  destruct (opal_dss_too_small b (u64 (1 * Z.of_nat 4))) eqn:E; [done|].
  change (Z.to_nat (u64 (1 * Z.of_nat 4))) with 4%nat. change (Z.to_nat 1) with 1%nat.
  cbn [groups_of fmap list_fmap unpack_then Z.eqb OPAL_SUCCESS]. set (b1 := with_unpack b (b_unpack b + 4)).
  assert (Hb1 : inside b1).
  { unfold inside, opal_dss_too_small in *. change (u64 (1 * Z.of_nat 4)) with 4 in E. cbn.
    destruct (Nat.ltb_spec (length (b_data b)) (b_unpack b)); [done|]. destruct (Z.ltb_spec (Z.of_nat (length (b_data b) - b_unpack b)) 4); [done|lia]. }
  intros _. set (k := i32 _).
  assert (Hlt : (b_unpack b < b_unpack b1)%nat) by (cbn; lia).
  destruct (n <? k).
  - pose proof (ro_forward _ _ (fw_read (forward_values n OPAL_ERR_UNPACK_INADEQUATE_SPACE type) b1 Hb1)). cbn beta in *. lia.
  - pose proof (ro_forward _ _ (fw_read (forward_values k OPAL_SUCCESS type) b1 Hb1)). cbn beta in *. lia.
Qed.

(** A call that succeeds reads the number of values at least. *)
Lemma unpack_advances b n type : inside b -> (opal_dss_unpack malloc_ok registered other_unpack b n type).1.1 = OPAL_SUCCESS ->
  (b_unpack b < b_unpack (opal_dss_unpack malloc_ok registered other_unpack b n type).2)%nat.
Proof.
  intros Hb. unfold opal_dss_unpack. destruct (n =? 0); [done|]. unfold check_type.
  change (fun b0 : opal_buffer_t => unpack_then (unpack_len b0) _) with (unpack_counted n type).
  destruct (b_desc b); [|by apply counted_advances].
  pose proof (fw_read forward_type b Hb) as Hr. pose proof (fw_value forward_type b) as Hv.
  destruct (opal_dss_get_data_type registered b) as [[rc [t|]] b1]; cbn in *; [|by intros ->; destruct Hv].
  destruct (Z.eqb_spec rc OPAL_SUCCESS); [|done]. destruct (t =? OPAL_INT32); [|done]. intros E.
  apply counted_advances in E; [|apply Hr]. exact (Nat.le_lt_trans _ _ _ (ro_forward _ _ Hr) E).
Qed.
End Progress.
