(* ===== verification/ScdTypes.v ===== *)
(** * Data of the scheduler ([orcm/mca/scd/scd_types.h], [cfgi_types.h])

    Allocations, sessions, queues, nodes and the constants that go with them.
    A process name is the pair of its job id and vpid.  A [char *] is an
    [option cstr].  A topology is the opaque handle hwloc returns. *)

From S2P Require Import Prelude CString Dss.
From stdpp Require Import base strings numbers list.
From Stdlib Require Import ZArith Lia.

Open Scope Z_scope.

Abbreviation orte_process_name_t := (Z * Z)%type.
Abbreviation hwloc_topology_t := Z (only parsing).

(** ** Allocations *)

(** [orte_attribute_t] of [orte/util/attr.h]: the union is the field of
    [at_type]. *)
Record orte_attribute_t : Type := MkAttr {
  at_key : Z;
  at_local : bool;
  at_type : Z;
  at_data : dss_data
}.

Record orcm_alloc_t : Type := MkAlloc {
  a_id : Z;
  a_priority : Z;
  a_account : option cstr;
  a_name : option cstr;
  a_gid : Z;
  a_max_nodes : Z;
  a_max_pes : Z;
  a_min_nodes : Z;
  a_min_pes : Z;
  a_begin : Z;
  a_walltime : Z;
  a_exclusive : bool;
  a_caller_uid : Z;
  a_caller_gid : Z;
  a_interactive : bool;
  a_originator : orte_process_name_t;
  a_hnp : orte_process_name_t;
  a_hnpname : option cstr;
  a_hnpuri : option cstr;
  a_parent_name : option cstr;
  a_parent_uri : option cstr;
  a_nodefile : option cstr;
  a_nodes : option cstr;
  a_queues : option cstr;
  a_batchfile : option cstr;
  a_notes : option cstr;
  a_constraints : list orte_attribute_t
}.

(** [alloc_con] *)
Definition alloc_con : orcm_alloc_t :=
  MkAlloc 0 0 None None 0 0 0 0 0 0 0 true 0 0 false (0, 0) (0, 0)
    None None None None None None None None None [].

(** The fields the scheduler assigns. *)
Definition update_alloc (id : Z) (hnp : orte_process_name_t)
    (hnpname nodes queues notes : option cstr) (a : orcm_alloc_t) : orcm_alloc_t :=
  MkAlloc id (a_priority a) (a_account a) (a_name a) (a_gid a) (a_max_nodes a) (a_max_pes a)
    (a_min_nodes a) (a_min_pes a) (a_begin a) (a_walltime a) (a_exclusive a) (a_caller_uid a)
    (a_caller_gid a) (a_interactive a) (a_originator a) hnp hnpname (a_hnpuri a)
    (a_parent_name a) (a_parent_uri a) (a_nodefile a) nodes queues (a_batchfile a) notes
    (a_constraints a).

Definition set_id (v : Z) (a : orcm_alloc_t) :=
  update_alloc v (a_hnp a) (a_hnpname a) (a_nodes a) (a_queues a) (a_notes a) a.
Definition set_hnp (v : orte_process_name_t) (a : orcm_alloc_t) :=
  update_alloc (a_id a) v (a_hnpname a) (a_nodes a) (a_queues a) (a_notes a) a.
Definition set_hnpname (v : option cstr) (a : orcm_alloc_t) :=
  update_alloc (a_id a) (a_hnp a) v (a_nodes a) (a_queues a) (a_notes a) a.
Definition set_nodes (v : option cstr) (a : orcm_alloc_t) :=
  update_alloc (a_id a) (a_hnp a) (a_hnpname a) v (a_queues a) (a_notes a) a.
Definition set_queues (v : option cstr) (a : orcm_alloc_t) :=
  update_alloc (a_id a) (a_hnp a) (a_hnpname a) (a_nodes a) v (a_notes a) a.
Definition set_notes (v : option cstr) (a : orcm_alloc_t) :=
  update_alloc (a_id a) (a_hnp a) (a_hnpname a) (a_nodes a) (a_queues a) v a.

(** ** Sessions, queues, trackers *)

(** A session created for a cancel request has no allocation. *)
Record orcm_session_t : Type := MkSession {
  s_id : Z;
  s_alloc : option orcm_alloc_t
}.

(** [q_sessions] holds the addresses of the sessions on the list. *)
Record orcm_queue_t : Type := MkQueue {
  q_name : cstr;
  q_priority : Z;
  q_sessions : list nat
}.

Record orcm_alloc_tracker_t : Type := MkTracker {
  trk_alloc_id : Z;
  trk_count_checked_in : Z
}.

(** ** Nodes *)
Definition ORCM_NODE_STATE_UNDEF : Z := 0.
Definition ORCM_NODE_STATE_UNKNOWN : Z := 1.
Definition ORCM_NODE_STATE_UP : Z := 2.
Definition ORCM_NODE_STATE_DOWN : Z := 3.
Definition ORCM_NODE_STATE_SESTERM : Z := 4.
Definition ORCM_NODE_STATE_DRAIN : Z := 5.
Definition ORCM_NODE_STATE_RESUME : Z := 6.

Definition ORCM_SCD_NODE_STATE_UNDEF : Z := 0.
Definition ORCM_SCD_NODE_STATE_UNKNOWN : Z := 1.
Definition ORCM_SCD_NODE_STATE_UNALLOC : Z := 2.
Definition ORCM_SCD_NODE_STATE_ALLOC : Z := 3.
Definition ORCM_SCD_NODE_STATE_EXCLUSIVE : Z := 4.

Record orcm_node_t : Type := MkScdNode {
  n_name : cstr;
  n_daemon : orte_process_name_t;
  n_state : Z;
  n_scd_state : Z;
  n_topology : option hwloc_topology_t
}.

Definition with_state (v : Z) (n : orcm_node_t) : orcm_node_t :=
  MkScdNode (n_name n) (n_daemon n) v (n_scd_state n) (n_topology n).
Definition with_scd_state (v : Z) (n : orcm_node_t) : orcm_node_t :=
  MkScdNode (n_name n) (n_daemon n) (n_state n) v (n_topology n).
Definition with_topology (v : option hwloc_topology_t) (n : orcm_node_t) : orcm_node_t :=
  MkScdNode (n_name n) (n_daemon n) (n_state n) (n_scd_state n) v.

(** The management tree of [orcm_clusters]: controllers and nodes by the
    names of their daemons. *)
Record orcm_rack_t : Type := MkRack {
  rack_controller : orte_process_name_t;
  rack_nodes : list orte_process_name_t
}.
Record orcm_row_t : Type := MkRow {
  row_controller : orte_process_name_t;
  row_racks : list orcm_rack_t
}.
Record orcm_cluster_t : Type := MkCluster {
  cluster_controller : orte_process_name_t;
  cluster_rows : list orcm_row_t
}.

(** ** Session states *)
Definition ORCM_SESSION_STATE_UNDEF : Z := 0.
Definition ORCM_SESSION_STATE_REQ : Z := 1.
Definition ORCM_SESSION_STATE_ACTIVE : Z := 2.
Definition ORCM_SESSION_STATE_KILL : Z := 3.
Definition ORCM_SESSION_STATE_INIT : Z := 1.
Definition ORCM_SESSION_STATE_SCHEDULE : Z := 2.
Definition ORCM_SESSION_STATE_ALLOCD : Z := 3.
Definition ORCM_SESSION_STATE_TERMINATED : Z := 4.
Definition ORCM_SESSION_STATE_CANCEL : Z := 5.
Definition ORCM_SESSION_STATE_ANY : Z := 10.
Definition ORCM_SESSION_STATE_ERROR : Z := 20.

(** The callbacks of the two state machines. *)
Inductive cbfunc : Type :=
| Pmf_undef | Pmf_find_queue | Pmf_schedule | Pmf_allocated | Pmf_terminated | Pmf_cancel
| Rm_undef | Rm_request | Rm_active | Rm_kill.

#[export] Instance cbfunc_eq_dec : EqDecision cbfunc.
Proof. solve_decision. Defined.

(** [orcm_scd_state_t] and [orcm_scd_base_rm_state_t] *)
Record orcm_scd_state_t : Type := MkState {
  st_state : Z;
  st_cbfunc : option cbfunc;
  st_priority : Z
}.

(** [orcm_session_caddy_t]: an active event. *)
Record orcm_session_caddy_t : Type := MkCaddy {
  cd_cbfunc : cbfunc;
  cd_priority : Z;
  cd_session : nat
}.
