(* ===== verification/Attributes.v ===== *)
(** * Attributes ([orte/util/attr.c], [orcm/util/attr.c])

    Typed values under integer keys, kept in a list: the constraints of an
    allocation are attributes.  The value an attribute holds is the datum of
    its type ([at_data]); a [void *] argument is the datum it points to, or
    NULL.  For [OPAL_PTR] the datum is the pointer itself.  A datum of another
    type than the type argument says is undefined behaviour.

    Attributes of the type [OPAL_BUFFER] are never made by these functions. *)

From S2P Require Import Prelude CString Dss DssFormat DssValue DssText ScdTypes.
From stdpp Require Import base strings numbers list.
From Stdlib Require Import ZArith Lia.

Open Scope Z_scope.

Definition OPAL_ERR_TYPE_MISMATCH : Z := -27.
Definition ORTE_ATTR_LOCAL : bool := true.
Definition ORTE_ATTR_GLOBAL : bool := false.

(** ** The value of an attribute *)
Inductive shape : Type := SInt8 | SInt16 | SInt32 | SInt64 | SText | SBytes | SFloat | STimeval | SPtr.

(** The cases of the switch. *)
Definition shape_of (type : Z) : option shape :=
  if bool_decide (type ∈ [OPAL_BOOL; OPAL_BYTE; OPAL_INT8; OPAL_UINT8]) then Some SInt8
  else if bool_decide (type ∈ [OPAL_INT16; OPAL_UINT16]) then Some SInt16
  else if bool_decide (type ∈ [OPAL_INT; OPAL_INT32; OPAL_UINT; OPAL_UINT32; OPAL_PID; OPAL_VPID; OPAL_JOBID]) then Some SInt32
  else if bool_decide (type ∈ [OPAL_SIZE; OPAL_INT64; OPAL_UINT64]) then Some SInt64
  else if type =? OPAL_STRING then Some SText
  else if type =? OPAL_BYTE_OBJECT then Some SBytes
  else if type =? OPAL_FLOAT then Some SFloat
  else if type =? OPAL_TIMEVAL then Some STimeval
  else if type =? OPAL_PTR then Some SPtr
  else None.

(** All bytes of the union are zero. *)
Definition zero_data (type : Z) : dss_data :=
  match shape_of type with
  | Some SInt8 => D8 [0]
  | Some SInt16 => D16 [0]
  | Some SInt32 | Some SFloat => D32 [0]
  | Some STimeval => DTv [(0, 0)]
  | Some SText => DStr [None]
  | Some SBytes => DBo [[]]
  | Some SInt64 | Some SPtr | None => D64 [0]
  end.

(** The datum is copied: a string up to its terminator, an empty byte object
    as none. *)
Definition copy_data (sh : shape) (data : dss_data) : outcome dss_data :=
  match sh, data with
  | SInt8, D8 [_] | SInt16, D16 [_] | SInt32, D32 [_] | SInt64, D64 [_] | SPtr, D64 [_]
  | STimeval, DTv [_] | SBytes, DBo [_] | SText, DStr [None] => Ret data
  | SText, DStr [Some a] => match c_strlen a with Some _ => Ret (DStr [Some (trim a)]) | None => Ub end
  | SFloat, _ => Ret data
  | _, _ => Ub
  end.

Definition orte_attr_cons : orte_attribute_t := MkAttr 0 true 0 (zero_data 0).

Definition orte_attr_load (kv : orte_attribute_t) (data : option dss_data) (type : Z) : outcome (Z * orte_attribute_t) :=
  let kv := MkAttr (at_key kv) (at_local kv) type (at_data kv) in
  match data with
  | None =>
    Ret (OPAL_SUCCESS, MkAttr (at_key kv) (at_local kv) type (zero_data type))
  | Some d =>
    match shape_of type with
    | None => Ret (OPAL_ERR_NOT_SUPPORTED, kv)
    | Some sh => d ← copy_data sh d; Ret (OPAL_SUCCESS, MkAttr (at_key kv) (at_local kv) type d)
    end
  end.

(** [room]: the target [*data] is not NULL.  Strings, byte objects and
    pointers get a target of their own. *)
Definition orte_attr_unload (kv : orte_attribute_t) (room : bool) (type : Z) : outcome (Z * option dss_data) :=
  if negb (type =? at_type kv) then Ret (OPAL_ERR_TYPE_MISMATCH, None)
  else
    match shape_of type with
    | Some (SText | SBytes | SPtr) as sh =>
      d ← copy_data (default SText sh) (at_data kv); Ret (OPAL_SUCCESS, Some d)
    | Some sh =>
      if room then d ← copy_data sh (at_data kv); Ret (OPAL_SUCCESS, Some d) else Ret (OPAL_ERR_BAD_PARAM, None)
    | None => Ret (if room then OPAL_ERR_NOT_SUPPORTED else OPAL_ERR_BAD_PARAM, None)
    end.

(** ** Lists of attributes *)
Definition has_key (key : Z) (kv : orte_attribute_t) : bool := key =? at_key kv.

(** [data]: NULL, or whether its target is not NULL. *)
Fixpoint orte_get_attribute (attributes : list orte_attribute_t) (key : Z) (data : option bool) (type : Z)
    : outcome (bool * option dss_data) :=
  match attributes with
  | [] => Ret (false, None)
  | kv :: attributes' =>
    if has_key key kv then
      if negb (at_type kv =? type) then Ret (false, None)
      else
        match data with
        | None => Ret (true, None)
        | Some room => '(_, d) ← orte_attr_unload kv room type; Ret (true, d)
        end
    else orte_get_attribute attributes' key data type
  end.

(** The attribute of the key in its place, if there is one. *)
Fixpoint set_present (attributes : list orte_attribute_t) (key : Z) (data : option dss_data) (type : Z)
    : option (outcome (Z * list orte_attribute_t)) :=
  match attributes with
  | [] => None
  | kv :: attributes' =>
    if has_key key kv then
      Some (if negb (at_type kv =? type) then Ret (OPAL_ERR_TYPE_MISMATCH, attributes)
            else '(rc, kv) ← orte_attr_load kv data type; Ret (rc, kv :: attributes'))
    else (fun r => '(rc, l) ← r; Ret (rc, kv :: l)) <$> set_present attributes' key data type
  end.

Definition orte_set_attribute (attributes : list orte_attribute_t) (key : Z) (local : bool) (data : option dss_data) (type : Z)
    : outcome (Z * list orte_attribute_t) :=
  match set_present attributes key data type with
  | Some r => r
  | None =>
    let kv := MkAttr key local (at_type orte_attr_cons) (at_data orte_attr_cons) in
    '(rc, kv) ← orte_attr_load kv data type;
    if negb (rc =? OPAL_SUCCESS) then Ret (rc, attributes) else Ret (OPAL_SUCCESS, attributes ++ [kv])
  end.

Fixpoint orte_remove_attribute (attributes : list orte_attribute_t) (key : Z) : list orte_attribute_t :=
  match attributes with
  | [] => []
  | kv :: attributes' => if has_key key kv then attributes' else kv :: orte_remove_attribute attributes' key
  end.

(** ** Names of keys *)
Definition ORTE_ATTR_KEY_BASE : Z := 0.
Definition ORTE_ATTR_KEY_MAX : Z := 1000.
Definition ORCM_ATTR_KEY_BASE : Z := ORTE_ATTR_KEY_MAX.
Definition ORCM_ATTR_KEY_MAX : Z := ORCM_ATTR_KEY_BASE + 1000.
Definition MAX_CONVERTERS : nat := 5.
Definition MAX_CONVERTER_PROJECT_LEN : nat := 10.

(** The keys of the constants of [orte/util/attr.h]: applications below 100,
    nodes from 101, jobs from 201, processes from 301. *)
Definition orte_key_names : list (Z * string) :=
  [ (1, "APP-HOSTFILE"); (2, "APP-ADD-HOSTFILE"); (3, "APP-DASH-HOST"); (4, "APP-ADD-HOST"); (5, "APP-USER-CWD");
    (6, "APP-USE-SESSION-DIR-AS-CWD"); (7, "APP-PRELOAD-BIN"); (8, "APP-PRELOAD-FILES"); (9, "APP-SSTORE-LOAD");
    (10, "APP-RECOVERY-DEFINED"); (11, "APP-MAX-RESTARTS"); (12, "APP-MIN-NODES"); (13, "APP-NODES-MANDATORY");
    (14, "APP-MAX-PPN"); (15, "APP-PREFIX-DIR"); (101, "NODE-USERNAME"); (102, "NODE-LAUNCHID");
    (103, "NODE-HOSTID"); (104, "NODE-ALIAS"); (105, "NODE-SERIAL-NUM"); (201, "JOB-LAUNCH-MSG-SENT");
    (202, "JOB-LAUNCH-MSG-RECVD"); (203, "JOB-MAX-LAUNCH-MSG-RECVD"); (204, "JOB-FILE-MAPS");
    (205, "JOB-CKPT-STATE"); (206, "JOB-SNAPSHOT-REF"); (207, "JOB-SNAPSHOT-LOC");
    (208, "JOB-SNAPC-INIT-BARRIER-ID"); (209, "JOB-SNAPC-FINI-BARRIER-ID"); (210, "JOB-NUM-NONZERO-EXIT");
    (211, "JOB-FAILURE-TIMER-EVENT"); (212, "JOB-ABORTED-PROC"); (213, "JOB-MAPPER"); (214, "JOB-REDUCER");
    (215, "JOB-COMBINER"); (216, "JOB-INDEX-ARGV"); (217, "JOB-NO-VM"); (218, "JOB-SPIN-FOR-DEBUG");
    (219, "JOB-CONTINUOUS-OP"); (220, "JOB-RECOVERY-DEFINED"); (221, "JOB-ENABLE-RECOVERY");
    (222, "JOB-NON-ORTE-JOB"); (223, "JOB-STDOUT-TARGET"); (224, "JOB-POWER"); (225, "JOB-MAX_FREQ");
    (226, "JOB-MIN_FREQ"); (227, "JOB-FREQ-GOVERNOR"); (228, "JOB-FAIL-NOTIFIED"); (229, "JOB-TERM-NOTIFIED");
    (230, "JOB-PEER-MODX-ID"); (231, "JOB-INIT-BAR-ID"); (232, "JOB-FINI-BAR-ID"); (233, "JOB-FWD-IO-TO-TOOL");
    (234, "JOB-PHYSICAL-CPUIDS"); (235, "JOB-LAUNCHED-DAEMONS"); (236, "JOB-REPORT-BINDINGS");
    (237, "JOB-SLOT-LIST"); (238, "JOB-NOTIFICATIONS"); (301, "PROC-NOBARRIER"); (302, "PROC-CPU-BITMAP");
    (303, "PROC-HWLOC-LOCALE"); (304, "PROC-HWLOC-BOUND"); (305, "PROC-PRIOR-NODE"); (306, "PROC-NUM-RESTARTS");
    (307, "PROC-RESTART-TIME"); (308, "PROC-FAST-FAILS"); (309, "PROC-CKPT-STATE"); (310, "PROC-SNAPHOT-REF");
    (311, "PROC-SNAPSHOT-LOC"); (312, "PROC-NODENAME"); (313, "PROC-CGROUP"); (314, "PROC-NBEATS") ].

Definition orcm_key_names : list (Z * string) :=
  [ (1001, "PWRMGMT_POWER_MODE"); (1002, "PWRMGMT_POWER_BUDGET"); (1003, "PWRMGMT_POWER_WINDOW");
    (1004, "PWRMGMT_CAP_OVERAGE_LIMIT"); (1005, "PWRMGMT_CAP_UNDERAGE_LIMIT");
    (1006, "PWRMGMT_CAP_OVERAGE_TIME_LIMIT"); (1007, "PWRMGMT_CAP_UNDERAGE_TIME_LIMIT");
    (1008, "PWRMGMT_SUPPORTED_MODES"); (1010, "PWRMGMT_SELECTED_COMPONENT"); (1011, "PWRMGMT_FREQ_STRICT") ].

Definition key_name (names : list (Z * string)) (key : Z) : cstr :=
  match find (fun kn => key =? kn.1) names with Some kn => cs kn.2 | None => cs "UNKNOWN-KEY" end.

Definition orcm_attr_key_print (key : Z) : cstr :=
  if (ORCM_ATTR_KEY_BASE <? key) && (key <? ORCM_ATTR_KEY_MAX) then key_name orcm_key_names key else cs "UNKNOWN-KEY".

(** An entry of the table of converters, if it is in use. *)
Record orte_attr_converter_t : Type := MkConverter {
  cv_project : cstr;
  cv_key_base : Z;
  cv_key_max : Z;
  cv_converter : Z -> cstr
}.

(** The table of five entries is filled from the front: the list of the
    entries in use. *)
Definition orte_attr_register (converters : list orte_attr_converter_t) (project : cstr) (key_base key_max : Z)
    (converter : Z -> cstr) : Z * list orte_attr_converter_t :=
  if (length converters <? MAX_CONVERTERS)%nat then
    (OPAL_SUCCESS, converters ++ [MkConverter (take (MAX_CONVERTER_PROJECT_LEN - 1) project) key_base key_max converter])
  else (OPAL_ERR_OUT_OF_RESOURCE, converters).

Definition orte_attr_key_to_str (converters : list orte_attr_converter_t) (key : Z) : cstr :=
  if (ORTE_ATTR_KEY_BASE <? key) && (key <? ORTE_ATTR_KEY_MAX) then key_name orte_key_names key
  else
    match find (fun c => (cv_key_base c <? key) && (key <? cv_key_max c)) converters with
    | Some c => cv_converter c key
    | None => cs "UNKNOWN-KEY"
    end.

(** ** Properties *)
Lemma strlen_trim a n : c_strlen a = Some n -> c_strlen (trim a) = Some n /\ trim (trim a) = trim a.
Proof.
  intros E. assert (Ht : c_strlen (trim a) = Some n).
  { unfold trim. rewrite E. revert n E. unfold c_strlen. induction a as [|z a IH]; intros n E; [done|]. cbn in E |- *.
    destruct (z =? 0) eqn:Ez; [by injection E as <-|].
    destruct (find_index (fun b => b =? 0) a) as [k|]; [|done]. injection E as <-. cbn. by rewrite (IH k eq_refl). }
  split; [done|]. unfold trim at 1. rewrite Ht. unfold trim. rewrite E. by rewrite take_take, Nat.min_id.
Qed.

Lemma copy_copy sh d d' : copy_data sh d = Ret d' -> copy_data sh d' = Ret d'.
Proof.
  destruct sh; destruct d as [[|z [|]]|[|z [|]]|[|z [|]]|[|z [|]]|[|[z|] [|]]|[|z [|]]|[|z [|]]|[|z [|]]]; cbn;
    intros E; try (by injection E as <-); try done.
  destruct (c_strlen z) as [n|] eqn:En; [|done]. injection E as <-. cbn. destruct (strlen_trim z n En) as [-> ->]. done.
Qed.

Definition keys (attributes : list orte_attribute_t) : list Z := at_key <$> attributes.

(** The type and the value under a key. *)
Definition valued (attributes : list orte_attribute_t) (key : Z) : option (Z * dss_data) :=
  (fun kv => (at_type kv, at_data kv)) <$> find (has_key key) attributes.

Lemma get_valued attributes key type :
  orte_get_attribute attributes key (Some true) type =
    match valued attributes key with
    | Some (ty, d) => if negb (ty =? type) then Ret (false, None)
                      else '(_, d) ← orte_attr_unload (MkAttr key false ty d) true type; Ret (true, d)
    | None => Ret (false, None)
    end.
Proof. unfold valued. induction attributes as [|kv l IH]; [done|]. cbn. by destruct (has_key key kv). Qed.

Lemma unload_copy type sh d : shape_of type = Some sh -> copy_data sh d = Ret d ->
  forall key local, orte_attr_unload (MkAttr key local type d) true type = Ret (OPAL_SUCCESS, Some d).
Proof.
  intros Hs Hd key local. unfold orte_attr_unload. cbn [at_type at_data]. rewrite Z.eqb_refl, Hs. cbn [negb].
  destruct sh; cbn [default id]; by rewrite Hd.
Qed.

Lemma find_snoc {A} (f : A -> bool) l x :
  find f (l ++ [x]) = match find f l with Some y => Some y | None => if f x then Some x else None end.
Proof. induction l as [|y l IH]; [done|]. cbn. by destruct (f y). Qed.

#[local] Arguments orte_attr_load : simpl never.

Section SetOne.
Context (key : Z) (local : bool) (d d' : dss_data) (type : Z) (sh : shape).
Hypothesis Hs : shape_of type = Some sh.
Hypothesis Hd : copy_data sh d = Ret d'.

Lemma load_value kv : orte_attr_load kv (Some d) type = Ret (OPAL_SUCCESS, MkAttr (at_key kv) (at_local kv) type d').
Proof. unfold orte_attr_load. by rewrite Hs, Hd. Qed.

Lemma set_present_valued attributes :
  match valued attributes key with Some (ty, _) => ty = type | None => True end ->
  (set_present attributes key (Some d) type = None /\ valued attributes key = None /\ key ∉ keys attributes) \/
  exists attributes', set_present attributes key (Some d) type = Some (Ret (OPAL_SUCCESS, attributes')) /\
    valued attributes' key = Some (type, d') /\ (forall k, k <> key -> valued attributes' k = valued attributes k) /\
    keys attributes' = keys attributes /\ key ∈ keys attributes.
Proof.
  intros Hty. induction attributes as [|kv l IH]; [left; split_and!; [done|done|apply not_elem_of_nil]|].
  unfold valued, keys in *. cbn in *. destruct (has_key key kv) eqn:Ek; unfold has_key in Ek.
  - right. cbn in Hty. rewrite Hty, Z.eqb_refl, load_value. cbn [negb]. rewrite bind_Ret. eexists. split; [reflexivity|].
    apply Z.eqb_eq in Ek. cbn. unfold has_key. cbn. rewrite (proj2 (Z.eqb_eq key (at_key kv))) by done.
    split_and!; [done| |done|rewrite Ek; apply elem_of_cons; by left].
    intros k Hk. by rewrite (proj2 (Z.eqb_neq k (at_key kv))) by congruence.
  - apply Z.eqb_neq in Ek. destruct (IH Hty) as [(-> & Hv & Hk)|(l' & -> & Hv & Hother & Hk & Hin)].
    + left. split_and!; [done|done|]. rewrite not_elem_of_cons. by split.
    + right. cbn. eexists. split; [reflexivity|]. unfold has_key in *. cbn. rewrite (proj2 (Z.eqb_neq key (at_key kv))) by done.
      split_and!; [done| |by f_equal|apply elem_of_cons; by right].
      intros k Hne. destruct (k =? at_key kv); [done|]. by apply Hother.
Qed.

(** A value is put under the key, in its place or at the end, unless a value
    of another type is there. *)
Lemma set_valued attributes :
  match valued attributes key with Some (ty, _) => ty = type | None => True end ->
  exists attributes', orte_set_attribute attributes key local (Some d) type = Ret (OPAL_SUCCESS, attributes') /\
    valued attributes' key = Some (type, d') /\ (forall k, k <> key -> valued attributes' k = valued attributes k) /\
    keys attributes' = if bool_decide (key ∈ keys attributes) then keys attributes else keys attributes ++ [key].
Proof.
  intros Hty. unfold orte_set_attribute.
  destruct (set_present_valued attributes Hty) as [(-> & Hv & Hk)|(l' & -> & Hv & Hother & Hk & Hin)].
  - rewrite load_value, bind_Ret. cbn [negb Z.eqb OPAL_SUCCESS]. eexists. split; [reflexivity|]. rewrite bool_decide_eq_false_2 by done.
    assert (Hfind : forall k, find (has_key k) (attributes ++ [MkAttr key local type d']) =
      match find (has_key k) attributes with Some kv => Some kv | None => if k =? key then Some (MkAttr key local type d') else None end).
    { intros k. rewrite find_snoc. done. }
    unfold valued in *. cbn [at_key at_local]. split_and!.
    + rewrite Hfind, Z.eqb_refl. by destruct (find (has_key key) attributes).
    + intros k Hne. rewrite Hfind. replace (k =? key) with false by (symmetry; by apply Z.eqb_neq).
      by destruct (find (has_key k) attributes).
    + unfold keys. by rewrite fmap_app.
  - exists l'. rewrite bool_decide_eq_true_2 by done. by split_and!.
Qed.
End SetOne.
