(* ===== verification/Scheduler.v ===== *)
(** * The session scheduler ([orcm/mca/scd])

    The state of [orcm_scd_base] and the handlers of its two state machines:
    the PMF scheduler ([pmf/scd_pmf.c]), which runs on the progress thread
    "scd", and the resource manager ([base/scd_base_rm.c]), which runs on the
    main event loop together with the message callbacks
    ([base/scd_base_recv.c], [base/scd_base_rm_recv.c]).

    Sessions live in [sc_sessions]; a session's address is its position there.
    They are reference counted and the list that activates them keeps a
    reference, so none is freed while it is reachable.  Session lists are
    intrusive: putting a session on a list while it is on another one breaks
    both, which is [Ub] here.  The node array is a list of optional pointers;
    [size - number_free] is the number of pointers that are not NULL.

    Each thread has an event queue; an activation appends to the queue of the
    machine it is meant for and the loop serves the oldest event of the most
    urgent priority.  The handlers run to completion one at a time: the source
    takes no locks, and the model interleaves whole handlers.  Each thread has
    its own [errno], of which [ERANGE] matters to the node-name parser.

    Messages are the decoded values; [ScdPack] models how allocations travel.
    [send_rc] is the answer of the transport to [send_buffer_nb]; logging is
    left out. *)

From S2P Require Import Prelude CString Argv Regex Dss ScdTypes.
From stdpp Require Import base strings numbers list.
From Stdlib Require Import ZArith Lia Ascii.

Open Scope Z_scope.

Definition ORTE_SYS_PRI : Z := 4.
Definition ORCM_ERR_NOT_FOUND : Z := OPAL_ERR_NOT_FOUND.
Definition ORCM_ERR_BAD_PARAM : Z := OPAL_ERR_BAD_PARAM.

(** Messages the scheduler sends. *)
Inductive message : Type :=
| LaunchStepd (a : orcm_alloc_t)             (* ORCM_LAUNCH_STEPD_COMMAND *)
| CancelStepd (a : orcm_alloc_t)             (* ORCM_CANCEL_STEPD_COMMAND *)
| SetPower (a : orcm_alloc_t)                (* ORCM_SET_POWER_COMMAND *)
| SessionId (id : Z)
| SessionInfo (qs : list (cstr * list orcm_alloc_t))
| Answer (rc : Z).

(** ** State *)
Record orcm_scd_base_t : Type := MkScd {
  sc_states : list orcm_scd_state_t;
  sc_rmstates : list orcm_scd_state_t;
  sc_queues : list orcm_queue_t;
  sc_nodes : list (option orcm_node_t);
  sc_topologies : list hwloc_topology_t;
  sc_tracking : list orcm_alloc_tracker_t;
  sc_sessions : list orcm_session_t;
  sc_last_id : Z;
  sc_scd_events : list orcm_session_caddy_t;
  sc_rm_events : list orcm_session_caddy_t;
  sc_scd_errno : bool;
  sc_rm_errno : bool;
  sc_sent : list (orte_process_name_t * message)
}.

Definition upd_states f (s : orcm_scd_base_t) := MkScd (f (sc_states s)) (sc_rmstates s)
  (sc_queues s) (sc_nodes s) (sc_topologies s) (sc_tracking s) (sc_sessions s) (sc_last_id s)
  (sc_scd_events s) (sc_rm_events s) (sc_scd_errno s) (sc_rm_errno s) (sc_sent s).
Definition upd_rmstates f (s : orcm_scd_base_t) := MkScd (sc_states s) (f (sc_rmstates s))
  (sc_queues s) (sc_nodes s) (sc_topologies s) (sc_tracking s) (sc_sessions s) (sc_last_id s)
  (sc_scd_events s) (sc_rm_events s) (sc_scd_errno s) (sc_rm_errno s) (sc_sent s).
Definition upd_queues f (s : orcm_scd_base_t) := MkScd (sc_states s) (sc_rmstates s)
  (f (sc_queues s)) (sc_nodes s) (sc_topologies s) (sc_tracking s) (sc_sessions s) (sc_last_id s)
  (sc_scd_events s) (sc_rm_events s) (sc_scd_errno s) (sc_rm_errno s) (sc_sent s).
Definition upd_nodes f (s : orcm_scd_base_t) := MkScd (sc_states s) (sc_rmstates s)
  (sc_queues s) (f (sc_nodes s)) (sc_topologies s) (sc_tracking s) (sc_sessions s) (sc_last_id s)
  (sc_scd_events s) (sc_rm_events s) (sc_scd_errno s) (sc_rm_errno s) (sc_sent s).
Definition upd_topologies f (s : orcm_scd_base_t) := MkScd (sc_states s) (sc_rmstates s)
  (sc_queues s) (sc_nodes s) (f (sc_topologies s)) (sc_tracking s) (sc_sessions s) (sc_last_id s)
  (sc_scd_events s) (sc_rm_events s) (sc_scd_errno s) (sc_rm_errno s) (sc_sent s).
Definition upd_tracking f (s : orcm_scd_base_t) := MkScd (sc_states s) (sc_rmstates s)
  (sc_queues s) (sc_nodes s) (sc_topologies s) (f (sc_tracking s)) (sc_sessions s) (sc_last_id s)
  (sc_scd_events s) (sc_rm_events s) (sc_scd_errno s) (sc_rm_errno s) (sc_sent s).
Definition upd_sessions f (s : orcm_scd_base_t) := MkScd (sc_states s) (sc_rmstates s)
  (sc_queues s) (sc_nodes s) (sc_topologies s) (sc_tracking s) (f (sc_sessions s)) (sc_last_id s)
  (sc_scd_events s) (sc_rm_events s) (sc_scd_errno s) (sc_rm_errno s) (sc_sent s).
Definition upd_last_id f (s : orcm_scd_base_t) := MkScd (sc_states s) (sc_rmstates s)
  (sc_queues s) (sc_nodes s) (sc_topologies s) (sc_tracking s) (sc_sessions s) (f (sc_last_id s))
  (sc_scd_events s) (sc_rm_events s) (sc_scd_errno s) (sc_rm_errno s) (sc_sent s).
Definition upd_scd_events f (s : orcm_scd_base_t) := MkScd (sc_states s) (sc_rmstates s)
  (sc_queues s) (sc_nodes s) (sc_topologies s) (sc_tracking s) (sc_sessions s) (sc_last_id s)
  (f (sc_scd_events s)) (sc_rm_events s) (sc_scd_errno s) (sc_rm_errno s) (sc_sent s).
Definition upd_rm_events f (s : orcm_scd_base_t) := MkScd (sc_states s) (sc_rmstates s)
  (sc_queues s) (sc_nodes s) (sc_topologies s) (sc_tracking s) (sc_sessions s) (sc_last_id s)
  (sc_scd_events s) (f (sc_rm_events s)) (sc_scd_errno s) (sc_rm_errno s) (sc_sent s).
Definition upd_scd_errno f (s : orcm_scd_base_t) := MkScd (sc_states s) (sc_rmstates s)
  (sc_queues s) (sc_nodes s) (sc_topologies s) (sc_tracking s) (sc_sessions s) (sc_last_id s)
  (sc_scd_events s) (sc_rm_events s) (f (sc_scd_errno s)) (sc_rm_errno s) (sc_sent s).
Definition upd_rm_errno f (s : orcm_scd_base_t) := MkScd (sc_states s) (sc_rmstates s)
  (sc_queues s) (sc_nodes s) (sc_topologies s) (sc_tracking s) (sc_sessions s) (sc_last_id s)
  (sc_scd_events s) (sc_rm_events s) (sc_scd_errno s) (f (sc_rm_errno s)) (sc_sent s).
Definition upd_sent f (s : orcm_scd_base_t) := MkScd (sc_states s) (sc_rmstates s)
  (sc_queues s) (sc_nodes s) (sc_topologies s) (sc_tracking s) (sc_sessions s) (sc_last_id s)
  (sc_scd_events s) (sc_rm_events s) (sc_scd_errno s) (sc_rm_errno s) (f (sc_sent s)).

(** [orcm_scd_base_open]: empty lists and arrays. *)
Definition orcm_scd_base_open : orcm_scd_base_t :=
  MkScd [] [] [] [] [] [] [] 0 [] [] false false [].

(** ** Access to sessions and queues *)

(** [session->alloc->...]: a NULL allocation is a NULL dereference. *)
Definition session_alloc (s : orcm_scd_base_t) (sid : nat) : outcome orcm_alloc_t :=
  match sc_sessions s !! sid with
  | Some se => match s_alloc se with Some a => Ret a | None => Ub end
  | None => Ub
  end.

Definition session_id (s : orcm_scd_base_t) (sid : nat) : outcome Z :=
  match sc_sessions s !! sid with Some se => Ret (s_id se) | None => Ub end.

Definition alter_alloc (f : orcm_alloc_t -> orcm_alloc_t) (sid : nat) : orcm_scd_base_t -> orcm_scd_base_t :=
  upd_sessions (alter (fun se => MkSession (s_id se) (f <$> s_alloc se)) sid).

(** [OBJ_NEW(orcm_session_t)] with its fields assigned. *)
Definition new_session (se : orcm_session_t) (s : orcm_scd_base_t) : nat * orcm_scd_base_t :=
  (length (sc_sessions s), upd_sessions (fun l => l ++ [se]) s).

(** The first queue of a name. *)
Definition find_queue (name : cstr) (s : orcm_scd_base_t) : option nat :=
  find_index (fun q => strcmp0 (q_name q) name) (sc_queues s).

Definition on_list (s : orcm_scd_base_t) (sid : nat) : bool :=
  existsb (fun q => bool_decide (sid ∈ q_sessions q)) (sc_queues s).

Definition upd_queue_sessions (f : list nat -> list nat) (k : nat) : orcm_scd_base_t -> orcm_scd_base_t :=
  upd_queues (alter (fun q => MkQueue (q_name q) (q_priority q) (f (q_sessions q))) k).

(** [opal_list_append] and [opal_list_prepend] on the list of queue [k].  The
    links of a list are in its items: an item that is on a list and is linked
    into another one takes its successor there, and walking the first list then
    ends up at the sentinel of the second.  A debug build asserts that the item
    is on no list; here linking it again is an error that ends the run.  Where
    it can happen is part of what is proved of the scheduler. *)
Definition queue_append (k sid : nat) (s : orcm_scd_base_t) : outcome orcm_scd_base_t :=
  if on_list s sid then Ub else Ret (upd_queue_sessions (fun l => l ++ [sid]) k s).
Definition queue_prepend (k sid : nat) (s : orcm_scd_base_t) : outcome orcm_scd_base_t :=
  if on_list s sid then Ub else Ret (upd_queue_sessions (fun l => sid :: l) k s).

(** ** The state machines ([scd_base_fns.c], [scd_base_rm_fns.c]) *)

(** The search of both [activate] functions: the entries for ANY and ERROR
    are only the defaults, never matched themselves. *)
Fixpoint find_state (tbl : list orcm_scd_state_t) (state : Z) (any error : option orcm_scd_state_t)
    : option orcm_scd_state_t :=
  match tbl with
  | [] => if (ORCM_SESSION_STATE_ERROR <? state) && bool_decide (is_Some error) then error else any
  | e :: tbl' =>
    if st_state e =? ORCM_SESSION_STATE_ANY then find_state tbl' state (Some e) error
    else if st_state e =? ORCM_SESSION_STATE_ERROR then find_state tbl' state any (Some e)
    else if st_state e =? state then Some e
    else find_state tbl' state any error
  end.

(** The event an activation adds, if any. *)
Definition activation (tbl : list orcm_scd_state_t) (state : Z) (sid : nat)
    : list orcm_session_caddy_t :=
  match find_state tbl state None None with
  | Some e =>
    match st_cbfunc e with
    | Some f => [MkCaddy f (st_priority e) sid]
    | None => []
    end
  | None => []
  end.

Definition orcm_scd_base_activate_session_state (sid : nat) (state : Z) (s : orcm_scd_base_t)
    : orcm_scd_base_t :=
  upd_scd_events (fun l => l ++ activation (sc_states s) state sid) s.

Definition orcm_scd_base_rm_activate_session_state (sid : nat) (state : Z) (s : orcm_scd_base_t)
    : orcm_scd_base_t :=
  upd_rm_events (fun l => l ++ activation (sc_rmstates s) state sid) s.

Definition orcm_scd_base_add_session_state (state : Z) (cb : option cbfunc) (priority : Z)
    (s : orcm_scd_base_t) : Z * orcm_scd_base_t :=
  if existsb (fun e => st_state e =? state) (sc_states s) then (ORCM_ERR_BAD_PARAM, s)
  else (OPAL_SUCCESS, upd_states (fun l => l ++ [MkState state cb priority]) s).

Definition orcm_scd_base_rm_add_session_state (state : Z) (cb : option cbfunc) (priority : Z)
    (s : orcm_scd_base_t) : Z * orcm_scd_base_t :=
  if existsb (fun e => st_state e =? state) (sc_rmstates s) then (ORCM_ERR_BAD_PARAM, s)
  else (OPAL_SUCCESS, upd_rmstates (fun l => l ++ [MkState state cb priority]) s).

(** The registration loops of [scd_base_rm_init] and of PMF's [init]. *)
Fixpoint add_states (add : Z -> option cbfunc -> Z -> orcm_scd_base_t -> Z * orcm_scd_base_t)
    (l : list (Z * cbfunc)) (s : orcm_scd_base_t) : Z * orcm_scd_base_t :=
  match l with
  | [] => (OPAL_SUCCESS, s)
  | (state, cb) :: l' =>
    let '(rc, s) := add state (Some cb) ORTE_SYS_PRI s in
    if negb (rc =? OPAL_SUCCESS) then (rc, s) else add_states add l' s
  end.

Definition scd_base_rm_init : orcm_scd_base_t -> Z * orcm_scd_base_t :=
  add_states orcm_scd_base_rm_add_session_state
    [(ORCM_SESSION_STATE_UNDEF, Rm_undef); (ORCM_SESSION_STATE_REQ, Rm_request);
     (ORCM_SESSION_STATE_ACTIVE, Rm_active); (ORCM_SESSION_STATE_KILL, Rm_kill)].

(** The status of [scd_base_rm_init] is ignored. *)
Definition pmf_init (s : orcm_scd_base_t) : Z * orcm_scd_base_t :=
  let '(_, s) := scd_base_rm_init s in
  add_states orcm_scd_base_add_session_state
    [(ORCM_SESSION_STATE_UNDEF, Pmf_undef); (ORCM_SESSION_STATE_INIT, Pmf_find_queue);
     (ORCM_SESSION_STATE_SCHEDULE, Pmf_schedule); (ORCM_SESSION_STATE_ALLOCD, Pmf_allocated);
     (ORCM_SESSION_STATE_TERMINATED, Pmf_terminated); (ORCM_SESSION_STATE_CANCEL, Pmf_cancel)] s.

(** ** Queues ([orcm_scd_base_construct_queues]) *)

(** Before the first queue of lower priority; without one the new queue is
    put nowhere. *)
Fixpoint insert_queue (q : orcm_queue_t) (qs : list orcm_queue_t) : list orcm_queue_t :=
  match qs with
  | [] => []
  | q2 :: qs' => if q_priority q2 <? q_priority q then q :: qs else q2 :: insert_queue q qs'
  end.

(** The loop over the configured queues; the first malformed entry ends it. *)
Fixpoint config_queues (cfg : list cstr) (s : orcm_scd_base_t) : outcome orcm_scd_base_t :=
  match cfg with
  | [] => Ret s
  | c :: cfg' =>
    t1 ← opal_argv_split (Some c) ":";
    match argv_list t1 with
    | [name; pri; _] =>
      let '(v, _, e) := strtol10 pri in
      config_queues cfg'
        (upd_scd_errno (fun b => b || e)
           (upd_queues (insert_queue (MkQueue name (i32 v) [])) s))
    | _ => Ret s
    end
  end.

Definition orcm_scd_base_construct_queues (cfg : argv_t) (s : orcm_scd_base_t)
    : outcome orcm_scd_base_t :=
  let s := upd_queues (fun l => l ++ [MkQueue (cs "running") 0 []; MkQueue (cs "hold") 0 [];
                                      MkQueue (cs "default") 0 []]) s in
  config_queues (argv_list cfg) s.

(** ** Nodes *)

Definition available (n : orcm_node_t) : bool :=
  (n_scd_state n =? ORCM_SCD_NODE_STATE_UNALLOC) && (n_state n =? ORCM_NODE_STATE_UP).

(** The nodes that are not NULL. *)
Definition node_list (s : orcm_scd_base_t) : list orcm_node_t := omap id (sc_nodes s).

(** [nodes.size - nodes.number_free] *)
Definition num_defined (s : orcm_scd_base_t) : Z := Z.of_nat (length (node_list s)).

(** The counting loop of [pmf_schedule]. *)
Fixpoint count_free (ns : list (option orcm_node_t)) (free_nodes : Z) : Z :=
  match ns with
  | [] => free_nodes
  | None :: ns' => count_free ns' free_nodes
  | Some n :: ns' => count_free ns' (if available n then free_nodes + 1 else free_nodes)
  end.

(** The assignment loops of [pmf_allocated] and [pmf_terminated]: every node
    of a name. *)
Definition set_scd_state (v : Z) (name : cstr) (n : orcm_node_t) : orcm_node_t :=
  if strcmp0 (n_name n) name then with_scd_state v n else n.

Definition mark_nodes (v : Z) (names : list cstr) (ns : list (option orcm_node_t))
    : list (option orcm_node_t) :=
  foldl (fun ns name => fmap (M := option) (set_scd_state v name) <$> ns) ns names.

(** The two threads. *)
Inductive thread : Type := Scd | Main.

#[export] Instance thread_eq_dec : EqDecision thread.
Proof. solve_decision. Defined.

Section Scheduler.
Variable int_log10 : Z -> Z.
Variable send_rc : orte_process_name_t -> Z.
Variable topo_equal : hwloc_topology_t -> hwloc_topology_t -> bool.
Variable orcm_clusters : list orcm_cluster_t.

(** [orte_rml.send_buffer_nb] *)
Definition send_buffer_nb (dest : orte_process_name_t) (m : message) (s : orcm_scd_base_t)
    : Z * orcm_scd_base_t :=
  if send_rc dest =? OPAL_SUCCESS
  then (OPAL_SUCCESS, upd_sent (fun l => l ++ [(dest, m)]) s)
  else (send_rc dest, s).

(** [orte_regex_extract_node_names] called from either thread. *)
Definition scd_extract (regexp : option cstr) (s : orcm_scd_base_t)
    : outcome (Z * argv_t * orcm_scd_base_t) :=
  '(rc, names, e) ← orte_regex_extract_node_names int_log10 regexp None (sc_scd_errno s);
  Ret (rc, names, upd_scd_errno (fun _ => e) s).
Definition rm_extract (regexp : option cstr) (s : orcm_scd_base_t)
    : outcome (Z * argv_t * orcm_scd_base_t) :=
  '(rc, names, e) ← orte_regex_extract_node_names int_log10 regexp None (sc_rm_errno s);
  Ret (rc, names, upd_rm_errno (fun _ => e) s).

(** ** The PMF scheduler *)

Definition note_exceeds (notes : option cstr) : cstr :=
  match notes with
  | Some t => t ++ cs ", session request exceeds defined resources"
  | None => cs "session exceeds resources"
  end.

(** Put a session on the first queue of a name and ask for scheduling. *)
Definition enqueue (name : cstr) (sid : nat) (s : orcm_scd_base_t) : outcome orcm_scd_base_t :=
  match find_queue name s with
  | None => Ret s
  | Some k =>
    s ← queue_append k sid (alter_alloc (set_queues (Some name)) sid s);
    Ret (orcm_scd_base_activate_session_state sid ORCM_SESSION_STATE_SCHEDULE s)
  end.

Definition pmf_find_queue (sid : nat) (s : orcm_scd_base_t) : outcome orcm_scd_base_t :=
  a ← session_alloc s sid;
  if num_defined s <? a_min_nodes a then
    s ← enqueue (cs "hold") sid s;
    Ret (alter_alloc (fun a => set_notes (Some (note_exceeds (a_notes a))) a) sid s)
  else enqueue (cs "default") sid s.

(** The loop over the queues, by position.  An empty default queue ends it. *)
Fixpoint schedule_queues (ks : list nat) (s : orcm_scd_base_t) : outcome orcm_scd_base_t :=
  match ks with
  | [] => Ret s
  | k :: ks' =>
    match sc_queues s !! k with
    | Some q =>
      if strcmp0 (q_name q) (cs "default") then
        match q_sessions q with
        | [] => Ret s
        | sid :: _ =>
          let s := upd_queue_sessions tail k s in
          a ← session_alloc s sid;
          s ← (if a_min_nodes a <=? count_free (sc_nodes s) 0
               then Ret (orcm_scd_base_rm_activate_session_state sid ORCM_SESSION_STATE_REQ s)
               else queue_prepend k sid s);
          schedule_queues ks' s
        end
      else schedule_queues ks' s
    | None => Ret s
    end
  end.

Definition pmf_schedule (sid : nat) (s : orcm_scd_base_t) : outcome orcm_scd_base_t :=
  schedule_queues (seq 0 (length (sc_queues s))) s.

(** The [ERROR] label: the head of the running queue is taken off and the
    session is put back on the default queue. *)
Definition allocated_error (sid : nat) (s : orcm_scd_base_t) : outcome orcm_scd_base_t :=
  let s := match find_queue (cs "running") s with
           | Some k => upd_queue_sessions tail k s
           | None => s
           end in
  match find_queue (cs "default") s with
  | Some k =>
    s ← queue_prepend k sid s;
    Ret (orcm_scd_base_activate_session_state sid ORCM_SESSION_STATE_SCHEDULE s)
  | None => Ret s
  end.

Definition pmf_allocated (sid : nat) (s : orcm_scd_base_t) : outcome orcm_scd_base_t :=
  a ← session_alloc s sid;
  s ← match find_queue (cs "running") s with
      | Some k => queue_append k sid (alter_alloc (set_queues (Some (cs "running"))) sid s)
      | None => Ret s
      end;
  match a_nodes a with
  | None => Ub                                       (* strcmp(NULL, "ERROR") *)
  | Some nodes =>
    if strcmp0 nodes (cs "ERROR") then allocated_error sid s
    else
      let s := orcm_scd_base_rm_activate_session_state sid ORCM_SESSION_STATE_ACTIVE s in
      '(rc, nodenames, s) ← scd_extract (Some nodes) s;
      if negb (rc =? OPAL_SUCCESS) then allocated_error sid s
      else if negb (opal_argv_count nodenames =? a_min_nodes a) then allocated_error sid s
      else Ret (upd_nodes (mark_nodes ORCM_SCD_NODE_STATE_ALLOC (argv_list nodenames)) s)
  end.

(** The sessions of a list with another id. *)
Definition other_sessions (s : orcm_scd_base_t) (id : Z) (l : list nat) : list nat :=
  filter (fun sid => s_id <$> sc_sessions s !! sid <> Some id) l.

Definition pmf_terminated (sid : nat) (s : orcm_scd_base_t) : outcome orcm_scd_base_t :=
  a ← session_alloc s sid;
  id ← session_id s sid;
  '(rc, nodenames, s) ← scd_extract (a_nodes a) s;
  if negb (rc =? OPAL_SUCCESS) then Ret s
  else
    let s := upd_nodes (mark_nodes ORCM_SCD_NODE_STATE_UNALLOC (argv_list nodenames)) s in
    let s := match find_queue (cs "running") s with
             | Some k => upd_queue_sessions (other_sessions s id) k s
             | None => s
             end in
    Ret (orcm_scd_base_activate_session_state sid ORCM_SESSION_STATE_SCHEDULE s).

(** One queue of the loop of [pmf_cancel]: the first session with the id. *)
Definition cancel_queue (sid : nat) (id : Z) (s : orcm_scd_base_t) (k : nat) : orcm_scd_base_t :=
  match sc_queues s !! k with
  | None => s
  | Some q =>
    match find_index (fun x => bool_decide (s_id <$> sc_sessions s !! x = Some id)) (q_sessions q) with
    | None => s
    | Some i =>
      if strcmp0 (q_name q) (cs "running") then
        match q_sessions q !! i with
        | Some x => orcm_scd_base_rm_activate_session_state x ORCM_SESSION_STATE_KILL s
        | None => s
        end
      else
        orcm_scd_base_activate_session_state sid ORCM_SESSION_STATE_SCHEDULE
          (upd_queue_sessions (delete i) k s)
    end
  end.

Definition pmf_cancel (sid : nat) (s : orcm_scd_base_t) : outcome orcm_scd_base_t :=
  id ← session_id s sid;
  Ret (foldl (cancel_queue sid id) s (seq 0 (length (sc_queues s)))).

(** ** The resource manager *)

(** The selection loop: names of available nodes, joined by commas, until
    none is missing.  Returns the number still missing. *)
Fixpoint request_nodes (ns : list (option orcm_node_t)) (num_nodes : Z) (nodelist : option cstr)
    : Z * option cstr :=
  match ns with
  | [] => (num_nodes, nodelist)
  | None :: ns' => request_nodes ns' num_nodes nodelist
  | Some n :: ns' =>
    if available n then
      let nodelist := match nodelist with
                      | Some l => l ++ ","%char :: n_name n
                      | None => n_name n
                      end in
      if num_nodes - 1 =? 0 then (0, Some nodelist)
      else request_nodes ns' (num_nodes - 1) (Some nodelist)
    else request_nodes ns' num_nodes nodelist
  end.

Definition scd_base_rm_request (sid : nat) (s : orcm_scd_base_t) : outcome orcm_scd_base_t :=
  a ← session_alloc s sid;
  if 0 <? a_min_nodes a then
    let '(num_nodes, nodelist) := request_nodes (sc_nodes s) (a_min_nodes a) None in
    s ← (if num_nodes =? 0 then
           match nodelist with
           | None => Ub
           | Some l =>
             '(rc, noderegex, e) ← orte_regex_create l (sc_rm_errno s);
             let nodes := if negb (rc =? OPAL_SUCCESS) then cs "ERROR" else noderegex in
             Ret (alter_alloc (set_nodes (Some nodes)) sid (upd_rm_errno (fun _ => e) s))
           end
         else Ret s);
    Ret (orcm_scd_base_activate_session_state sid ORCM_SESSION_STATE_ALLOCD s)
  else Ret s.

(** The inner loop of [scd_base_rm_active] and [scd_base_rm_kill]: contact
    the nodes called [nodenames[i]].  The flag is false when sending failed,
    which ends the handler. *)
Fixpoint contact_nodes (launch : bool) (sid i : nat) (name : option cstr)
    (ns : list (option orcm_node_t)) (s : orcm_scd_base_t) : outcome (bool * orcm_scd_base_t) :=
  match ns with
  | [] => Ret (true, s)
  | None :: ns' => contact_nodes launch sid i name ns' s
  | Some n :: ns' =>
    match name with
    | None => Ub                               (* nodenames[i] is NULL or past the end *)
    | Some nm =>
      if strcmp0 (n_name n) nm then
        let s := if launch && (i =? 0)%nat then alter_alloc (set_hnp (n_daemon n)) sid s else s in
        a ← session_alloc s sid;
        let '(rc, s) := send_buffer_nb (n_daemon n) (if launch then LaunchStepd a else CancelStepd a) s in
        if negb (rc =? OPAL_SUCCESS) then Ret (false, s)
        else contact_nodes launch sid i name ns' s
      else contact_nodes launch sid i name ns' s
    end
  end.

Fixpoint contact_names (launch : bool) (sid : nat) (idxs : list nat) (names : list cstr)
    (s : orcm_scd_base_t) : outcome orcm_scd_base_t :=
  match idxs with
  | [] => Ret s
  | i :: idxs' =>
    '(ok, s) ← contact_nodes launch sid i (names !! i) (sc_nodes s) s;
    if (ok : bool) then contact_names launch sid idxs' names s else Ret s
  end.

Definition scd_base_rm_active (sid : nat) (s : orcm_scd_base_t) : outcome orcm_scd_base_t :=
  a ← session_alloc s sid;
  id ← session_id s sid;
  '(rc, nodenames, s) ← rm_extract (a_nodes a) s;
  if negb (rc =? OPAL_SUCCESS) then Ret s
  else
    match nodenames with
    | None => Ret s
    | Some [] => Ub                            (* strdup(NULL) *)
    | Some ((name :: _) as names) =>
      let s := alter_alloc (set_hnpname (Some name)) sid s in
      let s := upd_tracking (fun l => l ++ [MkTracker (i32 id) 0]) s in
      contact_names true sid (seq 0 (Z.to_nat (a_min_nodes a))) names s
    end.

Definition scd_base_rm_kill (sid : nat) (s : orcm_scd_base_t) : outcome orcm_scd_base_t :=
  a ← session_alloc s sid;
  '(rc, nodenames, s) ← rm_extract (a_nodes a) s;
  if negb (rc =? OPAL_SUCCESS) then Ret s
  else
    match nodenames with
    | None => Ret s
    | Some names => contact_names false sid (seq 0 (Z.to_nat (a_min_nodes a))) names s
    end.

(** ** Messages to the resource manager *)

(** What [update_nodestate_byproc] and [_byname] assign to a node they find. *)
Definition update_node (state newstate : Z) (topo : option hwloc_topology_t) (n : orcm_node_t)
    : orcm_node_t :=
  let n := with_state newstate n in
  let n := if state =? ORCM_NODE_STATE_UP then with_topology topo n else n in
  if (state =? ORCM_NODE_STATE_UP) &&
     ((n_scd_state n =? ORCM_SCD_NODE_STATE_UNDEF) || (n_scd_state n =? ORCM_SCD_NODE_STATE_UNKNOWN))
  then with_scd_state ORCM_SCD_NODE_STATE_UNALLOC n else n.

(** Update the first node that matches; the flag says whether there is one. *)
Fixpoint update_first (P : orcm_node_t -> bool) (f : orcm_node_t -> orcm_node_t)
    (ns : list (option orcm_node_t)) : bool * list (option orcm_node_t) :=
  match ns with
  | [] => (false, [])
  | None :: ns' => let '(b, l) := update_first P f ns' in (b, None :: l)
  | Some n :: ns' =>
    if P n then (true, Some (f n) :: ns')
    else let '(b, l) := update_first P f ns' in (b, Some n :: l)
  end.

(** The loop over the keys (daemon names or node names). *)
Fixpoint update_all {K} (P : K -> orcm_node_t -> bool) (f : orcm_node_t -> orcm_node_t)
    (keys : list K) (found : bool) (ns : list (option orcm_node_t)) : bool * list (option orcm_node_t) :=
  match keys with
  | [] => (found, ns)
  | k :: keys' =>
    let '(b, ns) := update_first (P k) f ns in update_all P f keys' (found || b) ns
  end.

(** [orte_util_compare_name_fields(ORTE_NS_CMP_ALL, ..)] is [OPAL_EQUAL] *)
Definition name_eqb (a b : orte_process_name_t) : bool := bool_decide (a = b).

Definition update_nodestate_byproc (state : Z) (names : list orte_process_name_t)
    (topo : option hwloc_topology_t) (s : orcm_scd_base_t) : Z * orcm_scd_base_t :=
  let '(found, ns) := update_all (fun k n => name_eqb (n_daemon n) k) (update_node state state topo)
                        names false (sc_nodes s) in
  (if (found : bool) then OPAL_SUCCESS else ORCM_ERR_NOT_FOUND, upd_nodes (fun _ => ns) s).

Definition update_nodestate_byname (state : Z) (regexp : option cstr)
    (topo : option hwloc_topology_t) (s : orcm_scd_base_t) : outcome (Z * orcm_scd_base_t) :=
  let newstate := if state =? ORCM_NODE_STATE_RESUME then ORCM_NODE_STATE_UP else state in
  '(rc, nodenames, s) ← rm_extract regexp s;
  if negb (rc =? OPAL_SUCCESS) then Ret (rc, s)
  else
    let '(found, ns) := update_all (fun k n => strcmp0 (n_name n) k) (update_node state newstate topo)
                          (argv_list nodenames) false (sc_nodes s) in
    Ret (if (found : bool) then OPAL_SUCCESS else ORCM_ERR_NOT_FOUND, upd_nodes (fun _ => ns) s).

(** [orcm_util_get_dependents]: the daemons below the first controller of
    that name, in the order of the configuration. *)
Definition rack_below (r : orcm_rack_t) : list orte_process_name_t := rack_controller r :: rack_nodes r.
Definition row_below (r : orcm_row_t) : list orte_process_name_t :=
  row_controller r :: (row_racks r ≫= rack_below).

Fixpoint racks_dependents (racks : list orcm_rack_t) (root : orte_process_name_t)
    : option (list orte_process_name_t) :=
  match racks with
  | [] => None
  | r :: racks' =>
    if name_eqb (rack_controller r) root then Some (rack_nodes r) else racks_dependents racks' root
  end.

Fixpoint rows_dependents (rows : list orcm_row_t) (root : orte_process_name_t)
    : option (list orte_process_name_t) :=
  match rows with
  | [] => None
  | r :: rows' =>
    if name_eqb (row_controller r) root then Some (row_racks r ≫= rack_below)
    else match racks_dependents (row_racks r) root with
         | Some l => Some l
         | None => rows_dependents rows' root
         end
  end.

Fixpoint clusters_dependents (cl : list orcm_cluster_t) (root : orte_process_name_t)
    : option (list orte_process_name_t) :=
  match cl with
  | [] => None
  | c :: cl' =>
    if name_eqb (cluster_controller c) root then Some (cluster_rows c ≫= row_below)
    else match rows_dependents (cluster_rows c) root with
         | Some l => Some l
         | None => clusters_dependents cl' root
         end
  end.

Definition orcm_util_get_dependents (targets : list orte_process_name_t) (root : orte_process_name_t)
    : Z * list orte_process_name_t :=
  match clusters_dependents orcm_clusters root with
  | Some l => (OPAL_SUCCESS, targets ++ l)
  | None => (ORCM_ERR_NOT_FOUND, targets)
  end.

(** A topology that is already known is destroyed and its pointer cleared. *)
Definition record_topology (topo : option hwloc_topology_t) (s : orcm_scd_base_t)
    : option hwloc_topology_t * orcm_scd_base_t :=
  match topo with
  | None => (None, s)
  | Some t =>
    if existsb (topo_equal t) (sc_topologies s) then (None, s)
    else (Some t, upd_topologies (fun l => l ++ [t]) s)
  end.

(** A completion report: the first tracker of the allocation counts it. *)
Fixpoint check_in (id min_nodes : Z) (trks : list orcm_alloc_tracker_t)
    : option (bool * list orcm_alloc_tracker_t) :=
  match trks with
  | [] => None
  | t :: trks' =>
    if trk_alloc_id t =? id then
      let count := trk_count_checked_in t + 1 in
      if count =? min_nodes then Some (true, trks')
      else Some (false, MkTracker (trk_alloc_id t) count :: trks')
    else
      match check_in id min_nodes trks' with
      | Some (b, l) => Some (b, t :: l)
      | None => None
      end
  end.

Definition stepd_complete (alloc : orcm_alloc_t) (s : orcm_scd_base_t) : orcm_scd_base_t :=
  match check_in (a_id alloc) (a_min_nodes alloc) (sc_tracking s) with
  | None => s
  | Some (false, l) => upd_tracking (fun _ => l) s
  | Some (true, l) =>
    let '(sid, s) := new_session (MkSession (u32 (a_id alloc)) (Some alloc)) s in
    upd_tracking (fun _ => l)
      (orcm_scd_base_activate_session_state sid ORCM_SESSION_STATE_TERMINATED s)
  end.

Inductive rm_message : Type :=
| NodeUp (node : orte_process_name_t) (topo : option hwloc_topology_t)
| NodeDown (node : orte_process_name_t)
| NodeDrain (regexp : option cstr)
| NodeResume (regexp : option cstr)
| NodeOther (state : Z)                        (* any other node state *)
| StepdComplete (alloc : orcm_alloc_t)
| RmSetPower (alloc : orcm_alloc_t)
| RmOther (command : Z).

Definition orcm_scd_base_rm_recv (sender : orte_process_name_t) (m : rm_message) (s : orcm_scd_base_t)
    : outcome orcm_scd_base_t :=
  match m with
  | NodeUp node topo =>
    let '(topo, s) := record_topology topo s in
    Ret (update_nodestate_byproc ORCM_NODE_STATE_UP [node] topo s).2
  | NodeDown node =>
    let '(_, nodelist) := orcm_util_get_dependents [] node in
    let nodelist := match nodelist with [] => [node] | _ => nodelist end in
    Ret (update_nodestate_byproc ORCM_NODE_STATE_DOWN nodelist None s).2
  | NodeDrain regexp =>
    '(rc, s) ← update_nodestate_byname ORCM_NODE_STATE_DRAIN regexp None s;
    Ret (send_buffer_nb sender (Answer rc) s).2
  | NodeResume regexp =>
    '(rc, s) ← update_nodestate_byname ORCM_NODE_STATE_RESUME regexp None s;
    Ret (send_buffer_nb sender (Answer rc) s).2
  | NodeOther _ => Ret s
  | StepdComplete alloc => Ret (stepd_complete alloc s)
  | RmSetPower alloc => Ret (send_buffer_nb (a_hnp alloc) (SetPower alloc) s).2
  | RmOther _ => Ret s
  end.

(** ** Messages to the scheduler *)

(** [session_uid sid] is what the memory of a new session holds in [uid],
    which nothing assigns: the reply packs eight bytes starting at the
    four-byte [id]. *)
Variable session_uid : nat -> Z.

Definition session_request (sender : orte_process_name_t) (alloc : orcm_alloc_t) (s : orcm_scd_base_t)
    : orcm_scd_base_t :=
  let s := upd_last_id (fun n => u32 (n + 1)) s in
  let id := sc_last_id s in
  let '(sid, s) := new_session (MkSession id (Some (set_id id alloc))) s in
  let '(rc, s) := send_buffer_nb sender (SessionId (id + 2 ^ 32 * u32 (session_uid sid))) s in
  if negb (rc =? OPAL_SUCCESS) then s
  else orcm_scd_base_activate_session_state sid ORCM_SESSION_STATE_INIT s.

(** The eight bytes of the id are unpacked over a four-byte variable; its
    value is the low half. *)
Definition session_cancel (sender : orte_process_name_t) (id : Z) (s : orcm_scd_base_t)
    : orcm_scd_base_t :=
  let '(sid, s) := new_session (MkSession (u32 id) None) s in
  let s := orcm_scd_base_activate_session_state sid ORCM_SESSION_STATE_CANCEL s in
  (send_buffer_nb sender (Answer 0) s).2.

(** The queues with the allocations of their sessions. *)
Fixpoint session_allocs (s : orcm_scd_base_t) (l : list nat) : outcome (list orcm_alloc_t) :=
  match l with
  | [] => Ret []
  | sid :: l' => a ← session_alloc s sid; as' ← session_allocs s l'; Ret (a :: as')
  end.

Fixpoint queue_infos (s : orcm_scd_base_t) (qs : list orcm_queue_t)
    : outcome (list (cstr * list orcm_alloc_t)) :=
  match qs with
  | [] => Ret []
  | q :: qs' => l ← session_allocs s (q_sessions q); r ← queue_infos s qs'; Ret ((q_name q, l) :: r)
  end.

Definition session_info (sender : orte_process_name_t) (s : orcm_scd_base_t)
    : outcome orcm_scd_base_t :=
  qs ← queue_infos s (sc_queues s);
  Ret (send_buffer_nb sender (SessionInfo qs) s).2.

(** ** Execution *)
Definition run_callback (cb : cbfunc) (sid : nat) (s : orcm_scd_base_t) : outcome orcm_scd_base_t :=
  match cb with
  | Pmf_undef | Rm_undef => Ret s
  | Pmf_find_queue => pmf_find_queue sid s
  | Pmf_schedule => pmf_schedule sid s
  | Pmf_allocated => pmf_allocated sid s
  | Pmf_terminated => pmf_terminated sid s
  | Pmf_cancel => pmf_cancel sid s
  | Rm_request => scd_base_rm_request sid s
  | Rm_active => scd_base_rm_active sid s
  | Rm_kill => scd_base_rm_kill sid s
  end.

(** The oldest event of the most urgent (smallest) priority. *)
Definition next_event (evs : list orcm_session_caddy_t)
    : option (orcm_session_caddy_t * list orcm_session_caddy_t) :=
  let urgent e := forallb (fun e' => cd_priority e <=? cd_priority e') evs in
  match find_index urgent evs with
  | Some i => match evs !! i with Some e => Some (e, delete i evs) | None => None end
  | None => None
  end.

(** One turn of a thread's event loop; nothing happens without an event. *)
Definition turn (t : thread) (s : orcm_scd_base_t) : outcome orcm_scd_base_t :=
  match t with
  | Scd =>
    match next_event (sc_scd_events s) with
    | Some (e, evs) => run_callback (cd_cbfunc e) (cd_session e) (upd_scd_events (fun _ => evs) s)
    | None => Ret s
    end
  | Main =>
    match next_event (sc_rm_events s) with
    | Some (e, evs) => run_callback (cd_cbfunc e) (cd_session e) (upd_rm_events (fun _ => evs) s)
    | None => Ret s
    end
  end.

Fixpoint turns (ts : list thread) (s : orcm_scd_base_t) : outcome orcm_scd_base_t :=
  match ts with
  | [] => Ret s
  | t :: ts' => s ← turn t s; turns ts' s
  end.

(** Everything that can happen: a turn of a thread or the arrival of a
    message (on the main thread). *)
Inductive label : Type :=
| LTurn (t : thread)
| LRequest (sender : orte_process_name_t) (alloc : orcm_alloc_t)
| LCancel (sender : orte_process_name_t) (id : Z)
| LInfo (sender : orte_process_name_t)
| LRm (sender : orte_process_name_t) (m : rm_message).

Definition perform (l : label) (s : orcm_scd_base_t) : outcome orcm_scd_base_t :=
  match l with
  | LTurn t => turn t s
  | LRequest sender alloc => Ret (session_request sender alloc s)
  | LCancel sender id => Ret (session_cancel sender id s)
  | LInfo sender => session_info sender s
  | LRm sender m => orcm_scd_base_rm_recv sender m s
  end.

Inductive step : orcm_scd_base_t -> label -> orcm_scd_base_t -> Prop :=
| Step s l s' : perform l s = Ret s' -> step s l s'.

(** States reachable from [s0] by any interleaving. *)
Inductive reachable (s0 : orcm_scd_base_t) : orcm_scd_base_t -> Prop :=
| reach_refl : reachable s0 s0
| reach_step s l s' : reachable s0 s -> step s l s' -> reachable s0 s'.

End Scheduler.
