(* ===== verification/SchedulerProps.v ===== *)
(** * Node selection and node states

    What the loops of the scheduler over the node array compute: the number
    of free nodes, the names the resource manager picks, the nodes that
    [pmf_allocated] and [pmf_terminated] mark, and the effect of the node
    state messages.  The state is described through the list of nodes that
    are not NULL. *)

From S2P Require Import Prelude CString Argv Regex RegexRoundtrip Dss ScdTypes Scheduler.
From stdpp Require Import base strings numbers list.
From Stdlib Require Import ZArith Lia Ascii.

Open Scope Z_scope.

(** ** Reference definitions *)

(** The nodes that may be given to a session, in array order. *)
Definition free_list (ns : list (option orcm_node_t)) : list orcm_node_t :=
  filter (fun n => available n = true) (omap id ns).

(** The nodes a request for [k] nodes is given. *)
Definition granted (k : Z) (ns : list (option orcm_node_t)) : list orcm_node_t :=
  take (Z.to_nat k) (free_list ns).

Definition granted_names (k : Z) (ns : list (option orcm_node_t)) : list cstr :=
  n_name <$> granted k ns.

(** Set the scheduling state of the nodes whose name is in a list. *)
Definition mark_if (v : Z) (names : list cstr) (n : orcm_node_t) : orcm_node_t :=
  if decide (n_name n ∈ names) then with_scd_state v n else n.

(** ** Counting and selecting *)
Lemma count_free_spec ns k : count_free ns k = k + Z.of_nat (length (free_list ns)).
Proof.
  revert k; induction ns as [|[n|] ns IH]; intros k; cbn [count_free]; [simpl; lia| |apply IH].
  rewrite IH. unfold free_list. cbn [omap list_omap id]. rewrite filter_cons.
  destruct (available n); [rewrite decide_True by done | rewrite decide_False by done];
    cbn [length]; lia.
Qed.

(** The list built by the selection loop so far. *)
Definition joined (acc : list cstr) : option cstr :=
  match acc with [] => None | _ => Some (join_spec "," acc) end.

Lemma join_spec_snoc d l x y :
  join_spec d ((x :: l) ++ [y]) = join_spec d (x :: l) ++ d :: y.
Proof.
  revert x; induction l as [|z l IH]; intros x; [done|].
  cbn [app]. rewrite !join_spec_cons, <- app_assoc. cbn [app]. f_equal. f_equal. apply IH.
Qed.

Lemma joined_snoc acc x :
  joined (acc ++ [x]) = Some (match joined acc with Some l => l ++ ","%char :: x | None => x end).
Proof.
  destruct acc as [|y acc]; [done|]. unfold joined. cbn [app].
  change (y :: (acc ++ [x])) with ((y :: acc) ++ [x]). by rewrite join_spec_snoc.
Qed.

Lemma free_list_cons_Some n ns :
  free_list (Some n :: ns) = if available n then n :: free_list ns else free_list ns.
Proof.
  unfold free_list. cbn [omap list_omap id]. rewrite filter_cons.
  destruct (available n); [by rewrite decide_True | by rewrite decide_False].
Qed.

Lemma free_list_cons_None ns : free_list (None :: ns) = free_list ns.
Proof. done. Qed.

Lemma request_nodes_acc ns k acc :
  0 < k ->
  request_nodes ns k (joined acc) =
  (Z.max 0 (k - Z.of_nat (length (free_list ns))),
   joined (acc ++ (n_name <$> take (Z.to_nat k) (free_list ns)))).
Proof.
  revert k acc; induction ns as [|[n|] ns IH]; intros k acc Hk; cbn [request_nodes].
  - unfold free_list; cbn [omap list_omap]. rewrite filter_nil, take_nil, fmap_nil, app_nil_r.
    f_equal. cbn [length]. lia.
  - rewrite free_list_cons_Some. destruct (available n); [|by apply IH].
    assert (Hs : Z.to_nat k = S (Z.to_nat (k - 1))) by lia.
    rewrite Hs; cbn [take fmap list_fmap length]. rewrite <- joined_snoc.
    change (list_fmap _ _ n_name) with (fmap (M := list) n_name).
    destruct (Z.eqb_spec (k - 1) 0) as [E|Hne].
    + rewrite E. cbn [Z.to_nat take fmap list_fmap]. f_equal. lia.
    + rewrite IH by lia. rewrite <- app_assoc. f_equal. lia.
  - rewrite free_list_cons_None. by apply IH.
Qed.

(** With enough free nodes the loop picks the first ones. *)
Lemma request_nodes_enough ns k :
  0 < k <= Z.of_nat (length (free_list ns)) ->
  request_nodes ns k None = (0, Some (join_spec "," (granted_names k ns))).
Proof.
  intros Hk. change None with (joined []). rewrite request_nodes_acc by lia.
  f_equal; [lia|]. cbn [app]. unfold joined, granted_names, granted.
  destruct (free_list ns) as [|n l]; [simpl in Hk; lia|].
  replace (Z.to_nat k) with (S (Z.to_nat (k - 1))) by lia. done.
Qed.

(** Without enough of them some remain missing. *)
Lemma request_nodes_missing ns k :
  Z.of_nat (length (free_list ns)) < k ->
  exists l, request_nodes ns k None = (k - Z.of_nat (length (free_list ns)), l).
Proof.
  intros Hk. change None with (joined []) at 1. rewrite request_nodes_acc by lia.
  eexists. f_equal. lia.
Qed.

Lemma length_granted k ns :
  0 <= k <= Z.of_nat (length (free_list ns)) -> Z.of_nat (length (granted k ns)) = k.
Proof. intros Hk. unfold granted. rewrite length_take. lia. Qed.

Lemma free_list_elem ns n : n ∈ free_list ns <-> available n = true /\ Some n ∈ ns.
Proof.
  unfold free_list. rewrite list_elem_of_filter, list_elem_of_omap. naive_solver.
Qed.

Lemma granted_free k ns n : n ∈ granted k ns -> available n = true /\ Some n ∈ ns.
Proof.
  intros Hn. apply free_list_elem. unfold granted in Hn.
  rewrite <- (take_drop (Z.to_nat k) (free_list ns)). apply elem_of_app; auto.
Qed.

(** ** Marking nodes *)
Lemma set_scd_state_mark v x n : set_scd_state v x n = mark_if v [x] n.
Proof.
  unfold set_scd_state, mark_if. destruct (strcmp0 (n_name n) x) eqn:E.
  - apply strcmp0_true in E. rewrite decide_True; [done|]. rewrite E. by apply list_elem_of_singleton.
  - apply strcmp0_false in E. rewrite decide_False; [done|]. by rewrite list_elem_of_singleton.
Qed.

Lemma mark_if_app v l1 l2 n : mark_if v l2 (mark_if v l1 n) = mark_if v (l1 ++ l2) n.
Proof.
  unfold mark_if at 2 3. destruct (decide (n_name n ∈ l1)) as [H1|H1].
  - rewrite decide_True by (apply elem_of_app; auto). unfold mark_if. by case_decide.
  - unfold mark_if. destruct (decide (n_name n ∈ l2)).
    + rewrite decide_True by (apply elem_of_app; auto). done.
    + rewrite decide_False; [done|]. rewrite elem_of_app. tauto.
Qed.

Lemma mark_nodes_spec v names ns :
  mark_nodes v names ns = fmap (M := option) (mark_if v names) <$> ns.
Proof.
  unfold mark_nodes. induction names as [|x names IH] using rev_ind; cbn [foldl].
  - rewrite <- (list_fmap_id ns) at 1. apply list_fmap_ext. intros i [n|] _; [|done].
    cbn. unfold mark_if. rewrite decide_False; [done|]. apply not_elem_of_nil.
  - rewrite foldl_app; cbn [foldl]. rewrite IH, <- list_fmap_compose.
    apply list_fmap_ext. intros i [n|] _; [|done]. cbn. f_equal.
    by rewrite set_scd_state_mark, mark_if_app.
Qed.

(** Only the set of names matters. *)
Lemma mark_nodes_perm v names names' ns :
  names ≡ₚ names' -> mark_nodes v names ns = mark_nodes v names' ns.
Proof.
  intros Hp. rewrite !mark_nodes_spec. apply list_fmap_ext. intros i [n|] _; [|done].
  cbn. f_equal. unfold mark_if. destruct (decide (n_name n ∈ names)) as [H|H].
  - rewrite decide_True; [done|]. by rewrite <- Hp.
  - rewrite decide_False; [done|]. by rewrite <- Hp.
Qed.

(** Marking and unmarking nodes that were unallocated restores them. *)
Lemma mark_nodes_inverse names ns :
  (forall n, Some n ∈ ns -> n_name n ∈ names -> n_scd_state n = ORCM_SCD_NODE_STATE_UNALLOC) ->
  mark_nodes ORCM_SCD_NODE_STATE_UNALLOC names (mark_nodes ORCM_SCD_NODE_STATE_ALLOC names ns) = ns.
Proof.
  intros Hu. rewrite !mark_nodes_spec, <- list_fmap_compose.
  rewrite <- (list_fmap_id ns) at 2. apply list_fmap_ext. intros i [n|] Hi; [|done].
  cbn. f_equal. unfold mark_if. destruct (decide (n_name n ∈ names)) as [H|H]; [|by rewrite decide_False].
  cbn [with_scd_state n_name]. rewrite decide_True by done.
  specialize (Hu n (list_elem_of_lookup_2 _ _ _ Hi) H). destruct n; cbn in *. by subst.
Qed.

Lemma mark_if_in v names n : n_name n ∈ names -> mark_if v names n = with_scd_state v n.
Proof. intros. unfold mark_if. by rewrite decide_True. Qed.

Lemma mark_if_out v names n : n_name n ∉ names -> mark_if v names n = n.
Proof. intros. unfold mark_if. by rewrite decide_False. Qed.

Lemma mark_if_name v names n : n_name (mark_if v names n) = n_name n.
Proof. unfold mark_if. by case_decide. Qed.

Lemma mark_if_state v names n : n_state (mark_if v names n) = n_state n.
Proof. unfold mark_if. by case_decide. Qed.

(** The node names are distinct. *)
Definition names_distinct (ns : list (option orcm_node_t)) : Prop := NoDup (n_name <$> omap id ns).

Lemma omap_id_mark v names ns : omap id (mark_nodes v names ns) = mark_if v names <$> omap id ns.
Proof.
  rewrite mark_nodes_spec. induction ns as [|[n|] ns IH]; cbn; [done| |done]. by f_equal.
Qed.

Lemma names_distinct_mark v names ns : names_distinct ns -> names_distinct (mark_nodes v names ns).
Proof.
  unfold names_distinct. rewrite omap_id_mark, <- list_fmap_compose.
  intros H. erewrite list_fmap_ext; [exact H|]. intros i n _. apply mark_if_name.
Qed.

(** With distinct names a name stands for one node. *)
Lemma names_distinct_inj ns n m :
  names_distinct ns -> Some n ∈ ns -> Some m ∈ ns -> n_name n = n_name m -> n = m.
Proof.
  unfold names_distinct. intros Hd Hn Hm Hname.
  assert (In1 : n ∈ omap id ns) by (apply list_elem_of_omap; exists (Some n); done).
  assert (In2 : m ∈ omap id ns) by (apply list_elem_of_omap; exists (Some m); done).
  apply list_elem_of_lookup in In1 as [i Hi]. apply list_elem_of_lookup in In2 as [j Hj].
  assert (i = j).
  { eapply NoDup_lookup; [exact Hd| |]; rewrite list_lookup_fmap.
    - rewrite Hi. done.
    - rewrite Hj. cbn. by rewrite Hname. }
  subst. congruence.
Qed.

Lemma granted_names_unalloc k ns n :
  names_distinct ns -> Some n ∈ ns -> n_name n ∈ granted_names k ns -> available n = true.
Proof.
  intros Hd Hn Hin. apply list_elem_of_fmap in Hin as (m & Hname & Hm).
  apply granted_free in Hm as [Hav Hm]. by rewrite (names_distinct_inj ns n m).
Qed.

Lemma available_unalloc n : available n = true -> n_scd_state n = ORCM_SCD_NODE_STATE_UNALLOC.
Proof. unfold available. lia. Qed.

(** Giving nodes to a session takes exactly them off the free list. *)
Lemma free_list_mark_alloc names ns :
  free_list (mark_nodes ORCM_SCD_NODE_STATE_ALLOC names ns) =
  filter (fun n => n_name n ∉ names) (free_list ns).
Proof.
  unfold free_list. rewrite omap_id_mark. induction (omap id ns) as [|n l IH]; [done|].
  rewrite fmap_cons, !filter_cons, IH.
  destruct (decide (n_name n ∈ names)) as [Hin|Hin].
  - rewrite (mark_if_in _ _ _ Hin), decide_False by done.
    destruct (decide (available n = true)); [|done].
    by rewrite filter_cons, decide_False by tauto.
  - rewrite (mark_if_out _ _ _ Hin). destruct (decide (available n = true)); [|done].
    by rewrite filter_cons, decide_True by tauto.
Qed.
