(* ===== verification/SchedulerRun.v ===== *)
(** * The handlers on every branch, and the life of a session

    Equations for the handlers of both state machines, the reference
    definition of [pmf_schedule], and the run of a session from its
    submission to its launch. *)

From S2P Require Import Prelude CString Argv Regex RegexRoundtrip Dss ScdTypes Scheduler SchedulerProps.
From stdpp Require Import base strings numbers list.
From Stdlib Require Import ZArith Lia Ascii.

Open Scope Z_scope.

(** ** Tables *)
Definition pmf_table : list orcm_scd_state_t :=
  [MkState ORCM_SESSION_STATE_UNDEF (Some Pmf_undef) ORTE_SYS_PRI;
   MkState ORCM_SESSION_STATE_INIT (Some Pmf_find_queue) ORTE_SYS_PRI;
   MkState ORCM_SESSION_STATE_SCHEDULE (Some Pmf_schedule) ORTE_SYS_PRI;
   MkState ORCM_SESSION_STATE_ALLOCD (Some Pmf_allocated) ORTE_SYS_PRI;
   MkState ORCM_SESSION_STATE_TERMINATED (Some Pmf_terminated) ORTE_SYS_PRI;
   MkState ORCM_SESSION_STATE_CANCEL (Some Pmf_cancel) ORTE_SYS_PRI].

Definition rm_table : list orcm_scd_state_t :=
  [MkState ORCM_SESSION_STATE_UNDEF (Some Rm_undef) ORTE_SYS_PRI;
   MkState ORCM_SESSION_STATE_REQ (Some Rm_request) ORTE_SYS_PRI;
   MkState ORCM_SESSION_STATE_ACTIVE (Some Rm_active) ORTE_SYS_PRI;
   MkState ORCM_SESSION_STATE_KILL (Some Rm_kill) ORTE_SYS_PRI].

(** The state machines are set up. *)
Definition booted (s : orcm_scd_base_t) : Prop :=
  sc_states s = pmf_table /\ sc_rmstates s = rm_table.

Lemma pmf_init_booted s :
  sc_states s = [] -> sc_rmstates s = [] -> (pmf_init s).1 = OPAL_SUCCESS /\ booted (pmf_init s).2.
Proof. destruct s; cbn; intros -> ->. done. Qed.

Definition ev (cb : cbfunc) (sid : nat) : orcm_session_caddy_t := MkCaddy cb ORTE_SYS_PRI sid.

Lemma activate_scd s sid state cb :
  booted s -> activation pmf_table state sid = [ev cb sid] ->
  orcm_scd_base_activate_session_state sid state s = upd_scd_events (fun l => l ++ [ev cb sid]) s.
Proof. intros [H _] E. unfold orcm_scd_base_activate_session_state. by rewrite H, E. Qed.

Lemma activate_rm s sid state cb :
  booted s -> activation rm_table state sid = [ev cb sid] ->
  orcm_scd_base_rm_activate_session_state sid state s = upd_rm_events (fun l => l ++ [ev cb sid]) s.
Proof. intros [_ H] E. unfold orcm_scd_base_rm_activate_session_state. by rewrite H, E. Qed.

Lemma next_event_one e : next_event [e] = Some (e, []).
Proof. unfold next_event. cbn. by rewrite Z.leb_refl. Qed.

(** ** Access *)
Lemma session_alloc_alter f sid s a :
  session_alloc s sid = Ret a -> session_alloc (alter_alloc f sid s) sid = Ret (f a).
Proof.
  unfold session_alloc, alter_alloc; cbn. rewrite list_lookup_alter_eq.
  destruct (sc_sessions s !! sid) as [[id [a'|]]|]; cbn; congruence.
Qed.

Lemma session_id_alter f sid x s : session_id (alter_alloc f sid s) x = session_id s x.
Proof.
  unfold session_id, alter_alloc; cbn. destruct (decide (x = sid)) as [->|Hne].
  - rewrite list_lookup_alter_eq. by destruct (sc_sessions s !! sid).
  - by rewrite list_lookup_alter_ne.
Qed.

Lemma find_index_alter {A} (P : A -> bool) (f : A -> A) (k : nat) (l : list A) :
  (forall x, P (f x) = P x) -> find_index P (alter f k l) = find_index P l.
Proof.
  intros Hf; revert k; induction l as [|x l IH]; intros [|k]; cbn; try done.
  - by rewrite Hf.
  - destruct (P x); [done|]. by rewrite IH.
Qed.

Lemma find_queue_upd name f k s : find_queue name (upd_queue_sessions f k s) = find_queue name s.
Proof. unfold find_queue, upd_queue_sessions; cbn. by apply find_index_alter. Qed.

Lemma find_queue_Some name s k :
  find_queue name s = Some k -> exists q, sc_queues s !! k = Some q /\ q_name q = name.
Proof. intros (q & Hq & Hn & _)%find_index_Some. exists q. by apply strcmp0_true in Hn. Qed.

Lemma queue_upd_eq f k s q :
  sc_queues s !! k = Some q ->
  sc_queues (upd_queue_sessions f k s) !! k = Some (MkQueue (q_name q) (q_priority q) (f (q_sessions q))).
Proof. intros Hq. unfold upd_queue_sessions; cbn. by rewrite list_lookup_alter_eq, Hq. Qed.

Lemma queue_upd_ne f k j s : k <> j -> sc_queues (upd_queue_sessions f k s) !! j = sc_queues s !! j.
Proof. intros Hne. unfold upd_queue_sessions; cbn. by apply list_lookup_alter_ne. Qed.

Lemma queues_upd_length f k s : length (sc_queues (upd_queue_sessions f k s)) = length (sc_queues s).
Proof. apply length_alter. Qed.

Lemma on_list_false s sid :
  on_list s sid = false <-> forall q, q ∈ sc_queues s -> sid ∉ q_sessions q.
Proof.
  unfold on_list. rewrite <- not_true_iff_false, existsb_exists. split.
  - intros H q Hq Hin. apply H. exists q. split; [by apply list_elem_of_In|]. by apply bool_decide_eq_true_2.
  - intros H (q & Hq%list_elem_of_In & Hin%bool_decide_eq_true_1). by eapply H.
Qed.

(** Lists that change only by filtering do not gain sessions. *)
Lemma on_list_upd_tail s sid k :
  on_list s sid = false -> on_list (upd_queue_sessions tail k s) sid = false.
Proof.
  rewrite !on_list_false. intros H q Hq.
  apply list_elem_of_lookup in Hq as [j Hj]. destruct (decide (k = j)) as [->|Hne].
  - unfold upd_queue_sessions in Hj; cbn in Hj. rewrite list_lookup_alter_eq in Hj.
    apply fmap_Some in Hj as (q0 & Hq0 & ->). cbn.
    specialize (H q0 (list_elem_of_lookup_2 _ _ _ Hq0)). destruct (q_sessions q0); [done|].
    cbn in *. intros Hin. apply H. by right.
  - rewrite queue_upd_ne in Hj by done. apply H. by eapply list_elem_of_lookup_2.
Qed.

Lemma alter_id_at {A} (f : A -> A) (l : list A) (k : nat) :
  (forall x, l !! k = Some x -> f x = x) -> alter f k l = l.
Proof.
  revert k; induction l as [|x l IH]; intros [|k] H; cbn; [done|done| |].
  - by rewrite H.
  - f_equal. by apply IH.
Qed.

Lemma list_alter_twice {A} (f g : A -> A) (l : list A) (k : nat) :
  alter f k (alter g k l) = alter (fun x => f (g x)) k l.
Proof. revert k; induction l as [|x l IH]; intros [|k]; cbn; try done. f_equal. apply IH. Qed.

Lemma upd_queue_sessions_compose f g k s :
  upd_queue_sessions f k (upd_queue_sessions g k s) = upd_queue_sessions (fun l => f (g l)) k s.
Proof. unfold upd_queue_sessions, upd_queues; cbn. by rewrite list_alter_twice. Qed.

Lemma upd_queue_sessions_id f k s :
  (forall q, sc_queues s !! k = Some q -> f (q_sessions q) = q_sessions q) ->
  upd_queue_sessions f k s = s.
Proof.
  intros H. unfold upd_queue_sessions, upd_queues. rewrite alter_id_at; [by destruct s|].
  intros q Hq. rewrite (H _ Hq). by destruct q.
Qed.

(** ** [pmf_schedule] *)

(** The reference definition: the head of the default queue is handed to the
    resource manager when enough nodes are free; otherwise nothing changes. *)
Definition schedule_spec (k : nat) (s : orcm_scd_base_t) : outcome orcm_scd_base_t :=
  match sc_queues s !! k with
  | Some q =>
    match q_sessions q with
    | [] => Ret s
    | sid :: _ =>
      a ← session_alloc s sid;
      if a_min_nodes a <=? Z.of_nat (length (free_list (sc_nodes s)))
      then Ret (orcm_scd_base_rm_activate_session_state sid ORCM_SESSION_STATE_REQ
                  (upd_queue_sessions tail k s))
      else Ret s
    end
  | None => Ret s
  end.

(** Every default queue but [k] is empty. *)
Definition only_default (k : nat) (s : orcm_scd_base_t) : Prop :=
  forall j q, j <> k -> sc_queues s !! j = Some q -> q_name q = cs "default" -> q_sessions q = [].

(** No session occurs twice on the lists. *)
Definition queued (s : orcm_scd_base_t) : list nat := sc_queues s ≫= q_sessions.

Lemma elem_queued s x : x ∈ queued s <-> exists q, q ∈ sc_queues s /\ x ∈ q_sessions q.
Proof. unfold queued. rewrite list_elem_of_bind. naive_solver. Qed.

Lemma on_list_queued s x : on_list s x = false <-> x ∉ queued s.
Proof. rewrite on_list_false, elem_queued. naive_solver. Qed.

Lemma queued_split s k q :
  sc_queues s !! k = Some q ->
  queued s ≡ₚ q_sessions q ++ (delete k (sc_queues s) ≫= q_sessions).
Proof.
  intros Hq. unfold queued. rewrite (delete_Permutation _ _ _ Hq) at 1. done.
Qed.

Lemma queued_upd s k q f :
  sc_queues s !! k = Some q ->
  queued (upd_queue_sessions f k s) ≡ₚ f (q_sessions q) ++ (delete k (sc_queues s) ≫= q_sessions).
Proof.
  intros Hq. rewrite (queued_split _ k _ (queue_upd_eq f k s q Hq)). cbn [q_sessions].
  f_equiv. unfold upd_queue_sessions; cbn. clear Hq. revert k.
  induction (sc_queues s) as [|x l IH]; intros [|k]; cbn; try done. f_equiv. apply IH.
Qed.

(** The head of a list, once taken off, is on no list. *)
Lemma head_off_list s k q sid rest :
  NoDup (queued s) -> sc_queues s !! k = Some q -> q_sessions q = sid :: rest ->
  on_list (upd_queue_sessions tail k s) sid = false.
Proof.
  intros Hnd Hq Hs. rewrite on_list_queued, (queued_upd _ _ _ _ Hq), Hs; cbn [tail].
  rewrite (queued_split _ _ _ Hq), Hs in Hnd. cbn [app] in Hnd. by apply NoDup_cons in Hnd as [? _].
Qed.

Lemma schedule_rest ks s :
  (forall j q, j ∈ ks -> sc_queues s !! j = Some q -> q_name q = cs "default" -> q_sessions q = []) ->
  schedule_queues ks s = Ret s.
Proof.
  induction ks as [|j ks IH]; intros H; cbn [schedule_queues]; [done|].
  destruct (sc_queues s !! j) as [q|] eqn:Hq; [|done].
  destruct (strcmp0 (q_name q) (cs "default")) eqn:E.
  - apply strcmp0_true in E. rewrite (H j q); [done|by left|done|done].
  - apply IH. intros j' q' Hj'. apply H. by right.
Qed.

Lemma schedule_skip ks ks' s :
  (forall j, j ∈ ks -> exists q, sc_queues s !! j = Some q /\ q_name q <> cs "default") ->
  schedule_queues (ks ++ ks') s = schedule_queues ks' s.
Proof.
  induction ks as [|j ks IH]; intros H; [done|]. cbn [app schedule_queues].
  destruct (H j) as (q & -> & Hn); [by left|].
  apply strcmp0_false in Hn. rewrite Hn. apply IH. intros j' Hj'. apply H. by right.
Qed.

Lemma schedule_here k ks s q :
  NoDup (queued s) -> sc_queues s !! k = Some q -> q_name q = cs "default" ->
  (forall j q', j ∈ ks -> j <> k /\
     (sc_queues s !! j = Some q' -> q_name q' = cs "default" -> q_sessions q' = [])) ->
  schedule_queues (k :: ks) s = schedule_spec k s.
Proof.
  intros Hnd Hq Hn Hks. unfold schedule_spec. cbn [schedule_queues]. rewrite Hq.
  rewrite (proj2 (strcmp0_true _ _) Hn). destruct (q_sessions q) as [|sid rest] eqn:Hs; [done|].
  change (session_alloc (upd_queue_sessions tail k s) sid) with (session_alloc s sid).
  destruct (session_alloc s sid) as [a| |]; [|done|done]. cbn [mbind outcome_bind].
  change (sc_nodes (upd_queue_sessions tail k s)) with (sc_nodes s).
  rewrite count_free_spec, Z.add_0_l. destruct (a_min_nodes a <=? _).
  - rewrite bind_Ret. apply schedule_rest. intros j q' Hj. destruct (Hks j q' Hj) as [Hne He].
    cbn [orcm_scd_base_rm_activate_session_state]. intros Hq'. apply He.
    by rewrite <- (queue_upd_ne tail k j).
  - unfold queue_prepend. rewrite (head_off_list s k q sid rest) by done.
    rewrite bind_Ret, upd_queue_sessions_compose, upd_queue_sessions_id.
    + apply schedule_rest. intros j q' Hj. by apply Hks.
    + intros q0 Hq0. replace q0 with q by congruence. by rewrite Hs.
Qed.

(** [pmf_schedule] is its reference definition. *)
Lemma pmf_schedule_spec caddy s k :
  NoDup (queued s) -> find_queue (cs "default") s = Some k -> only_default k s ->
  pmf_schedule caddy s = schedule_spec k s.
Proof.
  intros Hnd Hk Ho. unfold pmf_schedule. pose proof (find_index_lt _ _ _ Hk) as Hlt.
  apply find_index_Some in Hk as (q & Hq & Hn & Hb). apply strcmp0_true in Hn.
  replace (length (sc_queues s)) with (k + S (length (sc_queues s) - S k))%nat by lia.
  rewrite seq_app. cbn [seq Nat.add]. rewrite schedule_skip.
  - apply (schedule_here k _ s q); try done. intros j q' Hj. rewrite elem_of_seq in Hj.
    split; [lia|]. intros Hq'. apply (Ho j q'); [lia|done].
  - intros j Hj. rewrite elem_of_seq in Hj. destruct (lookup_lt_is_Some_2 (sc_queues s) j) as [q' Hq']; [lia|].
    exists q'. split; [done|]. apply strcmp0_false.
    eapply (Forall_lookup_1 (fun y => strcmp0 (q_name y) (cs "default") = false) _ j); [exact Hb|].
    rewrite lookup_take_lt by lia. done.
Qed.

(** ** Granting, marking and launching *)
Section Run.
Variable int_log10 : Z -> Z.
Variable send_rc : orte_process_name_t -> Z.
Hypothesis Hlog : log10_exact int_log10.

Abbreviation extract := (orte_regex_extract_node_names int_log10).

(** [expr] stands for the names [l]. *)
Definition expands (expr : cstr) (l : list cstr) : Prop :=
  extract (Some expr) None false = Ret (OPAL_SUCCESS, Some l, false).

Lemma expands_ERROR : expands (cs "ERROR") [cs "ERROR"].
Proof.
  unfold expands. cbn [orte_regex_extract_node_names].
  apply (extract_plain_list int_log10 [cs "ERROR"]); [done| |by cbn; lia].
  constructor; [|done]. split; [done|]. by repeat constructor.
Qed.

Lemma expands_not_ERROR expr l names :
  expands expr l -> l ≡ₚ names -> cs "ERROR" ∉ names -> strcmp0 expr (cs "ERROR") = false.
Proof.
  intros He Hp Hn. apply strcmp0_false. intros ->.
  unfold expands in *. rewrite expands_ERROR in He. injection He as <-.
  apply Hn. rewrite <- Hp. by left.
Qed.

Lemma upd_rm_errno_same s b : sc_rm_errno s = b -> upd_rm_errno (fun _ => b) s = s.
Proof. by destruct s; cbn; intros ->. Qed.

Lemma upd_scd_errno_same s b : sc_scd_errno s = b -> upd_scd_errno (fun _ => b) s = s.
Proof. by destruct s; cbn; intros ->. Qed.

(** A request that can be met gets an expression for the first free nodes. *)
Lemma rm_request_grants s sid a :
  session_alloc s sid = Ret a -> sc_rm_errno s = false ->
  0 < a_min_nodes a <= Z.of_nat (length (free_list (sc_nodes s))) ->
  Forall node_name_ok (granted_names (a_min_nodes a) (sc_nodes s)) ->
  exists expr l, expands expr l /\ l ≡ₚ granted_names (a_min_nodes a) (sc_nodes s) /\
    scd_base_rm_request sid s =
    Ret (orcm_scd_base_activate_session_state sid ORCM_SESSION_STATE_ALLOCD
           (alter_alloc (set_nodes (Some expr)) sid s)).
Proof.
  intros Ha He Hk Hok. unfold scd_base_rm_request. rewrite Ha; cbn [mbind outcome_bind].
  replace (0 <? a_min_nodes a) with true by lia. rewrite request_nodes_enough by done.
  destruct (create_extract_names int_log10 Hlog (granted_names (a_min_nodes a) (sc_nodes s)))
    as (expr & l & Hc & Hx & Hp); [|done|].
  - intros E. apply (f_equal length) in E. unfold granted_names in E. rewrite length_fmap in E.
    pose proof (length_granted (a_min_nodes a) (sc_nodes s) ltac:(lia)). cbn in E. lia.
  - exists expr, l. split_and!; [exact Hx|done|].
    rewrite He, Hc. cbn [mbind outcome_bind Z.eqb OPAL_SUCCESS negb].
    by rewrite upd_rm_errno_same.
Qed.

(** [pmf_allocated] with an expression for as many nodes as requested. *)
Lemma pmf_allocated_marks s sid a expr l k :
  booted s -> session_alloc s sid = Ret a -> a_nodes a = Some expr ->
  strcmp0 expr (cs "ERROR") = false -> sc_scd_errno s = false -> expands expr l ->
  Z.of_nat (length l) = a_min_nodes a ->
  find_queue (cs "running") s = Some k -> on_list s sid = false ->
  pmf_allocated int_log10 sid s =
  Ret (upd_nodes (mark_nodes ORCM_SCD_NODE_STATE_ALLOC l)
         (upd_rm_events (fun evs => evs ++ [ev Rm_active sid])
            (upd_queue_sessions (fun x => x ++ [sid]) k
               (alter_alloc (set_queues (Some (cs "running"))) sid s)))).
Proof.
  intros Hb Ha Hn Hne He Hx Hl Hk Hon. unfold pmf_allocated. rewrite Ha, Hk; cbn [mbind outcome_bind].
  unfold queue_append.
  replace (on_list (alter_alloc _ sid s) sid) with (on_list s sid) by done. rewrite Hon.
  cbn [mbind outcome_bind]. rewrite Hn, Hne, (activate_rm _ sid _ Rm_active) by done.
  set (s1 := upd_rm_events _ _). assert (Hs1 : sc_scd_errno s1 = false) by done.
  unfold scd_extract. rewrite Hs1. unfold expands in Hx. rewrite Hx. cbn [mbind outcome_bind].
  rewrite upd_scd_errno_same by done. cbn [Z.eqb OPAL_SUCCESS negb].
  unfold opal_argv_count, argv_list. rewrite Hl, Z.eqb_refl. done.
Qed.

(** ** Contacting the nodes of a list *)
Hypothesis Hsend : forall d, send_rc d = OPAL_SUCCESS.

Abbreviation contact_nodes' := (contact_nodes send_rc).
Abbreviation contact_names' := (contact_names send_rc).

Definition stepd_order (launch : bool) (a : orcm_alloc_t) (n : orcm_node_t) : orte_process_name_t * message :=
  (n_daemon n, if launch then LaunchStepd a else CancelStepd a).

Lemma contact_nodes_none launch sid i x ns s :
  x ∉ n_name <$> omap id ns -> contact_nodes' launch sid i (Some x) ns s = Ret (true, s).
Proof.
  induction ns as [|[n|] ns IH]; cbn; intros Hx; [done| |by apply IH].
  apply not_elem_of_cons in Hx as [Hne Hx].
  rewrite (proj2 (strcmp0_false _ _) (not_eq_sym Hne)). by apply IH.
Qed.

Lemma contact_nodes_one launch sid i ns s n a :
  names_distinct ns -> Some n ∈ ns ->
  session_alloc (if launch && (i =? 0)%nat then alter_alloc (set_hnp (n_daemon n)) sid s else s) sid = Ret a ->
  contact_nodes' launch sid i (Some (n_name n)) ns s =
  Ret (true, upd_sent (fun l => l ++ [stepd_order launch a n])
               (if launch && (i =? 0)%nat then alter_alloc (set_hnp (n_daemon n)) sid s else s)).
Proof.
  unfold names_distinct. induction ns as [|[m|] ns IH]; intros Hd Hin Ha; cbn [contact_nodes].
  - by apply not_elem_of_nil in Hin.
  - cbn [omap list_omap id fmap list_fmap] in Hd. apply NoDup_cons in Hd as [Hm Hd].
    destruct (strcmp0 (n_name m) (n_name n)) eqn:E.
    + apply strcmp0_true in E.
      assert (m = n) as ->.
      { apply elem_of_cons in Hin as [[= ->]|Hin]; [done|]. destruct Hm. rewrite E.
        apply list_elem_of_fmap. exists n. split; [done|]. apply list_elem_of_omap. by exists (Some n). }
      rewrite Ha; cbn [mbind outcome_bind]. unfold send_buffer_nb. rewrite Hsend.
      cbn [Z.eqb OPAL_SUCCESS negb]. by rewrite contact_nodes_none.
    + apply IH; [done| |done]. apply strcmp0_false in E.
      apply elem_of_cons in Hin as [[= ->]|Hin]; done.
  - apply elem_of_cons in Hin as [|Hin]; [done|]. by apply IH.
Qed.

(** All indices after the first, or all of them when cancelling. *)
Lemma contact_names_rest launch sid nl pre s a :
  (launch = true -> pre <> []) ->
  names_distinct (sc_nodes s) -> Forall (fun n => Some n ∈ sc_nodes s) nl ->
  session_alloc s sid = Ret a ->
  contact_names' launch sid (seq (length pre) (length nl)) (pre ++ (n_name <$> nl)) s =
  Ret (upd_sent (fun l => l ++ (stepd_order launch a <$> nl)) s).
Proof.
  revert pre s; induction nl as [|n nl IH]; intros pre s Hpre Hd Hnl Ha; cbn [length seq contact_names].
  - cbn [fmap list_fmap]. f_equal. destruct s; unfold upd_sent; cbn. by rewrite app_nil_r.
  - apply Forall_cons_iff in Hnl as [Hn Hnl].
    rewrite fmap_cons, list_lookup_middle by done.
    assert (Hf : launch && (length pre =? 0)%nat = false).
    { destruct launch; [|done]. destruct pre; [by destruct Hpre|done]. }
    rewrite (contact_nodes_one launch sid (length pre) (sc_nodes s) s n a) by (rewrite ?Hf; done).
    rewrite Hf. cbn [mbind outcome_bind].
    replace (S (length pre)) with (length (pre ++ [n_name n])) by (rewrite length_app; cbn; lia).
    replace (pre ++ n_name n :: (n_name <$> nl)) with ((pre ++ [n_name n]) ++ (n_name <$> nl))
      by (by rewrite <- app_assoc).
    rewrite IH; [|by destruct pre|done|done|done].
    f_equal. destruct s; unfold upd_sent; cbn. by rewrite <- app_assoc.
Qed.

(** [scd_base_rm_active]: the first node becomes the head node, every node is
    sent the allocation, and the session is tracked. *)
Lemma rm_active_launches s sid id a expr n nl :
  session_alloc s sid = Ret a -> session_id s sid = Ret id -> a_nodes a = Some expr ->
  sc_rm_errno s = false -> expands expr (n_name <$> n :: nl) ->
  Z.of_nat (length (n :: nl)) = a_min_nodes a ->
  names_distinct (sc_nodes s) -> Forall (fun m => Some m ∈ sc_nodes s) (n :: nl) ->
  let a' := set_hnp (n_daemon n) (set_hnpname (Some (n_name n)) a) in
  scd_base_rm_active int_log10 send_rc sid s =
  Ret (upd_sent (fun l => l ++ (stepd_order true a' <$> n :: nl))
         (upd_tracking (fun l => l ++ [MkTracker (i32 id) 0])
            (alter_alloc (set_hnp (n_daemon n)) sid (alter_alloc (set_hnpname (Some (n_name n))) sid s)))).
Proof.
  intros Ha Hid Hn He Hx Hl Hd Hnl a'. unfold scd_base_rm_active. rewrite Ha, Hid; cbn [mbind outcome_bind].
  unfold rm_extract. rewrite Hn, He. unfold expands in Hx. rewrite Hx. cbn [mbind outcome_bind].
  rewrite upd_rm_errno_same by done. cbn [Z.eqb OPAL_SUCCESS negb]. rewrite fmap_cons.
  replace (Z.to_nat (a_min_nodes a)) with (S (length nl)) by (cbn in Hl; lia).
  cbn [seq contact_names lookup list_lookup]. apply Forall_cons_iff in Hnl as [Hin Hnl].
  set (s1 := upd_tracking _ _).
  assert (Ha1 : session_alloc (alter_alloc (set_hnp (n_daemon n)) sid s1) sid = Ret a').
  { apply session_alloc_alter. unfold s1.
    change (session_alloc (upd_tracking ?f ?x) ?y) with (session_alloc x y). by apply session_alloc_alter. }
  rewrite (contact_nodes_one true sid 0 (sc_nodes s1) s1 n a') by done.
  cbn [andb Nat.eqb mbind outcome_bind].
  pose proof (contact_names_rest true sid nl [n_name n]) as Hrest. cbn [length app] in Hrest.
  rewrite (Hrest _ a') by done. f_equal.
  unfold s1, upd_sent, upd_tracking, alter_alloc, upd_sessions; cbn.
  by rewrite <- app_assoc.
Qed.

End Run.
