(* ===== verification/SchedulerLife.v ===== *)
(** * The life of a session

    A session submitted to an idle scheduler with enough free nodes goes
    through INIT, SCHEDULE, REQ, ALLOCD and ACTIVE.  The two threads may take
    their turns in any order; a turn without an event changes nothing. *)

From S2P Require Import Prelude CString Argv Regex RegexRoundtrip Dss ScdTypes Scheduler SchedulerProps.
From S2P Require Import SchedulerRun.
From stdpp Require Import base strings numbers list.
From Stdlib Require Import ZArith Lia Ascii.

Open Scope Z_scope.

Section Life.
Variable int_log10 : Z -> Z.
Variable send_rc : orte_process_name_t -> Z.
Variable session_uid : nat -> Z.
Hypothesis Hlog : log10_exact int_log10.
Hypothesis Hsend : forall d, send_rc d = OPAL_SUCCESS.

Abbreviation turn' := (turn int_log10 send_rc).
Abbreviation turns' := (turns int_log10 send_rc).

(** ** Schedules *)
Definition other (t : thread) : thread := match t with Scd => Main | Main => Scd end.

(** Only [t] has something to do; the states follow each other. *)
Inductive chain : orcm_scd_base_t -> list thread -> orcm_scd_base_t -> Prop :=
| chain_done s : (forall t, turn' t s = Ret s) -> chain s [] s
| chain_step t s s1 ts s2 :
    turn' t s = Ret s1 -> turn' (other t) s = Ret s -> chain s1 ts s2 -> chain s (t :: ts) s2.

(** A chain is run to its end by every schedule that contains it. *)
Lemma chain_turns s ts s' sched : chain s ts s' -> sublist ts sched -> turns' sched s = Ret s'.
Proof.
  intros Hc; revert ts s Hc. induction sched as [|u sched IH]; intros ts s Hc Hs.
  - apply sublist_nil_r in Hs as ->. by inv Hc.
  - cbn [turns]. destruct Hc as [s Hq|t s s1 ts s2 Ht Ho Hc].
    + rewrite Hq, bind_Ret. apply (IH []); [by constructor|apply sublist_nil_l].
    + destruct (decide (u = t)) as [->|Hne].
      * rewrite Ht, bind_Ret. apply (IH ts); [done|]. inv Hs; [done|].
        apply sublist_cons_l in H1 as (k1 & k2 & -> & H1). by apply sublist_inserts_l, sublist_cons.
      * assert (u = other t) as -> by (by destruct u, t).
        rewrite Ho, bind_Ret. apply (IH (t :: ts)); [by econstructor|]. by inv Hs.
Qed.

(** ** One turn of each handler *)
Lemma turn_scd_one s cb sid :
  sc_scd_events s = [ev cb sid] ->
  turn' Scd s = run_callback int_log10 send_rc cb sid (upd_scd_events (fun _ => []) s).
Proof. intros H. cbn [turn]. by rewrite H, next_event_one. Qed.

Lemma turn_main_one s cb sid :
  sc_rm_events s = [ev cb sid] ->
  turn' Main s = run_callback int_log10 send_rc cb sid (upd_rm_events (fun _ => []) s).
Proof. intros H. cbn [turn]. by rewrite H, next_event_one. Qed.

Lemma turn_scd_none s : sc_scd_events s = [] -> turn' Scd s = Ret s.
Proof. intros H. cbn [turn]. by rewrite H. Qed.

Lemma turn_main_none s : sc_rm_events s = [] -> turn' Main s = Ret s.
Proof. intros H. cbn [turn]. by rewrite H. Qed.

Lemma run_find_queue s sid a k :
  booted s -> sc_scd_events s = [ev Pmf_find_queue sid] -> session_alloc s sid = Ret a ->
  a_min_nodes a <= num_defined s -> find_queue (cs "default") s = Some k -> on_list s sid = false ->
  turn' Scd s =
  Ret (upd_scd_events (fun _ => [ev Pmf_schedule sid])
         (upd_queue_sessions (fun l => l ++ [sid]) k
            (alter_alloc (set_queues (Some (cs "default"))) sid s))).
Proof.
  intros Hb He Ha Hm Hk Hon. rewrite (turn_scd_one _ _ _ He). cbn [run_callback]. unfold pmf_find_queue.
  change (session_alloc (upd_scd_events _ s) sid) with (session_alloc s sid). rewrite Ha; cbn [mbind outcome_bind].
  change (num_defined (upd_scd_events _ s)) with (num_defined s).
  replace (num_defined s <? a_min_nodes a) with false by lia.
  unfold enqueue. change (find_queue _ (upd_scd_events _ s)) with (find_queue (cs "default") s).
  rewrite Hk. unfold queue_append.
  change (on_list (alter_alloc _ sid (upd_scd_events _ s)) sid) with (on_list s sid).
  rewrite Hon; cbn [mbind outcome_bind]. by rewrite (activate_scd _ sid _ Pmf_schedule) by done.
Qed.

Lemma run_schedule s sid x a k q rest :
  booted s -> sc_scd_events s = [ev Pmf_schedule x] -> sc_rm_events s = [] ->
  NoDup (queued s) -> find_queue (cs "default") s = Some k -> only_default k s ->
  sc_queues s !! k = Some q -> q_sessions q = sid :: rest -> session_alloc s sid = Ret a ->
  a_min_nodes a <= Z.of_nat (length (free_list (sc_nodes s))) ->
  turn' Scd s =
  Ret (upd_scd_events (fun _ => []) (upd_rm_events (fun _ => [ev Rm_request sid])
         (upd_queue_sessions tail k s))).
Proof.
  intros Hb He Hr Hnd Hk Ho Hq Hs Ha Hm. rewrite (turn_scd_one _ _ _ He). cbn [run_callback].
  rewrite (pmf_schedule_spec x _ k) by done. unfold schedule_spec.
  change (sc_queues (upd_scd_events _ s)) with (sc_queues s). rewrite Hq, Hs.
  change (session_alloc (upd_scd_events _ s) sid) with (session_alloc s sid). rewrite Ha; cbn [mbind outcome_bind].
  change (sc_nodes (upd_scd_events _ s)) with (sc_nodes s).
  replace (a_min_nodes a <=? _) with true by lia.
  rewrite (activate_rm _ sid _ Rm_request) by done. f_equal.
  unfold upd_queue_sessions, upd_queues, upd_rm_events, upd_scd_events; cbn. by rewrite Hr.
Qed.

Lemma run_request s sid a :
  booted s -> sc_rm_events s = [ev Rm_request sid] -> sc_scd_events s = [] ->
  session_alloc s sid = Ret a -> sc_rm_errno s = false ->
  0 < a_min_nodes a <= Z.of_nat (length (free_list (sc_nodes s))) ->
  Forall node_name_ok (granted_names (a_min_nodes a) (sc_nodes s)) ->
  exists expr l, expands int_log10 expr l /\ l ≡ₚ granted_names (a_min_nodes a) (sc_nodes s) /\
    turn' Main s =
    Ret (upd_scd_events (fun _ => [ev Pmf_allocated sid])
           (alter_alloc (set_nodes (Some expr)) sid (upd_rm_events (fun _ => []) s))).
Proof.
  intros Hb Hr He Ha Herr Hm Hok. rewrite (turn_main_one _ _ _ Hr). cbn [run_callback].
  destruct (rm_request_grants int_log10 Hlog (upd_rm_events (fun _ => []) s) sid a)
    as (expr & l & Hx & Hp & ->); try done.
  exists expr, l. split_and!; [done|done|].
  rewrite (activate_scd _ sid _ Pmf_allocated) by done. f_equal.
  unfold upd_scd_events; cbn. by rewrite He.
Qed.

Lemma run_allocated s sid a expr l k :
  booted s -> sc_scd_events s = [ev Pmf_allocated sid] -> sc_rm_events s = [] ->
  session_alloc s sid = Ret a -> a_nodes a = Some expr ->
  strcmp0 expr (cs "ERROR") = false -> sc_scd_errno s = false -> expands int_log10 expr l ->
  Z.of_nat (length l) = a_min_nodes a -> find_queue (cs "running") s = Some k -> on_list s sid = false ->
  turn' Scd s =
  Ret (upd_nodes (mark_nodes ORCM_SCD_NODE_STATE_ALLOC l)
         (upd_rm_events (fun _ => [ev Rm_active sid])
            (upd_queue_sessions (fun x => x ++ [sid]) k
               (alter_alloc (set_queues (Some (cs "running"))) sid (upd_scd_events (fun _ => []) s))))).
Proof.
  intros Hb He Hr Ha Hn Hne Herr Hx Hl Hk Hon. rewrite (turn_scd_one _ _ _ He). cbn [run_callback].
  rewrite (pmf_allocated_marks int_log10 _ sid a expr l k) by done. f_equal.
  unfold upd_rm_events; cbn. by rewrite Hr.
Qed.

(** ** From submission to launch *)

(** Nothing pending, the default queues empty, the lists sound. *)
Record idle (s : orcm_scd_base_t) : Prop := {
  idle_booted : booted s;
  idle_scd : sc_scd_events s = [];
  idle_rm : sc_rm_events s = [];
  idle_scd_errno : sc_scd_errno s = false;
  idle_rm_errno : sc_rm_errno s = false;
  idle_running : is_Some (find_queue (cs "running") s);
  idle_default : is_Some (find_queue (cs "default") s);
  idle_empty : forall q, q ∈ sc_queues s -> q_name q = cs "default" -> q_sessions q = [];
  idle_nodup : NoDup (queued s);
  idle_known : Forall (fun x => (x < length (sc_sessions s))%nat) (queued s)
}.

Lemma num_defined_free s : Z.of_nat (length (free_list (sc_nodes s))) <= num_defined s.
Proof.
  unfold num_defined, node_list, free_list.
  pose proof (length_filter (fun n => available n = true) (omap id (sc_nodes s))). lia.
Qed.

(** The session a request creates. *)
Definition submitted (s : orcm_scd_base_t) (alloc : orcm_alloc_t) : nat * Z * orcm_alloc_t :=
  (length (sc_sessions s), u32 (sc_last_id s + 1), set_id (u32 (sc_last_id s + 1)) alloc).

(** The state right after a request was accepted. *)
Definition accepted (sender : orte_process_name_t) (alloc : orcm_alloc_t) (s : orcm_scd_base_t)
    : orcm_scd_base_t :=
  let '(sid, id, a) := submitted s alloc in
  upd_scd_events (fun l => l ++ [ev Pmf_find_queue sid])
    (upd_sent (fun l => l ++ [(sender, SessionId (id + 2 ^ 32 * u32 (session_uid sid)))])
       (upd_sessions (fun l => l ++ [MkSession id (Some a)]) (upd_last_id (fun n => u32 (n + 1)) s))).

Lemma session_request_accepted sender alloc s :
  booted s -> session_request send_rc session_uid sender alloc s = accepted sender alloc s.
Proof.
  intros Hb. unfold session_request, new_session, send_buffer_nb. cbn. rewrite Hsend. cbn [Z.eqb OPAL_SUCCESS negb].
  by rewrite (activate_scd _ _ _ Pmf_find_queue).
Qed.

Lemma session_alloc_accepted sender alloc s :
  session_alloc (accepted sender alloc s) (length (sc_sessions s)) = Ret (submitted s alloc).2.
Proof. unfold session_alloc. cbn. by rewrite list_lookup_middle. Qed.

Lemma session_id_accepted sender alloc s :
  session_id (accepted sender alloc s) (length (sc_sessions s)) = Ret (submitted s alloc).1.2.
Proof. unfold session_id. cbn. by rewrite list_lookup_middle. Qed.

Lemma new_sid_off_list s : idle s -> on_list s (length (sc_sessions s)) = false.
Proof.
  intros Hi. rewrite on_list_queued. intros Hin.
  apply (proj1 (Forall_forall _ _) (idle_known _ Hi)) in Hin. lia.
Qed.

(** Appending a new session to the first default queue of an idle state. *)
Lemma only_default_append s k f :
  idle s -> find_queue (cs "default") s = Some k -> only_default k (upd_queue_sessions f k s).
Proof.
  intros Hi Hk j q Hne Hq Hn. rewrite queue_upd_ne in Hq by done.
  apply (idle_empty _ Hi q); [|done]. by eapply list_elem_of_lookup_2.
Qed.

Lemma queued_append s k sid :
  find_queue (cs "default") s = Some k -> queued (upd_queue_sessions (fun l => l ++ [sid]) k s) ≡ₚ sid :: queued s.
Proof.
  intros (q & Hq & _)%find_queue_Some. rewrite (queued_upd _ _ _ _ Hq), (queued_split _ _ _ Hq).
  rewrite <- app_assoc. cbn [app]. by rewrite Permutation_middle.
Qed.

(** Once marked, the granted nodes are still in the array. *)
Lemma granted_marked names ns (nl : list orcm_node_t) :
  Forall (fun n => Some n ∈ ns) nl ->
  Forall (fun n => Some n ∈ mark_nodes ORCM_SCD_NODE_STATE_ALLOC names ns)
    (mark_if ORCM_SCD_NODE_STATE_ALLOC names <$> nl).
Proof.
  rewrite !Forall_forall, mark_nodes_spec. intros H m (n & -> & Hn)%list_elem_of_fmap.
  apply list_elem_of_fmap. exists (Some n). split; [done|]. by apply H.
Qed.

(** What has become of an accepted request once the session runs. *)
Record launched (sender : orte_process_name_t) (alloc : orcm_alloc_t) (s s' : orcm_scd_base_t) : Prop := {
  la_quiet : sc_scd_events s' = [] /\ sc_rm_events s' = [];
  la_nodes : sc_nodes s' = mark_nodes ORCM_SCD_NODE_STATE_ALLOC
               (granted_names (a_min_nodes alloc) (sc_nodes s)) (sc_nodes s);
  la_running : exists k, find_queue (cs "running") s = Some k /\
    sc_queues s' = sc_queues (upd_queue_sessions (fun l => l ++ [length (sc_sessions s)]) k s);
  la_frame : booted s' /\ sc_scd_errno s' = false /\
    session_id s' (length (sc_sessions s)) = Ret (u32 (sc_last_id s + 1)) /\
    forall y se, sc_sessions s !! y = Some se -> sc_sessions s' !! y = Some se;
  la_tracking : sc_tracking s' = sc_tracking s ++ [MkTracker (i32 (u32 (sc_last_id s + 1))) 0];
  la_alloc : exists a expr l nl,
    session_alloc s' (length (sc_sessions s)) = Ret a /\ a_id a = u32 (sc_last_id s + 1) /\
    a_min_nodes a = a_min_nodes alloc /\ a_nodes a = Some expr /\ expands int_log10 expr l /\
    l = n_name <$> nl /\ nl ≡ₚ granted (a_min_nodes alloc) (sc_nodes s) /\
    sc_sent s' = sc_sent (accepted sender alloc s) ++ (stepd_order true a <$> nl)
}.

(** The queues after a session went through the default queue. *)
Lemma queues_through s s' k sid :
  idle s -> find_queue (cs "default") s = Some k -> sc_queues s' = sc_queues s ->
  sc_queues (upd_queue_sessions tail k (upd_queue_sessions (fun l => l ++ [sid]) k s')) = sc_queues s.
Proof.
  intros Hi Hk Hs. rewrite upd_queue_sessions_compose, <- Hs, upd_queue_sessions_id; [done|].
  apply find_queue_Some in Hk as (q & Hq & Hn). intros q' Hq'. rewrite Hs in Hq'.
  replace q' with q by congruence.
  rewrite (idle_empty _ Hi q); [done|by eapply list_elem_of_lookup_2|done].
Qed.

(** The first half: the session waits for its nodes. *)
Lemma life_requested sender alloc s :
  idle s -> a_min_nodes alloc <= Z.of_nat (length (free_list (sc_nodes s))) ->
  exists s2, (forall ts s5, chain s2 ts s5 -> chain (accepted sender alloc s) (Scd :: Scd :: ts) s5) /\
    booted s2 /\ sc_rm_events s2 = [ev Rm_request (length (sc_sessions s))] /\ sc_scd_events s2 = [] /\
    sc_queues s2 = sc_queues s /\ sc_nodes s2 = sc_nodes s /\ sc_tracking s2 = sc_tracking s /\
    sc_sent s2 = sc_sent (accepted sender alloc s) /\
    sc_scd_errno s2 = false /\ sc_rm_errno s2 = false /\
    session_id s2 (length (sc_sessions s)) = Ret (submitted s alloc).1.2 /\
    session_alloc s2 (length (sc_sessions s)) =
      Ret (set_queues (Some (cs "default")) (submitted s alloc).2) /\
    forall y se, sc_sessions s !! y = Some se -> sc_sessions s2 !! y = Some se.
Proof.
  intros Hi Hm. destruct (idle_default _ Hi) as [k Hk].
  destruct (find_queue_Some _ _ _ Hk) as (q & Hq & Hn).
  pose proof (num_defined_free s) as Hdef. pose proof (new_sid_off_list s Hi) as Hoff.
  set (sid := length (sc_sessions s)) in *. set (s0 := accepted sender alloc s).
  assert (Ha0 : session_alloc s0 sid = Ret (submitted s alloc).2) by apply session_alloc_accepted.
  pose proof (run_find_queue s0 sid _ k (idle_booted _ Hi) ltac:(cbn; by rewrite (idle_scd _ Hi))
    Ha0 (Z.le_trans _ _ _ Hm Hdef) Hk Hoff) as H1.
  set (s1 := upd_scd_events _ _) in H1.
  assert (Hqs : q_sessions q = []) by (apply (idle_empty _ Hi q); [by eapply list_elem_of_lookup_2|done]).
  assert (Ha1 : session_alloc s1 sid = Ret (set_queues (Some (cs "default")) (submitted s alloc).2))
    by by apply session_alloc_alter.
  assert (Hnd1 : NoDup (queued s1)).
  { change (queued s1) with (queued (upd_queue_sessions (fun l => l ++ [sid]) k s)).
    rewrite (queued_append _ _ _ Hk). constructor; [by apply on_list_queued|apply (idle_nodup _ Hi)]. }
  assert (Hk1 : find_queue (cs "default") s1 = Some k) by (etransitivity; [apply find_queue_upd|done]).
  pose proof (run_schedule s1 sid sid _ k _ [] (idle_booted _ Hi) eq_refl (idle_rm _ Hi) Hnd1 Hk1
    (only_default_append s k _ Hi Hk) (queue_upd_eq (fun l => l ++ [sid]) k s q Hq)
    ltac:(cbn; by rewrite Hqs) Ha1 Hm) as H2.
  eexists. split.
  - intros ts s5 Hc. eapply chain_step; [exact H1|by apply turn_main_none, (idle_rm _ Hi)|].
    eapply chain_step; [exact H2|by apply turn_main_none, (idle_rm _ Hi)|exact Hc].
  - split_and!; try done; try apply Hi.
    + by apply (queues_through s (alter_alloc (set_queues (Some (cs "default"))) sid s0)).
    + etransitivity; [apply (session_id_alter _ sid sid s0)|apply session_id_accepted].
    + intros y se Hy. pose proof (lookup_lt_Some _ _ _ Hy). cbn.
      rewrite list_lookup_alter_ne by (unfold sid; lia). by apply lookup_app_l_Some.
Qed.

Lemma on_list_queues s s' x : sc_queues s = sc_queues s' -> on_list s x = on_list s' x.
Proof. intros H. unfold on_list. by rewrite H. Qed.

Lemma find_queue_queues name s s' : sc_queues s = sc_queues s' -> find_queue name s = find_queue name s'.
Proof. intros H. unfold find_queue. by rewrite H. Qed.

Lemma mark_order launch a v names (nl : list orcm_node_t) :
  stepd_order launch a <$> (mark_if v names <$> nl) = stepd_order launch a <$> nl.
Proof.
  rewrite <- list_fmap_compose. apply list_fmap_ext. intros i n _. cbn. unfold mark_if.
  by case_decide.
Qed.

Lemma mark_names v names (nl : list orcm_node_t) : n_name <$> (mark_if v names <$> nl) = n_name <$> nl.
Proof. rewrite <- list_fmap_compose. apply list_fmap_ext. intros i n _. apply mark_if_name. Qed.

(** The second half: nodes are granted, marked and contacted. *)
Lemma life_launched s2 sid id a kr :
  booted s2 -> sc_rm_events s2 = [ev Rm_request sid] -> sc_scd_events s2 = [] ->
  sc_scd_errno s2 = false -> sc_rm_errno s2 = false ->
  session_id s2 sid = Ret id -> session_alloc s2 sid = Ret a ->
  find_queue (cs "running") s2 = Some kr -> on_list s2 sid = false ->
  0 < a_min_nodes a <= Z.of_nat (length (free_list (sc_nodes s2))) ->
  Forall node_name_ok (granted_names (a_min_nodes a) (sc_nodes s2)) ->
  cs "ERROR" ∉ granted_names (a_min_nodes a) (sc_nodes s2) -> names_distinct (sc_nodes s2) ->
  exists s5 a5 expr nl, chain s2 [Main; Scd; Main] s5 /\
    sc_scd_events s5 = [] /\ sc_rm_events s5 = [] /\
    sc_nodes s5 = mark_nodes ORCM_SCD_NODE_STATE_ALLOC
      (granted_names (a_min_nodes a) (sc_nodes s2)) (sc_nodes s2) /\
    sc_queues s5 = sc_queues (upd_queue_sessions (fun l => l ++ [sid]) kr s2) /\
    sc_tracking s5 = sc_tracking s2 ++ [MkTracker (i32 id) 0] /\
    session_alloc s5 sid = Ret a5 /\ a_id a5 = a_id a /\ a_min_nodes a5 = a_min_nodes a /\ a_nodes a5 = Some expr /\
    expands int_log10 expr (n_name <$> nl) /\ nl ≡ₚ granted (a_min_nodes a) (sc_nodes s2) /\
    sc_sent s5 = sc_sent s2 ++ (stepd_order true a5 <$> nl) /\
    booted s5 /\ sc_scd_errno s5 = false /\ session_id s5 sid = Ret id /\
    forall y, y <> sid -> sc_sessions s5 !! y = sc_sessions s2 !! y.
Proof.
  intros Hb Hr He Herr1 Herr2 Hid Ha Hk Hon Hm Hok HE Hd.
  destruct (run_request s2 sid a) as (expr & l & Hx & Hp & H3); try done.
  set (s3 := upd_scd_events _ _) in H3.
  pose proof (Permutation_map_inv _ _ Hp) as (nl & -> & Hnl).
  change (map n_name nl) with (n_name <$> nl) in *.
  pose proof (length_granted (a_min_nodes a) (sc_nodes s2) ltac:(lia)) as Hlen.
  rewrite Hnl in Hlen.
  assert (Ha3 : session_alloc s3 sid = Ret (set_nodes (Some expr) a)) by by apply session_alloc_alter.
  pose proof (run_allocated s3 sid _ expr (n_name <$> nl) kr Hb eq_refl eq_refl Ha3 eq_refl
    (expands_not_ERROR _ _ _ _ Hx Hp HE) Herr1 Hx ltac:(by rewrite length_fmap) Hk Hon) as H4.
  set (s4 := upd_nodes _ _) in H4.
  set (a4 := set_queues (Some (cs "running")) (set_nodes (Some expr) a)).
  assert (Ha4 : session_alloc s4 sid = Ret a4) by by apply session_alloc_alter.
  assert (Hin : Forall (fun n => Some n ∈ sc_nodes s2) nl).
  { apply Forall_forall. intros n Hn. rewrite <- Hnl in Hn. by eapply granted_free. }
  destruct nl as [|n nl]; [cbn in Hlen; lia|].
  set (g := mark_if ORCM_SCD_NODE_STATE_ALLOC (n_name <$> n :: nl)).
  pose proof (rm_active_launches int_log10 send_rc Hsend (upd_rm_events (fun _ => []) s4) sid id a4 expr (g n) (g <$> nl)
    Ha4 ltac:(etransitivity; [apply session_id_alter|]; etransitivity; [apply session_id_alter|exact Hid])
    eq_refl Herr2 ltac:(rewrite <- (fmap_cons g); unfold g; by rewrite mark_names)
    ltac:(by rewrite <- (fmap_cons g), length_fmap) (names_distinct_mark _ _ _ Hd)
    (granted_marked _ _ _ Hin)) as H5.
  cbv zeta in H5. rewrite <- (fmap_cons g) in H5. unfold g in H5 at 3. rewrite mark_order in H5.
  set (a5 := set_hnp _ _) in H5. set (s5 := upd_sent _ _) in H5.
  exists s5, a5, expr, (n :: nl). split_and!; try done.
  - eapply chain_step; [exact H3|by apply turn_scd_none|].
    eapply chain_step; [exact H4|by apply turn_main_none|].
    eapply chain_step; [by rewrite (turn_main_one s4 Rm_active sid)|by apply turn_scd_none|].
    apply chain_done. intros []; [by apply turn_scd_none|by apply turn_main_none].
  - by apply mark_nodes_perm.
  - apply session_alloc_alter, session_alloc_alter, Ha4.
  - do 4 (etransitivity; [apply session_id_alter|]). exact Hid.
  - intros y Hy. cbn. by rewrite !list_lookup_alter_ne.
Qed.

Lemma session_runs sender alloc s sched :
  idle s -> 0 < a_min_nodes alloc <= Z.of_nat (length (free_list (sc_nodes s))) ->
  Forall node_name_ok (granted_names (a_min_nodes alloc) (sc_nodes s)) ->
  cs "ERROR" ∉ granted_names (a_min_nodes alloc) (sc_nodes s) -> names_distinct (sc_nodes s) ->
  sublist [Scd; Scd; Main; Scd; Main] sched ->
  exists s', turns' sched (session_request send_rc session_uid sender alloc s) = Ret s' /\
    launched sender alloc s s'.
Proof.
  intros Hi Hm Hok HE Hd Hs. rewrite session_request_accepted by apply Hi.
  destruct (life_requested sender alloc s Hi ltac:(lia))
    as (s2 & Hc & Hb & Hr & He & Hq & Hn & Ht & Hsent & Herr1 & Herr2 & Hid & Ha & Hold).
  destruct (idle_running _ Hi) as [kr Hkr].
  destruct (life_launched s2 _ _ _ kr Hb Hr He Herr1 Herr2 Hid Ha
    ltac:(by rewrite (find_queue_queues _ _ _ Hq)) ltac:(by rewrite (on_list_queues _ _ _ Hq), new_sid_off_list)
    ltac:(by rewrite Hn) ltac:(by rewrite Hn) ltac:(by rewrite Hn) ltac:(by rewrite Hn))
    as (s5 & a5 & expr & nl & Hc5 & He5 & Hr5 & Hn5 & Hq5 & Ht5 & Ha5 & Hid5 & Hmin5 & Hx5 & Hl & Hp & Hs5 & Hb5 & Herr5 & Hsid5 & Hold5).
  exists s5. split; [eapply chain_turns; [by apply Hc|done]|]. rewrite Hn in *.
  split; [done|done| | | |].
  - exists kr. split; [done|]. rewrite Hq5. unfold upd_queue_sessions; cbn. by rewrite Hq.
  - split_and!; try done. intros y se Hy. pose proof (lookup_lt_Some _ _ _ Hy).
    rewrite Hold5 by lia. by apply Hold.
  - by rewrite Ht5, Ht.
  - exists a5, expr, (n_name <$> nl), nl. split_and!; try done. by rewrite Hs5, Hsent.
Qed.
End Life.
