(* ===== verification/SchedulerInv.v ===== *)
(** * The invariant of the scheduler

    A session travels through the scheduler in one place at a time: it waits
    in an INIT, REQ or ALLOCD event or sits on one of the queues.  Events that
    use the allocation of their session have one.  Every handler and every
    message preserves this, and the events whose callback does not come to an
    end are those of [stops]. *)

From S2P Require Import Prelude CString Argv Regex RegexRoundtrip Dss ScdTypes Scheduler SchedulerProps.
From S2P Require Import SchedulerRun.
From stdpp Require Import base strings numbers list.
From Stdlib Require Import ZArith Lia Ascii.

Open Scope Z_scope.

(** Rewriting with sub-multisets under [++]. *)
#[export] Instance app_submseteq_proper {A} : Proper (submseteq ==> submseteq ==> submseteq) (@app A).
Proof. intros l1 l2 Hl k1 k2 Hk. by apply submseteq_app. Qed.

(** ** Well-formed states *)
Definition has_alloc (s : orcm_scd_base_t) (x : nat) : Prop := returns (session_alloc s x).

(** The callbacks that dereference [session->alloc]. *)
Definition uses_alloc (cb : cbfunc) : bool :=
  match cb with
  | Pmf_undef | Rm_undef | Pmf_schedule | Pmf_cancel => false
  | _ => true
  end.

(** The callbacks whose event is the only place where the session is. *)
Definition holds_session (cb : cbfunc) : bool :=
  match cb with Pmf_find_queue | Pmf_allocated | Rm_request => true | _ => false end.

Definition on_scd_thread (cb : cbfunc) : bool :=
  match cb with Rm_undef | Rm_request | Rm_active | Rm_kill => false | _ => true end.

Definition ev_ok (s : orcm_scd_base_t) (e : orcm_session_caddy_t) : Prop :=
  (cd_session e < length (sc_sessions s))%nat /\
  (uses_alloc (cd_cbfunc e) = true -> has_alloc s (cd_session e)).

Definition held (evs : list orcm_session_caddy_t) : list nat :=
  cd_session <$> filter (fun e => holds_session (cd_cbfunc e) = true) evs.

(** Where the sessions are. *)
Definition places (s : orcm_scd_base_t) : list nat :=
  queued s ++ held (sc_scd_events s) ++ held (sc_rm_events s).

Record scd_wf (s : orcm_scd_base_t) : Prop := {
  wf_booted : booted s;
  wf_queued : Forall (has_alloc s) (queued s);
  wf_scd : Forall (fun e => ev_ok s e /\ on_scd_thread (cd_cbfunc e) = true) (sc_scd_events s);
  wf_rm : Forall (fun e => ev_ok s e /\ on_scd_thread (cd_cbfunc e) = false) (sc_rm_events s);
  wf_places : NoDup (places s)
}.

(** ** Steps that may consume sessions *)

(** From [s] and the sessions [tok], which are nowhere in [s], to [s']. *)
Record evolves (tok : list nat) (s s' : orcm_scd_base_t) : Prop := {
  evo_booted : booted s -> booted s';
  evo_alloc : forall x, has_alloc s x -> has_alloc s' x;
  evo_len : (length (sc_sessions s) <= length (sc_sessions s'))%nat;
  evo_scd : forall e, e ∈ sc_scd_events s' ->
    e ∈ sc_scd_events s \/ (ev_ok s' e /\ on_scd_thread (cd_cbfunc e) = true);
  evo_rm : forall e, e ∈ sc_rm_events s' ->
    e ∈ sc_rm_events s \/ (ev_ok s' e /\ on_scd_thread (cd_cbfunc e) = false);
  evo_places : places s' ⊆+ tok ++ places s
}.

Lemma has_alloc_lt s x : has_alloc s x -> (x < length (sc_sessions s))%nat.
Proof.
  intros [a Ha]. unfold session_alloc in Ha. destruct (sc_sessions s !! x) eqn:E; [|done].
  by apply lookup_lt_Some in E.
Qed.

Lemma ev_ok_mono s s' e :
  (forall x, has_alloc s x -> has_alloc s' x) ->
  (length (sc_sessions s) <= length (sc_sessions s'))%nat -> ev_ok s e -> ev_ok s' e.
Proof. intros Ha Hl [H1 H2]. split; [lia|]. auto. Qed.

Lemma held_elem evs x :
  x ∈ held evs -> exists e, e ∈ evs /\ cd_session e = x /\ holds_session (cd_cbfunc e) = true.
Proof.
  unfold held. intros (e & -> & He)%list_elem_of_fmap. apply list_elem_of_filter in He as [? ?].
  by exists e.
Qed.

Lemma holds_uses cb : holds_session cb = true -> uses_alloc cb = true.
Proof. by destruct cb. Qed.

Lemma held_alloc s evs b :
  Forall (fun e => ev_ok s e /\ on_scd_thread (cd_cbfunc e) = b) evs -> Forall (has_alloc s) (held evs).
Proof.
  rewrite !Forall_forall. intros H x (e & He & <- & Hh)%held_elem.
  destruct (H e He) as [[_ Hok] _]. by apply Hok, holds_uses.
Qed.

Lemma wf_places_alloc s : scd_wf s -> Forall (has_alloc s) (places s).
Proof.
  intros Hw. unfold places. rewrite !Forall_app. split_and!; [apply Hw| |].
  - eapply held_alloc, wf_scd, Hw.
  - eapply held_alloc, wf_rm, Hw.
Qed.

Lemma NoDup_sub (l k : list nat) : l ⊆+ k -> NoDup k -> NoDup l.
Proof.
  intros (k' & Hk)%submseteq_Permutation Hnd. rewrite Hk in Hnd. by apply NoDup_app in Hnd as [? _].
Qed.

Lemma wf_evolves tok s s' :
  scd_wf s -> Forall (has_alloc s) tok -> NoDup (tok ++ places s) -> evolves tok s s' -> scd_wf s'.
Proof.
  intros Hw Ht Hnd He. assert (Hall : Forall (has_alloc s) (tok ++ places s)).
  { apply Forall_app. split; [done|by apply wf_places_alloc]. }
  split.
  - apply He, Hw.
  - apply Forall_forall. intros x Hx. apply (evo_alloc _ _ _ He).
    eapply (proj1 (Forall_forall _ _) Hall), elem_of_submseteq; [|apply (evo_places _ _ _ He)].
    unfold places. apply elem_of_app. by left.
  - apply Forall_forall. intros e Hin. destruct (evo_scd _ _ _ He e Hin) as [Hold|]; [|done].
    apply (proj1 (Forall_forall _ _) (wf_scd _ Hw)) in Hold as [Hok ?]. split; [|done].
    eapply ev_ok_mono; [apply He|apply (evo_len _ _ _ He)|done].
  - apply Forall_forall. intros e Hin. destruct (evo_rm _ _ _ He e Hin) as [Hold|]; [|done].
    apply (proj1 (Forall_forall _ _) (wf_rm _ Hw)) in Hold as [Hok ?]. split; [|done].
    eapply ev_ok_mono; [apply He|apply (evo_len _ _ _ He)|done].
  - eapply NoDup_sub; [apply (evo_places _ _ _ He)|done].
Qed.

(** ** Composition *)
Lemma evolves_refl s : evolves [] s s.
Proof. split; auto. Qed.

Lemma evolves_trans tok1 tok2 s s1 s2 :
  evolves tok1 s s1 -> evolves tok2 s1 s2 -> evolves (tok2 ++ tok1) s s2.
Proof.
  intros H1 H2. split.
  - intros Hb. by apply H2, H1.
  - intros x Hx. by apply H2, H1.
  - etransitivity; [apply (evo_len _ _ _ H1)|apply (evo_len _ _ _ H2)].
  - intros e He. destruct (evo_scd _ _ _ H2 e He) as [He1|]; [|by right].
    destruct (evo_scd _ _ _ H1 e He1) as [|[? ?]]; [by left|right]. split; [|done].
    eapply ev_ok_mono; [apply H2|apply (evo_len _ _ _ H2)|done].
  - intros e He. destruct (evo_rm _ _ _ H2 e He) as [He1|]; [|by right].
    destruct (evo_rm _ _ _ H1 e He1) as [|[? ?]]; [by left|right]. split; [|done].
    eapply ev_ok_mono; [apply H2|apply (evo_len _ _ _ H2)|done].
  - rewrite (evo_places _ _ _ H2), (evo_places _ _ _ H1). by rewrite app_assoc.
Qed.

Lemma evolves_more tok tok' s s' : tok ⊆+ tok' -> evolves tok s s' -> evolves tok' s s'.
Proof. intros Ht H. split; try apply H. rewrite (evo_places _ _ _ H). by rewrite Ht. Qed.

(** [tok] first, then steps that need nothing. *)
Lemma evolves_then tok s s1 s2 : evolves tok s s1 -> evolves [] s1 s2 -> evolves tok s s2.
Proof. intros H1 H2. exact (evolves_trans _ _ _ _ _ H1 H2). Qed.

(** Steps that need nothing, then [tok]. *)
Lemma evolves_before tok s s1 s2 : evolves [] s s1 -> evolves tok s1 s2 -> evolves tok s s2.
Proof. intros H1 H2. rewrite <- (app_nil_r tok). exact (evolves_trans _ _ _ _ _ H1 H2). Qed.

(** Updates of the other fields change nothing of this. *)
Lemma evolves_same s s' :
  sc_states s' = sc_states s -> sc_rmstates s' = sc_rmstates s -> sc_queues s' = sc_queues s ->
  sc_sessions s' = sc_sessions s -> sc_scd_events s' = sc_scd_events s ->
  sc_rm_events s' = sc_rm_events s -> evolves [] s s'.
Proof.
  intros H1 H2 H3 H4 H5 H6. split.
  - unfold booted. by rewrite H1, H2.
  - intros x. unfold has_alloc, session_alloc. by rewrite H4.
  - by rewrite H4.
  - rewrite H5. auto.
  - rewrite H6. auto.
  - unfold places, queued. by rewrite H3, H5, H6.
Qed.

Lemma alter_alloc_has f sid s x : has_alloc s x -> has_alloc (alter_alloc f sid s) x.
Proof.
  unfold has_alloc, returns, session_alloc, alter_alloc; cbn. destruct (decide (x = sid)) as [->|Hne].
  - rewrite list_lookup_alter_eq. destruct (sc_sessions s !! sid) as [[i [a|]]|]; cbn; [by eauto|done|done].
  - by rewrite list_lookup_alter_ne.
Qed.

Lemma evolves_alter_alloc f sid s : evolves [] s (alter_alloc f sid s).
Proof.
  split; auto.
  - apply alter_alloc_has.
  - unfold alter_alloc; cbn. by rewrite length_alter.
Qed.

(** ** Queues *)
Lemma evolves_queue f tok k s q :
  sc_queues s !! k = Some q -> f (q_sessions q) ⊆+ tok ++ q_sessions q ->
  evolves tok s (upd_queue_sessions f k s).
Proof.
  intros Hq Hf. split; auto.
  change (places (upd_queue_sessions f k s)) with
    (queued (upd_queue_sessions f k s) ++ held (sc_scd_events s) ++ held (sc_rm_events s)).
  unfold places. rewrite (queued_upd _ _ _ _ Hq), (queued_split _ _ _ Hq), Hf. by rewrite !app_assoc.
Qed.

Lemma evolves_queue_drop f k s :
  (forall l, f l ⊆+ l) -> evolves [] s (upd_queue_sessions f k s).
Proof.
  intros Hf. destruct (sc_queues s !! k) as [q|] eqn:Hq; [by eapply evolves_queue; [done|apply Hf]|].
  rewrite upd_queue_sessions_id by (intros q' Hq'; congruence). apply evolves_refl.
Qed.

Lemma tail_submseteq (l : list nat) : tail l ⊆+ l.
Proof. destruct l; [done|]. cbn. by apply submseteq_cons. Qed.

Lemma evolves_append k sid s s' : queue_append k sid s = Ret s' -> evolves [sid] s s'.
Proof.
  unfold queue_append. destruct (on_list s sid); [done|]. intros [= <-].
  destruct (sc_queues s !! k) as [q|] eqn:Hq.
  - eapply evolves_queue; [done|]. cbn. by rewrite Permutation_app_comm.
  - rewrite upd_queue_sessions_id by (intros q' Hq'; congruence).
    eapply evolves_more; [apply submseteq_nil_l|apply evolves_refl].
Qed.

Lemma evolves_prepend k sid s s' : queue_prepend k sid s = Ret s' -> evolves [sid] s s'.
Proof.
  unfold queue_prepend. destruct (on_list s sid); [done|]. intros [= <-].
  destruct (sc_queues s !! k) as [q|] eqn:Hq.
  - by eapply evolves_queue.
  - rewrite upd_queue_sessions_id by (intros q' Hq'; congruence).
    eapply evolves_more; [apply submseteq_nil_l|apply evolves_refl].
Qed.

(** ** Events *)
Lemma held_app l1 l2 : held (l1 ++ l2) = held l1 ++ held l2.
Proof. unfold held. by rewrite filter_app, fmap_app. Qed.

Lemma held_one cb sid : held [ev cb sid] = if holds_session cb then [sid] else [].
Proof. unfold held. rewrite filter_cons; cbn. by destruct (holds_session cb). Qed.

Lemma evolves_scd_event s cb sid :
  on_scd_thread cb = true -> (sid < length (sc_sessions s))%nat ->
  (uses_alloc cb = true -> has_alloc s sid) ->
  evolves (if holds_session cb then [sid] else []) s (upd_scd_events (fun l => l ++ [ev cb sid]) s).
Proof.
  intros Hth Hlt Ha. split; auto.
  - intros e. cbn. rewrite elem_of_app, list_elem_of_singleton. intros [He| ->]; [by left|]. by right.
  - change (places (upd_scd_events _ s)) with
      (queued s ++ held (sc_scd_events s ++ [ev cb sid]) ++ held (sc_rm_events s)).
    unfold places. rewrite held_app, held_one. apply Permutation_submseteq.
    rewrite <- !app_assoc, (Permutation_app_swap_app (held (sc_scd_events s))). apply Permutation_app_swap_app.
Qed.

Lemma evolves_rm_event s cb sid :
  on_scd_thread cb = false -> (sid < length (sc_sessions s))%nat ->
  (uses_alloc cb = true -> has_alloc s sid) ->
  evolves (if holds_session cb then [sid] else []) s (upd_rm_events (fun l => l ++ [ev cb sid]) s).
Proof.
  intros Hth Hlt Ha. split; auto.
  - intros e. cbn. rewrite elem_of_app, list_elem_of_singleton. intros [He| ->]; [by left|]. by right.
  - change (places (upd_rm_events _ s)) with
      (queued s ++ held (sc_scd_events s) ++ held (sc_rm_events s ++ [ev cb sid])).
    unfold places. rewrite held_app, held_one. apply Permutation_submseteq.
    rewrite (Permutation_app_comm (held (sc_rm_events s))), (Permutation_app_swap_app (held (sc_scd_events s))).
    apply Permutation_app_swap_app.
Qed.

Lemma evolves_places_alloc tok s s' :
  Forall (has_alloc s) (tok ++ places s) -> evolves tok s s' -> Forall (has_alloc s') (places s').
Proof.
  rewrite !Forall_forall. intros H He x Hx. apply (evo_alloc _ _ _ He), H.
  eapply elem_of_submseteq; [done|apply (evo_places _ _ _ He)].
Qed.

Lemma evolves_scd s sid state cb :
  booted s -> activation pmf_table state sid = [ev cb sid] ->
  on_scd_thread cb = true -> (sid < length (sc_sessions s))%nat ->
  (uses_alloc cb = true -> has_alloc s sid) ->
  evolves (if holds_session cb then [sid] else []) s (orcm_scd_base_activate_session_state sid state s).
Proof. intros Hb Hact. rewrite (activate_scd _ _ _ _ Hb Hact). apply evolves_scd_event. Qed.

Lemma evolves_rm s sid state cb :
  booted s -> activation rm_table state sid = [ev cb sid] ->
  on_scd_thread cb = false -> (sid < length (sc_sessions s))%nat ->
  (uses_alloc cb = true -> has_alloc s sid) ->
  evolves (if holds_session cb then [sid] else []) s (orcm_scd_base_rm_activate_session_state sid state s).
Proof. intros Hb Hact. rewrite (activate_rm _ _ _ _ Hb Hact). apply evolves_rm_event. Qed.

(** A scheduling request needs only an existing session. *)
Lemma evolves_schedule_event s sid :
  booted s -> (sid < length (sc_sessions s))%nat ->
  evolves [] s (orcm_scd_base_activate_session_state sid ORCM_SESSION_STATE_SCHEDULE s).
Proof. intros Hb Hlt. by apply (evolves_scd s sid _ Pmf_schedule). Qed.

(** ** The handlers of the scheduler *)
Lemma evolves_enqueue name sid s s' :
  booted s -> has_alloc s sid -> enqueue name sid s = Ret s' -> evolves [sid] s s'.
Proof.
  intros Hb Ha. unfold enqueue. destruct (find_queue name s) as [k|].
  - intros (s1 & H1 & [= <-])%bind_Ret_inv. apply evolves_append in H1.
    eapply evolves_before; [apply evolves_alter_alloc|]. eapply evolves_then; [exact H1|].
    apply evolves_schedule_event; [by apply H1|].
    apply (has_alloc_lt s1), H1, alter_alloc_has, Ha.
  - intros [= <-]. eapply evolves_more; [apply submseteq_nil_l|apply evolves_refl].
Qed.

Lemma evolves_find_queue sid s s' :
  booted s -> has_alloc s sid -> pmf_find_queue sid s = Ret s' -> evolves [sid] s s'.
Proof.
  intros Hb Ha. unfold pmf_find_queue. intros (a & _ & H)%bind_Ret_inv. destruct (_ <? _).
  - apply bind_Ret_inv in H as (s1 & H1 & [= <-]).
    eapply evolves_then; [by eapply evolves_enqueue|apply evolves_alter_alloc].
  - by eapply evolves_enqueue.
Qed.

(** Taking the head off a queue frees it for use. *)
Lemma evolves_release s s' k q sid rest :
  sc_queues s !! k = Some q -> q_sessions q = sid :: rest ->
  evolves [sid] (upd_queue_sessions tail k s) s' -> evolves [] s s'.
Proof.
  intros Hq Hs He. split; try apply He.
  rewrite (evo_places _ _ _ He). cbn [app]. apply Permutation_submseteq.
  change (places (upd_queue_sessions tail k s)) with
    (queued (upd_queue_sessions tail k s) ++ held (sc_scd_events s) ++ held (sc_rm_events s)).
  unfold places. rewrite (queued_upd _ _ _ _ Hq), (queued_split _ _ _ Hq), Hs. done.
Qed.

Lemma queue_elem_places s k q sid :
  sc_queues s !! k = Some q -> sid ∈ q_sessions q -> sid ∈ places s.
Proof.
  intros Hq Hin. unfold places. apply elem_of_app. left. apply elem_queued.
  exists q. split; [by eapply list_elem_of_lookup_2|done].
Qed.

Lemma evolves_schedule_queues ks s s' :
  booted s -> Forall (has_alloc s) (places s) -> schedule_queues ks s = Ret s' -> evolves [] s s'.
Proof.
  revert s; induction ks as [|k ks IH]; intros s Hb Hp; cbn [schedule_queues].
  { intros [= <-]. apply evolves_refl. }
  destruct (sc_queues s !! k) as [q|] eqn:Hq; [|intros [= <-]; apply evolves_refl].
  destruct (strcmp0 _ _); [|by apply IH].
  destruct (q_sessions q) as [|sid rest] eqn:Hs; [intros [= <-]; apply evolves_refl|].
  intros (a & Ha & (s1 & H1 & H2)%bind_Ret_inv)%bind_Ret_inv.
  assert (Hsid : has_alloc s sid).
  { apply (proj1 (Forall_forall _ _) Hp), (queue_elem_places s k q); [done|]. rewrite Hs. by left. }
  assert (He : evolves [] s s1).
  { eapply evolves_release; [exact Hq|exact Hs|]. destruct (_ <=? _).
    - injection H1 as <-. apply (evolves_rm _ sid _ Rm_request); try done. by apply has_alloc_lt.
    - by eapply evolves_prepend. }
  eapply evolves_then; [exact He|]. apply IH; [by apply He|by apply (evolves_places_alloc [] s)|done].
Qed.

Lemma evolves_other_sessions s id (l : list nat) : other_sessions s id l ⊆+ l.
Proof. apply sublist_submseteq, sublist_filter. Qed.

(** [ERROR] of [pmf_allocated] after the session was put on the running queue:
    it can be put back only if nothing else was running. *)
Lemma evolves_allocated_error s s' k q l sid :
  booted s -> has_alloc s sid -> find_queue (cs "running") s = Some k ->
  sc_queues s !! k = Some q -> q_sessions q = l ++ [sid] ->
  allocated_error sid s = Ret s' -> evolves [] s s'.
Proof.
  intros Hb Ha Hk Hq Hs. unfold allocated_error. rewrite Hk.
  destruct (find_queue (cs "default") _) as [kd|].
  - intros (s1 & H1 & [= <-])%bind_Ret_inv.
    assert (Hl : l = []).
    { unfold queue_prepend in H1. destruct (on_list _ sid) eqn:Hon; [done|].
      destruct l as [|x l]; [done|]. rewrite on_list_queued in Hon. destruct Hon.
      rewrite (queued_upd _ _ _ _ Hq), Hs. cbn. rewrite <- app_assoc.
      apply elem_of_app. right. by left. }
    rewrite Hl in Hs. apply (evolves_release s _ k q sid [] Hq Hs).
    apply evolves_prepend in H1. eapply evolves_then; [exact H1|].
    apply evolves_schedule_event; [by apply H1|]. by apply has_alloc_lt, H1.
  - intros [= <-]. apply evolves_queue_drop, tail_submseteq.
Qed.

Lemma evolves_allocated_error_none s s' sid :
  booted s -> has_alloc s sid -> find_queue (cs "running") s = None ->
  allocated_error sid s = Ret s' -> evolves [sid] s s'.
Proof.
  intros Hb Ha Hk. unfold allocated_error. rewrite Hk.
  destruct (find_queue (cs "default") _) as [kd|].
  - intros (s1 & H1 & [= <-])%bind_Ret_inv.
    apply evolves_prepend in H1. eapply evolves_then; [exact H1|].
    apply evolves_schedule_event; [by apply H1|]. by apply has_alloc_lt, H1.
  - intros [= <-]. eapply evolves_more; [apply submseteq_nil_l|apply evolves_refl].
Qed.

Section Handlers.
Variable int_log10 : Z -> Z.
Variable send_rc : orte_process_name_t -> Z.
Variable topo_equal : hwloc_topology_t -> hwloc_topology_t -> bool.
Variable orcm_clusters : list orcm_cluster_t.
Variable session_uid : nat -> Z.

Lemma evolves_scd_extract r s rc names s' :
  scd_extract int_log10 r s = Ret (rc, names, s') -> exists f, s' = upd_scd_errno f s.
Proof. intros ([[rc' n'] e] & _ & [= <- <- <-])%bind_Ret_inv. by eexists. Qed.

Lemma evolves_rm_extract r s rc names s' :
  rm_extract int_log10 r s = Ret (rc, names, s') -> exists f, s' = upd_rm_errno f s.
Proof. intros ([[rc' n'] e] & _ & [= <- <- <-])%bind_Ret_inv. by eexists. Qed.

(** The rest of [pmf_allocated], once the session is on the running queue (or
    there is none). *)
Lemma evolves_allocated_rest tok s s' sid a nodes :
  booted s -> has_alloc s sid ->
  (forall s1 s2, sc_queues s1 = sc_queues s -> booted s1 -> has_alloc s1 sid ->
     allocated_error sid s1 = Ret s2 -> evolves tok s1 s2) ->
  (if strcmp0 nodes (cs "ERROR") then allocated_error sid s
   else
     '(rc, nodenames, s) ← scd_extract int_log10 (Some nodes)
        (orcm_scd_base_rm_activate_session_state sid ORCM_SESSION_STATE_ACTIVE s);
     if negb (rc =? OPAL_SUCCESS) then allocated_error sid s
     else if negb (opal_argv_count nodenames =? a_min_nodes a) then allocated_error sid s
     else Ret (upd_nodes (mark_nodes ORCM_SCD_NODE_STATE_ALLOC (argv_list nodenames)) s)) = Ret s' ->
  evolves tok s s'.
Proof.
  intros Hb Ha Herr. destruct (strcmp0 _ _); [by apply Herr|].
  intros ([[rc names] s2] & H1 & H2)%bind_Ret_inv.
  apply evolves_scd_extract in H1 as [f ->].
  assert (He : evolves [] s (upd_scd_errno f
    (orcm_scd_base_rm_activate_session_state sid ORCM_SESSION_STATE_ACTIVE s))).
  { eapply evolves_then; [apply (evolves_rm s sid ORCM_SESSION_STATE_ACTIVE Rm_active); try done; by apply has_alloc_lt|].
    by apply evolves_same. }
  eapply evolves_before; [exact He|].
  destruct (negb _); [by apply Herr|]. destruct (negb _); [by apply Herr|].
  injection H2 as <-. eapply evolves_more; [apply submseteq_nil_l|]. by apply evolves_same.
Qed.

Lemma evolves_allocated sid s s' :
  booted s -> has_alloc s sid -> pmf_allocated int_log10 sid s = Ret s' -> evolves [sid] s s'.
Proof.
  intros Hb Ha. unfold pmf_allocated. intros (a & Haa & (s1 & H1 & H2)%bind_Ret_inv)%bind_Ret_inv.
  destruct (a_nodes a) as [nodes|]; [|done].
  destruct (find_queue (cs "running") s) as [k|] eqn:Hk.
  - destruct (find_queue_Some _ _ _ Hk) as (q & Hq & _).
    pose proof (evolves_append _ _ _ _ H1) as He.
    assert (Ha1 : has_alloc s1 sid) by apply He, alter_alloc_has, Ha.
    unfold queue_append in H1. destruct (on_list _ _); [done|]. injection H1 as <-.
    eapply evolves_then; [eapply evolves_before; [apply evolves_alter_alloc|exact He]|].
    eapply (evolves_allocated_rest []); [by apply He|done| |exact H2].
    intros s2 s3 Hq2 Hb2 Ha2. eapply (evolves_allocated_error s2 s3 k _ (q_sessions q)); [done|done| | |].
    + unfold find_queue. rewrite Hq2. etransitivity; [apply find_queue_upd|done].
    + rewrite Hq2. by apply queue_upd_eq.
    + done.
  - injection H1 as <-. eapply (evolves_allocated_rest [sid]); [done|done| |exact H2].
    intros s2 s3 Hq2 Hb2 Ha2. apply evolves_allocated_error_none; [done|done|].
    unfold find_queue. by rewrite Hq2.
Qed.

Lemma evolves_terminated sid s s' :
  booted s -> (sid < length (sc_sessions s))%nat ->
  pmf_terminated int_log10 sid s = Ret s' -> evolves [] s s'.
Proof.
  intros Hb Hlt. unfold pmf_terminated.
  intros (a & _ & (id & _ & ([[rc names] s1] & H1 & H2)%bind_Ret_inv)%bind_Ret_inv)%bind_Ret_inv.
  apply evolves_scd_extract in H1 as [f ->].
  destruct (negb _); [injection H2 as <-; by apply evolves_same|]. injection H2 as <-.
  eapply evolves_before; [|apply evolves_schedule_event].
  - destruct (find_queue _ _).
    + eapply evolves_before; [|apply evolves_queue_drop; intros l; apply evolves_other_sessions].
      by apply evolves_same.
    + by apply evolves_same.
  - by destruct (find_queue _ _).
  - by destruct (find_queue _ _).
Qed.

Lemma evolves_cancel_queue sid id s k :
  booted s -> (sid < length (sc_sessions s))%nat -> Forall (has_alloc s) (places s) ->
  evolves [] s (cancel_queue sid id s k).
Proof.
  intros Hb Hlt Hp. unfold cancel_queue. destruct (sc_queues s !! k) as [q|] eqn:Hq; [|apply evolves_refl].
  destruct (find_index _ _) as [i|]; [|apply evolves_refl]. destruct (strcmp0 _ _).
  - destruct (q_sessions q !! i) as [x|] eqn:Hx; [|apply evolves_refl].
    assert (Hax : has_alloc s x).
    { apply (proj1 (Forall_forall _ _) Hp), (queue_elem_places s k q); [done|]. by eapply list_elem_of_lookup_2. }
    apply (evolves_rm s x _ Rm_kill); try done. by apply has_alloc_lt.
  - eapply evolves_before; [|by apply evolves_schedule_event].
    apply evolves_queue_drop. intros l. apply sublist_submseteq, sublist_delete.
Qed.

Lemma evolves_cancel sid s s' :
  booted s -> (sid < length (sc_sessions s))%nat -> Forall (has_alloc s) (places s) ->
  pmf_cancel sid s = Ret s' -> evolves [] s s'.
Proof.
  intros Hb Hlt Hp. unfold pmf_cancel. intros (id & _ & [= <-])%bind_Ret_inv.
  generalize (seq 0 (length (sc_queues s))). intros ks; revert s Hb Hlt Hp.
  induction ks as [|k ks IH]; intros s Hb Hlt Hp; [apply evolves_refl|]. cbn [foldl].
  pose proof (evolves_cancel_queue sid id s k Hb Hlt Hp) as He.
  eapply evolves_then; [exact He|]. apply IH; [by apply He| |by apply (evolves_places_alloc [] s)].
  eapply Nat.lt_le_trans; [exact Hlt|apply (evo_len _ _ _ He)].
Qed.

(** ** The handlers of the resource manager *)
Lemma evolves_request sid s s' :
  booted s -> has_alloc s sid -> scd_base_rm_request sid s = Ret s' -> evolves [sid] s s'.
Proof.
  intros Hb Ha. unfold scd_base_rm_request. intros (a & _ & H)%bind_Ret_inv.
  destruct (0 <? a_min_nodes a).
  2:{ injection H as <-. eapply evolves_more; [apply submseteq_nil_l|apply evolves_refl]. }
  destruct (request_nodes _ _ _) as [num nodelist].
  apply bind_Ret_inv in H as (s1 & H1 & [= <-]).
  assert (He : evolves [] s s1).
  { destruct (num =? 0); [|injection H1 as <-; apply evolves_refl].
    destruct nodelist as [l|]; [|done]. apply bind_Ret_inv in H1 as ([[rc r] e] & _ & [= <-]).
    eapply evolves_before; [|apply evolves_alter_alloc]. by apply evolves_same. }
  eapply evolves_before; [exact He|]. apply (evolves_scd s1 sid _ Pmf_allocated); try done.
  - by apply He.
  - by apply has_alloc_lt, He.
  - intros _. by apply He.
Qed.

Lemma evolves_send d m s : evolves [] s (send_buffer_nb send_rc d m s).2.
Proof. unfold send_buffer_nb. destruct (_ =? _); by apply evolves_same. Qed.

Lemma evolves_contact_nodes launch sid i name ns s b s' :
  contact_nodes send_rc launch sid i name ns s = Ret (b, s') -> evolves [] s s'.
Proof.
  revert s; induction ns as [|[n|] ns IH]; intros s; cbn [contact_nodes].
  - intros [= <- <-]. apply evolves_refl.
  - destruct name as [nm|]; [|done]. destruct (strcmp0 _ _); [|by apply IH].
    intros (a & _ & H)%bind_Ret_inv.
    assert (He : evolves [] s (if launch && (i =? 0)%nat then alter_alloc (set_hnp (n_daemon n)) sid s else s)).
    { destruct (launch && _); [apply evolves_alter_alloc|apply evolves_refl]. }
    eapply evolves_before; [exact He|]. revert H.
    match goal with |- context [send_buffer_nb send_rc ?d ?m ?x] =>
      pose proof (evolves_send d m x) as Hs; destruct (send_buffer_nb send_rc d m x) as [rc s1] end.
    cbn [snd] in Hs. destruct (negb _).
    + intros [= <- <-]. exact Hs.
    + intros H. eapply evolves_before; [exact Hs|by apply IH].
  - apply IH.
Qed.

Lemma evolves_contact_names launch sid idxs names s s' :
  contact_names send_rc launch sid idxs names s = Ret s' -> evolves [] s s'.
Proof.
  revert s; induction idxs as [|i idxs IH]; intros s; cbn [contact_names].
  - intros [= <-]. apply evolves_refl.
  - intros ([b s1] & H1 & H2)%bind_Ret_inv. apply evolves_contact_nodes in H1.
    destruct b; [|by injection H2 as <-]. eapply evolves_before; [exact H1|by apply IH].
Qed.

Lemma evolves_active sid s s' : scd_base_rm_active int_log10 send_rc sid s = Ret s' -> evolves [] s s'.
Proof.
  unfold scd_base_rm_active.
  intros (a & _ & (id & _ & ([[rc names] s1] & H1 & H2)%bind_Ret_inv)%bind_Ret_inv)%bind_Ret_inv.
  apply evolves_rm_extract in H1 as [f ->].
  destruct (negb _); [injection H2 as <-; by apply evolves_same|].
  destruct names as [[|n names]|]; [done| |injection H2 as <-; by apply evolves_same].
  apply evolves_contact_names in H2. eapply evolves_before; [|exact H2].
  eapply (evolves_before _ _ (alter_alloc (set_hnpname (Some n)) sid s)); [apply evolves_alter_alloc|].
  by apply evolves_same.
Qed.

Lemma evolves_kill sid s s' : scd_base_rm_kill int_log10 send_rc sid s = Ret s' -> evolves [] s s'.
Proof.
  unfold scd_base_rm_kill.
  intros (a & _ & ([[rc names] s1] & H1 & H2)%bind_Ret_inv)%bind_Ret_inv.
  apply evolves_rm_extract in H1 as [f ->].
  destruct (negb _); [injection H2 as <-; by apply evolves_same|].
  destruct names as [names|]; [|injection H2 as <-; by apply evolves_same].
  apply evolves_contact_names in H2. eapply evolves_before; [|exact H2]. by apply evolves_same.
Qed.

(** ** Messages *)
Lemma has_alloc_app s se x : has_alloc s x -> has_alloc (upd_sessions (fun l => l ++ [se]) s) x.
Proof.
  unfold has_alloc, returns, session_alloc; cbn. intros [a Ha].
  destruct (sc_sessions s !! x) eqn:E; [|done]. rewrite (lookup_app_l_Some _ _ _ _ E). eauto.
Qed.

Lemma evolves_new_session se s : evolves [] s (upd_sessions (fun l => l ++ [se]) s).
Proof.
  split; auto; [apply has_alloc_app|]. cbn. rewrite length_app. lia.
Qed.

Lemma has_alloc_new s id a :
  has_alloc (upd_sessions (fun l => l ++ [MkSession id (Some a)]) s) (length (sc_sessions s)).
Proof. exists a. unfold session_alloc; cbn. by rewrite list_lookup_middle. Qed.

Lemma new_session_lt se s :
  (length (sc_sessions s) < length (sc_sessions (upd_sessions (fun l => l ++ [se]) s)))%nat.
Proof. cbn. rewrite length_app. cbn. lia. Qed.

Lemma evolves_stepd_complete alloc s : booted s -> evolves [] s (stepd_complete alloc s).
Proof.
  intros Hb. unfold stepd_complete. destruct (check_in _ _ _) as [[[] l]|]; [|by apply evolves_same|apply evolves_refl].
  cbn [new_session].
  eapply evolves_before; [apply (evolves_new_session (MkSession (u32 (a_id alloc)) (Some alloc)))|].
  set (s1 := upd_sessions _ s).
  assert (He : evolves [] s1 (orcm_scd_base_activate_session_state (length (sc_sessions s))
                                ORCM_SESSION_STATE_TERMINATED s1)).
  { apply (evolves_scd s1 _ _ Pmf_terminated); [done|done|done|apply new_session_lt|].
    intros _. apply has_alloc_new. }
  eapply evolves_then; [exact He|by apply evolves_same].
Qed.

Lemma evolves_byproc state names topo s : evolves [] s (update_nodestate_byproc state names topo s).2.
Proof. unfold update_nodestate_byproc. destruct (update_all _ _ _ _ _). by apply evolves_same. Qed.

Lemma evolves_byname state r topo s rc s' :
  update_nodestate_byname int_log10 state r topo s = Ret (rc, s') -> evolves [] s s'.
Proof.
  unfold update_nodestate_byname. intros ([[rc' names] s1] & H1 & H2)%bind_Ret_inv.
  apply evolves_rm_extract in H1 as [f ->].
  destruct (negb _); [injection H2 as <- <-; by apply evolves_same|].
  destruct (update_all _ _ _ _ _). injection H2 as <- <-. by apply evolves_same.
Qed.

Lemma evolves_rm_recv sender m s s' :
  booted s ->
  orcm_scd_base_rm_recv int_log10 send_rc topo_equal orcm_clusters sender m s = Ret s' -> evolves [] s s'.
Proof.
  intros Hb. destruct m as [node topo|node|r|r|st|a|a|c]; cbn [orcm_scd_base_rm_recv].
  - destruct (record_topology _ _ _) as [t s1] eqn:Hr. intros [= <-].
    eapply evolves_before; [|apply evolves_byproc]. unfold record_topology in Hr.
    destruct topo; [destruct (existsb _ _)|]; injection Hr as <- <-; by apply evolves_same.
  - destruct (orcm_util_get_dependents _ _ _). intros [= <-]. apply evolves_byproc.
  - intros ([rc s1] & H1 & [= <-])%bind_Ret_inv.
    eapply evolves_before; [by eapply evolves_byname|apply evolves_send].
  - intros ([rc s1] & H1 & [= <-])%bind_Ret_inv.
    eapply evolves_before; [by eapply evolves_byname|apply evolves_send].
  - intros [= <-]. apply evolves_refl.
  - intros [= <-]. by apply evolves_stepd_complete.
  - intros [= <-]. apply evolves_send.
  - intros [= <-]. apply evolves_refl.
Qed.

(** ** Preservation *)
Lemma next_event_perm evs e evs' : next_event evs = Some (e, evs') -> evs ≡ₚ e :: evs'.
Proof.
  unfold next_event. destruct (find_index _ _) as [i|]; [|done].
  destruct (evs !! i) as [e0|] eqn:Hi; [|done]. intros [= <- <-]. by apply delete_Permutation.
Qed.

Lemma held_perm evs e evs' :
  evs ≡ₚ e :: evs' -> held evs ≡ₚ (if holds_session (cd_cbfunc e) then [cd_session e] else []) ++ held evs'.
Proof.
  intros Hp. unfold held. rewrite Hp, filter_cons.
  destruct (holds_session (cd_cbfunc e)); by rewrite ?decide_True, ?decide_False by done.
Qed.

(** The session an event holds is free once the event is taken. *)
Definition taken (e : orcm_session_caddy_t) : list nat :=
  if holds_session (cd_cbfunc e) then [cd_session e] else [].

Lemma wf_pop_scd s e evs :
  scd_wf s -> next_event (sc_scd_events s) = Some (e, evs) ->
  scd_wf (upd_scd_events (fun _ => evs) s) /\ ev_ok s e /\ on_scd_thread (cd_cbfunc e) = true /\
  NoDup (taken e ++ places (upd_scd_events (fun _ => evs) s)).
Proof.
  intros Hw Hp%next_event_perm. pose proof (wf_scd _ Hw) as Hscd. rewrite Hp in Hscd.
  apply Forall_cons_iff in Hscd as [[He Hth] Hscd].
  assert (Hnd : NoDup (taken e ++ places (upd_scd_events (fun _ => evs) s))).
  { pose proof (wf_places _ Hw) as Hnd. unfold places in *. rewrite (held_perm _ _ _ Hp) in Hnd.
    change (queued (upd_scd_events _ s)) with (queued s). cbn [upd_scd_events sc_scd_events sc_rm_events].
    rewrite <- app_assoc in Hnd. by rewrite (Permutation_app_swap_app (taken e)). }
  split_and!; try done. split; try apply Hw; [done|]. by apply NoDup_app in Hnd as (_ & _ & ?).
Qed.

Lemma wf_pop_rm s e evs :
  scd_wf s -> next_event (sc_rm_events s) = Some (e, evs) ->
  scd_wf (upd_rm_events (fun _ => evs) s) /\ ev_ok s e /\ on_scd_thread (cd_cbfunc e) = false /\
  NoDup (taken e ++ places (upd_rm_events (fun _ => evs) s)).
Proof.
  intros Hw Hp%next_event_perm. pose proof (wf_rm _ Hw) as Hrm. rewrite Hp in Hrm.
  apply Forall_cons_iff in Hrm as [[He Hth] Hrm].
  assert (Hnd : NoDup (taken e ++ places (upd_rm_events (fun _ => evs) s))).
  { pose proof (wf_places _ Hw) as Hnd. unfold places in *. rewrite (held_perm _ _ _ Hp) in Hnd.
    change (queued (upd_rm_events _ s)) with (queued s). cbn [upd_rm_events sc_scd_events sc_rm_events].
    rewrite (Permutation_app_swap_app (taken e)), (Permutation_app_swap_app (taken e)). done. }
  split_and!; try done. split; try apply Hw; [done|]. by apply NoDup_app in Hnd as (_ & _ & ?).
Qed.

(** Each callback uses at most the session its event held. *)
Lemma evolves_callback s s' e :
  scd_wf s -> ev_ok s e -> run_callback int_log10 send_rc (cd_cbfunc e) (cd_session e) s = Ret s' ->
  evolves (taken e) s s'.
Proof.
  intros Hw [Hlt Ha]. pose proof (wf_booted _ Hw) as Hb. pose proof (wf_places_alloc _ Hw) as Hp.
  unfold taken. destruct e as [cb pri sid]; cbn [cd_cbfunc cd_session] in *.
  destruct cb; cbn [run_callback holds_session uses_alloc] in *; intros H.
  - injection H as <-. apply evolves_refl.
  - apply evolves_find_queue; auto.
  - by eapply evolves_schedule_queues.
  - eapply evolves_allocated; eauto.
  - eapply evolves_terminated; eauto.
  - eapply evolves_cancel; eauto.
  - injection H as <-. apply evolves_refl.
  - apply evolves_request; auto.
  - by eapply evolves_active.
  - by eapply evolves_kill.
Qed.

Lemma taken_alloc s e : ev_ok s e -> Forall (has_alloc s) (taken e).
Proof.
  intros [_ Ha]. unfold taken. destruct (holds_session _) eqn:E; [|constructor].
  constructor; [|constructor]. by apply Ha, holds_uses.
Qed.

Lemma wf_turn t s s' : scd_wf s -> turn int_log10 send_rc t s = Ret s' -> scd_wf s'.
Proof.
  intros Hw. destruct t; cbn [turn].
  - destruct (next_event _) as [[e evs]|] eqn:E; [|intros [= <-]; done].
    destruct (wf_pop_scd s e evs Hw E) as (Hw' & He & _ & Hnd). intros H.
    eapply wf_evolves; [exact Hw'|by apply taken_alloc|exact Hnd|]. by apply evolves_callback.
  - destruct (next_event _) as [[e evs]|] eqn:E; [|intros [= <-]; done].
    destruct (wf_pop_rm s e evs Hw E) as (Hw' & He & _ & Hnd). intros H.
    eapply wf_evolves; [exact Hw'|by apply taken_alloc|exact Hnd|]. by apply evolves_callback.
Qed.

Lemma wf_evolves_nil s s' : scd_wf s -> evolves [] s s' -> scd_wf s'.
Proof. intros Hw. apply wf_evolves; [done|constructor|apply Hw]. Qed.

Lemma new_sid_nowhere s : scd_wf s -> length (sc_sessions s) ∉ places s.
Proof.
  intros Hw Hin. apply (proj1 (Forall_forall _ _) (wf_places_alloc _ Hw)), has_alloc_lt in Hin. lia.
Qed.

Lemma wf_request sender alloc s :
  scd_wf s -> scd_wf (session_request send_rc session_uid sender alloc s).
Proof.
  intros Hw. unfold session_request, new_session.
  set (s1 := upd_last_id _ s). set (se := MkSession _ _). set (s2 := upd_sessions _ s1).
  assert (He : evolves [] s s2).
  { eapply (evolves_before _ _ s1); [by apply evolves_same|apply evolves_new_session]. }
  match goal with |- context [send_buffer_nb send_rc ?d ?m ?x] =>
    pose proof (evolves_send d m x) as Hs; destruct (send_buffer_nb send_rc d m x) as [rc s3] eqn:Esend end.
  cbn [snd] in Hs. pose proof (evolves_then _ _ _ _ He Hs) as H3.
  pose proof (wf_evolves_nil _ _ Hw H3) as Hw3. destruct (negb _); [done|].
  assert (Ha3 : has_alloc s3 (length (sc_sessions s1))) by apply Hs, has_alloc_new.
  eapply (wf_evolves [length (sc_sessions s1)]); [exact Hw3|by constructor| |].
  - cbn [app]. constructor; [|apply Hw3]. intros Hin.
    apply (new_sid_nowhere s Hw). eapply elem_of_submseteq; [exact Hin|apply (evo_places _ _ _ H3)].
  - apply (evolves_scd s3 _ _ Pmf_find_queue); [apply Hw3|done|done|by apply has_alloc_lt|done].
Qed.

Lemma wf_cancel sender id s : scd_wf s -> scd_wf (session_cancel send_rc sender id s).
Proof.
  intros Hw. unfold session_cancel, new_session. set (s1 := upd_sessions _ s).
  eapply wf_evolves_nil; [exact Hw|]. eapply evolves_before; [|apply evolves_send].
  eapply (evolves_before _ _ s1); [apply evolves_new_session|].
  apply (evolves_scd s1 _ _ Pmf_cancel); [apply Hw|done|done|apply new_session_lt|done].
Qed.

Abbreviation step' := (step int_log10 send_rc topo_equal orcm_clusters session_uid).
Abbreviation reachable' := (reachable int_log10 send_rc topo_equal orcm_clusters session_uid).

Lemma wf_step s l s' : scd_wf s -> step' s l s' -> scd_wf s'.
Proof.
  intros Hw Hs. inversion Hs as [s0 l0 s1 H]; subst. destruct l; cbn [perform] in H.
  - by eapply wf_turn.
  - injection H as <-. by apply wf_request.
  - injection H as <-. by apply wf_cancel.
  - apply bind_Ret_inv in H as (qs & _ & [= <-]). eapply wf_evolves_nil; [done|apply evolves_send].
  - eapply wf_evolves_nil; [exact Hw|]. eapply evolves_rm_recv; [apply Hw|exact H].
Qed.

Lemma wf_reachable s0 s : scd_wf s0 -> reachable' s0 s -> scd_wf s.
Proof. intros H0; induction 1; [done|]. by eapply wf_step. Qed.

(** ** Progress of the scheduler's own handlers *)
Lemma session_alloc_returns s x : has_alloc s x -> exists a, session_alloc s x = Ret a.
Proof. done. Qed.

Lemma append_returns k sid s : sid ∉ queued s -> exists s', queue_append k sid s = Ret s'.
Proof. intros H%on_list_queued. unfold queue_append. rewrite H. eauto. Qed.

Lemma enqueue_returns name sid s : sid ∉ queued s -> exists s', enqueue name sid s = Ret s'.
Proof.
  intros H. unfold enqueue. destruct (find_queue name s) as [k|]; [|by eauto].
  destruct (append_returns k sid (alter_alloc (set_queues (Some name)) sid s) H) as [s1 ->].
  rewrite bind_Ret. eauto.
Qed.

Lemma find_queue_returns sid s :
  has_alloc s sid -> sid ∉ queued s -> exists s', pmf_find_queue sid s = Ret s'.
Proof.
  intros [a Ha] Hq. unfold pmf_find_queue. rewrite Ha, bind_Ret. destruct (_ <? _).
  - destruct (enqueue_returns (cs "hold") sid s Hq) as [s1 ->]. rewrite bind_Ret. eauto.
  - by apply enqueue_returns.
Qed.

Lemma schedule_queues_returns ks s :
  scd_wf s -> exists s', schedule_queues ks s = Ret s'.
Proof.
  revert s; induction ks as [|k ks IH]; intros s Hw; cbn [schedule_queues]; [by eauto|].
  destruct (sc_queues s !! k) as [q|] eqn:Hq; [|by eauto].
  destruct (strcmp0 _ _) eqn:Hn; [|by apply IH].
  destruct (q_sessions q) as [|sid rest] eqn:Hs; [by eauto|].
  assert (Hin : sid ∈ places s) by (eapply queue_elem_places; [done|]; rewrite Hs; by left).
  destruct (proj1 (Forall_forall _ _) (wf_places_alloc _ Hw) sid Hin) as [a Ha].
  change (session_alloc (upd_queue_sessions tail k s) sid) with (session_alloc s sid).
  rewrite Ha, bind_Ret.
  match goal with |- exists _, (?m ≫= _) = _ => assert (Hm : exists s1, m = Ret s1) end.
  { destruct (_ <=? _); [by eauto|]. unfold queue_prepend.
    rewrite (head_off_list s k q sid rest); eauto. eapply NoDup_sub; [|apply (wf_places _ Hw)].
    unfold places. apply submseteq_inserts_r. done. }
  destruct Hm as [s1 Hm]. rewrite Hm, bind_Ret. apply IH. eapply wf_evolves_nil; [exact Hw|].
  apply (evolves_schedule_queues [k]); [apply Hw|by apply wf_places_alloc|].
  cbn [schedule_queues]. rewrite Hq, Hn, Hs.
  change (session_alloc (upd_queue_sessions tail k s) sid) with (session_alloc s sid).
  by rewrite Ha, bind_Ret, Hm, bind_Ret.
Qed.

Lemma cancel_returns sid s : (sid < length (sc_sessions s))%nat -> exists s', pmf_cancel sid s = Ret s'.
Proof.
  intros [se Hse]%lookup_lt_is_Some_2. unfold pmf_cancel, session_id. rewrite Hse, bind_Ret. eauto.
Qed.
(** ** Where the scheduler thread can stop *)

(** Whether a callback can be stopped by a malformed node expression. *)
Definition parses_nodes (cb : cbfunc) : bool :=
  match cb with Pmf_allocated | Pmf_terminated => true | _ => false end.

(** What a callback of the scheduler gets for the node expression [nodes]. *)
Definition expansion (s : orcm_scd_base_t) (nodes : option cstr) : outcome (Z * argv_t * bool) :=
  orte_regex_extract_node_names int_log10 nodes None (sc_scd_errno s).

(** The node list sends [pmf_allocated] to its [ERROR] label. *)
Definition unusable (s : orcm_scd_base_t) (a : orcm_alloc_t) (nodes : cstr) : Prop :=
  nodes = cs "ERROR" \/
  exists rc names e, expansion s (Some nodes) = Ret (rc, names, e) /\ (rc <> OPAL_SUCCESS \/ opal_argv_count names <> a_min_nodes a).

(** There are running sessions. *)
Definition others_run (s : orcm_scd_base_t) : Prop :=
  exists k q, find_queue (cs "running") s = Some k /\ sc_queues s !! k = Some q /\ q_sessions q <> [].

(** The events whose handler does not come to an end: there is no node list to
    compare, the node expression cannot be read, or a session whose node list
    is of no use is put back while others run, which links it twice. *)
Inductive stops (s : orcm_scd_base_t) (cb : cbfunc) (a : orcm_alloc_t) : Prop :=
| stops_null : cb = Pmf_allocated -> a_nodes a = None -> stops s cb a
| stops_expression : parses_nodes cb = true -> ~ returns (expansion s (a_nodes a)) -> stops s cb a
| stops_relinked nodes : cb = Pmf_allocated -> a_nodes a = Some nodes -> unusable s a nodes -> others_run s -> stops s cb a.

(** After the session was put on the running queue. *)
Lemma put_back_returns sid s s2 : sid ∉ queued s -> NoDup (queued s) ->
  sc_queues s2 = sc_queues (match find_queue (cs "running") s with Some k => upd_queue_sessions (fun l => l ++ [sid]) k s | None => s end) ->
  (exists s', allocated_error sid s2 = Ret s') \/ others_run s.
Proof.
  intros Hn Hnd Hq2. unfold allocated_error, others_run.
  destruct (find_queue (cs "running") s) as [k|] eqn:Hk.
  - destruct (find_queue_Some _ _ _ Hk) as (q & Hq & _). destruct (q_sessions q) as [|x l] eqn:Hs.
    + left. assert (find_queue (cs "running") s2 = Some k) as ->.
      { unfold find_queue. rewrite Hq2. etransitivity; [apply find_queue_upd|done]. }
      destruct (find_queue (cs "default") _) as [kd|]; [|by eauto]. unfold queue_prepend.
      rewrite (head_off_list s2 k (MkQueue (q_name q) (q_priority q) (q_sessions q ++ [sid])) sid []).
      * rewrite bind_Ret. eauto.
      * unfold queued. rewrite Hq2. fold (queued (upd_queue_sessions (fun l => l ++ [sid]) k s)).
        rewrite (queued_upd _ _ _ _ Hq), Hs. rewrite (queued_split _ _ _ Hq), Hs in Hn, Hnd. by constructor.
      * rewrite Hq2. by apply (queue_upd_eq (fun l => l ++ [sid])).
      * by rewrite Hs.
    + right. exists k, q. by rewrite Hs.
  - left. assert (find_queue (cs "running") s2 = None) as -> by (unfold find_queue; by rewrite Hq2).
    destruct (find_queue (cs "default") s2); [|by eauto]. unfold queue_prepend.
    assert (on_list s2 sid = false) as -> by (apply on_list_queued; unfold queued; by rewrite Hq2).
    rewrite bind_Ret. eauto.
Qed.

Lemma allocated_stops sid s a : session_alloc s sid = Ret a -> sid ∉ queued s -> NoDup (queued s) ->
  (exists s', pmf_allocated int_log10 sid s = Ret s') \/ stops s Pmf_allocated a.
Proof.
  intros Ha Hn Hnd. destruct (a_nodes a) as [nodes|] eqn:Hnodes; [|right; by apply stops_null].
  unfold pmf_allocated. rewrite Ha, bind_Ret, Hnodes.
  set (s0 := alter_alloc (set_queues (Some (cs "running"))) sid s).
  assert (exists s1, match find_queue (cs "running") s with Some k => queue_append k sid s0 | None => Ret s end = Ret s1 /\
    sc_scd_errno s1 = sc_scd_errno s /\ forall s2, sc_queues s2 = sc_queues s1 -> unusable s a nodes ->
      (exists s', allocated_error sid s2 = Ret s') \/ stops s Pmf_allocated a) as (s1 & -> & Herr & Hback).
  { destruct (find_queue (cs "running") s) as [k|] eqn:Hk.
    - unfold queue_append. assert (on_list s0 sid = false) as -> by by apply on_list_queued.
      eexists. split; [reflexivity|]. split; [done|]. intros s2 Hq2 Hu.
      destruct (put_back_returns sid s s2 Hn Hnd) as [?|?]; [by rewrite Hk|by left|right; by eapply stops_relinked].
    - exists s. split; [done|]. split; [done|]. intros s2 Hq2 Hu.
      destruct (put_back_returns sid s s2 Hn Hnd) as [?|?]; [by rewrite Hk|by left|right; by eapply stops_relinked]. }
  rewrite bind_Ret. destruct (strcmp0 nodes (cs "ERROR")) eqn:Hs; [apply Hback; [done|left; by apply strcmp0_true]|].
  set (s2 := orcm_scd_base_rm_activate_session_state _ _ _).
  assert (Hq2 : sc_queues s2 = sc_queues s1 /\ sc_scd_errno s2 = sc_scd_errno s) by by split. destruct Hq2 as [Hq2 Herr2].
  unfold scd_extract. rewrite Herr2.
  destruct (orte_regex_extract_node_names int_log10 (Some nodes) None (sc_scd_errno s)) as [[[rc names] e]| |] eqn:Ex.
  - rewrite !bind_Ret. destruct (negb _) eqn:E1; [apply Hback; [done|right; exists rc, names, e; split; [done|]]; left; lia|].
    destruct (negb (_ =? a_min_nodes a)) eqn:E2; [apply Hback; [done|right; exists rc, names, e; split; [done|]]; right; lia|]. eauto.
  - right. apply stops_expression; [done|]. unfold expansion. rewrite Hnodes, Ex. by intros [? ?].
  - right. apply stops_expression; [done|]. unfold expansion. rewrite Hnodes, Ex. by intros [? ?].
Qed.

Lemma terminated_stops sid s a : session_alloc s sid = Ret a ->
  (exists s', pmf_terminated int_log10 sid s = Ret s') \/ stops s Pmf_terminated a.
Proof.
  intros Ha. unfold pmf_terminated. rewrite Ha, bind_Ret.
  assert (exists id, session_id s sid = Ret id) as [id ->].
  { unfold session_alloc in Ha. unfold session_id. destruct (sc_sessions s !! sid); [by eauto|done]. }
  rewrite bind_Ret. unfold scd_extract.
  destruct (orte_regex_extract_node_names int_log10 (a_nodes a) None (sc_scd_errno s)) as [[[rc names] e]| |] eqn:Ex.
  - left. rewrite !bind_Ret. destruct (negb _); eauto.
  - right. apply stops_expression; [done|]. unfold expansion. rewrite Ex. by intros [? ?].
  - right. apply stops_expression; [done|]. unfold expansion. rewrite Ex. by intros [? ?].
Qed.

Lemma stops_events f s cb a : stops (upd_scd_events f s) cb a -> stops s cb a.
Proof. destruct 1 as [? ?|? ?|nodes ? ? ? ?]; [by apply stops_null|by apply stops_expression|by eapply stops_relinked]. Qed.

(** The next callback of the scheduler thread ends, or stops for a reason. *)
Lemma turn_returns s e evs : scd_wf s -> next_event (sc_scd_events s) = Some (e, evs) ->
  (exists s', turn int_log10 send_rc Scd s = Ret s') \/ exists a, session_alloc s (cd_session e) = Ret a /\ stops s (cd_cbfunc e) a.
Proof.
  intros Hw He. cbn [turn]. rewrite He. destruct (wf_pop_scd s e evs Hw He) as (Hw' & [Hlt Ha] & Hth & Hnd).
  unfold taken in Hnd. destruct e as [cb pri sid]; cbn [cd_cbfunc cd_session] in *.
  destruct cb; try done; cbn [run_callback]; [left; by eauto|left|left; by apply schedule_queues_returns|..].
  - apply find_queue_returns; [by apply Ha|]. cbn [holds_session app] in Hnd.
    apply NoDup_cons in Hnd as [Hn _]. intros Hin. apply Hn. apply elem_of_app. by left.
  - destruct Ha as [a Ha]; [done|]. cbn [holds_session app] in Hnd. apply NoDup_cons in Hnd as [Hn Hnd].
    destruct (allocated_stops sid (upd_scd_events (fun _ => evs) s) a) as [?|?]; [done|..].
    + intros Hin. apply Hn. apply elem_of_app. by left.
    + by apply NoDup_app in Hnd as [? _].
    + by left.
    + right. exists a. by split; [|eapply stops_events].
  - destruct Ha as [a Ha]; [done|]. destruct (terminated_stops sid (upd_scd_events (fun _ => evs) s) a Ha) as [?|?]; [by left|right]. exists a. by split; [|eapply stops_events].
  - left. by apply cancel_returns.
Qed.
End Handlers.
