(* ===== verification/SchedulerEnd.v ===== *)
(** * The end of a session, exclusive use of nodes, and the queues

    Completion reports, termination, the nodes of running sessions, and the
    order of the configured queues. *)

From S2P Require Import Prelude CString Argv Regex RegexRoundtrip Dss ScdTypes Scheduler SchedulerProps.
From S2P Require Import SchedulerRun SchedulerLife SchedulerInv.
From stdpp Require Import base strings numbers list.
From Stdlib Require Import ZArith Lia Ascii Sorted.

Open Scope Z_scope.

(** ** Completion reports *)
Definition untracked (id : Z) (l : list orcm_alloc_tracker_t) : Prop :=
  Forall (fun t => trk_alloc_id t <> id) l.

Lemma check_in_skip id n l l' :
  untracked id l ->
  check_in id n (l ++ l') = match check_in id n l' with Some (b, r) => Some (b, l ++ r) | None => None end.
Proof.
  induction 1 as [|t l Ht Hl IH]; cbn [app check_in]; [by destruct (check_in id n l') as [[]|]|].
  replace (trk_alloc_id t =? id) with false by lia. rewrite IH. by destruct (check_in id n l') as [[]|].
Qed.

Lemma stepd_complete_count a s l1 l2 c :
  sc_tracking s = l1 ++ MkTracker (a_id a) c :: l2 -> untracked (a_id a) l1 -> c + 1 <> a_min_nodes a ->
  stepd_complete a s = upd_tracking (fun _ => l1 ++ MkTracker (a_id a) (c + 1) :: l2) s.
Proof.
  intros Ht Hu Hc. unfold stepd_complete. rewrite Ht, check_in_skip by done. cbn [check_in].
  cbn [trk_alloc_id trk_count_checked_in]. rewrite Z.eqb_refl.
  replace (c + 1 =? a_min_nodes a) with false by lia. done.
Qed.

Lemma stepd_complete_last a s l1 l2 c :
  booted s -> sc_tracking s = l1 ++ MkTracker (a_id a) c :: l2 -> untracked (a_id a) l1 ->
  c + 1 = a_min_nodes a ->
  stepd_complete a s =
  upd_tracking (fun _ => l1 ++ l2)
    (upd_scd_events (fun l => l ++ [ev Pmf_terminated (length (sc_sessions s))])
       (upd_sessions (fun l => l ++ [MkSession (u32 (a_id a)) (Some a)]) s)).
Proof.
  intros Hb Ht Hu Hc. unfold stepd_complete. rewrite Ht, check_in_skip by done. cbn [check_in].
  cbn [trk_alloc_id trk_count_checked_in]. rewrite Z.eqb_refl.
  replace (c + 1 =? a_min_nodes a) with true by lia. cbn [new_session].
  by rewrite (activate_scd _ _ _ Pmf_terminated).
Qed.

(** [k] reports out of [a_min_nodes]. *)
Lemma stepd_complete_iter a s l1 l2 (k : nat) :
  sc_tracking s = l1 ++ MkTracker (a_id a) 0 :: l2 -> untracked (a_id a) l1 ->
  Z.of_nat k < a_min_nodes a ->
  Nat.iter k (stepd_complete a) s =
  upd_tracking (fun _ => l1 ++ MkTracker (a_id a) (Z.of_nat k) :: l2) s.
Proof.
  intros Ht Hu. induction k as [|k IH]; intros Hk.
  - destruct s; cbn in *. unfold upd_tracking; cbn. by subst.
  - rewrite Nat.iter_succ, IH by lia. rewrite (stepd_complete_count a _ l1 l2 (Z.of_nat k)); [|done|done|lia].
    unfold upd_tracking; cbn. by replace (Z.of_nat k + 1) with (Z.of_nat (S k)) by lia.
Qed.

Lemma stepd_complete_all a s l1 l2 :
  booted s -> sc_tracking s = l1 ++ MkTracker (a_id a) 0 :: l2 -> untracked (a_id a) l1 ->
  0 < a_min_nodes a ->
  Nat.iter (Z.to_nat (a_min_nodes a)) (stepd_complete a) s =
  upd_tracking (fun _ => l1 ++ l2)
    (upd_scd_events (fun l => l ++ [ev Pmf_terminated (length (sc_sessions s))])
       (upd_sessions (fun l => l ++ [MkSession (u32 (a_id a)) (Some a)]) s)).
Proof.
  intros Hb Ht Hu Hm. replace (Z.to_nat (a_min_nodes a)) with (S (Z.to_nat (a_min_nodes a - 1))) by lia.
  rewrite Nat.iter_succ, (stepd_complete_iter a s l1 l2) by (done || lia).
  by rewrite (stepd_complete_last a _ l1 l2 (Z.of_nat (Z.to_nat (a_min_nodes a - 1)))) by (done || lia).
Qed.

Section End_.
Variable int_log10 : Z -> Z.
Variable send_rc : orte_process_name_t -> Z.
Variable session_uid : nat -> Z.
Hypothesis Hlog : log10_exact int_log10.
Hypothesis Hsend : forall d, send_rc d = OPAL_SUCCESS.

(** ** Termination *)
Lemma pmf_terminated_frees s sid a id expr l k :
  booted s -> session_alloc s sid = Ret a -> session_id s sid = Ret id -> a_nodes a = Some expr ->
  sc_scd_errno s = false -> expands int_log10 expr l -> find_queue (cs "running") s = Some k ->
  pmf_terminated int_log10 sid s =
  Ret (upd_scd_events (fun evs => evs ++ [ev Pmf_schedule sid])
         (upd_queue_sessions (other_sessions s id) k
            (upd_nodes (mark_nodes ORCM_SCD_NODE_STATE_UNALLOC l) s))).
Proof.
  intros Hb Ha Hid Hn Herr Hx Hk. unfold pmf_terminated. rewrite Ha, Hid; cbn [mbind outcome_bind].
  unfold scd_extract. rewrite Hn, Herr. unfold expands in Hx. rewrite Hx. cbn [mbind outcome_bind].
  rewrite upd_scd_errno_same by done. cbn [Z.eqb OPAL_SUCCESS negb argv_list].
  change (find_queue (cs "running") (upd_nodes _ s)) with (find_queue (cs "running") s). rewrite Hk.
  by rewrite (activate_scd _ sid _ Pmf_schedule).
Qed.

Lemma filter_all {A} (P : A -> Prop) `{forall x, Decision (P x)} (l : list A) :
  Forall P l -> filter P l = l.
Proof. induction 1 as [|x l Hx Hl IH]; [done|]. by rewrite filter_cons, decide_True, IH. Qed.

(** Taking the last session off again. *)
Lemma other_sessions_snoc s id l x :
  Forall (fun y => s_id <$> sc_sessions s !! y <> Some id) l ->
  s_id <$> sc_sessions s !! x = Some id -> other_sessions s id (l ++ [x]) = l.
Proof.
  intros Hl Hx. unfold other_sessions. rewrite filter_app.
  rewrite filter_all by done. rewrite filter_cons, decide_False by tauto.
  by rewrite filter_nil, app_nil_r.
Qed.

(** No session of the running queue has that id. *)
Definition id_free (s : orcm_scd_base_t) (id : Z) : Prop :=
  forall q y, q ∈ sc_queues s -> y ∈ q_sessions q -> s_id <$> sc_sessions s !! y <> Some id.

(** The scheduling turn after a termination, with nothing to schedule. *)
Lemma schedule_nothing s x k q :
  sc_scd_events s = [ev Pmf_schedule x] -> NoDup (queued s) ->
  find_queue (cs "default") s = Some k -> only_default k s ->
  sc_queues s !! k = Some q -> q_sessions q = [] ->
  turn int_log10 send_rc Scd s = Ret (upd_scd_events (fun _ => []) s).
Proof.
  intros He Hnd Hk Ho Hq Hs. rewrite (turn_scd_one int_log10 send_rc _ _ _ He). cbn [run_callback].
  rewrite (pmf_schedule_spec x _ k) by done. unfold schedule_spec.
  change (sc_queues (upd_scd_events _ s)) with (sc_queues s). by rewrite Hq, Hs.
Qed.

(** From a launched session, all reports and two turns of the scheduler lead
    back to the nodes and queues the session started from. *)
Lemma session_ends s s5 sid k a id expr l names :
  booted s5 -> sc_scd_events s5 = [] -> sc_rm_events s5 = [] -> sc_scd_errno s5 = false ->
  (* the launched session *)
  session_alloc s5 sid = Ret a -> session_id s5 sid = Ret id -> a_id a = id -> u32 id = id ->
  0 < a_min_nodes a -> a_nodes a = Some expr -> expands int_log10 expr l -> l ≡ₚ names ->
  sc_tracking s5 = sc_tracking s ++ [MkTracker id 0] -> untracked id (sc_tracking s) ->
  sc_nodes s5 = mark_nodes ORCM_SCD_NODE_STATE_ALLOC names (sc_nodes s) ->
  sc_queues s5 = sc_queues (upd_queue_sessions (fun l => l ++ [sid]) k s) ->
  (forall y, y ∈ queued s -> exists se, sc_sessions s5 !! y = Some se /\ s_id se <> id) ->
  (* where it started *)
  find_queue (cs "running") s = Some k ->
  is_Some (find_queue (cs "default") s) ->
  (forall q, q ∈ sc_queues s -> q_name q = cs "default" -> q_sessions q = []) ->
  NoDup (queued s) ->
  (forall n, Some n ∈ sc_nodes s -> n_name n ∈ names -> n_scd_state n = ORCM_SCD_NODE_STATE_UNALLOC) ->
  exists s', turns int_log10 send_rc [Scd; Scd]
               (Nat.iter (Z.to_nat (a_min_nodes a)) (stepd_complete a) s5) = Ret s' /\
    sc_nodes s' = sc_nodes s /\ sc_queues s' = sc_queues s /\ sc_tracking s' = sc_tracking s /\
    sc_scd_events s' = [] /\ sc_rm_events s' = [].
Proof.
  intros Hb He Hr Herr Ha Hid Hida Hu32 Hm Hn Hx Hp Ht Hut Hns Hqs Hfree Hk [kd Hkd] Hempty Hnd Hun.
  rewrite (stepd_complete_all a s5 (sc_tracking s) []) by (rewrite ?Hida; done).
  set (s6 := upd_tracking _ _). set (t := length (sc_sessions s5)).
  assert (Hev6 : sc_scd_events s6 = [ev Pmf_terminated t]) by (cbn; by rewrite He).
  assert (Hk6 : find_queue (cs "running") (upd_scd_events (fun _ => []) s6) = Some k).
  { etransitivity; [by apply find_queue_queues|]. etransitivity; [apply find_queue_upd|done]. }
  cbn [turns]. rewrite (turn_scd_one int_log10 send_rc _ _ _ Hev6). cbn [run_callback].
  rewrite (pmf_terminated_frees _ t a id expr l k); [|done| | |done|done|done|done].
  2:{ unfold session_alloc; cbn. by rewrite list_lookup_middle. }
  2:{ unfold session_id; cbn. rewrite list_lookup_middle by done. cbn. by rewrite Hida, Hu32. }
  rewrite bind_Ret. set (s7 := upd_scd_events (fun evs => evs ++ _) _).
  assert (Hq7 : sc_queues s7 = sc_queues s).
  { unfold s7, upd_queue_sessions; cbn. rewrite Hqs. unfold upd_queue_sessions; cbn.
    rewrite list_alter_twice. apply alter_id_at. intros q Hq. cbn [q_name q_priority q_sessions].
    rewrite other_sessions_snoc; [by destruct q| |]; cbn.
    - apply Forall_forall. intros y Hy.
      destruct (Hfree y) as (se & Hse & Hne).
      { apply elem_queued. eexists. split; [by eapply list_elem_of_lookup_2|done]. }
      rewrite (lookup_app_l_Some _ _ _ _ Hse). cbn. congruence.
    - unfold session_id in Hid. destruct (sc_sessions s5 !! sid) as [se|] eqn:E; [|done].
      rewrite (lookup_app_l_Some _ _ _ _ E). cbn. congruence. }
  destruct (find_queue_Some _ _ _ Hkd) as (qd & Hqd & Hnd').
  rewrite (schedule_nothing s7 t kd qd); [|done| | | | |].
  - rewrite bind_Ret. eexists. split; [done|]. split_and!; try done.
    + cbn. rewrite Hns, (mark_nodes_perm _ l names) by done. by apply mark_nodes_inverse.
    + cbn. by rewrite app_nil_r.
  - unfold queued. by rewrite Hq7.
  - by rewrite (find_queue_queues _ _ _ Hq7).
  - intros j q Hne Hq Hn'. rewrite Hq7 in Hq. apply Hempty; [by eapply list_elem_of_lookup_2|done].
  - by rewrite Hq7.
  - apply Hempty; [by eapply list_elem_of_lookup_2|done].
Qed.

(** ** The whole life of a session *)
Lemma session_cycle sender alloc s sched :
  idle s -> 0 < a_min_nodes alloc <= Z.of_nat (length (free_list (sc_nodes s))) ->
  Forall node_name_ok (granted_names (a_min_nodes alloc) (sc_nodes s)) ->
  cs "ERROR" ∉ granted_names (a_min_nodes alloc) (sc_nodes s) -> names_distinct (sc_nodes s) ->
  0 <= sc_last_id s < INT_MAX -> untracked (sc_last_id s + 1) (sc_tracking s) ->
  id_free s (sc_last_id s + 1) -> sublist [Scd; Scd; Main; Scd; Main] sched ->
  exists s5 a s', turns int_log10 send_rc sched (session_request send_rc session_uid sender alloc s) = Ret s5 /\
    session_alloc s5 (length (sc_sessions s)) = Ret a /\ a_min_nodes a = a_min_nodes alloc /\
    turns int_log10 send_rc [Scd; Scd]
      (Nat.iter (Z.to_nat (a_min_nodes a)) (stepd_complete a) s5) = Ret s' /\
    sc_nodes s' = sc_nodes s /\ sc_queues s' = sc_queues s /\ sc_tracking s' = sc_tracking s /\
    sc_scd_events s' = [] /\ sc_rm_events s' = [].
Proof.
  intros Hi Hm Hok HE Hd Hlast Hut Hfree Hs.
  destruct (session_runs int_log10 send_rc session_uid Hlog Hsend sender alloc s sched Hi Hm Hok HE Hd Hs)
    as (s5 & Hrun & [[He Hr] Hn (k & Hk & Hq) (Hb & Herr & Hid & Hold) Ht
        (a & expr & l & nl & Ha & Haid & Hamin & Hnodes & Hx & -> & Hp & _)]).
  unfold INT_MAX in Hlast.
  assert (Hu : u32 (sc_last_id s + 1) = sc_last_id s + 1) by (apply wrap_small; lia).
  rewrite Hu in *. rewrite i32_small in Ht by (unfold INT_MIN, INT_MAX; lia).
  destruct (session_ends s s5 (length (sc_sessions s)) k a (sc_last_id s + 1) expr (n_name <$> nl)
    (granted_names (a_min_nodes alloc) (sc_nodes s))) as (s' & H' & Hrest); try done.
  - lia.
  - unfold granted_names. by rewrite Hp.
  - intros y Hy. pose proof (proj1 (Forall_forall _ _) (idle_known _ Hi) y Hy) as Hlt.
    apply lookup_lt_is_Some_2 in Hlt as [se Hse]. exists se. split; [by apply Hold|].
    apply elem_queued in Hy as (q & Hq' & Hy). intros E. apply (Hfree q y Hq' Hy). rewrite Hse. cbn. by f_equal.
  - apply Hi.
  - apply Hi.
  - apply Hi.
  - intros n Hin Hname. by eapply available_unalloc, granted_names_unalloc.
  - by exists s5, a, s'.
Qed.

(** ** Exclusive use of nodes *)

(** Session [x] was given the nodes [l]. *)
Definition runs_on (s : orcm_scd_base_t) (x : nat) (l : list cstr) : Prop :=
  exists a expr, session_alloc s x = Ret a /\ a_nodes a = Some expr /\ expands int_log10 expr l.

(** The sessions of queue [k] have nodes of their own, all marked. *)
Definition exclusive (k : nat) (s : orcm_scd_base_t) : Prop :=
  exists q, sc_queues s !! k = Some q /\
    (forall x, x ∈ q_sessions q -> exists l, runs_on s x l /\
       forall n, Some n ∈ sc_nodes s -> n_name n ∈ l -> n_scd_state n = ORCM_SCD_NODE_STATE_ALLOC) /\
    (forall x y l l', x ∈ q_sessions q -> y ∈ q_sessions q -> x <> y ->
       runs_on s x l -> runs_on s y l' -> forall z, z ∈ l -> z ∈ l' -> False).

Lemma runs_on_unique s x l l' : runs_on s x l -> runs_on s x l' -> l = l'.
Proof. intros (a & e & Ha & He & Hx) (a' & e' & Ha' & He' & Hx'). unfold expands in *. congruence. Qed.

Lemma session_alloc_ne f sid x s :
  x <> sid -> session_alloc (alter_alloc f sid s) x = session_alloc s x.
Proof. intros Hne. unfold session_alloc; cbn. by rewrite list_lookup_alter_ne. Qed.

Lemma mark_alloc_keeps names ns n :
  Some n ∈ mark_nodes ORCM_SCD_NODE_STATE_ALLOC names ns ->
  exists m, Some m ∈ ns /\ n_name n = n_name m /\
    (n_name m ∈ names -> n_scd_state n = ORCM_SCD_NODE_STATE_ALLOC) /\
    (n_scd_state m = ORCM_SCD_NODE_STATE_ALLOC -> n_scd_state n = ORCM_SCD_NODE_STATE_ALLOC).
Proof.
  rewrite mark_nodes_spec. intros ([m|] & Hm & Hin)%list_elem_of_fmap; [|done].
  injection Hm as ->. exists m. split_and!; [done|apply mark_if_name| |].
  - intros H. by rewrite mark_if_in.
  - intros H. unfold mark_if. by case_decide.
Qed.

(** Nodes that were not marked are nobody's. *)
Lemma exclusive_separate k s q (l : list cstr) :
  sc_queues s !! k = Some q -> exclusive k s ->
  (forall z, z ∈ l -> exists n, Some n ∈ sc_nodes s /\ n_name n = z /\
     n_scd_state n <> ORCM_SCD_NODE_STATE_ALLOC) ->
  forall x l', x ∈ q_sessions q -> runs_on s x l' -> forall z, z ∈ l -> z ∈ l' -> False.
Proof.
  intros Hq (q' & Hq' & Hown & _) Hl x l' Hin Hl' z Hz Hz'. replace q' with q in * by congruence.
  destruct (Hown x Hin) as (l0 & Hl0 & Hst). rewrite (runs_on_unique _ _ _ _ Hl0 Hl') in Hst.
  destruct (Hl z Hz) as (n & Hn & <- & Hne). by apply Hne, Hst.
Qed.

(** One more session, on nodes that were not marked. *)
Lemma exclusive_extend k s s' q sid l :
  sc_queues s !! k = Some q -> exclusive k s -> sid ∉ q_sessions q ->
  sc_queues s' !! k = Some (MkQueue (q_name q) (q_priority q) (q_sessions q ++ [sid])) ->
  (forall x l', x <> sid -> runs_on s' x l' <-> runs_on s x l') -> runs_on s' sid l ->
  sc_nodes s' = mark_nodes ORCM_SCD_NODE_STATE_ALLOC l (sc_nodes s) ->
  (forall z, z ∈ l -> exists n, Some n ∈ sc_nodes s /\ n_name n = z /\
     n_scd_state n <> ORCM_SCD_NODE_STATE_ALLOC) ->
  exclusive k s'.
Proof.
  intros Hq Hex Hoff Hq4 Hsame Hnew Hns Hl.
  pose proof (exclusive_separate k s q l Hq Hex Hl) as Hsep.
  destruct Hex as (q' & Hq' & Hown & Hdis). replace q' with q in * by congruence.
  eexists. split; [exact Hq4|]. cbn [q_sessions]. split.
  - intros x. rewrite elem_of_app, list_elem_of_singleton, Hns. intros [Hin|Heq].
    + destruct (Hown x Hin) as (l' & Hl' & Hst). exists l'. split; [apply Hsame; [congruence|done]|].
      intros n (m & Hm' & Hname & _ & Hkeep)%mark_alloc_keeps Hin'. apply Hkeep. apply Hst; congruence.
    + subst x. exists l. split; [done|].
      intros n (m & Hm' & Hname & Hmark & _)%mark_alloc_keeps Hin'. apply Hmark. congruence.
  - intros x y l1 l2. rewrite !elem_of_app, !list_elem_of_singleton.
    intros [Hx'|Hx'] [Hy'|Hy'] Hne H1 H2 z Hz1 Hz2.
    + apply (Hdis x y l1 l2) with z; try done; apply Hsame; congruence.
    + subst y. rewrite (runs_on_unique _ _ _ _ H2 Hnew) in Hz2.
      eapply (Hsep x l1); [done| |exact Hz2|exact Hz1]. apply Hsame; congruence.
    + subst x. rewrite (runs_on_unique _ _ _ _ H1 Hnew) in Hz1.
      eapply (Hsep y l2); [done| |exact Hz1|exact Hz2]. apply Hsame; congruence.
    + congruence.
Qed.

Lemma granted_unmarked k ns (l : list cstr) z :
  l ≡ₚ granted_names k ns -> z ∈ l ->
  exists n, Some n ∈ ns /\ n_name n = z /\ n_scd_state n <> ORCM_SCD_NODE_STATE_ALLOC.
Proof.
  intros -> (n & -> & (Hav & Hn)%granted_free)%list_elem_of_fmap. exists n. split_and!; [done|done|].
  by rewrite (available_unalloc _ Hav).
Qed.

Lemma grant_exclusive s sid a k :
  booted s -> sc_rm_events s = [ev Rm_request sid] -> sc_scd_events s = [] ->
  sc_scd_errno s = false -> sc_rm_errno s = false -> session_alloc s sid = Ret a ->
  find_queue (cs "running") s = Some k -> on_list s sid = false ->
  0 < a_min_nodes a <= Z.of_nat (length (free_list (sc_nodes s))) ->
  Forall node_name_ok (granted_names (a_min_nodes a) (sc_nodes s)) ->
  cs "ERROR" ∉ granted_names (a_min_nodes a) (sc_nodes s) ->
  exclusive k s ->
  exists s', turns int_log10 send_rc [Main; Scd] s = Ret s' /\ exclusive k s' /\
    exists q l, sc_queues s' !! k = Some q /\ sid ∈ q_sessions q /\ runs_on s' sid l /\
      l ≡ₚ granted_names (a_min_nodes a) (sc_nodes s).
Proof.
  intros Hb Hr He Herr1 Herr2 Ha Hk Hon Hm Hok HE Hex.
  destruct (find_queue_Some _ _ _ Hk) as (q & Hq & _).
  destruct (run_request int_log10 send_rc Hlog s sid a) as (expr & l & Hx & Hp & H3); try done.
  cbn [turns]. rewrite H3, bind_Ret. set (s3 := upd_scd_events _ _).
  assert (Ha3 : session_alloc s3 sid = Ret (set_nodes (Some expr) a)) by by apply session_alloc_alter.
  assert (Hlen : Z.of_nat (length l) = a_min_nodes a).
  { rewrite Hp. unfold granted_names. rewrite length_fmap. apply length_granted. lia. }
  rewrite (run_allocated int_log10 send_rc s3 sid _ expr l k) by (try done; by eapply expands_not_ERROR).
  rewrite bind_Ret. set (s4 := upd_nodes _ _).
  assert (Hnew : runs_on s4 sid l).
  { exists (set_queues (Some (cs "running")) (set_nodes (Some expr) a)), expr.
    split_and!; [by apply session_alloc_alter|done|done]. }
  assert (Hq4 : sc_queues s4 !! k = Some (MkQueue (q_name q) (q_priority q) (q_sessions q ++ [sid])))
    by by apply (queue_upd_eq (fun l => l ++ [sid]) k s3).
  exists s4. split; [done|]. split.
  - eapply exclusive_extend; [exact Hq|exact Hex| |exact Hq4| |exact Hnew|done|].
    + apply on_list_false with s; [done|]. by eapply list_elem_of_lookup_2.
    + intros x l' Hne. unfold runs_on. change (session_alloc s4 x) with
        (session_alloc (alter_alloc (set_queues (Some (cs "running"))) sid
           (alter_alloc (set_nodes (Some expr)) sid s)) x).
      by rewrite !session_alloc_ne.
    + intros z. by eapply granted_unmarked.
  - eexists _, l. split_and!; [exact Hq4| |done|done]. cbn. apply elem_of_app. right. by left.
Qed.
End End_.
