(* ===== verification/SchedulerClaims.v ===== *)
(** * Properties of the scheduler

    The claims about [orcm/mca/scd], with a concrete instance of each. *)

From S2P Require Import Prelude CString Argv Regex RegexRoundtrip Dss ScdTypes Scheduler SchedulerProps.
From S2P Require Import SchedulerRun SchedulerLife SchedulerInv SchedulerEnd.
From stdpp Require Import base strings numbers list.
From Stdlib Require Import ZArith Lia Ascii Sorted.

Open Scope Z_scope.

(** ** Configured queues *)

(** Highest priority first. *)
Definition q_before (a b : orcm_queue_t) : Prop := q_priority b <= q_priority a.

(** The queue an entry of the configuration describes. *)
Definition entry_queue (c : cstr) (q : orcm_queue_t) : Prop :=
  exists name pri x v r e, opal_argv_split (Some c) ":" = Ret (Some [name; pri; x]) /\
    strtol10 pri = (v, r, e) /\ q = MkQueue name (i32 v) [].

Definition base_queues : list orcm_queue_t :=
  [MkQueue (cs "running") 0 []; MkQueue (cs "hold") 0 []; MkQueue (cs "default") 0 []].

Lemma insert_queue_lost q l :
  Forall (fun y => q_priority q <= q_priority y) l -> insert_queue q l = l.
Proof.
  induction 1 as [|y l Hy Hl IH]; [done|]. cbn. replace (q_priority y <? q_priority q) with false by lia.
  by rewrite IH.
Qed.

Lemma insert_queue_perm q l :
  Exists (fun y => q_priority y < q_priority q) l -> insert_queue q l ≡ₚ q :: l.
Proof.
  induction l as [|y l IH]; intros H; [by apply Exists_nil in H|]. cbn.
  destruct (Z.ltb_spec (q_priority y) (q_priority q)); [done|].
  rewrite IH; [apply Permutation_swap|]. apply Exists_cons in H as [|]; [lia|done].
Qed.

Lemma insert_queue_elem q l y : y ∈ insert_queue q l -> y = q \/ y ∈ l.
Proof.
  induction l as [|x l IH]; cbn; [auto|]. destruct (_ <? _); rewrite !elem_of_cons; [auto|].
  intros [->|Hy]; [auto|]. destruct (IH Hy); auto.
Qed.

Lemma insert_queue_sorted q l :
  StronglySorted q_before l -> StronglySorted q_before (insert_queue q l).
Proof.
  induction 1 as [|y l Hl IH Hy]; cbn; [constructor|].
  destruct (Z.ltb_spec (q_priority y) (q_priority q)) as [Hlt|Hge].
  - constructor; [by constructor|]. constructor; [unfold q_before; lia|].
    eapply Forall_imp; [|exact Hy]. unfold q_before. intros; lia.
  - constructor; [done|]. apply Forall_forall. intros z [->|Hz]%insert_queue_elem; [unfold q_before; lia|].
    by apply (proj1 (Forall_forall _ _) Hy).
Qed.

Lemma filter_none {A} (P : A -> Prop) `{forall x, Decision (P x)} (l : list A) :
  Forall (fun x => ~ P x) l -> filter P l = [].
Proof. induction 1 as [|x l Hx Hl IH]; [done|]. by rewrite filter_cons, decide_False, IH. Qed.

(** A new queue comes after those of its own priority. *)
Lemma insert_queue_filter q l p :
  StronglySorted q_before l -> Exists (fun y => q_priority y < q_priority q) l ->
  filter (fun y => q_priority y = p) (insert_queue q l) =
  filter (fun y => q_priority y = p) (l) ++ filter (fun y => q_priority y = p) [q].
Proof.
  induction 1 as [|y l Hl IH Hy]; intros Hex; [by apply Exists_nil in Hex|]. cbn [insert_queue].
  destruct (Z.ltb_spec (q_priority y) (q_priority q)) as [Hlt|Hge].
  - rewrite (filter_cons _ q). destruct (decide (q_priority q = p)) as [Hp|Hp].
    + rewrite (filter_cons _ q []), decide_True, filter_nil by done.
      assert (Hnone : filter (fun y => q_priority y = p) (y :: l) = []).
      { apply filter_none. constructor; [lia|].
        eapply Forall_imp; [|exact Hy]. unfold q_before. intros; lia. }
      by rewrite Hnone.
    + by rewrite (filter_cons _ q []), decide_False, filter_nil, app_nil_r.
  - rewrite !(filter_cons _ y), IH; [by case_decide|]. apply Exists_cons in Hex as [|]; [lia|done].
Qed.

(** The loop, entry by entry. *)
Lemma config_queues_fold cfg qs s :
  Forall2 entry_queue cfg qs ->
  exists s', config_queues cfg s = Ret s' /\
    sc_queues s' = foldl (fun l q => insert_queue q l) (sc_queues s) qs.
Proof.
  intros H; revert s. induction H as [|c q cfg qs Hc Hr IH]; intros s; [by exists s|].
  destruct Hc as (name & pri & x & v & r & e & Hsp & Hv & ->). cbn [config_queues foldl].
  rewrite Hsp, bind_Ret. cbn [argv_list]. rewrite Hv.
  destruct (IH (upd_scd_errno (fun b => b || e)
    (upd_queues (insert_queue (MkQueue name (i32 v) [])) s))) as (s' & -> & Hq).
  by exists s'.
Qed.

Lemma queues_fold_spec qs l :
  StronglySorted q_before l -> Forall (fun y => 0 <= q_priority y) l ->
  Exists (fun y => q_priority y = 0) l ->
  let r := foldl (fun l q => insert_queue q l) l qs in
  StronglySorted q_before r /\ r ≡ₚ l ++ filter (fun q => 0 < q_priority q) qs /\
  forall p, 0 < p -> filter (fun y => q_priority y = p) r =
    filter (fun y => q_priority y = p) l ++ filter (fun y => q_priority y = p) qs.
Proof.
  revert l; induction qs as [|q qs IH]; intros l Hs Hp Hz; cbn [foldl].
  { split_and!; [done|by rewrite filter_nil, app_nil_r|]. intros p _. by rewrite filter_nil, app_nil_r. }
  destruct (Z.lt_ge_cases 0 (q_priority q)) as [Hq|Hq].
  - assert (Hex : Exists (fun y => q_priority y < q_priority q) l).
    { eapply Exists_impl; [exact Hz|]. cbn. intros; lia. }
    destruct (IH (insert_queue q l)) as (H1 & H2 & H3).
    + by apply insert_queue_sorted.
    + rewrite insert_queue_perm by done. constructor; [lia|done].
    + rewrite insert_queue_perm by done. by constructor 2.
    + split_and!; [done| |].
      * rewrite H2, insert_queue_perm by done. rewrite filter_cons, decide_True by done.
        cbn [app]. apply Permutation_middle.
      * intros p Hp0. rewrite H3 by done. rewrite insert_queue_filter by done.
        rewrite <- app_assoc. f_equal. by rewrite !(filter_cons _ q), filter_nil; case_decide.
  - rewrite (insert_queue_lost q l) by (eapply Forall_imp; [|exact Hp]; cbn; intros; lia).
    destruct (IH l Hs Hp Hz) as (H1 & H2 & H3). split_and!; [done| |].
    + rewrite H2, (filter_cons _ q), decide_False by lia. done.
    + intros p Hp0. rewrite H3 by done. rewrite (filter_cons _ q), decide_False by lia. done.
Qed.

(** The queues are kept from the highest to the lowest priority,
    those of equal priority in the order of the configuration, and every
    configured queue of positive priority is there beside the three built-in
    ones; a queue of priority zero or less is not. *)
Theorem scd_queues_by_priority cfg qs s :
  sc_queues s = [] -> Forall2 entry_queue cfg qs ->
  exists s', orcm_scd_base_construct_queues (Some cfg) s = Ret s' /\
    StronglySorted q_before (sc_queues s') /\
    sc_queues s' ≡ₚ base_queues ++ filter (fun q => 0 < q_priority q) qs /\
    forall p, 0 < p -> filter (fun y => q_priority y = p) (sc_queues s') =
                       filter (fun y => q_priority y = p) qs.
Proof.
  intros Hs Hc. unfold orcm_scd_base_construct_queues. cbn [argv_list].
  set (s0 := upd_queues _ s).
  destruct (config_queues_fold cfg qs s0 Hc) as (s' & Hr & Hq). exists s'. split; [exact Hr|].
  rewrite Hq. change (sc_queues s0) with (sc_queues s ++ base_queues). rewrite Hs. cbn [app].
  destruct (queues_fold_spec qs base_queues) as (H1 & H2 & H3).
  - repeat constructor; unfold q_before; cbn; lia.
  - repeat constructor; cbn; lia.
  - by constructor.
  - split_and!; [done|done|]. intros p Hp. rewrite H3 by done.
    unfold base_queues. rewrite !filter_cons, !decide_False, filter_nil by (cbn; lia). done.
Qed.

Lemma scd_queues_by_priority_witness :
  exists s', orcm_scd_base_construct_queues (Some [cs "slow:1:a"; cs "fast:9:b"; cs "off:0:c"])
               orcm_scd_base_open = Ret s' /\
    StronglySorted q_before (sc_queues s') /\
    sc_queues s' ≡ₚ base_queues ++ filter (fun q => 0 < q_priority q)
      [MkQueue (cs "slow") 1 []; MkQueue (cs "fast") 9 []; MkQueue (cs "off") 0 []] /\
    forall p, 0 < p -> filter (fun y => q_priority y = p) (sc_queues s') =
      filter (fun y => q_priority y = p)
        [MkQueue (cs "slow") 1 []; MkQueue (cs "fast") 9 []; MkQueue (cs "off") 0 []].
Proof.
  apply (scd_queues_by_priority [cs "slow:1:a"; cs "fast:9:b"; cs "off:0:c"]); [reflexivity|].
  repeat constructor.
  - exists (cs "slow"), (cs "1"), (cs "a"), 1, [], false. by vm_compute.
  - exists (cs "fast"), (cs "9"), (cs "b"), 9, [], false. by vm_compute.
  - exists (cs "off"), (cs "0"), (cs "c"), 0, [], false. by vm_compute.
Defined.

(** ** A small cluster *)
Definition demo_node (name : string) (vpid : Z) : option orcm_node_t :=
  Some (MkScdNode (cs name) (1, vpid) ORCM_NODE_STATE_UP ORCM_SCD_NODE_STATE_UNALLOC None).

Definition demo_alloc (n : Z) : orcm_alloc_t :=
  MkAlloc 0 0 None None 0 0 0 n 0 0 0 true 0 0 false (0, 0) (0, 0)
    None None None None None None None None None [].

(** Three nodes, the built-in queues, nothing running. *)
Definition demo_state : orcm_scd_base_t :=
  match orcm_scd_base_construct_queues None (pmf_init orcm_scd_base_open).2 with
  | Ret s => upd_nodes (fun _ => [demo_node "n1" 1; None; demo_node "n2" 2; demo_node "n3" 3]) s
  | _ => orcm_scd_base_open
  end.

Definition send_ok : orte_process_name_t -> Z := fun _ => OPAL_SUCCESS.
Definition uid_zero : nat -> Z := fun _ => 0.

Lemma demo_idle : idle demo_state.
Proof.
  split; try (vm_compute; reflexivity).
  - split; reflexivity.
  - eexists. vm_compute. reflexivity.
  - eexists. vm_compute. reflexivity.
  - intros q Hq Hn. vm_compute in Hq. repeat (apply elem_of_cons in Hq as [->|Hq]; [done|]).
    by apply not_elem_of_nil in Hq.
  - constructor.
  - constructor.
Qed.

Lemma demo_name_ok : Forall node_name_ok [cs "n1"; cs "n2"].
Proof.
  constructor; [right; exists (cs "n"), (cs "1"), []; by repeat constructor|].
  constructor; [right; exists (cs "n"), (cs "2"), []; by repeat constructor|constructor].
Qed.

(** C1: a session that is submitted to an idle scheduler (no pending events, an empty default queue, no leftover
    range error of a number conversion) and asks for at least one node and at most as many as are free is
    running after five turns of the event loops, however the turns of the two threads are interleaved: its nodes
    are the first free ones, exactly they are marked as allocated, each of their daemons has been told to
    launch, the session is on the running queue and is tracked. The names of the nodes it is given are ones the
    compression of node lists keeps: letters, one number of up to nine digits that is not 0, and letters; or
    names without a digit, or with a character other than letters and digits (names with two numbers, such as
    r1n1, are merged, and a number 0 makes the expansion fail); the names of all nodes differ, none of those
    given out is ERROR, every message is sent, and log10 of a number below 10^9 is exact. *)
Theorem scd_session_runs int_log10 send_rc session_uid sender alloc s sched :
  log10_exact int_log10 -> (forall d, send_rc d = OPAL_SUCCESS) ->
  idle s -> 0 < a_min_nodes alloc <= Z.of_nat (length (free_list (sc_nodes s))) ->
  Forall node_name_ok (granted_names (a_min_nodes alloc) (sc_nodes s)) ->
  cs "ERROR" ∉ granted_names (a_min_nodes alloc) (sc_nodes s) -> names_distinct (sc_nodes s) ->
  sublist [Scd; Scd; Main; Scd; Main] sched ->
  exists s', turns int_log10 send_rc sched (session_request send_rc session_uid sender alloc s) = Ret s' /\
    launched int_log10 session_uid sender alloc s s'.
Proof. intros Hlog Hsend. by apply session_runs. Qed.

Lemma scd_session_runs_witness :
  exists s', turns ideal_log10 send_ok [Scd; Main; Scd; Main; Scd; Scd; Main; Main]
    (session_request send_ok uid_zero (0, 7) (demo_alloc 2) demo_state) = Ret s' /\
    launched ideal_log10 uid_zero (0, 7) (demo_alloc 2) demo_state s'.
Proof.
  apply (scd_session_runs ideal_log10 send_ok uid_zero (0, 7) (demo_alloc 2) demo_state).
  - apply ideal_log10_exact.
  - done.
  - apply demo_idle.
  - vm_compute. split; [reflexivity|discriminate].
  - exact demo_name_ok.
  - apply (bool_decide_unpack _). vm_compute. exact I.
  - apply (bool_decide_unpack _). vm_compute. exact I.
  - repeat constructor.
Defined.

(** Once every node of a session that was run this way has reported
    completion, two turns of the scheduler bring back exactly the node states,
    the queues and the trackers the session started from, with no event left. *)
Theorem scd_session_cycle int_log10 send_rc session_uid sender alloc s sched :
  log10_exact int_log10 -> (forall d, send_rc d = OPAL_SUCCESS) ->
  idle s -> 0 < a_min_nodes alloc <= Z.of_nat (length (free_list (sc_nodes s))) ->
  Forall node_name_ok (granted_names (a_min_nodes alloc) (sc_nodes s)) ->
  cs "ERROR" ∉ granted_names (a_min_nodes alloc) (sc_nodes s) -> names_distinct (sc_nodes s) ->
  0 <= sc_last_id s < INT_MAX -> untracked (sc_last_id s + 1) (sc_tracking s) ->
  id_free s (sc_last_id s + 1) -> sublist [Scd; Scd; Main; Scd; Main] sched ->
  exists s5 a s', turns int_log10 send_rc sched (session_request send_rc session_uid sender alloc s) = Ret s5 /\
    session_alloc s5 (length (sc_sessions s)) = Ret a /\ a_min_nodes a = a_min_nodes alloc /\
    turns int_log10 send_rc [Scd; Scd]
      (Nat.iter (Z.to_nat (a_min_nodes a)) (stepd_complete a) s5) = Ret s' /\
    sc_nodes s' = sc_nodes s /\ sc_queues s' = sc_queues s /\ sc_tracking s' = sc_tracking s /\
    sc_scd_events s' = [] /\ sc_rm_events s' = [].
Proof. intros Hlog Hsend. by apply session_cycle. Qed.

Lemma scd_session_cycle_witness :
  exists s5 a s', turns ideal_log10 send_ok [Scd; Scd; Main; Scd; Main]
      (session_request send_ok uid_zero (0, 7) (demo_alloc 2) demo_state) = Ret s5 /\
    session_alloc s5 (length (sc_sessions demo_state)) = Ret a /\ a_min_nodes a = 2 /\
    turns ideal_log10 send_ok [Scd; Scd]
      (Nat.iter (Z.to_nat (a_min_nodes a)) (stepd_complete a) s5) = Ret s' /\
    sc_nodes s' = sc_nodes demo_state /\ sc_queues s' = sc_queues demo_state /\
    sc_tracking s' = sc_tracking demo_state /\ sc_scd_events s' = [] /\ sc_rm_events s' = [].
Proof.
  apply (scd_session_cycle ideal_log10 send_ok uid_zero (0, 7) (demo_alloc 2) demo_state).
  - apply ideal_log10_exact.
  - done.
  - apply demo_idle.
  - vm_compute. split; [reflexivity|discriminate].
  - exact demo_name_ok.
  - apply (bool_decide_unpack _). vm_compute. exact I.
  - apply (bool_decide_unpack _). vm_compute. exact I.
  - vm_compute. split; [discriminate|reflexivity].
  - constructor.
  - intros q y Hq Hy. vm_compute in Hq.
    repeat (apply elem_of_cons in Hq as [->|Hq]; [by apply not_elem_of_nil in Hy|]).
    by apply not_elem_of_nil in Hq.
  - repeat constructor.
Defined.

(** ** The invariant *)

(** The state the scheduler starts serving from: state machines registered,
    queues built, nodes known, no session. *)
Definition starts (cfg : argv_t) (ns : list (option orcm_node_t)) (s : orcm_scd_base_t) : Prop :=
  orcm_scd_base_construct_queues cfg (upd_nodes (fun _ => ns) (pmf_init orcm_scd_base_open).2) = Ret s.

Lemma insert_queue_sessions q l :
  q_sessions q = [] -> Forall (fun y => q_sessions y = []) l ->
  Forall (fun y => q_sessions y = []) (insert_queue q l).
Proof.
  intros Hq. induction 1 as [|y l Hy Hl IH]; cbn; [constructor|].
  destruct (_ <? _); repeat (constructor; try done).
Qed.

Lemma config_queues_frame cfg s s' :
  config_queues cfg s = Ret s' -> Forall (fun y => q_sessions y = []) (sc_queues s) ->
  booted s -> sc_scd_events s = [] -> sc_rm_events s = [] ->
  Forall (fun y => q_sessions y = []) (sc_queues s') /\ booted s' /\
  sc_scd_events s' = [] /\ sc_rm_events s' = [].
Proof.
  revert s; induction cfg as [|c cfg IH]; intros s; cbn [config_queues].
  { intros [= <-]. auto. }
  intros (t1 & _ & H)%bind_Ret_inv Hq Hb H1 H2.
  destruct (argv_list t1) as [|name [|pri [|x [|y l]]]]; try (injection H as <-; auto; fail).
  destruct (strtol10 pri) as [[v r] e]. apply (IH _ H); try done. cbn. by apply insert_queue_sessions.
Qed.

Lemma starts_wf cfg ns s : starts cfg ns s -> scd_wf s.
Proof.
  intros H. apply config_queues_frame in H as (Hq & Hb & H1 & H2); [|by repeat constructor|done|done|done].
  assert (Hnil : queued s = []).
  { unfold queued. induction Hq as [|q l Hq Hl IH]; [done|]. cbn. by rewrite Hq, IH. }
  split; rewrite ?H1, ?H2, ?Hnil; try constructor; try apply Hb.
  unfold places. rewrite Hnil, H1, H2. constructor.
Qed.

Section Reachable.
Variable int_log10 : Z -> Z.
Variable send_rc : orte_process_name_t -> Z.
Variable topo_equal : hwloc_topology_t -> hwloc_topology_t -> bool.
Variable orcm_clusters : list orcm_cluster_t.
Variable session_uid : nat -> Z.

Abbreviation reachable' := (reachable int_log10 send_rc topo_equal orcm_clusters session_uid).

(** C21: in every state the scheduler reaches from the start, under any
    interleaving of the two threads and any messages, a session is in one
    place only (one queue, or one pending INIT, REQ or ALLOCD event), queued
    sessions have an allocation, and so has the session of every pending event
    whose handler uses it; each thread only gets its own callbacks.  And the
    next callback of the scheduler thread comes to an end unless one of three
    things is so: an allocation that is done has no node list, its node
    expression cannot be read, or its node list is of no use (it is ERROR, does
    not expand, or has another number of nodes) while other sessions run.  The
    last is the only place where a session that is on a list is linked into
    another one: the code takes the wrong session off the running queue.  States
    after such a link, where the lists of the code are broken, are not among
    the states reached. *)
Theorem scd_invariant cfg ns s0 s : starts cfg ns s0 -> reachable' s0 s ->
  scd_wf s /\
  forall e evs, next_event (sc_scd_events s) = Some (e, evs) ->
    (exists s', turn int_log10 send_rc Scd s = Ret s') \/
    exists a, session_alloc s (cd_session e) = Ret a /\ stops int_log10 s (cd_cbfunc e) a.
Proof.
  intros H0 Hr. assert (Hw : scd_wf s) by (eapply wf_reachable; [by eapply starts_wf|exact Hr]).
  split; [done|]. intros e evs. by apply turn_returns.
Qed.

Lemma info_returns s qs :
  Forall (fun q => Forall (has_alloc s) (q_sessions q)) qs -> exists l, queue_infos s qs = Ret l.
Proof.
  induction 1 as [|q qs Hq Hqs IH]; cbn [queue_infos]; [by eauto|].
  assert (Hl : exists l, session_allocs s (q_sessions q) = Ret l).
  { induction Hq as [|x l [a Ha] Hl IHl]; cbn [session_allocs]; [by eauto|].
    destruct IHl as [as' ->]. rewrite Ha, !bind_Ret. eauto. }
  destruct Hl as [l ->], IH as [r ->]. rewrite !bind_Ret. eauto.
Qed.

(** C23: in every reachable state the scheduler thread's queue assignment,
    scheduling and cancellation handlers and the session listing complete:
    none follows a NULL allocation or puts a session on two lists.  (States
    after a step that ended in undefined behaviour, which [scd_invariant]
    names, are not reached.) *)
Theorem scd_scheduler_safe cfg ns s0 s e evs sender :
  starts cfg ns s0 -> reachable' s0 s ->
  next_event (sc_scd_events s) = Some (e, evs) -> parses_nodes (cd_cbfunc e) = false ->
  (exists s', turn int_log10 send_rc Scd s = Ret s') /\
  (exists s', session_info send_rc sender s = Ret s').
Proof.
  intros H0 Hr He Hp. pose proof (wf_reachable _ _ _ _ _ _ _ (starts_wf _ _ _ H0) Hr) as Hw. split.
  - destruct (turn_returns int_log10 send_rc s e evs Hw He) as [?|(a & _ & [Hc ?|Hc ?|? Hc ? ? ?])]; [done|by rewrite Hc in Hp|congruence|by rewrite Hc in Hp].
  - unfold session_info. destruct (info_returns s (sc_queues s)) as [l ->].
    + apply Forall_forall. intros q Hq. apply Forall_forall. intros x Hx.
      apply (proj1 (Forall_forall _ _) (wf_queued _ Hw)). apply elem_queued. eauto.
    + rewrite bind_Ret. eauto.
Qed.
End Reachable.

Lemma demo_starts :
  starts None [demo_node "n1" 1; None; demo_node "n2" 2; demo_node "n3" 3] demo_state.
Proof. reflexivity. Qed.

(** Two requests and a cancellation arrive before the scheduler runs. *)
Definition demo_busy : orcm_scd_base_t :=
  session_cancel send_ok (0, 7) 1
    (session_request send_ok uid_zero (0, 7) (demo_alloc 9)
       (session_request send_ok uid_zero (0, 7) (demo_alloc 1) demo_state)).

Definition no_topo : hwloc_topology_t -> hwloc_topology_t -> bool := Z.eqb.

Lemma demo_busy_reachable : reachable ideal_log10 send_ok no_topo [] uid_zero demo_state demo_busy.
Proof.
  eapply (reach_step _ _ _ _ _ _ _ (LCancel (0, 7) 1)); [|by constructor].
  eapply (reach_step _ _ _ _ _ _ _ (LRequest (0, 7) (demo_alloc 9))); [|by constructor].
  eapply (reach_step _ _ _ _ _ _ _ (LRequest (0, 7) (demo_alloc 1))); [|by constructor].
  constructor.
Qed.

Lemma scd_invariant_witness : scd_wf demo_busy /\
  ((exists s', turn ideal_log10 send_ok Scd demo_busy = Ret s') \/
   exists a, session_alloc demo_busy 0 = Ret a /\ stops ideal_log10 demo_busy Pmf_find_queue a).
Proof.
  assert (Hn : next_event (sc_scd_events demo_busy) = Some (ev Pmf_find_queue 0, [ev Pmf_find_queue 1; ev Pmf_cancel 2])) by (vm_compute; reflexivity).
  enough (H : scd_wf demo_busy /\ forall e evs, next_event (sc_scd_events demo_busy) = Some (e, evs) ->
    (exists s', turn ideal_log10 send_ok Scd demo_busy = Ret s') \/
    exists a, session_alloc demo_busy (cd_session e) = Ret a /\ stops ideal_log10 demo_busy (cd_cbfunc e) a)
    by (split; [exact (proj1 H)|exact (proj2 H _ _ Hn)]).
  apply (scd_invariant ideal_log10 send_ok no_topo [] uid_zero None _ demo_state demo_busy demo_starts).
  apply demo_busy_reachable.
Defined.

Lemma scd_scheduler_safe_witness :
  (exists s', turn ideal_log10 send_ok Scd demo_busy = Ret s') /\
  (exists s', session_info send_ok (0, 9) demo_busy = Ret s').
Proof.
  apply (scd_scheduler_safe ideal_log10 send_ok no_topo [] uid_zero None _ demo_state demo_busy
           (ev Pmf_find_queue 0) [ev Pmf_find_queue 1; ev Pmf_cancel 2] (0, 9) demo_starts).
  - apply demo_busy_reachable.
  - vm_compute. reflexivity.
  - reflexivity.
Defined.

(** ** Scheduling *)

(** C24: [pmf_schedule] is first come, first served: it hands the head of the default queue to the resource
    manager if enough nodes are free and otherwise leaves everything as it was; no other session is overtaken.
    Further queues that are named default too are empty. *)
Theorem scd_schedule_fifo caddy s k :
  NoDup (queued s) -> find_queue (cs "default") s = Some k -> only_default k s ->
  pmf_schedule caddy s = schedule_spec k s.
Proof. apply pmf_schedule_spec. Qed.

(** A request that does not fit waits at the head of the default queue. *)
Definition demo_waiting : orcm_scd_base_t :=
  match turns ideal_log10 send_ok [Scd]
          (upd_nodes (fun _ => [demo_node "n1" 1;
             Some (MkScdNode (cs "n2") (1, 2) ORCM_NODE_STATE_DOWN ORCM_SCD_NODE_STATE_UNALLOC None)])
             (session_request send_ok uid_zero (0, 7) (demo_alloc 2) demo_state)) with
  | Ret s => s
  | _ => orcm_scd_base_open
  end.

Lemma scd_schedule_fifo_witness : pmf_schedule 0 demo_waiting = schedule_spec 2 demo_waiting.
Proof.
  apply (scd_schedule_fifo 0 demo_waiting 2).
  - apply (bool_decide_unpack _). vm_compute. exact I.
  - vm_compute. reflexivity.
  - intros j q Hj Hq Hn. vm_compute in Hq. destruct j as [|[|[|j]]]; try done;
      [by injection Hq as <-|by injection Hq as <-].
Defined.

(** C22: if the running sessions have nodes of their own, all marked as allocated, then granting a pending
    request for at least one and at most as many nodes as are free, and completing the allocation before another
    request is served, keeps it so: the new session runs on free nodes, as many as it asked for, that nobody
    else has. The names of the nodes it is given are ones the compression of node lists keeps: letters, one
    number of up to nine digits that is not 0, and letters; or names without a digit, or with a character other
    than letters and digits (names with two numbers, such as r1n1, are merged, and a number 0 makes the
    expansion fail); none of them is ERROR, no earlier number conversion has left a range error behind, no other
    event is pending and log10 of a number below 10^9 is exact. *)
Theorem scd_grant_exclusive int_log10 send_rc s sid a k :
  log10_exact int_log10 -> booted s ->
  sc_rm_events s = [ev Rm_request sid] -> sc_scd_events s = [] ->
  sc_scd_errno s = false -> sc_rm_errno s = false -> session_alloc s sid = Ret a ->
  find_queue (cs "running") s = Some k -> on_list s sid = false ->
  0 < a_min_nodes a <= Z.of_nat (length (free_list (sc_nodes s))) ->
  Forall node_name_ok (granted_names (a_min_nodes a) (sc_nodes s)) ->
  cs "ERROR" ∉ granted_names (a_min_nodes a) (sc_nodes s) ->
  exclusive int_log10 k s ->
  exists s', turns int_log10 send_rc [Main; Scd] s = Ret s' /\ exclusive int_log10 k s' /\
    exists q l, sc_queues s' !! k = Some q /\ sid ∈ q_sessions q /\ runs_on int_log10 s' sid l /\
      l ≡ₚ granted_names (a_min_nodes a) (sc_nodes s).
Proof. intros Hlog. by apply grant_exclusive. Qed.

(** A request that has been handed to the resource manager. *)
Definition demo_requested : orcm_scd_base_t :=
  match turns ideal_log10 send_ok [Scd; Scd]
          (session_request send_ok uid_zero (0, 7) (demo_alloc 2) demo_state) with
  | Ret s => s
  | _ => orcm_scd_base_open
  end.

Lemma scd_grant_exclusive_witness :
  exists s', turns ideal_log10 send_ok [Main; Scd] demo_requested = Ret s' /\
    exclusive ideal_log10 0 s' /\
    exists q l, sc_queues s' !! 0%nat = Some q /\ 0%nat ∈ q_sessions q /\
      runs_on ideal_log10 s' 0 l /\ l ≡ₚ [cs "n1"; cs "n2"].
Proof.
  apply (scd_grant_exclusive ideal_log10 send_ok demo_requested 0
           (set_queues (Some (cs "default")) (set_id 1 (demo_alloc 2))) 0).
  - apply ideal_log10_exact.
  - split; reflexivity.
  - reflexivity.
  - reflexivity.
  - reflexivity.
  - reflexivity.
  - reflexivity.
  - reflexivity.
  - reflexivity.
  - vm_compute. split; [reflexivity|discriminate].
  - exact demo_name_ok.
  - apply (bool_decide_unpack _). vm_compute. exact I.
  - eexists. split; [reflexivity|]. split.
    + intros x Hx. by apply not_elem_of_nil in Hx.
    + intros x y l l' Hx. by apply not_elem_of_nil in Hx.
Defined.
