(* ===== verification/SchedulerNodes.v ===== *)
(** * Node state messages

    The nodes that [update_nodestate_byproc] and [update_nodestate_byname]
    change, the daemons below a controller, draining and resuming. *)

From S2P Require Import Prelude CString Argv Regex RegexRoundtrip Dss ScdTypes Scheduler SchedulerProps.
From S2P Require Import SchedulerRun SchedulerLife SchedulerInv SchedulerEnd SchedulerClaims.
From stdpp Require Import base strings numbers list.
From Stdlib Require Import ZArith Lia Ascii.

Open Scope Z_scope.

(** ** The update loops *)
Section Updates.
Implicit Types ns : list (option orcm_node_t).
Context {K : Type} `{EqDecision K} (key : orcm_node_t -> K).
Variable f : orcm_node_t -> orcm_node_t.
Hypothesis f_key : forall n, key (f n) = key n.
Hypothesis f_idem : forall n, f (f n) = f n.

(** Apply [f] to the nodes whose key is in a list. *)
Definition update_if (ks : list K) (n : orcm_node_t) : orcm_node_t :=
  if decide (key n ∈ ks) then f n else n.

Abbreviation matches := (fun k n => bool_decide (key n = k)).

Lemma update_if_key ks n : key (update_if ks n) = key n.
Proof. unfold update_if. case_decide; [apply f_key|done]. Qed.

Lemma keys_update ks ns : key <$> omap id (fmap (M := option) (update_if ks) <$> ns) = key <$> omap id ns.
Proof.
  induction ns as [|[n|] ns IH]; cbn; [done| |done]. f_equal; [apply update_if_key|apply IH].
Qed.

Lemma update_if_other k ns :
  k ∉ key <$> omap id ns -> fmap (M := option) (update_if [k]) <$> ns = ns.
Proof.
  induction ns as [|[n|] ns IH]; cbn; intros Hk; [done| |by rewrite IH].
  apply not_elem_of_cons in Hk as [Hne Hk]. rewrite IH by done. unfold update_if.
  rewrite decide_False; [done|]. rewrite list_elem_of_singleton. congruence.
Qed.

(** One key: the first match is the only one. *)
Lemma update_first_map k ns :
  NoDup (key <$> omap id ns) ->
  update_first (matches k) f ns =
  (bool_decide (k ∈ key <$> omap id ns), fmap (M := option) (update_if [k]) <$> ns).
Proof.
  induction ns as [|[n|] ns IH]; cbn; intros Hnd; [done| |].
  - apply NoDup_cons in Hnd as [Hn Hnd]. destruct (decide (key n = k)) as [<-|Hne].
    + rewrite bool_decide_eq_true_2 by done. rewrite bool_decide_eq_true_2 by by left.
      f_equal. unfold update_if at 1. rewrite decide_True by by left.
      change (option_map (update_if [key n]) <$> ns) with (fmap (M := option) (update_if [key n]) <$> ns).
      by rewrite update_if_other.
    + rewrite bool_decide_eq_false_2 by done. rewrite IH by done. unfold update_if at 2.
      rewrite decide_False by (rewrite list_elem_of_singleton; congruence). f_equal.
      apply bool_decide_ext. rewrite elem_of_cons. naive_solver.
  - by rewrite IH.
Qed.

Lemma update_if_app ks k n : update_if [k] (update_if ks n) = update_if (ks ++ [k]) n.
Proof.
  unfold update_if at 1. rewrite update_if_key. unfold update_if.
  destruct (decide (key n ∈ ks)) as [H1|H1]; destruct (decide (key n ∈ [k])) as [H2|H2].
  - rewrite f_idem, decide_True by (apply elem_of_app; auto). done.
  - rewrite decide_True by (apply elem_of_app; auto). done.
  - rewrite decide_True by (apply elem_of_app; auto). done.
  - rewrite decide_False; [done|]. rewrite elem_of_app. tauto.
Qed.

Lemma update_all_map ks ks0 ns found :
  NoDup (key <$> omap id ns) ->
  update_all matches f ks found (fmap (M := option) (update_if ks0) <$> ns) =
  (found || existsb (fun k => bool_decide (k ∈ key <$> omap id ns)) ks,
   fmap (M := option) (update_if (ks0 ++ ks)) <$> ns).
Proof.
  revert ks0 found; induction ks as [|k ks IH]; intros ks0 found Hnd; cbn [update_all existsb].
  { by rewrite orb_false_r, app_nil_r. }
  rewrite update_first_map by by rewrite keys_update. rewrite keys_update, <- list_fmap_compose.
  rewrite (list_fmap_ext _ (fmap (M := option) (update_if (ks0 ++ [k]))) ns).
  - rewrite IH by done. by rewrite orb_assoc, <- app_assoc.
  - intros i [n|] _; [|done]. cbn. by rewrite update_if_app.
Qed.

Lemma update_if_nil ns : fmap (M := option) (update_if []) <$> ns = ns.
Proof.
  rewrite <- (list_fmap_id ns) at 2. apply list_fmap_ext. intros i [n|] _; [|done].
  cbn. unfold update_if. rewrite decide_False; [done|apply not_elem_of_nil].
Qed.

Lemma update_all_spec ks ns :
  NoDup (key <$> omap id ns) ->
  update_all matches f ks false ns =
  (existsb (fun k => bool_decide (k ∈ key <$> omap id ns)) ks, fmap (M := option) (update_if ks) <$> ns).
Proof. intros Hnd. rewrite <- (update_if_nil ns) at 1. by rewrite update_all_map. Qed.
End Updates.

Lemma update_node_idem state new topo n :
  update_node state new topo (update_node state new topo n) = update_node state new topo n.
Proof.
  destruct n as [nm d st sc tp]. unfold update_node; cbn. destruct (state =? ORCM_NODE_STATE_UP); cbn; [|done].
  destruct (sc =? ORCM_SCD_NODE_STATE_UNDEF) eqn:E1, (sc =? ORCM_SCD_NODE_STATE_UNKNOWN) eqn:E2; cbn;
    rewrite ?E1, ?E2; done.
Qed.

Lemma update_node_name state new topo n : n_name (update_node state new topo n) = n_name n.
Proof. unfold update_node. by repeat case_match. Qed.

Lemma update_node_daemon state new topo n : n_daemon (update_node state new topo n) = n_daemon n.
Proof. unfold update_node. by repeat case_match. Qed.

(** The daemons of the nodes are distinct. *)
Definition daemons_distinct (ns : list (option orcm_node_t)) : Prop := NoDup (n_daemon <$> omap id ns).

Lemma byproc_spec state names topo s :
  daemons_distinct (sc_nodes s) ->
  update_nodestate_byproc state names topo s =
  (if existsb (fun d => bool_decide (d ∈ n_daemon <$> node_list s)) names then OPAL_SUCCESS else ORCM_ERR_NOT_FOUND,
   upd_nodes (fun ns => fmap (M := option) (update_if n_daemon (update_node state state topo) names) <$> ns) s).
Proof.
  intros Hd. unfold update_nodestate_byproc, name_eqb.
  rewrite (update_all_spec n_daemon); [done| | |done].
  - apply update_node_daemon.
  - apply update_node_idem.
Qed.

(** ** Below a controller *)

(** The tree as a relation: [d] is managed, directly or not, by [c]. *)
Inductive below (cl : list orcm_cluster_t) : orte_process_name_t -> orte_process_name_t -> Prop :=
| below_cluster c r : c ∈ cl -> r ∈ cluster_rows c -> below cl (cluster_controller c) (row_controller r)
| below_row c r k : c ∈ cl -> r ∈ cluster_rows c -> k ∈ row_racks r ->
    below cl (row_controller r) (rack_controller k)
| below_rack c r k n : c ∈ cl -> r ∈ cluster_rows c -> k ∈ row_racks r -> n ∈ rack_nodes k ->
    below cl (rack_controller k) n
| below_trans a b d : below cl a b -> below cl b d -> below cl a d.

Lemma racks_below cl c r racks root l :
  c ∈ cl -> r ∈ cluster_rows c -> racks ⊆ row_racks r ->
  racks_dependents racks root = Some l -> Forall (below cl root) l.
Proof.
  intros Hc Hr. induction racks as [|k racks IH]; intros Hsub; cbn; [done|].
  unfold name_eqb. destruct (bool_decide_reflect (rack_controller k = root)) as [<-|_].
  - intros [= <-]. apply Forall_forall. intros n Hn. eapply below_rack; try done. apply Hsub. by left.
  - apply IH. intros x Hx. apply Hsub. by right.
Qed.

Lemma rack_below_below cl c r k :
  c ∈ cl -> r ∈ cluster_rows c -> k ∈ row_racks r -> Forall (below cl (row_controller r)) (rack_below k).
Proof.
  intros Hc Hr Hk. constructor; [by eapply below_row|]. apply Forall_forall. intros n Hn.
  eapply below_trans; [by eapply below_row|by eapply below_rack].
Qed.

Lemma rows_below cl c rows root l :
  c ∈ cl -> rows ⊆ cluster_rows c -> rows_dependents rows root = Some l -> Forall (below cl root) l.
Proof.
  intros Hc. induction rows as [|r rows IH]; intros Hsub; cbn; [done|].
  assert (Hr : r ∈ cluster_rows c) by (apply Hsub; by left).
  unfold name_eqb. destruct (bool_decide_reflect (row_controller r = root)) as [<-|_].
  - intros [= <-]. apply Forall_forall. intros d (k & Hd & Hk)%list_elem_of_bind.
    by apply (proj1 (Forall_forall _ _) (rack_below_below cl c r k Hc Hr Hk)).
  - destruct (racks_dependents _ _) as [l'|] eqn:E.
    + intros [= <-]. by eapply racks_below.
    + apply IH. intros x Hx. apply Hsub. by right.
Qed.

Lemma row_below_below cl c r :
  c ∈ cl -> r ∈ cluster_rows c -> Forall (below cl (cluster_controller c)) (row_below r).
Proof.
  intros Hc Hr. constructor; [by eapply below_cluster|]. apply Forall_forall.
  intros d (k & Hd & Hk)%list_elem_of_bind. eapply below_trans; [by eapply below_cluster|].
  by apply (proj1 (Forall_forall _ _) (rack_below_below cl c r k Hc Hr Hk)).
Qed.

Lemma clusters_below cl cl' root l :
  cl' ⊆ cl -> clusters_dependents cl' root = Some l -> Forall (below cl root) l.
Proof.
  induction cl' as [|c cl' IH]; intros Hsub; cbn; [done|].
  assert (Hc : c ∈ cl) by (apply Hsub; by left).
  unfold name_eqb. destruct (bool_decide_reflect (cluster_controller c = root)) as [<-|_].
  - intros [= <-]. apply Forall_forall. intros d (r & Hd & Hr)%list_elem_of_bind.
    by apply (proj1 (Forall_forall _ _) (row_below_below cl c r Hc Hr)).
  - destruct (rows_dependents _ _) as [l'|] eqn:E.
    + intros [= <-]. by eapply rows_below.
    + apply IH. intros x Hx. apply Hsub. by right.
Qed.

(** ** A node goes down *)

(** The daemons a failure report is about. *)
Definition down_targets (cl : list orcm_cluster_t) (d : orte_process_name_t) : list orte_process_name_t :=
  match clusters_dependents cl d with
  | Some (x :: l) => x :: l
  | _ => [d]
  end.

Definition set_down (cl : list orcm_cluster_t) (d : orte_process_name_t) (n : orcm_node_t) : orcm_node_t :=
  if decide (n_daemon n ∈ down_targets cl d) then with_state ORCM_NODE_STATE_DOWN n else n.

Lemma free_list_set_state v (P : orcm_node_t -> Prop) `{forall n, Decision (P n)} ns :
  v <> ORCM_NODE_STATE_UP ->
  free_list (fmap (M := option) (fun n => if decide (P n) then with_state v n else n) <$> ns) =
  filter (fun n => ~ P n) (free_list ns).
Proof.
  intros Hv. induction ns as [|[n|] ns IH]; [done| |apply IH].
  rewrite fmap_cons. change (fmap (M := option) ?g (Some n)) with (Some (g n)).
  rewrite !free_list_cons_Some, IH. destruct (decide (P n)) as [Hp|Hp].
  - replace (available (with_state v n)) with false.
    + destruct (available n); [|done]. by rewrite filter_cons, decide_False by tauto.
    + unfold available; cbn. destruct (Z.eqb_spec v ORCM_NODE_STATE_UP); [done|]. by rewrite andb_false_r.
  - destruct (available n); [|done]. by rewrite filter_cons, decide_True.
Qed.

(** A failure report for a controller takes exactly the nodes below
    it out of service, one for any other daemon that daemon's node; they are
    no longer offered, and nothing else changes. *)
Theorem scd_node_down int_log10 send_rc topo_equal cl sender d s :
  daemons_distinct (sc_nodes s) ->
  orcm_scd_base_rm_recv int_log10 send_rc topo_equal cl sender (NodeDown d) s =
    Ret (upd_nodes (fun ns => fmap (M := option) (set_down cl d) <$> ns) s) /\
  (down_targets cl d = [d] \/ Forall (below cl d) (down_targets cl d)) /\
  free_list (fmap (M := option) (set_down cl d) <$> sc_nodes s) =
    filter (fun n => n_daemon n ∉ down_targets cl d) (free_list (sc_nodes s)).
Proof.
  intros Hd. split_and!.
  - cbn [orcm_scd_base_rm_recv]. unfold orcm_util_get_dependents.
    unfold set_down, down_targets.
    destruct (clusters_dependents cl d) as [[|x l]|]; cbn [app]; by rewrite byproc_spec.
  - unfold down_targets. destruct (clusters_dependents cl d) as [[|x l]|] eqn:E; [by left| |by left].
    right. by apply (clusters_below cl cl d).
  - by apply (free_list_set_state ORCM_NODE_STATE_DOWN (fun n => n_daemon n ∈ down_targets cl d)).
Qed.

(** ** Drain and resume *)
Lemma byname_spec int_log10 state new expr l s :
  (if state =? ORCM_NODE_STATE_RESUME then ORCM_NODE_STATE_UP else state) = new ->
  state <> ORCM_NODE_STATE_UP -> names_distinct (sc_nodes s) -> sc_rm_errno s = false ->
  expands int_log10 expr l ->
  exists rc, update_nodestate_byname int_log10 state (Some expr) None s =
    Ret (rc, upd_nodes (fun ns => fmap (M := option)
               (fun n => if decide (n_name n ∈ l) then with_state new n else n) <$> ns) s).
Proof.
  intros Hnew Hne Hd Herr Hx. unfold update_nodestate_byname, rm_extract. unfold expands in Hx.
  rewrite Herr, Hx, Hnew. cbn [mbind outcome_bind]. rewrite upd_rm_errno_same by done.
  cbn [Z.eqb OPAL_SUCCESS negb argv_list]. unfold strcmp0.
  rewrite (update_all_spec n_name); [| | |done].
  - eexists. f_equal. f_equal. unfold upd_nodes. f_equal. apply list_fmap_ext. intros i [n|] _; [|done].
    cbn. f_equal. unfold update_if, update_node. rewrite (proj2 (Z.eqb_neq _ _) Hne). cbn [andb]. done.
  - apply update_node_name.
  - apply update_node_idem.
Qed.

Lemma names_distinct_state v (P : orcm_node_t -> Prop) `{forall n, Decision (P n)} ns :
  names_distinct ns ->
  names_distinct (fmap (M := option) (fun n => if decide (P n) then with_state v n else n) <$> ns).
Proof.
  unfold names_distinct. intros Hd. replace (n_name <$> omap id _) with (n_name <$> omap id ns); [done|].
  clear Hd. induction ns as [|[n|] ns IH]; cbn; [done| |done]. rewrite IH. by case_decide.
Qed.

(** Draining the nodes an expression names takes exactly them off
    the free list and resuming them restores every node, allocated ones
    included, when they were up before. *)
Theorem scd_drain_resume int_log10 send_rc topo_equal cl sender expr l s :
  names_distinct (sc_nodes s) -> sc_rm_errno s = false -> expands int_log10 expr l ->
  (forall n, Some n ∈ sc_nodes s -> n_name n ∈ l -> n_state n = ORCM_NODE_STATE_UP) ->
  exists s1 s2,
    orcm_scd_base_rm_recv int_log10 send_rc topo_equal cl sender (NodeDrain (Some expr)) s = Ret s1 /\
    free_list (sc_nodes s1) = filter (fun n => n_name n ∉ l) (free_list (sc_nodes s)) /\
    orcm_scd_base_rm_recv int_log10 send_rc topo_equal cl sender (NodeResume (Some expr)) s1 = Ret s2 /\
    sc_nodes s2 = sc_nodes s.
Proof.
  intros Hd Herr Hx Hup. cbn [orcm_scd_base_rm_recv].
  destruct (byname_spec int_log10 ORCM_NODE_STATE_DRAIN ORCM_NODE_STATE_DRAIN expr l s) as [rc1 H1]; try done.
  rewrite H1, bind_Ret. set (s1 := (send_buffer_nb _ _ _ _).2).
  assert (Hs1 : sc_nodes s1 = fmap (M := option)
    (fun n => if decide (n_name n ∈ l) then with_state ORCM_NODE_STATE_DRAIN n else n) <$> sc_nodes s /\
    sc_rm_errno s1 = false).
  { unfold s1, send_buffer_nb. by destruct (_ =? _). }
  destruct Hs1 as [Hn1 He1].
  destruct (byname_spec int_log10 ORCM_NODE_STATE_RESUME ORCM_NODE_STATE_UP expr l s1) as [rc2 H2]; try done.
  { rewrite Hn1. by apply names_distinct_state. }
  exists s1. eexists. split_and!; [done| |by rewrite H2, bind_Ret|].
  - rewrite Hn1. by apply free_list_set_state.
  - unfold send_buffer_nb. destruct (_ =? _); cbn; rewrite Hn1, <- list_fmap_compose;
      rewrite <- (list_fmap_id (sc_nodes s)) at 2; apply list_fmap_ext; intros i [n|] Hi; try done;
      cbn; f_equal; destruct (decide (n_name n ∈ l)) as [Hin|Hin]; cbn; rewrite ?decide_True, ?decide_False by done;
      try done; specialize (Hup n (list_elem_of_lookup_2 _ _ _ Hi) Hin); destruct n; cbn in *; by subst.
Qed.

(** ** Instances *)
Definition demo_cluster : list orcm_cluster_t :=
  [MkCluster (1, 100) [MkRow (1, 90) [MkRack (1, 80) [(1, 1); (1, 2)]; MkRack (1, 81) [(1, 3)]]]].

Lemma scd_node_down_witness :
  orcm_scd_base_rm_recv ideal_log10 send_ok no_topo demo_cluster (0, 7) (NodeDown (1, 80)) demo_state =
    Ret (upd_nodes (fun ns => fmap (M := option) (set_down demo_cluster (1, 80)) <$> ns) demo_state) /\
  (down_targets demo_cluster (1, 80) = [(1, 80)] \/
   Forall (below demo_cluster (1, 80)) (down_targets demo_cluster (1, 80))) /\
  free_list (fmap (M := option) (set_down demo_cluster (1, 80)) <$> sc_nodes demo_state) =
    filter (fun n => n_daemon n ∉ down_targets demo_cluster (1, 80)) (free_list (sc_nodes demo_state)).
Proof.
  apply (scd_node_down ideal_log10 send_ok no_topo demo_cluster (0, 7) (1, 80) demo_state).
  apply (bool_decide_unpack _). vm_compute. exact I.
Defined.

Lemma scd_drain_resume_witness :
  exists s1 s2,
    orcm_scd_base_rm_recv ideal_log10 send_ok no_topo [] (0, 7) (NodeDrain (Some (cs "n[1:1-2]"))) demo_state = Ret s1 /\
    free_list (sc_nodes s1) =
      filter (fun n => n_name n ∉ [cs "n1"; cs "n2"]) (free_list (sc_nodes demo_state)) /\
    orcm_scd_base_rm_recv ideal_log10 send_ok no_topo [] (0, 7) (NodeResume (Some (cs "n[1:1-2]"))) s1 = Ret s2 /\
    sc_nodes s2 = sc_nodes demo_state.
Proof.
  apply (scd_drain_resume ideal_log10 send_ok no_topo [] (0, 7) (cs "n[1:1-2]") [cs "n1"; cs "n2"] demo_state).
  - apply (bool_decide_unpack _). vm_compute. exact I.
  - reflexivity.
  - vm_compute. reflexivity.
  - intros n Hn _. vm_compute in Hn.
    repeat (apply elem_of_cons in Hn as [Hn|Hn]; [by injection Hn as ->|| discriminate Hn|]).
    by apply not_elem_of_nil in Hn.
Defined.
