(* ===== verification/SchedulerFaults.v ===== *)
(** * Where the scheduler fails

    Interleavings and inputs for which the code does not do what it means to:
    nodes given out twice, a NULL node list, a session taken off the running
    queue in place of another, sessions that disappear. *)

From S2P Require Import Prelude CString Argv Regex RegexRoundtrip Dss ScdTypes Scheduler SchedulerProps.
From S2P Require Import SchedulerRun SchedulerLife SchedulerInv SchedulerEnd SchedulerClaims.
From stdpp Require Import base strings numbers list.
From Stdlib Require Import ZArith Lia Ascii.

Open Scope Z_scope.

(** ** Double allocation *)

(** Every request is checked against node states that change only when the
    allocation of an earlier one completes. *)
Section Double.
Context (int_log10 : Z -> Z) (send_rc : orte_process_name_t -> Z).
Hypothesis Hlog : log10_exact int_log10.
Implicit Types (s : orcm_scd_base_t).

(** A session off the queues that asks for nodes the scheduler has. *)
Record requestable s (x : nat) (a : orcm_alloc_t) : Prop := {
  rq_alloc : session_alloc s x = Ret a;
  rq_off : on_list s x = false;
  rq_fits : 0 < a_min_nodes a <= Z.of_nat (length (free_list (sc_nodes s)));
  rq_names : Forall node_name_ok (granted_names (a_min_nodes a) (sc_nodes s));
  rq_error : cs "ERROR" ∉ granted_names (a_min_nodes a) (sc_nodes s)
}.

(** The resource manager grants the first of the pending requests. *)
Lemma request_granted s x a evs :
  booted s -> sc_rm_errno s = false -> next_event (sc_rm_events s) = Some (ev Rm_request x, evs) -> requestable s x a ->
  exists expr l, expands int_log10 expr l /\ l ≡ₚ granted_names (a_min_nodes a) (sc_nodes s) /\
    turn int_log10 send_rc Main s =
      Ret (upd_scd_events (fun l => l ++ [ev Pmf_allocated x]) (alter_alloc (set_nodes (Some expr)) x (upd_rm_events (fun _ => evs) s))).
Proof.
  intros Hb Herr Hn [Ha _ Hf Hok _]. cbn [turn]. rewrite Hn. cbn [cd_cbfunc cd_session ev run_callback].
  destruct (rm_request_grants int_log10 Hlog (upd_rm_events (fun _ => evs) s) x a) as (expr & l & Hx & Hp & ->); try done.
  exists expr, l. split_and!; [done|done|]. by rewrite (activate_scd _ x _ Pmf_allocated).
Qed.

(** The scheduler completes the first of the pending allocations. *)
Lemma allocation_completed s x a expr l k evs :
  booted s -> sc_scd_errno s = false -> next_event (sc_scd_events s) = Some (ev Pmf_allocated x, evs) ->
  session_alloc s x = Ret a -> a_nodes a = Some expr -> expands int_log10 expr l -> Z.of_nat (length l) = a_min_nodes a ->
  strcmp0 expr (cs "ERROR") = false -> find_queue (cs "running") s = Some k -> on_list s x = false ->
  turn int_log10 send_rc Scd s =
    Ret (upd_nodes (mark_nodes ORCM_SCD_NODE_STATE_ALLOC l)
      (upd_rm_events (fun evs => evs ++ [ev Rm_active x])
        (upd_queue_sessions (fun x' => x' ++ [x]) k
          (alter_alloc (set_queues (Some (cs "running"))) x (upd_scd_events (fun _ => evs) s))))).
Proof.
  intros Hb Herr Hn Ha Hnodes Hx Hl HE Hk Hon. cbn [turn]. rewrite Hn. cbn [cd_cbfunc cd_session ev run_callback].
  by rewrite (pmf_allocated_marks int_log10 _ x a expr l k).
Qed.

Lemma on_list_append s k x y : x <> y -> on_list s y = false -> on_list (upd_queue_sessions (fun l => l ++ [x]) k s) y = false.
Proof.
  intros Hne. rewrite !on_list_false. intros Hs q Hq. apply list_elem_of_lookup in Hq as [j Hj].
  cbn in Hj. destruct (decide (j = k)) as [->|Hjk].
  - rewrite list_lookup_alter_eq in Hj. destruct (sc_queues s !! k) as [q'|] eqn:E; [|done]. injection Hj as <-. cbn [q_sessions].
    rewrite elem_of_app, list_elem_of_singleton. intros [?|?]; [|congruence]. by eapply Hs; [eapply list_elem_of_lookup_2|].
  - rewrite list_lookup_alter_ne in Hj by done. eapply Hs, list_elem_of_lookup_2, Hj.
Qed.

(** The shorter of two grants is part of the longer. *)
Lemma granted_shared k k' ns (l l' : list cstr) : 0 < k <= k' -> k <= Z.of_nat (length (free_list ns)) ->
  l ≡ₚ granted_names k ns -> l' ≡ₚ granted_names k' ns -> l ⊆ l' /\ l <> [].
Proof.
  intros Hk Hf Hl Hl'. split.
  - intros z. rewrite Hl, Hl'. unfold granted_names, granted. intros (n & -> & Hn)%list_elem_of_fmap. apply list_elem_of_fmap_2.
    replace (Z.to_nat k) with (Nat.min (Z.to_nat k) (Z.to_nat k')) in Hn by lia. rewrite <- take_take in Hn.
    by eapply elem_of_take in Hn as (i & Hi & _); apply list_elem_of_lookup_2 in Hi.
  - intros ->. apply Permutation_nil in Hl. apply (f_equal length) in Hl. unfold granted_names in Hl.
    rewrite length_fmap in Hl. pose proof (length_granted k ns ltac:(lia)). cbn in Hl. lia.
Qed.

Lemma granted_length (l : list cstr) k ns : l ≡ₚ granted_names k ns -> 0 < k <= Z.of_nat (length (free_list ns)) -> Z.of_nat (length l) = k.
Proof. intros -> Hk. unfold granted_names. rewrite length_fmap. apply length_granted. lia. Qed.

Lemma double_allocation s x y a b k q :
  booted s -> x <> y -> sc_rm_events s = [ev Rm_request x; ev Rm_request y] -> sc_scd_events s = [] ->
  sc_scd_errno s = false -> sc_rm_errno s = false -> requestable s x a -> requestable s y b ->
  find_queue (cs "running") s = Some k -> sc_queues s !! k = Some q ->
  exists s' q' l l', turns int_log10 send_rc [Main; Main; Scd; Scd] s = Ret s' /\
    sc_queues s' !! k = Some q' /\ q_sessions q' = q_sessions q ++ [x; y] /\
    runs_on int_log10 s' x l /\ runs_on int_log10 s' y l' /\
    l ≡ₚ granted_names (a_min_nodes a) (sc_nodes s) /\ l' ≡ₚ granted_names (a_min_nodes b) (sc_nodes s).
Proof.
  intros Hb Hne Hr He Herr1 Herr2 Hx Hy Hk Hq. cbn [turns].
  destruct (request_granted s x a [ev Rm_request y] Hb Herr2) as (ex & l & Hex & Hl & ->); [by rewrite Hr|done|].
  rewrite bind_Ret. set (s1 := upd_scd_events _ _).
  destruct (request_granted s1 y b [] Hb Herr2) as (ey & l' & Hey & Hl' & ->).
  { done. }
  { destruct Hy. split; try done. subst s1. by rewrite <- rq_alloc0, <- (session_alloc_ne (set_nodes (Some ex)) x y s) by done. }
  rewrite bind_Ret. set (s2 := upd_scd_events _ _).
  assert (Hx2 : session_alloc s2 x = Ret (set_nodes (Some ex) a)).
  { etransitivity; [by apply session_alloc_ne|]. apply (session_alloc_alter (set_nodes (Some ex)) x s a), Hx. }
  assert (Hy2 : session_alloc s2 y = Ret (set_nodes (Some ey) b)).
  { apply (session_alloc_alter (set_nodes (Some ey)) y s1 b). etransitivity; [by apply (session_alloc_ne _ x)|apply Hy]. }
  rewrite (allocation_completed s2 x (set_nodes (Some ex) a) ex l k [ev Pmf_allocated y]); try done; try apply Hx.
  2: { subst s2 s1. cbn [sc_scd_events upd_scd_events alter_alloc upd_sessions upd_rm_events]. by rewrite He. }
  2: { by eapply granted_length; [exact Hl|apply Hx]. }
  2: { by eapply expands_not_ERROR; [exact Hex|exact Hl|apply Hx]. }
  rewrite bind_Ret. set (s3 := upd_nodes _ _).
  assert (Hy3 : session_alloc s3 y = Ret (set_nodes (Some ey) b)) by (etransitivity; [by apply (session_alloc_ne (set_queues (Some (cs "running"))) x y s2)|done]).
  rewrite (allocation_completed s3 y (set_nodes (Some ey) b) ey l' k []); try done.
  2: { by eapply granted_length; [exact Hl'|apply Hy]. }
  2: { by eapply expands_not_ERROR; [exact Hey|exact Hl'|apply Hy]. }
  2: { etransitivity; [apply (find_queue_upd (cs "running") (fun x' => x' ++ [x]) k s2)|done]. }
  2: { apply (on_list_append s2 k x y Hne), Hy. }
  rewrite bind_Ret. eexists _, _, l, l'. split; [reflexivity|]. split; [|split; [|split_and!; [| |done|done]]].
  - apply (queue_upd_eq (fun x' => x' ++ [y]) k s3). by apply (queue_upd_eq (fun x' => x' ++ [x]) k s2).
  - cbn [q_sessions]. by rewrite <- app_assoc.
  - exists (set_queues (Some (cs "running")) (set_nodes (Some ex) a)), ex. split_and!; [|done|done].
    etransitivity; [by apply (session_alloc_ne (set_queues (Some (cs "running"))) y x s3)|]. by apply (session_alloc_alter (set_queues (Some (cs "running"))) x s2).
  - exists (set_queues (Some (cs "running")) (set_nodes (Some ey) b)), ey. split_and!; [|done|done].
    by apply (session_alloc_alter (set_queues (Some (cs "running"))) y s3).
Qed.

(** C40: nodes are marked when an allocation completes, not when it is granted.  So whenever two requests are pending at
    the resource manager, both for nodes that are free, and the thread of the resource manager serves both before the
    scheduler thread completes the first, both are granted from the same free nodes: both sessions end on the running
    queue, and the nodes of the smaller request, of which there is at least one, all belong to the other session as
    well.  (The names of the nodes are ones that the compression of node lists keeps, see
    [regex_create_extract_roundtrip], none is ERROR, no number conversion has left a range error, and log10 of a number
    below 10^9 is exact.) *)
Theorem scd_double_allocation s x y a b k q :
  booted s -> x <> y -> sc_rm_events s = [ev Rm_request x; ev Rm_request y] -> sc_scd_events s = [] ->
  sc_scd_errno s = false -> sc_rm_errno s = false -> requestable s x a -> requestable s y b -> a_min_nodes a <= a_min_nodes b ->
  find_queue (cs "running") s = Some k -> sc_queues s !! k = Some q ->
  exists s' q' l l', turns int_log10 send_rc [Main; Main; Scd; Scd] s = Ret s' /\
    sc_queues s' !! k = Some q' /\ q_sessions q' = q_sessions q ++ [x; y] /\
    runs_on int_log10 s' x l /\ runs_on int_log10 s' y l' /\ l ⊆ l' /\ l <> [].
Proof.
  intros Hb Hne Hr He Herr1 Herr2 Hx Hy Hab Hk Hq.
  destruct (double_allocation s x y a b k q) as (s' & q' & l & l' & Et & Hq' & Hs & Hl & Hl' & Hpl & Hpl'); try done.
  destruct (granted_shared (a_min_nodes a) (a_min_nodes b) (sc_nodes s) l l') as [? ?]; [|apply (rq_fits _ _ _ Hx)|done|done|].
  { pose proof (rq_fits _ _ _ Hx). lia. }
  exists s', q', l, l'. by split_and!.
Qed.
End Double.

Fixpoint performs (ls : list label) (s : orcm_scd_base_t) : outcome orcm_scd_base_t :=
  match ls with
  | [] => Ret s
  | l :: ls' => s ← perform ideal_log10 send_ok no_topo [] uid_zero l s; performs ls' s
  end.

(** Two sessions that are submitted at once are at the resource manager
    together after four turns of the scheduler thread. *)
Definition demo_double : orcm_scd_base_t :=
  match performs [LRequest (0, 7) (demo_alloc 1); LRequest (0, 8) (demo_alloc 2); LTurn Scd; LTurn Scd; LTurn Scd; LTurn Scd] demo_state with
  | Ret s => s
  | _ => orcm_scd_base_open
  end.

Lemma scd_double_allocation_witness :
  exists s' q' l l', turns ideal_log10 send_ok [Main; Main; Scd; Scd] demo_double = Ret s' /\
    sc_queues s' !! 0%nat = Some q' /\ q_sessions q' = [0%nat; 1%nat] /\
    runs_on ideal_log10 s' 0 l /\ runs_on ideal_log10 s' 1 l' /\ l ⊆ l' /\ l <> [].
Proof.
  refine (scd_double_allocation ideal_log10 send_ok ideal_log10_exact demo_double 0 1
    (set_queues (Some (cs "default")) (set_id 1 (demo_alloc 1))) (set_queues (Some (cs "default")) (set_id 2 (demo_alloc 2))) 0
    (MkQueue (cs "running") 0 []) _ _ _ _ _ _ _ _ _ _ _).
  - split; vm_compute; reflexivity.
  - discriminate.
  - vm_compute. reflexivity.
  - vm_compute. reflexivity.
  - vm_compute. reflexivity.
  - vm_compute. reflexivity.
  - split; [vm_compute; reflexivity|vm_compute; reflexivity|vm_compute; split; [reflexivity|discriminate]| |].
    + exact (proj1 (proj1 (Forall_app _ [cs "n1"] [cs "n2"]) demo_name_ok)).
    + apply (bool_decide_unpack _). vm_compute. exact I.
  - split; [vm_compute; reflexivity|vm_compute; reflexivity|vm_compute; split; [reflexivity|discriminate]| |].
    + exact demo_name_ok.
    + apply (bool_decide_unpack _). vm_compute. exact I.
  - vm_compute. discriminate.
  - vm_compute. reflexivity.
  - vm_compute. reflexivity.
Defined.

(** ** A node list that is never set *)

(** When nodes disappear between the scheduling decision and the
    request, the resource manager still reports the allocation as done, and
    [pmf_allocated] compares a NULL node list with a string. *)
Theorem scd_vanished_nodes_ub int_log10 send_rc s sid a :
  booted s -> sc_rm_events s = [ev Rm_request sid] -> sc_scd_events s = [] ->
  session_alloc s sid = Ret a -> a_nodes a = None ->
  0 < a_min_nodes a -> Z.of_nat (length (free_list (sc_nodes s))) < a_min_nodes a ->
  turns int_log10 send_rc [Main; Scd] s = Ub.
Proof.
  intros Hb Hr He Ha Hn Hm Hf. cbn [turns]. rewrite (turn_main_one _ _ _ _ _ Hr). cbn [run_callback].
  unfold scd_base_rm_request.
  change (session_alloc (upd_rm_events _ s) sid) with (session_alloc s sid). rewrite Ha, bind_Ret.
  replace (0 <? a_min_nodes a) with true by lia. cbn [upd_rm_events sc_nodes].
  destruct (request_nodes_missing (sc_nodes s) (a_min_nodes a) Hf) as [l ->].
  replace (_ =? 0) with false by lia. rewrite !bind_Ret, (activate_scd _ sid _ Pmf_allocated) by done.
  set (s1 := upd_scd_events _ _). assert (He1 : sc_scd_events s1 = [ev Pmf_allocated sid]) by (cbn; by rewrite He).
  rewrite (turn_scd_one _ _ _ _ _ He1). cbn [run_callback]. unfold pmf_allocated.
  change (session_alloc (upd_scd_events _ s1) sid) with (session_alloc s sid). rewrite Ha, bind_Ret, Hn.
  destruct (find_queue _ _) as [k|]; [|done]. unfold queue_append. by destruct (on_list _ _).
Qed.

(** The request of [demo_requested] after one of the nodes went down. *)
Definition demo_vanished : orcm_scd_base_t :=
  upd_nodes (fun _ => [demo_node "n1" 1]) demo_requested.

Lemma scd_vanished_nodes_ub_witness : turns ideal_log10 send_ok [Main; Scd] demo_vanished = Ub.
Proof.
  apply (scd_vanished_nodes_ub ideal_log10 send_ok demo_vanished 0
           (set_queues (Some (cs "default")) (set_id 1 (demo_alloc 2)))); try reflexivity.
  split; reflexivity.
Defined.

(** ** The error path of [pmf_allocated] *)

(** An allocation whose node list cannot be used is put back by
    taking the head off the running queue: with another session running, the
    failed one stays there and is linked into the default queue as well. *)
Theorem scd_requeue_corrupts int_log10 s sid a expr k q x l kd :
  session_alloc s sid = Ret a -> a_nodes a = Some expr -> strcmp0 expr (cs "ERROR") = true ->
  find_queue (cs "running") s = Some k -> sc_queues s !! k = Some q -> q_sessions q = x :: l ->
  find_queue (cs "default") s = Some kd -> on_list s sid = false ->
  pmf_allocated int_log10 sid s = Ub.
Proof.
  intros Ha Hn He Hk Hq Hs Hkd Hon. unfold pmf_allocated. rewrite Ha, bind_Ret, Hk, Hn, He.
  unfold queue_append. replace (on_list (alter_alloc _ sid s) sid) with (on_list s sid) by done.
  rewrite Hon, bind_Ret. set (s1 := upd_queue_sessions _ k _).
  assert (Hq1 : sc_queues s1 !! k = Some (MkQueue (q_name q) (q_priority q) (q_sessions q ++ [sid])))
    by by apply (queue_upd_eq (fun l => l ++ [sid])).
  assert (Hk1 : find_queue (cs "running") s1 = Some k) by (etransitivity; [apply find_queue_upd|done]).
  assert (Hkd1 : find_queue (cs "default") s1 = Some kd) by (etransitivity; [apply find_queue_upd|done]).
  unfold allocated_error. rewrite Hk1, find_queue_upd, Hkd1.
  unfold queue_prepend. destruct (on_list (upd_queue_sessions tail k s1) sid) eqn:E; [done|].
  rewrite on_list_queued in E. destruct E. rewrite (queued_upd _ _ _ _ Hq1), Hs. cbn.
  apply elem_of_app. left. apply elem_of_app. right. by left.
Qed.

(** A session whose node list is "ERROR" beside one that runs. *)
Definition demo_error : orcm_scd_base_t :=
  upd_queue_sessions (fun _ => [1%nat]) 0
    (upd_sessions (fun _ => [MkSession 1 (Some (set_nodes (Some (cs "ERROR")) (demo_alloc 1)));
                             MkSession 2 (Some (demo_alloc 1))]) demo_state).

Lemma scd_requeue_corrupts_witness : pmf_allocated ideal_log10 0 demo_error = Ub.
Proof.
  eapply (scd_requeue_corrupts ideal_log10 demo_error 0); reflexivity.
Defined.

(** ** Sessions without nodes *)

(** A session that asks for no nodes gets its id and passes through
    the default queue, and is then in no queue and no event: it neither runs
    nor can be cancelled. *)
Theorem scd_no_nodes_lost int_log10 send_rc session_uid sender alloc s sched :
  (forall d, send_rc d = OPAL_SUCCESS) -> idle s -> a_min_nodes alloc <= 0 ->
  sublist [Scd; Scd; Main] sched ->
  exists s', turns int_log10 send_rc sched (session_request send_rc session_uid sender alloc s) = Ret s' /\
    places s' = places s /\ ((length (sc_sessions s)) ∉ places s') /\
    sc_sent s' = sc_sent (accepted session_uid sender alloc s).
Proof.
  intros Hsend Hi Hm Hs. rewrite session_request_accepted by (done || apply Hi).
  destruct (life_requested int_log10 send_rc session_uid sender alloc s Hi ltac:(lia))
    as (s2 & Hc & Hb & Hr & He & Hq & Hn & Ht & Hsent & Herr1 & Herr2 & Hid & Ha & _).
  set (s3 := upd_rm_events (fun _ => []) s2).
  assert (H3 : turn int_log10 send_rc Main s2 = Ret s3).
  { rewrite (turn_main_one _ _ _ _ _ Hr). cbn [run_callback]. unfold scd_base_rm_request.
    change (session_alloc (upd_rm_events _ s2) ?x) with (session_alloc s2 x). rewrite Ha, bind_Ret.
    cbn [a_min_nodes set_queues update_alloc submitted snd set_id]. by replace (0 <? a_min_nodes alloc) with false by lia. }
  assert (Hp : places s3 = places s).
  { unfold places, queued. cbn [s3 upd_rm_events sc_queues sc_scd_events sc_rm_events].
    by rewrite Hq, He, (idle_scd _ Hi), (idle_rm _ Hi). }
  exists s3. split_and!; [|done| |exact Hsent].
  - eapply chain_turns; [apply Hc|exact Hs]. eapply chain_step; [exact H3|by apply turn_scd_none|].
    apply chain_done. intros []; [by apply turn_scd_none|by apply turn_main_none].
  - rewrite Hp. unfold places. rewrite (idle_scd _ Hi), (idle_rm _ Hi). cbn. rewrite app_nil_r.
    intros Hin. apply (proj1 (Forall_forall _ _) (idle_known _ Hi)) in Hin. lia.
Qed.

Lemma scd_no_nodes_lost_witness :
  exists s', turns ideal_log10 send_ok [Scd; Scd; Main; Main; Scd]
      (session_request send_ok uid_zero (0, 7) (demo_alloc 0) demo_state) = Ret s' /\
    places s' = places demo_state /\ ((length (sc_sessions demo_state)) ∉ places s') /\
    sc_sent s' = sc_sent (accepted uid_zero (0, 7) (demo_alloc 0) demo_state).
Proof.
  apply (scd_no_nodes_lost ideal_log10 send_ok uid_zero (0, 7) (demo_alloc 0) demo_state).
  - done.
  - apply demo_idle.
  - vm_compute. discriminate.
  - repeat constructor.
Defined.
