(* ===== verification/ScdPack.v ===== *)
(** * Packing of allocations ([scd_dt_fns.c]) and of their constraints

    [orcm_pack_alloc] writes the fields of an allocation one by one with
    [opal_dss_pack_buffer], then the number of constraints and the
    constraints, which are ORTE attributes ([orte_dt_pack_attr],
    [orte_dt_unpack_attr]).  The fields are listed with their types in the
    order of the source; the reader asks for the same types in the same order.

    A signed field travels as its unsigned pattern.  The receiver's attribute
    is marked local whatever the sender's was: the mark is not packed and
    [orte_attr_cons] sets it. *)

From S2P Require Import Prelude CString NameFns Dss DssFormat DssRoundtrip DssValue DssText ScdTypes.
From stdpp Require Import base strings numbers list.
From Stdlib Require Import ZArith Lia Ascii.

Open Scope Z_scope.

Definition ORTE_ATTRIBUTE : Z := 117.
Definition ORTE_ATTR_KEY_T : Z := OPAL_UINT16.
Definition ORTE_NAME : Z := OPAL_NAME.

Definition of_bool (x : bool) : Z := if x then 1 else 0.

(** The fields in the order they are packed, the number of constraints last. *)
Definition alloc_fields (a : orcm_alloc_t) : list (dss_data * Z) :=
  [ (D64 [u64 (a_id a)], OPAL_INT64);
    (D32 [u32 (a_priority a)], OPAL_INT32);
    (DStr [c_array (a_account a)], OPAL_STRING);
    (DStr [c_array (a_name a)], OPAL_STRING);
    (D32 [u32 (a_gid a)], OPAL_INT32);
    (D32 [u32 (a_max_nodes a)], OPAL_INT32);
    (D32 [u32 (a_max_pes a)], OPAL_INT32);
    (D32 [u32 (a_min_nodes a)], OPAL_INT32);
    (D32 [u32 (a_min_pes a)], OPAL_INT32);
    (D64 [u64 (a_begin a)], OPAL_TIME);
    (D64 [u64 (a_walltime a)], OPAL_TIME);
    (D8 [of_bool (a_exclusive a)], OPAL_BOOL);
    (D32 [u32 (a_caller_uid a)], OPAL_UINT32);
    (D32 [u32 (a_caller_gid a)], OPAL_UINT32);
    (D8 [of_bool (a_interactive a)], OPAL_BOOL);
    (DName [a_originator a], ORTE_NAME);
    (DName [a_hnp a], ORTE_NAME);
    (DStr [c_array (a_hnpname a)], OPAL_STRING);
    (DStr [c_array (a_hnpuri a)], OPAL_STRING);
    (DStr [c_array (a_parent_name a)], OPAL_STRING);
    (DStr [c_array (a_parent_uri a)], OPAL_STRING);
    (DStr [c_array (a_nodefile a)], OPAL_STRING);
    (DStr [c_array (a_nodes a)], OPAL_STRING);
    (DStr [c_array (a_queues a)], OPAL_STRING);
    (DStr [c_array (a_batchfile a)], OPAL_STRING);
    (DStr [c_array (a_notes a)], OPAL_STRING);
    (D32 [u32 (Z.of_nat (length (a_constraints a)))], OPAL_INT32) ].

(** The types [orcm_unpack_alloc] asks for. *)
Definition alloc_types : list Z :=
  [ OPAL_INT64; OPAL_INT32; OPAL_STRING; OPAL_STRING; OPAL_INT32; OPAL_INT32; OPAL_INT32; OPAL_INT32;
    OPAL_INT32; OPAL_TIME; OPAL_TIME; OPAL_BOOL; OPAL_UINT32; OPAL_UINT32; OPAL_BOOL; ORTE_NAME; ORTE_NAME;
    OPAL_STRING; OPAL_STRING; OPAL_STRING; OPAL_STRING; OPAL_STRING; OPAL_STRING; OPAL_STRING;
    OPAL_STRING; OPAL_STRING; OPAL_INT32 ].

(** The object the unpacked fields make, and the number of constraints. *)
Definition alloc_of_fields (l : list dss_data) : option ((list orte_attribute_t -> orcm_alloc_t) * Z) :=
  match l with
  | [ D64 [id]; D32 [priority]; DStr [account]; DStr [name]; D32 [gid]; D32 [max_nodes]; D32 [max_pes];
      D32 [min_nodes]; D32 [min_pes]; D64 [begin]; D64 [walltime]; D8 [exclusive]; D32 [uid]; D32 [cgid];
      D8 [interactive]; DName [originator]; DName [hnp]; DStr [hnpname]; DStr [hnpuri]; DStr [parent_name];
      DStr [parent_uri]; DStr [nodefile]; DStr [nodes]; DStr [queues]; DStr [batchfile]; DStr [notes];
      D32 [j] ] =>
    Some (MkAlloc (i64 id) (i32 priority) (of_c_array account) (of_c_array name) (i32 gid) (i32 max_nodes)
            (i32 max_pes) (i32 min_nodes) (i32 min_pes) (i64 begin) (i64 walltime) (negb (exclusive =? 0))
            uid cgid (negb (interactive =? 0)) originator hnp (of_c_array hnpname) (of_c_array hnpuri)
            (of_c_array parent_name) (of_c_array parent_uri) (of_c_array nodefile) (of_c_array nodes)
            (of_c_array queues) (of_c_array batchfile) (of_c_array notes), i32 j)
  | _ => None
  end.

(** The cases of the two switches that pack the field as one value of its
    type. *)
Definition attr_scalar (type : Z) : bool :=
  bool_decide (type ∈ [OPAL_BOOL; OPAL_BYTE; OPAL_STRING; OPAL_SIZE; OPAL_PID; OPAL_INT; OPAL_INT8;
    OPAL_INT16; OPAL_INT32; OPAL_INT64; OPAL_UINT; OPAL_UINT8; OPAL_UINT16; OPAL_UINT32; OPAL_UINT64;
    OPAL_FLOAT; OPAL_TIMEVAL; OPAL_VPID; OPAL_JOBID]).

Section ScdPack.
Variable malloc_ok : Z -> bool.
Variables opal_dss_initial_size opal_dss_threshold_size : Z.
Variable registered : Z -> bool.
Variable other_pack : Z -> opal_buffer_t -> dss_data -> outcome (Z * opal_buffer_t).
Variable other_unpack : Z -> opal_buffer_t -> Z -> Z * option dss_data * opal_buffer_t.
Variables sizeof_orte_attribute_t sizeof_orcm_alloc_t : Z.

Abbreviation opal_dss_pack_buffer' :=
  (opal_dss_pack_buffer malloc_ok opal_dss_initial_size opal_dss_threshold_size registered other_pack).
Abbreviation opal_dss_unpack_buffer' := (opal_dss_unpack_buffer malloc_ok registered other_unpack).
Abbreviation describe' := (describe malloc_ok opal_dss_initial_size opal_dss_threshold_size registered).
Abbreviation pack_int32' := (opal_dss_pack_int32 malloc_ok opal_dss_initial_size opal_dss_threshold_size).
Abbreviation pack_byte' := (opal_dss_pack_byte malloc_ok opal_dss_initial_size opal_dss_threshold_size).

(** ** Attributes *)
Definition pack_attr_field (b : opal_buffer_t) (type : Z) (data : dss_data) : outcome (Z * opal_buffer_t) :=
  if attr_scalar type then opal_dss_pack_buffer' b data type
  else if type =? OPAL_BYTE_OBJECT then
    match data with
    | DBo [bo] =>
      let n := i32 (Z.of_nat (length bo)) in
      pack_then (pack_int32' b [u32 n])
        (fun b => if 0 <? n then pack_byte' b bo n else Ret (OPAL_SUCCESS, b))
    | _ => Ub
    end
  else if type =? OPAL_PTR then Ret (OPAL_SUCCESS, b)
  else Ret (OPAL_ERROR, b).

Definition pack_one_attr (b : opal_buffer_t) (at_ : orte_attribute_t) : outcome (Z * opal_buffer_t) :=
  pack_then (opal_dss_pack_buffer' b (D16 [at_key at_]) ORTE_ATTR_KEY_T)
    (fun b => pack_then (opal_dss_pack_buffer' b (D8 [at_type at_]) OPAL_DATA_TYPE)
      (fun b => pack_attr_field b (at_type at_) (at_data at_))).

Definition orte_dt_pack_attr (b : opal_buffer_t) (src : list orte_attribute_t) : outcome (Z * opal_buffer_t) :=
  pack_each pack_one_attr b src.

Definition unpack_attr_field (b : opal_buffer_t) (type : Z) : unpacked dss_data :=
  if attr_scalar type then opal_dss_unpack_buffer' b 1 type
  else if type =? OPAL_BYTE_OBJECT then
    unpack_then (unpack_len b) (fun size b =>
      if 0 <? size then
        if negb (malloc_ok size) then (OPAL_ERR_OUT_OF_RESOURCE, None, b)
        else umap (fun bo => DBo [bo]) (opal_dss_unpack_byte b size)
      else (OPAL_SUCCESS, Some (DBo [[]]), b))
  else (OPAL_ERROR, None, b).

Definition unpack_one_attr (b : opal_buffer_t) : unpacked orte_attribute_t :=
  if negb (malloc_ok sizeof_orte_attribute_t) then (OPAL_ERR_OUT_OF_RESOURCE, None, b)
  else
    unpack_then (opal_dss_unpack_buffer' b 1 ORTE_ATTR_KEY_T) (fun k b =>
    unpack_then (opal_dss_unpack_buffer' b 1 OPAL_DATA_TYPE) (fun t b =>
      match k, t with
      | D16 [key], D8 [type] =>
        unpack_then (unpack_attr_field b type) (fun data b =>
          (OPAL_SUCCESS, Some (MkAttr key true type data), b))
      | _, _ => (OPAL_ERROR, None, b)
      end)).

Definition orte_dt_unpack_attr (b : opal_buffer_t) (num_vals : Z) : unpacked (list orte_attribute_t) :=
  unpack_each unpack_one_attr (Z.to_nat num_vals) b.

(** [opal_dss_pack_buffer(buffer, &attr, 1, ORTE_ATTRIBUTE)] and its inverse:
    the type's functions are those registered for it. *)
Definition pack_attr_buffer (b : opal_buffer_t) (at_ : orte_attribute_t) : outcome (Z * opal_buffer_t) :=
  describe' b ORTE_ATTRIBUTE (fun b => orte_dt_pack_attr b [at_]).

Definition unpack_attr_buffer (b : opal_buffer_t) : unpacked orte_attribute_t :=
  check_type registered b ORTE_ATTRIBUTE OPAL_ERR_PACK_MISMATCH (fun b =>
    unpack_then (orte_dt_unpack_attr b 1) (fun l b =>
      match l with [at_] => (OPAL_SUCCESS, Some at_, b) | _ => (OPAL_ERROR, None, b) end)).

(** ** Allocations *)
Definition pack_one_alloc (b : opal_buffer_t) (a : orcm_alloc_t) : outcome (Z * opal_buffer_t) :=
  pack_then (pack_each (fun b f => opal_dss_pack_buffer' b f.1 f.2) b (alloc_fields a)) (fun b =>
    if 0 <? i32 (Z.of_nat (length (a_constraints a)))
    then pack_each pack_attr_buffer b (a_constraints a)
    else Ret (OPAL_SUCCESS, b)).

Definition orcm_pack_alloc (b : opal_buffer_t) (src : list orcm_alloc_t) : outcome (Z * opal_buffer_t) :=
  pack_each pack_one_alloc b src.

Fixpoint unpack_fields (types : list Z) (b : opal_buffer_t) : unpacked (list dss_data) :=
  match types with
  | [] => (OPAL_SUCCESS, Some [], b)
  | t :: types' =>
    unpack_then (opal_dss_unpack_buffer' b 1 t) (fun d b =>
    unpack_then (unpack_fields types' b) (fun l b => (OPAL_SUCCESS, Some (d :: l), b)))
  end.

Definition unpack_one_alloc (b : opal_buffer_t) : unpacked orcm_alloc_t :=
  if negb (malloc_ok sizeof_orcm_alloc_t) then (OPAL_ERR_OUT_OF_RESOURCE, None, b)
  else
    unpack_then (unpack_fields alloc_types b) (fun l b =>
      match alloc_of_fields l with
      | Some (mk, j) =>
        unpack_then (unpack_each unpack_attr_buffer (Z.to_nat j) b) (fun kvs b =>
          (OPAL_SUCCESS, Some (mk kvs), b))
      | None => (OPAL_ERROR, None, b)
      end).

Definition orcm_unpack_alloc (b : opal_buffer_t) (num_vals : Z) : unpacked (list orcm_alloc_t) :=
  unpack_each unpack_one_alloc (Z.to_nat num_vals) b.

(** Allocations are ordered by priority alone; a copy is the same object. *)
Definition orcm_compare_alloc (value1 value2 : orcm_alloc_t) : Z :=
  if a_priority value2 <? a_priority value1 then OPAL_VALUE1_GREATER
  else if a_priority value1 <? a_priority value2 then OPAL_VALUE2_GREATER
  else OPAL_EQUAL.

Definition orcm_copy_alloc (src : orcm_alloc_t) : Z * orcm_alloc_t := (OPAL_SUCCESS, src).
End ScdPack.

(** ** Round trip *)
Definition attr_ok (registered : Z -> bool) (at_ : orte_attribute_t) : Prop :=
  fits 2 (at_key at_) /\
  if attr_scalar (at_type at_)
  then type_ok registered (at_type at_) (at_data at_) /\ data_length (at_data at_) = 1%nat
  else at_type at_ = OPAL_BYTE_OBJECT /\
       exists bo, at_data at_ = DBo [bo] /\ Z.of_nat (length bo) <= INT_MAX.

(** What the receiver gets. *)
Definition attr_received (at_ : orte_attribute_t) : orte_attribute_t :=
  MkAttr (at_key at_) true (at_type at_) (canon (at_data at_)).

Definition name_ok (n : orte_process_name_t) : Prop := fits 4 n.1 /\ fits 4 n.2.

Record alloc_ok (registered : Z -> bool) (a : orcm_alloc_t) : Prop := {
  ok_long : Forall int64 [a_id a; a_begin a; a_walltime a];
  ok_int : Forall int32 [a_priority a; a_gid a; a_max_nodes a; a_max_pes a; a_min_nodes a; a_min_pes a];
  ok_ids : Forall uint32 [a_caller_uid a; a_caller_gid a];
  ok_names : Forall name_ok [a_originator a; a_hnp a];
  ok_strings : Forall cstr_ok [a_account a; a_name a; a_hnpname a; a_hnpuri a; a_parent_name a;
    a_parent_uri a; a_nodefile a; a_nodes a; a_queues a; a_batchfile a; a_notes a];
  ok_count : Z.of_nat (length (a_constraints a)) <= INT_MAX;
  ok_constraints : Forall (attr_ok registered) (a_constraints a)
}.

Definition alloc_received (a : orcm_alloc_t) : orcm_alloc_t :=
  MkAlloc (a_id a) (a_priority a) (a_account a) (a_name a) (a_gid a) (a_max_nodes a) (a_max_pes a)
    (a_min_nodes a) (a_min_pes a) (a_begin a) (a_walltime a) (a_exclusive a) (a_caller_uid a)
    (a_caller_gid a) (a_interactive a) (a_originator a) (a_hnp a) (a_hnpname a) (a_hnpuri a)
    (a_parent_name a) (a_parent_uri a) (a_nodefile a) (a_nodes a) (a_queues a) (a_batchfile a)
    (a_notes a) (attr_received <$> a_constraints a).

Section PackProps.
Context (malloc_ok : Z -> bool) (initial threshold : Z) (registered : Z -> bool).
Context (other_pack : Z -> opal_buffer_t -> dss_data -> outcome (Z * opal_buffer_t)).
Context (other_unpack : Z -> opal_buffer_t -> Z -> Z * option dss_data * opal_buffer_t).
Context (attr_size alloc_size : Z).
Hypothesis Hmalloc : forall n, malloc_ok n = true.
Hypothesis Hinitial : 0 < initial < 2 ^ 31.
Hypothesis Hthreshold : 0 < threshold < 2 ^ 31.

Abbreviation enc_buffer := (enc_buffer registered).
Abbreviation field_ok := (fun f => type_ok registered f.2 f.1 /\ data_length f.1 = 1%nat).

(** *** Format *)
Definition enc_attr_field (desc : bool) (at_ : orte_attribute_t) : list Z :=
  if attr_scalar (at_type at_) then enc_buffer desc (at_type at_) (at_data at_)
  else enc_leaf (at_data at_).

Definition enc_attr (desc : bool) (at_ : orte_attribute_t) : list Z :=
  tag desc ORTE_ATTRIBUTE ++ enc_buffer desc ORTE_ATTR_KEY_T (D16 [at_key at_]) ++
  enc_buffer desc OPAL_DATA_TYPE (D8 [at_type at_]) ++ enc_attr_field desc at_.

Definition enc_alloc (desc : bool) (a : orcm_alloc_t) : list Z :=
  (alloc_fields a ≫= fun f => enc_buffer desc f.2 f.1) ++ (a_constraints a ≫= enc_attr desc).

Lemma field_int64 z : field_ok (D64 [u64 z], OPAL_INT64).
Proof. split; [|done]. apply Forall_singleton, fits_u64. Qed.
Lemma field_time z : field_ok (D64 [u64 z], OPAL_TIME).
Proof. split; [|done]. apply Forall_singleton, fits_u64. Qed.
Lemma field_int32 z : field_ok (D32 [u32 z], OPAL_INT32).
Proof. split; [|done]. apply Forall_singleton, fits_u32. Qed.
Lemma field_uint32 z : field_ok (D32 [u32 z], OPAL_UINT32).
Proof. split; [|done]. apply Forall_singleton, fits_u32. Qed.
Lemma field_bool x : field_ok (D8 [of_bool x], OPAL_BOOL).
Proof. done. Qed.
Lemma field_name n : name_ok n -> field_ok (DName [n], ORTE_NAME).
Proof. intros. split; [|done]. by apply Forall_singleton. Qed.
Lemma field_string s : cstr_ok s -> field_ok (DStr [c_array s], OPAL_STRING).
Proof. intros. split; [|done]. by apply Forall_singleton, c_array_ok. Qed.

(** Split a [Forall] over an explicit list into its elements. *)
Ltac forall_elems :=
  repeat match goal with H : Forall _ (_ :: _) |- _ => apply Forall_cons_iff in H as [? H] end.

Lemma alloc_fields_ok a : alloc_ok registered a -> Forall field_ok (alloc_fields a).
Proof.
  intros [_ _ _ Hn Hs _ _]. forall_elems. unfold alloc_fields.
  repeat (apply Forall_cons_iff; split; [
    first [ apply field_int64 | apply field_time | apply field_int32 | apply field_uint32
          | apply field_bool | by apply field_name | by apply field_string ] |]).
  constructor.
Qed.

(** *** Packing *)
Abbreviation pack_buffer' := (opal_dss_pack_buffer malloc_ok initial threshold registered other_pack).
Abbreviation pack_alloc' := (orcm_pack_alloc malloc_ok initial threshold registered other_pack).
Abbreviation unpack_buffer' := (opal_dss_unpack_buffer malloc_ok registered other_unpack).
Abbreviation unpack_alloc' := (orcm_unpack_alloc malloc_ok registered other_unpack attr_size alloc_size).

Lemma pack_attr_field_packs b at_ :
  attr_ok registered at_ ->
  packs b (enc_attr_field (b_desc b) at_)
    (pack_attr_field malloc_ok initial threshold registered other_pack b (at_type at_) (at_data at_)).
Proof.
  intros [_ Hok]. unfold enc_attr_field, pack_attr_field.
  destruct (attr_scalar (at_type at_)); [by apply pack_buffer_packs; [..|apply Hok]|].
  destruct Hok as (-> & bo & -> & Hn). cbn [Z.eqb Pos.eqb OPAL_BYTE_OBJECT enc_leaf]. rewrite bind_one.
  by apply pack_bo_packs.
Qed.

Lemma pack_attr_packs b at_ :
  attr_ok registered at_ ->
  packs b (enc_attr (b_desc b) at_)
    (pack_attr_buffer malloc_ok initial threshold registered other_pack b at_).
Proof.
  intros Hok. apply packs_describe; [done..|]. intros b1 <-. unfold orte_dt_pack_attr.
  rewrite <- (bind_one (fun x => enc_buffer (b_desc b1) ORTE_ATTR_KEY_T (D16 [at_key x]) ++
    enc_buffer (b_desc b1) OPAL_DATA_TYPE (D8 [at_type x]) ++ enc_attr_field (b_desc b1) x)).
  apply packs_each. intros b2 x Hx <-. apply list_elem_of_singleton in Hx as ->. unfold pack_one_attr.
  apply packs_then; [apply pack_buffer_packs; [done..|]; apply Forall_singleton, Hok|].
  intros b3 <-. apply packs_then; [by apply pack_buffer_packs|]. intros b4 <-. by apply pack_attr_field_packs.
Qed.

Lemma pack_one_alloc_packs b a :
  alloc_ok registered a ->
  packs b (enc_alloc (b_desc b) a)
    (pack_one_alloc malloc_ok initial threshold registered other_pack b a).
Proof.
  intros Hok. unfold enc_alloc, pack_one_alloc. apply packs_then.
  - apply packs_each. intros b1 f Hf <-. apply pack_buffer_packs; [done..|].
    pose proof (alloc_fields_ok a Hok) as Hall. by eapply Forall_forall in Hall as [? _].
  - intros b1 <-. pose proof (ok_count _ _ Hok) as Hc. rewrite i32_small by (unfold INT_MIN, INT_MAX in *; lia).
    destruct (Z.ltb_spec 0 (Z.of_nat (length (a_constraints a)))) as [Hpos|Hz].
    + apply packs_each. intros b2 x Hx <-. apply pack_attr_packs.
      pose proof (ok_constraints _ _ Hok) as Hall. by eapply Forall_forall in Hall.
    + destruct (a_constraints a); [apply packs_ret|cbn in Hz; lia].
Qed.

(** *** Unpacking *)
Lemma codec_fields desc fs :
  Forall field_ok fs ->
  codec desc (unpack_fields malloc_ok registered other_unpack fs.*2)
    (fs ≫= fun f => enc_buffer desc f.2 f.1) (canon <$> fs.*1).
Proof.
  induction 1 as [|f fs [Hf Hl] Hfs IH]; [apply codec_ret|].
  rewrite bind_cons, !fmap_cons. cbn [unpack_fields].
  eapply codec_then; [apply codec_buffer; [done|done|by rewrite Hl]|]. cbn beta.
  by apply (codec_umap _ _ (cons (canon f.1))).
Qed.

Lemma codec_attr_field desc at_ :
  attr_ok registered at_ ->
  codec desc (fun b => unpack_attr_field malloc_ok registered other_unpack b (at_type at_))
    (enc_attr_field desc at_) (canon (at_data at_)).
Proof.
  intros [_ Hok]. unfold unpack_attr_field, enc_attr_field. destruct (attr_scalar (at_type at_)).
  - destruct Hok as [Hok H1]. apply codec_buffer; auto. by rewrite H1.
  - destruct Hok as (-> & bo & -> & Hn). rewrite Z.eqb_refl. unfold enc_leaf. rewrite bind_one. unfold enc_bo.
    eapply codec_then; [apply codec_len; lia|]. cbn beta.
    destruct (Z.ltb_spec 0 (Z.of_nat (length bo))).
    + rewrite Hmalloc. cbv [negb]. apply (codec_umap _ _ (fun bo => DBo [bo])). by apply codec_bytes.
    + destruct bo; [apply codec_ret|cbn in *; lia].
Qed.

Lemma codec_attr desc at_ :
  attr_ok registered at_ ->
  codec desc (unpack_attr_buffer malloc_ok registered other_unpack attr_size)
    (enc_attr desc at_) (attr_received at_).
Proof.
  intros Hok. apply codec_check_type. unfold orte_dt_unpack_attr. cbn [Z.to_nat Pos.to_nat Pos.iter_op].
  rewrite <- (app_nil_r (_ ++ _ ++ enc_attr_field desc at_)). eapply (codec_then _ _ _ _ _ [attr_received at_]); [|apply codec_ret].
  rewrite <- (bind_one (fun x => enc_buffer desc ORTE_ATTR_KEY_T (D16 [at_key x]) ++
    enc_buffer desc OPAL_DATA_TYPE (D8 [at_type x]) ++ enc_attr_field desc x)).
  apply (codec_each desc _ _ attr_received [at_]). intros x ->%list_elem_of_singleton.
  unfold unpack_one_attr. rewrite Hmalloc. cbv [negb].
  eapply codec_then; [apply codec_buffer; [done| |done]; apply Forall_singleton, Hok|]. cbn beta.
  eapply codec_then; [by apply codec_buffer|]. cbn [canon].
  rewrite <- (app_nil_r (enc_attr_field desc at_)).
  eapply codec_then; [by apply codec_attr_field|apply codec_ret].
Qed.

Lemma alloc_of_canon a :
  alloc_ok registered a ->
  exists mk, alloc_of_fields (canon <$> (alloc_fields a).*1) = Some (mk, Z.of_nat (length (a_constraints a))) /\
    mk (attr_received <$> a_constraints a) = alloc_received a.
Proof.
  intros [Hl Hi Hu _ Hs Hc _]. forall_elems. cbn [alloc_fields fmap list_fmap fst canon alloc_of_fields].
  rewrite (i32_u32 (Z.of_nat _)) by (unfold INT_MIN, INT_MAX in *; lia).
  eexists. split; [reflexivity|]. unfold alloc_received.
  rewrite !i64_u64, !i32_u32, !u32_uint32, !c_array_back by done.
  by destruct (a_exclusive a), (a_interactive a).
Qed.

Lemma codec_alloc desc a :
  alloc_ok registered a ->
  codec desc (unpack_one_alloc malloc_ok registered other_unpack attr_size alloc_size)
    (enc_alloc desc a) (alloc_received a).
Proof.
  intros Hok. unfold unpack_one_alloc. rewrite Hmalloc. cbv [negb]. unfold enc_alloc.
  eapply codec_then; [exact (codec_fields desc _ (alloc_fields_ok a Hok))|]. cbn beta.
  destruct (alloc_of_canon a Hok) as (mk & -> & Hmk). rewrite Nat2Z.id, <- Hmk.
  apply (codec_umap _ _ mk). apply codec_each. intros x Hx. apply codec_attr.
  pose proof (ok_constraints _ _ Hok) as Hall. by eapply Forall_forall in Hall.
Qed.

(** C33: packing any list of allocations into a buffer succeeds, and unpacking as many gives every field back,
    the node expression, the ids and the constraints included, and consumes exactly what was packed; the local
    mark of a constraint is lost, and a string ends at its terminator. A constraint may be of any type the
    attributes have but OPAL_FLOAT, which travels as a text with six decimals (the frequency of the power
    management is such a constraint), and OPAL_PTR, which cannot be packed. The buffer holds fewer than 2^62
    bytes, numbers are in the range of their types, strings and lists have at most 2^31 - 1 entries, and memory
    does not run out. *)
Theorem scd_alloc_roundtrip b l :
  buf_ok b -> b_ptr b = true -> b_unpack b = length (b_data b) -> Forall (alloc_ok registered) l ->
  bytes_used b + Z.of_nat (length (l ≫= enc_alloc (b_desc b))) < 2 ^ 62 ->
  exists b' b'', pack_alloc' b l = Ret (OPAL_SUCCESS, b') /\
    unpack_alloc' b' (Z.of_nat (length l)) = (OPAL_SUCCESS, Some (alloc_received <$> l), b'') /\
    unread b'' = [].
Proof.
  intros Hb Hp Hu Hok Hsz.
  destruct (packs_each (pack_one_alloc malloc_ok initial threshold registered other_pack)
    (enc_alloc (b_desc b)) l b) as (b' & E & [Hok' _ Hd Hu' Hdata]); try done.
  { intros b1 a Ha <-. apply pack_one_alloc_packs. by eapply Forall_forall in Hok. }
  exists b'. eexists. split; [done|].
  assert (Hun : unread b' = (l ≫= enc_alloc (b_desc b)) ++ []).
  { unfold unread. by rewrite Hu', Hu, Hdata, drop_app_length, app_nil_r. }
  split; [|by eapply unread_advance]. unfold orcm_unpack_alloc. rewrite Nat2Z.id.
  apply (codec_reads (b_desc b) _ _ _ (codec_each (b_desc b) _ _ alloc_received l
    ltac:(intros x Hx; apply codec_alloc; by eapply Forall_forall in Hok)) b' []).
  - unfold bytes_used in Hsz. change (fun x => enc_alloc (b_desc b) x) with (enc_alloc (b_desc b)). lia.
  - split; [done|]. apply Hok'.
  - done.
Qed.
End PackProps.

(** An allocation as a session request fills it, with one constraint. *)
Definition sample_alloc : orcm_alloc_t :=
  MkAlloc 7 1 (Some (cs "acct")) None (-1) 4 0 2 0 100 3600 true 500 500 false
    (1, 0) (1, 1) (Some (cs "head")) None None None None
    (Some (cs "n[4:0-3]")) (Some (cs "default")) None None
    [MkAttr 3 true OPAL_STRING (DStr [Some [104; 105; 0]]); MkAttr 4 true OPAL_BYTE_OBJECT (DBo [[1; 2; 3]])].

Lemma sample_alloc_ok : alloc_ok (fun _ => false) sample_alloc.
Proof.
  split; unfold sample_alloc; cbn [a_id a_begin a_walltime a_priority a_gid a_max_nodes a_max_pes a_min_nodes
    a_min_pes a_caller_uid a_caller_gid a_originator a_hnp a_account a_name a_hnpname a_hnpuri a_parent_name
    a_parent_uri a_nodefile a_nodes a_queues a_batchfile a_notes a_constraints].
  1-5: repeat match goal with |- Forall _ (_ :: _) => constructor | |- Forall _ [] => constructor end;
    unfold int64, int32, uint32, name_ok, fits, LONG_MIN, LONG_MAX, INT_MIN, INT_MAX; cbn [fst snd]; try lia.
  1-11: first [exact I | apply cstr_ok_cs; [reflexivity|vm_compute; reflexivity]].
  - unfold INT_MAX. cbn. lia.
  - constructor; [|constructor; [|constructor]].
    + split; [unfold fits; cbn; lia|]. split; [|reflexivity]. apply Forall_singleton.
      exists 2%nat. split; [reflexivity|unfold INT_MAX; cbn; lia].
    + split; [unfold fits; cbn; lia|]. split; [reflexivity|]. exists [1; 2; 3].
      split; [reflexivity|unfold INT_MAX; cbn; lia].
Qed.

Lemma scd_alloc_roundtrip_witness :
  exists b' b'', orcm_pack_alloc (fun _ => true) 128 1024 (fun _ => false) fail_pack
                   ready_buffer [sample_alloc; sample_alloc] = Ret (OPAL_SUCCESS, b') /\
    orcm_unpack_alloc (fun _ => true) (fun _ => false) fail_unpack 64 512 b' 2 =
      (OPAL_SUCCESS, Some [sample_alloc; sample_alloc], b'') /\
    unread b'' = [].
Proof.
  apply (scd_alloc_roundtrip (fun _ => true) 128 1024 (fun _ => false) fail_pack fail_unpack 64 512
           ltac:(done) ltac:(lia) ltac:(lia) ready_buffer [sample_alloc; sample_alloc] ready_buffer_ok).
  - reflexivity.
  - reflexivity.
  - constructor; [apply sample_alloc_ok|constructor; [apply sample_alloc_ok|constructor]].
  - by vm_compute.
Defined.
