(* ===== verification/ScdPower.v ===== *)
(** * Power settings of sessions

    The operator sets and reads the power parameters of a session
    ([orcm/tools/octl/session.c]); the scheduler keeps them as attributes among
    the constraints of the session's allocation
    ([orcm/mca/scd/base/scd_base_recv.c]) and tells the resource manager when
    the session is running.  Request and answer are messages of [Dss].

    A variable that a message leaves unset is undefined behaviour when it is
    read, with one exception: the result a set request answers with when it
    finds no session, which is whatever [uninit] says.  The session number
    arrives as eight bytes over the four of the local variable [sessionid], so
    every request for a session writes four bytes past that variable.
    [spare] says whether the compiler left four unused bytes behind it: without
    them the write is undefined behaviour, with them the variable keeps the low
    half of the number (a little-endian machine).

    The names of the power modes and the frequencies come from the power
    management framework, which the sources do not contain: [get_mode_val],
    [num_modes], [max_freq] and [min_freq] are parameters, like [strtof]. *)

From S2P Require Import Prelude CString Argv Dss DssFormat DssRoundtrip DssValue DssClaims DssText DssMessage.
From S2P Require Import ScdTypes Attributes Scheduler.
From stdpp Require Import base strings numbers list.
From Stdlib Require Import ZArith Lia Ascii.

Open Scope Z_scope.

Definition ORCM_SET_POWER_COMMAND : Z := 9.
Definition ORCM_GET_POWER_COMMAND : Z := 10.
Definition ORCM_SET_POWER_BUDGET_COMMAND : Z := 11.
Definition ORCM_SET_POWER_MODE_COMMAND : Z := 12.
Definition ORCM_SET_POWER_WINDOW_COMMAND : Z := 13.
Definition ORCM_SET_POWER_OVERAGE_COMMAND : Z := 14.
Definition ORCM_SET_POWER_UNDERAGE_COMMAND : Z := 15.
Definition ORCM_SET_POWER_OVERAGE_TIME_COMMAND : Z := 16.
Definition ORCM_SET_POWER_UNDERAGE_TIME_COMMAND : Z := 17.
Definition ORCM_SET_POWER_FREQUENCY_COMMAND : Z := 18.
Definition ORCM_SET_POWER_STRICT_COMMAND : Z := 19.
Definition ORCM_GET_POWER_BUDGET_COMMAND : Z := 20.
Definition ORCM_GET_POWER_MODE_COMMAND : Z := 21.
Definition ORCM_GET_POWER_WINDOW_COMMAND : Z := 22.
Definition ORCM_GET_POWER_OVERAGE_COMMAND : Z := 23.
Definition ORCM_GET_POWER_UNDERAGE_COMMAND : Z := 24.
Definition ORCM_GET_POWER_OVERAGE_TIME_COMMAND : Z := 25.
Definition ORCM_GET_POWER_UNDERAGE_TIME_COMMAND : Z := 26.
Definition ORCM_GET_POWER_FREQUENCY_COMMAND : Z := 27.
Definition ORCM_GET_POWER_STRICT_COMMAND : Z := 29.

Definition ORCM_PWRMGMT_POWER_MODE_KEY : Z := ORCM_ATTR_KEY_BASE + 1.
Definition ORCM_PWRMGMT_POWER_BUDGET_KEY : Z := ORCM_ATTR_KEY_BASE + 2.
Definition ORCM_PWRMGMT_POWER_WINDOW_KEY : Z := ORCM_ATTR_KEY_BASE + 3.
Definition ORCM_PWRMGMT_CAP_OVERAGE_LIMIT_KEY : Z := ORCM_ATTR_KEY_BASE + 4.
Definition ORCM_PWRMGMT_CAP_UNDERAGE_LIMIT_KEY : Z := ORCM_ATTR_KEY_BASE + 5.
Definition ORCM_PWRMGMT_CAP_OVERAGE_TIME_LIMIT_KEY : Z := ORCM_ATTR_KEY_BASE + 6.
Definition ORCM_PWRMGMT_CAP_UNDERAGE_TIME_LIMIT_KEY : Z := ORCM_ATTR_KEY_BASE + 7.
Definition ORCM_PWRMGMT_MANUAL_FREQUENCY_KEY : Z := ORCM_ATTR_KEY_BASE + 9.
Definition ORCM_PWRMGMT_FREQ_STRICT_KEY : Z := ORCM_ATTR_KEY_BASE + 11.

(** The attribute of a request to set, and its type. *)
Definition set_target (sub_command : Z) : option (Z * Z) :=
  if sub_command =? ORCM_SET_POWER_BUDGET_COMMAND then Some (ORCM_PWRMGMT_POWER_BUDGET_KEY, OPAL_INT32)
  else if sub_command =? ORCM_SET_POWER_MODE_COMMAND then Some (ORCM_PWRMGMT_POWER_MODE_KEY, OPAL_INT32)
  else if sub_command =? ORCM_SET_POWER_WINDOW_COMMAND then Some (ORCM_PWRMGMT_POWER_WINDOW_KEY, OPAL_INT32)
  else if sub_command =? ORCM_SET_POWER_OVERAGE_COMMAND then Some (ORCM_PWRMGMT_CAP_OVERAGE_LIMIT_KEY, OPAL_INT32)
  else if sub_command =? ORCM_SET_POWER_UNDERAGE_COMMAND then Some (ORCM_PWRMGMT_CAP_UNDERAGE_LIMIT_KEY, OPAL_INT32)
  else if sub_command =? ORCM_SET_POWER_OVERAGE_TIME_COMMAND then Some (ORCM_PWRMGMT_CAP_OVERAGE_TIME_LIMIT_KEY, OPAL_INT32)
  else if sub_command =? ORCM_SET_POWER_UNDERAGE_TIME_COMMAND then Some (ORCM_PWRMGMT_CAP_UNDERAGE_TIME_LIMIT_KEY, OPAL_INT32)
  else if sub_command =? ORCM_SET_POWER_FREQUENCY_COMMAND then Some (ORCM_PWRMGMT_MANUAL_FREQUENCY_KEY, OPAL_FLOAT)
  else if sub_command =? ORCM_SET_POWER_STRICT_COMMAND then Some (ORCM_PWRMGMT_FREQ_STRICT_KEY, OPAL_BOOL)
  else None.

Definition get_target (sub_command : Z) : option (Z * Z) :=
  if sub_command =? ORCM_GET_POWER_BUDGET_COMMAND then Some (ORCM_PWRMGMT_POWER_BUDGET_KEY, OPAL_INT32)
  else if sub_command =? ORCM_GET_POWER_MODE_COMMAND then Some (ORCM_PWRMGMT_POWER_MODE_KEY, OPAL_INT32)
  else if sub_command =? ORCM_GET_POWER_WINDOW_COMMAND then Some (ORCM_PWRMGMT_POWER_WINDOW_KEY, OPAL_INT32)
  else if sub_command =? ORCM_GET_POWER_OVERAGE_COMMAND then Some (ORCM_PWRMGMT_CAP_OVERAGE_LIMIT_KEY, OPAL_INT32)
  else if sub_command =? ORCM_GET_POWER_UNDERAGE_COMMAND then Some (ORCM_PWRMGMT_CAP_UNDERAGE_LIMIT_KEY, OPAL_INT32)
  else if sub_command =? ORCM_GET_POWER_OVERAGE_TIME_COMMAND then Some (ORCM_PWRMGMT_CAP_OVERAGE_TIME_LIMIT_KEY, OPAL_INT32)
  else if sub_command =? ORCM_GET_POWER_UNDERAGE_TIME_COMMAND then Some (ORCM_PWRMGMT_CAP_UNDERAGE_TIME_LIMIT_KEY, OPAL_INT32)
  else if sub_command =? ORCM_GET_POWER_FREQUENCY_COMMAND then Some (ORCM_PWRMGMT_MANUAL_FREQUENCY_KEY, OPAL_FLOAT)
  else if sub_command =? ORCM_GET_POWER_STRICT_COMMAND then Some (ORCM_PWRMGMT_FREQ_STRICT_KEY, OPAL_BOOL)
  else None.

(** [alloc->constraints = l] *)
Definition set_constraints (l : list orte_attribute_t) (a : orcm_alloc_t) : orcm_alloc_t :=
  MkAlloc (a_id a) (a_priority a) (a_account a) (a_name a) (a_gid a) (a_max_nodes a) (a_max_pes a)
    (a_min_nodes a) (a_min_pes a) (a_begin a) (a_walltime a) (a_exclusive a) (a_caller_uid a)
    (a_caller_gid a) (a_interactive a) (a_originator a) (a_hnp a) (a_hnpname a) (a_hnpuri a)
    (a_parent_name a) (a_parent_uri a) (a_nodefile a) (a_nodes a) (a_queues a) (a_batchfile a) (a_notes a) l.

Section Power.
Variable malloc_ok : Z -> bool.
Variables opal_dss_initial_size opal_dss_threshold_size : Z.
Variable registered : Z -> bool.
Variable other_pack : Z -> opal_buffer_t -> dss_data -> outcome (Z * opal_buffer_t).
Variable other_unpack : Z -> opal_buffer_t -> Z -> Z * option dss_data * opal_buffer_t.
Variable desc : bool.

Abbreviation pack_item := (pack_item malloc_ok opal_dss_initial_size opal_dss_threshold_size registered other_pack).
Abbreviation dss_unpack := (dss_unpack malloc_ok registered other_unpack).
Abbreviation unpack_byte := (unpack_byte malloc_ok registered other_unpack).
Abbreviation pack_items := (pack_items malloc_ok opal_dss_initial_size opal_dss_threshold_size registered other_pack).
Abbreviation unpack_int := (unpack_int malloc_ok registered other_unpack).

(** Whether the four bytes behind [sessionid] are unused. *)
Variable spare : bool.

(** Eight bytes into the four of [sessionid]: the write goes past the variable
    as soon as one number arrives, and past the spare bytes too when more than
    one does. *)
Definition unpack_session (b : opal_buffer_t) (cnt : Z) : outcome (Z * option Z * Z * opal_buffer_t) :=
  let '(rc, d, cnt, b) := dss_unpack b cnt OPAL_INT64 in
  match d with
  | None | Some (D64 []) => Ret (rc, None, cnt, b)
  | Some (D64 [z]) => if spare then Ret (rc, Some (u32 z), cnt, b) else Ub
  | Some _ => Ub
  end.

Definition id_item (n : Z) : dss_data * Z := (D64 [u64 n], OPAL_INT64).

(** ** The scheduler *)
Section Scheduler.
Variable send_rc : orte_process_name_t -> Z.
Variable my_scheduler : orte_process_name_t.
Variable uninit : Z.

Fixpoint find_in (s : orcm_scd_base_t) (id : Z) (l : list nat) : outcome (option nat) :=
  match l with
  | [] => Ret None
  | sid :: l' => a ← session_alloc s sid; if a_id a =? id then Ret (Some sid) else find_in s id l'
  end.

(** The first session of the number, and its queue. *)
Fixpoint find_session (s : orcm_scd_base_t) (id : Z) (qs : list orcm_queue_t) : outcome (option (orcm_queue_t * nat)) :=
  match qs with
  | [] => Ret None
  | q :: qs' =>
    r ← find_in s id (q_sessions q);
    match r with Some sid => Ret (Some (q, sid)) | None => find_session s id qs' end
  end.

(** [opal_dss.pack(ans, &result, 1, OPAL_INT)], then the answer is sent. *)
Definition answer_with (ans : opal_buffer_t) (result : Z) (s : orcm_scd_base_t)
    : outcome (orcm_scd_base_t * option opal_buffer_t) :=
  '(rc, ans) ← pack_item ans (int_item result);
  Ret (s, if rc =? OPAL_SUCCESS then Some ans else None).

(** A running session: the resource manager is told. *)
Definition tell_rm (q : orcm_queue_t) (sid : nat) (result : Z) (s : orcm_scd_base_t) : outcome (Z * orcm_scd_base_t) :=
  if strcmp0 (q_name q) (cs "running") then
    alloc ← session_alloc s sid;
    let '(rc, s) := send_buffer_nb send_rc my_scheduler (SetPower alloc) s in
    Ret (if rc =? OPAL_SUCCESS then result else rc, s)
  else Ret (result, s).

(** The session that was found in [q]. *)
Definition set_found (ans : opal_buffer_t) (sub_command : option Z) (cnt : Z) (b : opal_buffer_t) (q : orcm_queue_t) (sid : nat)
    (s : orcm_scd_base_t) : outcome (orcm_scd_base_t * option opal_buffer_t) :=
  alloc ← session_alloc s sid;
  sub_command ← deref sub_command;
  match set_target sub_command with
  | Some (key, type) =>
    let '(rc, param, _, _) := dss_unpack b cnt type in
    if negb (rc =? OPAL_SUCCESS) then Ret (s, Some ans)
    else
      param ← deref param;
      '(result, l) ← orte_set_attribute (a_constraints alloc) key ORTE_ATTR_GLOBAL (Some param) type;
      '(result, s) ← tell_rm q sid result (alter_alloc (set_constraints l) sid s);
      answer_with ans result s
  | None =>
    '(result, s) ← tell_rm q sid OPAL_ERR_BAD_PARAM s;
    answer_with ans result s
  end.

Definition set_power (buffer : opal_buffer_t) (s : orcm_scd_base_t) : outcome (orcm_scd_base_t * option opal_buffer_t) :=
  let ans := opal_buffer_construct desc in
  let '(rc, sub_command, cnt, b) := unpack_byte buffer 1 OPAL_UINT8 in
  if negb (rc =? OPAL_SUCCESS) then Ret (s, Some ans)
  else
    let '(rc, per_session, cnt, b) := unpack_byte b cnt OPAL_BOOL in
    if negb (rc =? OPAL_SUCCESS) then Ret (s, Some ans)
    else
      per_session ← deref per_session;
      if per_session =? 0 then answer_with ans uninit s
      else
        '(rc, sessionid, cnt, b) ← unpack_session b cnt;
        if negb (rc =? OPAL_SUCCESS) then Ret (s, Some ans)
        else
          sessionid ← deref sessionid;
          found ← find_session s sessionid (sc_queues s);
          match found with
          | None => answer_with ans uninit s
          | Some (q, sid) => set_found ans sub_command cnt b q sid s
          end.

(** For a missing window the code is packed that the last call returned. *)
Definition missing_code (sub_command : Z) : Z :=
  if sub_command =? ORCM_GET_POWER_WINDOW_COMMAND then OPAL_SUCCESS else OPAL_ERR_BAD_PARAM.

Definition get_found (ans : opal_buffer_t) (sub_command : option Z) (sid : nat) (s : orcm_scd_base_t)
    : outcome (orcm_scd_base_t * option opal_buffer_t) :=
  alloc ← session_alloc s sid;
  sub_command ← deref sub_command;
  match get_target sub_command with
  | Some (key, type) =>
    '(present, param) ← orte_get_attribute (a_constraints alloc) key (Some true) type;
    if negb present then answer_with ans (missing_code sub_command) s
    else
      '(rc, ans) ← pack_item ans (int_item OPAL_SUCCESS);
      if negb (rc =? OPAL_SUCCESS) then Ret (s, None)
      else
        param ← deref param;
        '(rc, ans) ← pack_item ans (param, type);
        Ret (s, if rc =? OPAL_SUCCESS then Some ans else None)
  | None => answer_with ans OPAL_ERR_BAD_PARAM s
  end.

Definition get_power (buffer : opal_buffer_t) (s : orcm_scd_base_t) : outcome (orcm_scd_base_t * option opal_buffer_t) :=
  let ans := opal_buffer_construct desc in
  let '(rc, sub_command, cnt, b) := unpack_byte buffer 1 OPAL_UINT8 in
  if negb (rc =? OPAL_SUCCESS) then Ret (s, Some ans)
  else
    let '(rc, per_session, cnt, b) := unpack_byte b cnt OPAL_BOOL in
    if negb (rc =? OPAL_SUCCESS) then Ret (s, Some ans)
    else
      per_session ← deref per_session;
      if per_session =? 0 then Ret (s, Some ans)
      else
        '(rc, sessionid, cnt, b) ← unpack_session b cnt;
        if negb (rc =? OPAL_SUCCESS) then Ret (s, Some ans)
        else
          sessionid ← deref sessionid;
          found ← find_session s sessionid (sc_queues s);
          match found with
          | None => Ret (s, Some ans)
          | Some (_, sid) => get_found ans sub_command sid s
          end.

(** [orcm_scd_base_recv] for the two commands. *)
Definition recv_power (buffer : opal_buffer_t) (s : orcm_scd_base_t) : outcome (orcm_scd_base_t * option opal_buffer_t) :=
  let '(rc, command, _, b) := unpack_byte buffer 1 OPAL_UINT8 in
  if negb (rc =? OPAL_SUCCESS) then Ret (s, Some (opal_buffer_construct desc))
  else
    command ← deref command;
    if command =? ORCM_SET_POWER_COMMAND then set_power b s
    else if command =? ORCM_GET_POWER_COMMAND then get_power b s
    else Ret (s, Some (opal_buffer_construct desc)).
End Scheduler.

(** ** The operator's tool *)
Section Tool.
Variable get_mode_val : cstr -> Z.
Variable num_modes : Z.
Variable strtof : cstr -> dss_data.
Variables max_freq min_freq : dss_data.

Definition strtol (s : cstr) : Z := (strtol10 s).1.1.

(** [isdigit(s[strlen(s) - 1])] *)
Definition ends_in_digit (s : cstr) : outcome bool := c ← deref (last s); Ret (isdigit c).

(** The value that is packed, or the error. *)
Definition session_value (cmd : Z) (text : cstr) : outcome (Z + dss_data * Z) :=
  if bool_decide (cmd ∈ [ORCM_SET_POWER_BUDGET_COMMAND; ORCM_SET_POWER_WINDOW_COMMAND; ORCM_SET_POWER_OVERAGE_COMMAND;
       ORCM_SET_POWER_UNDERAGE_COMMAND; ORCM_SET_POWER_OVERAGE_TIME_COMMAND; ORCM_SET_POWER_UNDERAGE_TIME_COMMAND])
  then Ret (inr (D32 [u32 (strtol text)], OPAL_INT32))
  else if cmd =? ORCM_SET_POWER_MODE_COMMAND then
    digit ← ends_in_digit text;
    let mode := if digit : bool then i32 (strtol text) else get_mode_val text in
    if (mode <? 0) || (num_modes <=? mode) then Ret (inl OPAL_ERR_BAD_PARAM)
    else Ret (inr (D32 [u32 mode], OPAL_INT32))
  else if cmd =? ORCM_SET_POWER_FREQUENCY_COMMAND then
    digit ← ends_in_digit text;
    if digit : bool then Ret (inr (strtof text, OPAL_FLOAT))
    else if bool_decide (take 8 text = cs "MAX_FREQ") then Ret (inr (max_freq, OPAL_FLOAT))
    else if bool_decide (take 8 text = cs "MIN_FREQ") then Ret (inr (min_freq, OPAL_FLOAT))
    else Ret (inl OPAL_ERR_BAD_PARAM)
  else if cmd =? ORCM_SET_POWER_STRICT_COMMAND then
    digit ← ends_in_digit text;
    if digit : bool then Ret (inr (bool_item (negb (strtol text =? 0))))
    else if bool_decide (take 4 text = cs "true") then Ret (inr (bool_item true))
    else if bool_decide (take 5 text = cs "false") then Ret (inr (bool_item false))
    else Ret (inl OPAL_ERR_BAD_PARAM)
  else Ret (inl OPAL_ERR_BAD_PARAM).

Definition request_items (command cmd session : Z) : list (dss_data * Z) :=
  [byte_item command; byte_item (wrap 8 cmd); bool_item true; id_item session].

(** The message that is sent, or the error. *)
Definition orcm_octl_session_set (cmd : Z) (argv : list cstr) : outcome (Z + opal_buffer_t) :=
  match argv with
  | [_; _; _; id; text] =>
    '(rc, b) ← pack_items (opal_buffer_construct desc) (request_items ORCM_SET_POWER_COMMAND cmd (strtol id));
    if negb (rc =? OPAL_SUCCESS) then Ret (inl rc)
    else
      v ← session_value cmd text;
      match v with
      | inl rc => Ret (inl rc)
      | inr it =>
        '(rc, b) ← pack_item b it;
        Ret (if negb (rc =? OPAL_SUCCESS) then inl rc else inr b)
      end
  | _ => Ret (inl OPAL_ERR_BAD_PARAM)
  end.

(** What is made of the answer: the code and whether success is shown. *)
Definition session_set_answer (ans : opal_buffer_t) : outcome (Z * option bool) :=
  let '(rc, result, _, _) := unpack_int ans 1 in
  if negb (rc =? OPAL_SUCCESS) then Ret (rc, None)
  else result ← deref result; Ret (OPAL_SUCCESS, Some (result =? 0)).

Definition orcm_octl_session_get (cmd : Z) (argv : list cstr) : outcome (Z + opal_buffer_t) :=
  match argv with
  | [_; _; _; id] =>
    '(rc, b) ← pack_items (opal_buffer_construct desc) (request_items ORCM_GET_POWER_COMMAND cmd (strtol id));
    Ret (if negb (rc =? OPAL_SUCCESS) then inl rc else inr b)
  | _ => Ret (inl OPAL_ERR_BAD_PARAM)
  end.

(** The code and the value that is shown. *)
Definition session_get_answer (cmd : Z) (ans : opal_buffer_t) : outcome (Z * option dss_data) :=
  let '(rc, success, n, b) := unpack_int ans 1 in
  if negb (rc =? OPAL_SUCCESS) then Ret (rc, None)
  else
    success ← deref success;
    if negb (success =? OPAL_SUCCESS) then Ret (success, None)
    else
      match get_target cmd with
      | Some (_, type) =>
        let '(rc, param, _, _) := dss_unpack b n type in
        if negb (rc =? OPAL_SUCCESS) then Ret (rc, None) else Ret (OPAL_SUCCESS, param)
      | None => Ret (OPAL_ERR_BAD_PARAM, None)
      end.
End Tool.
End Power.
