(* ===== verification/PowerClaims.v ===== *)
(** * A power setting is read back as it was set

    The request of the tool, the scheduler's change of the session and its
    answer, then the request to read, the answer and what the tool shows. *)

From S2P Require Import Prelude CString Argv Dss DssFormat DssRoundtrip DssValue DssClaims DssText DssMessage.
From S2P Require Import ScdTypes Attributes Scheduler SchedulerClaims ScdPower.
From stdpp Require Import base strings numbers list.
From Stdlib Require Import ZArith Lia Ascii.

Open Scope Z_scope.

(** The subcommand that reads what another sets. *)
Definition reader (cmd : Z) : Z :=
  if cmd =? ORCM_SET_POWER_STRICT_COMMAND then ORCM_GET_POWER_STRICT_COMMAND else cmd + 9.

Lemma target_cases cmd key type : set_target cmd = Some (key, type) ->
  11 <= cmd <= 19 /\ get_target (reader cmd) = Some (key, type).
Proof.
  unfold set_target.
  repeat match goal with |- (if ?c =? ?d then _ else _) = _ -> _ =>
    destruct (Z.eqb_spec c d) as [->|]; [intros [= <- <-]; split; [unfold d; lia|done]|] end.
  done.
Qed.

(** The value the tool packs has the type of the attribute. *)
Lemma session_value_typed get_mode_val num_modes strtof max_freq min_freq cmd text it key type :
  session_value get_mode_val num_modes strtof max_freq min_freq cmd text = Ret (inr it) ->
  set_target cmd = Some (key, type) -> type <> OPAL_FLOAT ->
  it.2 = type /\ ((type = OPAL_INT32 /\ exists z, it.1 = D32 [z] /\ fits 4 z) \/ (type = OPAL_BOOL /\ exists x : bool, it.1 = D8 [if x then 1 else 0])).
Proof.
  intros Hv Ht Hf. unfold session_value in Hv.
  repeat (apply bind_Ret_inv in Hv as (? & _ & Hv) || match type of Hv with
  | (if bool_decide (?c ∈ ?l) then _ else _) = _ =>
      destruct (bool_decide_reflect (c ∈ l)) as [Hin|_];
      [repeat (apply elem_of_cons in Hin as [->|Hin]; [by cbn in Ht; injection Ht as _ <-; injection Hv as <-; split; [|left; split; [|eexists; split; [|apply fits_u32]]]|]);
       by apply not_elem_of_nil in Hin|]
  | (if ?c =? ?d then _ else _) = _ => destruct (Z.eqb_spec c d) as [->|]; [cbn in Ht; injection Ht as _ <-|]
  | (if ?c then _ else _) = _ => destruct c
  end); try done; injection Hv as <-; split; try done.
  1: left; split; [done|]; eexists; split; [done|apply fits_u32].
  all: right; split; [done|]; first [by exists (negb (strtol text =? 0))|by exists true|by exists false].
Qed.

(** ** Sessions *)
Lemma session_alloc_altered f sid s sid' :
  session_alloc (alter_alloc f sid s) sid' =
    (if decide (sid' = sid) then f <$> session_alloc s sid' else session_alloc s sid').
Proof.
  unfold session_alloc, alter_alloc, upd_sessions. cbn [sc_sessions]. destruct (decide (sid' = sid)) as [->|Hne].
  - rewrite list_lookup_alter_eq. destruct (sc_sessions s !! sid) as [[i [a|]]|]; done.
  - by rewrite list_lookup_alter_ne.
Qed.

Lemma find_session_ids s1 s2 id qs :
  (forall sid, a_id <$> session_alloc s1 sid = a_id <$> session_alloc s2 sid) ->
  find_session s1 id qs = find_session s2 id qs.
Proof.
  intros Hid. assert (Hin : forall l, find_in s1 id l = find_in s2 id l).
  { induction l as [|sid l IH]; [done|]. cbn. specialize (Hid sid).
    destruct (session_alloc s1 sid), (session_alloc s2 sid); cbn in *; try done. injection Hid as ->. by rewrite IH. }
  induction qs as [|q qs IH]; [done|]. cbn. rewrite Hin. by destruct (find_in s2 id (q_sessions q)) as [[]| |].
Qed.

(** ** Messages *)
Section Wire.
Context (malloc_ok : Z -> bool) (initial threshold : Z) (registered : Z -> bool).
Context (other_pack : Z -> opal_buffer_t -> dss_data -> outcome (Z * opal_buffer_t)).
Context (other_unpack : Z -> opal_buffer_t -> Z -> Z * option dss_data * opal_buffer_t).
Context (desc spare : bool).
Hypothesis Hmalloc : forall n, malloc_ok n = true.
Hypothesis Hinitial : 0 < initial < 2 ^ 31.
Hypothesis Hthreshold : 0 < threshold < 2 ^ 31.

Abbreviation item_ok := (item_ok registered).
Abbreviation enc_item := (enc_item registered).
Abbreviation packed := (packed malloc_ok initial threshold registered other_pack).
Abbreviation fits_message := (fits_message registered desc).
Abbreviation unpack_byte' := (unpack_byte malloc_ok registered other_unpack).
Abbreviation unpack_session' := (unpack_session malloc_ok registered other_unpack spare).
Abbreviation unpack_holds' := (unpack_holds malloc_ok registered other_unpack Hmalloc desc).
Abbreviation fresh_delivered' := (fresh_delivered malloc_ok initial threshold registered other_pack Hmalloc desc Hinitial Hthreshold).

Lemma id_item_ok n : item_ok (id_item n).
Proof. split; [done|]. cbn. apply Forall_singleton, fits_u64. Qed.

Lemma int32_item_ok z : fits 4 z -> item_ok (D32 [z], OPAL_INT32).
Proof. intros. split; [done|]. cbn. by apply Forall_singleton. Qed.

Lemma unpack_session_holds b n rest :
  0 <= n < 2 ^ 32 -> holds desc b (enc_item desc (id_item n) ++ rest) ->
  exists b', unpack_session' b 1 = (if spare then Ret (OPAL_SUCCESS, Some n, 1, b') else Ub) /\ holds desc b' rest.
Proof.
  intros Hn Hb. destruct (unpack_holds' b _ rest (id_item_ok n) eq_refl Hb) as (b' & E & Hb'). exists b'. split; [|done].
  unfold unpack_session. cbn [id_item snd] in E. rewrite E. cbn [id_item fst canon fmap list_fmap].
  rewrite u64_small by lia. unfold u32. rewrite wrap_small by lia. by destruct spare.
Qed.

Lemma request_items_ok command cmd n : 0 <= command < 256 -> Forall item_ok (request_items command cmd n).
Proof.
  intros Hc. unfold request_items. repeat (apply Forall_cons_iff; split); [by apply byte_item_ok| |apply bool_item_ok|apply id_item_ok|constructor].
  apply byte_item_ok. unfold wrap. apply Z.mod_pos_bound. lia.
Qed.

Lemma request_fits command cmd n : fits_message (request_items command cmd n).
Proof. unfold fits_message, request_items. rewrite !bind_cons. cbn. by destruct desc. Qed.

Lemma request_int_fits command cmd n z : fits_message (request_items command cmd n ++ [(D32 [z], OPAL_INT32)]).
Proof. unfold fits_message, request_items. cbn [app]. rewrite !bind_cons. cbn. by destruct desc. Qed.

Lemma request_bool_fits command cmd n x : fits_message (request_items command cmd n ++ [bool_item x]).
Proof. unfold fits_message, request_items. cbn [app]. rewrite !bind_cons. cbn. by destruct desc. Qed.

(** The head of a request. *)
Lemma request_holds b command cmd n rest :
  0 <= command < 256 -> 0 <= cmd < 256 -> 0 <= n < 2 ^ 32 ->
  holds desc b ((request_items command cmd n ++ rest) ≫= enc_item desc) ->
  exists b1 b2 b3 b4, unpack_byte' b 1 OPAL_UINT8 = (OPAL_SUCCESS, Some command, 1, b1) /\
    unpack_byte' b1 1 OPAL_UINT8 = (OPAL_SUCCESS, Some cmd, 1, b2) /\
    unpack_byte' b2 1 OPAL_BOOL = (OPAL_SUCCESS, Some 1, 1, b3) /\
    unpack_session' b3 1 = (if spare then Ret (OPAL_SUCCESS, Some n, 1, b4) else Ub) /\ holds desc b4 (rest ≫= enc_item desc).
Proof.
  intros Hc Hm Hn Hb. unfold request_items in Hb. cbn [app] in Hb. rewrite !bind_cons in Hb.
  rewrite wrap_small in Hb by lia.
  destruct (unpack_byte_holds malloc_ok registered other_unpack Hmalloc desc b command OPAL_UINT8 _ (byte_item_ok _ _ Hc) Hb) as (b1 & E1 & Hb1).
  destruct (unpack_byte_holds malloc_ok registered other_unpack Hmalloc desc b1 cmd OPAL_UINT8 _ (byte_item_ok _ _ Hm) Hb1) as (b2 & E2 & Hb2).
  destruct (unpack_byte_holds malloc_ok registered other_unpack Hmalloc desc b2 1 OPAL_BOOL _ (bool_item_ok _ true) Hb2) as (b3 & E3 & Hb3).
  destruct (unpack_session_holds b3 n _ Hn Hb3) as (b4 & E4 & Hb4).
  by exists b1, b2, b3, b4.
Qed.

(** The value of a power attribute: a number of four bytes or a flag. *)
Definition power_datum (it : dss_data * Z) : Prop :=
  (exists z, it = (D32 [z], OPAL_INT32) /\ fits 4 z) \/ (exists x, it = bool_item x).

Lemma datum_facts it : power_datum it ->
  item_ok it /\ data_length it.1 = 1%nat /\ canon it.1 = it.1 /\
  exists sh, shape_of it.2 = Some sh /\ copy_data sh it.1 = Ret it.1.
Proof.
  intros [(z & -> & Hz)|(x & ->)].
  - split; [by apply int32_item_ok|]. split; [done|]. split; [done|]. exists SInt32. done.
  - split; [apply bool_item_ok|]. split; [done|]. split; [done|]. exists SInt8. done.
Qed.

Lemma request_datum_fits command cmd n it : power_datum it -> fits_message (request_items command cmd n ++ [it]).
Proof. intros [(z & -> & _)|(x & ->)]; [apply request_int_fits|apply request_bool_fits]. Qed.

Lemma answer_datum_fits it : power_datum it -> fits_message [int_item OPAL_SUCCESS; it].
Proof. intros [(z & -> & _)|(x & ->)]; unfold fits_message; rewrite !bind_cons; cbn; by destruct desc. Qed.

(** ** The scheduler *)
Section Session.
Context (send_rc : orte_process_name_t -> Z) (my_scheduler : orte_process_name_t) (uninit : Z).
Abbreviation recv' := (recv_power malloc_ok initial threshold registered other_pack other_unpack desc spare send_rc my_scheduler uninit).
Abbreviation holds_items b items := (holds desc b (items ≫= enc_item desc)).
Abbreviation delivers := (delivers registered desc).

(** The session with its new constraints; a running one is announced. *)
Definition changed (q : orcm_queue_t) (sid : nat) (alloc : orcm_alloc_t) (l : list orte_attribute_t) (s : orcm_scd_base_t)
    : orcm_scd_base_t :=
  let s := alter_alloc (set_constraints l) sid s in
  if strcmp0 (q_name q) (cs "running") then upd_sent (fun m => m ++ [(my_scheduler, SetPower (set_constraints l alloc))]) s else s.

Lemma changed_alloc q sid alloc l s sid' :
  session_alloc s sid = Ret alloc ->
  session_alloc (changed q sid alloc l s) sid' = if decide (sid' = sid) then Ret (set_constraints l alloc) else session_alloc s sid'.
Proof.
  intros Ha. unfold changed. destruct (strcmp0 (q_name q) (cs "running")).
  1: change (session_alloc (upd_sent _ _) sid') with (session_alloc (alter_alloc (set_constraints l) sid s) sid').
  all: rewrite session_alloc_altered; destruct (decide (sid' = sid)) as [->|]; [by rewrite Ha|done].
Qed.

Lemma changed_queues q sid alloc l s : sc_queues (changed q sid alloc l s) = sc_queues s.
Proof. unfold changed. by destruct (strcmp0 (q_name q) (cs "running")). Qed.

Lemma changed_find q sid alloc l s id :
  session_alloc s sid = Ret alloc ->
  find_session (changed q sid alloc l s) id (sc_queues (changed q sid alloc l s)) = find_session s id (sc_queues s).
Proof.
  intros Ha. rewrite changed_queues. apply find_session_ids. intros sid'. rewrite (changed_alloc _ _ _ _ _ _ Ha).
  destruct (decide (sid' = sid)) as [->|]; [by rewrite Ha|done].
Qed.

Lemma answer_sent result s :
  exists ans, answer_with malloc_ok initial threshold registered other_pack (opal_buffer_construct desc) result s = Ret (s, Some ans) /\
    delivers ans [int_item result].
Proof.
  destruct (fresh_delivered' (int_item result) []) as (ans & Hp & Hb); [apply Forall_singleton, int_item_ok|apply fits_int|].
  apply packed_cons in Hp as (b1 & E1 & ->%packed_nil). exists b1. split; [|done]. unfold answer_with. by rewrite E1.
Qed.

Lemma tell_rm_sent q sid alloc l s :
  session_alloc s sid = Ret alloc -> (strcmp0 (q_name q) (cs "running") = true -> send_rc my_scheduler = OPAL_SUCCESS) ->
  tell_rm send_rc my_scheduler q sid OPAL_SUCCESS (alter_alloc (set_constraints l) sid s) = Ret (OPAL_SUCCESS, changed q sid alloc l s).
Proof.
  intros Ha Hsend. unfold tell_rm, changed. destruct (strcmp0 (q_name q) (cs "running")); [|done].
  rewrite session_alloc_altered, decide_True, Ha by done. cbn [fmap outcome_fmap]. rewrite bind_Ret.
  unfold send_buffer_nb. by rewrite Hsend.
Qed.

Abbreviation set_found' := (set_found malloc_ok initial threshold registered other_pack other_unpack send_rc my_scheduler).
Abbreviation get_found' := (get_found malloc_ok initial threshold registered other_pack).
Abbreviation answer_with' := (answer_with malloc_ok initial threshold registered other_pack).

(** A request reaches the search for its session. *)
Lemma recv_set s cmd n rest b :
  0 <= n < 2 ^ 32 -> 0 <= cmd < 256 -> holds_items b (request_items ORCM_SET_POWER_COMMAND cmd n ++ rest) ->
  exists b', holds_items b' rest /\ recv' b s =
    (if spare then
       found ← find_session s n (sc_queues s);
       match found with
       | None => answer_with' (opal_buffer_construct desc) uninit s
       | Some (q, sid) => set_found' (opal_buffer_construct desc) (Some cmd) 1 b' q sid s
       end
     else Ub).
Proof.
  intros Hn Hcmd Hb.
  destruct (request_holds b ORCM_SET_POWER_COMMAND cmd n rest ltac:(done) Hcmd Hn Hb) as (b1 & b2 & b3 & b4 & E1 & E2 & E3 & E4 & Hb4).
  exists b4. split; [done|]. unfold recv_power. rewrite E1. cbn [negb Z.eqb OPAL_SUCCESS deref]. rewrite bind_Ret.
  change (ORCM_SET_POWER_COMMAND =? ORCM_SET_POWER_COMMAND) with true. cbv iota. unfold set_power.
  rewrite E2. cbn [negb Z.eqb OPAL_SUCCESS]. rewrite E3. cbn [negb Z.eqb OPAL_SUCCESS deref]. rewrite bind_Ret. cbn [Z.eqb].
  rewrite E4. by destruct spare.
Qed.

Lemma recv_get s cmd n b :
  0 <= n < 2 ^ 32 -> 0 <= cmd < 256 -> holds_items b (request_items ORCM_GET_POWER_COMMAND cmd n) ->
  recv' b s =
    (if spare then
       found ← find_session s n (sc_queues s);
       match found with
       | None => Ret (s, Some (opal_buffer_construct desc))
       | Some (_, sid) => get_found' (opal_buffer_construct desc) (Some cmd) sid s
       end
     else Ub).
Proof.
  intros Hn Hcmd Hb. rewrite <- (app_nil_r (request_items _ _ _)) in Hb.
  destruct (request_holds b ORCM_GET_POWER_COMMAND cmd n [] ltac:(done) Hcmd Hn Hb) as (b1 & b2 & b3 & b4 & E1 & E2 & E3 & E4 & _).
  unfold recv_power. rewrite E1. cbn [negb Z.eqb OPAL_SUCCESS deref]. rewrite bind_Ret.
  change (ORCM_GET_POWER_COMMAND =? ORCM_SET_POWER_COMMAND) with false.
  change (ORCM_GET_POWER_COMMAND =? ORCM_GET_POWER_COMMAND) with true. cbv iota. unfold get_power.
  rewrite E2. cbn [negb Z.eqb OPAL_SUCCESS]. rewrite E3. cbn [negb Z.eqb OPAL_SUCCESS deref]. rewrite bind_Ret. cbn [Z.eqb].
  rewrite E4. by destruct spare.
Qed.

Lemma set_handled s n q sid alloc cmd it key b :
  spare = true -> 0 <= n < 2 ^ 32 -> power_datum it -> set_target cmd = Some (key, it.2) ->
  find_session s n (sc_queues s) = Ret (Some (q, sid)) -> session_alloc s sid = Ret alloc ->
  match valued (a_constraints alloc) key with Some (ty, _) => ty = it.2 | None => True end ->
  (strcmp0 (q_name q) (cs "running") = true -> send_rc my_scheduler = OPAL_SUCCESS) ->
  holds_items b (request_items ORCM_SET_POWER_COMMAND cmd n ++ [it]) ->
  exists l ans, recv' b s = Ret (changed q sid alloc l s, Some ans) /\ delivers ans [int_item OPAL_SUCCESS] /\
    valued l key = Some (it.2, it.1) /\ (forall k, k <> key -> valued l k = valued (a_constraints alloc) k).
Proof.
  intros Hspare Hn Hit Ht Hf Ha Hty Hsend Hb. destruct (datum_facts it Hit) as (Hok & Hlen & Hcan & sh & Hsh & Hcopy).
  destruct (target_cases _ _ _ Ht) as [Hcmd _]. destruct (recv_set s cmd n [it] b Hn ltac:(lia) Hb) as (b4 & Hb4 & E).
  rewrite bind_cons in Hb4. destruct (unpack_holds' b4 it _ Hok Hlen Hb4) as (b5 & E5 & _).
  destruct (set_valued key ORTE_ATTR_GLOBAL it.1 it.1 it.2 sh Hsh Hcopy _ Hty) as (l & El & Hl & Hother & _).
  destruct (answer_sent OPAL_SUCCESS (changed q sid alloc l s)) as (ans & Eans & Hans).
  exists l, ans. split; [|done]. rewrite E, Hspare, Hf, bind_Ret. unfold set_found. cbn [deref].
  rewrite Ha, !bind_Ret, Ht, E5. cbn [negb Z.eqb OPAL_SUCCESS deref].
  rewrite bind_Ret, Hcan, El, bind_Ret, (tell_rm_sent q sid alloc l s Ha Hsend), bind_Ret. exact Eans.
Qed.

Lemma get_handled s n q sid alloc cmd it key b :
  spare = true -> 0 <= n < 2 ^ 32 -> 0 <= cmd < 256 -> power_datum it -> get_target cmd = Some (key, it.2) ->
  find_session s n (sc_queues s) = Ret (Some (q, sid)) -> session_alloc s sid = Ret alloc ->
  valued (a_constraints alloc) key = Some (it.2, it.1) ->
  holds_items b (request_items ORCM_GET_POWER_COMMAND cmd n) ->
  exists ans, recv' b s = Ret (s, Some ans) /\ delivers ans [int_item OPAL_SUCCESS; it].
Proof.
  intros Hspare Hn Hcmd Hit Ht Hf Ha Hv Hb. destruct (datum_facts it Hit) as (Hok & _ & _ & sh & Hsh & Hcopy).
  destruct (fresh_delivered' (int_item OPAL_SUCCESS) [it]) as (ans & Hp & Hans).
  { apply Forall_cons_iff. split; [apply int_item_ok|by apply Forall_singleton]. }
  { by apply answer_datum_fits. }
  apply packed_cons in Hp as (a1 & P1 & Hp). apply packed_cons in Hp as (a2 & P2 & ->%packed_nil).
  exists a2. split; [|done]. rewrite (recv_get s cmd n b Hn Hcmd Hb), Hspare, Hf, bind_Ret. unfold get_found. cbn [deref].
  rewrite Ha, !bind_Ret, Ht, get_valued, Hv, Z.eqb_refl.
  cbn [negb]. rewrite (unload_copy it.2 sh it.1 Hsh Hcopy), !bind_Ret. cbn [negb]. rewrite P1, bind_Ret. cbn [negb Z.eqb OPAL_SUCCESS deref].
  rewrite bind_Ret. destruct it as [d ty]. cbn [fst snd]. by rewrite P2.
Qed.

(** ** The tool *)
Lemma set_message get_mode_val num_modes strtof max_freq min_freq cmd a0 a1 a2 id text v :
  session_value get_mode_val num_modes strtof max_freq min_freq cmd text = Ret (inr v) -> power_datum v ->
  exists m, orcm_octl_session_set malloc_ok initial threshold registered other_pack desc get_mode_val num_modes strtof max_freq min_freq
      cmd [a0; a1; a2; id; text] = Ret (inr m) /\
    delivers m (request_items ORCM_SET_POWER_COMMAND cmd (strtol id) ++ [v]).
Proof.
  intros Hv Hit. destruct (datum_facts v Hit) as (Hok & _).
  destruct (fresh_delivered' (byte_item ORCM_SET_POWER_COMMAND) (tail (request_items ORCM_SET_POWER_COMMAND cmd (strtol id)) ++ [v]))
    as (m & P & H).
  { change (Forall item_ok (request_items ORCM_SET_POWER_COMMAND cmd (strtol id) ++ [v])). apply Forall_app.
    split; [by apply request_items_ok|by apply Forall_singleton]. }
  { by apply request_datum_fits. }
  exists m. split; [|exact H]. unfold orcm_octl_session_set.
  apply (packed_app _ _ _ _ _ _ (request_items ORCM_SET_POWER_COMMAND cmd (strtol id)) [v]) in P as (b1 & P & P').
  rewrite (pack_items_packed _ _ _ _ _ _ _ _ P), bind_Ret. cbn [negb Z.eqb OPAL_SUCCESS]. rewrite Hv, bind_Ret.
  apply packed_cons in P' as (b2 & -> & ->%packed_nil). done.
Qed.

Lemma get_message cmd a0 a1 a2 id :
  exists m, orcm_octl_session_get malloc_ok initial threshold registered other_pack desc cmd [a0; a1; a2; id] = Ret (inr m) /\
    delivers m (request_items ORCM_GET_POWER_COMMAND cmd (strtol id)).
Proof.
  destruct (fresh_delivered' (byte_item ORCM_GET_POWER_COMMAND) (tail (request_items ORCM_GET_POWER_COMMAND cmd (strtol id))))
    as (m & P & H); [by apply request_items_ok|apply request_fits|].
  exists m. split; [|exact H]. unfold orcm_octl_session_get.
  by rewrite (pack_items_packed _ _ _ _ _ _ (request_items ORCM_GET_POWER_COMMAND cmd (strtol id)) _ P).
Qed.

Lemma set_answered ans : holds_items ans [int_item OPAL_SUCCESS] ->
  session_set_answer malloc_ok registered other_unpack ans = Ret (OPAL_SUCCESS, Some true).
Proof.
  intros A. rewrite bind_cons in A.
  destruct (int_holds malloc_ok registered other_unpack Hmalloc desc _ OPAL_SUCCESS _ ltac:(done) A) as (b & E & _).
  unfold session_set_answer. by rewrite E.
Qed.

Lemma get_answered cmd key v ans : get_target cmd = Some (key, v.2) -> power_datum v ->
  holds_items ans [int_item OPAL_SUCCESS; v] ->
  session_get_answer malloc_ok registered other_unpack cmd ans = Ret (OPAL_SUCCESS, Some v.1).
Proof.
  intros Hget Hit A. destruct (datum_facts v Hit) as (Hok & Hlen & Hcan & _). rewrite !bind_cons in A.
  destruct (int_holds malloc_ok registered other_unpack Hmalloc desc _ OPAL_SUCCESS _ ltac:(done) A) as (b & E & Hb).
  destruct (unpack_holds' b v _ Hok Hlen Hb) as (b' & E' & _).
  unfold session_get_answer. rewrite E. cbn [negb Z.eqb OPAL_SUCCESS deref]. rewrite bind_Ret. cbn [negb Z.eqb OPAL_SUCCESS].
  rewrite Hget, E'. by rewrite Hcan.
Qed.

(** C13: an operator who sets a power parameter of a session and reads it afterwards is told that it is set and then
    shown the value: through the message of the tool, the attributes of the session's allocation and the answers.
    The other attributes of the session and the other sessions stay as they are, and the resource manager is told
    exactly if the session is running, when the message to it can be sent.  Assumed: the session is queued, its number
    is below 2^32, the attribute does not have another type already, and the four bytes behind the scheduler's
    variable [sessionid] are unused on a little-endian machine ([spare]); the scheduler unpacks eight bytes into that
    variable of four, and [power_session_overflow] shows that every such request is undefined without them.  The
    frequency, a float that travels as rounded text, is left out. *)
Theorem power_set_get get_mode_val num_modes strtof max_freq min_freq s cmd key type a0 a1 a2 id text v q sid alloc :
  spare = true -> set_target cmd = Some (key, type) -> type <> OPAL_FLOAT ->
  session_value get_mode_val num_modes strtof max_freq min_freq cmd text = Ret (inr v) -> 0 <= strtol id < 2 ^ 32 ->
  find_session s (strtol id) (sc_queues s) = Ret (Some (q, sid)) -> session_alloc s sid = Ret alloc ->
  match valued (a_constraints alloc) key with Some (ty, _) => ty = type | None => True end ->
  (strcmp0 (q_name q) (cs "running") = true -> send_rc my_scheduler = OPAL_SUCCESS) ->
  exists m1 l ans1 m2 ans2,
    orcm_octl_session_set malloc_ok initial threshold registered other_pack desc get_mode_val num_modes strtof max_freq min_freq
      cmd [a0; a1; a2; id; text] = Ret (inr m1) /\
    (rb ← deliver desc m1; recv' rb s) = Ret (changed q sid alloc l s, Some ans1) /\
    (rb ← deliver desc ans1; session_set_answer malloc_ok registered other_unpack rb) = Ret (OPAL_SUCCESS, Some true) /\
    orcm_octl_session_get malloc_ok initial threshold registered other_pack desc (reader cmd) [a0; a1; a2; id] = Ret (inr m2) /\
    (rb ← deliver desc m2; recv' rb (changed q sid alloc l s)) = Ret (changed q sid alloc l s, Some ans2) /\
    (rb ← deliver desc ans2; session_get_answer malloc_ok registered other_unpack (reader cmd) rb) = Ret (OPAL_SUCCESS, Some v.1) /\
    forall k, k <> key -> valued l k = valued (a_constraints alloc) k.
Proof.
  intros Hspare Ht Hfl Hv Hn Hf Ha Hty Hsend. destruct (target_cases _ _ _ Ht) as [Hcmd Hget].
  destruct (session_value_typed _ _ _ _ _ _ _ _ _ _ Hv Ht Hfl) as [<- Hv1].
  assert (Hit : power_datum v).
  { destruct v as [d ty]. cbn in *. destruct Hv1 as [(-> & z & -> & Hz)|(-> & x & ->)]; [left; by exists z|right; by exists x]. }
  assert (Hr : 0 <= reader cmd < 256) by (unfold reader, ORCM_GET_POWER_STRICT_COMMAND; zcase; lia).
  destruct (set_message _ _ _ _ _ cmd a0 a1 a2 id text v Hv Hit) as (m1 & E1 & rb1 & D1 & H1).
  destruct (get_message (reader cmd) a0 a1 a2 id) as (m2 & E2 & rb2 & D2 & H2).
  destruct (set_handled s (strtol id) q sid alloc cmd v key rb1 Hspare Hn Hit Ht Hf Ha Hty Hsend H1)
    as (l & ans1 & R1 & (ra1 & D3 & A1) & Hl & Hother).
  destruct (get_handled (changed q sid alloc l s) (strtol id) q sid (set_constraints l alloc) (reader cmd) v key rb2 Hspare Hn Hr Hit)
    as (ans2 & R2 & ra2 & D4 & A2); [done|by rewrite changed_find|by rewrite (changed_alloc _ _ _ _ _ _ Ha), decide_True|done|exact H2|].
  exists m1, l, ans1, m2, ans2. rewrite D1, D2, D3, D4, !bind_Ret.
  split_and!; [done|done|by apply set_answered|done|done|by eapply get_answered|done].
Qed.

(** Where the four bytes behind [sessionid] are in use, every request of the
    tool that names a session is undefined behaviour: a set request and a get
    request alike, whatever the session and the value. *)
Theorem power_session_overflow s cmd n rest b :
  spare = false -> 0 <= n < 2 ^ 32 -> 0 <= cmd < 256 ->
  holds_items b (request_items ORCM_SET_POWER_COMMAND cmd n ++ rest) \/ holds_items b (request_items ORCM_GET_POWER_COMMAND cmd n) ->
  recv' b s = Ub.
Proof.
  intros Hspare Hn Hcmd [Hb|Hb].
  - destruct (recv_set s cmd n rest b Hn Hcmd Hb) as (b' & _ & ->). by rewrite Hspare.
  - by rewrite (recv_get s cmd n b Hn Hcmd Hb), Hspare.
Qed.

(** A set request for a session that does not exist is answered with whatever
    the variable of the result happens to hold. *)
Theorem power_unknown_session s cmd n it b :
  spare = true -> 0 <= n < 2 ^ 32 -> 0 <= cmd < 256 -> find_session s n (sc_queues s) = Ret None ->
  holds_items b (request_items ORCM_SET_POWER_COMMAND cmd n ++ [it]) ->
  exists ans, recv' b s = Ret (s, Some ans) /\ delivers ans [int_item uninit].
Proof.
  intros Hspare Hn Hcmd Hf Hb. destruct (recv_set s cmd n [it] b Hn Hcmd Hb) as (b' & _ & E).
  rewrite E, Hspare, Hf, bind_Ret. apply answer_sent.
Qed.

(** Reading a window that was never set is answered with success and no
    value, which the tool takes for a broken message. *)
Theorem power_missing_window s n q sid alloc b :
  spare = true -> 0 <= n < 2 ^ 32 -> find_session s n (sc_queues s) = Ret (Some (q, sid)) -> session_alloc s sid = Ret alloc ->
  valued (a_constraints alloc) ORCM_PWRMGMT_POWER_WINDOW_KEY = None ->
  holds_items b (request_items ORCM_GET_POWER_COMMAND ORCM_GET_POWER_WINDOW_COMMAND n) ->
  exists ans, recv' b s = Ret (s, Some ans) /\ delivers ans [int_item OPAL_SUCCESS].
Proof.
  intros Hspare Hn Hf Ha Hv Hb.
  rewrite (recv_get s ORCM_GET_POWER_WINDOW_COMMAND n b Hn ltac:(done) Hb), Hspare, Hf, bind_Ret. unfold get_found.
  cbn [deref]. rewrite Ha, !bind_Ret.
  change (get_target ORCM_GET_POWER_WINDOW_COMMAND) with (Some (ORCM_PWRMGMT_POWER_WINDOW_KEY, OPAL_INT32)). cbv iota beta.
  rewrite get_valued, Hv, bind_Ret. apply answer_sent.
Qed.
End Session.
End Wire.

(** A running session of number 7 and the budget of 300 watts. *)
Definition power_alloc : orcm_alloc_t := set_id 7 (demo_alloc 2).
Definition power_queue : orcm_queue_t := MkQueue (cs "running") 0 [0%nat].
Definition power_state : orcm_scd_base_t :=
  upd_sessions (fun _ => [MkSession 7 (Some power_alloc)]) (upd_queues (fun _ => [power_queue]) demo_state).

Abbreviation demo_recv := (recv_power (fun _ => true) 128 1024 (fun _ => false) no_pack no_unpack false true send_ok (0, 0) 0).

Lemma power_set_get_witness :
  exists m1 s' ans1 m2 ans2,
    orcm_octl_session_set (fun _ => true) 128 1024 (fun _ => false) no_pack false (fun _ => 0) 4 (fun _ => D32 [0]) (D32 [0]) (D32 [0])
      ORCM_SET_POWER_BUDGET_COMMAND [cs "session"; cs "set"; cs "budget"; cs "7"; cs "300"] = Ret (inr m1) /\
    (rb ← deliver false m1; demo_recv rb power_state) = Ret (s', Some ans1) /\
    orcm_octl_session_get (fun _ => true) 128 1024 (fun _ => false) no_pack false ORCM_GET_POWER_BUDGET_COMMAND
      [cs "session"; cs "set"; cs "budget"; cs "7"] = Ret (inr m2) /\
    (rb ← deliver false m2; demo_recv rb s') = Ret (s', Some ans2) /\
    (rb ← deliver false ans2; session_get_answer (fun _ => true) (fun _ => false) no_unpack ORCM_GET_POWER_BUDGET_COMMAND rb) =
      Ret (OPAL_SUCCESS, Some (D32 [300])).
Proof.
  destruct (power_set_get (fun _ => true) 128 1024 (fun _ => false) no_pack no_unpack false true (fun _ => eq_refl) ltac:(lia) ltac:(lia)
    send_ok (0, 0) 0 (fun _ => 0) 4 (fun _ => D32 [0]) (D32 [0]) (D32 [0]) power_state ORCM_SET_POWER_BUDGET_COMMAND
    ORCM_PWRMGMT_POWER_BUDGET_KEY OPAL_INT32 (cs "session") (cs "set") (cs "budget") (cs "7") (cs "300") (D32 [300], OPAL_INT32)
    power_queue 0 power_alloc) as (m1 & l & ans1 & m2 & ans2 & E1 & E2 & _ & E3 & E4 & E5 & _).
  1, 2, 6, 7: reflexivity.
  - discriminate.
  - vm_compute. reflexivity.
  - vm_compute. split; [discriminate|reflexivity].
  - exact I.
  - intros _. reflexivity.
  - exists m1, (changed (0, 0) power_queue 0 power_alloc l power_state), ans1, m2, ans2. split_and!; assumption.
Defined.
