(* ===== verification/Float64.v ===== *)
(** * Binary64 arithmetic

    The [double] of the C code, as the executable IEEE 754 specification of
    the Standard Library ([SpecFloat], precision 53, greatest exponent 1024,
    rounding to nearest, ties to even), with the comparison lemmas the
    analytics components need: the comparison is a total order away from NaN.
    Comparisons with NaN are false, as in C. *)

From stdpp Require Import base list.
From Stdlib Require Import ZArith Lia SpecFloat.

Open Scope Z_scope.

Definition double : Type := spec_float.

Definition prec : Z := 53.
Definition emax : Z := 1024.

Definition dadd : double -> double -> double := SFadd prec emax.
Definition dsub : double -> double -> double := SFsub prec emax.
Definition dmul : double -> double -> double := SFmul prec emax.
Definition ddiv : double -> double -> double := SFdiv prec emax.
Definition dsqrt : double -> double := SFsqrt prec emax.

(** [a < b], [a <= b] and [a == b]. *)
Definition dltb : double -> double -> bool := SFltb.
Definition dleb : double -> double -> bool := SFleb.
Definition deqb : double -> double -> bool := SFeqb.

(** Conversion of an integer. *)
Definition of_int (z : Z) : double := binary_normalize prec emax z 0 false.

Definition d0 : double := S754_zero false.
(** The greatest finite value, and the least normal positive value. *)
Definition DBL_MAX : double := S754_finite false 9007199254740991 971.
Definition DBL_MIN : double := S754_finite false 4503599627370496 (-1074).
Definition dopp : double -> double := SFopp.

Definition is_nan (d : double) : bool := match d with S754_nan => true | _ => false end.

(** ** The order

    Away from NaN the comparison is that of the triples of sign class,
    exponent and significand. *)
Definition rank (d : double) : Z * Z * Z :=
  match d with
  | S754_nan => (0, 0, 0)
  | S754_zero _ => (0, 0, 0)
  | S754_infinity s => (if s then -2 else 2, 0, 0)
  | S754_finite true m e => (-1, - e, - Zpos m)
  | S754_finite false m e => (1, e, Zpos m)
  end.

Definition lex_le (a b : Z * Z * Z) : Prop :=
  let '(a1, a2, a3) := a in let '(b1, b2, b3) := b in
  a1 < b1 \/ (a1 = b1 /\ (a2 < b2 \/ (a2 = b2 /\ a3 <= b3))).

Definition lex_lt (a b : Z * Z * Z) : Prop :=
  let '(a1, a2, a3) := a in let '(b1, b2, b3) := b in
  a1 < b1 \/ (a1 = b1 /\ (a2 < b2 \/ (a2 = b2 /\ a3 < b3))).

Lemma lex_le_trans a b c : lex_le a b -> lex_le b c -> lex_le a c.
Proof. destruct a as [[]], b as [[]], c as [[]]. unfold lex_le. lia. Qed.

Lemma lex_not_lt a b : ~ lex_lt a b <-> lex_le b a.
Proof. destruct a as [[]], b as [[]]. unfold lex_le, lex_lt. lia. Qed.

Lemma pos_compare_lt m n : Pos.compare_cont Eq m n = Lt <-> Zpos m < Zpos n.
Proof. change (Pos.compare_cont Eq m n) with (Pos.compare m n). by rewrite Pos.compare_lt_iff. Qed.

Lemma pos_compare_gt m n : Pos.compare_cont Eq m n = Gt <-> Zpos n < Zpos m.
Proof. change (Pos.compare_cont Eq m n) with (Pos.compare m n). rewrite Pos.compare_gt_iff. lia. Qed.

Lemma dltb_rank a b : is_nan a = false -> is_nan b = false -> dltb a b = true <-> lex_lt (rank a) (rank b).
Proof.
  destruct a as [sa|sa| |sa ma ea], b as [sb|sb| |sb mb eb]; try done; intros _ _;
    unfold dltb, SFltb, SFcompare, rank, lex_lt;
    try (by destruct sa, sb; split; intros; lia || done);
    try (by destruct sa; split; intros; lia || done); try (by destruct sb; split; intros; lia || done);
    try (by split; intros; lia || done).
  destruct sa, sb; try (split; intros; lia || done); destruct (Z.compare_spec ea eb);
    try (split; intros; lia || done).
  - destruct (Pos.compare_cont Eq ma mb) eqn:E; cbn; split; intros; try done; try lia;
      rewrite ?pos_compare_gt in E; try lia.
    + assert (~ Zpos mb < Zpos ma); [|lia]. intros H'. apply pos_compare_gt in H'. congruence.
    + assert (~ Zpos mb < Zpos ma); [|lia]. intros H'. apply pos_compare_gt in H'. congruence.
  - destruct (Pos.compare_cont Eq ma mb) eqn:E; cbn; split; intros; try done; try lia;
      rewrite ?pos_compare_lt in E; try lia.
    + assert (~ Zpos ma < Zpos mb); [|lia]. intros H'. apply pos_compare_lt in H'. congruence.
    + assert (~ Zpos ma < Zpos mb); [|lia]. intros H'. apply pos_compare_lt in H'. congruence.
Qed.

Lemma compare_sym a b : SFcompare b a = option_map CompOpp (SFcompare a b).
Proof.
  destruct a as [sa|sa| |sa ma ea], b as [sb|sb| |sb mb eb]; cbn; try done;
    try (by destruct sa, sb); try (by destruct sa); try (by destruct sb).
  f_equal. rewrite (Z.compare_antisym ea eb).
  change (Pos.compare_cont Eq mb ma) with (Pos.compare mb ma). rewrite (Pos.compare_antisym ma mb).
  change (Pos.compare_cont Eq ma mb) with (Pos.compare ma mb).
  destruct sa, sb, (ea ?= eb); cbn; try done; by rewrite ?CompOpp_involutive.
Qed.

Lemma compare_nan a b : SFcompare a b = None <-> is_nan a = true \/ is_nan b = true.
Proof. destruct a, b; cbn; naive_solver. Qed.

Lemma dleb_not_lt a b : is_nan a = false -> is_nan b = false -> dleb a b = negb (dltb b a).
Proof.
  intros Ha Hb. unfold dleb, dltb, SFleb, SFltb. rewrite (compare_sym a b).
  destruct (SFcompare a b) as [[]|] eqn:E; try done. apply compare_nan in E. destruct E; congruence.
Qed.

Lemma dleb_rank a b : is_nan a = false -> is_nan b = false -> dleb a b = true <-> lex_le (rank a) (rank b).
Proof.
  intros Ha Hb. rewrite dleb_not_lt by done. rewrite <- lex_not_lt, <- dltb_rank by done.
  destruct (dltb b a); naive_solver.
Qed.

Lemma dleb_trans a b c : is_nan b = false -> dleb a b = true -> dleb b c = true -> dleb a c = true.
Proof.
  intros Hb Hab Hbc. destruct (is_nan a) eqn:Ha; [by destruct a|].
  destruct (is_nan c) eqn:Hc; [by destruct c, b|].
  rewrite dleb_rank in * by done. by eapply lex_le_trans.
Qed.

Lemma dleb_refl a : is_nan a = false -> dleb a a = true.
Proof. intros Ha. apply dleb_rank; [done..|]. destruct (rank a) as [[]]. unfold lex_le. lia. Qed.

Lemma dltb_le a b : dltb a b = true -> dleb a b = true.
Proof. unfold dltb, dleb, SFltb, SFleb. by destruct (SFcompare a b) as [[]|]. Qed.

Lemma dltb_nan a b : dltb a b = true -> is_nan a = false /\ is_nan b = false.
Proof. by destruct a, b. Qed.

(** ** Extremes of a list

    The value that is kept when each new value replaces it if it is smaller
    (greater). *)
Definition keep_min (m d : double) : double := if dltb d m then d else m.
Definition keep_max (m d : double) : double := if dltb m d then d else m.

Lemma keep_min_le m d : is_nan m = false ->
  is_nan (keep_min m d) = false /\ dleb (keep_min m d) m = true /\
  (is_nan d = false -> dleb (keep_min m d) d = true).
Proof.
  intros Hm. unfold keep_min. destruct (dltb d m) eqn:E.
  - destruct (dltb_nan _ _ E) as [Hd _]. split_and!; [done|by apply dltb_le|by apply dleb_refl].
  - split_and!; [done|by apply dleb_refl|]. intros Hd. by rewrite dleb_not_lt, E.
Qed.

Lemma keep_max_ge m d : is_nan m = false ->
  is_nan (keep_max m d) = false /\ dleb m (keep_max m d) = true /\
  (is_nan d = false -> dleb d (keep_max m d) = true).
Proof.
  intros Hm. unfold keep_max. destruct (dltb m d) eqn:E.
  - destruct (dltb_nan _ _ E) as [_ Hd]. split_and!; [done|by apply dltb_le|by apply dleb_refl].
  - split_and!; [done|by apply dleb_refl|]. intros Hd. by rewrite dleb_not_lt, E.
Qed.

(** [x] is a least (greatest) value of [l]. *)
Definition least (x : double) (l : list double) : Prop :=
  x ∈ l /\ Forall (fun d => is_nan d = false -> dleb x d = true) l.
Definition greatest (x : double) (l : list double) : Prop :=
  x ∈ l /\ Forall (fun d => is_nan d = false -> dleb d x = true) l.

Lemma fold_min_least m l : is_nan m = false ->
  is_nan (foldl keep_min m l) = false /\ least (foldl keep_min m l) (m :: l).
Proof.
  revert m. induction l as [|d l IH]; intros m Hm; cbn.
  { split; [done|]. split; [by left|]. constructor; [by intros; apply dleb_refl|done]. }
  destruct (keep_min_le m d Hm) as (Hn & Hle & Hd).
  destruct (IH (keep_min m d) Hn) as (Hn' & Hin & Hall). split; [done|].
  apply Forall_cons_iff in Hall as [Hk Hall]. split.
  - apply elem_of_cons in Hin as [Hin| Hin]; [|by do 2 right].
    rewrite Hin. unfold keep_min. destruct (dltb d m); [right; left|left].
  - constructor; [intros _; apply (dleb_trans _ (keep_min m d)); auto|].
    constructor; [|done]. intros Hd'. apply (dleb_trans _ (keep_min m d)); auto.
Qed.

Lemma fold_max_greatest m l : is_nan m = false ->
  is_nan (foldl keep_max m l) = false /\ greatest (foldl keep_max m l) (m :: l).
Proof.
  revert m. induction l as [|d l IH]; intros m Hm; cbn.
  { split; [done|]. split; [by left|]. constructor; [by intros; apply dleb_refl|done]. }
  destruct (keep_max_ge m d Hm) as (Hn & Hle & Hd).
  destruct (IH (keep_max m d) Hn) as (Hn' & Hin & Hall). split; [done|].
  apply Forall_cons_iff in Hall as [Hk Hall]. split.
  - apply elem_of_cons in Hin as [Hin| Hin]; [|by do 2 right].
    rewrite Hin. unfold keep_max. destruct (dltb m d); [right; left|left].
  - constructor; [intros _; apply (dleb_trans _ (keep_max m d)); auto|].
    constructor; [|done]. intros Hd'. apply (dleb_trans _ (keep_max m d)); auto.
Qed.

(** Values that are never kept. *)
Lemma fold_max_stuck m l : Forall (fun d => dltb m d = false) l -> foldl keep_max m l = m.
Proof. induction 1 as [|d l Hd Hl IH]; [done|]. cbn. unfold keep_max at 2. by rewrite Hd. Qed.
