(* ===== verification/OrcmUtil.v ===== *)
(** * Values and the helpers of [orcm/util/utils.c]

    [orcm_value_t] is a key, a type, the member of the [data] union the type
    selects, and a unit.  Reading another member of the union is undefined
    behaviour ([deref_string], [as_timeval]), except that a pointer may be
    compared with NULL.  Allocation succeeds, so a copy
    fails only on a type [orcm_util_copy_opal_value_data] does not know.
    The clock read by [gettimeofday] is the parameter [now]. *)

From S2P Require Import Prelude CString Dss DssValue Float64.
From stdpp Require Import base strings list.
From Stdlib Require Import ZArith Lia Ascii.

Open Scope Z_scope.

Definition ORTE_ERR_RECV_MORE_THAN_POSTED : Z := OPAL_ERR_MAX - 2.
Definition ORCM_UTIL_HASH_MULTIPLIER : Z := 31.

(** The union [opal_value_t.data]; [VInt] stands for the flag, byte, size,
    pid and integer members, [VFloat] holds the exact [double] of a [float]. *)
Inductive value_data : Type :=
| VInt (z : Z)
| VString (s : option cstr)
| VBytes (bo : list Z)
| VFloat (f : double)
| VDouble (d : double)
| VTimeval (tv_sec tv_usec : Z)
| VPtr.

Record orcm_value_t : Type := MkOrcmValue {
  ov_key : option cstr;
  ov_type : Z;
  ov_data : value_data;
  ov_units : option cstr
}.

Record orcm_analytics_value_t : Type := MkAnalyticsValue {
  av_key : option (list orcm_value_t);
  av_non_compute_data : option (list orcm_value_t);
  av_compute_data : option (list orcm_value_t)
}.

(** [strncmp(s, lit, strlen(lit)) == 0]. *)
Definition starts_with (lit s : cstr) : bool := bool_decide (take (length lit) s = lit).

(** The member [data.string] read as a pointer: the bytes of another member
    are a NULL pointer when they are zero and a wild one otherwise. *)
Inductive string_ptr : Type := SNull | SStr (s : cstr) | SWild.

Definition data_string (v : orcm_value_t) : string_ptr :=
  match ov_data v with
  | VString (Some s) => SStr s
  | VString None | VInt 0 | VBytes [] | VTimeval 0 _ => SNull
  | VFloat (SpecFloat.S754_zero false) | VDouble (SpecFloat.S754_zero false) => SNull
  | _ => SWild
  end.

Definition is_null (p : string_ptr) : bool := match p with SNull => true | _ => false end.
Definition deref_string (p : string_ptr) : outcome cstr := match p with SStr s => Ret s | _ => Ub end.

Definition as_timeval (v : orcm_value_t) : outcome (Z * Z) :=
  match ov_data v with VTimeval s u => Ret (s, u) | _ => Ub end.

(** ** Copying and loading *)

(** The types the two switches know. *)
Definition known_type (type : Z) : bool :=
  bool_decide (type ∈ [OPAL_BOOL; OPAL_BYTE; OPAL_STRING; OPAL_SIZE; OPAL_PID; OPAL_INT; OPAL_INT8;
    OPAL_INT16; OPAL_INT32; OPAL_INT64; OPAL_UINT; OPAL_UINT8; OPAL_UINT16; OPAL_UINT32; OPAL_UINT64;
    OPAL_BYTE_OBJECT; OPAL_FLOAT; OPAL_DOUBLE; OPAL_TIMEVAL; OPAL_PTR]).

Definition orcm_util_copy_orcm_value (src : orcm_value_t) : option orcm_value_t :=
  if known_type (ov_type src) then Some src else None.

Definition orcm_util_load_orcm_value (key : option cstr) (data : value_data) (type : Z)
    (units : option cstr) : option orcm_value_t :=
  if known_type type then Some (MkOrcmValue key type data units) else None.

Definition orcm_util_append_orcm_value (l : list orcm_value_t) (key : option cstr) (data : option value_data)
    (type : Z) (units : option cstr) : Z * list orcm_value_t :=
  match key, data with
  | Some _, Some d =>
    match orcm_util_load_orcm_value key d type units with
    | Some v => (OPAL_SUCCESS, l ++ [v])
    | None => (OPAL_ERR_OUT_OF_RESOURCE, l)
    end
  | _, _ => (OPAL_ERR_BAD_PARAM, l)
  end.

Definition orcm_util_prepend_orcm_value (l : list orcm_value_t) (key : option cstr) (data : option value_data)
    (type : Z) (units : option cstr) : Z * list orcm_value_t :=
  match key, data with
  | Some _, Some d =>
    match orcm_util_load_orcm_value key d type units with
    | Some v => (OPAL_SUCCESS, v :: l)
    | None => (OPAL_ERR_OUT_OF_RESOURCE, l)
    end
  | _, _ => (OPAL_ERR_BAD_PARAM, l)
  end.

(** Copies up to the first item that cannot be copied. *)
Fixpoint copy_items (src dest : list orcm_value_t) : Z * list orcm_value_t :=
  match src with
  | [] => (OPAL_SUCCESS, dest)
  | v :: src' =>
    match orcm_util_copy_orcm_value v with
    | Some v' => copy_items src' (dest ++ [v'])
    | None => (OPAL_ERR_OUT_OF_RESOURCE, dest)
    end
  end.

Definition orcm_util_copy_list_items (src : option (list orcm_value_t)) (dest : list orcm_value_t)
    : Z * list orcm_value_t :=
  match src with None => (OPAL_ERROR, dest) | Some src => copy_items src dest end.

Definition orcm_util_copy_opal_list (src : option (list orcm_value_t)) : option (list orcm_value_t) :=
  match src with
  | None => None
  | Some _ =>
    let '(rc, dest) := orcm_util_copy_list_items src [] in
    if rc =? OPAL_SUCCESS then Some dest else None
  end.

Definition orcm_util_load_orcm_analytics_value (key non_compute compute : option (list orcm_value_t))
    : orcm_analytics_value_t :=
  MkAnalyticsValue (Some (default [] key)) (Some (default [] non_compute)) (Some (default [] compute)).

Definition orcm_util_load_orcm_analytics_value_compute (key non_compute compute : option (list orcm_value_t))
    : orcm_analytics_value_t := MkAnalyticsValue key non_compute compute.

Definition time_key : cstr := cs "ctime".

(** The items that are not the sample time, copied. *)
Fixpoint copy_untimed (src dest : list orcm_value_t) : option (list orcm_value_t) :=
  match src with
  | [] => Some dest
  | v :: src' =>
    if match ov_key v with None => true | Some k => negb (starts_with time_key k) end then
      match orcm_util_copy_orcm_value v with
      | Some v' => copy_untimed src' (dest ++ [v'])
      | None => None
      end
    else copy_untimed src' dest
  end.

Definition orcm_util_update_analytics_time (now : Z * Z) (non_compute : option (list orcm_value_t))
    : option (list orcm_value_t) :=
  match copy_untimed (default [] non_compute) [] with
  | None => None
  | Some l =>
    let '(rc, l') := orcm_util_append_orcm_value l (Some time_key) (Some (VTimeval now.1 now.2)) OPAL_TIMEVAL None in
    if rc =? OPAL_SUCCESS then Some l' else None
  end.

Definition orcm_util_load_analytics_time_compute (now : Z * Z)
    (key non_compute compute : option (list orcm_value_t)) : orcm_analytics_value_t :=
  MkAnalyticsValue key (orcm_util_update_analytics_time now non_compute) compute.

(** ** Numbers *)

(** An unsigned 64-bit value is read through the [int64] member. *)
Definition orcm_util_get_number_orcm_value (v : orcm_value_t) : double :=
  match ov_data v with
  | VInt z =>
    if bool_decide (ov_type v ∈ [OPAL_INT; OPAL_INT8; OPAL_INT16; OPAL_INT32; OPAL_INT64; OPAL_UINT;
                                OPAL_UINT8; OPAL_UINT16; OPAL_UINT32]) then of_int z
    else if ov_type v =? OPAL_UINT64 then of_int (i64 z)
    else d0
  | VFloat f => if ov_type v =? OPAL_FLOAT then f else d0
  | VDouble d => if ov_type v =? OPAL_DOUBLE then d else d0
  | _ => d0
  end.

(** [hash = 31 * hash + byte] over the bytes of a key, in [uint64_t]. *)
Definition orcm_util_create_hash_key (key : cstr) : Z :=
  foldl (fun hash c => u64 (ORCM_UTIL_HASH_MULTIPLIER * hash + char_Z c)) 0 key.

(** ** Durations *)
Definition get_seconds_multiplier (type : ascii) : Z :=
  if eqc type "d" then 86400 else if eqc type "h" then 3600 else if eqc type "m" then 60 else 1.

Definition check_numeric (value : cstr) : Z :=
  if forallb isdigit value then OPAL_SUCCESS else OPAL_ERR_BAD_PARAM.

Definition isoctal (c : ascii) : bool := isdigit c && (char_Z c <? 56).

Fixpoint span_octal (s : cstr) : cstr :=
  match s with c :: s' => if isoctal c then c :: span_octal s' else [] | [] => [] end.

Definition oct_value (ds : cstr) : Z := foldl (fun a c => 8 * a + (char_Z c - 48)) 0 ds.

(** [strtol(s, NULL, 0)] of a string of digits: a leading 0 announces octal. *)
Definition strtol0_digits (s : cstr) : Z :=
  match s with
  | c :: s' => Z.min LONG_MAX (if eqc c "0" then oct_value (span_octal s') else dec_value 0 s)
  | [] => 0
  end.

(** The last character of the text is its unit unless it is a digit; an empty
    text is read before its start.  The product is a [long]. *)
Definition orcm_util_get_time_in_sec (time : option cstr) : outcome Z :=
  match time with
  | None => Ret 0
  | Some time =>
    type ← deref (last time);
    let timeval := if isdigit type then time else take (length time - 1) time in
    let multiplier := get_seconds_multiplier type in
    if check_numeric timeval =? OPAL_SUCCESS then
      let seconds := strtol0_digits timeval * multiplier in
      if LONG_MAX <? seconds then Ub else Ret seconds
    else Ret 0
  end.

(** ** Properties *)
Lemma starts_with_iff lit s : starts_with lit s = true <-> exists r, s = lit ++ r.
Proof.
  unfold starts_with. rewrite bool_decide_eq_true. split.
  - intros H. exists (drop (length lit) s). by rewrite <- H at 1; rewrite take_drop.
  - intros [r ->]. by rewrite take_app_length.
Qed.

Lemma copy_items_app src dest :
  Forall (fun v => known_type (ov_type v) = true) src -> copy_items src dest = (OPAL_SUCCESS, dest ++ src).
Proof.
  intros H. revert dest. induction H as [|v src Hv Hsrc IH]; intros dest; cbn.
  - by rewrite app_nil_r.
  - unfold orcm_util_copy_orcm_value. rewrite Hv. rewrite IH, <- app_assoc. done.
Qed.

(** A positive number is printed without a leading zero. *)
Lemma dec_head n : 0 < n -> exists c r, dec n = c :: r /\ eqc c "0" = false.
Proof.
  intros Hn. destruct (ndigits_spec n ltac:(lia)) as (Hlt & H1 & Hge). specialize (Hge ltac:(lia)).
  unfold dec. destruct (ndigits n) as [|k]; [lia|]. change (S k) with (1 + k)%nat.
  rewrite dec_pad_app. cbn [dec_pad app]. eexists _, _. split; [done|].
  replace (Z.of_nat (S k) - 1) with (Z.of_nat k) in Hge by lia.
  rewrite Nat2Z.inj_succ, Z.pow_succ_r in Hlt by lia.
  assert (Hq : 1 <= n / 10 ^ Z.of_nat k < 10).
  { split; [apply Z.div_le_lower_bound; lia|apply Z.div_lt_upper_bound; lia]. }
  rewrite Z.mod_small by lia. apply eqc_ne. intros E.
  pose proof (digit_char_Z (n / 10 ^ Z.of_nat k) ltac:(lia)) as Hc. rewrite E in Hc. change (char_Z "0") with 48 in Hc. lia.
Qed.

Lemma strtol0_dec n : 0 < n <= LONG_MAX -> strtol0_digits (dec n) = n.
Proof.
  intros Hn. destruct (dec_head n ltac:(lia)) as (c & r & E & Hc). unfold strtol0_digits.
  rewrite E, Hc, <- E, dec_value_dec by lia. lia.
Qed.

Lemma strtol0_octal ds :
  Forall (fun c => isoctal c = true) ds -> strtol0_digits ("0"%char :: ds) = Z.min LONG_MAX (oct_value ds).
Proof.
  intros H. cbn [strtol0_digits]. rewrite eqc_refl. do 2 f_equal.
  induction H as [|c ds Hc Hds IH]; [done|]. cbn. by rewrite Hc, IH.
Qed.

Lemma check_numeric_digits ds : Forall (fun c => isdigit c = true) ds -> check_numeric ds = OPAL_SUCCESS.
Proof.
  intros H. unfold check_numeric.
  assert (forallb isdigit ds = true) as ->; [|done].
  apply forallb_forall. intros c Hc. rewrite Forall_forall in H. apply H. by apply list_elem_of_In.
Qed.

Lemma last_digits ds : ds <> [] -> Forall (fun c => isdigit c = true) ds ->
  exists c, last ds = Some c /\ isdigit c = true.
Proof.
  intros Hne H. destruct (last ds) as [c|] eqn:E; [|by apply last_None in E].
  exists c. split; [done|]. rewrite Forall_forall in H. apply H. by apply last_Some_elem_of.
Qed.

(** A digit is no unit. *)
Lemma digit_multiplier c : isdigit c = true -> get_seconds_multiplier c = 1.
Proof.
  intros H%isdigit_range. unfold get_seconds_multiplier.
  rewrite !eqc_ne; [done|..]; intros ->; vm_compute in H; by destruct H as [_ H].
Qed.

Definition unit_text (unit : option ascii) : cstr := match unit with Some u => [u] | None => [] end.
Definition unit_seconds (unit : option ascii) : Z := default 1 (get_seconds_multiplier <$> unit).

Lemma multiplier_pos c : 0 < get_seconds_multiplier c.
Proof. unfold get_seconds_multiplier. repeat case_match; lia. Qed.

Lemma time_in_sec_digits ds unit :
  ds <> [] -> Forall (fun c => isdigit c = true) ds -> (forall u, unit = Some u -> isdigit u = false) ->
  strtol0_digits ds * unit_seconds unit <= LONG_MAX ->
  orcm_util_get_time_in_sec (Some (ds ++ unit_text unit)) = Ret (strtol0_digits ds * unit_seconds unit).
Proof.
  intros Hne Hds Hu Hmax. destruct (last_digits ds Hne Hds) as (c & Hc & Hdc).
  unfold orcm_util_get_time_in_sec. destruct unit as [u|]; cbn [unit_text unit_seconds] in *.
  - rewrite last_snoc. cbn [deref]. rewrite bind_Ret, (Hu u eq_refl), length_app. cbn [length].
    replace (length ds + 1 - 1)%nat with (length ds) by lia. rewrite take_app_length.
    rewrite check_numeric_digits by done. cbn in Hmax |- *. by rewrite (proj2 (Z.ltb_ge _ _) Hmax).
  - rewrite app_nil_r, Hc. cbn [deref]. rewrite bind_Ret, Hdc, check_numeric_digits by done.
    rewrite digit_multiplier by done. cbn in Hmax |- *. by rewrite (proj2 (Z.ltb_ge _ _) Hmax).
Qed.

(** A duration is its number times its unit (days, hours, minutes,
    or seconds for any other character and for none), for every positive
    number printed in decimal; but a leading zero makes the same digits octal,
    so that [010m] is eight minutes. *)
Theorem util_time_in_sec n unit ds :
  (forall u, unit = Some u -> isdigit u = false) ->
  (0 < n -> n * unit_seconds unit <= LONG_MAX ->
   orcm_util_get_time_in_sec (Some (dec n ++ unit_text unit)) = Ret (n * unit_seconds unit)) /\
  (Forall (fun c => isoctal c = true) ds -> oct_value ds * unit_seconds unit <= LONG_MAX ->
   orcm_util_get_time_in_sec (Some ("0"%char :: ds ++ unit_text unit)) = Ret (oct_value ds * unit_seconds unit)).
Proof.
  intros Hu. assert (Hp : 0 < unit_seconds unit) by (destruct unit; cbn; [apply multiplier_pos|lia]). split.
  - intros Hn Hmax. rewrite time_in_sec_digits; rewrite ?strtol0_dec; try done; try nia.
    + destruct (dec_head n Hn) as (c & r & -> & _). done.
    + apply dec_digits.
  - intros Hds Hmax. assert (0 <= oct_value ds).
    { unfold oct_value. assert (forall a, 0 <= a -> 0 <= foldl (fun a c => 8 * a + (char_Z c - 48)) a ds) as Hf; [|apply Hf; lia].
      clear Hmax. induction Hds as [|c ds Hc Hds IH]; intros a Ha; cbn; [done|]. apply IH.
      apply andb_prop in Hc as [Hc%isdigit_range _]. lia. }
    change ("0"%char :: ds ++ unit_text unit) with (("0"%char :: ds) ++ unit_text unit).
    assert (Hle : oct_value ds <= LONG_MAX) by nia.
    rewrite time_in_sec_digits; rewrite ?strtol0_octal by done; rewrite ?Z.min_r by done; try done.
    constructor; [done|]. eapply Forall_imp; [|exact Hds]. intros c [? _]%andb_prop. done.
Qed.

Lemma util_time_in_sec_witness :
  orcm_util_get_time_in_sec (Some (cs "15m")) = Ret 900 /\ orcm_util_get_time_in_sec (Some (cs "010m")) = Ret 480.
Proof.
  destruct (util_time_in_sec 15 (Some "m"%char) (cs "10")) as [H1 H2]; [by intros u [= <-]|].
  split; [apply H1; [lia|vm_compute; discriminate] | apply H2; [repeat constructor|vm_compute; discriminate]].
Defined.
