(* ===== verification/FindItems.v ===== *)
(** * Named values in a list ([orcm_util_find_items] of [orcm/util/utils.c])

    The database clients look for the parameters they know in the list of
    values they are given, and mark in a bit map which values they found; the
    values without a mark are the data. *)

From S2P Require Import Prelude CString Bitmap BitmapClaims OrcmUtil.
From stdpp Require Import base numbers list gmap fin_sets.
From Stdlib Require Import ZArith Lia.

Open Scope Z_scope.

Section Model.
Variable malloc_ok : Z -> bool.

(** The loop over the list; without keys the inner loop does not look at the
    value.  What [opal_bitmap_set_bit] returns is not looked at. *)
Fixpoint find_items_loop (keys : list cstr) (l : list orcm_value_t) (i num_found : Z) (items : list (option orcm_value_t)) (map : opal_bitmap_t)
    : outcome (Z * list (option orcm_value_t) * opal_bitmap_t) :=
  match l with
  | [] => Ret (num_found, items, map)
  | kv :: l' =>
    match keys, ov_key kv with
    | [], _ => find_items_loop keys l' (i + 1) num_found items map
    | _, None => Ret (num_found, items, map)
    | _, Some key =>
      match find_index (strcmp0 key) keys with
      | None => find_items_loop keys l' (i + 1) num_found items map
      | Some j =>
        if (length items <=? j)%nat then Ub
        else
          '(_, map) ← opal_bitmap_set_bit malloc_ok (Some map) i;
          map ← deref map;
          find_items_loop keys l' (i + 1) (num_found + 1) (<[j := Some kv]> items) map
      end
    end
  end.

Definition orcm_util_find_items (keys : list cstr) (l : list orcm_value_t) (items : list (option orcm_value_t)) (map : opal_bitmap_t)
    : outcome (Z * list (option orcm_value_t) * opal_bitmap_t) :=
  find_items_loop keys l 0 0 items map.
End Model.

(** ** What is found *)
Definition named (keys : list cstr) (kv : orcm_value_t) : bool :=
  match ov_key kv with Some key => bool_decide (key ∈ keys) | None => false end.

(** The last value of that name, or what was there before. *)
Definition latest (key : cstr) (l : list orcm_value_t) (old : option orcm_value_t) : option orcm_value_t :=
  foldl (fun o kv => if bool_decide (ov_key kv = Some key) then Some kv else o) old l.

Lemma find_key key keys : find_index (strcmp0 key) keys = None <-> key ∉ keys.
Proof.
  rewrite find_index_None, Forall_forall. setoid_rewrite strcmp0_false. split; [intros H Hin; by apply (H key)|].
  intros H k Hk ->. done.
Qed.

Lemma find_key_Some key keys j : find_index (strcmp0 key) keys = Some j -> keys !! j = Some key.
Proof. intros (k & Hk & ->%strcmp0_true & _)%find_index_Some. done. Qed.

Section Found.
Variable malloc_ok : Z -> bool.
Hypothesis Hmalloc : forall n, malloc_ok n = true.
Variable keys : list cstr.
Hypothesis Hkeys : NoDup keys.
Hypothesis Hsome : keys <> [].

(** The table after one value. *)
Lemma insert_latest j key (items : list (option orcm_value_t)) kv l k old : keys !! j = Some key -> items !! k = Some old -> ov_key kv = Some key ->
  forall key', keys !! k = Some key' -> (exists o, <[j := Some kv]> items !! k = Some o /\ latest key' l o = latest key' (kv :: l) old).
Proof.
  intros Hj Hk Hkv key' Hk'. cbn [latest foldl]. rewrite Hkv. destruct (Nat.eq_dec j k) as [->|Hne].
  - rewrite list_lookup_insert_eq by (by eapply lookup_lt_Some). rewrite Hj in Hk'. injection Hk' as <-. eexists. split; [done|]. by rewrite bool_decide_true.
  - rewrite list_lookup_insert_ne by done. exists old. split; [done|]. rewrite bool_decide_false; [done|]. intros [= ->].
    by apply Hne, (NoDup_lookup keys j k key').
Qed.

Lemma keys_match {A} (x y : A) : match keys with [] => x | _ :: _ => y end = y.
Proof. by destruct keys. Qed.

Lemma find_loop l : forall i num items map ws s, bm_rep map ws s -> bm_max_size map = INT_MAX -> 0 <= i -> i + Z.of_nat (length l) <= 2 ^ 30 ->
  Forall (fun kv => is_Some (ov_key kv)) l -> length items = length keys ->
  exists items' map' ws' s', find_items_loop malloc_ok keys l i num items map = Ret (num + Z.of_nat (length (filter (fun kv => named keys kv = true) l)), items', map') /\
    bm_rep map' ws' s' /\ (forall b, b ∈ s' <-> b ∈ s \/ exists k kv, l !! k = Some kv /\ b = i + Z.of_nat k /\ named keys kv = true) /\
    length items' = length keys /\ forall j key old, keys !! j = Some key -> items !! j = Some old -> items' !! j = Some (latest key l old).
Proof.
  induction l as [|kv l IH]; intros i num items map ws s H Hmax Hi Hlen Hl Hitems.
  { exists items, map, ws, s. cbn. rewrite Z.add_0_r. split_and!; [done|done| |done|by intros ? ? ? _ ->]. intros b. split; [by left|intros [|(k & ? & Hk & _)]; [done|]]. by rewrite lookup_nil in Hk. }
  apply Forall_cons in Hl as [[key Hkey] Hl]. cbn [length] in Hlen. cbn [find_items_loop]. rewrite Hkey. rewrite keys_match.
  rewrite filter_cons. destruct (find_index (strcmp0 key) keys) as [j|] eqn:Ej.
  - apply find_key_Some in Ej. pose proof (lookup_lt_Some _ _ _ Ej). rewrite (proj2 (Nat.leb_gt _ _)) by lia.
    assert (Hn : named keys kv = true) by (unfold named; rewrite Hkey; apply bool_decide_eq_true; by eapply list_elem_of_lookup_2).
    destruct (set_bit_spec malloc_ok Hmalloc map ws s i H) as (map1 & ws1 & -> & H1 & Hm1 & _); [lia|rewrite Hmax; unfold INT_MAX; lia|]. rewrite bind_Ret. cbn [deref]. rewrite bind_Ret.
    destruct (IH (i + 1) (num + 1) (<[j := Some kv]> items) map1 ws1 _ H1) as (items' & map' & ws' & s' & -> & H' & Hs' & Hl' & Ht'); [congruence|lia|lia|done|by rewrite length_insert|].
    exists items', map', ws', s'. rewrite decide_True by done. cbn [length]. split_and!; [do 3 f_equal; lia|done| |done|].
    + intros b. rewrite Hs', elem_of_union, elem_of_singleton. split.
      * intros [[->|]|(k & v & Hk & -> & Hv)]; [right; exists 0%nat, kv; split_and!; [done|lia|done]|by left|right; exists (S k), v; split_and!; [done|lia|done]].
      * intros [|([|k] & v & Hk & -> & Hv)]; [by left; right|left; left; lia|right; exists k, v; split_and!; [done|lia|done]].
    + intros k key' old Hk Hold. destruct (insert_latest j key items kv l k old Ej Hold Hkey key' Hk) as (o & Ho & <-). by apply Ht'.
  - apply find_key in Ej. assert (Hn : named keys kv = false) by (unfold named; rewrite Hkey; by apply bool_decide_eq_false).
    destruct (IH (i + 1) num items map ws s H) as (items' & map' & ws' & s' & -> & H' & Hs' & Hl' & Ht'); [done|lia|lia|done|done|].
    exists items', map', ws', s'. rewrite decide_False by congruence. split_and!; [done|done| |done|].
    + intros b. rewrite Hs'. split.
      * intros [|(k & v & Hk & -> & Hv)]; [by left|right; exists (S k), v; split_and!; [done|lia|done]].
      * intros [|([|k] & v & Hk & -> & Hv)]; [by left|cbn in Hk; congruence|right; exists k, v; split_and!; [done|lia|done]].
    + intros k key' old Hk Hold. rewrite (Ht' k key' old Hk Hold). cbn [latest foldl]. rewrite Hkey, bool_decide_false; [done|].
      intros [= ->]. apply Ej. by eapply list_elem_of_lookup_2.
Qed.

(** A client that looks for its parameters in a list of named values, with a
    fresh bit map of the size of the list: it gets for each parameter the last
    value of that name, the number of values that are parameters, and exactly
    these are marked, so that the loop over the unmarked ones sees the data. *)
Theorem util_find_items l items :
  l <> [] -> Z.of_nat (length l) <= 2 ^ 30 -> Forall (fun kv => is_Some (ov_key kv)) l -> length items = length keys ->
  exists bm items' bm', opal_bitmap_init malloc_ok (Some opal_bitmap_construct) (Z.of_nat (length l)) = Ret (OPAL_SUCCESS, Some bm) /\
    orcm_util_find_items malloc_ok keys l items bm = Ret (Z.of_nat (length (filter (fun kv => named keys kv = true) l)), items', bm') /\
    (forall j key old, keys !! j = Some key -> items !! j = Some old -> items' !! j = Some (latest key l old)) /\
    (forall i kv, l !! i = Some kv -> opal_bitmap_is_set_bit (Some bm') (Z.of_nat i) = Ret (named keys kv)).
Proof.
  intros Hne Hlen Hl Hitems. destruct (bm_init_spec malloc_ok Hmalloc (Z.of_nat (length l)) INT_MAX) as (bm & ws & Ei & H & Hm & _);
    [destruct l; [done|cbn [length] in *; unfold INT_MAX; lia]|done|].
  destruct (find_loop l 0 0 items bm ws ∅ H Hm) as (items' & bm' & ws' & s' & E & H' & Hs & _ & Ht); [lia|lia|done|done|].
  exists bm, items', bm'. split_and!; [done|exact E|done|]. intros i kv Hi. rewrite (is_set_bit_spec _ _ _ _ H'). f_equal.
  destruct (named keys kv) eqn:En; [apply bool_decide_eq_true|apply bool_decide_eq_false]; rewrite Hs.
  - right. exists i, kv. split_and!; [done|lia|done].
  - intros [?%not_elem_of_empty|(k & v & Hk & E' & Hv)]; [done|]. assert (k = i) as -> by lia. congruence.
Qed.
End Found.
