(* ===== verification/AnalyticsBase.v ===== *)
(** * The analytics framework ([orcm/mca/analytics/base])

    Workflow data, RAS events ([analytics_base_event.c]), the helpers of
    [analytics_base_stubs.c] and [analytics_base_db.c] the plugins share, and
    the suppression of repeated events: [orcm_analytics_base_filter_events]
    keeps, per event identity, the time of the last event it let through in
    the hash table of the step's module.

    The table holds pointers to [malloc]ed time stamps, so the store is the
    table together with the cells; a freed cell is [None].  [calloc_ok] is
    the allocator of the table, [suppress_repeat] the MCA parameter with the
    default interval. *)

From S2P Require Import Prelude CString Argv HashTable Dss DssValue Float64 OrcmUtil.
From stdpp Require Import base strings list gmap.
From Stdlib Require Import ZArith Lia Ascii.

Open Scope Z_scope.

Definition ORCM_RAS_SEVERITY_EMERG : Z := 0.
Definition ORCM_RAS_SEVERITY_ALERT : Z := 1.
Definition ORCM_RAS_SEVERITY_CRIT : Z := 2.
Definition ORCM_RAS_SEVERITY_ERROR : Z := 3.
Definition ORCM_RAS_SEVERITY_WARNING : Z := 4.
Definition ORCM_RAS_SEVERITY_NOTICE : Z := 5.
Definition ORCM_RAS_SEVERITY_INFO : Z := 6.
Definition ORCM_RAS_SEVERITY_DEBUG : Z := 7.
Definition ORCM_RAS_SEVERITY_UNKNOWN : Z := 8.
Definition ORCM_RAS_EVENT_SENSOR : Z := 0.
Definition ORCM_RAS_EVENT_EXCEPTION : Z := 1.
Definition ORCM_STORAGE_TYPE_DATABASE : Z := 0.
Definition ORCM_STORAGE_TYPE_NOTIFICATION : Z := 1.
Definition ORCM_STORAGE_TYPE_UNDEFINED : Z := 3.
Definition KEY_SIZE : nat := 1000.

Record orcm_ras_event_t : Type := MkRas {
  ev_reporter : list orcm_value_t;
  ev_type : Z;
  ev_timestamp : Z;
  ev_severity : Z;
  ev_data : list orcm_value_t;
  ev_description : list orcm_value_t
}.

Record orcm_workflow_step_t : Type := MkStep {
  ws_attributes : list orcm_value_t;
  ws_analytic : option cstr;
  ws_step_id : Z
}.

Record orcm_workflow_t : Type := MkWorkflow {
  wf_name : option cstr;
  wf_hostname_regex : option cstr;
  wf_workflow_id : Z
}.

(** The module of the step is the state its [analyze] is given beside the
    caddy; [wc_imod] says whether there is one. *)
Record orcm_workflow_caddy_t : Type := MkWfCaddy {
  wc_wf_step : option orcm_workflow_step_t;
  wc_wf : option orcm_workflow_t;
  wc_hash_key : Z;
  wc_analytics_value : option orcm_analytics_value_t;
  wc_imod : bool
}.

Record event_filter : Type := MkFilter {
  ef_severity : Z;
  ef_category : option cstr;
  ef_time : Z
}.

(** The time stamps of the last events. *)
Record event_store : Type := MkStore {
  es_table : opal_hash_table_t key_uint64 nat;
  es_cells : list (option Z)
}.

(** [printf("%s")] of a NULL pointer, as glibc prints it. *)
Definition fmt_s (s : option cstr) : cstr := default (cs "(null)") s.

(** [strncat] into a buffer of [size] bytes. *)
Definition strncat (size : nat) (buf s : cstr) : outcome cstr :=
  if (length buf + length s <? size)%nat then Ret (buf ++ s) else Ub.

Definition orcm_analytics_base_assert_caddy_data (cbdata : option orcm_workflow_caddy_t) : Z :=
  match cbdata with
  | None => OPAL_ERR_BAD_PARAM
  | Some c =>
    match wc_wf c, wc_wf_step c, wc_analytics_value c with
    | Some _, Some _, Some _ => if wc_imod c then OPAL_SUCCESS else OPAL_ERR_BAD_PARAM
    | _, _, _ => OPAL_ERR_BAD_PARAM
    end
  end.

(** ** Times *)

(** Microseconds are divided by [10E6]. *)
Definition orcm_analytics_base_timeval_to_uint64 (tv_sec tv_usec : Z) : Z :=
  let time_usec := ddiv (of_int tv_usec) (of_int 10000000) in
  if dleb (ddiv (of_int 1) (of_int 2)) time_usec then u64 (u64 tv_sec + 1) else u64 tv_sec.

(** [strstr(s, t) != NULL]. *)
Fixpoint contains (s t : cstr) : bool :=
  starts_with t s || match s with [] => false | _ :: s' => contains s' t end.

Fixpoint orcm_analytics_base_get_sample_time (l : list orcm_value_t) : outcome (Z * Z) :=
  match l with
  | [] => Ret (OPAL_ERR_BAD_PARAM, 0)
  | v :: l' =>
    match ov_key v with
    | None => Ret (OPAL_ERR_BAD_PARAM, 0)
    | Some k =>
      if contains k (cs "time") then
        '(s, us) ← as_timeval v;
        Ret (OPAL_SUCCESS, orcm_analytics_base_timeval_to_uint64 s us)
      else orcm_analytics_base_get_sample_time l'
    end
  end.

(** ** Attributes *)
Fixpoint orcm_analytics_get_hostname_from_attributes (attributes : list orcm_value_t) : outcome cstr :=
  match attributes with
  | [] => Ret (cs "All")
  | a :: attributes' =>
    if bool_decide (ov_key a = Some (cs "hostname")) then deref_string (data_string a)
    else orcm_analytics_get_hostname_from_attributes attributes'
  end.

Fixpoint orcm_analytics_base_db_check (attributes : list orcm_value_t) : outcome bool :=
  match attributes with
  | [] => Ret false
  | a :: attributes' =>
    k ← deref (ov_key a);
    if strcmp0 k (cs "db") then
      d ← deref_string (data_string a);
      Ret (strcmp0 d (cs "yes"))
    else orcm_analytics_base_db_check attributes'
  end.

Definition orcm_analytics_base_data_key (key : option cstr) (wf : orcm_workflow_t)
    (step : orcm_workflow_step_t) : cstr :=
  fmt_s (wf_name wf) ++ cs "_workflow" ++ fmt_d (wf_workflow_id wf) ++ cs "-step" ++ fmt_d (ws_step_id step) ++
  cs "_" ++ fmt_s (ws_analytic step) ++ cs ":" ++ fmt_s key ++ cs "_" ++ fmt_s (wf_hostname_regex wf).

Definition orcm_analytics_event_get_severity (severity : cstr) : Z :=
  if strcmp0 severity (cs "emerg") then ORCM_RAS_SEVERITY_EMERG
  else if strcmp0 severity (cs "alert") then ORCM_RAS_SEVERITY_ALERT
  else if strcmp0 severity (cs "crit") then ORCM_RAS_SEVERITY_CRIT
  else if strcmp0 severity (cs "error") then ORCM_RAS_SEVERITY_ERROR
  else if strcmp0 severity (cs "warn") then ORCM_RAS_SEVERITY_WARNING
  else if strcmp0 severity (cs "notice") then ORCM_RAS_SEVERITY_NOTICE
  else if strcmp0 severity (cs "info") then ORCM_RAS_SEVERITY_INFO
  else if strcmp0 severity (cs "debug") then ORCM_RAS_SEVERITY_DEBUG
  else ORCM_RAS_SEVERITY_UNKNOWN.

(** ** RAS events *)
Definition with_description (f : list orcm_value_t -> list orcm_value_t) (ev : orcm_ras_event_t)
    : orcm_ras_event_t :=
  MkRas (ev_reporter ev) (ev_type ev) (ev_timestamp ev) (ev_severity ev) (ev_data ev) (f (ev_description ev)).

Definition orcm_analytics_base_event_set_description (ev : orcm_ras_event_t) (key : cstr) (data : value_data)
    (type : Z) (units : option cstr) : Z * orcm_ras_event_t :=
  match orcm_util_load_orcm_value (Some key) data type units with
  | None => (OPAL_ERR_OUT_OF_RESOURCE, ev)
  | Some v => (OPAL_SUCCESS, with_description (fun l => l ++ [v]) ev)
  end.

Fixpoint orcm_analytics_base_event_set_time (src_list : list orcm_value_t) : outcome Z :=
  match src_list with
  | [] => Ret 0
  | v :: l =>
    k ← deref (ov_key v);
    if strcmp0 (cs "ctime") k then '(s, _) ← as_timeval v; Ret s
    else orcm_analytics_base_event_set_time l
  end.

Definition orcm_analytics_base_event_create (data : orcm_analytics_value_t) (type severity : Z)
    : outcome (option orcm_ras_event_t) :=
  let '(rc, reporter) := orcm_util_copy_list_items (av_key data) [] in
  if negb (rc =? OPAL_SUCCESS) then Ret None
  else
    let '(rc, evdata) := orcm_util_copy_list_items (av_compute_data data) [] in
    if negb (rc =? OPAL_SUCCESS) then Ret None
    else
      non_compute ← deref (av_non_compute_data data);
      timestamp ← orcm_analytics_base_event_set_time non_compute;
      if (0 <? timestamp) && (length non_compute =? 1)%nat then
        Ret (Some (MkRas reporter type timestamp severity evdata []))
      else
        let '(rc, description) := orcm_util_copy_list_items (Some non_compute) [] in
        if negb (rc =? OPAL_SUCCESS) then Ret None
        else Ret (Some (MkRas reporter type timestamp severity evdata description)).

Definition orcm_analytics_base_event_set_storage (ev : orcm_ras_event_t) (storage_type : Z)
    : Z * orcm_ras_event_t :=
  if ORCM_STORAGE_TYPE_UNDEFINED <=? storage_type then (OPAL_ERROR, ev)
  else orcm_analytics_base_event_set_description ev (cs "storage_type") (VInt storage_type) OPAL_UINT None.

(** The events handed to the dispatch framework ([ORCM_RAS_EVENT]) are
    returned in order. *)
Definition orcm_analytics_base_log_to_database_event (value : orcm_analytics_value_t)
    : outcome (Z * list orcm_ras_event_t) :=
  ev ← orcm_analytics_base_event_create value ORCM_RAS_EVENT_SENSOR ORCM_RAS_SEVERITY_INFO;
  match ev with
  | None => Ret (OPAL_ERROR, [])
  | Some ev =>
    let '(rc, ev) := orcm_analytics_base_event_set_storage ev ORCM_STORAGE_TYPE_DATABASE in
    Ret (if rc =? OPAL_SUCCESS then (rc, [ev]) else (rc, []))
  end.

(** ** Notifications *)
Definition orcm_analytics_base_set_event_attr (ev : orcm_ras_event_t) (attr_item : orcm_value_t) (key : cstr)
    : outcome (Z * orcm_ras_event_t) :=
  if is_null (data_string attr_item) then Ret (OPAL_ERR_BAD_PARAM, ev)
  else
    s ← deref_string (data_string attr_item);
    Ret (orcm_analytics_base_event_set_description ev key (VString (Some s)) OPAL_STRING None).

Fixpoint exec_attrs (attrs : list orcm_value_t) (ev : orcm_ras_event_t) (name_set argv_set : bool)
    : outcome (Z * orcm_ras_event_t) :=
  match attrs with
  | [] => Ret (if name_set then (OPAL_SUCCESS, ev) else (OPAL_ERR_BAD_PARAM, ev))
  | a :: attrs' =>
    match ov_key a with
    | None => Ret (OPAL_ERR_BAD_PARAM, ev)
    | Some k =>
      '(rc, ev, name_set, argv_set) ←
        (if starts_with k (cs "exec_name") then
           '(rc, ev) ← orcm_analytics_base_set_event_attr ev a (cs "exec_name"); Ret (rc, ev, true, argv_set)
         else if starts_with k (cs "exec_argv") then
           '(rc, ev) ← orcm_analytics_base_set_event_attr ev a (cs "exec_argv"); Ret (rc, ev, name_set, true)
         else Ret (OPAL_SUCCESS, ev, name_set, argv_set));
      if negb (rc =? OPAL_SUCCESS) then Ret (rc, ev)
      else if name_set && argv_set then Ret (rc, ev)
      else exec_attrs attrs' ev name_set argv_set
    end
  end.

Definition orcm_analytics_base_event_set_exec_attr (wf_step_attr : list orcm_value_t) (ev : orcm_ras_event_t)
    : outcome (Z * orcm_ras_event_t) := exec_attrs wf_step_attr ev false false.

Definition orcm_analytics_base_event_set_notifier_attr (wf_step_attr : list orcm_value_t)
    (ev : orcm_ras_event_t) (msg : option cstr) (action : cstr) : outcome (Z * orcm_ras_event_t) :=
  let '(rc, ev) := orcm_analytics_base_event_set_storage ev ORCM_STORAGE_TYPE_NOTIFICATION in
  if negb (rc =? OPAL_SUCCESS) then Ret (rc, ev)
  else
    let '(rc, ev) := orcm_analytics_base_event_set_description ev (cs "notifier_msg") (VString msg) OPAL_STRING None in
    if negb (rc =? OPAL_SUCCESS) then Ret (rc, ev)
    else
      let '(rc, ev) := orcm_analytics_base_event_set_description ev (cs "notifier_action")
                         (VString (Some action)) OPAL_STRING None in
      if negb (rc =? OPAL_SUCCESS) then Ret (rc, ev)
      else if starts_with action (cs "exec") then orcm_analytics_base_event_set_exec_attr wf_step_attr ev
      else Ret (OPAL_SUCCESS, ev).

Definition orcm_analytics_base_get_analytics_value (current_value : orcm_value_t) (av : orcm_analytics_value_t)
    : orcm_analytics_value_t :=
  orcm_util_load_orcm_analytics_value_compute (av_key av) (av_non_compute_data av)
    (Some (match orcm_util_copy_orcm_value current_value with Some v => [v] | None => [] end)).

Definition event_list_append (event_list : list orcm_ras_event_t) (ev : orcm_ras_event_t)
    : Z * list orcm_ras_event_t := (OPAL_SUCCESS, event_list ++ [ev]).

Definition orcm_analytics_base_gen_notifier_event (current_value : orcm_value_t) (av : orcm_analytics_value_t)
    (attributes : list orcm_value_t) (severity : Z) (msg : option cstr) (action : option cstr)
    (event_list : list orcm_ras_event_t) : outcome (Z * list orcm_ras_event_t) :=
  match action with
  | None => Ret (OPAL_ERROR, event_list)
  | Some action =>
    if starts_with action (cs "none") then Ret (OPAL_SUCCESS, event_list)
    else
      ev ← orcm_analytics_base_event_create (orcm_analytics_base_get_analytics_value current_value av)
             ORCM_RAS_EVENT_EXCEPTION severity;
      match ev with
      | None => Ret (OPAL_ERR_OUT_OF_RESOURCE, event_list)
      | Some ev =>
        '(rc, ev) ← orcm_analytics_base_event_set_notifier_attr attributes ev msg action;
        Ret (if rc =? OPAL_SUCCESS then event_list_append event_list ev else (rc, event_list))
      end
  end.
