(* ===== verification/EventSuppression.v ===== *)
(** * Suppression of repeated events ([analytics_base_event.c])

    [orcm_analytics_base_filter_events] and what it calls, over the open
    addressing table of [HashTable.v]; then the limiter the operators are
    promised, a map from event identity to the time of the last event let
    through, and the proof that the code implements it. *)

From S2P Require Import Prelude CString HashTable Dss DssValue Float64 OrcmUtil AnalyticsBase.
From stdpp Require Import base strings list gmap.
From Stdlib Require Import ZArith Lia Ascii.

Open Scope Z_scope.

(** The identity of an event: the reporter's strings, the keys of its data,
    its type and its severity, hashed with the terminator. *)
Fixpoint cat_reporter (buf : cstr) (reporter : list orcm_value_t) : outcome cstr :=
  match reporter with
  | [] => Ret buf
  | a :: reporter' =>
    if is_null (data_string a) then cat_reporter buf reporter'
    else s ← deref_string (data_string a); buf ← strncat KEY_SIZE buf s; cat_reporter buf reporter'
  end.

Fixpoint cat_keys (buf : cstr) (compute_list : list orcm_value_t) : outcome cstr :=
  match compute_list with
  | [] => Ret buf
  | d :: compute_list' =>
    match ov_key d with
    | None => cat_keys buf compute_list'
    | Some k => buf ← strncat KEY_SIZE buf k; cat_keys buf compute_list'
    end
  end.

Definition generate_event_hashkey (ev_type severity : Z) (reporter compute_list : list orcm_value_t)
    : outcome Z :=
  buf ← cat_reporter [] reporter;
  buf ← cat_keys buf compute_list;
  buf ← strncat KEY_SIZE buf (fmt_d ev_type);
  buf ← strncat KEY_SIZE buf (fmt_d severity);
  Ret (orcm_util_create_hash_key (buf ++ [zero])).

Section Suppress.
Variable calloc_ok : Z -> bool.
Variable suppress_repeat : option cstr.

Definition event_filter_con : outcome event_filter :=
  time ← orcm_util_get_time_in_sec suppress_repeat;
  Ret (MkFilter ORCM_RAS_SEVERITY_UNKNOWN None time).

(** [OPAL_SUCCESS == (rc == set(...))]: the comparison is 0 unless the two
    codes agree. *)
Definition get_last_event_timestamp (es : event_store) (key current_ts : Z)
    : outcome (Z * option nat * event_store) :=
  '(rc, ts, tbl) ← opal_hash_table_get_value_uint64 (es_table es) key;
  if rc =? OPAL_ERR_NOT_FOUND then
    let setval := length (es_cells es) in
    '(rc', tbl) ← opal_hash_table_set_value_uint64 calloc_ok tbl key setval;
    if negb (rc =? rc') then Ret (OPAL_ERR_NOT_FOUND, None, MkStore tbl (es_cells es ++ [Some current_ts]))
    else Ret (OPAL_ERROR, None, MkStore tbl (es_cells es ++ [None]))
  else if negb (rc =? OPAL_SUCCESS) then Ret (OPAL_ERROR, ts, MkStore tbl (es_cells es))
  else Ret (OPAL_SUCCESS, ts, MkStore tbl (es_cells es)).

(** Whether the categories in the description agree with the filter's. *)
Fixpoint match_category (category : cstr) (description : list orcm_value_t) (m : bool) : outcome bool :=
  match description with
  | [] => Ret m
  | d :: description' =>
    match ov_key d with
    | None => match_category category description' m
    | Some k =>
      if is_null (data_string d) then match_category category description' m
      else if starts_with k (cs "event_category") then
        s ← deref_string (data_string d);
        match_category category description' (m && starts_with category s)
      else match_category category description' m
    end
  end.

Definition filter_max_rate (ev : orcm_ras_event_t) (filter : option event_filter) : outcome Z :=
  match filter with
  | None => t ← orcm_util_get_time_in_sec suppress_repeat; Ret (u32 t)
  | Some f =>
    match_cat ← match ef_category f with
                | None => Ret true
                | Some c => match_category c (ev_description ev) true
                end;
    let match_sev := negb (negb (ev_severity ev =? ORCM_RAS_SEVERITY_UNKNOWN) && (ef_severity f <? ev_severity ev)) in
    if match_cat && match_sev then Ret (u32 (ef_time f))
    else t ← orcm_util_get_time_in_sec suppress_repeat; Ret (u32 t)
  end.

Definition is_repeat_event (es : event_store) (ev : orcm_ras_event_t) (filter : option event_filter)
    : outcome (bool * event_store) :=
  key ← generate_event_hashkey (ev_type ev) (ev_severity ev) (ev_reporter ev) (ev_data ev);
  if key =? 0 then Ret (false, es)
  else
    '(rc, ts_add, es) ← get_last_event_timestamp es key (ev_timestamp ev);
    repeat_interval ← filter_max_rate ev filter;
    if rc =? OPAL_SUCCESS then
      p ← deref ts_add;
      ts ← deref (mjoin (es_cells es !! p));
      if LONG_MAX <? ts + repeat_interval then Ub
      else if ev_timestamp ev <? ts + repeat_interval then Ret (true, es)
      else Ret (false, MkStore (es_table es) (<[p := Some (ev_timestamp ev)]> (es_cells es)))
    else Ret (false, es).

(** The events passed on, in order. *)
Fixpoint generate_events (es : event_store) (event_list : list orcm_ras_event_t)
    (filter : option event_filter) (suppress : bool) : outcome (list orcm_ras_event_t * event_store) :=
  match event_list with
  | [] => Ret ([], es)
  | ev :: event_list' =>
    '(rep, es) ← (if suppress then is_repeat_event es ev filter else Ret (false, es));
    '(out, es) ← generate_events es event_list' filter suppress;
    Ret (if rep : bool then (out, es) else (ev :: out, es))
  end.

Definition assign_filter_value (key : cstr) (value : string_ptr) (filter : event_filter)
    : outcome (Z * event_filter) :=
  if is_null value then Ret (OPAL_ERROR, filter)
  else if starts_with key (cs "category") then
    v ← deref_string value; Ret (OPAL_SUCCESS, MkFilter (ef_severity filter) (Some v) (ef_time filter))
  else if starts_with key (cs "severity") then
    v ← deref_string value;
    Ret (OPAL_SUCCESS, MkFilter (orcm_analytics_event_get_severity v) (ef_category filter) (ef_time filter))
  else if starts_with key (cs "time") then
    v ← deref_string value;
    t ← orcm_util_get_time_in_sec (Some v);
    t ← (if t =? 0 then orcm_util_get_time_in_sec suppress_repeat else Ret t);
    Ret (OPAL_SUCCESS, MkFilter (ef_severity filter) (ef_category filter) t)
  else Ret (OPAL_ERROR, filter).

(** The policy in the attributes of the step: the loop stops at an attribute
    without key, at a filter attribute before [suppress_repeat=yes], and at a
    filter attribute without value. *)
Fixpoint scan_attributes (attributes : list orcm_value_t) (suppress : bool) (filter : option event_filter)
    : outcome (bool * option event_filter) :=
  match attributes with
  | [] => Ret (suppress, filter)
  | a :: attributes' =>
    match ov_key a with
    | None => Ret (suppress, filter)
    | Some k =>
      if strcmp0 k (cs "suppress_repeat") then
        d ← deref_string (data_string a);
        scan_attributes attributes' (suppress || strcmp0 d (cs "yes")) filter
      else if strcmp0 k (cs "category") || strcmp0 k (cs "severity") || strcmp0 k (cs "time") then
        if negb suppress then Ret (suppress, filter)
        else
          f ← match filter with Some f => Ret f | None => event_filter_con end;
          '(rc, f) ← assign_filter_value k (data_string a) f;
          if negb (rc =? OPAL_SUCCESS) then Ret (suppress, Some f)
          else scan_attributes attributes' suppress (Some f)
      else scan_attributes attributes' suppress filter
    end
  end.

Definition orcm_analytics_base_filter_events (es : event_store) (event_list : list orcm_ras_event_t)
    (attributes : list orcm_value_t) : outcome (list orcm_ras_event_t * event_store) :=
  '(suppress, filter) ← scan_attributes attributes false None;
  generate_events es event_list filter suppress.
End Suppress.

(** ** The limiter

    [last] is the time of the last event let through, per identity; identity
    0 is never limited.  An event that repeats within the interval is dropped
    and leaves the time as it was. *)
Record stamped : Type := MkStamped { s_event : orcm_ras_event_t; s_id : Z; s_interval : Z }.

Definition limit (last : gmap Z Z) (e : stamped) : bool * gmap Z Z :=
  let ts := ev_timestamp (s_event e) in
  if s_id e =? 0 then (false, last)
  else
    match last !! s_id e with
    | Some t => if ts <? t + s_interval e then (true, last) else (false, <[s_id e := ts]> last)
    | None => (false, <[s_id e := ts]> last)
    end.

Fixpoint limit_all (last : gmap Z Z) (es : list stamped) : list stamped * gmap Z Z :=
  match es with
  | [] => ([], last)
  | e :: es' =>
    let '(rep, last) := limit last e in
    let '(out, last) := limit_all last es' in
    (if rep : bool then out else e :: out, last)
  end.

(** [e] carries the identity and the interval the code computes for it. *)
Definition stamps (suppress_repeat : option cstr) (filter : option event_filter) (e : stamped) : Prop :=
  let ev := s_event e in
  generate_event_hashkey (ev_type ev) (ev_severity ev) (ev_reporter ev) (ev_data ev) = Ret (s_id e) /\
  filter_max_rate suppress_repeat ev filter = Ret (s_interval e) /\
  0 <= ev_timestamp ev < 2 ^ 62.

(** The store holds the times of the limiter. *)
Record store_rep (es : event_store) (last : gmap Z Z) : Prop := {
  rep_wf : ht_wf (es_table es);
  rep_some : forall k p, ht_map (es_table es) !! KU64 k = Some p ->
    exists ts, es_cells es !! p = Some (Some ts) /\ last !! k = Some ts;
  rep_none : forall k, ht_map (es_table es) !! KU64 k = None -> last !! k = None;
  rep_inj : forall k k' p, ht_map (es_table es) !! KU64 k = Some p ->
    ht_map (es_table es) !! KU64 k' = Some p -> k = k';
  rep_range : forall k ts, last !! k = Some ts -> 0 <= ts < 2 ^ 62
}.

Lemma filter_max_rate_range sr ev f d : filter_max_rate sr ev f = Ret d -> 0 <= d < 2 ^ 32.
Proof.
  intros E. enough (exists t, d = u32 t) as [t ->] by (apply wrap_range; lia).
  unfold filter_max_rate in E. destruct f as [f|].
  - apply bind_Ret_inv in E as (m & _ & E). destruct (m && _).
    + injection E as <-. eauto.
    + apply bind_Ret_inv in E as (t & _ & [= <-]). eauto.
  - apply bind_Ret_inv in E as (t & _ & [= <-]). eauto.
Qed.

Section Refinement.
Context (calloc_ok : Z -> bool) (suppress_repeat : option cstr) (filter : option event_filter).
Hypothesis Hcalloc : forall n, calloc_ok n = true.

Abbreviation is_repeat := (fun es ev => is_repeat_event calloc_ok suppress_repeat es ev filter).

(** An identity seen for the first time gets a cell of its own. *)
Lemma repeat_new es last e n :
  store_rep es last -> ht_room n (es_table es) -> n + 1 < 2 ^ 60 -> stamps suppress_repeat filter e ->
  s_id e <> 0 -> last !! s_id e = None ->
  exists es', is_repeat es (s_event e) = Ret (false, es') /\
    store_rep es' (<[s_id e := ev_timestamp (s_event e)]> last) /\ ht_room (n + 1) (es_table es').
Proof.
  intros [Hwf Hsome Hnone Hinj Hrange] Hroom Hn (Hid & Hrate & Hts) Hnz Hnew.
  unfold is_repeat_event. rewrite Hid, bind_Ret. rewrite (proj2 (Z.eqb_neq _ _) Hnz).
  unfold get_last_event_timestamp, opal_hash_table_get_value_uint64, opal_hash_table_set_value_uint64.
  rewrite get_value_spec by done.
  destruct (ht_map (es_table es) !! KU64 (s_id e)) as [p|] eqn:Hp.
  { apply Hsome in Hp as (ts & _ & Hl). congruence. }
  rewrite bind_Ret. cbn [Z.eqb OPAL_ERR_NOT_FOUND Pos.eqb].
  destruct (set_value_ok calloc_ok (touch (es_table es)) (KU64 (s_id e)) (length (es_cells es)) n)
    as (tbl & -> & Hwf' & Hmap & Hroom'); [done..|].
  rewrite !bind_Ret, Hrate. cbn. eexists. split; [done|]. split; [|done].
  change (ht_map (touch (es_table es))) with (ht_map (es_table es)) in Hmap.
  split; cbn [es_table es_cells].
  - done.
  - intros k p Hk. rewrite Hmap in Hk. apply lookup_insert_Some in Hk as [[[= <-] <-]|[Hne Hk]].
    + eexists. rewrite lookup_app_r, Nat.sub_diag, lookup_insert_eq by done. done.
    + apply Hsome in Hk as (ts & Hc & Hl). exists ts. split.
      * by apply lookup_app_l_Some.
      * rewrite lookup_insert_ne; [done|]. intros <-. congruence.
  - intros k Hk. rewrite Hmap in Hk. apply lookup_insert_None in Hk as [Hk Hne].
    rewrite lookup_insert_ne; [by apply Hnone|]. congruence.
  - intros k k' p Hk Hk'. rewrite Hmap in Hk, Hk'.
    assert (Hfresh : forall j, ht_map (es_table es) !! KU64 j <> Some (length (es_cells es))).
    { intros j Hj. apply Hsome in Hj as (ts & Hc & _). apply lookup_lt_Some in Hc. lia. }
    apply lookup_insert_Some in Hk as [[[= <-] <-]|[Hne Hk]];
      apply lookup_insert_Some in Hk' as [[[= <-] Hp']|[Hne' Hk']]; try done.
    + by apply Hfresh in Hk'.
    + subst. by apply Hfresh in Hk.
    + by eapply Hinj.
  - intros k ts Hk. apply lookup_insert_Some in Hk as [[_ <-]|[_ Hk]]; [done|]. by eapply Hrange.
Qed.

(** A known identity is compared with its cell, which a passing event
    overwrites. *)
Lemma repeat_known es last e t :
  store_rep es last -> stamps suppress_repeat filter e -> s_id e <> 0 -> last !! s_id e = Some t ->
  exists es', is_repeat es (s_event e) = Ret (fst (limit last e), es') /\
    store_rep es' (snd (limit last e)) /\ es_table es' = touch (es_table es).
Proof.
  intros [Hwf Hsome Hnone Hinj Hrange] (Hid & Hrate & Hts) Hnz Hold.
  unfold is_repeat_event, limit. rewrite Hid, bind_Ret, Hold. rewrite (proj2 (Z.eqb_neq _ _) Hnz).
  unfold get_last_event_timestamp, opal_hash_table_get_value_uint64. rewrite get_value_spec by done.
  destruct (ht_map (es_table es) !! KU64 (s_id e)) as [p|] eqn:Hp; [|apply Hnone in Hp; congruence].
  destruct (Hsome _ _ Hp) as (t' & Hc & Hl). assert (t' = t) as -> by congruence.
  rewrite bind_Ret. cbn [Z.eqb OPAL_ERR_NOT_FOUND OPAL_SUCCESS negb]. rewrite bind_Ret, Hrate. cbn [es_cells es_table deref].
  rewrite !bind_Ret, Hc. cbn [mjoin option_join deref]. rewrite bind_Ret.
  pose proof (filter_max_rate_range _ _ _ _ Hrate). pose proof (Hrange _ _ Hl).
  rewrite (proj2 (Z.ltb_ge _ _)) by (unfold LONG_MAX; lia).
  destruct (ev_timestamp (s_event e) <? t + s_interval e) eqn:Hlt.
  { eexists. split; [done|]. split; [|done]. split; done. }
  eexists. split; [done|]. split; [|done]. split; cbn [es_table es_cells snd].
  - done.
  - intros k q Hk. change (ht_map (touch (es_table es))) with (ht_map (es_table es)) in Hk.
    destruct (decide (k = s_id e)) as [->|Hne].
    + assert (q = p) as -> by congruence. eexists. rewrite list_lookup_insert_eq, lookup_insert_eq; [done|].
      by eapply lookup_lt_Some.
    + destruct (Hsome _ _ Hk) as (ts & Hq & Hlk). exists ts. rewrite list_lookup_insert_ne, lookup_insert_ne; try done.
      intros ->. apply Hne. by eapply Hinj.
  - intros k Hk. rewrite lookup_insert_ne; [by apply Hnone|]. intros <-.
    change (ht_map (touch (es_table es))) with (ht_map (es_table es)) in Hk. congruence.
  - exact Hinj.
  - intros k ts Hk. apply lookup_insert_Some in Hk as [[_ <-]|[_ Hk]]; [done|]. by eapply Hrange.
Qed.

Lemma repeat_limit es last e n :
  store_rep es last -> ht_room n (es_table es) -> n + 1 < 2 ^ 60 -> stamps suppress_repeat filter e ->
  exists es', is_repeat es (s_event e) = Ret (fst (limit last e), es') /\
    store_rep es' (snd (limit last e)) /\ ht_room (n + 1) (es_table es').
Proof.
  intros Hrep Hroom Hn Hst. destruct (decide (s_id e = 0)) as [Hz|Hnz].
  - exists es. destruct Hst as (Hid & _). unfold is_repeat_event, limit. rewrite Hid, bind_Ret, Hz.
    split; [done|]. split; [done|]. unfold ht_room in *. lia.
  - destruct (last !! s_id e) as [t|] eqn:Hl.
    + destruct (repeat_known es last e t) as (es' & E & Hr & Ht); try done.
      exists es'. split_and!; [done..|]. rewrite Ht. unfold ht_room in *. cbn. lia.
    + destruct (repeat_new es last e n) as (es' & E & Hr & Hroom'); try done.
      exists es'. unfold limit. rewrite Hl, (proj2 (Z.eqb_neq _ _) Hnz). done.
Qed.

Lemma generate_limit l es last n :
  store_rep es last -> ht_room n (es_table es) -> n + Z.of_nat (length l) < 2 ^ 60 ->
  Forall (stamps suppress_repeat filter) l ->
  exists es', generate_events calloc_ok suppress_repeat es (s_event <$> l) filter true =
      Ret (s_event <$> fst (limit_all last l), es') /\
    store_rep es' (snd (limit_all last l)) /\ ht_room (n + Z.of_nat (length l)) (es_table es').
Proof.
  intros Hrep Hroom Hn Hall. revert es last n Hrep Hroom Hn. induction Hall as [|e l He Hl IH]; intros es last n Hrep Hroom Hn.
  { exists es. cbn. rewrite Z.add_0_r. done. }
  cbn [length] in Hn |- *. destruct (repeat_limit es last e n) as (es1 & E1 & Hrep1 & Hroom1); [done|done|lia|done|].
  destruct (IH es1 (snd (limit last e)) (n + 1)) as (es2 & E2 & Hrep2 & Hroom2); [done|done|lia|].
  exists es2. cbn [fmap list_fmap generate_events limit_all]. rewrite E1, bind_Ret, E2, bind_Ret.
  destruct (limit last e) as [rep last1]. cbn [fst snd] in *.
  destruct (limit_all last1 l) as [out last2]. cbn [fst snd] in *.
  split; [by destruct rep|]. split; [done|].
  replace (n + Z.of_nat (S (length l))) with (n + 1 + Z.of_nat (length l)) by lia. done.
Qed.
End Refinement.

(** ** Spacing *)
Lemma limit_last last e k t t' :
  (forall d, s_interval e = d -> 0 <= d) ->
  last !! k = Some t -> snd (limit last e) !! k = Some t' -> t <= t'.
Proof.
  intros Hd Hk. unfold limit. repeat case_match; cbn; try (intros; simplify_eq; lia);
    destruct (decide (s_id e = k)) as [<-|]; rewrite ?lookup_insert_eq, ?lookup_insert_ne by done;
    intros; simplify_eq; try lia; specialize (Hd _ eq_refl); zcase; lia.
Qed.

Lemma limit_keeps last e k t : last !! k = Some t -> exists t', snd (limit last e) !! k = Some t'.
Proof.
  intros Hk. unfold limit. repeat case_match; cbn; eauto;
    destruct (decide (s_id e = k)) as [<-|]; rewrite ?lookup_insert_eq, ?lookup_insert_ne by done; eauto.
Qed.

(** Every event let through comes its interval after the recorded one. *)
Lemma limit_all_after last l k t e :
  Forall (fun e => 0 <= s_interval e) l -> k <> 0 -> last !! k = Some t ->
  e ∈ fst (limit_all last l) -> s_id e = k -> t + s_interval e <= ev_timestamp (s_event e).
Proof.
  intros Hall Hk. revert last t. induction Hall as [|x l Hx Hl IH]; intros last t Hlast He Hid.
  { by apply not_elem_of_nil in He. }
  cbn [limit_all] in He. destruct (limit_keeps last x k t Hlast) as [t1 Ht1].
  pose proof (limit_last last x k t t1 ltac:(intros; lia) Hlast Ht1) as Hle.
  destruct (limit last x) as [rep last1] eqn:E. cbn [fst snd] in *.
  specialize (IH last1 t1 Ht1). destruct (limit_all last1 l) as [out last2]. cbn [fst] in *.
  destruct rep; [specialize (IH He Hid); lia|].
  apply elem_of_cons in He as [->|He]; [|specialize (IH He Hid); lia].
  unfold limit in E. rewrite Hid, Hlast in E. rewrite (proj2 (Z.eqb_neq _ _) Hk) in E.
  destruct (Z.ltb_spec (ev_timestamp (s_event x)) (t + s_interval x)); [done|lia].
Qed.

Lemma limit_all_spaced last l i j e e' :
  Forall (fun e => 0 <= s_interval e) l -> (i < j)%nat ->
  fst (limit_all last l) !! i = Some e -> fst (limit_all last l) !! j = Some e' ->
  s_id e = s_id e' -> s_id e <> 0 ->
  ev_timestamp (s_event e) + s_interval e' <= ev_timestamp (s_event e').
Proof.
  intros Hall. revert last i j. induction Hall as [|x l Hx Hl IH]; intros last i j Hij Hi Hj Hid Hnz; [done|].
  cbn [limit_all] in *. destruct (limit last x) as [rep last1] eqn:E.
  specialize (IH last1). pose proof (limit_all_after last1 l) as Hafter.
  destruct (limit_all last1 l) as [out last2]. cbn [fst] in *.
  destruct rep; [by eapply IH|]. destruct i as [|i]; [|destruct j as [|j]; [lia|]; eapply (IH i j); done || lia].
  destruct j as [|j]; [lia|]. cbn in Hi, Hj. injection Hi as ->.
  apply (Hafter (s_id e) (ev_timestamp (s_event e)) e'); try done.
  - unfold limit in E. rewrite (proj2 (Z.eqb_neq _ _) Hnz) in E.
    repeat case_match; simplify_eq; apply lookup_insert_eq.
  - by apply list_elem_of_lookup_2 in Hj.
Qed.

(** C18: with suppression on, the events handed on and the times
    remembered are exactly those of the limiter, whatever the batch, and the
    table and its cells again represent the limiter's map; this holds from a
    freshly initialised module on, and so for any sequence of batches. *)
Theorem suppression_refines_limiter calloc_ok suppress_repeat filter es last l n :
  (forall c, calloc_ok c = true) -> store_rep es last -> ht_room n (es_table es) ->
  n + Z.of_nat (length l) < 2 ^ 60 -> Forall (stamps suppress_repeat filter) l ->
  exists es', generate_events calloc_ok suppress_repeat es (s_event <$> l) filter true =
      Ret (s_event <$> fst (limit_all last l), es') /\
    store_rep es' (snd (limit_all last l)) /\ ht_room (n + Z.of_nat (length l)) (es_table es').
Proof. intros. by apply generate_limit. Qed.

(** Of two events with the same identity that are let
    through, the later one happened at least its interval after the earlier
    one, in whatever order their time stamps come. *)
Theorem suppression_spacing calloc_ok suppress_repeat filter es last l n out es' :
  (forall c, calloc_ok c = true) -> store_rep es last -> ht_room n (es_table es) ->
  n + Z.of_nat (length l) < 2 ^ 60 -> Forall (stamps suppress_repeat filter) l ->
  generate_events calloc_ok suppress_repeat es (s_event <$> l) filter true = Ret (out, es') ->
  exists sel, out = s_event <$> sel /\ sublist sel l /\
    forall i j e e', (i < j)%nat -> sel !! i = Some e -> sel !! j = Some e' ->
      s_id e = s_id e' -> s_id e <> 0 ->
      ev_timestamp (s_event e) + s_interval e' <= ev_timestamp (s_event e').
Proof.
  intros Hc Hrep Hroom Hn Hall E.
  destruct (generate_limit calloc_ok suppress_repeat filter Hc l es last n) as (es1 & E1 & _); try done.
  rewrite E1 in E. injection E as <- <-. exists (fst (limit_all last l)). split; [done|]. split.
  - clear. revert last. induction l as [|x l IH]; intros last; cbn; [constructor|].
    destruct (limit last x) as [rep last1]. specialize (IH last1). destruct (limit_all last1 l).
    destruct rep; by constructor.
  - intros i j e e' Hij Hi Hj Hid Hnz. apply (limit_all_spaced last l i j); try done.
    eapply Forall_imp; [|exact Hall]. intros x (_ & Hr & _). by apply filter_max_rate_range in Hr as [? _].
Qed.

(** ** A module's first events *)
Definition HASH_TABLE_SIZE : Z := 10000.

Lemma fresh_store : exists ht,
  opal_hash_table_init (fun _ => true) (opal_hash_table_construct : opal_hash_table_t key_uint64 nat)
    HASH_TABLE_SIZE = Ret (OPAL_SUCCESS, ht) /\
  store_rep (MkStore ht []) ∅ /\ ht_room HASH_TABLE_SIZE ht.
Proof.
  destruct (init_spec (K := key_uint64) (V := nat) (fun _ => true) HASH_TABLE_SIZE) as (ht & E & Hwf & Hm & Hcap & Hsz);
    [unfold HASH_TABLE_SIZE; lia|done|].
  exists ht. split; [done|]. split; [split; cbn [es_table es_cells]; try done|].
  - intros k p. rewrite Hm. done.
  - intros k k' p. rewrite Hm. done.
  - unfold ht_room. rewrite Hsz, Hcap. vm_compute. by split_and!.
Qed.

(** The same sensor at times 100, 130 and 160, with a default interval of a
    minute. *)
Definition sample_event (ts : Z) : orcm_ras_event_t :=
  MkRas [MkOrcmValue (Some (cs "hostname")) OPAL_STRING (VString (Some (cs "n01"))) None]
    ORCM_RAS_EVENT_EXCEPTION ts ORCM_RAS_SEVERITY_CRIT
    [MkOrcmValue (Some (cs "core0")) OPAL_DOUBLE (VDouble (of_int 90)) (Some (cs "C"))] [].

Definition sample_stamped (ts : Z) : stamped :=
  MkStamped (sample_event ts) (orcm_util_create_hash_key (cs "n01core012" ++ [zero])) 60.

Lemma sample_stamps ts : 0 <= ts < 2 ^ 62 -> stamps (Some (cs "1m")) None (sample_stamped ts).
Proof. intros Hts. split; [by vm_compute|]. split; [by vm_compute|exact Hts]. Qed.

Lemma suppression_refines_limiter_witness :
  exists es es', generate_events (fun _ => true) (Some (cs "1m")) es
      [sample_event 100; sample_event 130; sample_event 160] None true =
    Ret ([sample_event 100; sample_event 160], es').
Proof.
  destruct fresh_store as (ht & _ & Hrep & Hroom). exists (MkStore ht []).
  destruct (suppression_refines_limiter (fun _ => true) (Some (cs "1m")) None (MkStore ht []) ∅
    [sample_stamped 100; sample_stamped 130; sample_stamped 160] HASH_TABLE_SIZE) as (es' & E & _);
    [done|done|done|unfold HASH_TABLE_SIZE; cbn; lia|repeat constructor; apply sample_stamps; lia|].
  exists es'. exact E.
Defined.

Lemma suppression_spacing_witness :
  exists es out es', generate_events (fun _ => true) (Some (cs "1m")) es
      [sample_event 100; sample_event 130] None true = Ret (out, es') /\ out = [sample_event 100].
Proof.
  destruct fresh_store as (ht & _ & Hrep & Hroom). exists (MkStore ht []).
  assert (Hall : Forall (stamps (Some (cs "1m")) None) [sample_stamped 100; sample_stamped 130])
    by (repeat constructor; apply sample_stamps; lia).
  assert (Hn : HASH_TABLE_SIZE + Z.of_nat (length [sample_stamped 100; sample_stamped 130]) < 2 ^ 60)
    by (unfold HASH_TABLE_SIZE; cbn; lia).
  destruct (generate_limit (fun _ => true) (Some (cs "1m")) None (fun _ => eq_refl)
    [sample_stamped 100; sample_stamped 130] (MkStore ht []) ∅ HASH_TABLE_SIZE Hrep Hroom Hn Hall) as (es' & E & _).
  exists [sample_event 100], es'. split; [exact E|].
  destruct (suppression_spacing (fun _ => true) (Some (cs "1m")) None (MkStore ht []) ∅
    [sample_stamped 100; sample_stamped 130] HASH_TABLE_SIZE _ es' (fun _ => eq_refl) Hrep Hroom Hn Hall E)
    as (sel & Hsel & _). reflexivity.
Defined.
