(* ===== verification/Dispatch.v ===== *)
(** * The dispatcher of events ([orcm/mca/dispatch])

    Events of the analytics are handed to the active modules of the dispatch
    framework ([base]); the one module of the repository, [dfg], sends each to
    the database, to the notifier or, as a request to launch an executable, to
    the scheduler.

    The calls of the database, notifier and messaging layers only post
    requests, so what a module does is a log of actions in its state; the
    database answers through the callbacks, which are operations of their own.
    An event carries no callback, as none of the analytics sets one, and the
    lists of an event that are moved into a database request are empty
    afterwards, for every module that sees the event later.

    [store_event_data] is the storage policy of the analytics, and allocations
    succeed. *)

From S2P Require Import Prelude CString Argv Dss DssFormat DssText DssMessage.
From S2P Require Import OrcmUtil AnalyticsBase.
From stdpp Require Import base strings numbers list.
From Stdlib Require Import ZArith Lia Ascii.

Open Scope Z_scope.

Definition ORCM_RAS_EVENT_COUNTER : Z := 2.
Definition ORCM_RAS_EVENT_STATE_TRANSITION : Z := 3.
Definition ORCM_RAS_EVENT_CHASSIS_ID_LED : Z := 4.
Definition ORCM_RAS_EVENT_UNKNOWN_TYPE : Z := 5.
Definition ORCM_DB_ENV_DATA : Z := 0.
Definition ORCM_DB_EVENT_DATA : Z := 3.
Definition ORCM_DISPATCH_LAUNCH_EXEC_COMMAND : Z := 46.

(** ** The framework *)
Definition evcon : orcm_ras_event_t := MkRas [] ORCM_RAS_EVENT_UNKNOWN_TYPE 0 ORCM_RAS_SEVERITY_UNKNOWN [] [].

Definition orcm_dispatch_base_print_type (t : Z) : cstr :=
  if t =? ORCM_RAS_EVENT_SENSOR then cs "SENSOR"
  else if t =? ORCM_RAS_EVENT_EXCEPTION then cs "EXCEPTION"
  else if t =? ORCM_RAS_EVENT_COUNTER then cs "COUNTER"
  else if t =? ORCM_RAS_EVENT_STATE_TRANSITION then cs "TRANSITION"
  else if t =? ORCM_RAS_EVENT_CHASSIS_ID_LED then cs "CHASSIS_ID_LED"
  else cs "UNKNOWN".

Definition orcm_dispatch_base_print_severity (s : Z) : cstr :=
  if s =? ORCM_RAS_SEVERITY_EMERG then cs "EMERGENCY"
  else if s =? ORCM_RAS_SEVERITY_ALERT then cs "ALERT"
  else if s =? ORCM_RAS_SEVERITY_CRIT then cs "CRITICAL"
  else if s =? ORCM_RAS_SEVERITY_ERROR then cs "ERROR"
  else if s =? ORCM_RAS_SEVERITY_WARNING then cs "WARNING"
  else if s =? ORCM_RAS_SEVERITY_NOTICE then cs "NOTICE"
  else if s =? ORCM_RAS_SEVERITY_INFO then cs "INFO"
  else if s =? ORCM_RAS_SEVERITY_DEBUG then cs "DEBUG"
  else cs "UNKNOWN".

Section Framework.
(** The state the modules share. *)
Context {S : Type}.

Record orcm_dispatch_base_module_t : Type := MkDispatchModule {
  dm_init : option (S -> S);
  dm_finalize : option (S -> S);
  dm_generate : option orcm_ras_event_t -> S -> outcome (option orcm_ras_event_t * S)
}.

(** A component with what its query function answers, if it has one. *)
Record dispatch_component : Type := MkDispatchComponent {
  dc_name : cstr;
  dc_query : option (Z * option orcm_dispatch_base_module_t * Z)
}.

Record orcm_dispatch_active_module_t : Type := MkActive {
  am_priority : Z;
  am_module : orcm_dispatch_base_module_t;
  am_component : dispatch_component
}.

Record orcm_dispatch_base_t : Type := MkDispatchBase {
  db_actives : list orcm_dispatch_active_module_t;
  db_sensor_db_commit_rate : Z;
  db_selected : bool
}.

(** Before the first module of a lower priority. *)
Fixpoint insert_dispatch (newmodule : orcm_dispatch_active_module_t) (actives : list orcm_dispatch_active_module_t)
    : list orcm_dispatch_active_module_t :=
  match actives with
  | [] => [newmodule]
  | m :: actives' => if am_priority m <? am_priority newmodule then newmodule :: actives else m :: insert_dispatch newmodule actives'
  end.

Definition query_one (component : dispatch_component) (st : list orcm_dispatch_active_module_t * S)
    : list orcm_dispatch_active_module_t * S :=
  match dc_query component with
  | Some (rc, Some module, priority) =>
    if negb (rc =? OPAL_SUCCESS) then st
    else (insert_dispatch (MkActive priority module component) st.1,
          match dm_init module with Some f => f st.2 | None => st.2 end)
  | _ => st
  end.

Definition orcm_dispatch_base_select (components : list dispatch_component) (base : orcm_dispatch_base_t) (s : S)
    : Z * orcm_dispatch_base_t * S :=
  if db_selected base then (OPAL_SUCCESS, base, s)
  else
    let '(actives, s) := foldl (fun st c => query_one c st) (db_actives base, s) components in
    (OPAL_SUCCESS, MkDispatchBase actives (db_sensor_db_commit_rate base) true, s).

Definition orcm_dispatch_base_reset_selected (base : orcm_dispatch_base_t) : orcm_dispatch_base_t :=
  MkDispatchBase (db_actives base) (db_sensor_db_commit_rate base) false.

(** Each active module sees the event as the modules before it left it. *)
Fixpoint orcm_dispatch_base_event (actives : list orcm_dispatch_active_module_t) (cd : option orcm_ras_event_t) (s : S)
    : outcome S :=
  match actives with
  | [] => Ret s
  | a :: actives' =>
    '(cd, s) ← dm_generate (am_module a) cd s;
    orcm_dispatch_base_event actives' cd s
  end.

Definition orcm_dispatch_base_close (base : orcm_dispatch_base_t) (s : S) : orcm_dispatch_base_t * S :=
  (MkDispatchBase [] (db_sensor_db_commit_rate base) (db_selected base),
   foldl (fun s a => match dm_finalize (am_module a) with Some f => f s | None => s end) s (db_actives base)).
End Framework.
Arguments orcm_dispatch_base_module_t : clear implicits.
Arguments dispatch_component : clear implicits.
Arguments orcm_dispatch_active_module_t : clear implicits.
Arguments orcm_dispatch_base_t : clear implicits.

(** ** The module *)
Inductive dfg_action : Type :=
| OpenDb (name : cstr) (props : option (list orcm_value_t))
| CloseDb (dbhandle : Z)
| StoreNew (dbhandle data_type : Z) (input : list orcm_value_t)
| CommitDb (dbhandle : Z)
| RollbackDb (dbhandle : Z)
| NotifySystem (severity : Z) (msg action : cstr)
| SendScheduler (b : opal_buffer_t).

Record dfg_t : Type := MkDfg {
  env_dbhandle : Z;
  event_dbhandle : Z;
  env_db_commit_count : Z;
  dfg_log : list dfg_action
}.

Definition dfg_start : dfg_t := MkDfg (-1) (-1) 0 [].

Definition posted (a : dfg_action) (s : dfg_t) : dfg_t :=
  MkDfg (env_dbhandle s) (event_dbhandle s) (env_db_commit_count s) (dfg_log s ++ [a]).

(** The callbacks of the database. *)
Definition dfg_env_db_open_cbfunc (dbh status : Z) (s : dfg_t) : dfg_t :=
  if status =? 0 then MkDfg dbh (event_dbhandle s) (env_db_commit_count s) (dfg_log s) else s.

Definition dfg_event_db_open_cbfunc (dbh status : Z) (s : dfg_t) : dfg_t :=
  if status =? 0 then MkDfg (env_dbhandle s) dbh (env_db_commit_count s) (dfg_log s) else s.

Definition dfg_env_data_commit_cb (dbhandle status : Z) (s : dfg_t) : dfg_t :=
  if negb (status =? OPAL_SUCCESS) then posted (RollbackDb dbhandle) s else s.

(** The member [data.uint]. *)
Definition as_uint (v : orcm_value_t) : outcome Z :=
  match ov_data v with VInt z => Ret (u32 z) | _ => Ub end.

Section Dfg.
Variable sensor_db_commit_rate : Z.
Variable store_event_data : bool.

Definition dfg_init_env_dbhandle_commit_rate : list orcm_value_t :=
  [MkOrcmValue (Some (cs "autocommit")) OPAL_BOOL (VInt (if 1 <? sensor_db_commit_rate then 0 else 1)) None].

Definition dfg_init (s : dfg_t) : dfg_t :=
  let s := if env_dbhandle s <? 0 then posted (OpenDb (cs "dfg_env") (Some dfg_init_env_dbhandle_commit_rate)) s else s in
  if event_dbhandle s <? 0 then posted (OpenDb (cs "dfg_event") None) s else s.

Definition dfg_finalize (s : dfg_t) : dfg_t :=
  let s := if 0 <=? env_dbhandle s
           then let s := posted (CloseDb (env_dbhandle s)) s in MkDfg (-1) (event_dbhandle s) (env_db_commit_count s) (dfg_log s)
           else s in
  if 0 <=? event_dbhandle s
  then let s := posted (CloseDb (event_dbhandle s)) s in MkDfg (env_dbhandle s) (-1) (env_db_commit_count s) (dfg_log s)
  else s.

(** The three lists of the event are moved in front of the last entry; the
    event is left without them. *)
Definition dfg_convert_event_data_to_list (ecd : orcm_ras_event_t) : option (list orcm_value_t * orcm_ras_event_t) :=
  match orcm_util_load_orcm_value (Some (cs "type")) (VString (Some (orcm_dispatch_base_print_type (ev_type ecd)))) OPAL_STRING None,
        orcm_util_load_orcm_value (Some (cs "severity")) (VString (Some (orcm_dispatch_base_print_severity (ev_severity ecd)))) OPAL_STRING None,
        orcm_util_load_orcm_value (Some (cs "ctime")) (VTimeval (ev_timestamp ecd) 0) OPAL_TIMEVAL None with
  | Some type, Some severity, Some ctime =>
    Some ([type; severity] ++ ev_reporter ecd ++ ev_description ecd ++ ev_data ecd ++ [ctime],
          MkRas [] (ev_type ecd) (ev_timestamp ecd) (ev_severity ecd) [] [])
  | _, _, _ => None
  end.

Definition dfg_generate_database_event (input_list : list orcm_value_t) (data_type : Z) (s : dfg_t) : dfg_t :=
  if data_type =? ORCM_RAS_EVENT_SENSOR then
    if 0 <=? env_dbhandle s then
      let s := posted (StoreNew (env_dbhandle s) ORCM_DB_ENV_DATA input_list) s in
      if 1 <? sensor_db_commit_rate then
        let count := env_db_commit_count s + 1 in
        if count =? sensor_db_commit_rate
        then let s := posted (CommitDb (env_dbhandle s)) s in MkDfg (env_dbhandle s) (event_dbhandle s) 0 (dfg_log s)
        else MkDfg (env_dbhandle s) (event_dbhandle s) count (dfg_log s)
      else s
    else s
  else if 0 <=? event_dbhandle s then posted (StoreNew (event_dbhandle s) ORCM_DB_EVENT_DATA input_list) s
  else s.

Definition dfg_convert_and_log_data_to_db (ecd : orcm_ras_event_t) (s : dfg_t) : orcm_ras_event_t * dfg_t :=
  match dfg_convert_event_data_to_list ecd with
  | None => (ecd, s)
  | Some (input_list, ecd) => (ecd, dfg_generate_database_event input_list (ev_type ecd) s)
  end.

(** The first string of each of the four keys. *)
Record ras_desc : Type := MkDesc {
  rd_msg : option cstr;
  rd_action : option cstr;
  rd_exec_name : option cstr;
  rd_exec_argv : option cstr
}.

(** [key] is [name], its string is set and the variable is still free. *)
Definition takes (key : cstr) (v : orcm_value_t) (name : string) (old : option cstr) : bool :=
  strcmp0 key (cs name) && negb (is_null (data_string v)) && match old with None => true | Some _ => false end.

Fixpoint dfg_iterate_ras_desc (description : list orcm_value_t) (d : ras_desc) : outcome (Z * ras_desc) :=
  match description with
  | [] =>
    Ret (match rd_msg d, rd_action d with Some _, Some _ => OPAL_SUCCESS | _, _ => OPAL_ERROR end, d)
  | v :: description' =>
    match ov_key v with
    | None => Ret (OPAL_ERR_BAD_PARAM, d)
    | Some key =>
      d ← (if takes key v "notifier_msg" (rd_msg d) then
             x ← deref_string (data_string v); Ret (MkDesc (Some x) (rd_action d) (rd_exec_name d) (rd_exec_argv d))
           else if takes key v "notifier_action" (rd_action d) then
             x ← deref_string (data_string v); Ret (MkDesc (rd_msg d) (Some x) (rd_exec_name d) (rd_exec_argv d))
           else if takes key v "exec_name" (rd_exec_name d) then
             x ← deref_string (data_string v); Ret (MkDesc (rd_msg d) (rd_action d) (Some x) (rd_exec_argv d))
           else if takes key v "exec_argv" (rd_exec_argv d) then
             x ← deref_string (data_string v); Ret (MkDesc (rd_msg d) (rd_action d) (rd_exec_name d) (Some x))
           else Ret d);
      dfg_iterate_ras_desc description' d
    end
  end.

(** ** The request to the scheduler *)
Variable malloc_ok : Z -> bool.
Variables opal_dss_initial_size opal_dss_threshold_size : Z.
Variable registered : Z -> bool.
Variable other_pack : Z -> opal_buffer_t -> dss_data -> outcome (Z * opal_buffer_t).
Variable desc : bool.

Definition exec_items (exec_name : cstr) (exec_argv : option cstr) : list (dss_data * Z) :=
  [byte_item ORCM_DISPATCH_LAUNCH_EXEC_COMMAND; text_item (Some exec_name);
   bool_item (match exec_argv with Some _ => true | None => false end)]
  ++ match exec_argv with Some _ => [text_item exec_argv] | None => [] end.

Definition dfg_pack_exec (exec_name : cstr) (exec_argv : option cstr) : outcome (option opal_buffer_t) :=
  '(rc, b) ← pack_items malloc_ok opal_dss_initial_size opal_dss_threshold_size registered other_pack
               (opal_buffer_construct desc) (exec_items exec_name exec_argv);
  Ret (if rc =? OPAL_SUCCESS then Some b else None).

Definition dfg_send_exec (exec_name exec_argv : option cstr) (s : dfg_t) : outcome dfg_t :=
  match exec_name with
  | None => Ret s
  | Some exec_name =>
    b ← dfg_pack_exec exec_name exec_argv;
    Ret (match b with Some b => posted (SendScheduler b) s | None => s end)
  end.

Definition dfg_generate_notifier_event (ecd : orcm_ras_event_t) (s : dfg_t) : outcome dfg_t :=
  '(rc, d) ← dfg_iterate_ras_desc (ev_description ecd) (MkDesc None None None None);
  if negb (rc =? OPAL_SUCCESS) then Ret s
  else if (ORCM_RAS_SEVERITY_EMERG <=? ev_severity ecd) && (ev_severity ecd <? ORCM_RAS_SEVERITY_UNKNOWN) then
    msg ← deref (rd_msg d);
    action ← deref (rd_action d);
    if negb (starts_with action (cs "exec")) then Ret (posted (NotifySystem (ev_severity ecd) msg action) s)
    else dfg_send_exec (rd_exec_name d) (rd_exec_argv d) s
  else Ret s.

(** The entries of the description in order; [raw_db] is whether the database
    was asked for. *)
Fixpoint storage_requests (description : list orcm_value_t) (ecd : orcm_ras_event_t) (raw_db : bool) (s : dfg_t)
    : outcome (bool * dfg_t) :=
  match description with
  | [] => Ret (raw_db, s)
  | v :: description' =>
    match ov_key v with
    | None => Ret (raw_db, s)
    | Some key =>
      if strcmp0 key (cs "storage_type") then
        storage_type ← as_uint v;
        if storage_type =? ORCM_STORAGE_TYPE_NOTIFICATION then
          s ← dfg_generate_notifier_event ecd s;
          storage_requests description' ecd raw_db s
        else storage_requests description' ecd (raw_db || (storage_type =? ORCM_STORAGE_TYPE_DATABASE)) s
      else storage_requests description' ecd raw_db s
    end
  end.

Definition dfg_generate_storage_events (ecd : orcm_ras_event_t) (s : dfg_t) : outcome (orcm_ras_event_t * dfg_t) :=
  '(raw_db, s) ← storage_requests (ev_description ecd) ecd false s;
  let '(ecd, s) := if raw_db : bool then dfg_convert_and_log_data_to_db ecd s else (ecd, s) in
  let is_valid_event_type := (ev_type ecd =? ORCM_RAS_EVENT_EXCEPTION) || (ev_type ecd =? ORCM_RAS_EVENT_CHASSIS_ID_LED) in
  Ret (if is_valid_event_type && store_event_data then dfg_convert_and_log_data_to_db ecd s else (ecd, s)).

Definition dfg_generate (ecd : option orcm_ras_event_t) (s : dfg_t) : outcome (option orcm_ras_event_t * dfg_t) :=
  match ecd with
  | None => Ret (None, s)
  | Some ecd => '(ecd, s) ← dfg_generate_storage_events ecd s; Ret (Some ecd, s)
  end.

Definition orcm_dispatch_dfg_module : orcm_dispatch_base_module_t dfg_t :=
  MkDispatchModule (Some dfg_init) (Some dfg_finalize) dfg_generate.

Definition mca_dispatch_dfg_component : dispatch_component dfg_t :=
  MkDispatchComponent (cs "dfg") (Some (OPAL_SUCCESS, Some orcm_dispatch_dfg_module, 20)).
End Dfg.
