(* ===== verification/ScdLaunch.v ===== *)
(** * Executables the scheduler launches ([scd_base_recv.c])

    An event may ask for an executable; the dispatcher sends its name and
    arguments to the scheduler, which launches it from the directory of
    executables.

    The expansion of [$group] items is the one of [LogicalGroup]; the answer
    to the sender, [fork] and [execve] are the outside world: whether the
    answer was sent and whether [fork] succeeds are parameters, and the result
    of a launch is the path and the arguments given to [execve]. *)

From S2P Require Import Prelude CString Argv Regex LogicalGroup Dss DssFormat DssText DssMessage.
From S2P Require Import OrcmUtil AnalyticsBase Dispatch.
From stdpp Require Import base strings numbers list.
From Stdlib Require Import ZArith Lia Ascii.

Open Scope Z_scope.

Definition ORTE_ERR_SYS_LIMITS_CHILDREN : Z := OPAL_ERR_MAX - 19.

(** What [execve] is given. *)
Record launch_t : Type := MkLaunch { ln_exec : cstr; ln_argv : argv_t }.

(** The part behind the last slash, if there is any. *)
Definition orcm_scd_truncate_slash (actual_exec_name : cstr) : option cstr :=
  match strrchr actual_exec_name "/" with
  | None => Some actual_exec_name
  | Some i => if (length (drop i actual_exec_name) =? 1)%nat then None else Some (drop (S i) actual_exec_name)
  end.

Section Launch.
Variable malloc_ok : Z -> bool.
Variable registered : Z -> bool.
Variable other_unpack : Z -> opal_buffer_t -> Z -> Z * option dss_data * opal_buffer_t.
Variable int_log10 : Z -> Z.
Variable fuel : nat.
Variable groups : groups_t.
Variable orcm_event_exec_path : option cstr.
Variable fork_ok : bool.

Definition orcm_scd_base_fork_to_launch (exec : cstr) (argv : argv_t) : Z * option launch_t :=
  if fork_ok then (OPAL_SUCCESS, Some (MkLaunch exec argv)) else (ORTE_ERR_SYS_LIMITS_CHILDREN, None).

(** [exec_argv_set] starts as false and the strings as NULL. *)
Definition orcm_scd_base_unpack_exec_buffer (buf : opal_buffer_t)
    : outcome (Z * option cstr * option cstr * opal_buffer_t) :=
  '(rc, exec_name, _, buf) ← unpack_string malloc_ok registered other_unpack buf 1 None;
  if negb (rc =? OPAL_SUCCESS) then Ret (rc, None, None, buf)
  else
    let '(rc, exec_argv_set, _, buf) := unpack_byte malloc_ok registered other_unpack buf 1 OPAL_BOOL in
    if negb (rc =? OPAL_SUCCESS) then Ret (rc, None, None, buf)
    else if default 0 exec_argv_set =? 0 then Ret (OPAL_SUCCESS, exec_name, None, buf)
    else
      '(rc, exec_argv, _, buf) ← unpack_string malloc_ok registered other_unpack buf 1 None;
      if negb (rc =? OPAL_SUCCESS) then Ret (rc, None, None, buf)
      else Ret (OPAL_SUCCESS, exec_name, exec_argv, buf).

(** The directory, with a slash at its end. *)
Definition exec_dir (path : cstr) : cstr :=
  match strrchr path "/" with
  | Some i => if (length (drop i path) =? 1)%nat then path else path ++ cs "/"
  | None => path ++ cs "/"
  end.

Definition orcm_scd_base_get_full_exec_name (exec_name : option cstr) (w : world) : outcome (Z * option cstr * world) :=
  match orcm_event_exec_path with
  | None => Ret (OPAL_ERROR, None, w)
  | Some path =>
    if match path with c :: _ => eqc c "0" | [] => false end then Ret (OPAL_ERROR, None, w)
    else
      '(rc, actual_exec_name, w) ← orcm_logical_group_parse_string int_log10 fuel groups exec_name w;
      if negb (rc =? OPAL_SUCCESS) then Ret (rc, None, w)
      else
        match actual_exec_name with
        | None => Ret (OPAL_ERROR, None, w)
        | Some actual_exec_name =>
          match orcm_scd_truncate_slash actual_exec_name with
          | None => Ret (OPAL_ERROR, None, w)
          | Some final_exec_name => Ret (OPAL_SUCCESS, Some (exec_dir path ++ final_exec_name), w)
          end
        end
  end.

(** The executable with its arguments, its path in front of them if there are
    any. *)
Definition launch_named (exec_name : option cstr) (exec_argv_list : argv_t) (w : world) : outcome (Z * option launch_t * world) :=
  '(rc, exec_full_name, w) ← orcm_scd_base_get_full_exec_name exec_name w;
  if negb (rc =? OPAL_SUCCESS) then Ret (rc, None, w)
  else
    exec_full_name ← deref exec_full_name;
    let '(rc, exec_argv_list) :=
      match exec_argv_list with
      | Some _ => opal_argv_insert_element exec_argv_list 0 (Some exec_full_name)
      | None => (OPAL_SUCCESS, None)
      end in
    if negb (rc =? OPAL_SUCCESS) then Ret (rc, None, w)
    else let '(rc, l) := orcm_scd_base_fork_to_launch exec_full_name exec_argv_list in Ret (rc, l, w).

Definition orcm_scd_base_launch_exec (buf : opal_buffer_t) (w : world) : outcome (Z * option launch_t * world) :=
  '(rc, exec_name, exec_argv, _) ← orcm_scd_base_unpack_exec_buffer buf;
  if negb (rc =? OPAL_SUCCESS) then Ret (rc, None, w)
  else
    exec_argv_list ← opal_argv_split exec_argv ",";
    match exec_argv, exec_argv_list with
    | Some _, None => Ret (OPAL_ERR_BAD_PARAM, None, w)
    | _, _ => launch_named exec_name exec_argv_list w
    end.

(** [orcm_scd_base_recv] for the command; the answer comes first, and when it
    cannot be sent nothing is launched. *)
Definition recv_launch (answered : bool) (buffer : opal_buffer_t) (w : world) : outcome (option launch_t * world) :=
  let '(rc, command, _, b) := unpack_byte malloc_ok registered other_unpack buffer 1 OPAL_UINT8 in
  if negb (rc =? OPAL_SUCCESS) then Ret (None, w)
  else
    command ← deref command;
    if negb (command =? ORCM_DISPATCH_LAUNCH_EXEC_COMMAND) then Ret (None, w)
    else if negb answered then Ret (None, w)
    else '(_, l, w) ← orcm_scd_base_launch_exec b w; Ret (l, w).
End Launch.
