(* ===== verification/LaunchClaims.v ===== *)
(** * Alarms and the executables they launch

    From the event an analytics plugin raises, through the dispatcher and its
    message, to the executable the scheduler launches. *)

From S2P Require Import Prelude CString Argv Regex LogicalGroup Dss DssFormat DssRoundtrip DssValue DssClaims DssText DssMessage.
From S2P Require Import HashTable RegexRoundtrip LogicalGroupClaims OrcmUtil AnalyticsBase Dispatch ScdLaunch.
From stdpp Require Import base strings numbers list.
From Stdlib Require Import ZArith Lia Ascii.

Open Scope Z_scope.

(** ** The directory of executables *)
Lemma strrchr_None s c : strrchr s c = None <-> no_char c s.
Proof.
  unfold strrchr, no_char. split.
  - intros E. apply fmap_None, find_index_None in E. by rewrite Forall_reverse in E.
  - intros H. apply fmap_None, find_index_None. by apply Forall_reverse.
Qed.

Lemma strrchr_Some s c i : strrchr s c = Some i ->
  exists pre post, s = pre ++ c :: post /\ i = length pre /\ no_char c post.
Proof.
  intros E. unfold strrchr in E. apply fmap_Some in E as (j & E & ->).
  apply find_index_Some in E as (x & Hx & Hc & Hbefore).
  assert (Hr : reverse s = take j (reverse s) ++ x :: drop (S j) (reverse s)) by (symmetry; by apply take_drop_middle).
  apply (f_equal reverse) in Hr. rewrite reverse_involutive, reverse_app, reverse_cons, <- app_assoc in Hr. cbn in Hr.
  unfold eqc in Hc. apply bool_decide_eq_true in Hc as <-.
  exists (reverse (drop (S j) (reverse s))), (reverse (take j (reverse s))). split_and!; [done| |].
  - rewrite length_reverse, length_drop, length_reverse. lia.
  - by apply Forall_reverse.
Qed.

Lemma truncate_slash_plain s t : orcm_scd_truncate_slash s = Some t -> no_char "/" t.
Proof.
  unfold orcm_scd_truncate_slash. destruct (strrchr s "/") as [i|] eqn:E.
  - destruct (_ =? 1)%nat; [done|]. intros [= <-]. apply strrchr_Some in E as (pre & post & -> & -> & Hp).
    change (S (length pre)) with (1 + length pre)%nat. rewrite Nat.add_comm, drop_app_add. done.
  - intros [= <-]. by apply strrchr_None.
Qed.

Lemma exec_dir_slash path : (exec_dir path = path \/ exec_dir path = path ++ cs "/") /\ last (exec_dir path) = Some "/"%char.
Proof.
  unfold exec_dir. change (cs "/") with ["/"%char]. destruct (strrchr path "/") as [i|] eqn:E; [|by rewrite last_snoc; auto].
  destruct (Nat.eqb_spec (length (drop i path)) 1) as [E1|]; [|by rewrite last_snoc; auto].
  split; [by left|]. apply strrchr_Some in E as (pre & post & -> & -> & _). rewrite drop_app_length in E1.
  destruct post; [|done]. by rewrite last_snoc.
Qed.

Section Scheduler.
Context (malloc_ok : Z -> bool) (registered : Z -> bool).
Context (other_unpack : Z -> opal_buffer_t -> Z -> Z * option dss_data * opal_buffer_t).
Context (int_log10 : Z -> Z) (fuel : nat) (groups : groups_t) (event_exec_path : option cstr) (fork_ok : bool).
Abbreviation full_name := (orcm_scd_base_get_full_exec_name int_log10 fuel groups event_exec_path).
Abbreviation launch_exec := (orcm_scd_base_launch_exec malloc_ok registered other_unpack int_log10 fuel groups event_exec_path fork_ok).

Lemma full_name_confined name w full w' : full_name name w = Ret (OPAL_SUCCESS, Some full, w') ->
  exists path final, event_exec_path = Some path /\ full = exec_dir path ++ final /\ no_char "/" final.
Proof.
  unfold orcm_scd_base_get_full_exec_name. destruct event_exec_path as [path|]; [|done].
  destruct (match path with c :: _ => eqc c "0" | [] => false end); [done|].
  intros ([[rc actual] w1] & _ & H)%bind_Ret_inv. cbn beta iota in H. destruct (negb (rc =? OPAL_SUCCESS)); [done|].
  destruct actual as [actual|]; [|done]. destruct (orcm_scd_truncate_slash actual) as [final|] eqn:E; [|done].
  injection H as <- <-. exists path, final. eauto using truncate_slash_plain.
Qed.

Definition confined (l : launch_t) : Prop :=
  exists path name, event_exec_path = Some path /\ ln_exec l = exec_dir path ++ name /\ no_char "/" name /\
    last (exec_dir path) = Some "/"%char /\ (exec_dir path = path \/ exec_dir path = path ++ cs "/") /\
    match ln_argv l with Some argv => exists args, argv = ln_exec l :: args | None => True end.

Lemma launch_named_confined name args w rc l w' :
  launch_named int_log10 fuel groups event_exec_path fork_ok name args w = Ret (rc, Some l, w') -> confined l.
Proof.
  unfold launch_named. intros ([[rc1 full] w1] & E & H)%bind_Ret_inv. cbn beta iota in H.
  destruct (Z.eqb_spec rc1 OPAL_SUCCESS) as [->|]; [|done]. cbn [negb] in H.
  apply bind_Ret_inv in H as (f & Ef & H). destruct full as [f'|]; [|done]. injection Ef as ->.
  apply full_name_confined in E as (path & final & -> & -> & Hp). exists path, final. destruct (exec_dir_slash path) as [Hd Hl].
  unfold orcm_scd_base_fork_to_launch in H.
  destruct args as [args|]; [rewrite argv_insert_element_correct in H by lia|]; cbn in H; destruct fork_ok; try done;
    injection H as _ <- _; cbn; eauto 10.
Qed.

Lemma launch_exec_confined buf w rc l w' : launch_exec buf w = Ret (rc, Some l, w') -> confined l.
Proof.
  unfold orcm_scd_base_launch_exec. intros ([[[rc0 name] argv] b] & _ & H)%bind_Ret_inv. cbn beta iota in H.
  destruct (negb (rc0 =? OPAL_SUCCESS)); [done|]. apply bind_Ret_inv in H as (args & _ & H).
  destruct argv, args; try done; by apply launch_named_confined in H.
Qed.
End Scheduler.

(** C20: whatever message the scheduler gets and whatever groups it knows, an executable it launches lies directly in
    the directory of executables: the path is the configured directory, a slash and a name without a slash.  The
    arguments, if there are any, follow the path. *)
Theorem launch_confined malloc_ok registered other_unpack int_log10 fuel groups event_exec_path fork_ok answered buffer w l w' :
  recv_launch malloc_ok registered other_unpack int_log10 fuel groups event_exec_path fork_ok answered buffer w = Ret (Some l, w') ->
  confined event_exec_path l.
Proof.
  unfold recv_launch. destruct (unpack_byte _ _ _ buffer 1 OPAL_UINT8) as [[[rc command] cnt] b].
  destruct (negb (rc =? OPAL_SUCCESS)); [done|]. intros (c & _ & H)%bind_Ret_inv.
  destruct (negb (c =? ORCM_DISPATCH_LAUNCH_EXEC_COMMAND)); [done|]. destruct (negb answered); [done|].
  apply bind_Ret_inv in H as ([[rc' l'] w1] & H & E). cbn beta iota in E. injection E as -> ->.
  by apply launch_exec_confined in H.
Qed.

(** ** The request *)
Section Request.
Context (malloc_ok : Z -> bool) (initial threshold : Z) (registered : Z -> bool).
Context (other_pack : Z -> opal_buffer_t -> dss_data -> outcome (Z * opal_buffer_t)).
Context (other_unpack : Z -> opal_buffer_t -> Z -> Z * option dss_data * opal_buffer_t).
Context (desc : bool).
Hypothesis Hmalloc : forall n, malloc_ok n = true.
Hypothesis Hinitial : 0 < initial < 2 ^ 31.
Hypothesis Hthreshold : 0 < threshold < 2 ^ 31.

Abbreviation enc_item := (enc_item registered).
Abbreviation holds_items b items := (holds desc b (items ≫= enc_item desc)).
Abbreviation pack_exec := (dfg_pack_exec malloc_ok initial threshold registered other_pack desc).

(** Name and arguments together leave room for the rest of the message. *)
Definition request_short (name args : option cstr) : Prop :=
  Z.of_nat (length (default [] name) + length (default [] args)) <= 2 ^ 30.

Lemma exec_items_fit name args : request_short (Some name) args -> fits_message registered desc (exec_items name args).
Proof.
  intros Hn. unfold request_short in Hn. cbn [default] in Hn. unfold fits_message, exec_items. cbn [app]. rewrite !bind_cons, !length_app.
  pose proof (length_text_item registered desc name).
  assert (length (enc_item desc (byte_item ORCM_DISPATCH_LAUNCH_EXEC_COMMAND)) <= 10)%nat by (destruct desc; by apply Nat.leb_le).
  assert (forall x, length (enc_item desc (bool_item x)) <= 10)%nat as Hbool by (intros; destruct desc; by apply Nat.leb_le).
  specialize (Hbool (match args with Some _ => true | None => false end)). unfold INT_MAX in *.
  destruct args as [args|]; cbn [default id from_option] in *; [|cbn; cbn in Hn; lia]. rewrite bind_singleton.
  pose proof (length_text_item registered desc args). lia.
Qed.

Lemma exec_packed name args : cstr_ok (Some name) -> cstr_ok args -> request_short (Some name) args ->
  exists b, pack_exec name args = Ret (Some b) /\ delivers registered desc b (exec_items name args).
Proof.
  intros Hn Ha Hshort.
  destruct (fresh_delivered malloc_ok initial threshold registered other_pack Hmalloc desc Hinitial Hthreshold
    (byte_item ORCM_DISPATCH_LAUNCH_EXEC_COMMAND) (tail (exec_items name args))) as (b & P & H).
  - change (Forall (item_ok registered) (exec_items name args)). unfold exec_items. cbn [app].
    repeat (apply Forall_cons_iff; split); [by apply byte_item_ok|by apply text_item_ok|apply bool_item_ok|].
    destruct args; [by apply Forall_singleton, text_item_ok|constructor].
  - by apply exec_items_fit.
  - exists b. split; [|exact H]. unfold dfg_pack_exec.
    by rewrite (pack_items_packed _ _ _ _ _ _ (exec_items name args) _ P).
Qed.

Lemma exec_unpacked name args b rest : cstr_ok (Some name) -> cstr_ok args ->
  holds desc b ((tail (exec_items name args) ≫= enc_item desc) ++ rest) ->
  exists b', orcm_scd_base_unpack_exec_buffer malloc_ok registered other_unpack b = Ret (OPAL_SUCCESS, Some name, args, b').
Proof.
  intros Hn Ha Hb. unfold exec_items in Hb. cbn [app tail] in Hb. rewrite !bind_cons, <- !app_assoc in Hb.
  destruct (text_holds malloc_ok registered other_unpack Hmalloc desc b (Some name) None _ Hn Hb) as (b1 & E1 & Hb1).
  destruct (unpack_byte_holds malloc_ok registered other_unpack Hmalloc desc b1 _ OPAL_BOOL _ (bool_item_ok _ _) Hb1) as (b2 & E2 & Hb2).
  unfold orcm_scd_base_unpack_exec_buffer. rewrite E1, bind_Ret. cbn [negb Z.eqb OPAL_SUCCESS]. rewrite E2. cbn [negb Z.eqb OPAL_SUCCESS].
  destruct args as [args|]; cbn [default Z.eqb]; [|by exists b2].
  rewrite bind_singleton in Hb2.
  destruct (text_holds malloc_ok registered other_unpack Hmalloc desc b2 (Some args) None _ Ha Hb2) as (b3 & E3 & _).
  rewrite E3, bind_Ret. by exists b3.
Qed.

(** The scheduler launches what the message names. *)
Lemma recv_named int_log10 fuel groups path fork_ok name args pieces b w :
  cstr_ok (Some name) -> cstr_ok args -> opal_argv_split args "," = Ret pieces -> (args <> None -> pieces <> None) ->
  holds_items b (exec_items name args) ->
  recv_launch malloc_ok registered other_unpack int_log10 fuel groups path fork_ok true b w =
    ('(_, l, w) ← launch_named int_log10 fuel groups path fork_ok (Some name) pieces w; Ret (l, w)).
Proof.
  intros Hn Ha Hs Hp Hb. change (exec_items name args) with (byte_item ORCM_DISPATCH_LAUNCH_EXEC_COMMAND :: tail (exec_items name args)) in Hb.
  rewrite bind_cons in Hb.
  destruct (unpack_byte_holds malloc_ok registered other_unpack Hmalloc desc b ORCM_DISPATCH_LAUNCH_EXEC_COMMAND OPAL_UINT8 _
    (byte_item_ok registered _ ltac:(done)) Hb) as (b1 & E1 & Hb1).
  rewrite <- (app_nil_r (_ ≫= _)) in Hb1. destruct (exec_unpacked name args b1 [] Hn Ha Hb1) as (b2 & E2).
  unfold recv_launch. rewrite E1. cbn [negb Z.eqb OPAL_SUCCESS deref]. rewrite bind_Ret, Z.eqb_refl. cbn [negb].
  unfold orcm_scd_base_launch_exec. rewrite E2, bind_Ret. cbn [negb Z.eqb OPAL_SUCCESS]. rewrite Hs, bind_Ret.
  destruct args, pieces; done || (exfalso; by apply Hp).
Qed.

(** The name that the group items expand to, without the directories in it. *)
Lemma launch_named_spec int_log10 fuel groups path name pieces actual final w w' :
  match path with c :: _ => eqc c "0" = false | [] => True end ->
  orcm_logical_group_parse_string int_log10 fuel groups (Some name) w = Ret (OPAL_SUCCESS, Some actual, w') ->
  orcm_scd_truncate_slash actual = Some final ->
  launch_named int_log10 fuel groups (Some path) true (Some name) pieces w =
    Ret (OPAL_SUCCESS, Some (MkLaunch (exec_dir path ++ final) (cons (exec_dir path ++ final) <$> pieces)), w').
Proof.
  intros Hp He Ht. unfold launch_named, orcm_scd_base_get_full_exec_name.
  assert (match path with c :: _ => eqc c "0" | [] => false end = false) as -> by by destruct path.
  rewrite He, bind_Ret. cbn [negb Z.eqb OPAL_SUCCESS]. rewrite Ht, bind_Ret. cbn [negb Z.eqb OPAL_SUCCESS deref]. rewrite bind_Ret.
  destruct pieces as [pieces|]; [|done]. rewrite argv_insert_element_correct by lia. done.
Qed.
End Request.

(** A request that tries to leave the directory. *)
Definition no_groups : groups_t := match new_groups always with Ret g => g | _ => opal_hash_table_construct end.

Definition demo_message : opal_buffer_t :=
  match dfg_pack_exec (fun _ => true) 128 1024 (fun _ => false) no_pack false (cs "../../tmp/alert") (Some (cs "n1,hot")) with
  | Ret (Some b) => match deliver false b with Ret rb => rb | _ => opal_buffer_construct false end
  | _ => opal_buffer_construct false
  end.

Abbreviation demo_scheduler :=
  (recv_launch (fun _ => true) (fun _ => false) no_unpack ideal_log10 10 no_groups (Some (cs "/opt/bin")) true true).

Lemma launch_confined_witness :
  exists l w', demo_scheduler demo_message world0 = Ret (Some l, w') /\ ln_exec l = cs "/opt/bin/alert" /\
    ln_argv l = Some [cs "/opt/bin/alert"; cs "n1"; cs "hot"] /\ confined (Some (cs "/opt/bin")) l.
Proof.
  eexists _, _. assert (E : demo_scheduler demo_message world0 =
    Ret (Some (MkLaunch (cs "/opt/bin/alert") (Some [cs "/opt/bin/alert"; cs "n1"; cs "hot"])), world0)) by (vm_compute; reflexivity).
  split; [exact E|]. split; [done|]. split; [done|]. exact (launch_confined _ _ _ _ _ _ _ _ _ _ _ _ _ E).
Defined.
