(* ===== verification/DispatchClaims.v ===== *)
(** * What the dispatcher makes of events

    An alarm of the analytics reaches the notifier or the scheduler once,
    samples are stored and committed in groups, and an event that is stored
    twice is stored empty the second time. *)

From S2P Require Import Prelude CString Argv Regex LogicalGroup Dss DssFormat DssRoundtrip DssValue DssClaims DssText DssMessage.
From S2P Require Import RegexRoundtrip LogicalGroupClaims OrcmUtil AnalyticsBase Dispatch ScdLaunch LaunchClaims.
From stdpp Require Import base strings numbers list.
From Stdlib Require Import ZArith Lia Ascii Sorted.

Open Scope Z_scope.

(** ** Descriptions of events *)
Definition reserved : list cstr := cs <$> ["storage_type"; "notifier_msg"; "notifier_action"; "exec_name"; "exec_argv"].

(** An entry the dispatcher passes over. *)
Definition passive (v : orcm_value_t) : Prop := exists k, ov_key v = Some k /\ k ∉ reserved.

Definition text_value (key s : cstr) : orcm_value_t := MkOrcmValue (Some key) OPAL_STRING (VString (Some s)) None.
Definition storage_value (t : Z) : orcm_value_t := MkOrcmValue (Some (cs "storage_type")) OPAL_UINT (VInt t) None.

(** A request for an executable: its name or its arguments. *)
Definition exec_value (r : bool * cstr) : orcm_value_t := text_value (if r.1 then cs "exec_name" else cs "exec_argv") r.2.

(** The first of a kind. *)
Fixpoint chosen (b : bool) (reqs : list (bool * cstr)) : option cstr :=
  match reqs with
  | [] => None
  | r :: reqs' => if Bool.eqb r.1 b then Some r.2 else chosen b reqs'
  end.

Lemma passive_takes v k name old : passive v -> ov_key v = Some k -> cs name ∈ reserved -> takes k v name old = false.
Proof.
  intros (k' & E & Hk) E' Hr. rewrite E in E'. injection E' as ->. unfold takes, strcmp0.
  rewrite bool_decide_eq_false_2; [done|]. by intros ->.
Qed.

Lemma iterate_passive l rest d : Forall passive l -> dfg_iterate_ras_desc (l ++ rest) d = dfg_iterate_ras_desc rest d.
Proof.
  induction 1 as [|v l Hv _ IH]; [done|]. cbn [app dfg_iterate_ras_desc]. pose proof Hv as (k & E & _). rewrite E.
  by rewrite !(passive_takes v k _ _ Hv E) by by apply (bool_decide_unpack _).
Qed.

Lemma iterate_requests reqs msg action name args :
  dfg_iterate_ras_desc (exec_value <$> reqs) (MkDesc (Some msg) (Some action) name args) =
    Ret (OPAL_SUCCESS, MkDesc (Some msg) (Some action) (match name with Some _ => name | None => chosen true reqs end)
                         (match args with Some _ => args | None => chosen false reqs end)).
Proof.
  revert name args. induction reqs as [|[[] x] reqs IH]; intros name args; [by destruct name, args| |].
  - destruct name as [y|]; [exact (IH (Some y) args)|exact (IH (Some x) args)].
  - destruct args as [y|]; [exact (IH name (Some y))|exact (IH name (Some x))].
Qed.

(** ** What the analytics ask for *)

(** An attribute of a step that asks for an executable: its kind. *)
Definition exec_kind (a : orcm_value_t) : option bool :=
  match ov_key a with
  | Some k => if starts_with k (cs "exec_name") then Some true else if starts_with k (cs "exec_argv") then Some false else None
  | None => None
  end.

(** The first attribute of a kind. *)
Fixpoint asked (b : bool) (attrs : list orcm_value_t) : option cstr :=
  match attrs with
  | [] => None
  | a :: attrs' => if bool_decide (exec_kind a = Some b) then match data_string a with SStr x => Some x | _ => None end else asked b attrs'
  end.

Lemma set_event_attr_spec ev a key rc ev' : orcm_analytics_base_set_event_attr ev a key = Ret (rc, ev') -> rc = OPAL_SUCCESS ->
  exists x, data_string a = SStr x /\ ev' = with_description (fun l => l ++ [text_value key x]) ev.
Proof.
  unfold orcm_analytics_base_set_event_attr. destruct (data_string a) as [|x|]; cbn; [by intros [= <- _]| |done].
  intros [= <- <-] _. by exists x.
Qed.

Lemma with_description_app l1 l2 ev :
  with_description (fun l => l ++ l2) (with_description (fun l => l ++ l1) ev) = with_description (fun l => l ++ l1 ++ l2) ev.
Proof. unfold with_description. cbn. by rewrite <- app_assoc. Qed.

Lemma exec_attrs_spec attrs ev n a ev' : exec_attrs attrs ev n a = Ret (OPAL_SUCCESS, ev') ->
  exists reqs, ev' = with_description (fun l => l ++ (exec_value <$> reqs)) ev /\
    (n = false -> chosen true reqs = asked true attrs /\ is_Some (chosen true reqs)) /\ (a = false -> chosen false reqs = asked false attrs).
Proof.
  revert ev n a. induction attrs as [|at_ attrs IH]; intros ev n a H; cbn [exec_attrs] in H.
  { destruct n; [|done]. injection H as <-. exists []. split_and!; [|done|done]. unfold with_description. cbn. rewrite app_nil_r. by destruct ev. }
  destruct (ov_key at_) as [k|] eqn:Ek; [|done].
  apply bind_Ret_inv in H as ([[[rc ev1] n1] a1] & Hs & H). cbn beta iota in H.
  destruct (Z.eqb_spec rc OPAL_SUCCESS) as [->|]; [|by injection H]. cbn [negb] in H.
  assert (Hk : exec_kind at_ = if starts_with k (cs "exec_name") then Some true else if starts_with k (cs "exec_argv") then Some false else None)
    by by unfold exec_kind; rewrite Ek.
  destruct (starts_with k (cs "exec_name")).
  { apply bind_Ret_inv in Hs as ([rc0 ev0] & E & [= -> <- <- <-]).
    destruct (set_event_attr_spec _ _ _ _ _ E eq_refl) as (x & Hx & ->). cbn [asked]. rewrite !Hk, Hx.
    rewrite bool_decide_eq_true_2, bool_decide_eq_false_2 by done.
    destruct a; cbn [andb] in H; [injection H as <-; exists [(true, x)]; by rewrite ?fmap_cons|].
    apply IH in H as (reqs & -> & _ & Ha). exists ((true, x) :: reqs). rewrite with_description_app. split_and!; [done|done|exact Ha]. }
  destruct (starts_with k (cs "exec_argv")).
  { apply bind_Ret_inv in Hs as ([rc0 ev0] & E & [= -> <- <- <-]).
    destruct (set_event_attr_spec _ _ _ _ _ E eq_refl) as (x & Hx & ->). cbn [asked]. rewrite !Hk, Hx.
    rewrite bool_decide_eq_false_2, bool_decide_eq_true_2 by done.
    destruct n; cbn [andb] in H; [injection H as <-; exists [(false, x)]; by rewrite ?fmap_cons|].
    apply IH in H as (reqs & -> & Hn & _). exists ((false, x) :: reqs). rewrite with_description_app. split_and!; [done|exact Hn|done]. }
  injection Hs as <- <- <-. cbn [asked]. rewrite !Hk, !bool_decide_eq_false_2 by done.
  destruct (n && a) eqn:Ena; [|by apply IH].
  injection H as <-. apply andb_true_iff in Ena as [-> ->]. exists []. split_and!; [|done|done].
  unfold with_description. cbn. rewrite app_nil_r. by destruct ev.
Qed.

Lemma copy_items_success src dest d : copy_items src dest = (OPAL_SUCCESS, d) -> d = dest ++ src.
Proof.
  revert dest. induction src as [|v src IH]; intros dest; cbn; [intros [= <-]; by rewrite app_nil_r|].
  unfold orcm_util_copy_orcm_value. destruct (known_type (ov_type v)); [|done]. intros ->%IH. by rewrite <- app_assoc.
Qed.

Lemma event_create_spec data type severity ev :
  orcm_analytics_base_event_create data type severity = Ret (Some ev) ->
  ev_type ev = type /\ ev_severity ev = severity /\ (ev_description ev = [] \/ Some (ev_description ev) = av_non_compute_data data).
Proof.
  unfold orcm_analytics_base_event_create. destruct (orcm_util_copy_list_items (av_key data) []) as [rc1 reporter].
  destruct (negb (rc1 =? OPAL_SUCCESS)); [done|]. destruct (orcm_util_copy_list_items (av_compute_data data) []) as [rc2 d].
  destruct (negb (rc2 =? OPAL_SUCCESS)); [done|]. intros (nc & Enc & H)%bind_Ret_inv. apply bind_Ret_inv in H as (ts & _ & H).
  destruct (av_non_compute_data data) as [nc'|]; [|done]. injection Enc as ->.
  destruct ((0 <? ts) && (length nc =? 1)%nat); [by injection H as <-; auto|].
  destruct (orcm_util_copy_list_items (Some nc) []) as [rc3 l] eqn:E3. destruct (Z.eqb_spec rc3 OPAL_SUCCESS) as [->|]; [|done].
  injection H as <-. apply copy_items_success in E3 as ->. cbn. auto.
Qed.

(** The event of an alarm. *)
Lemma notifier_event_spec cv av attrs severity msg action ev :
  orcm_analytics_base_gen_notifier_event cv av attrs severity (Some msg) (Some action) [] = Ret (OPAL_SUCCESS, [ev]) ->
  exists l reqs, ev_type ev = ORCM_RAS_EVENT_EXCEPTION /\ ev_severity ev = severity /\ (l = [] \/ Some l = av_non_compute_data av) /\
    ev_description ev = l ++ [storage_value ORCM_STORAGE_TYPE_NOTIFICATION; text_value (cs "notifier_msg") msg;
                              text_value (cs "notifier_action") action] ++ (exec_value <$> reqs) /\
    (starts_with action (cs "exec") = true ->
       chosen true reqs = asked true attrs /\ chosen false reqs = asked false attrs /\ is_Some (asked true attrs)).
Proof.
  unfold orcm_analytics_base_gen_notifier_event. destruct (starts_with action (cs "none")); [done|].
  intros (e & Ee & H)%bind_Ret_inv. destruct e as [e|]; [|done].
  apply event_create_spec in Ee as (Ht & Hs & Hd). cbn [av_non_compute_data orcm_analytics_base_get_analytics_value
    orcm_util_load_orcm_analytics_value_compute] in Hd.
  apply bind_Ret_inv in H as ([rc e'] & Hn & H). cbn beta iota in H.
  destruct (Z.eqb_spec rc OPAL_SUCCESS) as [->|]; [|by injection H as Hrc]. injection H as <-.
  unfold orcm_analytics_base_event_set_notifier_attr in Hn. cbn [orcm_analytics_base_event_set_storage] in Hn.
  change (orcm_analytics_base_event_set_storage e ORCM_STORAGE_TYPE_NOTIFICATION) with
    (OPAL_SUCCESS, with_description (fun l => l ++ [storage_value ORCM_STORAGE_TYPE_NOTIFICATION]) e) in Hn.
  cbn beta iota zeta delta [negb Z.eqb OPAL_SUCCESS] in Hn.
  unfold orcm_analytics_base_event_set_description, orcm_util_load_orcm_value in Hn.
  change (known_type OPAL_STRING) with true in Hn. cbn beta iota zeta delta [negb Z.eqb OPAL_SUCCESS] in Hn.
  rewrite !with_description_app in Hn. exists (ev_description e).
  destruct (starts_with action (cs "exec")).
  - apply exec_attrs_spec in Hn as (reqs & -> & Hname & Hargv). destruct (Hname eq_refl) as [En Hsome].
    exists reqs. rewrite with_description_app. split_and!; try done. intros _. rewrite <- En. auto.
  - injection Hn as <-. exists []. by split_and!.
Qed.

(** The row of an event in the database. *)
Definition stored_row (ev : orcm_ras_event_t) : list orcm_value_t :=
  [text_value (cs "type") (orcm_dispatch_base_print_type (ev_type ev));
   text_value (cs "severity") (orcm_dispatch_base_print_severity (ev_severity ev))]
  ++ ev_reporter ev ++ ev_description ev ++ ev_data ev ++
  [MkOrcmValue (Some (cs "ctime")) OPAL_TIMEVAL (VTimeval (ev_timestamp ev) 0) None].

(** The event after its lists were moved away. *)
Definition emptied (ev : orcm_ras_event_t) : orcm_ras_event_t := MkRas [] (ev_type ev) (ev_timestamp ev) (ev_severity ev) [] [].

Lemma convert_and_log commit ev s :
  dfg_convert_and_log_data_to_db commit ev s = (emptied ev, dfg_generate_database_event commit (stored_row ev) (ev_type ev) s).
Proof. reflexivity. Qed.

(** ** Alarms *)
Lemma starts_with_prefix (lit s : cstr) {A : Type} (x y : A) :
  (if starts_with lit s then x else y) = if decide (lit `prefix_of` s) then x else y.
Proof.
  unfold starts_with. destruct (bool_decide_reflect (take (length lit) s = lit)) as [E|E], (decide (lit `prefix_of` s)) as [P|P]; try done.
  - destruct P. exists (drop (length lit) s). by rewrite <- E at 1; rewrite take_drop.
  - destruct E, P as [k ->]. by rewrite take_app_length.
Qed.

Section Alarm.
Context (malloc_ok : Z -> bool) (initial threshold : Z) (registered : Z -> bool).
Context (other_pack : Z -> opal_buffer_t -> dss_data -> outcome (Z * opal_buffer_t)).
Context (other_unpack : Z -> opal_buffer_t -> Z -> Z * option dss_data * opal_buffer_t).
Context (desc : bool).
Hypothesis Hmalloc : forall n, malloc_ok n = true.
Hypothesis Hinitial : 0 < initial < 2 ^ 31.
Hypothesis Hthreshold : 0 < threshold < 2 ^ 31.

Abbreviation requests := (storage_requests malloc_ok initial threshold registered other_pack desc).
Abbreviation notify := (dfg_generate_notifier_event malloc_ok initial threshold registered other_pack desc).
Abbreviation send_exec := (dfg_send_exec malloc_ok initial threshold registered other_pack desc).

Lemma requests_passive l rest ecd raw s : Forall passive l -> requests (l ++ rest) ecd raw s = requests rest ecd raw s.
Proof.
  induction 1 as [|v l (k & E & Hk) _ IH]; [done|]. cbn [app storage_requests]. rewrite E. unfold strcmp0.
  rewrite bool_decide_eq_false_2; [exact IH|]. intros ->. apply Hk. by apply (bool_decide_unpack _).
Qed.

Lemma requests_exec reqs ecd raw s : requests (exec_value <$> reqs) ecd raw s = Ret (raw, s).
Proof. induction reqs as [|[[] x] reqs IH]; [done|exact IH|exact IH]. Qed.

Lemma alarm_requests l msg action reqs ecd s : Forall passive l ->
  requests (l ++ [storage_value ORCM_STORAGE_TYPE_NOTIFICATION; text_value (cs "notifier_msg") msg;
                  text_value (cs "notifier_action") action] ++ (exec_value <$> reqs)) ecd false s =
    (s ← notify ecd s; Ret (false, s)).
Proof.
  intros Hl. rewrite (requests_passive l _ _ _ _ Hl). cbn [app]. destruct (notify ecd s) as [s'| |] eqn:E.
  2, 3: cbn -[notify]; by rewrite E.
  cbn -[notify fmap list_fmap]. rewrite E. cbn -[fmap list_fmap]. apply requests_exec.
Qed.

Lemma alarm_notify l msg action reqs ecd s : Forall passive l ->
  ev_description ecd = l ++ [storage_value ORCM_STORAGE_TYPE_NOTIFICATION; text_value (cs "notifier_msg") msg;
                             text_value (cs "notifier_action") action] ++ (exec_value <$> reqs) ->
  0 <= ev_severity ecd < ORCM_RAS_SEVERITY_UNKNOWN ->
  notify ecd s = if starts_with action (cs "exec") then send_exec (chosen true reqs) (chosen false reqs) s
                 else Ret (posted (NotifySystem (ev_severity ecd) msg action) s).
Proof.
  intros Hl Hd Hs. unfold dfg_generate_notifier_event. rewrite Hd, (iterate_passive l _ _ Hl).
  change (dfg_iterate_ras_desc _ _) with (dfg_iterate_ras_desc (exec_value <$> reqs) (MkDesc (Some msg) (Some action) None None)).
  rewrite iterate_requests, bind_Ret. cbn [negb Z.eqb OPAL_SUCCESS].
  assert ((ORCM_RAS_SEVERITY_EMERG <=? ev_severity ecd) && (ev_severity ecd <? ORCM_RAS_SEVERITY_UNKNOWN) = true) as ->
    by (unfold ORCM_RAS_SEVERITY_EMERG; zcase; lia).
  cbn [rd_msg rd_action rd_exec_name rd_exec_argv deref]. rewrite !bind_Ret. by destruct (starts_with action (cs "exec")).
Qed.

(** What the scheduler launches for the message [b]. *)
Definition launches (b : opal_buffer_t) (name : cstr) (args : option cstr) : Prop :=
  forall int_log10 fuel groups path pieces actual final w w',
    match path with c :: _ => eqc c "0" = false | [] => True end ->
    opal_argv_split args "," = Ret pieces -> (args <> None -> pieces <> None) ->
    orcm_logical_group_parse_string int_log10 fuel groups (Some name) w = Ret (OPAL_SUCCESS, Some actual, w') ->
    orcm_scd_truncate_slash actual = Some final ->
    (rb ← deliver desc b; recv_launch malloc_ok registered other_unpack int_log10 fuel groups (Some path) true true rb w) =
      Ret (Some (MkLaunch (exec_dir path ++ final) (cons (exec_dir path ++ final) <$> pieces)), w').

Lemma send_exec_spec name args s : cstr_ok (Some name) -> cstr_ok args -> request_short (Some name) args ->
  exists b, send_exec (Some name) args s = Ret (posted (SendScheduler b) s) /\ launches b name args.
Proof.
  intros Hn Ha Hshort.
  destruct (exec_packed malloc_ok initial threshold registered other_pack desc Hmalloc Hinitial Hthreshold name args Hn Ha Hshort)
    as (b & E & rb & Hrb & Hb).
  exists b. split; [unfold dfg_send_exec; by rewrite E|]. intros int_log10 fuel groups path pieces actual final w w' Hpath Hs Hp He Ht.
  rewrite Hrb, bind_Ret, (recv_named malloc_ok registered other_unpack desc Hmalloc int_log10 fuel groups (Some path) true name args pieces _ w Hn Ha Hs Hp Hb).
  by rewrite (launch_named_spec int_log10 fuel groups path name pieces actual final w w' Hpath He Ht).
Qed.

(** C14: an alarm raised by a step of a workflow is handled once.  If its action is a prefix of "exec" (the code compares
    up to the length of the action, so "e" and the empty action count), the scheduler gets a message, and on that
    message it launches the executable the attributes of the step name, from the directory of executables and with the
    arguments they name; for any other action the notifier gets the severity, the message and the action.  Beside that
    the event is stored, with everything it holds, exactly if the policy says so and the database is open.  Assumed: the
    severity is one of the known ones; the non-compute data of the sample, which go into the event's description, do
    not have keys the dispatcher itself looks for; name and arguments of the executable have at most 2^30 characters
    together; for the launch, that the configured directory does not begin with the digit 0 (the code refuses
    it), that the group items of the name expand, that the name is not a directory and that the arguments split. *)
Theorem alarm_handled rate store cv av attrs severity msg action ev s :
  orcm_analytics_base_gen_notifier_event cv av attrs severity (Some msg) (Some action) [] = Ret (OPAL_SUCCESS, [ev]) ->
  0 <= severity < ORCM_RAS_SEVERITY_UNKNOWN -> Forall passive (default [] (av_non_compute_data av)) ->
  cstr_ok (asked true attrs) -> cstr_ok (asked false attrs) -> request_short (asked true attrs) (asked false attrs) ->
  exists alarm ev' s',
    dfg_generate rate store malloc_ok initial threshold registered other_pack desc (Some ev) s = Ret (Some ev', s') /\
    dfg_log s' = dfg_log s ++ [alarm] ++
      (if store && (0 <=? event_dbhandle s) then [StoreNew (event_dbhandle s) ORCM_DB_EVENT_DATA (stored_row ev)] else []) /\
    (if decide (action `prefix_of` cs "exec")
     then exists b name, asked true attrs = Some name /\ alarm = SendScheduler b /\ launches b name (asked false attrs)
     else alarm = NotifySystem severity msg action).
Proof.
  intros Hev Hsev Hpas Hn Ha Hshort. apply notifier_event_spec in Hev as (l & reqs & Ht & Hs & Hl & Hd & Hreq).
  assert (Hpl : Forall passive l) by (destruct Hl as [->|Hl]; [constructor|by rewrite <- Hl in Hpas]).
  rewrite <- Hs in Hsev.
  assert (Hno : exists alarm, notify ev s = Ret (posted alarm s) /\
    (if starts_with action (cs "exec")
     then exists b name, asked true attrs = Some name /\ alarm = SendScheduler b /\ launches b name (asked false attrs)
     else alarm = NotifySystem severity msg action)).
  { rewrite (alarm_notify l msg action reqs ev s Hpl Hd Hsev). destruct (starts_with action (cs "exec")); [|rewrite Hs; eauto].
    destruct (Hreq eq_refl) as (-> & -> & [name En]). rewrite En in Hn, Hshort |- *.
    destruct (send_exec_spec name (asked false attrs) s Hn Ha Hshort) as (b & E & Hb). eauto 10. }
  destruct Hno as (alarm & En & Halarm). rewrite starts_with_prefix in Halarm.
  assert (Hr : requests (ev_description ev) ev false s = Ret (false, posted alarm s)) by (rewrite Hd, alarm_requests, En by done; done).
  unfold dfg_generate, dfg_generate_storage_events. rewrite Hr, !bind_Ret. cbv beta iota zeta.
  rewrite Ht. cbn [Z.eqb orb andb ORCM_RAS_EVENT_EXCEPTION].
  change (1 =? 1) with true. cbn [orb andb].
  destruct store; cbn [andb]; [|by eexists alarm, _, _; split; [done|]; rewrite app_nil_r].
  eexists alarm, _, _. split; [rewrite convert_and_log; reflexivity|]. split; [|done]. rewrite Ht.
  unfold dfg_generate_database_event. change (ORCM_RAS_EVENT_EXCEPTION =? ORCM_RAS_EVENT_SENSOR) with false. cbn [event_dbhandle posted].
  destruct (0 <=? event_dbhandle s); cbn; by rewrite <- ?app_assoc.
Qed.
End Alarm.

(** ** Samples *)

(** The rows of samples given to the database of handle [h], those since the
    last commit, and the commits. *)
Definition env_rows (h : Z) (log : list dfg_action) : list (list orcm_value_t) :=
  log ≫= fun a => match a with StoreNew h' t row => if (h' =? h) && (t =? ORCM_DB_ENV_DATA) then [row] else [] | _ => [] end.

Definition uncommitted (h : Z) (log : list dfg_action) : list (list orcm_value_t) :=
  foldl (fun rows a => match a with
    | StoreNew h' t row => if (h' =? h) && (t =? ORCM_DB_ENV_DATA) then rows ++ [row] else rows
    | CommitDb h' => if h' =? h then [] else rows
    | _ => rows
    end) [] log.

Definition commits (h : Z) (log : list dfg_action) : Z :=
  Z.of_nat (length (log ≫= fun a => match a with CommitDb h' => if h' =? h then [h] else [] | _ => [] end)).

Lemma env_rows_snoc h log a : env_rows h (log ++ [a]) = env_rows h log ++ env_rows h [a].
Proof. unfold env_rows. by rewrite bind_app. Qed.

Lemma commits_snoc h log a : commits h (log ++ [a]) = commits h log + commits h [a].
Proof. unfold commits. rewrite bind_app, length_app. lia. Qed.

Section Samples.
Context (malloc_ok : Z -> bool) (initial threshold : Z) (registered : Z -> bool).
Context (other_pack : Z -> opal_buffer_t -> dss_data -> outcome (Z * opal_buffer_t)).
Context (desc : bool) (rate : Z) (store : bool) (h : Z).
Hypothesis Hrate : 1 < rate.
Hypothesis Hh : 0 <= h.

Abbreviation generate := (dfg_generate rate store malloc_ok initial threshold registered other_pack desc).
Abbreviation component := (mca_dispatch_dfg_component rate store malloc_ok initial threshold registered other_pack desc).

(** The dispatcher with its module and an open database for the samples. *)
Definition started : orcm_dispatch_base_t dfg_t * dfg_t :=
  let '(_, base, s) := orcm_dispatch_base_select [component] (MkDispatchBase [] rate false) dfg_start in
  (base, dfg_env_db_open_cbfunc h 0 s).

Fixpoint dispatch_all (actives : list (orcm_dispatch_active_module_t dfg_t)) (evs : list orcm_ras_event_t) (s : dfg_t) : outcome dfg_t :=
  match evs with
  | [] => Ret s
  | ev :: evs' => s ← orcm_dispatch_base_event actives (Some ev) s; dispatch_all actives evs' s
  end.

(** Rows are stored in order, and the counter counts the uncommitted ones. *)
Record sampled (rows : list (list orcm_value_t)) (s : dfg_t) : Prop := {
  sm_handle : env_dbhandle s = h;
  sm_rows : env_rows h (dfg_log s) = rows;
  sm_count : env_db_commit_count s = Z.of_nat (length rows) `mod` rate;
  sm_pending : uncommitted h (dfg_log s) = drop (Z.to_nat (rate * (Z.of_nat (length rows) / rate))) rows;
  sm_commits : commits h (dfg_log s) = Z.of_nat (length rows) / rate
}.

(** What a request to store one more row appends. *)
Lemma sampled_step rows row s : sampled rows s ->
  sampled (rows ++ [row]) (dfg_generate_database_event rate row ORCM_RAS_EVENT_SENSOR s).
Proof.
  intros [Hs Hr Hc Hp Hm]. unfold dfg_generate_database_event. change (ORCM_RAS_EVENT_SENSOR =? ORCM_RAS_EVENT_SENSOR) with true.
  rewrite Hs. destruct (Z.leb_spec 0 h); [|lia]. destruct (Z.ltb_spec 1 rate); [|lia]. cbn [env_db_commit_count posted env_dbhandle event_dbhandle dfg_log]. rewrite ?Hs.
  set (n := Z.of_nat (length rows)) in *.
  assert (Hn : Z.of_nat (length (rows ++ [row])) = n + 1) by (rewrite length_app; cbn; lia).
  pose proof (Z.div_mod n rate ltac:(lia)) as Hdm. pose proof (Z.mod_pos_bound n rate ltac:(lia)) as Hb.
  assert (Hdrop : (Z.to_nat (rate * (n / rate)) <= length rows)%nat) by lia.
  rewrite Hc. destruct (Z.eqb_spec (n `mod` rate + 1) rate) as [E|E].
  - assert (Hq : (n + 1) / rate = n / rate + 1) by (symmetry; apply (Z.div_unique_pos _ _ _ 0); lia).
    assert (Hz : (n + 1) `mod` rate = 0) by (symmetry; apply (Z.mod_unique_pos _ _ (n / rate + 1)); lia).
    split; cbn [env_dbhandle dfg_log env_db_commit_count]; rewrite ?Hn, ?Hz, ?Hq; try done.
    + rewrite !env_rows_snoc, Hr. cbn. rewrite Z.eqb_refl. cbn. by rewrite app_nil_r.
    + unfold uncommitted. rewrite !foldl_app. cbn. rewrite Z.eqb_refl. rewrite drop_ge; [done|]. rewrite length_app. cbn. lia.
    + rewrite !commits_snoc, Hm. unfold commits. cbn. rewrite Z.eqb_refl. cbn. lia.
  - assert (Hq : (n + 1) / rate = n / rate) by (symmetry; apply (Z.div_unique_pos _ _ _ (n `mod` rate + 1)); lia).
    assert (Hz : (n + 1) `mod` rate = n `mod` rate + 1) by (symmetry; apply (Z.mod_unique_pos _ _ (n / rate)); lia).
    split; cbn [env_dbhandle dfg_log env_db_commit_count]; rewrite ?Hn, ?Hz, ?Hq; try done.
    + rewrite env_rows_snoc, Hr. cbn. by rewrite Z.eqb_refl.
    + unfold uncommitted in *. rewrite foldl_app, Hp. cbn. rewrite Z.eqb_refl. by rewrite drop_app_le.
    + rewrite commits_snoc, Hm. unfold commits. cbn. lia.
Qed.

(** A sample that is stored. *)
Lemma sample_dispatched v ev s : orcm_analytics_base_log_to_database_event v = Ret (OPAL_SUCCESS, [ev]) ->
  Forall passive (default [] (av_non_compute_data v)) ->
  generate (Some ev) s = Ret (Some (emptied ev), dfg_generate_database_event rate (stored_row ev) ORCM_RAS_EVENT_SENSOR s).
Proof.
  intros Hv Hpas. unfold orcm_analytics_base_log_to_database_event in Hv. apply bind_Ret_inv in Hv as ([e|] & Ee & Hv); [|done].
  apply event_create_spec in Ee as (Ht & _ & Hd). cbn in Hv. injection Hv as <-.
  assert (Hp : Forall passive (ev_description e)) by (destruct Hd as [->|Hd]; [constructor|by rewrite <- Hd in Hpas]).
  unfold dfg_generate, dfg_generate_storage_events. cbn [ev_description with_description].
  rewrite requests_passive by done.
  change (storage_requests malloc_ok initial threshold registered other_pack desc [_] _ false s) with (Ret (true, s)).
  rewrite bind_Ret. cbv beta iota zeta. rewrite convert_and_log. cbn [ev_type emptied with_description]. by rewrite Ht.
Qed.

Lemma samples_dispatched vals evs rows s :
  Forall2 (fun v ev => orcm_analytics_base_log_to_database_event v = Ret (OPAL_SUCCESS, [ev])) vals evs ->
  Forall (fun v => Forall passive (default [] (av_non_compute_data v))) vals -> sampled rows s ->
  exists s', dispatch_all (db_actives started.1) evs s = Ret s' /\ sampled (rows ++ (stored_row <$> evs)) s'.
Proof.
  intros Hl. revert rows s. induction Hl as [|v ev vals evs Hv _ IH]; intros rows s Hp Hs; [exists s; by rewrite app_nil_r|].
  apply Forall_cons_iff in Hp as [Hpv Hp].
  destruct (IH (rows ++ [stored_row ev]) _ Hp (sampled_step rows (stored_row ev) s Hs)) as (s' & E & Hs').
  exists s'. rewrite <- app_assoc in Hs'. split; [|done]. cbn [dispatch_all].
  change (db_actives started.1) with [MkActive 20 (orcm_dispatch_dfg_module rate store malloc_ok initial threshold registered other_pack desc) component] in *.
  cbn [orcm_dispatch_base_event am_module dm_generate orcm_dispatch_dfg_module]. rewrite (sample_dispatched v ev s Hv Hpv). exact E.
Qed.

(** Once the dispatcher has started and its database is open, every sample that is to be stored is given to the
    database, in order and with everything it holds.  With a commit rate above one the samples are committed in groups
    of that size: after each full group, and at any time fewer than a group of the latest samples is uncommitted. *)
Theorem samples_stored vals evs :
  Forall2 (fun v ev => orcm_analytics_base_log_to_database_event v = Ret (OPAL_SUCCESS, [ev])) vals evs ->
  Forall (fun v => Forall passive (default [] (av_non_compute_data v))) vals ->
  exists s', dispatch_all (db_actives started.1) evs started.2 = Ret s' /\
    env_rows h (dfg_log s') = stored_row <$> evs /\ commits h (dfg_log s') = Z.of_nat (length evs) / rate /\
    uncommitted h (dfg_log s') = drop (Z.to_nat (rate * (Z.of_nat (length evs) / rate))) (stored_row <$> evs).
Proof.
  intros Hl Hp. destruct (samples_dispatched vals evs [] started.2 Hl Hp) as (s' & E & [_ Hr _ Hu Hc]).
  - split; cbn; try done. by rewrite drop_nil.
  - exists s'. cbn [app] in *. rewrite length_fmap in *. split_and!; done.
Qed.
End Samples.

(** ** The order of modules *)
Section Order.
Context {S : Type}.
Abbreviation before := (fun a b : orcm_dispatch_active_module_t S => am_priority b <= am_priority a).

Lemma insert_dispatch_perm m (l : list (orcm_dispatch_active_module_t S)) : insert_dispatch m l ≡ₚ m :: l.
Proof.
  induction l as [|x l IH]; cbn; [done|]. destruct (am_priority x <? am_priority m); [done|].
  rewrite IH. apply Permutation_swap.
Qed.

Lemma insert_dispatch_sorted m (l : list (orcm_dispatch_active_module_t S)) :
  StronglySorted before l -> StronglySorted before (insert_dispatch m l).
Proof.
  induction 1 as [|x l Hl IH Hx]; cbn; [by repeat constructor|].
  destruct (Z.ltb_spec (am_priority x) (am_priority m)).
  - constructor; [by constructor|]. constructor; [lia|]. eapply Forall_impl; [exact Hx|]. cbn. lia.
  - constructor; [done|]. rewrite insert_dispatch_perm. by constructor.
Qed.

(** Modules see an event by descending priority, whatever order the
    components are queried in. *)
Theorem dispatch_by_priority (components : list (dispatch_component S)) rate s :
  StronglySorted before (db_actives (orcm_dispatch_base_select components (MkDispatchBase [] rate false) s).1.2).
Proof.
  unfold orcm_dispatch_base_select. cbn [db_selected db_actives db_sensor_db_commit_rate].
  assert (H : forall st, StronglySorted before st.1 -> StronglySorted before (foldl (fun st c => query_one c st) st components).1).
  { induction components as [|c components IH]; intros st Hst; [done|]. cbn [foldl]. apply IH. unfold query_one.
    destruct (dc_query c) as [[[rc [m|]] p]|]; try done. destruct (negb (rc =? OPAL_SUCCESS)); [done|]. by apply insert_dispatch_sorted. }
  specialize (H ([], s) (SSorted_nil _)). by destruct (foldl _ _ components) as [actives s'].
Qed.
End Order.

Lemma store_exception rate row s : 0 <= event_dbhandle s ->
  dfg_generate_database_event rate row ORCM_RAS_EVENT_EXCEPTION s = posted (StoreNew (event_dbhandle s) ORCM_DB_EVENT_DATA row) s.
Proof.
  intros. unfold dfg_generate_database_event. change (ORCM_RAS_EVENT_EXCEPTION =? ORCM_RAS_EVENT_SENSOR) with false.
  by destruct (Z.leb_spec 0 (event_dbhandle s)); [|lia].
Qed.

(** An event of the exceptions whose description also asks for the database
    is stored twice, the second time without anything it held. *)
Theorem event_stored_twice rate malloc_ok initial threshold registered other_pack desc ev s :
  ev_type ev = ORCM_RAS_EVENT_EXCEPTION -> ev_description ev = [storage_value ORCM_STORAGE_TYPE_DATABASE] -> 0 <= event_dbhandle s ->
  exists s', dfg_generate rate true malloc_ok initial threshold registered other_pack desc (Some ev) s = Ret (Some (emptied ev), s') /\
    dfg_log s' = dfg_log s ++ [StoreNew (event_dbhandle s) ORCM_DB_EVENT_DATA (stored_row ev);
                               StoreNew (event_dbhandle s) ORCM_DB_EVENT_DATA (stored_row (emptied ev))].
Proof.
  intros Ht Hd Hh. unfold dfg_generate, dfg_generate_storage_events. rewrite Hd.
  change (storage_requests malloc_ok initial threshold registered other_pack desc _ ev false s) with (Ret (true, s)).
  rewrite bind_Ret. cbv beta iota zeta. rewrite convert_and_log. cbn [ev_type emptied]. rewrite Ht.
  change ((ORCM_RAS_EVENT_EXCEPTION =? ORCM_RAS_EVENT_EXCEPTION) || _) with true. cbn [andb]. rewrite convert_and_log.
  cbn [ev_type emptied]. rewrite Ht, (store_exception _ _ s Hh), store_exception by exact Hh.
  eexists. split; [reflexivity|]. cbn [dfg_log posted event_dbhandle]. by rewrite <- app_assoc.
Qed.

(** ** Examples *)
Definition demo_sample (t : Z) : orcm_analytics_value_t :=
  MkAnalyticsValue (Some [text_value (cs "hostname") (cs "n1")])
    (Some [MkOrcmValue (Some (cs "ctime")) OPAL_TIMEVAL (VTimeval t 0) None; text_value (cs "plugin_name") (cs "coretemp")])
    (Some [MkOrcmValue (Some (cs "core 0")) OPAL_INT (VInt 91) (Some (cs "C"))]).

Definition demo_reading : orcm_value_t := MkOrcmValue (Some (cs "core 0")) OPAL_INT (VInt 91) (Some (cs "C")).
Definition demo_attrs : list orcm_value_t := [text_value (cs "policy") (cs "hi"); text_value (cs "exec_name") (cs "sbin/alert");
                                              text_value (cs "exec_argv") (cs "n1,hot")].

Lemma demo_passive t : Forall passive (default [] (av_non_compute_data (demo_sample t))).
Proof. repeat constructor; (eexists; split; [reflexivity|]; apply (bool_decide_unpack _); vm_compute; exact I). Qed.

Lemma alarm_handled_witness :
  exists ev s' b, orcm_analytics_base_gen_notifier_event demo_reading (demo_sample 7) demo_attrs ORCM_RAS_SEVERITY_CRIT
      (Some (cs "hot")) (Some (cs "exec")) [] = Ret (OPAL_SUCCESS, [ev]) /\
    dfg_log s' = [SendScheduler b] /\
    (rb ← deliver false b; demo_scheduler rb world0) =
      Ret (Some (MkLaunch (cs "/opt/bin/alert") (Some [cs "/opt/bin/alert"; cs "n1"; cs "hot"])), world0).
Proof.
  destruct (orcm_analytics_base_gen_notifier_event demo_reading (demo_sample 7) demo_attrs ORCM_RAS_SEVERITY_CRIT
      (Some (cs "hot")) (Some (cs "exec")) []) as [[rc [|ev []]]| |] eqn:E; try (vm_compute in E; discriminate E).
  assert (rc = OPAL_SUCCESS) as -> by (vm_compute in E; by injection E).
  destruct (alarm_handled (fun _ => true) 128 1024 (fun _ => false) no_pack no_unpack false (fun _ => eq_refl) ltac:(lia) ltac:(lia)
    1 true demo_reading (demo_sample 7) demo_attrs ORCM_RAS_SEVERITY_CRIT (cs "hot") (cs "exec") ev dfg_start E)
    as (alarm & ev' & s' & _ & Hlog & b & name & Hname & -> & Hl).
  - by vm_compute.
  - apply demo_passive.
  - split; [apply (bool_decide_unpack _); vm_compute; exact I|by vm_compute].
  - split; [apply (bool_decide_unpack _); vm_compute; exact I|by vm_compute].
  - vm_compute. discriminate.
  - exists ev, s', b. split; [done|]. split; [exact Hlog|]. injection Hname as <-.
    apply (Hl ideal_log10 10%nat no_groups (cs "/opt/bin") (Some [cs "n1"; cs "hot"]) (cs "sbin/alert") (cs "alert") world0 world0);
      try (vm_compute; reflexivity). discriminate.
Defined.

Lemma samples_stored_witness :
  exists evs s', dispatch_all (db_actives (started (fun _ => true) 128 1024 (fun _ => false) no_pack false 2 true 5).1) evs
      (started (fun _ => true) 128 1024 (fun _ => false) no_pack false 2 true 5).2 = Ret s' /\ length evs = 3%nat /\
    commits 5 (dfg_log s') = 1 /\ length (uncommitted 5 (dfg_log s')) = 1%nat.
Proof.
  destruct (orcm_analytics_base_log_to_database_event (demo_sample 1)) as [[rc [|e1 []]]| |] eqn:E1; try (vm_compute in E1; discriminate E1).
  destruct (orcm_analytics_base_log_to_database_event (demo_sample 2)) as [[rc2 [|e2 []]]| |] eqn:E2; try (vm_compute in E2; discriminate E2).
  assert (rc = OPAL_SUCCESS) as -> by (vm_compute in E1; by injection E1).
  assert (rc2 = OPAL_SUCCESS) as -> by (vm_compute in E2; by injection E2).
  destruct (samples_stored (fun _ => true) 128 1024 (fun _ => false) no_pack false 2 true 5 ltac:(lia) ltac:(lia)
    [demo_sample 1; demo_sample 2; demo_sample 1] [e1; e2; e1]) as (s' & E & _ & Hc & Hu).
  - by repeat constructor.
  - repeat (apply Forall_cons; split; [apply demo_passive|]). constructor.
  - exists [e1; e2; e1], s'. by rewrite Hc, Hu.
Defined.
