(* ===== verification/PointerMap.v ===== *)
(** * Tables of pointers that never run out

    With memory to spare and the maximal size INT_MAX an array of pointers is
    a finite map, as long as it sees fewer than 2^29 additions: looking up,
    adding at the lowest free number, clearing, and reading all entries. *)

From S2P Require Import Prelude CString PointerArray.
From stdpp Require Import base numbers list gmap fin_maps.
From Stdlib Require Import ZArith Lia.

Open Scope Z_scope.

Section Lowest.
Context {A : Type}.
Implicit Types (m : gmap nat A).

(** The entry of a number. *)
Definition table_lookup (i : Z) m : option A := if 0 <=? i then m !! Z.to_nat i else None.

(** The lowest number that is free. *)
Definition lowest m : nat := default 0%nat (fst <$> list_find (fun k => m !! k = None) (seq 0 (S (size m)))).

Lemma lowest_spec m : m !! lowest m = None /\ forall j, (j < lowest m)%nat -> is_Some (m !! j).
Proof.
  unfold lowest. destruct (list_find _ _) as [[i k]|] eqn:E; cbn.
  - apply list_find_Some in E as (Hk & Hf & Hall). apply lookup_seq in Hk as [-> Hi]. split; [done|].
    intros j Hj. destruct (m !! j) as [x|] eqn:Ej; [by eexists|]. exfalso. refine (Hall j j _ Hj Ej).
    apply lookup_seq. lia.
  - exfalso. apply list_find_None in E. rewrite Forall_forall in E.
    assert (Hsub : list_to_set (C := gset nat) (seq 0 (S (size m))) ⊆ dom m).
    { intros k Hk%elem_of_list_to_set. apply elem_of_dom. apply E in Hk. by destruct (m !! k); [eexists|]. }
    apply subseteq_size in Hsub. rewrite size_list_to_set, length_seq, size_dom in Hsub by apply NoDup_seq. lia.
Qed.

Lemma lowest_unique m i : m !! i = None -> (forall j, (j < i)%nat -> is_Some (m !! j)) -> i = lowest m.
Proof.
  intros Hi Hbelow. destruct (lowest_spec m) as [Hl Hlb]. destruct (Nat.lt_trichotomy i (lowest m)) as [H|[H|H]]; [|done|].
  - destruct (Hlb _ H) as [x Hx]. congruence.
  - destruct (Hbelow _ H) as [x Hx]. congruence.
Qed.

(** Entries without a hole. *)
Lemma lowest_seq (l : list A) : lowest (map_seq 0 l) = length l.
Proof.
  symmetry. apply lowest_unique.
  - rewrite lookup_map_seq_0. by apply lookup_ge_None_2.
  - intros j Hj. rewrite lookup_map_seq_0. by apply lookup_lt_is_Some_2.
Qed.
End Lowest.

Section Tables.
Context {A : Type} (alloc_ok : Z -> bool).
Hypothesis Halloc : forall n, alloc_ok n = true.
Implicit Types (m : gmap nat A) (t : opal_pointer_array_t A).

(** The table holds [m], after at most [n] operations. *)
Record table_rep t m (n : Z) : Prop := {
  tr_table : exists l, pa_rep t l m n;
  tr_max : pa_max_size t = INT_MAX
}.

Lemma table_step t m n op :
  table_rep t m n -> 0 <= n < 2 ^ 29 -> admissible INT_MAX op ->
  exists a t' m', pa_run alloc_ok t op = Ret (a, t') /\ pa_spec alloc_ok INT_MAX m op m' a /\ table_rep t' m' (n + 1).
Proof.
  intros [[l Hl] Hmax] Hn Hadm. destruct (run_step alloc_ok t l m n op Hl) as (a & t' & l' & m' & E & Hs & Hr & Hm).
  - lia.
  - by rewrite Hmax.
  - rewrite Hmax in Hs. exists a, t', m'. split_and!; [done|done|]. split; [by exists l'|]. by rewrite Hm, Hmax.
Qed.

(** Small sizes are not refused. *)
Lemma small_granted size : size < INT_MAX -> ~ refuses alloc_ok INT_MAX size.
Proof. intros Hs [?|E]; [lia|]. by rewrite Halloc in E. Qed.

Lemma gap_bound t m n i : table_rep t m n -> lowest_gap m i -> Z.of_nat i <= n.
Proof. intros [[l Hl] _] [_ Hb]. by apply (rep_prefix t l m). Qed.

Lemma table_get t m n i : table_rep t m n -> opal_pointer_array_get_item t i = Ret (table_lookup i m).
Proof.
  intros [[l Hl] _]. destruct (get_step (fun _ => true) t l m n i Hl) as (a & t' & l' & m' & E & Hs & _).
  cbn [pa_run] in E. apply bind_Ret_inv in E as (x & Ex & [= <- _]). rewrite Ex. unfold table_lookup.
  inversion Hs as [| | | | | | | |i' Ei Em Hx|i' Hneg Ei Em Hx| | |]; subst.
  - destruct (Z.leb_spec 0 (Z.of_nat i')); [|lia]. by rewrite Nat2Z.id.
  - by destruct (Z.leb_spec 0 i); [lia|].
Qed.

Lemma table_add t m n x : table_rep t m n -> 0 <= n < 2 ^ 29 ->
  exists t', opal_pointer_array_add alloc_ok t (Some x) = Ret (Z.of_nat (lowest m), t') /\ table_rep t' (<[lowest m := x]> m) (n + 1).
Proof.
  intros Hr Hn. destruct (table_step t m n (PAdd x) Hr Hn I) as (a & t' & m' & E & Hs & Ht).
  cbn [pa_run] in E. apply bind_Ret_inv in E as ([rc t1] & Ex & [= <- <-]). exists t1.
  inversion Hs as [v i [Hi Hb] Ev Em Ha|v i Hgap Hno| | | | | | | | | | |]; subst; [by rewrite Ex, <- (lowest_unique m i Hi Hb)|].
  destruct (small_granted (Z.max 1 (2 * Z.of_nat i))); [|done]. pose proof (gap_bound t _ n i Hr Hgap). unfold INT_MAX. lia.
Qed.

Lemma table_clear t m n i : table_rep t m n -> 0 <= n < 2 ^ 29 -> i < 2 ^ 30 ->
  exists rc t', opal_pointer_array_set_item alloc_ok t i None = Ret (rc, t') /\
    table_rep t' (if 0 <=? i then delete (Z.to_nat i) m else m) (n + 1).
Proof.
  intros Hr Hn Hi. destruct (table_step t m n (PSet i None) Hr Hn) as (a & t' & m' & E & Hs & Ht); [cbn; unfold INT_MAX; lia|].
  cbn [pa_run] in E. apply bind_Ret_inv in E as ([rc t1] & Ex & [= <- <-]). exists rc, t1. split; [done|].
  inversion Hs as [| |i' v Ei Em Ha|i' v Hneg Ei Em Ha|i' v Hnone Hno| | | | | | | |]; subst;
    [| |destruct (small_granted ((Z.of_nat i' / 2 + 1) * 2)); [pose proof (Z.mul_div_le (Z.of_nat i') 2); unfold INT_MAX; lia|done]].
  - destruct (Z.leb_spec 0 (Z.of_nat i')); [|lia]. by rewrite Nat2Z.id.
  - by destruct (Z.leb_spec 0 i); [lia|].
Qed.

Lemma table_weaken t m n n' : table_rep t m n -> n <= n' -> table_rep t m n'.
Proof. intros [[l Hl] ?] ?. split; [|done]. exists l. by apply (rep_weaken _ _ _ n). Qed.

Lemma table_size t m n : table_rep t m n -> 0 <= pa_size t < 2 ^ 31 /\ forall i, is_Some (m !! i) -> Z.of_nat i < pa_size t.
Proof.
  intros [[l [_ _ Hs _ _ Hm _ Hb]] _]. rewrite Hs. split; [lia|]. intros i [x Hx]. rewrite Hm in Hx.
  destruct (l !! i) as [y|] eqn:E; [|done]. apply lookup_lt_Some in E. lia.
Qed.

(** A fresh table, constructed only or initialized. *)
Lemma construct_table : table_rep opal_pointer_array_construct ∅ 0.
Proof.
  split; [|done]. exists []. split; try done; try (by right); try (by left); unfold INT_MAX; cbn; lia.
Qed.

Lemma init_table (t : opal_pointer_array_t A) rc : opal_pointer_array_init alloc_ok (Some opal_pointer_array_construct) 3 INT_MAX 1 = (rc, Some t) -> table_rep t ∅ 0.
Proof.
  intros E. destruct (init_rep alloc_ok 3 INT_MAX 1 t) as (Hmax & Hrep); [left; lia|unfold INT_MAX; lia| |by split].
  rewrite E. f_equal. unfold opal_pointer_array_init in E. cbn in E. rewrite Halloc in E. by injection E.
Qed.
End Tables.

(** ** Going through a table

    [for (i = 0; i < size; i++)], skipping null pointers; a turn goes on
    ([inl]) or leaves the loop ([inr]).  The table is part of the state and
    its size is read again at every turn. *)
Section Loop.
Context {A St : Type} (get : St -> opal_pointer_array_t A) (f : Z -> A -> St -> outcome (St + St)).

Fixpoint each_entry (fuel : nat) (i : Z) (s : St) : outcome St :=
  if i <? pa_size (get s) then
    match fuel with
    | O => Diverge
    | S fuel' =>
      x ← opal_pointer_array_get_item (get s) i;
      match x with
      | None => each_entry fuel' (i + 1) s
      | Some a =>
        r ← f i a s;
        match r with inl s => each_entry fuel' (i + 1) s | inr s => Ret s end
      end
    end
  else Ret s.

Definition for_entries (s : St) : outcome St := each_entry (Z.to_nat (pa_size (get s))) 0 s.

(** The same over a list of places. *)
Fixpoint each_place (i : Z) (l : list (option A)) (s : St) : outcome St :=
  match l with
  | [] => Ret s
  | None :: l' => each_place (i + 1) l' s
  | Some a :: l' =>
    r ← f i a s;
    match r with inl s => each_place (i + 1) l' s | inr s => Ret s end
  end.
End Loop.

(** The table holds the places of [l], and nothing behind them. *)
Section Places.
Context {A : Type} (alloc_ok : Z -> bool).
Hypothesis Halloc : forall n, alloc_ok n = true.
Implicit Types (m : gmap nat A) (t : opal_pointer_array_t A) (l : list (option A)).

Definition places m l : Prop := forall i, m !! i = mjoin (l !! i).
Definition holds_places t l (n : Z) : Prop := exists m, table_rep t m n /\ places m l.

Lemma places_get t l n (i : nat) : holds_places t l n -> 0 <= n < 2 ^ 29 -> opal_pointer_array_get_item t (Z.of_nat i) = Ret (mjoin (l !! i)).
Proof.
  intros (m & Hr & Hl) Hn. rewrite (table_get t m n _ Hr). unfold table_lookup.
  destruct (Z.leb_spec 0 (Z.of_nat i)); [|lia]. by rewrite Nat2Z.id, Hl.
Qed.

Lemma places_clear t l n (i : nat) : holds_places t l n -> 0 <= n < 2 ^ 29 -> Z.of_nat i < 2 ^ 30 ->
  exists rc t', opal_pointer_array_set_item alloc_ok t (Z.of_nat i) None = Ret (rc, t') /\ holds_places t' (<[i := None]> l) (n + 1).
Proof.
  intros (m & Hr & Hl) Hn Hi. destruct (table_clear alloc_ok Halloc t m n _ Hr Hn Hi) as (rc & t' & E & Ht).
  exists rc, t'. split; [done|]. destruct (Z.leb_spec 0 (Z.of_nat i)); [|lia]. rewrite Nat2Z.id in Ht. exists (delete i m). split; [done|].
  intros j. destruct (decide (j = i)) as [->|Hne].
  - rewrite lookup_delete_eq. destruct (decide (i < length l)%nat); [by rewrite list_lookup_insert_eq|].
    by rewrite (lookup_ge_None_2 _ i) by (rewrite length_insert; lia).
  - by rewrite lookup_delete_ne, list_lookup_insert_ne.
Qed.

Lemma places_add t (l1 : list A) (l2 : list (option A)) n x : holds_places t (map Some l1 ++ None :: l2) n -> 0 <= n < 2 ^ 29 ->
  exists t', opal_pointer_array_add alloc_ok t (Some x) = Ret (Z.of_nat (length l1), t') /\ holds_places t' (map Some l1 ++ Some x :: l2) (n + 1).
Proof.
  intros (m & Hr & Hl) Hn. destruct (table_add alloc_ok Halloc t m n x Hr Hn) as (t' & E & Ht).
  assert (length l1 = lowest m) as Hlow.
  { apply lowest_unique.
    - rewrite Hl, lookup_app_r, length_map, Nat.sub_diag by (rewrite length_map; lia). done.
    - intros j Hj. rewrite Hl, lookup_app_l by (rewrite length_map; lia). rewrite list_lookup_fmap.
      destruct (lookup_lt_is_Some_2 l1 j Hj) as [y ->]. by exists y. }
  rewrite <- Hlow in E, Ht. exists t'. split; [done|]. exists (<[length l1 := x]> m). split; [done|]. intros j.
  destruct (decide (j = length l1)) as [->|Hne].
  - by rewrite lookup_insert_eq, lookup_app_r, length_map, Nat.sub_diag by (rewrite length_map; lia).
  - rewrite lookup_insert_ne, Hl by done. destruct (decide (j < length l1)%nat).
    + by rewrite !lookup_app_l by (rewrite length_map; lia).
    + rewrite !lookup_app_r, length_map by (rewrite length_map; lia). by destruct (j - length l1)%nat eqn:Ej; [lia|].
Qed.

(** Null pointers at the end do not matter. *)
Lemma places_pad t l n k : holds_places t l n <-> holds_places t (l ++ replicate k None) n.
Proof. split; intros (m & Hr & Hl); exists m; split; try done; intros i; rewrite Hl; by rewrite lookup_pad. Qed.

Lemma places_append t (l : list A) n x : holds_places t (map Some l) n -> 0 <= n < 2 ^ 29 ->
  exists t', opal_pointer_array_add alloc_ok t (Some x) = Ret (Z.of_nat (length l), t') /\ holds_places t' (map Some (l ++ [x])) (n + 1).
Proof. intros Hr Hn. rewrite map_app. apply (places_pad _ _ _ 1) in Hr. by apply (places_add t l [] n x). Qed.

Lemma places_beyond t l n (i : nat) : holds_places t l n -> pa_size t <= Z.of_nat i -> mjoin (l !! i) = None.
Proof.
  intros (m & Hr & Hl) Hi. rewrite <- Hl. destruct (m !! i) eqn:E; [|done].
  destruct (table_size t m n Hr) as [_ Hs]. specialize (Hs i ltac:(by eexists)). lia.
Qed.

(** Behind the last place nothing happens. *)
Lemma each_entry_rest {St} (get : St -> opal_pointer_array_t A) f l n s : holds_places (get s) l n -> 0 <= n < 2 ^ 29 ->
  forall fuel (i : nat), (length l <= i)%nat -> pa_size (get s) - Z.of_nat i <= Z.of_nat fuel -> each_entry get f fuel (Z.of_nat i) s = Ret s.
Proof.
  intros Hr Hn. induction fuel as [|fuel IH]; intros i Hi Hfuel; cbn [each_entry].
  all: destruct (Z.ltb_spec (Z.of_nat i) (pa_size (get s))); [|done].
  { lia. }
  rewrite (places_get (get s) l n i Hr Hn), bind_Ret, (lookup_ge_None_2 l) by lia. cbn [mjoin option_join].
  replace (Z.of_nat i + 1) with (Z.of_nat (S i)) by lia. apply IH; lia.
Qed.

(** A loop that leaves the table alone. *)
Lemma each_entry_places {St} (get : St -> opal_pointer_array_t A) f t l n :
  holds_places t l n -> 0 <= n < 2 ^ 29 ->
  (forall i a s r, get s = t -> f i a s = Ret (inl r) -> get r = t) ->
  forall fuel (i : nat) s, get s = t -> pa_size t - Z.of_nat i <= Z.of_nat fuel ->
  each_entry get f fuel (Z.of_nat i) s = each_place f (Z.of_nat i) (drop i l) s.
Proof.
  intros Hr Hn Hf. assert (Hend : forall (i : nat) s, pa_size t <= Z.of_nat i -> each_place f (Z.of_nat i) (drop i l) s = Ret s).
  { intros i s Hi. remember (drop i l) as k eqn:Ek. revert i Hi Ek. induction k as [|x k IH]; intros i Hi Ek; [done|].
    assert (l !! i = Some x) as Hx by (by rewrite <- (Nat.add_0_r i), <- lookup_drop, <- Ek).
    pose proof (places_beyond t l n i Hr Hi) as Hnone. rewrite Hx in Hnone. destruct x as [x|]; [done|]. cbn [each_place].
    replace (Z.of_nat i + 1) with (Z.of_nat (S i)) by lia. apply IH; [lia|]. rewrite (drop_S l None i Hx) in Ek. by injection Ek. }
  induction fuel as [|fuel IH]; intros i s Hs Hfuel; cbn [each_entry]; rewrite Hs.
  - destruct (Z.ltb_spec (Z.of_nat i) (pa_size t)); [lia|]. by rewrite Hend by lia.
  - destruct (Z.ltb_spec (Z.of_nat i) (pa_size t)) as [Hlt|Hge]; [|by rewrite Hend by lia].
    rewrite (places_get t l n i Hr Hn), bind_Ret. replace (Z.of_nat i + 1) with (Z.of_nat (S i)) by lia.
    destruct (l !! i) as [x|] eqn:Ei.
    + rewrite (drop_S l x i Ei). cbn [mjoin option_join each_place]. replace (Z.of_nat i + 1) with (Z.of_nat (S i)) by lia.
      destruct x as [x|]; [|apply IH; [done|lia]]. destruct (f (Z.of_nat i) x s) as [[r|r]| |] eqn:Er; try done.
      cbn [mbind outcome_bind]. apply IH; [by apply (Hf _ _ _ _ Hs Er)|lia].
    + cbn [mjoin option_join]. rewrite IH by (done || lia). apply lookup_ge_None_1 in Ei. by rewrite !drop_ge by lia.
Qed.

Lemma for_entries_places {St} (get : St -> opal_pointer_array_t A) f l n s :
  holds_places (get s) l n -> 0 <= n < 2 ^ 29 ->
  (forall i a s' r, get s' = get s -> f i a s' = Ret (inl r) -> get r = get s) ->
  for_entries get f s = each_place f 0 l s.
Proof.
  intros Hr Hn Hf. unfold for_entries. rewrite <- (drop_0 l). apply (each_entry_places get f (get s) l n Hr Hn Hf _ 0%nat); [done|].
  destruct Hr as (m & Hr & _). destruct (table_size _ _ _ Hr). lia.
Qed.
End Places.
