(* ===== verification/Database.v ===== *)
(** * The database framework ([orcm/mca/db/base])

    Clients post requests; the thread of the framework serves them one by one
    in the order of posting and answers through callbacks.  A request names a
    database by its handle, an index into an array of open databases
    ([PointerArray]).

    The modules that speak to a database server are parameters: [W] is
    everything they keep, [C] names the callbacks of the clients, and [tm] is
    the broken-down time of the diagnostics.  Every operation of the framework
    is here: what is sent to a module and what is answered. *)

From S2P Require Import Prelude CString Argv PointerArray Dss OrcmUtil.
From stdpp Require Import base strings numbers list.
From Stdlib Require Import ZArith Lia Ascii.

Open Scope Z_scope.

Definition OPAL_ERR_NOT_IMPLEMENTED : Z := -7.

Abbreviation kvlist := (list orcm_value_t).

Section Framework.
Context {W C tm : Type}.
Variable alloc_ok : Z -> bool.

(** The functions a module may have.  A function with an output list gets it
    and gives it back. *)
Record orcm_db_base_module_t : Type := MkDbModule {
  dbm_finalize : option (W -> W);
  dbm_store : option (option cstr -> option kvlist -> W -> Z * W);
  dbm_store_new : option (Z -> option kvlist -> option kvlist -> W -> Z * option kvlist * W);
  dbm_record_data_samples : option (option cstr -> option (Z * Z) -> option cstr -> option kvlist -> W -> Z * W);
  dbm_update_node_features : option (option cstr -> option kvlist -> W -> Z * W);
  dbm_record_diag_test : option (option cstr -> option cstr -> option cstr -> option tm -> option tm -> option Z ->
                                 option cstr -> option kvlist -> W -> Z * W);
  dbm_commit : option (W -> Z * W);
  dbm_rollback : option (W -> Z * W);
  dbm_fetch : option (option cstr -> option kvlist -> option kvlist -> W -> Z * option kvlist * W);
  dbm_get_num_rows : option (Z -> W -> Z * Z * W);
  dbm_get_next_row : option (Z -> kvlist -> W -> Z * kvlist * W);
  dbm_close_result_set : option (Z -> W -> Z * W);
  dbm_remove : option (option cstr -> option cstr -> W -> Z * W);
  dbm_fetch_function : option (option cstr -> option kvlist -> option kvlist -> W -> Z * option kvlist * W)
}.

Record orcm_db_base_component_t : Type := MkDbComponent {
  dbc_name : cstr;
  dbc_priority : Z;
  dbc_available : option bool;
  dbc_create_handle : option kvlist -> W -> option orcm_db_base_module_t * W;
  dbc_finalize : option (W -> W)
}.

Record orcm_db_handle_t : Type := MkDbHandle {
  dbh_component : orcm_db_base_component_t;
  dbh_module : option orcm_db_base_module_t
}.

Record orcm_db_request_t : Type := MkDbRequest {
  rq_dbhandle : Z;
  rq_data_type : Z;
  rq_input : option kvlist;
  rq_output : option kvlist;
  rq_cbfunc : option C;
  rq_hostname : option cstr;
  rq_time_stamp : option (Z * Z);
  rq_data_group : option cstr;
  rq_primary_key : option cstr;
  rq_key : option cstr;
  rq_diag_type : option cstr;
  rq_diag_subtype : option cstr;
  rq_start_time : option tm;
  rq_end_time : option tm;
  rq_component_index : option Z;
  rq_test_result : option cstr;
  rq_kvs : option kvlist;
  rq_source_data_name : option cstr
}.

(** The function that is to serve_request a request. *)
Inductive db_process : Type :=
| process_open_t | process_close_t | process_store_t | process_store_new_t | process_record_data_samples_t
| process_update_node_features_t | process_record_diag_test_t | process_commit_t | process_rollback_t
| process_fetch_t | process_fetch_function_t | process_remove_t.

Record orcm_db_base_t : Type := MkDb {
  dbb_actives : list orcm_db_base_component_t;
  dbb_handles : opal_pointer_array_t orcm_db_handle_t;
  dbb_events : list (db_process * orcm_db_request_t);
  dbb_selected : bool
}.

Definition set_handles (t : opal_pointer_array_t orcm_db_handle_t) (b : orcm_db_base_t) : orcm_db_base_t :=
  MkDb (dbb_actives b) t (dbb_events b) (dbb_selected b).

(** What a callback is told: the handle, the status and the two lists. *)
Record db_answer : Type := MkDbAnswer {
  an_cbfunc : C;
  an_dbhandle : Z;
  an_status : Z;
  an_in : option kvlist;
  an_out : option kvlist
}.

Definition answer (req : orcm_db_request_t) (dbhandle status : Z) (inl outl : option kvlist) : option db_answer :=
  (fun c => MkDbAnswer c dbhandle status inl outl) <$> rq_cbfunc req.

(** ** Start-up *)
Definition orcm_db_base_frame_open : orcm_db_base_t :=
  MkDb [] (default opal_pointer_array_construct
             (opal_pointer_array_init alloc_ok (Some opal_pointer_array_construct) 3 INT_MAX 1).2) [] false.

(** Before the first component of a lower priority. *)
Fixpoint insert_component (c : orcm_db_base_component_t) (l : list orcm_db_base_component_t) : list orcm_db_base_component_t :=
  match l with
  | [] => [c]
  | a :: l' => if dbc_priority a <? dbc_priority c then c :: l else a :: insert_component c l'
  end.

Definition orcm_db_base_select (components : list orcm_db_base_component_t) (b : orcm_db_base_t) : Z * orcm_db_base_t :=
  if dbb_selected b then (OPAL_SUCCESS, b)
  else
    let actives := foldl (fun l c => match dbc_available c with Some true => insert_component c l | _ => l end)
                     (dbb_actives b) components in
    (match actives with [] => OPAL_ERR_NOT_FOUND | _ => OPAL_SUCCESS end,
     MkDb actives (dbb_handles b) (dbb_events b) true).

(** ** Serving a request *)

(** The names in the property [components], if it is given. *)
Fixpoint components_property (input : kvlist) : outcome argv_t :=
  match input with
  | [] => Ret None
  | kv :: input' =>
    k ← deref (ov_key kv);
    if strcmp0 k (cs "components") then
      match data_string kv with
      | SNull => opal_argv_split None ","
      | p => s ← deref_string p; opal_argv_split (Some s) ","
      end
    else components_property input'
  end.

(** The first active component, among the named ones, that makes a module. *)
Fixpoint try_components (cmps : argv_t) (input : option kvlist) (actives : list orcm_db_base_component_t) (w : W)
    : option (orcm_db_base_component_t * orcm_db_base_module_t) * W :=
  match actives with
  | [] => (None, w)
  | c :: actives' =>
    let found := match cmps with None => true | Some l => existsb (fun n => strcmp0 n (dbc_name c)) l end in
    if found then
      let '(mod_, w) := dbc_create_handle c input w in
      match mod_ with Some m => (Some (c, m), w) | None => try_components cmps input actives' w end
    else try_components cmps input actives' w
  end.

Definition process_open (req : orcm_db_request_t) (b : orcm_db_base_t) (w : W) : outcome (option db_answer * orcm_db_base_t * W) :=
  cmps ← match rq_input req with Some input => components_property input | None => Ret None end;
  match try_components cmps (rq_input req) (dbb_actives b) w with
  | (Some (c, m), w) =>
    '(index, t) ← opal_pointer_array_add alloc_ok (dbb_handles b) (Some (MkDbHandle c (Some m)));
    Ret (answer req index OPAL_SUCCESS (rq_input req) None, set_handles t b, w)
  | (None, w) => Ret (answer req (-1) OPAL_ERROR (rq_input req) None, b, w)
  end.

Definition handle_of (dbhandle : Z) (b : orcm_db_base_t) : outcome (option orcm_db_handle_t) :=
  opal_pointer_array_get_item (dbb_handles b) dbhandle.

Definition process_close (req : orcm_db_request_t) (b : orcm_db_base_t) (w : W) : outcome (option db_answer * orcm_db_base_t * W) :=
  hdl ← handle_of (rq_dbhandle req) b;
  let '(rc, w) :=
    match hdl with
    | None => (OPAL_ERR_NOT_FOUND, w)
    | Some h =>
      match dbh_module h with
      | None => (OPAL_ERR_NOT_FOUND, w)
      | Some m => (OPAL_SUCCESS, match dbm_finalize m with Some f => f w | None => w end)
      end
    end in
  '(_, t) ← opal_pointer_array_set_item alloc_ok (dbb_handles b) (rq_dbhandle req) None;
  Ret (answer req (rq_dbhandle req) rc None None, set_handles t b, w).

(** The function [f] of the module of a request, if there is one. *)
Definition on_module {A} (req : orcm_db_request_t) (f : orcm_db_base_module_t -> outcome (option (W -> A * W)))
    (failed : Z -> A) (b : orcm_db_base_t) (w : W) : outcome (A * W) :=
  hdl ← handle_of (rq_dbhandle req) b;
  match hdl with
  | None => Ret (failed OPAL_ERR_NOT_FOUND, w)
  | Some h =>
    match dbh_module h with
    | None => Ret (failed OPAL_ERR_NOT_FOUND, w)
    | Some m =>
      g ← f m;
      Ret (match g with Some g => g w | None => (failed OPAL_ERR_NOT_IMPLEMENTED, w) end)
    end
  end.

(** Requests that answer with a status and the list [inl]. *)
Definition serve_request (req : orcm_db_request_t) (inl : option kvlist) (f : orcm_db_base_module_t -> option (W -> Z * W))
    (b : orcm_db_base_t) (w : W) : outcome (option db_answer * orcm_db_base_t * W) :=
  '(rc, w) ← on_module req (fun m => Ret (f m)) (fun rc => rc) b w;
  Ret (answer req (rq_dbhandle req) rc inl None, b, w).

Definition process_store (req : orcm_db_request_t) :=
  serve_request req (rq_kvs req) (fun m => (fun f => f (rq_primary_key req) (rq_kvs req)) <$> dbm_store m).

(** The test is for [store], the call goes to [store_new]. *)
Definition process_store_new (req : orcm_db_request_t) (b : orcm_db_base_t) (w : W) : outcome (option db_answer * orcm_db_base_t * W) :=
  '(rc, out, w) ← on_module req
    (fun m => match dbm_store m with
              | Some _ => f ← deref (dbm_store_new m); Ret (Some (f (rq_data_type req) (rq_input req) (rq_output req)))
              | None => Ret None
              end) (fun rc => (rc, rq_output req)) b w;
  Ret (answer req (rq_dbhandle req) rc (rq_input req) out, b, w).

Definition process_record_data_samples (req : orcm_db_request_t) :=
  serve_request req (rq_input req) (fun m => (fun f => f (rq_hostname req) (rq_time_stamp req) (rq_data_group req) (rq_input req))
                                       <$> dbm_record_data_samples m).

Definition process_update_node_features (req : orcm_db_request_t) :=
  serve_request req (rq_input req) (fun m => (fun f => f (rq_hostname req) (rq_input req)) <$> dbm_update_node_features m).

Definition process_record_diag_test (req : orcm_db_request_t) :=
  serve_request req (rq_input req) (fun m => (fun f => f (rq_hostname req) (rq_diag_type req) (rq_diag_subtype req) (rq_start_time req)
                                                 (rq_end_time req) (rq_component_index req) (rq_test_result req) (rq_input req))
                                       <$> dbm_record_diag_test m).

Definition process_commit (req : orcm_db_request_t) := serve_request req None dbm_commit.
Definition process_rollback (req : orcm_db_request_t) := serve_request req None dbm_rollback.

Definition process_remove (req : orcm_db_request_t) :=
  serve_request req None (fun m => (fun f => f (rq_primary_key req) (rq_key req)) <$> dbm_remove m).

(** The two fetches. *)
Definition fetch_with (req : orcm_db_request_t)
    (f : orcm_db_base_module_t -> option (option cstr -> option kvlist -> option kvlist -> W -> Z * option kvlist * W))
    (b : orcm_db_base_t) (w : W) : outcome (option db_answer * orcm_db_base_t * W) :=
  '(rc, out, w) ← on_module req (fun m => Ret ((fun g => g (rq_source_data_name req) (rq_input req) (rq_output req)) <$> f m))
                    (fun rc => (rc, rq_output req)) b w;
  Ret (answer req (rq_dbhandle req) rc None out, b, w).

Definition process_fetch (req : orcm_db_request_t) := fetch_with req dbm_fetch.
Definition process_fetch_function (req : orcm_db_request_t) := fetch_with req dbm_fetch_function.

(** The thread of the framework: the next event. *)
Definition process (p : db_process) : orcm_db_request_t -> orcm_db_base_t -> W -> outcome (option db_answer * orcm_db_base_t * W) :=
  match p with
  | process_open_t => process_open
  | process_close_t => process_close
  | process_store_t => process_store
  | process_store_new_t => process_store_new
  | process_record_data_samples_t => process_record_data_samples
  | process_update_node_features_t => process_update_node_features
  | process_record_diag_test_t => process_record_diag_test
  | process_commit_t => process_commit
  | process_rollback_t => process_rollback
  | process_fetch_t => process_fetch
  | process_fetch_function_t => process_fetch_function
  | process_remove_t => process_remove
  end.

Definition db_turn (b : orcm_db_base_t) (w : W) : outcome (option db_answer * orcm_db_base_t * W) :=
  match dbb_events b with
  | [] => Ret (None, b, w)
  | (p, req) :: events => process p req (MkDb (dbb_actives b) (dbb_handles b) events (dbb_selected b)) w
  end.

(** ** The interface of the framework *)
Definition req_con : orcm_db_request_t :=
  MkDbRequest 0 0 None None None None None None None None None None None None None None None None.

Definition post (p : db_process) (req : orcm_db_request_t) (b : orcm_db_base_t) : orcm_db_base_t :=
  MkDb (dbb_actives b) (dbb_handles b) (dbb_events b ++ [(p, req)]) (dbb_selected b).

Definition orcm_db_base_open (name : option cstr) (properties : option kvlist) (cbfunc : option C) :=
  post process_open_t (MkDbRequest 0 0 properties None cbfunc None None None name None None None None None None None None None).

Definition orcm_db_base_close (dbhandle : Z) (cbfunc : option C) :=
  post process_close_t (MkDbRequest dbhandle 0 None None cbfunc None None None None None None None None None None None None None).

Definition orcm_db_base_store (dbhandle : Z) (primary_key : option cstr) (kvs : option kvlist) (cbfunc : option C) :=
  post process_store_t (MkDbRequest dbhandle 0 None None cbfunc None None None primary_key None None None None None None None kvs None).

Definition orcm_db_base_store_new (dbhandle data_type : Z) (input ret : option kvlist) (cbfunc : option C) :=
  post process_store_new_t (MkDbRequest dbhandle data_type input ret cbfunc None None None None None None None None None None None None None).

Definition orcm_db_base_record_data_samples (dbhandle : Z) (hostname : option cstr) (time_stamp : option (Z * Z))
    (data_group : option cstr) (samples : option kvlist) (cbfunc : option C) :=
  post process_record_data_samples_t
    (MkDbRequest dbhandle 0 samples None cbfunc hostname time_stamp data_group None None None None None None None None None None).

Definition orcm_db_base_update_node_features (dbhandle : Z) (hostname : option cstr) (features : option kvlist) (cbfunc : option C) :=
  post process_update_node_features_t
    (MkDbRequest dbhandle 0 features None cbfunc hostname None None None None None None None None None None None None).

Definition orcm_db_base_record_diag_test (dbhandle : Z) (hostname diag_type diag_subtype : option cstr) (start_time end_time : option tm)
    (component_index : option Z) (test_result : option cstr) (test_params : option kvlist) (cbfunc : option C) :=
  post process_record_diag_test_t
    (MkDbRequest dbhandle 0 test_params None cbfunc hostname None None None None diag_type diag_subtype start_time end_time
       component_index test_result None None).

Definition orcm_db_base_commit (dbhandle : Z) (cbfunc : option C) :=
  post process_commit_t (MkDbRequest dbhandle 0 None None cbfunc None None None None None None None None None None None None None).

Definition orcm_db_base_rollback (dbhandle : Z) (cbfunc : option C) :=
  post process_rollback_t (MkDbRequest dbhandle 0 None None cbfunc None None None None None None None None None None None None None).

Definition orcm_db_base_fetch (dbhandle : Z) (source_data : option cstr) (filters kvs : option kvlist) (cbfunc : option C) :=
  post process_fetch_t (MkDbRequest dbhandle 0 filters kvs cbfunc None None None None None None None None None None None None source_data).

Definition orcm_db_base_fetch_function (dbhandle : Z) (source_data : option cstr) (arguments kvs : option kvlist) (cbfunc : option C) :=
  post process_fetch_function_t
    (MkDbRequest dbhandle 0 arguments kvs cbfunc None None None None None None None None None None None None source_data).

Definition orcm_db_base_remove_data (dbhandle : Z) (primary_key key : option cstr) (cbfunc : option C) :=
  post process_remove_t (MkDbRequest dbhandle 0 None None cbfunc None None None primary_key key None None None None None None None None).

(** These three are called by the client at once; the output stays as it was
    when there is no function. *)
Definition direct {A} (dbhandle : Z) (f : orcm_db_base_module_t -> option (W -> Z * A * W)) (old : A) (b : orcm_db_base_t) (w : W)
    : outcome (Z * A * W) :=
  hdl ← handle_of dbhandle b;
  Ret (match hdl with
       | Some h => match dbh_module h with
                   | Some m => match f m with Some g => g w | None => (OPAL_ERROR, old, w) end
                   | None => (OPAL_ERROR, old, w)
                   end
       | None => (OPAL_ERROR, old, w)
       end).

Definition orcm_db_base_get_num_rows (dbhandle rshandle num_rows : Z) :=
  direct dbhandle (fun m => (fun f w => f rshandle w) <$> dbm_get_num_rows m) num_rows.

Definition orcm_db_base_get_next_row (dbhandle rshandle : Z) (row : kvlist) :=
  direct dbhandle (fun m => (fun f w => f rshandle row w) <$> dbm_get_next_row m) row.

Definition orcm_db_base_close_result_set (dbhandle rshandle : Z) :=
  direct dbhandle (fun m => (fun f w => let '(rc, w) := f rshandle w in (rc, tt, w)) <$> dbm_close_result_set m) tt.

(** ** Shut-down *)
Fixpoint close_handles (n : nat) (t : opal_pointer_array_t orcm_db_handle_t) : outcome (opal_pointer_array_t orcm_db_handle_t) :=
  match n with
  | O => Ret t
  | S n' =>
    t ← close_handles n' t;
    hdl ← opal_pointer_array_get_item t (Z.of_nat n');
    match hdl with
    | Some _ => '(_, t) ← opal_pointer_array_set_item alloc_ok t (Z.of_nat n') None; Ret t
    | None => Ret t
    end
  end.

Definition orcm_db_base_frame_close (b : orcm_db_base_t) (w : W) : outcome (orcm_db_base_t * W) :=
  t ← close_handles (Z.to_nat (pa_size (dbb_handles b))) (dbb_handles b);
  Ret (MkDb [] (opal_pointer_array_destruct t) (dbb_events b) (dbb_selected b),
       foldl (fun w c => match dbc_finalize c with Some f => f w | None => w end) w (dbb_actives b)).
End Framework.
Arguments orcm_db_base_module_t : clear implicits.
Arguments orcm_db_base_component_t : clear implicits.
Arguments orcm_db_handle_t : clear implicits.
Arguments orcm_db_request_t : clear implicits.
Arguments orcm_db_base_t : clear implicits.
Arguments db_answer : clear implicits.
