(* ===== verification/TimeStamp.v ===== *)
(** * Broken-down time

    The calendar functions of the C library that the database framework uses
    for its time stamps: [gmtime_r], [mktime] with the zone UTC ([timegm]) and
    the conversions %F and %T of [strftime].  The calendar is the proleptic
    Gregorian one, as POSIX defines it, and has no leap seconds.

    [timegm_gmtime] and [gmtime_ok] say that the two functions are inverse. *)

From S2P Require Import Prelude CString.
From stdpp Require Import base strings numbers list.
From Stdlib Require Import ZArith Lia Ascii.

Open Scope Z_scope.

(** [struct tm]: years from 1900, months from 0. *)
Record tm_t : Type := MkTm {
  tm_year : Z;
  tm_mon : Z;
  tm_mday : Z;
  tm_hour : Z;
  tm_min : Z;
  tm_sec : Z
}.

Definition leap_year (y : Z) : bool := (y mod 4 =? 0) && (negb (y mod 100 =? 0) || (y mod 400 =? 0)).

(** Days of the months of a year. *)
Definition months (y : Z) : list Z := [31; if leap_year y then 29 else 28; 31; 30; 31; 30; 31; 31; 30; 31; 30; 31].

Definition total (l : list Z) : Z := foldr Z.add 0 l.

(** Days from the first of January 1970 to that of year [y]. *)
Definition jan1 (y : Z) : Z := 365 * (y - 1970) + (y - 1969) / 4 - (y - 1901) / 100 + (y - 1601) / 400.

(** The year of a day: the mean length of a year is off by at most one. *)
Definition year_of (days : Z) : Z :=
  let y := 1970 + 400 * days / 146097 in
  if days <? jan1 y then y - 1 else if jan1 (y + 1) <=? days then y + 1 else y.

(** The month of a day of the year and the days since its first. *)
Fixpoint month_of (lengths : list Z) (yday : Z) : Z * Z :=
  match lengths with
  | [] => (0, yday)
  | n :: lengths' => if yday <? n then (0, yday) else let '(m, d) := month_of lengths' (yday - n) in (m + 1, d)
  end.

Definition gmtime (t : Z) : tm_t :=
  let days := t / 86400 in
  let y := year_of days in
  let '(m, d) := month_of (months y) (days - jan1 y) in
  MkTm (y - 1900) m (d + 1) (t mod 86400 / 3600) (t mod 3600 / 60) (t mod 60).

(** Months outside a year are carried. *)
Definition timegm (t : tm_t) : Z :=
  let y := 1900 + tm_year t + tm_mon t / 12 in
  let days := jan1 y + total (take (Z.to_nat (tm_mon t mod 12)) (months y)) + (tm_mday t - 1) in
  days * 86400 + tm_hour t * 3600 + tm_min t * 60 + tm_sec t.

(** The texts of %F, for years of four digits, and %T. *)
Definition strftime_F (t : tm_t) : option cstr :=
  let y := 1900 + tm_year t in
  if (1000 <=? y) && (y <=? 9999)
  then Some (dec_pad 4 y ++ ["-"%char] ++ dec_pad 2 (tm_mon t + 1) ++ ["-"%char] ++ dec_pad 2 (tm_mday t)) else None.

Definition strftime_T (t : tm_t) : cstr :=
  dec_pad 2 (tm_hour t) ++ [":"%char] ++ dec_pad 2 (tm_min t) ++ [":"%char] ++ dec_pad 2 (tm_sec t).

(** ** The calendar *)

(** Quotients and remainders as equations. *)
Ltac zdiv := Z.to_euclidean_division_equations; lia.

Lemma div_next k j y c : 0 < k -> c = k * j + 1 -> (y + 1 - c) / k = (y - c) / k + if y mod k =? 0 then 1 else 0.
Proof.
  intros Hk ->. replace (y + 1 - (k * j + 1)) with (y + - j * k) by lia. rewrite Z.div_add by lia.
  pose proof (Z.div_mod y k ltac:(lia)) as Hd. pose proof (Z.mod_pos_bound y k Hk) as Hb. set (q := y / k) in *. set (r := y mod k) in *.
  destruct (Z.eqb_spec r 0) as [E|E].
  - rewrite <- (Z.div_unique_pos (y - (k * j + 1)) k (q - j - 1) (k - 1)) by lia. lia.
  - rewrite <- (Z.div_unique_pos (y - (k * j + 1)) k (q - j) (r - 1)) by lia. lia.
Qed.

Lemma jan1_next y : jan1 (y + 1) = jan1 y + total (months y).
Proof.
  assert (Hm : forall k j, 0 < k -> 0 < j -> y mod (k * j) = 0 -> y mod k = 0).
  { intros k j Hk Hj E. apply Z.div_exact in E; [|lia]. rewrite E, <- Z.mul_assoc, Z.mul_comm. apply Z.mod_mul. lia. }
  assert (H4 : y mod 100 = 0 -> y mod 4 = 0) by (apply (Hm 4 25); lia).
  assert (H100 : y mod 400 = 0 -> y mod 100 = 0) by (apply (Hm 100 4); lia). clear Hm.
  pose proof (div_next 4 492 y 1969 ltac:(lia) ltac:(lia)). pose proof (div_next 100 19 y 1901 ltac:(lia) ltac:(lia)).
  pose proof (div_next 400 4 y 1601 ltac:(lia) ltac:(lia)).
  unfold jan1, months, leap_year, total. cbn [foldr].
  destruct (Z.eqb_spec (y mod 4) 0), (Z.eqb_spec (y mod 100) 0), (Z.eqb_spec (y mod 400) 0); cbn [andb orb negb]; try (exfalso; tauto); lia.
Qed.

Lemma year_of_spec days : jan1 (year_of days) <= days < jan1 (year_of days + 1).
Proof.
  unfold year_of. set (y := 1970 + 400 * days / 146097).
  assert (Hy : 146097 * (y - 1970) <= 400 * days < 146097 * (y - 1970) + 146097) by (subst y; zdiv).
  clearbody y. destruct (Z.ltb_spec days (jan1 y)); [|destruct (Z.leb_spec (jan1 (y + 1)) days)]; unfold jan1 in *.
  - replace (y - 1 + 1) with y by lia. zdiv.
  - zdiv.
  - zdiv.
Qed.

Lemma months_length y : length (months y) = 12%nat.
Proof. reflexivity. Qed.

Lemma month_of_spec lengths yday : 0 <= yday < total lengths ->
  let '(m, d) := month_of lengths yday in
  (exists n, lengths !! Z.to_nat m = Some n /\ 0 <= d < n) /\ 0 <= m < Z.of_nat (length lengths) /\
  total (take (Z.to_nat m) lengths) + d = yday.
Proof.
  revert yday. induction lengths as [|n lengths IH]; intros yday Hy; [cbn in Hy; lia|]. cbn [month_of].
  destruct (Z.ltb_spec yday n).
  - split_and!; [exists n; split; [done|lia]|lia|cbn; lia|done].
  - specialize (IH (yday - n)). change (total (n :: lengths)) with (n + total lengths) in Hy. destruct (month_of lengths (yday - n)) as [m d].
    destruct IH as (Hn & Hm & Ht); [lia|]. replace (Z.to_nat (m + 1)) with (S (Z.to_nat m)) by lia.
    change (total (take (S (Z.to_nat m)) (n :: lengths))) with (n + total (take (Z.to_nat m) lengths)). cbn [length].
    split_and!; [done|lia|lia|lia].
Qed.

(** The fields are in their ranges. *)
Definition tm_ok (t : tm_t) : Prop :=
  0 <= tm_mon t < 12 /\ (exists n, months (1900 + tm_year t) !! Z.to_nat (tm_mon t) = Some n /\ 1 <= tm_mday t <= n) /\
  0 <= tm_hour t < 24 /\ 0 <= tm_min t < 60 /\ 0 <= tm_sec t < 60.

Lemma gmtime_ok t : tm_ok (gmtime t).
Proof.
  unfold gmtime. pose proof (year_of_spec (t / 86400)) as Hy. rewrite jan1_next in Hy.
  pose proof (month_of_spec (months (year_of (t / 86400))) (t / 86400 - jan1 (year_of (t / 86400))) ltac:(lia)) as Hm.
  destruct (month_of _ _) as [m d]. destruct Hm as ((n & Hn & Hd) & Hm & _). rewrite months_length in Hm.
  unfold tm_ok. cbn. replace (1900 + (year_of (t / 86400) - 1900)) with (year_of (t / 86400)) by lia.
  split_and!; try zdiv. exists n. split; [done|lia].
Qed.

Lemma timegm_gmtime t : timegm (gmtime t) = t.
Proof.
  unfold gmtime. pose proof (year_of_spec (t / 86400)) as Hy. rewrite jan1_next in Hy.
  pose proof (month_of_spec (months (year_of (t / 86400))) (t / 86400 - jan1 (year_of (t / 86400))) ltac:(lia)) as Hm.
  destruct (month_of _ _) as [m d]. destruct Hm as (_ & Hm & Ht). rewrite months_length in Hm.
  unfold timegm. cbn [tm_year tm_mon tm_mday tm_hour tm_min tm_sec]. rewrite (Z.div_small m 12), (Z.mod_small m 12) by lia.
  replace (1900 + (year_of (t / 86400) - 1900) + 0) with (year_of (t / 86400)) by lia.
  replace (jan1 _ + _ + _) with (t / 86400) by lia. zdiv.
Qed.
