(* ===== verification/DbUtil.v ===== *)
(** * Queries and time stamps of the database framework
    ([orcm/mca/db/base/db_base_utils.c])

    Texts of values for SQL, the query for a view with filters, and the
    conversions of time stamps.  [localtime] and [mktime] depend on the time
    zone and are parameters; [localtime] may fail.

    Printing a null pointer with %s is undefined, and so is here a date whose
    year has not four digits, as its text is not modelled. *)

From S2P Require Import Prelude CString Dss DssValue Float64 OrcmUtil TimeStamp.
From stdpp Require Import base strings numbers list.
From Stdlib Require Import ZArith Lia Ascii SpecFloat.

Open Scope Z_scope.

(** ** Decimal texts *)

(** The quotient of two numbers, ties to even. *)
Definition round_div (a b : Z) : Z :=
  let q := a / b in
  let r := a mod b in
  if (2 * r <? b) || ((2 * r =? b) && Z.even q) then q else q + 1.

(** %f of a [double], C locale. *)
Definition fmt_f (d : double) : cstr :=
  let sign (s : bool) (t : cstr) := if s then "-"%char :: t else t in
  match d with
  | S754_zero s => sign s (cs "0.000000")
  | S754_infinity s => sign s (cs "inf")
  | S754_nan => cs "nan"
  | S754_finite s m e =>
    let n := if 0 <=? e then Zpos m * 2 ^ e * 10 ^ 6 else round_div (Zpos m * 10 ^ 6) (2 ^ (- e)) in
    sign s (dec (n / 10 ^ 6) ++ ["."%char] ++ dec_pad 6 (n mod 10 ^ 6))
  end.

(** %03d. *)
Definition fmt_03d (n : Z) : cstr :=
  if n <? 0 then "-"%char :: dec_pad (Nat.max 2 (ndigits (- n))) (- n) else dec_pad (Nat.max 3 (ndigits n)) n.

(** The nearest [float]. *)
Definition to_float (d : double) : double :=
  match d with S754_finite s m e => binary_normalize 24 128 (cond_Zopp s (Zpos m)) e s | _ => d end.

(** ** Items *)
Inductive orcm_db_item_t : Type :=
| ItemInteger (opal_type : Z) (v : Z)
| ItemReal (opal_type : Z) (v : double)
| ItemString (opal_type : Z) (v : option cstr).

(** The width of an integer type and whether it is signed. *)
Definition int_member (type : Z) : option (Z * bool) :=
  if type =? OPAL_SIZE then Some (64, false)
  else if type =? OPAL_INT then Some (32, true)
  else if type =? OPAL_INT8 then Some (8, true)
  else if type =? OPAL_INT16 then Some (16, true)
  else if type =? OPAL_INT32 then Some (32, true)
  else if type =? OPAL_INT64 then Some (64, true)
  else if type =? OPAL_UINT then Some (32, false)
  else if type =? OPAL_UINT8 then Some (8, false)
  else if type =? OPAL_UINT16 then Some (16, false)
  else if type =? OPAL_UINT32 then Some (32, false)
  else if type =? OPAL_UINT64 then Some (64, false)
  else if type =? OPAL_PID then Some (32, true)
  else if type =? OPAL_BOOL then Some (8, false)
  else None.

Definition member (m : Z * bool) (z : Z) : Z := if m.2 then sgn m.1 z else wrap m.1 z.

Definition opal_value_to_orcm_db_item (kv : orcm_value_t) : outcome (Z * option orcm_db_item_t) :=
  if ov_type kv =? OPAL_STRING then
    match ov_data kv with VString s => Ret (OPAL_SUCCESS, Some (ItemString (ov_type kv) s)) | _ => Ub end
  else
    match int_member (ov_type kv) with
    | Some m => match ov_data kv with VInt z => Ret (OPAL_SUCCESS, Some (ItemInteger (ov_type kv) (i64 (member m z)))) | _ => Ub end
    | None =>
      if ov_type kv =? OPAL_FLOAT then
        match ov_data kv with VFloat f => Ret (OPAL_SUCCESS, Some (ItemReal (ov_type kv) f)) | _ => Ub end
      else if ov_type kv =? OPAL_DOUBLE then
        match ov_data kv with VDouble f => Ret (OPAL_SUCCESS, Some (ItemReal (ov_type kv) f)) | _ => Ub end
      else Ret (OPAL_ERR_NOT_SUPPORTED, None)
    end.

Definition is_supported_opal_int_type (type : Z) : bool :=
  bool_decide (type ∈ [OPAL_BYTE; OPAL_BOOL; OPAL_SIZE; OPAL_PID; OPAL_INT; OPAL_INT8; OPAL_INT16; OPAL_INT32; OPAL_INT64;
    OPAL_UINT; OPAL_UINT8; OPAL_UINT16; OPAL_UINT32; OPAL_UINT64]).

(** ** Time stamps *)
Definition timeval_to_iso8601 (tv_sec tv_usec : Z) : outcome cstr :=
  let milliseconds := i32 (Z.quot tv_usec 1000) in
  let tms := gmtime tv_sec in
  date ← deref (strftime_F tms);
  Ret (date ++ ["T"%char] ++ strftime_T tms ++ ["."%char] ++ fmt_03d milliseconds).

(** The two loops that bring the microseconds into their range. *)
Fixpoint borrow (fuel : nat) (tv_sec tv_usec : Z) : outcome (Z * Z) :=
  if tv_usec <? 0 then match fuel with O => Diverge | S f => borrow f (tv_sec - 1) (tv_usec + 1000000) end else Ret (tv_sec, tv_usec).
Fixpoint carry (fuel : nat) (tv_sec tv_usec : Z) : outcome (Z * Z) :=
  if 1000000 <=? tv_usec then match fuel with O => Diverge | S f => carry f (tv_sec + 1) (tv_usec - 1000000) end else Ret (tv_sec, tv_usec).

Definition normalize_timeval (fuel : nat) (tv_sec tv_usec : Z) : outcome (Z * Z) :=
  '(tv_sec, tv_usec) ← borrow fuel tv_sec tv_usec;
  carry fuel tv_sec tv_usec.

(** The fraction is that of the time as it came; its first character is
    skipped, and the text is cut at the size of the buffer, which is not
    zero. *)
Definition tv_to_str_time_stamp (localtime : Z -> option tm_t) (fuel : nat) (tv_sec tv_usec : Z) (size : nat) : outcome (bool * cstr) :=
  '(nrm_sec, _) ← normalize_timeval fuel tv_sec tv_usec;
  match localtime nrm_sec with
  | None => Ret (false, [])
  | Some tm_info =>
    date ← deref (strftime_F tm_info);
    let fraction := take 9 (fmt_f (to_float (ddiv (of_int tv_usec) (of_int 1000000)))) in
    Ret (true, take (size - 1) (date ++ [" "%char] ++ strftime_T tm_info ++ drop 1 fraction))
  end.

(** [strncpy] of [n] characters from an offset, and [atoi] of them. *)
Definition atoi_at (stamp : cstr) (offset n : nat) : outcome Z :=
  if (length stamp <? offset)%nat then Ub else Ret (i32 (strtol10 (take n (drop offset stamp))).1.1).

Definition time_stamp_str_to_tv (mktime : tm_t -> Z) (stamp : option cstr) : outcome (option (Z * Z)) :=
  match stamp with
  | None => Ret None
  | Some stamp =>
    year ← atoi_at stamp 0 4;
    mon ← atoi_at stamp 5 2;
    mday ← atoi_at stamp 8 2;
    hour ← atoi_at stamp 11 2;
    min ← atoi_at stamp 14 2;
    sec ← atoi_at stamp 17 2;
    tv_usec ← (if (23 <=? length stamp)%nat then ms ← atoi_at stamp 20 3; Ret (ms * 1000) else Ret 0);
    Ret (Some (mktime (MkTm (year - 1900) (mon - 1) mday hour min sec), tv_usec))
  end.

(** ** Queries *)
Inductive orcm_db_comparison_op_t : Type :=
| NONE | LT | GT | EQ | NE | LE | GE | CONTAINS | STARTS_WITH | ENDS_WITH | IN.

Record orcm_db_filter_t : Type := MkFilter {
  ft_value : orcm_value_t;
  ft_op : orcm_db_comparison_op_t
}.

(** Unsigned values are printed as signed ones of the same width. *)
Definition get_opal_value_as_sql_string (value : option orcm_value_t) : outcome (option cstr) :=
  match value with
  | None => Ret None
  | Some v =>
    let integer w s := match ov_data v with VInt z => Ret (Some (fmt_d (sgn (Z.max 32 w) (member (w, s) z)))) | _ => Ub end in
    if ov_type v =? OPAL_STRING then s ← deref_string (data_string v); Ret (Some s)
    else if ov_type v =? OPAL_INT then integer 32 true
    else if ov_type v =? OPAL_INT8 then integer 8 true
    else if ov_type v =? OPAL_INT16 then integer 16 true
    else if ov_type v =? OPAL_INT32 then integer 32 true
    else if ov_type v =? OPAL_INT64 then integer 64 true
    else if ov_type v =? OPAL_UINT then integer 32 false
    else if ov_type v =? OPAL_UINT8 then integer 8 false
    else if ov_type v =? OPAL_UINT16 then integer 16 false
    else if ov_type v =? OPAL_UINT32 then integer 32 false
    else if ov_type v =? OPAL_UINT64 then integer 64 false
    else if ov_type v =? OPAL_FLOAT then match ov_data v with VFloat f => Ret (Some (fmt_f f)) | _ => Ub end
    else if ov_type v =? OPAL_DOUBLE then match ov_data v with VDouble f => Ret (Some (fmt_f f)) | _ => Ub end
    else if (ov_type v =? OPAL_TIMEVAL) || (ov_type v =? OPAL_TIME) then
      '(s, u) ← as_timeval v; t ← timeval_to_iso8601 s u; Ret (Some t)
    else Ret None
  end.

Definition op_string (op : orcm_db_comparison_op_t) : cstr :=
  match op with
  | NONE => []
  | LT => cs " < "
  | GT => cs " > "
  | EQ => cs " = "
  | NE => cs " <> "
  | LE => cs " <= "
  | GE => cs " >= "
  | CONTAINS | STARTS_WITH | ENDS_WITH => cs " like "
  | IN => cs " in "
  end.

Definition op_is (a b : orcm_db_comparison_op_t) : bool :=
  match a, b with
  | NONE, NONE | LT, LT | GT, GT | EQ, EQ | NE, NE | LE, LE | GE, GE | CONTAINS, CONTAINS | STARTS_WITH, STARTS_WITH
  | ENDS_WITH, ENDS_WITH | IN, IN => true
  | _, _ => false
  end.

(** The query with one more condition, if the filter compares. *)
Definition add_where_clauses (query : cstr) (filter : orcm_db_filter_t) (first_clause : bool) : outcome (option cstr) :=
  if op_is (ft_op filter) NONE then Ret None
  else
    let c1 := if op_is (ft_op filter) IN then "("%char else "'"%char in
    let c2 := if op_is (ft_op filter) IN then ")"%char else "'"%char in
    val ← get_opal_value_as_sql_string (Some (ft_value filter));
    let and := if first_clause then cs " where " else cs " and " in
    key ← deref (ov_key (ft_value filter));
    val ← deref val;
    Ret (Some (query ++ and ++ key ++ op_string (ft_op filter) ++ [c1] ++ val ++ [c2])).

Fixpoint add_all_clauses (query : cstr) (filters : list orcm_db_filter_t) (first_clause : bool) : outcome (option cstr) :=
  match filters with
  | [] => Ret (Some query)
  | f :: filters' =>
    q ← add_where_clauses query f first_clause;
    match q with Some q => add_all_clauses q filters' false | None => Ret None end
  end.

Definition build_query_from_view_name_and_filters (view_name : option cstr) (filters : option (list orcm_db_filter_t)) : outcome (option cstr) :=
  match view_name with
  | None | Some [] => Ret None
  | Some view_name =>
    match filters with
    | None | Some [] => Ret (Some (cs "select * from " ++ view_name ++ cs ";"))
    | Some filters =>
      q ← add_all_clauses (cs "select * from " ++ view_name) filters true;
      Ret (option_map (fun q => q ++ cs " LIMIT 10000;") q)
    end
  end.
