(* ===== verification/DbUtilClaims.v ===== *)
(** * What the queries and time stamps of the database framework mean

    A query determines its view and its conditions as long as the values
    hold no quotes ([query_unambiguous]); otherwise it can be that of other
    filters ([query_injection]).  A time stamp in UTC gives its time back, up
    to milliseconds ([time_stamp_roundtrip]); the text of a number for SQL is
    right for what a signed integer of the width holds
    ([sql_integer_text]). *)

From S2P Require Import Prelude CString Dss DssValue Float64 OrcmUtil TimeStamp DbUtil.
From stdpp Require Import base strings numbers list.
From Stdlib Require Import ZArith Lia Ascii SpecFloat.

Open Scope Z_scope.

(** ** Queries *)

(** A condition as the query shows it. *)
Record condition : Type := MkCondition {
  cn_key : cstr;
  cn_op : orcm_db_comparison_op_t;
  cn_val : cstr
}.

Definition shown (f : orcm_db_filter_t) (c : condition) : Prop :=
  ov_key (ft_value f) = Some (cn_key c) /\ ft_op f = cn_op c /\ get_opal_value_as_sql_string (Some (ft_value f)) = Ret (Some (cn_val c)).

Definition opening_quote (op : orcm_db_comparison_op_t) : ascii := match op with IN => "("%char | _ => "'"%char end.
Definition closing_quote (op : orcm_db_comparison_op_t) : ascii := match op with IN => ")"%char | _ => "'"%char end.

(** Names without blanks, values without the closing quote. *)
Definition plain_name (s : cstr) : Prop := ~ (" "%char ∈ s) /\ ~ (";"%char ∈ s).
Definition plain (c : condition) : Prop := cn_op c <> NONE /\ plain_name (cn_key c) /\ ~ (closing_quote (cn_op c) ∈ cn_val c).

Definition clause (first : bool) (c : condition) : cstr :=
  (if first then cs " where " else cs " and ") ++ cn_key c ++ op_string (cn_op c) ++ [opening_quote (cn_op c)] ++ cn_val c ++ [closing_quote (cn_op c)].

Fixpoint clauses (first : bool) (l : list condition) : cstr :=
  match l with [] => [] | c :: l' => clause first c ++ clauses false l' end.

Lemma add_clause query f c first : shown f c -> cn_op c <> NONE -> add_where_clauses query f first = Ret (Some (query ++ clause first c)).
Proof.
  intros (Hk & Ho & Hv) Hn. unfold add_where_clauses, clause. rewrite Ho, Hv, Hk. destruct (cn_op c); try done; by destruct first.
Qed.

Lemma add_clauses query fs l first : Forall2 shown fs l -> Forall (fun c => cn_op c <> NONE) l ->
  add_all_clauses query fs first = Ret (Some (query ++ clauses first l)).
Proof.
  intros Hs. revert query first. induction Hs as [|f c fs l Hf _ IH]; intros query first Hl; cbn [add_all_clauses clauses]; [by rewrite app_nil_r|].
  apply Forall_cons_iff in Hl as [Hc Hl]. rewrite (add_clause _ _ _ _ Hf Hc), bind_Ret, IH by done. by rewrite app_assoc.
Qed.

Lemma plain_ops l : Forall plain l -> Forall (fun c => cn_op c <> NONE) l.
Proof. intros Hl. eapply Forall_impl; [exact Hl|]. by intros c (? & _). Qed.

(** What follows the view in a query. *)
Definition query_tail (l : list condition) : cstr := match l with [] => cs ";" | _ => clauses true l ++ cs " LIMIT 10000;" end.

Lemma query_spec view fs l : view <> [] -> Forall2 shown fs l -> Forall (fun c => cn_op c <> NONE) l ->
  build_query_from_view_name_and_filters (Some view) (Some fs) = Ret (Some (cs "select * from " ++ view ++ query_tail l)).
Proof.
  intros Hv Hs Hl. unfold build_query_from_view_name_and_filters. destruct view as [|a view]; [done|].
  destruct Hs as [|f c fs l Hf Hs]; [done|]. rewrite (add_clauses _ (f :: fs) (c :: l)), bind_Ret by (done || by constructor).
  cbn [option_map query_tail]. by rewrite <- !app_assoc.
Qed.

(** Texts that end at the first [c]. *)
Lemma cut_at (c : ascii) a b (x y : cstr) : c ∉ a -> c ∉ b -> a ++ c :: x = b ++ c :: y -> a = b /\ x = y.
Proof.
  revert b. induction a as [|d a IH]; intros [|e b] Ha Hb E; cbn in E; [by injection E|injection E as <- _; by destruct Hb; left|injection E as -> _; by destruct Ha; left|].
  injection E as <- E. destruct (IH b) as [-> ->]; [by intros ?; apply Ha; right|by intros ?; apply Hb; right|done|done].
Qed.

(** The operator of a condition is read off its text. *)
Lemma cut_op o o' (x y : cstr) : o <> NONE -> o' <> NONE ->
  op_string o ++ [opening_quote o] ++ x = op_string o' ++ [opening_quote o'] ++ y -> op_string o = op_string o' /\ closing_quote o = closing_quote o' /\ x = y.
Proof. intros Ho Ho' E. destruct o, o'; try done; cbn in E; injection E as E; try discriminate; by subst. Qed.

Lemma op_blank o : o <> NONE -> exists r, op_string o = " "%char :: r.
Proof. destruct o; [done|by eexists..]. Qed.

(** The conditions, up to operators with the same text. *)
Definition same (c c' : condition) : Prop := cn_key c = cn_key c' /\ op_string (cn_op c) = op_string (cn_op c') /\ cn_val c = cn_val c'.

Lemma cut_clause first c c' (x y : cstr) : plain c -> plain c' -> clause first c ++ x = clause first c' ++ y -> same c c' /\ x = y.
Proof.
  intros (Hn & [Hk _] & Hv) (Hn' & [Hk' _] & Hv') E. unfold clause in E. rewrite <- !app_assoc in E. apply app_inv_head in E.
  destruct (op_blank _ Hn) as [r Er], (op_blank _ Hn') as [r' Er'].
  assert (Ek : cn_key c = cn_key c').
  { rewrite Er, Er' in E. cbn [app] in E. by apply cut_at in E as [? _]. }
  rewrite Ek in E. apply app_inv_head in E. apply cut_op in E as (Eo & Ec & E); [|done|done].
  rewrite Ec in *. cbn [app] in E. apply cut_at in E as [Ev ->]; [|done|done]. by split.
Qed.

Lemma cut_clauses first l l' : Forall plain l -> Forall plain l' ->
  clauses first l ++ cs " LIMIT 10000;" = clauses first l' ++ cs " LIMIT 10000;" -> Forall2 same l l'.
Proof.
  intros Hl. revert first l'. induction Hl as [|c l Hc _ IH]; intros first l' Hl' E; destruct Hl' as [|c' l' Hc' Hl']; [constructor|..].
  - exfalso. by destruct first.
  - exfalso. by destruct first.
  - cbn [clauses] in E. rewrite <- !app_assoc in E. apply cut_clause in E as [Hs E]; [|done|done]. constructor; [done|]. by apply IH in E.
Qed.

(** A query without conditions has fewer blanks. *)
Lemma tail_blank view view' c l : plain_name view -> view ++ cs ";" <> view' ++ query_tail (c :: l).
Proof.
  intros [Hb _] E. assert (Hin : (" "%char) ∈ view ++ cs ";").
  { rewrite E. apply elem_of_app. right. cbn. apply elem_of_cons. by left. }
  apply elem_of_app in Hin as [?|Hin]; [done|]. cbn in Hin. by apply list_elem_of_singleton in Hin.
Qed.

(** C35: two queries that are the same text ask for the same view with the same conditions, in the same order:
    no part of a name or a value is taken for something else. Operators that are written in the same way count
    as the same. The names may not hold blanks or semicolons, and a value not the character that closes it: a
    quote, or a parenthesis in the condition IN. *)
Theorem query_unambiguous view view' fs fs' l l' q :
  plain_name view -> plain_name view' -> view <> [] -> view' <> [] -> Forall2 shown fs l -> Forall2 shown fs' l' -> Forall plain l -> Forall plain l' ->
  build_query_from_view_name_and_filters (Some view) (Some fs) = Ret q ->
  build_query_from_view_name_and_filters (Some view') (Some fs') = Ret q -> view = view' /\ Forall2 same l l'.
Proof.
  intros [Hb Hs] [Hb' Hs'] Hne Hne' Hf Hf' Hl Hl' E E'.
  rewrite (query_spec view fs l), (query_spec view' fs' l') in * by (done || by apply plain_ops). rewrite <- E' in E. injection E as E.
  clear E'. destruct l as [|c l], l' as [|c' l'].
  - by apply (cut_at ";") in E as [-> _].
  - by apply tail_blank in E.
  - symmetry in E. by apply tail_blank in E.
  - cbn [query_tail] in E. assert (view = view') as -> by (by apply (cut_at " ") in E as [? _]).
    apply app_inv_head, cut_clauses in E; [|done|done]. done.
Qed.

(** Values are not escaped: the query for one condition whose value holds quotes is also the query for two
    conditions, with any second key, operator and value. *)
Theorem query_injection view key key' val val' op :
  view <> [] -> op <> NONE -> op <> IN ->
  build_query_from_view_name_and_filters (Some view)
    (Some [MkFilter (MkOrcmValue (Some key) OPAL_STRING (VString (Some (val ++ cs "' and " ++ key' ++ op_string op ++ cs "'" ++ val'))) None) EQ]) =
  build_query_from_view_name_and_filters (Some view)
    (Some [MkFilter (MkOrcmValue (Some key) OPAL_STRING (VString (Some val)) None) EQ;
           MkFilter (MkOrcmValue (Some key') OPAL_STRING (VString (Some val')) None) op]).
Proof.
  intros Hv Hn Hi.
  rewrite (query_spec view _ [MkCondition key EQ (val ++ cs "' and " ++ key' ++ op_string op ++ cs "'" ++ val')]);
    [|done|by repeat constructor|by repeat constructor].
  rewrite (query_spec view _ [MkCondition key EQ val; MkCondition key' op val']); [|done|by repeat constructor|by repeat constructor].
  cbn [query_tail clauses]. unfold clause. cbn [cn_key cn_op cn_val]. rewrite !app_nil_r, <- !app_assoc. by destruct op.
Qed.

(** ** Numbers *)

(** The integer types with their widths and whether they are signed. *)
Definition integer_types : list (Z * Z * bool) :=
  [(OPAL_INT, 32, true); (OPAL_INT8, 8, true); (OPAL_INT16, 16, true); (OPAL_INT32, 32, true); (OPAL_INT64, 64, true);
   (OPAL_UINT, 32, false); (OPAL_UINT8, 8, false); (OPAL_UINT16, 16, false); (OPAL_UINT32, 32, false); (OPAL_UINT64, 64, false)].

Definition in_type (w : Z) (sg : bool) (z : Z) : Prop := if sg then - 2 ^ (w - 1) <= z < 2 ^ (w - 1) else 0 <= z < 2 ^ w.

Lemma integer_text v w sg z : (ov_type v, w, sg) ∈ integer_types -> ov_data v = VInt z ->
  get_opal_value_as_sql_string (Some v) = Ret (Some (fmt_d (sgn (Z.max 32 w) (member (w, sg) z)))).
Proof.
  intros Hin Hd. unfold get_opal_value_as_sql_string. rewrite Hd. unfold integer_types in Hin.
  repeat (apply elem_of_cons in Hin as [[= -> -> ->]|Hin]; [reflexivity|]). by apply elem_of_nil in Hin.
Qed.

(** The text of an integer for SQL is its decimal text for every value of a signed type and of the unsigned types
    of 8 and 16 bits; a value of 32 or 64 bits that is too large for the signed type of its width appears as the
    negative number with the same bits. *)
Theorem sql_integer_text v w sg z : (ov_type v, w, sg) ∈ integer_types -> ov_data v = VInt z -> in_type w sg z ->
  get_opal_value_as_sql_string (Some v) = Ret (Some (fmt_d (if z <? 2 ^ (Z.max 32 w - 1) then z else z - 2 ^ w))).
Proof.
  intros Hin Hd Hz. rewrite (integer_text v w sg z Hin Hd). do 3 f_equal.
  assert (Hw : w = 8 \/ w = 16 \/ w = 32 \/ w = 64).
  { unfold integer_types in Hin. repeat (apply elem_of_cons in Hin as [[= _ -> _]|Hin]; [lia|]). by apply elem_of_nil in Hin. }
  assert (Hm : Z.max 32 w = if w =? 64 then 64 else 32) by (destruct Hw as [->|[->|[->| ->]]]; reflexivity). rewrite Hm.
  unfold member, in_type in *. cbn [fst snd]. destruct sg.
  - rewrite (sgn_small w z) by (destruct Hw as [->|[->|[->| ->]]]; lia).
    destruct Hw as [->|[->|[->| ->]]]; cbn [Z.eqb Pos.eqb]; (rewrite sgn_small by lia); zcase; lia.
  - rewrite wrap_small by lia. unfold sgn.
    destruct Hw as [->|[->|[->| ->]]]; cbn [Z.eqb Pos.eqb]; (rewrite wrap_small by lia); zcase; lia.
Qed.

(** ** Time stamps *)
Lemma atoi_field n v post : 0 <= v < 10 ^ Z.of_nat n -> (1 <= n <= 4)%nat -> atoi_at (dec_pad n v ++ post) 0 n = Ret v.
Proof.
  intros Hv Hn. assert (10 ^ Z.of_nat n <= 10 ^ 4) by (apply Z.pow_le_mono_r; lia).
  unfold atoi_at. destruct (Nat.ltb_spec (length (dec_pad n v ++ post)) 0); [lia|]. rewrite drop_0. rewrite take_app_le, take_ge by (rewrite dec_pad_length; lia).
  rewrite <- (app_nil_r (dec_pad n v)), strtol10_digits; rewrite ?dec_value_pad_small by done.
  - cbn [fst]. by rewrite i32_small by (unfold INT_MIN, INT_MAX; lia).
  - apply dec_pad_digits.
  - intros E. apply (f_equal length) in E. rewrite dec_pad_length in E. cbn in E. lia.
  - done.
  - unfold LONG_MAX. lia.
Qed.

Lemma atoi_skip w v c post o n : atoi_at (dec_pad w v ++ [c] ++ post) (w + S o) n = atoi_at post o n.
Proof.
  unfold atoi_at. assert (Hd : drop (w + S o) (dec_pad w v ++ [c] ++ post) = drop o post).
  { rewrite <- (dec_pad_length w v) at 1. by rewrite drop_app_add. }
  rewrite Hd, !length_app, dec_pad_length. cbn [length].
  destruct (Nat.ltb_spec (length post) o), (Nat.ltb_spec (w + (1 + length post)) (w + S o)); done || lia.
Qed.

Lemma milliseconds_text us : 0 <= us < 1000000 -> fmt_03d (i32 (Z.quot us 1000)) = dec_pad 3 (us / 1000).
Proof.
  intros Hu. rewrite Z.quot_div_nonneg by lia. assert (0 <= us / 1000 < 10 ^ Z.of_nat 3) by (cbn; zdiv).
  rewrite i32_small by (unfold INT_MIN, INT_MAX; lia). unfold fmt_03d. destruct (Z.ltb_spec (us / 1000) 0); [lia|].
  rewrite Nat.max_l; [done|]. by apply ndigits_le; [|lia].
Qed.

Lemma month_days y m n : months y !! m = Some n -> n <= 31.
Proof. intros H. unfold months in H. repeat (destruct m as [|m]; [injection H as <-; destruct (leap_year y); lia|]). done. Qed.

(** C34: the text of a time in UTC, read back in the zone UTC, is the time with its microseconds cut to milliseconds,
    for every time in a year of four digits. *)
Theorem time_stamp_roundtrip mktime tv_sec tv_usec :
  (forall t, mktime (gmtime t) = timegm (gmtime t)) -> 0 <= tv_usec < 1000000 -> 1000 <= 1900 + tm_year (gmtime tv_sec) <= 9999 ->
  exists stamp, timeval_to_iso8601 tv_sec tv_usec = Ret stamp /\
    time_stamp_str_to_tv mktime (Some stamp) = Ret (Some (tv_sec, tv_usec - tv_usec mod 1000)).
Proof.
  intros Hmk Hu Hy. pose proof (gmtime_ok tv_sec) as (Hmon & (n & Hn & Hd) & Hh & Hmin & Hs). apply month_days in Hn.
  specialize (Hmk tv_sec). rewrite timegm_gmtime in Hmk. unfold timeval_to_iso8601, strftime_F.
  destruct (gmtime tv_sec) as [y mo d h mi se]. cbn [tm_year tm_mon tm_mday tm_hour tm_min tm_sec strftime_T] in *.
  destruct (Z.leb_spec 1000 (1900 + y)); [|lia]. destruct (Z.leb_spec (1900 + y) 9999); [|lia]. cbn [andb deref]. rewrite bind_Ret.
  eexists. split; [reflexivity|]. rewrite milliseconds_text by done. unfold strftime_T. cbn [tm_hour tm_min tm_sec].
  rewrite <- !app_assoc. unfold time_stamp_str_to_tv. set (stamp := dec_pad 4 (1900 + y) ++ _).
  assert (E0 : atoi_at stamp 0 4 = Ret (1900 + y)) by (apply atoi_field; cbn; lia).
  pose proof (fun o => atoi_skip 4 (1900 + y) "-" _ o : forall n, atoi_at stamp (4 + S o) n = _) as K1.
  pose proof (fun o n => eq_trans (K1 (2 + S o)%nat n) (atoi_skip 2 (mo + 1) "-" _ o n)) as K2.
  pose proof (fun o n => eq_trans (K2 (2 + S o)%nat n) (atoi_skip 2 d "T" _ o n)) as K3.
  pose proof (fun o n => eq_trans (K3 (2 + S o)%nat n) (atoi_skip 2 h ":" _ o n)) as K4.
  pose proof (fun o n => eq_trans (K4 (2 + S o)%nat n) (atoi_skip 2 mi ":" _ o n)) as K5.
  pose proof (fun o n => eq_trans (K5 (2 + S o)%nat n) (atoi_skip 2 se "." _ o n)) as K6.
  assert (Hms : 0 <= tv_usec / 1000 < 10 ^ Z.of_nat 3) by (cbn; zdiv).
  assert (E6 : atoi_at stamp 20 3 = Ret (tv_usec / 1000)).
  { rewrite (K6 0%nat), <- (app_nil_r (dec_pad 3 _)). by apply atoi_field; [|lia]. }
  assert (Hlen : length stamp = 23%nat) by (unfold stamp; rewrite !length_app, !dec_pad_length; done).
  rewrite E0, bind_Ret, (K1 0%nat), atoi_field, bind_Ret, (K2 0%nat), atoi_field, bind_Ret by (cbn; lia).
  rewrite (K3 0%nat), atoi_field, bind_Ret, (K4 0%nat), atoi_field, bind_Ret, (K5 0%nat), atoi_field, bind_Ret by (cbn; lia).
  rewrite Hlen. cbn [Nat.leb]. rewrite E6, !bind_Ret. replace (1900 + y - 1900) with y by lia. replace (mo + 1 - 1) with mo by lia.
  rewrite Hmk. do 3 f_equal. zdiv.
Qed.

(** The loops that normalize a time end with the time they stand for. *)
Lemma borrow_spec fuel s u : - u <= Z.of_nat fuel * 1000000 -> u < 0 -> borrow fuel s u = Ret (s + u / 1000000, u mod 1000000).
Proof.
  revert s u. induction fuel as [|fuel IH]; intros s u Hf Hu; [lia|]. cbn [borrow]. destruct (Z.ltb_spec u 0); [|lia].
  destruct (Z.ltb_spec (u + 1000000) 0).
  - rewrite IH by lia. do 2 f_equal; zdiv.
  - destruct fuel; cbn [borrow]; destruct (Z.ltb_spec (u + 1000000) 0); try lia; do 2 f_equal; zdiv.
Qed.

Lemma carry_spec fuel s u : u < (Z.of_nat fuel + 1) * 1000000 -> 0 <= u -> carry fuel s u = Ret (s + u / 1000000, u mod 1000000).
Proof.
  revert s u. induction fuel as [|fuel IH]; intros s u Hf Hu; cbn [carry]; destruct (Z.leb_spec 1000000 u); try lia.
  - do 2 f_equal; zdiv.
  - rewrite IH by lia. do 2 f_equal; zdiv.
  - do 2 f_equal; zdiv.
Qed.

(** Bringing a time into its range ends, after as many turns as its microseconds hold seconds, with the same
    time. *)
Theorem normalize_terminates fuel s u : Z.abs u <= Z.of_nat fuel * 1000000 -> normalize_timeval fuel s u = Ret (s + u / 1000000, u mod 1000000).
Proof.
  intros Hf. unfold normalize_timeval. destruct (Z.ltb_spec u 0).
  - rewrite borrow_spec, bind_Ret by lia. rewrite carry_spec by zdiv. do 2 f_equal; zdiv.
  - assert (borrow fuel s u = Ret (s, u)) as -> by (destruct fuel; cbn; destruct (Z.ltb_spec u 0); done || lia).
    rewrite bind_Ret. by apply carry_spec; lia.
Qed.

(** The fraction of the text is that of the time before it was brought into
    its range: from ten seconds on a digit of it stays in the seconds. *)
Example fraction_not_normalized :
  tv_to_str_time_stamp (fun t => Some (gmtime t)) 20 0 500000 30 = Ret (true, cs "1970-01-01 00:00:00.500000") /\
  tv_to_str_time_stamp (fun t => Some (gmtime t)) 20 0 12500000 30 = Ret (true, cs "1970-01-01 00:00:122.500000").
Proof. split; vm_compute; reflexivity. Qed.

(** ** Examples *)
Definition demo_filter (key val : string) (op : orcm_db_comparison_op_t) : orcm_db_filter_t :=
  MkFilter (MkOrcmValue (Some (cs key)) OPAL_STRING (VString (Some (cs val))) None) op.

Example demo_query :
  build_query_from_view_name_and_filters (Some (cs "nodes")) (Some [demo_filter "hostname" "n1" EQ; demo_filter "id" "1,2" IN]) =
  Ret (Some (cs "select * from nodes where hostname = 'n1' and id in (1,2) LIMIT 10000;")).
Proof. reflexivity. Qed.

(** The two operators have the same text. *)
Lemma query_unambiguous_witness :
  build_query_from_view_name_and_filters (Some (cs "nodes")) (Some [demo_filter "hostname" "n1%" STARTS_WITH]) =
    build_query_from_view_name_and_filters (Some (cs "nodes")) (Some [demo_filter "hostname" "n1%" CONTAINS]) /\
  Forall2 same [MkCondition (cs "hostname") STARTS_WITH (cs "n1%")] [MkCondition (cs "hostname") CONTAINS (cs "n1%")].
Proof.
  split; [reflexivity|].
  refine (proj2 (query_unambiguous (cs "nodes") (cs "nodes") [demo_filter "hostname" "n1%" STARTS_WITH] [demo_filter "hostname" "n1%" CONTAINS]
    _ _ (Some (cs "select * from nodes where hostname like 'n1%' LIMIT 10000;")) _ _ _ _ _ _ _ _ eq_refl eq_refl)).
  all: try (split; apply (bool_decide_unpack _); vm_compute; exact I).
  all: repeat constructor; try done; apply (bool_decide_unpack _); vm_compute; exact I.
Defined.

Lemma query_injection_witness :
  build_query_from_view_name_and_filters (Some (cs "nodes")) (Some [demo_filter "hostname" "n1' and id > '0" EQ]) =
  build_query_from_view_name_and_filters (Some (cs "nodes")) (Some [demo_filter "hostname" "n1" EQ; demo_filter "id" "0" GT]).
Proof. apply (query_injection (cs "nodes") (cs "hostname") (cs "id") (cs "n1") (cs "0") GT); done. Defined.

Lemma sql_integer_text_witness :
  get_opal_value_as_sql_string (Some (MkOrcmValue None OPAL_UINT (VInt (2 ^ 32 - 1)) None)) = Ret (Some (cs "-1")).
Proof.
  etrans; [apply (sql_integer_text _ 32 false (2 ^ 32 - 1))|]; [by apply (bool_decide_unpack _); vm_compute|done|unfold in_type; lia|].
  vm_compute. reflexivity.
Defined.

Lemma time_stamp_roundtrip_witness :
  exists stamp, timeval_to_iso8601 1440000000 123456 = Ret stamp /\ stamp = cs "2015-08-19T16:00:00.123" /\
    time_stamp_str_to_tv timegm (Some stamp) = Ret (Some (1440000000, 123000)).
Proof.
  destruct (time_stamp_roundtrip timegm 1440000000 123456) as (stamp & E & H); [done|lia|vm_compute; split; discriminate|].
  exists stamp. split; [exact E|]. split; [vm_compute in E; by injection E|exact H].
Defined.

Lemma normalize_terminates_witness : normalize_timeval 3 5 (-1500000) = Ret (3, 500000).
Proof. exact (normalize_terminates 3 5 (-1500000) ltac:(cbn; lia)). Defined.
