(* ===== verification/DatabaseClaims.v ===== *)
(** * What the database framework promises

    The specification relates a request on a finite map from numbers to open
    databases to its answer and what it leaves; the framework implements it
    ([db_refines_map]).  Asking a module for [store_new] can go through a null
    pointer ([store_new_unchecked]). *)

From S2P Require Import Prelude CString Argv PointerArray PointerMap Dss OrcmUtil Database.
From stdpp Require Import base strings numbers list gmap fin_maps.
From Stdlib Require Import ZArith Lia Ascii Sorted.

Open Scope Z_scope.

(** ** The specification *)
Section Spec.
Context {W C tm : Type}.
Abbreviation handle := (orcm_db_handle_t W tm).
Abbreviation request := (orcm_db_request_t C tm).
Abbreviation component := (orcm_db_base_component_t W tm).
Implicit Types (m : gmap nat handle) (w : W) (req : request) (c : component).

(** What a request asks of the module of its database. *)
Definition operation (p : db_process) req (d : orcm_db_base_module_t W tm) : option (W -> Z * option kvlist * W) :=
  let plain (f : option (W -> Z * W)) := (fun f w => let '(rc, w) := f w in (rc, None, w)) <$> f in
  match p with
  | process_store_t => plain ((fun f => f (rq_primary_key req) (rq_kvs req)) <$> dbm_store d)
  | process_store_new_t => (fun f => f (rq_data_type req) (rq_input req) (rq_output req)) <$> dbm_store_new d
  | process_record_data_samples_t =>
    plain ((fun f => f (rq_hostname req) (rq_time_stamp req) (rq_data_group req) (rq_input req)) <$> dbm_record_data_samples d)
  | process_update_node_features_t => plain ((fun f => f (rq_hostname req) (rq_input req)) <$> dbm_update_node_features d)
  | process_record_diag_test_t =>
    plain ((fun f => f (rq_hostname req) (rq_diag_type req) (rq_diag_subtype req) (rq_start_time req) (rq_end_time req)
                       (rq_component_index req) (rq_test_result req) (rq_input req)) <$> dbm_record_diag_test d)
  | process_commit_t => plain (dbm_commit d)
  | process_rollback_t => plain (dbm_rollback d)
  | process_remove_t => plain ((fun f => f (rq_primary_key req) (rq_key req)) <$> dbm_remove d)
  | process_fetch_t => (fun f => f (rq_source_data_name req) (rq_input req) (rq_output req)) <$> dbm_fetch d
  | process_fetch_function_t => (fun f => f (rq_source_data_name req) (rq_input req) (rq_output req)) <$> dbm_fetch_function d
  | process_open_t | process_close_t => None
  end.

(** The lists a callback is given: the first, and the second when no module
    is reached. *)
Definition in_list (p : db_process) req : option kvlist :=
  match p with
  | process_store_t => rq_kvs req
  | process_store_new_t | process_record_data_samples_t | process_update_node_features_t | process_record_diag_test_t | process_open_t => rq_input req
  | _ => None
  end.

Definition out_list (p : db_process) req : option kvlist :=
  match p with process_store_new_t | process_fetch_t | process_fetch_function_t => rq_output req | _ => None end.

(** The components a request to open names: those in its first property
    [components], a list separated by commas; without the property, all. *)
Definition other_property (kv : orcm_value_t) : Prop := exists k, ov_key kv = Some k /\ k <> cs "components".

Inductive names_of : option kvlist -> option (list cstr) -> Prop :=
| names_no_properties : names_of None None
| names_absent l : Forall other_property l -> names_of (Some l) None
| names_given l1 kv l2 names : Forall other_property l1 -> ov_key kv = Some (cs "components") ->
    ov_data kv = VString (Some (join_spec "," names)) -> names <> [] -> Forall (fun n => n <> [] /\ no_char "," n) names ->
    names_of (Some (l1 ++ kv :: l2)) (Some names).

Definition allowed (names : option (list cstr)) c : Prop :=
  match names with Some names => dbc_name c ∈ names | None => True end.

(** No component of the list makes a module: those that are allowed are asked
    in order and decline. *)
Inductive refused (names : option (list cstr)) (input : option kvlist) : list component -> W -> W -> Prop :=
| refused_nil w : refused names input [] w w
| refused_skip c l w w' : ~ allowed names c -> refused names input l w w' -> refused names input (c :: l) w w'
| refused_asked c l w w1 w' : allowed names c -> dbc_create_handle c input w = (None, w1) -> refused names input l w1 w' ->
    refused names input (c :: l) w w'.

Definition module_request (p : db_process) : Prop := p <> process_open_t /\ p <> process_close_t.

(** One request on the map from numbers to open databases. *)
Inductive spec_request (actives : list component) (m : gmap nat handle) (w : W) :
    db_process -> request -> option (db_answer C) -> gmap nat handle -> W -> Prop :=
| spec_opened req names l1 c l2 w1 d w' : names_of (rq_input req) names -> actives = l1 ++ c :: l2 ->
    refused names (rq_input req) l1 w w1 -> allowed names c -> dbc_create_handle c (rq_input req) w1 = (Some d, w') ->
    spec_request actives m w process_open_t req (answer req (Z.of_nat (lowest m)) OPAL_SUCCESS (rq_input req) None)
      (<[lowest m := MkDbHandle c (Some d)]> m) w'
| spec_open_failed req names w' : names_of (rq_input req) names -> refused names (rq_input req) actives w w' ->
    spec_request actives m w process_open_t req (answer req (-1) OPAL_ERROR (rq_input req) None) m w'
| spec_closed req k c d : rq_dbhandle req = Z.of_nat k -> m !! k = Some (MkDbHandle c (Some d)) ->
    spec_request actives m w process_close_t req (answer req (rq_dbhandle req) OPAL_SUCCESS None None) (delete k m)
      (match dbm_finalize d with Some f => f w | None => w end)
| spec_called p req k c d f rc out w' : module_request p -> rq_dbhandle req = Z.of_nat k -> m !! k = Some (MkDbHandle c (Some d)) ->
    operation p req d = Some f -> f w = (rc, out, w') ->
    spec_request actives m w p req (answer req (rq_dbhandle req) rc (in_list p req) out) m w'
| spec_not_implemented p req k c d : module_request p -> rq_dbhandle req = Z.of_nat k -> m !! k = Some (MkDbHandle c (Some d)) ->
    operation p req d = None ->
    spec_request actives m w p req (answer req (rq_dbhandle req) OPAL_ERR_NOT_IMPLEMENTED (in_list p req) (out_list p req)) m w
| spec_not_found p req : p <> process_open_t -> (forall k, rq_dbhandle req = Z.of_nat k -> m !! k = None) ->
    spec_request actives m w p req (answer req (rq_dbhandle req) OPAL_ERR_NOT_FOUND (in_list p req) (out_list p req)) m w.

(** What clients and the thread of the framework do. *)
Inductive db_step : Type :=
| DPost (p : db_process) (req : request)
| DTurn.

(** Requests are queued, and served one by one in their order. *)
Inductive spec_run (actives : list component) : list db_step -> list (db_process * request) -> gmap nat handle -> W ->
    list (option (db_answer C)) -> list (db_process * request) -> gmap nat handle -> W -> Prop :=
| run_done queue m w : spec_run actives [] queue m w [] queue m w
| run_post p req steps queue m w answers queue' m' w' :
    spec_run actives steps (queue ++ [(p, req)]) m w answers queue' m' w' ->
    spec_run actives (DPost p req :: steps) queue m w answers queue' m' w'
| run_idle steps m w answers queue' m' w' :
    spec_run actives steps [] m w answers queue' m' w' -> spec_run actives (DTurn :: steps) [] m w (None :: answers) queue' m' w'
| run_turn p req queue steps m w a m1 w1 answers queue' m' w' :
    spec_request actives m w p req a m1 w1 -> spec_run actives steps queue m1 w1 answers queue' m' w' ->
    spec_run actives (DTurn :: steps) ((p, req) :: queue) m w (a :: answers) queue' m' w'.
End Spec.
Arguments db_step : clear implicits.

(** ** The framework implements it *)
Section Refines.
Context {W C tm : Type} (alloc_ok : Z -> bool).
Hypothesis Halloc : forall n, alloc_ok n = true.
Abbreviation handle := (orcm_db_handle_t W tm).
Abbreviation request := (orcm_db_request_t C tm).
Abbreviation base := (orcm_db_base_t W C tm).
Implicit Types (m : gmap nat handle) (w : W) (req : request) (b : base) (t : opal_pointer_array_t handle).

Fixpoint db_steps (steps : list (db_step C tm)) b w : outcome (list (option (db_answer C)) * base * W) :=
  match steps with
  | [] => Ret ([], b, w)
  | DPost p req :: steps' => db_steps steps' (post p req b) w
  | DTurn :: steps' =>
    '(a, b, w) ← db_turn alloc_ok b w;
    '(answers, b, w) ← db_steps steps' b w;
    Ret (a :: answers, b, w)
  end.

(** The table holds the databases of [m], after at most [n] requests. *)
Record handles_rep t m (n : Z) : Prop := {
  hr_table : table_rep t m n;
  hr_modules : map_Forall (fun _ h => is_Some (dbh_module h)) m
}.

Lemma handles_get t m n i : handles_rep t m n -> 0 <= n < 2 ^ 29 -> opal_pointer_array_get_item t i = Ret (table_lookup i m).
Proof. intros [Hr _]. by intros; eapply table_get. Qed.

Lemma handles_add t m n h : handles_rep t m n -> 0 <= n < 2 ^ 29 -> is_Some (dbh_module h) ->
  exists t', opal_pointer_array_add alloc_ok t (Some h) = Ret (Z.of_nat (lowest m), t') /\ handles_rep t' (<[lowest m := h]> m) (n + 1).
Proof.
  intros [Hr Hm] Hn Hh. destruct (table_add alloc_ok Halloc t m n h Hr Hn) as (t' & E & Hr').
  exists t'. split; [done|]. split; [done|]. by apply map_Forall_insert_2.
Qed.

Lemma handles_clear t m n i : handles_rep t m n -> 0 <= n < 2 ^ 29 -> i < 2 ^ 30 ->
  exists rc t', opal_pointer_array_set_item alloc_ok t i None = Ret (rc, t') /\
    handles_rep t' (if 0 <=? i then delete (Z.to_nat i) m else m) (n + 1).
Proof.
  intros [Hr Hm] Hn Hi. destruct (table_clear alloc_ok Halloc t m n i Hr Hn Hi) as (rc & t' & E & Hr').
  exists rc, t'. split; [done|]. split; [done|]. destruct (0 <=? i); [by apply map_Forall_delete|done].
Qed.

Lemma handles_weaken t m n : handles_rep t m n -> handles_rep t m (n + 1).
Proof. intros [Hr ?]. split; [|done]. apply (table_weaken _ _ n); [done|lia]. Qed.

(** ** Choosing a component *)
Lemma property_absent l : Forall other_property l -> components_property l = Ret None.
Proof.
  induction 1 as [|kv l (k & Hk & Hne) _ IH]; [done|]. cbn [components_property]. rewrite Hk. cbn [deref]. rewrite bind_Ret.
  unfold strcmp0. by rewrite bool_decide_eq_false_2.
Qed.

Lemma property_skip l1 l2 : Forall other_property l1 -> components_property (l1 ++ l2) = components_property l2.
Proof.
  induction 1 as [|kv l1 (k & Hk & Hne) _ IH]; [done|]. cbn [app components_property]. rewrite Hk. cbn [deref]. rewrite bind_Ret.
  unfold strcmp0. by rewrite bool_decide_eq_false_2.
Qed.

Lemma names_found input names : names_of input names ->
  match input with Some input => components_property input | None => Ret None end = Ret names.
Proof.
  destruct 1 as [|l Hl|l1 kv l2 names Hl Hk Hd Hne Hn]; [done|by apply property_absent|].
  rewrite property_skip by done. cbn [components_property]. rewrite Hk. cbn [deref]. rewrite bind_Ret.
  unfold strcmp0. rewrite bool_decide_eq_true_2 by done. unfold data_string. rewrite Hd. cbn [deref_string]. rewrite bind_Ret.
  apply (argv_split_join names ","); [done|done|apply argv_join_correct].
Qed.

Lemma allowed_found names c :
  match names with None => true | Some l => existsb (fun n => strcmp0 n (dbc_name c)) l end = true <-> allowed (W := W) (tm := tm) names c.
Proof.
  destruct names as [l|]; [|done]. cbn [allowed]. rewrite existsb_exists. split.
  - intros (n & Hn & E%strcmp0_true). subst n. by apply list_elem_of_In.
  - intros Hn. exists (dbc_name c). split; [by apply list_elem_of_In|]. by apply strcmp0_true.
Qed.

Lemma try_spec names input (actives : list (orcm_db_base_component_t W tm)) w :
  match try_components names input actives w with
  | (Some (c, d), w') => exists l1 l2 w1, actives = l1 ++ c :: l2 /\ refused names input l1 w w1 /\ allowed names c /\
      dbc_create_handle c input w1 = (Some d, w')
  | (None, w') => refused names input actives w w'
  end.
Proof.
  revert w. induction actives as [|c actives IH]; intros w; [constructor|]. cbn [try_components].
  destruct (match names with None => true | Some l => _ end) eqn:Ef.
  - apply allowed_found in Ef. destruct (dbc_create_handle c input w) as [[d|] w1] eqn:Ec; [by exists [], actives, w; split_and!; [|constructor| |]|].
    specialize (IH w1). destruct (try_components names input actives w1) as [[[c' d]|] w'].
    + destruct IH as (l1 & l2 & w2 & -> & Hr & Ha & Hc). exists (c :: l1), l2, w2. split_and!; [done|by eapply refused_asked|done|done].
    + by eapply refused_asked.
  - assert (~ allowed names c) as Hn by (rewrite <- allowed_found, Ef; done).
    specialize (IH w). destruct (try_components names input actives w) as [[[c' d]|] w'].
    + destruct IH as (l1 & l2 & w2 & -> & Hr & Ha & Hc). exists (c :: l1), l2, w2. split_and!; [done|by apply refused_skip|done|done].
    + by apply refused_skip.
Qed.

(** ** One request *)
(** A module has [store] exactly if it has [store_new]: the framework tests for
    the one before it calls the other. *)
Definition stores_alike (d : orcm_db_base_module_t W tm) : Prop := is_Some (dbm_store d) <-> is_Some (dbm_store_new d).
Definition makes_alike (c : orcm_db_base_component_t W tm) : Prop :=
  forall input w d w', dbc_create_handle c input w = (Some d, w') -> stores_alike d.
Definition alike m : Prop := map_Forall (fun _ h => forall d, dbh_module h = Some d -> stores_alike d) m.

(** The request is served as the specification says, and the state stays
    well-formed. *)
Definition serves b p req m n w (r : outcome (option (db_answer C) * base * W)) : Prop :=
  exists a b' m' w', r = Ret (a, b', w') /\ spec_request (dbb_actives b) m w p req a m' w' /\ handles_rep (dbb_handles b') m' (n + 1) /\
    alike m' /\ dbb_events b' = dbb_events b /\ dbb_actives b' = dbb_actives b.

Lemma serves_same b p req m n w a w' : handles_rep (dbb_handles b) m n -> alike m -> spec_request (dbb_actives b) m w p req a m w' ->
  serves b p req m n w (Ret (a, b, w')).
Proof. intros Hr Hm Hs. exists a, b, m, w'. split_and!; [done|done|by apply handles_weaken|done|done|done]. Qed.

Lemma open_serves req b m n w : handles_rep (dbb_handles b) m n -> 0 <= n < 2 ^ 29 -> alike m -> Forall makes_alike (dbb_actives b) ->
  (exists names, names_of (rq_input req) names) -> serves b process_open_t req m n w (process_open alloc_ok req b w).
Proof.
  intros Hr Hn Hm Hcs [names Hnames]. unfold process_open. rewrite (names_found _ _ Hnames), bind_Ret.
  pose proof (try_spec names (rq_input req) (dbb_actives b) w) as Ht.
  destruct (try_components names (rq_input req) (dbb_actives b) w) as [[[c d]|] w'];
    [|by apply serves_same; [..|by eapply spec_open_failed]].
  destruct Ht as (l1 & l2 & w1 & Hact & Href & Hall & Hc).
  destruct (handles_add _ m n (MkDbHandle c (Some d)) Hr Hn) as (t' & -> & Hr'); [done|]. rewrite bind_Ret.
  eexists _, _, _, w'. split; [reflexivity|]. split; [by eapply spec_opened|]. split_and!; [done| |done|done].
  apply map_Forall_insert_2; [|done]. intros d0 [= <-]. rewrite Hact in Hcs. apply Forall_app in Hcs as [_ [Hcc _]%Forall_cons_iff].
  by eapply Hcc.
Qed.

(** The database of a request, as the table has it. *)
Lemma looked_up req b m n : handles_rep (dbb_handles b) m n -> 0 <= n < 2 ^ 29 ->
  (exists k c d, rq_dbhandle req = Z.of_nat k /\ m !! k = Some (MkDbHandle c (Some d)) /\ handle_of (rq_dbhandle req) b = Ret (Some (MkDbHandle c (Some d)))) \/
  (forall k, rq_dbhandle req = Z.of_nat k -> m !! k = None) /\ handle_of (rq_dbhandle req) b = Ret None.
Proof.
  intros Hr Hn. unfold handle_of. rewrite (handles_get _ _ _ _ Hr Hn). unfold table_lookup. destruct (Z.leb_spec 0 (rq_dbhandle req)) as [H0|H0].
  - destruct (m !! Z.to_nat (rq_dbhandle req)) as [[c o]|] eqn:E.
    + left. destruct (hr_modules _ _ _ Hr _ _ E) as [d Hd]. cbn in Hd. subst o. exists (Z.to_nat (rq_dbhandle req)), c, d. split_and!; [lia|done|done].
    + right. split; [|done]. intros k Hk. by rewrite Hk, Nat2Z.id in E.
  - right. split; [lia|done].
Qed.

Lemma close_serves req b m n w : handles_rep (dbb_handles b) m n -> 0 <= n < 2 ^ 29 -> alike m -> rq_dbhandle req < 2 ^ 30 ->
  serves b process_close_t req m n w (process_close alloc_ok req b w).
Proof.
  intros Hr Hn Hm Hh. unfold process_close. destruct (handles_clear _ _ _ _ Hr Hn Hh) as (rc & t' & Et & Hr').
  destruct (looked_up req b m n Hr Hn) as [(k & c & d & Hk & Hd & ->)|[Hnone ->]]; rewrite bind_Ret; cbn [dbh_module]; cbv beta iota; rewrite Et; cbn [mbind outcome_bind].
  - eexists _, _, (delete k m), _. split; [reflexivity|]. split; [by eapply spec_closed|].
    rewrite Hk in Hr'. destruct (Z.leb_spec 0 (Z.of_nat k)); [|lia]. rewrite Nat2Z.id in Hr'. split_and!; [done|by apply map_Forall_delete|done|done].
  - eexists _, _, m, _. split; [reflexivity|]. split; [by apply (spec_not_found _ _ _ process_close_t)|]. split_and!; [|done|done|done].
    destruct (Z.leb_spec 0 (rq_dbhandle req)); [|done]. rewrite delete_id in Hr'; [done|]. apply Hnone. lia.
Qed.

(** [g] is what the code calls, [ret] what it makes of the result. *)
Definition computes {A} (ret : A -> Z * option kvlist) (g : option (W -> A * W)) (op : option (W -> Z * option kvlist * W)) : Prop :=
  match g, op with
  | Some g, Some h => forall w, h w = (ret (g w).1, (g w).2)
  | None, None => True
  | _, _ => False
  end.

(** The common part of the requests that go to a module. *)
Lemma module_serves {A} p req (f : orcm_db_base_module_t W tm -> outcome (option (W -> A * W))) (failed : Z -> A) (ret : A -> Z * option kvlist)
    b m n w : module_request p -> handles_rep (dbb_handles b) m n -> 0 <= n < 2 ^ 29 -> alike m ->
  (forall rc, ret (failed rc) = (rc, out_list p req)) ->
  (forall d, stores_alike d -> exists g, f d = Ret g /\ computes ret g (operation p req d)) ->
  serves b p req m n w
    ('(a, w) ← on_module req f failed b w; Ret (answer req (rq_dbhandle req) (ret a).1 (in_list p req) (ret a).2, b, w)).
Proof.
  intros Hp Hr Hn Hm Hfail Hf. unfold on_module. destruct (looked_up req b m n Hr Hn) as [(k & c & d & Hk & Hd & ->)|[Hnone ->]]; rewrite bind_Ret.
  - cbn [dbh_module]. destruct (Hf d) as (g & -> & Hop); [by eapply Hm|]. rewrite !bind_Ret. destruct g as [g|].
    + destruct (operation p req d) as [h|] eqn:Eh; [|done]. specialize (Hop w). destruct (g w) as [a w'] eqn:Eg.
      apply serves_same; [done..|]. eapply spec_called; [done|exact Hk|exact Hd|exact Eh|]. rewrite Hop. cbn. by destruct (ret a).
    + destruct (operation p req d) eqn:Eh; [done|]. cbv beta iota. rewrite Hfail. apply serves_same; [done..|]. by eapply spec_not_implemented.
  - rewrite bind_Ret, Hfail. apply serves_same; [done..|]. apply spec_not_found; [apply Hp|done].
Qed.

Lemma serve_serves p req f b m n w : module_request p -> handles_rep (dbb_handles b) m n -> 0 <= n < 2 ^ 29 -> alike m -> out_list p req = None ->
  (forall d, operation p req d = (fun f w => let '(rc, w) := f w in (rc, None, w)) <$> f d) ->
  serves b p req m n w (serve_request req (in_list p req) f b w).
Proof.
  intros Hp Hr Hn Hm Hout Hop. unfold serve_request.
  refine (module_serves p req (fun d => Ret (f d)) (fun rc => rc) (fun rc => (rc, None)) b m n w Hp Hr Hn Hm _ _); [by rewrite Hout|].
  intros d _. exists (f d). split; [done|]. rewrite Hop. destruct (f d) as [g|]; [|done]. intros w0. cbn. by destruct (g w0).
Qed.

Lemma fetch_serves p req f b m n w : module_request p -> handles_rep (dbb_handles b) m n -> 0 <= n < 2 ^ 29 -> alike m ->
  in_list p req = None -> out_list p req = rq_output req ->
  (forall d, operation p req d = (fun g => g (rq_source_data_name req) (rq_input req) (rq_output req)) <$> f d) ->
  serves b p req m n w (fetch_with req f b w).
Proof.
  intros Hp Hr Hn Hm Hin Hout Hop.
  pose proof (module_serves p req (fun d => Ret ((fun g => g (rq_source_data_name req) (rq_input req) (rq_output req)) <$> f d))
    (fun rc => (rc, rq_output req)) id b m n w Hp Hr Hn Hm) as Hs. rewrite Hin in Hs.
  unfold fetch_with. destruct Hs as (a & b' & m' & w' & E & Hs); [by rewrite Hout| |].
  { intros d _. eexists. split; [done|]. rewrite Hop. destruct (f d) as [g|]; cbn; [|done]. intros w0. by destruct (g _ _ _ w0). }
  exists a, b', m', w'. split; [|done]. rewrite <- E. destruct (on_module _ _ _ _ _) as [[[rc out] w'']| |]; done.
Qed.

Lemma store_new_serves req b m n w : handles_rep (dbb_handles b) m n -> 0 <= n < 2 ^ 29 -> alike m ->
  serves b process_store_new_t req m n w (process_store_new req b w).
Proof.
  intros Hr Hn Hm.
  destruct (module_serves process_store_new_t req (fun d => match dbm_store d with
    | Some _ => f ← deref (dbm_store_new d); Ret (Some (f (rq_data_type req) (rq_input req) (rq_output req)))
    | None => Ret None end) (fun rc => (rc, rq_output req)) id b m n w) as (a & b' & m' & w' & E & Hs); [done|done|done|done|done| |].
  { intros d Hd. cbn [operation]. unfold stores_alike in Hd. destruct (dbm_store d) as [f|], (dbm_store_new d) as [g|].
    - eexists. split; [reflexivity|]. intros w0. cbn. by destruct (g _ _ _ w0).
    - exfalso. destruct Hd as [Hd _]. destruct Hd as [? ?]; [by eexists|done].
    - exfalso. destruct Hd as [_ Hd]. destruct Hd as [? ?]; [by eexists|done].
    - by eexists. }
  exists a, b', m', w'. split; [|done]. rewrite <- E. unfold process_store_new. destruct (on_module _ _ _ _ _) as [[[rc out] w'']| |]; done.
Qed.

(** A request the theorem speaks of. *)
Definition request_ok (p : db_process) req : Prop :=
  rq_dbhandle req < 2 ^ 30 /\ (p = process_open_t -> exists names, names_of (rq_input req) names).

Lemma request_serves p req b m n w : handles_rep (dbb_handles b) m n -> 0 <= n < 2 ^ 29 -> alike m -> Forall makes_alike (dbb_actives b) ->
  request_ok p req -> serves b p req m n w (process alloc_ok p req b w).
Proof.
  intros Hr Hn Hm Hcs [Hh Ho]. destruct p; cbn [process]; [by apply open_serves; auto|by apply close_serves|..];
    try (by apply store_new_serves); try (by apply fetch_serves).
  - by apply (serve_serves process_store_t).
  - by apply (serve_serves process_record_data_samples_t).
  - by apply (serve_serves process_update_node_features_t).
  - by apply (serve_serves process_record_diag_test_t).
  - by apply (serve_serves process_commit_t).
  - by apply (serve_serves process_rollback_t).
  - by apply (serve_serves process_remove_t).
Qed.

Definition step_ok (s : db_step C tm) : Prop := match s with DPost p req => request_ok p req | DTurn => True end.

Lemma db_steps_run steps b m n w :
  handles_rep (dbb_handles b) m n -> 0 <= n -> n + Z.of_nat (length steps) < 2 ^ 29 -> alike m -> Forall makes_alike (dbb_actives b) ->
  Forall (fun ev => request_ok ev.1 ev.2) (dbb_events b) -> Forall step_ok steps ->
  exists answers b' m' w', db_steps steps b w = Ret (answers, b', w') /\
    spec_run (dbb_actives b) steps (dbb_events b) m w answers (dbb_events b') m' w' /\ forall i, handle_of i b' = Ret (table_lookup i m').
Proof.
  revert b m n w. induction steps as [|[p req|] steps IH]; intros b m n w Hr Hn Hlen Hm Hcs Hev Hs; cbn [db_steps length] in *.
  - exists [], b, m, w. split_and!; [done|constructor|]. intros i. apply (handles_get _ _ _ _ Hr). lia.
  - apply Forall_cons_iff in Hs as [Hreq Hs].
    destruct (IH (post p req b) m n w) as (answers & b' & m' & w' & E & Hrun & Hget); [done|lia|lia|done|done| |done|].
    { apply Forall_app_2; [done|]. constructor; [exact Hreq|constructor]. }
    exists answers, b', m', w'. split_and!; [done|by apply run_post|done].
  - apply Forall_cons_iff in Hs as [_ Hs]. unfold db_turn. destruct (dbb_events b) as [|[p req] events] eqn:E.
    + rewrite bind_Ret. destruct (IH b m (n + 1) w) as (answers & b' & m' & w' & Ed & Hrun & Hget); [by apply handles_weaken|lia|lia|done|done|by rewrite E|done|].
      rewrite Ed, bind_Ret, E in *. exists (None :: answers), b', m', w'. split_and!; [done|by apply run_idle|done].
    + apply Forall_cons_iff in Hev as [Hreq Hev].
      destruct (request_serves p req (MkDb (dbb_actives b) (dbb_handles b) events (dbb_selected b)) m n w Hr ltac:(lia) Hm Hcs Hreq)
        as (a & b1 & m1 & w1 & -> & Hspec & Hr1 & Hm1 & He1 & Ha1). rewrite bind_Ret. cbn [dbb_events dbb_actives] in *.
      destruct (IH b1 m1 (n + 1) w1) as (answers & b' & m' & w' & Ed & Hrun & Hget); [done|lia|lia|done|by rewrite Ha1|by rewrite He1|done|].
      rewrite Ed, bind_Ret. rewrite Ha1, He1 in Hrun. exists (a :: answers), b', m', w'. split_and!; [done|by eapply run_turn|done].
Qed.
End Refines.

(** ** Selection *)
Section Selected.
Context {W tm : Type}.
Implicit Types (c : orcm_db_base_component_t W tm) (l : list (orcm_db_base_component_t W tm)).
Definition no_lower (a b : orcm_db_base_component_t W tm) : Prop := dbc_priority b <= dbc_priority a.

Lemma insert_component_perm c l : insert_component c l ≡ₚ c :: l.
Proof. induction l as [|a l IH]; [done|]. cbn. destruct (dbc_priority a <? dbc_priority c); [done|]. rewrite IH. apply Permutation_swap. Qed.

Lemma insert_component_sorted c l : StronglySorted no_lower l -> StronglySorted no_lower (insert_component c l).
Proof.
  induction 1 as [|a l Hl IH Ha]; cbn; [by repeat constructor|]. destruct (Z.ltb_spec (dbc_priority a) (dbc_priority c)) as [Hlt|Hge].
  - constructor; [by constructor|]. constructor; [unfold no_lower; lia|]. eapply Forall_impl; [exact Ha|]. unfold no_lower. intros x Hx. lia.
  - constructor; [done|]. rewrite insert_component_perm. by constructor.
Qed.

Lemma actives_chosen components l : StronglySorted no_lower l ->
  let actives := foldl (fun l c => match dbc_available c with Some true => insert_component c l | _ => l end) l components in
  actives ≡ₚ l ++ filter (fun c => dbc_available c = Some true) components /\ StronglySorted no_lower actives.
Proof.
  revert l. induction components as [|c components IH]; intros l Hl; cbn [foldl]; [by rewrite app_nil_r|]. rewrite filter_cons.
  destruct (dbc_available c) as [[]|] eqn:E.
  - rewrite decide_True by done. destruct (IH _ (insert_component_sorted c l Hl)) as [Hp Hs]. split; [|done].
    rewrite Hp, insert_component_perm. cbn. apply Permutation_middle.
  - rewrite decide_False by done. by apply IH.
  - rewrite decide_False by done. by apply IH.
Qed.
End Selected.

Section Start.
Context {W C tm : Type} (alloc_ok : Z -> bool).
Hypothesis Halloc : forall n, alloc_ok n = true.

(** The framework once its components are chosen. *)
Definition db_started (components : list (orcm_db_base_component_t W tm)) : orcm_db_base_t W C tm :=
  (orcm_db_base_select components (orcm_db_base_frame_open alloc_ok)).2.

Lemma started_handles components : handles_rep (dbb_handles (db_started components)) ∅ 0.
Proof.
  unfold db_started, orcm_db_base_select, orcm_db_base_frame_open. cbn [dbb_selected dbb_handles snd].
  destruct (opal_pointer_array_init (A := orcm_db_handle_t W tm) alloc_ok (Some opal_pointer_array_construct) 3 INT_MAX 1) as [rc [t|]] eqn:E.
  - split; [by apply (init_table alloc_ok Halloc t rc)|apply map_Forall_empty].
  - unfold opal_pointer_array_init in E. cbn in E. by rewrite Halloc in E.
Qed.

(** C15: the database framework is a finite map from numbers to open databases.  Its active components are those that
    are available, a higher priority before a lower one.  However clients post requests and the thread of the framework
    serves them, no request fails, and: requests are served in the order of posting; opening asks the active components
    that the request names (all, if it names none) in their order and gives the lowest free number to the first that
    makes a module, and fails if none does; a request for an open number calls the function it asks for of the module
    opened under that number, once and with the values of the request, and its callback gets the result, or
    NOT_IMPLEMENTED if the module lacks the function; one for a number that is not open, or that was closed, is answered
    NOT_FOUND and reaches no module.  Asked are: modules that have [store] exactly if they have [store_new] (the code
    tests for the first before it calls the second), properties with keys and a list of names that is a string, fewer
    than 2^29 steps, numbers below 2^30, and memory for the table. *)
Theorem db_refines_map (components : list (orcm_db_base_component_t W tm)) (steps : list (db_step C tm)) w :
  Z.of_nat (length steps) < 2 ^ 29 -> Forall step_ok steps -> Forall makes_alike components ->
  let actives := dbb_actives (db_started components) in
  (actives ≡ₚ filter (fun c => dbc_available c = Some true) components /\ StronglySorted no_lower actives) /\
  exists answers b m w', db_steps alloc_ok steps (db_started components) w = Ret (answers, b, w') /\
    spec_run actives steps [] ∅ w answers (dbb_events b) m w' /\ forall i, handle_of i b = Ret (table_lookup i m).
Proof.
  intros Hlen Hs Hcs actives. assert (Hact : actives ≡ₚ filter (fun c => dbc_available c = Some true) components /\ StronglySorted no_lower actives).
  { apply (actives_chosen components []). constructor. }
  split; [done|]. apply (db_steps_run alloc_ok Halloc steps (db_started components) ∅ 0); [apply started_handles|lia|lia|apply map_Forall_empty| |constructor|done].
  fold actives. rewrite (proj1 Hact). apply Forall_forall. intros c Hc. apply list_elem_of_filter in Hc as [_ Hc]. by rewrite Forall_forall in Hcs; apply Hcs.
Qed.
End Start.

(** ** A module without [store_new]

    The test for the function looks at [store]; a module that has the one but
    not the other is called through a null pointer. *)
Theorem store_new_unchecked {W C tm} req (b : orcm_db_base_t W C tm) c d f w :
  handle_of (rq_dbhandle req) b = Ret (Some (MkDbHandle c (Some d))) -> dbm_store d = Some f -> dbm_store_new d = None ->
  process_store_new req b w = Ub.
Proof. intros Hh Hs Hn. unfold process_store_new, on_module. rewrite Hh. cbn. by rewrite Hs, Hn. Qed.

(** ** Examples *)

(** A module that keeps what it is given. *)
Definition demo_db : orcm_db_base_module_t (list (Z * option kvlist)) unit :=
  MkDbModule None (Some (fun key kvs w => (OPAL_SUCCESS, w))) (Some (fun t input out w => (OPAL_SUCCESS, out, w ++ [(t, input)]))) None None None
    (Some (fun w => (OPAL_SUCCESS, w ++ [(-1, None)]))) (Some (fun w => (OPAL_SUCCESS, w ++ [(-2, None)]))) None None None None None None.
Definition demo_component : orcm_db_base_component_t (list (Z * option kvlist)) unit :=
  MkDbComponent (cs "demo") 5 (Some true) (fun _ w => (Some demo_db, w)) None.
Definition demo_request (h : Z) : orcm_db_request_t nat unit :=
  MkDbRequest h 3 (Some []) None (Some 7%nat) None None None None None None None None None None None None None.

(** A request to open a database of one of two components. *)
Definition named_request : orcm_db_request_t nat unit :=
  MkDbRequest 0 3 (Some [MkOrcmValue (Some (cs "components")) OPAL_STRING (VString (Some (cs "other,demo"))) None]) None (Some 7%nat)
    None None None None None None None None None None None None None.

(** Two databases are opened, the second by name, the first is used, closed and not there any more. *)
Definition demo_steps : list (db_step nat unit) :=
  [DPost process_open_t (demo_request 0); DPost process_open_t named_request; DTurn; DTurn; DPost process_store_new_t (demo_request 0);
   DPost process_close_t (demo_request 0); DPost process_commit_t (demo_request 0); DTurn; DTurn; DTurn;
   DPost process_open_t (demo_request 0); DTurn; DPost process_fetch_t (demo_request 1); DTurn].

Lemma demo_steps_ok : Forall step_ok demo_steps.
Proof.
  assert (Hn : exists names, names_of (rq_input named_request) names).
  { exists (Some [cs "other"; cs "demo"]). apply (names_given []); try done. by repeat constructor. }
  unfold demo_steps. repeat (constructor; [cbn [step_ok]; first [exact I|split; [cbn; lia|intros; first [done|exact Hn|exists None; by repeat constructor]]]|]). constructor.
Qed.

Lemma db_refines_map_witness :
  (exists answers b m w', db_steps (fun _ => true) demo_steps (db_started (fun _ => true) [demo_component]) [] = Ret (answers, b, w') /\
    spec_run (W := list (Z * option kvlist)) [demo_component] demo_steps [] ∅ [] answers (dbb_events b) m w') /\
  ('(answers, _, w) ← db_steps (fun _ => true) demo_steps (db_started (fun _ => true) [demo_component]) [];
   Ret (map (option_map (fun a => (an_dbhandle a, an_status a))) answers, w)) =
    Ret ([Some (0, OPAL_SUCCESS); Some (1, OPAL_SUCCESS); Some (0, OPAL_SUCCESS); Some (0, OPAL_SUCCESS); Some (0, OPAL_ERR_NOT_FOUND);
          Some (0, OPAL_SUCCESS); Some (1, OPAL_ERR_NOT_IMPLEMENTED)], [(3, Some [])]).
Proof.
  split; [|by vm_compute].
  destruct (db_refines_map (fun _ => true) (fun _ => eq_refl) [demo_component] demo_steps []) as (_ & answers & b & m & w' & E & Hrun & _).
  - cbn. lia.
  - apply demo_steps_ok.
  - constructor; [|constructor]. intros input w d w' Hc. injection Hc as <- _. split; intros _; by eexists.
  - exists answers, b, m, w'. split; [exact E|exact Hrun].
Defined.

Lemma store_new_unchecked_witness :
  process_store_new (demo_request 0)
    (MkDb [] (MkPtrArray 1 0 1 INT_MAX 1 (Some [Some (MkDbHandle demo_component
       (Some (MkDbModule None (Some (fun _ _ w => (OPAL_SUCCESS, w))) None None None None None None None None None None None None)))])) [] true) [] = Ub.
Proof. eapply store_new_unchecked; vm_compute; reflexivity. Defined.
