(* ===== verification/DispatchDb.v ===== *)
(** * The dispatcher and the database framework together

    The dispatcher runs on one thread and posts requests; the thread of the
    database framework serves them and runs the callbacks of the dispatcher,
    which may post requests of their own.  An event and a request are the
    units of interleaving.

    Whatever the interleaving, the module gets the calls in the order of the
    log of the dispatcher ([served_rep]), so that the samples dispatched once
    the database is open arrive complete and in order
    ([samples_reach_database]).  A commit that fails is rolled
    back behind the samples that were posted meanwhile
    ([late_rollback]). *)

From S2P Require Import Prelude CString PointerArray Dss DssMessage OrcmUtil AnalyticsBase Dispatch DispatchClaims Database DatabaseClaims.
From S2P Require Import DssClaims PointerMap.
From stdpp Require Import base strings numbers list gmap.
From Stdlib Require Import ZArith Lia Ascii.

Open Scope Z_scope.

Inductive dfg_callback : Type :=
| on_env_open | on_event_open | on_data | on_env_commit.

Section System.
Context {W tm : Type} (alloc_ok : Z -> bool).
Abbreviation base := (orcm_db_base_t W dfg_callback tm).

(** The call of the database framework behind an action of the dispatcher. *)
Definition dfg_request (a : dfg_action) : base -> base :=
  match a with
  | OpenDb name props =>
    orcm_db_base_open (Some name) props (Some (if strcmp0 name (cs "dfg_env") then on_env_open else on_event_open))
  | CloseDb h => orcm_db_base_close h None
  | StoreNew h t input => orcm_db_base_store_new h t (Some input) None (Some on_data)
  | CommitDb h => orcm_db_base_commit h (Some on_env_commit)
  | RollbackDb h => orcm_db_base_rollback h None
  | NotifySystem _ _ _ | SendScheduler _ => id
  end.

Definition db_callback (a : db_answer dfg_callback) (s : dfg_t) : dfg_t :=
  match an_cbfunc a with
  | on_env_open => dfg_env_db_open_cbfunc (an_dbhandle a) (an_status a) s
  | on_event_open => dfg_event_db_open_cbfunc (an_dbhandle a) (an_status a) s
  | on_data => s
  | on_env_commit => dfg_env_data_commit_cb (an_dbhandle a) (an_status a) s
  end.

Record system : Type := MkSystem {
  sy_dfg : dfg_t;
  sy_db : base;
  sy_world : W
}.

(** The requests of the actions that [s'] has over [s]. *)
Definition passed_on (s s' : dfg_t) (b : base) : base :=
  foldl (fun b a => dfg_request a b) b (drop (length (dfg_log s)) (dfg_log s')).

Definition sys_dispatch (actives : list (orcm_dispatch_active_module_t dfg_t)) (ev : orcm_ras_event_t) (y : system) : outcome system :=
  s ← orcm_dispatch_base_event actives (Some ev) (sy_dfg y);
  Ret (MkSystem s (passed_on (sy_dfg y) s (sy_db y)) (sy_world y)).

Definition sys_turn (y : system) : outcome system :=
  '(a, b, w) ← db_turn alloc_ok (sy_db y) (sy_world y);
  let s := match a with Some a => db_callback a (sy_dfg y) | None => sy_dfg y end in
  Ret (MkSystem s (passed_on (sy_dfg y) s b) w).

Inductive sys_step : Type :=
| SEvent (ev : orcm_ras_event_t)
| STurn.

Fixpoint sys_run (actives : list (orcm_dispatch_active_module_t dfg_t)) (steps : list sys_step) (y : system) : outcome system :=
  match steps with
  | [] => Ret y
  | SEvent ev :: steps' => y ← sys_dispatch actives ev y; sys_run actives steps' y
  | STurn :: steps' => y ← sys_turn y; sys_run actives steps' y
  end.

(** The queue is served until it is empty; [fuel] bounds the requests. *)
Fixpoint sys_drain (fuel : nat) (y : system) : outcome system :=
  match dbb_events (sy_db y), fuel with
  | [], _ => Ret y
  | _, O => Diverge
  | _, S fuel' => y ← sys_turn y; sys_drain fuel' y
  end.

Definition events_of (steps : list sys_step) : list orcm_ras_event_t :=
  steps ≫= fun st => match st with SEvent ev => [ev] | STurn => [] end.

Lemma sys_run_app actives l l' (y : system) : sys_run actives (l ++ l') y = (y ← sys_run actives l y; sys_run actives l' y).
Proof.
  revert y. induction l as [|[ev|] l IH]; intros y; [done| |]; cbn [app sys_run]; [destruct (sys_dispatch _ ev y)|destruct (sys_turn y)]; cbn; auto.
Qed.
End System.
Arguments system : clear implicits.

(** ** Requests are served in the order of the log *)
Section Served.
Context {W tm : Type} (alloc_ok : Z -> bool).
Abbreviation base := (orcm_db_base_t W dfg_callback tm).
Context (c : orcm_db_base_component_t W tm) (d : orcm_db_base_module_t W tm) (h : Z).
Context (stored : Z -> option kvlist -> option kvlist -> W -> Z * option kvlist * W) (committed rolled : W -> Z * W).
Hypothesis Hstore : is_Some (dbm_store d).
Hypothesis Hstored : dbm_store_new d = Some stored.
Hypothesis Hcommitted : dbm_commit d = Some committed.
Hypothesis Hrolled : dbm_rollback d = Some rolled.

(** What an action does to the world of the module. *)
Definition effect (w : W) (a : dfg_action) : W :=
  match a with
  | StoreNew _ t row => (stored t (Some row) None w).2
  | CommitDb _ => (committed w).2
  | RollbackDb _ => (rolled w).2
  | _ => w
  end.

(** The actions for the database of the samples. *)
Definition for_env (a : dfg_action) : Prop :=
  match a with StoreNew h' _ _ | CommitDb h' | RollbackDb h' => h' = h | _ => False end.

Definition request_of (a : dfg_action) : list (db_process * orcm_db_request_t dfg_callback tm) :=
  dbb_events (dfg_request a (MkDb (W := W) [] opal_pointer_array_construct [] true)).

(** Of the log since [log0], [done] was served and [queue] is not yet. *)
Record served_rep (log0 : list dfg_action) (w0 : W) (done queue : list dfg_action) (y : system W tm) : Prop := {
  sv_log : dfg_log (sy_dfg y) = log0 ++ done ++ queue;
  sv_env : Forall for_env queue;
  sv_events : dbb_events (sy_db y) = queue ≫= request_of;
  sv_handle : handle_of h (sy_db y) = Ret (Some (MkDbHandle c (Some d)));
  sv_world : sy_world y = foldl effect w0 done
}.

Lemma requests_posted actions (b : base) :
  foldl (fun b a => dfg_request a b) b actions = MkDb (dbb_actives b) (dbb_handles b) (dbb_events b ++ (actions ≫= request_of)) (dbb_selected b).
Proof.
  revert b. induction actions as [|a actions IH]; intros b; cbn [foldl]; [rewrite app_nil_r; by destruct b|].
  rewrite IH, bind_cons, app_assoc. by destruct a; cbn; rewrite ?app_nil_r.
Qed.

(** What the callback of a served request does. *)
Definition reaction (w : W) (a : dfg_action) : list dfg_action :=
  match a with CommitDb _ => if negb ((committed w).1 =? OPAL_SUCCESS) then [RollbackDb h] else [] | _ => [] end.

(** A request for the database of the samples. *)
Lemma env_request a : for_env a -> exists p req, request_of a = [(p, req)] /\
  forall (b : base) w s, handle_of h b = Ret (Some (MkDbHandle c (Some d))) ->
    exists ans, process alloc_ok p req b w = Ret (ans, b, effect w a) /\
      match ans with Some x => db_callback x s | None => s end = foldl (fun s a => posted a s) s (reaction w a).
Proof.
  destruct Hstore as [f Hf].
  destruct a as [| |h' t row|h'|h'| |]; cbn [for_env]; try done; intros ->; eexists _, _; (split; [reflexivity|]);
    intros b w s Hb; cbn [process]; unfold process_store_new, process_commit, process_rollback, serve_request, on_module; cbn [rq_dbhandle]; rewrite Hb; cbn.
  - rewrite Hf, Hstored. cbn. destruct (stored t (Some row) None w) as [[rc out] w']. by eexists.
  - rewrite Hcommitted. destruct (committed w) as [rc w']. eexists. split; [reflexivity|]. cbn.
    unfold dfg_env_data_commit_cb. by destruct (negb (rc =? OPAL_SUCCESS)).
  - rewrite Hrolled. destruct (rolled w) as [rc w']. by eexists.
Qed.

(** More actions are queued behind the others. *)
Lemma served_more log0 w0 done queue y s' new : served_rep log0 w0 done queue y -> Forall for_env new -> dfg_log s' = dfg_log (sy_dfg y) ++ new ->
  served_rep log0 w0 done (queue ++ new) (MkSystem s' (passed_on (sy_dfg y) s' (sy_db y)) (sy_world y)).
Proof.
  intros [Hl He Hev Hh Hw] Hnew Hs. unfold passed_on. rewrite Hs, drop_app_length, requests_posted.
  split; cbn [sy_dfg sy_db sy_world dbb_events]; [|by apply Forall_app_2| |exact Hh|done].
  - rewrite Hs, Hl, <- !app_assoc. done.
  - by rewrite Hev, bind_app.
Qed.

Lemma reaction_env w a : Forall for_env (reaction w a).
Proof. destruct a; cbn; try constructor. destruct (negb _); by repeat constructor. Qed.

Lemma posted_log s new : dfg_log (foldl (fun s a => posted a s) s new) = dfg_log s ++ new.
Proof. revert s. induction new as [|a new IH]; intros s; cbn [foldl]; [by rewrite app_nil_r|]. rewrite IH. cbn [posted dfg_log]. by rewrite <- app_assoc. Qed.

Lemma served_turn log0 w0 done a queue y : served_rep log0 w0 done (a :: queue) y ->
  exists y', sys_turn alloc_ok y = Ret y' /\ served_rep log0 w0 (done ++ [a]) (queue ++ reaction (sy_world y) a) y' /\
    sy_dfg y' = foldl (fun s a => posted a s) (sy_dfg y) (reaction (sy_world y) a).
Proof.
  intros [Hl He Hev Hh Hw]. apply Forall_cons_iff in He as [Ha He].
  destruct (env_request a Ha) as (p & req & Er & Hp). rewrite bind_cons, Er in Hev. cbn [app] in Hev.
  unfold sys_turn, db_turn. rewrite Hev.
  set (b := MkDb (dbb_actives (sy_db y)) (dbb_handles (sy_db y)) (queue ≫= request_of) (dbb_selected (sy_db y))).
  destruct (Hp b (sy_world y) (sy_dfg y) Hh) as (ans & -> & Hs). rewrite bind_Ret. cbv beta iota zeta. rewrite Hs. eexists. split; [reflexivity|]. split; [|done].
  refine (served_more log0 w0 (done ++ [a]) queue (MkSystem (sy_dfg y) b (effect (sy_world y) a)) _ _ _ (reaction_env _ _) (posted_log _ _)).
  split; cbn [sy_dfg sy_db sy_world]; [|done|done|exact Hh|by rewrite foldl_app, Hw]. rewrite Hl, <- app_assoc. done.
Qed.

(** An empty queue stays as it is. *)
Lemma idle_turn log0 w0 done y : served_rep log0 w0 done [] y -> sys_turn alloc_ok y = Ret y.
Proof.
  intros [_ _ Hev _ _]. unfold sys_turn, db_turn. cbn in Hev. rewrite Hev. cbn. unfold passed_on. rewrite drop_all. by destruct y.
Qed.

(** Serving comes to an end: a commit may add one request, a rollback none. *)
Definition load (queue : list dfg_action) : nat := sum_list_with (fun a => match a with CommitDb _ => 2 | _ => 1 end)%nat queue.

Lemma load_app q q' : load (q ++ q') = (load q + load q')%nat.
Proof. apply sum_list_with_app. Qed.

Lemma load_reaction w a queue : (load (queue ++ reaction w a) < load (a :: queue))%nat.
Proof. rewrite load_app. unfold reaction, load. destruct a; cbn; try lia. destruct (negb _); cbn; lia. Qed.

(** What holds of the dispatcher is kept by rollbacks. *)
Lemma reaction_kept (P : dfg_t -> Prop) s w a :
  (forall s w, (committed w).1 <> OPAL_SUCCESS -> P s -> P (posted (RollbackDb h) s)) ->
  P s -> P (foldl (fun s a => posted a s) s (reaction w a)).
Proof. intros HP Hs. destruct a; cbn; try done. destruct (Z.eqb_spec (committed w).1 OPAL_SUCCESS); cbn; eauto. Qed.

(** ** Samples *)
Context (malloc_ok : Z -> bool) (initial threshold : Z) (registered : Z -> bool).
Context (other_pack : Z -> opal_buffer_t -> dss_data -> outcome (Z * opal_buffer_t)).
Context (desc : bool) (rate : Z) (store : bool).
Hypothesis Hrate : 1 < rate.
Hypothesis Hh : 0 <= h.
Abbreviation dfg := (orcm_dispatch_dfg_module rate store malloc_ok initial threshold registered other_pack desc).
Abbreviation component := (mca_dispatch_dfg_component rate store malloc_ok initial threshold registered other_pack desc).
Abbreviation actives := [MkActive 20 dfg component].

Definition is_rollback (a : dfg_action) : bool := match a with RollbackDb _ => true | _ => false end.

(** [rows] were given to the database, and rolled back only if a commit failed. *)
Definition kept (rows : list kvlist) (s : dfg_t) : Prop :=
  sampled rate h rows s /\ ((forall w, (committed w).1 = OPAL_SUCCESS) -> Forall (fun a => is_rollback a = false) (dfg_log s)).

Lemma kept_rollback rows s w : (committed w).1 <> OPAL_SUCCESS -> kept rows s -> kept rows (posted (RollbackDb h) s).
Proof.
  intros Hw [[Hd Hr Hc Hp Hm] _]. split; [|intros Hok; by destruct Hw].
  split; cbn [posted env_dbhandle dfg_log env_db_commit_count]; [done| |done| |].
  - rewrite env_rows_snoc, Hr. apply app_nil_r.
  - unfold uncommitted in *. by rewrite foldl_app.
  - rewrite commits_snoc, Hm. unfold commits. cbn. lia.
Qed.

Lemma sample_actions row s : env_dbhandle s = h -> exists new,
  dfg_log (dfg_generate_database_event rate row ORCM_RAS_EVENT_SENSOR s) = dfg_log s ++ new /\
  Forall for_env new /\ Forall (fun a => is_rollback a = false) new /\ (load new <= 3)%nat.
Proof.
  intros He. unfold dfg_generate_database_event. rewrite He.
  change (ORCM_RAS_EVENT_SENSOR =? ORCM_RAS_EVENT_SENSOR) with true. destruct (Z.leb_spec 0 h); [|lia].
  destruct (Z.ltb_spec 1 rate); [|lia]. destruct (env_db_commit_count _ + 1 =? rate); cbn [posted dfg_log env_dbhandle].
  - rewrite He, <- app_assoc. eexists. split; [reflexivity|]. split_and!; [by repeat constructor..|unfold load; cbn; lia].
  - eexists. split; [reflexivity|]. split_and!; [by repeat constructor..|unfold load; cbn; lia].
Qed.

Lemma sample_step log0 w0 done queue rows y v ev : served_rep log0 w0 done queue y -> kept rows (sy_dfg y) ->
  orcm_analytics_base_log_to_database_event v = Ret (OPAL_SUCCESS, [ev]) -> Forall passive (default [] (av_non_compute_data v)) ->
  exists new y', sys_dispatch actives ev y = Ret y' /\ served_rep log0 w0 done (queue ++ new) y' /\ kept (rows ++ [stored_row ev]) (sy_dfg y') /\
    (load new <= 3)%nat.
Proof.
  intros Hy [Hs Hok] Hv Hp. destruct (sample_actions (stored_row ev) (sy_dfg y) (sm_handle _ _ _ _ Hs)) as (new & El & Hnew & Hroll & Hload).
  eexists new, _. unfold sys_dispatch. cbn [orcm_dispatch_base_event am_module dm_generate orcm_dispatch_dfg_module].
  rewrite (sample_dispatched malloc_ok initial threshold registered other_pack desc rate store v ev _ Hv Hp), !bind_Ret. split; [reflexivity|].
  split_and!; [by apply served_more| |done]. split; [by apply sampled_step|]. intros Hall. cbn [sy_dfg]. rewrite El. apply Forall_app_2; [by apply Hok|done].
Qed.

End Served.

(** ** From the start *)
Section Whole.
Context {W tm : Type} (alloc_ok : Z -> bool).
Hypothesis Halloc : forall n, alloc_ok n = true.
Context (malloc_ok : Z -> bool) (initial threshold : Z) (registered : Z -> bool).
Context (other_pack : Z -> opal_buffer_t -> dss_data -> outcome (Z * opal_buffer_t)).
Context (desc : bool) (rate : Z) (store : bool).
Hypothesis Hrate : 1 < rate.
Abbreviation component := (mca_dispatch_dfg_component rate store malloc_ok initial threshold registered other_pack desc).

(** The dispatcher and the database framework have started. *)
Definition sys_start (databases : list (orcm_db_base_component_t W tm)) (w : W) : list (orcm_dispatch_active_module_t dfg_t) * system W tm :=
  let '(_, base, s) := orcm_dispatch_base_select [component] (MkDispatchBase [] rate false) dfg_start in
  (db_actives base, MkSystem s (passed_on dfg_start s (db_started alloc_ok databases)) w).

Context (c : orcm_db_base_component_t W tm) (d d' : orcm_db_base_module_t W tm) (w0 w1 w2 : W).
Hypothesis Hc : dbc_available c = Some true.
Hypothesis Henv : dbc_create_handle c (Some (dfg_init_env_dbhandle_commit_rate rate)) w0 = (Some d, w1).
Hypothesis Hevent : dbc_create_handle c None w1 = (Some d', w2).

Definition open_log : list dfg_action :=
  [OpenDb (cs "dfg_env") (Some (dfg_init_env_dbhandle_commit_rate rate)); OpenDb (cs "dfg_event") None].

Definition opening (name : cstr) (props : option kvlist) (cb : dfg_callback) : orcm_db_request_t dfg_callback tm :=
  MkDbRequest 0 0 props None (Some cb) None None None (Some name) None None None None None None None None None.

(** The opening of a database. *)
Lemma open_turn req evs y (m : gmap nat (orcm_db_handle_t W tm)) n x cb w' :
  dbb_events (sy_db y) = (process_open_t, req) :: evs -> handles_rep (dbb_handles (sy_db y)) m n -> 0 <= n < 2 ^ 29 ->
  dbb_actives (sy_db y) = [c] -> match rq_input req with Some input => components_property input | None => Ret None end = Ret None ->
  dbc_create_handle c (rq_input req) (sy_world y) = (Some x, w') -> rq_cbfunc req = Some cb -> cb = on_env_open \/ cb = on_event_open ->
  exists t, sys_turn alloc_ok y =
      Ret (MkSystem (db_callback (MkDbAnswer cb (Z.of_nat (lowest m)) OPAL_SUCCESS (rq_input req) None) (sy_dfg y))
             (MkDb [c] t evs (dbb_selected (sy_db y))) w') /\
    handles_rep t (<[lowest m := MkDbHandle c (Some x)]> m) (n + 1).
Proof.
  intros Hev Hr Hn Hact Hin Hx Hcb Hop. unfold sys_turn, db_turn. rewrite Hev. cbn [process]. unfold process_open.
  rewrite Hin, bind_Ret. cbn [dbb_actives dbb_handles]. rewrite Hact. cbn [try_components]. rewrite Hx.
  destruct (handles_add alloc_ok Halloc _ m n (MkDbHandle c (Some x)) Hr Hn) as (t & -> & Ht); [done|]. exists t. split; [|done].
  unfold answer. rewrite Hcb. cbn. unfold passed_on. by destruct Hop as [-> | ->]; cbn; rewrite drop_all.
Qed.

Lemma first_numbers (x : orcm_db_handle_t W tm) : lowest (∅ : gmap nat (orcm_db_handle_t W tm)) = 0%nat /\ lowest (<[0%nat := x]> ∅) = 1%nat.
Proof.
  split; symmetry; apply lowest_unique; try done; [intros; lia|]. intros j Hj. assert (j = 0%nat) as -> by lia. by exists x.
Qed.

Context (stored : Z -> option kvlist -> option kvlist -> W -> Z * option kvlist * W) (committed rolled : W -> Z * W).
Hypothesis Hstore : is_Some (dbm_store d).
Hypothesis Hstored : dbm_store_new d = Some stored.
Hypothesis Hcommitted : dbm_commit d = Some committed.
Hypothesis Hrolled : dbm_rollback d = Some rolled.

Abbreviation served := (served_rep c d 0 stored committed rolled open_log w2).
Abbreviation kept' := (kept 0 committed rate).
Abbreviation start := ((sys_start [c] w0).2).
Abbreviation dispatchers := ((sys_start [c] w0).1).
Abbreviation event_request := (opening (cs "dfg_event") None on_event_open).

(** The database of the samples is open, the one of the events is not yet; the
    requests for the samples wait behind the one that opens it. *)
Record half_open (queue : list dfg_action) (y : system W tm) : Prop := {
  ho_log : dfg_log (sy_dfg y) = open_log ++ queue;
  ho_env : Forall (for_env 0) queue;
  ho_events : dbb_events (sy_db y) = (process_open_t, event_request) :: (queue ≫= request_of (W := W));
  ho_handles : handles_rep (dbb_handles (sy_db y)) (<[0%nat := MkDbHandle c (Some d)]> ∅) 1;
  ho_actives : dbb_actives (sy_db y) = [c];
  ho_world : sy_world y = w1
}.

(** How far the start has come, the samples that were taken ([None] before
    there is a database to take them), and a bound on the turns to come. *)
Inductive stage : option (list kvlist) -> nat -> system W tm -> Prop :=
| stage_closed : stage None 2 start
| stage_half queue rows y : half_open queue y -> kept' rows (sy_dfg y) -> stage (Some rows) (S (load queue)) y
| stage_open done queue rows y : served done queue y -> kept' rows (sy_dfg y) -> stage (Some rows) (load queue) y.

Lemma first_turn : exists y, sys_turn alloc_ok start = Ret y /\ stage (Some []) 1 y.
Proof.
  pose proof (started_handles (C := dfg_callback) alloc_ok Halloc [c]) as Hr0.
  assert (Ha : dbb_actives (db_started (C := dfg_callback) alloc_ok [c]) = [c]) by (unfold db_started; cbn; by rewrite Hc).
  destruct (open_turn (opening (cs "dfg_env") (Some (dfg_init_env_dbhandle_commit_rate rate)) on_env_open) [(process_open_t, event_request)]
    start ∅ 0 d on_env_open w1) as (t & -> & Ht); [reflexivity|exact Hr0|lia|exact Ha|reflexivity|exact Henv|reflexivity|by left|].
  destruct (first_numbers (MkDbHandle c (Some d))) as [E0 _]. rewrite E0 in *. eexists. split; [reflexivity|].
  apply (stage_half []); [split; try done; constructor|].
  split; [|intros _; by repeat constructor]. split; try done. by rewrite drop_nil.
Qed.

(** The callback of the second open only sets the other handle. *)
Lemma kept_event_open rows s k : kept' rows s -> kept' rows (dfg_event_db_open_cbfunc k OPAL_SUCCESS s).
Proof. intros [[] Hroll]. by split. Qed.

Lemma second_turn queue rows y : half_open queue y -> kept' rows (sy_dfg y) ->
  exists y', sys_turn alloc_ok y = Ret y' /\ stage (Some rows) (load queue) y'.
Proof.
  intros [Hl He Hev Hh Ha Hw] Hk.
  destruct (open_turn event_request (queue ≫= request_of (W := W)) y _ 1 d' on_event_open w2 Hev Hh) as (t & -> & Ht);
    [lia|exact Ha|reflexivity|by rewrite Hw|reflexivity|by right|].
  destruct (first_numbers (MkDbHandle c (Some d))) as [_ E1]. rewrite E1 in *. eexists. split; [reflexivity|].
  apply (stage_open []); [|by apply kept_event_open].
  split; [exact Hl|done|done| |done]. unfold handle_of. cbn [sy_db dbb_handles].
  by rewrite (handles_get _ _ _ _ Ht) by lia.
Qed.

Lemma stage_turn rows n y : stage rows n y -> exists y' n', sys_turn alloc_ok y = Ret y' /\ stage (Some (default [] rows)) n' y' /\
  (dbb_events (sy_db y) <> [] -> (n' < n)%nat) /\ (n' <= n)%nat.
Proof.
  intros [|queue rows' y' Hy Hk|done queue rows' y' Hy Hk].
  - destruct first_turn as (y1 & E & H1). exists y1, 1%nat. split_and!; [done|done|lia|lia].
  - destruct (second_turn queue rows' y' Hy Hk) as (y1 & E & H1). exists y1, (load queue). split_and!; [done|done|lia|lia].
  - destruct queue as [|a queue].
    + exists y', (load []). rewrite (idle_turn alloc_ok c d 0 stored committed rolled _ _ _ _ Hy). split_and!; [done|by apply (stage_open done)| |lia].
      by rewrite (sv_events _ _ _ _ _ _ _ _ _ _ _ Hy).
    + destruct (served_turn alloc_ok c d 0 stored committed rolled Hstore Hstored Hcommitted Hrolled _ _ _ _ _ _ Hy) as (y1 & E & Hy1 & Es).
      exists y1, (load (queue ++ reaction 0 committed (sy_world y') a)). pose proof (load_reaction 0 committed (sy_world y') a queue).
      split_and!; [done| |lia|lia]. apply (stage_open (done ++ [a])); [done|]. rewrite Es. apply reaction_kept; [|done]. intros s w. apply kept_rollback.
Qed.

(** An event before there is a database is lost. *)
Lemma stage_event rows n y v ev : stage rows n y ->
  orcm_analytics_base_log_to_database_event v = Ret (OPAL_SUCCESS, [ev]) -> Forall passive (default [] (av_non_compute_data v)) ->
  exists y' n', sys_dispatch dispatchers ev y = Ret y' /\ stage ((fun l => l ++ [stored_row ev]) <$> rows) n' y' /\ (n' <= n + 3)%nat.
Proof.
  intros [|queue rows' y' Hy Hk|done queue rows' y' Hy Hk] Hv Hp.
  - exists start, 2%nat. split_and!; [|constructor|lia]. unfold sys_dispatch.
    change (orcm_dispatch_base_event dispatchers (Some ev) (sy_dfg start)) with
      ('(ev', s) ← dfg_generate rate store malloc_ok initial threshold registered other_pack desc (Some ev) (sy_dfg start);
       orcm_dispatch_base_event [] ev' s).
    rewrite (sample_dispatched malloc_ok initial threshold registered other_pack desc rate store v ev _ Hv Hp). reflexivity.
  - destruct (sample_actions 0 rate Hrate ltac:(lia) (stored_row ev) (sy_dfg y') (sm_handle _ _ _ _ (proj1 Hk))) as (new & El & Hnew & Hroll & Hload).
    eexists _, _. split_and!; [|apply (stage_half (queue ++ new))|].
    + unfold sys_dispatch. change (orcm_dispatch_base_event dispatchers (Some ev) (sy_dfg y')) with
        ('(ev', s) ← dfg_generate rate store malloc_ok initial threshold registered other_pack desc (Some ev) (sy_dfg y');
         orcm_dispatch_base_event [] ev' s).
      rewrite (sample_dispatched malloc_ok initial threshold registered other_pack desc rate store v ev _ Hv Hp). reflexivity.
    + destruct Hy as [Hl He Hev Hh Ha Hw]. unfold passed_on. rewrite El, drop_app_length, requests_posted.
      split; cbn [sy_dfg sy_db sy_world dbb_events dbb_handles dbb_actives]; [by rewrite El, Hl, <- app_assoc|by apply Forall_app_2| |done|done|done].
      by rewrite Hev, bind_app.
    + destruct Hk as [Hs Hok]. split; [by apply sampled_step|]. intros Hall. cbn [sy_dfg]. rewrite El. apply Forall_app_2; [by apply Hok|done].
    + rewrite load_app. lia.
  - destruct (sample_step c d 0 stored committed rolled malloc_ok initial threshold registered other_pack desc rate store Hrate ltac:(lia)
      _ _ _ _ _ _ v ev Hy Hk Hv Hp) as (new & y1 & E & Hy1 & Hk1 & Hload).
    exists y1, (load (queue ++ new)). split_and!; [exact E|by apply (stage_open done)|]. rewrite load_app. lia.
Qed.

(** The samples that are dispatched once the database is open, that is after
    the first turn of its thread. *)
Fixpoint after_open (steps : list sys_step) : list sys_step :=
  match steps with
  | [] => []
  | SEvent _ :: steps' => after_open steps'
  | STurn :: steps' => steps'
  end.

Definition taken (rows : option (list kvlist)) (steps : list sys_step) : list kvlist :=
  match rows with Some l => l ++ (stored_row <$> events_of steps) | None => stored_row <$> events_of (after_open steps) end.

Lemma stage_run steps rows n y vals : stage rows n y ->
  Forall2 (fun v ev => orcm_analytics_base_log_to_database_event v = Ret (OPAL_SUCCESS, [ev])) vals (events_of steps) ->
  Forall (fun v => Forall passive (default [] (av_non_compute_data v))) vals ->
  exists y' rows' n', sys_run alloc_ok dispatchers steps y = Ret y' /\ stage rows' n' y' /\ default [] rows' = taken rows steps /\
    (n' <= n + 3 * length (events_of steps))%nat.
Proof.
  revert rows n y vals. induction steps as [|[ev|] steps IH]; intros rows n y vals Hy Hl Hp; cbn [sys_run].
  - exists y, rows, n. split_and!; [done|done| |cbn; lia]. destruct rows as [l|]; cbn; [by rewrite app_nil_r|done].
  - change (events_of (SEvent ev :: steps)) with (ev :: events_of steps) in *. inversion Hl as [|v ? vals' ? Hv Hl' E1 E2]; subst.
    apply Forall_cons_iff in Hp as [Hpv Hp]. destruct (stage_event rows n y v ev Hy Hv Hpv) as (y1 & n1 & E & H1 & Hn). rewrite E, bind_Ret.
    destruct (IH _ _ _ vals' H1 Hl' Hp) as (y' & rows' & n' & E' & H' & Hr & Hn'). exists y', rows', n'. split_and!; [done|done| |cbn [length]; lia].
    rewrite Hr. destruct rows as [l|]; [|done]. cbn. by rewrite <- app_assoc.
  - change (events_of (STurn :: steps)) with (events_of steps) in *. destruct (stage_turn rows n y Hy) as (y1 & n1 & E & H1 & _ & Hn). rewrite E, bind_Ret.
    destruct (IH _ _ _ vals H1 Hl Hp) as (y' & rows' & n' & E' & H' & Hr & Hn'). exists y', rows', n'. split_and!; [done|done| |lia].
    rewrite Hr. by destruct rows.
Qed.

Lemma stage_drain fuel rows n y : stage rows n y -> (n <= fuel)%nat ->
  exists done y', sys_drain alloc_ok fuel y = Ret y' /\ served done [] y' /\ kept' (default [] rows) (sy_dfg y').
Proof.
  revert rows n y. induction fuel as [|fuel IH]; intros rows n y Hy Hf; cbn [sys_drain]; destruct (dbb_events (sy_db y)) as [|e evs] eqn:Ee.
  1, 3: destruct Hy as [|queue rows' y' Hy Hk|dn queue rows' y' Hy Hk];
    [by cbn in Ee|by rewrite (ho_events _ _ Hy) in Ee|]; exists dn, y'; (split; [done|split; [|done]]); destruct queue as [|a queue]; [done|];
    exfalso; rewrite (sv_events _ _ _ _ _ _ _ _ _ _ _ Hy) in Ee;
    destruct (env_request alloc_ok c d 0 stored committed rolled Hstore Hstored Hcommitted Hrolled a
      (Forall_inv (sv_env _ _ _ _ _ _ _ _ _ _ _ Hy))) as (p & req & Er & _); by rewrite bind_cons, Er in Ee.
  all: destruct (stage_turn rows n y Hy) as (y1 & n1 & E & H1 & Hlt & _); specialize (Hlt ltac:(by rewrite Ee)).
  { lia. }
  rewrite E, bind_Ret. destruct (IH _ _ _ H1 ltac:(lia)) as (done & y' & Ed & Hd & Hk). exists done, y'. by destruct rows.
Qed.

(** C6: from the start of the dispatcher and of the database framework on, the samples that are to be stored reach the
    module of the database.  The thread that dispatches the samples and the thread that serves the requests interleave
    in any way; serving comes to an end, and the module was then called exactly as the log of the dispatcher says: all
    samples that were dispatched after the first turn of the database thread, in order and each once, with a commit
    after every full group; it is told to roll back only if a commit failed.  A sample dispatched before that turn, in
    which the database is opened, is lost: the code drops samples while it has no database.  The setting is a commit
    rate above 1, one database component, which is available and whose modules store, commit and roll back, samples as
    the only events, and non-compute data without the keys the dispatcher looks for. *)
Theorem samples_reach_database vals steps fuel :
  Forall2 (fun v ev => orcm_analytics_base_log_to_database_event v = Ret (OPAL_SUCCESS, [ev])) vals (events_of steps) ->
  Forall (fun v => Forall passive (default [] (av_non_compute_data v))) vals -> (3 * length (events_of steps) + 2 <= fuel)%nat ->
  exists y, (y ← sys_run alloc_ok (sys_start [c] w0).1 steps (sys_start [c] w0).2; sys_drain alloc_ok fuel y) = Ret y /\
    dbb_events (sy_db y) = [] /\ sy_world y = foldl (effect stored committed rolled) w2 (dfg_log (sy_dfg y)) /\
    env_rows 0 (dfg_log (sy_dfg y)) = stored_row <$> events_of (after_open steps) /\
    commits 0 (dfg_log (sy_dfg y)) = Z.of_nat (length (events_of (after_open steps))) / rate /\
    ((forall w, (committed w).1 = OPAL_SUCCESS) -> Forall (fun a => is_rollback a = false) (dfg_log (sy_dfg y))).
Proof.
  intros Hv Hp Hfuel. destruct (stage_run steps None 2 start vals stage_closed Hv Hp) as (y1 & rows & n & E1 & Hy1 & Hrows & Hn).
  destruct (stage_drain fuel rows n y1 Hy1 ltac:(lia)) as (done & y & Ed & [Hl _ Hq _ Hworld] & [[_ Hr _ _ Hcm] Hroll]).
  exists y. rewrite E1, bind_Ret. rewrite Hr, Hcm, Hrows. cbn [taken]. rewrite length_fmap. split_and!; [done..| |done|done|done].
  rewrite Hworld, Hl, app_nil_r, foldl_app. done.
Qed.
End Whole.

(** ** A commit that fails

    The third sample was posted before the answer to the commit of the first
    two: the rollback comes behind it, and drops it too although it belongs to
    the next group. *)
Definition failing_db : orcm_db_base_module_t (list (Z * option kvlist)) unit :=
  MkDbModule None (Some (fun key kvs w => (OPAL_SUCCESS, w))) (Some (fun t input out w => (OPAL_SUCCESS, out, w ++ [(t, input)]))) None None None
    (Some (fun w => (OPAL_ERROR, w))) (Some (fun w => (OPAL_SUCCESS, []))) None None None None None None.
Definition failing_component : orcm_db_base_component_t (list (Z * option kvlist)) unit :=
  MkDbComponent (cs "failing") 5 (Some true) (fun _ w => (Some failing_db, w)) None.

Abbreviation demo_system c := (sys_start (fun _ => true) (fun _ => true) 128 1024 (fun _ => false) no_pack false 2 true [c] []).
Abbreviation finished c steps := (y ← sys_run (fun _ => true) (demo_system c).1 steps (demo_system c).2; sys_drain (fun _ => true) 20 y).

Theorem late_rollback e1 e2 e3 :
  orcm_analytics_base_log_to_database_event (demo_sample 1) = Ret (OPAL_SUCCESS, [e1]) ->
  orcm_analytics_base_log_to_database_event (demo_sample 2) = Ret (OPAL_SUCCESS, [e2]) ->
  orcm_analytics_base_log_to_database_event (demo_sample 3) = Ret (OPAL_SUCCESS, [e3]) ->
  (y ← finished failing_component [STurn; STurn; SEvent e1; SEvent e2; STurn; STurn; STurn; STurn; SEvent e3]; Ret (sy_world y)) =
    Ret [(ORCM_DB_ENV_DATA, Some (stored_row e3))] /\
  (y ← finished failing_component [STurn; STurn; SEvent e1; SEvent e2; SEvent e3]; Ret (sy_world y)) = Ret [].
Proof.
  intros E1 E2 E3. vm_compute in E1, E2, E3. injection E1 as <-. injection E2 as <-. injection E3 as <-. split; vm_compute; reflexivity.
Qed.

(** Six samples, the threads interleaved: the first comes before the database
    is open and is lost. *)
Lemma samples_reach_database_witness :
  exists e y, finished demo_component [SEvent e; STurn; SEvent e; STurn; SEvent e; SEvent e; STurn; STurn; SEvent e; SEvent e] = Ret y /\
    sy_world y = [(ORCM_DB_ENV_DATA, Some (stored_row e)); (ORCM_DB_ENV_DATA, Some (stored_row e)); (-1, None);
                  (ORCM_DB_ENV_DATA, Some (stored_row e)); (ORCM_DB_ENV_DATA, Some (stored_row e)); (-1, None); (ORCM_DB_ENV_DATA, Some (stored_row e))] /\
    commits 0 (dfg_log (sy_dfg y)) = 2.
Proof.
  destruct (orcm_analytics_base_log_to_database_event (demo_sample 1)) as [[rc [|e []]]| |] eqn:E; try (vm_compute in E; discriminate E).
  assert (rc = OPAL_SUCCESS) as -> by (vm_compute in E; by injection E).
  destruct (samples_reach_database (fun _ => true) (fun _ => eq_refl) (fun _ => true) 128 1024 (fun _ => false) no_pack false 2 true ltac:(lia)
    demo_component demo_db demo_db [] [] [] eq_refl eq_refl eq_refl (fun t input out w => (OPAL_SUCCESS, out, w ++ [(t, input)]))
    (fun w => (OPAL_SUCCESS, w ++ [(-1, None)])) (fun w => (OPAL_SUCCESS, w ++ [(-2, None)])) (ltac:(by eexists)) eq_refl eq_refl eq_refl
    [demo_sample 1; demo_sample 1; demo_sample 1; demo_sample 1; demo_sample 1; demo_sample 1]
    [SEvent e; STurn; SEvent e; STurn; SEvent e; SEvent e; STurn; STurn; SEvent e; SEvent e] 20) as (y & Ey & _ & _ & _ & Hc & _).
  - repeat constructor; exact E.
  - repeat (apply Forall_cons; split; [apply demo_passive|]). constructor.
  - cbn. lia.
  - exists e, y. split; [exact Ey|]. split; [|exact Hc]. vm_compute in E. injection E as <-. vm_compute in Ey. injection Ey as <-. vm_compute. reflexivity.
Defined.

Lemma late_rollback_witness :
  exists e1 e2 e3, (y ← finished failing_component [STurn; STurn; SEvent e1; SEvent e2; SEvent e3]; Ret (sy_world y)) = Ret [].
Proof.
  do 3 eexists. eapply late_rollback; vm_compute; reflexivity.
Defined.
