(* ===== verification/Sensor.v ===== *)
(** * The sensor framework ([orcm/mca/sensor/base])

    The framework keeps the active sensor plugins in an array of pointers,
    starts and stops them, samples them when a timer fires, collects and logs
    inventory, and serves the messages of the operator's tool.

    What lies outside is a type [W] the functions of the plugins act on; what
    the framework asks of the messaging layer, the database and its thread is
    kept as a log of actions.  [C] is the type of callbacks.  The variables of
    the file ([recv_issued], [mods_active], [orcm_sensor_base_selected]) are
    fields of the state.  The kind of process, the name of the node, the
    environment's limit on sample rates and whether a thread can be started are
    parameters. *)

From S2P Require Import Prelude CString PointerArray PointerMap Dss DssFormat DssRoundtrip DssValue DssClaims DssText DssMessage.
From stdpp Require Import base strings numbers list gmap.
From Stdlib Require Import ZArith Lia Ascii.

Open Scope Z_scope.

Definition ORCM_SET_SENSOR_COMMAND : Z := 1.
Definition ORCM_GET_SENSOR_COMMAND : Z := 2.
Definition ORCM_SET_SENSOR_SAMPLE_RATE_COMMAND : Z := 3.
Definition ORCM_GET_SENSOR_SAMPLE_RATE_COMMAND : Z := 4.
Definition ORCM_SET_SENSOR_POLICY_COMMAND : Z := 5.
Definition ORCM_GET_SENSOR_POLICY_COMMAND : Z := 6.
Definition ORCM_ENABLE_SENSOR_SAMPLING_COMMAND : Z := 7.
Definition ORCM_DISABLE_SENSOR_SAMPLING_COMMAND : Z := 8.
Definition ORCM_RESET_SENSOR_SAMPLING_COMMAND : Z := 9.
Definition ORCM_ERR_SENSOR_LIMIT_EXCEEDED : Z := -142.

(** ** From the C library *)
Definition atoi (s : cstr) : Z := i32 (strtol10 s).1.1.
Definition tolower (c : ascii) : ascii :=
  if (65 <=? char_Z c) && (char_Z c <=? 90) then ascii_of_N (Z.to_N (char_Z c + 32)) else c.
(** Whether [strcasestr] finds something. *)
Fixpoint strcasestr (haystack needle : cstr) : bool :=
  bool_decide (take (length needle) (map tolower haystack) = map tolower needle) ||
  match haystack with [] => false | _ :: h => strcasestr h needle end.

(** ** Data *)
Section Data.
Context {W C : Type}.

Record orcm_sensor_sampler_t : Type := MkSampler {
  sp_sensors : option cstr;
  sp_rate : Z;                  (* rate.tv_sec *)
  sp_log_data : bool;
  sp_bucket : opal_buffer_t;
  sp_cbfunc : option C
}.

(** A function that samples or collects adds to the buffer it is given; one
    that reads a rate leaves its variable alone or sets it. *)
Record orcm_sensor_base_module_t : Type := MkSensorModule {
  sm_init : option (W -> Z * W);
  sm_finalize : option (W -> W);
  sm_start : option (Z -> W -> W);
  sm_stop : option (Z -> W -> W);
  sm_sample : option (orcm_sensor_sampler_t -> W -> opal_buffer_t * W);
  sm_log : option (opal_buffer_t -> W -> W);
  sm_inventory_collect : option (opal_buffer_t -> W -> opal_buffer_t * W);
  sm_inventory_log : option (option cstr -> opal_buffer_t -> W -> opal_buffer_t * W);
  sm_set_sample_rate : option (Z -> W -> W);
  sm_get_sample_rate : option (Z -> W -> Z * W);
  sm_enable_sampling : option (cstr -> W -> Z * W);
  sm_disable_sampling : option (cstr -> W -> Z * W);
  sm_reset_sampling : option (cstr -> W -> Z * W)
}.

Record orcm_sensor_base_component_t : Type := MkSensorComponent {
  sc_name : cstr;
  sc_data_measured : cstr;
  sc_query : option (option orcm_sensor_base_module_t * Z -> W -> option orcm_sensor_base_module_t * Z * W)
}.

Record orcm_sensor_active_module_t : Type := MkActiveSensor {
  am_component : orcm_sensor_base_component_t;
  am_module : orcm_sensor_base_module_t;
  am_priority : Z;
  am_sampling : bool
}.

(** The threshold is the [float] as the serializer sees it. *)
Record orcm_sensor_policy_t : Type := MkPolicy {
  pl_sensor_name : cstr;
  pl_max_count : Z;
  pl_time_window : Z;
  pl_threshold : dss_data;
  pl_hi_thres : bool;
  pl_severity : Z;
  pl_action : cstr
}.

Inductive sensor_action : Type :=
| ListenSensor | ListenInventory | CancelSensor
| OpenSensorDb | CloseSensorDb (dbhandle : Z)
| StartThread | PauseThread | ResumeThread | FinalizeThread
| AddTimer (s : orcm_sensor_sampler_t)
| ActivateSampler (s : orcm_sensor_sampler_t)
| SendInventory (to_daemon : bool) (snapshot : opal_buffer_t).

Record sensor_config : Type := MkSensorConfig {
  cf_log_samples : bool;
  cf_collect_metrics : bool;
  cf_collect_inventory : bool;
  cf_set_dynamic_inventory : bool
}.

Record orcm_sensor_base_t : Type := MkSensorBase {
  sb_config : sensor_config;
  sb_ev_active : bool;
  sb_modules : opal_pointer_array_t orcm_sensor_active_module_t;
  sb_sample_rate : Z;
  sb_cache : opal_buffer_t;
  sb_policy : list orcm_sensor_policy_t;
  sb_dbhandle : Z;
  sb_dbhandle_acquired : bool;
  sb_recv_issued : bool;
  sb_mods_active : bool;
  sb_selected : bool;
  sb_log : list sensor_action
}.
Implicit Types (b : orcm_sensor_base_t).

Definition set_ev_active v b := MkSensorBase (sb_config b) v (sb_modules b) (sb_sample_rate b) (sb_cache b) (sb_policy b)
  (sb_dbhandle b) (sb_dbhandle_acquired b) (sb_recv_issued b) (sb_mods_active b) (sb_selected b) (sb_log b).
Definition set_modules v b := MkSensorBase (sb_config b) (sb_ev_active b) v (sb_sample_rate b) (sb_cache b) (sb_policy b)
  (sb_dbhandle b) (sb_dbhandle_acquired b) (sb_recv_issued b) (sb_mods_active b) (sb_selected b) (sb_log b).
Definition set_rate v b := MkSensorBase (sb_config b) (sb_ev_active b) (sb_modules b) v (sb_cache b) (sb_policy b)
  (sb_dbhandle b) (sb_dbhandle_acquired b) (sb_recv_issued b) (sb_mods_active b) (sb_selected b) (sb_log b).
Definition set_cache v b := MkSensorBase (sb_config b) (sb_ev_active b) (sb_modules b) (sb_sample_rate b) v (sb_policy b)
  (sb_dbhandle b) (sb_dbhandle_acquired b) (sb_recv_issued b) (sb_mods_active b) (sb_selected b) (sb_log b).
Definition set_policy v b := MkSensorBase (sb_config b) (sb_ev_active b) (sb_modules b) (sb_sample_rate b) (sb_cache b) v
  (sb_dbhandle b) (sb_dbhandle_acquired b) (sb_recv_issued b) (sb_mods_active b) (sb_selected b) (sb_log b).
Definition set_db (h : Z) v b := MkSensorBase (sb_config b) (sb_ev_active b) (sb_modules b) (sb_sample_rate b) (sb_cache b) (sb_policy b)
  h v (sb_recv_issued b) (sb_mods_active b) (sb_selected b) (sb_log b).
Definition set_recv_issued v b := MkSensorBase (sb_config b) (sb_ev_active b) (sb_modules b) (sb_sample_rate b) (sb_cache b) (sb_policy b)
  (sb_dbhandle b) (sb_dbhandle_acquired b) v (sb_mods_active b) (sb_selected b) (sb_log b).
Definition set_mods_active v b := MkSensorBase (sb_config b) (sb_ev_active b) (sb_modules b) (sb_sample_rate b) (sb_cache b) (sb_policy b)
  (sb_dbhandle b) (sb_dbhandle_acquired b) (sb_recv_issued b) v (sb_selected b) (sb_log b).
Definition set_selected v b := MkSensorBase (sb_config b) (sb_ev_active b) (sb_modules b) (sb_sample_rate b) (sb_cache b) (sb_policy b)
  (sb_dbhandle b) (sb_dbhandle_acquired b) (sb_recv_issued b) (sb_mods_active b) v (sb_log b).
Definition sensor_act (a : sensor_action) b := MkSensorBase (sb_config b) (sb_ev_active b) (sb_modules b) (sb_sample_rate b) (sb_cache b) (sb_policy b)
  (sb_dbhandle b) (sb_dbhandle_acquired b) (sb_recv_issued b) (sb_mods_active b) (sb_selected b) (sb_log b ++ [a]).
End Data.
Arguments orcm_sensor_sampler_t : clear implicits.
Arguments orcm_sensor_base_module_t : clear implicits.
Arguments orcm_sensor_base_component_t : clear implicits.
Arguments orcm_sensor_active_module_t : clear implicits.
Arguments orcm_sensor_base_t : clear implicits.
Arguments sensor_action : clear implicits.

(** ** Operations *)
Section Operations.
Context {W C : Type} (alloc_ok : Z -> bool).
Variable malloc_ok : Z -> bool.
Variables opal_dss_initial_size opal_dss_threshold_size : Z.
Variable registered : Z -> bool.
Variable other_pack : Z -> opal_buffer_t -> dss_data -> outcome (Z * opal_buffer_t).
Variable other_unpack : Z -> opal_buffer_t -> Z -> Z * option dss_data * opal_buffer_t.
Variable desc : bool.
Variables is_hnp is_aggregator is_cm : bool.
Variable nodename : option cstr.
Variable env_limit : option cstr.
Variable thread_ok : bool.

Abbreviation base := (orcm_sensor_base_t W C).
Abbreviation active := (orcm_sensor_active_module_t W C).
Abbreviation sampler := (orcm_sensor_sampler_t C).
Abbreviation pack_item := (pack_item malloc_ok opal_dss_initial_size opal_dss_threshold_size registered other_pack).
Abbreviation pack_items := (pack_items malloc_ok opal_dss_initial_size opal_dss_threshold_size registered other_pack).
Abbreviation unpack_byte := (unpack_byte malloc_ok registered other_unpack).
Abbreviation unpack_int := (unpack_int malloc_ok registered other_unpack).
Abbreviation unpack_string := (unpack_string malloc_ok registered other_unpack).
Abbreviation dss_unpack := (dss_unpack malloc_ok registered other_unpack).
Abbreviation copy_payload := (opal_dss_copy_payload malloc_ok opal_dss_initial_size opal_dss_threshold_size).

(** Every module in order; the table is not changed. *)
Definition for_modules {St} (f : active -> St -> outcome (St + St)) (b : base) (s : St) : outcome St :=
  for_entries (fun _ => sb_modules b) (fun _ => f) s.

Definition orcm_sensor_base_open (config : sensor_config) (sample_rate : Z) : base :=
  let '(_, modules) := opal_pointer_array_init alloc_ok (Some opal_pointer_array_construct) 3 INT_MAX 1 in
  MkSensorBase config false (default opal_pointer_array_construct modules) sample_rate (opal_buffer_construct desc) [] (-1) false false false false [].

(** The modules are finalized; the list of policies, the table and the cache
    are gone. *)
Definition orcm_sensor_base_close (b : base) (w : W) : outcome (base * W) :=
  let b := if sb_ev_active b then sensor_act FinalizeThread (set_ev_active false b) else b in
  w ← for_modules (fun a w => Ret (inl (match sm_finalize (am_module a) with Some f => f w | None => w end))) b w;
  Ret (set_modules (opal_pointer_array_destruct (sb_modules b)) (set_cache (opal_buffer_construct desc) (set_policy [] b)), w).

Definition db_open_cb (handle status : Z) (b : base) : base :=
  if status =? 0 then
    let b := set_db handle true b in
    if is_hnp || is_aggregator then sensor_act ListenInventory b else b
  else set_db (sb_dbhandle b) false b.

Definition scon : sampler := MkSampler None 0 false (opal_buffer_construct desc) None.

(** ** Starting and stopping *)
Definition sample_limit : Z := match env_limit with Some s => atoi s | None => 0 end.

(** One turn of the loop that starts the modules; the variable for the rate
    keeps its value from turn to turn. *)
Definition start_module (job : Z) (a : active) (st : Z * bool * W) : outcome ((Z * bool * W) + (Z * bool * W)) :=
  let '(ptr_sample_rate, _, w) := st in
  '(ptr_sample_rate, w) ← (match sm_get_sample_rate (am_module a) with
                           | None => Ret (ptr_sample_rate, w)
                           | Some get =>
                             let '(ptr_sample_rate, w) := get ptr_sample_rate w in
                             if ptr_sample_rate <? sample_limit then
                               set ← deref (sm_set_sample_rate (am_module a));
                               Ret (ptr_sample_rate, set sample_limit w)
                             else Ret (ptr_sample_rate, w)
                           end);
  Ret (inl (ptr_sample_rate, true, match sm_start (am_module a) with Some start => start job w | None => w end)).

Definition collect_inventory_info (b : base) (w : W) : outcome (base * W) :=
  '(rc, snapshot) ← pack_item (opal_buffer_construct desc) (text_item nodename);
  if negb (rc =? OPAL_SUCCESS) then Ret (b, w)
  else
    '(snapshot, w) ← for_modules (fun a '(snapshot, w) =>
      Ret (inl (match sm_inventory_collect (am_module a) with Some f => f snapshot w | None => (snapshot, w) end))) b (snapshot, w);
    Ret (sensor_act (SendInventory is_cm snapshot) b, w).

(** The part that runs when no module is active; the flag says whether to go
    on. *)
Definition start_modules (job : Z) (b : base) (w : W) : outcome (bool * base * W) :=
  let b := if negb (sb_dbhandle_acquired b) && is_aggregator then sensor_act OpenSensorDb b else b in
  let '(ok, b) := if sb_ev_active b then (true, b)
                  else if thread_ok then (true, sensor_act StartThread (set_ev_active true b)) else (false, b) in
  if negb ok then Ret (false, b, w)
  else
    '(_, mods_active, w) ← for_modules (start_module job) b (0, sb_mods_active b, w);
    let b := set_mods_active mods_active b in
    Ret (true, if mods_active && (0 <? sb_sample_rate b)
               then sensor_act (AddTimer (MkSampler None (sb_sample_rate b) (cf_log_samples (sb_config b)) (opal_buffer_construct desc) None)) b
               else b, w).

Definition orcm_sensor_base_start (job : Z) (b : base) (w : W) : outcome (base * W) :=
  if pa_size (sb_modules b) =? 0 then Ret (b, w)
  else
    let b := if sb_recv_issued b then b else set_recv_issued true (sensor_act ListenSensor b) in
    '(ok, b, w) ← (if negb (sb_mods_active b) then start_modules job b w
                   else Ret (true, if negb (sb_ev_active b) then sensor_act ResumeThread (set_ev_active true b) else b, w));
    if negb ok then Ret (b, w)
    else if cf_collect_inventory (sb_config b) && negb (cf_set_dynamic_inventory (sb_config b)) then collect_inventory_info b w
    else Ret (b, w).

Definition orcm_sensor_base_stop (job : Z) (b : base) (w : W) : outcome (base * W) :=
  let b := if sb_recv_issued b then set_recv_issued false (sensor_act CancelSensor b) else b in
  if negb (sb_mods_active b) then Ret (b, w)
  else
    let b := if sb_ev_active b then sensor_act PauseThread (set_ev_active false b) else b in
    w ← for_modules (fun a w => Ret (inl (match sm_stop (am_module a) with Some stop => stop job w | None => w end))) b w;
    Ret (if sb_dbhandle_acquired b && is_aggregator
         then set_db (sb_dbhandle b) false (sensor_act (CloseSensorDb (sb_dbhandle b)) b) else b, w).

(** ** Inventory messages *)
Definition log_inventory (hostname : option cstr) (temp : cstr) (b : base) (buffer : opal_buffer_t) (w : W) : outcome (opal_buffer_t * W) :=
  for_modules (fun a '(buffer, w) =>
    Ret (inl (if strcmp0 temp (sc_name (am_component a))
              then match sm_inventory_log (am_module a) with Some log => log hostname buffer w | None => (buffer, w) end
              else (buffer, w)))) b (buffer, w).

(** A null string does not set [n] again. *)
Fixpoint inventory_loop (fuel : nat) (hostname : option cstr) (n : Z) (b : base) (buffer : opal_buffer_t) (w : W) : outcome (Z * opal_buffer_t * W) :=
  '(rc, temp, n, buffer) ← unpack_string buffer n None;
  if negb (rc =? OPAL_SUCCESS) then Ret (rc, buffer, w)
  else
    match fuel with
    | O => Diverge
    | S fuel' =>
      match temp with
      | None => inventory_loop fuel' hostname n b buffer w
      | Some temp => '(buffer, w) ← log_inventory hostname temp b buffer w; inventory_loop fuel' hostname 1 b buffer w
      end
    end.

Definition recv_inventory (buffer : opal_buffer_t) (b : base) (w : W) : outcome W :=
  '(rc, hostname, _, buffer) ← unpack_string buffer 1 None;
  if negb (rc =? OPAL_SUCCESS) then Ret w
  else if negb (sb_dbhandle_acquired b) then Ret w
  else '(_, _, w) ← inventory_loop (length (b_data buffer)) hostname 1 b buffer w; Ret w.

(** ** Sampling *)
Definition set_bucket (bucket : opal_buffer_t) (s : sampler) : sampler :=
  MkSampler (sp_sensors s) (sp_rate s) (sp_log_data s) bucket (sp_cbfunc s).

Definition sample_module (a : active) (st : sampler * W) : outcome ((sampler * W) + (sampler * W)) :=
  let '(s, w) := st in
  let included := match sp_sensors s with Some sensors => strcasestr sensors (sc_name (am_component a)) | None => true end in
  Ret (inl (if included
            then match sm_sample (am_module a) with
                 | Some sample => let '(bucket, w) := sample s w in (set_bucket bucket s, w)
                 | None => (s, w)
                 end
            else (s, w))).

(** The callback with its buffer, if there is one. *)
Definition take_sample (s : sampler) (b : base) (w : W) : outcome (option (C * opal_buffer_t) * base * W) :=
  if negb (sb_mods_active b) then Ret (None, b, w)
  else
    '(s, b) ← (if 0 <? bytes_used (sb_cache b) then
                 '(_, bucket) ← copy_payload (sp_bucket s) (sb_cache b);
                 Ret (set_bucket bucket s, set_cache (opal_buffer_construct desc) b)
               else Ret (s, b));
    '(s, w) ← for_modules sample_module b (s, w);
    let '(cb, s) := match sp_cbfunc s with
                    | Some f => (Some (f, sp_bucket s), set_bucket (opal_buffer_construct desc) s)
                    | None => (None, s)
                    end in
    if 0 <? sp_rate s then
      let rate := if negb (sb_sample_rate b =? 0) && negb (sp_rate s =? sb_sample_rate b) then sb_sample_rate b else sp_rate s in
      Ret (cb, sensor_act (AddTimer (MkSampler (sp_sensors s) rate (sp_log_data s) (sp_bucket s) (sp_cbfunc s))) b, w)
    else Ret (cb, b, w).

Definition orcm_sensor_base_log (comp : option cstr) (data : opal_buffer_t) (b : base) (w : W) : outcome W :=
  if pa_size (sb_modules b) =? 0 then Ret w
  else
    match comp with
    | None => Ret w
    | Some comp =>
      if sb_dbhandle b <? 0 then Ret w
      else
        for_modules (fun a w =>
          Ret (if strcmp0 comp (sc_name (am_component a))
               then inr (match sm_log (am_module a) with Some log => log data w | None => w end)
               else inl w)) b w
    end.

(** [strdup] of the names: they must be there. *)
Definition orcm_sensor_base_manually_sample (sensors : option cstr) (cbfunc : option C) (b : base) : outcome base :=
  if negb (sb_mods_active b) then Ret b
  else
    sensors ← deref sensors;
    Ret (sensor_act (ActivateSampler (MkSampler (Some sensors) 0 false (opal_buffer_construct desc) cbfunc)) b).

Definition orcm_sensor_base_collect (bucket : opal_buffer_t) (b : base) : outcome base :=
  '(_, cache) ← copy_payload (sb_cache b) bucket;
  Ret (set_cache cache b).

(** ** Messages of the operator *)
Definition orcm_sensor_base_set_sample_rate (sample_rate : Z) (b : base) : base := set_rate sample_rate b.
Definition orcm_sensor_base_get_sample_rate (b : base) : Z := sb_sample_rate b.

(** Reports an error: the code and, without a text of its own, the default. *)
Definition error_answer (ans : opal_buffer_t) (response : Z) (error : option cstr) (b : base) (w : W) : outcome (option opal_buffer_t * base * W) :=
  '(rc, ans) ← pack_items ans [int_item response; text_item (Some (default (cs "sensor data buffer mismatch") error))];
  Ret (if rc =? OPAL_SUCCESS then Some ans else None, b, w).

Definition answer_items (ans : opal_buffer_t) (items : list (dss_data * Z)) (b : base) (w : W) : outcome (option opal_buffer_t * base * W) :=
  '(rc, ans) ← pack_items ans items;
  Ret (if rc =? OPAL_SUCCESS then Some ans else None, b, w).

Definition not_found (sensor_name : cstr) : option cstr := Some (sensor_name ++ cs " sensor module not found").

Definition set_module_rate (sensor_name : cstr) (sample_rate : Z) (a : active) (st : bool * W) : outcome ((bool * W) + (bool * W)) :=
  let '(found_me, w) := st in
  Ret (inl (if strcmp0 sensor_name (sc_name (am_component a))
            then match sm_set_sample_rate (am_module a) with Some set => (true, set sample_rate w) | None => (found_me, w) end
            else (found_me, w))).

Definition set_sample_rate_command (ans buffer : opal_buffer_t) (b : base) (w : W) : outcome (option opal_buffer_t * base * W) :=
  '(rc, sensor_name, _, buffer) ← unpack_string buffer 1 None;
  if negb (rc =? OPAL_SUCCESS) then error_answer ans OPAL_SUCCESS None b w
  else
    let '(rc, sample_rate, _, _) := unpack_int buffer 1 in
    if negb (rc =? OPAL_SUCCESS) then error_answer ans OPAL_SUCCESS None b w
    else
      let sample_rate := default 0 sample_rate in
      let limit := sample_limit in
      if (0 <? limit) && (sample_rate <? limit) then
        error_answer ans ORCM_ERR_SENSOR_LIMIT_EXCEEDED
          (Some (cs "sensor sample rate " ++ fmt_d sample_rate ++ cs " exceeds limit " ++ fmt_d limit)) b w
      else
        sensor_name ← deref sensor_name;
        '(found_me, b, w) ← (if strcmp0 sensor_name (cs "base") then Ret (true, orcm_sensor_base_set_sample_rate sample_rate b, w)
                             else '(found_me, w) ← for_modules (set_module_rate sensor_name sample_rate) b (false, w); Ret (found_me, b, w));
        if found_me : bool then answer_items ans [int_item OPAL_SUCCESS] b w
        else error_answer ans OPAL_ERR_NOT_FOUND (not_found sensor_name) b w.

Definition same_policy (sensor_name : cstr) (hi_thres : bool) (severity : Z) (p : orcm_sensor_policy_t) : bool :=
  strcmp0 sensor_name (pl_sensor_name p) && Bool.eqb hi_thres (pl_hi_thres p) && (severity =? pl_severity p).

(** The first policy with the same sensor, kind of threshold and severity
    gets the new values; otherwise the policy is appended. *)
Fixpoint update_policy (new : orcm_sensor_policy_t) (l : list orcm_sensor_policy_t) : list orcm_sensor_policy_t :=
  match l with
  | [] => [new]
  | p :: l' => if same_policy (pl_sensor_name new) (pl_hi_thres new) (pl_severity new) p
               then MkPolicy (pl_sensor_name p) (pl_max_count new) (pl_time_window new) (pl_threshold new) (pl_hi_thres p) (pl_severity p) (pl_action new) :: l'
               else p :: update_policy new l'
  end.

(** The items one after the other, with one count for all calls. *)
Definition set_policy_command (ans buffer : opal_buffer_t) (cnt : Z) (b : base) (w : W) : outcome (option opal_buffer_t * base * W) :=
  let failed := error_answer ans OPAL_SUCCESS None b w in
  '(rc, sensor_name, cnt, buffer) ← unpack_string buffer cnt None;
  if negb (rc =? OPAL_SUCCESS) then failed else
  let '(rc, threshold, cnt, buffer) := dss_unpack buffer cnt OPAL_FLOAT in
  if negb (rc =? OPAL_SUCCESS) then failed else
  let '(rc, hi_thres, cnt, buffer) := unpack_byte buffer cnt OPAL_BOOL in
  if negb (rc =? OPAL_SUCCESS) then failed else
  let '(rc, max_count, cnt, buffer) := unpack_int buffer cnt in
  if negb (rc =? OPAL_SUCCESS) then failed else
  let '(rc, time_window, cnt, buffer) := unpack_int buffer cnt in
  if negb (rc =? OPAL_SUCCESS) then failed else
  let '(rc, sev, cnt, buffer) := unpack_int buffer cnt in
  if negb (rc =? OPAL_SUCCESS) then failed else
  '(rc, action, cnt, buffer) ← unpack_string buffer cnt None;
  if negb (rc =? OPAL_SUCCESS) then failed else
  sensor_name ← deref sensor_name;
  threshold ← deref threshold;
  hi_thres ← deref hi_thres;
  max_count ← deref max_count;
  time_window ← deref time_window;
  sev ← deref sev;
  action ← deref action;
  let new := MkPolicy sensor_name max_count time_window threshold (negb (hi_thres =? 0)) sev action in
  answer_items ans [int_item OPAL_SUCCESS] (set_policy (update_policy new (sb_policy b)) b) w.

Definition get_module_rate (sensor_name : cstr) (a : active) (st : bool * Z * W) : outcome ((bool * Z * W) + (bool * Z * W)) :=
  let '(found_me, sample_rate, w) := st in
  Ret (inl (if strcmp0 sensor_name (sc_name (am_component a))
            then match sm_get_sample_rate (am_module a) with
                 | Some get => let '(sample_rate, w) := get sample_rate w in (true, sample_rate, w)
                 | None => (found_me, sample_rate, w)
                 end
            else (found_me, sample_rate, w))).

Definition get_sample_rate_command (ans buffer : opal_buffer_t) (b : base) (w : W) : outcome (option opal_buffer_t * base * W) :=
  '(rc, sensor_name, _, _) ← unpack_string buffer 1 None;
  if negb (rc =? OPAL_SUCCESS) then error_answer ans OPAL_SUCCESS None b w
  else
    sensor_name ← deref sensor_name;
    '(found_me, sample_rate, w) ← (if strcmp0 sensor_name (cs "base") then Ret (true, orcm_sensor_base_get_sample_rate b, w)
                                   else for_modules (get_module_rate sensor_name) b (false, 0, w));
    if found_me : bool then answer_items ans [int_item OPAL_SUCCESS; text_item (Some sensor_name); int_item sample_rate] b w
    else error_answer ans OPAL_ERR_NOT_FOUND (not_found sensor_name) b w.

Definition policy_items (p : orcm_sensor_policy_t) : list (dss_data * Z) :=
  [text_item (Some (pl_sensor_name p)); (pl_threshold p, OPAL_FLOAT); bool_item (pl_hi_thres p); int_item (pl_max_count p);
   int_item (pl_time_window p); int_item (pl_severity p); text_item (Some (pl_action p))].

Definition get_policy_command (ans : opal_buffer_t) (b : base) (w : W) : outcome (option opal_buffer_t * base * W) :=
  answer_items ans (int_item (i32 (Z.of_nat (length (sb_policy b)))) :: (sb_policy b ≫= policy_items)) b w.

(** The plugin's name is compared over its own length only. *)
Definition valid_data_group (sensor_spec : option cstr) (b : base) : outcome bool :=
  match sensor_spec with
  | None => Ret false
  | Some spec =>
    if (length spec =? 0)%nat then Ret false
    else
      let datagroup := take (default (length spec) (strchr spec ":")) spec in
      if (length datagroup =? 3)%nat && bool_decide (datagroup = cs "all") then Ret true
      else for_modules (fun a rv => Ret (if bool_decide (take (length (sc_name (am_component a))) datagroup = sc_name (am_component a)) then inr true else inl rv)) b false
  end.

Definition manage_module (command : Z) (spec : cstr) (a : active) (w : W) : outcome (W + W) :=
  let d := am_module a in
  Ret (inl (match if command =? ORCM_ENABLE_SENSOR_SAMPLING_COMMAND then sm_enable_sampling d
                  else if command =? ORCM_DISABLE_SENSOR_SAMPLING_COMMAND then sm_disable_sampling d
                  else if command =? ORCM_RESET_SENSOR_SAMPLING_COMMAND then sm_reset_sampling d else None with
            | Some f => (f spec w).2
            | None => w
            end)).

Definition manage_sensor_sampling (command : Z) (sensor_spec : option cstr) (b : base) (w : W) : outcome (Z * W) :=
  valid ← valid_data_group sensor_spec b;
  match sensor_spec with
  | Some spec => if valid : bool then w ← for_modules (manage_module command spec) b w; Ret (OPAL_SUCCESS, w) else Ret (OPAL_ERROR, w)
  | None => Ret (OPAL_ERROR, w)
  end.

(** The answer that is sent, if any.  A message with no string at all leaves
    [spec] unset. *)
Definition orcm_sensor_base_recv (buffer : opal_buffer_t) (b : base) (w : W) : outcome (option opal_buffer_t * base * W) :=
  let ans := opal_buffer_construct desc in
  let failed := error_answer ans OPAL_SUCCESS None b w in
  let '(rc, command, _, buffer) := unpack_byte buffer 1 OPAL_UINT8 in
  if negb (rc =? OPAL_SUCCESS) then failed
  else
    command ← deref command;
    if command =? ORCM_SET_SENSOR_COMMAND then
      let '(rc, sub_command, cnt, buffer) := unpack_byte buffer 1 OPAL_UINT8 in
      if negb (rc =? OPAL_SUCCESS) then failed
      else
        sub_command ← deref sub_command;
        if sub_command =? ORCM_SET_SENSOR_SAMPLE_RATE_COMMAND then set_sample_rate_command ans buffer b w
        else if sub_command =? ORCM_SET_SENSOR_POLICY_COMMAND then set_policy_command ans buffer cnt b w
        else error_answer ans OPAL_SUCCESS (Some (cs "sensor set command " ++ fmt_d sub_command ++ cs " not found")) b w
    else if command =? ORCM_GET_SENSOR_COMMAND then
      let '(rc, sub_command, _, buffer) := unpack_byte buffer 1 OPAL_UINT8 in
      if negb (rc =? OPAL_SUCCESS) then failed
      else
        sub_command ← deref sub_command;
        if sub_command =? ORCM_GET_SENSOR_SAMPLE_RATE_COMMAND then get_sample_rate_command ans buffer b w
        else if sub_command =? ORCM_GET_SENSOR_POLICY_COMMAND then get_policy_command ans b w
        else error_answer ans OPAL_SUCCESS (Some (cs "sensor get command " ++ fmt_d sub_command ++ cs " not found")) b w
    else if (command =? ORCM_ENABLE_SENSOR_SAMPLING_COMMAND) || (command =? ORCM_DISABLE_SENSOR_SAMPLING_COMMAND) ||
            (command =? ORCM_RESET_SENSOR_SAMPLING_COMMAND) then
      '(rc, spec, cnt, _) ← unpack_string buffer 1 None;
      if negb (rc =? OPAL_SUCCESS) then failed
      else if cnt =? 0 then Ub
      else '(response, w) ← manage_sensor_sampling command spec b w; answer_items ans [int_item response] b w
    else failed.
End Operations.

(** ** A plugin's rate

    [coretemp] ([orcm/mca/sensor/coretemp]), like the other plugins, keeps a
    rate of its own; it takes over a new one only when it samples in a thread of
    its own. *)
Record mca_sensor_coretemp_component : Type := MkCoretemp {
  ct_use_progress_thread : bool;
  ct_sample_rate : Z
}.

Definition coretemp_set_sample_rate (sample_rate : Z) (c : mca_sensor_coretemp_component) : mca_sensor_coretemp_component :=
  if ct_use_progress_thread c then MkCoretemp (ct_use_progress_thread c) sample_rate else c.

Definition coretemp_get_sample_rate (_ : Z) (c : mca_sensor_coretemp_component) : Z * mca_sensor_coretemp_component :=
  (ct_sample_rate c, c).
