(* ===== verification/SensorSelect.v ===== *)
(** * Choice of the sensor plugins ([orcm/mca/sensor/base/sensor_base_select.c])

    Every component is asked for a module and a priority.  Of several that
    measure the same the one of the highest priority is kept; the kept ones
    are sorted by priority and initialized.  A module that cannot be
    initialized is dropped, or on a process that collects data of others kept
    without its functions for sampling.

    The variables for module and priority keep their values from one question
    to the next.  Each component has a module of its own. *)

From S2P Require Import Prelude CString PointerArray PointerMap Sensor.
From stdpp Require Import base strings numbers list gmap.
From Stdlib Require Import ZArith Lia Ascii.

Open Scope Z_scope.

Section Select.
Context {W C : Type} (alloc_ok : Z -> bool).
Variables is_hnp is_aggregator : bool.
Abbreviation active := (orcm_sensor_active_module_t W C).
Abbreviation component := (orcm_sensor_base_component_t W C).
Abbreviation table := (opal_pointer_array_t active).

Definition check_duplicate (c : component) (priority : Z) (i : Z) (tmp : active) (st : table * bool) : outcome ((table * bool) + (table * bool)) :=
  let '(t, duplicate) := st in
  if strcmp0 (sc_data_measured c) (sc_data_measured (am_component tmp)) then
    if am_priority tmp <? priority then
      '(_, t) ← opal_pointer_array_set_item alloc_ok t i None;
      Ret (inr (t, duplicate))
    else Ret (inl (t, true))
  else Ret (inl (t, duplicate)).

Fixpoint query_components (comps : list component) (module : option (orcm_sensor_base_module_t W C)) (priority : Z) (t : table) (none_found : bool) (w : W)
    : outcome (table * bool * W) :=
  match comps with
  | [] => Ret (t, none_found, w)
  | c :: comps' =>
    match sc_query c with
    | None => query_components comps' module priority t none_found w
    | Some query =>
      match query (module, priority) w with
      | (Some d, priority, w) =>
        if priority <? 0 then query_components comps' (Some d) priority t none_found w
        else
          '(t, duplicate) ← for_entries fst (check_duplicate c priority) (t, false);
          if duplicate : bool then query_components comps' (Some d) priority t none_found w
          else
            '(_, t) ← opal_pointer_array_add alloc_ok t (Some (MkActiveSensor c d priority true));
            query_components comps' (Some d) priority t false w
      | (None, priority, w) => query_components comps' None priority t none_found w
      end
    end
  end.

Definition scan_higher (i : Z) (tmp : active) (st : Z * Z) : outcome ((Z * Z) + (Z * Z)) :=
  let '(low_i, priority) := st in
  Ret (inl (if priority <? am_priority tmp then (i, am_priority tmp) else (low_i, priority))).

(** An entry that is not the highest left is tried again ([j--]). *)
Fixpoint sort_modules (fuel : nat) (j : Z) (tmp modules : table) : outcome table :=
  if j <? pa_size tmp then
    match fuel with
    | O => Diverge
    | S fuel' =>
      sw ← opal_pointer_array_get_item tmp j;
      match sw with
      | None => sort_modules fuel' (j + 1) tmp modules
      | Some sw =>
        '(low_i, _) ← for_entries (fun _ => tmp) scan_higher (-1, am_priority sw);
        if 0 <=? low_i then
          x ← opal_pointer_array_get_item tmp low_i;
          match x with
          | None => sort_modules fuel' (j + 1) tmp modules
          | Some x =>
            '(_, tmp) ← opal_pointer_array_set_item alloc_ok tmp low_i None;
            '(_, modules) ← opal_pointer_array_add alloc_ok modules (Some x);
            sort_modules fuel' j tmp modules
          end
        else
          '(_, tmp) ← opal_pointer_array_set_item alloc_ok tmp j None;
          '(_, modules) ← opal_pointer_array_add alloc_ok modules (Some sw);
          sort_modules fuel' (j + 1) tmp modules
      end
    end
  else Ret modules.

(** The functions that need the hardware are taken away. *)
Definition disabled (d : orcm_sensor_base_module_t W C) : orcm_sensor_base_module_t W C :=
  MkSensorModule (sm_init d) (sm_finalize d) None None None (sm_log d) None (sm_inventory_log d) None None None None None.

(** The object behind the pointer changes, the table does not. *)
Definition overwrite (t : table) (i : Z) (a : active) : table :=
  MkPtrArray (pa_lowest_free t) (pa_number_free t) (pa_size t) (pa_max_size t) (pa_block_size t)
    ((fun l => <[Z.to_nat i := Some a]> l) <$> pa_addr t).

Definition init_module (i : Z) (a : active) (st : table * W) : outcome ((table * W) + (table * W)) :=
  let '(t, w) := st in
  match sm_init (am_module a) with
  | None => Ret (inl (t, w))
  | Some init =>
    let '(rc, w) := init w in
    if rc =? OPAL_SUCCESS then Ret (inl (t, w))
    else if is_hnp || is_aggregator then
      Ret (inl (overwrite t i (MkActiveSensor (am_component a) (disabled (am_module a)) (am_priority a) false), w))
    else
      finalize ← deref (sm_finalize (am_module a));
      '(_, t) ← opal_pointer_array_set_item alloc_ok t i None;
      Ret (inl (t, finalize w))
  end.

(** An entry is moved once and every index is passed once, so twice the size
    bounds the sorting. *)
Definition orcm_sensor_base_select (comps : list component) (b : orcm_sensor_base_t W C) (w : W) : outcome (Z * orcm_sensor_base_t W C * W) :=
  if sb_selected b then Ret (OPAL_SUCCESS, b, w)
  else
    let b := set_selected true b in
    '(tmp, none_found, w) ← query_components comps None 0 opal_pointer_array_construct true w;
    if none_found : bool then Ret (OPAL_SUCCESS, b, w)
    else
      modules ← sort_modules (2 * Z.to_nat (pa_size tmp)) 0 tmp (sb_modules b);
      '(modules, w) ← for_entries fst init_module (modules, w);
      Ret (OPAL_SUCCESS, set_modules modules b, w).
End Select.
