(* ===== verification/SensorSelectClaims.v ===== *)
(** * Which sensor plugins run, and in which order

    One module per measured quantity, the one of the highest priority, in the
    order of priorities: the loops over arrays of pointers compute what two
    functions on lists compute. *)

From S2P Require Import Prelude CString PointerArray PointerMap Dss Sensor SensorSelect.
From stdpp Require Import base strings numbers list gmap sorting.
From Stdlib Require Import ZArith Lia Ascii.

Open Scope Z_scope.

(** ** The reference *)
Section Reference.
Context {W C : Type}.
Abbreviation active := (orcm_sensor_active_module_t W C).
Abbreviation component := (orcm_sensor_base_component_t W C).
Implicit Types (x y : active) (l : list active).

Definition quantity x : cstr := sc_data_measured (am_component x).

(** The modules the components offer. *)
Fixpoint offered (comps : list component) (module : option (orcm_sensor_base_module_t W C)) (priority : Z) (w : W) : list active * W :=
  match comps with
  | [] => ([], w)
  | c :: comps' =>
    match sc_query c with
    | None => offered comps' module priority w
    | Some query =>
      match query (module, priority) w with
      | (Some d, priority, w) =>
        let '(l, w) := offered comps' (Some d) priority w in
        (if priority <? 0 then l else MkActiveSensor c d priority true :: l, w)
      | (None, priority, w) => offered comps' None priority w
      end
    end
  end.

(** A module takes the place of a lower one for the same quantity. *)
Fixpoint offer x l : list active :=
  match l with
  | [] => [x]
  | y :: l' => if strcmp0 (quantity x) (quantity y) then (if am_priority y <? am_priority x then x else y) :: l' else y :: offer x l'
  end.

Definition best l : list active := foldl (fun l x => offer x l) [] l.

(** Sorted by descending priority, the order of equals kept. *)
Fixpoint insert_by_priority x l : list active :=
  match l with
  | [] => [x]
  | y :: l' => if am_priority x <? am_priority y then y :: insert_by_priority x l' else x :: l
  end.

Definition by_priority l : list active := foldr insert_by_priority [] l.

(** What is left of a module after its initialization. *)
Definition initialized (collects : bool) x (w : W) : option active * W :=
  match sm_init (am_module x) with
  | None => (Some x, w)
  | Some init =>
    let '(rc, w) := init w in
    if rc =? OPAL_SUCCESS then (Some x, w)
    else if collects then (Some (MkActiveSensor (am_component x) (disabled (am_module x)) (am_priority x) false), w)
    else (None, match sm_finalize (am_module x) with Some f => f w | None => w end)
  end.

Fixpoint init_all (collects : bool) l (w : W) : list (option active) * W :=
  match l with
  | [] => ([], w)
  | x :: l' => let '(o, w) := initialized collects x w in let '(os, w) := init_all collects l' w in (o :: os, w)
  end.

(** ** Its properties *)
Definition higher x y : Prop := am_priority y <= am_priority x.

Lemma insert_perm x l : insert_by_priority x l ≡ₚ x :: l.
Proof. induction l as [|y l IH]; [done|]. cbn. destruct (am_priority x <? am_priority y); [|done]. rewrite IH. constructor. Qed.

Lemma by_priority_perm l : by_priority l ≡ₚ l.
Proof. induction l as [|x l IH]; [done|]. cbn. rewrite insert_perm. by f_equiv. Qed.

Lemma insert_sorted x l : StronglySorted higher l -> StronglySorted higher (insert_by_priority x l).
Proof.
  induction 1 as [|y l Hs IH Hy]; cbn; [by repeat constructor|]. destruct (Z.ltb_spec (am_priority x) (am_priority y)) as [Hlt|Hge].
  - constructor; [done|]. rewrite insert_perm. constructor; [unfold higher; lia|done].
  - constructor; [by constructor|]. constructor; [unfold higher; lia|]. eapply Forall_impl; [exact Hy|]. unfold higher. intros. lia.
Qed.

Lemma by_priority_sorted l : StronglySorted higher (by_priority l).
Proof. induction l as [|x l IH]; cbn; [constructor|by apply insert_sorted]. Qed.

(** The first of the highest comes first. *)
Lemma by_priority_first l1 x l2 :
  Forall (fun y => am_priority y < am_priority x) l1 -> Forall (fun y => am_priority y <= am_priority x) l2 ->
  by_priority (l1 ++ x :: l2) = x :: by_priority (l1 ++ l2).
Proof.
  intros H1 H2. induction H1 as [|y l1 Hy H1 IH]; cbn [app by_priority foldr].
  - assert (Hall : Forall (fun y => am_priority y <= am_priority x) (by_priority l2)) by (by rewrite by_priority_perm).
    fold (by_priority l2). destruct Hall as [|z l' Hz _]; [done|]. cbn. destruct (Z.ltb_spec (am_priority x) (am_priority z)); [lia|done].
  - fold (by_priority (l1 ++ x :: l2)). rewrite IH. cbn. destruct (Z.ltb_spec (am_priority y) (am_priority x)); [done|lia].
Qed.

Lemma offer_quantities x l :
  ((quantity x ∈ map quantity l) /\ map quantity (offer x l) = map quantity l) \/
  ((quantity x ∉ map quantity l) /\ offer x l = l ++ [x]).
Proof.
  induction l as [|y l IH]; cbn; [right; split; [apply not_elem_of_nil|done]|]. unfold strcmp0 in *.
  destruct (bool_decide_reflect (quantity x = quantity y)) as [E|E].
  - left. rewrite <- E. split; [left|]. destruct (am_priority y <? am_priority x); cbn; by rewrite ?E.
  - destruct IH as [[Hin IH]|[Hin IH]]; [left|right].
    + split; [by right|]. cbn. by rewrite IH.
    + split; [|by rewrite IH]. by intros [?|?]%elem_of_cons.
Qed.

Lemma offer_NoDup x l : NoDup (map quantity l) -> NoDup (map quantity (offer x l)).
Proof.
  intros Hl. destruct (offer_quantities x l) as [[_ ->]|[Hin ->]]; [done|].
  rewrite map_app. apply NoDup_app. split_and!; [done| |apply NoDup_singleton]. intros q Hq ->%list_elem_of_singleton. done.
Qed.

Lemma offer_sub x l z : z ∈ offer x l -> z = x \/ z ∈ l.
Proof.
  induction l as [|y l IH]; cbn; [intros ->%list_elem_of_singleton; by left|].
  destruct (strcmp0 _ _); [destruct (am_priority y <? am_priority x)|]; intros [->|Hz]%elem_of_cons; rewrite ?elem_of_cons; naive_solver.
Qed.

(** The quantity of [z] is measured at least as well. *)
Definition dominated l z : Prop := exists y, y ∈ l /\ quantity y = quantity z /\ am_priority z <= am_priority y.

Lemma offer_dominated x l z : z = x \/ dominated l z -> dominated (offer x l) z.
Proof.
  intros Hz. induction l as [|y l IH]; cbn.
  - exists x. destruct Hz as [->|(y & Hy & _)]; [by split; [left|]|by apply not_elem_of_nil in Hy].
  - unfold strcmp0. destruct (bool_decide_reflect (quantity x = quantity y)) as [E|E].
    + destruct Hz as [->|(y' & [->|Hy]%elem_of_cons & Eq & Hp)].
      * eexists. split; [by left|]. destruct (Z.ltb_spec (am_priority y) (am_priority x)); split; done || lia || congruence.
      * eexists. split; [by left|]. destruct (Z.ltb_spec (am_priority y) (am_priority x)); split; done || lia || congruence.
      * exists y'. split; [by right|done].
    + destruct Hz as [->|(y' & [->|Hy]%elem_of_cons & Eq & Hp)].
      * destruct IH as (y' & ? & ?); [by left|]. exists y'. split; [by right|done].
      * exists y. split; [by left|done].
      * destruct IH as (y2 & ? & ?); [right; by exists y'|]. exists y2. split; [by right|done].
Qed.

(** Of each quantity the best offer. *)
Lemma best_spec l : NoDup (map quantity (best l)) /\ best l ⊆ l /\ Forall (dominated (best l)) l.
Proof.
  induction l as [|x l IH] using rev_ind; [split_and!; [constructor|done|constructor]|]. destruct IH as (Hn & Hs & Hd).
  unfold best in *. rewrite foldl_app. cbn [foldl]. split_and!.
  - by apply offer_NoDup.
  - intros z [->|Hz]%offer_sub; apply elem_of_app; [right; by left|left; by apply Hs].
  - apply Forall_app_2; [|by apply Forall_singleton, offer_dominated; left]. eapply Forall_impl; [exact Hd|]. intros z Hz. apply offer_dominated. by right.
Qed.
End Reference.

(** ** The arrays follow it *)
Section Tables.
Context {W C : Type} (alloc_ok : Z -> bool).
Hypothesis Halloc : forall n, alloc_ok n = true.
Variables is_hnp is_aggregator : bool.
Abbreviation active := (orcm_sensor_active_module_t W C).
Abbreviation component := (orcm_sensor_base_component_t W C).
Abbreviation table := (opal_pointer_array_t active).
Implicit Types (x y : active) (t : table) (l : list active) (c : component).

(** The search for a module of the same quantity. *)
Lemma search_other c p (i : Z) l t d :
  Forall (fun y => quantity y <> sc_data_measured c) l ->
  each_place (check_duplicate alloc_ok c p) i (map Some l) (t, d) = Ret (t, d).
Proof.
  intros H. revert i. induction H as [|y l Hy H IH]; intros i; [done|]. cbn [map each_place check_duplicate].
  unfold strcmp0. rewrite bool_decide_false by (intros E; by apply Hy). rewrite bind_Ret. apply IH.
Qed.

Lemma search_found c p (i : Z) l1 y l2 t :
  Forall (fun z => quantity z <> sc_data_measured c) l1 -> quantity y = sc_data_measured c ->
  Forall (fun z => quantity z <> sc_data_measured c) l2 ->
  each_place (check_duplicate alloc_ok c p) i (map Some (l1 ++ y :: l2)) (t, false) =
    if am_priority y <? p then '(_, t) ← opal_pointer_array_set_item alloc_ok t (i + Z.of_nat (length l1)) None; Ret (t, false) else Ret (t, true).
Proof.
  intros H1 Hy H2. revert i. induction H1 as [|z l1 Hz H1 IH]; intros i; cbn [app map each_place check_duplicate length]; unfold strcmp0.
  - rewrite bool_decide_true, Z.add_0_r by (by symmetry). destruct (am_priority y <? p).
    + by destruct (opal_pointer_array_set_item _ _ _ _) as [[]| |].
    + rewrite bind_Ret. by apply search_other.
  - rewrite bool_decide_false by (intros E; by apply Hz). rewrite bind_Ret, IH.
    by replace (i + 1 + Z.of_nat (length l1)) with (i + Z.of_nat (S (length l1))) by lia.
Qed.

(** A module among those kept so far. *)
Lemma offer_step t l n c d p : holds_places t (map Some l) n -> 0 <= n -> n + 2 < 2 ^ 29 -> NoDup (map quantity l) -> Z.of_nat (length l) < 2 ^ 30 ->
  exists t' (dup : bool) t'', for_entries fst (check_duplicate alloc_ok c p) (t, false) = Ret (t', dup) /\
    (if dup then Ret t' else '(_, t) ← opal_pointer_array_add alloc_ok t' (Some (MkActiveSensor c d p true)); Ret t) = Ret t'' /\
    holds_places t'' (map Some (offer (MkActiveSensor c d p true) l)) (n + 2) /\ (dup = true -> l <> []).
Proof.
  intros Hr Hn Hn2 Hnd Hlen. rewrite (for_entries_places fst _ (map Some l) n (t, false)); [|done|lia|].
  2:{ intros i a [t' d'] r Ht E. cbn in *. subst t'. unfold check_duplicate in E. repeat case_match; try (by injection E as <-).
      by apply bind_Ret_inv in E as ([] & _ & E). }
  set (x := MkActiveSensor c d p true).
  destruct (decide (sc_data_measured c ∈ map quantity l)) as [Hin|Hin].
  - apply list_elem_of_fmap in Hin as (y & Hy & Hyl). apply list_elem_of_split in Hyl as (l1 & l2 & ->).
    rewrite map_app in Hnd. cbn [map] in Hnd. apply NoDup_app in Hnd as (_ & Hd1 & Hnd2). apply NoDup_cons in Hnd2 as [Hd2 _].
    assert (H1 : Forall (fun z => quantity z <> sc_data_measured c) l1).
    { apply Forall_forall. intros z Hz E. apply (Hd1 (quantity z)); [by apply list_elem_of_fmap_2|rewrite E, Hy; left]. }
    assert (H2 : Forall (fun z => quantity z <> sc_data_measured c) l2).
    { apply Forall_forall. intros z Hz E. apply Hd2. rewrite <- Hy, <- E. by apply list_elem_of_fmap_2. }
    rewrite (search_found c p 0 l1 y l2 t H1 (eq_sym Hy) H2).
    assert (Eo : offer x (l1 ++ y :: l2) = l1 ++ (if am_priority y <? p then x else y) :: l2).
    { clear - H1 Hy. induction H1 as [|z l1 Hz H1 IH]; cbn; unfold strcmp0.
      - by rewrite bool_decide_true.
      - rewrite bool_decide_false by (intros E; by apply Hz). by rewrite IH. }
    rewrite Eo. destruct (am_priority y <? p).
    + rewrite length_app in Hlen. cbn [length] in Hlen. rewrite Z.add_0_l.
      destruct (places_clear alloc_ok Halloc t _ n (length l1) Hr ltac:(lia) ltac:(lia)) as (rc & t1 & -> & Ht1). rewrite bind_Ret.
      rewrite map_app, insert_app_r_alt, length_map, Nat.sub_diag in Ht1 by (rewrite length_map; lia). cbn [map] in Ht1.
      destruct (places_add alloc_ok Halloc t1 l1 _ (n + 1) x Ht1 ltac:(lia)) as (t2 & E2 & Ht2).
      exists t1, false, t2. split_and!; [done|by rewrite E2| |done]. rewrite map_app. cbn [map]. by replace (n + 2) with (n + 1 + 1) by lia.
    + exists t, true, t. split_and!; [done|done| |by destruct l1]. destruct Hr as (m & Hr & Hl). exists m. split; [|done]. apply (table_weaken _ _ n); [done|lia].
  - rewrite (search_other c p 0 l t false).
    2:{ apply Forall_forall. intros z Hz E. apply Hin. rewrite <- E. by apply list_elem_of_fmap_2. }
    destruct (places_append alloc_ok Halloc t l n x Hr ltac:(lia)) as (t2 & E2 & (m & Ht2 & Hl2)). exists t, false, t2. split_and!; [done|by rewrite E2| |done].
    destruct (offer_quantities x l) as [[Hx _]|[_ ->]]; [done|]. exists m. split; [|done]. apply (table_weaken _ _ (n + 1)); [done|lia].
Qed.

(** All components. *)
Lemma offer_length x l : (length (offer x l) <= S (length l))%nat.
Proof. induction l as [|y l IH]; cbn; [lia|]. destruct (strcmp0 _ _); cbn; lia. Qed.

Lemma offer_nonempty x l : offer x l <> [].
Proof. destruct l as [|y l]; cbn; [done|]. by destruct (strcmp0 _ _). Qed.

Lemma query_components_spec comps : forall module p t none_found w l n,
  holds_places t (map Some l) n -> 0 <= n -> n + 2 * Z.of_nat (length comps) < 2 ^ 29 -> NoDup (map quantity l) ->
  Z.of_nat (length l) + Z.of_nat (length comps) < 2 ^ 30 -> (none_found = true <-> l = []) ->
  exists t' none_found', query_components alloc_ok comps module p t none_found w = Ret (t', none_found', (offered comps module p w).2) /\
    holds_places t' (map Some (foldl (fun l x => offer x l) l (offered comps module p w).1)) (n + 2 * Z.of_nat (length comps)) /\
    (none_found' = true <-> foldl (fun l x => offer x l) l (offered comps module p w).1 = []).
Proof.
  induction comps as [|c comps IH]; intros module p t none_found w l n Hr Hn Hn2 Hnd Hlen Hnone; cbn [query_components offered length] in *.
  { exists t, none_found. rewrite Z.add_0_r. done. }
  assert (Hnext : forall t' nf m' p' w' l', holds_places t' (map Some l') (n + 2) -> NoDup (map quantity l') -> (length l' <= S (length l))%nat -> (nf = true <-> l' = []) ->
    exists t'' nf', query_components alloc_ok comps m' p' t' nf w' = Ret (t'', nf', (offered comps m' p' w').2) /\
      holds_places t'' (map Some (foldl (fun l x => offer x l) l' (offered comps m' p' w').1)) (n + 2 * Z.of_nat (S (length comps))) /\
      (nf' = true <-> foldl (fun l x => offer x l) l' (offered comps m' p' w').1 = [])).
  { intros t' nf m' p' w' l' Ht' Hl' Hle Hnf. replace (n + 2 * Z.of_nat (S (length comps))) with (n + 2 + 2 * Z.of_nat (length comps)) by lia.
    apply (IH m' p' t' nf w' l' (n + 2)); [done|lia|lia|done|lia|done]. }
  assert (Hweak : holds_places t (map Some l) (n + 2)).
  { destruct Hr as (m & Hr & Hl). exists m. split; [|done]. apply (table_weaken _ _ n); [done|lia]. }
  destruct (sc_query c) as [query|]; [|apply Hnext; try done; lia]. destruct (query (module, p) w) as [[[d|] p'] w']; [|apply Hnext; try done; lia].
  destruct (offered comps (Some d) p' w') as [os w1] eqn:Eo. destruct (p' <? 0).
  { specialize (Hnext t none_found (Some d) p' w' l Hweak Hnd ltac:(lia) Hnone). by rewrite Eo in Hnext. }
  destruct (offer_step t l n c d p' Hr Hn ltac:(lia) Hnd ltac:(lia)) as (t1 & dup & t2 & -> & E2 & Ht2 & Hdup). rewrite bind_Ret. cbn [fst snd foldl].
  pose proof (offer_NoDup (MkActiveSensor c d p' true) l Hnd) as Hnd'. pose proof (offer_length (MkActiveSensor c d p' true) l) as Hle.
  pose proof (offer_nonempty (MkActiveSensor c d p' true) l) as Hne.
  destruct dup.
  - injection E2 as <-. specialize (Hnext t1 none_found (Some d) p' w' _ Ht2 Hnd' Hle). rewrite Eo in Hnext. apply Hnext.
    split; [|done]. intros ->%Hnone. by destruct (Hdup eq_refl).
  - apply bind_Ret_inv in E2 as ([rc t3] & -> & [= ->]). rewrite bind_Ret. specialize (Hnext t2 false (Some d) p' w' _ Ht2 Hnd' Hle). rewrite Eo in Hnext. by apply Hnext.
Qed.

(** ** Sorting *)
Definition below (p : Z) (o : option active) : Prop := forall a, o = Some a -> am_priority a <= p.

Lemma omap_below p (k : list (option active)) : Forall (below p) k -> Forall (fun a => am_priority a <= p) (omap (M := list) id k).
Proof. induction 1 as [|[a|] k Hk H IH]; cbn; [constructor| |done]. constructor; [by apply Hk|done]. Qed.

(** The first of the highest beyond [p], if there is one. *)
Lemma scan_spec (k : list (option active)) : forall (i low p : Z),
  (Forall (below p) k /\ each_place scan_higher i k (low, p) = Ret (low, p)) \/
  (exists k1 x k2, k = k1 ++ Some x :: k2 /\ p < am_priority x /\ Forall (fun y => am_priority y < am_priority x) (omap (M := list) id k1) /\
     Forall (below (am_priority x)) k2 /\ each_place scan_higher i k (low, p) = Ret (i + Z.of_nat (length k1), am_priority x)).
Proof.
  induction k as [|[a|] k IH]; intros i low p; cbn [each_place scan_higher].
  - left. split; [constructor|done].
  - rewrite bind_Ret. destruct (Z.ltb_spec p (am_priority a)) as [Hlt|Hge].
    + right. destruct (IH (i + 1) i (am_priority a)) as [[Hk ->]|(k1 & x & k2 & -> & Hx & Hk1 & Hk2 & ->)].
      * exists [], a, k. cbn. rewrite Z.add_0_r. split_and!; [done|lia|constructor|done|done].
      * exists (Some a :: k1), x, k2. cbn [app length omap list_omap id]. split_and!; [done|lia|by constructor|done|by rewrite Nat2Z.inj_succ; f_equal; f_equal; lia].
    + destruct (IH (i + 1) low p) as [[Hk ->]|(k1 & x & k2 & -> & Hx & Hk1 & Hk2 & ->)]; [left|right].
      * split; [|done]. constructor; [by intros ? [= <-]|done].
      * exists (Some a :: k1), x, k2. cbn [app length omap list_omap id]. split_and!; [done|lia|constructor; [lia|done]|done|by rewrite Nat2Z.inj_succ; f_equal; f_equal; lia].
  - destruct (IH (i + 1) low p) as [[Hk ->]|(k1 & x & k2 & -> & Hx & Hk1 & Hk2 & ->)]; [left|right].
    + split; [|done]. by constructor.
    + exists (None :: k1), x, k2. cbn [app length omap list_omap id]. split_and!; [done|lia|done|done|by rewrite Nat2Z.inj_succ; f_equal; f_equal; lia].
Qed.

Lemma clear_size t i rc t' : 0 <= i < pa_size t -> opal_pointer_array_set_item alloc_ok t i None = Ret (rc, t') -> pa_size t' = pa_size t.
Proof.
  intros Hi E. unfold opal_pointer_array_set_item, reach in E. destruct (Z.ltb_spec i 0); [lia|].
  destruct (Z.leb_spec (pa_size t) i); [lia|]. cbn [mbind outcome_bind negb] in E.
  apply bind_Ret_inv in E as (addr & _ & E). apply bind_Ret_inv in E as (old & _ & E). apply bind_Ret_inv in E as (addr' & _ & E).
  by injection E as _ <-.
Qed.

Lemma places_inside t (k : list (option active)) n (i : nat) x : holds_places t k n -> k !! i = Some (Some x) -> Z.of_nat i < pa_size t.
Proof.
  intros Hr Hi. destruct (Z.lt_ge_cases (Z.of_nat i) (pa_size t)) as [|Hge]; [done|].
  pose proof (places_beyond t k n i Hr Hge) as Hn. by rewrite Hi in Hn.
Qed.

Lemma omap_move (k1 : list (option active)) x k2 : omap (M := list) id (<[length k1 := None]> (k1 ++ Some x :: k2)) = omap (M := list) id k1 ++ omap (M := list) id k2.
Proof. rewrite insert_app_r_alt, Nat.sub_diag by lia. by rewrite omap_app. Qed.

(** One module goes to the end of the result. *)
Lemma move_step tmp modules (k1 : list (option active)) x k2 n done m :
  holds_places tmp (k1 ++ Some x :: k2) n -> holds_places modules (map Some done) m -> 0 <= n < 2 ^ 29 -> 0 <= m < 2 ^ 29 -> Z.of_nat (length k1) < 2 ^ 30 ->
  exists rc tmp' modules', opal_pointer_array_set_item alloc_ok tmp (Z.of_nat (length k1)) None = Ret (rc, tmp') /\
    opal_pointer_array_add alloc_ok modules (Some x) = Ret (Z.of_nat (length done), modules') /\ pa_size tmp' = pa_size tmp /\
    holds_places tmp' (<[length k1 := None]> (k1 ++ Some x :: k2)) (n + 1) /\ holds_places modules' (map Some (done ++ [x])) (m + 1).
Proof.
  intros Ht Hm Hn Hm' Hk. assert (Hin : Z.of_nat (length k1) < pa_size tmp).
  { apply (places_inside tmp _ n (length k1) x Ht). by rewrite lookup_app_r, Nat.sub_diag by lia. }
  destruct (places_clear alloc_ok Halloc tmp _ n (length k1) Ht ltac:(lia) ltac:(lia)) as (rc & tmp' & E & Ht').
  destruct (places_append alloc_ok Halloc modules done m x Hm Hm') as (modules' & E' & Hm'').
  exists rc, tmp', modules'. split_and!; [done|done| |done|done]. apply (clear_size tmp (Z.of_nat (length k1)) rc tmp'); [lia|done].
Qed.

Lemma omap_none (k : list (option active)) : Forall (fun o => o = None) k -> omap (M := list) id k = [].
Proof. by induction 1 as [|o k -> H IH]. Qed.

Lemma omap_split (k1 : list (option active)) x k2 : omap (M := list) id (k1 ++ Some x :: k2) = omap (M := list) id k1 ++ x :: omap (M := list) id k2.
Proof. by rewrite omap_app. Qed.

(** Nothing is left from the end of the table on. *)
Lemma exhausted tmp (k : list (option active)) n (j : nat) :
  holds_places tmp k n -> pa_size tmp <= Z.of_nat j -> Forall (fun o => o = None) (take j k) -> omap (M := list) id k = [].
Proof.
  intros Ht Hj Hk. apply omap_none. apply Forall_lookup. intros i o Hi. destruct (decide (i < j)%nat) as [Hlt|Hge].
  - rewrite Forall_lookup in Hk. apply (Hk i). by rewrite lookup_take_lt.
  - pose proof (places_beyond tmp k n i Ht ltac:(lia)) as Hnone. by rewrite Hi in Hnone.
Qed.

Lemma none_next (k : list (option active)) (j : nat) : Forall (fun o => o = None) (take j k) -> mjoin (k !! j) = None -> Forall (fun o => o = None) (take (S j) k).
Proof.
  intros Hk Hj. destruct (k !! j) as [o|] eqn:E.
  - rewrite (take_S_r k j o E). apply Forall_app_2; [done|]. by destruct o; [|repeat constructor].
  - apply lookup_ge_None_1 in E. by rewrite take_ge in Hk |- * by lia.
Qed.

Lemma none_insert (k : list (option active)) (i j : nat) : Forall (fun o => o = None) (take j k) -> Forall (fun o => o = None) (take j (<[i := None]> k)).
Proof. intros Hk. rewrite take_insert. destruct (decide (i < j)%nat); [|done]. by apply Forall_insert. Qed.

Abbreviation count k := (Z.of_nat (length (omap (M := list) id k))).

Lemma count_split (k1 : list (option active)) x k2 : count (k1 ++ Some x :: k2) = count (<[length k1 := None]> (k1 ++ Some x :: k2)) + 1.
Proof. rewrite omap_move, omap_split, !length_app. cbn [length]. lia. Qed.

Lemma sort_spec fuel : forall (j : nat) tmp modules (k : list (option active)) n done m,
  holds_places tmp k n -> holds_places modules (map Some done) m -> Forall (fun o => o = None) (take j k) ->
  pa_size tmp - Z.of_nat j + count k <= Z.of_nat fuel ->
  0 <= n -> n + count k < 2 ^ 29 -> 0 <= m -> m + count k < 2 ^ 29 -> Z.of_nat (length k) < 2 ^ 30 ->
  exists modules', sort_modules alloc_ok fuel (Z.of_nat j) tmp modules = Ret modules' /\
    holds_places modules' (map Some (done ++ by_priority (omap (M := list) id k))) (m + count k).
Proof.
  induction fuel as [|fuel IH]; intros j tmp modules k n done m Ht Hm Hj Hfuel Hn Hn2 Hm0 Hm2 Hk; cbn [sort_modules].
  all: destruct (Z.ltb_spec (Z.of_nat j) (pa_size tmp)) as [Hlt|Hge]; [|exists modules; split; [done|]; rewrite (exhausted tmp k n j Ht Hge Hj), app_nil_r, Z.add_0_r; done].
  { lia. }
  assert (Hmove : forall k1 x k2 (j' : nat), k = k1 ++ Some x :: k2 -> Forall (fun y => am_priority y < am_priority x) (omap (M := list) id k1) ->
    Forall (below (am_priority x)) k2 -> Forall (fun o => o = None) (take j' (<[length k1 := None]> k)) -> (j <= j')%nat ->
    exists rc tmp' rc' mods modules', opal_pointer_array_set_item alloc_ok tmp (Z.of_nat (length k1)) None = Ret (rc, tmp') /\
      opal_pointer_array_add alloc_ok modules (Some x) = Ret (rc', mods) /\ sort_modules alloc_ok fuel (Z.of_nat j') tmp' mods = Ret modules' /\
      holds_places modules' (map Some (done ++ by_priority (omap (M := list) id k))) (m + count k)).
  { intros k1 x k2 j' -> H1 H2 Hj' Hle. pose proof (count_split k1 x k2) as Hc. rewrite length_app in Hk. cbn [length] in Hk.
    destruct (move_step tmp modules k1 x k2 n done m Ht Hm) as (rc & tmp' & mods & E1 & E2 & Hs & Ht' & Hm'); [lia|lia|lia|].
    destruct (IH j' tmp' mods (<[length k1 := None]> (k1 ++ Some x :: k2)) (n + 1) (done ++ [x]) (m + 1) Ht' Hm' Hj') as (modules' & E3 & Hm'');
      [lia|lia|lia|lia|lia|rewrite length_insert, length_app; cbn [length]; lia|].
    exists rc, tmp', (Z.of_nat (length done)), mods, modules'. split_and!; [done|done|done|].
    rewrite omap_move in Hm''. rewrite omap_split, (by_priority_first _ _ _ H1 (omap_below _ _ H2)). rewrite <- app_assoc in Hm''. cbn [app] in Hm''.
    rewrite <- omap_move with (x := x) in Hm'' at 2. rewrite <- omap_split.
    by replace (m + count (k1 ++ Some x :: k2)) with (m + 1 + count (<[length k1 := None]> (k1 ++ Some x :: k2))) by lia. }
  rewrite (places_get tmp k n j Ht) by lia. rewrite bind_Ret.
  destruct (mjoin (k !! j)) as [sw|] eqn:Esw.
  - assert (Hsw : k !! j = Some (Some sw)) by (destruct (k !! j) as [[]|]; cbn in Esw; congruence).
    rewrite (for_entries_places (fun _ => tmp) scan_higher k n) by (done || lia).
    destruct (scan_spec k 0 (-1) (am_priority sw)) as [[Hall ->]|(k1 & x & k2 & Ek & Hx & Hk1 & Hk2 & ->)]; rewrite bind_Ret.
    + change (0 <=? -1) with false. cbv iota.
      destruct (Hmove (take j k) sw (drop (S j) k) (S j)) as (rc & tmp' & rc' & mods & modules' & E1 & E2 & E3 & Hres).
      * by rewrite take_drop_middle.
      * by rewrite omap_none.
      * by apply Forall_drop.
      * pose proof (lookup_lt_Some _ _ _ Hsw). rewrite length_take, Nat.min_l by lia. apply none_next; [by apply none_insert|].
        by rewrite list_lookup_insert_eq.
      * lia.
      * pose proof (lookup_lt_Some _ _ _ Hsw). rewrite length_take, Nat.min_l in E1 by lia. exists modules'.
        rewrite E1, bind_Ret, E2, bind_Ret. by replace (Z.of_nat j + 1) with (Z.of_nat (S j)) by lia.
    + destruct (Z.leb_spec 0 (0 + Z.of_nat (length k1))); [|lia]. rewrite Z.add_0_l.
      rewrite (places_get tmp k n (length k1) Ht) by lia. rewrite bind_Ret.
      assert (k !! length k1 = Some (Some x)) as -> by (by rewrite Ek, lookup_app_r, Nat.sub_diag by lia). cbn [mjoin option_join].
      destruct (Hmove k1 x k2 j Ek Hk1 Hk2 (none_insert _ _ _ Hj) ltac:(lia)) as (rc & tmp' & rc' & mods & modules' & E1 & E2 & E3 & Hres).
      exists modules'. by rewrite E1, bind_Ret, E2, bind_Ret.
  - replace (Z.of_nat j + 1) with (Z.of_nat (S j)) by lia. apply (IH (S j) tmp modules k n done m Ht Hm); try done; [by apply none_next|lia].
Qed.

(** ** Initialization *)
Lemma first_free_full (k : list (option active)) (i : nat) y x : k !! i = Some (Some y) -> first_free (<[i := Some x]> k) = first_free k.
Proof.
  intros Hi. assert (Hne : first_free k <> i).
  { intros E. pose proof (lookup_lt_Some _ _ _ Hi). rewrite <- E, first_free_at in Hi by lia. done. }
  apply first_free_unique.
  - rewrite length_insert. apply first_free_le.
  - intros j Hj. destruct (decide (j = i)) as [->|]; [exists x; apply list_lookup_insert_eq; by apply lookup_lt_Some in Hi|].
    rewrite list_lookup_insert_ne by done. by apply first_free_below.
  - rewrite length_insert, list_lookup_insert_ne by done. apply first_free_at.
Qed.

Lemma overwrite_places t (k : list (option active)) n (i : nat) y x : holds_places t k n -> k !! i = Some (Some y) ->
  holds_places (overwrite t (Z.of_nat i) x) (<[i := Some x]> k) n.
Proof.
  intros (m & [(l & Hr) Hmax] & Hl) Hi. exists (<[i := x]> m). assert (Hli : l !! i = Some (Some y)).
  { pose proof (Hl i) as Hm. rewrite (rep_map _ _ _ _ Hr), Hi in Hm. destruct (l !! i) as [[]|]; cbn in Hm; congruence. }
  pose proof (lookup_lt_Some _ _ _ Hli) as Hlt. split.
  - split; [|done]. exists (<[i := Some x]> l). destruct Hr as [Ha Hm Hs Hf Hlow Hmap Hc Hb].
    split; cbn; rewrite ?length_insert, ?Nat2Z.id, ?(free_count_insert l i _ (Some x) Hli), ?(first_free_full l i y x Hli); try done; try (unfold weight_free; cbn; lia).
    + left. destruct Ha as [[-> Hne]|[_ ->]]; [|done]. cbn. split; [done|]. intros E. apply (f_equal length) in E. rewrite length_insert in E. by destruct l.
    + intros j. destruct (decide (j = i)) as [->|]; [by rewrite lookup_insert_eq, list_lookup_insert_eq|].
      by rewrite lookup_insert_ne, list_lookup_insert_ne.
  - pose proof (lookup_lt_Some _ _ _ Hi). intros j. destruct (decide (j = i)) as [->|]; [by rewrite lookup_insert_eq, list_lookup_insert_eq|].
    by rewrite lookup_insert_ne, list_lookup_insert_ne.
Qed.

Definition collects : bool := is_hnp || is_aggregator.

(** A module that can be dropped can be finalized. *)
Definition closable x : Prop := collects = true \/ is_Some (sm_finalize (am_module x)).

Lemma init_step t (k : list (option active)) n (i : nat) x w : holds_places t k n -> 0 <= n < 2 ^ 29 -> Z.of_nat i < 2 ^ 30 -> k !! i = Some (Some x) -> closable x ->
  exists t', init_module alloc_ok is_hnp is_aggregator (Z.of_nat i) x (t, w) = Ret (inl (t', (initialized collects x w).2)) /\
    holds_places t' (<[i := (initialized collects x w).1]> k) (n + 1) /\ pa_size t' = pa_size t.
Proof.
  intros Ht Hn Hi Hx Hc. unfold init_module, initialized, closable, collects in *.
  assert (Hsame : holds_places t (<[i := Some x]> k) (n + 1)).
  { rewrite list_insert_id by done. destruct Ht as (m & Hr & Hl). exists m. split; [|done]. apply (table_weaken _ _ n); [done|lia]. }
  destruct (sm_init (am_module x)) as [init|]; [|by exists t]. destruct (init w) as [rc w']. destruct (rc =? OPAL_SUCCESS); [by exists t|].
  destruct (is_hnp || is_aggregator) eqn:Ec.
  - eexists. split; [done|]. split; [|done]. cbn [fst].
    destruct (overwrite_places t k n i x (MkActiveSensor (am_component x) (disabled (am_module x)) (am_priority x) false) Ht Hx) as (m & Hr & Hl).
    exists m. split; [|done]. apply (table_weaken _ _ n); [done|lia].
  - destruct Hc as [|[f Hf]]; [congruence|]. rewrite Hf. cbn [deref]. rewrite bind_Ret.
    destruct (places_clear alloc_ok Halloc t k n i Ht Hn Hi) as (rc' & t' & E & Ht'). rewrite E, bind_Ret. exists t'. split_and!; [done|done|].
    pose proof (places_inside t k n i x Ht Hx). apply (clear_size t (Z.of_nat i) rc' t'); [lia|done].
Qed.

Lemma init_modules_spec fuel : forall l (ready : list (option active)) t n w,
  holds_places t (ready ++ map Some l) n -> 0 <= n -> n + Z.of_nat (length l) < 2 ^ 29 -> Z.of_nat (length ready) + Z.of_nat (length l) < 2 ^ 30 -> Forall closable l ->
  pa_size t - Z.of_nat (length ready) <= Z.of_nat fuel ->
  exists t', each_entry fst (init_module alloc_ok is_hnp is_aggregator) fuel (Z.of_nat (length ready)) (t, w) = Ret (t', (init_all collects l w).2) /\
    holds_places t' (ready ++ (init_all collects l w).1) (n + Z.of_nat (length l)).
Proof.
  induction fuel as [|fuel IH]; intros l ready t n w Ht Hn Hn2 Hlen Hc Hfuel.
  all: destruct l as [|x l]; cbn [init_all length] in *;
    [exists t; rewrite Z.add_0_r; split; [|done]; cbn [map] in Ht; rewrite app_nil_r in Ht; by apply (each_entry_rest fst _ ready n (t, w) Ht); [lia| |]|].
  all: assert (Hx : (ready ++ map Some (x :: l)) !! length ready = Some (Some x)) by (by rewrite lookup_app_r, Nat.sub_diag by lia).
  all: pose proof (places_inside t _ n (length ready) x Ht Hx) as Hin.
  { lia. }
  apply Forall_cons_iff in Hc as [Hcx Hc]. cbn [each_entry fst]. destruct (Z.ltb_spec (Z.of_nat (length ready)) (pa_size t)); [|lia].
  rewrite (places_get t _ n _ Ht), Hx by lia. cbn [mjoin option_join]. rewrite bind_Ret.
  destruct (init_step t _ n (length ready) x w Ht ltac:(lia) ltac:(lia) Hx Hcx) as (t' & -> & Ht' & Hs). rewrite bind_Ret.
  destruct (initialized collects x w) as [o w'] eqn:Eo. cbn [fst snd] in *.
  rewrite insert_app_r_alt, Nat.sub_diag in Ht' by lia. cbn [map list_insert insert] in Ht'. rewrite cons_middle, app_assoc in Ht'.
  destruct (IH l (ready ++ [o]) t' (n + 1) w' Ht') as (t'' & E & Ht''); rewrite ?length_app; cbn [length]; [lia|lia|lia|done|lia|].
  rewrite length_app, Nat.add_1_r in E. replace (Z.of_nat (length ready) + 1) with (Z.of_nat (S (length ready))) by lia.
  exists t''. rewrite E. destruct (init_all collects l w') as [os w'']. split; [done|]. cbn [fst] in *. rewrite <- app_assoc in Ht''. cbn [app] in Ht''.
  by replace (n + Z.of_nat (S (length l))) with (n + 1 + Z.of_nat (length l)) by lia.
Qed.

(** ** The selection *)
Lemma map_omap (l : list active) : omap (M := list) id (map Some l) = l.
Proof. induction l as [|x l IH]; [done|]. cbn. by rewrite IH. Qed.

Lemma offered_length (comps : list component) : forall module p (w : W), (length (offered comps module p w).1 <= length comps)%nat.
Proof.
  induction comps as [|c comps IH]; intros module p w; cbn; [done|]. destruct (sc_query c) as [q|]; [|specialize (IH module p w); lia].
  destruct (q (module, p) w) as [[[d|] p'] w']; [|specialize (IH None p' w'); lia]. specialize (IH (Some d) p' w').
  destruct (offered comps (Some d) p' w'). destruct (p' <? 0); cbn in *; lia.
Qed.

Lemma best_length l : (length (best l) <= length l)%nat.
Proof.
  induction l as [|x l IH] using rev_ind; [done|]. unfold best in *. rewrite foldl_app, length_app. cbn.
  pose proof (offer_length x (foldl (fun l x => offer x l) [] l)). lia.
Qed.

Lemma sensor_select_spec (comps : list component) (b : orcm_sensor_base_t W C) w :
  sb_selected b = false -> holds_places (sb_modules b) [] 0 -> Z.of_nat (length comps) < 2 ^ 27 ->
  Forall closable (by_priority (best (offered comps None 0 w).1)) ->
  exists t, orcm_sensor_base_select alloc_ok is_hnp is_aggregator comps b w =
      Ret (OPAL_SUCCESS, set_modules t (set_selected true b), (init_all collects (by_priority (best (offered comps None 0 w).1)) (offered comps None 0 w).2).2) /\
    holds_places t (init_all collects (by_priority (best (offered comps None 0 w).1)) (offered comps None 0 w).2).1 (2 ^ 28).
Proof.
  intros Hsel Hb Hlen Hc. unfold orcm_sensor_base_select. rewrite Hsel.
  destruct (query_components_spec comps None 0 opal_pointer_array_construct true w [] 0) as (tmp & nf & -> & Ht & Hnf); [|lia|lia|constructor|cbn; lia|done|].
  { exists ∅. split; [apply construct_table|done]. }
  rewrite bind_Ret. change (foldl (fun l x => offer x l) [] (offered comps None 0 w).1) with (best (offered comps None 0 w).1) in *.
  pose proof (offered_length comps None 0 w) as Ho. destruct (offered comps None 0 w) as [os w1]. cbn [fst snd] in *. pose proof (best_length os) as Hbl.
  destruct nf.
  { rewrite (proj1 Hnf eq_refl). exists (sb_modules b). split; [by destruct b|]. destruct Hb as (m & Hr & Hl). exists m. split; [|done].
    apply (table_weaken _ _ 0); [done|lia]. }
  assert (Hsize : Z.of_nat (length (best os)) <= pa_size tmp).
  { destruct (last (best os)) as [x|] eqn:El; [|apply last_None in El; rewrite El; cbn; destruct Ht as (m & Hr & _); apply table_size in Hr; lia].
    rewrite last_lookup in El. pose proof (places_inside tmp _ _ (pred (length (best os))) x Ht) as Hin. rewrite list_lookup_fmap, El in Hin.
    specialize (Hin eq_refl). apply lookup_lt_Some in El. lia. }
  destruct (sort_spec (2 * Z.to_nat (pa_size tmp)) 0 tmp (sb_modules b) (map Some (best os)) (0 + 2 * Z.of_nat (length comps)) [] 0) as (modules & Es & Hm);
    rewrite ?map_omap, ?length_map; try done; try lia.
  change (Z.of_nat 0) with 0 in Es. cbn [set_selected sb_modules]. rewrite Es, bind_Ret. rewrite map_omap in Hm. cbn [app] in Hm.
  pose proof (Permutation_length (by_priority_perm (best os))) as Hpl.
  destruct (init_modules_spec (Z.to_nat (pa_size modules)) (by_priority (best os)) [] modules (0 + Z.of_nat (length (best os))) w1) as (t & Ei & Hi);
    [done|lia|rewrite Hpl; lia|rewrite Hpl; cbn; lia|done|destruct Hm as (m & Hr & _); apply table_size in Hr; cbn; lia|].
  change (Z.of_nat (length [])) with 0 in Ei. unfold for_entries. cbn [fst]. rewrite Ei, bind_Ret. exists t. split; [done|]. cbn [app] in Hi.
  destruct Hi as (m & Hr & Hl). exists m. split; [|done]. apply (table_weaken _ _ _ _ Hr). lia.
Qed.
End Tables.

Section Selection.
Context {W C : Type} (alloc_ok : Z -> bool).
Hypothesis Halloc : forall n, alloc_ok n = true.
Variables (is_hnp is_aggregator desc : bool).

Lemma opened_modules config rate : holds_places (sb_modules (orcm_sensor_base_open (W := W) (C := C) alloc_ok desc config rate)) [] 0.
Proof.
  unfold orcm_sensor_base_open. destruct (opal_pointer_array_init (A := orcm_sensor_active_module_t W C) alloc_ok (Some opal_pointer_array_construct) 3 INT_MAX 1) as [rc [t|]] eqn:E.
  - cbn [sb_modules default]. exists ∅. split; [by apply (init_table alloc_ok Halloc t rc)|done].
  - unfold opal_pointer_array_init in E. cbn in E. by rewrite Halloc in E.
Qed.

(** C16: of the modules the components offer, those are chosen that no other offer for the same quantity beats: exactly
    one for each quantity that is offered, and it has the highest priority offered for it.  They are kept in the order of
    descending priority and initialized in this order, each once.  One that fails to initialize is dropped and finalized;
    on a head node or aggregator it stays, without the functions that sample, so that it can still log the data of
    others. *)
Theorem sensor_selection config rate (comps : list (orcm_sensor_base_component_t W C)) os w w1 :
  offered comps None 0 w = (os, w1) -> Z.of_nat (length comps) < 2 ^ 27 ->
  is_hnp || is_aggregator = true \/ Forall (fun x => is_Some (sm_finalize (am_module x))) os ->
  exists chosen t,
    orcm_sensor_base_select alloc_ok is_hnp is_aggregator comps (orcm_sensor_base_open alloc_ok desc config rate) w =
      Ret (OPAL_SUCCESS, set_modules t (set_selected true (orcm_sensor_base_open alloc_ok desc config rate)), (init_all (is_hnp || is_aggregator) chosen w1).2) /\
    (forall i : nat, opal_pointer_array_get_item t (Z.of_nat i) = Ret (mjoin ((init_all (is_hnp || is_aggregator) chosen w1).1 !! i))) /\
    StronglySorted higher chosen /\ NoDup (map quantity chosen) /\ chosen ⊆ os /\ Forall (dominated chosen) os.
Proof.
  intros Ho Hlen Hc. destruct (best_spec os) as (Hn & Hs & Hd). pose proof (by_priority_perm (best os)) as Hp.
  destruct (sensor_select_spec alloc_ok Halloc is_hnp is_aggregator comps (orcm_sensor_base_open alloc_ok desc config rate) w) as (t & Et & Ht); [unfold orcm_sensor_base_open; by destruct (opal_pointer_array_init _ _ _ _ _)|apply (opened_modules config rate)|done| |].
  { rewrite Ho. cbn [fst]. rewrite Hp. apply Forall_forall. intros x Hx. destruct Hc as [Hc|Hc]; [left; exact Hc|right].
    rewrite Forall_forall in Hc. by apply Hc, Hs. }
  rewrite Ho in Et, Ht. cbn [fst snd] in *. exists (by_priority (best os)), t. split_and!.
  - exact Et.
  - intros i. by apply (places_get t _ (2 ^ 28)).
  - apply by_priority_sorted.
  - by rewrite Hp.
  - intros x. rewrite Hp. apply Hs.
  - eapply Forall_impl; [exact Hd|]. intros x (y & Hy & ?). exists y. by rewrite Hp.
Qed.
End Selection.

(** ** An example

    Four components: two for the temperature, one without a module, one whose
    initialization fails. *)
Definition demo_module (id : nat) (rc : Z) : orcm_sensor_base_module_t (list nat) unit :=
  MkSensorModule (Some (fun w => (rc, w ++ [id]))) (Some (fun w => w ++ [(100 + id)%nat])) None None None None None None None None None None None.
Definition demo_sensor (name quantity : string) (m : option (orcm_sensor_base_module_t (list nat) unit)) (priority : Z) : orcm_sensor_base_component_t (list nat) unit :=
  MkSensorComponent (cs name) (cs quantity) (Some (fun _ w => (m, priority, w))).
Definition demo_sensors : list (orcm_sensor_base_component_t (list nat) unit) :=
  [demo_sensor "coretemp" "temperature" (Some (demo_module 1 0)) 50; demo_sensor "componentpower" "power" (Some (demo_module 2 (-1))) 100;
   demo_sensor "mcedata" "errors" None 90; demo_sensor "ipmi" "temperature" (Some (demo_module 3 0)) 60; demo_sensor "heartbeat" "life" (Some (demo_module 4 0)) 5].
Definition demo_config : sensor_config := MkSensorConfig false true false false.

Lemma sensor_selection_witness :
  exists chosen t,
    orcm_sensor_base_select (fun _ => true) false false demo_sensors (orcm_sensor_base_open (fun _ => true) false demo_config 10) [] =
      Ret (OPAL_SUCCESS, set_modules t (set_selected true (orcm_sensor_base_open (fun _ => true) false demo_config 10)), [2; 102; 3; 4]%nat) /\
    map (fun x : orcm_sensor_active_module_t (list nat) unit => sc_name (am_component x)) chosen = [cs "componentpower"; cs "ipmi"; cs "heartbeat"].
Proof.
  destruct (offered demo_sensors None 0 []) as [os w1] eqn:E.
  destruct (sensor_selection (fun _ => true) (fun _ => eq_refl) false false false demo_config 10 demo_sensors os [] w1 E) as (chosen & t & H & _ & Hs & Hn & Hsub & Hd).
  - cbn. lia.
  - right. vm_compute in E. injection E as <- _. repeat constructor; eexists; reflexivity.
  - exists (by_priority (best os)), t. vm_compute in E. injection E as <- <-. split; [|vm_compute; reflexivity].
    rewrite H. f_equal. f_equal.
    match type of H with ?l = _ => assert (match l with Ret (_, _, w) => w | _ => [] end = [2; 102; 3; 4]%nat) as Hw by (vm_compute; reflexivity) end.
    rewrite H in Hw. exact Hw.
Defined.
