(* ===== verification/SensorPack.v ===== *)
(** * Samples as messages ([orcm/mca/sensor/base/sensor_base_fns.c])

    A plugin packs its samples behind a header: its name, the host, the time;
    then a list of values with keys and units.  The receiver reads the name to
    find the plugin, which unpacks the rest.

    A value holds its union as the serializer sees it ([dss_data], one
    element).  A byte object is the exception: the serializer wants a pointer
    to it where the union holds the object itself.  The buffer and the
    pointers for results are not NULL, and allocations of list items succeed. *)

From S2P Require Import Prelude CString Dss DssFormat DssRoundtrip DssClaims DssText DssMessage DssProgress.
From stdpp Require Import base strings numbers list.
From Stdlib Require Import ZArith Lia Ascii.

Open Scope Z_scope.

Record sensor_value : Type := MkSensorValue {
  sv_key : option cstr;
  sv_type : Z;
  sv_data : dss_data;
  sv_units : option cstr
}.

Definition timeval_item (tv : Z * Z) : dss_data * Z := (DTv [(u64 tv.1, u64 tv.2)], OPAL_TIMEVAL).
Definition uint16_item (n : Z) : dss_data * Z := (D16 [n], OPAL_UINT16).

Section Pack.
Variable malloc_ok : Z -> bool.
Variables opal_dss_initial_size opal_dss_threshold_size : Z.
Variable registered : Z -> bool.
Variable other_pack : Z -> opal_buffer_t -> dss_data -> outcome (Z * opal_buffer_t).
Variable other_unpack : Z -> opal_buffer_t -> Z -> Z * option dss_data * opal_buffer_t.

Abbreviation pack := (pack_items malloc_ok opal_dss_initial_size opal_dss_threshold_size registered other_pack).
Abbreviation unpack := (dss_unpack malloc_ok registered other_unpack).
Abbreviation unpack_text := (unpack_string malloc_ok registered other_unpack).

Definition orcm_sensor_pack_data_header (bucket : opal_buffer_t) (primary_key hostname : option cstr) (current_time : option (Z * Z))
    : outcome (Z * opal_buffer_t) :=
  match primary_key, hostname, current_time with
  | Some _, Some _, Some tv => pack bucket [text_item primary_key; text_item hostname; timeval_item tv]
  | _, _, _ => Ret (OPAL_ERR_BAD_PARAM, bucket)
  end.

(** The variable for the host must hold NULL; [current_time] is its value
    before. *)
Definition orcm_sensor_unpack_data_header_from_plugin (bucket : opal_buffer_t) (hostname : option cstr) (current_time : Z * Z)
    : outcome (Z * option cstr * (Z * Z) * opal_buffer_t) :=
  match hostname with
  | Some _ => Ret (OPAL_ERR_BAD_PARAM, hostname, current_time, bucket)
  | None =>
    '(rc, host, _, bucket) ← unpack_text bucket 1 None;
    if negb (rc =? OPAL_SUCCESS) then Ret (rc, None, current_time, bucket)
    else
      let '(rc, d, _, bucket) := unpack bucket 1 OPAL_TIMEVAL in
      let tv := match d with Some (DTv [(s, u)]) => (i64 s, i64 u) | _ => current_time end in
      Ret (rc, if rc =? OPAL_SUCCESS then host else None, tv, bucket)
  end.

Definition orcm_sensor_pack_orcm_value (bucket : opal_buffer_t) (item : option sensor_value) : outcome (Z * opal_buffer_t) :=
  match item with
  | None => Ret (OPAL_ERR_BAD_PARAM, bucket)
  | Some item =>
    let units := Some (default [] (sv_units item)) in
    '(rc, bucket) ← pack bucket [text_item (sv_key item); byte_item (sv_type item)];
    if negb (rc =? OPAL_SUCCESS) then Ret (rc, bucket)
    else if sv_type item =? OPAL_BYTE_OBJECT then Ub
    else pack bucket [(sv_data item, sv_type item); text_item units]
  end.

(** A field the message holds no value for keeps what [OBJ_NEW] left there:
    no key, no units, type undefined and an empty union. *)
Definition orcm_sensor_unpack_orcm_value (bucket : opal_buffer_t) (result : option sensor_value)
    : outcome (Z * option sensor_value * opal_buffer_t) :=
  match result with
  | Some _ => Ret (OPAL_ERR_BAD_PARAM, result, bucket)
  | None =>
    '(rc, key, _, bucket) ← unpack_text bucket 1 None;
    if negb (rc =? OPAL_SUCCESS) then Ret (rc, None, bucket)
    else
      let '(rc, t, _, bucket) := unpack_byte malloc_ok registered other_unpack bucket 1 OPAL_UINT8 in
      if negb (rc =? OPAL_SUCCESS) then Ret (rc, None, bucket)
      else
        let type := default OPAL_UNDEF t in
        let '(rc, d, _, bucket) := unpack bucket 1 type in
        if negb (rc =? OPAL_SUCCESS) then Ret (rc, None, bucket)
        else
          '(rc, units, _, bucket) ← unpack_text bucket 1 None;
          if negb (rc =? OPAL_SUCCESS) then Ret (rc, None, bucket)
          else Ret (OPAL_SUCCESS, Some (MkSensorValue key type (default (D8 []) d) units), bucket)
  end.

(** The size is cut to 16 bits. *)
Definition orcm_sensor_pack_orcm_value_list (bucket : opal_buffer_t) (l : option (list sensor_value)) : outcome (Z * opal_buffer_t) :=
  match l with
  | None => Ret (OPAL_ERR_BAD_PARAM, bucket)
  | Some l =>
    let size := wrap 16 (Z.of_nat (length l)) in
    '(rc, bucket) ← pack bucket [uint16_item size];
    if negb (rc =? OPAL_SUCCESS) then Ret (rc, bucket)
    else pack_each (fun b item => orcm_sensor_pack_orcm_value b (Some item)) bucket l
  end.

(** [for (int16_t i = 0; i < size; ++i)]: the counter wraps. *)
Fixpoint unpack_value_loop (fuel : nat) (i size : Z) (l : list sensor_value) (bucket : opal_buffer_t)
    : outcome (Z * option (list sensor_value) * opal_buffer_t) :=
  if i <? size then
    match fuel with
    | O => Diverge
    | S fuel' =>
      '(rc, item, bucket) ← orcm_sensor_unpack_orcm_value bucket None;
      match item with
      | Some item => if rc =? OPAL_SUCCESS then unpack_value_loop fuel' (sgn 16 (i + 1)) size (l ++ [item]) bucket else Ret (rc, None, bucket)
      | None => Ret (rc, None, bucket)
      end
    end
  else Ret (OPAL_SUCCESS, Some l, bucket).

(** Every value takes at least one byte, which bounds the loop. *)
Definition orcm_sensor_unpack_orcm_value_list (bucket : opal_buffer_t) (old : option (list sensor_value))
    : outcome (Z * option (list sensor_value) * opal_buffer_t) :=
  match old with
  | Some _ => Ret (OPAL_ERR_BAD_PARAM, old, bucket)
  | None =>
    let '(rc, d, _, bucket) := unpack bucket 1 OPAL_UINT16 in
    if negb (rc =? OPAL_SUCCESS) then Ret (rc, None, bucket)
    else
      match d with
      | Some (D16 [size]) => unpack_value_loop (S (length (b_data bucket))) 0 size [] bucket
      | _ => Ub
      end
  end.
End Pack.
