(* ===== verification/SensorPackClaims.v ===== *)
(** * Samples arrive as they were packed, up to the width of a counter

    [sensor_sample_wire]: header and values arrive, but of a list only as
    many values as the lower 16 bits of its length say, and none if that is
    more than an [int16_t] counts to.  [sensor_unpack_terminates]: reading a
    list ends for every message. *)

From S2P Require Import Prelude CString Dss DssFormat DssRoundtrip DssClaims DssText DssMessage DssProgress SensorPack.
From stdpp Require Import base strings numbers list.
From Stdlib Require Import ZArith Lia Ascii.

Open Scope Z_scope.

Section Wire.
Context (malloc_ok : Z -> bool) (initial threshold : Z) (registered : Z -> bool).
Context (other_pack : Z -> opal_buffer_t -> dss_data -> outcome (Z * opal_buffer_t)).
Context (other_unpack : Z -> opal_buffer_t -> Z -> Z * option dss_data * opal_buffer_t).
Hypothesis Hmalloc : forall n, malloc_ok n = true.

Abbreviation item_ok := (item_ok registered).
Abbreviation enc_item := (enc_item registered).
Abbreviation packed := (packed malloc_ok initial threshold registered other_pack).
Abbreviation pack_value := (orcm_sensor_pack_orcm_value malloc_ok initial threshold registered other_pack).
Abbreviation pack_list := (orcm_sensor_pack_orcm_value_list malloc_ok initial threshold registered other_pack).
Abbreviation unpack_value := (orcm_sensor_unpack_orcm_value malloc_ok registered other_unpack).
Abbreviation unpack_list := (orcm_sensor_unpack_orcm_value_list malloc_ok registered other_unpack).
Abbreviation values := (unpack_value_loop malloc_ok registered other_unpack).

(** A value of a type of the serializer, other than a byte object. *)
Record value_ok (v : sensor_value) : Prop := {
  vo_key : cstr_ok (sv_key v);
  vo_type : 0 <= sv_type v < 256 /\ sv_type v <> OPAL_BYTE_OBJECT;
  vo_data : item_ok (sv_data v, sv_type v) /\ data_length (sv_data v) = 1%nat;
  vo_units : cstr_ok (sv_units v)
}.

Definition units_of (v : sensor_value) : option cstr := Some (default [] (sv_units v)).

Definition value_items (v : sensor_value) : list (dss_data * Z) :=
  [text_item (sv_key v); byte_item (sv_type v); (sv_data v, sv_type v); text_item (units_of v)].

Definition list_items (l : list sensor_value) : list (dss_data * Z) := l ≫= value_items.

Lemma list_items_cons v l : list_items (v :: l) = value_items v ++ list_items l.
Proof. reflexivity. Qed.

(** The value the receiver gets: strings end at their terminator, and the
    units are never missing. *)
Definition read_back (v : sensor_value) : sensor_value := MkSensorValue (sv_key v) (sv_type v) (canon (sv_data v)) (units_of v).

Lemma units_ok v : value_ok v -> cstr_ok (units_of v).
Proof. intros [_ _ _ H]. unfold units_of. by destruct (sv_units v). Qed.

Lemma value_items_ok v : value_ok v -> Forall item_ok (value_items v).
Proof.
  intros Hv. pose proof (units_ok v Hv). destruct Hv as [Hk [Ht _] [Hd _] _].
  repeat (apply Forall_cons; split); [by apply text_item_ok|by apply byte_item_ok|done|by apply text_item_ok|constructor].
Qed.

(** ** Packing *)
Lemma value_packed b v b' : sv_type v <> OPAL_BYTE_OBJECT -> packed b (value_items v) b' -> pack_value b (Some v) = Ret (OPAL_SUCCESS, b').
Proof.
  intros Ht Hp. change (value_items v) with ([text_item (sv_key v); byte_item (sv_type v)] ++ [(sv_data v, sv_type v); text_item (units_of v)]) in Hp.
  apply packed_app in Hp as (b1 & H1 & H2). unfold orcm_sensor_pack_orcm_value.
  rewrite (pack_items_packed _ _ _ _ _ _ _ _ H1), bind_Ret. cbn [negb Z.eqb OPAL_SUCCESS].
  destruct (Z.eqb_spec (sv_type v) OPAL_BYTE_OBJECT); [done|]. exact (pack_items_packed _ _ _ _ _ _ _ _ H2).
Qed.

Lemma list_packed b l b' : Forall value_ok l -> packed b (uint16_item (wrap 16 (Z.of_nat (length l))) :: list_items l) b' ->
  pack_list b (Some l) = Ret (OPAL_SUCCESS, b').
Proof.
  intros Hl Hp. apply packed_cons in Hp as (b1 & E & Hp). unfold orcm_sensor_pack_orcm_value_list. cbn [pack_items].
  rewrite E, !bind_Ret. cbn [negb Z.eqb OPAL_SUCCESS]. rewrite bind_Ret. cbn [negb Z.eqb OPAL_SUCCESS].
  clear E. revert b1 Hp. induction Hl as [|v l Hv _ IH]; intros b1 Hp; [by apply packed_nil in Hp as ->|].
  rewrite list_items_cons in Hp. apply packed_app in Hp as (b2 & H1 & H2). cbn [pack_each].
  rewrite (value_packed b1 v b2), bind_Ret; [|apply Hv|done]. cbn [negb Z.eqb OPAL_SUCCESS]. by apply IH.
Qed.

(** ** Unpacking *)
Lemma value_read desc b v rest : value_ok v -> holds desc b ((value_items v ≫= enc_item desc) ++ rest) ->
  exists b', unpack_value b None = Ret (OPAL_SUCCESS, Some (read_back v), b') /\ holds desc b' rest.
Proof.
  intros Hv Hb. pose proof (units_ok v Hv) as Hu. destruct Hv as [Hk [Ht _] [Hd Hlen] _]. unfold value_items in Hb.
  rewrite !bind_cons, <- !app_assoc in Hb. cbn [mbind list_bind app] in Hb. unfold orcm_sensor_unpack_orcm_value.
  destruct (text_holds malloc_ok registered other_unpack Hmalloc desc b (sv_key v) None _ Hk Hb) as (b1 & -> & H1). rewrite bind_Ret. cbn [negb Z.eqb OPAL_SUCCESS].
  destruct (unpack_byte_holds malloc_ok registered other_unpack Hmalloc desc b1 (sv_type v) OPAL_UINT8 _ (byte_item_ok registered _ Ht) H1) as (b2 & -> & H2).
  cbn [negb Z.eqb OPAL_SUCCESS]. cbv zeta. change (default OPAL_UNDEF (Some (sv_type v))) with (sv_type v).
  destruct (unpack_holds malloc_ok registered other_unpack Hmalloc desc b2 _ _ Hd Hlen H2) as (b3 & E3 & H3). cbn [snd fst] in E3. rewrite E3.
  cbn [negb Z.eqb OPAL_SUCCESS].
  destruct (text_holds malloc_ok registered other_unpack Hmalloc desc b3 (units_of v) None _ Hu H3) as (b4 & -> & H4). rewrite bind_Ret.
  cbn [negb Z.eqb OPAL_SUCCESS]. by exists b4.
Qed.

(** At the end of the message there is no further value. *)
Lemma value_past_end desc b : holds desc b [] -> exists b', unpack_value b None = Ret (OPAL_ERR_UNPACK_READ_PAST_END_OF_BUFFER, None, b').
Proof.
  intros (Hr & Hu & _). unfold orcm_sensor_unpack_orcm_value, unpack_string, dss_unpack.
  assert (Hp : past_end (opal_dss_unpack malloc_ok registered other_unpack b 1 OPAL_STRING)).
  { refine (codec_short desc _ _ _ (codec_item malloc_ok registered other_unpack Hmalloc desc (text_item None) 1 _ _ _) b
      (enc_item desc (text_item None)) _ Hr _ _); [by apply text_item_ok|lia|cbn; lia|by destruct desc|by rewrite Hu|apply enc_item_nonempty]. }
  destruct Hp as (b' & ->). rewrite bind_Ret. by exists b'.
Qed.

Lemma value_bytes desc v : value_items v ≫= enc_item desc <> [].
Proof.
  unfold value_items. rewrite bind_cons. intros E. apply app_eq_nil in E as [E _]. by apply enc_item_nonempty in E.
Qed.

Lemma values_length desc (l : list sensor_value) : (length l <= length (list_items l ≫= enc_item desc))%nat.
Proof.
  induction l as [|v l IH]; [done|]. rewrite list_items_cons, bind_app, length_app. cbn [length].
  pose proof (value_bytes desc v). destruct (value_items v ≫= enc_item desc) eqn:E; [done|]. cbn [length]. lia.
Qed.

(** The counter reaches the size. *)
Lemma values_counted desc fuel i size l acc b rest :
  Forall value_ok l -> holds desc b ((list_items l ≫= enc_item desc) ++ rest) ->
  0 <= i <= size -> size < 2 ^ 15 -> size - i <= Z.of_nat (length l) -> (length l <= fuel)%nat ->
  exists b', values fuel i size acc b = Ret (OPAL_SUCCESS, Some (acc ++ (read_back <$> take (Z.to_nat (size - i)) l)), b').
Proof.
  intros Hl. revert fuel i acc b. induction Hl as [|v l Hv _ IH]; intros fuel i acc b Hb Hi Hs Hn Hf.
  - cbn in Hn. exists b. assert (i = size) as -> by lia. rewrite take_nil, app_nil_r. by destruct fuel; cbn; rewrite Z.ltb_irrefl.
  - destruct (decide (i = size)) as [->|Hne].
    { exists b. rewrite Z.sub_diag. cbn [Z.to_nat take fmap list_fmap]. rewrite app_nil_r. by destruct fuel; cbn; rewrite Z.ltb_irrefl. }
    destruct fuel as [|fuel]; [cbn in Hf; lia|]. cbn [unpack_value_loop]. rewrite (proj2 (Z.ltb_lt i size)) by lia.
    rewrite list_items_cons, bind_app, <- app_assoc in Hb. destruct (value_read desc b v _ Hv Hb) as (b1 & -> & H1). rewrite bind_Ret.
    cbn [Z.eqb OPAL_SUCCESS]. rewrite sgn_small by lia. cbn [length] in *.
    destruct (IH fuel (i + 1) (acc ++ [read_back v]) b1 H1) as (b' & E); [lia..|]. exists b'. rewrite E.
    replace (Z.to_nat (size - i)) with (S (Z.to_nat (size - (i + 1)))) by lia. cbn [take fmap list_fmap]. by rewrite <- app_assoc.
Qed.

(** The counter never reaches the size. *)
Lemma values_uncounted desc fuel i size l acc b :
  Forall value_ok l -> holds desc b (list_items l ≫= enc_item desc) -> - 2 ^ 15 <= i < 2 ^ 15 -> 2 ^ 15 <= size ->
  (length l < fuel)%nat -> exists b', values fuel i size acc b = Ret (OPAL_ERR_UNPACK_READ_PAST_END_OF_BUFFER, None, b').
Proof.
  intros Hl. revert fuel i acc b. induction Hl as [|v l Hv _ IH]; intros fuel i acc b Hb Hi Hs Hf; (destruct fuel as [|fuel]; [lia|]);
    cbn [unpack_value_loop]; rewrite (proj2 (Z.ltb_lt i size)) by lia.
  - destruct (value_past_end desc b Hb) as (b' & ->). rewrite bind_Ret. by exists b'.
  - rewrite list_items_cons, bind_app in Hb. destruct (value_read desc b v _ Hv Hb) as (b1 & -> & H1). rewrite bind_Ret.
    cbn [Z.eqb OPAL_SUCCESS]. apply IH; [done|exact (sgn_range 16 (i + 1) ltac:(lia))|done|cbn in Hf; lia].
Qed.

Lemma uint16_item_ok n : 0 <= n < 2 ^ 16 -> item_ok (uint16_item n).
Proof. intros Hn. split; [done|]. cbn. apply Forall_singleton. unfold fits. cbn. lia. Qed.

Lemma timeval_item_ok tv : item_ok (timeval_item tv).
Proof. split; [done|]. cbn. apply Forall_singleton. split; apply fits_u64. Qed.

Lemma unread_bound desc b bs : holds desc b bs -> (length bs <= length (b_data b))%nat.
Proof. intros (_ & <- & _). unfold unread. rewrite length_drop. lia. Qed.

(** A list of any length, at the end of a message. *)
Lemma list_read desc b l : Forall value_ok l -> holds desc b ((uint16_item (wrap 16 (Z.of_nat (length l))) :: list_items l) ≫= enc_item desc) ->
  exists b', unpack_list b None =
    let n := Z.of_nat (length l) mod 2 ^ 16 in
    Ret (if n <? 2 ^ 15 then (OPAL_SUCCESS, Some (read_back <$> take (Z.to_nat n) l), b')
         else (OPAL_ERR_UNPACK_READ_PAST_END_OF_BUFFER, None, b')).
Proof.
  intros Hl Hb. rewrite bind_cons in Hb. set (n := wrap 16 (Z.of_nat (length l))) in *.
  assert (Hn : 0 <= n < 2 ^ 16) by exact (wrap_range 16 _ ltac:(lia)).
  assert (Hle : n <= Z.of_nat (length l)) by (apply Z.mod_le; lia).
  destruct (unpack_holds malloc_ok registered other_unpack Hmalloc desc b (uint16_item n) _ (uint16_item_ok n Hn) eq_refl Hb) as (b1 & E & H1).
  unfold orcm_sensor_unpack_orcm_value_list. cbn [uint16_item snd fst] in E. rewrite E. cbn [negb Z.eqb OPAL_SUCCESS canon].
  pose proof (unread_bound desc b1 _ H1) as Hd. pose proof (values_length desc l) as Hv.
  change (Z.of_nat (length l) mod 2 ^ 16) with n. cbv zeta. destruct (Z.ltb_spec n (2 ^ 15)).
  - rewrite <- (app_nil_r (list_items l ≫= _)) in H1.
    destruct (values_counted desc (S (length (b_data b1))) 0 n l [] b1 [] Hl H1) as (b' & ->); [lia..|].
    exists b'. by rewrite Z.sub_0_r.
  - destruct (values_uncounted desc (S (length (b_data b1))) 0 n l [] b1 Hl H1) as (b' & ->); [lia..|]. by exists b'.
Qed.

Context (desc : bool).
Hypothesis Hinitial : 0 < initial < 2 ^ 31.
Hypothesis Hthreshold : 0 < threshold < 2 ^ 31.

Definition bucket_items (plugin host : cstr) (tv : Z * Z) (l : list sensor_value) : list (dss_data * Z) :=
  text_item (Some plugin) :: text_item (Some host) :: timeval_item tv :: uint16_item (wrap 16 (Z.of_nat (length l))) :: list_items l.

(** The bucket of a plugin: header and values. *)
Definition pack_sample (plugin host : cstr) (tv : Z * Z) (l : list sensor_value) : outcome (Z * opal_buffer_t) :=
  pack_then (orcm_sensor_pack_data_header malloc_ok initial threshold registered other_pack (opal_buffer_construct desc) (Some plugin) (Some host) (Some tv))
    (fun b => pack_list b (Some l)).

(** What the receiver gets: the name of the plugin, the host, the time and
    the values. *)
Definition unpack_sample (b : opal_buffer_t) : outcome (option cstr * option cstr * (Z * Z) * (Z * option (list sensor_value))) :=
  '(_, plugin, _, b) ← unpack_string malloc_ok registered other_unpack b 1 None;
  '(_, host, tv, b) ← orcm_sensor_unpack_data_header_from_plugin malloc_ok registered other_unpack b None (0, 0);
  '(rc, l, b) ← unpack_list b None;
  Ret (plugin, host, tv, (rc, l)).

Lemma bucket_items_ok plugin host tv l : cstr_ok (Some plugin) -> cstr_ok (Some host) -> Forall value_ok l -> Forall item_ok (bucket_items plugin host tv l).
Proof.
  intros Hp Hh Hl. unfold bucket_items. repeat (apply Forall_cons; split); [by apply text_item_ok|by apply text_item_ok|apply timeval_item_ok| |].
  - apply uint16_item_ok. exact (wrap_range 16 _ ltac:(lia)).
  - induction Hl as [|v l Hv _ IH]; [constructor|]. rewrite list_items_cons. apply Forall_app_2; [by apply value_items_ok|done].
Qed.

(** C25: a sample arrives as its plugin packed it: name of the plugin, host, time, and a list of up to 32767 values with
    their keys, types and units (no unit arrives as an empty one).  The length travels in 16 bits: of a longer list as
    many values arrive as its length modulo 65536 says, as long as that is at most 32767; otherwise the counter of the
    receiver wraps, it reads to the end of the message and reports an error.  The values are single values of the
    integer types, texts, time values and process names: floats and doubles, which travel as rounded decimal text, and
    byte objects are left out; the message has at most 2^31-1 bytes, the most its length can count. *)
Theorem sensor_sample_wire plugin host tv l :
  cstr_ok (Some plugin) -> cstr_ok (Some host) -> int64 tv.1 -> int64 tv.2 -> Forall value_ok l ->
  fits_message registered desc (bucket_items plugin host tv l) ->
  let n := Z.of_nat (length l) mod 65536 in
  exists b, pack_sample plugin host tv l = Ret (OPAL_SUCCESS, b) /\
    (rb ← deliver desc b; unpack_sample rb) =
      Ret (Some plugin, Some host, tv,
           if n <=? 32767 then (OPAL_SUCCESS, Some (read_back <$> take (Z.to_nat n) l)) else (OPAL_ERR_UNPACK_READ_PAST_END_OF_BUFFER, None)).
Proof.
  intros Hp Hh Hs Hu Hl Hsz n.
  destruct (fresh_delivered malloc_ok initial threshold registered other_pack Hmalloc desc Hinitial Hthreshold _ _
    (bucket_items_ok plugin host tv l Hp Hh Hl) Hsz) as (b & Hpk & rb & Hrb & Hb). exists b. split.
  - change (text_item (Some plugin) :: text_item (Some host) :: timeval_item tv :: uint16_item (wrap 16 (Z.of_nat (length l))) :: list_items l) with
      ([text_item (Some plugin); text_item (Some host); timeval_item tv] ++ (uint16_item (wrap 16 (Z.of_nat (length l))) :: list_items l)) in Hpk.
    apply packed_app in Hpk as (b1 & H1 & H2). unfold pack_sample, pack_then, orcm_sensor_pack_data_header.
    rewrite (pack_items_packed _ _ _ _ _ _ _ _ H1), bind_Ret. by apply list_packed.
  - rewrite Hrb, bind_Ret. rewrite !bind_cons in Hb. unfold unpack_sample.
    destruct (text_holds malloc_ok registered other_unpack Hmalloc desc _ (Some plugin) None _ Hp Hb) as (b1 & -> & H1). rewrite bind_Ret.
    unfold orcm_sensor_unpack_data_header_from_plugin.
    destruct (text_holds malloc_ok registered other_unpack Hmalloc desc b1 (Some host) None _ Hh H1) as (b2 & -> & H2). rewrite bind_Ret.
    cbn [negb Z.eqb OPAL_SUCCESS].
    destruct (unpack_holds malloc_ok registered other_unpack Hmalloc desc b2 (timeval_item tv) _ (timeval_item_ok tv) eq_refl H2) as (b3 & E3 & H3).
    cbn [timeval_item snd fst] in E3. rewrite E3, bind_Ret. cbn [canon Z.eqb OPAL_SUCCESS].
    rewrite <- bind_cons in H3. destruct (list_read desc b3 l Hl H3) as (b4 & ->). rewrite bind_Ret. rewrite !i64_u64 by done.
    change (2 ^ 16) with 65536. fold n. destruct (Z.ltb_spec n (2 ^ 15)), (Z.leb_spec n 32767); try lia; by destruct tv.
Qed.
End Wire.

(** ** Every list ends *)
Section Ends.
Context (malloc_ok : Z -> bool) (registered : Z -> bool).
Context (other_unpack : Z -> opal_buffer_t -> Z -> Z * option dss_data * opal_buffer_t).
Hypothesis Hother : forall t n, forward (fun b => other_unpack t b n).

Abbreviation unpack_value := (orcm_sensor_unpack_orcm_value malloc_ok registered other_unpack).

(** A call that succeeds has read something. *)
Definition advances (b b' : opal_buffer_t) : Prop := read_on b b' /\ (b_unpack b < b_unpack b')%nat.

Lemma advances_trans b1 b2 b3 : advances b1 b2 -> advances b2 b3 -> advances b1 b3.
Proof. intros [H1 L1] [H2 L2]. split; [by etrans|lia]. Qed.

Lemma call_advances b n type d cnt b' : inside b ->
  dss_unpack malloc_ok registered other_unpack b n type = (OPAL_SUCCESS, d, cnt, b') -> advances b b'.
Proof.
  intros Hb E. unfold dss_unpack in E.
  pose proof (fw_read (forward_unpack malloc_ok registered other_unpack Hother n type) b Hb) as Hr.
  pose proof (unpack_advances malloc_ok registered other_unpack Hother b n type Hb) as Ha. cbn beta in Hr.
  destruct (opal_dss_unpack _ _ _ b n type) as [[rc o] b1]. injection E as -> -> _ ->. split; [exact Hr|by apply Ha].
Qed.

Lemma text_advances b n old s cnt b' : inside b ->
  unpack_string malloc_ok registered other_unpack b n old = Ret (OPAL_SUCCESS, s, cnt, b') -> advances b b'.
Proof.
  intros Hb. unfold unpack_string. destruct (dss_unpack _ _ _ b n OPAL_STRING) as [[[rc d] cnt1] b1] eqn:E.
  intros H. assert (rc = OPAL_SUCCESS /\ b1 = b') as [-> ->].
  { destruct d as [[| | | |[|[a|] []]| | |]|]; try (by injection H as -> _ _ ->). destruct (c_strlen a); [by injection H as -> _ _ ->|done]. }
  by apply (call_advances b n OPAL_STRING d cnt1).
Qed.

Lemma text_returns b n old : unpack_string malloc_ok registered other_unpack b n old <> Diverge.
Proof.
  unfold unpack_string. destruct (dss_unpack _ _ _ b n OPAL_STRING) as [[[rc d] cnt] b1].
  destruct d as [[| | | |[|[a|] []]| | |]|]; try done. by destruct (c_strlen a).
Qed.

Lemma byte_advances b n type z cnt b' : inside b ->
  unpack_byte malloc_ok registered other_unpack b n type = (OPAL_SUCCESS, z, cnt, b') -> advances b b'.
Proof.
  intros Hb. unfold unpack_byte. destruct (dss_unpack _ _ _ b n type) as [[[rc d] cnt1] b1] eqn:E. intros [= -> _ _ ->].
  by apply (call_advances b n type d cnt1).
Qed.

Lemma value_advances b v b' : inside b -> unpack_value b None = Ret (OPAL_SUCCESS, Some v, b') -> advances b b'.
Proof.
  intros Hb H. unfold orcm_sensor_unpack_orcm_value in H. apply bind_Ret_inv in H as ([[[rc key] cnt] b1] & E1 & H). cbn beta iota in H.
  destruct (Z.eqb_spec rc OPAL_SUCCESS) as [->|]; [|by injection H]. cbn [negb] in H. apply text_advances in E1; [|done].
  destruct (unpack_byte _ _ _ b1 1 OPAL_UINT8) as [[[rc t] cnt2] b2] eqn:E2. destruct (Z.eqb_spec rc OPAL_SUCCESS) as [->|]; [|by injection H].
  cbn [negb] in H. apply byte_advances in E2; [|apply E1].
  destruct (dss_unpack _ _ _ b2 1 _) as [[[rc d] cnt3] b3] eqn:E3. destruct (Z.eqb_spec rc OPAL_SUCCESS) as [->|]; [|by injection H].
  cbn [negb] in H. apply call_advances in E3; [|apply E2].
  apply bind_Ret_inv in H as ([[[rc units] cnt4] b4] & E4 & H). cbn beta iota in H.
  destruct (Z.eqb_spec rc OPAL_SUCCESS) as [->|]; [|by injection H]. cbn [negb] in H. apply text_advances in E4; [|apply E3].
  injection H as _ <-. eapply advances_trans; [exact E1|]. eapply advances_trans; [exact E2|]. by eapply advances_trans.
Qed.

Lemma value_returns b old : unpack_value b old <> Diverge.
Proof.
  unfold orcm_sensor_unpack_orcm_value. destruct old; [done|].
  pose proof (text_returns b 1 None). destruct (unpack_string _ _ _ b 1 None) as [[[[rc key] cnt] b1]| |]; [|done|done]. rewrite bind_Ret.
  destruct (negb _); [done|]. destruct (unpack_byte _ _ _ b1 1 OPAL_UINT8) as [[[rc2 t] cnt2] b2]. destruct (negb _); [done|].
  destruct (dss_unpack _ _ _ b2 1 _) as [[[rc3 d] cnt3] b3]. destruct (negb _); [done|].
  pose proof (text_returns b3 1 None). destruct (unpack_string _ _ _ b3 1 None) as [[[[rc4 units] cnt4] b4]| |]; [|done|done]. rewrite bind_Ret.
  by destruct (negb _).
Qed.

Lemma values_end fuel i size l b : inside b -> (length (b_data b) - b_unpack b < fuel)%nat ->
  unpack_value_loop malloc_ok registered other_unpack fuel i size l b <> Diverge.
Proof.
  revert i l b. induction fuel as [|fuel IH]; intros i l b Hb Hf; [lia|]. cbn [unpack_value_loop]. destruct (i <? size); [|done].
  pose proof (value_returns b None) as Hd. pose proof (fun v b' => value_advances b v b' Hb) as Ha.
  destruct (unpack_value b None) as [[[rc [v|]] b1]| |]; [|done|done|done]. rewrite bind_Ret.
  destruct (Z.eqb_spec rc OPAL_SUCCESS) as [->|]; [|done]. destruct (Ha v b1 eq_refl) as [[Hdata _ _ Hin] Hlt].
  apply IH; [done|]. rewrite Hdata. unfold inside in *. rewrite Hdata in Hin. lia.
Qed.

(** C38: reading a list of values comes to an end for every message, also for those with a size the counter of the
    loop never reaches: every value takes some bytes of the message. *)
Theorem sensor_unpack_terminates b old : inside b -> orcm_sensor_unpack_orcm_value_list malloc_ok registered other_unpack b old <> Diverge.
Proof.
  intros Hb. unfold orcm_sensor_unpack_orcm_value_list. destruct old; [done|].
  pose proof (fun d cnt b' => call_advances b 1 OPAL_UINT16 d cnt b' Hb) as Ha.
  destruct (dss_unpack _ _ _ b 1 OPAL_UINT16) as [[[rc d] cnt] b1]. destruct (Z.eqb_spec rc OPAL_SUCCESS) as [->|]; [|done]. cbn [negb].
  destruct (Ha d cnt b1 eq_refl) as [Hr _]. destruct d as [[|[|size []]| | | | | |]|]; try done.
  apply values_end; [apply Hr|lia].
Qed.
End Ends.

(** ** Examples *)
Definition demo_value (k : string) (z : Z) : sensor_value := MkSensorValue (Some (cs k)) OPAL_INT32 (D32 [z]) None.

Lemma demo_value_ok k z : 0 <= z < 2 ^ 32 -> forallb (fun c => negb (Ascii.eqb c zero)) (cs k) = true -> Z.of_nat (length (cs k)) < INT_MAX ->
  value_ok (fun _ => false) (demo_value k z).
Proof.
  intros Hz Hk Hl. split; cbn; [by apply cstr_ok_cs|split; [unfold OPAL_INT32; lia|done]| |done]. split; [|done]. split; [done|]. cbn.
  apply Forall_singleton. unfold fits. cbn. lia.
Qed.

Lemma sensor_sample_wire_witness :
  exists b, pack_sample (fun _ => true) 128 1024 (fun _ => false) no_pack false (cs "coretemp") (cs "n1") (5, 7) [demo_value "core 0" 41; demo_value "core 1" 43] =
      Ret (OPAL_SUCCESS, b) /\
    (rb ← deliver false b; unpack_sample (fun _ => true) (fun _ => false) no_unpack rb) =
      Ret (Some (cs "coretemp"), Some (cs "n1"), (5, 7),
           (OPAL_SUCCESS, Some [MkSensorValue (Some (cs "core 0")) OPAL_INT32 (D32 [41]) (Some []); MkSensorValue (Some (cs "core 1")) OPAL_INT32 (D32 [43]) (Some [])])).
Proof.
  apply (sensor_sample_wire (fun _ => true) 128 1024 (fun _ => false) no_pack no_unpack (fun _ => eq_refl) false ltac:(lia) ltac:(lia)
    (cs "coretemp") (cs "n1") (5, 7) [demo_value "core 0" 41; demo_value "core 1" 43]).
  - by apply cstr_ok_cs.
  - by apply cstr_ok_cs.
  - unfold int64, LONG_MIN, LONG_MAX. cbn. lia.
  - unfold int64, LONG_MIN, LONG_MAX. cbn. lia.
  - repeat (apply Forall_cons; split; [apply demo_value_ok; [lia|done|by vm_compute]|]). constructor.
  - vm_compute. discriminate.
Defined.

Lemma sensor_unpack_terminates_witness :
  orcm_sensor_unpack_orcm_value_list (fun _ => true) (fun _ => false) no_unpack (loaded false [0; 0; 0; 1; 255; 255]) None <> Diverge.
Proof.
  apply (sensor_unpack_terminates (fun _ => true) (fun _ => false) no_unpack); [|cbn; unfold inside; cbn; lia].
  intros t n. split; [|done]. intros b Hb. by apply read_on_refl.
Defined.
