(* ===== verification/AnalyticsWindow.v ===== *)
(** * The window plugin ([orcm/mca/analytics/window/analytics_window.c])

    The plugin groups the samples of a workflow step into windows, by time or
    by count, and passes one number per window to the next step.  The state
    of the module is [win_statistics_t]; [analyze] is given it as the
    module's data store and returns it with the return code, the events
    handed to the dispatch framework and what the next step is activated
    with.

    [pow2] is [pow(x, 2)] of the mathematics library, [now] the clock. *)

From S2P Require Import Prelude CString Dss DssValue Float64 OrcmUtil AnalyticsBase.
From stdpp Require Import base strings list.
From Stdlib Require Import ZArith Lia Ascii.

Open Scope Z_scope.

Record win_statistics_t : Type := MkWin {
  win_size : Z;
  win_left : Z;
  win_right : Z;
  num_sample_recv : Z;
  num_data_point : Z;
  sum_min_max : double;
  sum_square : double;
  compute_type : option cstr;
  win_type : option cstr
}.

Definition win_statistics_con : win_statistics_t := MkWin 0 0 0 0 0 d0 d0 None None.

(** What the next workflow step is activated with: the hash key and the value. *)
Definition activation_t : Type := Z * orcm_analytics_value_t.

Definition analyzed (S : Type) : Type := Z * S * list orcm_ras_event_t * option activation_t.

Definition with_bounds (left right : Z) (w : win_statistics_t) : win_statistics_t :=
  MkWin (win_size w) left right (num_sample_recv w) (num_data_point w) (sum_min_max w) (sum_square w)
    (compute_type w) (win_type w).
Definition with_sums (sum square : double) (w : win_statistics_t) : win_statistics_t :=
  MkWin (win_size w) (win_left w) (win_right w) (num_sample_recv w) (num_data_point w) sum square
    (compute_type w) (win_type w).
Definition with_counts (samples points : Z) (w : win_statistics_t) : win_statistics_t :=
  MkWin (win_size w) (win_left w) (win_right w) samples points (sum_min_max w) (sum_square w)
    (compute_type w) (win_type w).
Definition with_config (size : Z) (ct wt : option cstr) (w : win_statistics_t) : win_statistics_t :=
  MkWin size (win_left w) (win_right w) (num_sample_recv w) (num_data_point w) (sum_min_max w)
    (sum_square w) ct wt.

Section Window.
Variable pow2 : double -> double.

Definition reset_window (w : win_statistics_t) (left incre : Z) : outcome win_statistics_t :=
  ct ← deref (compute_type w);
  let sum := if starts_with (cs "min") ct then DBL_MAX
             else if starts_with (cs "max") ct then DBL_MIN
             else d0 in
  Ret (with_sums sum d0 (with_counts 0 0 (with_bounds left (u64 (left + incre)) w))).

Definition known_win_type (wt : cstr) : bool := starts_with (cs "time") wt || starts_with (cs "counter") wt.
Definition known_compute_type (ct : cstr) : bool :=
  starts_with (cs "average") ct || starts_with (cs "min") ct || starts_with (cs "max") ct ||
  starts_with (cs "sd") ct.

Definition fill_win_statistics (w : win_statistics_t) : outcome (Z * win_statistics_t) :=
  if win_size w <=? 0 then Ret (OPAL_ERR_BAD_PARAM, w)
  else
    let wt := default (cs "time") (win_type w) in
    if negb (known_win_type wt) then Ret (OPAL_ERR_BAD_PARAM, w)
    else
      let w := with_config (win_size w) (compute_type w) (Some wt) w in
      match compute_type w with
      | Some ct =>
        if negb (known_compute_type ct) then Ret (OPAL_ERR_BAD_PARAM, w)
        else
          w ← (if starts_with (cs "time") wt then reset_window w 0 0 else reset_window w 0 (win_size w));
          Ret (OPAL_SUCCESS, w)
      | None => Ret (OPAL_ERR_BAD_PARAM, w)
      end.

Fixpoint read_attributes (w : win_statistics_t) (attributes : list orcm_value_t)
    : outcome (Z * win_statistics_t) :=
  match attributes with
  | [] => Ret (OPAL_SUCCESS, w)
  | a :: attributes' =>
    match ov_key a with
    | None => Ret (OPAL_ERR_BAD_PARAM, w)
    | Some k =>
      if is_null (data_string a) then Ret (OPAL_ERR_BAD_PARAM, w)
      else if strcmp0 k (cs "win_size") then
        s ← deref_string (data_string a);
        size ← orcm_util_get_time_in_sec (Some s);
        read_attributes (with_config size (compute_type w) (win_type w) w) attributes'
      else if strcmp0 k (cs "compute") then
        match compute_type w with
        | Some _ => read_attributes w attributes'
        | None =>
          s ← deref_string (data_string a);
          read_attributes (with_config (win_size w) (Some s) (win_type w) w) attributes'
        end
      else if strcmp0 k (cs "type") then
        match win_type w with
        | Some _ => read_attributes w attributes'
        | None =>
          s ← deref_string (data_string a);
          read_attributes (with_config (win_size w) (compute_type w) (Some s) w) attributes'
        end
      else read_attributes w attributes'
    end
  end.

Definition fill_attributes (w : win_statistics_t) (attributes : list orcm_value_t)
    : outcome (Z * win_statistics_t) :=
  '(rc, w) ← read_attributes w attributes;
  if negb (rc =? OPAL_SUCCESS) then Ret (rc, w) else fill_win_statistics w.

Definition accumulate_data_average (w : win_statistics_t) (num : double) : win_statistics_t :=
  with_sums (dadd (sum_min_max w) num) (sum_square w) w.
Definition accumulate_data_min (w : win_statistics_t) (num : double) : win_statistics_t :=
  if dltb num (sum_min_max w) then with_sums num (sum_square w) w else w.
Definition accumulate_data_max (w : win_statistics_t) (num : double) : win_statistics_t :=
  if dltb (sum_min_max w) num then with_sums num (sum_square w) w else w.
Definition accumulate_data_sd (w : win_statistics_t) (num : double) : win_statistics_t :=
  let w := accumulate_data_average w num in
  with_sums (sum_min_max w) (dadd (sum_square w) (pow2 num)) w.

Definition accumulate_one (ct : cstr) (w : win_statistics_t) (num : double) : win_statistics_t :=
  if starts_with (cs "average") ct then accumulate_data_average w num
  else if starts_with (cs "min") ct then accumulate_data_min w num
  else if starts_with (cs "max") ct then accumulate_data_max w num
  else accumulate_data_sd w num.

Definition accumulate_data (w : win_statistics_t) (data_list : list orcm_value_t)
    : outcome win_statistics_t :=
  let w := with_counts (u64 (num_sample_recv w + 1))
             (u64 (num_data_point w + Z.of_nat (length data_list))) w in
  match data_list with
  | [] => Ret w
  | _ =>
    ct ← deref (compute_type w);
    Ret (foldl (accumulate_one ct) w (orcm_util_get_number_orcm_value <$> data_list))
  end.

Definition computing (w : win_statistics_t) : outcome double :=
  ct ← deref (compute_type w);
  let n := num_data_point w in
  Ret (if starts_with (cs "average") ct then ddiv (sum_min_max w) (of_int n)
       else if starts_with (cs "min") ct || starts_with (cs "max") ct then sum_min_max w
       else if 1 <? n then
         let temp := dsub (dmul (of_int n) (sum_square w)) (pow2 (sum_min_max w)) in
         if dleb d0 temp then dsqrt (ddiv temp (of_int (u64 (n * (n - 1))))) else d0
       else d0).

Definition set_window_description (w : win_statistics_t) (ev : orcm_ras_event_t) : Z * orcm_ras_event_t :=
  let add '(rc, ev) key data type :=
    if rc =? OPAL_SUCCESS then orcm_analytics_base_event_set_description ev key data type None else (rc, ev) in
  let r := orcm_analytics_base_event_set_description ev (cs "win_size") (VInt (win_size w)) OPAL_UINT64 None in
  let r := add r (cs "win_type") (VString (win_type w)) OPAL_STRING in
  let r := add r (cs "compute_type") (VString (compute_type w)) OPAL_STRING in
  let r := add r (cs "num_sample_recv") (VInt (num_sample_recv w)) OPAL_UINT64 in
  add r (cs "num_data_point") (VInt (num_data_point w)) OPAL_UINT64.

Definition send_data_to_dispatch (w : win_statistics_t) (value : orcm_analytics_value_t)
    : outcome (Z * list orcm_ras_event_t) :=
  ev ← orcm_analytics_base_event_create value ORCM_RAS_EVENT_SENSOR ORCM_RAS_SEVERITY_INFO;
  match ev with
  | None => Ret (OPAL_ERROR, [])
  | Some ev =>
    let '(rc, ev) := orcm_analytics_base_event_set_storage ev ORCM_STORAGE_TYPE_DATABASE in
    if negb (rc =? OPAL_SUCCESS) then Ret (rc, [])
    else
      let '(rc, ev) := set_window_description w ev in
      Ret (if rc =? OPAL_SUCCESS then (rc, [ev]) else (rc, []))
  end.

(** The parts of the caddy [orcm_analytics_base_assert_caddy_data] has
    checked. *)
Record job : Type := MkJob {
  j_wf : orcm_workflow_t;
  j_step : orcm_workflow_step_t;
  j_hash_key : Z;
  j_value : orcm_analytics_value_t
}.

Definition caddy_job (c : orcm_workflow_caddy_t) : outcome job :=
  wf ← deref (wc_wf c);
  step ← deref (wc_wf_step c);
  value ← deref (wc_analytics_value c);
  Ret (MkJob wf step (wc_hash_key c) value).

Definition handle_full_window (now : Z * Z) (w : win_statistics_t) (j : job)
    : outcome (Z * list orcm_ras_event_t * option activation_t) :=
  if num_sample_recv w <=? 0 then Ret (OPAL_SUCCESS, [], None)
  else
    compute_data ← deref (av_compute_data (j_value j));
    compute_list_item_current ← deref (head compute_data);
    result ← computing w;
    let data_key := orcm_analytics_base_data_key (compute_type w) (j_wf j) (j_step j) in
    match orcm_util_load_orcm_value (Some data_key) (VDouble result) OPAL_DOUBLE
            (ov_units compute_list_item_current) with
    | None => Ret (OPAL_ERR_OUT_OF_RESOURCE, [], None)
    | Some item =>
      let next := orcm_util_load_analytics_time_compute now (av_key (j_value j))
                    (av_non_compute_data (j_value j)) (Some [item]) in
      db ← orcm_analytics_base_db_check (ws_attributes (j_step j));
      if db : bool then
        '(rc, ras) ← send_data_to_dispatch w next;
        Ret (if rc =? OPAL_SUCCESS then (OPAL_SUCCESS, ras, Some (j_hash_key j, next)) else (rc, ras, None))
      else Ret (OPAL_SUCCESS, [], Some (j_hash_key j, next))
    end.

Definition do_compute_time_window (now : Z * Z) (w : win_statistics_t) (j : job)
    : outcome (analyzed win_statistics_t) :=
  non_compute ← deref (av_non_compute_data (j_value j));
  compute_data ← deref (av_compute_data (j_value j));
  '(rc, sample_time) ← orcm_analytics_base_get_sample_time non_compute;
  if negb (rc =? OPAL_SUCCESS) then Ret (rc, w, [], None)
  else if sample_time <? win_left w then Ret (ORTE_ERR_RECV_MORE_THAN_POSTED, w, [], None)
  else if win_left w =? win_right w then
    w ← accumulate_data (with_bounds sample_time (u64 (sample_time + win_size w)) w) compute_data;
    Ret (OPAL_SUCCESS, w, [], None)
  else if win_right w <=? sample_time then
    '(rc, ras, next) ← handle_full_window now w j;
    if negb (rc =? OPAL_SUCCESS) then Ret (rc, w, ras, next)
    else
      w ← (if u64 (win_right w + win_size w) <=? sample_time then
             if win_size w =? 0 then Ub
             else reset_window w (sample_time - sample_time mod win_size w) (win_size w)
           else reset_window w (win_right w) (win_size w));
      w ← accumulate_data w compute_data;
      Ret (OPAL_SUCCESS, w, ras, next)
  else
    w ← accumulate_data w compute_data;
    Ret (OPAL_SUCCESS, w, [], None).

Definition do_compute_counter_window (now : Z * Z) (w : win_statistics_t) (j : job)
    : outcome (analyzed win_statistics_t) :=
  compute_data ← deref (av_compute_data (j_value j));
  w ← accumulate_data w compute_data;
  if win_right w <=? num_sample_recv w then
    '(rc, ras, next) ← handle_full_window now w j;
    if negb (rc =? OPAL_SUCCESS) then Ret (rc, w, ras, next)
    else
      w ← reset_window w 0 (win_size w);
      Ret (OPAL_SUCCESS, w, ras, next)
  else Ret (OPAL_SUCCESS, w, [], None).

Definition do_compute (now : Z * Z) (w : win_statistics_t) (j : job) : outcome (analyzed win_statistics_t) :=
  match av_key (j_value j), av_non_compute_data (j_value j), av_compute_data (j_value j) with
  | Some (_ :: _), Some _, Some (_ :: _) =>
    wt ← deref (win_type w);
    if starts_with (cs "time") wt then do_compute_time_window now w j
    else do_compute_counter_window now w j
  | _, _, _ => Ret (OPAL_ERR_BAD_PARAM, w, [], None)
  end.

Definition fill_first_sample (now : Z * Z) (w : win_statistics_t) (j : job)
    : outcome (analyzed win_statistics_t) :=
  '(rc, w) ← fill_attributes w (ws_attributes (j_step j));
  if negb (rc =? OPAL_SUCCESS) then Ret (rc, w, [], None) else do_compute now w j.

Definition analyze (now : Z * Z) (data_store : option win_statistics_t) (cbdata : option orcm_workflow_caddy_t)
    : outcome (analyzed (option win_statistics_t)) :=
  let rc := orcm_analytics_base_assert_caddy_data cbdata in
  if negb (rc =? OPAL_SUCCESS) then Ret (rc, data_store, [], None)
  else
    caddy ← deref cbdata;
    j ← caddy_job caddy;
    let w := default win_statistics_con data_store in
    '(rc, w, ras, next) ← (if num_sample_recv w =? 0 then fill_first_sample now w j else do_compute now w j);
    Ret (rc, Some w, ras, next).
End Window.
