(* ===== verification/WindowProps.v ===== *)
(** * What the window plugin computes

    The windows the plugin promises, as a machine on lists of samples with a
    batch computation per closed window, and the proof that the streaming code
    of [AnalyticsWindow.v] implements it. *)

From S2P Require Import Prelude CString Dss DssValue Float64 OrcmUtil AnalyticsBase AnalyticsWindow.
From stdpp Require Import base strings list.
From Stdlib Require Import ZArith Lia Ascii.

Open Scope Z_scope.

(** ** Compute types *)
Inductive ckind : Type := Average | Min | Max | Sd.

Definition kind_of (ct : cstr) : ckind :=
  if starts_with (cs "average") ct then Average
  else if starts_with (cs "min") ct then Min
  else if starts_with (cs "max") ct then Max
  else Sd.

Lemma starts_other lit lit' r : (length lit' <= length lit)%nat ->
  starts_with lit' (lit ++ r) = bool_decide (take (length lit') lit = lit').
Proof. intros H. unfold starts_with. by rewrite take_app_le. Qed.

Lemma kind_min ct : starts_with (cs "min") ct = match kind_of ct with Min => true | _ => false end.
Proof.
  unfold kind_of. destruct (starts_with (cs "average") ct) eqn:Ha.
  - apply starts_with_iff in Ha as [r ->]. rewrite starts_other by (cbn; lia). done.
  - destruct (starts_with (cs "min") ct); [done|]. by destruct (starts_with (cs "max") ct).
Qed.

Lemma kind_max ct : starts_with (cs "max") ct = match kind_of ct with Max => true | _ => false end.
Proof.
  unfold kind_of. destruct (starts_with (cs "average") ct) eqn:Ha.
  - apply starts_with_iff in Ha as [r ->]. rewrite starts_other by (cbn; lia). done.
  - destruct (starts_with (cs "min") ct) eqn:Hm; [|by destruct (starts_with (cs "max") ct)].
    apply starts_with_iff in Hm as [r ->]. rewrite starts_other by (cbn; lia). done.
Qed.

Lemma kind_average ct : starts_with (cs "average") ct = match kind_of ct with Average => true | _ => false end.
Proof. unfold kind_of. by repeat case_match. Qed.

Section Batch.
Variable pow2 : double -> double.

(** ** The batch computation *)
Definition sum_of (k : ckind) (l : list double) : double :=
  match k with
  | Average | Sd => foldl dadd d0 l
  | Min => foldl keep_min DBL_MAX l
  | Max => foldl keep_max DBL_MIN l
  end.

Definition square_of (k : ckind) (l : list double) : double :=
  match k with Sd => foldl (fun a d => dadd a (pow2 d)) d0 l | _ => d0 end.

(** The mean, the extremes, and the sample standard deviation. *)
Definition batch (k : ckind) (l : list double) : double :=
  let n := Z.of_nat (length l) in
  match k with
  | Average => ddiv (sum_of k l) (of_int n)
  | Min | Max => sum_of k l
  | Sd =>
    if 1 <? n then
      let temp := dsub (dmul (of_int n) (square_of k l)) (pow2 (sum_of k l)) in
      if dleb d0 temp then dsqrt (ddiv temp (of_int (n * (n - 1)))) else d0
    else d0
  end.

(** ** Windows *)
Record awin : Type := MkAWin { aw_left : Z; aw_right : Z; aw_samples : list (list double) }.

(** The window after the one that ends at [right], for a sample at [t]. *)
Definition next_left (size right t : Z) : Z := if right + size <=? t then t - t mod size else right.

(** One sample at time [t]: the return code, the number passed on, and the
    open window. *)
Definition time_step (size : Z) (k : ckind) (cur : option awin) (t : Z) (ds : list double)
    : (Z * option double) * option awin :=
  match cur with
  | None => ((OPAL_SUCCESS, None), Some (MkAWin t (t + size) [ds]))
  | Some w =>
    if t <? aw_left w then ((ORTE_ERR_RECV_MORE_THAN_POSTED, None), cur)
    else if aw_right w <=? t then
      let left := next_left size (aw_right w) t in
      ((OPAL_SUCCESS, Some (batch k (concat (aw_samples w)))), Some (MkAWin left (left + size) [ds]))
    else ((OPAL_SUCCESS, None), Some (MkAWin (aw_left w) (aw_right w) (aw_samples w ++ [ds])))
  end.

Definition counter_step (size : Z) (k : ckind) (cur : option awin) (t : Z) (ds : list double)
    : (Z * option double) * option awin :=
  let ss := match cur with Some w => aw_samples w | None => [] end ++ [ds] in
  if size <=? Z.of_nat (length ss) then ((OPAL_SUCCESS, Some (batch k (concat ss))), None)
  else ((OPAL_SUCCESS, None), Some (MkAWin 0 size ss)).

Definition window_step (timed : bool) := if timed then time_step else counter_step.

Fixpoint windows (timed : bool) (size : Z) (k : ckind) (cur : option awin) (xs : list (Z * list double))
    : list (Z * option double) * option awin :=
  match xs with
  | [] => ([], cur)
  | (t, ds) :: xs' =>
    let '(r, cur) := window_step timed size k cur t ds in
    let '(rs, cur) := windows timed size k cur xs' in
    (r :: rs, cur)
  end.

(** ** The statistics of a window *)
Record stats (size : Z) (ct wt : cstr) (w : awin) (st : win_statistics_t) : Prop := {
  st_size : win_size st = size;
  st_compute : compute_type st = Some ct;
  st_type : win_type st = Some wt;
  st_left : win_left st = aw_left w;
  st_right : win_right st = aw_right w;
  st_samples : num_sample_recv st = Z.of_nat (length (aw_samples w));
  st_points : num_data_point st = Z.of_nat (length (concat (aw_samples w)));
  st_sum : sum_min_max st = sum_of (kind_of ct) (concat (aw_samples w));
  st_square : sum_square st = square_of (kind_of ct) (concat (aw_samples w))
}.

Abbreviation nums := (fun vs => orcm_util_get_number_orcm_value <$> vs).

Lemma reset_stats ct wt st left incre :
  compute_type st = Some ct -> win_type st = Some wt -> 0 <= left + incre < 2 ^ 64 ->
  exists st', reset_window st left incre = Ret st' /\
    stats (win_size st) ct wt (MkAWin left (left + incre) []) st'.
Proof.
  intros Hct Hwt Hb. unfold reset_window. rewrite Hct. cbn [deref]. rewrite bind_Ret.
  eexists. split; [done|]. split; cbn; try done.
  - by apply u64_small.
  - rewrite kind_min, kind_max. by destruct (kind_of ct).
  - by destruct (kind_of ct).
Qed.

Lemma accumulate_fold ct st l :
  foldl (accumulate_one pow2 ct) st l =
  with_sums (match kind_of ct with
             | Average | Sd => foldl dadd (sum_min_max st) l
             | Min => foldl keep_min (sum_min_max st) l
             | Max => foldl keep_max (sum_min_max st) l
             end)
    (match kind_of ct with Sd => foldl (fun a d => dadd a (pow2 d)) (sum_square st) l | _ => sum_square st end) st.
Proof.
  revert st. induction l as [|d l IH]; intros st; cbn [foldl].
  { destruct st; cbn. by destruct (kind_of ct). }
  rewrite IH. unfold accumulate_one. rewrite kind_average, kind_min, kind_max.
  destruct (kind_of ct); unfold accumulate_data_average, accumulate_data_min, accumulate_data_max,
    accumulate_data_sd; cbn; try done.
  - unfold keep_min at 3. by destruct (dltb d (sum_min_max st)).
  - unfold keep_max at 3. by destruct (dltb (sum_min_max st) d).
Qed.

Lemma concat_snoc {A} (ss : list (list A)) l : concat (ss ++ [l]) = concat ss ++ l.
Proof. by rewrite concat_app; cbn; rewrite app_nil_r. Qed.

(** How much a list of samples fills the counters. *)
Definition volume (ss : list (list double)) : Z := Z.of_nat (length ss + length (concat ss)).

Lemma accumulate_stats size ct wt w st vs :
  stats size ct wt w st -> vs <> [] -> volume (aw_samples w ++ [nums vs]) < 2 ^ 62 ->
  exists st', accumulate_data pow2 st vs = Ret st' /\
    stats size ct wt (MkAWin (aw_left w) (aw_right w) (aw_samples w ++ [nums vs])) st'.
Proof.
  intros [H1 H2 H3 H4 H5 H6 H7 H8 H9] Hne Hv. unfold volume in Hv. rewrite concat_snoc in Hv.
  rewrite !length_app in Hv. cbn [length] in Hv. rewrite length_fmap in Hv.
  destruct vs as [|v vs]; [done|]. unfold accumulate_data. cbn [compute_type with_counts].
  rewrite H2. cbn [deref]. rewrite bind_Ret, accumulate_fold. eexists. split; [done|].
  cbn [sum_min_max sum_square with_counts]. rewrite H6, H7, H8, H9.
  split; cbn [with_sums with_counts win_size compute_type win_type win_left win_right num_sample_recv
    num_data_point sum_min_max sum_square aw_left aw_right aw_samples]; try done.
  - rewrite u64_small, length_app by lia. cbn [length]. lia.
  - rewrite u64_small, concat_snoc, length_app, length_fmap by lia. lia.
  - rewrite concat_snoc. unfold sum_of. destruct (kind_of ct); by rewrite foldl_app.
  - rewrite concat_snoc. unfold square_of. destruct (kind_of ct); by rewrite ?foldl_app.
Qed.

Lemma computing_stats size ct wt w st :
  stats size ct wt w st -> volume (aw_samples w) < 2 ^ 31 ->
  computing pow2 st = Ret (batch (kind_of ct) (concat (aw_samples w))).
Proof.
  intros [_ Hct _ _ _ _ H7 H8 H9] Hv. unfold volume in Hv. unfold computing. rewrite Hct. cbn [deref].
  rewrite bind_Ret, kind_average, kind_min, kind_max, H7, H8, H9. unfold batch.
  destruct (kind_of ct); try done. rewrite u64_small; [done|]. nia.
Qed.

(** ** Samples *)
Definition attr (k v : cstr) : orcm_value_t := MkOrcmValue (Some k) OPAL_STRING (VString (Some v)) None.

(** The attributes of a window step. *)
Definition window_attributes (txt ct wt : cstr) : list orcm_value_t :=
  [attr (cs "win_size") txt; attr (cs "compute") ct; attr (cs "type") wt].

(** A caddy with attributes [attrs] that carries the values [vs], sampled at
    [t] where the window goes by time. *)
Record carries (timed : bool) (attrs : list orcm_value_t) (c : orcm_workflow_caddy_t) (t : Z)
    (vs : list orcm_value_t) (j : job) : Prop := {
  ca_ok : orcm_analytics_base_assert_caddy_data (Some c) = OPAL_SUCCESS;
  ca_job : caddy_job c = Ret j;
  ca_attrs : ws_attributes (j_step j) = attrs;
  ca_key : exists k ks, av_key (j_value j) = Some (k :: ks);
  ca_time : exists nc, av_non_compute_data (j_value j) = Some nc /\
    (timed = true -> orcm_analytics_base_get_sample_time nc = Ret (OPAL_SUCCESS, t));
  ca_data : av_compute_data (j_value j) = Some vs;
  ca_some : vs <> []
}.

(** The number the next step is activated with. *)
Definition emitted (next : option activation_t) : option double :=
  match next with
  | Some (_, v) =>
    match av_compute_data v with
    | Some [x] => match ov_data x with VDouble d => Some d | _ => None end
    | _ => None
    end
  | None => None
  end.

(** The module over a sequence of caddies: the codes and the numbers. *)
Fixpoint feed (st : option win_statistics_t) (cs : list (Z * Z * orcm_workflow_caddy_t))
    : outcome (list (Z * option double) * option win_statistics_t) :=
  match cs with
  | [] => Ret ([], st)
  | (now, c) :: cs' =>
    '(rc, st, _, next) ← analyze pow2 now st (Some c);
    '(rs, st) ← feed st cs';
    Ret ((rc, emitted next) :: rs, st)
  end.

Section Configured.
Context (timed : bool) (size : Z) (txt ct wt : cstr).
Hypothesis Htxt : orcm_util_get_time_in_sec (Some txt) = Ret size.
Hypothesis Hsize : 0 < size < 2 ^ 61.
Hypothesis Hct : known_compute_type ct = true.
Hypothesis Hwt : wt = if timed then cs "time" else cs "counter".

Lemma wt_time : starts_with (cs "time") wt = timed.
Proof. rewrite Hwt. by destruct timed. Qed.

(** A module without samples: fresh, or just reset. *)
Definition idle (st : win_statistics_t) : Prop :=
  num_sample_recv st = 0 /\ (compute_type st = None \/ compute_type st = Some ct) /\
  (win_type st = None \/ win_type st = Some wt).

Lemma fill_idle st :
  idle st ->
  exists st', fill_attributes st (window_attributes txt ct wt) = Ret (OPAL_SUCCESS, st') /\
    stats size ct wt (MkAWin 0 (if timed then 0 else size) []) st'.
Proof.
  intros (_ & Hc & Hw). unfold fill_attributes, window_attributes.
  assert (read_attributes st [attr (cs "win_size") txt; attr (cs "compute") ct; attr (cs "type") wt] =
    Ret (OPAL_SUCCESS, with_config size (Some ct) (Some wt) st)) as ->.
  { unfold attr. cbn [read_attributes ov_key]. cbn [data_string ov_data is_null].
    change (strcmp0 (cs "win_size") (cs "win_size")) with true. cbv iota. cbn [deref_string].
    rewrite bind_Ret, Htxt, bind_Ret.
    change (strcmp0 (cs "compute") (cs "win_size")) with false. cbv iota.
    change (strcmp0 (cs "compute") (cs "compute")) with true. cbv iota.
    change (strcmp0 (cs "type") (cs "win_size")) with false. cbv iota.
    change (strcmp0 (cs "type") (cs "compute")) with false. cbv iota.
    change (strcmp0 (cs "type") (cs "type")) with true. cbv iota.
    cbn [compute_type win_type with_config].
    destruct Hc as [->| ->]; cbn [compute_type win_type with_config]; rewrite ?bind_Ret; cbn [compute_type win_type with_config];
      destruct Hw as [->| ->]; rewrite ?bind_Ret; done. }
  rewrite bind_Ret. cbn [Z.eqb OPAL_SUCCESS negb]. unfold fill_win_statistics.
  cbn [win_size win_type compute_type with_config]. change (default (cs "time") (Some wt)) with wt.
  rewrite (proj2 (Z.leb_gt _ _)) by lia.
  assert (known_win_type wt = true) as -> by (rewrite Hwt; by destruct timed).
  cbn [negb]. rewrite Hct, wt_time. cbn [negb].
  destruct timed.
  - destruct (reset_stats ct wt (with_config size (Some ct) (Some wt) (with_config size (Some ct) (Some wt) st)) 0 0)
      as (st' & E & Hs); [done|done|lia|]. rewrite E, bind_Ret. by exists st'.
  - destruct (reset_stats ct wt (with_config size (Some ct) (Some wt) (with_config size (Some ct) (Some wt) st)) 0 size)
      as (st' & E & Hs); [done|done|lia|]. rewrite E, bind_Ret. by exists st'.
Qed.

Abbreviation attrs := (window_attributes txt ct wt).

(** A full window is reduced to its batch computation. *)
Lemma handle_full now w st c t vs j :
  stats size ct wt w st -> aw_samples w <> [] -> volume (aw_samples w) < 2 ^ 31 ->
  carries timed attrs c t vs j ->
  exists next, handle_full_window pow2 now st j = Ret (OPAL_SUCCESS, [], Some next) /\
    emitted (Some next) = Some (batch (kind_of ct) (concat (aw_samples w))).
Proof.
  intros Hs Hne Hv [_ _ Hattrs _ _ Hdata Hsome]. unfold handle_full_window.
  rewrite (st_samples _ _ _ _ _ Hs). destruct (aw_samples w) as [|s0 ss] eqn:Ess; [done|].
  rewrite (proj2 (Z.leb_gt _ _)) by (cbn; lia). rewrite Hdata. cbn [deref]. rewrite bind_Ret.
  destruct vs as [|v vs]; [done|]. cbn [head deref]. rewrite bind_Ret.
  rewrite (computing_stats size ct wt w st Hs) by (by rewrite Ess). rewrite bind_Ret, Ess.
  cbn [orcm_util_load_orcm_value]. unfold orcm_util_load_orcm_value.
  change (known_type OPAL_DOUBLE) with true. cbv iota. rewrite Hattrs.
  change (orcm_analytics_base_db_check attrs) with (Ret false). rewrite bind_Ret. by eexists.
Qed.

(** ** One sample *)
Definition bounds_ok (w : awin) : Prop :=
  if timed then 0 <= aw_left w < 2 ^ 61 /\ aw_right w = aw_left w + size
  else aw_left w = 0 /\ aw_right w = size.

Definition rep (st : option win_statistics_t) (cur : option awin) : Prop :=
  match cur with
  | None => idle (default win_statistics_con st)
  | Some w => exists s, st = Some s /\ stats size ct wt w s /\ aw_samples w <> [] /\ bounds_ok w
  end.

Definition samples_of (cur : option awin) : list (list double) :=
  match cur with Some w => aw_samples w | None => [] end.

(** What a call returns, up to the value passed on. *)
Definition gives (m : outcome (analyzed win_statistics_t)) (r : Z * option double) (cur : option awin) : Prop :=
  exists st' next, m = Ret (fst r, st', [], next) /\ emitted next = snd r /\ rep (Some st') cur.

Lemma snoc_ne {A} (l : list A) x : l ++ [x] <> [].
Proof. by destruct l. Qed.

(** A window that opens with its first sample. *)
Lemma open_window (st : win_statistics_t) w vs left :
  stats size ct wt w st -> aw_samples w = [] -> aw_left w = left -> bounds_ok w -> vs <> [] ->
  volume [nums vs] < 2 ^ 62 ->
  exists st', accumulate_data pow2 st vs = Ret st' /\
    rep (Some st') (Some (MkAWin (aw_left w) (aw_right w) [nums vs])).
Proof.
  intros Hs Hnil Hleft Hb Hne Hv. destruct (accumulate_stats size ct wt w st vs) as (st' & E & Hs'); [done|done|by rewrite Hnil|].
  rewrite Hnil in Hs'. exists st'. split; [done|]. exists st'. by split_and!.
Qed.

Lemma next_left_range right t :
  0 <= right -> right <= t < 2 ^ 61 -> right <= next_left size right t <= t /\ t < next_left size right t + size.
Proof.
  intros Hr Ht. unfold next_left. destruct (Z.leb_spec (right + size) t); [|lia].
  pose proof (Z.mod_pos_bound t size ltac:(lia)). pose proof (Z.mod_le t size ltac:(lia) ltac:(lia)). lia.
Qed.

Lemma counter_sample now st w c t vs j :
  timed = false -> stats size ct wt w st -> aw_left w = 0 /\ aw_right w = size -> carries timed attrs c t vs j ->
  volume (aw_samples w ++ [nums vs]) < 2 ^ 31 ->
  let '(r, cur) := counter_step size (kind_of ct) (Some w) t (nums vs) in
  gives (do_compute_counter_window pow2 now st j) r cur.
Proof.
  intros Ht Hs Hb Hc Hv. unfold counter_step, do_compute_counter_window.
  rewrite (ca_data _ _ _ _ _ _ Hc). cbn [deref]. rewrite bind_Ret.
  destruct (accumulate_stats size ct wt w st vs) as (st1 & -> & Hs1); [done|apply Hc|lia|].
  rewrite bind_Ret. rewrite (st_right _ _ _ _ _ Hs1), (st_samples _ _ _ _ _ Hs1). cbn [aw_right aw_samples].
  destruct Hb as [Hl Hr]. rewrite Hl, Hr in *. destruct (Z.leb_spec size (Z.of_nat (length (aw_samples w ++ [nums vs])))) as [Hfull|Hopen].
  - destruct (handle_full now _ st1 c t vs j Hs1 (snoc_ne _ _) Hv Hc) as (next & -> & Hem).
    rewrite bind_Ret. cbn [Z.eqb OPAL_SUCCESS negb].
    destruct (reset_stats ct wt st1 0 (win_size st1)) as (st2 & E2 & Hs2); [apply Hs1|apply Hs1|rewrite (st_size _ _ _ _ _ Hs1); lia|].
    rewrite E2, bind_Ret. exists st2, (Some next). split_and!; [done|exact Hem|].
    split_and!; [apply Hs2|right; apply Hs2|right; apply Hs2].
  - exists st1, None. split_and!; [done|done|]. exists st1.
    split_and!; [done|done|apply snoc_ne|]. unfold bounds_ok. by rewrite Ht.
Qed.

Lemma time_first now st c t vs j :
  timed = true -> stats size ct wt (MkAWin 0 0 []) st -> carries timed attrs c t vs j ->
  0 <= t < 2 ^ 61 -> volume [nums vs] < 2 ^ 31 ->
  gives (do_compute_time_window pow2 now st j) (OPAL_SUCCESS, None) (Some (MkAWin t (t + size) [nums vs])).
Proof.
  intros Ht Hs Hc Hb Hv. unfold do_compute_time_window. destruct Hc as [_ _ _ _ (nc & Hnc & Htime) Hdata Hsome].
  rewrite Hnc, Hdata. cbn [deref]. rewrite !bind_Ret, (Htime Ht), bind_Ret. cbn [Z.eqb OPAL_SUCCESS negb].
  rewrite (st_left _ _ _ _ _ Hs), (st_right _ _ _ _ _ Hs). cbn [aw_left aw_right].
  rewrite (proj2 (Z.ltb_ge _ _)) by lia. rewrite Z.eqb_refl, (st_size _ _ _ _ _ Hs), u64_small by lia.
  destruct (open_window (with_bounds t (t + size) st) (MkAWin t (t + size) []) vs t) as (st' & -> & Hrep);
    [destruct Hs; by split|done|done| |done|lia|].
  - unfold bounds_ok. rewrite Ht. cbn. lia.
  - rewrite bind_Ret. by exists st', None.
Qed.

Lemma time_sample now st w c t vs j :
  timed = true -> stats size ct wt w st -> aw_samples w <> [] -> bounds_ok w -> carries timed attrs c t vs j ->
  0 <= t < 2 ^ 61 -> volume (aw_samples w ++ [nums vs]) < 2 ^ 31 ->
  let '(r, cur) := time_step size (kind_of ct) (Some w) t (nums vs) in
  gives (do_compute_time_window pow2 now st j) r cur.
Proof.
  intros Ht Hs Hne Hbw Hc Hb Hv. assert (Hbw' := Hbw). unfold bounds_ok in Hbw'. rewrite Ht in Hbw'. destruct Hbw' as [Hl Hr].
  assert (Hv' : volume (aw_samples w) < 2 ^ 31 /\ volume [nums vs] < 2 ^ 31).
  { unfold volume in *. rewrite concat_snoc, !length_app in Hv. cbn in *. rewrite app_nil_r. lia. }
  unfold do_compute_time_window, time_step. assert (Hc' := Hc). destruct Hc' as [_ _ _ _ (nc & Hnc & Htime) Hdata Hsome].
  rewrite Hnc, Hdata. cbn [deref]. rewrite !bind_Ret, (Htime Ht), bind_Ret. cbn [Z.eqb OPAL_SUCCESS negb].
  rewrite (st_left _ _ _ _ _ Hs), (st_right _ _ _ _ _ Hs), (st_size _ _ _ _ _ Hs).
  destruct (Z.ltb_spec t (aw_left w)).
  { exists st, None. split_and!; [done|done|]. by exists st. }
  rewrite (proj2 (Z.eqb_neq _ _)) by lia. destruct (Z.leb_spec (aw_right w) t).
  - destruct (handle_full now w st c t vs j Hs Hne (proj1 Hv') Hc) as (next & -> & Hem).
    rewrite bind_Ret. cbn [Z.eqb OPAL_SUCCESS negb]. rewrite u64_small by lia.
    pose proof (next_left_range (aw_right w) t ltac:(lia) ltac:(lia)) as Hnl.
    destruct (reset_stats ct wt st (next_left size (aw_right w) t) size) as (st1 & E1 & Hs1);
      [apply Hs|apply Hs|lia|]. rewrite (st_size _ _ _ _ _ Hs) in Hs1.
    assert ((if aw_right w + size <=? t then if size =? 0 then Ub else reset_window st (t - t mod size) size
             else reset_window st (aw_right w) size) = Ret st1) as ->.
    { rewrite <- E1. unfold next_left. destruct (aw_right w + size <=? t); [|done]. by rewrite (proj2 (Z.eqb_neq _ _)) by lia. }
    rewrite bind_Ret. destruct (open_window st1 _ vs _ Hs1 eq_refl eq_refl) as (st2 & -> & Hrep); [|done|lia|].
    + unfold bounds_ok. rewrite Ht. cbn. lia.
    + rewrite bind_Ret. exists st2, (Some next). by split_and!.
  - destruct (accumulate_stats size ct wt w st vs) as (st1 & -> & Hs1); [done|done|lia|].
    rewrite bind_Ret. exists st1, None. split_and!; [done|done|]. exists st1. split_and!; [done|done|apply snoc_ne|].
    unfold bounds_ok. by rewrite Ht.
Qed.

Lemma do_compute_type now st c t vs j :
  win_type st = Some wt -> carries timed attrs c t vs j ->
  do_compute pow2 now st j =
  if timed then do_compute_time_window pow2 now st j else do_compute_counter_window pow2 now st j.
Proof.
  intros Hw [_ _ _ (k & ks & Hk) (nc & Hnc & _) Hdata Hsome]. unfold do_compute. rewrite Hk, Hnc, Hdata.
  destruct vs; [done|]. rewrite Hw. cbn [deref]. rewrite bind_Ret, wt_time. by destruct timed.
Qed.

(** Every call of [analyze] does what the machine of windows does. *)
Lemma analyze_step now st cur c t vs j :
  rep st cur -> carries timed attrs c t vs j -> 0 <= t < 2 ^ 61 ->
  volume (samples_of cur ++ [nums vs]) < 2 ^ 31 ->
  let '(r, cur') := window_step timed size (kind_of ct) cur t (nums vs) in
  exists st' next, analyze pow2 now st (Some c) = Ret (fst r, st', [], next) /\ emitted next = snd r /\ rep st' cur'.
Proof.
  intros Hrep Hc Ht Hv.
  enough (let '(r, cur') := window_step timed size (kind_of ct) cur t (nums vs) in
    gives (if num_sample_recv (default win_statistics_con st) =? 0
           then fill_first_sample pow2 now (default win_statistics_con st) j
           else do_compute pow2 now (default win_statistics_con st) j) r cur') as Hg.
  { unfold analyze. rewrite (ca_ok _ _ _ _ _ _ Hc). cbn [Z.eqb OPAL_SUCCESS negb deref].
    rewrite bind_Ret, (ca_job _ _ _ _ _ _ Hc), bind_Ret. cbn zeta.
    destruct (window_step _ _ _ _ _ _) as [r cur'].
    destruct Hg as (st' & next & E & Hem & Hr). exists (Some st'), next. split; [|done].
    exact (f_equal (mbind (fun '(rc, w, ras, next) => Ret (rc, Some w, ras, next))) E). }
  destruct cur as [w|].
  - destruct Hrep as (s & -> & Hs & Hne & Hb). cbn [default from_option id]. change (default win_statistics_con (Some s)) with s.
    rewrite (st_samples _ _ _ _ _ Hs), (proj2 (Z.eqb_neq _ _)) by (destruct (aw_samples w); [done|cbn; lia]).
    rewrite (do_compute_type now s c t vs j (st_type _ _ _ _ _ Hs) Hc). unfold window_step.
    assert (Ecase : timed = true \/ timed = false) by (destruct timed; auto).
    destruct Ecase as [E|E].
    + pose proof (time_sample now s w c t vs j E Hs Hne Hb Hc Ht Hv) as Hg. rewrite E. exact Hg.
    + unfold bounds_ok in Hb. rewrite E in Hb. pose proof (counter_sample now s w c t vs j E Hs Hb Hc Hv) as Hg.
      rewrite E. exact Hg.
  - destruct (fill_idle _ Hrep) as (s & Ef & Hs). rewrite (proj1 Hrep). cbn [Z.eqb].
    unfold fill_first_sample. rewrite (ca_attrs _ _ _ _ _ _ Hc), Ef, bind_Ret. cbn [Z.eqb OPAL_SUCCESS negb].
    rewrite (do_compute_type now s c t vs j (st_type _ _ _ _ _ Hs) Hc). unfold window_step.
    assert (Ecase : timed = true \/ timed = false) by (destruct timed; auto).
    destruct Ecase as [E|E]; rewrite E in Hs.
    + pose proof (time_first now s c t vs j E Hs Hc Ht Hv) as Hg. rewrite E. exact Hg.
    + pose proof (counter_sample now s _ c t vs j E Hs (conj eq_refl eq_refl) Hc Hv) as Hg. rewrite E. exact Hg.
Qed.

(** A sequence of caddies and the samples it carries. *)
Inductive delivers : list (Z * Z * orcm_workflow_caddy_t) -> list (Z * list double) -> Prop :=
| delivers_nil : delivers [] []
| delivers_cons now c t vs j cs xs :
    carries timed attrs c t vs j -> 0 <= t < 2 ^ 61 -> delivers cs xs ->
    delivers ((now, c) :: cs) ((t, nums vs) :: xs).

Lemma volume_snoc ss d : volume (ss ++ [d]) = volume ss + 1 + Z.of_nat (length d).
Proof. unfold volume. rewrite concat_snoc, !length_app. cbn. lia. Qed.

Lemma volume_nil : volume [] = 0.
Proof. done. Qed.

Lemma step_volume k cur t ds :
  let '(_, cur') := window_step timed size k cur t ds in
  volume (samples_of cur') <= volume (samples_of cur ++ [ds]).
Proof.
  assert (Hp : forall ss, 0 <= volume ss) by (intros; unfold volume; lia).
  unfold window_step. destruct timed; unfold time_step, counter_step.
  - destruct cur as [w|]; [|done]. pose proof (Hp (aw_samples w)). pose proof (volume_snoc [] ds) as Hd.
    cbn [app] in Hd. rewrite volume_nil in Hd.
    repeat case_match; simplify_eq; cbn [samples_of aw_samples]; rewrite ?volume_snoc; lia.
  - cbn zeta. destruct (size <=? _); cbn [samples_of aw_samples]; [apply Hp|]. by destruct cur.
Qed.

Lemma feed_windows cs xs st cur :
  delivers cs xs -> rep st cur ->
  volume (samples_of cur ++ (snd <$> xs)) < 2 ^ 31 ->
  exists st', feed st cs = Ret (fst (windows timed size (kind_of ct) cur xs), st') /\
    rep st' (snd (windows timed size (kind_of ct) cur xs)).
Proof.
  intros Hd. revert st cur. induction Hd as [|now c t vs j cs xs Hc Ht Hd IH]; intros st cur Hrep Hv.
  { by exists st. }
  assert (Hv' : volume (samples_of cur ++ [nums vs]) + Z.of_nat (length xs + length (concat (snd <$> xs))) < 2 ^ 31).
  { unfold volume in *. rewrite fmap_cons in Hv. cbn [snd] in Hv. rewrite concat_app in *. cbn [concat] in *.
    rewrite !length_app in *. cbn [length] in *. rewrite length_fmap in Hv. lia. }
  cbn [feed windows]. pose proof (analyze_step now st cur c t vs j Hrep Hc Ht ltac:(lia)) as Hstep.
  pose proof (step_volume (kind_of ct) cur t (nums vs)) as Hvol. cbn beta in *.
  destruct (window_step timed size (kind_of ct) cur t (_ <$> vs)) as [r cur'].
  destruct Hstep as (st1 & next & -> & Hem & Hrep1). rewrite bind_Ret.
  destruct (IH st1 cur' Hrep1) as (st2 & -> & Hrep2).
  { unfold volume in *. rewrite concat_app, !length_app, length_fmap in *. lia. }
  rewrite bind_Ret. destruct (windows timed size (kind_of ct) cur' xs) as [rs cur2] eqn:Ew.
  cbn [fst snd] in *.
  exists st2. split; [rewrite Hem; by destruct r|done].
Qed.

Lemma fresh_rep : rep None None.
Proof. by split_and!; [|left|left]. Qed.
End Configured.
End Batch.
