(* ===== verification/WindowClaims.v ===== *)
(** * Theorems about the window plugin *)

From S2P Require Import Prelude CString Dss DssValue Float64 OrcmUtil AnalyticsBase AnalyticsWindow WindowProps.
From stdpp Require Import base strings list sorting.
From Stdlib Require Import ZArith Lia Ascii.

Open Scope Z_scope.

(** C11: from a fresh module, the codes returned and the numbers passed on for any sequence of well-formed
    samples are those of the machine of windows with the batch computation per closed window, for time and for
    counter windows and for every compute type; the module's statistics keep representing the open window. The
    batch maximum is, as in the code, that of the numbers and DBL_MIN; the attributes do not ask for the
    database. *)
Theorem window_refines pow2 (timed : bool) size txt ct wt caddies xs :
  orcm_util_get_time_in_sec (Some txt) = Ret size -> 0 < size < 2 ^ 61 -> known_compute_type ct = true ->
  wt = (if timed then cs "time" else cs "counter") ->
  delivers timed txt ct wt caddies xs -> volume (snd <$> xs) < 2 ^ 31 ->
  exists st', feed pow2 None caddies = Ret (fst (windows pow2 timed size (kind_of ct) None xs), st') /\
    rep pow2 timed size ct wt st' (snd (windows pow2 timed size (kind_of ct) None xs)).
Proof. intros. by eapply feed_windows; [..|apply fresh_rep|]. Qed.

(** ** Counter windows *)
Lemma counter_blocks pow2 (n : nat) k pre cur (xs : list (Z * list double)) p r :
  (0 < n)%nat -> (length pre < n)%nat ->
  cur = (if bool_decide (pre = []) then None else Some (MkAWin 0 (Z.of_nat n) pre)) ->
  fst (windows pow2 false (Z.of_nat n) k cur xs) !! p = Some r ->
  r = (OPAL_SUCCESS,
       if ((length pre + p + 1) mod n =? 0)%nat
       then Some (batch pow2 k (concat (take n (drop (length pre + p + 1 - n) (pre ++ (snd <$> xs))))))
       else None).
Proof.
  intros Hn. revert pre cur p. induction xs as [|[t ds] xs IH]; intros pre cur p Hpre Hcur Hp; [done|].
  cbn [windows window_step] in Hp. unfold counter_step in Hp.
  assert (Hss : (match cur with Some w => aw_samples w | None => [] end) = pre).
  { rewrite Hcur. case_bool_decide; [by subst|done]. }
  rewrite Hss in Hp. rewrite length_app in Hp. cbn [length] in Hp.
  destruct (Z.leb_spec (Z.of_nat n) (Z.of_nat (length pre + 1))) as [Hfull|Hopen].
  - destruct (windows pow2 false (Z.of_nat n) k None xs) as [rs cur'] eqn:E. cbn [fst] in Hp.
    destruct p as [|p]; cbn in Hp.
    + injection Hp as <-. replace (length pre + 0 + 1)%nat with n by lia. rewrite Nat.Div0.mod_same, Nat.sub_diag.
      cbn [Nat.eqb drop]. do 4 f_equal. rewrite fmap_cons. cbn [snd].
      change (pre ++ ds :: xs.*2) with (pre ++ [ds] ++ xs.*2).
      rewrite drop_0, app_assoc, take_app_length'; [done|rewrite length_app; cbn; lia].
    + assert (Hp' : fst (windows pow2 false (Z.of_nat n) k None xs) !! p = Some r) by (by rewrite E).
      apply (IH [] None p) in Hp'; [|cbn; lia|done]. rewrite Hp'. cbn [length app].
      replace (length pre + S p + 1)%nat with (0 + p + 1 + 1 * n)%nat by lia. rewrite Nat.Div0.mod_add.
      destruct (Nat.eqb_spec ((0 + p + 1) mod n) 0) as [Hm|Hm]; [|done]. do 5 f_equal.
      assert (Hge : (n <= p + 1)%nat).
      { apply Nat.Div0.div_exact in Hm. destruct ((0 + p + 1) / n)%nat; nia. }
      rewrite fmap_cons. cbn [snd]. change (pre ++ ds :: xs.*2) with (pre ++ [ds] ++ xs.*2). rewrite app_assoc, drop_app_ge;
        rewrite length_app; cbn [length]; [f_equal; lia|lia].
  - destruct (windows pow2 false (Z.of_nat n) k (Some (MkAWin 0 (Z.of_nat n) (pre ++ [ds]))) xs) as [rs cur'] eqn:E.
    cbn [fst] in Hp. destruct p as [|p]; cbn in Hp.
    + injection Hp as <-. rewrite Nat.mod_small by lia. destruct (Nat.eqb_spec (length pre + 0 + 1) 0); [lia|done].
    + assert (Hp' : fst (windows pow2 false (Z.of_nat n) k (Some (MkAWin 0 (Z.of_nat n) (pre ++ [ds]))) xs) !! p = Some r)
        by (by rewrite E).
      apply (IH (pre ++ [ds])) in Hp'; [|rewrite length_app; cbn; lia|by rewrite bool_decide_eq_false_2 by by destruct pre].
      rewrite Hp', length_app. cbn [length].
      replace (length pre + 1 + p + 1)%nat with (length pre + S p + 1)%nat by lia.
      by rewrite <- app_assoc, fmap_cons.
Qed.

(** A counter window of [n] samples passes on one number per
    [n] samples, with the [n]-th, and it is the batch computation over exactly
    the last [n] samples: the blocks do not overlap and none is lost. *)
Theorem window_counter_blocks pow2 (n : nat) txt ct caddies xs rs st' p r :
  orcm_util_get_time_in_sec (Some txt) = Ret (Z.of_nat n) -> 0 < Z.of_nat n < 2 ^ 61 ->
  known_compute_type ct = true -> delivers false txt ct (cs "counter") caddies xs ->
  volume (snd <$> xs) < 2 ^ 31 ->
  feed pow2 None caddies = Ret (rs, st') -> rs !! p = Some r ->
  r = (OPAL_SUCCESS,
       if ((p + 1) mod n =? 0)%nat
       then Some (batch pow2 (kind_of ct) (concat (take n (drop (p + 1 - n) (snd <$> xs)))))
       else None).
Proof.
  intros Htxt Hn Hct Hd Hv Hf Hp.
  destruct (feed_windows pow2 false (Z.of_nat n) txt ct (cs "counter") Htxt Hn Hct eq_refl caddies xs None None Hd
    (fresh_rep _ _ _ _ _) Hv) as (st1 & E & _).
  rewrite E in Hf. injection Hf as <- <-.
  by apply (counter_blocks pow2 n (kind_of ct) [] None xs p r) in Hp; [|lia|cbn; lia|].
Qed.

(** ** Time windows *)
Record twin : Type := MkTWin { tw_left : Z; tw_items : list (Z * list double) }.

(** The samples that were not turned away. *)
Definition accepted (xs : list (Z * list double)) (rs : list (Z * option double)) : list (Z * list double) :=
  omap (fun '(x, (rc, _)) => if rc =? OPAL_SUCCESS then Some x else None) (zip xs rs).

Definition within (size : Z) (w : twin) : Prop :=
  Forall (fun x => tw_left w <= fst x < tw_left w + size) (tw_items w).

(** Windows in order, without overlap. *)
Fixpoint chained (size left : Z) (ws : list twin) : Prop :=
  match ws with
  | [] => True
  | w :: ws' => left <= tw_left w /\ within size w /\ chained size (tw_left w + size) ws'
  end.

Definition closed (pow2 : double -> double) (k : ckind) (w : twin) : double :=
  batch pow2 k (concat (snd <$> tw_items w)).

Lemma removelast_cons {A} (a b : A) l : removelast (a :: b :: l) = a :: removelast (b :: l).
Proof. done. Qed.

(** From an open window, the samples go to it or to later windows; all
    windows but the last are closed. *)
Lemma time_partition pow2 size k l its xs rs cur' :
  0 < size < 2 ^ 61 -> 0 <= l -> within size (MkTWin l its) -> Forall (fun x => 0 <= fst x < 2 ^ 61) xs ->
  windows pow2 true size k (Some (MkAWin l (l + size) (snd <$> its))) xs = (rs, cur') ->
  exists its' ws last,
    removelast (MkTWin l (its ++ its') :: ws) ++ [last] = MkTWin l (its ++ its') :: ws /\
    within size (MkTWin l (its ++ its')) /\ chained size (l + size) ws /\
    omap snd rs = closed pow2 k <$> removelast (MkTWin l (its ++ its') :: ws) /\
    accepted xs rs = its' ++ (ws ≫= tw_items).
Proof.
  intros Hsize. revert l its rs. induction xs as [|[t ds] xs IH]; intros l its rs Hl Hin Hall E.
  { cbn in E. injection E as <- _. exists [], [], (MkTWin l (its ++ [])). rewrite app_nil_r. done. }
  apply Forall_cons_iff in Hall as [Ht Hall]. cbn [fst] in Ht. cbn [windows window_step time_step aw_left aw_right aw_samples] in E.
  destruct (Z.ltb_spec t l) as [Hlate|Hok].
  { destruct (windows _ _ _ _ _ xs) as [rs1 cur1] eqn:E1. injection E as <- <-.
    destruct (IH l its rs1 Hl Hin Hall E1) as (its' & ws & last & H1 & H2 & H3 & H4 & H5). by exists its', ws, last. }
  destruct (Z.leb_spec (l + size) t) as [Hnext|Hadd].
  - pose proof (next_left_range size Hsize (l + size) t ltac:(lia) ltac:(lia)) as Hnl.
    set (l2 := next_left size (l + size) t) in *.
    destruct (windows _ _ _ _ _ xs) as [rs1 cur1] eqn:E1. injection E as <- <-.
    destruct (IH l2 [(t, ds)] rs1) as (its' & ws & last & H1 & H2 & H3 & H4 & H5); [lia| |done|exact E1|].
    { constructor; [cbn; lia|done]. }
    exists [], (MkTWin l2 ([(t, ds)] ++ its') :: ws), last. rewrite app_nil_r. split; [|split; [done|split; [|split]]].
    + rewrite removelast_cons. cbn [app]. f_equal. exact H1.
    + cbn [chained tw_left]. split_and!; [lia|done|done].
    + rewrite removelast_cons, fmap_cons, <- H4. done.
    + unfold accepted in *. cbn. by rewrite H5.
  - destruct (windows _ _ _ _ _ xs) as [rs1 cur1] eqn:E1. injection E as <- <-.
    destruct (IH l (its ++ [(t, ds)]) rs1) as (its' & ws & last & H1 & H2 & H3 & H4 & H5); [done| |done| |].
    { apply Forall_app. split; [done|]. constructor; [cbn; lia|done]. }
    { rewrite fmap_app. exact E1. }
    rewrite <- app_assoc in *. exists ([(t, ds)] ++ its'), ws, last. split_and!; try done.
    unfold accepted in *. cbn. by rewrite H5.
Qed.

(** C31: time windows partition the samples that are not turned away
    as late: in order, each window spans the window size, holds only samples
    whose time lies in it, and begins no earlier than the previous one ended;
    one number is passed on for every window but the last, open one, and it is
    the batch computation over the samples of that window. *)
Theorem window_time_partition pow2 size txt ct caddies xs rs st' :
  orcm_util_get_time_in_sec (Some txt) = Ret size -> 0 < size < 2 ^ 61 -> known_compute_type ct = true ->
  delivers true txt ct (cs "time") caddies xs -> xs <> [] -> volume (snd <$> xs) < 2 ^ 31 ->
  feed pow2 None caddies = Ret (rs, st') ->
  exists ws open, chained size 0 (ws ++ [open]) /\
    accepted xs rs = (ws ++ [open]) ≫= tw_items /\
    omap snd rs = closed pow2 (kind_of ct) <$> ws.
Proof.
  intros Htxt Hsize Hct Hd Hne Hv Hf.
  assert (Hall : Forall (fun x => 0 <= fst x < 2 ^ 61) xs) by (clear -Hd; induction Hd; by constructor).
  destruct (feed_windows pow2 true size txt ct (cs "time") Htxt Hsize Hct eq_refl caddies xs None None Hd
    (fresh_rep _ _ _ _ _) Hv) as (st1 & E & _).
  rewrite E in Hf. injection Hf as <- _. destruct xs as [|[t ds] xs]; [done|].
  apply Forall_cons_iff in Hall as [Ht Hall]. cbn [fst] in Ht. cbn [windows window_step time_step].
  destruct (windows _ _ _ _ _ xs) as [rs1 cur1] eqn:E1.
  destruct (time_partition pow2 size (kind_of ct) t [(t, ds)] xs rs1 cur1) as (its' & ws & last & H1 & H2 & H3 & H4 & H5);
    [done|lia| |done|exact E1|].
  { constructor; [cbn; lia|done]. }
  exists (removelast (MkTWin t ([(t, ds)] ++ its') :: ws)), last. rewrite H1. split_and!.
  - cbn [chained tw_left]. split_and!; [lia|done|done].
  - unfold accepted in *. cbn. by rewrite H5.
  - cbn. by rewrite H4.
Qed.

(** ** Extremes *)
(** A window that computes the minimum passes on the least of
    its numbers, and one that computes the maximum the greatest of its numbers
    and of the smallest positive normal number. *)
Theorem window_extremes pow2 st left vs ct :
  compute_type st = Some ct -> vs <> [] ->
  exists st1 st2 r, reset_window st left (win_size st) = Ret st1 /\
    accumulate_data pow2 st1 vs = Ret st2 /\ computing pow2 st2 = Ret r /\
    let ds := orcm_util_get_number_orcm_value <$> vs in
    (kind_of ct = Min -> least r (DBL_MAX :: ds)) /\ (kind_of ct = Max -> greatest r (DBL_MIN :: ds)).
Proof.
  intros Hct Hne. unfold reset_window. rewrite Hct. cbn [deref]. rewrite bind_Ret.
  eexists _, _, _. split; [done|]. unfold accumulate_data. destruct vs as [|v vs]; [done|].
  cbn [compute_type with_sums with_counts with_bounds]. rewrite Hct. cbn [deref]. rewrite bind_Ret, accumulate_fold.
  split; [done|]. unfold computing. cbn [compute_type with_sums with_counts with_bounds]. rewrite Hct. cbn [deref].
  rewrite bind_Ret. split; [done|]. cbn zeta. rewrite kind_average, kind_min, kind_max.
  split; intros ->; cbn [sum_min_max with_sums with_counts with_bounds orb].
  - by apply fold_min_least.
  - by apply fold_max_greatest.
Qed.

(** A maximum over numbers none of which exceeds the
    smallest positive normal number, such as temperatures below zero, is
    reported as that number, whatever the samples are. *)
Theorem window_max_negative pow2 st left vs ct :
  compute_type st = Some ct -> vs <> [] -> kind_of ct = Max ->
  Forall (fun v => dltb DBL_MIN (orcm_util_get_number_orcm_value v) = false) vs ->
  exists st1 st2, reset_window st left (win_size st) = Ret st1 /\
    accumulate_data pow2 st1 vs = Ret st2 /\ computing pow2 st2 = Ret DBL_MIN.
Proof.
  intros Hct Hne Hk Hall. unfold reset_window. rewrite Hct. cbn [deref]. rewrite bind_Ret.
  eexists _, _. split; [done|]. unfold accumulate_data. destruct vs as [|v vs]; [done|].
  cbn [compute_type with_sums with_counts with_bounds]. rewrite Hct. cbn [deref]. rewrite bind_Ret, accumulate_fold.
  split; [done|]. unfold computing. cbn [compute_type with_sums with_counts with_bounds]. rewrite Hct. cbn [deref].
  rewrite bind_Ret, kind_average, kind_min, kind_max, Hk. cbn [sum_min_max with_sums with_counts with_bounds orb].
  by rewrite fold_max_stuck by by apply Forall_fmap.
Qed.

(** ** Concrete samples *)
Definition int_value (z : Z) : orcm_value_t := MkOrcmValue (Some (cs "core0")) OPAL_INT (VInt z) (Some (cs "C")).

Definition sample_caddy (attrs : list orcm_value_t) (sec : Z) (zs : list Z) : orcm_workflow_caddy_t :=
  MkWfCaddy (Some (MkStep attrs (Some (cs "window")) 1)) (Some (MkWorkflow (Some (cs "wf")) (Some (cs "All")) 3)) 17
    (Some (MkAnalyticsValue (Some [attr (cs "hostname") (cs "n01")])
             (Some [MkOrcmValue (Some (cs "ctime")) OPAL_TIMEVAL (VTimeval sec 0) None])
             (Some (int_value <$> zs)))) true.

Lemma sample_carries timed txt ct wt sec z zs :
  0 <= sec < 2 ^ 61 ->
  exists j, carries timed (window_attributes txt ct wt) (sample_caddy (window_attributes txt ct wt) sec (z :: zs))
    sec (int_value <$> z :: zs) j.
Proof.
  intros Hsec. eexists. split; cbn; try done; [by eexists _, _|]. eexists. split; [done|]. intros _. cbn.
  unfold orcm_analytics_base_timeval_to_uint64. change (dleb _ _) with false. cbv iota. by rewrite u64_small by lia.
Qed.

Definition square (x : double) : double := dmul x x.

Abbreviation counter_attrs := (window_attributes (cs "2") (cs "min") (cs "counter")).
Abbreviation time_attrs := (window_attributes (cs "1m") (cs "average") (cs "time")).
Abbreviation at0 := ((0, 0) : Z * Z).

Lemma counter_delivers : delivers false (cs "2") (cs "min") (cs "counter")
  [(at0, sample_caddy counter_attrs 0 [5]); (at0, sample_caddy counter_attrs 0 [3; 9])]
  [(0, [of_int 5]); (0, [of_int 3; of_int 9])].
Proof.
  destruct (sample_carries false (cs "2") (cs "min") (cs "counter") 0 5 []) as [j1 H1]; [lia|].
  destruct (sample_carries false (cs "2") (cs "min") (cs "counter") 0 3 [9]) as [j2 H2]; [lia|].
  exact (delivers_cons _ _ _ _ at0 _ _ _ j1 _ _ H1 ltac:(lia)
    (delivers_cons _ _ _ _ at0 _ _ _ j2 _ _ H2 ltac:(lia) (delivers_nil _ _ _ _))).
Qed.

Lemma time_delivers : delivers true (cs "1m") (cs "average") (cs "time")
  [(at0, sample_caddy time_attrs 100 [5]); (at0, sample_caddy time_attrs 130 [7]); (at0, sample_caddy time_attrs 165 [1])]
  [(100, [of_int 5]); (130, [of_int 7]); (165, [of_int 1])].
Proof.
  destruct (sample_carries true (cs "1m") (cs "average") (cs "time") 100 5 []) as [j1 H1]; [lia|].
  destruct (sample_carries true (cs "1m") (cs "average") (cs "time") 130 7 []) as [j2 H2]; [lia|].
  destruct (sample_carries true (cs "1m") (cs "average") (cs "time") 165 1 []) as [j3 H3]; [lia|].
  exact (delivers_cons _ _ _ _ at0 _ _ _ j1 _ _ H1 ltac:(lia)
    (delivers_cons _ _ _ _ at0 _ _ _ j2 _ _ H2 ltac:(lia)
      (delivers_cons _ _ _ _ at0 _ _ _ j3 _ _ H3 ltac:(lia) (delivers_nil _ _ _ _)))).
Qed.

Lemma window_refines_witness :
  exists st', feed square None [(at0, sample_caddy time_attrs 100 [5]); (at0, sample_caddy time_attrs 130 [7]);
                                (at0, sample_caddy time_attrs 165 [1])] =
    Ret ([(OPAL_SUCCESS, None); (OPAL_SUCCESS, None); (OPAL_SUCCESS, Some (of_int 6))], st').
Proof.
  destruct (window_refines square true 60 (cs "1m") (cs "average") (cs "time") _ _ eq_refl ltac:(lia) eq_refl eq_refl
    time_delivers ltac:(vm_compute; reflexivity)) as (st' & E & _).
  exists st'. rewrite E. vm_compute. reflexivity.
Defined.

Lemma window_counter_blocks_witness :
  exists rs st', feed square None [(at0, sample_caddy counter_attrs 0 [5]); (at0, sample_caddy counter_attrs 0 [3; 9])] =
    Ret (rs, st') /\ rs !! 1%nat = Some (OPAL_SUCCESS, Some (of_int 3)).
Proof.
  eexists _, _.
  assert (E : feed square None [(at0, sample_caddy counter_attrs 0 [5]); (at0, sample_caddy counter_attrs 0 [3; 9])] =
    Ret (_, _)) by (vm_compute; reflexivity).
  split; [exact E|].
  exact (f_equal Some (window_counter_blocks square 2 (cs "2") (cs "min") _ _ _ _ 1 _ eq_refl ltac:(lia) eq_refl
    counter_delivers ltac:(vm_compute; reflexivity) E eq_refl)).
Defined.

Lemma window_time_partition_witness :
  exists rs st' ws open,
    feed square None [(at0, sample_caddy time_attrs 100 [5]); (at0, sample_caddy time_attrs 130 [7]);
                      (at0, sample_caddy time_attrs 165 [1])] = Ret (rs, st') /\
    chained 60 0 (ws ++ [open]).
Proof.
  eexists _, _.
  assert (E : feed square None [(at0, sample_caddy time_attrs 100 [5]); (at0, sample_caddy time_attrs 130 [7]);
                      (at0, sample_caddy time_attrs 165 [1])] = Ret (_, _)) by (vm_compute; reflexivity).
  destruct (window_time_partition square 60 (cs "1m") (cs "average") _ _ _ _ eq_refl ltac:(lia) eq_refl
    time_delivers ltac:(done) ltac:(vm_compute; reflexivity) E) as (ws & open & Hc & _).
  exists ws, open. split; [exact E|exact Hc].
Defined.

(** Statistics that wait for their first sample. *)
Definition sample_stats (ct : cstr) : win_statistics_t := MkWin 60 0 0 0 0 d0 d0 (Some ct) (Some (cs "time")).

Lemma window_extremes_witness :
  exists st1 st2 r, reset_window (sample_stats (cs "min")) 0 60 = Ret st1 /\
    accumulate_data square st1 [int_value 4; int_value (-2)] = Ret st2 /\ computing square st2 = Ret r /\
    least r [DBL_MAX; of_int 4; of_int (-2)].
Proof.
  destruct (window_extremes square (sample_stats (cs "min")) 0 [int_value 4; int_value (-2)] (cs "min") eq_refl
    ltac:(done)) as (st1 & st2 & r & H1 & H2 & H3 & H4 & _).
  exists st1, st2, r. split_and!; [exact H1|exact H2|exact H3|exact (H4 eq_refl)].
Defined.

Lemma window_max_negative_witness :
  exists st1 st2, reset_window (sample_stats (cs "max")) 0 60 = Ret st1 /\
    accumulate_data square st1 [int_value (-5); int_value (-2)] = Ret st2 /\ computing square st2 = Ret DBL_MIN.
Proof.
  apply (window_max_negative square (sample_stats (cs "max")) 0 [int_value (-5); int_value (-2)] (cs "max"));
    [reflexivity|done|reflexivity|repeat constructor].
Defined.
