(* ===== verification/AnalyticsAggregate.v ===== *)
(** * The aggregate plugin ([orcm/mca/analytics/aggregate/analytics_aggregate.c])

    A running average, minimum or maximum over all values a workflow step has
    seen.  The module's data store is [orcm_analytics_aggregate]; [init] has
    created it, so it is never NULL. *)

From S2P Require Import Prelude CString Dss DssValue Float64 OrcmUtil AnalyticsBase AnalyticsWindow WindowProps WindowClaims.
From stdpp Require Import base strings list.
From Stdlib Require Import ZArith Lia Ascii.

Open Scope Z_scope.

Record orcm_analytics_aggregate : Type := MkAgg {
  ag_average : double;
  ag_min : double;
  ag_max : double;
  ag_num_sample : Z
}.

Definition orcm_analytics_aggregate_con : orcm_analytics_aggregate := MkAgg d0 DBL_MAX (dopp DBL_MAX) 0.

(** The first item of an empty list is its sentinel, which has no key. *)
Definition get_operation_name (attributes : list orcm_value_t) : outcome (option cstr) :=
  temp ← deref (head attributes);
  k ← deref (ov_key temp);
  if strcmp0 k (cs "compute") then
    if is_null (data_string temp) then Ret None
    else s ← deref_string (data_string temp); Ret (Some s)
  else Ret None.

(** Each operation returns the value of the result and the store. *)
Definition compute_average (agg : orcm_analytics_aggregate) (ds : list double)
    : double * orcm_analytics_aggregate :=
  let sum := foldl dadd d0 ds in
  let size := Z.of_nat (length ds) in
  let dval := ddiv (dadd (dmul (ag_average agg) (of_int (ag_num_sample agg))) sum)
                (of_int (u64 (ag_num_sample agg + size))) in
  (dval, MkAgg dval (ag_min agg) (ag_max agg) (u32 (ag_num_sample agg + size))).

Definition compute_min (agg : orcm_analytics_aggregate) (ds : list double) : double * orcm_analytics_aggregate :=
  foldl (fun '(dval, agg) val =>
           if dltb val (ag_min agg) then (val, MkAgg (ag_average agg) val (ag_max agg) (ag_num_sample agg))
           else (dval, agg)) (ag_min agg, agg) ds.

Definition compute_max (agg : orcm_analytics_aggregate) (ds : list double) : double * orcm_analytics_aggregate :=
  foldl (fun '(dval, agg) val =>
           if dltb (ag_max agg) val then (val, MkAgg (ag_average agg) (ag_min agg) val (ag_num_sample agg))
           else (dval, agg)) (ag_max agg, agg) ds.

(** [strncmp(op, name, strlen(op))]: any beginning of a name is accepted. *)
Definition compute_agg (op data_key : cstr) (compute : list orcm_value_t) (agg : orcm_analytics_aggregate)
    : outcome (option orcm_value_t * orcm_analytics_aggregate) :=
  temp ← deref (head compute);
  let ds := orcm_util_get_number_orcm_value <$> compute in
  let value d := MkOrcmValue (Some data_key) OPAL_DOUBLE (VDouble d) (ov_units temp) in
  Ret (if starts_with op (cs "average") then
         let '(d, agg) := compute_average agg ds in (Some (value d), agg)
       else if starts_with op (cs "min") then
         let '(d, agg) := compute_min agg ds in (Some (value d), agg)
       else if starts_with op (cs "max") then
         let '(d, agg) := compute_max agg ds in (Some (value d), agg)
       else (None, agg)).

Definition analyze (now : Z * Z) (agg : orcm_analytics_aggregate) (cbdata : option orcm_workflow_caddy_t)
    : outcome (analyzed orcm_analytics_aggregate) :=
  let rc := orcm_analytics_base_assert_caddy_data cbdata in
  if negb (rc =? OPAL_SUCCESS) then Ret (rc, agg, [], None)
  else
    caddy ← deref cbdata;
    j ← caddy_job caddy;
    compute ← deref (av_compute_data (j_value j));
    match compute with
    | [] => Ret (OPAL_SUCCESS, agg, [], None)
    | _ =>
      operation ← get_operation_name (ws_attributes (j_step j));
      match operation with
      | None => Ret (OPAL_ERR_BAD_PARAM, agg, [], None)
      | Some op =>
        let data_key := orcm_analytics_base_data_key (Some op) (j_wf j) (j_step j) in
        '(value, agg) ← compute_agg op data_key compute agg;
        match value with
        | None => Ret (OPAL_ERR_BAD_PARAM, agg, [], None)
        | Some v =>
          let next := orcm_util_load_analytics_time_compute now (av_key (j_value j))
                        (av_non_compute_data (j_value j)) (Some [v]) in
          db ← orcm_analytics_base_db_check (ws_attributes (j_step j));
          if db : bool then
            '(rc, ras) ← orcm_analytics_base_log_to_database_event next;
            Ret (if rc =? OPAL_SUCCESS then (OPAL_SUCCESS, agg, ras, Some (j_hash_key j, next))
                 else (rc, agg, ras, None))
          else Ret (OPAL_SUCCESS, agg, [], Some (j_hash_key j, next))
        end
      end
    end.

(** ** Properties *)
Lemma compute_min_fold agg ds :
  compute_min agg ds =
  (foldl keep_min (ag_min agg) ds,
   MkAgg (ag_average agg) (foldl keep_min (ag_min agg) ds) (ag_max agg) (ag_num_sample agg)).
Proof.
  unfold compute_min. revert agg. induction ds as [|d ds IH]; intros agg; cbn [foldl]; [by destruct agg|].
  unfold keep_min at 2 4. destruct (dltb d (ag_min agg)); [|exact (IH agg)].
  exact (IH (MkAgg (ag_average agg) d (ag_max agg) (ag_num_sample agg))).
Qed.

Lemma compute_max_fold agg ds :
  compute_max agg ds =
  (foldl keep_max (ag_max agg) ds,
   MkAgg (ag_average agg) (ag_min agg) (foldl keep_max (ag_max agg) ds) (ag_num_sample agg)).
Proof.
  unfold compute_max. revert agg. induction ds as [|d ds IH]; intros agg; cbn [foldl]; [by destruct agg|].
  unfold keep_max at 2 4. destruct (dltb (ag_max agg) d); [|exact (IH agg)].
  exact (IH (MkAgg (ag_average agg) (ag_min agg) d (ag_num_sample agg))).
Qed.

(** The module over a sequence of caddies. *)
Fixpoint feed_aggregate (agg : orcm_analytics_aggregate) (cs : list (Z * Z * orcm_workflow_caddy_t))
    : outcome (list (Z * option double) * orcm_analytics_aggregate) :=
  match cs with
  | [] => Ret ([], agg)
  | (now, c) :: cs' =>
    '(rc, agg, _, next) ← analyze now agg (Some c);
    '(rs, agg) ← feed_aggregate agg cs';
    Ret ((rc, emitted next) :: rs, agg)
  end.

(** Caddies of a step that computes [op], and the numbers they carry. *)
Inductive aggregates (op : cstr) : list (Z * Z * orcm_workflow_caddy_t) -> list (list double) -> Prop :=
| aggregates_nil : aggregates op [] []
| aggregates_cons now c t vs j l xs :
    carries false [attr (cs "compute") op] c t vs j -> aggregates op l xs ->
    aggregates op ((now, c) :: l) ((orcm_util_get_number_orcm_value <$> vs) :: xs).

(** The extremes seen so far, after each sample. *)
Fixpoint running_extremes (f : double -> double -> double) (m : double) (xs : list (list double)) : list double :=
  match xs with [] => [] | ds :: xs' => foldl f m ds :: running_extremes f (foldl f m ds) xs' end.

Lemma running_lookup f m xs i d :
  running_extremes f m xs !! i = Some d -> d = foldl f m (concat (take (S i) xs)).
Proof.
  revert m i. induction xs as [|ds xs IH]; intros m i; [done|]. destruct i as [|i]; cbn.
  - intros [= <-]. by rewrite app_nil_r.
  - intros H%IH. by rewrite foldl_app.
Qed.

Lemma length_running f m xs : length (running_extremes f m xs) = length xs.
Proof. revert m. induction xs as [|ds xs IH]; intros m; [done|]. cbn. by rewrite IH. Qed.

(** A step with one attribute passes on what its operation computes. *)
Lemma analyze_value op now agg c t vs j :
  carries false [attr (cs "compute") op] c t vs j ->
  exists key units, (forall d agg',
    compute_agg op key vs agg = Ret (Some (MkOrcmValue (Some key) OPAL_DOUBLE (VDouble d) units), agg') ->
    exists next, analyze now agg (Some c) = Ret (OPAL_SUCCESS, agg', [], next) /\ emitted next = Some d) /\
    (ov_units <$> head vs) = Some units.
Proof.
  intros [Hok Hjob Hattrs _ _ Hdata Hsome]. destruct vs as [|v vs]; [done|].
  exists (orcm_analytics_base_data_key (Some op) (j_wf j) (j_step j)), (ov_units v). split; [|done]. intros d agg' E.
  unfold analyze. rewrite Hok. cbn [Z.eqb OPAL_SUCCESS negb deref].
  rewrite bind_Ret, Hjob, bind_Ret, Hdata. cbn [deref]. rewrite bind_Ret, Hattrs.
  change (get_operation_name [attr (cs "compute") op]) with (Ret (Some op)). rewrite bind_Ret, E, bind_Ret.
  change (orcm_analytics_base_db_check [attr (cs "compute") op]) with (Ret false). rewrite bind_Ret. by eexists.
Qed.

Lemma analyze_min now agg c t vs j :
  carries false [attr (cs "compute") (cs "min")] c t vs j ->
  exists agg' next, analyze now agg (Some c) = Ret (OPAL_SUCCESS, agg', [], next) /\
    emitted next = Some (ag_min agg') /\
    ag_min agg' = foldl keep_min (ag_min agg) (orcm_util_get_number_orcm_value <$> vs).
Proof.
  intros Hc. destruct (analyze_value _ now agg _ _ _ _ Hc) as (key & units & H & Hu).
  destruct vs as [|v vs]; [done|]. injection Hu as <-. edestruct H as (next & E & Hem).
  - unfold compute_agg. cbn [head deref]. rewrite bind_Ret, compute_min_fold. done.
  - eexists _, next. by split_and!.
Qed.

Lemma analyze_max now agg c t vs j :
  carries false [attr (cs "compute") (cs "max")] c t vs j ->
  exists agg' next, analyze now agg (Some c) = Ret (OPAL_SUCCESS, agg', [], next) /\
    emitted next = Some (ag_max agg') /\
    ag_max agg' = foldl keep_max (ag_max agg) (orcm_util_get_number_orcm_value <$> vs).
Proof.
  intros Hc. destruct (analyze_value _ now agg _ _ _ _ Hc) as (key & units & H & Hu).
  destruct vs as [|v vs]; [done|]. injection Hu as <-. edestruct H as (next & E & Hem).
  - unfold compute_agg. cbn [head deref]. rewrite bind_Ret, compute_max_fold. done.
  - eexists _, next. by split_and!.
Qed.

Lemma feed_min l xs agg :
  aggregates (cs "min") l xs ->
  exists agg', feed_aggregate agg l =
    Ret ((fun d => (OPAL_SUCCESS, Some d)) <$> running_extremes keep_min (ag_min agg) xs, agg').
Proof.
  intros H. revert agg. induction H as [|now c t vs j l xs Hc Hd IH]; intros agg; [by eexists|].
  cbn [feed_aggregate]. destruct (analyze_min now agg c t vs j Hc) as (agg1 & next & -> & Hem & Hmin).
  rewrite bind_Ret. destruct (IH agg1) as (agg2 & ->). rewrite bind_Ret, Hem, Hmin. by eexists.
Qed.

Lemma feed_max l xs agg :
  aggregates (cs "max") l xs ->
  exists agg', feed_aggregate agg l =
    Ret ((fun d => (OPAL_SUCCESS, Some d)) <$> running_extremes keep_max (ag_max agg) xs, agg').
Proof.
  intros H. revert agg. induction H as [|now c t vs j l xs Hc Hd IH]; intros agg; [by eexists|].
  cbn [feed_aggregate]. destruct (analyze_max now agg c t vs j Hc) as (agg1 & next & -> & Hem & Hmax).
  rewrite bind_Ret. destruct (IH agg1) as (agg2 & ->). rewrite bind_Ret, Hem, Hmax. by eexists.
Qed.

(** From a fresh module, every sample makes the step pass on
    the least (greatest) of all numbers it has been given so far, counting
    from the greatest finite number (its negation): the incremental
    computation agrees with one over the whole history. *)
Theorem aggregate_extremes (max : bool) caddies xs rs agg' i r :
  aggregates (if max then cs "max" else cs "min") caddies xs ->
  feed_aggregate orcm_analytics_aggregate_con caddies = Ret (rs, agg') -> rs !! i = Some r ->
  exists d, r = (OPAL_SUCCESS, Some d) /\
    if max then greatest d (dopp DBL_MAX :: concat (take (S i) xs))
    else least d (DBL_MAX :: concat (take (S i) xs)).
Proof.
  intros Ha Hf Hi. destruct max.
  - destruct (feed_max _ _ orcm_analytics_aggregate_con Ha) as (agg2 & E). rewrite E in Hf. injection Hf as <- _.
    apply list_lookup_fmap_Some in Hi as (d & Hr & Hd). exists d. split; [done|].
    rewrite (running_lookup _ _ _ _ _ Hd). by apply fold_max_greatest.
  - destruct (feed_min _ _ orcm_analytics_aggregate_con Ha) as (agg2 & E). rewrite E in Hf. injection Hf as <- _.
    apply list_lookup_fmap_Some in Hi as (d & Hr & Hd). exists d. split; [done|].
    rewrite (running_lookup _ _ _ _ _ Hd). by apply fold_min_least.
Qed.

Lemma aggregate_extremes_witness :
  exists rs agg', feed_aggregate orcm_analytics_aggregate_con
      [((0, 0), sample_caddy [attr (cs "compute") (cs "max")] 0 [-5; -2]);
       ((0, 0), sample_caddy [attr (cs "compute") (cs "max")] 0 [-9])] = Ret (rs, agg') /\
    exists r d, rs !! 1%nat = Some r /\ r = (OPAL_SUCCESS, Some d) /\
      greatest d [dopp DBL_MAX; of_int (-5); of_int (-2); of_int (-9)].
Proof.
  assert (Ha : aggregates (cs "max") [((0, 0), sample_caddy [attr (cs "compute") (cs "max")] 0 [-5; -2]);
       ((0, 0), sample_caddy [attr (cs "compute") (cs "max")] 0 [-9])] [[of_int (-5); of_int (-2)]; [of_int (-9)]]).
  { assert (H : forall z zs, exists j, carries false [attr (cs "compute") (cs "max")]
      (sample_caddy [attr (cs "compute") (cs "max")] 0 (z :: zs)) 0 (int_value <$> z :: zs) j).
    { intros z zs. eexists. split; cbn; try done; [by eexists _, _|]. by eexists. }
    destruct (H (-5) [-2]) as [j1 H1], (H (-9) []) as [j2 H2].
    exact (aggregates_cons _ (0, 0) _ _ _ j1 _ _ H1 (aggregates_cons _ (0, 0) _ _ _ j2 _ _ H2 (aggregates_nil _))). }
  eexists _, _.
  assert (E : feed_aggregate orcm_analytics_aggregate_con
      [((0, 0), sample_caddy [attr (cs "compute") (cs "max")] 0 [-5; -2]);
       ((0, 0), sample_caddy [attr (cs "compute") (cs "max")] 0 [-9])] = Ret (_, _)) by (vm_compute; reflexivity).
  split; [exact E|].
  destruct (aggregate_extremes true _ _ _ _ 1 _ Ha E eq_refl) as (d & Hr & Hd).
  eexists _, d. split; [reflexivity|]. split; [exact Hr|exact Hd].
Defined.
