(* ===== verification/AnalyticsThreshold.v ===== *)
(** * The threshold plugin ([orcm/mca/analytics/threshold/analytics_threshold.c])

    Values at or above the high mark, or at or below the low mark, of the
    step's policy are passed on, and each makes a notification event, which
    goes through the suppression of [EventSuppression.v].  The policy is read
    from the attributes at the first sample.

    [strtod] (value and whether [errno] was set) and [fmt_02f] (the text of
    [%.02f]) are those of the C library. *)

From S2P Require Import Prelude CString Argv HashTable Dss DssValue Float64 OrcmUtil AnalyticsBase.
From S2P Require Import EventSuppression AnalyticsWindow.
From stdpp Require Import base strings list gmap.
From Stdlib Require Import ZArith Lia Ascii.

Open Scope Z_scope.

Record orcm_mca_analytics_threshold_policy_t : Type := MkPolicy {
  tp_hi : double;
  tp_hi_sev : Z;
  tp_hi_action : option cstr;
  tp_low : double;
  tp_low_sev : Z;
  tp_low_action : option cstr
}.

Abbreviation policy_t := orcm_mca_analytics_threshold_policy_t.

Definition threshold_policy_t_con : policy_t :=
  MkPolicy d0 ORCM_RAS_SEVERITY_INFO None d0 ORCM_RAS_SEVERITY_INFO None.

(** Which mark a value crosses: its severity and action. *)
Definition crossing (p : policy_t) (val : double) : option (bool * Z * cstr) :=
  match (if dleb (tp_hi p) val then tp_hi_action p else None) with
  | Some action => Some (true, tp_hi_sev p, action)
  | None =>
    match (if dleb val (tp_low p) && negb (deqb (tp_low p) (tp_hi p)) then tp_low_action p else None) with
    | Some action => Some (false, tp_low_sev p, action)
    | None => None
    end
  end.

Section Threshold.
Variable calloc_ok : Z -> bool.
Variable suppress_repeat : option cstr.
Variable strtod : cstr -> double * bool.
Variable fmt_02f : double -> cstr.

(** Message, severity and action of a value that crosses a mark. *)
Definition check_threshold (v : orcm_value_t) (p : policy_t) (hostname : cstr) : option (cstr * Z * cstr) :=
  let val := orcm_util_get_number_orcm_value v in
  match crossing p val with
  | None => None
  | Some (hi, sev, action) =>
    Some (hostname ++ cs " " ++ fmt_s (ov_key v) ++ cs " value " ++ fmt_02f val ++ cs " " ++ fmt_s (ov_units v) ++
          (if hi then cs ",greater than threshold " ++ fmt_02f (tp_hi p)
           else cs ", lower than threshold " ++ fmt_02f (tp_low p)) ++ cs " " ++ fmt_s (ov_units v), sev, action)
  end.

(** The values of one sample: the code of the last event made, the values
    passed on and the events. *)
Fixpoint monitor_values (vs : list orcm_value_t) (av : orcm_analytics_value_t) (attributes : list orcm_value_t)
    (p : policy_t) (hostname : cstr) (rc : Z) (threshold_list : list orcm_value_t)
    (event_list : list orcm_ras_event_t) : outcome (Z * list orcm_value_t * list orcm_ras_event_t) :=
  match vs with
  | [] => Ret (rc, threshold_list, event_list)
  | v :: vs' =>
    match check_threshold v p hostname with
    | None => monitor_values vs' av attributes p hostname rc threshold_list event_list
    | Some (msg, sev, action) =>
      '(rc, event_list) ← orcm_analytics_base_gen_notifier_event v av attributes sev (Some msg) (Some action) event_list;
      let threshold_list :=
        match orcm_util_copy_orcm_value v with Some v' => threshold_list ++ [v'] | None => threshold_list end in
      monitor_values vs' av attributes p hostname rc threshold_list event_list
    end
  end.

Definition monitor_threshold (av : orcm_analytics_value_t) (attributes : list orcm_value_t) (p : policy_t)
    : outcome (Z * list orcm_value_t * list orcm_ras_event_t) :=
  match av_compute_data av with
  | None => Ret (OPAL_ERR_BAD_PARAM, [], [])
  | Some compute_data =>
    key ← deref (av_key av);
    hostname ← orcm_analytics_get_hostname_from_attributes key;
    monitor_values compute_data av attributes p hostname OPAL_SUCCESS [] []
  end.

Definition threshold_char (c : ascii) : bool := isdigit c || eqc c "-" || eqc c "+" || eqc c ".".

Definition get_threshold_value (tval : cstr) : Z * double :=
  if negb (forallb threshold_char tval) then (OPAL_ERR_BAD_PARAM, d0)
  else
    let '(val, errno) := strtod tval in
    if deqb d0 val && errno then (OPAL_ERR_BAD_PARAM, val) else (OPAL_SUCCESS, val).

Definition parse_token (token : argv_t) (p : policy_t) : Z * policy_t :=
  match token with
  | Some [which; tval; sev; action] =>
    let '(rc, val) := get_threshold_value tval in
    if negb (rc =? OPAL_SUCCESS) then (rc, p)
    else
      let sev := orcm_analytics_event_get_severity sev in
      if strcmp0 which (cs "hi") then
        (OPAL_SUCCESS, MkPolicy val sev (Some action) (tp_low p) (tp_low_sev p) (tp_low_action p))
      else if strcmp0 which (cs "low") then
        (OPAL_SUCCESS, MkPolicy (tp_hi p) (tp_hi_sev p) (tp_hi_action p) val sev (Some action))
      else (OPAL_ERR_BAD_PARAM, p)
  | _ => (OPAL_ERR_BAD_PARAM, p)
  end.

Fixpoint parse_tokens (policy : list cstr) (p : policy_t) : outcome (Z * policy_t) :=
  match policy with
  | [] => Ret (OPAL_SUCCESS, p)
  | entry :: policy' =>
    token ← opal_argv_split (Some entry) "|";
    let '(rc, p) := parse_token token p in
    if negb (rc =? OPAL_SUCCESS) then Ret (rc, p) else parse_tokens policy' p
  end.

Definition get_threshold_policy (attributes : list orcm_value_t) (p : policy_t) : outcome (Z * policy_t) :=
  temp ← deref (head attributes);
  k ← deref (ov_key temp);
  if negb (strcmp0 k (cs "policy")) then Ret (OPAL_ERR_BAD_PARAM, p)
  else
    text ← (if is_null (data_string temp) then Ret None else s ← deref_string (data_string temp); Ret (Some s));
    policy ← opal_argv_split text ",";
    let count := opal_argv_count policy in
    if (count =? 0) || (2 <? count) then Ret (OPAL_ERR_BAD_PARAM, p) else parse_tokens (argv_list policy) p.

(** What [analyze] does once the policy is known. *)
Definition apply_policy (p : policy_t) (es : event_store) (j : job) : outcome (analyzed (policy_t * event_store)) :=
  let attributes := ws_attributes (j_step j) in
  '(rc, threshold_list, event_list) ← monitor_threshold (j_value j) attributes p;
  if negb (rc =? OPAL_SUCCESS) then Ret (rc, (p, es), [], None)
  else
    let next := orcm_util_load_orcm_analytics_value_compute (av_key (j_value j))
                  (av_non_compute_data (j_value j)) (Some threshold_list) in
    db ← orcm_analytics_base_db_check attributes;
    '(rc, ras) ← (if db : bool then orcm_analytics_base_log_to_database_event next else Ret (OPAL_SUCCESS, []));
    if negb (rc =? OPAL_SUCCESS) then Ret (rc, (p, es), ras, None)
    else
      '(passed, es) ← match event_list with
                      | [] => Ret ([], es)
                      | _ => orcm_analytics_base_filter_events calloc_ok suppress_repeat es event_list attributes
                      end;
      Ret (OPAL_SUCCESS, (p, es), ras ++ passed, Some (j_hash_key j, next)).

(** The module: its policy and the time stamps of its events. *)
Definition analyze (p : policy_t) (es : event_store) (cbdata : option orcm_workflow_caddy_t)
    : outcome (analyzed (policy_t * event_store)) :=
  let rc := orcm_analytics_base_assert_caddy_data cbdata in
  if negb (rc =? OPAL_SUCCESS) then Ret (rc, (p, es), [], None)
  else
    caddy ← deref cbdata;
    j ← caddy_job caddy;
    '(rc, p) ← match tp_hi_action p, tp_low_action p with
               | None, None => get_threshold_policy (ws_attributes (j_step j)) p
               | _, _ => Ret (OPAL_SUCCESS, p)
               end;
    if negb (rc =? OPAL_SUCCESS) then Ret (rc, (p, es), [], None) else apply_policy p es j.
End Threshold.

(** ** Properties *)
Definition known (v : orcm_value_t) : Prop := known_type (ov_type v) = true.

(** The parts of a sample an event is made of. *)
Definition event_parts (av : orcm_analytics_value_t) (ks nc : list orcm_value_t) (ts : Z) : Prop :=
  av_key av = Some ks /\ Forall known ks /\ av_non_compute_data av = Some nc /\ Forall known nc /\
  orcm_analytics_base_event_set_time nc = Ret ts.

(** An action that is neither [none] nor [exec] nor a beginning of one. *)
Definition plain (action : cstr) : Prop :=
  starts_with action (cs "none") = false /\ starts_with action (cs "exec") = false.

Lemma create_event av ks nc ts v sev :
  event_parts av ks nc ts -> known v ->
  exists ev, orcm_analytics_base_event_create (orcm_analytics_base_get_analytics_value v av)
      ORCM_RAS_EVENT_EXCEPTION sev = Ret (Some ev) /\
    ev_reporter ev = ks /\ ev_data ev = [v] /\ ev_severity ev = sev /\ ev_timestamp ev = ts.
Proof.
  intros (Hk & Hks & Hn & Hnc & Hts) Hv. unfold orcm_analytics_base_get_analytics_value, orcm_util_copy_orcm_value.
  rewrite Hv. unfold orcm_analytics_base_event_create, orcm_util_load_orcm_analytics_value_compute.
  cbn [av_key av_compute_data av_non_compute_data]. rewrite Hk, Hn. cbn [orcm_util_copy_list_items].
  rewrite (copy_items_app ks) by done. cbn [Z.eqb OPAL_SUCCESS negb app].
  rewrite (copy_items_app [v]) by by constructor. cbn [Z.eqb OPAL_SUCCESS negb app deref].
  rewrite bind_Ret, Hts, bind_Ret, (copy_items_app nc) by done. destruct (_ && _); by eexists.
Qed.

Lemma notifier_event av ks nc ts v attrs sev msg action evs :
  event_parts av ks nc ts -> known v -> plain action ->
  exists ev, orcm_analytics_base_gen_notifier_event v av attrs sev msg (Some action) evs =
      Ret (OPAL_SUCCESS, evs ++ [ev]) /\
    ev_reporter ev = ks /\ ev_data ev = [v] /\ ev_severity ev = sev /\ ev_timestamp ev = ts.
Proof.
  intros Hp Hv [Hnone Hexec]. unfold orcm_analytics_base_gen_notifier_event. rewrite Hnone.
  destruct (create_event av ks nc ts v sev Hp Hv) as (ev & -> & H1 & H2 & H3 & H4). rewrite bind_Ret.
  unfold orcm_analytics_base_event_set_notifier_attr. cbn -[cs]. rewrite Hexec. cbn -[cs]. by eexists.
Qed.

(** A value is above if it is at or over the high mark, and that has an action;
    it is below if it is not above, at or under the low mark, the two marks
    differ and the low one has an action. *)
Definition above (p : policy_t) (v : orcm_value_t) : Prop :=
  dleb (tp_hi p) (orcm_util_get_number_orcm_value v) = true /\ is_Some (tp_hi_action p).
Definition below (p : policy_t) (v : orcm_value_t) : Prop :=
  ~ above p v /\ dleb (orcm_util_get_number_orcm_value v) (tp_low p) = true /\ deqb (tp_low p) (tp_hi p) = false /\ is_Some (tp_low_action p).

#[export] Instance above_dec p v : Decision (above p v).
Proof. unfold above. apply _. Defined.
#[export] Instance below_dec p v : Decision (below p v).
Proof. unfold below. apply _. Defined.

Definition reported (p : policy_t) : list orcm_value_t -> list orcm_value_t := filter (fun v => above p v \/ below p v).

(** The event of a value: of whom, with which value, severity and time. *)
Record event_of (p : policy_t) (ks : list orcm_value_t) (ts : Z) (v : orcm_value_t) (ev : orcm_ras_event_t) : Prop := {
  eo_reporter : ev_reporter ev = ks;
  eo_data : ev_data ev = [v];
  eo_high : above p v -> ev_severity ev = tp_hi_sev p;
  eo_low : below p v -> ev_severity ev = tp_low_sev p;
  eo_time : ev_timestamp ev = ts
}.

Lemma crossing_spec p v :
  match crossing p (orcm_util_get_number_orcm_value v) with
  | Some (hi, sev, action) => (above p v /\ sev = tp_hi_sev p /\ tp_hi_action p = Some action) \/
                              (below p v /\ sev = tp_low_sev p /\ tp_low_action p = Some action)
  | None => ~ above p v /\ ~ below p v
  end.
Proof.
  unfold crossing, below, above. destruct (dleb (tp_hi p) _), (tp_hi_action p); cbn; [left; naive_solver|..];
    destruct (dleb _ (tp_low p)), (deqb _ _), (tp_low_action p); cbn; naive_solver.
Qed.

Lemma monitor_reported fmt av ks nc ts attrs p hostname vs l evs :
  event_parts av ks nc ts -> Forall known vs ->
  (forall a, tp_hi_action p = Some a \/ tp_low_action p = Some a -> plain a) ->
  exists evs', monitor_values fmt vs av attrs p hostname OPAL_SUCCESS l evs = Ret (OPAL_SUCCESS, l ++ reported p vs, evs ++ evs') /\
    Forall2 (event_of p ks ts) (reported p vs) evs'.
Proof.
  intros Hp Hall Hplain. revert l evs. induction Hall as [|v vs Hv Hvs IH]; intros l evs.
  { exists []. cbn. rewrite !app_nil_r. split; [done|constructor]. }
  cbn [monitor_values]. unfold check_threshold, reported. rewrite filter_cons. pose proof (crossing_spec p v) as Hc.
  destruct (crossing p _) as [[[hi sev] action]|]; [|rewrite decide_False by tauto; apply IH].
  assert (Hpl : plain action) by (apply Hplain; naive_solver).
  rewrite decide_True by tauto.
  destruct (notifier_event av ks nc ts v attrs sev (Some (hostname ++ cs " " ++ fmt_s (ov_key v) ++ cs " value " ++
    fmt (orcm_util_get_number_orcm_value v) ++ cs " " ++ fmt_s (ov_units v) ++
    (if hi then cs ",greater than threshold " ++ fmt (tp_hi p) else cs ", lower than threshold " ++ fmt (tp_low p)) ++
    cs " " ++ fmt_s (ov_units v))) action evs Hp Hv Hpl) as (ev & -> & Hrep & Hdata & Hsev & Hts).
  rewrite bind_Ret. unfold orcm_util_copy_orcm_value. rewrite Hv.
  destruct (IH (l ++ [v]) (evs ++ [ev])) as (evs' & -> & H2). exists (ev :: evs').
  rewrite <- !app_assoc. split; [done|]. constructor; [|done]. split; [done|done| | |done]; rewrite Hsev; unfold below in *; naive_solver.
Qed.

(** C32: for a policy whose actions are plain (no beginnings of none or exec, so not empty either), a sample of which
    every value is of a known type is reduced to exactly the values that are at or over the high mark, if that has an
    action, and those that are not and are at or under the low mark, if that has an action and is not equal to the high
    mark.  The values keep their order, and every one of them makes one event that names the sample's reporter, carries
    that value alone, bears the severity of its mark and the time of the sample. *)
Theorem threshold_exact fmt av ks nc ts attrs p hostname vs :
  event_parts av ks nc ts -> av_compute_data av = Some vs -> Forall known vs ->
  orcm_analytics_get_hostname_from_attributes ks = Ret hostname ->
  (forall a, tp_hi_action p = Some a \/ tp_low_action p = Some a -> plain a) ->
  exists evs, monitor_threshold fmt av attrs p = Ret (OPAL_SUCCESS, reported p vs, evs) /\
    Forall2 (event_of p ks ts) (reported p vs) evs.
Proof.
  intros Hp Hvs Hall Hh Hplain. unfold monitor_threshold. rewrite Hvs. destruct Hp as (Hk & Hp').
  rewrite Hk. cbn [deref]. rewrite bind_Ret, Hh, bind_Ret.
  apply (monitor_reported fmt av ks nc ts attrs p hostname vs [] []); [by split|done..].
Qed.

(** The text of a policy entry. *)
Definition entry (which tval sev action : cstr) : cstr := join_spec "|" [which; tval; sev; action].

Lemma split_text l d : l <> [] -> Forall (fun x => x <> [] /\ no_char d x) l ->
  opal_argv_split (Some (join_spec d l)) d = Ret (Some l).
Proof.
  intros Hne Hl. apply (split_inter_join_aux l d false None); [| | |done|done].
  - eapply Forall_imp; [|exact Hl]. by intros ? [].
  - intros _. eapply Forall_imp; [|exact Hl]. by intros ? [].
  - intros x Hx. rewrite Forall_forall in Hl. by apply Hl, last_Some_elem_of.
Qed.

(** A caddy that [analyze] accepts. *)
Definition job_of (c : orcm_workflow_caddy_t) (j : job) : Prop :=
  orcm_analytics_base_assert_caddy_data (Some c) = OPAL_SUCCESS /\ caddy_job c = Ret j.

Definition policy_attribute (text : cstr) : orcm_value_t :=
  MkOrcmValue (Some (cs "policy")) OPAL_STRING (VString (Some text)) None.

Lemma no_char_app d s t : no_char d s -> no_char d t -> no_char d (s ++ t).
Proof. intros. by apply Forall_app. Qed.

Lemma entry_no_comma which tval sev action :
  Forall (no_char ",") [which; tval; sev; action] -> no_char "," (entry which tval sev action).
Proof.
  intros H. repeat apply Forall_cons_iff in H as [? H]. unfold entry. cbn [join_spec].
  apply no_char_app; [done|]. constructor; [done|]. apply no_char_app; [done|]. constructor; [done|].
  apply no_char_app; [done|]. by constructor.
Qed.

Lemma get_policy_text strtod entries rest p :
  entries <> [] -> Forall (fun x => x <> [] /\ no_char "," x) entries -> (length entries <= 2)%nat ->
  get_threshold_policy strtod (policy_attribute (join_spec "," entries) :: rest) p = parse_tokens strtod entries p.
Proof.
  intros Hne Hall Hl. unfold get_threshold_policy, policy_attribute. cbn [head deref ov_key].
  rewrite !bind_Ret. change (strcmp0 (cs "policy") (cs "policy")) with true. cbn [negb data_string ov_data is_null deref_string].
  rewrite !bind_Ret, split_text by done. rewrite bind_Ret. unfold opal_argv_count. cbn [argv_list].
  destruct entries as [|e [|e' [|]]]; cbn in Hl; try lia; done.
Qed.

(** A policy whose first entry is valid and whose second
    does not have four fields is refused at the first sample, but leaves the
    first entry in force: every later sample of the step is handled with that
    half of the policy, and the error is not reported any more. *)
Theorem threshold_partial_policy calloc sr strtod fmt tval sev action bad val token rest es c j :
  Forall (fun x => x <> [] /\ no_char "|" x /\ no_char "," x) [tval; sev; action] ->
  get_threshold_value strtod tval = (OPAL_SUCCESS, val) ->
  bad <> [] -> no_char "," bad -> opal_argv_split (Some bad) "|" = Ret token -> opal_argv_count token <> 4 ->
  job_of c j ->
  ws_attributes (j_step j) = policy_attribute (join_spec "," [entry (cs "hi") tval sev action; bad]) :: rest ->
  exists p, p = MkPolicy val (orcm_analytics_event_get_severity sev) (Some action) d0 ORCM_RAS_SEVERITY_INFO None /\
    analyze calloc sr strtod fmt threshold_policy_t_con es (Some c) =
      Ret (OPAL_ERR_BAD_PARAM, (p, es), [], None) /\
    forall es' c' j', job_of c' j' ->
      analyze calloc sr strtod fmt p es' (Some c') = apply_policy calloc sr fmt p es' j'.
Proof.
  intros Hall Hval Hbad Hcomma Hsplit Hcount [Hok Hjob] Hattrs. eexists. split; [done|].
  repeat apply Forall_cons_iff in Hall as [(? & ? & ?) Hall]. split.
  - unfold analyze. rewrite Hok. cbn [Z.eqb OPAL_SUCCESS negb deref]. rewrite bind_Ret, Hjob, bind_Ret.
    cbn [threshold_policy_t_con tp_hi_action tp_low_action]. rewrite Hattrs, get_policy_text; [|done| |cbn; lia].
    2: { constructor; [split; [done|]|by constructor]. apply entry_no_comma. by repeat constructor. }
    cbn [parse_tokens]. unfold entry. rewrite split_text; [|done|by repeat constructor].
    rewrite bind_Ret. cbn [parse_token]. rewrite Hval. cbn [Z.eqb OPAL_SUCCESS negb].
    change (strcmp0 (cs "hi") (cs "hi")) with true. cbv iota. cbn [Z.eqb OPAL_SUCCESS negb].
    rewrite Hsplit, bind_Ret. unfold parse_token. destruct token as [[|a [|b [|d [|e [|]]]]]|]; done.
  - intros es' c' j' [Hok' Hjob']. unfold analyze. rewrite Hok'. cbn [Z.eqb OPAL_SUCCESS negb deref].
    rewrite bind_Ret, Hjob', bind_Ret. done.
Qed.

(** ** Concrete samples *)
Definition host_value : orcm_value_t := MkOrcmValue (Some (cs "hostname")) OPAL_STRING (VString (Some (cs "n01"))) None.
Definition time_value (sec : Z) : orcm_value_t := MkOrcmValue (Some (cs "ctime")) OPAL_TIMEVAL (VTimeval sec 0) None.
Definition core_value (z : Z) : orcm_value_t := MkOrcmValue (Some (cs "core0")) OPAL_INT (VInt z) (Some (cs "C")).

Definition temperatures (zs : list Z) : orcm_analytics_value_t :=
  MkAnalyticsValue (Some [host_value]) (Some [time_value 100]) (Some (core_value <$> zs)).

Lemma temperatures_parts zs : event_parts (temperatures zs) [host_value] [time_value 100] 100.
Proof. split_and!; by repeat constructor. Qed.

Definition hot_policy : policy_t :=
  MkPolicy (of_int 90) ORCM_RAS_SEVERITY_CRIT (Some (cs "syslog")) (of_int 5) ORCM_RAS_SEVERITY_WARNING (Some (cs "smtp")).

Lemma threshold_exact_witness :
  exists evs, monitor_threshold (fun _ => []) (temperatures [95; 20; 3; 90]) [] hot_policy =
      Ret (OPAL_SUCCESS, [core_value 95; core_value 3; core_value 90], evs) /\
    (ev_severity <$> evs) = [ORCM_RAS_SEVERITY_CRIT; ORCM_RAS_SEVERITY_WARNING; ORCM_RAS_SEVERITY_CRIT].
Proof.
  destruct (threshold_exact (fun _ => []) (temperatures [95; 20; 3; 90]) [host_value] [time_value 100] 100 [] hot_policy
    (cs "n01") (core_value <$> [95; 20; 3; 90]) (temperatures_parts _) eq_refl ltac:(by repeat constructor) eq_refl)
    as (evs & E & H).
  { intros a [[= <-]|[= <-]]; split; reflexivity. }
  exists evs. change (reported _ _) with [core_value 95; core_value 3; core_value 90] in E, H. split; [exact E|].
  inversion H as [|? e1 ? ? H1 H']; subst. inversion H' as [|? e2 ? ? H2 H'']; subst. inversion H'' as [|? e3 ? ? H3 H3']; subst.
  inversion H3'; subst. cbn. rewrite (eo_high _ _ _ _ _ H1), (eo_low _ _ _ _ _ H2), (eo_high _ _ _ _ _ H3); [done|..].
  - split; [reflexivity|by eexists].
  - split; [|split; [reflexivity|split; [reflexivity|by eexists]]]. intros [Ha _]. vm_compute in Ha. discriminate Ha.
  - split; [reflexivity|by eexists].
Defined.

Definition threshold_caddy (text : cstr) (zs : list Z) : orcm_workflow_caddy_t :=
  MkWfCaddy (Some (MkStep [policy_attribute text] (Some (cs "threshold")) 2)) (Some (MkWorkflow (Some (cs "wf")) None 3)) 0
    (Some (temperatures zs)) true.

Definition empty_store : event_store := MkStore opal_hash_table_construct [].

(** The second entry lacks its action. *)
Lemma threshold_partial_policy_witness :
  let c := threshold_caddy (cs "hi|90|crit|syslog,low|5|warn") [20] in
  let strtod := fun _ => (of_int 90, false) in
  exists p, analyze (fun _ => true) None strtod (fun _ => []) threshold_policy_t_con empty_store (Some c) =
      Ret (OPAL_ERR_BAD_PARAM, (p, empty_store), [], None) /\
    exists next, analyze (fun _ => true) None strtod (fun _ => []) p empty_store (Some c) =
      Ret (OPAL_SUCCESS, (p, empty_store), [], next).
Proof.
  intros c strtod.
  assert (Hj : job_of c (MkJob (MkWorkflow (Some (cs "wf")) None 3)
    (MkStep [policy_attribute (cs "hi|90|crit|syslog,low|5|warn")] (Some (cs "threshold")) 2) 0 (temperatures [20])))
    by (split; reflexivity).
  destruct (threshold_partial_policy (fun _ => true) None strtod (fun _ => []) (cs "90") (cs "crit") (cs "syslog")
    (cs "low|5|warn") (of_int 90) (Some [cs "low"; cs "5"; cs "warn"]) [] empty_store c _
    ltac:(by repeat constructor) eq_refl ltac:(done) ltac:(by repeat constructor) eq_refl ltac:(done) Hj eq_refl)
    as (p & Hp & E & Hrest).
  exists p. split; [exact E|]. rewrite (Hrest _ _ _ Hj), Hp. eexists. vm_compute. reflexivity.
Defined.
