(* ===== verification/AnalyticsFilter.v ===== *)
(** * The filter plugin ([orcm/mca/analytics/filter/analytics_filter.c])

    A sample passes when the attributes of the step agree with it: an
    attribute named like one of the sample's keys restricts that key, any
    other attribute selects compute data by name.  Attribute values are node
    expressions; their expansion is the interface [Expander], which the
    logical groups implement.

    [analyze] also fixes the hash key of the step and the host expression of
    the workflow at the first sample that passes. *)

From S2P Require Import Prelude CString Argv HashTable Regex LogicalGroup Dss DssValue Float64 OrcmUtil.
From S2P Require Import AnalyticsBase AnalyticsWindow.
From stdpp Require Import base strings list gmap.
From Stdlib Require Import ZArith Lia Ascii.

Open Scope Z_scope.

Definition HASH_KEY_LENGTH : nat := 1000.

(** [orcm_logical_group_parse_array_string(s, &array)] with an empty array. *)
Class Expander (W : Type) : Type := {
  expand : option cstr -> W -> outcome (Z * argv_t * W)
}.

#[export] Instance logical_group_expander (int_log10 : Z -> Z) (fuel : nat) (groups : groups_t) : Expander world :=
  {| expand := fun s w => orcm_logical_group_parse_array_string int_log10 fuel groups s None w |}.

Record filter_key_t : Type := MkFilterKey { unique_id : Z; unique_id_generated : bool }.

Definition filter_init : filter_key_t := MkFilterKey 0 false.

Section Filter.
Context {W : Type} `{Expander W}.

Definition find_match (target : string_ptr) (candidate : argv_t) : outcome Z :=
  match argv_list candidate with
  | [] => Ret OPAL_ERR_NOT_FOUND
  | l => t ← deref_string target; Ret (if existsb (strcmp0 t) l then OPAL_SUCCESS else OPAL_ERR_NOT_FOUND)
  end.

(** The pointer an expression is read through. *)
Definition expression (a : orcm_value_t) : outcome (option cstr) :=
  match data_string a with SNull => Ret None | SStr s => Ret (Some s) | SWild => Ub end.

Definition filter_match_value (key_value : string_ptr) (attribute : orcm_value_t) (w : W) : outcome (Z * W) :=
  e ← expression attribute;
  '(rc, source_value, w) ← expand e w;
  if negb (rc =? OPAL_SUCCESS) then Ret (rc, w)
  else rc ← find_match key_value source_value; Ret (rc, w).

Definition key_ptr (v : orcm_value_t) : string_ptr := match ov_key v with Some k => SStr k | None => SNull end.

Fixpoint select_items (items : list orcm_value_t) (names : argv_t) (rc : Z) (found_data : bool)
    (filter_list : list orcm_value_t) : outcome (Z * list orcm_value_t) :=
  match items with
  | [] => Ret (rc, filter_list)
  | item :: items' =>
    rc ← find_match (key_ptr item) names;
    if rc =? OPAL_SUCCESS then
      match orcm_util_copy_orcm_value item with
      | None => Ret (OPAL_ERR_OUT_OF_RESOURCE, filter_list)
      | Some copy => select_items items' names rc true (filter_list ++ [copy])
      end
    else select_items items' names (if found_data then OPAL_SUCCESS else rc) found_data filter_list
  end.

Definition filter_match_compute (attribute : orcm_value_t) (compute_data : option (list orcm_value_t))
    (filter_list : list orcm_value_t) (w : W) : outcome (Z * list orcm_value_t * W) :=
  e ← expression attribute;
  '(rc, names, w) ← expand e w;
  if negb (rc =? OPAL_SUCCESS) then Ret (rc, filter_list, w)
  else
    match compute_data with
    | None => Ret (OPAL_ERROR, filter_list, w)
    | Some items => '(rc, filter_list) ← select_items items names rc false filter_list; Ret (rc, filter_list, w)
    end.

(** The first key of the sample whose name begins the attribute's. *)
Fixpoint find_key (keys : list orcm_value_t) (name : cstr) : outcome (option orcm_value_t) :=
  match keys with
  | [] => Ret None
  | kv :: keys' =>
    k ← deref (ov_key kv);
    if starts_with k name then Ret (Some kv) else find_key keys' name
  end.

Fixpoint filter_attributes (attributes : list orcm_value_t) (data : orcm_analytics_value_t) (found : bool)
    (filter_list : option (list orcm_value_t)) (w : W) : outcome (Z * option (list orcm_value_t) * W) :=
  match attributes with
  | [] => Ret (if found then OPAL_SUCCESS else OPAL_ERR_NOT_FOUND, filter_list, w)
  | a :: attributes' =>
    name ← deref (ov_key a);
    if strcmp0 name (cs "db") then filter_attributes attributes' data found filter_list w
    else
      keys ← deref (av_key data);
      m ← find_key keys name;
      match m with
      | Some kv =>
        '(rc, w) ← filter_match_value (data_string kv) a w;
        if negb (rc =? OPAL_SUCCESS) then Ret (rc, filter_list, w)
        else filter_attributes attributes' data true filter_list w
      | None =>
        '(rc, l, w) ← filter_match_compute a (av_compute_data data) (default [] filter_list) w;
        if negb (rc =? OPAL_SUCCESS) then Ret (rc, Some l, w)
        else filter_attributes attributes' data true (Some l) w
      end
  end.

Definition analytics_filter_data (attributes : list orcm_value_t) (data : orcm_analytics_value_t) (w : W)
    : outcome (Z * option (list orcm_value_t) * W) := filter_attributes attributes data false None w.

Fixpoint cat_values (buf : cstr) (attributes : list orcm_value_t) : outcome cstr :=
  match attributes with
  | [] => Ret buf
  | a :: attributes' =>
    s ← deref_string (data_string a);
    buf ← strncat HASH_KEY_LENGTH buf s;
    cat_values buf attributes'
  end.

Definition generate_hash_key (attributes : list orcm_value_t) (wf_id : Z) : outcome filter_key_t :=
  buf ← cat_values [] attributes;
  buf ← strncat HASH_KEY_LENGTH buf (fmt_d wf_id);
  Ret (MkFilterKey (orcm_util_create_hash_key (buf ++ [zero])) true).

Definition generate_data_to_next (data : orcm_analytics_value_t) (filter_list : option (list orcm_value_t))
    : orcm_analytics_value_t :=
  match filter_list with
  | None => orcm_util_load_orcm_analytics_value (av_key data) (av_non_compute_data data) (av_compute_data data)
  | Some _ => orcm_util_load_orcm_analytics_value_compute (av_key data) (av_non_compute_data data) filter_list
  end.

(** The module's key, the host expression of the workflow and the state of
    the expander. *)
Definition analyze (fk : filter_key_t) (cbdata : option orcm_workflow_caddy_t) (w : W)
    : outcome (analyzed (filter_key_t * option cstr * W)) :=
  let rc := orcm_analytics_base_assert_caddy_data cbdata in
  let hostname := match cbdata with Some c => default None (wf_hostname_regex <$> wc_wf c) | None => None end in
  if negb (rc =? OPAL_SUCCESS) then Ret (rc, (fk, hostname, w), [], None)
  else
    caddy ← deref cbdata;
    j ← caddy_job caddy;
    let attributes := ws_attributes (j_step j) in
    '(rc, filter_list, w) ← analytics_filter_data attributes (j_value j) w;
    if negb (rc =? OPAL_SUCCESS) then Ret (rc, (fk, hostname, w), [], None)
    else
      fk ← (if unique_id_generated fk then Ret fk else generate_hash_key attributes (wf_workflow_id (j_wf j)));
      let next := generate_data_to_next (j_value j) filter_list in
      db ← orcm_analytics_base_db_check attributes;
      '(rc, ras) ← (if db : bool then orcm_analytics_base_log_to_database_event next else Ret (OPAL_SUCCESS, []));
      if negb (rc =? OPAL_SUCCESS) then Ret (rc, (fk, hostname, w), ras, None)
      else
        hostname ← match hostname with
                   | Some h => Ret (Some h)
                   | None => h ← orcm_analytics_get_hostname_from_attributes attributes; Ret (Some h)
                   end;
        Ret (OPAL_SUCCESS, (fk, hostname, w), ras, Some (unique_id fk, next)).
End Filter.

(** ** What passes *)
Definition name_of (v : orcm_value_t) : cstr := default [] (ov_key v).
Definition text_of (v : orcm_value_t) : cstr := match data_string v with SStr s => s | _ => [] end.

Definition named (v : orcm_value_t) : Prop := exists k, ov_key v = Some k.
Definition textual (v : orcm_value_t) : Prop := exists s, data_string v = SStr s.
Definition copyable (v : orcm_value_t) : Prop := known_type (ov_type v) = true.

(** The attributes that restrict the sample. *)
Definition live (attributes : list orcm_value_t) : list orcm_value_t :=
  filter (fun a => negb (strcmp0 (name_of a) (cs "db")) = true) attributes.

Definition key_for (keys : list orcm_value_t) (a : orcm_value_t) : option orcm_value_t :=
  snd <$> list_find (fun kv => starts_with (name_of kv) (name_of a) = true) keys.

Section Exact.
Context {W : Type} `{Expander W} (names : cstr -> list cstr) (simple : cstr -> Prop).
Hypothesis Hexpand : forall s w, simple s -> exists w', expand (Some s) w = Ret (OPAL_SUCCESS, Some (names s), w').
Context (keys vs : list orcm_value_t) (data : orcm_analytics_value_t).
Hypothesis Hkeys : av_key data = Some keys.
Hypothesis Hvs : av_compute_data data = Some vs.
Hypothesis Hkeys_ok : Forall (fun kv => named kv /\ textual kv) keys.
Hypothesis Hvs_ok : Forall (fun v => named v /\ copyable v) vs.

Definition selected (a : orcm_value_t) : list orcm_value_t :=
  filter (fun v => name_of v ∈ names (text_of a)) vs.

(** The sample agrees with an attribute. *)
Definition passes (a : orcm_value_t) : Prop :=
  match key_for keys a with
  | Some kv => text_of kv ∈ names (text_of a)
  | None => vs = [] \/ selected a <> []
  end.

Definition selecting (l : list orcm_value_t) : list orcm_value_t :=
  filter (fun a => key_for keys a = None) l.

Lemma find_match_iff s l :
  exists rc, find_match (SStr s) (Some l) = Ret rc /\
    ((rc = OPAL_SUCCESS /\ s ∈ l) \/ (rc = OPAL_ERR_NOT_FOUND /\ s ∉ l)).
Proof.
  unfold find_match. cbn [argv_list]. destruct l as [|x l].
  - eexists. split; [done|]. right. split; [done|apply not_elem_of_nil].
  - cbn [deref_string]. rewrite bind_Ret. eexists. split; [done|].
    destruct (existsb (strcmp0 s) (x :: l)) eqn:E; [left|right]; (split; [done|]).
    + apply existsb_exists in E as (y & Hy & ->%strcmp0_true). by apply list_elem_of_In.
    + intros Hin. apply list_elem_of_In in Hin. apply Bool.not_true_iff_false in E. apply E.
      apply existsb_exists. exists s. split; [done|]. by apply strcmp0_true.
Qed.

Lemma select_spec l ns found acc rc :
  Forall (fun v => named v /\ copyable v) l ->
  exists rc', select_items l (Some ns) rc found acc =
      Ret (rc', acc ++ filter (fun v => name_of v ∈ ns) l) /\
    (l = [] -> rc' = rc) /\
    (l <> [] -> found = true \/ filter (fun v => name_of v ∈ ns) l <> [] -> rc' = OPAL_SUCCESS) /\
    (l <> [] -> found = false -> filter (fun v => name_of v ∈ ns) l = [] -> rc' = OPAL_ERR_NOT_FOUND).
Proof.
  intros Hl. revert found acc rc. induction Hl as [|v l [[k Hk] Hc] Hl IH]; intros found acc rc.
  { exists rc. cbn. rewrite app_nil_r. done. }
  cbn [select_items]. unfold key_ptr. rewrite Hk. destruct (find_match_iff k ns) as (r & -> & Hr). rewrite bind_Ret.
  rewrite filter_cons. assert (Hname : name_of v = k) by (unfold name_of; by rewrite Hk). rewrite <- Hname in Hr.
  destruct Hr as [[-> Hin]|[-> Hnin]]; cbn [Z.eqb OPAL_SUCCESS OPAL_ERR_NOT_FOUND Pos.eqb].
  - unfold orcm_util_copy_orcm_value. rewrite Hc. rewrite decide_True by done.
    destruct (IH true (acc ++ [v]) OPAL_SUCCESS) as (rc' & -> & H1 & H2 & H3). exists rc'.
    rewrite <- app_assoc. split; [done|]. split_and!; try done.
    intros _ _. destruct l; [by apply H1|]. apply H2; [done|by left].
  - rewrite decide_False by done.
    destruct (IH found acc (if found then OPAL_SUCCESS else OPAL_ERR_NOT_FOUND)) as (rc' & -> & H1 & H2 & H3).
    exists rc'. split; [done|]. split_and!; [done| |].
    + intros _ Hor. destruct l; [|by apply H2]. rewrite H1 by done. destruct Hor as [->|Hne]; done.
    + intros _ -> Hnil. destruct l; [by apply H1|]. by apply H3.
Qed.

Lemma find_key_spec name l : Forall (fun kv => named kv /\ textual kv) l ->
  find_key l name = Ret (snd <$> list_find (fun kv => starts_with (name_of kv) name = true) l).
Proof.
  induction 1 as [|kv l [[k Hk] _] Hl IH]; [done|]. cbn [find_key list_find]. rewrite Hk. cbn [deref]. rewrite bind_Ret.
  assert (Hname : name_of kv = k) by (unfold name_of; by rewrite Hk). destruct (starts_with k name) eqn:E.
  - by rewrite decide_True by by rewrite Hname.
  - rewrite decide_False by (by rewrite Hname, E). rewrite IH. by destruct (list_find _ l) as [[]|].
Qed.

Lemma key_for_in a kv : key_for keys a = Some kv -> kv ∈ keys.
Proof.
  unfold key_for. destruct (list_find _ keys) as [[i x]|] eqn:E; [|done]. intros [= <-].
  apply list_find_Some in E as (Hi & _). by eapply list_elem_of_lookup_2.
Qed.

(** One attribute. *)
Lemma filter_one a (fl : option (list orcm_value_t)) w :
  named a -> textual a -> simple (text_of a) -> negb (strcmp0 (name_of a) (cs "db")) = true ->
  exists rc w', forall attributes found,
    filter_attributes (a :: attributes) data found fl w =
      (let l := default [] fl ++ selected a in
       if negb (rc =? OPAL_SUCCESS) then
         Ret (rc, match key_for keys a with Some _ => fl | None => Some l end, w')
       else filter_attributes attributes data true (match key_for keys a with Some _ => fl | None => Some l end) w') /\
    ((rc = OPAL_SUCCESS /\ passes a) \/ (rc = OPAL_ERR_NOT_FOUND /\ ~ passes a)).
Proof.
  intros [k Hk] [s Hs] Hsimple Hdb. unfold name_of in Hdb. rewrite Hk in Hdb. change (default [] (Some k)) with k in Hdb.
  apply negb_true_iff in Hdb. unfold text_of in Hsimple. rewrite Hs in Hsimple.
  destruct (Hexpand s w Hsimple) as (w' & Hex).
  assert (Hkey : find_key keys k = Ret (key_for keys a)).
  { rewrite find_key_spec by done. unfold key_for, name_of. by rewrite Hk. }
  unfold passes. destruct (key_for keys a) as [kv|] eqn:Ekv.
  - assert (Hkv := key_for_in a kv Ekv). rewrite Forall_forall in Hkeys_ok. destruct (Hkeys_ok kv Hkv) as [_ [t Ht]].
    destruct (find_match_iff t (names s)) as (rc & Hfm & Hrc). exists rc, w'. intros attributes found. split.
    + cbn [filter_attributes]. rewrite Hk. cbn [deref]. rewrite bind_Ret, Hdb, Hkeys. cbn [deref].
      rewrite bind_Ret, Hkey, bind_Ret. unfold filter_match_value, expression. rewrite Hs, bind_Ret, Hex, bind_Ret.
      cbn [Z.eqb OPAL_SUCCESS negb]. rewrite Ht, Hfm, !bind_Ret. done.
    + unfold text_of. rewrite Hs, Ht. destruct Hrc as [[-> ?]|[-> ?]]; auto.
  - destruct (select_spec vs (names s) false (default [] fl) OPAL_SUCCESS Hvs_ok) as (rc & Hsel & H1 & H2 & H3).
    assert (Hsel' : selected a = filter (fun v => name_of v ∈ names s) vs) by (unfold selected, text_of; by rewrite Hs).
    rewrite <- Hsel' in *. exists rc, w'. intros attributes found. split.
    + cbn [filter_attributes]. rewrite Hk. cbn [deref]. rewrite bind_Ret, Hdb, Hkeys. cbn [deref].
      rewrite bind_Ret, Hkey, bind_Ret. unfold filter_match_compute, expression. rewrite Hs, bind_Ret, Hex, bind_Ret.
      cbn [Z.eqb OPAL_SUCCESS negb]. rewrite Hvs, Hsel, !bind_Ret. done.
    + destruct (decide (vs = [])) as [Hnil|Hne]; [left; auto|].
      destruct (decide (selected a = [])) as [Hsn|Hsn]; [right|left; auto].
      split; [by apply H3|]. intros [?|?]; done.
Qed.

Lemma filter_exact_from attributes found fl w :
  Forall (fun a => named a /\ textual a /\ simple (text_of a)) attributes ->
  exists rc fl' w', filter_attributes attributes data found fl w = Ret (rc, fl', w') /\
    (rc = OPAL_SUCCESS \/ rc = OPAL_ERR_NOT_FOUND) /\
    (rc = OPAL_SUCCESS <-> (found = true \/ live attributes <> []) /\ Forall passes (live attributes)) /\
    (rc = OPAL_SUCCESS ->
     fl' = (if bool_decide (selecting (live attributes) = []) then fl
            else Some (default [] fl ++ (selecting (live attributes) ≫= selected)))).
Proof.
  intros Hall. revert found fl w. induction Hall as [|a l (Hn & Ht & Hs) Hl IH]; intros found fl w.
  { eexists _, fl, w. split; [done|]. cbn. destruct found; split_and!; auto; naive_solver. }
  destruct (negb (strcmp0 (name_of a) (cs "db"))) eqn:Hdb.
  - assert (Hlive : live (a :: l) = a :: live l) by (unfold live; rewrite filter_cons_True; done).
    destruct (filter_one a fl w Hn Ht Hs Hdb) as (rc & w1 & Hone). destruct (Hone l found) as [-> Hcase]. rewrite Hlive.
    destruct Hcase as [[-> Hp]|[-> Hp]].
    + cbn [Z.eqb OPAL_SUCCESS negb]. cbn zeta.
      destruct (IH true (match key_for keys a with Some _ => fl | None => Some (default [] fl ++ selected a) end) w1)
        as (rc & fl' & w' & -> & Hrc & Hiff & Hfl).
      exists rc, fl', w'. split; [done|]. split; [done|]. split.
      * rewrite Hiff, Forall_cons_iff. clear -Hp. split.
        -- intros [_ Hf]. split; [by right|done].
        -- intros [_ [_ Hf]]. split; [by left|done].
      * intros Hok. rewrite (Hfl Hok). unfold selecting. rewrite filter_cons.
        destruct (key_for keys a) as [kv|] eqn:Ek.
        -- rewrite decide_False by congruence. done.
        -- rewrite decide_True by done. rewrite (bool_decide_eq_false_2 (_ :: _ = [])) by done.
           fold (selecting (live l)). rewrite bind_cons. case_bool_decide as Hnil; [rewrite Hnil|]; cbn; rewrite ?app_nil_r, <- ?app_assoc; done.
    + cbn [Z.eqb OPAL_ERR_NOT_FOUND OPAL_SUCCESS negb]. eexists _, _, w1. split; [done|]. split; [by right|]. split; [|done].
      split; [done|]. intros [_ [Hp' _]%Forall_cons_iff]. done.
  - assert (Hlive : live (a :: l) = live l) by (unfold live; rewrite filter_cons_False; [done|by rewrite Hdb]).
    rewrite Hlive. cbn [filter_attributes]. destruct Hn as [k Hk]. unfold name_of in Hdb. rewrite Hk in Hdb |- *.
    change (default [] (Some k)) with k in Hdb. cbn [deref]. rewrite bind_Ret. apply negb_false_iff in Hdb. rewrite Hdb.
    apply IH.
Qed.
End Exact.

(** C19: for a sample with named keys and data, and attributes whose expressions expand, the filter lets the
    sample through exactly when at least one attribute other than [db] is given and the sample agrees with every
    one of them; it then passes on the compute data that the attributes without a key of their own select,
    attribute by attribute and in order, or all of it when there is no such attribute. An attribute has a key of
    its own if its name begins with that of the key, and it agrees if the expression names the text of the key; an
    attribute without one agrees if it selects compute data, or there are none. *)
Theorem filter_exact {W} `{Expander W} (names : cstr -> list cstr) (simple : cstr -> Prop)
    keys vs data attributes w :
  (forall s w, simple s -> exists w', expand (Some s) w = Ret (OPAL_SUCCESS, Some (names s), w')) ->
  av_key data = Some keys -> av_compute_data data = Some vs ->
  Forall (fun kv => named kv /\ textual kv) keys -> Forall (fun v => named v /\ copyable v) vs ->
  Forall (fun a => named a /\ textual a /\ simple (text_of a)) attributes ->
  exists rc fl w', analytics_filter_data attributes data w = Ret (rc, fl, w') /\
    (rc = OPAL_SUCCESS \/ rc = OPAL_ERR_NOT_FOUND) /\
    (rc = OPAL_SUCCESS <-> live attributes <> [] /\ Forall (passes names keys vs) (live attributes)) /\
    (rc = OPAL_SUCCESS ->
     generate_data_to_next data fl =
       MkAnalyticsValue (Some keys)
         (if bool_decide (selecting keys (live attributes) = [])
          then Some (default [] (av_non_compute_data data)) else av_non_compute_data data)
         (Some (if bool_decide (selecting keys (live attributes) = []) then vs
                else selecting keys (live attributes) ≫= selected names vs))).
Proof.
  intros Hexp Hk Hv Hkeys Hvs Hattrs.
  destruct (filter_exact_from names simple Hexp keys vs data Hk Hv Hkeys Hvs attributes false None w Hattrs)
    as (rc & fl & w' & E & Hrc & Hiff & Hfl).
  exists rc, fl, w'. split; [exact E|]. split; [done|]. split.
  - rewrite Hiff. clear. split; [intros [[?|?] ?]; done|]. intros [? ?]. split; [by right|done].
  - intros Hok. rewrite (Hfl Hok). case_bool_decide; cbn; unfold orcm_util_load_orcm_analytics_value,
      orcm_util_load_orcm_analytics_value_compute; by rewrite Hk, ?Hv.
Qed.

(** ** A concrete sample *)
Definition no_groups : groups_t := opal_hash_table_construct.

Definition text_value (k s : cstr) : orcm_value_t := MkOrcmValue (Some k) OPAL_STRING (VString (Some s)) None.
Definition core (i : cstr) (z : Z) : orcm_value_t := MkOrcmValue (Some i) OPAL_INT (VInt z) None.

Definition sample_names (s : cstr) : list cstr := if strcmp0 s (cs "n01,n02") then [cs "n01"; cs "n02"] else [s].
Definition sample_simple (s : cstr) : Prop := s ∈ [cs "n01,n02"; cs "core1"; cs "yes"].

Lemma sample_expand s w : sample_simple s ->
  exists w', orcm_logical_group_parse_array_string (fun _ => 0) 10 no_groups (Some s) None w =
    Ret (OPAL_SUCCESS, Some (sample_names s), w').
Proof.
  intros Hs. destruct w as [lists nx er tag]. unfold sample_simple in Hs.
  repeat (apply elem_of_cons in Hs as [-> | Hs]; [eexists; vm_compute; reflexivity|]). by apply not_elem_of_nil in Hs.
Qed.

Lemma filter_exact_witness :
  let attributes := [text_value (cs "hostname") (cs "n01,n02"); text_value (cs "core") (cs "core1");
                     text_value (cs "db") (cs "yes")] in
  let data := MkAnalyticsValue (Some [text_value (cs "hostname") (cs "n01")]) (Some [])
                (Some [core (cs "core0") 40; core (cs "core1") 41]) in
  exists fl w', analytics_filter_data (H := logical_group_expander (fun _ => 0) 10 no_groups)
      attributes data (MkWorld ∅ 0%nat false None) = Ret (OPAL_SUCCESS, fl, w') /\
    generate_data_to_next data fl =
      MkAnalyticsValue (Some [text_value (cs "hostname") (cs "n01")]) (Some []) (Some [core (cs "core1") 41]).
Proof.
  intros attributes data.
  destruct (filter_exact (H := logical_group_expander (fun _ => 0) 10 no_groups) sample_names sample_simple
    [text_value (cs "hostname") (cs "n01")] [core (cs "core0") 40; core (cs "core1") 41] data attributes
    (MkWorld ∅ 0%nat false None)) as (rc & fl & w' & E & _ & Hiff & Hnext).
  - intros s w. apply sample_expand.
  - reflexivity.
  - reflexivity.
  - constructor; [|done]. split; by eexists.
  - apply Forall_cons_iff. split; [split; [by eexists|done]|]. apply Forall_cons_iff. split; [split; [by eexists|done]|by constructor].
  - apply Forall_cons_iff. split; [|apply Forall_cons_iff; split; [|apply Forall_cons_iff; split; [|by constructor]]];
      (split_and!; [by eexists|by eexists|]; apply list_elem_of_In; cbn; auto).
  - assert (rc = OPAL_SUCCESS) as ->.
    { apply Hiff. split; [done|]. apply Forall_cons_iff. split; [|apply Forall_cons_iff; split; [|by constructor]].
      - apply list_elem_of_In. vm_compute. auto.
      - right. vm_compute. done. }
    exists fl, w'. split; [exact E|]. rewrite (Hnext eq_refl). reflexivity.
Defined.
