(* ===== verification/WorkflowControl.v ===== *)
(** * Control of the analytics workflows

    The operator's tool reads workflows from a file and packs each into a
    message ([workflow_util.c], [octl/workflow.c]); the aggregator unpacks it
    and installs, removes and lists workflows ([analytics_base_recv.c],
    [analytics_base_stubs.c], [analytics_base_select.c],
    [analytics_base_frame.c]).

    Both sides use the buffers of [Dss].  The calls to the serializer pass the
    room for values by reference and get the number of values back: the count
    is threaded through the calls, and a variable that a call with no value
    leaves alone keeps its old contents ([None]: never written).  A message
    string without terminator is outside of the model ([Ub]).

    The plugins are a parameter: a list of components, each with what its
    [create_handle] returns, of some type of module handles.  Whether a progress thread can be
    started, and whether the answers are described, are parameters too. *)

From S2P Require Import Prelude CString Dss DssFormat DssRoundtrip DssText DssMessage LogicalGroup OrcmUtil AnalyticsBase.
From stdpp Require Import base strings numbers list.
From Stdlib Require Import ZArith Lia Ascii.

Open Scope Z_scope.

Abbreviation parsed := LogicalGroup.orcm_value_t.
Abbreviation PString := LogicalGroup.VString.
Abbreviation PPtr := LogicalGroup.VPtr.
Abbreviation POther := LogicalGroup.VOther.

Definition ANALYTICS_COUNT_DEFAULT : Z := 1.
Definition MCA_BASE_MAX_COMPONENT_NAME_LEN : nat := 63.
Definition ORCM_ANALYTICS_WORKFLOW_ADD : Z := 1.
Definition ORCM_ANALYTICS_WORKFLOW_REMOVE : Z := 2.
Definition ORCM_ANALYTICS_WORKFLOW_LIST : Z := 3.
Definition ORCM_ANALYTICS_SENSOR_STORAGE_POLICY : Z := 4.
Definition ORCM_SENSOR_STORAGE_NONE : Z := 0.
Definition ORCM_SENSOR_STORAGE_ENVIRONMENT_ONLY : Z := 1.
Definition ORCM_SENSOR_STORAGE_EVENT_ONLY : Z := 2.
Definition ORCM_SENSOR_STORAGE_BOTH : Z := 3.
Definition ORCM_ERR_NOT_AVAILABLE : Z := -16.
Definition WORKFLOW_WILD_CHARACTER : cstr := cs "*".

(** [strncmp(s, t, n)] with the terminators in place. *)
Definition strncmp0 (n : nat) (s t : cstr) : bool :=
  bool_decide (take n (s ++ [zero]) = take n (t ++ [zero])).

Section Wire.
Variable malloc_ok : Z -> bool.
Variables opal_dss_initial_size opal_dss_threshold_size : Z.
Variable registered : Z -> bool.
Variable other_pack : Z -> opal_buffer_t -> dss_data -> outcome (Z * opal_buffer_t).
Variable other_unpack : Z -> opal_buffer_t -> Z -> Z * option dss_data * opal_buffer_t.

Abbreviation pack_item := (pack_item malloc_ok opal_dss_initial_size opal_dss_threshold_size registered other_pack).
Abbreviation dss_unpack := (dss_unpack malloc_ok registered other_unpack).
Abbreviation unpack_int := (unpack_int malloc_ok registered other_unpack).
Abbreviation unpack_string := (unpack_string malloc_ok registered other_unpack).

(** ** The operator's side ([workflow_util.c]) *)
Definition orcm_util_workflow_add_check_filter_step (key value : cstr) (filter_first : bool) : Z * bool :=
  if negb filter_first && strcmp0 (cs "step") key then
    if strcmp0 (cs "filter") value then (OPAL_SUCCESS, true) else (OPAL_ERR_BAD_PARAM, filter_first)
  else (OPAL_SUCCESS, filter_first).

Definition orcm_util_workflow_add_check_name_key (b : opal_buffer_t) (list_head_key key : cstr)
    (name_first : bool) : outcome (Z * bool * opal_buffer_t) :=
  if negb name_first && negb (strcmp0 (cs "name") key) then Ret (OPAL_ERR_BAD_PARAM, name_first, b)
  else
    let name_first := true in
    if negb (strcmp0 (cs "name") key) then
      if strcmp0 (cs "workflow") list_head_key then Ret (OPAL_ERR_BAD_PARAM, name_first, b)
      else '(rc, b) ← pack_item b (text_item (Some key)); Ret (rc, name_first, b)
    else Ret (OPAL_SUCCESS, name_first, b).

Definition orcm_util_workflow_add_extract_string_type (b : opal_buffer_t) (key value list_head_key : cstr)
    (name_first filter_first : bool) : outcome (Z * bool * bool * opal_buffer_t) :=
  '(rc, name_first, b) ← orcm_util_workflow_add_check_name_key b list_head_key key name_first;
  if negb (rc =? OPAL_SUCCESS) then Ret (rc, name_first, filter_first, b)
  else
    let '(rc, filter_first) := orcm_util_workflow_add_check_filter_step list_head_key value filter_first in
    if negb (rc =? OPAL_SUCCESS) then Ret (rc, name_first, filter_first, b)
    else
      '(rc, b) ← pack_item b (text_item (Some value));
      Ret (rc, name_first, filter_first, b).

(** The loop over the items of a list, given what is done for one. *)
Definition extract_loop_ (f : parsed -> opal_buffer_t -> bool -> bool -> outcome (Z * bool * bool * opal_buffer_t))
    : list parsed -> Z -> opal_buffer_t -> bool -> bool -> outcome (Z * bool * opal_buffer_t) :=
  fix go (l : list parsed) (rc : Z) (b : opal_buffer_t) (name_first filter_first : bool) :=
    match l with
    | [] => Ret (rc, filter_first, b)
    | item :: l' =>
      '(rc, name_first, filter_first, b) ← f item b name_first filter_first;
      if negb (rc =? OPAL_SUCCESS) then Ret (rc, filter_first, b) else go l' rc b name_first filter_first
    end.

(** A list: its length less one, then its items. *)
Definition extract_list_ (f : parsed -> opal_buffer_t -> bool -> bool -> outcome (Z * bool * bool * opal_buffer_t))
    (l : list parsed) (b : opal_buffer_t) (filter_first : bool) : outcome (Z * bool * opal_buffer_t) :=
  '(rc, b) ← pack_item b (int_item (i32 (Z.of_nat (length l)) - 1));
  if negb (rc =? OPAL_SUCCESS) then Ret (rc, filter_first, b)
  else extract_loop_ f l OPAL_ERR_BAD_PARAM b false filter_first.

Fixpoint extract_item (list_head_key : cstr) (item : parsed) (b : opal_buffer_t) (name_first filter_first : bool)
    {struct item} : outcome (Z * bool * bool * opal_buffer_t) :=
  match item with
  | PString key value =>
    orcm_util_workflow_add_extract_string_type b key value list_head_key name_first filter_first
  | PPtr key data =>
    if negb name_first then Ret (OPAL_ERR_BAD_PARAM, name_first, filter_first, b)
    else if strcmp0 key (cs "step") then
      '(rc, filter_first, b) ← extract_list_ (extract_item key) data b filter_first;
      Ret (rc, name_first, filter_first, b)
    else Ret (OPAL_ERR_BAD_PARAM, name_first, filter_first, b)
  | POther _ => Ret (OPAL_ERR_BAD_PARAM, name_first, filter_first, b)
  end.

Definition orcm_util_workflow_add_extract_workflow_info (result_list : list parsed) (b : opal_buffer_t)
    (list_head_key : cstr) (filter_first : bool) : outcome (Z * bool * opal_buffer_t) :=
  extract_list_ (extract_item list_head_key) result_list b filter_first.

(** *** The messages of [octl/workflow.c] and what it makes of the answers *)
Variable desc : bool.

(** [workflow_add_process_single_workflow]: the message, when one is sent. *)
Definition workflow_add_message (result_list : list parsed) (list_head_key : cstr)
    : outcome (Z * option opal_buffer_t) :=
  '(rc, b) ← pack_item (opal_buffer_construct desc) (byte_item ORCM_ANALYTICS_WORKFLOW_ADD);
  if negb (rc =? OPAL_SUCCESS) then Ret (rc, None)
  else
    '(rc, filter_first, b) ← orcm_util_workflow_add_extract_workflow_info result_list b list_head_key false;
    if negb (rc =? OPAL_SUCCESS) || negb filter_first then Ret (rc, None) else Ret (rc, Some b).

Definition workflow_remove_pack_buffer (b : opal_buffer_t) (workflow_name workflow_id : option cstr)
    : outcome (Z * opal_buffer_t) :=
  '(rc, b) ← pack_item b (byte_item ORCM_ANALYTICS_WORKFLOW_REMOVE);
  if negb (rc =? OPAL_SUCCESS) then Ret (rc, b)
  else
    '(rc, b) ← pack_item b (text_item workflow_name);
    if negb (rc =? OPAL_SUCCESS) then Ret (rc, b) else pack_item b (text_item workflow_id).

Definition workflow_list_pack_buffer (b : opal_buffer_t) : outcome (Z * opal_buffer_t) :=
  pack_item b (byte_item ORCM_ANALYTICS_WORKFLOW_LIST).

(** [octl/sensor.c]; the command is an [int] whose first byte is packed. *)
Definition orcm_octl_sensor_store_pack_buffer (b : opal_buffer_t) (storage_command : Z)
    : outcome (Z * opal_buffer_t) :=
  '(rc, b) ← pack_item b (byte_item ORCM_ANALYTICS_SENSOR_STORAGE_POLICY);
  if negb (rc =? OPAL_SUCCESS) then Ret (rc, b) else pack_item b (byte_item (wrap 8 storage_command)).

(** Whether the tool reports success. *)
Definition orcm_octl_sensor_store_unpack_buffer (b : opal_buffer_t) : outcome (Z * bool) :=
  let '(rc, response, _, _) := unpack_int b 1 in
  if negb (rc =? OPAL_SUCCESS) then Ret (OPAL_ERROR, false)
  else response ← deref response; Ret (OPAL_SUCCESS, response =? OPAL_SUCCESS).

(** The identifier of the new workflow, on success. *)
Definition workflow_add_unpack_buffer (b : opal_buffer_t) : outcome (Z * option Z) :=
  let '(rc, id, _, _) := unpack_int b 1 in
  if negb (rc =? OPAL_SUCCESS) then Ret (rc, None)
  else
    id ← deref id;
    Ret (if id <? 0 then (id, None) else (OPAL_SUCCESS, Some id)).

(** Whether the tool reports the workflow as deleted. *)
Definition workflow_remove_unpack_buffer (b : opal_buffer_t) : outcome (Z * bool) :=
  let '(rc, result, _, _) := unpack_int b 1 in
  if negb (rc =? OPAL_SUCCESS) then Ret (rc, false)
  else result ← deref result; Ret (OPAL_SUCCESS, 0 <=? result).

Fixpoint list_entries (n : nat) (cnt : Z) (b : opal_buffer_t) (acc : list (option cstr * Z))
    : outcome (Z * list (option cstr * Z)) :=
  match n with
  | O => Ret (OPAL_SUCCESS, acc)
  | S n =>
    let '(rc, id, cnt, b) := unpack_int b cnt in
    if negb (rc =? OPAL_SUCCESS) then Ret (rc, acc)
    else
      '(rc, name, cnt, b) ← unpack_string b cnt None;
      if negb (rc =? OPAL_SUCCESS) then Ret (rc, acc)
      else id ← deref id; list_entries n cnt b (acc ++ [(name, id)])
  end.

(** The lines the tool prints: name and identifier of each workflow. *)
Definition workflow_list_unpack_buffer (b : opal_buffer_t) : outcome (Z * list (option cstr * Z)) :=
  let '(rc, workflow_count, cnt, b) := unpack_int b 1 in
  if negb (rc =? OPAL_SUCCESS) then Ret (rc, [])
  else n ← deref workflow_count; list_entries (Z.to_nat n) cnt b [].

(** ** The aggregator's side *)
Section Server.
Context {M : Type}.

Record orcm_analytics_base_component_t : Type := MkComponent {
  mca_component_name : cstr;
  available : bool;
  create_handle : option M
}.

(** A step with its module, and a workflow with its steps. *)
Record installed_step : Type := MkInstalled { is_step : orcm_workflow_step_t; is_mod : option M }.
Record installed_workflow : Type := MkInstalledWf {
  iw_wf : orcm_workflow_t;
  iw_steps : list installed_step;
  iw_ev_active : bool
}.

(** [orcm_analytics_base] and the counter of [analytics_base_stubs.c]. *)
Record orcm_analytics_base_t : Type := MkBase {
  ab_workflows : list installed_workflow;
  ab_store_raw_data : bool;
  ab_store_event_data : bool;
  ab_workflow_id : Z
}.

Definition with_workflows (l : list installed_workflow) (base : orcm_analytics_base_t) : orcm_analytics_base_t :=
  MkBase l (ab_store_raw_data base) (ab_store_event_data base) (ab_workflow_id base).

Variable components : list orcm_analytics_base_component_t.
Variable thread_ok : cstr -> bool.

Definition orcm_analytics_base_select_create_handle (component : orcm_analytics_base_component_t)
    (mod_ : option M) : Z * option M :=
  if negb (available component) then (ORCM_ERR_NOT_AVAILABLE, mod_)
  else match create_handle component with
       | None => (OPAL_ERR_OUT_OF_RESOURCE, None)
       | Some h => (OPAL_SUCCESS, Some h)
       end.

(** The loop goes on after a component was found. *)
Fixpoint select_component (comps : list orcm_analytics_base_component_t) (analytic : option cstr) (mod_ : option M)
    : outcome (Z * option M) :=
  match comps with
  | [] => Ret (OPAL_SUCCESS, mod_)
  | c :: comps' =>
    a ← deref analytic;
    if strncmp0 (MCA_BASE_MAX_COMPONENT_NAME_LEN + 1) (mca_component_name c) a then
      let '(ret, mod_) := orcm_analytics_base_select_create_handle c mod_ in
      if negb (ret =? OPAL_SUCCESS) then Ret (ret, mod_) else select_component comps' analytic mod_
    else select_component comps' analytic mod_
  end.

Definition orcm_analytics_base_select_workflow_step (analytic : option cstr) : outcome (Z * option M) :=
  select_component components analytic None.

Definition orcm_analytics_base_append_attributes (attr_list : list orcm_value_t)
    (attribute_key attribute_value : option cstr) : list orcm_value_t :=
  attr_list ++ [MkOrcmValue attribute_key OPAL_STRING (VString attribute_value) None].

(** The variables of the loop keep their contents from one turn to the next. *)
Fixpoint parse_attributes (n : nat) (attr_list : list orcm_value_t) (attribute_key attribute_value : option cstr)
    (cnt : Z) (b : opal_buffer_t) : outcome (Z * list orcm_value_t * opal_buffer_t) :=
  match n with
  | O => Ret (OPAL_SUCCESS, attr_list, b)
  | S n =>
    '(rc, attribute_key, cnt, b) ← unpack_string b cnt attribute_key;
    if negb (rc =? OPAL_SUCCESS) then Ret (OPAL_ERROR, attr_list, b)
    else
      '(rc, attribute_value, cnt, b) ← unpack_string b cnt attribute_value;
      if negb (rc =? OPAL_SUCCESS) then Ret (OPAL_ERROR, attr_list, b)
      else
        parse_attributes n (orcm_analytics_base_append_attributes attr_list attribute_key attribute_value)
          attribute_key attribute_value cnt b
  end.

Definition orcm_analytics_base_parse_attributes (attr_list : list orcm_value_t) (b : opal_buffer_t)
    (num_attributes : Z) : outcome (Z * list orcm_value_t * opal_buffer_t) :=
  parse_attributes (Z.to_nat num_attributes) attr_list None None ANALYTICS_COUNT_DEFAULT b.

Definition orcm_analytics_base_workflow_step_add (steps : list installed_step) (b : opal_buffer_t) (step : Z)
    : outcome (Z * list installed_step * opal_buffer_t) :=
  let '(rc, num_attributes, cnt, b) := unpack_int b ANALYTICS_COUNT_DEFAULT in
  if negb (rc =? OPAL_SUCCESS) then Ret (rc, steps, b)
  else
    '(rc, step_name, _, b) ← unpack_string b cnt None;
    if negb (rc =? OPAL_SUCCESS) then Ret (rc, steps, b)
    else
      n ← deref num_attributes;
      '(rc, attributes, b) ← orcm_analytics_base_parse_attributes [] b n;
      if negb (rc =? OPAL_SUCCESS) then Ret (rc, steps, b)
      else
        '(rc, mod_) ← orcm_analytics_base_select_workflow_step step_name;
        if negb (rc =? OPAL_SUCCESS) then Ret (OPAL_ERROR, steps, b)
        else Ret (OPAL_SUCCESS, steps ++ [MkInstalled (MkStep attributes step_name step) mod_], b).

(** The counter is a static [int]. *)
Definition orcm_analytics_base_workflow_object_init (wf_name : option cstr) (base : orcm_analytics_base_t)
    : outcome (orcm_workflow_t * orcm_analytics_base_t) :=
  let id := ab_workflow_id base in
  if INT_MAX <=? id then Ub
  else Ret (MkWorkflow wf_name None id,
            MkBase (ab_workflows base) (ab_store_raw_data base) (ab_store_event_data base) (id + 1)).

(** Whether the thread of the workflow runs. *)
Definition orcm_analytics_base_add_event_base (threadname : cstr) : Z * bool :=
  if thread_ok threadname then (OPAL_SUCCESS, true) else (OPAL_ERR_OUT_OF_RESOURCE, false).

Definition orcm_analytics_base_add_new_workflow_event_base (wf : orcm_workflow_t) : Z * bool :=
  orcm_analytics_base_add_event_base (cs "wfid" ++ fmt_d (wf_workflow_id wf)).

Fixpoint add_steps (n : nat) (step : Z) (steps : list installed_step) (b : opal_buffer_t)
    : outcome (Z * list installed_step * opal_buffer_t) :=
  match n with
  | O => Ret (OPAL_SUCCESS, steps, b)
  | S n =>
    '(rc, steps, b) ← orcm_analytics_base_workflow_step_add steps b step;
    if negb (rc =? OPAL_SUCCESS) then Ret (rc, steps, b) else add_steps n (step + 1) steps b
  end.

(** The status, [*wfid] when it was written, and the base. *)
Definition orcm_analytics_base_workflow_add (b : opal_buffer_t) (base : orcm_analytics_base_t)
    : outcome (Z * option Z * orcm_analytics_base_t) :=
  let '(rc, num_steps, cnt, b) := unpack_int b ANALYTICS_COUNT_DEFAULT in
  if negb (rc =? OPAL_SUCCESS) then Ret (rc, None, base)
  else
    '(rc, wf_name, _, b) ← unpack_string b cnt None;
    if negb (rc =? OPAL_SUCCESS) then Ret (rc, None, base)
    else
      '(wf, base) ← orcm_analytics_base_workflow_object_init wf_name base;
      let wfid := Some (wf_workflow_id wf) in
      let '(rc, ev_active) := orcm_analytics_base_add_new_workflow_event_base wf in
      if negb (rc =? OPAL_SUCCESS) then Ret (rc, wfid, base)
      else
        n ← deref num_steps;
        '(rc, steps, _) ← add_steps (Z.to_nat n) 0 [] b;
        if negb (rc =? OPAL_SUCCESS) then Ret (rc, wfid, base)
        else Ret (OPAL_SUCCESS, wfid,
                  with_workflows (ab_workflows base ++ [MkInstalledWf wf steps ev_active]) base).

(** Whether the request names the workflow; the tests are in the order of the
    code. *)
Definition names_workflow (workflow_name workflow_id : cstr) (workflow_num_id : Z) (iw : installed_workflow)
    : outcome bool :=
  if strcmp0 workflow_name WORKFLOW_WILD_CHARACTER then Ret true
  else
    name ← deref (wf_name (iw_wf iw));
    Ret (strcmp0 workflow_name name &&
         ((workflow_num_id =? wf_workflow_id (iw_wf iw)) || strcmp0 workflow_id WORKFLOW_WILD_CHARACTER)).

Fixpoint remove_named (workflow_name workflow_id : cstr) (workflow_num_id : Z) (l : list installed_workflow)
    : outcome (list installed_workflow * bool) :=
  match l with
  | [] => Ret ([], false)
  | iw :: l' =>
    hit ← names_workflow workflow_name workflow_id workflow_num_id iw;
    '(rest, deleted) ← remove_named workflow_name workflow_id workflow_num_id l';
    Ret (if hit : bool then (rest, true) else (iw :: rest, deleted))
  end.

(** The identifier in the request; the test looks at the last character. *)
Definition requested_id (workflow_id : cstr) : outcome Z :=
  if strcmp0 workflow_id WORKFLOW_WILD_CHARACTER then Ret (-1)
  else
    c ← deref (last workflow_id);
    Ret (if isdigit c then i32 (strtol10 workflow_id).1.1 else -1).

Definition orcm_analytics_base_workflow_remove (b : opal_buffer_t) (base : orcm_analytics_base_t)
    : outcome (Z * orcm_analytics_base_t) :=
  '(rc, workflow_name, cnt, b) ← unpack_string b ANALYTICS_COUNT_DEFAULT None;
  if negb (rc =? OPAL_SUCCESS) then Ret (rc, base)
  else
    '(rc, workflow_id, _, _) ← unpack_string b cnt None;
    if negb (rc =? OPAL_SUCCESS) then Ret (rc, base)
    else
      id ← deref workflow_id;
      num ← requested_id id;
      match ab_workflows base with
      | [] => Ret (OPAL_ERROR, base)
      | l =>
        name ← deref workflow_name;
        '(rest, deleted) ← remove_named name id num l;
        Ret (if deleted : bool then OPAL_SUCCESS else OPAL_ERROR, with_workflows rest base)
      end.

Definition orcm_analytics_base_recv_pack_int (b : opal_buffer_t) (value : Z) : outcome (Z * opal_buffer_t) :=
  '(ret, b) ← pack_item b (int_item value);
  Ret (if negb (ret =? OPAL_SUCCESS) then OPAL_ERROR else OPAL_SUCCESS, b).

Fixpoint orcm_analytics_base_workflow_list_append_info (l : list installed_workflow) (b : opal_buffer_t)
    : outcome (Z * opal_buffer_t) :=
  match l with
  | [] => Ret (OPAL_SUCCESS, b)
  | iw :: l' =>
    '(rc, b) ← orcm_analytics_base_recv_pack_int b (wf_workflow_id (iw_wf iw));
    if negb (rc =? OPAL_SUCCESS) then Ret (rc, b)
    else
      name ← deref (wf_name (iw_wf iw));
      '(rc, b) ← pack_item b (text_item (Some name));
      if negb (rc =? OPAL_SUCCESS) then Ret (rc, b) else orcm_analytics_base_workflow_list_append_info l' b
  end.

(** The size is read as the [int] in its low half. *)
Definition orcm_analytics_base_workflow_list (b : opal_buffer_t) (base : orcm_analytics_base_t)
    : outcome (Z * opal_buffer_t) :=
  let size := Z.of_nat (length (ab_workflows base)) in
  '(rc, b) ← orcm_analytics_base_recv_pack_int b (i32 size);
  if negb (rc =? OPAL_SUCCESS) then Ret (rc, b)
  else if 0 <? size then orcm_analytics_base_workflow_list_append_info (ab_workflows base) b
  else Ret (rc, b).

Definition orcm_analytics_base_control_storage (storage_command : Z) (base : orcm_analytics_base_t)
    : Z * orcm_analytics_base_t :=
  let set_ raw event := MkBase (ab_workflows base) raw event (ab_workflow_id base) in
  if storage_command =? ORCM_SENSOR_STORAGE_NONE then (OPAL_SUCCESS, set_ false false)
  else if storage_command =? ORCM_SENSOR_STORAGE_ENVIRONMENT_ONLY then
    (OPAL_SUCCESS, set_ true (ab_store_event_data base))
  else if storage_command =? ORCM_SENSOR_STORAGE_EVENT_ONLY then
    (OPAL_SUCCESS, set_ (ab_store_raw_data base) true)
  else if storage_command =? ORCM_SENSOR_STORAGE_BOTH then (OPAL_SUCCESS, set_ true true)
  else (OPAL_ERROR, base).

(** A byte; an error comes back as the low byte of [ORCM_ERROR]. *)
Definition orcm_analytics_base_recv_unpack_uint8_t (b : opal_buffer_t) : outcome (Z * opal_buffer_t) :=
  let '(ret, d, _, b) := dss_unpack b ANALYTICS_COUNT_DEFAULT OPAL_UINT8 in
  if negb (ret =? OPAL_SUCCESS) then Ret (wrap 8 OPAL_ERROR, b)
  else match d with Some (D8 [v]) => Ret (v, b) | _ => Ub end.

(** One message: the new base and the answer that is sent. *)
Definition orcm_analytics_base_recv (b : opal_buffer_t) (base : orcm_analytics_base_t)
    : outcome (orcm_analytics_base_t * opal_buffer_t) :=
  let ans := opal_buffer_construct desc in
  '(command, b) ← orcm_analytics_base_recv_unpack_uint8_t b;
  '(ret, ans, base) ←
    (if command =? ORCM_ANALYTICS_WORKFLOW_ADD then
       '(ret, id, base) ← orcm_analytics_base_workflow_add b base;
       if ret =? OPAL_SUCCESS then
         id ← deref id;
         '(ret, ans) ← orcm_analytics_base_recv_pack_int ans id;
         Ret (ret, ans, base)
       else Ret (ret, ans, base)
     else if command =? ORCM_ANALYTICS_WORKFLOW_REMOVE then
       '(ret, base) ← orcm_analytics_base_workflow_remove b base;
       Ret (ret, ans, base)
     else if command =? ORCM_ANALYTICS_WORKFLOW_LIST then
       '(ret, ans) ← orcm_analytics_base_workflow_list ans base;
       Ret (ret, ans, base)
     else if command =? ORCM_ANALYTICS_SENSOR_STORAGE_POLICY then
       '(storage_command, b) ← orcm_analytics_base_recv_unpack_uint8_t b;
       let '(ret, base) := orcm_analytics_base_control_storage storage_command base in
       Ret (ret, ans, base)
     else Ret (OPAL_ERR_BAD_PARAM, ans, base));
  '(_, ans) ← orcm_analytics_base_recv_pack_int ans ret;
  Ret (base, ans).
End Server.
End Wire.
