(* ===== verification/WorkflowProps.v ===== *)
(** * What the control messages of the workflows carry

    The operator's tool turns a workflow file into a sequence of items, the
    aggregator turns the items into a workflow: lemmas for each side, in terms
    of [workflow_items]. *)

From S2P Require Import Prelude CString Dss DssFormat DssRoundtrip DssText DssMessage LogicalGroup OrcmUtil AnalyticsBase.
From S2P Require Import WorkflowControl.
From stdpp Require Import base strings numbers list.
From Stdlib Require Import ZArith Lia Ascii.

Open Scope Z_scope.

(** ** Workflow descriptions *)
Record step_spec : Type := MkStepSpec { ss_name : cstr; ss_attributes : list (cstr * cstr) }.
Record workflow_spec : Type := MkWorkflowSpec { ws_name : cstr; ws_steps : list step_spec }.

(** As the parser hands them over. *)
Definition attribute_tree (a : cstr * cstr) : parsed := PString a.1 a.2.
Definition step_list (s : step_spec) : list parsed :=
  PString (cs "name") (ss_name s) :: (attribute_tree <$> ss_attributes s).
Definition step_tree (s : step_spec) : parsed := PPtr (cs "step") (step_list s).
Definition workflow_list (d : workflow_spec) : list parsed :=
  PString (cs "name") (ws_name d) :: (step_tree <$> ws_steps d).

(** The items of the message. *)
Definition attribute_items (a : cstr * cstr) : list (dss_data * Z) := [text_item (Some a.1); text_item (Some a.2)].
Definition step_items (s : step_spec) : list (dss_data * Z) :=
  int_item (Z.of_nat (length (ss_attributes s))) :: text_item (Some (ss_name s)) ::
  (ss_attributes s ≫= attribute_items).
Definition workflow_items (d : workflow_spec) : list (dss_data * Z) :=
  int_item (Z.of_nat (length (ws_steps d))) :: text_item (Some (ws_name d)) :: (ws_steps d ≫= step_items).

Definition attribute_ok (a : cstr * cstr) : Prop :=
  a.1 <> cs "name" /\ cstr_ok (Some a.1) /\ cstr_ok (Some a.2).
Definition step_ok (s : step_spec) : Prop :=
  cstr_ok (Some (ss_name s)) /\ Forall attribute_ok (ss_attributes s) /\
  Z.of_nat (length (ss_attributes s)) < INT_MAX.
Definition workflow_ok (d : workflow_spec) : Prop :=
  cstr_ok (Some (ws_name d)) /\ Forall step_ok (ws_steps d) /\ Z.of_nat (length (ws_steps d)) < INT_MAX /\
  ss_name <$> head (ws_steps d) = Some (cs "filter").

Section Wire.
Context (malloc_ok : Z -> bool) (initial threshold : Z) (registered : Z -> bool).
Context (other_pack : Z -> opal_buffer_t -> dss_data -> outcome (Z * opal_buffer_t)).
Context (other_unpack : Z -> opal_buffer_t -> Z -> Z * option dss_data * opal_buffer_t).
Hypothesis Hmalloc : forall n, malloc_ok n = true.

Abbreviation pack_item' := (pack_item malloc_ok initial threshold registered other_pack).
Abbreviation pack_all' := (pack_all malloc_ok initial threshold registered other_pack).
Abbreviation extract_item' := (extract_item malloc_ok initial threshold registered other_pack).
Abbreviation item_ok := (item_ok registered).
Abbreviation enc_item := (enc_item registered).

Abbreviation packed := (packed malloc_ok initial threshold registered other_pack).
Abbreviation text_holds := (text_holds malloc_ok registered other_unpack Hmalloc).
Abbreviation nat_holds := (nat_holds malloc_ok registered other_unpack Hmalloc).

(** ** The operator's side *)
Lemma extract_attributes l b b' :
  Forall (fun a => a.1 <> cs "name") l -> packed b (l ≫= attribute_items) b' ->
  extract_loop_ (extract_item' (cs "step")) (attribute_tree <$> l) OPAL_SUCCESS b true true =
  Ret (OPAL_SUCCESS, true, b').
Proof.
  intros Hl. revert b. induction Hl as [|[k v] l Hk Hl IH]; intros b Hp.
  { apply packed_nil in Hp as ->. done. }
  cbn [fst] in Hk. rewrite bind_cons in Hp. apply packed_app in Hp as (b1 & Ha & Hp).
  unfold attribute_items in Ha. cbn [fst snd] in Ha.
  apply packed_cons in Ha as (b2 & E1 & Ha). apply packed_cons in Ha as (b3 & E2 & ->%packed_nil).
  cbn [fmap list_fmap extract_loop_ attribute_tree fst snd extract_item].
  unfold orcm_util_workflow_add_extract_string_type, orcm_util_workflow_add_check_name_key.
  replace (strcmp0 (cs "name") k) with false by (symmetry; apply strcmp0_false; congruence).
  cbn [negb andb]. replace (strcmp0 (cs "workflow") (cs "step")) with false by done.
  rewrite E1. cbn [mbind]. rewrite !bind_Ret. cbn [Z.eqb OPAL_SUCCESS negb].
  unfold orcm_util_workflow_add_check_filter_step. cbn [negb andb Z.eqb].
  rewrite E2, !bind_Ret. cbn [Z.eqb OPAL_SUCCESS negb]. exact (IH _ Hp).
Qed.

Lemma extract_step s b ff b' :
  step_ok s -> ff = true \/ ss_name s = cs "filter" -> packed b (step_items s) b' ->
  extract_list_ malloc_ok initial threshold registered other_pack (extract_item' (cs "step")) (step_list s) b ff =
  Ret (OPAL_SUCCESS, true, b').
Proof.
  intros (_ & Ha & Hn) Hff Hp. unfold step_items in Hp.
  apply packed_cons in Hp as (b1 & E1 & Hp). apply packed_cons in Hp as (b2 & E2 & Hp).
  unfold extract_list_, step_list. cbn [length]. rewrite length_fmap.
  rewrite i32_small by (unfold INT_MIN, INT_MAX in *; lia).
  replace (Z.of_nat (S (length (ss_attributes s))) - 1) with (Z.of_nat (length (ss_attributes s))) by lia.
  rewrite E1, bind_Ret. cbn [Z.eqb OPAL_SUCCESS negb extract_loop_ extract_item].
  unfold orcm_util_workflow_add_extract_string_type, orcm_util_workflow_add_check_name_key.
  replace (strcmp0 (cs "name") (cs "name")) with true by done. cbn [negb andb]. rewrite bind_Ret.
  cbn [Z.eqb OPAL_SUCCESS negb].
  assert (orcm_util_workflow_add_check_filter_step (cs "step") (ss_name s) ff = (OPAL_SUCCESS, true)) as ->.
  { unfold orcm_util_workflow_add_check_filter_step. destruct ff; [done|].
    destruct Hff as [?| ->]; [done|]. done. }
  cbn [Z.eqb OPAL_SUCCESS negb]. rewrite E2, !bind_Ret. cbn [Z.eqb OPAL_SUCCESS negb].
  apply extract_attributes; [|done]. eapply Forall_imp; [|exact Ha]. by intros ? [].
Qed.

Lemma extract_steps l b ff b' rc :
  l <> [] -> Forall step_ok l -> ff = true \/ ss_name <$> head l = Some (cs "filter") ->
  packed b (l ≫= step_items) b' ->
  extract_loop_ (extract_item' (cs "workflow")) (step_tree <$> l) rc b true ff = Ret (OPAL_SUCCESS, true, b').
Proof.
  intros Hne Hl. revert b ff rc Hne. induction Hl as [|s l Hs Hl IH]; intros b ff rc Hne Hff Hp; [done|].
  rewrite bind_cons in Hp. apply packed_app in Hp as (b1 & E1 & Hp).
  cbn [fmap list_fmap extract_loop_ step_tree extract_item negb].
  replace (strcmp0 (cs "step") (cs "step")) with true by done.
  rewrite (extract_step s b ff b1); [|done| |done].
  - rewrite !bind_Ret. cbn [Z.eqb OPAL_SUCCESS negb]. destruct l as [|s' l].
    + apply packed_nil in Hp as ->. done.
    + apply IH; auto.
  - destruct Hff as [?|Hff]; [by left|]. right. by injection Hff.
Qed.

Lemma extract_workflow d b b' :
  workflow_ok d -> packed b (workflow_items d) b' ->
  orcm_util_workflow_add_extract_workflow_info malloc_ok initial threshold registered other_pack
    (workflow_list d) b (cs "workflow") false = Ret (OPAL_SUCCESS, true, b').
Proof.
  intros (_ & Hs & Hn & Hf) Hp. unfold workflow_items in Hp.
  apply packed_cons in Hp as (b1 & E1 & Hp). apply packed_cons in Hp as (b2 & E2 & Hp).
  unfold orcm_util_workflow_add_extract_workflow_info, extract_list_, workflow_list. cbn [length].
  rewrite length_fmap, i32_small by (unfold INT_MIN, INT_MAX in *; lia).
  replace (Z.of_nat (S (length (ws_steps d))) - 1) with (Z.of_nat (length (ws_steps d))) by lia.
  rewrite E1, bind_Ret. cbn [Z.eqb OPAL_SUCCESS negb extract_loop_ extract_item].
  unfold orcm_util_workflow_add_extract_string_type, orcm_util_workflow_add_check_name_key.
  replace (strcmp0 (cs "name") (cs "name")) with true by done. cbn [negb andb]. rewrite bind_Ret.
  cbn [Z.eqb OPAL_SUCCESS negb].
  replace (orcm_util_workflow_add_check_filter_step (cs "workflow") (ws_name d) false) with (OPAL_SUCCESS, false)
    by done.
  cbn [Z.eqb OPAL_SUCCESS negb]. rewrite E2, !bind_Ret. cbn [Z.eqb OPAL_SUCCESS negb].
  apply extract_steps; auto. intros E. by rewrite E in Hf.
Qed.
(** ** The aggregator's side *)
(** *** Steps *)
Definition attribute_value (a : cstr * cstr) : orcm_value_t :=
  MkOrcmValue (Some a.1) OPAL_STRING (VString (Some a.2)) None.

Abbreviation unpack_string' := (unpack_string malloc_ok registered other_unpack).
Abbreviation unpack_int' := (unpack_int malloc_ok registered other_unpack).

Lemma parse_attributes_holds desc l attrs k v b rest :
  Forall attribute_ok l -> holds desc b (((l ≫= attribute_items) ≫= enc_item desc) ++ rest) ->
  exists b', parse_attributes malloc_ok registered other_unpack (length l) attrs k v 1 b =
    Ret (OPAL_SUCCESS, attrs ++ (attribute_value <$> l), b') /\ holds desc b' rest.
Proof.
  intros Hl. revert attrs k v b. induction Hl as [|[key val] l (_ & Hk & Hv) Hl IH]; intros attrs k v b Hb.
  { exists b. split; [|done]. cbn. by rewrite app_nil_r. }
  rewrite bind_cons, bind_app in Hb. unfold attribute_items at 1 in Hb.
  rewrite bind_cons, bind_singleton, <- !app_assoc in Hb. cbn [fst snd] in *.
  destruct (text_holds desc b (Some key) k _ Hk Hb) as (b1 & E1 & Hb1).
  destruct (text_holds desc b1 (Some val) v _ Hv Hb1) as (b2 & E2 & Hb2).
  destruct (IH (attrs ++ [attribute_value (key, val)]) (Some key) (Some val) b2 Hb2) as (b3 & E3 & Hb3).
  exists b3. split; [|done]. cbn [length parse_attributes]. rewrite E1, bind_Ret. cbn [Z.eqb OPAL_SUCCESS negb].
  rewrite E2, bind_Ret. cbn [Z.eqb OPAL_SUCCESS negb].
  unfold orcm_analytics_base_append_attributes. unfold attribute_value at 1 in E3. cbn [fst snd] in E3.
  rewrite E3. cbn [fmap list_fmap]. by rewrite <- app_assoc.
Qed.

Section Server.
Context {M : Type} (components : list (@orcm_analytics_base_component_t M)) (thread_ok : cstr -> bool).

(** Every component has a name of its own, can be used and makes a module. *)
Definition component_ok (c : @orcm_analytics_base_component_t M) : Prop :=
  Forall (fun x => x <> zero) (mca_component_name c) /\
  (length (mca_component_name c) <= MCA_BASE_MAX_COMPONENT_NAME_LEN)%nat /\
  available c = true /\ is_Some (create_handle c).

Hypothesis Hcomponents : Forall component_ok components.
Hypothesis Hnames : NoDup (mca_component_name <$> components).

(** The module a step gets: none when no component has its name. *)
Definition offered (l : list (@orcm_analytics_base_component_t M)) (name : cstr) : option M :=
  match list_find (fun c => mca_component_name c = name) l with
  | Some (_, c) => create_handle c
  | None => None
  end.

Lemma strncmp0_component c name :
  component_ok c -> Forall (fun x => x <> zero) name ->
  strncmp0 (MCA_BASE_MAX_COMPONENT_NAME_LEN + 1) (mca_component_name c) name =
  bool_decide (mca_component_name c = name).
Proof.
  intros (Hc & Hlen & _) Hn. unfold strncmp0, MCA_BASE_MAX_COMPONENT_NAME_LEN in *. apply bool_decide_ext. split; [|by intros ->].
  set (s := mca_component_name c) in *. intros E.
  rewrite (take_ge (s ++ [zero])) in E by (rewrite length_app; cbn in *; lia).
  assert ((name ++ [zero]) !! length s = Some zero) as Hz.
  { rewrite <- (lookup_take_lt _ (63 + 1)), <- E by (cbn in *; lia).
    by rewrite lookup_app_r, Nat.sub_diag by lia. }
  destruct (decide (length s < length name)%nat) as [Hlt|Hge].
  { rewrite lookup_app_l in Hz by done. rewrite Forall_forall in Hn.
    by destruct (Hn zero (list_elem_of_lookup_2 _ _ _ Hz)). }
  assert (length name = length s) as Hl.
  { apply lookup_lt_Some in Hz. rewrite length_app in Hz. cbn in Hz. lia. }
  rewrite take_ge in E by (rewrite length_app; cbn in *; lia). by apply app_inj_1 in E as [? _].
Qed.

Lemma select_none l name mod_ :
  Forall component_ok l -> Forall (fun x => x <> zero) name -> name ∉ mca_component_name <$> l ->
  select_component l (Some name) mod_ = Ret (OPAL_SUCCESS, mod_).
Proof.
  intros Hl Hn. induction Hl as [|c l Hc Hl IH]; intros Hin; [done|].
  cbn [select_component deref]. rewrite bind_Ret, strncmp0_component by done.
  apply not_elem_of_cons in Hin as [Hne Hin]. rewrite bool_decide_false by congruence. auto.
Qed.

Lemma select_offered name :
  Forall (fun x => x <> zero) name ->
  orcm_analytics_base_select_workflow_step components (Some name) = Ret (OPAL_SUCCESS, offered components name).
Proof.
  intros Hn. unfold orcm_analytics_base_select_workflow_step, offered.
  induction Hcomponents as [|c l Hc Hl IH]; [done|].
  cbn [fmap list_fmap] in Hnames. apply NoDup_cons in Hnames as [Hfresh Hnames'].
  cbn [select_component deref list_find]. rewrite bind_Ret, strncmp0_component by done.
  destruct (decide (mca_component_name c = name)) as [<-|Hne].
  - rewrite bool_decide_true by done.
    destruct Hc as (_ & _ & Hav & [h Eh]). unfold orcm_analytics_base_select_create_handle.
    rewrite Hav, Eh. cbn [negb Z.eqb OPAL_SUCCESS]. rewrite select_none by done. by rewrite <- Eh.
  - rewrite bool_decide_false by done. rewrite IH by done.
    by destruct (list_find _ l) as [[]|].
Qed.

Definition installed (s : step_spec) (step : Z) : @installed_step M :=
  MkInstalled (MkStep (attribute_value <$> ss_attributes s) (Some (ss_name s)) step)
    (offered components (ss_name s)).

Definition installed_from (l : list step_spec) (step : Z) : list (@installed_step M) :=
  imap (fun i s => installed s (step + Z.of_nat i)) l.

Lemma installed_from_cons s l step :
  installed_from (s :: l) step = installed s step :: installed_from l (step + 1).
Proof.
  unfold installed_from. rewrite imap_cons. rewrite Z.add_0_r. f_equal. apply imap_ext.
  intros i s' _. cbn [compose]. f_equal. lia.
Qed.

Lemma step_add_holds desc s steps step b rest :
  step_ok s -> holds desc b ((step_items s ≫= enc_item desc) ++ rest) ->
  exists b', orcm_analytics_base_workflow_step_add malloc_ok registered other_unpack components steps b step =
    Ret (OPAL_SUCCESS, steps ++ [installed s step], b') /\ holds desc b' rest.
Proof.
  intros (Hn & Ha & Hlen) Hb. unfold step_items in Hb. rewrite !bind_cons, <- !app_assoc in Hb.
  destruct (nat_holds desc b _ _ Hlen Hb) as (b1 & E1 & Hb1).
  destruct (text_holds desc b1 _ None _ Hn Hb1) as (b2 & E2 & Hb2).
  destruct (parse_attributes_holds desc _ [] None None b2 rest Ha Hb2) as (b3 & E3 & Hb3).
  exists b3. split; [|done]. unfold orcm_analytics_base_workflow_step_add.
  unfold ANALYTICS_COUNT_DEFAULT. rewrite E1. cbn [Z.eqb OPAL_SUCCESS negb].
  rewrite E2, bind_Ret. cbn [Z.eqb OPAL_SUCCESS negb deref]. rewrite bind_Ret.
  unfold orcm_analytics_base_parse_attributes. rewrite Nat2Z.id. unfold ANALYTICS_COUNT_DEFAULT.
  rewrite E3, bind_Ret. cbn [Z.eqb OPAL_SUCCESS negb]. rewrite select_offered by apply Hn.
  rewrite bind_Ret. done.
Qed.

Lemma add_steps_holds desc l steps step b rest :
  Forall step_ok l -> holds desc b (((l ≫= step_items) ≫= enc_item desc) ++ rest) ->
  exists b', add_steps malloc_ok registered other_unpack components (length l) step steps b =
    Ret (OPAL_SUCCESS, steps ++ installed_from l step, b') /\ holds desc b' rest.
Proof.
  intros Hl. revert steps step b. induction Hl as [|s l Hs Hl IH]; intros steps step b Hb.
  { exists b. split; [|done]. cbn. by rewrite app_nil_r. }
  rewrite bind_cons, bind_app, <- app_assoc in Hb.
  destruct (step_add_holds desc s steps step b _ Hs Hb) as (b1 & E1 & Hb1).
  destruct (IH (steps ++ [installed s step]) (step + 1) b1 Hb1) as (b2 & E2 & Hb2).
  exists b2. split; [|done]. cbn [length add_steps]. rewrite E1, bind_Ret. cbn [Z.eqb OPAL_SUCCESS negb].
  by rewrite E2, <- app_assoc, installed_from_cons.
Qed.

(** *** Workflows *)
Definition installed_workflow_of (id : Z) (d : workflow_spec) : @installed_workflow M :=
  MkInstalledWf (MkWorkflow (Some (ws_name d)) None id) (installed_from (ws_steps d) 0) true.

Lemma workflow_add_holds desc d base b rest :
  workflow_ok d -> thread_ok (cs "wfid" ++ fmt_d (ab_workflow_id base)) = true -> ab_workflow_id base < INT_MAX ->
  holds desc b ((workflow_items d ≫= enc_item desc) ++ rest) ->
  orcm_analytics_base_workflow_add malloc_ok registered other_unpack components thread_ok b base =
  Ret (OPAL_SUCCESS, Some (ab_workflow_id base),
       MkBase (ab_workflows base ++ [installed_workflow_of (ab_workflow_id base) d])
         (ab_store_raw_data base) (ab_store_event_data base) (ab_workflow_id base + 1)).
Proof.
  intros (Hn & Hs & Hlen & _) Hth Hid Hb. unfold workflow_items in Hb. rewrite !bind_cons, <- !app_assoc in Hb.
  destruct (nat_holds desc b _ _ Hlen Hb) as (b1 & E1 & Hb1).
  destruct (text_holds desc b1 _ None _ Hn Hb1) as (b2 & E2 & Hb2).
  destruct (add_steps_holds desc _ [] 0 b2 rest Hs Hb2) as (b3 & E3 & Hb3).
  unfold orcm_analytics_base_workflow_add, ANALYTICS_COUNT_DEFAULT. rewrite E1. cbn [Z.eqb OPAL_SUCCESS negb].
  rewrite E2, bind_Ret. cbn [Z.eqb OPAL_SUCCESS negb]. unfold orcm_analytics_base_workflow_object_init.
  destruct (Z.leb_spec INT_MAX (ab_workflow_id base)); [lia|]. rewrite bind_Ret.
  unfold orcm_analytics_base_add_new_workflow_event_base, orcm_analytics_base_add_event_base.
  cbn [wf_workflow_id]. rewrite Hth. cbn [Z.eqb OPAL_SUCCESS negb deref]. rewrite bind_Ret, Nat2Z.id, E3, bind_Ret.
  done.
Qed.
End Server.
End Wire.
