(* ===== verification/WorkflowClaims.v ===== *)
(** * The control plane of the analytics workflows as a whole

    A command of the operator is packed, delivered, handled and answered.
    [command_step] is what it means: the aggregator holds a list of workflows
    with identifiers, the next identifier and the two storage flags.  The
    tool, the serializer and the aggregator together implement it. *)

From S2P Require Import Prelude CString Dss DssFormat DssRoundtrip DssClaims DssText DssMessage LogicalGroup OrcmUtil.
From S2P Require Import AnalyticsBase WorkflowControl WorkflowProps.
From stdpp Require Import base strings numbers list.
From Stdlib Require Import ZArith Lia Ascii.

Open Scope Z_scope.

(** ** Commands and their meaning *)
Inductive command : Type :=
| CAdd (d : workflow_spec)
| CRemove (name : cstr) (id : option Z)
| CList
| CPolicy (storage_command : Z).

Inductive answer : Type :=
| AAdded (id : Z)
| ARemoved (deleted : bool)
| AListed (l : list (option cstr * Z))
| APolicy (ok : bool)
| AFailed (rc : Z).

Definition id_text (id : option Z) : cstr :=
  match id with Some n => fmt_d n | None => WORKFLOW_WILD_CHARACTER end.

Record control : Type := MkControl {
  ct_workflows : list (Z * workflow_spec);
  ct_next : Z;
  ct_raw : bool;
  ct_event : bool
}.

Definition named (name : cstr) (id : option Z) (w : Z * workflow_spec) : bool :=
  strcmp0 name WORKFLOW_WILD_CHARACTER ||
  (strcmp0 name (ws_name w.2) && match id with Some n => n =? w.1 | None => true end).

Definition command_step (c : command) (st : control) : answer * control :=
  match c with
  | CAdd d =>
    (AAdded (ct_next st),
     MkControl (ct_workflows st ++ [(ct_next st, d)]) (ct_next st + 1) (ct_raw st) (ct_event st))
  | CRemove name id =>
    (ARemoved (existsb (named name id) (ct_workflows st)),
     MkControl (filter (fun w => named name id w = false) (ct_workflows st)) (ct_next st) (ct_raw st) (ct_event st))
  | CList => (AListed ((fun w => (Some (ws_name w.2), w.1)) <$> ct_workflows st), st)
  | CPolicy p =>
    let set_ raw event := (APolicy true, MkControl (ct_workflows st) (ct_next st) raw event) in
    if p =? 0 then set_ false false
    else if p =? 1 then set_ true (ct_event st)
    else if p =? 2 then set_ (ct_raw st) true
    else if p =? 3 then set_ true true
    else (APolicy false, st)
  end.

Fixpoint command_run (cmds : list command) (st : control) : list answer * control :=
  match cmds with
  | [] => ([], st)
  | c :: cmds' =>
    let '(a, st) := command_step c st in
    let '(l, st) := command_run cmds' st in (a :: l, st)
  end.

(** ** The system *)
Section System.
Context (malloc_ok : Z -> bool) (initial threshold : Z) (registered : Z -> bool).
Context (other_pack : Z -> opal_buffer_t -> dss_data -> outcome (Z * opal_buffer_t)).
Context (other_unpack : Z -> opal_buffer_t -> Z -> Z * option dss_data * opal_buffer_t).
Context (desc : bool).
Context {M : Type} (components : list (@orcm_analytics_base_component_t M)) (thread_ok : cstr -> bool).

(** The message of a command, if one is sent. *)
Definition message (c : command) : outcome (Z * option opal_buffer_t) :=
  let sent m := '(rc, b) ← m; Ret (rc, if rc =? OPAL_SUCCESS then Some b else None) in
  let fresh := opal_buffer_construct desc in
  match c with
  | CAdd d =>
    workflow_add_message malloc_ok initial threshold registered other_pack desc (workflow_list d) (cs "workflow")
  | CRemove name id =>
    sent (workflow_remove_pack_buffer malloc_ok initial threshold registered other_pack fresh
            (Some name) (Some (id_text id)))
  | CList => sent (workflow_list_pack_buffer malloc_ok initial threshold registered other_pack fresh)
  | CPolicy p =>
    sent (orcm_octl_sensor_store_pack_buffer malloc_ok initial threshold registered other_pack fresh p)
  end.

Definition read_answer (c : command) (b : opal_buffer_t) : outcome answer :=
  match c with
  | CAdd _ =>
    '(rc, id) ← workflow_add_unpack_buffer malloc_ok registered other_unpack b;
    Ret (match id with Some id => AAdded id | None => AFailed rc end)
  | CRemove _ _ =>
    '(rc, deleted) ← workflow_remove_unpack_buffer malloc_ok registered other_unpack b;
    Ret (if rc =? OPAL_SUCCESS then ARemoved deleted else AFailed rc)
  | CList =>
    '(rc, l) ← workflow_list_unpack_buffer malloc_ok registered other_unpack b;
    Ret (if rc =? OPAL_SUCCESS then AListed l else AFailed rc)
  | CPolicy _ =>
    '(rc, ok) ← orcm_octl_sensor_store_unpack_buffer malloc_ok registered other_unpack b;
    Ret (if rc =? OPAL_SUCCESS then APolicy ok else AFailed rc)
  end.

Definition control_exec (c : command) (base : @orcm_analytics_base_t M)
    : outcome (answer * @orcm_analytics_base_t M) :=
  '(rc, m) ← message c;
  match m with
  | None => Ret (AFailed rc, base)
  | Some b =>
    rb ← deliver desc b;
    '(base, ans) ← orcm_analytics_base_recv malloc_ok initial threshold registered other_pack other_unpack desc
                     components thread_ok rb base;
    ra ← deliver desc ans;
    a ← read_answer c ra;
    Ret (a, base)
  end.

Fixpoint control_run (cmds : list command) (base : @orcm_analytics_base_t M)
    : outcome (list answer * @orcm_analytics_base_t M) :=
  match cmds with
  | [] => Ret ([], base)
  | c :: cmds' =>
    '(a, base) ← control_exec c base;
    '(l, base) ← control_run cmds' base;
    Ret (a :: l, base)
  end.

(** ** What is asked of the commands *)
Definition command_items (c : command) : list (dss_data * Z) :=
  match c with
  | CAdd d => byte_item ORCM_ANALYTICS_WORKFLOW_ADD :: workflow_items d
  | CRemove name id =>
    [byte_item ORCM_ANALYTICS_WORKFLOW_REMOVE; text_item (Some name); text_item (Some (id_text id))]
  | CList => [byte_item ORCM_ANALYTICS_WORKFLOW_LIST]
  | CPolicy p => [byte_item ORCM_ANALYTICS_SENSOR_STORAGE_POLICY; byte_item (wrap 8 p)]
  end.

Definition listing_items (l : list (Z * workflow_spec)) : list (dss_data * Z) :=
  int_item (Z.of_nat (length l)) ::
  (l ≫= fun w => [int_item w.1; text_item (Some (ws_name w.2))]) ++ [int_item OPAL_SUCCESS].

Definition admissible_step (c : command) (st : control) : Prop :=
  fits_message registered desc (command_items c) /\
  match c with
  | CAdd d => workflow_ok d /\ ct_next st < INT_MAX /\ thread_ok (cs "wfid" ++ fmt_d (ct_next st)) = true
  | CRemove name id =>
    cstr_ok (Some name) /\ match id with Some n => 0 <= n <= INT_MAX | None => True end
  | CList => fits_message registered desc (listing_items (ct_workflows st)) /\ Z.of_nat (length (ct_workflows st)) < INT_MAX
  | CPolicy p => 0 <= p < 256
  end.

Fixpoint admissible (cmds : list command) (st : control) : Prop :=
  match cmds with
  | [] => True
  | c :: cmds' => admissible_step c st /\ admissible cmds' (command_step c st).2
  end.

(** ** Refinement relation *)
Record control_rep (base : @orcm_analytics_base_t M) (st : control) : Prop := {
  cr_workflows : ab_workflows base = (fun w => installed_workflow_of components w.1 w.2) <$> ct_workflows st;
  cr_next : ab_workflow_id base = ct_next st;
  cr_raw : ab_store_raw_data base = ct_raw st;
  cr_event : ab_store_event_data base = ct_event st;
  cr_named : Forall (fun w => cstr_ok (Some (ws_name w.2))) (ct_workflows st);
  cr_ids : Forall (fun w => 0 <= w.1 < ct_next st) (ct_workflows st);
  cr_range : 0 <= ct_next st <= INT_MAX
}.
End System.

Lemma Forall_kept {A} (P Q : A -> Prop) `{!forall x, Decision (Q x)} l : Forall P l -> Forall P (filter Q l).
Proof. rewrite !Forall_forall. intros HP x [_ Hx]%list_elem_of_filter. auto. Qed.

(** ** Decimal identifiers *)
Lemma fmt_d_digits n : 0 <= n -> Forall (fun c => isdigit c = true) (fmt_d n) /\ fmt_d n <> [] /\ dec_value 0 (fmt_d n) = n.
Proof.
  intros Hn. unfold fmt_d. destruct (Z.ltb_spec n 0); [lia|]. unfold dec.
  destruct (ndigits_spec n Hn) as (H1 & H2 & _). split_and!.
  - apply dec_pad_digits.
  - intros E. apply (f_equal length) in E. rewrite dec_pad_length in E. cbn in E. lia.
  - by apply dec_value_pad_small.
Qed.

Lemma requested_id_text id :
  match id with Some n => 0 <= n <= INT_MAX | None => True end ->
  requested_id (id_text id) = Ret (default (-1) id).
Proof.
  destruct id as [n|]; [|done]. intros Hn. cbn [id_text default]. unfold requested_id.
  destruct (fmt_d_digits n ltac:(lia)) as (Hd & Hne & Hv).
  replace (strcmp0 (fmt_d n) WORKFLOW_WILD_CHARACTER) with false.
  2: { symmetry. apply strcmp0_false. intros E. rewrite E in Hd. by inv Hd. }
  destruct (last (fmt_d n)) as [c|] eqn:El; [|by apply last_None in El].
  cbn [deref]. rewrite bind_Ret.
  assert (isdigit c = true) as ->.
  { apply last_Some in El as [l' E]. rewrite E in Hd. apply Forall_app in Hd as [_ Hd]. by inv Hd. }
  pose proof (strtol10_digits (fmt_d n) [] Hd Hne I) as E. rewrite app_nil_r, Hv in E.
  rewrite E by (unfold LONG_MAX, INT_MAX in *; lia). cbn [fst].
  rewrite i32_small by (unfold INT_MIN, INT_MAX in *; lia). done.
Qed.

Lemma id_text_ok id :
  match id with Some n => 0 <= n <= INT_MAX | None => True end -> cstr_ok (Some (id_text id)).
Proof.
  destruct id as [n|]; [|by intros; apply cstr_ok_cs]. intros Hn. cbn [id_text].
  destruct (fmt_d_digits n ltac:(lia)) as (Hd & _). split.
  - eapply Forall_imp; [|exact Hd]. by intros c Hc ->.
  - unfold fmt_d. destruct (Z.ltb_spec n 0); [lia|]. unfold dec. rewrite dec_pad_length.
    pose proof (ndigits_le 10 n ltac:(unfold INT_MAX in *; lia) ltac:(lia)). unfold INT_MAX. lia.
Qed.

(** ** Messages arrive *)
Section Refinement.
Context (malloc_ok : Z -> bool) (initial threshold : Z) (registered : Z -> bool).
Context (other_pack : Z -> opal_buffer_t -> dss_data -> outcome (Z * opal_buffer_t)).
Context (other_unpack : Z -> opal_buffer_t -> Z -> Z * option dss_data * opal_buffer_t).
Context (desc : bool).
Hypothesis Hmalloc : forall n, malloc_ok n = true.
Hypothesis Hinitial : 0 < initial < 2 ^ 31.
Hypothesis Hthreshold : 0 < threshold < 2 ^ 31.

Abbreviation item_ok := (item_ok registered).
Abbreviation enc_item := (enc_item registered).
Abbreviation packed := (packed malloc_ok initial threshold registered other_pack).
Abbreviation message' := (message malloc_ok initial threshold registered other_pack desc).
Abbreviation fits_message := (fits_message registered desc).
Abbreviation holds_items b items := (holds desc b (items ≫= enc_item desc)).

Abbreviation fresh_delivered := (fresh_delivered malloc_ok initial threshold registered other_pack Hmalloc desc Hinitial Hthreshold).

Lemma command_items_ok {M} (components : list (@orcm_analytics_base_component_t M)) thread_ok c st :
  admissible_step registered desc thread_ok c st -> Forall item_ok (command_items c).
Proof.
  intros [_ H]. destruct c as [d|name id| |p]; cbn [command_items].
  - destruct H as ((Hn & Hs & _) & _). apply Forall_cons_iff. split; [by apply byte_item_ok|].
    unfold workflow_items. apply Forall_cons_iff. split; [apply int_item_ok|].
    apply Forall_cons_iff. split; [by apply text_item_ok|]. apply Forall_bind.
    eapply Forall_imp; [|exact Hs]. intros s (Hn' & Ha & _). unfold step_items.
    apply Forall_cons_iff. split; [apply int_item_ok|]. apply Forall_cons_iff. split; [by apply text_item_ok|].
    apply Forall_bind. eapply Forall_imp; [|exact Ha]. intros a (_ & Hk & Hv).
    repeat (apply Forall_cons_iff; split; [by apply text_item_ok|]). constructor.
  - destruct H as [Hn Hid]. apply Forall_cons_iff. split; [by apply byte_item_ok|].
    apply Forall_cons_iff. split; [by apply text_item_ok|].
    apply Forall_singleton. apply text_item_ok. by apply id_text_ok.
  - apply Forall_singleton. by apply byte_item_ok.
  - apply Forall_cons_iff. split; [by apply byte_item_ok|]. apply Forall_singleton.
    apply byte_item_ok. unfold wrap. apply Z.mod_pos_bound. lia.
Qed.

Lemma message_sent {M} (components : list (@orcm_analytics_base_component_t M)) thread_ok c st :
  admissible_step registered desc thread_ok c st ->
  exists b, message' c = Ret (OPAL_SUCCESS, Some b) /\ delivers registered desc b (command_items c).
Proof.
  intros Hadm. pose proof (command_items_ok components _ _ _ Hadm) as Hok. destruct Hadm as [Hsz H].
  destruct c as [d|name id| |p]; cbn [command_items] in *;
    destruct (fresh_delivered _ _ Hok Hsz) as (b & Hp & Hb); exists b; (split; [|exact Hb]); cbn [message];
    apply packed_cons in Hp as (b1 & E1 & Hp).
  - unfold workflow_add_message. rewrite E1, bind_Ret. cbn [Z.eqb OPAL_SUCCESS negb].
    rewrite (extract_workflow _ _ _ _ _ d b1 b (proj1 H) Hp), bind_Ret. done.
  - apply packed_cons in Hp as (b2 & E2 & Hp). apply packed_cons in Hp as (b3 & E3 & ->%packed_nil).
    unfold workflow_remove_pack_buffer. rewrite E1, bind_Ret. cbn [Z.eqb OPAL_SUCCESS negb].
    rewrite E2, bind_Ret. cbn [Z.eqb OPAL_SUCCESS negb]. by rewrite E3, bind_Ret.
  - apply packed_nil in Hp as ->. unfold workflow_list_pack_buffer. by rewrite E1, bind_Ret.
  - apply packed_cons in Hp as (b2 & E2 & ->%packed_nil). unfold orcm_octl_sensor_store_pack_buffer.
    rewrite E1, bind_Ret. cbn [Z.eqb OPAL_SUCCESS negb]. by rewrite E2, bind_Ret.
Qed.

(** ** Messages are handled and answered *)
Abbreviation unpack_int' := (unpack_int malloc_ok registered other_unpack).
Abbreviation unpack_string' := (unpack_string malloc_ok registered other_unpack).

Lemma byte_holds b n rest :
  0 <= n < 256 -> holds desc b (enc_item desc (byte_item n) ++ rest) ->
  exists b', orcm_analytics_base_recv_unpack_uint8_t malloc_ok registered other_unpack b = Ret (n, b') /\
    holds desc b' rest.
Proof.
  intros Hn Hb.
  destruct (unpack_holds malloc_ok registered other_unpack Hmalloc desc b _ rest (byte_item_ok _ _ Hn) eq_refl Hb)
    as (b' & E & Hb').
  exists b'. split; [|done]. unfold orcm_analytics_base_recv_unpack_uint8_t, ANALYTICS_COUNT_DEFAULT.
  cbn [byte_item snd] in E. by rewrite E.
Qed.

Lemma pack_int_packed b n b1 :
  pack_item malloc_ok initial threshold registered other_pack b (int_item n) = Ret (OPAL_SUCCESS, b1) ->
  orcm_analytics_base_recv_pack_int malloc_ok initial threshold registered other_pack b n = Ret (OPAL_SUCCESS, b1).
Proof. unfold orcm_analytics_base_recv_pack_int. intros ->. by rewrite bind_Ret. Qed.

(** The answer of a command that only reports its status. *)
Lemma status_answer rc :
  int32 rc ->
  exists ans rb b, orcm_analytics_base_recv_pack_int malloc_ok initial threshold registered other_pack
      (opal_buffer_construct desc) rc = Ret (OPAL_SUCCESS, ans) /\ deliver desc ans = Ret rb /\
    unpack_int' rb 1 = (OPAL_SUCCESS, Some rc, 1, b).
Proof.
  intros Hrc. assert (Forall item_ok [int_item rc]) as Hok by (apply Forall_singleton, int_item_ok).
  destruct (fresh_delivered (int_item rc) [] Hok) as (ans & Hp & rb & Hrb & Hb); [apply fits_int|].
  apply packed_cons in Hp as (b1 & E1 & ->%packed_nil).
  rewrite bind_singleton, <- (app_nil_r (enc_item desc _)) in Hb.
  destruct (int_holds malloc_ok registered other_unpack Hmalloc desc _ rc [] Hrc Hb) as (b & E & _).
  exists b1, rb, b. split; [by apply pack_int_packed|]. split; [exact Hrb|exact E].
Qed.

Section Commands.
Context {M : Type} (components : list (@orcm_analytics_base_component_t M)) (thread_ok : cstr -> bool).
Hypothesis Hcomponents : Forall component_ok components.
Hypothesis Hnames : NoDup (mca_component_name <$> components).

Abbreviation recv' := (orcm_analytics_base_recv malloc_ok initial threshold registered other_pack other_unpack desc
  components thread_ok).
Abbreviation read_answer' := (read_answer malloc_ok registered other_unpack).
Abbreviation control_rep := (control_rep components).
Abbreviation admissible_step := (admissible_step registered desc thread_ok).

(** A handled command: the aggregator's state and what the tool reads are
    those of the meaning of the command. *)
Definition handled (c : command) (st : control) (b : opal_buffer_t) (base : @orcm_analytics_base_t M) : Prop :=
  exists base' ans, recv' b base = Ret (base', ans) /\ control_rep base' (command_step c st).2 /\
    (ra ← deliver desc ans; read_answer' c ra) = Ret (command_step c st).1.

Lemma add_handled d st b base :
  admissible_step (CAdd d) st -> control_rep base st -> holds_items b (command_items (CAdd d)) ->
  handled (CAdd d) st b base.
Proof.
  intros (_ & Hd & Hnext & Hth) [Hw Hn Hr He Hcn Hci Hrange] Hb. cbn [command_items] in Hb. rewrite bind_cons in Hb.
  destruct (byte_holds b 1 _ ltac:(lia) Hb) as (b1 & E1 & Hb1).
  rewrite <- (app_nil_r (workflow_items d ≫= _)) in Hb1.
  assert (Hadd := workflow_add_holds malloc_ok registered other_unpack Hmalloc components thread_ok Hcomponents
    Hnames desc d base b1 [] Hd ltac:(by rewrite Hn) ltac:(by rewrite Hn) Hb1). rewrite Hn in Hadd.
  assert (int32 (ct_next st)) as Hi by (unfold int32, INT_MIN, INT_MAX in *; lia).
  destruct (fresh_delivered (int_item (ct_next st)) [int_item OPAL_SUCCESS]) as (ans & Hp & ra & Hra & Ha).
  { repeat (apply Forall_cons_iff; split; [apply int_item_ok|]). constructor. }
  { apply fits_two. }
  apply packed_cons in Hp as (b2 & E2 & Hp). apply packed_cons in Hp as (b3 & E3 & ->%packed_nil).
  rewrite bind_cons in Ha.
  destruct (int_holds malloc_ok registered other_unpack Hmalloc desc _ _ _ Hi Ha) as (b4 & E4 & _).
  eexists _, b3. split_and!.
  - unfold orcm_analytics_base_recv. rewrite E1, bind_Ret. cbn [Z.eqb Pos.eqb ORCM_ANALYTICS_WORKFLOW_ADD].
    rewrite Hadd, bind_Ret. cbn [Z.eqb OPAL_SUCCESS deref]. rewrite bind_Ret, (pack_int_packed _ _ _ E2), !bind_Ret.
    rewrite (pack_int_packed _ _ _ E3), bind_Ret. reflexivity.
  - cbn [command_step snd]. split; cbn; try done; try lia.
    + by rewrite fmap_app, Hw.
    + apply Forall_app. split; [done|]. apply Forall_singleton, Hd.
    + apply Forall_app. split; [|apply Forall_singleton; cbn; lia].
      eapply Forall_imp; [|exact Hci]. cbn. lia.
  - rewrite Hra, bind_Ret. cbn [read_answer]. unfold workflow_add_unpack_buffer. rewrite E4. cbn [Z.eqb OPAL_SUCCESS negb deref].
    rewrite !bind_Ret. destruct (Z.ltb_spec (ct_next st) 0); [lia|]. done.
Qed.

(** A status is an answer to a removal or a change of policy. *)
Lemma status_handled c st b base rc base' :
  int32 rc -> control_rep base' (command_step c st).2 ->
  (forall ans, orcm_analytics_base_recv_pack_int malloc_ok initial threshold registered other_pack
     (opal_buffer_construct desc) rc = Ret (OPAL_SUCCESS, ans) -> recv' b base = Ret (base', ans)) ->
  (forall ab b', unpack_int' ab 1 = (OPAL_SUCCESS, Some rc, 1, b') -> read_answer' c ab = Ret (command_step c st).1) ->
  handled c st b base.
Proof.
  intros Hrc Hrep Hrecv Hread. destruct (status_answer rc Hrc) as (ans & rb & b' & Ep & Hrb & Eu).
  exists base', ans. rewrite Hrb, bind_Ret. split_and!; [by apply Hrecv|done|by eapply Hread].
Qed.

Lemma policy_handled p st b base :
  admissible_step (CPolicy p) st -> control_rep base st -> holds_items b (command_items (CPolicy p)) ->
  handled (CPolicy p) st b base.
Proof.
  intros (_ & Hp) [Hw Hn Hr He Hcn Hci Hrange] Hb. cbn [command_items] in Hb. rewrite bind_cons, bind_singleton in Hb.
  destruct (byte_holds b 4 _ ltac:(lia) Hb) as (b1 & E1 & Hb1).
  rewrite wrap_small in Hb1 by lia. rewrite <- (app_nil_r (enc_item desc _)) in Hb1.
  destruct (byte_holds b1 p _ Hp Hb1) as (b2 & E2 & _).
  destruct (orcm_analytics_base_control_storage p base) as [rc base'] eqn:Ec.
  assert (recv' b base = '(_, ans) ← orcm_analytics_base_recv_pack_int malloc_ok initial threshold registered
    other_pack (opal_buffer_construct desc) rc; Ret (base', ans)) as Erecv.
  { unfold orcm_analytics_base_recv. rewrite E1, bind_Ret. cbn [Z.eqb Pos.eqb ORCM_ANALYTICS_WORKFLOW_ADD
      ORCM_ANALYTICS_WORKFLOW_REMOVE ORCM_ANALYTICS_WORKFLOW_LIST ORCM_ANALYTICS_SENSOR_STORAGE_POLICY].
    by rewrite E2, bind_Ret, Ec, bind_Ret. }
  apply (status_handled _ _ _ _ rc base').
  - unfold orcm_analytics_base_control_storage in Ec.
    repeat (case_match; simplify_eq; [done|]). by simplify_eq.
  - unfold orcm_analytics_base_control_storage in Ec. cbn [command_step].
    unfold ORCM_SENSOR_STORAGE_NONE, ORCM_SENSOR_STORAGE_ENVIRONMENT_ONLY, ORCM_SENSOR_STORAGE_EVENT_ONLY,
      ORCM_SENSOR_STORAGE_BOTH in Ec.
    repeat (case_match; [simplify_eq; by split|]). simplify_eq. by split.
  - intros ans E. by rewrite Erecv, E, bind_Ret.
  - intros ab b' E. cbn [read_answer]. unfold orcm_octl_sensor_store_unpack_buffer. rewrite E.
    cbn [Z.eqb OPAL_SUCCESS negb deref]. rewrite !bind_Ret. cbn [command_step].
    unfold orcm_analytics_base_control_storage in Ec.
    unfold ORCM_SENSOR_STORAGE_NONE, ORCM_SENSOR_STORAGE_ENVIRONMENT_ONLY, ORCM_SENSOR_STORAGE_EVENT_ONLY,
      ORCM_SENSOR_STORAGE_BOTH in Ec.
    repeat (case_match; [by simplify_eq|]). by simplify_eq.
Qed.

Lemma remove_named_spec name id l :
  match id with Some n => 0 <= n <= INT_MAX | None => True end -> Forall (fun w => 0 <= w.1) l ->
  remove_named name (id_text id) (default (-1) id) ((fun w => installed_workflow_of components w.1 w.2) <$> l) =
  Ret ((fun w => installed_workflow_of components w.1 w.2) <$> filter (fun w => named name id w = false) l,
       existsb (named name id) l).
Proof.
  intros Hid. induction 1 as [|w l Hw Hl IH]; [done|]. cbn [fmap list_fmap remove_named].
  assert (names_workflow name (id_text id) (default (-1) id) (installed_workflow_of components w.1 w.2) =
    Ret (named name id w)) as ->.
  { unfold names_workflow, named. destruct (strcmp0 name WORKFLOW_WILD_CHARACTER); [done|].
    cbn [installed_workflow_of iw_wf wf_name wf_workflow_id deref orb]. rewrite bind_Ret. f_equal. f_equal.
    destruct id as [n|]; cbn [id_text default].
    - replace (strcmp0 (fmt_d n) WORKFLOW_WILD_CHARACTER) with false; [apply orb_false_r|].
      symmetry. apply strcmp0_false. intros E. destruct (fmt_d_digits n ltac:(lia)) as (Hd & _). rewrite E in Hd. by inv Hd.
    - destruct (Z.eqb_spec (-1) w.1); [lia|]. done. }
  rewrite bind_Ret, IH, bind_Ret. cbn [existsb]. rewrite filter_cons.
  destruct (named name id w); cbn [orb]; by case_decide.
Qed.

Lemma remove_handled name id st b base :
  admissible_step (CRemove name id) st -> control_rep base st -> holds_items b (command_items (CRemove name id)) ->
  handled (CRemove name id) st b base.
Proof.
  intros (_ & Hname & Hid) [Hw Hn Hr He Hcn Hci Hrange] Hb. cbn [command_items] in Hb.
  rewrite !bind_cons, <- (app_nil_r (_ ++ _)), <- !app_assoc in Hb.
  destruct (byte_holds b 2 _ ltac:(lia) Hb) as (b1 & E1 & Hb1).
  destruct (text_holds malloc_ok registered other_unpack Hmalloc desc b1 _ None _ Hname Hb1) as (b2 & E2 & Hb2).
  destruct (text_holds malloc_ok registered other_unpack Hmalloc desc b2 _ None _ (id_text_ok id Hid) Hb2)
    as (b3 & E3 & _).
  set (hit := existsb (named name id) (ct_workflows st)).
  set (base' := with_workflows ((fun w => installed_workflow_of components w.1 w.2) <$>
    filter (fun w => named name id w = false) (ct_workflows st)) base).
  assert (orcm_analytics_base_workflow_remove malloc_ok registered other_unpack b1 base =
    Ret (if hit then OPAL_SUCCESS else OPAL_ERROR, base')) as Erem.
  { unfold orcm_analytics_base_workflow_remove, ANALYTICS_COUNT_DEFAULT. rewrite E2, bind_Ret.
    cbn [Z.eqb OPAL_SUCCESS negb]. rewrite E3, bind_Ret. cbn [Z.eqb OPAL_SUCCESS negb deref].
    rewrite bind_Ret, (requested_id_text id Hid), bind_Ret.
    assert (Hrem := remove_named_spec name id (ct_workflows st) Hid).
    rewrite <- Hw in Hrem. unfold base', hit. destruct (ab_workflows base) as [|iw l] eqn:El.
    - destruct (ct_workflows st); [|done]. cbn. destruct base. cbn in El. by rewrite El.
    - cbn [deref]. rewrite bind_Ret, Hrem, bind_Ret; [done|]. eapply Forall_imp; [|exact Hci]. cbn. lia. }
  apply (status_handled _ _ _ _ (if hit then OPAL_SUCCESS else OPAL_ERROR) base').
  - by destruct hit.
  - cbn [command_step snd]. split; try done; cbn; by apply Forall_kept.
  - intros ans E. unfold orcm_analytics_base_recv. rewrite E1, bind_Ret.
    cbn [Z.eqb Pos.eqb ORCM_ANALYTICS_WORKFLOW_ADD ORCM_ANALYTICS_WORKFLOW_REMOVE].
    by rewrite Erem, !bind_Ret, E, bind_Ret.
  - intros ab b' E. cbn [read_answer]. unfold workflow_remove_unpack_buffer. rewrite E.
    cbn [Z.eqb OPAL_SUCCESS negb deref]. rewrite !bind_Ret. cbn [command_step fst]. fold hit. by destruct hit.
Qed.

Definition entry_items (w : Z * workflow_spec) : list (dss_data * Z) :=
  [int_item w.1; text_item (Some (ws_name w.2))].

Lemma append_info_packed l b b' :
  packed b (l ≫= entry_items) b' ->
  orcm_analytics_base_workflow_list_append_info malloc_ok initial threshold registered other_pack
    ((fun w => installed_workflow_of components w.1 w.2) <$> l) b = Ret (OPAL_SUCCESS, b').
Proof.
  revert b. induction l as [|w l IH]; intros b Hp; [by apply packed_nil in Hp as ->|].
  rewrite bind_cons in Hp. apply packed_app in Hp as (b1 & Hw & Hp).
  apply packed_cons in Hw as (b2 & E2 & Hw). apply packed_cons in Hw as (b3 & E3 & ->%packed_nil).
  cbn [fmap list_fmap orcm_analytics_base_workflow_list_append_info installed_workflow_of iw_wf wf_workflow_id wf_name
    deref].
  rewrite (pack_int_packed _ _ _ E2), bind_Ret. cbn [Z.eqb OPAL_SUCCESS negb]. rewrite bind_Ret, E3, bind_Ret.
  cbn [Z.eqb OPAL_SUCCESS negb]. by apply IH.
Qed.

Lemma list_entries_holds l b acc rest :
  Forall (fun w => cstr_ok (Some (ws_name w.2))) l -> Forall (fun w => int32 w.1) l ->
  holds desc b (((l ≫= entry_items) ≫= enc_item desc) ++ rest) ->
  list_entries malloc_ok registered other_unpack (length l) 1 b acc =
  Ret (OPAL_SUCCESS, acc ++ ((fun w => (Some (ws_name w.2), w.1)) <$> l)).
Proof.
  intros Hn. revert b acc. induction Hn as [|w l Hw Hn IH]; intros b acc Hi Hb.
  { cbn. by rewrite app_nil_r. }
  apply Forall_cons_iff in Hi as [Hi1 Hi].
  rewrite bind_cons, bind_app in Hb. unfold entry_items at 1 in Hb.
  rewrite bind_cons, bind_singleton, <- !app_assoc in Hb.
  destruct (int_holds malloc_ok registered other_unpack Hmalloc desc b _ _ Hi1 Hb) as (b1 & E1 & Hb1).
  destruct (text_holds malloc_ok registered other_unpack Hmalloc desc b1 _ None _ Hw Hb1) as (b2 & E2 & Hb2).
  cbn [length list_entries]. rewrite E1. cbn [Z.eqb OPAL_SUCCESS negb]. rewrite E2, bind_Ret.
  cbn [Z.eqb OPAL_SUCCESS negb deref]. rewrite bind_Ret, (IH b2 _ Hi Hb2). cbn [fmap list_fmap]. by rewrite <- app_assoc.
Qed.

Lemma list_handled st b base :
  admissible_step CList st -> control_rep base st -> holds_items b (command_items CList) ->
  handled CList st b base.
Proof.
  intros (_ & Hsz & Hcount) Hrep Hb. pose proof Hrep as [Hw Hn Hr He Hcn Hci Hrange]. cbn [command_items] in Hb.
  rewrite bind_singleton, <- (app_nil_r (enc_item desc _)) in Hb.
  destruct (byte_holds b 3 _ ltac:(lia) Hb) as (b1 & E1 & _).
  destruct (fresh_delivered (int_item (Z.of_nat (length (ct_workflows st))))
    ((ct_workflows st ≫= entry_items) ++ [int_item OPAL_SUCCESS])) as (ans & Hp & ra & Hra & Ha).
  { apply Forall_cons_iff. split; [apply int_item_ok|]. apply Forall_app. split; [|apply Forall_singleton, int_item_ok].
    apply Forall_bind. eapply Forall_imp; [|exact Hcn]. intros w Hw'. apply Forall_cons_iff. split; [apply int_item_ok|].
    by apply Forall_singleton, text_item_ok. }
  { exact Hsz. }
  apply packed_cons in Hp as (b2 & E2 & Hp). apply packed_app in Hp as (b3 & E3 & Hp).
  apply packed_cons in Hp as (b4 & E4 & ->%packed_nil).
  rewrite bind_cons, bind_app in Ha.
  destruct (nat_holds malloc_ok registered other_unpack Hmalloc desc _ _ _ Hcount Ha) as (b5 & E5 & Hb5).
  exists base, b4. split_and!; [|exact Hrep|].
  - unfold orcm_analytics_base_recv. rewrite E1, bind_Ret.
    cbn [Z.eqb Pos.eqb ORCM_ANALYTICS_WORKFLOW_ADD ORCM_ANALYTICS_WORKFLOW_REMOVE ORCM_ANALYTICS_WORKFLOW_LIST].
    unfold orcm_analytics_base_workflow_list. rewrite Hw, length_fmap.
    rewrite i32_small by (unfold INT_MIN, INT_MAX in *; lia). rewrite (pack_int_packed _ _ _ E2), bind_Ret.
    cbn [Z.eqb OPAL_SUCCESS negb]. rewrite (append_info_packed _ _ _ E3).
    destruct (Z.ltb_spec 0 (Z.of_nat (length (ct_workflows st)))) as [Hpos|Hz].
    + by rewrite !bind_Ret, (pack_int_packed _ _ _ E4), bind_Ret.
    + destruct (ct_workflows st) as [|w l]; [|cbn in Hz; lia]. apply packed_nil in E3 as ->.
      by rewrite !bind_Ret, (pack_int_packed _ _ _ E4), bind_Ret.
  - rewrite Hra, bind_Ret. cbn [read_answer]. unfold workflow_list_unpack_buffer. rewrite E5. cbn [Z.eqb OPAL_SUCCESS negb deref].
    rewrite bind_Ret, Nat2Z.id. erewrite (list_entries_holds _ _ [] _ Hcn); [done| |exact Hb5].
    eapply Forall_imp; [|exact Hci]. unfold int32, INT_MIN, INT_MAX in *. cbn. lia.
Qed.

Lemma control_exec_correct c st base :
  admissible_step c st -> control_rep base st ->
  exists base', control_exec malloc_ok initial threshold registered other_pack other_unpack desc components thread_ok
      c base = Ret ((command_step c st).1, base') /\ control_rep base' (command_step c st).2.
Proof.
  intros Hadm Hrep. destruct (message_sent components thread_ok c st Hadm) as (b & Eb & rb & Hrb & Hb).
  assert (handled c st rb base) as (base' & ans & Er & Hrep' & Ea).
  { destruct c; [by apply add_handled|by apply remove_handled|by apply list_handled|by apply policy_handled]. }
  exists base'. split; [|done]. unfold control_exec. rewrite Eb, bind_Ret, Hrb, bind_Ret, Er, bind_Ret.
  destruct (deliver desc ans) as [ra| |]; [|done..]. cbn in Ea |- *. by rewrite Ea.
Qed.

(** C4: the tool, the serializer and the aggregator implement the
    control of workflows.  A sequence of commands, each packed by the tool,
    delivered, handled and answered, gives the answers of [command_step] and
    leaves the aggregator with its workflows: an added workflow has its name,
    the next identifier, its steps in order with their attributes in order, and
    each step the module of its plugin (none, without complaint, for an unknown
    plugin); a removal takes away exactly the named workflows; a listing shows
    name and identifier of each; a storage command sets the flags.  Asked are
    workflows whose first step is a filter and whose attributes are not called
    name, messages of at most 2^31-1 bytes (the most their
    [int32_t] length can count), identifiers below the maximum and a thread
    for each workflow. *)
Theorem workflow_control_refines cmds st base :
  admissible registered desc thread_ok cmds st -> control_rep base st ->
  exists base', control_run malloc_ok initial threshold registered other_pack other_unpack desc components thread_ok
      cmds base = Ret ((command_run cmds st).1, base') /\ control_rep base' (command_run cmds st).2.
Proof.
  revert st base. induction cmds as [|c cmds IH]; intros st base Hadm Hrep; [by exists base|].
  destruct Hadm as [Hc Hadm]. destruct (control_exec_correct c st base Hc Hrep) as (base1 & E1 & Hrep1).
  destruct (IH _ base1 Hadm Hrep1) as (base2 & E2 & Hrep2). exists base2.
  cbn [control_run command_run]. rewrite E1, bind_Ret, E2, bind_Ret.
  destruct (command_step c st) as [a st1]. cbn [fst snd] in *. destruct (command_run cmds st1) as [l st2]. done.
Qed.
End Commands.
End Refinement.

(** ** Any messages whatsoever *)
Lemma sublist_NoDup {A} (l k : list A) : l `sublist_of` k -> NoDup k -> NoDup l.
Proof.
  induction 1 as [|x l k Hs IH|x l k Hs IH]; [done| |]; intros [Hx Hk]%NoDup_cons; [|auto].
  apply NoDup_cons. split; [|auto]. intros Hin. apply Hx. by eapply elem_of_submseteq, sublist_submseteq.
Qed.

Section AnyMessage.
Context (malloc_ok : Z -> bool) (initial threshold : Z) (registered : Z -> bool).
Context (other_pack : Z -> opal_buffer_t -> dss_data -> outcome (Z * opal_buffer_t)).
Context (other_unpack : Z -> opal_buffer_t -> Z -> Z * option dss_data * opal_buffer_t).
Context (desc : bool).
Context {M : Type} (components : list (@orcm_analytics_base_component_t M)) (thread_ok : cstr -> bool).
Abbreviation base_t := (@orcm_analytics_base_t M).

Definition ids (base : base_t) : list Z := (fun iw => wf_workflow_id (iw_wf iw)) <$> ab_workflows base.

(** The identifiers in use are distinct and below the next one. *)
Record ids_ok (base : base_t) : Prop := {
  io_distinct : NoDup (ids base);
  io_below : Forall (fun id => 0 <= id < ab_workflow_id base) (ids base);
  io_range : 0 <= ab_workflow_id base <= INT_MAX
}.

(** The aggregator after any sequence of messages, malformed ones included. *)
Inductive served : base_t -> base_t -> Prop :=
| served_refl base : served base base
| served_step b ans base base1 base2 :
    orcm_analytics_base_recv malloc_ok initial threshold registered other_pack other_unpack desc
      components thread_ok b base = Ret (base1, ans) ->
    served base1 base2 -> served base base2.

(** How one message can change the workflows. *)
Inductive effect (base base' : base_t) : Prop :=
| effect_kept : ab_workflows base' = ab_workflows base -> ab_workflow_id base' = ab_workflow_id base ->
    effect base base'
| effect_lost : ab_workflows base' `sublist_of` ab_workflows base -> ab_workflow_id base' = ab_workflow_id base ->
    effect base base'
| effect_bumped : ab_workflows base' = ab_workflows base -> ab_workflow_id base < INT_MAX ->
    ab_workflow_id base' = ab_workflow_id base + 1 -> effect base base'
| effect_added iw : ab_workflows base' = ab_workflows base ++ [iw] -> ab_workflow_id base < INT_MAX ->
    wf_workflow_id (iw_wf iw) = ab_workflow_id base -> ab_workflow_id base' = ab_workflow_id base + 1 ->
    effect base base'.

Lemma workflow_add_effect b base rc id base' :
  orcm_analytics_base_workflow_add malloc_ok registered other_unpack components thread_ok b base = Ret (rc, id, base') ->
  effect base base'.
Proof.
  unfold orcm_analytics_base_workflow_add. intros H.
  destruct (unpack_int malloc_ok registered other_unpack b ANALYTICS_COUNT_DEFAULT) as [[[rc1 n] cnt] b1].
  destruct (negb (rc1 =? OPAL_SUCCESS)); [injection H as _ _ <-; by apply effect_kept|].
  apply bind_Ret_inv in H as ([[[rc2 name] cnt2] b2] & _ & H). cbn beta iota in H.
  destruct (negb (rc2 =? OPAL_SUCCESS)); [injection H as _ _ <-; by apply effect_kept|].
  apply bind_Ret_inv in H as ([wf base1] & Ei & H). unfold orcm_analytics_base_workflow_object_init in Ei.
  destruct (Z.leb_spec INT_MAX (ab_workflow_id base)); [done|]. injection Ei as <- <-. cbn beta iota in H.
  destruct (orcm_analytics_base_add_new_workflow_event_base _ _) as [rc3 act].
  destruct (negb (rc3 =? OPAL_SUCCESS)); [injection H as _ _ <-; by apply effect_bumped|].
  apply bind_Ret_inv in H as (k & _ & H). apply bind_Ret_inv in H as ([[rc4 steps] b4] & _ & H). cbn beta iota in H.
  destruct (negb (rc4 =? OPAL_SUCCESS)); injection H as _ _ <-; [by apply effect_bumped|].
  by eapply effect_added.
Qed.

Lemma remove_named_sublist name id num (l : list (@installed_workflow M)) rest deleted :
  remove_named name id num l = Ret (rest, deleted) -> rest `sublist_of` l.
Proof.
  revert rest deleted. induction l as [|iw l IH]; intros rest deleted H; [by injection H as <- <-|].
  cbn [remove_named] in H. apply bind_Ret_inv in H as (hit & _ & H).
  apply bind_Ret_inv in H as ([rest1 del1] & E & H). apply IH in E.
  destruct hit; injection H as <- <-; [by apply sublist_cons|by apply sublist_skip].
Qed.

Lemma workflow_remove_effect b base rc base' :
  orcm_analytics_base_workflow_remove malloc_ok registered other_unpack b base = Ret (rc, base') -> effect base base'.
Proof.
  unfold orcm_analytics_base_workflow_remove. intros H.
  apply bind_Ret_inv in H as ([[[rc1 name] cnt] b1] & _ & H). cbn beta iota in H.
  destruct (negb (rc1 =? OPAL_SUCCESS)); [injection H as _ <-; by apply effect_kept|].
  apply bind_Ret_inv in H as ([[[rc2 wid] cnt2] b2] & _ & H). cbn beta iota in H.
  destruct (negb (rc2 =? OPAL_SUCCESS)); [injection H as _ <-; by apply effect_kept|].
  apply bind_Ret_inv in H as (wid' & _ & H). apply bind_Ret_inv in H as (num & _ & H).
  destruct (ab_workflows base) as [|iw l] eqn:El; [injection H as _ <-; by apply effect_kept|].
  apply bind_Ret_inv in H as (nm & _ & H). apply bind_Ret_inv in H as ([rest del] & E & H).
  injection H as _ <-. apply effect_lost; [|done]. cbn. rewrite El. by eapply remove_named_sublist.
Qed.

Lemma recv_effect b base base' ans :
  orcm_analytics_base_recv malloc_ok initial threshold registered other_pack other_unpack desc
    components thread_ok b base = Ret (base', ans) -> effect base base'.
Proof.
  unfold orcm_analytics_base_recv. intros H. apply bind_Ret_inv in H as ([command b1] & _ & H). cbn beta iota in H.
  apply bind_Ret_inv in H as ([[ret ans1] base1] & E & H). cbn beta iota in H.
  apply bind_Ret_inv in H as ([rc2 ans2] & _ & H). injection H as <- <-.
  destruct (command =? ORCM_ANALYTICS_WORKFLOW_ADD).
  { apply bind_Ret_inv in E as ([[rc id] base2] & E & H). apply workflow_add_effect in E. cbn beta iota in H.
    destruct (rc =? OPAL_SUCCESS); [|by injection H as _ _ <-].
    apply bind_Ret_inv in H as (id' & _ & H). apply bind_Ret_inv in H as ([rc' ans'] & _ & H). by injection H as _ _ <-. }
  destruct (command =? ORCM_ANALYTICS_WORKFLOW_REMOVE).
  { apply bind_Ret_inv in E as ([rc base2] & E & H). apply workflow_remove_effect in E. by injection H as _ _ <-. }
  destruct (command =? ORCM_ANALYTICS_WORKFLOW_LIST).
  { apply bind_Ret_inv in E as ([rc ans'] & _ & H). injection H as _ _ <-. by apply effect_kept. }
  destruct (command =? ORCM_ANALYTICS_SENSOR_STORAGE_POLICY).
  { apply bind_Ret_inv in E as ([p b2] & _ & H). cbn beta iota in H. unfold orcm_analytics_base_control_storage in H.
    repeat case_match; simplify_eq; by apply effect_kept. }
  injection E as _ _ <-. by apply effect_kept.
Qed.

Lemma effect_ids base base' :
  effect base base' -> ids_ok base ->
  ids_ok base' /\ ab_workflow_id base <= ab_workflow_id base' /\
  Forall (fun id => id ∈ ids base \/ ab_workflow_id base <= id) (ids base').
Proof.
  assert (forall l : list Z, Forall (fun id => id ∈ l \/ ab_workflow_id base <= id) l) as Hself.
  { intros l. apply Forall_forall. auto. }
  intros He [Hnd Hb Hr]. destruct He as [Ew Ei|Ew Ei|Ew Hlt Ei|iw Ew Hlt Eid Ei]; unfold ids in *.
  - rewrite Ew. split; [split|]; unfold ids; rewrite ?Ew, ?Ei; [done..|split; [lia|apply Hself]].
  - assert (ids base' `sublist_of` ids base) as Hsub by by apply fmap_sublist.
    assert (forall P, Forall P (ids base) -> Forall P (ids base')) as Hall.
    { intros P. rewrite !Forall_forall. intros HP x Hx. apply HP.
      by eapply elem_of_submseteq, sublist_submseteq. }
    split; [split|]; [by eapply sublist_NoDup|rewrite Ei; by apply Hall|by rewrite Ei|].
    split; [lia|]. apply Hall, Hself.
  - rewrite Ew. split; [split|]; unfold ids; rewrite ?Ew, ?Ei; [done| |lia|split; [lia|apply Hself]].
    eapply Forall_imp; [|exact Hb]. cbn. lia.
  - rewrite Ew, fmap_app. cbn [fmap list_fmap]. rewrite Eid. split; [split|]; unfold ids; rewrite ?Ew, ?Ei, ?fmap_app.
    + cbn [fmap list_fmap]. rewrite Eid. apply NoDup_app. split_and!; [done| |apply NoDup_singleton].
      intros x Hx ->%list_elem_of_singleton. rewrite Forall_forall in Hb. apply Hb in Hx. lia.
    + cbn [fmap list_fmap]. rewrite Eid. apply Forall_app. split; [|apply Forall_singleton; lia].
      eapply Forall_imp; [|exact Hb]. cbn. lia.
    + lia.
    + split; [lia|]. apply Forall_app. split; [apply Hself|apply Forall_singleton; lia].
Qed.

(** C27: whatever messages arrive, well-formed or not, the
    identifiers of the installed workflows stay distinct and below the counter,
    the counter never goes back, and an identifier that appears is either one
    that was there or one the counter had not reached: no identifier is given
    twice. *)
Theorem workflow_ids_unique base base' :
  served base base' -> ids_ok base ->
  ids_ok base' /\ ab_workflow_id base <= ab_workflow_id base' /\
  Forall (fun id => id ∈ ids base \/ ab_workflow_id base <= id) (ids base').
Proof.
  induction 1 as [base|b ans base base1 base2 Hrecv Hserved IH]; intros Hok.
  - split; [done|split; [lia|]]. apply Forall_forall. auto.
  - destruct (effect_ids base base1) as (Hok1 & Hle1 & Hin1); [by eapply recv_effect|done|].
    destruct (IH Hok1) as (Hok2 & Hle2 & Hin2). split; [done|split; [lia|]].
    eapply Forall_imp; [|exact Hin2]. intros id [Hid|Hid]; [|lia].
    rewrite Forall_forall in Hin1. destruct (Hin1 _ Hid); auto with lia.
Qed.
End AnyMessage.

(** ** Witnesses *)
Definition sample_components : list (@orcm_analytics_base_component_t Z) :=
  [MkComponent (cs "filter") true (Some 1); MkComponent (cs "window") true (Some 2)].

Definition sample_workflow : workflow_spec :=
  MkWorkflowSpec (cs "temps")
    [MkStepSpec (cs "filter") [(cs "hostname", cs "n01"); (cs "db", cs "yes")];
     MkStepSpec (cs "window") [(cs "win_size", cs "10m")]; MkStepSpec (cs "spatail") []].

Definition sample_commands : list command :=
  [CAdd sample_workflow; CList; CRemove (cs "temps") (Some 7); CPolicy 0; CRemove (cs "temps") None; CList].

Lemma sample_components_ok : Forall component_ok sample_components.
Proof.
  apply Forall_cons_iff. split; [|apply Forall_singleton];
    (split_and!; [eapply cstr_ok_cs; by vm_compute|by apply Nat.leb_le|done|by eexists]).
Qed.

Lemma sample_workflow_ok : workflow_ok sample_workflow.
Proof.
  split_and!; [by apply cstr_ok_cs| |by vm_compute|done].
  repeat (apply Forall_cons_iff; split; [split_and!; [by apply cstr_ok_cs| |by vm_compute]|]); [..|constructor];
    repeat (apply Forall_cons_iff; split; [split_and!; [done|by apply cstr_ok_cs|by apply cstr_ok_cs]|]); constructor.
Qed.

Lemma sample_admissible :
  admissible (fun _ => false) false (fun _ => true) sample_commands (MkControl [] 0 true true).
Proof.
  assert (cstr_ok (Some (cs "temps"))) as Ht by by apply cstr_ok_cs.
  assert (forall items, (Z.of_nat (length (items ≫= enc_item (fun _ => false) false)) <=? INT_MAX) = true ->
    fits_message (fun _ => false) false items) as Hfits by (intros items; apply Z.leb_le).
  unfold sample_commands. cbn [admissible].
  split; [|split; [|split; [|split; [|split; [|split; [|exact I]]]]]]; (split; [apply Hfits; by vm_compute|]).
  - split; [apply sample_workflow_ok|]. done.
  - split; [apply Hfits; by vm_compute|done].
  - done.
  - done.
  - done.
  - split; [apply Hfits; by vm_compute|done].
Qed.

Lemma workflow_control_refines_witness :
  exists base', control_run (fun _ => true) 128 1024 (fun _ => false) no_pack no_unpack false sample_components
      (fun _ => true) sample_commands (MkBase [] true true 0) =
    Ret ([AAdded 0; AListed [(Some (cs "temps"), 0)]; ARemoved false; APolicy true; ARemoved true; AListed []], base').
Proof.
  destruct (workflow_control_refines (fun _ => true) 128 1024 (fun _ => false) no_pack no_unpack false
    (fun _ => eq_refl) ltac:(lia) ltac:(lia) sample_components (fun _ => true) sample_components_ok
    ltac:(by apply (bool_decide_unpack _)) sample_commands (MkControl [] 0 true true) (MkBase [] true true 0))
    as (base' & E & _).
  - apply sample_admissible.
  - by split.
  - exists base'. exact E.
Defined.

Lemma workflow_ids_unique_witness :
  exists base', served (fun _ => true) 128 1024 (fun _ => false) no_pack no_unpack false sample_components
      (fun _ => true) (MkBase [] true true 5) base' /\ ids base' = [5] /\ ids_ok base'.
Proof.
  destruct (message (fun _ => true) 128 1024 (fun _ => false) no_pack false (CAdd sample_workflow))
    as [[rc [b|]]| |] eqn:Em; try (vm_compute in Em; discriminate Em).
  destruct (deliver false b) as [rb| |] eqn:Ed.
  2, 3: vm_compute in Em; injection Em as <- <-; vm_compute in Ed; discriminate Ed.
  destruct (orcm_analytics_base_recv (fun _ => true) 128 1024 (fun _ => false) no_pack no_unpack false sample_components
    (fun _ => true) rb (MkBase [] true true 5)) as [[base' ans]| |] eqn:Er.
  2, 3: vm_compute in Em; injection Em as <- <-; vm_compute in Ed; injection Ed as <-; vm_compute in Er; discriminate Er.
  exists base'.
  assert (served (fun _ => true) 128 1024 (fun _ => false) no_pack no_unpack false sample_components
      (fun _ => true) (MkBase [] true true 5) base') as Hs.
  { eapply served_step; [exact Er|apply served_refl]. }
  split_and!; [exact Hs| |].
  - vm_compute in Em. injection Em as <- <-. vm_compute in Ed. injection Ed as <-. vm_compute in Er. injection Er as <- _. reflexivity.
  - eapply (workflow_ids_unique _ _ _ _ _ _ _ _ _ _ _ Hs). split; [constructor|constructor|vm_compute; split; discriminate].
Defined.
