(* ===== verification/AnalyticsPipeline.v ===== *)
(** * Running workflows ([analytics_base_stubs.c], [analytics_private.h])

    Every workflow has a progress thread with an event queue.
    [orcm_analytics_base_send_data] hands a sample to the first step of every
    workflow; a step that has a result activates the next one
    ([ORCM_ACTIVATE_NEXT_WORKFLOW_STEP]), which appends an event to the queue;
    the thread serves its events in order.  So several samples are under way
    in a workflow at the same time, at different steps.

    A step's plugin is [analyze], a function from the time, the step, what the
    steps of the workflow share, the plugin's state and the sample; [PipelineClaims]
    instantiates it with the plugins of this library.  The time of day is given
    by a clock that says when a step serves its k-th sample.  Samples are not
    changed once they are sent, so sharing them among the workflows is not
    visible. *)

From S2P Require Import Prelude CString Dss OrcmUtil AnalyticsBase.
From stdpp Require Import base numbers list.
From Stdlib Require Import ZArith Lia.

Open Scope Z_scope.

(** The hash key and the sample of a caddy. *)
Definition sample_t : Type := Z * orcm_analytics_value_t.

(** What [orcm_analytics_base_send_data] stores of a sample before it passes it
    on; [None] when it gives up. *)
Definition raw_events (store_raw_data : bool) (data : option orcm_analytics_value_t)
    : outcome (option (list orcm_ras_event_t)) :=
  if store_raw_data then
    d ← deref data;
    ev ← orcm_analytics_base_event_create d ORCM_RAS_EVENT_SENSOR ORCM_RAS_SEVERITY_INFO;
    match ev with
    | None => Ret (Some [])
    | Some ev =>
      let '(rc, ev) := orcm_analytics_base_event_set_storage ev ORCM_STORAGE_TYPE_DATABASE in
      Ret (if negb (rc =? OPAL_SUCCESS) then None else Some [ev])
    end
  else Ret (Some []).

Section Workflow.
Context {M H : Type}.
Variable analyze : Z * Z -> orcm_workflow_step_t -> H -> M -> sample_t ->
  outcome (H * M * list orcm_ras_event_t * option sample_t).

Record running_step : Type := MkRunningStep {
  rs_step : orcm_workflow_step_t;
  rs_mod : option M;
  rs_served : nat
}.

(** A workflow with the queue of its thread (step and sample of each caddy)
    and the events its steps have raised. *)
Record running : Type := MkRunning {
  rn_steps : list running_step;
  rn_shared : H;
  rn_queue : list (nat * sample_t);
  rn_events : list (nat * orcm_ras_event_t)
}.

Definition append_caddy (c : nat * sample_t) (r : running) : running :=
  MkRunning (rn_steps r) (rn_shared r) (rn_queue r ++ [c]) (rn_events r).

(** [orcm_analytics_base_create_caddy] and
    [orcm_analytics_base_set_event_workflow_step]: without a module the caddy
    waits for ever. *)
Definition orcm_analytics_base_activate_analytics_workflow_step (i : nat) (x : sample_t) (r : running) : running :=
  match rn_steps r !! i with
  | Some s => match rs_mod s with Some _ => append_caddy (i, x) r | None => r end
  | None => r
  end.

(** The step after [prev]; the sentinel of the list, [None], is before the
    first step.  At the end of the workflow the sample is released. *)
Definition ORCM_ACTIVATE_NEXT_WORKFLOW_STEP (prev : option nat) (x : sample_t) (r : running) : running :=
  let i := match prev with Some p => S p | None => 0%nat end in
  if (i <? length (rn_steps r))%nat
  then orcm_analytics_base_activate_analytics_workflow_step i x r
  else r.

(** The thread serves its next event. *)
Definition serve (clock : nat -> nat -> Z * Z) (r : running) : outcome running :=
  match rn_queue r with
  | [] => Ret r
  | (i, x) :: q =>
    s ← deref (rn_steps r !! i);
    m ← deref (rs_mod s);
    '(h, m, evs, next) ← analyze (clock i (rs_served s)) (rs_step s) (rn_shared r) m x;
    let r := MkRunning (<[i := MkRunningStep (rs_step s) (Some m) (S (rs_served s))]> (rn_steps r)) h q
               (rn_events r ++ (pair i <$> evs)) in
    Ret (match next with
         | Some y => ORCM_ACTIVATE_NEXT_WORKFLOW_STEP (Some i) y r
         | None => r
         end)
  end.

(** Until the queue is empty. *)
Fixpoint drain (clock : nat -> nat -> Z * Z) (fuel : nat) (r : running) : outcome running :=
  match rn_queue r with
  | [] => Ret r
  | _ => match fuel with
         | O => Diverge
         | S fuel => r ← serve clock r; drain clock fuel r
         end
  end.

(** ** All workflows *)
(** The events that go to the dispatcher, and the workflows. *)
Definition orcm_analytics_base_send_data (store_raw_data : bool) (data : option orcm_analytics_value_t)
    (wfs : list running) : outcome (list orcm_ras_event_t * list running) :=
  raw ← raw_events store_raw_data data;
  Ret (match raw, data with
       | None, _ => ([], wfs)
       | Some evs, None => (evs, wfs)
       | Some evs, Some d => (evs, ORCM_ACTIVATE_NEXT_WORKFLOW_STEP None (0, d) <$> wfs)
       end).

(** Samples arrive and threads run in any order. *)
Inductive action : Type :=
| ASend (data : orcm_analytics_value_t)
| AServe (k : nat).

(** Every thread has its own clock. *)
Definition act (clocks : nat -> nat -> nat -> Z * Z) (store_raw_data : bool) (a : action) (wfs : list running)
    : outcome (list running) :=
  match a with
  | ASend d => '(_, wfs) ← orcm_analytics_base_send_data store_raw_data (Some d) wfs; Ret wfs
  | AServe k =>
    match wfs !! k with
    | None => Ret wfs
    | Some r => r ← serve (clocks k) r; Ret (<[k := r]> wfs)
    end
  end.

Fixpoint acts (clocks : nat -> nat -> nat -> Z * Z) (store_raw_data : bool) (l : list action) (wfs : list running)
    : outcome (list running) :=
  match l with
  | [] => Ret wfs
  | a :: l' => wfs ← act clocks store_raw_data a wfs; acts clocks store_raw_data l' wfs
  end.
End Workflow.
Arguments running_step : clear implicits.
Arguments running : clear implicits.

(** ** The meaning of a workflow: one step after the other, on all samples *)
Section Meaning.
Context {M : Type}.
Variable f : nat -> nat -> M -> sample_t -> outcome (M * list orcm_ras_event_t * option sample_t).

(** What a step makes of its samples, in their order: its state, how many it
    has served, the events and the samples it passes on. *)
Fixpoint feed (i k : nat) (m : M) (xs : list sample_t)
    : outcome (M * nat * list orcm_ras_event_t * list sample_t) :=
  match xs with
  | [] => Ret (m, k, [], [])
  | x :: xs' =>
    '(m, evs, next) ← f i k m x;
    '(m, k, evs', ys) ← feed i (S k) m xs';
    Ret (m, k, evs ++ evs', option_list next ++ ys)
  end.

(** Step by step; [pend] are samples already waiting at each step. *)
Fixpoint chain (i : nat) (ms : list (option M * nat)) (pend : list (list sample_t)) (xs : list sample_t)
    : outcome (list (option M * nat) * list (list orcm_ras_event_t)) :=
  match ms, pend with
  | (om, k) :: ms', p :: pend' =>
    '(om, k, evs, ys) ←
      match om with
      | Some m => '(m, k, evs, ys) ← feed i k m (p ++ xs); Ret (Some m, k, evs, ys)
      | None => Ret (None, k, [], [])
      end;
    '(ms', evss) ← chain (S i) ms' pend' ys;
    Ret ((om, k) :: ms', evs :: evss)
  | _, _ => Ret ([], [])
  end.
End Meaning.
