(* ===== verification/PipelineProps.v ===== *)
(** * Workflows compute what their steps compute one after the other

    However arrivals and turns of the threads are interleaved, every step sees
    the samples its predecessor passes on, in their order.  The invariant: the
    meaning [chain] of a workflow, with the samples that wait at each step and
    those that are still to come, does not change while it runs. *)

From S2P Require Import Prelude CString Dss OrcmUtil AnalyticsBase AnalyticsPipeline.
From stdpp Require Import base numbers list.
From Stdlib Require Import ZArith Lia.

Open Scope Z_scope.

(** ** The meaning and waiting samples *)
Section Chain.
Context {M : Type}.
Variable f : nat -> nat -> M -> sample_t -> outcome (M * list orcm_ras_event_t * option sample_t).

Definition push (n : nat) (next : option sample_t) (pend : list (list sample_t)) : list (list sample_t) :=
  match next with Some y => alter (fun p => p ++ [y]) n pend | None => pend end.

(** A sample that is to come first waits last. *)
Lemma chain_push i ms pend y xs : chain f i ms (push 0 (Some y) pend) xs = chain f i ms pend (y :: xs).
Proof.
  destruct ms as [|[om k] ms], pend as [|p pend]; try done.
  cbn [push alter list_alter chain]. by rewrite <- app_assoc.
Qed.

Lemma chain_next i ms pend next xs :
  chain f i ms (push 0 next pend) xs = chain f i ms pend (option_list next ++ xs).
Proof. destruct next as [y|]; [apply chain_push|done]. Qed.

Lemma chain_cons_inv i om k ms p pend xs fin evss :
  chain f i ((om, k) :: ms) (p :: pend) xs = Ret (fin, evss) ->
  exists om' k' evs ys fin' evss',
    match om with
    | Some m => exists m', feed f i k m (p ++ xs) = Ret (m', k', evs, ys) /\ om' = Some m'
    | None => om' = None /\ k' = k /\ evs = [] /\ ys = []
    end /\
    chain f (S i) ms pend ys = Ret (fin', evss') /\ fin = (om', k') :: fin' /\ evss = evs :: evss'.
Proof.
  cbn [chain]. intros E. apply bind_Ret_inv in E as ([[[om' k'] evs] ys] & E1 & E).
  apply bind_Ret_inv in E as ([fin' evss'] & E2 & E). injection E as <- <-.
  exists om', k', evs, ys, fin', evss'. split; [|done]. destruct om as [m|].
  - apply bind_Ret_inv in E1 as ([[[m' k1] evs1] ys1] & E1 & E). injection E as <- <- <- <-. by exists m'.
  - by injection E1 as <- <- <- <-.
Qed.

Lemma chain_cons i om k ms p pend xs om' k' evs ys fin' evss' :
  match om with
  | Some m => exists m', feed f i k m (p ++ xs) = Ret (m', k', evs, ys) /\ om' = Some m'
  | None => om' = None /\ k' = k /\ evs = [] /\ ys = []
  end ->
  chain f (S i) ms pend ys = Ret (fin', evss') ->
  chain f i ((om, k) :: ms) (p :: pend) xs = Ret ((om', k') :: fin', evs :: evss').
Proof.
  intros H1 H2. cbn [chain]. destruct om as [m|].
  - destruct H1 as (m' & E & ->). by rewrite E, !bind_Ret, H2.
  - destruct H1 as (-> & -> & -> & ->). by rewrite bind_Ret, H2.
Qed.

(** The step at [n] serves the first sample that waits there. *)
Lemma chain_act n : forall i ms pend xs fin evss m k x p,
  chain f i ms pend xs = Ret (fin, evss) -> ms !! n = Some (Some m, k) -> pend !! n = Some (x :: p) ->
  exists m' evs next evss', f (i + n) k m x = Ret (m', evs, next) /\
    chain f i (<[n := (Some m', S k)]> ms) (push (S n) next (<[n := p]> pend)) xs = Ret (fin, evss') /\
    evss = alter (app evs) n evss'.
Proof.
  induction n as [|n IH]; intros i [|[om k0] ms] [|p0 pend] xs fin evss m k x p E Hm Hp; try done;
    apply chain_cons_inv in E as (om' & k' & evs & ys & fin' & evss' & E1 & E2 & -> & ->).
  - injection Hm as -> ->. injection Hp as ->. destruct E1 as (m' & E1 & ->).
    cbn [app feed] in E1. apply bind_Ret_inv in E1 as ([[m1 evs1] next] & Ef & E1).
    apply bind_Ret_inv in E1 as ([[[m2 k2] evs2] ys2] & E3 & E1). injection E1 as -> -> <- <-.
    exists m1, evs1, next, (evs2 :: evss'). rewrite Nat.add_0_r. split; [done|]. split; [|done].
    replace (push 1 next (<[0%nat := p]> (( x :: p) :: pend))) with (p :: push 0 next pend) by by destruct next.
    cbn [insert list_insert]. eapply chain_cons; [by exists m'|]. by rewrite chain_next.
  - destruct (IH (S i) ms pend ys fin' evss' m k x p E2 Hm Hp) as (m1 & evs1 & next & evss1 & Ef & E3 & ->).
    exists m1, evs1, next, (evs :: evss1). replace (i + S n)%nat with (S i + n)%nat by lia.
    split; [done|]. split; [|done].
    replace (push (S (S n)) next (<[S n := p]> (p0 :: pend))) with (p0 :: push (S n) next (<[n := p]> pend))
      by by destruct next.
    cbn [insert list_insert]. by eapply chain_cons.
Qed.

(** Nothing waits and nothing comes. *)
Lemma chain_done i ms pend fin evss :
  chain f i ms pend [] = Ret (fin, evss) -> length pend = length ms ->
  (forall n m k, ms !! n = Some (Some m, k) -> pend !! n = Some []) ->
  fin = ms /\ Forall (fun l => l = []) evss.
Proof.
  revert i pend fin evss. induction ms as [|[om k] ms IH]; intros i [|p pend] fin evss E Hl Hp; try done.
  { by injection E as <- <-. }
  apply chain_cons_inv in E as (om' & k' & evs & ys & fin' & evss' & E1 & E2 & -> & ->).
  assert (om' = om /\ k' = k /\ evs = [] /\ ys = []) as (-> & -> & -> & ->).
  { destruct om as [m|]; [|done]. destruct E1 as (m' & E1 & ->).
    specialize (Hp 0%nat m k eq_refl). injection Hp as ->. cbn in E1. by injection E1 as -> -> -> ->. }
  destruct (IH _ _ _ _ E2) as [-> Hall]; [by injection Hl| |by split; [|constructor]].
  intros n m k0 Hn. exact (Hp (S n) m k0 Hn).
Qed.

(** A missing first step swallows what comes. *)
Lemma chain_none i k ms p pend xs ys :
  chain f i ((None, k) :: ms) (p :: pend) xs = chain f i ((None, k) :: ms) (p :: pend) ys.
Proof. done. Qed.
End Chain.

(** ** The machine *)
Section Machine.
Context {M H : Type}.
Context (analyze : Z * Z -> orcm_workflow_step_t -> H -> M -> sample_t ->
  outcome (H * M * list orcm_ras_event_t * option sample_t)).
Context (clock : nat -> nat -> Z * Z).
Context (f : nat -> nat -> M -> sample_t -> outcome (M * list orcm_ras_event_t * option sample_t)).
Context (steps : list orcm_workflow_step_t) (ready : nat -> H -> Prop) (mod_ok : nat -> M -> Prop).

(** In a shared state that is ready for the step, the plugin does what [f]
    says, stays within [mod_ok], spoils no other step and makes the state ready
    for the step it activates. *)
Definition step_pure : Prop := forall i st k h m x m' evs next,
  steps !! i = Some st -> ready i h -> mod_ok i m -> f i k m x = Ret (m', evs, next) ->
  exists h', analyze (clock i k) st h m x = Ret (h', m', evs, next) /\ mod_ok i m' /\
    (forall j, ready j h -> ready j h') /\ (next <> None -> ready (S i) h').
Hypothesis Hpure : step_pure.

Abbreviation running := (running M H).
Abbreviation serve := (serve analyze clock).
Abbreviation drain := (drain analyze clock).

Definition mods_of (r : running) : list (option M * nat) := (fun s => (rs_mod s, rs_served s)) <$> rn_steps r.
Definition waiting (i : nat) (q : list (nat * sample_t)) : list sample_t := (filter (fun c => c.1 = i) q).*2.
Definition events_of (i : nat) (r : running) : list orcm_ras_event_t := (filter (fun e => e.1 = i) (rn_events r)).*2.

Record run_ok (r : running) : Prop := {
  ro_steps : rs_step <$> rn_steps r = steps;
  ro_mods : forall i s m, rn_steps r !! i = Some s -> rs_mod s = Some m -> mod_ok i m;
  ro_queue : Forall (fun c => exists s m, rn_steps r !! c.1 = Some s /\ rs_mod s = Some m /\ ready c.1 (rn_shared r))
               (rn_queue r);
  ro_first : ready 0 (rn_shared r)
}.

(** [pend] is what waits at the steps that have a module. *)
Definition waits (r : running) (pend : list (list sample_t)) : Prop :=
  length pend = length (rn_steps r) /\
  forall i s m, rn_steps r !! i = Some s -> rs_mod s = Some m -> pend !! i = Some (waiting i (rn_queue r)).

(** How many turns the queue can still cause. *)
Definition weight (r : running) : nat :=
  sum_list_with (fun c => length (rn_steps r) - c.1)%nat (rn_queue r).

Lemma waiting_app i q q' : waiting i (q ++ q') = waiting i q ++ waiting i q'.
Proof. unfold waiting. by rewrite filter_app, fmap_app. Qed.

Lemma waiting_one i j x : waiting i [(j, x)] = if decide (j = i) then [x] else [].
Proof. unfold waiting. rewrite filter_cons. cbn [fst]. by destruct (decide (j = i)). Qed.

(** Activating a step. *)
Lemma activate_spec i x r pend :
  run_ok r -> (is_Some (rn_steps r !! i) -> ready i (rn_shared r)) -> waits r pend ->
  exists q, orcm_analytics_base_activate_analytics_workflow_step i x r =
      MkRunning (rn_steps r) (rn_shared r) (rn_queue r ++ q) (rn_events r) /\
    run_ok (orcm_analytics_base_activate_analytics_workflow_step i x r) /\
    waits (orcm_analytics_base_activate_analytics_workflow_step i x r) (push i (Some x) pend) /\
    (q = [] \/ q = [(i, x)] /\ (i < length (rn_steps r))%nat).
Proof.
  intros [Hs Hm Hq Hf] Hr [Hl Hw]. unfold orcm_analytics_base_activate_analytics_workflow_step.
  assert (length (push i (Some x) pend) = length (rn_steps r)) as Hl'.
  { cbn [push]. by rewrite length_alter. }
  destruct (rn_steps r !! i) as [s|] eqn:Es; [destruct (rs_mod s) as [m|] eqn:Em|].
  - exists [(i, x)]. split_and!; [done| | |right; split; [done|by eapply lookup_lt_Some]].
    + split; [done|done| |done]. apply Forall_app. split; [done|]. apply Forall_singleton.
      exists s, m. split_and!; auto.
    + split; [done|]. intros j s' m' Ej Em'. cbn [append_caddy rn_queue rn_steps push] in *.
      rewrite waiting_app, waiting_one. specialize (Hw j s' m' Ej Em'). destruct (decide (i = j)) as [<-|Hne].
      * by rewrite list_lookup_alter_eq, Hw.
      * by rewrite list_lookup_alter_ne, Hw, app_nil_r.
  - exists []. rewrite app_nil_r. split_and!; [by destruct r|by split| |by left].
    split; [done|]. intros j s' m' Ej Em'. cbn [push]. rewrite list_lookup_alter_ne; [by eapply Hw|].
    intros <-. rewrite Es in Ej. injection Ej as ->. congruence.
  - exists []. rewrite app_nil_r. split_and!; [by destruct r|by split| |by left].
    split; [done|]. intros j s' m' Ej Em'. cbn [push]. rewrite list_lookup_alter_ne; [by eapply Hw|].
    intros <-. congruence.
Qed.

Lemma activate_next_spec prev x r pend :
  let i := match prev with Some p => S p | None => 0%nat end in
  run_ok r -> ready i (rn_shared r) -> waits r pend ->
  exists q, ORCM_ACTIVATE_NEXT_WORKFLOW_STEP prev x r =
      MkRunning (rn_steps r) (rn_shared r) (rn_queue r ++ q) (rn_events r) /\
    run_ok (ORCM_ACTIVATE_NEXT_WORKFLOW_STEP prev x r) /\
    waits (ORCM_ACTIVATE_NEXT_WORKFLOW_STEP prev x r) (push i (Some x) pend) /\
    (q = [] \/ q = [(i, x)] /\ (i < length (rn_steps r))%nat).
Proof.
  intros i Hok Hr Hw. unfold ORCM_ACTIVATE_NEXT_WORKFLOW_STEP. fold i.
  destruct (Nat.ltb_spec i (length (rn_steps r))) as [Hlt|Hge]; [by apply activate_spec|].
  exists []. rewrite app_nil_r. split_and!; [by destruct r|done| |by left].
  destruct Hw as [Hl Hw]. cbn [push]. split; [by rewrite length_alter|].
  intros j s m Ej Em. rewrite list_lookup_alter_ne; [by eapply Hw|]. apply lookup_lt_Some in Ej. lia.
Qed.

(** What is fixed while the workflow runs: where its steps will end, and the
    events of each step. *)
Definition towards (r : running) (xs : list sample_t) (fin : list (option M * nat)) (total : nat -> list orcm_ras_event_t) : Prop :=
  run_ok r /\ exists pend evss, waits r pend /\ chain f 0 (mods_of r) pend xs = Ret (fin, evss) /\
    forall j, total j = events_of j r ++ default [] (evss !! j).

Lemma waiting_cons i x q : waiting i ((i, x) :: q) = x :: waiting i q.
Proof. change ((i, x) :: q) with ([(i, x)] ++ q). rewrite waiting_app, waiting_one. by destruct (decide (i = i)). Qed.

Lemma waiting_cons_ne i j x q : i <> j -> waiting j ((i, x) :: q) = waiting j q.
Proof.
  intros Hne. change ((i, x) :: q) with ([(i, x)] ++ q). rewrite waiting_app, waiting_one.
  by destruct (decide (i = j)).
Qed.

(** The state after the plugin has run, before the next step is activated. *)
Definition served (i : nat) (s : running_step M) (h : H) (m : M) (q : list (nat * sample_t))
    (evs : list orcm_ras_event_t) (r : running) : running :=
  MkRunning (<[i := MkRunningStep (rs_step s) (Some m) (S (rs_served s))]> (rn_steps r)) h q
    (rn_events r ++ (pair i <$> evs)).

Lemma served_ok i s m0 h m q x evs r pend :
  run_ok r -> waits r pend -> rn_queue r = (i, x) :: q -> rn_steps r !! i = Some s -> rs_mod s = Some m0 ->
  mod_ok i m -> (forall j, ready j (rn_shared r) -> ready j h) ->
  run_ok (served i s h m q evs r) /\ waits (served i s h m q evs r) (<[i := waiting i q]> pend).
Proof.
  intros [Hs Hm Hq Hf] [Hl Hw] Eq Es Em Hok Hh. rewrite Eq in Hq. apply Forall_cons_iff in Hq as [_ Hq].
  pose proof (lookup_lt_Some _ _ _ Es) as Hlt.
  assert (forall j s', (<[i := MkRunningStep (rs_step s) (Some m) (S (rs_served s))]> (rn_steps r)) !! j = Some s' ->
    j = i /\ rs_mod s' = Some m \/ j <> i /\ rn_steps r !! j = Some s') as Hlook.
  { intros j s'. destruct (decide (i = j)) as [<-|Hne].
    - rewrite list_lookup_insert_eq by done. intros [= <-]. by left.
    - rewrite list_lookup_insert_ne by done. by right. }
  split; [split|split].
  - cbn. rewrite <- Hs, list_fmap_insert. cbn. apply list_insert_id. by rewrite list_lookup_fmap, Es.
  - intros j s' m' [[-> E]|[_ E]]%Hlook Em'; [|by eauto]. rewrite E in Em'. by injection Em' as <-.
  - cbn. eapply Forall_imp; [|exact Hq]. intros [j y] (s' & m' & E1 & E2 & E3). cbn [fst] in *.
    destruct (decide (i = j)) as [<-|Hne].
    + eexists _, m. rewrite list_lookup_insert_eq by done. split_and!; [done|done|]. by apply Hh.
    + exists s', m'. rewrite list_lookup_insert_ne by done. split_and!; [done|done|]. by apply Hh.
  - by apply Hh.
  - cbn. by rewrite !length_insert.
  - intros j s' m' [[-> E]|[Hne E]]%Hlook Em'; cbn [served rn_queue].
    + apply list_lookup_insert_eq. lia.
    + rewrite list_lookup_insert_ne by done. rewrite (Hw j s' m' E Em'), Eq. f_equal. by apply waiting_cons_ne.
Qed.

Lemma served_events j i s h m q evs r :
  events_of j (served i s h m q evs r) = events_of j r ++ if decide (i = j) then evs else [].
Proof.
  unfold events_of. cbn. rewrite filter_app, fmap_app. f_equal.
  induction evs as [|e evs IH]; [by destruct (decide (i = j))|]. cbn [fmap list_fmap]. rewrite filter_cons. cbn [fst].
  destruct (decide (i = j)) as [->|Hne]; [|done]. cbn. by f_equal.
Qed.

Lemma default_alter (evs : list orcm_ras_event_t) i j l :
  (i < length l)%nat ->
  default [] (alter (app evs) i l !! j) = (if decide (i = j) then evs else []) ++ default [] (l !! j).
Proof.
  intros Hlt. destruct (decide (i = j)) as [<-|Hne].
  - rewrite list_lookup_alter_eq. by destruct (lookup_lt_is_Some_2 l i Hlt) as [y ->].
  - by rewrite list_lookup_alter_ne.
Qed.

Lemma chain_length i ms pend xs fin evss :
  chain f i ms pend xs = Ret (fin, evss) -> length pend = length ms -> length evss = length ms.
Proof.
  revert i pend xs fin evss. induction ms as [|[om k] ms IH]; intros i [|p pend] xs fin evss E Hl; try done.
  { by injection E as <- <-. }
  apply chain_cons_inv in E as (om' & k' & evs & ys & fin' & evss' & _ & E2 & -> & ->).
  cbn. f_equal. eapply IH; [done|]. by injection Hl.
Qed.

Lemma weight_app r q :
  weight (MkRunning (rn_steps r) (rn_shared r) (rn_queue r ++ q) (rn_events r)) =
  (weight r + sum_list_with (fun c => length (rn_steps r) - c.1)%nat q)%nat.
Proof. unfold weight. cbn [rn_steps rn_queue]. apply sum_list_with_app. Qed.

Lemma activated_next prev next r pend :
  let i := match prev with Some p => S p | None => 0%nat end in
  run_ok r -> (next <> None -> ready i (rn_shared r)) -> waits r pend ->
  exists q, match next with Some y => ORCM_ACTIVATE_NEXT_WORKFLOW_STEP prev y r | None => r end =
      MkRunning (rn_steps r) (rn_shared r) (rn_queue r ++ q) (rn_events r) /\
    run_ok (match next with Some y => ORCM_ACTIVATE_NEXT_WORKFLOW_STEP prev y r | None => r end) /\
    waits (match next with Some y => ORCM_ACTIVATE_NEXT_WORKFLOW_STEP prev y r | None => r end) (push i next pend) /\
    (q = [] \/ exists y, q = [(i, y)] /\ (i < length (rn_steps r))%nat).
Proof.
  intros i Hok Hr Hw. destruct next as [y|].
  - destruct (activate_next_spec prev y r pend Hok (Hr ltac:(done)) Hw) as (q & E1 & E2 & E3 & E4).
    exists q. split_and!; [done..|]. destruct E4 as [->|[-> ?]]; eauto.
  - exists []. rewrite app_nil_r. split_and!; [by destruct r|done|done|by left].
Qed.

Lemma serve_spec r xs fin total :
  towards r xs fin total -> rn_queue r <> [] ->
  exists r', serve r = Ret r' /\ towards r' xs fin total /\ (weight r' < weight r)%nat.
Proof.
  intros (Hok & pend & evss & Hw & Hc & Ht) Hne. unfold AnalyticsPipeline.serve.
  destruct (rn_queue r) as [|[i x] q] eqn:Eq; [done|].
  pose proof (ro_queue _ Hok) as Hq. rewrite Eq in Hq. apply Forall_cons_iff in Hq as [(s & m & Es & Em & Hr) _].
  cbn [fst] in Es, Hr. pose proof (lookup_lt_Some _ _ _ Es) as Hlt.
  assert (steps !! i = Some (rs_step s)) as Est by by rewrite <- (ro_steps _ Hok), list_lookup_fmap, Es.
  assert (mods_of r !! i = Some (Some m, rs_served s)) as Ems by (unfold mods_of; by rewrite list_lookup_fmap, Es; cbn; rewrite Em).
  assert (pend !! i = Some (x :: waiting i q)) as Ep.
  { rewrite (proj2 Hw i s m Es Em), Eq. f_equal. apply waiting_cons. }
  destruct (chain_act f i 0 _ _ _ _ _ _ _ _ _ Hc Ems Ep) as (m' & evs & next & evss' & Ef & Hc' & ->).
  destruct (Hpure i _ _ _ m x m' evs next Est Hr (ro_mods _ Hok i s m Es Em) Ef) as (h & Ea & Hm' & Hh & Hn).
  destruct (served_ok i s m h m' q x evs r pend Hok Hw Eq Es Em Hm' Hh) as [Hok1 Hw1].
  destruct (activated_next (Some i) next (served i s h m' q evs r) _ Hok1 Hn Hw1) as (q' & E2 & Hok2 & Hw2 & Hq').
  eexists. split; [rewrite Es; cbn [deref]; rewrite bind_Ret, Em; cbn [deref]; rewrite bind_Ret, Ea, bind_Ret; reflexivity|].
  fold (served i s h m' q evs r). rewrite E2 in Hok2, Hw2 |- *.
  assert (length evss' = length (mods_of r)) as Hle.
  { rewrite <- (length_insert (mods_of r) i (Some m', S (rs_served s))). eapply chain_length; [exact Hc'|].
    destruct next; cbn [push]; rewrite ?length_alter, !length_insert; unfold mods_of; by rewrite length_fmap, (proj1 Hw). }
  split.
  - split; [exact Hok2|]. eexists _, evss'. split; [exact Hw2|]. split.
    + rewrite <- Hc'. f_equal. unfold mods_of. cbn. by rewrite list_fmap_insert.
    + intros j. rewrite Ht. change (events_of j (MkRunning _ _ _ _)) with (events_of j (served i s h m' q evs r)).
      rewrite served_events, default_alter, <- app_assoc; [done|]. rewrite Hle. unfold mods_of. by rewrite length_fmap.
  - rewrite weight_app. unfold weight at 1 2. rewrite Eq. cbn [served rn_steps rn_queue sum_list_with fst]. rewrite length_insert.
    destruct Hq' as [->|(y & -> & Hy)]; cbn [sum_list_with fst]; [lia|].
    cbn [served rn_steps] in Hy. rewrite length_insert in Hy. lia.
Qed.

Lemma send_spec r x xs fin total :
  towards r (x :: xs) fin total -> towards (ORCM_ACTIVATE_NEXT_WORKFLOW_STEP None x r) xs fin total.
Proof.
  intros (Hok & pend & evss & Hw & Hc & Ht).
  destruct (activate_next_spec None x r pend Hok (ro_first _ Hok) Hw) as (q & E & Hok' & Hw' & _).
  rewrite E in *. split; [exact Hok'|]. exists (push 0 (Some x) pend), evss.
  split_and!; [exact Hw'|by rewrite chain_push|exact Ht].
Qed.

Lemma drain_spec fuel r fin total :
  towards r [] fin total -> (weight r <= fuel)%nat ->
  exists r', drain fuel r = Ret r' /\ rn_queue r' = [] /\ mods_of r' = fin /\ forall j, events_of j r' = total j.
Proof.
  revert r. induction fuel as [|fuel IH]; intros r Hto Hle.
  - destruct (rn_queue r) as [|c q] eqn:Eq.
    2: { destruct (serve_spec r [] fin total Hto ltac:(by rewrite Eq)) as (r' & _ & _ & ?). lia. }
    exists r. cbn. rewrite Eq. split_and!; [done|done| |].
    all: destruct Hto as (Hok & pend & evss & [Hl Hw] & Hc & Ht);
      destruct (chain_done f 0 (mods_of r) pend fin evss Hc) as [Hfin Hev];
      [unfold mods_of; by rewrite length_fmap| |].
    1, 3: intros n m k Hn; unfold mods_of in Hn; rewrite list_lookup_fmap in Hn;
      destruct (rn_steps r !! n) as [s|] eqn:Es; [|done]; injection Hn as Em _; by rewrite (Hw n s m Es Em), Eq.
    + done.
    + intros j. rewrite Ht. destruct (evss !! j) as [l|] eqn:Ej; cbn; [|by rewrite app_nil_r].
      rewrite Forall_forall in Hev. rewrite (Hev l), app_nil_r; [done|]. by eapply list_elem_of_lookup_2.
  - destruct (rn_queue r) as [|c q] eqn:Eq.
    + destruct (IH r Hto) as (r' & Er & Hres); [unfold weight; rewrite Eq; cbn; lia|].
      exists r'. split; [|done]. cbn. rewrite Eq. destruct fuel; cbn in Er; by rewrite Eq in Er.
    + destruct (serve_spec r [] fin total Hto ltac:(by rewrite Eq)) as (r1 & E1 & Hto1 & Hlt).
      destruct (IH r1 Hto1) as (r' & Er & Hres); [lia|]. exists r'. split; [|done].
      cbn. rewrite Eq, E1, bind_Ret. exact Er.
Qed.

Lemma start_towards r xs fin evss :
  run_ok r -> rn_queue r = [] -> chain f 0 (mods_of r) (replicate (length (rn_steps r)) []) xs = Ret (fin, evss) ->
  towards r xs fin (fun j => events_of j r ++ default [] (evss !! j)).
Proof.
  intros Hok Eq Hc. split; [done|]. eexists _, evss. split_and!; [|exact Hc|done].
  split; [by rewrite length_replicate|]. intros i s m Es Em. rewrite Eq. apply lookup_replicate.
  split; [done|]. by eapply lookup_lt_Some.
Qed.
End Machine.

(** ** All workflows *)
Section System.
Context {M H : Type}.
Context (analyze : Z * Z -> orcm_workflow_step_t -> H -> M -> sample_t ->
  outcome (H * M * list orcm_ras_event_t * option sample_t)).
Context (clocks : nat -> nat -> nat -> Z * Z) (store_raw_data : bool).

(** The samples that a schedule sends, with the hash key they start with. *)
Definition arrivals (l : list action) : list sample_t :=
  omap (fun a => match a with ASend d => Some (0, d) | AServe _ => None end) l.

(** The k-th workflow, with samples [xs] to come, will end as [fin] and raise [total]. *)
Definition on_course (k : nat) (r : running M H) (xs : list sample_t) (fin : list (option M * nat))
    (total : nat -> list orcm_ras_event_t) : Prop :=
  exists f steps ready mod_ok, step_pure analyze (clocks k) f steps ready mod_ok /\
    towards f steps ready mod_ok r xs fin total.

Definition storable (l : list action) : Prop :=
  Forall (fun a => match a with
                   | ASend d => exists evs, raw_events store_raw_data (Some d) = Ret (Some evs)
                   | AServe _ => True
                   end) l.

Lemma course_serve k r xs fin total :
  on_course k r xs fin total -> exists r', serve analyze (clocks k) r = Ret r' /\ on_course k r' xs fin total.
Proof.
  intros (f & steps & ready & mod_ok & Hp & Ht). destruct (rn_queue r) as [|c q] eqn:Eq.
  - exists r. split; [unfold serve; by rewrite Eq|]. by exists f, steps, ready, mod_ok.
  - destruct (serve_spec _ _ _ _ _ _ Hp r xs fin total Ht ltac:(by rewrite Eq)) as (r' & E & Ht' & _).
    exists r'. split; [done|]. by exists f, steps, ready, mod_ok.
Qed.

Lemma course_send k r x xs fin total :
  on_course k r (x :: xs) fin total -> on_course k (ORCM_ACTIVATE_NEXT_WORKFLOW_STEP None x r) xs fin total.
Proof.
  intros (f & steps & ready & mod_ok & Hp & Ht). exists f, steps, ready, mod_ok. split; [done|].
  by apply send_spec.
Qed.

Lemma course_drain k r fin total fuel :
  on_course k r [] fin total -> (weight r <= fuel)%nat ->
  exists r', drain analyze (clocks k) fuel r = Ret r' /\ rn_queue r' = [] /\ mods_of r' = fin /\
    forall j, events_of j r' = total j.
Proof. intros (f & steps & ready & mod_ok & Hp & Ht) Hle. by eapply drain_spec. Qed.

Definition all_on_course (wfs : list (running M H)) (xs : list sample_t)
    (fins : nat -> list (option M * nat)) (totals : nat -> nat -> list orcm_ras_event_t) : Prop :=
  forall k r, wfs !! k = Some r -> on_course k r xs (fins k) (totals k).

Lemma act_course a l wfs fins totals :
  storable (a :: l) -> all_on_course wfs (arrivals (a :: l)) fins totals ->
  exists wfs', act analyze clocks store_raw_data a wfs = Ret wfs' /\ length wfs' = length wfs /\
    all_on_course wfs' (arrivals l) fins totals.
Proof.
  intros [Ha _]%Forall_cons_iff Hall. destruct a as [d|k]; cbn [act].
  - destruct Ha as [evs Ha]. unfold orcm_analytics_base_send_data. rewrite Ha, bind_Ret, bind_Ret.
    eexists. split; [done|]. split; [apply length_fmap|]. intros k r Hr.
    apply list_lookup_fmap_Some in Hr as (r0 & -> & Hr). apply course_send. by apply Hall.
  - destruct (wfs !! k) as [r|] eqn:Er; [|by exists wfs].
    destruct (course_serve k r _ _ _ (Hall k r Er)) as (r' & E & Hr'). rewrite E, bind_Ret.
    eexists. split; [done|]. split; [apply length_insert|]. intros j r0 Hj.
    destruct (decide (k = j)) as [<-|Hne].
    + rewrite list_lookup_insert_eq in Hj by by eapply lookup_lt_Some. by injection Hj as <-.
    + rewrite list_lookup_insert_ne in Hj by done. by apply Hall.
Qed.

Lemma acts_course l wfs fins totals :
  storable l -> all_on_course wfs (arrivals l) fins totals ->
  exists wfs', acts analyze clocks store_raw_data l wfs = Ret wfs' /\ length wfs' = length wfs /\
    all_on_course wfs' [] fins totals.
Proof.
  revert wfs. induction l as [|a l IH]; intros wfs Hst Hall; [by exists wfs|].
  destruct (act_course a l wfs fins totals Hst Hall) as (wfs1 & E1 & Hl1 & Hall1).
  apply Forall_cons_iff in Hst as [_ Hst]. destruct (IH wfs1 Hst Hall1) as (wfs' & E & Hl & Hall').
  exists wfs'. cbn [acts]. rewrite E1, bind_Ret, Hl. done.
Qed.
End System.
