(* ===== verification/PipelineClaims.v ===== *)
(** * The plugins in a workflow

    The plugins of this library as the steps of a workflow, from the workflow
    that the control plane has installed.  What the steps share is the host
    expression of the workflow, which the filter sets and the other plugins put
    into the names of their results, and the state of the expander of node
    expressions. *)

From S2P Require Import Prelude CString HashTable Regex RegexRoundtrip LogicalGroup Dss Float64 OrcmUtil AnalyticsBase EventSuppression.
From S2P Require Import AnalyticsWindow AnalyticsAggregate AnalyticsThreshold AnalyticsFilter.
From S2P Require Import WorkflowControl WorkflowProps AnalyticsPipeline PipelineProps.
From stdpp Require Import base strings numbers list gmap.
From Stdlib Require Import ZArith Lia Ascii.

Open Scope Z_scope.

(** The state of a module: [orcm_mca_analytics_data_store] and
    [orcm_mca_analytics_event_store]. *)
Inductive module_t : Type :=
| MFilter (fk : filter_key_t)
| MWindow (data_store : option win_statistics_t)
| MAggregate (agg : orcm_analytics_aggregate)
| MThreshold (p : policy_t) (es : event_store).

Section Modules.
Context {W : Type} `{Expander W}.
Context (pow2 : double -> double) (calloc_ok : Z -> bool) (suppress_repeat : option cstr).
Context (strtod : cstr -> double * bool) (fmt_02f : double -> cstr).

(** The module's [analyze] on the caddy of a step: the workflow and the state
    of the expander, the module's state afterwards, the events, and the sample
    passed on. *)
Definition module_analyze (now : Z * Z) (step : orcm_workflow_step_t) (h : orcm_workflow_t * W) (m : module_t)
    (x : sample_t) : outcome ((orcm_workflow_t * W) * module_t * list orcm_ras_event_t * option sample_t) :=
  let wf := h.1 in
  let caddy := Some (MkWfCaddy (Some step) (Some wf) x.1 (Some x.2) true) in
  match m with
  | MFilter fk =>
    '(_, (fk, host, w), evs, next) ← AnalyticsFilter.analyze fk caddy h.2;
    Ret ((MkWorkflow (wf_name wf) host (wf_workflow_id wf), w), MFilter fk, evs, next)
  | MWindow ds =>
    '(_, ds, evs, next) ← AnalyticsWindow.analyze pow2 now ds caddy;
    Ret (h, MWindow ds, evs, next)
  | MAggregate agg =>
    '(_, agg, evs, next) ← AnalyticsAggregate.analyze now agg caddy;
    Ret (h, MAggregate agg, evs, next)
  | MThreshold p es =>
    '(_, (p, es), evs, next) ← AnalyticsThreshold.analyze calloc_ok suppress_repeat strtod fmt_02f p es caddy;
    Ret (h, MThreshold p es, evs, next)
  end.

(** ** Good states of the expander

    [good] is what holds of the state of the expander while the workflow runs,
    for instance that [errno] is not [ERANGE], on which the expansion of numbers
    in brackets depends.  An attribute is steady when it is not looked at, or when
    its expression has the same expansion in all good states and leaves the
    expander in a good one. *)
Variable good : W -> Prop.

Definition steady (a : orcm_value_t) : Prop :=
  ov_key a = Some (cs "db") \/
  exists rc names, forall w : W, good w -> exists w', (expression a ≫= fun e => expand e w) = Ret (rc, names, w') /\ good w'.

Lemma steady_expand a (w : W) : good w -> steady a -> ov_key a = Some (cs "db") \/
  exists rc names e, expression a = Ret e /\ forall w, good w -> exists w', expand e w = Ret (rc, names, w') /\ good w'.
Proof.
  intros Hw [?|(rc & names & E)]; [by left|right]. destruct (E w Hw) as (w' & Ew & _).
  apply bind_Ret_inv in Ew as (e & Ee & _). exists rc, names, e. split; [done|].
  intros w1 H1. destruct (E w1 H1) as (w2 & E2 & H2). rewrite Ee, bind_Ret in E2. by exists w2.
Qed.

Lemma filter_attributes_steady attributes data found fl (w1 w2 : W) rc l w1' :
  Forall steady attributes -> good w1 -> good w2 -> filter_attributes attributes data found fl w1 = Ret (rc, l, w1') ->
  exists w2', filter_attributes attributes data found fl w2 = Ret (rc, l, w2') /\ good w2'.
Proof.
  intros Hs. revert found fl w1 w2. induction Hs as [|a attributes Ha Hs IH]; intros found fl w1 w2 G1 G2 E.
  { injection E as <- <- <-. by exists w2. }
  cbn [filter_attributes] in *. apply bind_Ret_inv in E as (name & Ename & E). rewrite Ename, bind_Ret.
  destruct (strcmp0 name (cs "db")) eqn:Edb; [by apply (IH _ _ w1)|].
  apply bind_Ret_inv in E as (keys & Ek & E). rewrite Ek, bind_Ret.
  apply bind_Ret_inv in E as (mt & Em & E). rewrite Em, bind_Ret.
  destruct (steady_expand a w1 G1 Ha) as [Ekey|(rc0 & names & e & Ee & Hex)].
  { rewrite Ekey in Ename. injection Ename as <-. by rewrite (proj2 (strcmp0_true _ _) eq_refl) in Edb. }
  destruct (Hex w1 G1) as (w1a & E1 & G1a), (Hex w2 G2) as (w2a & E2 & G2a).
  destruct mt as [kv|].
  - unfold filter_match_value in *. rewrite Ee, bind_Ret in *. rewrite E1, bind_Ret in E. rewrite E2, bind_Ret.
    destruct (negb (rc0 =? OPAL_SUCCESS)); [rewrite bind_Ret in *|].
    + destruct (negb (rc0 =? OPAL_SUCCESS)); [injection E as <- <- <-; by eexists|by apply (IH _ _ w1a)].
    + apply bind_Ret_inv in E as ([rc1 w1b] & Em1 & E). apply bind_Ret_inv in Em1 as (rc2 & Ef & Em1).
      injection Em1 as <- <-. rewrite Ef, !bind_Ret.
      destruct (negb (rc2 =? OPAL_SUCCESS)); [injection E as <- <- <-; by eexists|by apply (IH _ _ w1a)].
  - unfold filter_match_compute in *. rewrite Ee, bind_Ret in *. rewrite E1, bind_Ret in E. rewrite E2, bind_Ret.
    destruct (negb (rc0 =? OPAL_SUCCESS)); [rewrite bind_Ret in *|].
    + destruct (negb (rc0 =? OPAL_SUCCESS)); [injection E as <- <- <-; by eexists|by apply (IH _ _ w1a)].
    + destruct (av_compute_data data) as [items|]; [|rewrite bind_Ret in *; injection E as <- <- <-; by eexists].
      apply bind_Ret_inv in E as ([[rc1 l1] w1b] & Em1 & E). apply bind_Ret_inv in Em1 as ([rc2 l2] & Ef & Em1).
      injection Em1 as <- <- <-. rewrite Ef, !bind_Ret.
      destruct (negb (rc2 =? OPAL_SUCCESS)); [injection E as <- <- <-; by eexists|by apply (IH _ _ w1a)].
Qed.

Lemma caddy_job_full step wf key v b :
  caddy_job (MkWfCaddy (Some step) (Some wf) key (Some v) b) = Ret (MkJob wf step key v).
Proof. done. Qed.

(** The filter on its caddy: the host expression is set when a sample passes
    and is not looked at before. *)
Lemma filter_analyze_steady step name id hh host x fk (w1 w2 : W) rc fk' host1 w1' evs next :
  Forall steady (ws_attributes step) -> good w1 -> good w2 ->
  host = Some hh \/ host = None /\ orcm_analytics_get_hostname_from_attributes (ws_attributes step) = Ret hh ->
  AnalyticsFilter.analyze fk
    (Some (MkWfCaddy (Some step) (Some (MkWorkflow name (Some hh) id)) x.1 (Some x.2) true)) w1 =
    Ret (rc, (fk', host1, w1'), evs, next) ->
  exists host2 w2', AnalyticsFilter.analyze fk
    (Some (MkWfCaddy (Some step) (Some (MkWorkflow name host id)) x.1 (Some x.2) true)) w2 =
    Ret (rc, (fk', host2, w2'), evs, next) /\ good w2' /\ (host2 = host /\ next = None \/ host2 = Some hh).
Proof.
  intros Hs G1 G2 Hhost. unfold AnalyticsFilter.analyze. cbn [orcm_analytics_base_assert_caddy_data wc_wf wc_wf_step
    wc_analytics_value wc_imod negb Z.eqb OPAL_SUCCESS deref]. rewrite !bind_Ret, !caddy_job_full, !bind_Ret.
  cbn [j_step j_value j_wf wf_workflow_id wf_hostname_regex fmap option_fmap option_map default].
  intros E. apply bind_Ret_inv in E as ([[rc1 fl] w1a] & Ef & E).
  destruct (filter_attributes_steady _ _ _ _ w1 w2 _ _ _ Hs G1 G2 Ef) as (w2a & Ef2 & G2a).
  unfold analytics_filter_data. rewrite Ef2, bind_Ret.
  destruct (negb (rc1 =? OPAL_SUCCESS)).
  { injection E as <- <- <- <- <- <-. eexists _, _. split; [done|]. split; [done|]. by left. }
  apply bind_Ret_inv in E as (fk1 & Ek & E). rewrite Ek, bind_Ret.
  apply bind_Ret_inv in E as (db & Edb & E). rewrite Edb, bind_Ret.
  apply bind_Ret_inv in E as ([rc2 ras] & Er & E). rewrite Er, bind_Ret.
  destruct (negb (rc2 =? OPAL_SUCCESS)).
  { injection E as <- <- <- <- <- <-. eexists _, _. split; [done|]. split; [done|]. by left. }
  apply bind_Ret_inv in E as (h1 & _ & E). injection E as <- <- <- <- <- <-.
  destruct Hhost as [->|[-> Hh]]; cbn; [|rewrite Hh]; eauto 6.
Qed.

(** ** One workflow *)
(** The running form of a workflow that the control plane has installed. *)
Definition launch (w : W) (iw : installed_workflow (M := module_t)) : running module_t (orcm_workflow_t * W) :=
  MkRunning ((fun s => MkRunningStep (is_step s) (is_mod s) 0) <$> iw_steps iw) (iw_wf iw, w) [] [].

(** What step [i] does with its [k]-th sample once the workflow's host
    expression is [hh]. *)
Definition step_fun (w : W) (clock : nat -> nat -> Z * Z) (hh : cstr) (iw : installed_workflow (M := module_t))
    (i k : nat) (m : module_t) (x : sample_t) : outcome (module_t * list orcm_ras_event_t * option sample_t) :=
  s ← deref (iw_steps iw !! i);
  '(_, m, evs, next) ← module_analyze (clock i k) (is_step s)
     (MkWorkflow (wf_name (iw_wf iw)) (Some hh) (wf_workflow_id (iw_wf iw)), w) m x;
  Ret (m, evs, next).

(** The steps one after the other, each on all the samples. *)
Definition workflow_meaning (w : W) (clock : nat -> nat -> Z * Z) (hh : cstr) (iw : installed_workflow (M := module_t))
    (xs : list sample_t) : outcome (list (option module_t * nat) * list (list orcm_ras_event_t)) :=
  chain (step_fun w clock hh iw) 0 ((fun s => (is_mod s, 0%nat)) <$> iw_steps iw)
    (replicate (length (iw_steps iw)) []) xs.

(** A filter comes first; the host expression is its, unless it is known. *)
Record well_placed (hh : cstr) (iw : installed_workflow (M := module_t)) : Prop := {
  wp_host : wf_hostname_regex (iw_wf iw) = Some hh \/ wf_hostname_regex (iw_wf iw) = None;
  wp_first : forall s, iw_steps iw !! 0%nat = Some s ->
    orcm_analytics_get_hostname_from_attributes (ws_attributes (is_step s)) = Ret hh;
  wp_mods : forall i s m, iw_steps iw !! i = Some s -> is_mod s = Some m ->
    match m with MFilter _ => Forall steady (ws_attributes (is_step s)) | _ => i <> 0%nat end
}.

Section Placed.
Context (w0 : W) (clock : nat -> nat -> Z * Z) (hh : cstr) (iw : installed_workflow (M := module_t)).
Hypothesis Hwp : well_placed hh iw.
Hypothesis Hgood : good w0.

Definition steps_of : list orcm_workflow_step_t := is_step <$> iw_steps iw.

Definition ready (i : nat) (h : orcm_workflow_t * W) : Prop :=
  exists host, h.1 = MkWorkflow (wf_name (iw_wf iw)) host (wf_workflow_id (iw_wf iw)) /\
    (host = Some hh \/ host = None /\ i = 0%nat) /\ good h.2.

Definition mod_ok (i : nat) (m : module_t) : Prop :=
  match m with
  | MFilter _ => forall st, steps_of !! i = Some st -> Forall steady (ws_attributes st)
  | _ => i <> 0%nat
  end.

Lemma placed_pure : step_pure module_analyze clock (step_fun w0 clock hh iw) steps_of ready mod_ok.
Proof.
  intros i st k [wf w] m x m' evs next Hst (host & Ewf & Hhost & Gw) Hm E. cbn [fst snd] in Ewf, Gw. subst wf.
  unfold steps_of in Hst. rewrite list_lookup_fmap in Hst. destruct (iw_steps iw !! i) as [s|] eqn:Es; [|done].
  injection Hst as <-. unfold step_fun in E. rewrite Es in E. cbn [deref] in E. rewrite bind_Ret in E.
  apply bind_Ret_inv in E as ([[[h0 m0] evs0] next0] & E & E'). injection E' as -> -> ->.
  destruct m as [fk|ds|agg|p es]; cbn [mod_ok] in Hm.
  2-4: destruct Hhost as [->|[_ ?]]; [|done]; cbn [module_analyze fst snd] in E |- *;
    apply bind_Ret_inv in E as (res & E1 & E2); rewrite E1, bind_Ret; destruct res as [[[rc st'] evs'] next'];
    try destruct st' as [p' es']; injection E2 as <- <- <- <-; eexists; (split; [done|]);
    split_and!; [done|intros j Hj; exact Hj|intros _; eexists; split; [done|split; [by left|done]]].
  cbn [module_analyze fst snd] in E |- *. cbn [wf_name wf_workflow_id] in E |- *.
  apply bind_Ret_inv in E as ([[[rc [[fk' host1] w1]] evs'] next'] & E1 & E2). injection E2 as <- <- <- <-.
  destruct (filter_analyze_steady (is_step s) (wf_name (iw_wf iw)) (wf_workflow_id (iw_wf iw)) hh host x fk w0 w
    rc fk' host1 w1 evs' next') as (host2 & w2 & E2 & G2 & Hh2); [|done|done| |exact E1|].
  { apply Hm. unfold steps_of. by rewrite list_lookup_fmap, Es. }
  { destruct Hhost as [->|[-> ->]]; [by left|right; split; [done|]]. by apply (wp_first _ _ Hwp). }
  rewrite E2, bind_Ret. eexists. split; [done|]. split; [exact Hm|]. split.
  - intros j (hj & Ej & Hj & _). cbn [fst] in Ej. injection Ej as <-. exists host2. split; [done|]. split; [|done].
    destruct Hh2 as [[-> _]| ->]; [exact Hj|by left].
  - intros Hne. exists host2. split; [done|]. split; [|done]. left. by destruct Hh2 as [[_ ?]| ?].
Qed.

Lemma launch_ok w : good w -> run_ok steps_of ready mod_ok (launch w iw).
Proof.
  intros Gw. split.
  - unfold launch, steps_of. cbn. rewrite <- list_fmap_compose. by apply list_fmap_ext.
  - intros i s m Hs Em. cbn in Hs. apply list_lookup_fmap_Some in Hs as (s0 & -> & Hs). cbn in Em.
    pose proof (wp_mods _ _ Hwp i s0 m Hs Em) as Hm. destruct m; try done.
    intros st Hst. unfold steps_of in Hst. rewrite list_lookup_fmap, Hs in Hst. by injection Hst as <-.
  - constructor.
  - exists (wf_hostname_regex (iw_wf iw)). split; [cbn; by destruct (iw_wf iw)|].
    split; [|done]. destruct (wp_host _ _ Hwp) as [?|?]; [by left|right; by split].
Qed.

Lemma launch_towards w xs fin evss :
  good w -> workflow_meaning w0 clock hh iw xs = Ret (fin, evss) ->
  towards (step_fun w0 clock hh iw) steps_of ready mod_ok (launch w iw) xs fin (fun j => default [] (evss !! j)).
Proof.
  intros Gw E. apply (start_towards _ _ _ _ (launch w iw) xs fin evss); [by apply launch_ok|done|]. rewrite <- E. unfold workflow_meaning, mods_of, launch.
  cbn [rn_steps]. rewrite <- list_fmap_compose, length_fmap. done.
Qed.
End Placed.

(** ** All workflows *)
(** The workflows as the control plane has installed them, and for each where
    its modules end and the events of its steps, by [workflow_meaning]. *)
Definition means (w0 : W) (clocks : nat -> nat -> nat -> Z * Z) (xs : list sample_t)
    (iws : list (installed_workflow (M := module_t)))
    (results : list (list (option module_t * nat) * list (list orcm_ras_event_t))) : Prop :=
  length results = length iws /\
  forall k iw res, iws !! k = Some iw -> results !! k = Some res ->
    exists hh, well_placed hh iw /\ workflow_meaning w0 (clocks k) hh iw xs = Ret res.

(** C5: for workflows made of filter, window, aggregate and threshold steps that begin with a filter: samples reach the
    first steps and the threads of the workflows take their turns in any order, so that many samples are under way at
    different steps; when a thread has worked off its queue, which takes at most [weight] turns, the modules of the
    workflow are in the state, and the steps have raised the events in the order, that they would have if every step
    had processed all samples before the next step began.  Asked are: raw samples that can be stored; steps that process
    their samples without undefined behaviour ([means]); and attributes of the filters that are [steady]: from the
    state the workflow starts in, none of their expressions changes what another one expands to.  Host names and
    numbers in brackets are steady while [errno] is not [ERANGE] (the example); an expression that sets [errno] to
    [ERANGE] (a number beyond a long, or a number 0) is not, and nothing is said of workflows with one. *)
Theorem pipeline_equals_chain (w0 : W) clocks store_raw_data l iws results :
  good w0 -> storable store_raw_data l -> means w0 clocks (arrivals l) iws results ->
  exists wfs, acts module_analyze clocks store_raw_data l (launch w0 <$> iws) = Ret wfs /\ length wfs = length iws /\
    forall k r fuel, wfs !! k = Some r -> (weight r <= fuel)%nat ->
      exists r' evss, drain module_analyze (clocks k) fuel r = Ret r' /\ rn_queue r' = [] /\
        results !! k = Some (mods_of r', evss) /\ forall j, events_of j r' = default [] (evss !! j).
Proof.
  intros Gw Hst [Hl Hm].
  destruct (acts_course module_analyze clocks store_raw_data l (launch w0 <$> iws)
    (fun k => default [] (fst <$> results !! k))
    (fun k j => default [] ((default [] (snd <$> results !! k)) !! j)) Hst) as (wfs & E & Hlw & Hall).
  { intros k r Hr. apply list_lookup_fmap_Some in Hr as (iw & -> & Hk).
    destruct (lookup_lt_is_Some_2 results k) as [[fin evss] Hres]; [rewrite Hl; by eapply lookup_lt_Some|].
    destruct (Hm k iw (fin, evss) Hk Hres) as (hh & Hwp & Hmean). rewrite Hres. cbn [fmap option_fmap option_map default fst snd].
    eexists _, _, _, _. split; [by apply (placed_pure w0)|]. by apply launch_towards. }
  exists wfs. rewrite length_fmap in Hlw. split_and!; [done|done|]. intros k r fuel Hr Hle.
  destruct (course_drain _ _ _ _ _ _ fuel (Hall k r Hr) Hle) as (r' & Ed & Eq & Hmods & Hev).
  destruct (lookup_lt_is_Some_2 results k) as [[fin evss] Hres]; [rewrite Hl, <- Hlw; by eapply lookup_lt_Some|].
  rewrite Hres in *. cbn in Hmods, Hev. subst fin. by exists r', evss.
Qed.
End Modules.

(** ** A filter and an aggregate *)
Definition max_workflow : installed_workflow (M := module_t) :=
  MkInstalledWf (MkWorkflow (Some (cs "wf")) None 1)
    [MkInstalled (MkStep [text_value (cs "hostname") (cs "n[2:1-2]"); text_value (cs "core") (cs "core1")]
       (Some (cs "filter")) 1) (Some (MFilter filter_init));
     MkInstalled (MkStep [text_value (cs "compute") (cs "max")] (Some (cs "aggregate")) 2)
       (Some (MAggregate orcm_analytics_aggregate_con))] true.

Definition reading (z : Z) : orcm_analytics_value_t :=
  MkAnalyticsValue (Some [text_value (cs "hostname") (cs "n01")]) (Some [time_value 100])
    (Some [core (cs "core0") 99; core (cs "core1") z]).

Definition readings_run : list action :=
  [ASend (reading 41); ASend (reading 44); AServe 0; ASend (reading 43); AServe 0; AServe 0].

Definition at_100 (_ _ _ : nat) : Z * Z := (100, 0).
Definition plain_expander : Expander world := logical_group_expander ideal_log10 10 no_groups.
Definition no_erange (w : world) : Prop := w_erange w = false.

Lemma max_workflow_placed : well_placed (H := plain_expander) no_erange (cs "n[2:1-2]") max_workflow.
Proof.
  split; [by right| |].
  - intros s [= <-]. reflexivity.
  - intros [|[|i]] s m; cbn; [| |done]; intros [= <-] [= <-]; [|done].
    constructor; [|constructor; [|constructor]]; right; eexists _, _; intros [lists nx er tag]; unfold no_erange; cbn [w_erange]; intros ->;
      eexists; (split; [vm_compute; reflexivity|done]).
Qed.

(** The filter has passed [core1] of three readings, the aggregate has their maximum. *)
Lemma pipeline_equals_chain_witness :
  exists wfs r r', acts (module_analyze (H := plain_expander) (fun x => x) (fun _ => true) None (fun _ => (d0, true)) (fun _ => []))
      at_100 true readings_run [launch (MkWorld ∅ 0%nat false None) max_workflow] = Ret wfs /\
    wfs !! 0%nat = Some r /\
    drain (module_analyze (H := plain_expander) (fun x => x) (fun _ => true) None (fun _ => (d0, true)) (fun _ => []))
      (at_100 0) (weight r) r = Ret r' /\
    mods_of r' !! 1%nat = Some (Some (MAggregate (MkAgg d0 DBL_MAX (of_int 44) 0)), 3%nat).
Proof.
  assert (Hm : exists fin evss, workflow_meaning (H := plain_expander) (fun x => x) (fun _ => true) None (fun _ => (d0, true))
    (fun _ => []) (MkWorld ∅ 0%nat false None) (at_100 0) (cs "n[2:1-2]") max_workflow (arrivals readings_run) = Ret (fin, evss) /\
    fin !! 1%nat = Some (Some (MAggregate (MkAgg d0 DBL_MAX (of_int 44) 0)), 3%nat)).
  { eexists _, _. split; vm_compute; reflexivity. }
  destruct Hm as (fin & evss & Hmean & Hfin).
  destruct (pipeline_equals_chain (H := plain_expander) (fun x => x) (fun _ => true) None (fun _ => (d0, true)) (fun _ => []) no_erange
    (MkWorld ∅ 0%nat false None) at_100 true readings_run [max_workflow] [(fin, evss)]) as (wfs & E & Hl & Hall).
  - reflexivity.
  - repeat constructor; eexists; vm_compute; reflexivity.
  - split; [done|]. intros [|k] iw res; cbn; [|done]. intros [= <-] [= <-]. exists (cs "n[2:1-2]").
    split; [apply max_workflow_placed|exact Hmean].
  - destruct (lookup_lt_is_Some_2 wfs 0) as [r Hr]; [rewrite Hl; cbn; lia|].
    destruct (Hall 0%nat r (weight r) Hr (le_n _)) as (r' & evss' & Ed & _ & Hres & _).
    cbn in Hres. injection Hres as -> _. exists wfs, r, r'. split_and!; [exact E|exact Hr|exact Ed|exact Hfin].
Defined.
