(* ===== verification/Config.v ===== *)
(** * Configurations ([orcm/mca/cfgi/base])

    A configuration is a tree: clusters hold rows, rows hold racks, racks hold
    nodes, and every level has a controller.  This file holds the objects and
    their constructors ([cfgi_types.h], [cfgi_base_frame.c]), the choice of the
    plugin that reads the configuration ([cfgi_base_select.c]), the lookups
    ([cfgi_base_stubs.c]), and the comparison and printing of the objects
    ([cfgi_dt_fns.c]).  The pointers from an object to its parent and the
    topology of a node are not touched by any of these and left out. *)

From S2P Require Import Prelude CString Argv NameFns.
From stdpp Require Import base strings numbers list.
From Stdlib Require Import ZArith Lia Ascii.

Open Scope Z_scope.

Record orcm_config_t : Type := MkConfig {
  cf_mca_params : argv_t;
  cf_env : argv_t;
  cf_port : option cstr;
  cf_aggregator : bool
}.

Record orcm_node_t : Type := MkNode {
  nd_name : option cstr;
  nd_daemon : process_name;
  nd_config : orcm_config_t;
  nd_state : Z;
  nd_scd_state : Z;
  nd_npes : Z
}.

Record orcm_rack_t : Type := MkRack {
  rk_name : option cstr;
  rk_controller : orcm_node_t;
  rk_nodes : list orcm_node_t
}.

Record orcm_row_t : Type := MkRow {
  rw_name : option cstr;
  rw_controller : orcm_node_t;
  rw_racks : list orcm_rack_t
}.

Record orcm_cluster_t : Type := MkCluster {
  cl_name : option cstr;
  cl_controller : orcm_node_t;
  cl_rows : list orcm_row_t
}.

Record orcm_scheduler_t : Type := MkScheduler {
  sc_controller : orcm_node_t;
  sc_queues : argv_t
}.

(** ** Constructors *)
Definition cfg_cons : orcm_config_t := MkConfig None None None false.
Definition nd_con : orcm_node_t := MkNode None ORTE_NAME_INVALID cfg_cons 0 0 0.
Definition rk_con : orcm_rack_t := MkRack None nd_con [].
Definition row_con : orcm_row_t := MkRow None nd_con [].
Definition cl_con : orcm_cluster_t := MkCluster None nd_con [].
Definition sc_con : orcm_scheduler_t := MkScheduler nd_con None.

(** ** Plugins *)
Definition ORCM_ERR_TAKE_NEXT_OPTION : Z := -46.
Definition ORCM_ERR_SILENT : Z := -43.

Section Plugins.
Context {C D : Type}.

(** A module's functions, on what they fill in. *)
Record orcm_cfgi_base_module_t : Type := MkModule {
  md_init : option bool;
  md_read_config : option (C -> Z * C);
  md_define_system : option (D -> Z * D)
}.

(** What a component answers to a query: its module and priority. *)
Definition component_t : Type := option (option (orcm_cfgi_base_module_t * Z)).
Definition active_t : Type := orcm_cfgi_base_module_t * Z.

(** Before the first module whose priority is not higher. *)
Fixpoint insert_active (mod_ : orcm_cfgi_base_module_t) (pri : Z) (actives : list active_t) : list active_t :=
  match actives with
  | [] => [(mod_, pri)]
  | cmp :: rest => if pri <? cmp.2 then cmp :: insert_active mod_ pri rest else (mod_, pri) :: cmp :: rest
  end.

Definition select_one (actives : list active_t) (component : component_t) : list active_t :=
  match component with
  | Some (Some (mod_, pri)) =>
    match md_init mod_ with
    | Some true => insert_active mod_ pri actives
    | _ => actives
    end
  | _ => actives
  end.

Definition orcm_cfgi_base_select (components : list component_t) : Z * list active_t :=
  let actives := foldl select_one [] components in
  (match actives with [] => ORCM_ERR_SILENT | _ => OPAL_SUCCESS end, actives).

(** The first module that does not pass the task on. *)
Fixpoint first_option {S} (f : orcm_cfgi_base_module_t -> option (S -> Z * S)) (actives : list active_t) (s : S)
    : Z * S :=
  match actives with
  | [] => (OPAL_ERR_BAD_PARAM, s)
  | a :: rest =>
    match f a.1 with
    | None => first_option f rest s
    | Some g =>
      let '(rc, s) := g s in
      if rc =? OPAL_SUCCESS then (OPAL_SUCCESS, s)
      else if negb (rc =? ORCM_ERR_TAKE_NEXT_OPTION) then (rc, s)
      else first_option f rest s
    end
  end.

Definition orcm_cfgi_base_read_config : list active_t -> C -> Z * C := first_option md_read_config.
Definition orcm_cfgi_base_define_sys : list active_t -> D -> Z * D := first_option md_define_system.
End Plugins.

(** ** Lookups *)
(** The nested loops of the two lookups, which stop at the first node that
    [f] answers for. *)
Fixpoint foreach {A R} (f : A -> option R) (l : list A) : option R :=
  match l with
  | [] => None
  | x :: l' => match f x with Some r => Some r | None => foreach f l' end
  end.

Definition visit_rack {R} (f : orcm_node_t -> option R) (rack : orcm_rack_t) : option R :=
  match f (rk_controller rack) with Some r => Some r | None => foreach f (rk_nodes rack) end.
Definition visit_row {R} (f : orcm_node_t -> option R) (row : orcm_row_t) : option R :=
  match f (rw_controller row) with Some r => Some r | None => foreach (visit_rack f) (rw_racks row) end.
Definition visit_cluster {R} (f : orcm_node_t -> option R) (cluster : orcm_cluster_t) : option R :=
  match f (cl_controller cluster) with Some r => Some r | None => foreach (visit_row f) (cl_rows cluster) end.

(** The name is copied without a check. *)
Definition orcm_cfgi_base_get_proc_hostname (orcm_clusters : list orcm_cluster_t) (proc : process_name)
    : outcome (Z * option cstr) :=
  let f node :=
    if orte_util_compare_name_fields ORTE_NS_CMP_ALL (Some (nd_daemon node)) (Some proc) =? OPAL_EQUAL
    then Some (nd_name node) else None in
  match foreach (visit_cluster f) orcm_clusters with
  | Some (Some name) => Ret (OPAL_SUCCESS, Some name)
  | Some None => Ub
  | None => Ret (OPAL_ERR_NOT_FOUND, None)
  end.

Definition orcm_cfgi_base_get_hostname_proc (orcm_clusters : list orcm_cluster_t) (hostname : cstr)
    (proc : process_name) : Z * process_name :=
  let f node :=
    match nd_name node with
    | Some name => if strcmp0 name hostname then Some (nd_daemon node) else None
    | None => None
    end in
  match foreach (visit_cluster f) orcm_clusters with
  | Some d => (OPAL_SUCCESS, d)
  | None => (OPAL_ERR_NOT_FOUND, proc)
  end.

(** ** Comparison *)
(** The sign of [strcmp]. *)
Fixpoint strcmp (s t : cstr) : Z :=
  match s, t with
  | [], [] => 0
  | [], _ :: _ => -1
  | _ :: _, [] => 1
  | c :: s', d :: t' => if char_Z c <? char_Z d then -1 else if char_Z d <? char_Z c then 1 else strcmp s' t'
  end.

(** What a C string function sees of a buffer. *)
Fixpoint up_to_nul (s : cstr) : cstr :=
  match s with
  | [] => []
  | c :: s' => if eqc c zero then [] else c :: up_to_nul s'
  end.

(** [if (a > b) return OPAL_VALUE1_GREATER; ...]; a comparison goes on only
    when it has found no difference. *)
Definition differ (a b : Z) : Z :=
  if b <? a then OPAL_VALUE1_GREATER else if a <? b then OPAL_VALUE2_GREATER else OPAL_EQUAL.

Definition and_then (rc : Z) (k : outcome Z) : outcome Z := if rc =? OPAL_EQUAL then k else Ret rc.

Definition compare_strings (s t : option cstr) : Z :=
  match s, t with
  | Some _, None => OPAL_VALUE1_GREATER
  | None, Some _ => OPAL_VALUE2_GREATER
  | None, None => OPAL_EQUAL
  | Some s, Some t => differ (strcmp s t) 0
  end.

(** Arrays are joined with a NUL between the strings. *)
Definition compare_args (v w : argv_t) : outcome Z :=
  match v, w with
  | Some _, None => Ret OPAL_VALUE1_GREATER
  | None, Some _ => Ret OPAL_VALUE2_GREATER
  | None, None => Ret OPAL_EQUAL
  | Some _, Some _ =>
    and_then (differ (opal_argv_count v) (opal_argv_count w))
      (s ← opal_argv_join v zero; t ← opal_argv_join w zero;
       Ret (differ (strcmp (up_to_nul s) (up_to_nul t)) 0))
  end.

Definition bool_Z (b : bool) : Z := if b then 1 else 0.

Definition orcm_compare_node (value1 value2 : orcm_node_t) : outcome Z :=
  let c1 := nd_config value1 in let c2 := nd_config value2 in
  and_then (compare_strings (nd_name value1) (nd_name value2))
  (and_then (differ (nd_daemon value1).1 (nd_daemon value2).1)
  (and_then (differ (nd_daemon value1).2 (nd_daemon value2).2)
  (rc ← compare_args (cf_mca_params c1) (cf_mca_params c2); and_then rc
  (rc ← compare_args (cf_env c1) (cf_env c2); and_then rc
  (and_then (compare_strings (cf_port c1) (cf_port c2))
  (and_then (differ (bool_Z (cf_aggregator c1)) (bool_Z (cf_aggregator c2)))
  (and_then (differ (nd_state value1) (nd_state value2))
  (and_then (differ (nd_scd_state value1) (nd_scd_state value2))
  (Ret OPAL_EQUAL))))))))).

(** Of what a rack, row or cluster holds, only the controller is compared. *)
Definition compare_named (name1 name2 : option cstr) (node1 node2 : orcm_node_t) : outcome Z :=
  and_then (compare_strings name1 name2) (rc ← orcm_compare_node node1 node2; and_then rc (Ret OPAL_EQUAL)).

Definition orcm_compare_rack (value1 value2 : orcm_rack_t) : outcome Z :=
  compare_named (rk_name value1) (rk_name value2) (rk_controller value1) (rk_controller value2).
Definition orcm_compare_row (value1 value2 : orcm_row_t) : outcome Z :=
  compare_named (rw_name value1) (rw_name value2) (rw_controller value1) (rw_controller value2).
Definition orcm_compare_cluster (value1 value2 : orcm_cluster_t) : outcome Z :=
  compare_named (cl_name value1) (cl_name value2) (cl_controller value1) (cl_controller value2).

Definition orcm_compare_scheduler (value1 value2 : orcm_scheduler_t) : outcome Z :=
  rc ← orcm_compare_node (sc_controller value1) (sc_controller value2); and_then rc
  (rc ← compare_args (sc_queues value1) (sc_queues value2); and_then rc (Ret OPAL_EQUAL)).

(** ** Printing *)
Definition newline : cstr := [ascii_of_N 10].
Definition or_na (s : option cstr) : cstr := default (cs "N/A") s.

Definition print_args (pfx2 : cstr) (tmp : cstr) (args : argv_t) : cstr :=
  foldl (fun tmp a => tmp ++ newline ++ pfx2 ++ cs "    " ++ a) tmp (argv_list args).

Definition print_config (prefix : option cstr) (config : orcm_config_t) : cstr :=
  let pfx2 := match prefix with None => cs " " | Some p => p ++ cs "    " end in
  let tmp := print_args pfx2 (newline ++ pfx2 ++ cs "MCA PARAMS") (cf_mca_params config) in
  let tmp := print_args pfx2 (tmp ++ newline ++ pfx2 ++ cs "ENV") (cf_env config) in
  tmp ++ newline ++ pfx2 ++ cs "PORT: " ++ or_na (cf_port config) ++ cs " AGGREGATOR: " ++
  (if cf_aggregator config then cs "Y" else cs "N").

Definition orcm_print_node (prefix : option cstr) (src : orcm_node_t) : cstr :=
  let pfx2 := match prefix with None => cs " " | Some p => p ++ cs "    " end in
  let tmp := print_config (match prefix with None => None | Some _ => Some pfx2 end) (nd_config src) in
  pfx2 ++ cs "Data for node: " ++ or_na (nd_name src) ++ cs "  Daemon: " ++
  orte_util_print_name_args (Some (nd_daemon src)) ++ tmp.

(** The head line, the controller and the children of an object. *)
Definition print_parts {A} (kind counted indent : cstr) (print_child : option cstr -> A -> cstr) (middle : cstr -> cstr)
    (prefix : option cstr) (name : option cstr) (controller : orcm_node_t) (children : list A) : cstr :=
  let k := i32 (Z.of_nat (length children)) in
  let tmp := newline ++ default [] prefix ++ cs "Data for " ++ kind ++ cs ": " ++ or_na name ++ cs "  #" ++ counted ++
             cs ": " ++ fmt_d k in
  let pfx2 := default [] prefix ++ indent in
  let tmp := tmp ++ newline ++ pfx2 ++ cs "Controller:" ++ newline ++ orcm_print_node (Some pfx2) controller in
  foldl (fun tmp c => tmp ++ newline ++ print_child (Some pfx2) c) (tmp ++ middle pfx2) children.

Definition orcm_print_rack (prefix : option cstr) (src : orcm_rack_t) : cstr :=
  print_parts (cs "rack") (cs "nodes") (cs "    ") orcm_print_node (fun pfx2 => newline ++ pfx2 ++ cs "Nodes:")
    prefix (rk_name src) (rk_controller src) (rk_nodes src).
Definition orcm_print_row (prefix : option cstr) (src : orcm_row_t) : cstr :=
  print_parts (cs "row") (cs "racks") (cs "   ") orcm_print_rack (fun _ => [])
    prefix (rw_name src) (rw_controller src) (rw_racks src).
Definition orcm_print_cluster (prefix : option cstr) (src : orcm_cluster_t) : cstr :=
  print_parts (cs "cluster") (cs "rows") (cs "   ") orcm_print_row (fun _ => [])
    prefix (cl_name src) (cl_controller src) (cl_rows src).

(** Without queues the last text is built, released and not returned. *)
Definition orcm_print_scheduler (prefix : option cstr) (src : orcm_scheduler_t) : cstr :=
  let k := opal_argv_count (sc_queues src) in
  let tmp := newline ++ default [] prefix ++ cs "Data for scheduler: #queues: " ++ fmt_d k in
  let pfx2 := default [] prefix ++ cs "    " in
  let tmp := tmp ++ newline ++ pfx2 ++ cs "Controller:" ++ newline ++ orcm_print_node (Some pfx2) (sc_controller src) in
  match sc_queues src with
  | None => tmp
  | Some _ => print_args pfx2 (tmp ++ newline ++ pfx2 ++ cs "QUEUES") (sc_queues src)
  end.

(** ** Copies share the object *)
Definition orcm_copy_node (src : orcm_node_t) : Z * orcm_node_t := (OPAL_SUCCESS, src).
Definition orcm_copy_rack (src : orcm_rack_t) : Z * orcm_rack_t := (OPAL_SUCCESS, src).
Definition orcm_copy_row (src : orcm_row_t) : Z * orcm_row_t := (OPAL_SUCCESS, src).
Definition orcm_copy_cluster (src : orcm_cluster_t) : Z * orcm_cluster_t := (OPAL_SUCCESS, src).
Definition orcm_copy_scheduler (src : orcm_scheduler_t) : Z * orcm_scheduler_t := (OPAL_SUCCESS, src).
