(* ===== verification/ConfigProps.v ===== *)
(** * Order and lookup of configurations

    Comparison is a total order on what it looks at: [TotalCmp] is the
    interface of such comparisons, closed under lexicographic combination, and
    [orcm_compare_node] is an instance on the key of a node.  Lookups search the
    nodes in the order of the tree. *)

From S2P Require Import Prelude CString Argv NameFns Config.
From stdpp Require Import base strings numbers list.
From Stdlib Require Import ZArith Lia Ascii Sorting.Sorted.

Open Scope Z_scope.

(** ** Comparisons *)
Class TotalCmp {K : Type} (c : K -> K -> Z) : Prop := {
  tc_range x y : c x y = -1 \/ c x y = 0 \/ c x y = 1;
  tc_eq x y : c x y = 0 <-> x = y;
  tc_anti x y : c y x = - c x y;
  tc_trans x y z : c x y = 1 -> c y z = 1 -> c x z = 1
}.

Definition lex {K L} (c : K -> K -> Z) (d : L -> L -> Z) (x y : K * L) : Z :=
  if c x.1 y.1 =? OPAL_EQUAL then d x.2 y.2 else c x.1 y.1.

Definition null_first {K} (c : K -> K -> Z) (x y : option K) : Z :=
  match x, y with
  | Some _, None => OPAL_VALUE1_GREATER
  | None, Some _ => OPAL_VALUE2_GREATER
  | None, None => OPAL_EQUAL
  | Some x, Some y => c x y
  end.

#[export] Instance differ_cmp : TotalCmp differ.
Proof.
  split; unfold differ, OPAL_VALUE1_GREATER, OPAL_VALUE2_GREATER, OPAL_EQUAL; intros *; zcase; try lia; auto; split; lia.
Qed.

Lemma strcmp_range s t : strcmp s t = -1 \/ strcmp s t = 0 \/ strcmp s t = 1.
Proof. revert t. induction s as [|c s IH]; intros [|d t]; cbn; auto. zcase; auto. Qed.

#[export] Instance strcmp_cmp : TotalCmp strcmp.
Proof.
  split.
  - apply strcmp_range.
  - induction x as [|c s IH]; intros [|d t]; cbn; try done. zcase.
    + split; [done|]. intros [= -> _]. lia.
    + split; [done|]. intros [= -> _]. lia.
    + rewrite IH. split; [|by intros [= _ ->]]. intros ->. f_equal. apply char_Z_inj. lia.
  - induction x as [|c s IH]; intros [|d t]; cbn; try done. zcase; try lia; try done.
  - induction x as [|c s IH]; intros [|d t] [|e u]; cbn; try done. zcase; try lia; try done. apply IH.
Qed.

Lemma differ_sign z : z = -1 \/ z = 0 \/ z = 1 -> differ z 0 = z.
Proof. by intros [->|[->| ->]]. Qed.

#[export] Instance lex_cmp {K L} (c : K -> K -> Z) (d : L -> L -> Z) : TotalCmp c -> TotalCmp d -> TotalCmp (lex c d).
Proof.
  intros Hc Hd. split; unfold lex, OPAL_EQUAL.
  - intros x y. zcase; [apply tc_range|apply tc_range].
  - intros [x x'] [y y']; cbn [fst snd]. destruct (Z.eqb_spec (c x y) 0) as [E|N].
    + rewrite tc_eq. apply (tc_eq (c := c)) in E as ->. split; [by intros ->|by intros [= ->]].
    + split; [done|]. intros [= -> ->]. by rewrite (proj2 (tc_eq y y) eq_refl) in N.
  - intros x y. rewrite (tc_anti x.1 y.1). zcase; try lia. apply tc_anti.
  - intros x y z. destruct (Z.eqb_spec (c x.1 y.1) 0) as [E1|N1].
    + apply (tc_eq (c := c)) in E1 as ->. destruct (Z.eqb_spec (c y.1 z.1) 0); [apply tc_trans|done].
    + destruct (Z.eqb_spec (c y.1 z.1) 0) as [E2|N2].
      * apply (tc_eq (c := c)) in E2. intros H1 _. by rewrite <- E2, H1.
      * intros H1 H2. by rewrite (tc_trans x.1 y.1 z.1 H1 H2).
Qed.

#[export] Instance null_first_cmp {K} (c : K -> K -> Z) : TotalCmp c -> TotalCmp (null_first c).
Proof.
  intros Hc. split; unfold OPAL_EQUAL.
  - intros [x|] [y|]; cbn; auto. apply tc_range.
  - intros [x|] [y|]; cbn; try done. rewrite tc_eq. split; [by intros ->|by intros [= ->]].
  - intros [x|] [y|]; cbn; try done. apply tc_anti.
  - intros [x|] [y|] [z|]; cbn; try done. apply tc_trans.
Qed.

(** ** What a comparison of nodes looks at *)
Definition nul_free (s : cstr) : Prop := Forall (fun c => c <> zero) s.
Definition args_ok (v : argv_t) : Prop := Forall nul_free (argv_list v).

(** How many arguments there are, and the first. *)
Definition args_key (v : argv_t) : option (Z * cstr) :=
  (fun l => (opal_argv_count (Some l), default [] (head l))) <$> v.

Definition node_key (n : orcm_node_t) :=
  let c := nd_config n in
  (nd_name n, ((nd_daemon n).1, ((nd_daemon n).2, (args_key (cf_mca_params c), (args_key (cf_env c),
   (cf_port c, (bool_Z (cf_aggregator c), (nd_state n, nd_scd_state n)))))))).

Definition args_cmp := null_first (lex differ strcmp).
Definition node_cmp := lex (null_first strcmp) (lex differ (lex differ (lex args_cmp (lex args_cmp
  (lex (null_first strcmp) (lex differ (lex differ differ))))))).

#[export] Instance args_total : TotalCmp args_cmp.
Proof. unfold args_cmp. apply _. Qed.
#[export] Instance node_total : TotalCmp node_cmp.
Proof. unfold node_cmp. apply _. Qed.

Lemma up_to_nul_app s t : nul_free s -> up_to_nul (s ++ zero :: t) = s.
Proof. induction 1 as [|c s Hc Hs IH]; cbn; [done|]. rewrite (eqc_ne c zero Hc). by rewrite IH. Qed.

Lemma up_to_nul_id s : nul_free s -> up_to_nul s = s.
Proof. induction 1 as [|c s Hc Hs IH]; cbn; [done|]. rewrite (eqc_ne c zero Hc). by rewrite IH. Qed.

Lemma join_nul l : Forall nul_free l ->
  exists s, opal_argv_join (Some l) zero = Ret s /\ up_to_nul s = default [] (head l).
Proof.
  intros Hl. destruct Hl as [|p ps Hp Hps]; [by exists []|]. eexists. cbn [opal_argv_join].
  rewrite <- (join_spec_length zero). split; [apply join_fill_spec|]. destruct ps as [|q ps].
  - cbn. by apply up_to_nul_id.
  - rewrite join_spec_cons. by apply up_to_nul_app.
Qed.

Lemma compare_args_spec v w : args_ok v -> args_ok w -> compare_args v w = Ret (args_cmp (args_key v) (args_key w)).
Proof.
  intros Hv Hw. destruct v as [l|], w as [m|]; try done.
  destruct (join_nul l Hv) as (s & Es & Hs), (join_nul m Hw) as (t & Et & Ht).
  unfold compare_args, and_then, args_cmp, args_key, null_first, lex. cbn [fmap option_fmap option_map fst snd].
  destruct (differ _ _ =? OPAL_EQUAL); [|done].
  rewrite Es, bind_Ret, Et, bind_Ret, Hs, Ht. f_equal. apply differ_sign, strcmp_range.
Qed.

Lemma compare_strings_spec s t : compare_strings s t = null_first strcmp s t.
Proof. destruct s, t; try done. apply differ_sign, strcmp_range. Qed.

Definition node_args_ok (n : orcm_node_t) : Prop := args_ok (cf_mca_params (nd_config n)) /\ args_ok (cf_env (nd_config n)).

Lemma compare_node_spec n1 n2 : node_args_ok n1 -> node_args_ok n2 ->
  orcm_compare_node n1 n2 = Ret (node_cmp (node_key n1) (node_key n2)).
Proof.
  intros [Hm1 He1] [Hm2 He2]. unfold orcm_compare_node, node_cmp, node_key, lex. cbn [fst snd].
  rewrite !compare_args_spec, !compare_strings_spec, !bind_Ret by done. unfold and_then.
  repeat match goal with
  | |- context [if ?c =? OPAL_EQUAL then _ else _] => destruct (Z.eqb_spec c OPAL_EQUAL); [|done]
  end.
  by f_equal.
Qed.

(** [orcm_compare_node] orders nodes totally by what it looks at: the name, the daemon, the port, the
    aggregator flag, the two states, and of each argument array the number of arguments and the first one.  Two nodes
    compare equal exactly when these agree, so a difference in any later argument goes unnoticed; swapping the nodes
    swaps the answer, and the order is transitive. *)
Theorem node_compare_total n1 n2 n3 :
  node_args_ok n1 -> node_args_ok n2 -> node_args_ok n3 ->
  exists c12, orcm_compare_node n1 n2 = Ret c12 /\ (c12 = OPAL_EQUAL <-> node_key n1 = node_key n2) /\
    orcm_compare_node n2 n1 = Ret (- c12) /\
    (c12 = OPAL_VALUE1_GREATER \/ c12 = OPAL_EQUAL \/ c12 = OPAL_VALUE2_GREATER) /\
    (c12 = OPAL_VALUE1_GREATER -> orcm_compare_node n2 n3 = Ret OPAL_VALUE1_GREATER ->
     orcm_compare_node n1 n3 = Ret OPAL_VALUE1_GREATER).
Proof.
  intros H1 H2 H3. rewrite !compare_node_spec by done. eexists. split; [done|]. split; [apply tc_eq|].
  split; [f_equal; apply tc_anti|]. split.
  - destruct (tc_range (c := node_cmp) (node_key n1) (node_key n2)) as [->|[->| ->]]; auto.
  - intros E [= E']. f_equal. by apply (tc_trans _ (node_key n2)).
Qed.

(** Two nodes that differ in their second parameter only. *)
Definition node_with_args (args : list cstr) : orcm_node_t :=
  MkNode (Some (cs "n01")) (1, 4) (MkConfig (Some args) None None false) 2 2 0.

Lemma node_compare_total_witness :
  orcm_compare_node (node_with_args [cs "a"; cs "b"]) (node_with_args [cs "a"; cs "c"]) = Ret OPAL_EQUAL /\
  node_with_args [cs "a"; cs "b"] <> node_with_args [cs "a"; cs "c"].
Proof.
  split; [|done].
  destruct (node_compare_total (node_with_args [cs "a"; cs "b"]) (node_with_args [cs "a"; cs "c"])
    (node_with_args [])) as (c & E & Heq & _).
  - split; repeat constructor; done.
  - split; repeat constructor; done.
  - split; repeat constructor; done.
  - rewrite E. f_equal. apply Heq. reflexivity.
Defined.

(** ** Lookups search the tree in order *)
Definition rack_nodes (rack : orcm_rack_t) : list orcm_node_t := rk_controller rack :: rk_nodes rack.
Definition row_nodes (row : orcm_row_t) : list orcm_node_t := rw_controller row :: (rw_racks row ≫= rack_nodes).
Definition cluster_nodes (cluster : orcm_cluster_t) : list orcm_node_t :=
  cl_controller cluster :: (cl_rows cluster ≫= row_nodes).
Definition tree_nodes (clusters : list orcm_cluster_t) : list orcm_node_t := clusters ≫= cluster_nodes.

Section Foreach.
Context {A R : Type}.

Lemma foreach_app (f : A -> option R) l l' :
  foreach f (l ++ l') = match foreach f l with Some r => Some r | None => foreach f l' end.
Proof. induction l as [|x l IH]; cbn; [done|]. destruct (f x); [done|apply IH]. Qed.

Lemma foreach_ext (f g : A -> option R) l : (forall x, f x = g x) -> foreach f l = foreach g l.
Proof. intros Hfg. induction l as [|x l IH]; cbn; [done|]. by rewrite Hfg, IH. Qed.

Lemma foreach_bind {B} (f : A -> option R) (g : B -> list A) l :
  foreach f (l ≫= g) = foreach (fun x => foreach f (g x)) l.
Proof. induction l as [|x l IH]; [done|]. rewrite bind_cons, foreach_app. cbn. by rewrite IH. Qed.

(** Among things with distinct keys there is one to be found. *)
Lemma foreach_key {K} `{EqDecision K} (key : A -> K) (val : A -> R) l x :
  NoDup (key <$> l) -> x ∈ l -> foreach (fun y => if decide (key y = key x) then Some (val y) else None) l = Some (val x).
Proof.
  induction l as [|y l IH]; intros Hnd Hin; [by apply not_elem_of_nil in Hin|].
  rewrite fmap_cons in Hnd. apply NoDup_cons in Hnd as [Hy Hnd]. cbn.
  apply elem_of_cons in Hin as [->|Hin]; [by rewrite decide_True|].
  rewrite decide_False; [by apply IH|]. intros E. apply Hy. rewrite E. by apply list_elem_of_fmap_2.
Qed.

Lemma foreach_none {K} `{EqDecision K} (key : A -> K) (val : A -> R) l k :
  k ∉ key <$> l -> foreach (fun y => if decide (key y = k) then Some (val y) else None) l = None.
Proof.
  induction l as [|y l IH]; intros Hk; [done|]. rewrite fmap_cons in Hk. apply not_elem_of_cons in Hk as [Hy Hk].
  cbn. rewrite decide_False by done. by apply IH.
Qed.
End Foreach.

Lemma foreach_tree {R} (f : orcm_node_t -> option R) clusters :
  foreach (visit_cluster f) clusters = foreach f (tree_nodes clusters).
Proof.
  unfold tree_nodes. rewrite foreach_bind. apply foreach_ext. intros c. unfold visit_cluster, cluster_nodes.
  cbn [foreach]. destruct (f (cl_controller c)); [done|]. rewrite foreach_bind. apply foreach_ext. intros r.
  unfold visit_row, row_nodes. cbn [foreach]. destruct (f (rw_controller r)); [done|].
  rewrite foreach_bind. by apply foreach_ext.
Qed.

Lemma proc_lookup clusters proc :
  orcm_cfgi_base_get_proc_hostname clusters proc =
  match foreach (fun n => if decide (nd_daemon n = proc) then Some (nd_name n) else None) (tree_nodes clusters) with
  | Some (Some name) => Ret (OPAL_SUCCESS, Some name)
  | Some None => Ub
  | None => Ret (OPAL_ERR_NOT_FOUND, None)
  end.
Proof.
  unfold orcm_cfgi_base_get_proc_hostname. rewrite foreach_tree. erewrite foreach_ext; [reflexivity|].
  intros n. cbn beta. destruct (decide (nd_daemon n = proc)) as [E|N].
  - rewrite (proj2 (compare_all_equal _ _) E). done.
  - destruct (Z.eqb_spec (orte_util_compare_name_fields ORTE_NS_CMP_ALL (Some (nd_daemon n)) (Some proc)) OPAL_EQUAL) as [E|]; [|done].
    by apply compare_all_equal in E.
Qed.

Lemma host_lookup clusters hostname proc :
  orcm_cfgi_base_get_hostname_proc clusters hostname proc =
  match foreach (fun n => if decide (nd_name n = Some hostname) then Some (nd_daemon n) else None) (tree_nodes clusters) with
  | Some d => (OPAL_SUCCESS, d)
  | None => (OPAL_ERR_NOT_FOUND, proc)
  end.
Proof.
  unfold orcm_cfgi_base_get_hostname_proc. rewrite foreach_tree. erewrite foreach_ext; [reflexivity|].
  intros n. cbn beta. destruct (nd_name n) as [name|]; [|by rewrite decide_False].
  destruct (strcmp0 name hostname) eqn:E.
  - apply strcmp0_true in E as ->. by rewrite decide_True.
  - apply strcmp0_false in E. rewrite decide_False; [done|]. by intros [= ->].
Qed.

(** In a configuration whose nodes have distinct daemons and distinct names, the two lookups of
    [cfgi_base_stubs.c] are inverse to each other: every node, controllers included, is found by its daemon and by its
    name; a daemon or a name that no node has is reported as not found and leaves the caller's variable alone. *)
Theorem config_lookup_inverse clusters proc0 :
  NoDup (nd_daemon <$> tree_nodes clusters) -> NoDup (nd_name <$> tree_nodes clusters) ->
  Forall (fun n => is_Some (nd_name n)) (tree_nodes clusters) ->
  (forall n, n ∈ tree_nodes clusters -> exists name, nd_name n = Some name /\
     orcm_cfgi_base_get_proc_hostname clusters (nd_daemon n) = Ret (OPAL_SUCCESS, Some name) /\
     orcm_cfgi_base_get_hostname_proc clusters name proc0 = (OPAL_SUCCESS, nd_daemon n)) /\
  (forall proc, proc ∉ nd_daemon <$> tree_nodes clusters ->
     orcm_cfgi_base_get_proc_hostname clusters proc = Ret (OPAL_ERR_NOT_FOUND, None)) /\
  (forall name, Some name ∉ nd_name <$> tree_nodes clusters ->
     orcm_cfgi_base_get_hostname_proc clusters name proc0 = (OPAL_ERR_NOT_FOUND, proc0)).
Proof.
  intros Hd Hn Hs. split_and!.
  - intros n Hin. rewrite Forall_forall in Hs. destruct (Hs n Hin) as [name Hname]. exists name. split; [done|].
    rewrite proc_lookup, host_lookup, (foreach_key nd_daemon nd_name _ n Hd Hin), Hname.
    rewrite <- Hname, (foreach_key nd_name nd_daemon _ n Hn Hin). done.
  - intros proc Hp. by rewrite proc_lookup, foreach_none.
  - intros name Hp. by rewrite host_lookup, foreach_none.
Qed.

Definition named_node (name : cstr) (vpid : Z) : orcm_node_t := MkNode (Some name) (1, vpid) cfg_cons 2 2 0.

Definition small_cluster : orcm_cluster_t :=
  MkCluster (Some (cs "c")) (named_node (cs "head") 0)
    [MkRow (Some (cs "r")) (named_node (cs "rowctl") 1)
       [MkRack (Some (cs "k")) (named_node (cs "rackctl") 2) [named_node (cs "n1") 3; named_node (cs "n2") 4]]].

Lemma config_lookup_inverse_witness :
  orcm_cfgi_base_get_proc_hostname [small_cluster] (1, 4) = Ret (OPAL_SUCCESS, Some (cs "n2")) /\
  orcm_cfgi_base_get_hostname_proc [small_cluster] (cs "n2") (0, 0) = (OPAL_SUCCESS, (1, 4)).
Proof.
  destruct (config_lookup_inverse [small_cluster] (0, 0)) as (Hin & _).
  - apply (bool_decide_unpack _). vm_compute. exact I.
  - apply (bool_decide_unpack _). vm_compute. exact I.
  - repeat constructor; by eexists.
  - destruct (Hin (named_node (cs "n2") 4)) as (name & [= <-] & H1 & H2); [apply list_elem_of_In; vm_compute; auto 10|].
    split; [exact H1|exact H2].
Defined.

(** ** The choice of a plugin *)
Section Selection.
Context {C D : Type}.

Lemma insert_active_sorted (m : orcm_cfgi_base_module_t (C := C) (D := D)) pri l :
  StronglySorted (fun a b => b.2 <= a.2) l -> StronglySorted (fun a b => b.2 <= a.2) (insert_active m pri l).
Proof.
  induction 1 as [|a l Hs IH Hall]; cbn; [by repeat constructor|]. destruct (Z.ltb_spec pri a.2).
  - constructor; [done|]. clear IH. induction l as [|b l IHl]; cbn; [by repeat constructor; cbn; lia|].
    apply Forall_cons_iff in Hall as [Hb Hall]. apply StronglySorted_inv in Hs as [Hs _].
    destruct (pri <? b.2); repeat constructor; cbn; auto; lia.
  - constructor; [by constructor|]. constructor; [done|]. eapply Forall_imp; [|exact Hall]. cbn. lia.
Qed.

(** Modules are asked by descending priority. *)
Lemma select_sorted (components : list (component_t (C := C) (D := D))) :
  StronglySorted (fun a b => b.2 <= a.2) (orcm_cfgi_base_select components).2.
Proof.
  cbn. assert (forall l, StronglySorted (fun a b : active_t => b.2 <= a.2) l ->
    StronglySorted (fun a b : active_t => b.2 <= a.2) (foldl select_one l components)) as H; [|apply H; constructor].
  induction components as [|c cs IH]; intros l Hl; cbn; [done|]. apply IH. unfold select_one.
  destruct c as [[[m pri]|]|]; try done. destruct (md_init m) as [[]|]; try done. by apply insert_active_sorted.
Qed.
End Selection.
