(* ===== verification/DssCompare.v ===== *)
(** * Comparing and copying values ([opal/dss/dss_compare.c], [dss_copy.c])

    [opal_dss.compare] and [opal_dss.copy] look up the functions registered for
    a type.  A value is given by its address: one function compares the
    addresses.  The object behind it is a member of [dss_object]; a function
    that is given an object of another type is undefined.

    On numbers and times of day the comparison is a total order ([TotalCmp]);
    on strings it is the opposite of the alphabetical one. *)

From S2P Require Import Prelude CString Dss DssValue Float64 NameFns Config ConfigProps.
From stdpp Require Import base strings numbers list.
From Stdlib Require Import ZArith Lia Ascii.

Open Scope Z_scope.

Definition OPAL_PSTAT : Z := 23.
Definition OPAL_NODE_STAT : Z := 24.
Definition OPAL_VALUE : Z := 26.
Definition OPAL_BUFFER : Z := 27.
Definition OPAL_JOBID_WILDCARD : Z := 2 ^ 32 - 2.
Definition OPAL_VPID_WILDCARD : Z := 2 ^ 32 - 2.

(** Statistics of a process.  Texts are the arrays of characters. *)
Record opal_pstats_t : Type := MkPstats {
  ps_node : list Z; ps_rank : Z; ps_pid : Z; ps_cmd : list Z; ps_state : Z * Z; ps_time : Z * Z; ps_percent_cpu : double;
  ps_priority : Z; ps_num_threads : Z; ps_vsize : double; ps_rss : double; ps_peak_vsize : double; ps_processor : Z; ps_sample_time : Z * Z
}.
Definition opal_pstat_construct : opal_pstats_t :=
  MkPstats (replicate 32 0) 0 0 (replicate 32 0) (85, 0) (0, 0) d0 (-1) (-1) d0 d0 d0 (-1) (0, 0).

(** Statistics of a node; those of a disk or an interface are its name and
    its counters. *)
Record opal_node_stats_t : Type := MkNodeStats {
  ns_la : double; ns_la5 : double; ns_la15 : double; ns_total_mem : double; ns_free_mem : double;
  ns_buffers : double; ns_cached : double; ns_swap_cached : double; ns_swap_total : double; ns_swap_free : double; ns_mapped : double;
  ns_sample_time : Z * Z; ns_diskstats : list (option cstr * list Z); ns_netstats : list (option cstr * list Z)
}.
Definition opal_node_stats_construct : opal_node_stats_t :=
  MkNodeStats d0 d0 d0 d0 d0 d0 d0 d0 d0 d0 d0 (0, 0) [] [].

(** A number is the value of its type; a [bool] is a number. *)
Inductive dss_object : Type :=
| ONumber (z : Z)
| OReal (d : double)
| OText (s : cstr)
| OTimeval (tv_sec tv_usec : Z)
| OBytes (size : Z) (bytes : option (list Z))
| OName (jobid vpid : Z)
| OPstat (p : opal_pstats_t)
| ONodeStat (p : opal_node_stats_t)
| OValue (v : opal_value_t)
| OBuffer (b : opal_buffer_t)
| ONull.

Record pointed : Type := At { p_addr : Z; p_obj : dss_object }.

(** ** Comparison *)
Definition compare_numbers (o1 o2 : dss_object) : outcome Z :=
  match o1, o2 with ONumber a, ONumber b => Ret (differ a b) | _, _ => Ub end.
Definition opal_dss_compare_int := compare_numbers.
Definition opal_dss_compare_uint := compare_numbers.
Definition opal_dss_compare_size := compare_numbers.
Definition opal_dss_compare_pid := compare_numbers.
Definition opal_dss_compare_byte := compare_numbers.
Definition opal_dss_compare_int8 := compare_numbers.
Definition opal_dss_compare_uint8 := compare_numbers.
Definition opal_dss_compare_int16 := compare_numbers.
Definition opal_dss_compare_uint16 := compare_numbers.
Definition opal_dss_compare_int32 := compare_numbers.
Definition opal_dss_compare_uint32 := compare_numbers.
Definition opal_dss_compare_int64 := compare_numbers.
Definition opal_dss_compare_uint64 := compare_numbers.
Definition opal_dss_compare_dt := compare_numbers.

Definition compare_reals (o1 o2 : dss_object) : outcome Z :=
  match o1, o2 with
  | OReal a, OReal b => Ret (if dltb b a then OPAL_VALUE1_GREATER else if dltb a b then OPAL_VALUE2_GREATER else OPAL_EQUAL)
  | _, _ => Ub
  end.
Definition opal_dss_compare_float := compare_reals.
Definition opal_dss_compare_double := compare_reals.

Definition opal_dss_compare_bool (o1 o2 : dss_object) : outcome Z :=
  match o1, o2 with
  | ONumber a, ONumber b =>
    let t z := negb (z =? 0) in
    Ret (if t a && negb (t b) then OPAL_VALUE1_GREATER else if t b && negb (t a) then OPAL_VALUE2_GREATER else OPAL_EQUAL)
  | _, _ => Ub
  end.

Definition opal_dss_compare_string (o1 o2 : dss_object) : outcome Z :=
  match o1, o2 with
  | OText s, OText t => Ret (if 0 <? strcmp s t then OPAL_VALUE2_GREATER else if strcmp s t <? 0 then OPAL_VALUE1_GREATER else OPAL_EQUAL)
  | _, _ => Ub
  end.

Definition opal_dss_compare_timeval (o1 o2 : dss_object) : outcome Z :=
  match o1, o2 with
  | OTimeval s u, OTimeval s' u' =>
    Ret (if s' <? s then OPAL_VALUE1_GREATER else if s <? s' then OPAL_VALUE2_GREATER
         else if u' <? u then OPAL_VALUE1_GREATER else if u <? u' then OPAL_VALUE2_GREATER else OPAL_EQUAL)
  | _, _ => Ub
  end.

(** The pointers are compared, not what they point to. *)
Definition opal_dss_compare_time (value1 value2 : pointed) : Z := differ (p_addr value1) (p_addr value2).

(** The sum of the differences, reset before it would overflow. *)
Fixpoint checksum_loop (l l' : list Z) (checksum : Z) : Z :=
  match l, l' with
  | a :: l, b :: l' =>
    let diff := a - b in
    let checksum := if INT_MAX - Z.abs checksum - Z.abs diff <? 0 then 0 else checksum in
    checksum_loop l l' (checksum + diff)
  | _, _ => checksum
  end.

(** The first [size] bytes. *)
Definition bytes_read (size : Z) (bytes : option (list Z)) : outcome (list Z) :=
  if size <=? 0 then Ret []
  else l ← deref bytes; if Z.of_nat (length l) <? size then Ub else Ret (take (Z.to_nat size) l).

Definition opal_dss_compare_byte_object (o1 o2 : dss_object) : outcome Z :=
  match o1, o2 with
  | OBytes n b, OBytes n' b' =>
    if n' <? n then Ret OPAL_VALUE1_GREATER
    else if n <? n' then Ret OPAL_VALUE2_GREATER
    else
      l ← bytes_read n b; l' ← bytes_read n b';
      let checksum := checksum_loop l l' 0 in
      Ret (if checksum <? 0 then OPAL_VALUE2_GREATER else if 0 <? checksum then OPAL_VALUE1_GREATER else OPAL_EQUAL)
  | _, _ => Ub
  end.

Definition opal_dss_compare_null (o1 o2 : dss_object) : outcome Z := Ret OPAL_EQUAL.
Definition opal_dss_compare_pstat (o1 o2 : dss_object) : outcome Z := Ret OPAL_EQUAL.
Definition opal_dss_compare_node_stat (o1 o2 : dss_object) : outcome Z := Ret OPAL_EQUAL.
Definition opal_dss_compare_value (o1 o2 : dss_object) : outcome Z := Ret OPAL_EQUAL.
Definition opal_dss_compare_buffer_contents (o1 o2 : dss_object) : outcome Z := Ret OPAL_EQUAL.

(** A field that is a wildcard on either side is not compared. *)
Definition compare_field (wildcard a b : Z) : Z :=
  if negb (a =? wildcard) && negb (b =? wildcard) then differ a b else OPAL_EQUAL.

Definition opal_dss_compare_name (o1 o2 : dss_object) : outcome Z :=
  match o1, o2 with
  | OName j v, OName j' v' =>
    Ret (if compare_field OPAL_JOBID_WILDCARD j j' =? OPAL_EQUAL then compare_field OPAL_VPID_WILDCARD v v'
         else compare_field OPAL_JOBID_WILDCARD j j')
  | _, _ => Ub
  end.

Definition opal_dss_compare_vpid (o1 o2 : dss_object) : outcome Z :=
  match o1, o2 with ONumber a, ONumber b => Ret (compare_field OPAL_VPID_WILDCARD a b) | _, _ => Ub end.
Definition opal_dss_compare_jobid (o1 o2 : dss_object) : outcome Z :=
  match o1, o2 with ONumber a, ONumber b => Ret (compare_field OPAL_JOBID_WILDCARD a b) | _, _ => Ub end.

(** The functions [opal_dss_open] registers. *)
Definition compare_fn (type : Z) : option (dss_object -> dss_object -> outcome Z) :=
  if type =? OPAL_NULL then Some opal_dss_compare_null
  else if type =? OPAL_BYTE then Some opal_dss_compare_byte
  else if type =? OPAL_BOOL then Some opal_dss_compare_bool
  else if type =? OPAL_INT then Some opal_dss_compare_int
  else if type =? OPAL_UINT then Some opal_dss_compare_uint
  else if type =? OPAL_INT8 then Some opal_dss_compare_int8
  else if type =? OPAL_UINT8 then Some opal_dss_compare_uint8
  else if type =? OPAL_INT16 then Some opal_dss_compare_int16
  else if type =? OPAL_UINT16 then Some opal_dss_compare_uint16
  else if type =? OPAL_INT32 then Some opal_dss_compare_int32
  else if type =? OPAL_UINT32 then Some opal_dss_compare_uint32
  else if type =? OPAL_INT64 then Some opal_dss_compare_int64
  else if type =? OPAL_UINT64 then Some opal_dss_compare_uint64
  else if type =? OPAL_SIZE then Some opal_dss_compare_size
  else if type =? OPAL_PID then Some opal_dss_compare_pid
  else if type =? OPAL_STRING then Some opal_dss_compare_string
  else if type =? OPAL_DATA_TYPE then Some opal_dss_compare_dt
  else if type =? OPAL_BYTE_OBJECT then Some opal_dss_compare_byte_object
  else if type =? OPAL_PSTAT then Some opal_dss_compare_pstat
  else if type =? OPAL_NODE_STAT then Some opal_dss_compare_node_stat
  else if type =? OPAL_VALUE then Some opal_dss_compare_value
  else if type =? OPAL_BUFFER then Some opal_dss_compare_buffer_contents
  else if type =? OPAL_FLOAT then Some opal_dss_compare_float
  else if type =? OPAL_DOUBLE then Some opal_dss_compare_double
  else if type =? OPAL_TIMEVAL then Some opal_dss_compare_timeval
  else if type =? OPAL_NAME then Some opal_dss_compare_name
  else if type =? OPAL_JOBID then Some opal_dss_compare_jobid
  else if type =? OPAL_VPID then Some opal_dss_compare_vpid
  else None.

Definition opal_dss_compare (value1 value2 : option pointed) (type : Z) : outcome Z :=
  match value1, value2 with
  | Some v1, Some v2 =>
    if type =? OPAL_TIME then Ret (opal_dss_compare_time v1 v2)
    else match compare_fn type with
         | Some f => f (p_obj v1) (p_obj v2)
         | None => Ret OPAL_ERR_UNKNOWN_DATA_TYPE
         end
  | _, _ => Ret OPAL_ERR_BAD_PARAM
  end.

(** ** Copies *)
Section Copy.
Variable malloc_ok : Z -> bool.
Variables opal_dss_initial_size opal_dss_threshold_size : Z.
Variable desc : bool.
(** Whether the new object itself can be allocated. *)
Variable new_ok : bool.

(** The status and what the variable of the caller then holds. *)
Abbreviation copied := (outcome (Z * option dss_object)).
Definition new_object (o : dss_object) : copied :=
  Ret (if new_ok then (OPAL_SUCCESS, Some o) else (OPAL_ERR_OUT_OF_RESOURCE, None)).

Definition std_types : list Z :=
  [OPAL_BOOL; OPAL_INT; OPAL_UINT; OPAL_SIZE; OPAL_PID; OPAL_BYTE; OPAL_INT8; OPAL_UINT8; OPAL_INT16; OPAL_UINT16; OPAL_INT32; OPAL_UINT32;
   OPAL_INT64; OPAL_UINT64; OPAL_DATA_TYPE; OPAL_FLOAT; OPAL_TIMEVAL; OPAL_TIME; OPAL_NAME].

Definition opal_dss_std_copy (src : dss_object) (type : Z) : copied :=
  if bool_decide (type ∈ std_types) then new_object src else Ret (OPAL_ERR_UNKNOWN_DATA_TYPE, None).

Definition opal_dss_copy_null (src : option dss_object) : copied := new_object ONull.

(** [strdup] of nothing is not called; what it returns is not tested. *)
Definition opal_dss_copy_string (src : option dss_object) : copied :=
  match src with
  | None => Ret (OPAL_SUCCESS, None)
  | Some (OText s) => Ret (OPAL_SUCCESS, if new_ok then Some (OText s) else None)
  | Some _ => Ub
  end.

(** When the bytes cannot be allocated, the macro that releases objects is
    used on a structure that is none. *)
Definition opal_dss_copy_byte_object (src : dss_object) : copied :=
  match src with
  | OBytes size bytes =>
    if negb new_ok then Ret (OPAL_ERR_OUT_OF_RESOURCE, None)
    else match bytes with
         | None => Ret (OPAL_SUCCESS, Some (OBytes size None))
         | Some l =>
           if negb (malloc_ok (u64 size)) then Ub
           else if (size <? 0) || (Z.of_nat (length l) <? size) then Ub
           else Ret (OPAL_SUCCESS, Some (OBytes size (Some (take (Z.to_nat size) l))))
         end
  | _ => Ub
  end.

Definition opal_dss_copy_pstat (src : dss_object) : copied :=
  match src with
  | OPstat s =>
    let p := opal_pstat_construct in
    new_object (OPstat (MkPstats (ps_node s) (ps_rank s) (ps_pid s) (ps_cmd s) ((ps_state s).1, (ps_state p).2) (ps_time s) (ps_percent_cpu p)
      (ps_priority s) (ps_num_threads s) (ps_vsize s) (ps_rss s) (ps_peak_vsize s) (ps_processor s) (ps_sample_time s)))
  | _ => Ub
  end.

Definition opal_dss_copy_node_stat (src : dss_object) : copied :=
  match src with
  | ONodeStat s =>
    let p := opal_node_stats_construct in
    new_object (ONodeStat (MkNodeStats (ns_la s) (ns_la5 s) (ns_la15 s) (ns_total_mem s) (ns_free_mem s) (ns_buffers p) (ns_cached p) (ns_swap_cached p)
      (ns_swap_total p) (ns_swap_free p) (ns_mapped p) (ns_sample_time s) (ns_diskstats p) (ns_netstats p)))
  | _ => Ub
  end.

Definition value_types : list Z :=
  [OPAL_BYTE; OPAL_STRING; OPAL_PID; OPAL_INT; OPAL_INT8; OPAL_INT16; OPAL_INT32; OPAL_INT64; OPAL_UINT; OPAL_UINT8; OPAL_UINT16; OPAL_UINT32;
   OPAL_UINT64; OPAL_BYTE_OBJECT; OPAL_NAME].

(** A value of another type is left with its key and type and no data. *)
Definition opal_dss_copy_value (src : dss_object) : copied :=
  match src with
  | OValue v =>
    if negb new_ok then Ret (OPAL_ERR_OUT_OF_RESOURCE, None)
    else if bool_decide (v_type v ∈ value_types) then Ret (OPAL_SUCCESS, Some (OValue v))
    else Ret (OPAL_ERROR, Some (OValue (MkValue (v_key v) (v_type v) (D8 []))))
  | _ => Ub
  end.

(** The status of the payload is not looked at. *)
Definition opal_dss_copy_buffer_contents (src : dss_object) : copied :=
  match src with
  | OBuffer b =>
    '(_, new) ← opal_dss_copy_payload malloc_ok opal_dss_initial_size opal_dss_threshold_size (opal_buffer_construct desc) b;
    Ret (OPAL_SUCCESS, Some (OBuffer new))
  | _ => Ub
  end.

Definition opal_dss_copy_name (src : dss_object) : copied := match src with OName j v => new_object (OName j v) | _ => Ub end.
Definition opal_dss_copy_jobid (src : dss_object) : copied := match src with ONumber j => new_object (ONumber j) | _ => Ub end.
Definition opal_dss_copy_vpid (src : dss_object) : copied := match src with ONumber v => new_object (ONumber v) | _ => Ub end.

(** The types with the standard copy are those registered with it, [double]
    among them. *)
Definition opal_dss_copy (dest_given : bool) (src : option dss_object) (type : Z) : copied :=
  if negb dest_given then Ret (OPAL_ERR_BAD_PARAM, None)
  else if type =? OPAL_NULL then opal_dss_copy_null src
  else if type =? OPAL_STRING then opal_dss_copy_string src
  else match src with
       | None => Ret (OPAL_ERR_BAD_PARAM, None)
       | Some src =>
         if type =? OPAL_BYTE_OBJECT then opal_dss_copy_byte_object src
         else if type =? OPAL_PSTAT then opal_dss_copy_pstat src
         else if type =? OPAL_NODE_STAT then opal_dss_copy_node_stat src
         else if type =? OPAL_VALUE then opal_dss_copy_value src
         else if type =? OPAL_BUFFER then opal_dss_copy_buffer_contents src
         else if type =? OPAL_NAME then opal_dss_copy_name src
         else if type =? OPAL_JOBID then opal_dss_copy_jobid src
         else if type =? OPAL_VPID then opal_dss_copy_vpid src
         else if bool_decide (type ∈ std_types) || (type =? OPAL_DOUBLE) then opal_dss_std_copy src type
         else Ret (OPAL_ERR_UNKNOWN_DATA_TYPE, None)
       end.
End Copy.

(** ** Order *)
Definition number_types : list Z :=
  [OPAL_BYTE; OPAL_INT; OPAL_UINT; OPAL_INT8; OPAL_UINT8; OPAL_INT16; OPAL_UINT16; OPAL_INT32; OPAL_UINT32; OPAL_INT64; OPAL_UINT64; OPAL_SIZE;
   OPAL_PID; OPAL_DATA_TYPE].

(** Numbers and times of day are compared by total orders; strings by the
    opposite of the alphabetical order. *)
Theorem dss_compare_orders p q :
  (forall type a b, type ∈ number_types -> opal_dss_compare (Some (At p (ONumber a))) (Some (At q (ONumber b))) type = Ret (differ a b)) /\
  (forall s u s' u', opal_dss_compare (Some (At p (OTimeval s u))) (Some (At q (OTimeval s' u'))) OPAL_TIMEVAL = Ret (lex differ differ (s, u) (s', u'))) /\
  (forall s t, opal_dss_compare (Some (At p (OText s))) (Some (At q (OText t))) OPAL_STRING = Ret (strcmp t s)).
Proof.
  split_and!.
  - intros type a b Ht. repeat (apply elem_of_cons in Ht as [->|Ht]; [done|]). by apply elem_of_nil in Ht.
  - intros s u s' u'. cbn. unfold lex, differ, OPAL_EQUAL, OPAL_VALUE1_GREATER, OPAL_VALUE2_GREATER. cbn. f_equal. zcase; lia.
  - intros s t. cbn. rewrite (tc_anti (c := strcmp) s t). destruct (strcmp_range s t) as [->|[->| ->]]; done.
Qed.

(** ** Byte objects *)
Lemma checksum_sum l : forall l' c, length l = length l' -> Forall (fun b => 0 <= b < 256) l -> Forall (fun b => 0 <= b < 256) l' ->
  Z.abs c + 255 * Z.of_nat (length l) <= INT_MAX -> checksum_loop l l' c = c + foldr Z.add 0 l - foldr Z.add 0 l'.
Proof.
  induction l as [|a l IH]; intros [|b l'] c Hlen Hl Hl' Hb; try done; cbn [checksum_loop foldr]; [lia|].
  cbn [length] in *. apply Forall_cons in Hl as [? Hl]. apply Forall_cons in Hl' as [? Hl']. rewrite (proj2 (Z.ltb_ge _ _)) by lia.
  rewrite IH by (done || lia). lia.
Qed.

(** The comparison of byte objects of the same size sees their sums only: the
    same bytes in another order are taken for equal. *)
Theorem dss_bytes_reordered p q l l' : l ≡ₚ l' -> Forall (fun b => 0 <= b < 256) l -> 255 * Z.of_nat (length l) <= INT_MAX ->
  opal_dss_compare (Some (At p (OBytes (Z.of_nat (length l)) (Some l)))) (Some (At q (OBytes (Z.of_nat (length l)) (Some l')))) OPAL_BYTE_OBJECT = Ret OPAL_EQUAL.
Proof.
  intros Hp Hl Hb. assert (Hlen : length l = length l') by (by apply Permutation_length).
  assert (Hr : forall m : list Z, length m = length l -> bytes_read (Z.of_nat (length l)) (Some m) = Ret m).
  { intros m Hm. unfold bytes_read. destruct (Z.leb_spec (Z.of_nat (length l)) 0); [destruct m; [done|cbn in Hm; lia]|].
    cbn [deref]. rewrite bind_Ret, (proj2 (Z.ltb_ge _ _)), Nat2Z.id, take_ge by lia. done. }
  cbn. rewrite !Z.ltb_irrefl, !Hr, !bind_Ret by done. rewrite checksum_sum; [|done|done|by rewrite <- Hp|cbn; lia].
  assert (E : foldr Z.add 0 l = foldr Z.add 0 l').
  { clear -Hp. induction Hp; cbn; lia. }
  rewrite E. replace (0 + _ - _) with 0 by lia. done.
Qed.

(** ** Times *)
(** Two times are compared by where they are: equal times at different places
    are different, and a copy never equals its original. *)
Theorem dss_time_by_address p q a b : p <> q -> opal_dss_compare (Some (At p (ONumber a))) (Some (At q (ONumber b))) OPAL_TIME = Ret (differ p q) /\ differ p q <> OPAL_EQUAL.
Proof. intros H. split; [done|]. intros E. by apply H, (tc_eq (c := differ)). Qed.

(** ** Names *)
(** With wildcards the comparison is not transitive: two different names both
    equal the wildcard. *)
Theorem dss_name_not_transitive p : exists x y z, opal_dss_compare (Some (At p x)) (Some (At p y)) OPAL_NAME = Ret OPAL_EQUAL /\
  opal_dss_compare (Some (At p y)) (Some (At p z)) OPAL_NAME = Ret OPAL_EQUAL /\ opal_dss_compare (Some (At p x)) (Some (At p z)) OPAL_NAME = Ret OPAL_VALUE2_GREATER.
Proof. by exists (OName 1 1), (OName 1 OPAL_VPID_WILDCARD), (OName 1 2). Qed.

(** ** Copies are equal *)

(** Objects of the types that are copied field by field. *)
Definition plain_object (type : Z) (o : dss_object) : Prop :=
  match o with
  | ONumber _ => type ∈ number_types \/ type = OPAL_BOOL \/ type = OPAL_JOBID \/ type = OPAL_VPID
  | OReal _ => type = OPAL_FLOAT
  | OText _ => type = OPAL_STRING
  | OTimeval _ _ => type = OPAL_TIMEVAL
  | OName _ _ => type = OPAL_NAME
  | OBytes size bytes => type = OPAL_BYTE_OBJECT /\ exists l, bytes = Some l /\ size = Z.of_nat (length l) /\ Forall (fun b => 0 <= b < 256) l /\ 255 * size <= INT_MAX
  | _ => False
  end.

Lemma dltb_self d : dltb d d = false.
Proof.
  destruct (dltb d d) eqn:E; [|done]. destruct (dltb_nan d d E) as [Hn _]. pose proof (dleb_refl d Hn) as Hr. by rewrite dleb_not_lt, E in Hr.
Qed.

Lemma field_same w a : compare_field w a a = OPAL_EQUAL.
Proof. unfold compare_field. destruct (_ && _); [|done]. by apply (tc_eq (c := differ)). Qed.

Lemma plain_copied malloc_ok i t desc type o : (forall n, malloc_ok n = true) -> plain_object type o ->
  opal_dss_copy malloc_ok i t desc true true (Some o) type = Ret (OPAL_SUCCESS, Some o).
Proof.
  intros Hm Ho. destruct o; try done; cbn [plain_object] in Ho.
  - destruct Ho as [Ht|[->|[->| ->]]]; [|done..]. repeat (apply elem_of_cons in Ht as [->|Ht]; [done|]). by apply elem_of_nil in Ht.
  - by subst.
  - by subst.
  - by subst.
  - destruct Ho as (-> & l & -> & -> & _). cbn. rewrite Hm. cbn. rewrite (proj2 (Z.ltb_ge _ 0)), Z.ltb_irrefl by lia. cbn. by rewrite Nat2Z.id, firstn_all.
  - by subst.
Qed.

Lemma plain_same p q type o : plain_object type o -> opal_dss_compare (Some (At p o)) (Some (At q o)) type = Ret OPAL_EQUAL.
Proof.
  intros Ho. pose proof (dss_compare_orders p q) as (Hn & Htv & Hs). destruct o; try done; cbn [plain_object] in Ho.
  - destruct Ho as [Ht|[->|[->| ->]]].
    + rewrite Hn by done. f_equal. by apply (tc_eq (c := differ)).
    + cbn. by destruct (z =? 0).
    + cbn. by rewrite field_same.
    + cbn. by rewrite field_same.
  - subst. cbn. by rewrite !dltb_self.
  - subst. rewrite Hs. f_equal. by apply (tc_eq (c := strcmp)).
  - subst. rewrite Htv. f_equal. by apply (tc_eq (c := lex differ differ)).
  - destruct Ho as (-> & l & -> & -> & Hl & Hb). by apply dss_bytes_reordered.
  - subst. cbn. by rewrite !field_same.
Qed.

(** A copy of a number, text, time of day, byte object or name succeeds, and
    the comparison finds it equal to the original, wherever the two are. *)
Theorem dss_copy_equal malloc_ok i t desc type o p q : (forall n, malloc_ok n = true) -> plain_object type o ->
  exists o', opal_dss_copy malloc_ok i t desc true true (Some o) type = Ret (OPAL_SUCCESS, Some o') /\
    opal_dss_compare (Some (At p o)) (Some (At q o')) type = Ret OPAL_EQUAL.
Proof. intros Hm Ho. exists o. split; [by apply plain_copied|by apply plain_same]. Qed.

(** A [double] can be compared and not copied. *)
Theorem dss_double_not_copied malloc_ok i t desc d : opal_dss_copy malloc_ok i t desc true true (Some (OReal d)) OPAL_DOUBLE = Ret (OPAL_ERR_UNKNOWN_DATA_TYPE, None).
Proof. reflexivity. Qed.

(** The copy of the statistics of a process loses the share of the processor
    it used, that of a node what is known of its disks and interfaces. *)
Theorem dss_stats_lost malloc_ok i t desc s n : exists s' n',
  opal_dss_copy malloc_ok i t desc true true (Some (OPstat s)) OPAL_PSTAT = Ret (OPAL_SUCCESS, Some (OPstat s')) /\ ps_percent_cpu s' = d0 /\
  opal_dss_copy malloc_ok i t desc true true (Some (ONodeStat n)) OPAL_NODE_STAT = Ret (OPAL_SUCCESS, Some (ONodeStat n')) /\
  ns_diskstats n' = [] /\ ns_netstats n' = [] /\ ns_swap_free n' = d0.
Proof. by eexists _, _. Qed.
