(* ===== verification/ConfigPack.v ===== *)
(** * Packing of configurations ([cfgi_dt_fns.c])

    Nodes, racks, rows and clusters are packed from the top of the tree to its
    leaves, every level with its name, its controller and the number of its
    children.  The functions for a level call [opal_dss_pack_buffer] for the
    level below, so that in a fully described buffer every object carries its
    type.

    A string that is appended to an argument array is copied with [strdup], so
    the readers can reach undefined behaviour; they work in [outcome]. *)

From S2P Require Import Prelude CString Argv NameFns Dss DssFormat DssRoundtrip DssValue DssText ScdPack.
From S2P Require Import Config ConfigProps.
From stdpp Require Import base strings numbers list.
From Stdlib Require Import ZArith Lia Ascii.

Open Scope Z_scope.

Definition ORCM_NODE : Z := 152.
Definition ORCM_RACK : Z := 153.
Definition ORCM_ROW : Z := 154.
Definition ORCM_CLUSTER : Z := 155.
Definition ORCM_SCHEDULER : Z := 156.

(** ** Readers that may reach undefined behaviour *)
Fixpoint bind_each {A} (f : opal_buffer_t -> outcome (unpacked A)) (n : nat) (b : opal_buffer_t)
    : outcome (unpacked (list A)) :=
  match n with
  | O => Ret (OPAL_SUCCESS, Some [], b)
  | S n' => unpack_bind (f b) (fun a b => unpack_bind (bind_each f n' b) (fun l b => Ret (OPAL_SUCCESS, Some (a :: l), b)))
  end.

(** [strdup] of an unpacked string. *)
Definition text_of_array (a : option (list Z)) : outcome cstr :=
  match a with
  | None => Ub
  | Some a => match c_strlen a with Some n => Ret ((fun z => ascii_of_N (Z.to_N z)) <$> take n a) | None => Ub end
  end.

(** ** The fields in the order they are packed *)
Definition string_field (s : option cstr) : dss_data * Z := (DStr [c_array s], OPAL_STRING).
Definition count_field (n : Z) : dss_data * Z := (D32 [u32 n], OPAL_INT32).
Definition int8_field (z : Z) : dss_data * Z := (D8 [wrap 8 z], OPAL_INT8).

Definition args_fields (v : argv_t) : list (dss_data * Z) :=
  let k := i32 (opal_argv_count v) in
  count_field k :: (if 0 <? k then (fun s => string_field (Some s)) <$> argv_list v else []).

Definition config_fields (config : orcm_config_t) : list (dss_data * Z) :=
  args_fields (cf_mca_params config) ++ args_fields (cf_env config) ++
  [string_field (cf_port config); (D8 [of_bool (cf_aggregator config)], OPAL_BOOL)].

Definition node_fields (node : orcm_node_t) : list (dss_data * Z) :=
  [string_field (nd_name node); (DName [nd_daemon node], ORTE_NAME)] ++ config_fields (nd_config node) ++
  [int8_field (nd_state node); int8_field (nd_scd_state node)].

Section ConfigPack.
Variable malloc_ok : Z -> bool.
Variables opal_dss_initial_size opal_dss_threshold_size : Z.
Variable registered : Z -> bool.
Variable other_pack : Z -> opal_buffer_t -> dss_data -> outcome (Z * opal_buffer_t).
Variable other_unpack : Z -> opal_buffer_t -> Z -> Z * option dss_data * opal_buffer_t.
Variables sizeof_node sizeof_rack sizeof_row sizeof_cluster sizeof_scheduler : Z.

Abbreviation opal_dss_pack_buffer' :=
  (opal_dss_pack_buffer malloc_ok opal_dss_initial_size opal_dss_threshold_size registered other_pack).
Abbreviation opal_dss_unpack_buffer' := (opal_dss_unpack_buffer malloc_ok registered other_unpack).
Abbreviation describe' := (describe malloc_ok opal_dss_initial_size opal_dss_threshold_size registered).
Abbreviation unpack_fields' := (unpack_fields malloc_ok registered other_unpack).

(** ** Packing *)
Definition pack_fields (b : opal_buffer_t) (fs : list (dss_data * Z)) : outcome (Z * opal_buffer_t) :=
  pack_each (fun b f => opal_dss_pack_buffer' b f.1 f.2) b fs.

Definition orcm_pack_node (b : opal_buffer_t) (src : list orcm_node_t) : outcome (Z * opal_buffer_t) :=
  pack_each (fun b node => pack_fields b (node_fields node)) b src.
Definition pack_node_buffer (b : opal_buffer_t) (node : orcm_node_t) : outcome (Z * opal_buffer_t) :=
  describe' b ORCM_NODE (fun b => orcm_pack_node b [node]).

(** A name, a controller, the number of children, the children. *)
Definition pack_parts {A} (pack_child : opal_buffer_t -> A -> outcome (Z * opal_buffer_t)) (b : opal_buffer_t)
    (name : option cstr) (controller : orcm_node_t) (children : list A) : outcome (Z * opal_buffer_t) :=
  pack_then (pack_fields b [string_field name]) (fun b =>
  pack_then (pack_node_buffer b controller) (fun b =>
  pack_then (pack_fields b [count_field (i32 (Z.of_nat (length children)))]) (fun b =>
  pack_each pack_child b children))).

Definition orcm_pack_rack (b : opal_buffer_t) (src : list orcm_rack_t) : outcome (Z * opal_buffer_t) :=
  pack_each (fun b r => pack_parts pack_node_buffer b (rk_name r) (rk_controller r) (rk_nodes r)) b src.
Definition pack_rack_buffer (b : opal_buffer_t) (rack : orcm_rack_t) : outcome (Z * opal_buffer_t) :=
  describe' b ORCM_RACK (fun b => orcm_pack_rack b [rack]).

Definition orcm_pack_row (b : opal_buffer_t) (src : list orcm_row_t) : outcome (Z * opal_buffer_t) :=
  pack_each (fun b r => pack_parts pack_rack_buffer b (rw_name r) (rw_controller r) (rw_racks r)) b src.
Definition pack_row_buffer (b : opal_buffer_t) (row : orcm_row_t) : outcome (Z * opal_buffer_t) :=
  describe' b ORCM_ROW (fun b => orcm_pack_row b [row]).

Definition orcm_pack_cluster (b : opal_buffer_t) (src : list orcm_cluster_t) : outcome (Z * opal_buffer_t) :=
  pack_each (fun b c => pack_parts pack_row_buffer b (cl_name c) (cl_controller c) (cl_rows c)) b src.

Definition orcm_pack_scheduler (b : opal_buffer_t) (src : list orcm_scheduler_t) : outcome (Z * opal_buffer_t) :=
  pack_each (fun b s => pack_then (pack_node_buffer b (sc_controller s)) (fun b => pack_fields b (args_fields (sc_queues s))))
    b src.

(** ** Unpacking *)
Definition unpack_count (b : opal_buffer_t) : unpacked Z :=
  unpack_then (opal_dss_unpack_buffer' b 1 OPAL_INT32) (fun d b =>
    match d with D32 [z] => (OPAL_SUCCESS, Some (i32 z), b) | _ => (OPAL_ERROR, None, b) end).

Fixpoint unpack_strings (n : nat) (argv : argv_t) (b : opal_buffer_t) : outcome (unpacked argv_t) :=
  match n with
  | O => Ret (OPAL_SUCCESS, Some argv, b)
  | S n' =>
    unpack_bind (Ret (opal_dss_unpack_buffer' b 1 OPAL_STRING)) (fun d b =>
      match d with
      | DStr [tmp] => arg ← text_of_array tmp; unpack_strings n' (opal_argv_append_nosize argv arg).2 b
      | _ => Ret (OPAL_ERROR, None, b)
      end)
  end.

Definition unpack_args (b : opal_buffer_t) : outcome (unpacked argv_t) :=
  unpack_bind (Ret (unpack_count b)) (fun k b => unpack_strings (Z.to_nat k) None b).

Definition unpack_config (b : opal_buffer_t) : outcome (unpacked orcm_config_t) :=
  unpack_bind (unpack_args b) (fun mca_params b =>
  unpack_bind (unpack_args b) (fun env b =>
  unpack_bind (Ret (unpack_fields' [OPAL_STRING; OPAL_BOOL] b)) (fun l b =>
    match l with
    | [DStr [port]; D8 [aggregator]] =>
      Ret (OPAL_SUCCESS, Some (MkConfig mca_params env (of_c_array port) (negb (aggregator =? 0))), b)
    | _ => Ret (OPAL_ERROR, None, b)
    end))).

Definition unpack_one_node (b : opal_buffer_t) : outcome (unpacked orcm_node_t) :=
  if negb (malloc_ok sizeof_node) then Ret (OPAL_ERR_OUT_OF_RESOURCE, None, b)
  else
    unpack_bind (Ret (unpack_fields' [OPAL_STRING; ORTE_NAME] b)) (fun l b =>
    unpack_bind (unpack_config b) (fun config b =>
    unpack_bind (Ret (unpack_fields' [OPAL_INT8; OPAL_INT8] b)) (fun l' b =>
      match l, l' with
      | [DStr [name]; DName [daemon]], [D8 [state]; D8 [scd_state]] =>
        Ret (OPAL_SUCCESS, Some (MkNode (of_c_array name) daemon config (sgn 8 state) (sgn 8 scd_state) 0), b)
      | _, _ => Ret (OPAL_ERROR, None, b)
      end))).

Definition orcm_unpack_node (b : opal_buffer_t) (num_vals : Z) : outcome (unpacked (list orcm_node_t)) :=
  bind_each unpack_one_node (Z.to_nat num_vals) b.

(** [opal_dss_unpack_buffer(buffer, &object, &n, type)] with [n] one. *)
Definition unpack_object {A} (type : Z) (unpack : opal_buffer_t -> Z -> outcome (unpacked (list A))) (b : opal_buffer_t)
    : outcome (unpacked A) :=
  let k b := unpack_bind (unpack b 1) (fun l b =>
    match l with [x] => Ret (OPAL_SUCCESS, Some x, b) | _ => Ret (OPAL_ERROR, None, b) end) in
  if b_desc b then
    unpack_bind (Ret (opal_dss_get_data_type registered b)) (fun t b =>
      if t =? type then k b else Ret (OPAL_ERR_PACK_MISMATCH, None, b))
  else k b.

Definition unpack_parts {A B} (size : Z) (unpack_child : opal_buffer_t -> outcome (unpacked A))
    (mk : option cstr -> orcm_node_t -> list A -> B) (b : opal_buffer_t) : outcome (unpacked B) :=
  if negb (malloc_ok size) then Ret (OPAL_ERR_OUT_OF_RESOURCE, None, b)
  else
    unpack_bind (Ret (opal_dss_unpack_buffer' b 1 OPAL_STRING)) (fun d b =>
    unpack_bind (unpack_object ORCM_NODE orcm_unpack_node b) (fun controller b =>
    unpack_bind (Ret (unpack_count b)) (fun j b =>
    unpack_bind (bind_each unpack_child (Z.to_nat j) b) (fun children b =>
      match d with
      | DStr [name] => Ret (OPAL_SUCCESS, Some (mk (of_c_array name) controller children), b)
      | _ => Ret (OPAL_ERROR, None, b)
      end)))).

Definition orcm_unpack_rack (b : opal_buffer_t) (num_vals : Z) : outcome (unpacked (list orcm_rack_t)) :=
  bind_each (unpack_parts sizeof_rack (unpack_object ORCM_NODE orcm_unpack_node) MkRack) (Z.to_nat num_vals) b.
Definition orcm_unpack_row (b : opal_buffer_t) (num_vals : Z) : outcome (unpacked (list orcm_row_t)) :=
  bind_each (unpack_parts sizeof_row (unpack_object ORCM_RACK orcm_unpack_rack) MkRow) (Z.to_nat num_vals) b.
Definition orcm_unpack_cluster (b : opal_buffer_t) (num_vals : Z) : outcome (unpacked (list orcm_cluster_t)) :=
  bind_each (unpack_parts sizeof_cluster (unpack_object ORCM_ROW orcm_unpack_row) MkCluster) (Z.to_nat num_vals) b.

(** All objects are created; then the last one is filled. *)
Definition orcm_unpack_scheduler (b : opal_buffer_t) (num_vals : Z) : outcome (unpacked (list orcm_scheduler_t)) :=
  match Z.to_nat num_vals with
  | O => Ret (OPAL_ERR_OUT_OF_RESOURCE, None, b)
  | S n =>
    if negb (malloc_ok sizeof_scheduler) then Ret (OPAL_ERR_OUT_OF_RESOURCE, None, b)
    else
      unpack_bind (unpack_object ORCM_NODE orcm_unpack_node b) (fun controller b =>
      unpack_bind (unpack_args b) (fun queues b =>
        Ret (OPAL_SUCCESS, Some (replicate n sc_con ++ [MkScheduler controller queues]), b)))
  end.
End ConfigPack.
