(* ===== verification/ConfigRoundtrip.v ===== *)
(** * Configurations survive the trip

    The format of each object, that packing produces it, and that unpacking
    reads it back.  Lost on the way are the number of processing elements,
    which is not packed, and the difference between an empty and a missing
    argument array. *)

From S2P Require Import Prelude CString Argv NameFns Dss DssFormat DssRoundtrip DssValue DssText ScdPack.
From S2P Require Import Config ConfigProps ConfigPack.
From stdpp Require Import base strings numbers sets list.
From Stdlib Require Import ZArith Lia Ascii.

Open Scope Z_scope.

(** ** What can be packed *)
Definition int8 (z : Z) : Prop := - 2 ^ 7 <= z < 2 ^ 7.

Definition args_wf (v : argv_t) : Prop :=
  Forall (fun s => cstr_ok (Some s)) (argv_list v) /\ opal_argv_count v <= INT_MAX.

Record node_wf (n : orcm_node_t) : Prop := {
  nw_name : cstr_ok (nd_name n);
  nw_daemon : name_ok (nd_daemon n);
  nw_mca : args_wf (cf_mca_params (nd_config n));
  nw_env : args_wf (cf_env (nd_config n));
  nw_port : cstr_ok (cf_port (nd_config n));
  nw_state : int8 (nd_state n);
  nw_scd : int8 (nd_scd_state n)
}.

Definition parts_wf {A} (child : A -> Prop) (name : option cstr) (controller : orcm_node_t) (children : list A) : Prop :=
  cstr_ok name /\ node_wf controller /\ Forall child children /\ Z.of_nat (length children) <= INT_MAX.

Definition rack_wf (r : orcm_rack_t) : Prop := parts_wf node_wf (rk_name r) (rk_controller r) (rk_nodes r).
Definition row_wf (r : orcm_row_t) : Prop := parts_wf rack_wf (rw_name r) (rw_controller r) (rw_racks r).
Definition cluster_wf (c : orcm_cluster_t) : Prop := parts_wf row_wf (cl_name c) (cl_controller c) (cl_rows c).
Definition scheduler_wf (s : orcm_scheduler_t) : Prop := node_wf (sc_controller s) /\ args_wf (sc_queues s).

(** ** What arrives *)
Definition args_received (v : argv_t) : argv_t := match argv_list v with [] => None | l => Some l end.

Definition node_received (n : orcm_node_t) : orcm_node_t :=
  let c := nd_config n in
  MkNode (nd_name n) (nd_daemon n)
    (MkConfig (args_received (cf_mca_params c)) (args_received (cf_env c)) (cf_port c) (cf_aggregator c))
    (nd_state n) (nd_scd_state n) 0.

Definition rack_received (r : orcm_rack_t) : orcm_rack_t :=
  MkRack (rk_name r) (node_received (rk_controller r)) (node_received <$> rk_nodes r).
Definition row_received (r : orcm_row_t) : orcm_row_t :=
  MkRow (rw_name r) (node_received (rw_controller r)) (rack_received <$> rw_racks r).
Definition cluster_received (c : orcm_cluster_t) : orcm_cluster_t :=
  MkCluster (cl_name c) (node_received (cl_controller c)) (row_received <$> cl_rows c).
Definition scheduler_received (s : orcm_scheduler_t) : orcm_scheduler_t :=
  MkScheduler (node_received (sc_controller s)) (args_received (sc_queues s)).

(** ** Reading several things *)
Lemma reads_ext {A} desc (f g : opal_buffer_t -> outcome (unpacked A)) bs v :
  (forall b, readable desc b -> f b = g b) -> reads desc g bs v -> reads desc f bs v.
Proof. intros Hfg Hg b rest Hsz Hb E. rewrite Hfg by done. by apply (Hg b rest). Qed.

Lemma reads_each {A B} desc (f : opal_buffer_t -> outcome (unpacked B)) (enc : A -> list Z) g l :
  (forall x, x ∈ l -> reads desc f (enc x) (g x)) -> reads desc (bind_each f (length l)) (l ≫= enc) (g <$> l).
Proof.
  induction l as [|x l IH]; intros Hf; [apply reads_ret|]. rewrite bind_cons, fmap_cons. cbn [length bind_each].
  eapply reads_bind; [apply Hf; set_solver|]. cbn beta. rewrite <- (app_nil_r (l ≫= enc)).
  eapply reads_bind; [apply IH; set_solver|]. apply reads_ret.
Qed.

(** One value with its type in front. *)
Lemma reads_object {A} registered desc type (unpack : opal_buffer_t -> Z -> outcome (unpacked (list A))) bs v :
  reads desc (fun b => unpack b 1) bs [v] ->
  reads desc (unpack_object registered type unpack) (tag desc type ++ bs) v.
Proof.
  intros Hu. assert (Hk : reads desc (fun b => unpack_bind (unpack b 1) (fun l b =>
    match l with [x] => Ret (OPAL_SUCCESS, Some x, b) | _ => Ret (OPAL_ERROR, None, b) end)) bs v).
  { rewrite <- (app_nil_r bs). eapply reads_bind; [exact Hu|]. apply reads_ret. }
  eapply reads_ext; [intros b [Hd _]; unfold unpack_object; rewrite Hd; reflexivity|].
  destruct desc; cbn [tag]; [|exact Hk]. eapply reads_bind; [apply reads_codec, codec_type|]. cbn beta.
  by rewrite Z.eqb_refl.
Qed.

Section Trip.
Context (malloc_ok : Z -> bool) (initial threshold : Z) (registered : Z -> bool).
Context (other_pack : Z -> opal_buffer_t -> dss_data -> outcome (Z * opal_buffer_t)).
Context (other_unpack : Z -> opal_buffer_t -> Z -> Z * option dss_data * opal_buffer_t).
Context (size_node size_rack size_row size_cluster size_scheduler : Z).
Hypothesis Hmalloc : forall n, malloc_ok n = true.
Hypothesis Hinitial : 0 < initial < 2 ^ 31.
Hypothesis Hthreshold : 0 < threshold < 2 ^ 31.

Abbreviation enc_buffer := (enc_buffer registered).
Abbreviation field_ok := (fun f => type_ok registered f.2 f.1 /\ data_length f.1 = 1%nat).
Abbreviation pack_fields' := (pack_fields malloc_ok initial threshold registered other_pack).
Abbreviation pack_node' := (pack_node_buffer malloc_ok initial threshold registered other_pack).
Abbreviation unpack_node' := (orcm_unpack_node malloc_ok registered other_unpack size_node).

(** ** Format *)
Definition enc_fields (desc : bool) (fs : list (dss_data * Z)) : list Z := fs ≫= fun f => enc_buffer desc f.2 f.1.

Definition enc_node (desc : bool) (n : orcm_node_t) : list Z := tag desc ORCM_NODE ++ enc_fields desc (node_fields n).

Definition enc_parts {A} (desc : bool) (enc : A -> list Z) (name : option cstr) (controller : orcm_node_t)
    (children : list A) : list Z :=
  enc_fields desc [string_field name] ++ enc_node desc controller ++
  enc_fields desc [count_field (i32 (Z.of_nat (length children)))] ++ (children ≫= enc).

Definition enc_rack (desc : bool) (r : orcm_rack_t) : list Z :=
  enc_parts desc (enc_node desc) (rk_name r) (rk_controller r) (rk_nodes r).
Definition enc_row (desc : bool) (r : orcm_row_t) : list Z :=
  enc_parts desc (fun k => tag desc ORCM_RACK ++ enc_rack desc k) (rw_name r) (rw_controller r) (rw_racks r).
Definition enc_cluster (desc : bool) (c : orcm_cluster_t) : list Z :=
  enc_parts desc (fun r => tag desc ORCM_ROW ++ enc_row desc r) (cl_name c) (cl_controller c) (cl_rows c).
Definition enc_scheduler (desc : bool) (s : orcm_scheduler_t) : list Z :=
  enc_node desc (sc_controller s) ++ enc_fields desc (args_fields (sc_queues s)).

(** ** Fields *)
Lemma string_ok s : cstr_ok s -> field_ok (string_field s).
Proof. apply field_string. Qed.

Lemma count_ok z : field_ok (count_field z).
Proof. apply field_int32. Qed.

Lemma int8_ok z : field_ok (int8_field z).
Proof. done. Qed.

Lemma args_count v : args_wf v -> i32 (opal_argv_count v) = opal_argv_count v.
Proof. intros [_ Hc]. apply i32_small. unfold opal_argv_count, INT_MIN in *. lia. Qed.

Lemma args_fields_eq v : args_wf v ->
  args_fields v = count_field (opal_argv_count v) :: ((fun s => string_field (Some s)) <$> argv_list v).
Proof.
  intros Hv. unfold args_fields. rewrite args_count by done. f_equal. unfold opal_argv_count.
  by destruct (argv_list v).
Qed.

Lemma args_fields_ok v : args_wf v -> Forall field_ok (args_fields v).
Proof.
  intros Hv. rewrite args_fields_eq by done. constructor; [apply count_ok|].
  apply Forall_fmap. eapply Forall_imp; [|apply Hv]. intros s Hs. by apply string_ok.
Qed.

Lemma node_fields_ok n : node_wf n -> Forall field_ok (node_fields n).
Proof.
  intros [Hn Hd Hm He Hp _ _]. unfold node_fields, config_fields.
  repeat (apply Forall_app; split); try (by apply args_fields_ok).
  - constructor; [by apply string_ok|]. constructor; [by apply field_name|constructor].
  - constructor; [by apply string_ok|]. constructor; [done|constructor].
  - by repeat constructor.
Qed.

(** ** Packing *)
Lemma pack_fields_packs b fs : Forall field_ok fs -> packs b (enc_fields (b_desc b) fs) (pack_fields' b fs).
Proof.
  intros Hfs. apply packs_each. intros b1 f Hf <-. apply pack_buffer_packs; [done..|].
  by eapply Forall_forall in Hfs as [? _].
Qed.

(** An array of one object. *)
Lemma pack_one {A} (f : opal_buffer_t -> A -> outcome (Z * opal_buffer_t)) enc b x type :
  (forall b', b_desc b' = b_desc b -> packs b' (enc x) (f b' x)) ->
  packs b (tag (b_desc b) type ++ enc x)
    (describe malloc_ok initial threshold registered b type (fun b => pack_each f b [x])).
Proof.
  intros Hf. apply packs_describe; [done..|]. intros b1 Hb1. rewrite <- (bind_one enc). apply packs_each.
  intros b2 y Hy Hb2. apply list_elem_of_singleton in Hy as ->. apply Hf. congruence.
Qed.

Lemma pack_node_packs b n : node_wf n -> packs b (enc_node (b_desc b) n) (pack_node' b n).
Proof.
  intros Hn. apply (pack_one _ (fun n => enc_fields (b_desc b) (node_fields n))). intros b1 <-.
  by apply pack_fields_packs, node_fields_ok.
Qed.

Lemma pack_parts_packs {A} (pack_child : opal_buffer_t -> A -> outcome (Z * opal_buffer_t)) enc child b name controller children :
  parts_wf child name controller children ->
  (forall b' x, b_desc b' = b_desc b -> child x -> packs b' (enc x) (pack_child b' x)) ->
  packs b (enc_parts (b_desc b) enc name controller children)
    (pack_parts malloc_ok initial threshold registered other_pack pack_child b name controller children).
Proof.
  intros (Hn & Hc & Hch & _) Hp. unfold enc_parts, pack_parts.
  apply packs_then; [apply pack_fields_packs; constructor; [by apply string_ok|constructor]|]. intros b1 Hb1.
  rewrite <- Hb1. apply packs_then; [by apply pack_node_packs|]. intros b2 Hb2. rewrite <- Hb2.
  apply packs_then; [apply pack_fields_packs; constructor; [apply count_ok|constructor]|]. intros b3 Hb3.
  apply packs_each. intros b4 x Hx Hb4. apply Hp; [congruence|]. by eapply Forall_forall in Hch.
Qed.

Lemma pack_rack_packs b r : rack_wf r ->
  packs b (enc_rack (b_desc b) r)
    (pack_parts malloc_ok initial threshold registered other_pack pack_node' b (rk_name r) (rk_controller r) (rk_nodes r)).
Proof. intros Hr. eapply pack_parts_packs; [exact Hr|]. intros b1 x <- Hx. by apply pack_node_packs. Qed.

Lemma pack_row_packs b r : row_wf r ->
  packs b (enc_row (b_desc b) r)
    (pack_parts malloc_ok initial threshold registered other_pack
      (pack_rack_buffer malloc_ok initial threshold registered other_pack) b (rw_name r) (rw_controller r) (rw_racks r)).
Proof.
  intros Hr. eapply pack_parts_packs; [exact Hr|]. intros b1 x <- Hx.
  apply (pack_one _ (enc_rack (b_desc b1))). intros b2 <-. by apply pack_rack_packs.
Qed.

Lemma pack_cluster_packs b c : cluster_wf c ->
  packs b (enc_cluster (b_desc b) c)
    (pack_parts malloc_ok initial threshold registered other_pack
      (pack_row_buffer malloc_ok initial threshold registered other_pack) b (cl_name c) (cl_controller c) (cl_rows c)).
Proof.
  intros Hr. eapply pack_parts_packs; [exact Hr|]. intros b1 x <- Hx.
  apply (pack_one _ (enc_row (b_desc b1))). intros b2 <-. by apply pack_row_packs.
Qed.

(** ** Unpacking *)
Lemma reads_fields desc fs : Forall field_ok fs ->
  reads desc (fun b => Ret (unpack_fields malloc_ok registered other_unpack fs.*2 b)) (enc_fields desc fs) (canon <$> fs.*1).
Proof. intros Hfs. apply reads_codec. by apply codec_fields. Qed.

Lemma reads_count desc z : int32 z ->
  reads desc (fun b => Ret (unpack_count malloc_ok registered other_unpack b)) (enc_fields desc [count_field z]) z.
Proof.
  intros Hz. apply reads_codec. unfold enc_fields. rewrite bind_one. cbn [fst snd count_field].
  rewrite <- (app_nil_r (enc_buffer desc OPAL_INT32 _)). unfold unpack_count.
  eapply codec_then; [apply codec_buffer; [done|apply count_ok|done]|]. cbn [canon]. rewrite i32_u32 by done. apply codec_ret.
Qed.

Lemma text_array s : cstr_ok (Some s) -> text_of_array (option_map trim (c_array (Some s))) = Ret s.
Proof.
  intros Hs. pose proof (c_array_back (Some s) Hs) as Hb. cbn [c_array option_map of_c_array] in Hb |- *.
  unfold text_of_array. destruct Hs as [Hs _]. unfold trim in *. rewrite c_strlen_array in * by done.
  rewrite take_ge in * by (rewrite length_app, length_fmap; cbn; lia). rewrite c_strlen_array in * by done.
  by injection Hb as ->.
Qed.

Definition args_append (v : argv_t) (l : list cstr) : argv_t :=
  match l with [] => v | _ => Some (argv_list v ++ l) end.

Lemma append_args v a l : args_append (opal_argv_append_nosize v a).2 l = args_append v (a :: l).
Proof. destruct v as [v|], l as [|x l]; cbn; rewrite <- ?app_assoc; done. Qed.

Lemma reads_strings desc l v : Forall (fun s => cstr_ok (Some s)) l ->
  reads desc (unpack_strings malloc_ok registered other_unpack (length l) v)
    (enc_fields desc ((fun s => string_field (Some s)) <$> l)) (args_append v l).
Proof.
  intros Hl. revert v. induction Hl as [|s l Hs Hl IH]; intros v; [apply reads_ret|].
  unfold enc_fields. rewrite fmap_cons, bind_cons. cbn [length unpack_strings string_field fst snd].
  eapply reads_bind; [apply reads_codec, codec_buffer; [done|by apply (string_ok (Some s))|done]|].
  cbn [canon fmap list_fmap]. eapply reads_ext; [intros b _; rewrite text_array, bind_Ret by done; reflexivity|].
  rewrite <- append_args. apply IH.
Qed.

Lemma reads_args desc v : args_wf v ->
  reads desc (unpack_args malloc_ok registered other_unpack) (enc_fields desc (args_fields v)) (args_received v).
Proof.
  intros Hv. rewrite args_fields_eq by done.
  change (enc_fields desc (count_field (opal_argv_count v) :: ((fun s => string_field (Some s)) <$> argv_list v))) with
    (enc_buffer desc (count_field (opal_argv_count v)).2 (count_field (opal_argv_count v)).1 ++
     enc_fields desc ((fun s => string_field (Some s)) <$> argv_list v)).
  rewrite <- (bind_one (fun f => enc_buffer desc f.2 f.1)).
  eapply reads_bind; [apply reads_count; destruct Hv; unfold int32, opal_argv_count, INT_MIN in *; lia|]. cbn beta.
  unfold opal_argv_count. rewrite Nat2Z.id.
  replace (args_received v) with (args_append None (argv_list v)) by (unfold args_received; by destruct (argv_list v)).
  apply reads_strings, Hv.
Qed.

Lemma enc_fields_app desc fs gs : enc_fields desc (fs ++ gs) = enc_fields desc fs ++ enc_fields desc gs.
Proof. apply bind_app. Qed.

Lemma reads_config desc n : node_wf n ->
  reads desc (unpack_config malloc_ok registered other_unpack) (enc_fields desc (config_fields (nd_config n)))
    (nd_config (node_received n)).
Proof.
  intros Hn. unfold config_fields. rewrite !enc_fields_app. unfold unpack_config.
  eapply reads_bind; [apply reads_args, Hn|]. cbn beta. eapply reads_bind; [apply reads_args, Hn|]. cbn beta.
  rewrite <- (app_nil_r (enc_fields desc [_; _])). eapply reads_bind.
  { apply (reads_fields desc [string_field (cf_port (nd_config n)); (D8 [of_bool (cf_aggregator (nd_config n))], OPAL_BOOL)]).
    constructor; [by apply string_ok, Hn|]. constructor; [done|constructor]. }
  cbn [fmap list_fmap fst string_field canon]. rewrite c_array_back by apply Hn.
  unfold node_received. cbn [nd_config]. destruct (cf_aggregator (nd_config n)); apply reads_ret.
Qed.

Lemma int8_back z : int8 z -> sgn 8 (wrap 8 z) = z.
Proof. intros Hz. apply sgn_wrap; [lia|]. unfold int8 in Hz. lia. Qed.

Lemma reads_one_node desc n : node_wf n ->
  reads desc (unpack_one_node malloc_ok registered other_unpack size_node) (enc_fields desc (node_fields n)) (node_received n).
Proof.
  intros Hn. unfold node_fields. rewrite !enc_fields_app.
  eapply reads_ext; [intros b _; unfold unpack_one_node; rewrite Hmalloc; cbn [negb]; reflexivity|].
  eapply reads_bind.
  { apply (reads_fields desc [string_field (nd_name n); (DName [nd_daemon n], ORTE_NAME)]).
    constructor; [by apply string_ok, Hn|]. constructor; [by apply field_name, Hn|constructor]. }
  cbn beta. eapply reads_bind; [by apply reads_config|]. cbn beta.
  rewrite <- (app_nil_r (enc_fields desc [_; _])). eapply reads_bind.
  { apply (reads_fields desc [int8_field (nd_state n); int8_field (nd_scd_state n)]). by repeat constructor. }
  cbn [fmap list_fmap fst string_field int8_field canon]. rewrite c_array_back, !int8_back by apply Hn. apply reads_ret.
Qed.

Lemma reads_node desc n : node_wf n ->
  reads desc (unpack_object registered ORCM_NODE unpack_node') (enc_node desc n) (node_received n).
Proof.
  intros Hn. apply reads_object. unfold orcm_unpack_node. rewrite <- (bind_one (fun n => enc_fields desc (node_fields n))).
  apply (reads_each desc _ _ node_received [n]). intros x ->%list_elem_of_singleton. by apply reads_one_node.
Qed.

Lemma reads_parts {A B} desc size (unpack_child : opal_buffer_t -> outcome (unpacked A)) (enc : A -> list Z) recv child
    (mk : option cstr -> orcm_node_t -> list A -> B) name controller children :
  parts_wf child name controller children ->
  (forall x, child x -> reads desc unpack_child (enc x) (recv x)) ->
  reads desc (unpack_parts malloc_ok registered other_unpack size_node size unpack_child mk)
    (enc_parts desc enc name controller children) (mk name (node_received controller) (recv <$> children)).
Proof.
  intros (Hn & Hc & Hch & Hl) Hr. unfold enc_parts.
  assert (Hint : int32 (Z.of_nat (length children))) by (unfold int32, INT_MIN in *; lia).
  eapply reads_ext; [intros b _; unfold unpack_parts; rewrite Hmalloc; cbn [negb]; reflexivity|].
  eapply reads_bind.
  { apply reads_codec. unfold enc_fields. rewrite bind_one. apply codec_buffer; [done|by apply string_ok|done]. }
  cbn beta. eapply reads_bind; [by apply reads_node|]. cbn beta.
  rewrite i32_small by exact Hint. eapply reads_bind; [by apply reads_count|]. cbn beta. rewrite Nat2Z.id.
  rewrite <- (app_nil_r (children ≫= enc)). eapply reads_bind.
  { apply (reads_each desc _ _ recv children). intros x Hx. apply Hr. by eapply Forall_forall in Hch. }
  cbn [string_field canon fst fmap list_fmap]. rewrite c_array_back by done. apply reads_ret.
Qed.

Abbreviation unpack_rack' := (orcm_unpack_rack malloc_ok registered other_unpack size_node size_rack).
Abbreviation unpack_row' := (orcm_unpack_row malloc_ok registered other_unpack size_node size_rack size_row).
Abbreviation unpack_cluster' := (orcm_unpack_cluster malloc_ok registered other_unpack size_node size_rack size_row size_cluster).

Lemma reads_list {A B} desc (f : opal_buffer_t -> outcome (unpacked B)) (enc : A -> list Z) recv (l : list A) :
  (forall x, x ∈ l -> reads desc f (enc x) (recv x)) ->
  reads desc (fun b => bind_each f (Z.to_nat (Z.of_nat (length l))) b) (l ≫= enc) (recv <$> l).
Proof. intros Hf. rewrite Nat2Z.id. by apply reads_each. Qed.

Lemma reads_rack desc r : rack_wf r ->
  reads desc (unpack_object registered ORCM_RACK unpack_rack') (tag desc ORCM_RACK ++ enc_rack desc r) (rack_received r).
Proof.
  intros Hr. apply reads_object. rewrite <- (bind_one (enc_rack desc)). apply (reads_list desc _ _ rack_received [r]).
  intros x ->%list_elem_of_singleton. eapply reads_parts; [exact Hr|]. intros n Hn. by apply reads_node.
Qed.

Lemma reads_row desc r : row_wf r ->
  reads desc (unpack_object registered ORCM_ROW unpack_row') (tag desc ORCM_ROW ++ enc_row desc r) (row_received r).
Proof.
  intros Hr. apply reads_object. rewrite <- (bind_one (enc_row desc)). apply (reads_list desc _ _ row_received [r]).
  intros x ->%list_elem_of_singleton. eapply reads_parts; [exact Hr|]. intros k Hk. by apply reads_rack.
Qed.

Lemma reads_clusters desc l : Forall cluster_wf l ->
  reads desc (fun b => unpack_cluster' b (Z.of_nat (length l))) (l ≫= enc_cluster desc) (cluster_received <$> l).
Proof.
  intros Hl. apply reads_list. intros c Hc. eapply Forall_forall in Hl; [|exact Hc].
  eapply reads_parts; [exact Hl|]. intros r Hr. by apply reads_row.
Qed.

(** ** Lookups do not see the difference *)
Lemma tree_received l : tree_nodes (cluster_received <$> l) = node_received <$> tree_nodes l.
Proof.
  assert (Hbind : forall {A B C} (f : A -> list C) (g : B -> list C) (h : A -> B) (k : C -> C) xs,
    (forall x, g (h x) = k <$> f x) -> (h <$> xs) ≫= g = k <$> (xs ≫= f)).
  { intros A B C f g h k xs Hx. induction xs as [|x xs IH]; [done|].
    by rewrite fmap_cons, !bind_cons, fmap_app, Hx, IH. }
  apply Hbind. intros c. unfold cluster_nodes. cbn. f_equal. apply Hbind. intros r. unfold row_nodes. cbn. f_equal.
  apply Hbind. intros k. done.
Qed.

Lemma foreach_fmap {A B R} (f : B -> option R) (g : A -> B) l : foreach f (g <$> l) = foreach (fun x => f (g x)) l.
Proof. induction l as [|x l IH]; cbn; [done|]. by rewrite IH. Qed.

Lemma lookups_received l proc hostname proc0 :
  orcm_cfgi_base_get_proc_hostname (cluster_received <$> l) proc = orcm_cfgi_base_get_proc_hostname l proc /\
  orcm_cfgi_base_get_hostname_proc (cluster_received <$> l) hostname proc0 = orcm_cfgi_base_get_hostname_proc l hostname proc0.
Proof. by rewrite !proc_lookup, !host_lookup, tree_received, !foreach_fmap. Qed.

(** What was appended to a buffer that had been read to its end is there to
    be read. *)
Lemma after_unread b b' bs : after b bs b' -> b_unpack b = length (b_data b) -> unread b' = bs ++ [].
Proof. intros [_ _ _ Hu Hd] Hb. unfold unread. by rewrite Hu, Hb, Hd, drop_app_length, app_nil_r. Qed.

(** C9: a list of clusters packed with [orcm_pack_cluster] and unpacked again gives the same clusters, rows,
    racks and nodes in their order, with their names, daemons, parameters and states, and consumes exactly what was
    packed; only the number of processing elements and empty argument arrays are lost.  The lookups by daemon and by
    host name give the same answers on both sides. *)
Theorem config_roundtrip b l :
  buf_ok b -> b_ptr b = true -> b_unpack b = length (b_data b) -> Forall cluster_wf l ->
  bytes_used b + Z.of_nat (length (l ≫= enc_cluster (b_desc b))) < 2 ^ 62 ->
  exists b' b'', orcm_pack_cluster malloc_ok initial threshold registered other_pack b l = Ret (OPAL_SUCCESS, b') /\
    unpack_cluster' b' (Z.of_nat (length l)) = Ret (OPAL_SUCCESS, Some (cluster_received <$> l), b'') /\
    unread b'' = [] /\
    (forall proc, orcm_cfgi_base_get_proc_hostname (cluster_received <$> l) proc = orcm_cfgi_base_get_proc_hostname l proc) /\
    (forall hostname proc0, orcm_cfgi_base_get_hostname_proc (cluster_received <$> l) hostname proc0 =
       orcm_cfgi_base_get_hostname_proc l hostname proc0).
Proof.
  intros Hb Hp Hu Hok Hsz.
  destruct (packs_each (fun b c => pack_parts malloc_ok initial threshold registered other_pack
      (pack_row_buffer malloc_ok initial threshold registered other_pack) b (cl_name c) (cl_controller c) (cl_rows c))
    (enc_cluster (b_desc b)) l b) as (b' & E & Haf); try done.
  { intros b1 c Hc <-. apply pack_cluster_packs. by eapply Forall_forall in Hok. }
  pose proof (after_unread b b' _ Haf Hu) as Hun. destruct Haf as [Hok' _ Hd _ _].
  exists b'. eexists. split; [exact E|]. split.
  - apply (reads_clusters (b_desc b) l Hok b' []); [|by split; [|apply Hok']|exact Hun].
    unfold bytes_used in Hsz. change (fun x => enc_cluster (b_desc b) x) with (enc_cluster (b_desc b)). lia.
  - split; [by eapply unread_advance|]. split; [intros proc; exact (proj1 (lookups_received l proc [] proc))|intros h p; exact (proj2 (lookups_received l p h p))].
Qed.

(** ** Schedulers *)
Lemma pack_scheduler_packs b s : scheduler_wf s ->
  packs b (enc_scheduler (b_desc b) s)
    (pack_then (pack_node' b (sc_controller s)) (fun b => pack_fields' b (args_fields (sc_queues s)))).
Proof.
  intros [Hn Hq]. apply packs_then; [by apply pack_node_packs|]. intros b1 <-. by apply pack_fields_packs, args_fields_ok.
Qed.

Lemma reads_scheduler desc s n : scheduler_wf s ->
  reads desc (fun b => orcm_unpack_scheduler malloc_ok registered other_unpack size_node size_scheduler b (Z.of_nat (S n)))
    (enc_scheduler desc s) (replicate n sc_con ++ [scheduler_received s]).
Proof.
  intros [Hn Hq].
  eapply reads_ext; [intros b _; unfold orcm_unpack_scheduler; rewrite Nat2Z.id, Hmalloc; cbn [negb]; reflexivity|].
  eapply reads_bind; [by apply reads_node|]. cbn beta. rewrite <- (app_nil_r (enc_fields desc _)).
  eapply reads_bind; [by apply reads_args|]. apply reads_ret.
Qed.

(** [orcm_unpack_scheduler] fills only the last of the objects it creates: one scheduler survives the
    trip, but of several that were packed together the first arrives as the last, the others arrive empty, and
    their bytes stay in the buffer. *)
Theorem config_schedulers_lost b s l :
  buf_ok b -> b_ptr b = true -> b_unpack b = length (b_data b) -> Forall scheduler_wf (s :: l) ->
  bytes_used b + Z.of_nat (length ((s :: l) ≫= enc_scheduler (b_desc b))) < 2 ^ 62 ->
  exists b' b'', orcm_pack_scheduler malloc_ok initial threshold registered other_pack b (s :: l) = Ret (OPAL_SUCCESS, b') /\
    orcm_unpack_scheduler malloc_ok registered other_unpack size_node size_scheduler b' (Z.of_nat (length (s :: l))) =
      Ret (OPAL_SUCCESS, Some (replicate (length l) sc_con ++ [scheduler_received s]), b'') /\
    unread b'' = l ≫= enc_scheduler (b_desc b).
Proof.
  intros Hb Hp Hu Hok Hsz.
  destruct (packs_each (fun b s => pack_then (pack_node' b (sc_controller s)) (fun b => pack_fields' b (args_fields (sc_queues s))))
    (enc_scheduler (b_desc b)) (s :: l) b) as (b' & E & Haf); try done.
  { intros b1 x Hx <-. apply pack_scheduler_packs. by eapply Forall_forall in Hok. }
  pose proof (after_unread b b' _ Haf Hu) as Hun. rewrite app_nil_r, bind_cons in Hun. destruct Haf as [Hok' _ Hd _ _].
  apply Forall_cons_iff in Hok as [Hs _].
  exists b'. eexists. split; [exact E|]. split; [|by eapply unread_advance].
  apply (reads_scheduler (b_desc b) s (length l) Hs b' (l ≫= enc_scheduler (b_desc b))); [|by split; [|apply Hok']|exact Hun].
  rewrite bind_cons, length_app in Hsz. unfold bytes_used in Hsz. lia.
Qed.
End Trip.

(** ** A small configuration *)
Definition sample_node (name : cstr) (vpid : Z) : orcm_node_t :=
  MkNode (Some name) (1, vpid) (MkConfig (Some [cs "sensor=heartbeat"; cs "db=odbc"]) None (Some (cs "55805")) true) 2 (-1) 0.

Definition sample_cluster : orcm_cluster_t :=
  MkCluster (Some (cs "c")) (sample_node (cs "head") 0)
    [MkRow (Some (cs "r")) (sample_node (cs "rowctl") 1)
       [MkRack None (sample_node (cs "rackctl") 2) [sample_node (cs "n1") 3; sample_node (cs "n2") 4]]].

Lemma sample_node_wf name vpid :
  forallb (fun c => negb (Ascii.eqb c zero)) name = true -> Z.of_nat (length name) < INT_MAX -> 0 <= vpid < 256 ->
  node_wf (sample_node name vpid).
Proof.
  intros Hn Hl Hv. split; cbn [sample_node nd_name nd_daemon nd_config nd_state nd_scd_state cf_mca_params cf_env cf_port].
  - by apply cstr_ok_cs.
  - unfold name_ok, fits. cbn [fst snd]. change (256 ^ Z.of_nat 4) with 4294967296. lia.
  - split; [|by vm_compute]. constructor; [|constructor; [|constructor]]; by apply cstr_ok_cs; vm_compute.
  - split; [constructor|by vm_compute].
  - by apply cstr_ok_cs; vm_compute.
  - unfold int8. lia.
  - unfold int8. lia.
Qed.

Lemma sample_cluster_wf : cluster_wf sample_cluster.
Proof.
  assert (Hn : forall s v, s ∈ [cs "head"; cs "rowctl"; cs "rackctl"; cs "n1"; cs "n2"] -> 0 <= v < 256 -> node_wf (sample_node s v)).
  { intros s v Hs Hv. repeat (apply elem_of_cons in Hs as [->|Hs]; [by apply sample_node_wf; vm_compute|]).
    by apply not_elem_of_nil in Hs. }
  assert (Hc : forall s : cstr, forallb (fun c => negb (Ascii.eqb c zero)) s = true -> Z.of_nat (length s) < INT_MAX -> cstr_ok (Some s))
    by (intros; by apply cstr_ok_cs).
  split; [by apply Hc; vm_compute|]. split; [apply Hn; [apply list_elem_of_In; cbn; auto 9|lia]|].
  split; [|by vm_compute]. apply Forall_singleton.
  split; [by apply Hc; vm_compute|]. split; [apply Hn; [apply list_elem_of_In; cbn; auto 9|lia]|].
  split; [|by vm_compute]. apply Forall_singleton.
  split; [done|]. split; [apply Hn; [apply list_elem_of_In; cbn; auto 9|lia]|]. split; [|by vm_compute].
  constructor; [|constructor; [|constructor]]; (apply Hn; [apply list_elem_of_In; cbn; auto 9|lia]).
Qed.

Lemma config_roundtrip_witness :
  exists b' b'', orcm_pack_cluster (fun _ => true) 128 1024 (fun _ => false) fail_pack ready_buffer [sample_cluster] =
      Ret (OPAL_SUCCESS, b') /\
    orcm_unpack_cluster (fun _ => true) (fun _ => false) fail_unpack 64 64 64 64 b' 1 =
      Ret (OPAL_SUCCESS, Some [sample_cluster], b'') /\ unread b'' = [].
Proof.
  destruct (config_roundtrip (fun _ => true) 128 1024 (fun _ => false) fail_pack fail_unpack 64 64 64 64
    ltac:(done) ltac:(lia) ltac:(lia) ready_buffer [sample_cluster] ready_buffer_ok eq_refl eq_refl) as (b' & b'' & E1 & E2 & E3 & _).
  - apply Forall_singleton, sample_cluster_wf.
  - by vm_compute.
  - exists b', b''. split; [exact E1|]. split; [exact E2|exact E3].
Defined.

Lemma config_schedulers_lost_witness :
  let s1 := MkScheduler (sample_node (cs "s1") 1) (Some [cs "fast"]) in
  let s2 := MkScheduler (sample_node (cs "s2") 2) (Some [cs "slow"]) in
  exists b' b'', orcm_pack_scheduler (fun _ => true) 128 1024 (fun _ => false) fail_pack ready_buffer [s1; s2] =
      Ret (OPAL_SUCCESS, b') /\
    orcm_unpack_scheduler (fun _ => true) (fun _ => false) fail_unpack 64 64 b' 2 =
      Ret (OPAL_SUCCESS, Some [sc_con; s1], b'') /\ unread b'' <> [].
Proof.
  intros s1 s2.
  destruct (config_schedulers_lost (fun _ => true) 128 1024 (fun _ => false) fail_pack fail_unpack 64 64
    ltac:(done) ltac:(lia) ltac:(lia) ready_buffer s1 [s2] ready_buffer_ok eq_refl eq_refl) as (b' & b'' & E1 & E2 & E3).
  - constructor; [|constructor; [|constructor]]; (split; [by apply sample_node_wf; vm_compute|split; [|by vm_compute]]);
      (constructor; [by apply cstr_ok_cs; vm_compute|constructor]).
  - by vm_compute.
  - exists b', b''. split; [exact E1|]. split; [exact E2|]. rewrite E3. by vm_compute.
Defined.
