(* ===== verification/SensorTool.v ===== *)
(** * The sensor commands of the operator's tool ([orcm/tools/octl/sensor.c])

    A command goes to every node of a list: the tool packs one message, looks
    up the daemon of a node in the configuration, sends the message, waits and
    reads the answer.  One buffer receives all answers, each behind the one
    before.

    Sending and waiting is the class [Network]: the code the tool ends with
    and the answer, if it came.  Node expressions are expanded through the
    class [Expander].  What is shown to the operator is a list. *)

From S2P Require Import Prelude CString Argv Dss DssFormat DssRoundtrip DssClaims DssText DssMessage NameFns Config.
From S2P Require Import AnalyticsFilter Sensor.
From stdpp Require Import base strings numbers list.
From Stdlib Require Import ZArith Lia Ascii.

Open Scope Z_scope.

Class Network (N : Type) : Type := {
  exchange : process_name -> opal_buffer_t -> N -> outcome (Z * option opal_buffer_t * N)
}.

Inductive octl_line : Type :=
| ShowSuccess
| ShowRate (sensor_name : option cstr) (sample_rate : Z)
| ShowSampling (node : cstr) (ok : bool)
| ShowError (key : string).

Section Tool.
Variable malloc_ok : Z -> bool.
Variables opal_dss_initial_size opal_dss_threshold_size : Z.
Variable registered : Z -> bool.
Variable other_pack : Z -> opal_buffer_t -> dss_data -> outcome (Z * opal_buffer_t).
Variable other_unpack : Z -> opal_buffer_t -> Z -> Z * option dss_data * opal_buffer_t.
Variable desc : bool.
Variable orcm_clusters : list orcm_cluster_t.
Context {W N : Type} `{Expander W} `{Network N}.

Abbreviation pack_items := (pack_items malloc_ok opal_dss_initial_size opal_dss_threshold_size registered other_pack).
Abbreviation unpack_int := (unpack_int malloc_ok registered other_unpack).
Abbreviation unpack_string := (unpack_string malloc_ok registered other_unpack).
Abbreviation copy_payload := (opal_dss_copy_payload malloc_ok opal_dss_initial_size opal_dss_threshold_size).

(** One node: the code, the text of the error, and the buffer with the answer
    behind what it holds already. *)
Definition ask_node (buf : opal_buffer_t) (node : cstr) (xfer : opal_buffer_t) (n : N) : outcome (Z * option string * opal_buffer_t * N) :=
  let '(rc, tgt) := orcm_cfgi_base_get_hostname_proc orcm_clusters node (0, 0) in
  if negb (rc =? OPAL_SUCCESS) then Ret (rc, Some "node-notfound", xfer, n)
  else
    '(rc, reply, n) ← exchange tgt buf n;
    if negb (rc =? OPAL_SUCCESS) then Ret (rc, Some "connection-fail", xfer, n)
    else
      reply ← deref reply;
      '(_, xfer) ← copy_payload xfer reply;
      Ret (OPAL_SUCCESS, None, xfer, n).

Fixpoint set_rate_nodes (buf : opal_buffer_t) (nodes : list cstr) (xfer : opal_buffer_t) (n : N) : outcome (Z * list octl_line * N) :=
  match nodes with
  | [] => Ret (OPAL_SUCCESS, [], n)
  | node :: nodes' =>
    '(rc, error, xfer, n) ← ask_node buf node xfer n;
    match error with
    | Some key => Ret (rc, [ShowError key], n)
    | None =>
      let '(rc, result, cnt, xfer) := unpack_int xfer 1 in
      if negb (rc =? OPAL_SUCCESS) then Ret (rc, [ShowError "unpack"], n)
      else
        let result := default OPAL_SUCCESS result in
        if result =? OPAL_SUCCESS then
          '(rc, l, n) ← set_rate_nodes buf nodes' xfer n;
          Ret (rc, ShowSuccess :: l, n)
        else
          '(rc, _, _, _) ← unpack_string xfer cnt None;
          if negb (rc =? OPAL_SUCCESS) then Ret (rc, [ShowError "unpack"], n)
          else Ret (result, if result =? ORCM_ERR_SENSOR_LIMIT_EXCEEDED then [ShowError "sensor_limit_exceeded"] else [], n)
    end
  end.

Definition set_rate_items (cmd : Z) (sensor : cstr) (sample_rate : Z) : list (dss_data * Z) :=
  [byte_item ORCM_SET_SENSOR_COMMAND; byte_item (wrap 8 cmd); text_item (Some sensor); int_item sample_rate].

Definition orcm_octl_sensor_sample_rate_set (cmd : Z) (argv : list cstr) (w : W) (n : N) : outcome (Z * list octl_line * W * N) :=
  match argv with
  | [_; _; _; sensor; text; nodes] =>
    let '(value, convert_flag, _) := strtol10 text in
    let sample_rate := i32 value in
    if negb (bool_decide (convert_flag = [])) || (sample_rate <? 1) then Ret (OPAL_ERR_BAD_PARAM, [ShowError "invalid-sample-rate"], w, n)
    else
      '(_, nodelist, w) ← expand (Some nodes) w;
      match default [] nodelist with
      | [] => Ret (OPAL_ERR_BAD_PARAM, [ShowError "nodelist-notfound"], w, n)
      | nodelist =>
        '(rc, buf) ← pack_items (opal_buffer_construct desc) (set_rate_items cmd sensor sample_rate);
        if negb (rc =? OPAL_SUCCESS) then Ret (rc, [ShowError "pack"], w, n)
        else '(rc, l, n) ← set_rate_nodes buf nodelist (opal_buffer_construct desc) n; Ret (rc, l, w, n)
      end
  | _ => Ret (OPAL_ERR_BAD_PARAM, [], w, n)
  end.

(** The variables for name and rate keep their values from node to node. *)
Fixpoint get_rate_nodes (buf : opal_buffer_t) (nodes : list cstr) (sensor_name : option cstr) (sample_rate : Z) (xfer : opal_buffer_t) (n : N)
    : outcome (Z * list octl_line * N) :=
  match nodes with
  | [] => Ret (OPAL_SUCCESS, [], n)
  | node :: nodes' =>
    '(rc, error, xfer, n) ← ask_node buf node xfer n;
    match error with
    | Some key => Ret (rc, [ShowError key], n)
    | None =>
      let '(rc, result, _, xfer) := unpack_int xfer 1 in
      if negb (rc =? OPAL_SUCCESS) then Ret (rc, [ShowError "unpack"], n)
      else
        let result := default OPAL_SUCCESS result in
        if negb (result =? 0) then
          '(rc, _, _, _) ← unpack_string xfer 1 None;
          if negb (rc =? OPAL_SUCCESS) then Ret (rc, [ShowError "unpack"], n) else Ret (result, [], n)
        else
          '(rc, sensor_name, _, xfer) ← unpack_string xfer 1 sensor_name;
          if negb (rc =? OPAL_SUCCESS) then Ret (rc, [ShowError "unpack"], n)
          else
            let '(rc, rate, _, xfer) := unpack_int xfer 1 in
            if negb (rc =? OPAL_SUCCESS) then Ret (rc, [ShowError "unpack"], n)
            else
              let sample_rate := default sample_rate rate in
              '(rc, l, n) ← get_rate_nodes buf nodes' sensor_name sample_rate xfer n;
              Ret (rc, ShowRate sensor_name sample_rate :: l, n)
    end
  end.

Definition get_rate_items (cmd : Z) (sensor : cstr) : list (dss_data * Z) :=
  [byte_item ORCM_GET_SENSOR_COMMAND; byte_item (wrap 8 cmd); text_item (Some sensor)].

Definition orcm_octl_sensor_sample_rate_get (cmd : Z) (argv : list cstr) (w : W) (n : N) : outcome (Z * list octl_line * W * N) :=
  match argv with
  | [_; _; _; sensor; nodes] =>
    '(_, nodelist, w) ← expand (Some nodes) w;
    match default [] nodelist with
    | [] => Ret (OPAL_ERR_BAD_PARAM, [ShowError "nodelist-notfound"], w, n)
    | nodelist =>
      '(rc, buf) ← pack_items (opal_buffer_construct desc) (get_rate_items cmd sensor);
      if negb (rc =? OPAL_SUCCESS) then Ret (rc, [ShowError "pack"], w, n)
      else '(rc, l, n) ← get_rate_nodes buf nodelist None 0 (opal_buffer_construct desc) n; Ret (rc, l, w, n)
    end
  | _ => Ret (OPAL_ERR_BAD_PARAM, [], w, n)
  end.

Fixpoint change_sampling_nodes (buf : opal_buffer_t) (nodes : list cstr) (result : Z) (xfer : opal_buffer_t) (n : N) : outcome (Z * list octl_line * N) :=
  match nodes with
  | [] => Ret (OPAL_SUCCESS, [], n)
  | node :: nodes' =>
    '(rc, error, xfer, n) ← ask_node buf node xfer n;
    match error with
    | Some key => Ret (rc, [ShowError key], n)
    | None =>
      let '(rc, answer, _, xfer) := unpack_int xfer 1 in
      if negb (rc =? OPAL_SUCCESS) then Ret (rc, [ShowError "unpack"], n)
      else
        let result := default result answer in
        '(rc, l, n) ← change_sampling_nodes buf nodes' result xfer n;
        Ret (rc, ShowSampling node (result =? OPAL_SUCCESS) :: l, n)
    end
  end.

Definition orcm_octl_sensor_change_sampling (command : Z) (cmdlist : list cstr) (w : W) (n : N) : outcome (Z * list octl_line * W * N) :=
  let cmd := command + ORCM_ENABLE_SENSOR_SAMPLING_COMMAND in
  if (2 <? command) || (command <? 0) then Ret (OPAL_ERR_BAD_PARAM, [], w, n)
  else
    match cmdlist with
    | [_; _; nodes; spec] =>
      '(_, nodelist, w) ← expand (Some nodes) w;
      match default [] nodelist with
      | [] => Ret (OPAL_ERR_BAD_PARAM, [ShowError "nodelist-notfound"], w, n)
      | nodelist =>
        '(rc, buf) ← pack_items (opal_buffer_construct desc) [byte_item (wrap 8 cmd); text_item (Some spec)];
        if negb (rc =? OPAL_SUCCESS) then Ret (rc, [ShowError "pack"], w, n)
        else '(rc, l, n) ← change_sampling_nodes buf nodelist OPAL_SUCCESS (opal_buffer_construct desc) n; Ret (rc, l, w, n)
      end
    | _ => Ret (OPAL_ERR_BAD_PARAM, [], w, n)
    end.
End Tool.
