(* ===== verification/SensorClaims.v ===== *)
(** * Sample rates set by the operator are read back

    The tool asks a list of nodes; the daemons of a cluster are the network.
    The rate of the framework or of a plugin is set on every node and read
    back: of the framework as it was set, of a plugin what its two functions
    make of it.  A rate beyond the limit is refused by the first node.
    The table of policies is a finite map, whatever messages arrive. *)

From S2P Require Import Prelude CString Argv PointerArray PointerMap Dss DssFormat DssRoundtrip DssValue DssClaims DssText DssMessage NameFns Config ConfigProps.
From S2P Require Import AnalyticsFilter Sensor SensorTool.
From stdpp Require Import base strings numbers list gmap.
From Stdlib Require Import ZArith Lia Ascii.

Open Scope Z_scope.

(** ** Texts of numbers *)
Lemma digit_not_zero c : isdigit c = true -> c <> zero.
Proof. intros H ->. by vm_compute in H. Qed.

Lemma fmt_d_text n : int32 n -> Forall (fun c => c <> zero) (fmt_d n) /\ (length (fmt_d n) <= 11)%nat.
Proof.
  intros Hn. unfold int32, INT_MIN, INT_MAX in Hn.
  assert (Hdec : forall k, 0 <= k < 10 ^ Z.of_nat 10 -> Forall (fun c => c <> zero) (dec k) /\ (length (dec k) <= 10)%nat).
  { intros k Hk. unfold dec. split; [eapply Forall_impl; [apply dec_pad_digits|exact digit_not_zero]|]. rewrite dec_pad_length. apply ndigits_le; [done|lia]. }
  unfold fmt_d. destruct (Z.ltb_spec n 0).
  - destruct (Hdec (- n)) as [H1 H2]; [lia|]. split; [by constructor|cbn; lia].
  - destruct (Hdec n) as [H1 H2]; [lia|]. split; [done|lia].
Qed.

Lemma i32_range z : int32 (i32 z).
Proof.
  unfold int32, i32, sgn, wrap, INT_MIN, INT_MAX. pose proof (Z.mod_pos_bound z (2 ^ 32) ltac:(lia)).
  change (2 ^ (32 - 1)) with 2147483648 in *. change (2 ^ 32) with 4294967296 in *. cbv zeta. zcase; lia.
Qed.

Section Wire.
Context (malloc_ok : Z -> bool) (initial threshold : Z) (registered : Z -> bool).
Context (other_pack : Z -> opal_buffer_t -> dss_data -> outcome (Z * opal_buffer_t)).
Context (other_unpack : Z -> opal_buffer_t -> Z -> Z * option dss_data * opal_buffer_t).
Context (desc : bool).
Hypothesis Hmalloc : forall n, malloc_ok n = true.
Hypothesis Hinitial : 0 < initial < 2 ^ 31.
Hypothesis Hthreshold : 0 < threshold < 2 ^ 31.

Abbreviation item_ok := (item_ok registered).
Abbreviation enc_item := (enc_item registered).
Abbreviation fits_message := (fits_message registered desc).
Abbreviation holds_items b items := (holds desc b (items ≫= enc_item desc)).
Abbreviation delivers := (delivers registered desc).
Abbreviation fresh_delivered' := (fresh_delivered malloc_ok initial threshold registered other_pack Hmalloc desc Hinitial Hthreshold).
Abbreviation unpack_byte_holds' := (unpack_byte_holds malloc_ok registered other_unpack Hmalloc desc).
Abbreviation pack_items' := (pack_items malloc_ok initial threshold registered other_pack).
Abbreviation int_holds' := (int_holds malloc_ok registered other_unpack Hmalloc desc).
Abbreviation text_holds' := (text_holds malloc_ok registered other_unpack Hmalloc desc).

(** A short text: its message stays small. *)
Definition short_text (s : cstr) : Prop := Forall (fun c => c <> zero) s /\ Z.of_nat (length s) < 2 ^ 30.

Lemma short_text_ok s : short_text s -> cstr_ok (Some s).
Proof. intros [H1 H2]. split; [done|]. unfold INT_MAX. lia. Qed.


(** ** Messages *)
Lemma set_request_ok sensor rate : short_text sensor ->
  Forall item_ok (set_rate_items ORCM_SET_SENSOR_SAMPLE_RATE_COMMAND sensor rate) /\ fits_message (set_rate_items ORCM_SET_SENSOR_SAMPLE_RATE_COMMAND sensor rate).
Proof.
  intros Hs. split.
  - repeat (apply Forall_cons_iff; split); [by apply byte_item_ok|by apply byte_item_ok|by apply text_item_ok, short_text_ok|apply int_item_ok|constructor].
  - unfold fits_message, set_rate_items. rewrite !bind_cons, !length_app. destruct Hs as [_ Hs].
    pose proof (length_text_item registered desc sensor). pose proof (length_int_item registered desc rate).
    pose proof (length_byte_item registered desc ORCM_SET_SENSOR_COMMAND). pose proof (length_byte_item registered desc (wrap 8 ORCM_SET_SENSOR_SAMPLE_RATE_COMMAND)).
    cbn [mbind list_bind length]. unfold INT_MAX. lia.
Qed.

Lemma get_request_ok sensor : short_text sensor ->
  Forall item_ok (get_rate_items ORCM_GET_SENSOR_SAMPLE_RATE_COMMAND sensor) /\ fits_message (get_rate_items ORCM_GET_SENSOR_SAMPLE_RATE_COMMAND sensor).
Proof.
  intros Hs. split.
  - repeat (apply Forall_cons_iff; split); [by apply byte_item_ok|by apply byte_item_ok|by apply text_item_ok, short_text_ok|constructor].
  - unfold fits_message, get_rate_items. rewrite !bind_cons, !length_app. destruct Hs as [_ Hs].
    pose proof (length_text_item registered desc sensor).
    pose proof (length_byte_item registered desc ORCM_GET_SENSOR_COMMAND). pose proof (length_byte_item registered desc (wrap 8 ORCM_GET_SENSOR_SAMPLE_RATE_COMMAND)).
    cbn [mbind list_bind length]. unfold INT_MAX. lia.
Qed.

(** Packing a message and what its receiver holds. *)
Lemma message it items : Forall item_ok (it :: items) -> fits_message (it :: items) ->
  exists m, pack_items' (opal_buffer_construct desc) (it :: items) = Ret (OPAL_SUCCESS, m) /\ delivers m (it :: items).
Proof.
  intros Hok Hfit. destruct (fresh_delivered' it items Hok Hfit) as (m & P & H). exists m. split; [|done].
  exact (pack_items_packed _ _ _ _ _ _ (it :: items) _ P).
Qed.

(** ** The daemon *)
Section Daemon.
Context {W C : Type} (is_hnp is_aggregator is_cm : bool) (env_limit : option cstr).
Abbreviation base := (orcm_sensor_base_t W C).
Abbreviation active := (orcm_sensor_active_module_t W C).
Implicit Types (b : base) (w : W) (a : active).

Abbreviation recv := (orcm_sensor_base_recv (W := W) (C := C) malloc_ok initial threshold registered other_pack other_unpack desc env_limit).

(** Setting the rate of [sensor] changes the first state to the second, where
    the rate [shown] is read: the framework's own rate becomes the one that is
    set; the one plugin of the name has its function called with the rate, once,
    and the rate read afterwards is whatever its other function says. *)
Inductive settable (sensor : cstr) (rate : Z) : Z -> base * W -> base * W -> Prop :=
| settable_base b w : sensor = cs "base" -> settable sensor rate rate (b, w) (set_rate rate b, w)
| settable_module shown b w l1 a l2 n set get :
  sensor <> cs "base" -> holds_places (sb_modules b) (l1 ++ Some a :: l2) n -> 0 <= n < 2 ^ 29 ->
  sc_name (am_component a) = sensor -> (forall a', Some a' ∈ l1 ++ l2 -> sc_name (am_component a') <> sensor) ->
  sm_set_sample_rate (am_module a) = Some set -> sm_get_sample_rate (am_module a) = Some get ->
  get 0 (set rate w) = (shown, set rate w) -> int32 shown ->
  settable sensor rate shown (b, w) (b, set rate w).

Lemma for_modules_places {St} (f : active -> St -> outcome (St + St)) b l n s :
  holds_places (sb_modules b) l n -> 0 <= n < 2 ^ 29 -> for_modules f b s = each_place (fun _ => f) 0 l s.
Proof. intros Hr Hn. by apply (for_entries_places (fun _ => sb_modules b) (fun _ => f) l n s Hr Hn). Qed.

(** One module is concerned. *)
Lemma each_place_one {St} (f : active -> St -> outcome (St + St)) a s s' : f a s = Ret (inl s') ->
  forall l1 l2, (forall a' s, Some a' ∈ l1 ++ l2 -> f a' s = Ret (inl s)) ->
  forall i, each_place (fun _ => f) i (l1 ++ Some a :: l2) s = Ret s'.
Proof.
  intros Ha l1 l2 Hother. assert (Hskip : forall l s i, (forall a', Some a' ∈ l -> Some a' ∈ l1 ++ l2) -> each_place (fun _ => f) i l s = Ret s).
  { induction l as [|[a'|] l IH]; intros s0 i Hl; cbn [each_place]; [done| |].
    - rewrite Hother by (apply Hl; left). rewrite bind_Ret. apply IH. intros a2 Ha2. apply Hl. by right.
    - apply IH. intros a2 Ha2. apply Hl. by right. }
  assert (Hgo : forall k i, (forall a', Some a' ∈ k -> Some a' ∈ l1 ++ l2) -> each_place (fun _ => f) i (k ++ Some a :: l2) s = Ret s').
  { induction k as [|[a'|] k IH]; intros i Hk; cbn [app each_place].
    - rewrite Ha, bind_Ret. apply Hskip. intros a' Ha'. apply elem_of_app. by right.
    - rewrite Hother by (apply Hk; left). rewrite bind_Ret. apply IH. intros a2 Ha2. apply Hk. by right.
    - apply IH. intros a2 Ha2. apply Hk. by right. }
  intros i. apply Hgo. intros a' Ha'. apply elem_of_app. by left.
Qed.

Lemma settable_set sensor rate shown b w b' w' : settable sensor rate shown (b, w) (b', w') ->
  (if strcmp0 sensor (cs "base") then Ret (true, orcm_sensor_base_set_sample_rate rate b, w)
   else '(found_me, w) ← for_modules (set_module_rate sensor rate) b (false, w); Ret (found_me, b, w)) = Ret (true, b', w').
Proof.
  inversion 1 as [? ? Hs|? ? ? l1 a l2 n set get Hs Hr Hn Hname Hother Hset Hget Hlaw]; subst; unfold strcmp0.
  - by rewrite bool_decide_true.
  - rewrite bool_decide_false by done. rewrite (for_modules_places _ _ _ n _ Hr Hn), (each_place_one _ a _ (true, set rate w)); [done| |].
    + unfold set_module_rate, strcmp0. by rewrite bool_decide_true, Hset.
    + intros a' [f w0] Ha'. unfold set_module_rate, strcmp0. by rewrite bool_decide_false by (intros E; by apply (Hother a')).
Qed.

Lemma settable_get sensor rate shown b w b' w' : settable sensor rate shown (b, w) (b', w') ->
  (if strcmp0 sensor (cs "base") then Ret (true, orcm_sensor_base_get_sample_rate b', w')
   else for_modules (get_module_rate sensor) b' (false, 0, w')) = Ret (true, shown, w').
Proof.
  inversion 1 as [? ? Hs|? ? ? l1 a l2 n set get Hs Hr Hn Hname Hother Hset Hget Hlaw]; subst; unfold strcmp0.
  - by rewrite bool_decide_true.
  - rewrite bool_decide_false by done. rewrite (for_modules_places _ _ _ n _ Hr Hn), (each_place_one _ a _ (true, shown, set rate w)); [done| |].
    + unfold get_module_rate, strcmp0. by rewrite bool_decide_true, Hget, Hlaw.
    + intros a' [[f r] w0] Ha'. unfold get_module_rate, strcmp0. by rewrite bool_decide_false by (intros E; by apply (Hother a')).
Qed.

Lemma settable_int sensor rate shown s s' : int32 rate -> settable sensor rate shown s s' -> int32 shown.
Proof. by destruct 2. Qed.

(** The answers. *)
Lemma answered it items b w : Forall item_ok (it :: items) -> fits_message (it :: items) ->
  exists ans, answer_items malloc_ok initial threshold registered other_pack (opal_buffer_construct desc) (it :: items) b w = Ret (Some ans, b, w) /\
    delivers ans (it :: items).
Proof. intros Hok Hfit. destruct (message it items Hok Hfit) as (m & E & H). exists m. split; [|done]. unfold answer_items. by rewrite E. Qed.

Lemma error_items_ok code text : short_text text -> Forall item_ok [int_item code; text_item (Some text)] /\ fits_message [int_item code; text_item (Some text)].
Proof.
  intros Hs. split; [repeat (apply Forall_cons_iff; split); [apply int_item_ok|by apply text_item_ok, short_text_ok|constructor]|].
  unfold fits_message. rewrite !bind_cons, !length_app. destruct Hs as [_ Hs]. pose proof (length_text_item registered desc text).
  pose proof (length_int_item registered desc code). cbn [mbind list_bind length]. unfold INT_MAX. lia.
Qed.

Lemma error_answered code text b w : short_text text ->
  exists ans, error_answer malloc_ok initial threshold registered other_pack (opal_buffer_construct desc) code (Some text) b w = Ret (Some ans, b, w) /\
    delivers ans [int_item code; text_item (Some text)].
Proof.
  intros Hs. destruct (error_items_ok code text Hs) as [Hok Hfit]. destruct (message _ _ Hok Hfit) as (m & E & H).
  exists m. split; [|done]. unfold error_answer. change (default (cs "sensor data buffer mismatch") (Some text)) with text. by rewrite E.
Qed.

(** The head of a request. *)
Lemma command_read buf command sub rest : 0 <= command < 256 -> 0 <= sub < 256 ->
  holds_items buf (byte_item command :: byte_item sub :: rest) ->
  exists b1 b2 : opal_buffer_t, unpack_byte malloc_ok registered other_unpack buf 1 OPAL_UINT8 = (OPAL_SUCCESS, Some command, 1, b1) /\
    unpack_byte malloc_ok registered other_unpack b1 1 OPAL_UINT8 = (OPAL_SUCCESS, Some sub, 1, b2) /\ holds_items b2 rest.
Proof.
  intros Hc Hs Hb. rewrite !bind_cons in Hb.
  destruct (unpack_byte_holds' buf command OPAL_UINT8 _ (byte_item_ok _ _ Hc) Hb) as (b1 & E1 & Hb1).
  destruct (unpack_byte_holds' b1 sub OPAL_UINT8 _ (byte_item_ok _ _ Hs) Hb1) as (b2 & E2 & Hb2). by exists b1, b2.
Qed.

Lemma recv_set_reads buf b w sensor rate : short_text sensor -> int32 rate ->
  holds_items buf (set_rate_items ORCM_SET_SENSOR_SAMPLE_RATE_COMMAND sensor rate) ->
  recv buf b w =
    if (0 <? sample_limit env_limit) && (rate <? sample_limit env_limit) then
      error_answer malloc_ok initial threshold registered other_pack (opal_buffer_construct desc) ORCM_ERR_SENSOR_LIMIT_EXCEEDED
        (Some (cs "sensor sample rate " ++ fmt_d rate ++ cs " exceeds limit " ++ fmt_d (sample_limit env_limit))) b w
    else
      '(found_me, b, w) ← (if strcmp0 sensor (cs "base") then Ret (true, orcm_sensor_base_set_sample_rate rate b, w)
                           else '(found_me, w) ← for_modules (set_module_rate sensor rate) b (false, w); Ret (found_me, b, w));
      if found_me : bool then answer_items malloc_ok initial threshold registered other_pack (opal_buffer_construct desc) [int_item OPAL_SUCCESS] b w
      else error_answer malloc_ok initial threshold registered other_pack (opal_buffer_construct desc) OPAL_ERR_NOT_FOUND (not_found sensor) b w.
Proof.
  intros Hs Hr Hb. destruct (command_read buf ORCM_SET_SENSOR_COMMAND (wrap 8 ORCM_SET_SENSOR_SAMPLE_RATE_COMMAND) _ ltac:(done) ltac:(done) Hb) as (b1 & b2 & E1 & E2 & Hb2).
  rewrite !bind_cons in Hb2. destruct (text_holds' b2 (Some sensor) None _ (short_text_ok _ Hs) Hb2) as (b3 & E3 & Hb3).
  destruct (int_holds' b3 rate _ Hr Hb3) as (b4 & E4 & _).
  unfold orcm_sensor_base_recv. rewrite E1. cbn [negb Z.eqb OPAL_SUCCESS deref]. rewrite bind_Ret.
  change (ORCM_SET_SENSOR_COMMAND =? ORCM_SET_SENSOR_COMMAND) with true. cbv iota. rewrite E2. cbn [negb Z.eqb OPAL_SUCCESS deref]. rewrite bind_Ret.
  change (wrap 8 ORCM_SET_SENSOR_SAMPLE_RATE_COMMAND =? ORCM_SET_SENSOR_SAMPLE_RATE_COMMAND) with true. cbv iota.
  unfold set_sample_rate_command. rewrite E3, bind_Ret. cbn [negb Z.eqb OPAL_SUCCESS]. rewrite E4. cbn [negb Z.eqb OPAL_SUCCESS default deref]. by rewrite bind_Ret.
Qed.

Definition within_limit (rate : Z) : Prop := sample_limit env_limit <= 0 \/ sample_limit env_limit <= rate.

Lemma recv_set_rate buf b w b' w' sensor rate shown : short_text sensor -> int32 rate -> within_limit rate ->
  holds_items buf (set_rate_items ORCM_SET_SENSOR_SAMPLE_RATE_COMMAND sensor rate) -> settable sensor rate shown (b, w) (b', w') ->
  exists ans, recv buf b w = Ret (Some ans, b', w') /\ delivers ans [int_item OPAL_SUCCESS].
Proof.
  intros Hs Hr Hl Hb Hset. rewrite (recv_set_reads buf b w sensor rate Hs Hr Hb).
  assert ((0 <? sample_limit env_limit) && (rate <? sample_limit env_limit) = false) as -> by (unfold within_limit in Hl; lia).
  rewrite (settable_set _ _ _ _ _ _ _ Hset), bind_Ret. apply answered; [apply Forall_singleton, int_item_ok|apply fits_int].
Qed.

Lemma limit_text rate : int32 rate -> short_text (cs "sensor sample rate " ++ fmt_d rate ++ cs " exceeds limit " ++ fmt_d (sample_limit env_limit)).
Proof.
  intros Hr. destruct (fmt_d_text rate Hr) as [H1 L1].
  assert (Hlim : int32 (sample_limit env_limit)).
  { unfold sample_limit, atoi. destruct env_limit as [t|]; [apply i32_range|done]. }
  destruct (fmt_d_text _ Hlim) as [H2 L2]. split.
  - repeat (apply Forall_app; split); try done; repeat constructor; done.
  - rewrite !length_app. cbn [cs length String.list_ascii_of_string]. lia.
Qed.

Lemma recv_limit buf b w sensor rate : short_text sensor -> int32 rate -> ~ within_limit rate ->
  holds_items buf (set_rate_items ORCM_SET_SENSOR_SAMPLE_RATE_COMMAND sensor rate) ->
  exists ans text, recv buf b w = Ret (Some ans, b, w) /\ short_text text /\
    delivers ans [int_item ORCM_ERR_SENSOR_LIMIT_EXCEEDED; text_item (Some text)].
Proof.
  intros Hs Hr Hl Hb. rewrite (recv_set_reads buf b w sensor rate Hs Hr Hb).
  assert ((0 <? sample_limit env_limit) && (rate <? sample_limit env_limit) = true) as -> by (unfold within_limit in Hl; lia).
  pose proof (limit_text rate Hr) as Ht. destruct (error_answered ORCM_ERR_SENSOR_LIMIT_EXCEEDED _ b w Ht) as (ans & -> & H). exists ans. eexists. by split_and!.
Qed.

Lemma recv_get_rate buf b0 w0 b w sensor rate shown : short_text sensor ->
  holds_items buf (get_rate_items ORCM_GET_SENSOR_SAMPLE_RATE_COMMAND sensor) -> settable sensor rate shown (b0, w0) (b, w) ->
  exists ans, recv buf b w = Ret (Some ans, b, w) /\ delivers ans [int_item OPAL_SUCCESS; text_item (Some sensor); int_item shown].
Proof.
  intros Hs Hb Hset.
  destruct (command_read buf ORCM_GET_SENSOR_COMMAND (wrap 8 ORCM_GET_SENSOR_SAMPLE_RATE_COMMAND) _ ltac:(done) ltac:(done) Hb) as (b1 & b2 & E1 & E2 & Hb2).
  rewrite !bind_cons in Hb2. destruct (text_holds' b2 (Some sensor) None _ (short_text_ok _ Hs) Hb2) as (b3 & E3 & _).
  destruct (answered (int_item OPAL_SUCCESS) [text_item (Some sensor); int_item shown] b w) as (ans & Ea & Ha).
  { repeat (apply Forall_cons_iff; split); [apply int_item_ok|by apply text_item_ok, short_text_ok|apply int_item_ok|constructor]. }
  { unfold fits_message. rewrite !bind_cons, !length_app. pose proof (length_text_item registered desc sensor). destruct Hs as [_ Hs].
    pose proof (length_int_item registered desc OPAL_SUCCESS). pose proof (length_int_item registered desc shown). cbn [mbind list_bind length]. unfold INT_MAX. lia. }
  exists ans. split; [|done]. unfold orcm_sensor_base_recv. rewrite E1. cbn [negb Z.eqb OPAL_SUCCESS deref]. rewrite bind_Ret.
  change (ORCM_GET_SENSOR_COMMAND =? ORCM_SET_SENSOR_COMMAND) with false. change (ORCM_GET_SENSOR_COMMAND =? ORCM_GET_SENSOR_COMMAND) with true. cbv iota.
  rewrite E2. cbn [negb Z.eqb OPAL_SUCCESS deref]. rewrite bind_Ret.
  change (wrap 8 ORCM_GET_SENSOR_SAMPLE_RATE_COMMAND =? ORCM_GET_SENSOR_SAMPLE_RATE_COMMAND) with true. cbv iota.
  unfold get_sample_rate_command. rewrite E3, bind_Ret. cbn [negb Z.eqb OPAL_SUCCESS deref]. rewrite bind_Ret, (settable_get _ _ _ _ _ _ _ Hset), bind_Ret. exact Ea.
Qed.
End Daemon.

(** ** A cluster of daemons *)
Section Cluster.
Context {W C V : Type} `{Expander V} (env_limit : process_name -> option cstr) (orcm_clusters : list orcm_cluster_t).
Abbreviation node_state := (orcm_sensor_base_t W C * W)%type.
Abbreviation cluster := (gmap (Z * Z) (orcm_sensor_base_t W C * W)).
Implicit Types (n : cluster) (tgt : process_name).

Abbreviation recv env := (orcm_sensor_base_recv (W := W) (C := C) malloc_ok initial threshold registered other_pack other_unpack desc env).

(** A message reaches its daemon, and the answer the tool. *)
#[local] Instance cluster_network : Network cluster := {|
  exchange tgt buf n :=
    match n !! tgt with
    | None => Ret (OPAL_ERR_NOT_FOUND, None, n)
    | Some (b, w) =>
      rb ← deliver desc buf;
      '(ans, b, w) ← recv (env_limit tgt) rb b w;
      match ans with
      | Some ans => ra ← deliver desc ans; Ret (OPAL_SUCCESS, Some ra, <[tgt := (b, w)]> n)
      | None => Ret (OPAL_ERROR, None, <[tgt := (b, w)]> n)
      end
    end
|}.

(** A buffer for answers that has been read to its end, with room for [k]
    more. *)
Record idle (k : nat) (xfer : opal_buffer_t) : Prop := {
  id_ok : buf_ok xfer;
  id_desc : b_desc xfer = desc;
  id_unread : unread xfer = [];
  id_room : bytes_used xfer + Z.of_nat k * 2 ^ 31 < 2 ^ 62
}.

Lemma idle_fresh k : Z.of_nat k < 2 ^ 30 -> idle k (opal_buffer_construct desc).
Proof. intros Hk. split; [apply buf_ok_construct|done|done|]. unfold bytes_used. cbn. lia. Qed.

Lemma idle_again k xfer xfer' : holds desc xfer' [] -> buf_ok xfer' -> b_data xfer' = b_data xfer -> bytes_used xfer + Z.of_nat k * 2 ^ 31 < 2 ^ 62 -> idle k xfer'.
Proof. intros ([Hd _] & Hu & _) Hok Hdata Hroom. split; [done|done|done|]. unfold bytes_used in *. by rewrite Hdata. Qed.

Abbreviation ask := (ask_node malloc_ok initial threshold orcm_clusters).

Lemma asked k m rb node tgt xfer n b w b' w' ans items :
  idle (S k) xfer -> orcm_cfgi_base_get_hostname_proc orcm_clusters node (0, 0) = (OPAL_SUCCESS, tgt) -> n !! tgt = Some (b, w) ->
  deliver desc m = Ret rb -> recv (env_limit tgt) rb b w = Ret (Some ans, b', w') -> delivers ans items ->
  Z.of_nat (length (items ≫= enc_item desc)) <= INT_MAX ->
  exists xfer', ask m node xfer n = Ret (OPAL_SUCCESS, None, xfer', <[tgt := (b', w')]> n) /\
    holds_items xfer' items /\ buf_ok xfer' /\ bytes_used xfer' + Z.of_nat k * 2 ^ 31 < 2 ^ 62.
Proof.
  intros [Hok Hd Hun Hroom] Hnode Hn Hrb Hrecv (ra & Hra & Hr & Hu & Hl) Hsz. unfold ask_node. rewrite Hnode. cbn [negb Z.eqb OPAL_SUCCESS exchange cluster_network].
  rewrite Hn, Hrb, bind_Ret, Hrecv, bind_Ret, Hra, !bind_Ret. cbn [negb Z.eqb OPAL_SUCCESS deref]. rewrite bind_Ret. unfold INT_MAX in Hsz.
  pose proof (dss_copy_payload_correct malloc_ok initial threshold Hmalloc Hinitial Hthreshold xfer ra desc Hok Hr) as Hc.
  rewrite Hu in Hc. specialize (Hc ltac:(unfold INT_MAX; lia) ltac:(lia)). rewrite Hd, Bool.eqb_reflx, andb_false_r in Hc.
  destruct Hc as (xfer' & E & Hok' & Hd' & Hup & Hdata). rewrite E, bind_Ret. exists xfer'. split; [done|].
  assert (Hlen : b_unpack xfer = length (b_data xfer)).
  { destruct Hok as [_ _ _ Hle]. unfold unread in Hun. apply (f_equal length) in Hun. rewrite length_drop in Hun. cbn in Hun. lia. }
  split_and!; [|done|unfold bytes_used in *; rewrite Hdata, length_app; lia].
  split; [|split; [|done]].
  - split; [done|]. rewrite Hup, Hdata, length_app. lia.
  - unfold unread. rewrite Hup, Hdata, Hlen. by rewrite drop_app_length.
Qed.

Definition located (node : cstr) tgt : Prop := orcm_cfgi_base_get_hostname_proc orcm_clusters node (0, 0) = (OPAL_SUCCESS, tgt).

(** The nodes [tgts] were told the new rate and show what [shown] says, the
    others are as they were. *)
Definition rate_changed (tgts : list process_name) (sensor : cstr) (rate : Z) (shown : list Z) n n' : Prop :=
  Forall2 (fun tgt r => exists s s' : node_state, n !! tgt = Some s /\ n' !! tgt = Some s' /\ settable sensor rate r s s') tgts shown /\
  (forall tgt, tgt ∉ tgts -> n' !! tgt = n !! tgt).

Definition can_set (sensor : cstr) (rate : Z) n tgt (shown : Z) : Prop :=
  within_limit (env_limit tgt) rate /\ exists s s' : node_state, n !! tgt = Some s /\ settable sensor rate shown s s'.

Abbreviation set_nodes := (set_rate_nodes malloc_ok initial threshold registered other_unpack orcm_clusters).
Abbreviation get_nodes := (get_rate_nodes malloc_ok initial threshold registered other_unpack orcm_clusters).

Lemma small_int code : Z.of_nat (length ([int_item code] ≫= enc_item desc)) <= INT_MAX.
Proof. rewrite bind_singleton. pose proof (length_int_item registered desc code). unfold INT_MAX. lia. Qed.

Lemma small_error code text : short_text text -> Z.of_nat (length ([int_item code; text_item (Some text)] ≫= enc_item desc)) <= INT_MAX.
Proof.
  intros [_ Hs]. rewrite !bind_cons, !length_app. pose proof (length_text_item registered desc text). pose proof (length_int_item registered desc code).
  cbn [mbind list_bind length]. unfold INT_MAX. lia.
Qed.

Lemma small_rate sensor rate : short_text sensor -> Z.of_nat (length ([int_item OPAL_SUCCESS; text_item (Some sensor); int_item rate] ≫= enc_item desc)) <= INT_MAX.
Proof.
  intros [_ Hs]. rewrite !bind_cons, !length_app. pose proof (length_text_item registered desc sensor). pose proof (length_int_item registered desc OPAL_SUCCESS).
  pose proof (length_int_item registered desc rate). cbn [mbind list_bind length]. unfold INT_MAX. lia.
Qed.

(** A node that is not the one just asked. *)
Lemma can_set_other sensor rate n tgt s tgts shown : tgt ∉ tgts ->
  Forall2 (can_set sensor rate n) tgts shown -> Forall2 (can_set sensor rate (<[tgt := s]> n)) tgts shown.
Proof.
  intros Hnew. induction 1 as [|tgt' r tgts shown [Hl (s0 & s' & Hn' & Hset')] _ IH]; [constructor|].
  apply not_elem_of_cons in Hnew as [Hne Hnew]. constructor; [|by apply IH]. split; [done|]. exists s0, s'. by rewrite lookup_insert_ne.
Qed.

Lemma rate_changed_cons sensor rate n n' tgt tgts r shown s s' : tgt ∉ tgts -> n !! tgt = Some s -> settable sensor rate r s s' ->
  rate_changed tgts sensor rate shown (<[tgt := s']> n) n' -> rate_changed (tgt :: tgts) sensor rate (r :: shown) n n'.
Proof.
  intros Hnew Hn Hset [Hch Hoth]. split.
  - constructor; [exists s, s'; by rewrite (Hoth _ Hnew), lookup_insert_eq|].
    clear Hoth. induction Hch as [|tgt' r' tgts shown (s0 & s1 & H1 & H2 & H3) _ IH]; [constructor|].
    apply not_elem_of_cons in Hnew as [Hne Hnew]. constructor; [|by apply IH]. exists s0, s1. by rewrite lookup_insert_ne in H1.
  - intros tgt' [Hne Hout]%not_elem_of_cons. by rewrite (Hoth _ Hout), lookup_insert_ne.
Qed.

Lemma set_nodes_spec m sensor rate : short_text sensor -> int32 rate ->
  delivers m (set_rate_items ORCM_SET_SENSOR_SAMPLE_RATE_COMMAND sensor rate) ->
  forall nodes tgts, Forall2 located nodes tgts -> NoDup tgts ->
  forall shown xfer n, idle (length nodes) xfer -> Forall2 (can_set sensor rate n) tgts shown ->
  exists n', set_nodes m nodes xfer n = Ret (OPAL_SUCCESS, replicate (length nodes) ShowSuccess, n') /\ rate_changed tgts sensor rate shown n n'.
Proof.
  intros Hs Hr (rb & Hrb & Hm). induction 1 as [|node tgt nodes tgts Hloc Hnodes IH]; intros Hnd shown xfer n Hidle Hcan.
  { apply Forall2_nil_inv_l in Hcan as ->. exists n. split; [done|]. by split. }
  apply NoDup_cons in Hnd as [Hnew Hnd]. apply Forall2_cons_inv_l in Hcan as (r & shown' & [Hlim ([b w] & [b' w'] & Hn & Hset)] & Hcan & ->).
  destruct (recv_set_rate (env_limit tgt) rb b w b' w' sensor rate r Hs Hr Hlim Hm Hset) as (ans & Hrecv & Hans).
  destruct (asked (length nodes) m rb node tgt xfer n b w b' w' ans _ Hidle Hloc Hn Hrb Hrecv Hans (small_int _)) as (xfer1 & Eask & H1 & Hok1 & Hroom1).
  rewrite bind_singleton in H1. rewrite <- (app_nil_r (enc_item desc _)) in H1.
  destruct (int_holds_ok malloc_ok registered other_unpack Hmalloc desc xfer1 OPAL_SUCCESS [] ltac:(done) Hok1 H1) as (xfer2 & Eint & H2 & Hok2 & Hdata2).
  destruct (IH Hnd shown' xfer2 (<[tgt := (b', w')]> n)) as (n' & E & Hch).
  { by apply (idle_again _ xfer1). }
  { by apply can_set_other. }
  exists n'. split; [|by apply (rate_changed_cons _ _ _ _ _ _ _ _ (b, w) (b', w'))].
  cbn [set_rate_nodes length replicate]. rewrite Eask, bind_Ret, Eint. cbn [negb Z.eqb OPAL_SUCCESS default]. by rewrite E, bind_Ret.
Qed.

Lemma get_nodes_spec m sensor rate n0 n : short_text sensor -> int32 rate ->
  delivers m (get_rate_items ORCM_GET_SENSOR_SAMPLE_RATE_COMMAND sensor) ->
  forall nodes tgts, Forall2 located nodes tgts ->
  forall shown, Forall2 (fun tgt r => exists s s' : node_state, n0 !! tgt = Some s /\ n !! tgt = Some s' /\ settable sensor rate r s s') tgts shown ->
  forall name old xfer, idle (length nodes) xfer ->
  get_nodes m nodes name old xfer n = Ret (OPAL_SUCCESS, ShowRate (Some sensor) <$> shown, n).
Proof.
  intros Hs Hrate (rb & Hrb & Hm). induction 1 as [|node tgt nodes tgts Hloc Hnodes IH]; intros shown Hset name old xfer Hidle.
  { by apply Forall2_nil_inv_l in Hset as ->. }
  apply Forall2_cons_inv_l in Hset as (r & shown' & ([b0 w0] & [b w] & _ & Hn & Hset) & Hsets & ->).
  pose proof (settable_int _ _ _ _ _ Hrate Hset) as Hr.
  destruct (recv_get_rate (env_limit tgt) rb b0 w0 b w sensor rate r Hs Hm Hset) as (ans & Hrecv & Hans).
  destruct (asked (length nodes) m rb node tgt xfer n b w b w ans _ Hidle Hloc Hn Hrb Hrecv Hans (small_rate _ _ Hs)) as (xfer1 & Eask & H1 & Hok1 & Hroom1).
  rewrite !bind_cons in H1.
  destruct (int_holds_ok malloc_ok registered other_unpack Hmalloc desc xfer1 OPAL_SUCCESS _ ltac:(done) Hok1 H1) as (xfer2 & E2 & H2 & Hok2 & Hdata2).
  destruct (text_holds_ok malloc_ok registered other_unpack Hmalloc desc xfer2 (Some sensor) name _ (short_text_ok _ Hs) Hok2 H2) as (xfer3 & E3 & H3 & Hok3 & Hdata3).
  destruct (int_holds_ok malloc_ok registered other_unpack Hmalloc desc xfer3 r _ Hr Hok3 H3) as (xfer4 & E4 & H4 & Hok4 & Hdata4).
  cbn [get_rate_nodes fmap list_fmap]. rewrite Eask, bind_Ret, E2. cbn [negb Z.eqb OPAL_SUCCESS default]. rewrite E3, bind_Ret. cbn [negb Z.eqb OPAL_SUCCESS].
  rewrite E4. cbn [negb Z.eqb OPAL_SUCCESS default]. rewrite insert_id by done.
  rewrite (IH _ Hsets), bind_Ret; [done|]. apply (idle_again _ xfer1); [done|done|congruence|done].
Qed.

Lemma set_nodes_limit m sensor rate node tgt nodes xfer n b w : short_text sensor -> int32 rate -> ~ within_limit (env_limit tgt) rate ->
  delivers m (set_rate_items ORCM_SET_SENSOR_SAMPLE_RATE_COMMAND sensor rate) ->
  located node tgt -> n !! tgt = Some (b, w) -> idle (S (length nodes)) xfer ->
  set_nodes m (node :: nodes) xfer n = Ret (ORCM_ERR_SENSOR_LIMIT_EXCEEDED, [ShowError "sensor_limit_exceeded"], n).
Proof.
  intros Hs Hr Hlim (rb & Hrb & Hm) Hloc Hn Hidle.
  destruct (recv_limit (env_limit tgt) rb b w sensor rate Hs Hr Hlim Hm) as (ans & text & Hrecv & Ht & Hans).
  destruct (asked (length nodes) m rb node tgt xfer n b w b w ans _ Hidle Hloc Hn Hrb Hrecv Hans (small_error _ _ Ht)) as (xfer1 & Eask & H1 & Hok1 & Hroom1).
  rewrite !bind_cons in H1.
  destruct (int_holds_ok malloc_ok registered other_unpack Hmalloc desc xfer1 ORCM_ERR_SENSOR_LIMIT_EXCEEDED _ ltac:(done) Hok1 H1) as (xfer2 & E2 & H2 & Hok2 & _).
  destruct (text_holds' xfer2 (Some text) None _ (short_text_ok _ Ht) H2) as (xfer3 & E3 & _).
  cbn [set_rate_nodes]. rewrite Eask, bind_Ret, E2. cbn [negb Z.eqb OPAL_SUCCESS default ORCM_ERR_SENSOR_LIMIT_EXCEEDED]. rewrite E3, bind_Ret.
  cbn [negb Z.eqb OPAL_SUCCESS]. by rewrite insert_id.
Qed.

Abbreviation tool_set := (orcm_octl_sensor_sample_rate_set malloc_ok initial threshold registered other_pack other_unpack desc orcm_clusters).
Abbreviation tool_get := (orcm_octl_sensor_sample_rate_get malloc_ok initial threshold registered other_pack other_unpack desc orcm_clusters).

Lemma rate_message sensor text e rate a0 a1 a2 nodes node rest rc v v1 n :
  strtol10 text = (rate, [], e) -> 1 <= rate <= INT_MAX -> short_text sensor -> expand (Some nodes) v = Ret (rc, Some (node :: rest), v1) ->
  exists m, delivers m (set_rate_items ORCM_SET_SENSOR_SAMPLE_RATE_COMMAND sensor rate) /\
    tool_set ORCM_SET_SENSOR_SAMPLE_RATE_COMMAND [a0; a1; a2; sensor; text; nodes] v n =
      '(rc, l, n) ← set_nodes m (node :: rest) (opal_buffer_construct desc) n; Ret (rc, l, v1, n).
Proof.
  intros Ht Hr Hs He. destruct (set_request_ok sensor rate Hs) as [Hok Hfit]. destruct (message _ _ Hok Hfit) as (m & Em & Hm). exists m. split; [done|].
  unfold orcm_octl_sensor_sample_rate_set. rewrite Ht, i32_small by (unfold INT_MIN, INT_MAX in *; lia). rewrite bool_decide_true by done.
  destruct (Z.ltb_spec rate 1); [lia|]. cbn [negb orb]. rewrite He, bind_Ret. unfold set_rate_items in *. cbn [default from_option id]. by rewrite Em.
Qed.

(** C7: an operator who sets the sample rate of the framework or of a plugin on a list of nodes is told of each node
    that it succeeded; on each node the framework's rate is the new one, or the one plugin of the name had its set
    function called with the rate, once, and nothing else was changed, on no other node.  Who asks the same nodes
    afterwards is shown, for each, the rate the daemon then has: for the framework the rate that was set, for a plugin
    what its get function reports after that call.  That is the new rate only if the plugin takes it over: the
    repository's plugins ignore the call unless they sample in a thread of their own, and the tool reports success all
    the same (two nodes with [coretemp], one of either kind, are the example).  This goes through node expressions, the
    configuration, the messages of the tool, the handlers of the daemons and one buffer for all the answers.  Assumed:
    the rate respects the limit of every node, the nodes are known and distinct, one plugin of the name is loaded and
    reading a rate changes nothing. *)
Theorem sensor_rate_set_get sensor text e rate a0 a1 a2 nodes node rest tgts shown rc rc' v v1 v2 n :
  strtol10 text = (rate, [], e) -> 1 <= rate <= INT_MAX -> short_text sensor ->
  expand (Some nodes) v = Ret (rc, Some (node :: rest), v1) -> expand (Some nodes) v1 = Ret (rc', Some (node :: rest), v2) ->
  Forall2 located (node :: rest) tgts -> NoDup tgts -> Z.of_nat (length (node :: rest)) < 2 ^ 30 -> Forall2 (can_set sensor rate n) tgts shown ->
  exists n',
    tool_set ORCM_SET_SENSOR_SAMPLE_RATE_COMMAND [a0; a1; a2; sensor; text; nodes] v n =
      Ret (OPAL_SUCCESS, replicate (length (node :: rest)) ShowSuccess, v1, n') /\
    tool_get ORCM_GET_SENSOR_SAMPLE_RATE_COMMAND [a0; a1; a2; sensor; nodes] v1 n' =
      Ret (OPAL_SUCCESS, ShowRate (Some sensor) <$> shown, v2, n') /\
    rate_changed tgts sensor rate shown n n'.
Proof.
  intros Ht Hr Hs He1 He2 Hloc Hnd Hlen Hcan. assert (Hr' : int32 rate) by (unfold int32, INT_MIN, INT_MAX in *; lia).
  destruct (rate_message sensor text e rate a0 a1 a2 nodes node rest rc v v1 n Ht Hr Hs He1) as (m & Hm & ->).
  destruct (set_nodes_spec m sensor rate Hs Hr' Hm _ _ Hloc Hnd shown _ n (idle_fresh _ Hlen) Hcan) as (n' & E & Hch). rewrite E, bind_Ret.
  exists n'. split; [done|]. split; [|done].
  destruct (get_request_ok sensor Hs) as [Hok Hfit]. destruct (message _ _ Hok Hfit) as (m2 & Em & Hm2).
  unfold orcm_octl_sensor_sample_rate_get. rewrite He2, bind_Ret. unfold get_rate_items in *. cbn [default from_option id]. rewrite Em, bind_Ret.
  cbn [negb Z.eqb OPAL_SUCCESS]. by rewrite (get_nodes_spec m2 sensor rate n n' Hs Hr' Hm2 _ _ Hloc shown (proj1 Hch)) by by apply idle_fresh.
Qed.

(** A rate beyond the limit of the first node is refused there: the tool says
    so and stops, and no node is changed. *)
Theorem sensor_rate_limit sensor text e rate a0 a1 a2 nodes node rest tgt s rc v v1 n :
  strtol10 text = (rate, [], e) -> 1 <= rate <= INT_MAX -> short_text sensor ->
  expand (Some nodes) v = Ret (rc, Some (node :: rest), v1) -> located node tgt -> n !! tgt = Some s ->
  Z.of_nat (length (node :: rest)) < 2 ^ 30 -> ~ within_limit (env_limit tgt) rate ->
  tool_set ORCM_SET_SENSOR_SAMPLE_RATE_COMMAND [a0; a1; a2; sensor; text; nodes] v n =
    Ret (ORCM_ERR_SENSOR_LIMIT_EXCEEDED, [ShowError "sensor_limit_exceeded"], v1, n).
Proof.
  intros Ht Hr Hs He Hloc Hn Hlen Hlim. assert (Hr' : int32 rate) by (unfold int32, INT_MIN, INT_MAX in *; lia). destruct s as [b w].
  destruct (rate_message sensor text e rate a0 a1 a2 nodes node rest rc v v1 n Ht Hr Hs He) as (m & Hm & ->).
  by rewrite (set_nodes_limit m sensor rate node tgt rest _ n b w Hs Hr' Hlim Hm Hloc Hn (idle_fresh _ Hlen)).
Qed.
End Cluster.
End Wire.

(** ** Examples

    Two nodes with the plugin [coretemp], whose component is all there is
    outside the framework: on the first it samples in a thread of its own, on
    the second it does not. *)
Definition rate_sensor : orcm_sensor_active_module_t mca_sensor_coretemp_component unit :=
  MkActiveSensor (MkSensorComponent (cs "coretemp") (cs "temperature") None)
    (MkSensorModule None None None None None None None None (Some coretemp_set_sample_rate) (Some coretemp_get_sample_rate) None None None) 50 true.
Definition rate_table : opal_pointer_array_t (orcm_sensor_active_module_t mca_sensor_coretemp_component unit) :=
  MkPtrArray 1 2 3 INT_MAX 1 (Some [Some rate_sensor; None; None]).
Definition rate_base : orcm_sensor_base_t mca_sensor_coretemp_component unit :=
  MkSensorBase (MkSensorConfig false true false false) true rate_table 10 (opal_buffer_construct false) [] (-1) false true true true [].
Definition rate_daemons : gmap (Z * Z) (orcm_sensor_base_t mca_sensor_coretemp_component unit * mca_sensor_coretemp_component) :=
  <[(1, 3) := (rate_base, MkCoretemp true 60)]> {[(1, 4) := (rate_base, MkCoretemp false 90)]}.

Lemma one_entry_places {A} (x : A) : holds_places (MkPtrArray 1 2 3 INT_MAX 1 (Some [Some x; None; None])) [Some x] 1.
Proof.
  exists {[0%nat := x]}. split.
  - split; [|done]. exists [Some x; None; None]. split; try done; [by left|]. intros [|i]; [done|]. rewrite lookup_singleton_ne by done. by destruct i as [|[|i]].
  - intros [|i]; [done|]. by rewrite lookup_singleton_ne by done.
Qed.

Lemma rate_table_places : holds_places rate_table [Some rate_sensor] 1.
Proof. apply one_entry_places. Qed.

Abbreviation rate_argv text := [cs "sensor"; cs "set"; cs "sample-rate"; cs "coretemp"; text; cs "n1,n2"].
Abbreviation rate_expander := (logical_group_expander (fun _ => 0) 10 no_groups).
Abbreviation rate_world := (LogicalGroup.MkWorld ∅ 0%nat false None).

(** What [coretemp] makes of the rate. *)
Lemma rate_can_set tgt c : rate_daemons !! tgt = Some (rate_base, c) -> int32 (ct_sample_rate c) ->
  can_set (fun _ => Some (cs "5")) (cs "coretemp") 30 rate_daemons tgt (if ct_use_progress_thread c then 30 else ct_sample_rate c).
Proof.
  intros Hn Hc. split; [by right|]. exists (rate_base, c), (rate_base, coretemp_set_sample_rate 30 c). split; [done|].
  apply (settable_module (cs "coretemp") 30 _ rate_base c [] rate_sensor [] 1 coretemp_set_sample_rate coretemp_get_sample_rate);
    [done|apply rate_table_places|lia|done|by intros a ?%not_elem_of_nil|done|done|by destruct c as [[] r]|by destruct c as [[] r]].
Qed.

Lemma sensor_rate_set_get_witness :
  exists n' : gmap (Z * Z) (orcm_sensor_base_t mca_sensor_coretemp_component unit * mca_sensor_coretemp_component),
    orcm_octl_sensor_sample_rate_set (H := rate_expander)
      (H0 := cluster_network (fun _ => true) 128 1024 (fun _ => false) no_pack no_unpack false (fun _ => Some (cs "5")))
      (fun _ => true) 128 1024 (fun _ => false) no_pack no_unpack false [small_cluster]
      ORCM_SET_SENSOR_SAMPLE_RATE_COMMAND (rate_argv (cs "30")) rate_world rate_daemons = Ret (OPAL_SUCCESS, [ShowSuccess; ShowSuccess], rate_world, n') /\
    orcm_octl_sensor_sample_rate_get (H := rate_expander)
      (H0 := cluster_network (fun _ => true) 128 1024 (fun _ => false) no_pack no_unpack false (fun _ => Some (cs "5")))
      (fun _ => true) 128 1024 (fun _ => false) no_pack no_unpack false [small_cluster]
      ORCM_GET_SENSOR_SAMPLE_RATE_COMMAND [cs "sensor"; cs "set"; cs "sample-rate"; cs "coretemp"; cs "n1,n2"] rate_world n' =
      Ret (OPAL_SUCCESS, [ShowRate (Some (cs "coretemp")) 30; ShowRate (Some (cs "coretemp")) 90], rate_world, n').
Proof.
  destruct (sensor_rate_set_get (fun _ => true) 128 1024 (fun _ => false) no_pack no_unpack false (fun _ => eq_refl) ltac:(lia) ltac:(lia)
    (H := rate_expander) (fun _ => Some (cs "5")) [small_cluster] (cs "coretemp") (cs "30") false 30
    (cs "sensor") (cs "set") (cs "sample-rate") (cs "n1,n2") (cs "n1") [cs "n2"] [(1, 3); (1, 4)] [30; 90] 0 0 rate_world rate_world rate_world rate_daemons)
    as (n' & Hset & Hget & _).
  - vm_compute. reflexivity.
  - unfold INT_MAX. lia.
  - split; [repeat constructor; done|cbn; lia].
  - vm_compute. reflexivity.
  - vm_compute. reflexivity.
  - repeat constructor; vm_compute; reflexivity.
  - apply (bool_decide_unpack _). vm_compute. exact I.
  - cbn. lia.
  - constructor; [by apply (rate_can_set _ (MkCoretemp true 60))|]. constructor; [by apply (rate_can_set _ (MkCoretemp false 90))|constructor].
  - exists n'. split; [exact Hset|exact Hget].
Defined.
