(* ===== verification/SensorLife.v ===== *)
(** * The sensor framework over time

    The policies are a finite map whatever messages arrive; messages of
    inventory are read to their end; what a stop and a start leave behind; and
    how unknown commands are answered. *)

From S2P Require Import Prelude CString Argv PointerArray PointerMap Dss DssFormat DssRoundtrip DssValue DssClaims DssText DssMessage DssProgress.
From S2P Require Import Sensor SensorPackClaims SensorClaims.
From stdpp Require Import base strings numbers list gmap.
From Stdlib Require Import ZArith Lia Ascii.

Open Scope Z_scope.

(** ** Policies *)
Definition policy_key (p : orcm_sensor_policy_t) : cstr * bool * Z := (pl_sensor_name p, pl_hi_thres p, pl_severity p).

(** The policy of a key. *)
Definition policy_of (k : cstr * bool * Z) (l : list orcm_sensor_policy_t) : option orcm_sensor_policy_t :=
  snd <$> list_find (fun p => policy_key p = k) l.

Lemma same_policy_key new p : same_policy (pl_sensor_name new) (pl_hi_thres new) (pl_severity new) p = bool_decide (policy_key p = policy_key new).
Proof.
  unfold same_policy, policy_key, strcmp0. destruct new, p; cbn.
  destruct (bool_decide_reflect (pl_sensor_name = pl_sensor_name0)) as [->|H1]; cbn; [|by rewrite bool_decide_false by congruence].
  destruct (Bool.eqb_spec pl_hi_thres pl_hi_thres0) as [->|H2]; cbn; [|by rewrite bool_decide_false by congruence].
  destruct (Z.eqb_spec pl_severity pl_severity0) as [->|H3]; [by rewrite bool_decide_true|by rewrite bool_decide_false by congruence].
Qed.

Lemma policy_of_cons k p l : policy_of k (p :: l) = if bool_decide (policy_key p = k) then Some p else policy_of k l.
Proof.
  unfold policy_of. cbn. case_bool_decide as H; [by rewrite decide_True|]. rewrite decide_False by done.
  by destruct (list_find _ l) as [[]|].
Qed.

Lemma update_policy_lookup new l k : policy_of k (update_policy new l) = if bool_decide (policy_key new = k) then Some new else policy_of k l.
Proof.
  induction l as [|p l IH]; cbn [update_policy]; [apply policy_of_cons|]. rewrite same_policy_key, (policy_of_cons k p). destruct (bool_decide_reflect (policy_key p = policy_key new)) as [E|E].
  - rewrite policy_of_cons. change (policy_key (MkPolicy _ _ _ _ _ _ _)) with (policy_key p). rewrite E. case_bool_decide; [|done].
    injection E as E1 E2 E3. rewrite E1, E2, E3. by destruct new.
  - rewrite policy_of_cons, IH. repeat case_bool_decide; try done. congruence.
Qed.

Lemma update_policy_keys new l : NoDup (map policy_key l) -> NoDup (map policy_key (update_policy new l)) /\
  forall k, k ∈ map policy_key (update_policy new l) -> k = policy_key new \/ k ∈ map policy_key l.
Proof.
  induction l as [|p l IH]; cbn [update_policy map]; [split; [apply NoDup_singleton|]; intros k ->%list_elem_of_singleton; by left|].
  intros [Hp Hl]%NoDup_cons. rewrite same_policy_key. case_bool_decide as E.
  - cbn [map]. change (policy_key (MkPolicy _ _ _ _ _ _ _)) with (policy_key p). split; [by constructor|]. intros k Hk. by right.
  - destruct (IH Hl) as [IH1 IH2]. cbn [map]. split.
    + constructor; [|done]. intros [?|?]%IH2; done.
    + intros k [->|Hk]%elem_of_cons; [right; by left|]. destruct (IH2 k Hk); [by left|right; by right].
Qed.

Section Messages.
Context {W C : Type} (malloc_ok : Z -> bool) (initial threshold : Z) (registered : Z -> bool).
Context (other_pack : Z -> opal_buffer_t -> dss_data -> outcome (Z * opal_buffer_t)).
Context (other_unpack : Z -> opal_buffer_t -> Z -> Z * option dss_data * opal_buffer_t).
Context (desc : bool) (env_limit : option cstr).
Abbreviation base := (orcm_sensor_base_t W C).
Abbreviation recv := (orcm_sensor_base_recv (W := W) (C := C) malloc_ok initial threshold registered other_pack other_unpack desc env_limit).
Implicit Types (b : base) (w : W).

(** A handler leaves the policies alone, or replaces one. *)
Definition policies_after b b' : Prop := sb_policy b' = sb_policy b \/ exists new, sb_policy b' = update_policy new (sb_policy b).

Lemma answer_policies ans items b w a b' w' : answer_items malloc_ok initial threshold registered other_pack ans items b w = Ret (a, b', w') -> b' = b.
Proof. unfold answer_items. intros H. apply bind_Ret_inv in H as ([rc m] & _ & H). by injection H. Qed.

Lemma error_policies ans code text b w a b' w' : error_answer malloc_ok initial threshold registered other_pack ans code text b w = Ret (a, b', w') -> b' = b.
Proof. unfold error_answer. intros H. apply bind_Ret_inv in H as ([rc m] & _ & H). by injection H. Qed.

Ltac follow H := repeat match type of H with
  | mbind _ _ = Ret _ => apply bind_Ret_inv in H as (? & ? & H)
  | (if ?c then _ else _) = Ret _ => destruct c eqn:?
  | (let '(_, _) := ?x in _) = Ret _ => destruct x eqn:?
  | context [let '(_, _) := ?x in _] => destruct x eqn:?
  end.

Ltac finish H := lazymatch type of H with
  | error_answer _ _ _ _ _ _ _ _ _ _ = Ret _ => apply error_policies in H as ->
  | answer_items _ _ _ _ _ _ _ _ _ = Ret _ => apply answer_policies in H as ->
  end.

Lemma set_policy_after ans buffer cnt b w a b' w' :
  set_policy_command malloc_ok initial threshold registered other_pack other_unpack ans buffer cnt b w = Ret (a, b', w') -> policies_after b b'.
Proof.
  unfold set_policy_command. intros H. follow H; finish H; solve [by left|right; by eexists].
Qed.

Lemma rate_state sensor rate b w found b' w' :
  (if strcmp0 sensor (cs "base") then Ret (true, orcm_sensor_base_set_sample_rate rate b, w)
   else '(found_me, w) ← for_modules (set_module_rate sensor rate) b (false, w); Ret (found_me, b, w)) = Ret (found, b', w') -> sb_policy b' = sb_policy b.
Proof. destruct (strcmp0 _ _); [by intros [= _ <- _]|]. intros H. apply bind_Ret_inv in H as ([f w1] & _ & H). by injection H as _ <- _. Qed.

Lemma set_rate_after ans buffer b w a b' w' :
  set_sample_rate_command malloc_ok initial threshold registered other_pack other_unpack env_limit ans buffer b w = Ret (a, b', w') -> policies_after b b'.
Proof.
  unfold set_sample_rate_command. intros H. left. follow H; finish H; try done;
    match goal with H : (if strcmp0 _ _ then _ else _) = Ret _ |- _ => by apply rate_state in H end.
Qed.

Lemma get_rate_after ans buffer b w a b' w' :
  get_sample_rate_command malloc_ok initial threshold registered other_pack other_unpack ans buffer b w = Ret (a, b', w') -> policies_after b b'.
Proof.
  unfold get_sample_rate_command. intros H. left. follow H; by finish H.
Qed.

Lemma recv_after buffer b w a b' w' : recv buffer b w = Ret (a, b', w') -> policies_after b b'.
Proof.
  unfold orcm_sensor_base_recv. intros H. follow H;
    lazymatch type of H with
    | set_sample_rate_command _ _ _ _ _ _ _ _ _ _ _ = Ret _ => by apply set_rate_after in H
    | set_policy_command _ _ _ _ _ _ _ _ _ _ _ = Ret _ => by apply set_policy_after in H
    | get_sample_rate_command _ _ _ _ _ _ _ _ _ _ = Ret _ => by apply get_rate_after in H
    | get_policy_command _ _ _ _ _ _ _ _ = Ret _ => left; unfold get_policy_command in H; by finish H
    | Ub = Ret _ => done
    | _ => left; by finish H
    end.
Qed.

(** Messages one after the other. *)
Fixpoint recv_all (buffers : list opal_buffer_t) b w : outcome (list (option opal_buffer_t) * base * W) :=
  match buffers with
  | [] => Ret ([], b, w)
  | buffer :: rest => '(a, b, w) ← recv buffer b w; '(l, b, w) ← recv_all rest b w; Ret (a :: l, b, w)
  end.

(** C26: whatever messages arrive, well formed or not, there is at most one policy for a sensor, a kind of threshold and
    a severity, and each message changes at most one policy, which then is the one of its key: the list of policies is a
    finite map. *)
Theorem sensor_policies_map buffers b w l b' w' :
  recv_all buffers b w = Ret (l, b', w') -> NoDup (map policy_key (sb_policy b)) ->
  NoDup (map policy_key (sb_policy b')) /\
  exists news, (length news <= length buffers)%nat /\
    forall k, policy_of k (sb_policy b') = foldr (fun new o => if bool_decide (policy_key new = k) then Some new else o) (policy_of k (sb_policy b)) news.
Proof.
  revert b w l. induction buffers as [|buffer buffers IH]; intros b w l H Hnd; cbn [recv_all] in H.
  { injection H as <- <- <-. split; [done|]. by exists []. }
  apply bind_Ret_inv in H as ([[a b1] w1] & Hr & H). apply bind_Ret_inv in H as ([[l1 b2] w2] & Hl & H). injection H as <- <- <-.
  assert (Hnd1 : NoDup (map policy_key (sb_policy b1))).
  { destruct (recv_after _ _ _ _ _ _ Hr) as [->|[new ->]]; [done|by apply update_policy_keys]. }
  destruct (IH b1 w1 l1 Hl Hnd1) as (H1 & news & Hlen & Hk). split; [done|].
  destruct (recv_after _ _ _ _ _ _ Hr) as [E|[new E]].
  - exists news. split; [cbn; lia|]. intros k. by rewrite Hk, E.
  - exists (news ++ [new]). split; [rewrite length_app; cbn; lia|]. intros k. by rewrite Hk, E, update_policy_lookup, foldr_app.
Qed.
End Messages.

(** ** Messages of inventory end *)
Section Inventory.
Context {W C : Type} (malloc_ok : Z -> bool) (registered : Z -> bool).
Context (other_unpack : Z -> opal_buffer_t -> Z -> Z * option dss_data * opal_buffer_t).
Hypothesis Hother : forall t n, forward (fun b => other_unpack t b n).
Abbreviation base := (orcm_sensor_base_t W C).
Abbreviation active := (orcm_sensor_active_module_t W C).
Implicit Types (b : base) (w : W).

(** A plugin that logs inventory only reads on in the buffer. *)
Definition reads_only (a : active) : Prop :=
  forall log host buffer w, sm_inventory_log (am_module a) = Some log -> inside buffer -> read_on buffer (log host buffer w).1.

Lemma log_reads host temp b l n buffer w : holds_places (sb_modules b) l n -> 0 <= n < 2 ^ 29 -> (forall a, Some a ∈ l -> reads_only a) -> inside buffer ->
  exists buffer' w', log_inventory host temp b buffer w = Ret (buffer', w') /\ read_on buffer buffer'.
Proof.
  intros Hr Hn Hl Hb. unfold log_inventory. rewrite (for_modules_places _ b l n _ Hr Hn). clear Hr. generalize 0. revert buffer w Hb.
  induction l as [|[a|] l IH]; intros buffer w Hb i; cbn [each_place].
  - exists buffer, w. split; [done|by apply read_on_refl].
  - rewrite bind_Ret. set (step := if strcmp0 temp _ then _ else _). destruct step as [buffer1 w1] eqn:E.
    assert (H1 : read_on buffer buffer1).
    { unfold step in E. destruct (strcmp0 _ _); [|injection E as <- _; by apply read_on_refl].
      destruct (sm_inventory_log (am_module a)) as [log|] eqn:El; [|injection E as <- _; by apply read_on_refl].
      pose proof (Hl a ltac:(left) log host buffer w El Hb) as Hread. by rewrite E in Hread. }
    destruct (IH ltac:(intros; apply Hl; by right) buffer1 w1 (ro_inside _ _ H1) (i + 1)) as (buffer' & w' & E' & H'). exists buffer', w'. split; [done|by etrans].
  - apply (IH ltac:(intros; apply Hl; by right)). done.
Qed.

Lemma inventory_loop_ends host b l n : holds_places (sb_modules b) l n -> 0 <= n < 2 ^ 29 -> (forall a, Some a ∈ l -> reads_only a) ->
  forall fuel k buffer w, inside buffer -> (length (b_data buffer) - b_unpack buffer <= fuel)%nat ->
  inventory_loop malloc_ok registered other_unpack fuel host k b buffer w <> Diverge.
Proof.
  intros Hr Hn Hl. induction fuel as [|fuel IH]; intros k buffer w Hb Hfuel; cbn [inventory_loop].
  all: pose proof (text_returns malloc_ok registered other_unpack buffer k None) as Hd;
    pose proof (fun s cnt u => text_advances malloc_ok registered other_unpack Hother buffer k None s cnt u Hb) as Ha;
    destruct (unpack_string _ _ _ buffer k None) as [[[[rc temp] cnt] buffer1]| |]; [|done|done]; rewrite bind_Ret;
    destruct (Z.eqb_spec rc OPAL_SUCCESS) as [->|]; [|done]; cbn [negb]; destruct (Ha _ _ _ eq_refl) as [[Hdata _ _ Hin] Hlt].
  - unfold inside in Hin. rewrite Hdata in Hin. lia.
  - assert (Hnext : forall buffer2, read_on buffer1 buffer2 -> inside buffer2 /\ (length (b_data buffer2) - b_unpack buffer2 <= fuel)%nat).
    { intros buffer2 [Hd2 _ Hf2 Hi2]. split; [done|]. unfold inside in *. rewrite Hd2, Hdata. rewrite Hd2, Hdata in Hi2. lia. }
    destruct temp as [temp|]; [|by apply IH; apply Hnext, read_on_refl].
    destruct (log_reads host temp b l n buffer1 w Hr Hn Hl Hin) as (buffer2 & w2 & -> & H2). rewrite bind_Ret. by apply IH; apply Hnext.
Qed.

(** C39: handling a message of inventory comes to an end, whatever it holds: the loop over its records reads some of it
    at every turn, as long as the plugins that log the records only read on in it. *)
Theorem sensor_inventory_terminates b l n buffer w :
  holds_places (sb_modules b) l n -> 0 <= n < 2 ^ 29 -> (forall a, Some a ∈ l -> reads_only a) -> inside buffer ->
  recv_inventory malloc_ok registered other_unpack buffer b w <> Diverge.
Proof.
  intros Hr Hn Hl Hb. unfold recv_inventory. pose proof (text_returns malloc_ok registered other_unpack buffer 1 None) as Hd.
  pose proof (fun s cnt u => text_advances malloc_ok registered other_unpack Hother buffer 1 None s cnt u Hb) as Ha.
  destruct (unpack_string _ _ _ buffer 1 None) as [[[[rc host] cnt] buffer1]| |]; [|done|done]. rewrite bind_Ret.
  destruct (Z.eqb_spec rc OPAL_SUCCESS) as [->|]; [|done]. cbn [negb]. destruct (Ha _ _ _ eq_refl) as [[_ _ _ Hin] _].
  destruct (negb _); [done|].
  pose proof (inventory_loop_ends host b l n Hr Hn Hl (length (b_data buffer1)) 1 buffer1 w Hin ltac:(lia)) as He.
  by destruct (inventory_loop _ _ _ _ host 1 b buffer1 w) as [[[] ]| |].
Qed.
End Inventory.

(** ** Stopping and starting again *)
Section Restart.
Context {W C : Type} (malloc_ok : Z -> bool) (initial threshold : Z) (registered : Z -> bool).
Context (other_pack : Z -> opal_buffer_t -> dss_data -> outcome (Z * opal_buffer_t)).
Context (other_unpack : Z -> opal_buffer_t -> Z -> Z * option dss_data * opal_buffer_t).
Context (desc is_cm : bool) (nodename env_limit : option cstr) (thread_ok : bool).
Abbreviation base := (orcm_sensor_base_t W C).
Implicit Types (b : base) (w : W).

Abbreviation start := (orcm_sensor_base_start (W := W) (C := C) malloc_ok initial threshold registered other_pack desc true is_cm nodename env_limit thread_ok).
Abbreviation stop := (orcm_sensor_base_stop (W := W) (C := C) true).

Lemma stop_loop job b l n w : holds_places (sb_modules b) l n -> 0 <= n < 2 ^ 29 ->
  exists w', for_modules (fun a w => Ret (inl (match sm_stop (am_module a) with Some stop => stop job w | None => w end))) b w = Ret w'.
Proof.
  intros Hr Hn. rewrite (for_modules_places _ b l n _ Hr Hn). generalize 0. clear Hr. revert w.
  induction l as [|[a|] l IH]; intros w i; cbn [each_place]; [by exists w|rewrite bind_Ret; apply IH|apply IH].
Qed.

Ltac log_case := first
  [ cbn; rewrite <- ?app_assoc, ?app_nil_r; done
  | let Hin := fresh in intros Hin; cbn in Hin; repeat (apply elem_of_cons in Hin as [Hin|Hin]; [done|]); by apply not_elem_of_nil in Hin ].

(** An aggregator that is stopped and started again has given up its database
    and does not ask for it a second time: every message of inventory is
    dropped from then on. *)
Theorem sensor_restart_without_database job b w l n :
  holds_places (sb_modules b) l n -> 0 <= n < 2 ^ 29 -> pa_size (sb_modules b) <> 0 -> sb_mods_active b = true -> cf_collect_inventory (sb_config b) = false ->
  exists b1 w1 b2 new, stop job b w = Ret (b1, w1) /\ start job b1 w1 = Ret (b2, w1) /\
    sb_log b2 = sb_log b ++ new /\ (OpenSensorDb ∉ new) /\
    forall buffer, recv_inventory malloc_ok registered other_unpack buffer b2 w1 = Ret w1 \/ recv_inventory malloc_ok registered other_unpack buffer b2 w1 = Ub.
Proof.
  intros Hr Hn Hsize Hact Hinv. destruct (stop_loop job b l n w Hr Hn) as (w1 & Hloop).
  assert (Hstop : exists b1 new, stop job b w = Ret (b1, w1) /\ sb_dbhandle_acquired b1 = false /\ sb_mods_active b1 = true /\ sb_modules b1 = sb_modules b /\
    sb_config b1 = sb_config b /\ sb_log b1 = sb_log b ++ new /\ (OpenSensorDb ∉ new)).
  { unfold orcm_sensor_base_stop, for_modules in *. destruct b as [cf ev mods rate cache pol h acq recv act sel log]. cbn in Hact, Hinv, Hloop. subst act.
    pose (new := (if recv then [CancelSensor] else []) ++ (if ev then [@PauseThread C] else []) ++ (if acq then [CloseSensorDb h] else [])).
    destruct recv, ev, acq; cbn in *; rewrite Hloop; cbn; eexists _, new; unfold new; split_and!; try done; log_case. }
  destruct Hstop as (b1 & new1 & E1 & Hacq & Hact1 & Hm & Hcf & Hlog & Hnew).
  assert (Hstart : exists b2 new, start job b1 w1 = Ret (b2, w1) /\ sb_dbhandle_acquired b2 = false /\ sb_log b2 = sb_log b1 ++ new /\ (OpenSensorDb ∉ new)).
  { unfold orcm_sensor_base_start. rewrite Hm. destruct (Z.eqb_spec (pa_size (sb_modules b)) 0); [done|].
    destruct b1 as [cf ev mods rate cache pol h acq recv act sel log]. cbn in *. subst act acq cf.
    pose (new := (if recv then [] else [ListenSensor]) ++ (if ev then [] else [@ResumeThread C])).
    destruct recv, ev; cbn in *; rewrite Hinv; cbn; eexists _, new; unfold new; split_and!; try done; log_case. }
  destruct Hstart as (b2 & new2 & E2 & Hacq2 & Hlog2 & Hnew2). exists b1, w1, b2, (new1 ++ new2). split_and!; [done|done|by rewrite Hlog2, Hlog, app_assoc| |].
  - intros [?|?]%elem_of_app; done.
  - intros buffer. unfold recv_inventory. rewrite Hacq2. pose proof (text_returns malloc_ok registered other_unpack buffer 1 None) as Hd.
    destruct (unpack_string _ _ _ buffer 1 None) as [[[[rc host] cnt] buffer1]| |]; [|by right|done]. rewrite bind_Ret. left. by destruct (negb _).
Qed.
End Restart.

(** ** Unknown commands *)
Section Unknown.
Context {W C : Type} (malloc_ok : Z -> bool) (initial threshold : Z) (registered : Z -> bool).
Context (other_pack : Z -> opal_buffer_t -> dss_data -> outcome (Z * opal_buffer_t)).
Context (other_unpack : Z -> opal_buffer_t -> Z -> Z * option dss_data * opal_buffer_t).
Context (desc : bool) (env_limit : option cstr).
Hypothesis Hmalloc : forall n, malloc_ok n = true.
Hypothesis Hinitial : 0 < initial < 2 ^ 31.
Hypothesis Hthreshold : 0 < threshold < 2 ^ 31.

(** A command to set something that does not exist is answered with the code
    for success, and a text that says it was not found. *)
Theorem sensor_unknown_command (b : orcm_sensor_base_t W C) (w : W) buf sub rest :
  0 <= sub < 256 -> sub <> ORCM_SET_SENSOR_SAMPLE_RATE_COMMAND -> sub <> ORCM_SET_SENSOR_POLICY_COMMAND ->
  holds desc buf ((byte_item ORCM_SET_SENSOR_COMMAND :: byte_item sub :: rest) ≫= enc_item registered desc) ->
  exists ans, orcm_sensor_base_recv malloc_ok initial threshold registered other_pack other_unpack desc env_limit buf b w = Ret (Some ans, b, w) /\
    delivers registered desc ans [int_item OPAL_SUCCESS; text_item (Some (cs "sensor set command " ++ fmt_d sub ++ cs " not found"))].
Proof.
  intros Hs H3 H5 Hb. destruct (command_read malloc_ok registered other_unpack desc Hmalloc buf ORCM_SET_SENSOR_COMMAND sub rest ltac:(done) Hs Hb) as (b1 & b2 & E1 & E2 & _).
  unfold orcm_sensor_base_recv. rewrite E1. cbn [negb Z.eqb OPAL_SUCCESS deref]. rewrite bind_Ret.
  change (ORCM_SET_SENSOR_COMMAND =? ORCM_SET_SENSOR_COMMAND) with true. cbv iota. rewrite E2. cbn [negb Z.eqb OPAL_SUCCESS deref]. rewrite bind_Ret.
  destruct (Z.eqb_spec sub ORCM_SET_SENSOR_SAMPLE_RATE_COMMAND); [done|]. destruct (Z.eqb_spec sub ORCM_SET_SENSOR_POLICY_COMMAND); [done|].
  apply (error_answered malloc_ok initial threshold registered other_pack desc Hmalloc Hinitial Hthreshold OPAL_SUCCESS).
  destruct (fmt_d_text sub) as [Ht Hl]; [unfold int32, INT_MIN, INT_MAX; lia|]. split.
  - repeat (apply Forall_app; split); try done; repeat constructor; done.
  - rewrite !length_app. cbn [cs length String.list_ascii_of_string]. lia.
Qed.
End Unknown.

(** ** Examples *)

(** Floats as the pattern of their bytes, which is kept in the message as an
    integer. *)
Definition float_pack (_ : Z) (b : opal_buffer_t) (d : dss_data) : outcome (Z * opal_buffer_t) :=
  pack_item (fun _ => true) 128 1024 (fun _ => false) no_pack b (d, OPAL_UINT32).
Definition float_unpack (_ : Z) (b : opal_buffer_t) (n : Z) : Z * option dss_data * opal_buffer_t :=
  opal_dss_unpack (fun _ => true) (fun _ => false) no_unpack b n OPAL_UINT32.

Definition policy_message (name : string) (threshold max : Z) : opal_buffer_t :=
  match pack_items (fun _ => true) 128 1024 (fun _ => true) float_pack (opal_buffer_construct false)
      (byte_item ORCM_SET_SENSOR_COMMAND :: byte_item ORCM_SET_SENSOR_POLICY_COMMAND ::
       policy_items (MkPolicy (cs name) max 60 (D32 [threshold]) true 2 (cs "syslog"))) with
  | Ret (_, b) => match deliver false b with Ret rb => rb | _ => opal_buffer_construct false end
  | _ => opal_buffer_construct false
  end.

Definition policy_base : orcm_sensor_base_t unit unit :=
  MkSensorBase (MkSensorConfig false true false false) true opal_pointer_array_construct 10 (opal_buffer_construct false) [] (-1) false true true true [].

Example policy_replaced :
  ('(_, b, _) ← recv_all (fun _ => true) 128 1024 (fun _ => true) float_pack float_unpack false None
     [policy_message "coretemp" 100 3; policy_message "coretemp" 90 5; policy_message "power" 7 1] policy_base tt;
   Ret (map (fun p => (pl_sensor_name p, pl_threshold p, pl_max_count p)) (sb_policy b))) =
  Ret [(cs "coretemp", D32 [90], 5); (cs "power", D32 [7], 1)].
Proof. vm_compute. reflexivity. Qed.

Definition policy_messages : list opal_buffer_t :=
  [policy_message "coretemp" 100 3; opal_buffer_construct false; policy_message "coretemp" 90 5; policy_message "power" 7 1].

Lemma sensor_policies_map_witness :
  exists l b', recv_all (fun _ => true) 128 1024 (fun _ => true) float_pack float_unpack false None policy_messages policy_base tt = Ret (l, b', tt) /\
    NoDup (map policy_key (sb_policy b')).
Proof.
  destruct (recv_all (fun _ => true) 128 1024 (fun _ => true) float_pack float_unpack false None policy_messages policy_base tt) as [[[l b'] []]| |] eqn:E;
    [|vm_compute in E; discriminate E|vm_compute in E; discriminate E].
  exists l, b'. split; [reflexivity|].
  apply (sensor_policies_map (fun _ => true) 128 1024 (fun _ => true) float_pack float_unpack false None policy_messages policy_base tt l b' tt E). constructor.
Defined.

(** The name of the node, a record of a plugin that is there, one of a plugin
    that is not. *)
Definition inventory_message : opal_buffer_t :=
  match pack_items (fun _ => true) 128 1024 (fun _ => false) no_pack (opal_buffer_construct false)
      [text_item (Some (cs "n1")); text_item (Some (cs "coretemp")); int_item 3; text_item None; text_item (Some (cs "freq")); int_item 7] with
  | Ret (_, b) => match deliver false b with Ret rb => rb | _ => opal_buffer_construct false end
  | _ => opal_buffer_construct false
  end.

(** A plugin whose record of inventory is one number. *)
Definition read_record (_ : option cstr) (buffer : opal_buffer_t) (w : unit) : opal_buffer_t * unit :=
  ((opal_dss_unpack (fun _ => true) (fun _ => false) no_unpack buffer 1 OPAL_INT).2, w).
Definition logging_sensor : orcm_sensor_active_module_t unit unit :=
  MkActiveSensor (MkSensorComponent (cs "coretemp") (cs "temperature") None)
    (MkSensorModule None None None None None None None (Some read_record) None None None None None) 50 true.
Definition logging_base : orcm_sensor_base_t unit unit :=
  MkSensorBase (MkSensorConfig false true false false) true (MkPtrArray 1 2 3 INT_MAX 1 (Some [Some logging_sensor; None; None])) 10
    (opal_buffer_construct false) [] 0 true true true true [].

Lemma sensor_inventory_terminates_witness :
  recv_inventory (fun _ => true) (fun _ => false) no_unpack inventory_message logging_base tt <> Diverge.
Proof.
  apply (sensor_inventory_terminates (fun _ => true) (fun _ => false) no_unpack) with (l := [Some logging_sensor]) (n := 1).
  - intros t n. split; [|done]. intros b Hb. by apply read_on_refl.
  - apply one_entry_places.
  - lia.
  - intros a [[= ->]|?%not_elem_of_nil]%elem_of_cons; [|done]. intros log host buffer w Hlog Hin. injection Hlog as <-.
    refine (fw_read (forward_unpack (fun _ => true) (fun _ => false) no_unpack _ 1 OPAL_INT) buffer Hin).
    intros t n. split; [|done]. intros b Hb. by apply read_on_refl.
  - vm_compute. lia.
Defined.

Lemma sensor_restart_without_database_witness :
  exists b1 w1 b2, orcm_sensor_base_stop true 1 (set_db 4 true rate_base) (MkCoretemp false 60) = Ret (b1, w1) /\
    orcm_sensor_base_start (fun _ => true) 128 1024 (fun _ => false) no_pack false true false None None true 1 b1 w1 = Ret (b2, w1) /\
    sb_log b2 = [CancelSensor; PauseThread; CloseSensorDb 4; ListenSensor; ResumeThread].
Proof.
  destruct (sensor_restart_without_database (fun _ => true) 128 1024 (fun _ => false) no_pack no_unpack false false None None true
    1 (set_db 4 true rate_base) (MkCoretemp false 60) [Some rate_sensor] 1) as (b1 & w1 & b2 & new & E1 & E2 & _); [apply rate_table_places|lia|done|done|done|].
  exists b1, w1, b2. split; [exact E1|]. split; [exact E2|].
  vm_compute in E1. injection E1 as <- <-. vm_compute in E2. injection E2 as <-. reflexivity.
Defined.
