(* ===== verification/AnalyticsSpatial.v ===== *)
(** * The spatial plugin ([orcm/mca/analytics/spatial/analytics_spatial.c])

    The plugin waits until every node of its list has reported, and then
    answers with the average, minimum, maximum or deviation over the latest
    data of all nodes.  The data of a node are kept in a hash table under the
    node's name.  The first sample of a round starts a timer; when it expires
    [analyze] is called with a caddy without compute data and answers with what
    has arrived.  Within [interval] seconds after an answer samples are
    refused.

    [ss_timeout_event] is the caddy of the timer.  The time of day is an
    argument, the list of nodes is expanded by an [Expander]. *)

From S2P Require Import Prelude CString Argv HashTable Regex LogicalGroup Dss DssValue Float64 OrcmUtil.
From S2P Require Import AnalyticsBase AnalyticsWindow AnalyticsFilter.
From stdpp Require Import base strings numbers list gmap fin_maps.
From Stdlib Require Import ZArith Lia Ascii.

Open Scope Z_scope.

Definition ORCM_ANALYTICS_COMPUTE_UNKNOWN : Z := -1.
Definition ORCM_ANALYTICS_COMPUTE_AVE : Z := 0.
Definition ORCM_ANALYTICS_COMPUTE_MIN : Z := 1.
Definition ORCM_ANALYTICS_COMPUTE_MAX : Z := 2.
Definition ORCM_ANALYTICS_COMPUTE_SD : Z := 3.

Definition orcm_analytics_base_get_compute_type (compute_type : option cstr) : Z :=
  match compute_type with
  | None => ORCM_ANALYTICS_COMPUTE_UNKNOWN
  | Some t =>
    if strcmp0 t (cs "average") then ORCM_ANALYTICS_COMPUTE_AVE
    else if strcmp0 t (cs "min") then ORCM_ANALYTICS_COMPUTE_MIN
    else if strcmp0 t (cs "max") then ORCM_ANALYTICS_COMPUTE_MAX
    else if strcmp0 t (cs "sd") then ORCM_ANALYTICS_COMPUTE_SD
    else ORCM_ANALYTICS_COMPUTE_UNKNOWN
  end.

Definition orcm_analytics_base_set_compute_type (compute_type_id : Z) : cstr :=
  if compute_type_id =? ORCM_ANALYTICS_COMPUTE_AVE then cs "average"
  else if compute_type_id =? ORCM_ANALYTICS_COMPUTE_MIN then cs "min"
  else if compute_type_id =? ORCM_ANALYTICS_COMPUTE_MAX then cs "max"
  else if compute_type_id =? ORCM_ANALYTICS_COMPUTE_SD then cs "sd"
  else cs "unknow".

Definition time_of (t : Z * Z) : double := dadd (of_int t.1) (ddiv (of_int t.2) (of_int 1000000)).
Definition orcm_util_time_diff (time1 time2 : Z * Z) : double := dsub (time_of time2) (time_of time1).

Definition buckets_t : Type := opal_hash_table_t (list ascii) (list orcm_value_t).

Record spatial_statistics_t : Type := MkSpatial {
  ss_interval : Z;
  ss_size : Z;
  ss_nodelist : argv_t;
  ss_compute_type : Z;
  ss_last_round_time : option (Z * Z);
  ss_buckets : option buckets_t;
  ss_result : double;
  ss_num_data_point : Z;
  ss_timeout_event : option orcm_workflow_caddy_t;
  ss_timeout : Z
}.

Definition spatial_statistics_con : spatial_statistics_t :=
  MkSpatial 60 0 None ORCM_ANALYTICS_COMPUTE_UNKNOWN None None d0 0 None 60.

Definition with_setup (interval size : Z) (nodelist : argv_t) (ct timeout : Z) (s : spatial_statistics_t)
    : spatial_statistics_t :=
  MkSpatial interval size nodelist ct (ss_last_round_time s) (ss_buckets s) (ss_result s) (ss_num_data_point s)
    (ss_timeout_event s) timeout.
Definition with_buckets (ht : buckets_t) (s : spatial_statistics_t) : spatial_statistics_t :=
  MkSpatial (ss_interval s) (ss_size s) (ss_nodelist s) (ss_compute_type s) (ss_last_round_time s) (Some ht)
    (ss_result s) (ss_num_data_point s) (ss_timeout_event s) (ss_timeout s).
Definition with_result (result : double) (points : Z) (s : spatial_statistics_t) : spatial_statistics_t :=
  MkSpatial (ss_interval s) (ss_size s) (ss_nodelist s) (ss_compute_type s) (ss_last_round_time s) (ss_buckets s)
    result points (ss_timeout_event s) (ss_timeout s).
Definition with_timer (last : option (Z * Z)) (ev : option orcm_workflow_caddy_t) (s : spatial_statistics_t)
    : spatial_statistics_t :=
  MkSpatial (ss_interval s) (ss_size s) (ss_nodelist s) (ss_compute_type s) last (ss_buckets s) (ss_result s)
    (ss_num_data_point s) ev (ss_timeout s).

(** What the accumulated result starts from. *)
Definition start_of (ct : Z) : double :=
  if ct =? ORCM_ANALYTICS_COMPUTE_MIN then DBL_MAX else if ct =? ORCM_ANALYTICS_COMPUTE_MAX then DBL_MIN else d0.

Definition reset_statistics (s : spatial_statistics_t) (current_time : option (Z * Z)) : outcome spatial_statistics_t :=
  ht ← deref (ss_buckets s);
  let s := with_buckets (opal_hash_table_remove_all ht).2 s in
  let s := with_result (start_of (ss_compute_type s)) 0 s in
  Ret (with_timer (match current_time with Some t => Some t | None => ss_last_round_time s end) None s).

Section Spatial.
Variable pow2 : double -> double.
Variable calloc_ok : Z -> bool.
Context {W : Type} `{Expander W}.

Definition fill_spatial_statistics (s : spatial_statistics_t) : outcome (Z * spatial_statistics_t) :=
  if ss_compute_type s <? ORCM_ANALYTICS_COMPUTE_AVE then Ret (OPAL_ERR_BAD_PARAM, s)
  else
    let size := opal_argv_count (ss_nodelist s) in
    let s := with_setup (ss_interval s) size (ss_nodelist s) (ss_compute_type s) (ss_timeout s) s in
    if size =? 0 then Ret (OPAL_ERR_BAD_PARAM, s)
    else if ss_interval s =? 0 then Ret (OPAL_ERR_BAD_PARAM, s)
    else if ss_timeout s =? 0 then Ret (OPAL_ERR_BAD_PARAM, s)
    else
      s ← reset_statistics (with_buckets opal_hash_table_construct s) None;
      ht ← deref (ss_buckets s);
      '(rc, ht) ← opal_hash_table_init calloc_ok ht size;
      Ret (rc, with_buckets ht s).

Fixpoint init_attributes (s : spatial_statistics_t) (attributes : list orcm_value_t) (w : W)
    : outcome (Z * spatial_statistics_t * W) :=
  match attributes with
  | [] => Ret (OPAL_SUCCESS, s, w)
  | a :: attributes' =>
    match ov_key a with
    | None => Ret (OPAL_ERR_BAD_PARAM, s, w)
    | Some k =>
      if is_null (data_string a) then Ret (OPAL_ERR_BAD_PARAM, s, w)
      else if strcmp0 k (cs "nodelist") then
        match ss_nodelist s with
        | Some _ => init_attributes s attributes' w
        | None =>
          text ← deref_string (data_string a);
          '(rc, names, w) ← expand (Some text) w;
          let s := with_setup (ss_interval s) (ss_size s) names (ss_compute_type s) (ss_timeout s) s in
          if negb (rc =? OPAL_SUCCESS) then Ret (rc, s, w) else init_attributes s attributes' w
        end
      else if strcmp0 k (cs "compute") then
        text ← deref_string (data_string a);
        init_attributes (with_setup (ss_interval s) (ss_size s) (ss_nodelist s)
          (orcm_analytics_base_get_compute_type (Some text)) (ss_timeout s) s) attributes' w
      else if strcmp0 k (cs "interval") then
        text ← deref_string (data_string a);
        t ← orcm_util_get_time_in_sec (Some text);
        init_attributes (with_setup t (ss_size s) (ss_nodelist s) (ss_compute_type s) (ss_timeout s) s) attributes' w
      else if strcmp0 k (cs "timeout") then
        text ← deref_string (data_string a);
        t ← orcm_util_get_time_in_sec (Some text);
        init_attributes (with_setup (ss_interval s) (ss_size s) (ss_nodelist s) (ss_compute_type s) t s) attributes' w
      else init_attributes s attributes' w
    end
  end.

Definition init_spatial_statistics (s : spatial_statistics_t) (attributes : list orcm_value_t) (w : W)
    : outcome (Z * spatial_statistics_t * W) :=
  '(rc, s, w) ← init_attributes s attributes w;
  if negb (rc =? OPAL_SUCCESS) then Ret (rc, s, w)
  else '(rc, s) ← fill_spatial_statistics s; Ret (rc, s, w).

(** The numbers are read as [int]s. *)
Definition set_event_description (s : spatial_statistics_t) (recv : Z) (ev : orcm_ras_event_t) : Z * orcm_ras_event_t :=
  let add '(rc, ev) key data type :=
    if rc =? OPAL_SUCCESS then orcm_analytics_base_event_set_description ev key data type None else (rc, ev) in
  let r := orcm_analytics_base_event_set_description ev (cs "interval") (VInt (i32 (ss_interval s))) OPAL_INT None in
  let r := add r (cs "timeout") (VInt (i32 (ss_timeout s))) OPAL_INT in
  let r := add r (cs "compute_type")
             (VString (Some (orcm_analytics_base_set_compute_type (ss_compute_type s)))) OPAL_STRING in
  let r := add r (cs "num_sample_recv") (VInt (i32 recv)) OPAL_INT in
  add r (cs "num_data_point") (VInt (ss_num_data_point s)) OPAL_UINT64.

Definition send_data_to_dispatch (s : spatial_statistics_t) (value : orcm_analytics_value_t)
    : outcome (Z * list orcm_ras_event_t) :=
  ev ← orcm_analytics_base_event_create value ORCM_RAS_EVENT_SENSOR ORCM_RAS_SEVERITY_INFO;
  match ev with
  | None => Ret (OPAL_ERROR, [])
  | Some ev =>
    let '(rc, ev) := orcm_analytics_base_event_set_storage ev ORCM_STORAGE_TYPE_DATABASE in
    if negb (rc =? OPAL_SUCCESS) then Ret (rc, [])
    else
      ht ← deref (ss_buckets s);
      let '(rc, ev) := set_event_description s (ht_size ht) ev in
      Ret (if rc =? OPAL_SUCCESS then (rc, [ev]) else (rc, []))
  end.

Definition do_operation (ct : Z) (result num : double) : double :=
  if (ct =? ORCM_ANALYTICS_COMPUTE_AVE) || (ct =? ORCM_ANALYTICS_COMPUTE_SD) then dadd result num
  else if ct =? ORCM_ANALYTICS_COMPUTE_MIN then if dltb num result then num else result
  else if dltb result num then num else result.

(** Over the nodes of the list that have reported. *)
Fixpoint sum_squares (nodes : list cstr) (ht : buckets_t) (mean sum : double) : outcome (double * buckets_t) :=
  match nodes with
  | [] => Ret (sum, ht)
  | n :: nodes' =>
    '(rc, v, ht) ← opal_hash_table_get_value_ptr ht (tag_key n);
    if negb (rc =? OPAL_SUCCESS) then sum_squares nodes' ht mean sum
    else
      l ← deref v;
      sum_squares nodes' ht mean
        (foldl (fun sum x => dadd sum (pow2 (dsub (orcm_util_get_number_orcm_value x) mean))) sum l)
  end.

Definition find_sd (s : spatial_statistics_t) : outcome spatial_statistics_t :=
  if ss_compute_type s =? ORCM_ANALYTICS_COMPUTE_SD then
    ht ← deref (ss_buckets s);
    '(sum, ht) ← sum_squares (argv_list (ss_nodelist s)) ht (ss_result s) d0;
    Ret (with_buckets ht (with_result (dsqrt (ddiv sum (of_int (ss_num_data_point s)))) (ss_num_data_point s) s))
  else Ret s.

Fixpoint accumulate_nodes (nodes : list cstr) (ct : Z) (ht : buckets_t) (result : double) (points : Z) (units : option cstr)
    : outcome (buckets_t * double * Z * option cstr) :=
  match nodes with
  | [] => Ret (ht, result, points, units)
  | n :: nodes' =>
    '(rc, v, ht) ← opal_hash_table_get_value_ptr ht (tag_key n);
    if negb (rc =? OPAL_SUCCESS) then accumulate_nodes nodes' ct ht result points units
    else
      l ← deref v;
      let units := foldl (fun u x => match u with Some _ => u | None => ov_units x end) units l in
      let result := foldl (do_operation ct) result (orcm_util_get_number_orcm_value <$> l) in
      accumulate_nodes nodes' ct ht result (u64 (points + Z.of_nat (length l))) units
  end.

Definition do_compute (s : spatial_statistics_t) : outcome (Z * spatial_statistics_t * option cstr) :=
  ht ← deref (ss_buckets s);
  '(ht, result, points, units) ← accumulate_nodes (argv_list (ss_nodelist s)) (ss_compute_type s) ht
                                   (ss_result s) (ss_num_data_point s) None;
  let s := with_buckets ht (with_result result points s) in
  if points =? 0 then Ret (OPAL_ERR_BAD_PARAM, s, units)
  else
    let ct := ss_compute_type s in
    let s := if (ct =? ORCM_ANALYTICS_COMPUTE_AVE) || (ct =? ORCM_ANALYTICS_COMPUTE_SD)
             then with_result (ddiv (ss_result s) (of_int points)) points s else s in
    s ← find_sd s;
    Ret (OPAL_SUCCESS, s, units).

Definition handle_full_bucket (now : Z * Z) (s : spatial_statistics_t) (j : job)
    : outcome (Z * spatial_statistics_t * list orcm_ras_event_t * option orcm_analytics_value_t) :=
  '(rc, s, units) ← do_compute s;
  if negb (rc =? OPAL_SUCCESS) then Ret (rc, s, [], None)
  else
    let data_key := orcm_analytics_base_data_key (Some (orcm_analytics_base_set_compute_type (ss_compute_type s)))
                      (j_wf j) (j_step j) in
    match orcm_util_load_orcm_value (Some data_key) (VDouble (ss_result s)) OPAL_DOUBLE units with
    | None => Ret (rc, s, [], None)
    | Some item =>
      let next := orcm_util_load_analytics_time_compute now (av_key (j_value j))
                    (av_non_compute_data (j_value j)) (Some [item]) in
      db ← orcm_analytics_base_db_check (ws_attributes (j_step j));
      if db : bool then
        '(rc, ras) ← send_data_to_dispatch s next;
        Ret (rc, s, ras, if rc =? OPAL_SUCCESS then Some next else None)
      else Ret (rc, s, [], Some next)
    end.

(** The timer's caddy has the key of the first sample and no compute data. *)
Definition insert_timeout_event (s : spatial_statistics_t) (j : job) : spatial_statistics_t :=
  let data := orcm_util_load_orcm_analytics_value_compute (av_key (j_value j)) (av_non_compute_data (j_value j)) None in
  with_timer (ss_last_round_time s)
    (Some (MkWfCaddy (Some (j_step j)) (Some (j_wf j)) (j_hash_key j) (Some data) true)) s.

(** Does the sample's host name match the node?  The first key called
    hostname decides; a bad key ends the search. *)
Fixpoint match_host (keys : list orcm_value_t) (node : cstr) : outcome (Z * bool) :=
  match keys with
  | [] => Ret (OPAL_SUCCESS, false)
  | item :: keys' =>
    match ov_key item with
    | None => Ret (OPAL_ERR_BAD_PARAM, false)
    | Some k =>
      if strcmp0 (cs "hostname") k then
        if is_null (data_string item) then Ret (OPAL_ERR_BAD_PARAM, false)
        else host ← deref_string (data_string item); Ret (OPAL_SUCCESS, strcmp0 node host)
      else match_host keys' node
    end
  end.

(** The sample's data go into the bucket of [node]. *)
Definition fill_bucket_of (now : Z * Z) (s : spatial_statistics_t) (j : job) (node : cstr)
    : outcome (Z * spatial_statistics_t * list orcm_ras_event_t * option orcm_analytics_value_t) :=
  ht ← deref (ss_buckets s);
  '(rc, _, ht) ← opal_hash_table_get_value_ptr ht (tag_key node);
  if negb (rc =? OPAL_SUCCESS) && negb (rc =? OPAL_ERR_NOT_FOUND) then Ret (rc, with_buckets ht s, [], None)
  else
    compute_data ← deref (av_compute_data (j_value j));
    '(rc, ht) ← opal_hash_table_set_value_ptr calloc_ok ht (tag_key node) compute_data;
    let s := with_buckets ht s in
    if negb (rc =? OPAL_SUCCESS) then Ret (rc, s, [], None)
    else if ss_size s =? i32 (ht_size ht) then handle_full_bucket now s j
    else
      let s := match ss_timeout_event s with
               | None => if ht_size ht =? 1 then insert_timeout_event s j else s
               | Some _ => s
               end in
      Ret (ORTE_ERR_RECV_MORE_THAN_POSTED, s, [], None).

Fixpoint fill_bucket (nodes : list cstr) (now : Z * Z) (s : spatial_statistics_t) (j : job)
    : outcome (Z * spatial_statistics_t * list orcm_ras_event_t * option orcm_analytics_value_t) :=
  match nodes with
  | [] => Ret (OPAL_ERR_BAD_PARAM, s, [], None)
  | node :: nodes' =>
    keys ← deref (av_key (j_value j));
    '(rc, found) ← match_host keys node;
    if negb (rc =? OPAL_SUCCESS) then Ret (rc, s, [], None)
    else if found : bool then fill_bucket_of now s j node
    else fill_bucket nodes' now s j
  end.

Definition collect_sample (now : Z * Z) (s : spatial_statistics_t) (j : job)
    : outcome (Z * spatial_statistics_t * list orcm_ras_event_t * option orcm_analytics_value_t) :=
  match av_key (j_value j), av_non_compute_data (j_value j), av_compute_data (j_value j) with
  | Some (_ :: _), Some _, Some (_ :: _) =>
    if match ss_last_round_time s with
       | None => true
       | Some last => dleb (of_int (ss_interval s)) (orcm_util_time_diff last now)
       end
    then
      '(rc, s, ras, next) ← fill_bucket (argv_list (ss_nodelist s)) now s j;
      match next with
      | Some _ => s ← reset_statistics s (Some now); Ret (rc, s, ras, next)
      | None => Ret (rc, s, ras, next)
      end
    else Ret (ORTE_ERR_RECV_MORE_THAN_POSTED, s, [], None)
  | _, _, _ => Ret (OPAL_ERR_BAD_PARAM, s, [], None)
  end.

Definition analyze (now : Z * Z) (data_store : option spatial_statistics_t) (cbdata : option orcm_workflow_caddy_t) (w : W)
    : outcome (analyzed (option spatial_statistics_t * W)) :=
  let rc := orcm_analytics_base_assert_caddy_data cbdata in
  if negb (rc =? OPAL_SUCCESS) then Ret (rc, (data_store, w), [], None)
  else
    caddy ← deref cbdata;
    j ← caddy_job caddy;
    let s := default spatial_statistics_con data_store in
    '(rc, s, w) ← (if ss_size s =? 0 then init_spatial_statistics s (ws_attributes (j_step j)) w
                   else Ret (OPAL_SUCCESS, s, w));
    if negb (rc =? OPAL_SUCCESS) then
      Ret (rc, (Some (with_setup (ss_interval s) 0 (ss_nodelist s) (ss_compute_type s) (ss_timeout s) s), w), [], None)
    else
      match av_compute_data (j_value j) with
      | None =>
        '(rc, s, ras, next) ← handle_full_bucket now s j;
        match next with
        | Some v =>
          if rc =? OPAL_SUCCESS then
            s ← reset_statistics s (Some now); Ret (rc, (Some s, w), ras, Some (j_hash_key j, v))
          else Ret (rc, (Some s, w), ras, None)
        | None => Ret (rc, (Some s, w), ras, None)
        end
      | Some _ =>
        '(rc, s, ras, next) ← collect_sample now s j;
        match next with
        | Some v => Ret (rc, (Some s, w), ras, if rc =? OPAL_SUCCESS then Some (j_hash_key j, v) else None)
        | None => Ret (rc, (Some s, w), ras, None)
        end
      end.
End Spatial.
