(* ===== verification/SpatialClaims.v ===== *)
(** * The spatial plugin computes rounds over all nodes

    The reference is a machine that keeps the latest data of every node and
    answers when no node is missing or when the time is up; what an answer has
    to be is said by [is_statistic], without the way the code computes it.  The
    plugin implements it over a hash
    table; that the table is full when its size is the length of the list uses
    that only nodes of the list are entered and that the list has no
    duplicates. *)

From S2P Require Import Prelude CString Argv HashTable Regex LogicalGroup Dss DssValue Float64 OrcmUtil.
From S2P Require Import AnalyticsBase AnalyticsWindow AnalyticsFilter AnalyticsSpatial.
From stdpp Require Import base strings numbers sets list gmap fin_maps.
From Stdlib Require Import ZArith Lia Ascii.

Open Scope Z_scope.

(** ** The reference *)
Abbreviation number := orcm_util_get_number_orcm_value.
Abbreviation data_t := (list orcm_value_t).

Section Reference.
Context (pow2 : double -> double).

(** What the code makes of the numbers: extremes start from [DBL_MAX] and
    [DBL_MIN]. *)
Definition computed (ct : Z) (xs : list double) : double :=
  let n := of_int (Z.of_nat (length xs)) in
  let mean := ddiv (foldl dadd d0 xs) n in
  if ct =? ORCM_ANALYTICS_COMPUTE_AVE then mean
  else if ct =? ORCM_ANALYTICS_COMPUTE_MIN then foldl keep_min DBL_MAX xs
  else if ct =? ORCM_ANALYTICS_COMPUTE_MAX then foldl keep_max DBL_MIN xs
  else dsqrt (ddiv (foldl (fun sum x => dadd sum (pow2 (dsub x mean))) d0 xs) n).

(** [d] is the average, a least or a greatest number of [xs], or the standard
    deviation. *)
Definition is_statistic (ct : Z) (xs : list double) (d : double) : Prop :=
  let n := of_int (Z.of_nat (length xs)) in
  let mean := ddiv (foldl dadd d0 xs) n in
  if ct =? ORCM_ANALYTICS_COMPUTE_AVE then d = mean
  else if ct =? ORCM_ANALYTICS_COMPUTE_MIN then least d xs
  else if ct =? ORCM_ANALYTICS_COMPUTE_MAX then greatest d xs
  else d = dsqrt (ddiv (foldl (fun sum x => dadd sum (pow2 (dsub x mean))) d0 xs) n).

(** A number the extremes can be computed with: below the greatest finite
    number for the minimum, above the least positive normal one for the
    maximum. *)
Definition in_range (ct : Z) (x : double) : bool :=
  if ct =? ORCM_ANALYTICS_COMPUTE_MIN then dltb x DBL_MAX
  else if ct =? ORCM_ANALYTICS_COMPUTE_MAX then dltb DBL_MIN x else true.

Lemma computed_statistic ct xs : Exists (fun x => in_range ct x = true) xs -> is_statistic ct xs (computed ct xs).
Proof.
  intros He. unfold is_statistic, computed, in_range in *. destruct (ct =? ORCM_ANALYTICS_COMPUTE_AVE); [done|].
  destruct (ct =? ORCM_ANALYTICS_COMPUTE_MIN); [|destruct (ct =? ORCM_ANALYTICS_COMPUTE_MAX); [|done]];
    apply Exists_exists in He as (x & Hx & Hlt); pose proof (dltb_nan _ _ Hlt) as [Hn1 Hn2].
  - destruct (fold_min_least DBL_MAX xs eq_refl) as (Hn & Hin & Hall). apply Forall_cons_iff in Hall as [_ Hall]. split; [|done].
    apply elem_of_cons in Hin as [E|]; [exfalso|done]. rewrite Forall_forall in Hall. specialize (Hall x Hx Hn1). rewrite E in Hall.
    rewrite dleb_not_lt, Hlt in Hall; done.
  - destruct (fold_max_greatest DBL_MIN xs eq_refl) as (Hn & Hin & Hall). apply Forall_cons_iff in Hall as [_ Hall]. split; [|done].
    apply elem_of_cons in Hin as [E|]; [exfalso|done]. rewrite Forall_forall in Hall. specialize (Hall x Hx Hn2). rewrite E in Hall.
    rewrite dleb_not_lt, Hlt in Hall; done.
Qed.
End Reference.

Record round : Type := MkRound { rd_last : option (Z * Z); rd_data : gmap cstr data_t }.

Definition elapsed (interval : Z) (last : option (Z * Z)) (now : Z * Z) : bool :=
  match last with None => true | Some t => dleb (of_int interval) (orcm_util_time_diff t now) end.

Definition complete (nodes : list cstr) (m : gmap cstr data_t) : Prop := Forall (fun n => is_Some (m !! n)) nodes.

Definition all_numbers (nodes : list cstr) (m : gmap cstr data_t) : list double :=
  nodes ≫= fun n => number <$> default [] (m !! n).

(** A node reports its data, or the timer of the round expires. *)
Inductive round_event : Type :=
| RSample (now : Z * Z) (host : cstr) (vs : data_t)
| RTimer (now : Z * Z).

(** The next state, and the numbers of the round if it is over. *)
Definition round_step (nodes : list cstr) (interval : Z) (r : round) (e : round_event) : round * option (list double) :=
  match e with
  | RSample now host vs =>
    if elapsed interval (rd_last r) now && bool_decide (host ∈ nodes) then
      let m := <[host := vs]> (rd_data r) in
      if bool_decide (complete nodes m) then (MkRound (Some now) ∅, Some (all_numbers nodes m))
      else (MkRound (rd_last r) m, None)
    else (r, None)
  | RTimer now =>
    if bool_decide (rd_data r = ∅) then (r, None) else (MkRound (Some now) ∅, Some (all_numbers nodes (rd_data r)))
  end.

Fixpoint rounds (nodes : list cstr) (interval : Z) (r : round) (l : list round_event) : list (option (list double)) :=
  match l with
  | [] => []
  | e :: l' => let '(r, xs) := round_step nodes interval r e in xs :: rounds nodes interval r l'
  end.

(** ** The plugin on a sequence of caddies *)
(** The number in a sample that is passed on. *)
Definition answer_of (next : option activation_t) : option double :=
  match next with
  | Some (_, v) => match av_compute_data v with Some [MkOrcmValue _ _ (VDouble d) _] => Some d | _ => None end
  | None => None
  end.

(** A caddy arrives, or the timer of the module expires: [analyze] is called
    with the caddy of the timer if there is one. *)
Inductive spatial_event : Type :=
| SpSample (now : Z * Z) (c : orcm_workflow_caddy_t)
| SpTimer (now : Z * Z).

Definition event_caddy (ds : option spatial_statistics_t) (e : spatial_event) : (Z * Z) * option orcm_workflow_caddy_t :=
  match e with
  | SpSample now c => (now, Some c)
  | SpTimer now => (now, ds ≫= ss_timeout_event)
  end.

Fixpoint feed_spatial (pow2 : double -> double) (calloc_ok : Z -> bool) {W} `{Expander W}
    (ds : option spatial_statistics_t) (w : W) (l : list spatial_event)
    : outcome (option spatial_statistics_t * list (option double)) :=
  match l with
  | [] => Ret (ds, [])
  | e :: l' =>
    match event_caddy ds e with
    | (now, Some c) =>
      '(_, (ds, w), _, next) ← analyze pow2 calloc_ok now ds (Some c) w;
      '(ds, outs) ← feed_spatial pow2 calloc_ok ds w l';
      Ret (ds, answer_of next :: outs)
    | (_, None) =>
      '(ds, outs) ← feed_spatial pow2 calloc_ok ds w l';
      Ret (ds, None :: outs)
    end
  end.

(** A caddy with the data [vs] of [host], for a step with the attributes
    [attrs] that is not stored. *)
Record carries_data (attrs : list orcm_value_t) (c : orcm_workflow_caddy_t) (host : cstr) (vs : data_t) : Prop := {
  cd_wf : is_Some (wc_wf c);
  cd_step : exists step, wc_wf_step c = Some step /\ ws_attributes step = attrs;
  cd_db : orcm_analytics_base_db_check attrs = Ret false;
  cd_imod : wc_imod c = true;
  cd_value : exists keys nc, wc_analytics_value c = Some (MkAnalyticsValue (Some keys) (Some nc) (Some vs)) /\
    keys <> [] /\ (forall node, match_host keys node = Ret (OPAL_SUCCESS, strcmp0 node host));
  cd_data : vs <> [] /\ Z.of_nat (length vs) < 2 ^ 31
}.

(** The event of the reference: a sample has a number in range. *)
Inductive stands_for (attrs : list orcm_value_t) (ct : Z) : spatial_event -> round_event -> Prop :=
| stands_sample now c host vs : carries_data attrs c host vs -> Exists (fun v => in_range ct (number v) = true) vs ->
    stands_for attrs ct (SpSample now c) (RSample now host vs)
| stands_timer now : stands_for attrs ct (SpTimer now) (RTimer now).

(** ** Nodes that have reported *)
#[export] Instance tag_key_injective : Inj (=) (=) tag_key.
Proof. intros s t E. by apply app_inj_tail in E as [-> _]. Qed.

Lemma size_kmap (m : gmap cstr data_t) : size (kmap tag_key m : gmap (list ascii) data_t) = size m.
Proof.
  induction m as [|k v m Hk IH] using map_ind; [by rewrite kmap_empty|].
  rewrite (kmap_insert tag_key), !map_size_insert_None; [by rewrite IH|done|]. by rewrite (lookup_kmap tag_key).
Qed.

Lemma full_iff (nodes : list cstr) (m : gmap cstr data_t) :
  NoDup nodes -> (forall n, is_Some (m !! n) -> n ∈ nodes) ->
  (size m = length nodes <-> complete nodes m) /\ (size m <= length nodes)%nat.
Proof.
  intros Hnd Hdom. rewrite <- size_dom. rewrite <- (size_list_to_set (C := gset cstr) nodes Hnd).
  assert (Hsub : dom m ⊆ (list_to_set nodes : gset cstr)).
  { intros n Hn. apply elem_of_list_to_set, Hdom. by apply elem_of_dom. }
  split; [|by apply subseteq_size]. unfold complete. rewrite Forall_forall. split.
  - intros Hsz n Hn. apply elem_of_dom. assert (dom m ≡ (list_to_set nodes : gset cstr)) as ->.
    { apply set_subseteq_size_equiv; [done|]. by rewrite Hsz. }
    by apply elem_of_list_to_set.
  - intros Hall. f_equal. apply leibniz_equiv. apply set_equiv_subseteq. split; [done|].
    intros n Hn%elem_of_list_to_set. by apply elem_of_dom, Hall.
Qed.

(** ** The state of the plugin *)
Record collecting (nodes : list cstr) (ct interval : Z) (r : round) (s : spatial_statistics_t) : Prop := {
  co_size : ss_size s = Z.of_nat (length nodes);
  co_nodes : ss_nodelist s = Some nodes;
  co_ct : ss_compute_type s = ct;
  co_interval : ss_interval s = interval;
  co_last : ss_last_round_time s = rd_last r;
  co_result : ss_result s = start_of ct;
  co_points : ss_num_data_point s = 0;
  co_dom : forall n, is_Some (rd_data r !! n) -> n ∈ nodes;
  co_len : forall n vs, rd_data r !! n = Some vs -> vs <> [] /\ Z.of_nat (length vs) < 2 ^ 31
}.

(** The timer runs exactly while data of some nodes are there. *)
Definition timer_caddy (attrs : list orcm_value_t) (c : orcm_workflow_caddy_t) : Prop :=
  exists step wf key keys nc, c = MkWfCaddy (Some step) (Some wf) key (Some (MkAnalyticsValue keys nc None)) true /\
    ws_attributes step = attrs.

Definition timer_ok (attrs : list orcm_value_t) (r : round) (s : spatial_statistics_t) : Prop :=
  match ss_timeout_event s with
  | None => rd_data r = ∅
  | Some c => rd_data r <> ∅ /\ timer_caddy attrs c
  end.

Definition buckets_hold (s : spatial_statistics_t) (m : gmap cstr data_t) (n : Z) : Prop :=
  exists ht, ss_buckets s = Some ht /\ ht_wf ht /\ ht_map ht = kmap tag_key m /\ ht_room n ht.

(** Reading leaves the table as it is, but for the mark of its key type. *)
Definition same_table (ht ht' : buckets_t) : Prop := ht' = ht \/ ht' = touch ht.

Lemma same_touch ht ht' : same_table (touch ht) ht' -> same_table ht ht'.
Proof. intros [->| ->]; by right. Qed.

Lemma same_table_hold (ht ht' : buckets_t) (m : gmap cstr data_t) n :
  same_table ht ht' -> ht_wf ht -> ht_map ht = kmap tag_key m -> ht_room n ht ->
  ht_wf ht' /\ ht_map ht' = kmap tag_key m /\ ht_room n ht'.
Proof. by intros [->| ->]. Qed.

Lemma get_bucket (ht : buckets_t) (m : gmap cstr data_t) n :
  ht_wf ht -> ht_map ht = kmap tag_key m ->
  opal_hash_table_get_value_ptr ht (tag_key n) =
    Ret (match m !! n with Some _ => OPAL_SUCCESS | None => OPAL_ERR_NOT_FOUND end, m !! n, touch ht).
Proof.
  intros Hwf Hm. unfold opal_hash_table_get_value_ptr. rewrite get_value_spec by done.
  by rewrite Hm, (lookup_kmap tag_key).
Qed.

(** How many numbers the nodes have. *)
Definition count (ns : list cstr) (m : gmap cstr data_t) : Z := Z.of_nat (length (all_numbers ns m)).

Lemma count_cons n ns m : count (n :: ns) m = Z.of_nat (length (default [] (m !! n))) + count ns m.
Proof. unfold count, all_numbers. rewrite bind_cons, length_app, length_fmap. lia. Qed.

Lemma count_nonneg ns m : 0 <= count ns m.
Proof. unfold count. lia. Qed.

Lemma accumulate_spec (ns : list cstr) (ct : Z) (m : gmap cstr data_t) : forall (ht : buckets_t) (res : double) (p : Z) (u : option cstr),
  ht_wf ht -> ht_map ht = kmap tag_key m -> 0 <= p -> p + count ns m < 2 ^ 64 ->
  exists ht' u', accumulate_nodes ns ct ht res p u =
      Ret (ht', foldl (do_operation ct) res (all_numbers ns m), p + count ns m, u') /\ same_table ht ht'.
Proof.
  induction ns as [|n ns IH]; intros ht res p u Hwf Hm Hp Hb.
  { exists ht, u. cbn. rewrite Z.add_0_r. split; [done|by left]. }
  rewrite count_cons in Hb |- *. pose proof (count_nonneg ns m). cbn [accumulate_nodes]. rewrite (get_bucket ht m), bind_Ret by done.
  unfold all_numbers. rewrite bind_cons, foldl_app. fold (all_numbers ns m).
  destruct (m !! n) as [vs|]; cbn [deref default id Z.eqb negb OPAL_SUCCESS OPAL_ERR_NOT_FOUND] in *.
  - rewrite bind_Ret. rewrite u64_small by lia.
    edestruct (IH (touch ht)) as (ht' & u' & E & Hs); [done|done| | |]; [| |rewrite E]; [lia|lia|].
    exists ht', u'. rewrite Z.add_assoc. split; [done|]. by apply same_touch.
  - cbn in Hb. edestruct (IH (touch ht) res p u) as (ht' & u' & E & Hs); [done|done|lia|lia|].
    exists ht', u'. rewrite E. split; [done|]. by apply same_touch.
Qed.

Lemma squares_spec (pow2 : double -> double) (ns : list cstr) (m : gmap cstr data_t) (mean : double) : forall (ht : buckets_t) (sum : double),
  ht_wf ht -> ht_map ht = kmap tag_key m ->
  exists ht', sum_squares pow2 ns ht mean sum =
      Ret (foldl (fun sum x => dadd sum (pow2 (dsub x mean))) sum (all_numbers ns m), ht') /\ same_table ht ht'.
Proof.
  induction ns as [|n ns IH]; intros ht sum Hwf Hm.
  { exists ht. split; [done|by left]. }
  cbn [sum_squares]. rewrite (get_bucket ht m), bind_Ret by done.
  unfold all_numbers. rewrite bind_cons, foldl_app. fold (all_numbers ns m).
  destruct (m !! n) as [vs|]; cbn [deref default id Z.eqb negb OPAL_SUCCESS OPAL_ERR_NOT_FOUND] in *.
  - rewrite bind_Ret. edestruct (IH (touch ht)) as (ht' & E & Hs); [done|done|]. exists ht'. rewrite E.
    split; [|by apply same_touch]. by rewrite foldl_fmap.
  - edestruct (IH (touch ht) sum) as (ht' & E & Hs); [done|done|]. exists ht'. rewrite E.
    split; [done|by apply same_touch].
Qed.

Lemma do_operation_fold ct xs : 0 <= ct <= 3 ->
  foldl (do_operation ct) (start_of ct) xs =
  if ct =? ORCM_ANALYTICS_COMPUTE_MIN then foldl keep_min DBL_MAX xs
  else if ct =? ORCM_ANALYTICS_COMPUTE_MAX then foldl keep_max DBL_MIN xs
  else foldl dadd d0 xs.
Proof.
  intros Hct. assert (ct = 0 \/ ct = 1 \/ ct = 2 \/ ct = 3) as [->|[->|[->| ->]]] by lia; reflexivity.
Qed.

(** What [do_compute] leaves as it is. *)
Definition same_setup (s s' : spatial_statistics_t) : Prop :=
  ss_interval s' = ss_interval s /\ ss_size s' = ss_size s /\ ss_nodelist s' = ss_nodelist s /\
  ss_compute_type s' = ss_compute_type s /\ ss_last_round_time s' = ss_last_round_time s /\
  ss_timeout_event s' = ss_timeout_event s /\ ss_timeout s' = ss_timeout s.

Section Compute.
Context (pow2 : double -> double) (nodes : list cstr) (ct interval : Z).
Hypothesis Hct : 0 <= ct <= 3.

Lemma do_compute_spec (r : round) (m : gmap cstr data_t) (s : spatial_statistics_t) (n : Z) :
  collecting nodes ct interval r s -> buckets_hold s m n -> 0 < count nodes m < 2 ^ 64 ->
  exists s' units, do_compute pow2 s = Ret (OPAL_SUCCESS, s', units) /\
    ss_result s' = computed pow2 ct (all_numbers nodes m) /\ same_setup s s' /\ buckets_hold s' m n.
Proof.
  intros Hco (ht & Eht & Hwf & Hm & Hroom) Hcount. unfold do_compute. rewrite Eht. cbn [deref]. rewrite bind_Ret.
  rewrite (co_nodes _ _ _ _ _ Hco), (co_ct _ _ _ _ _ Hco), (co_result _ _ _ _ _ Hco), (co_points _ _ _ _ _ Hco).
  cbn [argv_list].
  destruct (accumulate_spec nodes ct m ht (start_of ct) 0 None) as (ht1 & units & E1 & Hs1); [done|done|lia|lia|].
  rewrite E1, bind_Ret. rewrite Z.add_0_l, (proj2 (Z.eqb_neq (count nodes m) 0)) by lia.
  cbn [with_buckets with_result ss_compute_type ss_result]. rewrite (co_ct _ _ _ _ _ Hco), do_operation_fold by done.
  destruct (same_table_hold ht ht1 m n Hs1 Hwf Hm Hroom) as (Hwf1 & Hm1 & Hroom1).
  assert (Hset : forall s', ss_interval s' = ss_interval s -> ss_size s' = ss_size s -> ss_nodelist s' = ss_nodelist s ->
    ss_compute_type s' = ss_compute_type s -> ss_last_round_time s' = ss_last_round_time s ->
    ss_timeout_event s' = ss_timeout_event s -> ss_timeout s' = ss_timeout s -> same_setup s s') by by intros; split_and!.
  unfold find_sd. assert (ct = 0 \/ ct = 1 \/ ct = 2 \/ ct = 3) as [Ect|[Ect|[Ect|Ect]]] by lia; rewrite Ect;
    cbn [Z.eqb ORCM_ANALYTICS_COMPUTE_AVE ORCM_ANALYTICS_COMPUTE_SD ORCM_ANALYTICS_COMPUTE_MIN ORCM_ANALYTICS_COMPUTE_MAX
         Pos.eqb orb with_buckets with_result ss_compute_type ss_buckets ss_nodelist ss_result ss_num_data_point];
    rewrite (co_ct _ _ _ _ _ Hco), Ect;
    cbn [Z.eqb ORCM_ANALYTICS_COMPUTE_SD Pos.eqb].
  1-3: eexists _, units; split; [reflexivity|]; split; [reflexivity|];
    split; [by apply Hset|]; by exists ht1.
  rewrite (co_nodes _ _ _ _ _ Hco). cbn [deref argv_list]. rewrite bind_Ret.
  edestruct (squares_spec pow2 nodes m) as (ht2 & E2 & Hs2); [exact Hwf1|exact Hm1|]. rewrite E2, bind_Ret.
  destruct (same_table_hold ht1 ht2 m n Hs2 Hwf1 Hm1 Hroom1) as (Hwf2 & Hm2 & Hroom2).
  eexists _, units. split; [reflexivity|]. split; [reflexivity|]. split; [by apply Hset|]. by exists ht2.
Qed.
End Compute.

Definition data_ok (m : gmap cstr data_t) : Prop :=
  forall (n : cstr) (vs : data_t), m !! n = Some vs -> vs <> [] /\ Z.of_nat (length vs) < 2 ^ 31.

Lemma count_bound (ns : list cstr) (m : gmap cstr data_t) : data_ok m -> count ns m <= Z.of_nat (length ns) * 2 ^ 31.
Proof.
  intros Hm. induction ns as [|n ns IH]; [done|]. rewrite count_cons. cbn [length].
  assert (Z.of_nat (length (default [] (m !! n))) <= 2 ^ 31).
  { destruct (m !! n) as [vs|] eqn:E; cbn; [|lia]. apply Hm in E as [_ ?]. lia. }
  lia.
Qed.

Lemma count_pos (ns : list cstr) (m : gmap cstr data_t) (host : cstr) (vs : data_t) :
  host ∈ ns -> m !! host = Some vs -> vs <> [] -> 0 < count ns m.
Proof.
  intros Hin Hm Hne. induction ns as [|n ns IH]; [by apply not_elem_of_nil in Hin|]. rewrite count_cons.
  pose proof (count_nonneg ns m). apply elem_of_cons in Hin as [<-|Hin]; [|specialize (IH Hin); lia].
  rewrite Hm. cbn [default id]. destruct vs; [done|]. cbn [length]. lia.
Qed.

Lemma reset_spec (s : spatial_statistics_t) (m : gmap cstr data_t) (n : Z) (now : Z * Z) :
  buckets_hold s m n ->
  exists s', reset_statistics s (Some now) = Ret s' /\ buckets_hold s' ∅ n /\
    ss_interval s' = ss_interval s /\ ss_size s' = ss_size s /\ ss_nodelist s' = ss_nodelist s /\
    ss_compute_type s' = ss_compute_type s /\ ss_last_round_time s' = Some now /\
    ss_result s' = start_of (ss_compute_type s) /\ ss_num_data_point s' = 0 /\ ss_timeout_event s' = None.
Proof.
  intros (ht & Eht & Hwf & Hm & Hs & Hc & Hn). unfold reset_statistics. rewrite Eht. cbn [deref]. rewrite bind_Ret.
  destruct (remove_all_spec ht Hwf) as (Hwf' & Hm' & _). pose proof (ht_size_map _ Hwf).
  eexists. split; [reflexivity|]. split; [|by split_and!]. eexists. split; [reflexivity|].
  split_and!; [done|by rewrite Hm', kmap_empty|]. split_and!; [cbn; lia|exact Hc|done].
Qed.

Lemma fill_bucket_search pow2 calloc_ok (ns : list cstr) now s j keys (host : cstr) :
  av_key (j_value j) = Some keys -> (forall node, match_host keys node = Ret (OPAL_SUCCESS, strcmp0 node host)) ->
  fill_bucket pow2 calloc_ok ns now s j =
    if bool_decide (host ∈ ns) then fill_bucket_of pow2 calloc_ok now s j host
    else Ret (OPAL_ERR_BAD_PARAM, s, [], None).
Proof.
  intros Hk Hh. induction ns as [|n ns IH]; [by rewrite bool_decide_eq_false_2 by apply not_elem_of_nil|].
  cbn [fill_bucket]. rewrite Hk. cbn [deref]. rewrite bind_Ret, Hh, bind_Ret. cbn [Z.eqb OPAL_SUCCESS negb].
  destruct (strcmp0 n host) eqn:E.
  - apply strcmp0_true in E as ->. rewrite bool_decide_eq_true_2; [done|]. apply elem_of_cons. by left.
  - apply strcmp0_false in E. rewrite IH. destruct (bool_decide_reflect (host ∈ ns)) as [Hin|Hnin].
    + rewrite bool_decide_eq_true_2; [done|]. apply elem_of_cons. by right.
    + rewrite bool_decide_eq_false_2; [done|]. intros [->|?]%elem_of_cons; done.
Qed.

Lemma room_more {K V} `{HashKey K} (ht : opal_hash_table_t K V) n : ht_room n ht -> n + 1 < 2 ^ 60 -> ht_room (n + 1) ht.
Proof. intros (H1 & H2 & H3) Hn. split_and!; lia. Qed.

Section Step.
Context (pow2 : double -> double) (calloc_ok : Z -> bool) {W : Type} `{Expander W}.
Context (nodes : list cstr) (ct interval : Z).
Hypothesis Hct : 0 <= ct <= 3.
Hypothesis Hcalloc : forall n, calloc_ok n = true.
Hypothesis Hnodes : nodes <> [] /\ NoDup nodes /\ Z.of_nat (length nodes) < 2 ^ 31.

(** A full table is answered. *)
Lemma handle_full_spec now s r m n j :
  collecting nodes ct interval r s -> buckets_hold s m n -> 0 < count nodes m < 2 ^ 64 ->
  orcm_analytics_base_db_check (ws_attributes (j_step j)) = Ret false ->
  exists s' item nc, handle_full_bucket pow2 now s j =
      Ret (OPAL_SUCCESS, s', [], Some (MkAnalyticsValue (av_key (j_value j)) nc (Some [item]))) /\
    ov_data item = VDouble (computed pow2 ct (all_numbers nodes m)) /\ same_setup s s' /\ buckets_hold s' m n.
Proof.
  intros Hco Hb Hcount Hdb. unfold handle_full_bucket.
  destruct (do_compute_spec pow2 nodes ct interval Hct r m s n Hco Hb Hcount) as (s' & units & E & Hres & Hset & Hb').
  rewrite E, bind_Ret, Hres. unfold orcm_util_load_orcm_value. cbn [Z.eqb negb OPAL_SUCCESS known_type].
  change (known_type OPAL_DOUBLE) with true. cbn iota. rewrite Hdb, bind_Ret. cbn iota.
  eexists s', _, _. split; [reflexivity|]. by split_and!.
Qed.

(** The data of a node go into its bucket. *)
Lemma fill_bucket_of_spec now s r n j host vs :
  collecting nodes ct interval r s -> data_ok (rd_data r) -> buckets_hold s (rd_data r) n -> n + 1 < 2 ^ 60 ->
  host ∈ nodes -> av_compute_data (j_value j) = Some vs -> vs <> [] -> Z.of_nat (length vs) < 2 ^ 31 ->
  orcm_analytics_base_db_check (ws_attributes (j_step j)) = Ret false ->
  let m := <[host := vs]> (rd_data r) in
  exists rc s' next, fill_bucket_of pow2 calloc_ok now s j host = Ret (rc, s', [], next) /\ buckets_hold s' m (n + 1) /\
    if bool_decide (complete nodes m)
    then rc = OPAL_SUCCESS /\ same_setup s s' /\
         exists item nc, next = Some (MkAnalyticsValue (av_key (j_value j)) nc (Some [item])) /\
           ov_data item = VDouble (computed pow2 ct (all_numbers nodes m))
    else next = None /\ collecting nodes ct interval (MkRound (rd_last r) m) s' /\
         (timer_ok (ws_attributes (j_step j)) r s -> timer_ok (ws_attributes (j_step j)) (MkRound (rd_last r) m) s').
Proof.
  intros Hco Hok (ht & Eht & Hwf & Hm & Hroom) Hn Hin Hvs Hne Hlen Hdb m. unfold fill_bucket_of.
  rewrite Eht. cbn [deref]. rewrite bind_Ret, (get_bucket ht (rd_data r)), bind_Ret by done.
  assert (Hskip : forall z, z = OPAL_SUCCESS \/ z = OPAL_ERR_NOT_FOUND ->
    negb (z =? OPAL_SUCCESS) && negb (z =? OPAL_ERR_NOT_FOUND) = false) by by intros z [->| ->].
  rewrite Hskip by (destruct (rd_data r !! host); auto). rewrite Hvs. cbn [deref]. rewrite bind_Ret.
  destruct (set_value_ok calloc_ok (touch ht) (tag_key host) vs n Hcalloc Hwf Hroom Hn) as (ht' & Es & Hwf' & Hm' & Hroom').
  unfold opal_hash_table_set_value_ptr. rewrite Es, bind_Ret. cbn [Z.eqb negb OPAL_SUCCESS].
  assert (Hmap : ht_map ht' = kmap tag_key m).
  { rewrite Hm'. change (ht_map (touch ht)) with (ht_map ht). rewrite Hm. unfold m. by rewrite (kmap_insert tag_key). }
  assert (Hb : buckets_hold (with_buckets ht' s) m (n + 1)) by by exists ht'.
  assert (Hdom : forall x, is_Some (m !! x) -> x ∈ nodes).
  { intros x. unfold m. destruct (decide (host = x)) as [<-|Hne']; [done|].
    rewrite lookup_insert_ne by done. apply (co_dom _ _ _ _ _ Hco). }
  assert (Hok' : data_ok m).
  { intros x v. unfold m. destruct (decide (host = x)) as [<-|Hne'];
      [rewrite lookup_insert_eq; by intros [= <-]|rewrite lookup_insert_ne by done; apply Hok]. }
  assert (Hsz : ht_size ht' = Z.of_nat (size m)).
  { rewrite (ht_size_map _ Hwf'), Hmap, size_kmap. done. }
  destruct Hnodes as (Hnn & Hnd & Hnl). destruct (full_iff nodes m Hnd Hdom) as [Hfull Hle].
  cbn [ss_size with_buckets]. rewrite (co_size _ _ _ _ _ Hco), Hsz, i32_small by (unfold INT_MIN, INT_MAX; lia).
  assert (Hco' : collecting nodes ct interval (MkRound (rd_last r) m) (with_buckets ht' s)).
  { destruct Hco. by split. }
  destruct (bool_decide_reflect (complete nodes m)) as [Hc|Hc].
  - rewrite (proj2 Hfull Hc), Z.eqb_refl.
    destruct (handle_full_spec now (with_buckets ht' s) _ m (n + 1) j Hco' Hb) as (s' & item & nc & E & Hitem & Hset & Hb').
    + split; [apply (count_pos nodes m host vs Hin); [apply lookup_insert_eq|done]|].
      pose proof (count_bound nodes m Hok'). lia.
    + done.
    + rewrite E. eexists _, s', _. split; [reflexivity|]. split; [done|]. split; [done|]. split; [exact Hset|].
      by exists item, nc.
  - rewrite (proj2 (Z.eqb_neq _ _)) by (intros E; apply Hc, Hfull; lia).
    eexists _, _, None. split; [reflexivity|].
    assert (m <> ∅) as Hme by apply insert_non_empty. unfold timer_ok. cbn [rd_data].
    destruct (ss_timeout_event (with_buckets ht' s)) as [c|] eqn:Et; cbn [with_buckets ss_timeout_event] in Et.
    { split; [done|]. split; [done|]. split; [done|]. cbn [with_buckets ss_timeout_event]. rewrite Et. by intros [_ ?]. }
    rewrite Et. destruct (Z.eqb_spec (Z.of_nat (size m)) 1) as [E1|E1].
    + split; [by exists ht'|]. split; [done|]. split; [by destruct Hco'; split|]. intros _. cbn. split; [done|].
      by eexists _, _, _, _, _.
    + split; [done|]. split; [done|]. split; [done|]. intros He. exfalso. apply E1. unfold m. rewrite He.
      by rewrite insert_empty, map_size_singleton.
Qed.

Lemma buckets_more s m n : buckets_hold s m n -> n + 1 < 2 ^ 60 -> buckets_hold s m (n + 1).
Proof. intros (ht & E & Hwf & Hm & Hr) Hn. exists ht. split_and!; [done..|]. by apply room_more. Qed.

Lemma collecting_reset now s s1 s2 r :
  collecting nodes ct interval r s -> same_setup s s1 ->
  ss_interval s2 = ss_interval s1 -> ss_size s2 = ss_size s1 -> ss_nodelist s2 = ss_nodelist s1 ->
  ss_compute_type s2 = ss_compute_type s1 -> ss_last_round_time s2 = Some now ->
  ss_result s2 = start_of (ss_compute_type s1) -> ss_num_data_point s2 = 0 ->
  collecting nodes ct interval (MkRound (Some now) ∅) s2.
Proof.
  intros [] (E1 & E2 & E3 & E4 & _) ? ? ? ? ? ? ?. split; cbn [rd_last rd_data].
  1-7: congruence.
  - intros x Hx. by apply lookup_empty_is_Some in Hx.
  - intros x v Hv. by rewrite lookup_empty in Hv.
Qed.

Lemma collect_spec now s r n j keys nc host vs :
  collecting nodes ct interval r s -> buckets_hold s (rd_data r) n -> n + 1 < 2 ^ 60 ->
  j_value j = MkAnalyticsValue (Some keys) (Some nc) (Some vs) -> keys <> [] ->
  (forall node, match_host keys node = Ret (OPAL_SUCCESS, strcmp0 node host)) ->
  vs <> [] -> Z.of_nat (length vs) < 2 ^ 31 ->
  orcm_analytics_base_db_check (ws_attributes (j_step j)) = Ret false ->
  timer_ok (ws_attributes (j_step j)) r s ->
  let res := round_step nodes interval r (RSample now host vs) in
  exists rc s' next, collect_sample pow2 calloc_ok now s j = Ret (rc, s', [], next) /\
    collecting nodes ct interval res.1 s' /\ timer_ok (ws_attributes (j_step j)) res.1 s' /\ buckets_hold s' (rd_data res.1) (n + 1) /\
    match res.2 with
    | Some xs => rc = OPAL_SUCCESS /\ exists key nc' item, next = Some (MkAnalyticsValue key nc' (Some [item])) /\
        ov_data item = VDouble (computed pow2 ct xs)
    | None => next = None
    end.
Proof.
  intros Hco Hb Hn Hj Hkeys Hhost Hne Hlen Hdb Ht res. unfold collect_sample. rewrite Hj. cbn [av_key av_non_compute_data av_compute_data].
  destruct keys as [|k keys]; [done|]. destruct vs as [|v vs]; [done|].
  rewrite (co_last _ _ _ _ _ Hco), (co_interval _ _ _ _ _ Hco). fold (elapsed interval (rd_last r) now).
  unfold res, round_step. destruct (elapsed interval (rd_last r) now); cbn [andb].
  2: { eexists _, s, None. split; [reflexivity|]. split; [done|]. split; [done|]. split; [by apply buckets_more|done]. }
  rewrite (co_nodes _ _ _ _ _ Hco). cbn [argv_list].
  rewrite (fill_bucket_search pow2 calloc_ok nodes now s j (k :: keys) host) by (done || by rewrite Hj).
  destruct (bool_decide_reflect (host ∈ nodes)) as [Hin|Hnin].
  2: { rewrite bind_Ret. eexists _, s, None. split; [reflexivity|]. split; [done|]. split; [done|]. split; [by apply buckets_more|done]. }
  destruct (fill_bucket_of_spec now s r n j host (v :: vs) Hco (co_len _ _ _ _ _ Hco) Hb Hn Hin) as (rc & s1 & next & E & Hb1 & Hres);
    [by rewrite Hj|done|done|done|]. rewrite E, bind_Ret.
  destruct (bool_decide_reflect (complete nodes (<[host := v :: vs]> (rd_data r)))) as [Hc|Hc].
  - destruct Hres as (-> & Hset & item & nc' & -> & Hitem).
    destruct (reset_spec s1 _ _ now Hb1) as (s2 & E2 & Hb2 & ? & ? & ? & ? & ? & ? & ? & Het). rewrite E2, bind_Ret.
    eexists _, s2, _. split; [reflexivity|]. split; [by eapply collecting_reset|]. split; [unfold timer_ok; by rewrite Het|].
    split; [done|]. split; [done|]. by eexists _, nc', item.
  - destruct Hres as (-> & Hco1 & Ht1). eexists _, s1, None. split; [reflexivity|]. split; [done|]. split; [by apply Ht1|]. by split_and!.
Qed.

Lemma size_nonzero r s : collecting nodes ct interval r s -> (ss_size s =? 0) = false.
Proof. intros Hco. apply Z.eqb_neq. rewrite (co_size _ _ _ _ _ Hco). destruct Hnodes as (Hnn & _ & _). by destruct nodes. Qed.

Lemma report_step now s r n attrs c (w : W) host vs :
  collecting nodes ct interval r s -> timer_ok attrs r s -> buckets_hold s (rd_data r) n -> n + 1 < 2 ^ 60 -> carries_data attrs c host vs ->
  let res := round_step nodes interval r (RSample now host vs) in
  exists rc s' next, analyze pow2 calloc_ok now (Some s) (Some c) w = Ret (rc, (Some s', w), [], next) /\
    answer_of next = option_map (computed pow2 ct) res.2 /\ collecting nodes ct interval res.1 s' /\ timer_ok attrs res.1 s' /\
    buckets_hold s' (rd_data res.1) (n + 1).
Proof.
  intros Hco Ht Hb Hn [[wf Hwf] (step & Hstep & <-) Hdb Himod (keys & nc & Hval & Hkeys & Hhost) [Hne Hlen]] res.
  assert (Ea : orcm_analytics_base_assert_caddy_data (Some c) = OPAL_SUCCESS)
    by by (cbn; rewrite Hwf, Hstep, Hval, Himod).
  assert (Ej : caddy_job c = Ret (MkJob wf step (wc_hash_key c) (MkAnalyticsValue (Some keys) (Some nc) (Some vs))))
    by by (unfold caddy_job; rewrite Hwf, Hstep, Hval).
  unfold analyze. rewrite Ea. cbn [Z.eqb negb OPAL_SUCCESS deref]. rewrite bind_Ret, Ej, bind_Ret. cbn [default id].
  rewrite (size_nonzero r s Hco), bind_Ret. cbn [Z.eqb negb OPAL_SUCCESS j_value av_compute_data].
  destruct (collect_spec now s r n (MkJob wf step (wc_hash_key c) (MkAnalyticsValue (Some keys) (Some nc) (Some vs)))
    keys nc host vs Hco Hb Hn eq_refl Hkeys Hhost Hne Hlen Hdb Ht) as (rc & s' & next & E & Hco' & Ht' & Hb' & Hans).
  fold res in Hco', Ht', Hb', Hans. rewrite E, bind_Ret. destruct (res.2) as [xs|] eqn:Ed.
  - destruct Hans as (-> & key & nc' & item & -> & Hitem). eexists _, s', _. split; [reflexivity|]. split; [|by split].
    cbn. destruct item as [k0 t0 d0 u0]. cbn in Hitem. by rewrite Hitem.
  - rewrite Hans. eexists _, s', None. split; [reflexivity|]. by split_and!.
Qed.

(** The data that are there belong to nodes of the list. *)
Lemma count_some r s : collecting nodes ct interval r s -> rd_data r <> ∅ -> 0 < count nodes (rd_data r) < 2 ^ 64.
Proof.
  intros Hco Hne. apply map_choose in Hne as (h & vs & Hh). split.
  - apply (count_pos nodes _ h vs); [by apply (co_dom _ _ _ _ _ Hco)|done|by apply (co_len _ _ _ _ _ Hco h)].
  - destruct Hnodes as (_ & _ & Hnl). pose proof (count_bound nodes (rd_data r) (co_len _ _ _ _ _ Hco)). lia.
Qed.

Lemma timer_step now s r n attrs c (w : W) :
  collecting nodes ct interval r s -> timer_ok attrs r s -> buckets_hold s (rd_data r) n -> n + 1 < 2 ^ 60 ->
  orcm_analytics_base_db_check attrs = Ret false -> ss_timeout_event s = Some c ->
  let res := round_step nodes interval r (RTimer now) in
  exists rc s' next, analyze pow2 calloc_ok now (Some s) (Some c) w = Ret (rc, (Some s', w), [], next) /\
    answer_of next = option_map (computed pow2 ct) res.2 /\ collecting nodes ct interval res.1 s' /\ timer_ok attrs res.1 s' /\
    buckets_hold s' (rd_data res.1) (n + 1).
Proof.
  intros Hco Ht Hb Hn Hdb Hc res. unfold timer_ok in Ht. rewrite Hc in Ht.
  destruct Ht as (Hne & step & wf & key & keys & nc & -> & <-). unfold res, round_step. rewrite bool_decide_eq_false_2 by done.
  unfold analyze. cbn [orcm_analytics_base_assert_caddy_data wc_wf wc_wf_step wc_analytics_value wc_imod negb Z.eqb OPAL_SUCCESS deref].
  rewrite bind_Ret. unfold caddy_job. cbn [wc_wf wc_wf_step wc_analytics_value wc_hash_key deref]. rewrite !bind_Ret. cbn [default id].
  rewrite (size_nonzero r s Hco), bind_Ret. cbn [Z.eqb negb OPAL_SUCCESS j_value av_compute_data].
  destruct (handle_full_spec now s r (rd_data r) n (MkJob wf step key (MkAnalyticsValue keys nc None)) Hco Hb (count_some r s Hco Hne) Hdb)
    as (s1 & item & nc' & E & Hitem & Hset & Hb1). rewrite E, bind_Ret. cbn [Z.eqb OPAL_SUCCESS].
  destruct (reset_spec s1 _ _ now Hb1) as (s2 & E2 & Hb2 & ? & ? & ? & ? & ? & ? & ? & Het). rewrite E2, bind_Ret.
  eexists _, s2, _. split; [reflexivity|]. split; [cbn; destruct item as [k0 t0 d0 u0]; cbn in Hitem; by rewrite Hitem|].
  split; [by eapply collecting_reset|]. split; [unfold timer_ok; by rewrite Het|]. by apply buckets_more.
Qed.

Lemma feed_collecting s (w : W) n attrs l es r :
  collecting nodes ct interval r s -> timer_ok attrs r s -> buckets_hold s (rd_data r) n -> n + Z.of_nat (length l) < 2 ^ 60 ->
  orcm_analytics_base_db_check attrs = Ret false -> Forall2 (stands_for attrs ct) l es ->
  exists s', feed_spatial pow2 calloc_ok (Some s) w l = Ret (Some s', option_map (computed pow2 ct) <$> rounds nodes interval r es).
Proof.
  intros Hco Ht Hb Hn Hdb Hall. revert s r n Hco Ht Hb Hn. induction Hall as [|e re l es He Hall IH]; intros s r n Hco Ht Hb Hn.
  { by exists s. }
  cbn [length] in Hn. destruct He as [now c host vs Hc _|now]; cbn [feed_spatial event_caddy rounds].
  - destruct (report_step now s r n attrs c w host vs Hco Ht Hb ltac:(lia) Hc) as (rc & s1 & next & E & Hans & Hco1 & Ht1 & Hb1).
    rewrite E, bind_Ret. destruct (round_step nodes interval r (RSample now host vs)) as [r1 xs]. cbn [fst snd] in *.
    destruct (IH s1 r1 (n + 1) Hco1 Ht1 Hb1 ltac:(lia)) as (s' & E'). rewrite E', bind_Ret, Hans. by exists s'.
  - cbn [mbind option_bind]. destruct (ss_timeout_event s) as [c|] eqn:Ec.
    + destruct (timer_step now s r n attrs c w Hco Ht Hb ltac:(lia) Hdb Ec) as (rc & s1 & next & E & Hans & Hco1 & Ht1 & Hb1).
      rewrite E, bind_Ret. destruct (round_step nodes interval r (RTimer now)) as [r1 xs]. cbn [fst snd] in *.
      destruct (IH s1 r1 (n + 1) Hco1 Ht1 Hb1 ltac:(lia)) as (s' & E'). rewrite E', bind_Ret, Hans. by exists s'.
    + assert (Hr : rd_data r = ∅) by (unfold timer_ok in Ht; by rewrite Ec in Ht). cbn [round_step]. rewrite bool_decide_eq_true_2 by done.
      destruct (IH s r (n + 1) Hco Ht) as (s' & E'); [by apply buckets_more; [|lia]|lia|]. rewrite E', bind_Ret. by exists s'.
Qed.

(** What [fill_spatial_statistics] makes of a complete set of attributes. *)
Lemma fill_collecting s :
  ss_nodelist s = Some nodes -> ss_compute_type s = ct -> ss_interval s = interval ->
  interval <> 0 -> ss_timeout s <> 0 -> ss_last_round_time s = None ->
  exists s', fill_spatial_statistics calloc_ok s = Ret (OPAL_SUCCESS, s') /\
    collecting nodes ct interval (MkRound None ∅) s' /\ ss_timeout_event s' = None /\ buckets_hold s' ∅ (Z.of_nat (length nodes)).
Proof.
  intros En Ect Ei Hi Ht Hl. destruct Hnodes as (Hnn & _ & Hlen). unfold fill_spatial_statistics.
  rewrite Ect, (proj2 (Z.ltb_ge _ _)) by (unfold ORCM_ANALYTICS_COMPUTE_AVE; lia). rewrite En. unfold opal_argv_count. cbn [argv_list].
  rewrite (proj2 (Z.eqb_neq (Z.of_nat (length nodes)) 0)) by (destruct nodes; [done|cbn; lia]).
  cbn [with_setup ss_interval ss_timeout]. rewrite Ei, (proj2 (Z.eqb_neq interval 0)), (proj2 (Z.eqb_neq (ss_timeout s) 0)) by done.
  unfold reset_statistics. cbn [with_buckets ss_buckets deref]. rewrite !bind_Ret.
  destruct (init_spec (K := list ascii) (V := data_t) calloc_ok (Z.of_nat (length nodes)) ltac:(lia) (Hcalloc _))
    as (ht & E & Hwf & Hm & Hcap & Hs).
  change (opal_hash_table_remove_all opal_hash_table_construct).2 with (opal_hash_table_construct : buckets_t).
  cbn [with_timer with_result with_buckets ss_buckets deref]. rewrite bind_Ret, E, bind_Ret.
  eexists. split; [reflexivity|]. split_and!.
  - split; cbn; try done.
    intros x Hx. by apply lookup_empty_is_Some in Hx.
  - done.
  - exists ht. split; [done|]. split; [done|]. split; [by rewrite Hm, kmap_empty|]. 
    destruct (round_capacity_up_spec (2 * Z.of_nat (length nodes))) as [? ?]; [lia..|]. split_and!; lia.
Qed.
End Step.

(** ** The first sample *)
Section Start.
Context (pow2 : double -> double) (calloc_ok : Z -> bool) {W : Type} `{Expander W}.
Hypothesis Hcalloc : forall n, calloc_ok n = true.

Lemma compute_type_range t : -1 <= orcm_analytics_base_get_compute_type t <= 3.
Proof. destruct t; cbn; repeat case_match; vm_compute; by split. Qed.

Lemma init_attributes_range (attrs : list orcm_value_t) : forall s (w : W) rc s' w',
  init_attributes s attrs w = Ret (rc, s', w') -> -1 <= ss_compute_type s <= 3 ->
  -1 <= ss_compute_type s' <= 3 /\ ss_last_round_time s' = ss_last_round_time s.
Proof.
  induction attrs as [|a attrs IH]; intros s w rc s' w' E Hr; cbn [init_attributes] in E; [by injection E as _ <- _|].
  repeat match type of E with
  | (_ ≫= _) = Ret _ => apply bind_Ret_inv in E as (? & _ & E)
  | (if ?b then _ else _) = _ => destruct b
  | (match ?b with _ => _ end) = _ => destruct b
  end; try (by injection E as _ <- _); apply IH in E; try done; apply compute_type_range.
Qed.

Lemma fill_success s0 s :
  fill_spatial_statistics calloc_ok s0 = Ret (OPAL_SUCCESS, s) ->
  ss_nodelist s = ss_nodelist s0 /\ ss_compute_type s = ss_compute_type s0 /\ ss_interval s = ss_interval s0 /\
  0 <= ss_compute_type s0 /\ argv_list (ss_nodelist s0) <> [] /\ ss_interval s0 <> 0 /\ ss_timeout s0 <> 0.
Proof.
  unfold fill_spatial_statistics. intros E.
  repeat match type of E with
  | (if ?b then _ else _) = _ => let G := fresh "G" in destruct b eqn:G; [by injection E|]
  end.
  apply bind_Ret_inv in E as (s1 & E1 & E). apply bind_Ret_inv in E as (ht & _ & E).
  apply bind_Ret_inv in E as ([rc ht'] & _ & E). injection E as _ <-.
  unfold reset_statistics in E1. cbn in E1. injection E1 as <-. cbn in *.
  apply Z.ltb_ge in G. apply Z.eqb_neq in G0, G1, G2. split_and!; try done.
  intros E. apply G0. by destruct (ss_nodelist s0) as [[|]|].
Qed.

(** A successful start, with the nodes of the list. *)
Lemma init_collecting attrs (w w' : W) s nodes :
  init_spatial_statistics calloc_ok spatial_statistics_con attrs w = Ret (OPAL_SUCCESS, s, w') ->
  ss_nodelist s = Some nodes -> NoDup nodes -> Z.of_nat (length nodes) < 2 ^ 31 ->
  0 <= ss_compute_type s <= 3 /\ nodes <> [] /\
  collecting nodes (ss_compute_type s) (ss_interval s) (MkRound None ∅) s /\ ss_timeout_event s = None /\
  buckets_hold s ∅ (Z.of_nat (length nodes)).
Proof.
  intros E En Hnd Hlen. unfold init_spatial_statistics in E. apply bind_Ret_inv in E as ([[rc s0] w0] & E0 & E).
  destruct (init_attributes_range _ _ _ _ _ _ E0) as [Hct Hl]; [by cbn|].
  destruct (negb (rc =? OPAL_SUCCESS)) eqn:Erc; [injection E as -> _ _; done|].
  apply bind_Ret_inv in E as ([rc1 s1] & E1 & E). injection E as -> -> <-.
  destruct (fill_success _ _ E1) as (K1 & K2 & K3 & Hpos & Hne & Hi & Ht). rewrite En in K1. rewrite <- K1 in Hne.
  cbn [argv_list] in Hne.
  destruct (fill_collecting calloc_ok nodes (ss_compute_type s) (ss_interval s)) with (s := s0) as (s' & E' & Hco & Het & Hb);
    [lia|done|done|done|done|done|congruence|done|done|].
  rewrite E1 in E'. injection E' as <-. split_and!; [lia|lia|done..].
Qed.

(** The module is set up by the first caddy. *)
Lemma analyze_start attrs (w w' : W) s now c host vs :
  init_spatial_statistics calloc_ok spatial_statistics_con attrs w = Ret (OPAL_SUCCESS, s, w') ->
  ss_size s <> 0 -> carries_data attrs c host vs ->
  analyze pow2 calloc_ok now None (Some c) w = analyze pow2 calloc_ok now (Some s) (Some c) w'.
Proof.
  intros E Hs [[wf Hwf] (step & Hstep & <-) _ Himod (keys & nc & Hval & _) _].
  unfold analyze. cbn [orcm_analytics_base_assert_caddy_data]. rewrite Hwf, Hstep, Hval, Himod.
  cbn [negb Z.eqb OPAL_SUCCESS deref]. rewrite !bind_Ret. unfold caddy_job. rewrite Hwf, Hstep, Hval. cbn [deref].
  rewrite !bind_Ret. cbn [default id j_step]. rewrite (proj2 (Z.eqb_neq _ _) Hs).
  change (ss_size spatial_statistics_con =? 0) with true. by rewrite E.
Qed.

(** Until the first sample arrives there is no timer. *)
Lemma feed_start attrs (w w' : W) s ct l es :
  init_spatial_statistics calloc_ok spatial_statistics_con attrs w = Ret (OPAL_SUCCESS, s, w') ->
  ss_size s <> 0 -> ss_timeout_event s = None -> Forall2 (stands_for attrs ct) l es ->
  forall ds outs, feed_spatial pow2 calloc_ok (Some s) w' l = Ret (ds, outs) -> exists ds', feed_spatial pow2 calloc_ok None w l = Ret (ds', outs).
Proof.
  intros E Hs Het. induction 1 as [|e re l es He _ IH]; intros ds outs Ef; [injection Ef as _ <-; by exists None|].
  destruct He as [now c host vs Hc _|now]; cbn [feed_spatial event_caddy mbind option_bind] in *.
  - rewrite (analyze_start attrs w w' s now c host vs E Hs Hc). by exists ds.
  - rewrite Het in Ef. apply bind_Ret_inv in Ef as ([ds1 outs1] & Ef & Eo). injection Eo as <- <-.
    destruct (IH _ _ Ef) as (ds' & ->). by exists ds'.
Qed.

(** The numbers of a round contain one in range. *)
Definition round_ok (nodes : list cstr) (ct : Z) (r : round) : Prop :=
  forall n vs, rd_data r !! n = Some vs -> n ∈ nodes /\ Exists (fun v => in_range ct (number v) = true) vs.

Lemma numbers_in_range (nodes : list cstr) (ct : Z) (m : gmap cstr data_t) (n : cstr) vs : n ∈ nodes -> m !! n = Some vs ->
  Exists (fun v => in_range ct (number v) = true) vs -> Exists (fun x => in_range ct x = true) (all_numbers nodes m).
Proof.
  intros Hn Hm (v & Hv & Hr)%Exists_exists. apply Exists_exists. exists (number v). split; [|done].
  apply list_elem_of_bind. exists n. split; [|done]. rewrite Hm. by apply list_elem_of_fmap_2.
Qed.

Lemma rounds_in_range (nodes : list cstr) (ct interval : Z) attrs l es : Forall2 (stands_for attrs ct) l es -> forall r, round_ok nodes ct r ->
  Forall (fun o => match o with Some xs => Exists (fun x => in_range ct x = true) xs | None => True end) (rounds nodes interval r es).
Proof.
  assert (Hempty : forall t, round_ok nodes ct (MkRound t ∅)) by (intros t n vs Hn; cbn [rd_data] in Hn; by rewrite lookup_empty in Hn).
  induction 1 as [|e re l es He _ IH]; intros r Hr; [constructor|]. cbn [rounds].
  destruct He as [now c host vs _ Hv|now]; cbn [round_step].
  - destruct (elapsed interval (rd_last r) now && bool_decide (host ∈ nodes)) eqn:Ec; [|by constructor; [|apply IH]].
    apply andb_true_iff in Ec as [_ Hin%bool_decide_eq_true]. destruct (bool_decide _); constructor; auto.
    + by apply (numbers_in_range nodes ct _ host vs); [|apply lookup_insert_eq|].
    + apply IH. intros n vs'. cbn [rd_data]. destruct (decide (host = n)) as [<-|Hne].
      * rewrite lookup_insert_eq. by intros [= <-].
      * rewrite lookup_insert_ne by done. apply Hr.
  - destruct (bool_decide_reflect (rd_data r = ∅)) as [_|Hne]; constructor; auto.
    apply map_choose in Hne as (n & vs & Hn). destruct (Hr n vs Hn). by apply (numbers_in_range nodes ct _ n vs).
Qed.

(** What the code computes is what is asked for. *)
Definition answers (ct : Z) (out : option double) (xs : option (list double)) : Prop :=
  match xs with
  | Some xs => exists d, out = Some d /\ is_statistic pow2 ct xs d
  | None => out = None
  end.

Lemma answers_computed ct (refs : list (option (list double))) :
  Forall (fun o => match o with Some xs => Exists (fun x => in_range ct x = true) xs | None => True end) refs ->
  Forall2 (answers ct) (option_map (computed pow2 ct) <$> refs) refs.
Proof.
  induction 1 as [|[xs|] refs Hx _ IH]; constructor; auto; [|done]. eexists. split; [reflexivity|]. by apply computed_statistic.
Qed.

(** C12: from the first sample on, which sets the plugin up, however the nodes of its list report, once or several times
    in a round, in any order, with strangers in between and samples that come too early, and whenever the timer of the
    round expires: the plugin answers when the last missing node has reported, and when the timer expires while data of
    some nodes are there, and at no other time; the answer is the average, a least number, a greatest number or the
    standard deviation over the latest data of the nodes that have reported, in the order of the list; then the next
    round begins.  Asked are: a list of nodes without duplicates, samples with a host name and with data, steps whose
    results are not stored, and, since the code starts its extremes from DBL_MAX and from DBL_MIN, the least positive
    normal number, that every sample has a number below the one for the minimum and above the other for the maximum
    (the maximum of numbers that are all zero or negative comes out as DBL_MIN). *)
Theorem spatial_rounds attrs (w w' : W) s nodes l es :
  init_spatial_statistics calloc_ok spatial_statistics_con attrs w = Ret (OPAL_SUCCESS, s, w') ->
  ss_nodelist s = Some nodes -> NoDup nodes -> Z.of_nat (length nodes) < 2 ^ 31 -> Z.of_nat (length l) < 2 ^ 59 ->
  orcm_analytics_base_db_check attrs = Ret false -> Forall2 (stands_for attrs (ss_compute_type s)) l es ->
  exists ds outs, feed_spatial pow2 calloc_ok None w l = Ret (ds, outs) /\
    Forall2 (answers (ss_compute_type s)) outs (rounds nodes (ss_interval s) (MkRound None ∅) es).
Proof.
  intros E En Hnd Hlen Hl Hdb Hall. destruct (init_collecting _ _ _ _ _ E En Hnd Hlen) as (Hct & Hne & Hco & Het & Hb).
  assert (Hans : Forall2 (answers (ss_compute_type s))
    (option_map (computed pow2 (ss_compute_type s)) <$> rounds nodes (ss_interval s) (MkRound None ∅) es) (rounds nodes (ss_interval s) (MkRound None ∅) es)).
  { eapply answers_computed, rounds_in_range; [exact Hall|]. intros n vs Hn. cbn [rd_data] in Hn. by rewrite lookup_empty in Hn. }
  assert (Ht : timer_ok attrs (MkRound None ∅) s) by (unfold timer_ok; by rewrite Het).
  destruct (feed_collecting pow2 calloc_ok nodes _ _ Hct Hcalloc ltac:(done) s w' _ attrs l es _ Hco Ht Hb ltac:(lia) Hdb Hall) as [s' Ef].
  assert (Hs : ss_size s <> 0) by (rewrite (co_size _ _ _ _ _ Hco); by destruct nodes).
  destruct (feed_start attrs w w' s _ l es E Hs Het Hall _ _ Ef) as (ds & Ed). by exists ds, (option_map (computed pow2 (ss_compute_type s)) <$> rounds nodes (ss_interval s) (MkRound None ∅) es).
Qed.
End Start.

(** ** Two nodes *)
Definition group_expander : Expander world := logical_group_expander (fun _ => 0) 10 no_groups.
Definition empty_world : world := MkWorld ∅ 0%nat false None.

Definition text_attribute (k t : string) : orcm_value_t := MkOrcmValue (Some (cs k)) OPAL_STRING (VString (Some (cs t))) None.
Definition two_nodes : list orcm_value_t :=
  [text_attribute "nodelist" "n1,n2"; text_attribute "compute" "max"; text_attribute "interval" "10s"].
Definition power (z : Z) : orcm_value_t := MkOrcmValue (Some (cs "power")) OPAL_DOUBLE (VDouble (of_int z)) None.

Definition node_caddy (host : string) (zs : list Z) : orcm_workflow_caddy_t :=
  MkWfCaddy (Some (MkStep two_nodes (Some (cs "spatial")) 1)) (Some (MkWorkflow (Some (cs "wf")) None 3)) 7
    (Some (MkAnalyticsValue (Some [text_attribute "hostname" host]) (Some []) (Some (power <$> zs)))) true.

Lemma node_caddy_carries host zs :
  zs <> [] -> Z.of_nat (length zs) < 2 ^ 31 -> carries_data two_nodes (node_caddy host zs) (cs host) (power <$> zs).
Proof.
  intros Hne Hlen. split; [by eexists|by eexists|reflexivity|done| |].
  - eexists _, _. split; [done|]. split; [done|]. intros node. reflexivity.
  - split; [by destruct zs|by rewrite length_fmap].
Qed.

(** [n2] reports twice before [n1]; the next answer needs both again, and ten
    seconds; in the third round [n1] is silent until the timer expires. *)
Definition node_events : list spatial_event :=
  [SpSample (100, 0) (node_caddy "n2" [9]); SpSample (101, 0) (node_caddy "n2" [4; 5]); SpSample (102, 0) (node_caddy "n3" [8]);
   SpSample (103, 0) (node_caddy "n1" [3]); SpSample (105, 0) (node_caddy "n1" [1]); SpSample (113, 0) (node_caddy "n1" [6]);
   SpSample (114, 0) (node_caddy "n2" [2]); SpTimer (120, 0); SpSample (125, 0) (node_caddy "n2" [7]); SpTimer (185, 0)].

Definition node_reports : list round_event :=
  [RSample (100, 0) (cs "n2") (power <$> [9]); RSample (101, 0) (cs "n2") (power <$> [4; 5]); RSample (102, 0) (cs "n3") (power <$> [8]);
   RSample (103, 0) (cs "n1") (power <$> [3]); RSample (105, 0) (cs "n1") (power <$> [1]); RSample (113, 0) (cs "n1") (power <$> [6]);
   RSample (114, 0) (cs "n2") (power <$> [2]); RTimer (120, 0); RSample (125, 0) (cs "n2") (power <$> [7]); RTimer (185, 0)].

Lemma node_events_stand : Forall2 (stands_for two_nodes ORCM_ANALYTICS_COMPUTE_MAX) node_events node_reports.
Proof.
  repeat (apply Forall2_cons; split; [first [apply stands_timer|apply stands_sample; [apply node_caddy_carries; [done|cbn; lia]|left; vm_compute; reflexivity]]|]).
  constructor.
Qed.

Lemma spatial_rounds_witness :
  exists ds o1 o2 o3, feed_spatial (H := group_expander) (fun x => dmul x x) (fun _ => true) None empty_world node_events =
      Ret (ds, [None; None; None; Some o1; None; None; Some o2; None; None; Some o3]) /\
    greatest o1 [of_int 3; of_int 4; of_int 5] /\ greatest o2 [of_int 6; of_int 2] /\ greatest o3 [of_int 7].
Proof.
  assert (E : exists s w, init_spatial_statistics (H := group_expander) (fun _ => true) spatial_statistics_con two_nodes empty_world =
      Ret (OPAL_SUCCESS, s, w) /\
    ss_nodelist s = Some [cs "n1"; cs "n2"] /\ ss_compute_type s = ORCM_ANALYTICS_COMPUTE_MAX /\ ss_interval s = 10).
  { eexists _, _. split; [vm_compute; reflexivity|]. by split_and!. }
  destruct E as (s & w & E & En & Ect & Ei).
  destruct (spatial_rounds (H := group_expander) (fun x => dmul x x) (fun _ => true) (fun _ => eq_refl) two_nodes empty_world w s [cs "n1"; cs "n2"]
    node_events node_reports E En) as (ds & outs & Ed & Ho).
  - repeat constructor; rewrite list_elem_of_In; cbn; intros Hx; by repeat destruct Hx as [Hx|Hx].
  - cbn. lia.
  - cbn. lia.
  - reflexivity.
  - rewrite Ect. apply node_events_stand.
  - rewrite Ect, Ei in Ho.
    assert (Er : rounds [cs "n1"; cs "n2"] 10 (MkRound None ∅) node_reports =
      [None; None; None; Some [of_int 3; of_int 4; of_int 5]; None; None; Some [of_int 6; of_int 2]; None; None; Some [of_int 7]])
      by (vm_compute; reflexivity).
    rewrite Er in Ho.
    repeat match type of Ho with
    | Forall2 _ _ (_ :: _) => apply Forall2_cons_inv_r in Ho as (? & ? & ? & Ho & ->)
    end.
    apply Forall2_nil_inv_r in Ho as ->. cbn [answers] in *.
    repeat match goal with H : exists _, _ |- _ => destruct H as (? & -> & ?) end. subst.
    eexists ds, _, _, _. split; [exact Ed|]. split; [assumption|]. split; assumption.
Defined.
